(* ===== verification/_CoqProject ===== *)
-Q . S2P
Prelude.v
Sdk.v
Types.v
Bank.v
Oracle.v
Collateral.v
Pqc.v
Migration.v
Stablecoin.v
System.v
Tfhe.v
Confidential.v
Privacy.v
Shards.v
Lwr.v
Proposal.v
Wire.v
Keys.v
ShardNet.v
Cluster.v
PrivacyMsgs.v
KVStore.v
Coins.v
BitArray.v
Gas.v
CacheIterators.v
CacheKV.v
PrefixKV.v
Pagination.v
Vesting.v
StoreKeys.v
Auth.v
BankStore.v
VestingMsgs.v
BankBooks.v
BankChain.v
BankGenesis.v
BankQueries.v
BankModules.v
SdkDec.v
Mint.v
Slashing.v
Evidence.v
Tx.v
Ante.v
AppAnte.v
Feegrant.v
FeegrantAnte.v
GreenBft.v
Runtime.v
