(* ===== verification/Prelude.v ===== *)
(** * Zytherion: a verification development

    Zytherion is a Cosmos-SDK chain (Go, src/) with an over-collateralised
    stablecoin, ZYTD.  Users lock whitelisted assets (x/ibc-collateral),
    validators report prices (x/oracle), and the stablecoin module mints ZYTD
    against the locked value at the oracle's price (x/stablecoin).  Messages of
    the stablecoin carry Dilithium5 signatures whose enforcement is phased in
    by height (migration.go).  A second, confidential ZYTD ledger keeps
    homomorphic ciphertexts next to public credit limits.  The privacy module
    stores commitments, charges rent for stored blobs, cuts ciphertexts into
    Reed-Solomon shards under a Merkle root, spreads the shards over the nodes
    by HTTP, and anchors every block with a lattice-based hash that proposers
    inject and validators recheck.  Accounts may use Dilithium5 keys derived
    from a mnemonic; files are encrypted to Kyber1024 keys; the application
    adapts its recommended block time to the load (app/greenbft).

    ** How the code is modelled

    A Go function becomes a Rocq function of the same name in a module named
    after its package.  Code that reads or writes state is a function
    [S -> outcome A * S] (the type [M]) where an outcome is a value, a returned
    error or a panic; the writes made before an error stay, and the rollback of
    a failed message is the explicit [runTx] of Types.v.  Key-value stores are
    maps from the keys the code builds (strings of bytes) to decoded values;
    int64, uint64, uint32 and int32 arithmetic is on [Z] with the wrap-around
    written out; sdk.Int and sdk.Dec are [Z] with the bounds of the library as
    a partial operation (class [SdkMath] of Sdk.v).  Code outside src/ is a
    class with its documented behaviour as laws: bech32, Dilithium5 and SHA3
    ([Crypto]), SHAKE-256 ([Shake]), SHA-256 ([Sha256]), the tfhe-rs bridge
    ([TFHELib], with [TFHELaws] that speak only of ciphertexts and keys of one
    key configuration, as the bridge asks), klauspost/reedsolomon ([ReedSolomon]), the key generation of
    Dilithium5 and Kyber1024, HKDF, AES-GCM, X25519 and protowire (Keys.v,
    Wire.v), and the errors of the file system ([Disk]); every theorem that
    uses such a law is also applied to a concrete instance.  Every operation
    can be evaluated.  A node is its part of the chain's state, its files, its
    rate limiter and an outbox of the uploads it sends; a cluster is a map from
    addresses to nodes, and a request is the receiver's routes, rate limiter
    first, run on the receiver; the remote address and the moment with which it
    arrives belong to the network (class [Network]).  Goroutines that share a channel are a step relation.

    ** Files

    - Prelude.v: errors, outcomes, the state monad and its inversion tactic
      [inv_go], the hint database [readonly], machine integers, strings and
      store keys, prefix iteration, sums over maps and lists.
    - Sdk.v: what the modules use of cosmos-sdk/types (addresses, coins, Int
      and Dec arithmetic).
    - Types.v: the data of the three economic modules (x/*/types), their
      messages with ValidateBasic, and the [World] the handlers run on.
    - Bank.v: the interface [BankKeeper] with the laws [BankLaws] its clients
      rely on, and cosmos-sdk/x/bank/keeper, which is proved to meet them.
    - Oracle.v: x/oracle (keeper, message server, queries, genesis,
      BeginBlock).
    - Collateral.v: x/ibc-collateral (keeper, message server, queries, genesis,
      IBC middleware).
    - Pqc.v: x/privacy/pqc/signature.go.
    - Migration.v: x/stablecoin/types/migration.go and the replay protection
      of x/stablecoin/ante.
    - Stablecoin.v: x/stablecoin (keeper, message server, queries, genesis).
    - System.v: transactions as BaseApp delivers them, and the states of the
      whole chain they reach.
    - Tfhe.v: x/privacy/tfhe/engine.go.
    - Confidential.v: x/stablecoin/keeper/confidential_transfer.go.
    - Privacy.v: the store and the state rent of x/privacy/keeper.
    - Shards.v: x/privacy/tfhe/merkle.go and erasure.go.
    - Lwr.v: x/privacy/pqc/lwr_hash.go, povl.go, hashing.go, block.go.
    - Proposal.v: app/lwr_proposal.go and BaseApp.ProcessProposal.
    - Wire.v: hexadecimal digits and Atoi of Go's library, and the protobuf
      field codecs of crypto/kyber1024/keys.go and crypto/dilithium5/keys.go.
    - Keys.v: crypto/dilithium5, crypto/kyber1024 and
      x/privacy/pqc/hybrid_kem.go.
    - ShardNet.v: x/privacy/tfhe/shard_store.go and shard_distributor.go on one
      node (files, rate limiter, HTTP handlers, distribution, reconstruction).
    - Cluster.v: the distributors of several nodes together, with the requests
      they exchange.
    - PrivacyMsgs.v: the message servers and queries of x/privacy/keeper with
      the metadata of keeper.go, ValidateBasic of x/privacy/types, and
      ParseCoinNormalized of cosmos-sdk/types.
    - GreenBft.v: app/greenbft, x/privacy/keeper/green_slashing.go, and the
      block hooks and transaction interception of app/app.go.
    - Runtime.v: x/privacy/tfhe/worker_pool.go and node_keys.go,
      tfhe/cosmwasm/query_plugin.go, pqc/greenbft.go, and EndBlock of
      x/privacy/module.go with app/pqc_apphash.go.
    - KVStore.v: the interface of the stores and their iterators
      (cosmos-sdk/store/types), clients as programs, prefix ranges.
    - CacheIterators.v, CacheKV.v: store/cachekv with its iterators, and the
      branches on which BaseApp.runTx runs a transaction.
    - PrefixKV.v: store/prefix.  Gas.v: store/types/gas.go and store/gaskv.
      Both are stores over a store, so they can be stacked with the branches.
    - Coins.v: the arithmetic and comparisons of cosmos-sdk/types/coin.go.
    - BitArray.v: crypto/types/compact_bit_array.go.
    - Vesting.v: x/auth/vesting/types, the schedules of vesting accounts and
      their counters of delegated coins.
    - Auth.v: keys, sign modes and multisignatures (crypto/keys/multisig,
      x/auth/signing), accounts (x/auth/types), the account keeper with its
      genesis (x/auth/keeper).
    - BankStore.v: x/bank (keeper, messages, invariants) over the accounts of
      Auth.v; VestingMsgs.v: the messages of x/auth/vesting; BankBooks.v: the
      effect of each operation on the books; BankChain.v: all calls in
      sequence; BankGenesis.v: its genesis; BankQueries.v: its gRPC queries,
      over Pagination.v (types/query); BankModules.v: when the calls modules
      make to it succeed.  Bank.v is what the modules of the chain need of it,
      with the locks as a parameter.
    - Mint.v: x/mint and the token pools of x/staking, over BankStore.v;
      SdkDec.v: the decimal operations only they use.
    - Slashing.v: x/slashing, over the interface it has to x/staking;
      Evidence.v: x/evidence, over Slashing.v.
    - Tx.v: decoded transactions (types/tx, x/auth/tx): signers, fee payer,
      ValidateBasic, signatures, the bytes that are signed in each mode.
    - Ante.v: the twelve decorators of x/auth/ante and their chain; AppAnte.v:
      the options app/app.go gives it, with the gas of Dilithium5 signatures.
    - StoreKeys.v: the parts of store keys (types/utils.go, types/address,
      types/kv): big-endian numbers, sortable times, length prefixes.
    - Feegrant.v: x/feegrant (allowances, keeper, messages, EndBlocker,
      genesis); FeegrantAnte.v: it as the fee grants of the ante handler.

    ** What the theorems show

    - Oracle: the reported price is a median that a minority of reports cannot
      move out of the honest range; pruning never changes it; the exact effect
      of a submission, including that a second one in the same block replaces
      the first; every stored price is positive; what BeginBlock refreshes.
    - Collateral: locking and unlocking move exactly the coins they name and
      keep position and total in step; a position with debt cannot be
      unlocked; lock and unlock round trip; genesis round trip; the IBC
      middleware changes nothing but an event.
    - Stablecoin: the exact effect and collateral bound of a mint;
      QueryMaxMintable answers the exact limit MintZYTD enforces; no burn and no
      liquidation ever succeeds (the code unlocks before it reduces the debt);
      the phases of the migration are enforced and never go back; exporting
      the genesis loses the registered keys.
    - System: in every reachable state the bank's vault holds the total locked,
      which is the sum of the positions, and ZYTD supply, recorded supply and
      recorded debts agree; supply never falls.
    - Confidential: credit limits add up to what was minted; the encrypted
      balance of an account whose keys are of the node's key configuration is
      its limit modulo 2^32, and with keys of his own a user loses it; what a transfer moves and when it
      succeeds; the limit outgrows the balance at 2^32.
    - Privacy: rent never starts; the exact charge; eviction only after an
      announced and unpaid grace period.
    - Shards: Merkle completeness and soundness up to an explicit collision,
      acceptance of interior nodes, recovery from any 12 of 16 shards.
    - Lwr and Proposal: the int32 product is negacyclic multiplication with
      rounding, the block hash, signed blocks; when sampling ends, the
      proposals that are prepared are accepted, what acceptance implies, malformed proposals are rejected.
    - Wire and Keys: the codecs round trip; a valid mnemonic gives a usable key;
      files encrypted to a key come back; the sides of the hybrid exchange
      derive different keys.
    - ShardNet and Cluster: the rate limiter's bound, and that requests within
      its room pass; what an upload writes and what was checked before; every
      shard that passes reaches the nodes it is assigned to, and its readers
      find it while one of them runs; large shards stay home, and forged ones
      are accepted.
    - PrivacyMsgs: the exact effect of a submission; a submitted ciphertext is
      answered by every node; one submission per account; the shapes of the
      store; deposits are never paid back; nodes may store different metadata.
    - GreenBft: the ring buffer is the average of the last ten loads; the
      timeout depends on the mempool; a missed block is never forgiven; itoa
      is the decimal representation.
    - Runtime: every execution of the worker pool ends with every caller
      answered; keys persist, and a node has two pairs; contracts compute on
      plaintexts; the latest block hash binds the whole history.
    - Stores: a cached branch of any lawful store is a lawful store; its
      iterators visit the parent's entries overridden by the branch's; Write
      moves its contents; a transaction on branches is all or nothing; a
      client of a prefix store cannot tell it from a store of its own and
      touches nothing else; a client of a metered store gets what the parent
      gives and pays exactly the sum of its charges, or panics.
    - Coins: valid sets are a commutative monoid with a partial difference,
      and a lattice under Max and Min; what the comparisons decide, and where
      IsEqual panics.
    - Accounts and keys: account numbers are never shared or given out twice,
      removals included; the genesis round trip, with duplicate numbers repaired; exactly when a
      multisignature verifies; the JSON of bit arrays round trips.
    - Vesting: on schedules in order what is vested only grows, from nothing to
      everything; periods whose lengths wrap vest at once; what is locked and
      how delegations are counted.
    - Bank: in every reachable state the supply of each denomination is the sum
      of its balances, the index of holders is exact, and what vesting schedules
      lock is there; when and how coins can be sent, issued and destroyed;
      delegations can be taken back; the genesis round trip, and when an
      exported genesis is one that validates.
    - Queries: following the pages of any store visits every entry once; the
      owners of a denomination are exactly its holders; what is reported as
      spendable is what can be sent.
    - Mint: inflation stays within its bounds and moves towards the goal; blocks
      mint exactly their provision, so supply grows at most by the greatest
      rate; a number of blocks per year that stops the chain.
    - Slashing: the counter of missed blocks is the number of bits set; with a
      fixed window it is the misses among the last votes, and decides exactly
      who is jailed; a tombstone is forever; a window that shrinks, and an
      export, leave the counter behind.
    - Evidence: what evidence of a double sign does, and when it is ignored; a
      key is punished once; the genesis round trip; evidence in messages always
      fails, since no router is set.
    - Transactions: who signs; signatures round trip through the wire form.
      An accepted transaction has passed every check, paid its fee and used
      the sequences of its signers, and nothing else; it is never accepted
      again; a direct signature binds chain, account, body and fee; no
      multisignature with a Dilithium5 signer is ever accepted.
    - Fee grants: the fees accepted under a grant stay within its limit; no
      expired grant survives a block; the genesis round trip; a revoked grant
      leaves a queue entry that removes a later one; a period's limit can be
      exceeded; a transaction paid by another account was within a grant.  The
      keys of times sort as the times do.

    ** Bounds and fuel

    Recursion is structural except for the halving loop of log2 (fuel n, more
    than the log2 n halvings), encodeVarint (ten bytes hold 64 bits), the
    decoder of Wire.v (fuel the length of the input, proved enough), itoa (20
    digits) and the rejection sampling of expandMatrix, which reads an
    unbounded stream: its fuel counts the reads of two bytes, and running out
    (None) is a separate result.  No bound holds for every seed, so Lwr.v also
    defines without fuel what the loop keeps of the first n reads ([accepted]);
    the loop ends exactly when that is long enough, and then with the same
    result for every fuel from n on.  Theorems about hashes and proposals
    conclude that there is a result, from the condition that the stream of the
    seed in question (or of every 32-byte seed) holds 256 usable values.
    Loops over iterators and the binary search of cachekv have as fuel a bound
    on the entries that are left, and are proved to return.  The search for an
    unused account number has one more step than there are used ones, and the
    loop of InitGenesis that raises the next number one step per number up to
    the account's; both are proved to suffice.

    ** Not modelled

    Command lines, REST and gRPC glue, generated protobuf code (other than the
    message records), the wiring of modules in app.go, the JSON forms of keys,
    the carbon report (constants), the HTTP server's goroutine and time-outs,
    the running of goroutines other than the pool's, and the consensus engine.
    Of cosmos-sdk, which src/ holds as a whole, the path of a transaction is
    modelled: stores under branches, prefixes and gas, coins, accounts, keys,
    transactions, the ante handler, message delivery, the bank.  Left out
    of those parts: the sizes of encoded accounts (a parameter of the gas), the multi-store, and
    the store accesses of the bank under gas, which are charged as a parameter
    before the call.  Minting, slashing and evidence are modelled too; the other SDK
    modules (staking but for its pools, distribution, governance and so on) are
    only interfaces.  JSON and protobuf
    encodings of the store are not modelled byte by byte: a store maps a key to
    the decoded value; the JSON of shard metadata, of uploads and of bit arrays
    is modelled where its size or its fields decide what happens.

    The next parts in order: governance; the multi-store above the
    branches; the export of the application's genesis. *)

From Stdlib Require Import ZArith Lia Ascii String.
From stdpp Require Import base gmap sets list strings fin_maps sorting pretty.

Declare Scope go_scope.
Delimit Scope go_scope with go.

Open Scope Z_scope.

(** ** Errors and outcomes of Go code *)

(** An error value: a sentinel of [errorsmod.Register codespace code], or a
    [fmt.Errorf]/[errors.New] error, whose [%w] cause is kept so that
    [errors.Is] can look through it.  Only the constant part of a message is
    kept. *)
Inductive err : Type :=
  | Registered (codespace : string) (code : Z)
  | Errorf (msg : string)
  | Wrapf (msg : string) (cause : err).

#[export] Instance err_eq_dec : EqDecision err.
Proof. solve_decision. Defined.

(** [errors.Is e target] for a registered target. *)
Fixpoint errors_Is (e : err) (codespace : string) (code : Z) : bool :=
  match e with
  | Registered s c => bool_decide (s = codespace) && bool_decide (c = code)
  | Wrapf _ e' => errors_Is e' codespace code
  | Errorf _ => false
  end.

(** What a call ends in: a value, a returned error, or a panic. *)
Inductive outcome (A : Type) : Type :=
  | Ok (a : A)
  | Err (e : err)
  | Panic.
Arguments Ok {A} a.
Arguments Err {A} e.
Arguments Panic {A}.

Definition is_Ok {A} (o : outcome A) : bool :=
  match o with Ok _ => true | _ => false end.

(** Stateful Go code: the writes made before an error or a panic stay in the
    state; undoing them is the caller's business (see [runTx]). *)
Definition M (S A : Type) : Type := S -> outcome A * S.

Section Monad.
Context {S : Type}.

Definition ret {A} (a : A) : M S A := fun s => (Ok a, s).
Definition throw {A} (e : err) : M S A := fun s => (Err e, s).
Definition panic {A} : M S A := fun s => (Panic, s).
Definition get : M S S := fun s => (Ok s, s).
Definition modify (f : S -> S) : M S unit := fun s => (Ok tt, f s).
Definition reads {A} (f : S -> A) : M S A := fun s => (Ok (f s), s).

Definition bind {A B} (c : M S A) (k : A -> M S B) : M S B := fun s =>
  match c s with
  | (Ok a, s') => k a s'
  | (Err e, s') => (Err e, s')
  | (Panic, s') => (Panic, s')
  end.

(** [x, err := c]: the error becomes a value the code can branch on. *)
Definition try {A} (c : M S A) : M S (A + err) := fun s =>
  match c s with
  | (Ok a, s') => (Ok (inl a), s')
  | (Err e, s') => (Ok (inr e), s')
  | (Panic, s') => (Panic, s')
  end.

(** [if err != nil { return f(err) }]. *)
Definition map_err {A} (f : err -> err) (c : M S A) : M S A := fun s =>
  match c s with
  | (Err e, s') => (Err (f e), s')
  | r => r
  end.

(** A partial operation that panics when it has no result. *)
Definition or_panic {A} (o : option A) : M S A :=
  match o with Some a => ret a | None => panic end.

(** An error becomes a panic. *)
Definition must {A} (c : M S A) : M S A := fun s => match c s with (Err _, s') => (Panic, s') | r => r end.

(** A pure check that returns an error, or nil. *)
Definition check (o : option err) : M S unit :=
  match o with Some e => throw e | None => ret tt end.

Definition when (b : bool) (c : M S unit) : M S unit :=
  if b then c else ret tt.

Fixpoint for_each {A} (l : list A) (f : A -> M S unit) : M S unit :=
  match l with
  | [] => ret tt
  | x :: l => bind (f x) (fun _ => for_each l f)
  end.
End Monad.

Notation "'let!' x := c 'in' k" := (bind c (fun x => k))
  (at level 200, x name, right associativity,
   format "'[v' 'let!'  x  :=  c  'in' '/' k ']'") : go_scope.
Notation "c ;;! k" := (bind c (fun _ => k))
  (at level 199, right associativity) : go_scope.

(** ** Machine integers *)

Definition two64 : Z := 18446744073709551616.
Definition two63 : Z := 9223372036854775808.

(** Two's complement wrap-around of Go's int64 and uint64. *)
Definition wrap_i64 (z : Z) : Z := (z + two63) mod two64 - two63.
Definition wrap_u64 (z : Z) : Z := z mod two64.
Definition wrap_u32 (z : Z) : Z := z mod 4294967296.

Definition in_i64 (z : Z) : Prop := - two63 <= z < two63.

Lemma wrap_i64_id z : in_i64 z -> wrap_i64 z = z.
Proof. unfold wrap_i64, in_i64, two63, two64. intros. rewrite Z.mod_small; lia. Qed.

Lemma wrap_i64_range z : in_i64 (wrap_i64 z).
Proof.
  unfold wrap_i64, in_i64, two63, two64.
  pose proof (Z.mod_pos_bound (z + 9223372036854775808) 18446744073709551616). lia.
Qed.

Lemma wrap_u64_id z : 0 <= z < two64 -> wrap_u64 z = z.
Proof. apply Z.mod_small. Qed.

(** ** Running and inverting stateful code *)

Lemma bind_assoc {R A B C} (c : M R A) (k : A -> M R B) (j : B -> M R C) (s : R) : bind (bind c k) j s = bind c (fun a => bind (k a) j) s.
Proof. unfold bind. by destruct (c s) as [[]]. Qed.

Lemma bind_same {R A B} (c : M R A) (k j : A -> M R B) (s : R) : (forall a s', k a s' = j a s') -> bind c k s = bind c j s.
Proof. intros E. unfold bind. destruct (c s) as [[]]; [apply E|done..]. Qed.

Section MonadLemmas.
Context {S A B : Type}.

Lemma bind_ok (c : M S A) (k : A -> M S B) s b s2 :
  bind c k s = (Ok b, s2) ->
  exists a s1, c s = (Ok a, s1) /\ k a s1 = (Ok b, s2).
Proof. unfold bind. destruct (c s) as [[a|e|] s1]; intros; simplify_eq; eauto. Qed.

Lemma bind_run (c : M S A) (k : A -> M S B) s a s1 :
  c s = (Ok a, s1) -> bind c k s = k a s1.
Proof. unfold bind. by intros ->. Qed.

Lemma bind_ret (a : A) (k : A -> M S B) s : bind (ret a) k s = k a s.
Proof. done. Qed.

Lemma bind_run_err (c : M S A) (k : A -> M S B) s e s1 :
  c s = (Err e, s1) -> bind c k s = (Err e, s1).
Proof. unfold bind. by intros ->. Qed.

Lemma map_err_ok f (c : M S A) s a s1 :
  map_err f c s = (Ok a, s1) -> c s = (Ok a, s1).
Proof. unfold map_err. destruct (c s) as [[|e|] ?]; intros; by simplify_eq. Qed.

Lemma map_err_run f (c : M S A) s a s1 :
  c s = (Ok a, s1) -> map_err f c s = (Ok a, s1).
Proof. unfold map_err. by intros ->. Qed.

Lemma map_err_run_err f (c : M S A) s e s1 :
  c s = (Err e, s1) -> map_err f c s = (Err (f e), s1).
Proof. unfold map_err. by intros ->. Qed.

Lemma must_run (c : M S A) s a s1 :
  c s = (Ok a, s1) -> must c s = (Ok a, s1).
Proof. unfold must. by intros ->. Qed.

Lemma or_panic_ok (o : option A) (s : S) a s1 :
  or_panic o s = (Ok a, s1) -> o = Some a /\ s1 = s.
Proof. destruct o; cbv; intros; by simplify_eq. Qed.

Lemma check_ok o (s : S) u s1 : check o s = (Ok u, s1) -> o = None /\ s1 = s.
Proof. destruct o; cbv; intros; by simplify_eq. Qed.

Lemma ret_ok (a b : A) (s s1 : S) : ret a s = (Ok b, s1) -> b = a /\ s1 = s.
Proof. cbv. intros. by simplify_eq. Qed.

Lemma reads_ok (f : S -> A) (b : A) (s s1 : S) :
  reads f s = (Ok b, s1) -> b = f s /\ s1 = s.
Proof. cbv. intros. by simplify_eq. Qed.

Lemma modify_ok (f : S -> S) u s s1 : modify f s = (Ok u, s1) -> s1 = f s.
Proof. cbv. intros. by simplify_eq. Qed.

Lemma try_ok (c : M S A) s r s1 :
  try c s = (Ok r, s1) ->
  (exists a, r = inl a /\ c s = (Ok a, s1)) \/ (exists e, r = inr e /\ c s = (Err e, s1)).
Proof. unfold try. destruct (c s) as [[a|e|] ?]; intros; simplify_eq; eauto. Qed.
End MonadLemmas.

Lemma when_ok {S} b (c : M S unit) s u s1 :
  when b c s = (Ok u, s1) -> (b = true /\ c s = (Ok u, s1)) \/ (b = false /\ s1 = s).
Proof. destruct b; cbn; [by left|]. intros [? ->]%ret_ok. by right. Qed.

Lemma for_each_inv {S A} (P : S -> Prop) (f : A -> M S unit) l s u s' :
  (forall x s u s', f x s = (Ok u, s') -> P s -> P s') ->
  for_each l f s = (Ok u, s') -> P s -> P s'.
Proof.
  intros Hf. revert s. induction l as [|x l IH]; cbn [for_each]; intros s Hr HP.
  - by apply ret_ok in Hr as [_ ->].
  - apply bind_ok in Hr as (? & s1 & ? & ?). eauto.
Qed.

Lemma for_each_modify {S A} (f : A -> S -> S) l s : for_each l (fun x => modify (f x)) s = (Ok tt, foldl (fun s x => f x s) s l).
Proof. revert s. induction l as [|x l IH]; intros s; [done|]. cbn [for_each]. exact (IH (f x s)). Qed.

(** Turns a hypothesis "this code returned [Ok]" into the facts its steps
    established, one branch of the code at a time. *)
Ltac inv_go :=
  repeat match goal with
  | H : bind _ _ _ = (Ok _, _) |- _ => apply bind_ok in H as (? & ? & ? & ?)
  | H : ret _ _ = (Ok _, _) |- _ => apply ret_ok in H as [? ?]; subst
  | H : reads _ _ = (Ok _, _) |- _ => apply reads_ok in H as [? ?]; subst
  | H : modify _ _ = (Ok _, _) |- _ => apply modify_ok in H; subst
  | H : throw _ _ = (Ok _, _) |- _ => discriminate H
  | H : panic _ = (Ok _, _) |- _ => discriminate H
  | H : (_, _) = (Ok _, _) |- _ => injection H as ? ?; subst
  | H : map_err _ _ _ = (Ok _, _) |- _ => apply map_err_ok in H
  | H : or_panic _ _ = (Ok _, _) |- _ => apply or_panic_ok in H as [? ?]; subst
  | H : check _ _ = (Ok _, _) |- _ => apply check_ok in H as [? ?]; subst
  | H : when _ _ _ = (Ok _, _) |- _ => apply when_ok in H as [[? ?]|[? ?]]; subst
  | H : try _ _ = (Ok _, _) |- _ => apply try_ok in H as [(? & ? & ?)|(? & ? & ?)]; subst
  | H : (if ?b then _ else _) _ = (Ok _, _) |- _ => destruct b eqn:?
  | H : (match ?x with _ => _ end) _ = (Ok _, _) |- _ => destruct x eqn:?
  | H : None = Some _ |- _ => discriminate H
  | H : Some _ = Some _ |- _ => injection H as ?; subst
  | H : (match ?x with _ => _ end) = Some _ |- _ => destruct x eqn:?
  end.

(** *** Code that only reads *)

Definition readonly {S A} (c : M S A) : Prop := forall s, snd (c s) = s.

Lemma readonly_run {S A} (c : M S A) s r s' : readonly c -> c s = (r, s') -> s' = s.
Proof. intros Hc E. by rewrite <- (Hc s), E. Qed.

Section Readonly.
Context {S A B : Type}.

Lemma readonly_ret (a : A) : readonly (@ret S A a).
Proof. done. Qed.
Lemma readonly_throw e : readonly (@throw S A e).
Proof. done. Qed.
Lemma readonly_panic : readonly (@panic S A).
Proof. done. Qed.
Lemma readonly_reads (f : S -> A) : readonly (reads f).
Proof. done. Qed.
Lemma readonly_check o : readonly (@check S o).
Proof. by destruct o. Qed.
Lemma readonly_or_panic (o : option A) : readonly (@or_panic S A o).
Proof. by destruct o. Qed.
Lemma readonly_bind (c : M S A) (k : A -> M S B) :
  readonly c -> (forall a, readonly (k a)) -> readonly (bind c k).
Proof.
  intros Hc Hk s. unfold bind. destruct (c s) as [[a|e|] s1] eqn:E; rewrite (readonly_run _ _ _ _ Hc E); [|done..].
  apply Hk.
Qed.
Lemma readonly_try (c : M S A) : readonly c -> readonly (try c).
Proof.
  intros Hc s. unfold try. destruct (c s) as [[a|e|] s1] eqn:E; by rewrite (readonly_run _ _ _ _ Hc E).
Qed.
Lemma readonly_map_err f (c : M S A) : readonly c -> readonly (map_err f c).
Proof.
  intros Hc s. unfold map_err. destruct (c s) as [[a|e|] s1] eqn:E; by rewrite (readonly_run _ _ _ _ Hc E).
Qed.
End Readonly.

Create HintDb readonly.
#[export] Hint Resolve readonly_ret readonly_throw readonly_panic readonly_reads readonly_check
  readonly_or_panic readonly_bind readonly_try readonly_map_err : readonly.

Ltac solve_readonly :=
  repeat first
    [ progress intros
    | solve [eauto 1 with readonly]
    | apply readonly_bind
    | apply readonly_try
    | apply readonly_map_err
    | progress cbv zeta
    | match goal with |- readonly (match ?x with _ => _ end) => destruct x end ].

(** *** Computations that never return a given error *)

Definition avoids {S A} (e : err) (c : M S A) : Prop := forall s, fst (c s) <> Err e.

Section Avoids.
Context {S A B : Type} (e : err).

Lemma avoids_ret (a : A) : avoids e (@ret S A a).
Proof. done. Qed.
Lemma avoids_modify (f : S -> S) : avoids e (modify f).
Proof. done. Qed.
Lemma avoids_reads (f : S -> A) : avoids e (reads f).
Proof. done. Qed.
Lemma avoids_or_panic (o : option A) : avoids e (@or_panic S A o).
Proof. by destruct o. Qed.
Lemma avoids_bind (c : M S A) (k : A -> M S B) : avoids e c -> (forall a, avoids e (k a)) -> avoids e (bind c k).
Proof.
  intros Hc Hk s. specialize (Hc s). unfold bind. destruct (c s) as [[a|e'|] s1]; [apply Hk|..]; cbn in *; congruence.
Qed.
Lemma avoids_try (c : M S A) : avoids e (try c).
Proof. intros s. unfold try. by destruct (c s) as [[a|e'|] s1]. Qed.
Lemma avoids_map_err f (c : M S A) : (forall e', f e' <> e) -> avoids e (map_err f c).
Proof. intros Hf s. unfold map_err. destruct (c s) as [[a|e'|] s1]; cbn; [done| |done]. intros [= E]. by apply (Hf e'). Qed.
End Avoids.

Create HintDb avoids.
#[export] Hint Resolve avoids_ret avoids_modify avoids_reads avoids_or_panic avoids_try : avoids.

Ltac solve_avoids :=
  repeat first
    [ progress intros
    | solve [eauto 1 with avoids]
    | apply avoids_bind
    | apply avoids_map_err; intros ?; discriminate
    | progress cbv zeta
    | match goal with |- avoids _ (match ?x with _ => _ end) => destruct x end ].

(** ** Byte strings *)

(** Go strings and byte slices are both lists of bytes: [string]. *)
Fixpoint has_char (c : ascii) (s : string) : bool :=
  match s with
  | EmptyString => false
  | String c' s => Ascii.eqb c c' || has_char c s
  end.

Lemma string_app_cons c s t : String c s +:+ t = String c (s +:+ t).
Proof. done. Qed.

Lemma string_app_nil t : EmptyString +:+ t = t.
Proof. done. Qed.

Ltac string_simpl := rewrite ?string_app_cons, ?string_app_nil in *.

Lemma has_char_app c s t : has_char c (s +:+ t) = has_char c s || has_char c t.
Proof.
  induction s as [|c' s IH]; string_simpl; [done|]. cbn. by rewrite IH, orb_assoc.
Qed.

Lemma prefix_iff p s : String.prefix p s = true <-> exists t, s = p +:+ t.
Proof.
  split.
  - revert s. induction p as [|c p IH]; intros s; [by exists s|].
    destruct s as [|c' s]; cbn; [done|].
    destruct (ascii_dec c c') as [->|]; [|done]. intros [t ->]%IH. by exists t.
  - intros [t ->]. induction p as [|c p IH]; string_simpl; [by destruct t|].
    cbn. destruct (ascii_dec c c); done.
Qed.

Lemma str_length_app (a b : string) : String.length (a +:+ b) = (String.length a + String.length b)%nat.
Proof. induction a as [|c a IH]; [done|]. exact (f_equal S IH). Qed.

(** Concatenations that agree split at the same place when the first parts
    are equally long. *)
Lemma str_app_inj_len (a b a' b' : string) :
  String.length a = String.length a' -> a +:+ b = a' +:+ b' -> a = a' /\ b = b'.
Proof.
  revert a'. induction a as [|c a IH]; intros [|c' a'] Hl E; try discriminate; [done|].
  injection Hl as Hl. injection E as -> E. destruct (IH a' Hl E) as [-> ->]. done.
Qed.

Lemma prefix_app p t : String.prefix p (p +:+ t) = true.
Proof. apply prefix_iff. by exists t. Qed.

Lemma string_app_inj (p s t : string) : p +:+ s = p +:+ t -> s = t.
Proof. induction p as [|c p IH]; string_simpl; [done|]. intros [= ?]. auto. Qed.

(** A key [a/b] determines [a] and [b] when the separator is in no [a]... *)
Lemma first_sep_inj c a b a' b' :
  has_char c a = false -> has_char c a' = false ->
  a +:+ String c b = a' +:+ String c b' -> a = a' /\ b = b'.
Proof.
  revert a'. induction a as [|x a IH]; intros [|y a'] Ha Ha' E;
    cbn in Ha, Ha'; string_simpl.
  - by injection E.
  - injection E as -> ->. by rewrite Ascii.eqb_refl in Ha'.
  - injection E as -> <-. by rewrite Ascii.eqb_refl in Ha.
  - apply orb_false_iff in Ha as [? ?], Ha' as [? ?].
    injection E as -> E. destruct (IH a') as [-> ->]; auto.
Qed.

(** ...or when it is in no [b]. *)
Lemma last_sep_inj c a b a' b' :
  has_char c b = false -> has_char c b' = false ->
  a +:+ String c b = a' +:+ String c b' -> a = a' /\ b = b'.
Proof.
  intros Hb Hb'. revert a'. induction a as [|x a IH]; intros [|y a'] E; string_simpl.
  - by injection E.
  - injection E as -> ->. rewrite has_char_app in Hb. cbn in Hb.
    rewrite Ascii.eqb_refl, orb_true_r in Hb. done.
  - injection E as -> <-. rewrite has_char_app in Hb'. cbn in Hb'.
    rewrite Ascii.eqb_refl, orb_true_r in Hb'. done.
  - injection E as -> E. destruct (IH a') as [-> ->]; auto.
Qed.

(** Decimal numerals, as [%d] prints them, hold no separator. *)
Lemma pretty_N_go_no_slash x s :
  has_char "/" s = false -> has_char "/" (pretty_N_go x s) = false.
Proof.
  revert s. induction (N.lt_wf_0 x) as [x _ IH]; intros s Hs.
  assert (x = 0 \/ 0 < x)%N as [->|?] by lia; [by rewrite pretty_N_go_0|].
  rewrite pretty_N_go_step by done. apply IH; [by apply N.div_lt|].
  cbn [has_char]. rewrite Hs. unfold pretty_N_char. by repeat case_match.
Qed.

Lemma pretty_Z_no_slash (z : Z) : has_char "/" (pretty z) = false.
Proof.
  assert (HN : forall x : N, has_char "/" (pretty x) = false).
  { intros x. unfold pretty, pretty_N. case_decide; [done|].
    by apply pretty_N_go_no_slash. }
  destruct z as [|p|p]; [done|apply (HN (Npos p))|].
  change (pretty (Z.neg p)) with ("-" +:+ pretty p). cbn. apply (HN (Npos p)).
Qed.

(** ** Finite-map stores *)

(** The key-value stores of the modules iterate in byte order of the keys. *)
Definition key_le {V} (x y : string * V) : Prop := String.leb x.1 y.1 = true.

#[export] Instance key_le_dec {V} : RelDecision (@key_le V).
Proof. intros x y. unfold key_le. apply _. Defined.

(** [sdk.KVStorePrefixIterator]: the entries whose key starts with [p]. *)
Definition kv_prefix_iter {V} (p : string) (m : gmap string V) : list (string * V) :=
  filter (fun kv => String.prefix p kv.1 = true) (merge_sort key_le (map_to_list m)).

Lemma elem_of_kv_prefix_iter {V} p (m : gmap string V) k v :
  (k, v) ∈ kv_prefix_iter p m <-> m !! k = Some v /\ String.prefix p k = true.
Proof.
  unfold kv_prefix_iter. rewrite list_elem_of_filter, (merge_sort_Permutation key_le).
  rewrite elem_of_map_to_list. cbn. tauto.
Qed.

Lemma NoDup_kv_prefix_iter {V} p (m : gmap string V) : NoDup (kv_prefix_iter p m).*1.
Proof.
  unfold kv_prefix_iter. apply (sublist_NoDup _ (merge_sort key_le (map_to_list m)).*1).
  - by rewrite (merge_sort_Permutation key_le); apply NoDup_fst_map_to_list.
  - apply fmap_sublist, sublist_filter.
Qed.

(** The sum of [f] over the entries of a map. *)
Definition map_sum {K V} `{Countable K} (f : K -> V -> Z) (m : gmap K V) : Z :=
  map_fold (fun k v acc => f k v + acc) 0 m.

Section MapSum.
Context {K V : Type} `{Countable K} (f : K -> V -> Z).
Implicit Types m : gmap K V.

Lemma map_sum_empty : map_sum f ∅ = 0.
Proof. apply map_fold_empty. Qed.

Lemma map_sum_insert_new m k v :
  m !! k = None -> map_sum f (<[k:=v]> m) = f k v + map_sum f m.
Proof. intros. unfold map_sum. rewrite map_fold_insert_L; [done|lia|done]. Qed.

Lemma map_sum_delete m k v :
  m !! k = Some v -> map_sum f (delete k m) = map_sum f m - f k v.
Proof. intros. unfold map_sum. rewrite (map_fold_delete_L _ _ k v m); [lia|lia|done]. Qed.

(** Replacing one entry changes the sum by the difference of its terms. *)
Lemma map_sum_insert m k v :
  map_sum f (<[k:=v]> m) = map_sum f m + f k v - default 0 (f k <$> m !! k).
Proof.
  destruct (m !! k) as [v'|] eqn:E; cbn.
  - rewrite <- insert_delete_eq, map_sum_insert_new by apply lookup_delete_eq.
    rewrite (map_sum_delete _ _ v') by done. lia.
  - rewrite map_sum_insert_new by done. lia.
Qed.

Lemma map_sum_delete_any m k :
  map_sum f (delete k m) = map_sum f m - default 0 (f k <$> m !! k).
Proof.
  destruct (m !! k) as [v|] eqn:E; cbn; [by apply map_sum_delete|].
  rewrite delete_id by done. lia.
Qed.

Lemma map_sum_nonneg m :
  (forall k v, m !! k = Some v -> 0 <= f k v) -> 0 <= map_sum f m.
Proof.
  induction m as [|k v m Hk IH] using map_ind; intros Hm; [by rewrite map_sum_empty|].
  rewrite map_sum_insert_new by done.
  pose proof (Hm k v (lookup_insert_eq _ _ _)).
  enough (0 <= map_sum f m) by lia. apply IH. intros k' v' Hk'. apply (Hm k').
  by rewrite lookup_insert_ne by congruence.
Qed.

Lemma map_sum_zero m : (forall k v, m !! k = Some v -> f k v = 0) -> map_sum f m = 0.
Proof.
  induction m as [|k v m Hk IH] using map_ind; intros Hm; [apply map_sum_empty|].
  rewrite map_sum_insert_new, IH, (Hm k); [done|by rewrite lookup_insert_eq| |done].
  intros k' v' Hk'. apply (Hm k'). rewrite lookup_insert_ne; [done|]. intros ->. congruence.
Qed.

Lemma map_sum_lookup_le m k v :
  (forall k v, m !! k = Some v -> 0 <= f k v) -> m !! k = Some v -> f k v <= map_sum f m.
Proof.
  intros Hm Hk. enough (0 <= map_sum f (delete k m)) as Hd
    by (rewrite (map_sum_delete _ _ _ Hk) in Hd; lia).
  apply map_sum_nonneg. intros k' v' [_ ?]%lookup_delete_Some. eauto.
Qed.
End MapSum.

(** Sums over lists, and over the entries an iteration visits. *)
Definition lsum {A} (g : A -> Z) (l : list A) : Z := foldr (fun x acc => g x + acc) 0 l.

Arguments lsum : simpl never.

Lemma lsum_cons {A} (g : A -> Z) x l : lsum g (x :: l) = g x + lsum g l.
Proof. done. Qed.

Section ListSum.
Context {A C : Type}.


Lemma lsum_perm (g : A -> Z) l l' : l ≡ₚ l' -> lsum g l = lsum g l'.
Proof. induction 1; rewrite ?lsum_cons; lia. Qed.

Lemma lsum_filter (g : A -> Z) (P : A -> Prop) `{!forall x, Decision (P x)} l :
  (forall x, x ∈ l -> ~ P x -> g x = 0) -> lsum g (filter P l) = lsum g l.
Proof.
  induction l as [|x l IH]; intros Hz; [done|]. rewrite filter_cons.
  specialize (IH ltac:(set_solver)). case_decide as HP; rewrite ?lsum_cons, IH; [done|].
  rewrite (Hz x); [done|by left|done].
Qed.

Lemma lsum_omap (f : A -> option C) (g : C -> Z) l :
  lsum g (omap f l) = lsum (fun x => default 0 (g <$> f x)) l.
Proof.
  induction l as [|x l IH]; [done|]. rewrite lsum_cons.
  change (omap f (x :: l)) with (match f x with Some y => y :: omap f l | None => omap f l end).
  destruct (f x) as [y|]; [rewrite lsum_cons|]; by rewrite IH.
Qed.

Lemma lsum_ext (g h : A -> Z) l : (forall x, x ∈ l -> g x = h x) -> lsum g l = lsum h l.
Proof.
  induction l as [|x l IH]; intros E; [done|]. rewrite !lsum_cons, (E x) by left.
  rewrite IH; [done|]. set_solver.
Qed.

Lemma lsum_nonneg (g : A -> Z) l : (forall x, x ∈ l -> 0 <= g x) -> 0 <= lsum g l.
Proof.
  induction l as [|x l IH]; intros Hg; [done|]. rewrite lsum_cons.
  pose proof (Hg x ltac:(by left)). specialize (IH ltac:(set_solver)). lia.
Qed.
End ListSum.

Lemma map_sum_lsum {K V} `{Countable K} (f : K -> V -> Z) (m : gmap K V) :
  map_sum f m = lsum (fun kv => f kv.1 kv.2) (map_to_list m).
Proof.
  unfold map_sum, lsum. rewrite map_fold_foldr.
  induction (map_to_list m) as [|[k v] l IH]; cbn; [done|]. by rewrite IH.
Qed.

Lemma lsum_fmap {A C} (f : A -> C) (g : C -> Z) l : lsum g (f <$> l) = lsum (fun x => g (f x)) l.
Proof. induction l as [|x l IH]; [done|]. cbn [fmap list_fmap]. by rewrite !lsum_cons, <- IH. Qed.

Lemma lsum_kv_prefix_iter {V} (f : string -> V -> Z) p (m : gmap string V) :
  (forall k v, m !! k = Some v -> String.prefix p k = false -> f k v = 0) ->
  lsum (fun kv => f kv.1 kv.2) (kv_prefix_iter p m) = map_sum f m.
Proof.
  intros Hz. unfold kv_prefix_iter. rewrite lsum_filter.
  - rewrite map_sum_lsum. apply lsum_perm, merge_sort_Permutation.
  - intros [k v]. rewrite (merge_sort_Permutation key_le), elem_of_map_to_list. cbn. intros Hk Hp.
    apply (Hz _ _ Hk). by destruct (String.prefix p k).
Qed.

Lemma map_sum_filter {K V} `{Countable K} (f : K -> V -> Z) (P : K * V -> Prop)
    `{!forall x, Decision (P x)} (m : gmap K V) :
  (forall k v, m !! k = Some v -> ~ P (k, v) -> f k v = 0) -> map_sum f (filter P m) = map_sum f m.
Proof.
  induction m as [|k v m Hk IH] using map_ind; intros Hz; [by rewrite map_filter_empty|].
  specialize (IH ltac:(intros k' v' Hk'; apply Hz; rewrite lookup_insert_ne; congruence)).
  rewrite (map_sum_insert_new _ m) by done. destruct (decide (P (k, v))) as [HP|HP].
  - rewrite map_filter_insert_True by done. rewrite map_sum_insert_new, IH; [done|].
    apply map_lookup_filter_None. by left.
  - rewrite map_filter_insert_False, delete_id, IH by done.
    rewrite (Hz k v); [lia|apply lookup_insert_eq|done].
Qed.

(** ** Counting in sorted lists *)

Definition count {A} (P : A -> Prop) `{!forall x, Decision (P x)} (l : list A) : nat :=
  length (filter P l).

Section Count.
Context {A : Type}.
Implicit Types l : list A.

Lemma count_Permutation (P : A -> Prop) `{!forall x, Decision (P x)} l l' :
  l ≡ₚ l' -> count P l = count P l'.
Proof. unfold count. by intros ->. Qed.

Lemma count_app (P : A -> Prop) `{!forall x, Decision (P x)} l l' :
  count P (l ++ l') = (count P l + count P l')%nat.
Proof. unfold count. by rewrite filter_app, length_app. Qed.

Lemma count_all (P : A -> Prop) `{!forall x, Decision (P x)} l :
  Forall P l -> count P l = length l.
Proof.
  unfold count. induction 1 as [|x l Hx _ IH]; [done|].
  rewrite filter_cons_True by done. cbn. by rewrite IH.
Qed.

Lemma count_mono (P Q : A -> Prop) `{!forall x, Decision (P x), !forall x, Decision (Q x)} l :
  (forall x, x ∈ l -> P x -> Q x) -> (count P l <= count Q l)%nat.
Proof.
  unfold count. induction l as [|x l IH]; intros HPQ; [done|].
  rewrite !filter_cons. specialize (IH ltac:(set_solver)).
  repeat case_decide; cbn; try lia. exfalso. set_solver.
Qed.

Lemma count_disjoint (P Q : A -> Prop) `{!forall x, Decision (P x), !forall x, Decision (Q x)} l :
  (forall x, x ∈ l -> P x -> Q x -> False) -> (count P l + count Q l <= length l)%nat.
Proof.
  unfold count. induction l as [|x l IH]; intros HPQ; [done|].
  rewrite !filter_cons. specialize (IH ltac:(set_solver)).
  repeat case_decide; cbn; try lia. exfalso. set_solver.
Qed.
End Count.

(** In a list sorted by [f], the element at [i] has [i] smaller or equal ones
    before it and the rest after it. *)
Lemma sorted_rank {A} (f : A -> Z) (l : list A) i x :
  StronglySorted (fun a b => f a <= f b) l -> l !! i = Some x ->
  (S i <= count (fun a => f a <= f x)%Z l /\ length l - i <= count (fun a => f x <= f a)%Z l)%nat.
Proof.
  intros Hs Hi. pose proof (take_drop_middle l i x Hi) as E.
  assert (Hl : (i < length l)%nat) by (by eapply lookup_lt_Some).
  rewrite <- E in Hs |- *. rewrite !count_app, length_app. cbn [length].
  rewrite length_take, length_drop.
  pose proof (StronglySorted_app_1_r _ _ _ Hs) as [Hm _]%StronglySorted_cons.
  split.
  - rewrite (count_all _ (take i l)), length_take.
    + unfold count at 1. rewrite filter_cons_True by lia. cbn. lia.
    + apply Forall_forall. intros a Ha.
      apply (StronglySorted_app_1_elem_of _ _ _ a x Hs Ha). by left.
  - unfold count at 2. rewrite filter_cons_True by lia. cbn [length].
    pose proof (count_all (fun a => f x <= f a) (drop (S i) l) Hm) as Hc. unfold count in Hc.
    rewrite Hc, length_drop. lia.
Qed.

Lemma sorted_lookup_le {A} (f : A -> Z) (l : list A) i j x y :
  StronglySorted (fun a b => f a <= f b) l -> l !! i = Some x -> l !! j = Some y ->
  (i < j)%nat -> f x <= f y.
Proof.
  intros Hs Hi Hj Hij. rewrite <- (take_drop_middle l i x Hi) in Hs.
  apply StronglySorted_app_1_r, StronglySorted_cons in Hs as [Hs _].
  rewrite Forall_forall in Hs. apply Hs, list_elem_of_lookup. exists (j - S i)%nat.
  rewrite lookup_drop, <- Hj. f_equal. lia.
Qed.

Lemma string_app_assoc (s t u : string) : s +:+ (t +:+ u) = (s +:+ t) +:+ u.
Proof. induction s as [|c s IH]; string_simpl; [done|]. by rewrite IH. Qed.

(** An [omap] only sees the elements it keeps. *)
Lemma omap_filter {A C} (g : A -> option C) (l : list A) :
  omap g l = omap g (filter (fun x => is_Some (g x)) l).
Proof.
  induction l as [|x l IH]; [done|]. rewrite filter_cons. cbn.
  case_decide as E; cbn; destruct (g x) eqn:Eg; rewrite ?IH; try done.
  destruct E. by eexists.
Qed.

(** Two stores an iteration keeps the same entries of give permuted results. *)
Lemma omap_kv_iter_perm {V C} (g : string * V -> option C) p (m m' : gmap string V) :
  (forall k v, String.prefix p k = true -> is_Some (g (k, v)) -> m !! k = Some v <-> m' !! k = Some v) ->
  omap g (kv_prefix_iter p m) ≡ₚ omap g (kv_prefix_iter p m').
Proof.
  intros Hm. rewrite (omap_filter g (kv_prefix_iter p m)), (omap_filter g (kv_prefix_iter p m')).
  apply omap_Permutation, NoDup_Permutation.
  1,2: apply NoDup_filter, (NoDup_fmap_1 fst), NoDup_kv_prefix_iter.
  intros [k v]. rewrite !list_elem_of_filter, !elem_of_kv_prefix_iter. naive_solver.
Qed.

Lemma filter_omap {A C} (f : A -> option C) (P : C -> Prop) `{!forall x, Decision (P x)} (l : list A) :
  filter P (omap f l) = omap (fun x => f x ≫= fun y => guard (P y);; Some y) l.
Proof.
  induction l as [|x l IH]; [done|]. cbn [omap list_omap].
  destruct (f x) as [y|]; cbn [mbind option_bind]; [|done].
  rewrite filter_cons, IH. by case_decide; case_guard.
Qed.

(** Decoded entries inherit distinctness from their keys. *)
Lemma NoDup_fmap_omap {A C K K'} (f : A -> option C) (g : C -> K') (key : A -> K) (l : list A) :
  NoDup (key <$> l) ->
  (forall x y c c', x ∈ l -> y ∈ l -> f x = Some c -> f y = Some c' -> g c = g c' -> key x = key y) ->
  NoDup (g <$> omap f l).
Proof.
  induction l as [|x l IH]; intros Hnd Hinj; [constructor|]. cbn in Hnd |- *.
  apply NoDup_cons in Hnd as [Hx Hnd].
  assert (NoDup (g <$> omap f l)) as HI by (apply IH; [done|]; intros; eapply Hinj; eauto; by right).
  destruct (f x) as [c|] eqn:Ec; [|done]. cbn. constructor; [|done].
  intros (c' & E & (y & Hy & Ey)%list_elem_of_omap)%list_elem_of_fmap_1.
  apply Hx. rewrite (Hinj x y c c'); eauto; [by apply list_elem_of_fmap_2|by left|by right].
Qed.

(** Writing a list of entries with distinct keys. *)
Lemma foldl_insert_spec {A V} (key : A -> string) (val : A -> V) (l : list A) (m : gmap string V) :
  NoDup (key <$> l) ->
  let m' := foldl (fun m x => <[key x := val x]> m) m l in
  (forall x, x ∈ l -> m' !! key x = Some (val x)) /\
  (forall k, (forall x, x ∈ l -> k <> key x) -> m' !! k = m !! k).
Proof.
  revert m. induction l as [|x l IH]; intros m Hnd; cbn in *; [split; [set_solver|done]|].
  apply NoDup_cons in Hnd as [Hx Hnd]. destruct (IH (<[key x := val x]> m) Hnd) as [Hin Hout].
  assert (Hdist : forall y, y ∈ l -> key x <> key y).
  { intros y Hy E. apply Hx. rewrite E. by apply list_elem_of_fmap_2. }
  split.
  - intros y [->|?]%elem_of_cons; [|by apply Hin]. rewrite Hout by done. by rewrite lookup_insert_eq.
  - intros k Hk. rewrite Hout by (intros; apply Hk; by right).
    rewrite lookup_insert_ne; [done|]. intros <-. by apply (Hk x); [left|].
Qed.
