(* ===== verification/Sdk.v ===== *)
(** Sdk: what the modules use of the Cosmos SDK and of cosmossdk.io/math.

    - [SdkMath]: cosmossdk.io/math is not part of the repository, so its
      operations are the fields of a class and its documented behaviour
      (exact 256-bit integers that panic on overflow, 18-decimal fixed point
      with results rounded to the last place) are the fields of
      [SdkMathLaws].  [sdkmath] is a concrete instance, for the witnesses.
    - [Bech32]: the base-32 codec of btcutil, likewise a class with laws;
      [AccAddressFromBech32] and [AccAddress_String] of types/address.go are
      defined over it.
    - [Coin]: types/coin.go.
    - [Ctx], [Event]: what handlers read of sdk.Context and emit. *)

From Stdlib Require Import ZArith Lia Ascii String.
From stdpp Require Import base gmap sets list strings fin_maps sorting pretty.
From S2P Require Import Prelude.

Open Scope Z_scope.

(** ** cosmossdk.io/math *)

(** A [sdk.Dec] is an integer count of 10^-18. *)
Definition dec_one : Z := 1000000000000000000.

(** The operations that can panic (overflow, division by zero) return
    [None] when they do.  Comparisons and [Neg] are those of [Z]. *)
Class SdkMath : Type := {
  Int_Add : Z -> Z -> option Z;
  Int_Sub : Z -> Z -> option Z;
  NewDecFromInt : Z -> Z;
  NewDecWithPrec : Z -> Z -> Z;
  Dec_Add : Z -> Z -> option Z;
  Dec_Sub : Z -> Z -> option Z;
  Dec_Mul : Z -> Z -> option Z;
  Dec_Quo : Z -> Z -> option Z;
  Dec_MulInt : Z -> Z -> option Z;
  Dec_TruncateInt : Z -> option Z;
  (** What json.Unmarshal of [null] into a Dec gives ([None]: an error). *)
  Dec_UnmarshalNull : option Z;
}.

Class SdkMathLaws `{SdkMath} : Prop := {
  Int_Add_exact a b c : Int_Add a b = Some c -> c = a + b;
  Int_Sub_exact a b c : Int_Sub a b = Some c -> c = a - b;
  Int_Add_fits a b : Z.abs (a + b) < 2 ^ 256 -> Int_Add a b = Some (a + b);
  Int_Sub_fits a b : Z.abs (a - b) < 2 ^ 256 -> Int_Sub a b = Some (a - b);
  NewDecFromInt_scale a : NewDecFromInt a = a * dec_one;
  NewDecWithPrec_scale a p : 0 <= p <= 18 -> NewDecWithPrec a p = a * 10 ^ (18 - p);
  Dec_Add_exact a b c : Dec_Add a b = Some c -> c = a + b;
  Dec_Sub_exact a b c : Dec_Sub a b = Some c -> c = a - b;
  Dec_Add_fits a b : Z.abs (a + b) < 2 ^ 314 -> Dec_Add a b = Some (a + b);
  Dec_Mul_near a b c : Dec_Mul a b = Some c -> 2 * Z.abs (c * dec_one - a * b) <= dec_one;
  Dec_Mul_fits a b : Z.abs (a * b) < 2 ^ 314 -> is_Some (Dec_Mul a b);
  Dec_Quo_near a b c : Dec_Quo a b = Some c -> b <> 0 /\ Z.abs (c * b - a * dec_one) < Z.abs b;
  Dec_Quo_fits a b : b <> 0 -> Z.abs (a * dec_one) < 2 ^ 314 -> is_Some (Dec_Quo a b);
  Dec_MulInt_exact a i c : Dec_MulInt a i = Some c -> c = a * i;
  Dec_TruncateInt_quot a c : Dec_TruncateInt a = Some c -> c = Z.quot a dec_one;
  Dec_TruncateInt_fits a : Z.abs (Z.quot a dec_one) < 2 ^ 256 ->
    Dec_TruncateInt a = Some (Z.quot a dec_one);
  Int_Add_range a b c : Int_Add a b = Some c -> Z.abs c < 2 ^ 256;
}.

(** ** Bech32 addresses (types/address.go) *)

Class Bech32 : Type := {
  (** bech32.DecodeAndConvert: the human-readable part and the bytes. *)
  DecodeAndConvert : string -> option (string * string);
  (** bech32.ConvertAndEncode; it cannot fail on whole bytes. *)
  ConvertAndEncode : string -> string -> string;
}.

(** The account prefix of the chain (app.AccountAddressPrefix). *)
Definition AccountAddressPrefix : string := "zyth".

Class Bech32Laws `{Bech32} : Prop := {
  decode_encode bz : (0 < String.length bz <= 255)%nat ->
    DecodeAndConvert (ConvertAndEncode AccountAddressPrefix bz) = Some (AccountAddressPrefix, bz);
  encode_prefix bz : String.prefix AccountAddressPrefix (ConvertAndEncode AccountAddressPrefix bz) = true;
  encode_no_slash bz : has_char "/" (ConvertAndEncode AccountAddressPrefix bz) = false;
}.

Section Address.
Context `{Bech32}.

(** strings.TrimSpace on ASCII input. *)
Definition is_space (c : ascii) : bool :=
  let n := nat_of_ascii c in
  (n =? 32)%nat || ((9 <=? n)%nat && (n <=? 13)%nat).

Fixpoint all_space (s : string) : bool :=
  match s with
  | EmptyString => true
  | String c s => is_space c && all_space s
  end.

Definition VerifyAddressFormat (bz : string) : bool :=
  (0 <? String.length bz)%nat && (String.length bz <=? 255)%nat.

Definition GetFromBech32 (bech32str prefix : string) : option string :=
  if bool_decide (bech32str = "") then None else
  match DecodeAndConvert bech32str with
  | None => None
  | Some (hrp, bz) => if bool_decide (hrp = prefix) then Some bz else None
  end.

Definition AccAddressFromBech32 (address : string) : option string :=
  if all_space address then None else
  match GetFromBech32 address AccountAddressPrefix with
  | None => None
  | Some bz => if VerifyAddressFormat bz then Some bz else None
  end.

Definition AccAddress_String (aa : string) : string :=
  if bool_decide (aa = "") then "" else ConvertAndEncode AccountAddressPrefix aa.
End Address.

(** ** Context and events *)

Record Ctx : Type := mkCtx {
  BlockHeight : Z;
  BlockTime : Z;
}.

Inductive attr : Type :=
  | AStr (s : string)
  | AInt (z : Z)
  | ADec (z : Z).

Record Event : Type := NewEvent {
  ev_type : string;
  ev_attrs : list (string * attr);
}.

(** ** Coins (types/coin.go) *)

Record Coin : Type := mkCoin {
  Denom : string;
  Amount : Z;
}.

#[export] Instance Coin_eq_dec : EqDecision Coin.
Proof. solve_decision. Defined.

Definition is_alpha (c : ascii) : bool :=
  let n := nat_of_ascii c in
  ((65 <=? n)%nat && (n <=? 90)%nat) || ((97 <=? n)%nat && (n <=? 122)%nat).

Definition is_digit (c : ascii) : bool :=
  let n := nat_of_ascii c in (48 <=? n)%nat && (n <=? 57)%nat.

Definition is_denom_char (c : ascii) : bool :=
  is_alpha c || is_digit c ||
  Ascii.eqb c "/" || Ascii.eqb c ":" || Ascii.eqb c "." || Ascii.eqb c "_" || Ascii.eqb c "-".

Fixpoint all_denom_char (s : string) : bool :=
  match s with
  | EmptyString => true
  | String c s => is_denom_char c && all_denom_char s
  end.

(** reDnm: [^[a-zA-Z][a-zA-Z0-9/:._-]{2,127}$]. *)
Definition ValidateDenom (denom : string) : bool :=
  match denom with
  | EmptyString => false
  | String c s =>
      is_alpha c && all_denom_char s &&
      (2 <=? String.length s)%nat && (String.length s <=? 127)%nat
  end.

Definition Coin_Validate (c : Coin) : bool :=
  ValidateDenom (Denom c) && (0 <=? Amount c).

Definition NewCoin (denom : string) (amount : Z) : option Coin :=
  let coin := mkCoin denom amount in
  if Coin_Validate coin then Some coin else None.

(** Coins.Validate: positive amounts, valid denoms in strictly increasing order. *)
Fixpoint Coins_Validate_from (lowDenom : string) (coins : list Coin) : bool :=
  match coins with
  | [] => true
  | c :: coins =>
      ValidateDenom (Denom c) && String.ltb lowDenom (Denom c) && (0 <? Amount c) &&
      Coins_Validate_from (Denom c) coins
  end.

Definition Coins_Validate (coins : list Coin) : bool :=
  match coins with
  | [] => true
  | c :: coins =>
      ValidateDenom (Denom c) && (0 <? Amount c) && Coins_Validate_from (Denom c) coins
  end.

Definition coin_le (x y : Coin) : Prop := String.leb (Denom x) (Denom y) = true.

#[export] Instance coin_le_dec : RelDecision coin_le.
Proof. intros x y. unfold coin_le. apply _. Defined.

Definition sanitizeCoins (coins : list Coin) : list Coin :=
  merge_sort coin_le (filter (fun c => Amount c <> 0) coins).

Definition NewCoins (coins : list Coin) : option (list Coin) :=
  let newCoins := sanitizeCoins coins in
  if Coins_Validate newCoins then Some newCoins else None.

(** [sdk.NewCoins(sdk.NewCoin(denom, amount))], the form every caller uses. *)
Definition coins_of (denom : string) (amount : Z) : option (list Coin) :=
  match NewCoin denom amount with
  | Some c => NewCoins [c]
  | None => None
  end.

(** How much of a denomination a coin set holds. *)
Fixpoint coins_amount (coins : list Coin) (denom : string) : Z :=
  match coins with
  | [] => 0
  | c :: coins => (if bool_decide (Denom c = denom) then Amount c else 0) + coins_amount coins denom
  end.

(** ** Lemmas *)

Section AddressLemmas.
Context `{Bech32Laws}.

Lemma VerifyAddressFormat_spec bz :
  VerifyAddressFormat bz = true <-> (0 < String.length bz <= 255)%nat.
Proof. unfold VerifyAddressFormat. rewrite andb_true_iff, Nat.ltb_lt, Nat.leb_le. lia. Qed.

Lemma encode_not_space bz : all_space (ConvertAndEncode AccountAddressPrefix bz) = false.
Proof. pose proof (encode_prefix bz) as [t ->]%prefix_iff. done. Qed.

(** Printing an address and parsing it back gives the address. *)
Lemma AccAddress_String_parse a :
  VerifyAddressFormat a = true -> AccAddressFromBech32 (AccAddress_String a) = Some a.
Proof.
  intros Ha. pose proof Ha as Hl%VerifyAddressFormat_spec.
  unfold AccAddressFromBech32, AccAddress_String, GetFromBech32.
  rewrite (bool_decide_false (a = "")) by (intros ->; cbn in Hl; lia).
  rewrite encode_not_space, bool_decide_false.
  - rewrite decode_encode, bool_decide_true by done. by rewrite Ha.
  - pose proof (encode_prefix a) as [t ->]%prefix_iff. done.
Qed.

Lemma AccAddressFromBech32_valid s a :
  AccAddressFromBech32 s = Some a -> VerifyAddressFormat a = true.
Proof.
  unfold AccAddressFromBech32. destruct (all_space s); [done|].
  destruct (GetFromBech32 _ _) as [bz|]; [|done].
  destruct (VerifyAddressFormat bz) eqn:E; intros; by simplify_eq.
Qed.

Lemma AccAddress_String_inj a b :
  VerifyAddressFormat a = true -> VerifyAddressFormat b = true ->
  AccAddress_String a = AccAddress_String b -> a = b.
Proof.
  intros Ha%AccAddress_String_parse Hb%AccAddress_String_parse E.
  rewrite E in Ha. congruence.
Qed.

Lemma AccAddress_String_no_slash a : has_char "/" (AccAddress_String a) = false.
Proof. unfold AccAddress_String. case_bool_decide; [done|]. apply encode_no_slash. Qed.
End AddressLemmas.

Lemma coins_of_inv d a cs :
  coins_of d a = Some cs ->
  ValidateDenom d = true /\ 0 <= a /\ cs = if bool_decide (a = 0) then [] else [mkCoin d a].
Proof.
  unfold coins_of, NewCoin, NewCoins, sanitizeCoins, Coin_Validate. cbn [Denom Amount].
  intros E. destruct (_ && _) eqn:Hv in E; [|done].
  apply andb_true_iff in Hv as [? ?%Z.leb_le].
  rewrite filter_cons, filter_nil in E. cbn [Amount] in E.
  case_bool_decide as Ha; (case_decide; [|]); try done; cbn in E;
    repeat case_match; by simplify_eq.
Qed.

Lemma coins_of_run d a :
  ValidateDenom d = true -> 0 <= a ->
  coins_of d a = Some (if bool_decide (a = 0) then [] else [mkCoin d a]).
Proof.
  intros Hd Ha. unfold coins_of, NewCoin, NewCoins, sanitizeCoins, Coin_Validate. cbn [Denom Amount].
  rewrite Hd, (proj2 (Z.leb_le _ _) Ha). cbn [andb].
  rewrite filter_cons, filter_nil. cbn [Amount].
  case_bool_decide; (case_decide; [|]); try done. cbn.
  rewrite Hd, (proj2 (Z.ltb_lt 0 a)) by lia. done.
Qed.

Lemma coins_of_amount d a cs d' :
  coins_of d a = Some cs -> coins_amount cs d' = if bool_decide (d = d') then a else 0.
Proof.
  intros (_ & _ & ->)%coins_of_inv. case_bool_decide; cbn; case_bool_decide; lia.
Qed.

(** ** Concrete instances *)

Definition round_half_even (z : Z) : Z :=
  let q := z / dec_one in
  let r := z mod dec_one in
  if 2 * r <? dec_one then q
  else if dec_one <? 2 * r then q + 1
  else if Z.even q then q else q + 1.

Definition fits (bits z : Z) : option Z := if Z.abs z <? 2 ^ bits then Some z else None.

Definition sdkmath : SdkMath := {|
  Int_Add a b := fits 256 (a + b);
  Int_Sub a b := fits 256 (a - b);
  NewDecFromInt a := a * dec_one;
  NewDecWithPrec a p := a * 10 ^ (18 - p);
  Dec_Add a b := fits 315 (a + b);
  Dec_Sub a b := fits 315 (a - b);
  Dec_Mul a b := fits 315 (round_half_even (a * b));
  Dec_Quo a b := if b =? 0 then None
    else fits 315 (round_half_even (Z.quot (a * dec_one * dec_one) b));
  Dec_MulInt a i := fits 315 (a * i);
  Dec_TruncateInt a := fits 256 (Z.quot a dec_one);
  Dec_UnmarshalNull := None;
|}.

Lemma fits_inv bits z c : fits bits z = Some c -> c = z.
Proof. unfold fits. case_match; intros; by simplify_eq. Qed.

Lemma fits_range bits z c : fits bits z = Some c -> Z.abs c < 2 ^ bits.
Proof. unfold fits. destruct (Z.ltb_spec (Z.abs z) (2 ^ bits)); [|done]. by intros [= <-]. Qed.

Lemma fits_run bits z : Z.abs z < 2 ^ bits -> fits bits z = Some z.
Proof. unfold fits. intros ?%Z.ltb_lt. by case_match. Qed.

Lemma round_half_even_near z : 2 * Z.abs (round_half_even z * dec_one - z) <= dec_one.
Proof.
  unfold round_half_even, dec_one.
  pose proof (Z.div_mod z 1000000000000000000). pose proof (Z.mod_pos_bound z 1000000000000000000).
  repeat case_match; lia.
Qed.

Lemma round_half_even_le z n : Z.abs z <= n -> Z.abs (round_half_even z) <= n + 1.
Proof. pose proof (round_half_even_near z). unfold dec_one in *. lia. Qed.

Lemma quo_near a b :
  b <> 0 ->
  Z.abs (round_half_even (Z.quot (a * dec_one * dec_one) b) * b - a * dec_one) < Z.abs b.
Proof.
  intros Hb. set (n := a * dec_one * dec_one). set (t := Z.quot n b).
  assert (Ht : Z.abs (t * b - n) < Z.abs b).
  { pose proof (Z.quot_rem' n b). pose proof (Z.rem_bound_abs n b Hb).
    subst t. replace (Z.quot n b * b - n) with (- Z.rem n b) by lia. lia. }
  pose proof (round_half_even_near t) as Hc. set (c := round_half_even t) in *.
  assert (E : (c * b - a * dec_one) * dec_one = (c * dec_one - t) * b + (t * b - n))
    by (subst n; ring).
  assert (Z.abs (c * b - a * dec_one) * dec_one < Z.abs b * dec_one); [|unfold dec_one in *; lia].
  rewrite <- (Z.abs_eq dec_one) at 2 by (unfold dec_one; lia).
  rewrite <- Z.abs_mul, E.
  pose proof (Z.abs_triangle ((c * dec_one - t) * b) (t * b - n)).
  rewrite Z.abs_mul in *. unfold dec_one in *. nia.
Qed.

Lemma quo_bound a b : b <> 0 -> Z.abs (Z.quot a b) <= Z.abs a.
Proof.
  intros Hb. rewrite <- Z.quot_abs, Z.quot_div_nonneg by lia.
  apply Z.div_le_upper_bound; nia.
Qed.

#[export] Instance sdkmath_laws : @SdkMathLaws sdkmath.
Proof.
  split; cbn [sdkmath Int_Add Int_Sub NewDecFromInt NewDecWithPrec Dec_Add Dec_Sub
    Dec_Mul Dec_Quo Dec_MulInt Dec_TruncateInt]; intros; 
    try (by eapply fits_inv); try (by apply fits_run); try (by eapply fits_range); try done.
  - apply fits_run. assert (2 ^ 314 < 2 ^ 315) by done. lia.
  - apply fits_inv in H as ->. apply round_half_even_near.
  - eexists. apply fits_run.
    pose proof (round_half_even_le _ _ (Z.le_refl (Z.abs (a * b)))).
    assert (2 ^ 314 + 1 < 2 ^ 315) by done. lia.
  - destruct (Z.eqb_spec b 0); [done|]. apply fits_inv in H as ->.
    split; [done|]. by apply quo_near.
  - destruct (Z.eqb_spec b 0); [done|]. eexists. apply fits_run.
    set (c := round_half_even _).
    pose proof (quo_near a b H) as Hq. fold c in Hq.
    assert (Z.abs c <= Z.abs (a * dec_one) + 1).
    { pose proof (Z.abs_triangle (c * b - a * dec_one) (a * dec_one)) as Ht.
      replace (c * b - a * dec_one + a * dec_one) with (c * b) in Ht by ring.
      rewrite Z.abs_mul in Ht. nia. }
    assert (2 ^ 314 + 1 < 2 ^ 315) by done. lia.
Qed.

(** A codec that satisfies [Bech32Laws]: the prefix, a 1, and two letters per
    byte. *)
Definition nibble (n : nat) : ascii := ascii_of_nat (97 + n).
Definition unnibble (c : ascii) : nat := nat_of_ascii c - 97.

Fixpoint hex_encode (s : string) : string :=
  match s with
  | EmptyString => EmptyString
  | String c s =>
      let n := nat_of_ascii c in
      String (nibble (n / 16)) (String (nibble (n mod 16)) (hex_encode s))
  end.

Fixpoint hex_decode (s : string) : string :=
  match s with
  | String a (String b s) =>
      String (ascii_of_nat (unnibble a * 16 + unnibble b)) (hex_decode s)
  | _ => EmptyString
  end.

Definition bech32_toy : Bech32 := {|
  DecodeAndConvert s :=
    if String.prefix "zyth1" s then Some ("zyth", hex_decode (String.substring 5 (String.length s - 5) s))
    else None;
  ConvertAndEncode hrp bz := hrp +:+ "1" +:+ hex_encode bz;
|}.

Lemma nibble_facts c :
  let n := nat_of_ascii c in
  ascii_of_nat (unnibble (nibble (n / 16)) * 16 + unnibble (nibble (n mod 16))) = c
  /\ Ascii.eqb "/" (nibble (n / 16)) = false /\ Ascii.eqb "/" (nibble (n mod 16)) = false.
Proof. destruct c as [[] [] [] [] [] [] [] []]; vm_compute; auto. Qed.

Lemma hex_roundtrip s : hex_decode (hex_encode s) = s.
Proof.
  induction s as [|c s IH]; [done|]. cbn [hex_encode hex_decode].
  by rewrite IH, (proj1 (nibble_facts c)).
Qed.

Lemma hex_no_slash s : has_char "/" (hex_encode s) = false.
Proof.
  induction s as [|c s IH]; [done|]. cbn [hex_encode has_char].
  destruct (nibble_facts c) as (_ & -> & ->). exact IH.
Qed.

Lemma substring_all s : String.substring 0 (String.length s) s = s.
Proof. induction s as [|c s IH]; [done|]. cbn. by rewrite IH. Qed.

#[export] Instance bech32_toy_laws : @Bech32Laws bech32_toy.
Proof.
  split; cbn [bech32_toy DecodeAndConvert ConvertAndEncode]; intros.
  - change (AccountAddressPrefix +:+ "1" +:+ hex_encode bz) with ("zyth1" +:+ hex_encode bz).
    rewrite (proj2 (prefix_iff _ _)) by eauto.
    change (String.substring 5 (String.length ("zyth1" +:+ hex_encode bz) - 5) ("zyth1" +:+ hex_encode bz))
      with (String.substring 0 (String.length (hex_encode bz) - 0) (hex_encode bz)).
    by rewrite Nat.sub_0_r, substring_all, hex_roundtrip.
  - apply prefix_iff. eauto.
  - rewrite !has_char_app. apply hex_no_slash.
Qed.
