(* ===== verification/Types.v ===== *)
(** Types: the [types] packages of x/oracle, x/ibc-collateral and
    x/stablecoin (records, defaults, keys, sentinels, messages with their
    ValidateBasic), the key-value stores of the three modules, and the state
    [World] that handlers work on.

    A nil [sdk.Int]/[sdk.Dec] of a message or of genesis JSON is [None]; a
    method call on it panics.  A store maps keys to the struct whose JSON is
    stored, so json.Unmarshal is the projection of the constructor. *)

From Stdlib Require Import ZArith Lia Ascii String.
From stdpp Require Import base gmap sets list strings fin_maps.
From S2P Require Import Prelude Sdk.

Open Scope Z_scope.

(** Chains of guards of a ValidateBasic. *)
Notation "'guard' b 'else' e ; k" := (if b then k else e)
  (at level 200, k at level 200, right associativity) : go_scope.
Open Scope go_scope.

(** ** x/oracle/types *)
Module oracletypes.

Definition ModuleName : string := "oracle".
Definition PriceKeyPrefix : string := "price/".
Definition TWAPKeyPrefix : string := "twap/".
Definition OracleParamsKey : string := "oracle_params".
Definition EventTypeSubmitPrice : string := "submit_price".

Definition ErrInvalidDenom : err := Registered ModuleName 1300.
Definition ErrPriceTooOld : err := Registered ModuleName 1301.
Definition ErrInsufficientSubmissions : err := Registered ModuleName 1302.
Definition ErrUnauthorizedSubmitter : err := Registered ModuleName 1303.

Record PriceEntry : Type := mkPriceEntry {
  Denom : string;
  PriceUSD : Z;
  Submitter : string;
  Height : Z;
  Timestamp : Z;
}.

Record TWAPData : Type := mkTWAPData {
  tw_Denom : string;
  TWAP : Z;
  WindowStart : Z;
  WindowEnd : Z;
  NumSamples : Z;
}.

Record OracleParams : Type := mkOracleParams {
  TwapWindowBlocks : Z;
  MinSubmissions : Z;
  MaxPriceAge : Z;
  WhitelistedDenoms : list string;
}.

Definition DefaultOracleParams : OracleParams := {|
  TwapWindowBlocks := 30;
  MinSubmissions := 2;
  MaxPriceAge := 5;
  WhitelistedDenoms := ["ZYTC"; "axlUSDC"; "mUSDT"; "ATOM"; "wBTC"; "wETH"];
|}.

(** The values of the oracle store.  [VNullPrice e] is the JSON of an entry
    whose price is a nil Dec. *)
Inductive value : Type :=
  | VPrice (e : PriceEntry)
  | VNullPrice (e : PriceEntry)
  | VTWAP (d : TWAPData)
  | VParams (p : OracleParams).

Record MsgSubmitPrice : Type := mkMsgSubmitPrice {
  msg_Submitter : string;
  msg_Denom : string;
  msg_PriceUsd : option Z;
}.

Definition MsgSubmitPrice_ValidateBasic `{Bech32} (msg : MsgSubmitPrice) : outcome unit :=
  match AccAddressFromBech32 (msg_Submitter msg) with
  | None => Err (Errorf "invalid submitter address")
  | Some _ =>
      guard negb (bool_decide (msg_Denom msg = "")) else Err (Errorf "denom cannot be empty");
      match msg_PriceUsd msg with
      | None => Err (Errorf "price must be positive")
      | Some p => guard 0 <? p else Err (Errorf "price must be positive"); Ok tt
      end
  end.

Record GenesisState : Type := mkGenesisState { Params : OracleParams }.

Definition DefaultGenesis : GenesisState := {| Params := DefaultOracleParams |}.

Definition GenesisState_Validate (gs : GenesisState) : outcome unit :=
  guard negb (bool_decide (length (WhitelistedDenoms (Params gs)) = 0%nat))
    else Err ErrInvalidDenom;
  Ok tt.

End oracletypes.

(** ** x/ibc-collateral/types *)
Module ibccollateraltypes.

Definition ModuleName : string := "ibccollateral".
Definition ModuleAccountName : string := "ibc_collateral_vault".
Definition CollateralAssetPrefix : string := "asset/".
Definition CollateralPositionPrefix : string := "position/".
Definition TotalLockedPrefix : string := "locked/".
Definition EventTypeCollateralReceived : string := "collateral_received".
Definition EventTypeLockCollateral : string := "lock_collateral".
Definition EventTypeUnlockCollateral : string := "unlock_collateral".

Definition ErrDenomNotWhitelisted : err := Registered ModuleName 1400.
Definition ErrAssetNotActive : err := Registered ModuleName 1401.
Definition ErrPositionNotFound : err := Registered ModuleName 1403.
Definition ErrUnlockDenied : err := Registered ModuleName 1404.
Definition ErrInsufficientLockedAmount : err := Registered ModuleName 1405.
Definition ErrInvalidAddress : err := Registered ModuleName 1406.
Definition ErrInvalidAmount : err := Registered ModuleName 1407.

Record CollateralAsset : Type := mkCollateralAsset {
  as_IBCDenom : string;
  BaseDenom : string;
  MinRatio : Z;
  LiquidationThreshold : Z;
  IsActive : bool;
}.

(** A CollateralAsset as JSON holds it: the ratios may be null. *)
Record AssetJSON : Type := mkAssetJSON {
  aj_IBCDenom : string;
  aj_BaseDenom : string;
  aj_MinRatio : option Z;
  aj_LiquidationThreshold : option Z;
  aj_IsActive : bool;
}.

Record CollateralPosition : Type := mkCollateralPosition {
  Owner : string;
  IBCDenom : string;
  Amount : Z;
  LockedAt : Z;
  MintedZYTD : Z;
}.

(** A position as genesis JSON holds it: the amounts may be null. *)
Record PositionJSON : Type := mkPositionJSON {
  pj_Owner : string;
  pj_IBCDenom : string;
  pj_Amount : option Z;
  pj_LockedAt : Z;
  pj_MintedZYTD : option Z;
}.

Inductive value : Type :=
  | VAsset (a : AssetJSON)
  | VPosition (p : CollateralPosition)
  | VLocked (amount : Z).

Section Defaults.
Context `{SdkMath}.

Definition DefaultCollateralAssets : list AssetJSON :=
  let asset d b r t := mkAssetJSON d b (Some (NewDecWithPrec r 2)) (Some (NewDecWithPrec t 2)) true in
  [ asset "uzytc" "ZYTC" 200 150;
    asset "ibc/axlUSDC" "axlUSDC" 110 105;
    asset "ibc/mUSDT" "mUSDT" 110 105;
    asset "ibc/ATOM" "ATOM" 160 130;
    asset "ibc/wBTC" "wBTC" 150 125;
    asset "ibc/wETH" "wETH" 150 125 ].

Definition AssetJSON_Unmarshal (j : AssetJSON) : option CollateralAsset :=
  let dec o := match o with Some z => Some z | None => Dec_UnmarshalNull end in
  match dec (aj_MinRatio j), dec (aj_LiquidationThreshold j) with
  | Some r, Some t =>
      Some (mkCollateralAsset (aj_IBCDenom j) (aj_BaseDenom j) r t (aj_IsActive j))
  | _, _ => None
  end.
End Defaults.

Record GenesisState : Type := mkGenesisState {
  CollateralAssets : list AssetJSON;
  Positions : list PositionJSON;
}.

Definition DefaultGenesis `{SdkMath} : GenesisState :=
  {| CollateralAssets := DefaultCollateralAssets; Positions := [] |}.

Fixpoint validate_assets (seen : gset string) (assets : list AssetJSON) : outcome unit :=
  match assets with
  | [] => Ok tt
  | a :: assets =>
      guard negb (bool_decide (aj_IBCDenom a = "")) else Err (Errorf "collateral asset has empty ibc_denom");
      guard negb (bool_decide (aj_IBCDenom a ∈ seen)) else Err (Errorf "duplicate collateral asset ibc_denom");
      match aj_MinRatio a with
      | None => Err (Errorf "invalid min_ratio")
      | Some r =>
          guard negb (r <? 0) else Err (Errorf "invalid min_ratio");
          match aj_LiquidationThreshold a with
          | None => Err (Errorf "invalid liquidation_threshold")
          | Some t =>
              guard negb (t <? 0) else Err (Errorf "invalid liquidation_threshold");
              validate_assets ({[aj_IBCDenom a]} ∪ seen) assets
          end
      end
  end.

Fixpoint validate_positions (positions : list PositionJSON) : outcome unit :=
  match positions with
  | [] => Ok tt
  | p :: positions =>
      guard negb (bool_decide (pj_Owner p = "")) else Err (Errorf "collateral position has empty owner");
      guard negb (bool_decide (pj_IBCDenom p = "")) else Err (Errorf "position has empty ibc_denom");
      match pj_Amount p with
      | None => Panic
      | Some a =>
          guard negb (a <? 0) else Err (Errorf "position has negative amount");
          match pj_MintedZYTD p with
          | None => Panic
          | Some m =>
              guard negb (m <? 0) else Err (Errorf "position has negative minted_zytd");
              validate_positions positions
          end
      end
  end.

Definition GenesisState_Validate (gs : GenesisState) : outcome unit :=
  match validate_assets ∅ (CollateralAssets gs) with
  | Ok _ => validate_positions (Positions gs)
  | r => r
  end.

Record MsgLockCollateral : Type := mkMsgLockCollateral {
  lk_Owner : string;
  lk_IbcDenom : string;
  lk_Amount : option Z;
}.

Record MsgUnlockCollateral : Type := mkMsgUnlockCollateral {
  ul_Owner : string;
  ul_IbcDenom : string;
  ul_Amount : option Z;
}.

Section Msgs.
Context `{Bech32}.

Definition validate_collateral_msg (owner ibcDenom : string) (amount : option Z) : outcome unit :=
  match AccAddressFromBech32 owner with
  | None => Err ErrInvalidAddress
  | Some _ =>
      guard negb (bool_decide (ibcDenom = "")) else Err ErrDenomNotWhitelisted;
      match amount with
      | None => Panic
      | Some a => guard 0 <? a else Err ErrInvalidAmount; Ok tt
      end
  end.

Definition MsgLockCollateral_ValidateBasic (msg : MsgLockCollateral) : outcome unit :=
  validate_collateral_msg (lk_Owner msg) (lk_IbcDenom msg) (lk_Amount msg).

Definition MsgUnlockCollateral_ValidateBasic (msg : MsgUnlockCollateral) : outcome unit :=
  validate_collateral_msg (ul_Owner msg) (ul_IbcDenom msg) (ul_Amount msg).
End Msgs.

End ibccollateraltypes.

(** ** x/stablecoin/types *)
Module stablecointypes.

Definition ModuleName : string := "stablecoin".
Definition ModuleAccountName : string := "stablecoin_mint".
Definition ZYTDDenom : string := "uzytd".
Definition MintRecordPrefix : string := "mint/".
Definition TotalSupplyKey : string := "supply".
Definition ParamsKey : string := "sc_params".
Definition ZYTDKeyRegistryPrefix : string := "pqckey/".
Definition EventTypeMintZYTD : string := "mint_zytd".
Definition EventTypeBurnZYTD : string := "burn_zytd".
Definition EventTypeLiquidation : string := "liquidation".

Definition ErrZeroMintAmount : err := Registered ModuleName 1501.
Definition ErrPositionHealthy : err := Registered ModuleName 1503.
Definition ErrOraclePriceUnavailable : err := Registered ModuleName 1504.
Definition ErrExceedsCollateralValue : err := Registered ModuleName 1505.
Definition ErrMintRecordNotFound : err := Registered ModuleName 1506.
Definition ErrExceedsMintedAmount : err := Registered ModuleName 1507.
Definition ErrPQCKeyNotRegistered : err := Registered ModuleName 1508.
Definition ErrInvalidPQCSig : err := Registered ModuleName 1509.
Definition ErrPQCKeyMismatch : err := Registered ModuleName 1510.

Record StablecoinParams : Type := mkStablecoinParams {
  p_ZYTDDenom : string;
  StabilityFeePerYear : Z;
  LiquidationPenalty : Z;
  LiquidatorReward : Z;
  ProtocolFeeReceiver : string;
}.

Definition DefaultStablecoinParams `{SdkMath} : StablecoinParams := {|
  p_ZYTDDenom := ZYTDDenom;
  StabilityFeePerYear := NewDecWithPrec 5 3;
  LiquidationPenalty := NewDecWithPrec 10 2;
  LiquidatorReward := NewDecWithPrec 8 2;
  ProtocolFeeReceiver := ModuleAccountName;
|}.

Record MintRecord : Type := mkMintRecord {
  mr_Owner : string;
  mr_IBCDenom : string;
  Minted : Z;
  CollateralUSD : Z;
  MintedAt : Z;
}.

(** keeper/confidential_transfer.go: the record of a confidential account. *)
Record ZYTDAccountState : Type := mkZYTDAccountState {
  EncryptedBalance : string;
  PublicCreditLimit : Z;
  LastUpdatedBlock : Z;
  SizeBytes : Z;
}.

Inductive value : Type :=
  | VRecord (r : MintRecord)
  | VSupply (z : Z)
  | VParams (p : StablecoinParams)
  | VBytes (bz : string)
  | VAccount (s : ZYTDAccountState).

Record MsgMintZYTD : Type := mkMsgMintZYTD {
  mint_Sender : string;
  mint_IbcDenom : string;
  mint_CollateralAmount : option Z;
  mint_RequestedZytd : option Z;
  mint_ExpirationBlockHeight : Z;
  mint_Dilithium5PubKey : string;
  mint_Dilithium5Sig : string;
}.

Record MsgBurnZYTD : Type := mkMsgBurnZYTD {
  burn_Sender : string;
  burn_IbcDenom : string;
  burn_ZytdAmount : option Z;
  burn_ExpirationBlockHeight : Z;
  burn_Dilithium5PubKey : string;
  burn_Dilithium5Sig : string;
}.

Record MsgLiquidate : Type := mkMsgLiquidate {
  liq_Liquidator : string;
  liq_TargetOwner : string;
  liq_IbcDenom : string;
  liq_ExpirationBlockHeight : Z;
  liq_Dilithium5PubKey : string;
  liq_Dilithium5Sig : string;
}.

Record MsgRegisterZYTDKey : Type := mkMsgRegisterZYTDKey {
  reg_Sender : string;
  reg_Dilithium5PubKey : string;
  reg_ExpirationBlockHeight : Z;
}.

Section Msgs.
Context `{Bech32}.

Definition positive (o : option Z) : bool :=
  match o with Some z => 0 <? z | None => false end.

Definition MsgMintZYTD_ValidateBasic (msg : MsgMintZYTD) : outcome unit :=
  match AccAddressFromBech32 (mint_Sender msg) with
  | None => Err (Errorf "invalid sender address")
  | Some _ =>
      guard negb (bool_decide (mint_IbcDenom msg = "")) else Err (Errorf "ibc_denom cannot be empty");
      guard positive (mint_CollateralAmount msg) else Err (Errorf "collateral_amount must be positive");
      guard positive (mint_RequestedZytd msg) else Err ErrZeroMintAmount;
      guard 0 <? mint_ExpirationBlockHeight msg else Err (Errorf "expiration_block_height must be positive");
      Ok tt
  end.

Definition MsgBurnZYTD_ValidateBasic (msg : MsgBurnZYTD) : outcome unit :=
  match AccAddressFromBech32 (burn_Sender msg) with
  | None => Err (Errorf "invalid sender address")
  | Some _ =>
      guard negb (bool_decide (burn_IbcDenom msg = "")) else Err (Errorf "ibc_denom cannot be empty");
      guard positive (burn_ZytdAmount msg) else Err (Errorf "zytd_amount must be positive");
      guard 0 <? burn_ExpirationBlockHeight msg else Err (Errorf "expiration_block_height must be positive");
      Ok tt
  end.

Definition MsgLiquidate_ValidateBasic (msg : MsgLiquidate) : outcome unit :=
  match AccAddressFromBech32 (liq_Liquidator msg) with
  | None => Err (Errorf "invalid liquidator address")
  | Some _ =>
      match AccAddressFromBech32 (liq_TargetOwner msg) with
      | None => Err (Errorf "invalid target_owner address")
      | Some _ =>
          guard negb (bool_decide (liq_IbcDenom msg = "")) else Err (Errorf "ibc_denom cannot be empty");
          guard 0 <? liq_ExpirationBlockHeight msg else Err (Errorf "expiration_block_height must be positive");
          Ok tt
      end
  end.

Definition MsgRegisterZYTDKey_ValidateBasic (msg : MsgRegisterZYTDKey) : outcome unit :=
  match AccAddressFromBech32 (reg_Sender msg) with
  | None => Err (Errorf "invalid sender address")
  | Some _ =>
      guard bool_decide (String.length (reg_Dilithium5PubKey msg) = 2592%nat)
        else Err (Errorf "dilithium5_pub_key must be 2592 bytes");
      guard 0 <? reg_ExpirationBlockHeight msg else Err (Errorf "expiration_block_height must be positive");
      Ok tt
  end.
End Msgs.

End stablecointypes.

(** ** The state handlers run on *)

(** The bank's state [B] (abstract: see the class [BankKeeper]), the stores of
    the three modules and the events emitted so far. *)
Record World (B : Type) : Type := mkWorld {
  w_bank : B;
  w_oracle : gmap string oracletypes.value;
  w_coll : gmap string ibccollateraltypes.value;
  w_sc : gmap string stablecointypes.value;
  w_events : list Event;
}.
Arguments mkWorld {B}.
Arguments w_bank {B}.
Arguments w_oracle {B}.
Arguments w_coll {B}.
Arguments w_sc {B}.
Arguments w_events {B}.

Section World.
Context {B : Type}.
Implicit Types w : World B.

Definition set_bank (b : B) w : World B :=
  mkWorld b (w_oracle w) (w_coll w) (w_sc w) (w_events w).
Definition set_oracle (m : gmap string oracletypes.value) w : World B :=
  mkWorld (w_bank w) m (w_coll w) (w_sc w) (w_events w).
Definition set_coll (m : gmap string ibccollateraltypes.value) w : World B :=
  mkWorld (w_bank w) (w_oracle w) m (w_sc w) (w_events w).
Definition set_sc (m : gmap string stablecointypes.value) w : World B :=
  mkWorld (w_bank w) (w_oracle w) (w_coll w) m (w_events w).

Definition EmitEvent (e : Event) : M (World B) unit :=
  modify (fun w => mkWorld (w_bank w) (w_oracle w) (w_coll w) (w_sc w) (w_events w ++ [e])).

(** Runs bank code on the bank's part of the state. *)
Definition lift_bank {A} (c : M B A) : M (World B) A := fun w =>
  let '(r, b) := c (w_bank w) in (r, set_bank b w).

(** Message execution of BaseApp.runTx: the writes of a message that fails or
    panics are discarded with its cache branch. *)
Definition runTx {A} (c : M (World B) A) : M (World B) A := fun w =>
  match c w with
  | (Ok a, w') => (Ok a, w')
  | (r, _) => (r, w)
  end.

Lemma lift_bank_ok {A} (c : M B A) w a w' :
  lift_bank c w = (Ok a, w') ->
  exists b, c (w_bank w) = (Ok a, b) /\ w' = set_bank b w.
Proof. unfold lift_bank. destruct (c (w_bank w)) as [r b]. intros [= -> <-]. eauto. Qed.

Lemma lift_bank_err {A} (c : M B A) w e w' :
  lift_bank c w = (Err e, w') ->
  exists b, c (w_bank w) = (Err e, b) /\ w' = set_bank b w.
Proof. unfold lift_bank. destruct (c (w_bank w)) as [r b]. intros [= -> <-]. eauto. Qed.

Lemma runTx_ok {A} (c : M (World B) A) w a w' :
  runTx c w = (Ok a, w') <-> c w = (Ok a, w').
Proof. unfold runTx. destruct (c w) as [[] ?]; split; intros; by simplify_eq. Qed.

Lemma runTx_revert {A} (c : M (World B) A) w r w' :
  runTx c w = (r, w') -> is_Ok r = false -> w' = w.
Proof. unfold runTx. destruct (c w) as [[] ?]; intros; by simplify_eq. Qed.
End World.
