(* ===== verification/Bank.v ===== *)
(** Bank: the bank keeper the modules call.

    [BankKeeper] is the interface of x/ibc-collateral/types and
    x/stablecoin/types (expected_keepers.go); [BankLaws] is what its clients
    rely on: a call that succeeds moves, creates or destroys exactly the coins
    it names, and touches nothing else.  The module [bankkeeper] is
    cosmos-sdk/x/bank/keeper, and [bankkeeper.bank_laws] proves that it meets
    the interface. *)

From Stdlib Require Import ZArith Lia Ascii String.
From stdpp Require Import base gmap sets list strings fin_maps.
From S2P Require Import Prelude Sdk Types.

Open Scope Z_scope.
Open Scope go_scope.

(** ** The interface *)

Class BankKeeper (B : Type) : Type := {
  SendCoinsFromAccountToModule : Ctx -> string -> string -> list Coin -> M B unit;
  SendCoinsFromModuleToAccount : Ctx -> string -> string -> list Coin -> M B unit;
  MintCoins : Ctx -> string -> list Coin -> M B unit;
  BurnCoins : Ctx -> string -> list Coin -> M B unit;
  bk_balance : B -> string -> string -> Z;
  bk_supply : B -> string -> Z;
  GetModuleAddress : string -> option string;
}.

Section Effects.
Context {B : Type} `{BankKeeper B}.

Definition owned_by (a x : string) (n : Z) : Z := if bool_decide (a = x) then n else 0.

(** [cs] moved from [from] to [to]. *)
Definition transferred (b b' : B) (from to : string) (cs : list Coin) : Prop :=
  (forall a d, bk_balance b' a d =
     bk_balance b a d - owned_by a from (coins_amount cs d) + owned_by a to (coins_amount cs d)) /\
  (forall d, bk_supply b' d = bk_supply b d).

(** [sign * cs] was added to [at_] and to the supply. *)
Definition issued (b b' : B) (at_ : string) (sign : Z) (cs : list Coin) : Prop :=
  (forall a d, bk_balance b' a d = bk_balance b a d + owned_by a at_ (sign * coins_amount cs d)) /\
  (forall d, bk_supply b' d = bk_supply b d + sign * coins_amount cs d).
End Effects.

Class BankLaws (B : Type) `{BankKeeper B} : Prop := {
  send_to_module ctx from m cs (b b' : B) u :
    SendCoinsFromAccountToModule ctx from m cs b = (Ok u, b') ->
    exists ma, GetModuleAddress m = Some ma /\ transferred b b' from ma cs;
  send_from_module ctx m to cs (b b' : B) u :
    SendCoinsFromModuleToAccount ctx m to cs b = (Ok u, b') ->
    exists ma, GetModuleAddress m = Some ma /\ transferred b b' ma to cs;
  mint_coins ctx m cs (b b' : B) u :
    MintCoins ctx m cs b = (Ok u, b') ->
    exists ma, GetModuleAddress m = Some ma /\ issued b b' ma 1 cs;
  burn_coins ctx m cs (b b' : B) u :
    BurnCoins ctx m cs b = (Ok u, b') ->
    exists ma, GetModuleAddress m = Some ma /\ issued b b' ma (-1) cs;
}.

(** ** cosmos-sdk/x/bank/keeper *)
Module bankkeeper.

Definition ErrUnauthorized : err := Registered "sdk" 4.
Definition ErrInsufficientFunds : err := Registered "sdk" 5.
Definition ErrInvalidCoins : err := Registered "sdk" 10.

(** Balances and supply (zero entries are not stored), and the accounts of
    x/auth, [true] for module accounts. *)
Record BankState : Type := mkBankState {
  balances : gmap (string * string) Z;
  supply : gmap string Z;
  accounts : gmap string bool;
}.

(** How the application configures the keeper: module accounts with their
    permissions (maccPerms), the blocked addresses, and the account keeper's
    vesting locks. *)
Record Config : Type := mkConfig {
  permAddrs : gmap string (string * list string);
  blockedAddrs : gset string;
  LockedCoins : Ctx -> string -> list Coin;
}.

Section Keeper.
Context `{SdkMath} (cfg : Config).

Definition set_balances f (b : BankState) := mkBankState (f (balances b)) (supply b) (accounts b).
Definition set_supply f (b : BankState) := mkBankState (balances b) (f (supply b)) (accounts b).
Definition set_accounts f (b : BankState) := mkBankState (balances b) (supply b) (f (accounts b)).

Definition GetBalance (b : BankState) (addr denom : string) : Z :=
  default 0 (balances b !! (addr, denom)).

Definition GetSupply (b : BankState) (denom : string) : Z := default 0 (supply b !! denom).

Definition setBalance (addr : string) (balance : Coin) : M BankState unit :=
  if negb (Coin_Validate balance) then throw ErrInvalidCoins else
  modify (set_balances (fun m =>
    if Amount balance =? 0 then delete (addr, Denom balance) m
    else <[(addr, Denom balance) := Amount balance]> m)).

Definition setSupply (coin : Coin) : M BankState unit :=
  modify (set_supply (fun m =>
    if Amount coin =? 0 then delete (Denom coin) m else <[Denom coin := Amount coin]> m)).

(** [Coins{a}.SafeSub(b)] for one denomination: the difference, and whether it
    is negative. *)
Definition SafeSub (a b : Z) : option (Z * bool) :=
  match Int_Add a (- b) with
  | Some d => Some (d, d <? 0)
  | None => None
  end.

(** [Coin.Sub]: panics when the result is negative. *)
Definition Coin_Sub (a b : Z) : option Z :=
  match Int_Sub a b with
  | Some d => if d <? 0 then None else Some d
  | None => None
  end.

Definition subUnlockedCoin (ctx : Ctx) (addr : string) (coin : Coin) : M BankState unit :=
  let! balance := reads (fun b => GetBalance b addr (Denom coin)) in
  let! locked := or_panic (NewCoin (Denom coin) (coins_amount (LockedCoins cfg ctx addr) (Denom coin))) in
  let! spendable := or_panic (SafeSub balance (Amount locked)) in
  if snd spendable then throw ErrInsufficientFunds else
  let! rest := or_panic (SafeSub (fst spendable) (Amount coin)) in
  if snd rest then throw ErrInsufficientFunds else
  let! newBalance := or_panic (Coin_Sub balance (Amount coin)) in
  setBalance addr (mkCoin (Denom coin) newBalance).

Definition subUnlockedCoins (ctx : Ctx) (addr : string) (amt : list Coin) : M BankState unit :=
  if negb (Coins_Validate amt) then throw ErrInvalidCoins else
  for_each amt (subUnlockedCoin ctx addr).

Definition addCoin (addr : string) (coin : Coin) : M BankState unit :=
  let! balance := reads (fun b => GetBalance b addr (Denom coin)) in
  let! newBalance := or_panic (Int_Add balance (Amount coin)) in
  setBalance addr (mkCoin (Denom coin) newBalance).

Definition addCoins (addr : string) (amt : list Coin) : M BankState unit :=
  if negb (Coins_Validate amt) then throw ErrInvalidCoins else
  for_each amt (addCoin addr).

Definition SendCoins (ctx : Ctx) (fromAddr toAddr : string) (amt : list Coin) : M BankState unit :=
  subUnlockedCoins ctx fromAddr amt ;;!
  addCoins toAddr amt ;;!
  let! acc := reads (fun b => accounts b !! toAddr) in
  match acc with
  | Some _ => ret tt
  | None => modify (set_accounts (<[toAddr := false]>))
  end.

Definition BlockedAddr (addr : string) : bool := bool_decide (addr ∈ blockedAddrs cfg).

(** The module's address and permissions; the account is created on first use. *)
Definition GetModuleAccount (name : string) : M BankState (option (string * list string)) :=
  match permAddrs cfg !! name with
  | None => ret None
  | Some (addr, perms) =>
      let! acc := reads (fun b => accounts b !! addr) in
      match acc with
      | Some true => ret (Some (addr, perms))
      | Some false => panic
      | None => modify (set_accounts (<[addr := true]>)) ;;! ret (Some (addr, perms))
      end
  end.

Definition HasPermission (perms : list string) (p : string) : bool := bool_decide (p ∈ perms).

Definition ModuleAddress (name : string) : option string := fst <$> permAddrs cfg !! name.

Definition sendFromModuleToAccount (ctx : Ctx) (senderModule recipientAddr : string) (amt : list Coin)
    : M BankState unit :=
  match ModuleAddress senderModule with
  | None => panic
  | Some senderAddr =>
      if BlockedAddr recipientAddr then throw ErrUnauthorized
      else SendCoins ctx senderAddr recipientAddr amt
  end.

Definition sendFromAccountToModule (ctx : Ctx) (senderAddr recipientModule : string) (amt : list Coin)
    : M BankState unit :=
  let! acc := GetModuleAccount recipientModule in
  match acc with
  | None => panic
  | Some (addr, _) => SendCoins ctx senderAddr addr amt
  end.

Definition mintSupply (amount : Coin) : M BankState unit :=
  let! s := reads (fun b => GetSupply b (Denom amount)) in
  let! s' := or_panic (Int_Add s (Amount amount)) in
  setSupply (mkCoin (Denom amount) s').

Definition burnSupply (amount : Coin) : M BankState unit :=
  let! s := reads (fun b => GetSupply b (Denom amount)) in
  let! s' := or_panic (Coin_Sub s (Amount amount)) in
  setSupply (mkCoin (Denom amount) s').

Definition mintCoins (ctx : Ctx) (moduleName : string) (amounts : list Coin) : M BankState unit :=
  let! acc := GetModuleAccount moduleName in
  match acc with
  | None => panic
  | Some (addr, perms) =>
      if negb (HasPermission perms "minter") then panic else
      addCoins addr amounts ;;!
      for_each amounts mintSupply
  end.

Definition burnCoins (ctx : Ctx) (moduleName : string) (amounts : list Coin) : M BankState unit :=
  let! acc := GetModuleAccount moduleName in
  match acc with
  | None => panic
  | Some (addr, perms) =>
      if negb (HasPermission perms "burner") then panic else
      subUnlockedCoins ctx addr amounts ;;!
      for_each amounts burnSupply
  end.

#[export] Instance bank_keeper : BankKeeper BankState := {|
  SendCoinsFromAccountToModule := sendFromAccountToModule;
  SendCoinsFromModuleToAccount := sendFromModuleToAccount;
  MintCoins := mintCoins;
  BurnCoins := burnCoins;
  bk_balance := GetBalance;
  bk_supply := GetSupply;
  GetModuleAddress := ModuleAddress;
|}.
End Keeper.

Section Laws.
Context `{SdkMathLaws} (cfg : Config).

(** The balance of [addr] shifted by [k * cs], the supply as it was. *)
Definition shifted (b b' : BankState) (addr : string) (k : Z) (cs : list Coin) : Prop :=
  (forall a d, GetBalance b' a d = GetBalance b a d + owned_by a addr (k * coins_amount cs d)) /\
  (forall d, GetSupply b' d = GetSupply b d).

Lemma owned_by_0 a x : owned_by a x 0 = 0.
Proof. unfold owned_by. by case_bool_decide. Qed.

Lemma shifted_nil b addr k : shifted b b addr k [].
Proof. split; intros; cbn; [|done]. rewrite Z.mul_0_r, owned_by_0. lia. Qed.

Lemma shifted_cons b1 b2 b3 addr k c cs :
  shifted b1 b2 addr k [c] -> shifted b2 b3 addr k cs -> shifted b1 b3 addr k (c :: cs).
Proof.
  intros [H1 S1] [H2 S2]. split; intros; [|by rewrite S2, S1].
  rewrite H2, H1. unfold owned_by. cbn. case_bool_decide; lia.
Qed.

Lemma setBalance_ok addr c b u b' :
  setBalance addr c b = (Ok u, b') ->
  (forall a d, GetBalance b' a d =
     if bool_decide (a = addr /\ d = Denom c) then Amount c else GetBalance b a d) /\
  (forall d, GetSupply b' d = GetSupply b d).
Proof.
  unfold setBalance. intros. inv_go. split; [|done]. intros a d.
  unfold GetBalance, set_balances. cbn [balances].
  case_bool_decide as E; [destruct E as [-> ->]|].
  - destruct (Z.eqb_spec (Amount c) 0) as [->|];
      by rewrite ?lookup_delete_eq, ?lookup_insert_eq.
  - assert ((addr, Denom c) <> (a, d)) by (intros [= ??]; subst; tauto).
    case_match; by rewrite ?lookup_delete_ne, ?lookup_insert_ne.
Qed.

Lemma setBalance_shift addr c k b u b' :
  setBalance addr (mkCoin (Denom c) (GetBalance b addr (Denom c) + k * Amount c)) b = (Ok u, b') ->
  shifted b b' addr k [c].
Proof.
  intros [Hb Hs]%setBalance_ok. split; [|done]. intros a d. rewrite Hb. unfold owned_by.
  cbn. repeat case_bool_decide; destruct_and?; subst; try tauto; lia.
Qed.

Lemma subUnlockedCoin_ok ctx addr c b u b' :
  subUnlockedCoin cfg ctx addr c b = (Ok u, b') ->
  shifted b b' addr (-1) [c] /\ Amount c <= GetBalance b addr (Denom c).
Proof.
  unfold subUnlockedCoin, Coin_Sub. intros. inv_go.
  match goal with H : Int_Sub _ _ = Some ?z |- _ => apply Int_Sub_exact in H as -> end.
  rewrite Z.ltb_ge in *. split; [|lia].
  eapply setBalance_shift.
  match goal with H : setBalance _ _ _ = _ |- _ => rewrite <- H end. do 2 f_equal; lia.
Qed.

Lemma addCoin_ok addr c b u b' :
  addCoin addr c b = (Ok u, b') -> shifted b b' addr 1 [c].
Proof.
  unfold addCoin. intros. inv_go.
  match goal with H : Int_Add _ _ = Some ?z |- _ => apply Int_Add_exact in H as -> end.
  eapply setBalance_shift.
  match goal with H : setBalance _ _ _ = _ |- _ => rewrite <- H end. do 2 f_equal; lia.
Qed.

(** A loop whose steps shift a balance shifts it by the whole coin set. *)
Lemma for_each_shift (f : Coin -> M BankState unit) addr k cs b u b' :
  (forall c b u b', f c b = (Ok u, b') -> shifted b b' addr k [c]) ->
  for_each cs f b = (Ok u, b') -> shifted b b' addr k cs.
Proof.
  intros Hf. revert b. induction cs as [|c cs IH]; cbn [for_each]; intros b Hr; inv_go.
  - apply shifted_nil.
  - eauto using shifted_cons.
Qed.

Lemma subUnlockedCoins_ok ctx addr cs b u b' :
  subUnlockedCoins cfg ctx addr cs b = (Ok u, b') -> shifted b b' addr (-1) cs.
Proof.
  unfold subUnlockedCoins. intros. inv_go.
  eapply for_each_shift; [|done]. intros. by eapply subUnlockedCoin_ok.
Qed.

Lemma addCoins_ok addr cs b u b' :
  addCoins addr cs b = (Ok u, b') -> shifted b b' addr 1 cs.
Proof.
  unfold addCoins. intros. inv_go.
  eapply for_each_shift; [|done]. intros. by eapply addCoin_ok.
Qed.

(** Supply bookkeeping shifts the supply and no balance. *)
Lemma setSupply_ok c b u b' :
  setSupply c b = (Ok u, b') ->
  (forall a d, GetBalance b' a d = GetBalance b a d) /\
  (forall d, GetSupply b' d = if bool_decide (d = Denom c) then Amount c else GetSupply b d).
Proof.
  unfold setSupply. intros. inv_go. split; [done|]. intros d. unfold GetSupply, set_supply. cbn.
  case_bool_decide as E; [subst|].
  - destruct (Z.eqb_spec (Amount c) 0) as [->|]; by rewrite ?lookup_delete_eq, ?lookup_insert_eq.
  - case_match; by rewrite ?lookup_delete_ne, ?lookup_insert_ne.
Qed.

Lemma for_each_supply (f : Coin -> M BankState unit) k cs b u b' :
  (forall c b u b', f c b = (Ok u, b') ->
     setSupply (mkCoin (Denom c) (GetSupply b (Denom c) + k * Amount c)) b = (Ok tt, b')) ->
  for_each cs f b = (Ok u, b') ->
  (forall a d, GetBalance b' a d = GetBalance b a d) /\
  (forall d, GetSupply b' d = GetSupply b d + k * coins_amount cs d).
Proof.
  intros Hf. revert b. induction cs as [|c cs IH]; cbn [for_each]; intros b Hr; inv_go.
  - split; intros; cbn; lia.
  - match goal with H : f c _ = _ |- _ => apply Hf, setSupply_ok in H as [Hb1 Hs1] end.
    match goal with H : for_each _ _ _ = _ |- _ => apply IH in H as [Hb2 Hs2] end.
    split; intros; rewrite ?Hb2, ?Hs2, ?Hb1, ?Hs1; [done|].
    cbn. repeat case_bool_decide; subst; try done; lia.
Qed.

Lemma mintSupply_ok c b u b' :
  mintSupply c b = (Ok u, b') ->
  setSupply (mkCoin (Denom c) (GetSupply b (Denom c) + 1 * Amount c)) b = (Ok tt, b').
Proof.
  unfold mintSupply. intros. inv_go. rewrite Z.mul_1_l.
  match goal with H : Int_Add _ _ = Some ?z |- _ => apply Int_Add_exact in H as -> end.
  by destruct u.
Qed.

Lemma burnSupply_ok c b u b' :
  burnSupply c b = (Ok u, b') ->
  setSupply (mkCoin (Denom c) (GetSupply b (Denom c) + -1 * Amount c)) b = (Ok tt, b').
Proof.
  unfold burnSupply, Coin_Sub. intros. inv_go.
  match goal with H : Int_Sub _ _ = Some ?z |- _ => apply Int_Sub_exact in H as -> end.
  destruct u. match goal with H : setSupply _ _ = _ |- _ => rewrite <- H end. do 2 f_equal; lia.
Qed.

Lemma GetModuleAccount_ok name b acc b' :
  GetModuleAccount cfg name b = (Ok acc, b') ->
  acc = permAddrs cfg !! name /\
  (forall a d, GetBalance b' a d = GetBalance b a d) /\ (forall d, GetSupply b' d = GetSupply b d).
Proof. unfold GetModuleAccount. intros. inv_go; done. Qed.

Lemma GetBalance_accounts f b a d : GetBalance (set_accounts f b) a d = GetBalance b a d.
Proof. done. Qed.

Lemma GetSupply_accounts f b d : GetSupply (set_accounts f b) d = GetSupply b d.
Proof. done. Qed.

Lemma SendCoins_ok ctx from to cs b u b' :
  SendCoins cfg ctx from to cs b = (Ok u, b') ->
  @transferred _ (bank_keeper cfg) b b' from to cs.
Proof.
  unfold SendCoins. intros. inv_go;
    match goal with H : subUnlockedCoins _ _ _ _ _ = _ |- _ => apply subUnlockedCoins_ok in H as [B1 S1] end;
    match goal with H : addCoins _ _ _ = _ |- _ => apply addCoins_ok in H as [B2 S2] end;
    (split; cbn [bk_balance bk_supply bank_keeper]; intros;
     rewrite ?GetBalance_accounts, ?GetSupply_accounts; [|by rewrite S2, S1]);
    rewrite B2, B1; unfold owned_by; repeat case_bool_decide; lia.
Qed.

(** A transfer of one coin the sender has, free of vesting locks, goes through. *)
Lemma setBalance_run addr d n b :
  ValidateDenom d = true -> 0 <= n -> exists b', setBalance addr (mkCoin d n) b = (Ok tt, b').
Proof.
  intros Hd Hn. unfold setBalance, Coin_Validate. cbn. rewrite Hd, (proj2 (Z.leb_le 0 n) Hn). by eexists.
Qed.

Lemma Coins_Validate_one d n :
  ValidateDenom d = true -> 0 < n -> Coins_Validate [mkCoin d n] = true.
Proof. intros Hd Hn. cbn. by rewrite Hd, (proj2 (Z.ltb_lt 0 n)). Qed.

Lemma SendCoins_run ctx from to d n b :
  LockedCoins cfg ctx from = [] -> ValidateDenom d = true -> 0 < n <= GetBalance b from d ->
  (forall x, 0 <= GetBalance b x d < 2 ^ 255) ->
  exists b', SendCoins cfg ctx from to [mkCoin d n] b = (Ok tt, b').
Proof.
  intros Hl Hd Hn Hb. assert (2 ^ 255 + 2 ^ 255 = 2 ^ 256) as Hpow by done. pose proof (Hb from) as Hf.
  assert (exists b1, subUnlockedCoins cfg ctx from [mkCoin d n] b = (Ok tt, b1)) as [b1 H1].
  { unfold subUnlockedCoins. rewrite Coins_Validate_one by (done || lia). cbn [negb for_each].
    destruct (setBalance_run from d (GetBalance b from d - n) b Hd ltac:(lia)) as [b1 E]. exists b1.
    erewrite bind_run; [done|]. unfold subUnlockedCoin. rewrite Hl. cbn [Denom Amount coins_amount].
    unfold bind at 1, reads. unfold NewCoin, Coin_Validate. cbn [Denom Amount]. rewrite Hd. cbn.
    unfold SafeSub, Coin_Sub, bind, or_panic, ret. rewrite Int_Add_fits by lia.
    rewrite (proj2 (Z.ltb_ge _ 0)) by lia. cbn. rewrite Int_Add_fits by lia.
    rewrite (proj2 (Z.ltb_ge _ 0)) by lia. cbn. rewrite Int_Sub_fits by lia.
    rewrite (proj2 (Z.ltb_ge _ 0)) by lia. exact E. }
  pose proof (subUnlockedCoins_ok _ _ _ _ _ _ H1) as [Hbal _].
  assert (exists b2, addCoins to [mkCoin d n] b1 = (Ok tt, b2)) as [b2 H2].
  { unfold addCoins. rewrite Coins_Validate_one by (done || lia). cbn [negb for_each].
    assert (0 <= GetBalance b1 to d < 2 ^ 255) as Hto.
    { rewrite Hbal. pose proof (Hb to). cbn. unfold owned_by. rewrite (bool_decide_true (d = d)) by done.
      case_bool_decide; subst; lia. }
    destruct (setBalance_run to d (GetBalance b1 to d + n) b1 Hd ltac:(lia)) as [b2 E]. exists b2.
    erewrite bind_run; [done|]. unfold addCoin, bind, reads, or_panic, ret. cbn [Denom Amount].
    rewrite Int_Add_fits by lia. exact E. }
  unfold SendCoins. rewrite (bind_run _ _ _ _ _ H1), (bind_run _ _ _ _ _ H2).
  unfold bind, reads, modify, ret. case_match; by eexists.
Qed.

(** The bank meets the interface its clients are verified against. *)
#[export] Instance bank_laws : @BankLaws BankState (bank_keeper cfg).
Proof.
  split; cbn [bank_keeper SendCoinsFromAccountToModule SendCoinsFromModuleToAccount
    MintCoins BurnCoins GetModuleAddress]; unfold ModuleAddress; intros ctx.
  - intros from m cs b b' u Hr. unfold sendFromAccountToModule in Hr. inv_go.
    match goal with H : GetModuleAccount _ _ _ = _ |- _ => apply GetModuleAccount_ok in H as (E & B1 & S1) end.
    match goal with H : SendCoins _ _ _ _ _ _ = _ |- _ => apply SendCoins_ok in H as [B2 S2] end.
    rewrite <- E. eexists; split; [done|]. cbn in *.
    split; intros; cbn; [by rewrite B2, B1|by rewrite S2, S1].
  - intros m to cs b b' u Hr. unfold sendFromModuleToAccount, ModuleAddress in Hr. inv_go.
    eexists; split; [done|]. by eapply SendCoins_ok.
  - intros m cs b b' u Hr. unfold mintCoins in Hr. inv_go.
    match goal with H : GetModuleAccount _ _ _ = _ |- _ => apply GetModuleAccount_ok in H as (E & B1 & S1) end.
    match goal with H : addCoins _ _ _ = _ |- _ => apply addCoins_ok in H as [B2 S2] end.
    match goal with H : for_each _ _ _ = _ |- _ => apply (for_each_supply _ 1) in H as [B3 S3];
      [|apply mintSupply_ok] end.
    rewrite <- E. eexists; split; [done|].
    split; intros; cbn; [by rewrite B3, B2, B1|by rewrite S3, S2, S1].
  - intros m cs b b' u Hr. unfold burnCoins in Hr. inv_go.
    match goal with H : GetModuleAccount _ _ _ = _ |- _ => apply GetModuleAccount_ok in H as (E & B1 & S1) end.
    match goal with H : subUnlockedCoins _ _ _ _ _ = _ |- _ => apply subUnlockedCoins_ok in H as [B2 S2] end.
    match goal with H : for_each _ _ _ = _ |- _ => apply (for_each_supply _ (-1)) in H as [B3 S3];
      [|apply burnSupply_ok] end.
    rewrite <- E. eexists; split; [done|].
    split; intros; cbn; [by rewrite B3, B2, B1|by rewrite S3, S2, S1].
Qed.
End Laws.
End bankkeeper.
