(* ===== verification/Oracle.v ===== *)
(** Oracle: x/oracle (keeper/keeper.go, keeper/msg_server.go,
    keeper/query_server.go, genesis.go and the block hooks of module.go).

    Prices are stored under [price/<denom>/<height>], the cached TWAP (a
    median) under [twap/<denom>].  Theorems: the keys determine their entry;
    the median lies between the cheapest and the dearest price of the window
    and does not depend on the order the sort leaves equal prices in; pruning
    never removes a price the window can see; only accepted submissions write;
    one submission per denom and block survives. *)

From Stdlib Require Import ZArith Lia Ascii String Sorted.
From stdpp Require Import base gmap sets list strings fin_maps sorting pretty.
From S2P Require Import Prelude Sdk Types.

Open Scope Z_scope.
Open Scope go_scope.
Import oracletypes.

(** The StakingKeeper interface of keeper.go: is there a validator with this
    operator address, and the operators of the bonded validators by power. *)
Class StakingKeeper : Type := {
  GetValidator : Ctx -> string -> bool;
  BondedValidatorsByPower : Ctx -> list string;
}.

Module oraclekeeper.

(** The order sort.Slice sorts entries by. *)
Definition price_le (x y : PriceEntry) : Prop := PriceUSD x <= PriceUSD y.

#[export] Instance price_le_dec : RelDecision price_le.
Proof. intros x y. unfold price_le. apply _. Defined.

Section Keeper.
Context {B : Type} `{SdkMath} `{Bech32} `{StakingKeeper}.

(** *** Store access *)

Definition store_get (k : string) : M (World B) (option value) :=
  reads (fun w => w_oracle w !! k).
Definition store_set (k : string) (v : value) : M (World B) unit :=
  modify (fun w => set_oracle (<[k:=v]> (w_oracle w)) w).
Definition store_delete (k : string) : M (World B) unit :=
  modify (fun w => set_oracle (delete k (w_oracle w)) w).

Definition GetParams : M (World B) OracleParams :=
  let! bz := store_get OracleParamsKey in
  match bz with
  | Some (VParams p) => ret p
  | _ => ret DefaultOracleParams
  end.

Definition SetParams (params : OracleParams) : M (World B) unit :=
  store_set OracleParamsKey (VParams params).

Definition priceKey (denom : string) (height : Z) : string :=
  PriceKeyPrefix +:+ denom +:+ "/" +:+ pretty height.

Definition pricePrefix (denom : string) : string := PriceKeyPrefix +:+ denom +:+ "/".

Definition twapKey (denom : string) : string := TWAPKeyPrefix +:+ denom.

Definition SetPrice (entry : PriceEntry) : M (World B) unit :=
  store_set (priceKey (Denom entry) (Height entry)) (VPrice entry).

(** json.Unmarshal of a stored value into a PriceEntry. *)
Definition unmarshal_price (v : value) : option PriceEntry :=
  match v with
  | VPrice e => Some e
  | VNullPrice e =>
      (fun z => mkPriceEntry (Denom e) z (Submitter e) (Height e) (Timestamp e)) <$> Dec_UnmarshalNull
  | _ => None
  end.

(** The entries an iteration over a prefix decodes, in key order. *)
Definition prices_under (prefix : string) (m : gmap string value) : list PriceEntry :=
  omap (fun kv => unmarshal_price kv.2) (kv_prefix_iter prefix m).

(** *** Price storage *)

Fixpoint latest_of (best : option PriceEntry) (l : list PriceEntry) : option PriceEntry :=
  match l with
  | [] => best
  | e :: l =>
      match best with
      | None => latest_of (Some e) l
      | Some b => latest_of (if Height b <? Height e then Some e else Some b) l
      end
  end.

Definition GetLatestPrice (denom : string) : M (World B) PriceEntry :=
  let! m := reads w_oracle in
  match latest_of None (prices_under (pricePrefix denom) m) with
  | Some e => ret e
  | None => throw (Errorf "no price found for denom")
  end.

Definition GetPriceHistory (denom : string) (fromHeight : Z) : M (World B) (list PriceEntry) :=
  let! m := reads w_oracle in
  ret (filter (fun e => fromHeight <= Height e) (prices_under (pricePrefix denom) m)).

(** *** TWAP *)

(** The median price of the entries, sorted by price. *)
Definition median_price (entries : list PriceEntry) : M (World B) Z :=
  let sorted := merge_sort price_le entries in
  let n := length sorted in
  if Nat.odd n then
    let! e := or_panic (sorted !! (n / 2)%nat) in
    ret (PriceUSD e)
  else
    let! mid1 := or_panic (if (0 <? n)%nat then sorted !! (n / 2 - 1)%nat else None) in
    let! mid2 := or_panic (sorted !! (n / 2)%nat) in
    let! s := or_panic (Dec_Add (PriceUSD mid1) (PriceUSD mid2)) in
    or_panic (Dec_Quo s (NewDecFromInt 2)).

Definition window_start (params : OracleParams) (currentHeight : Z) : Z :=
  let windowStart := wrap_i64 (currentHeight - TwapWindowBlocks params) in
  if windowStart <? 0 then 0 else windowStart.

Definition ComputeTWAP (ctx : Ctx) (denom : string) : M (World B) TWAPData :=
  let! params := GetParams in
  let windowStart := window_start params (BlockHeight ctx) in
  let! entries := GetPriceHistory denom windowStart in
  if Z.of_nat (length entries) <? MinSubmissions params then throw ErrInsufficientSubmissions else
  let! median := median_price entries in
  ret {| tw_Denom := denom; TWAP := median; WindowStart := windowStart;
         WindowEnd := BlockHeight ctx; NumSamples := Z.of_nat (length entries) |}.

Definition GetTWAP (denom : string) : M (World B) TWAPData :=
  let! bz := store_get (twapKey denom) in
  match bz with
  | None => throw (Errorf "no TWAP found for denom")
  | Some (VTWAP d) => ret d
  | Some _ => throw (Errorf "oracle: failed to unmarshal TWAP")
  end.

Definition SetTWAP (data : TWAPData) : M (World B) unit :=
  store_set (twapKey (tw_Denom data)) (VTWAP data).

(** *** Pruning *)

Definition prune_cutoff (params : OracleParams) (currentHeight : Z) : Z :=
  wrap_i64 (wrap_i64 (currentHeight - TwapWindowBlocks params) - MaxPriceAge params).

Definition prune_keys (cutoff : Z) (m : gmap string value) : list string :=
  omap (fun kv => match unmarshal_price kv.2 with
                  | Some e => if Height e <? cutoff then Some kv.1 else None
                  | None => None
                  end) (kv_prefix_iter PriceKeyPrefix m).

Definition PruneOldPrices (currentHeight : Z) : M (World B) unit :=
  let! params := GetParams in
  let cutoff := prune_cutoff params currentHeight in
  if cutoff <=? 0 then ret tt else
  let! m := reads w_oracle in
  for_each (prune_keys cutoff m) store_delete.

(** *** Validator check *)

Definition lower (c : ascii) : ascii :=
  let n := nat_of_ascii c in
  if (65 <=? n)%nat && (n <=? 90)%nat then ascii_of_nat (n + 32) else c.

(** strings.EqualFold on ASCII strings. *)
Fixpoint EqualFold (s t : string) : bool :=
  match s, t with
  | EmptyString, EmptyString => true
  | String a s, String b t => Ascii.eqb (lower a) (lower b) && EqualFold s t
  | _, _ => false
  end.

Definition IsValidatorSubmitter (ctx : Ctx) (addr : string) : bool :=
  if GetValidator ctx addr then true else
  let addrStr := AccAddress_String addr in
  existsb (fun val => EqualFold (AccAddress_String val) addrStr) (BondedValidatorsByPower ctx).

(** *** Messages and block hooks *)

Definition SubmitPrice (ctx : Ctx) (req : MsgSubmitPrice) : M (World B) unit :=
  match AccAddressFromBech32 (msg_Submitter req) with
  | None => throw (Errorf "invalid submitter address")
  | Some submitter =>
      if negb (IsValidatorSubmitter ctx submitter) then throw ErrUnauthorizedSubmitter else
      let! params := GetParams in
      if negb (bool_decide (msg_Denom req ∈ WhitelistedDenoms params)) then throw ErrInvalidDenom else
      if (MaxPriceAge params <? BlockHeight ctx) && bool_decide (msg_PriceUsd req = None)
      then throw ErrPriceTooOld else
      let entry p := mkPriceEntry (msg_Denom req) p (msg_Submitter req) (BlockHeight ctx) (BlockTime ctx) in
      match msg_PriceUsd req with
      | Some p => SetPrice (entry p)
      | None => store_set (priceKey (msg_Denom req) (BlockHeight ctx)) (VNullPrice (entry 0))
      end ;;!
      let! twap := try (ComputeTWAP ctx (msg_Denom req)) in
      match twap with
      | inl d => SetTWAP d
      | inr _ => ret tt
      end ;;!
      PruneOldPrices (BlockHeight ctx) ;;!
      EmitEvent (NewEvent EventTypeSubmitPrice
        [("denom", AStr (msg_Denom req));
         ("price", match msg_PriceUsd req with Some p => ADec p | None => AStr "<nil>" end);
         ("submitter", AStr (msg_Submitter req))])
  end.

Definition BeginBlock (ctx : Ctx) : M (World B) unit :=
  let! params := GetParams in
  for_each (WhitelistedDenoms params) (fun denom =>
    let! twap := try (ComputeTWAP ctx denom) in
    match twap with
    | inl d => SetTWAP d
    | inr _ => ret tt
    end).

Definition EndBlock (ctx : Ctx) : M (World B) unit := PruneOldPrices (BlockHeight ctx).

(** *** Queries and genesis *)

(** A query runs on a branch of the state that is dropped. *)
Definition QueryPrice (denom : string) : M (World B) PriceEntry :=
  if bool_decide (denom = "") then throw (Errorf "denom cannot be empty") else
  map_err (Wrapf "oracle") (GetLatestPrice denom).

Definition QueryTWAP (ctx : Ctx) (denom : string) : M (World B) TWAPData :=
  if bool_decide (denom = "") then throw (Errorf "denom cannot be empty") else
  let! cached := try (GetTWAP denom) in
  match cached with
  | inl d => ret d
  | inr _ => map_err (Wrapf "oracle") (ComputeTWAP ctx denom)
  end.

Definition QueryAllPrices (denom : string) (fromHeight : Z) : M (World B) (list PriceEntry) :=
  if bool_decide (denom = "") then throw (Errorf "denom cannot be empty") else
  GetPriceHistory denom fromHeight.

Definition InitGenesis (gs : GenesisState) : M (World B) unit := SetParams (Params gs).

Definition ExportGenesis : M (World B) GenesisState :=
  let! params := GetParams in
  ret {| Params := params |}.
End Keeper.

Section Lemmas.
Context {B : Type} `{SdkMathLaws} `{Bech32} `{StakingKeeper}.
Implicit Types (w : World B) (m : gmap string value).

(** *** Keys *)

Lemma priceKey_split d h : priceKey d h = PriceKeyPrefix +:+ (d +:+ String "/" (pretty h)).
Proof. done. Qed.

Lemma priceKey_injective d h d' h' : priceKey d h = priceKey d' h' -> d = d' /\ h = h'.
Proof.
  rewrite !priceKey_split. intros E%string_app_inj.
  apply last_sep_inj in E as [-> E]; [|apply pretty_Z_no_slash..].
  by apply (inj pretty) in E as ->.
Qed.

Lemma pricePrefix_key d h : String.prefix (pricePrefix d) (priceKey d h) = true.
Proof.
  apply prefix_iff. exists (pretty h). unfold pricePrefix, priceKey.
  by rewrite !string_app_assoc.
Qed.

Lemma PriceKeyPrefix_key d h : String.prefix PriceKeyPrefix (priceKey d h) = true.
Proof. apply prefix_iff. by eexists. Qed.

(** Every stored value sits under the key its own fields give. *)
Definition key_of (v : value) : string :=
  match v with
  | VPrice e | VNullPrice e => priceKey (Denom e) (Height e)
  | VTWAP d => twapKey (tw_Denom d)
  | VParams _ => OracleParamsKey
  end.

Definition store_wf m : Prop := forall k v, m !! k = Some v -> k = key_of v.

Lemma store_wf_insert m v : store_wf m -> store_wf (<[key_of v := v]> m).
Proof. intros Hm k v' [[<- <-]|[_ ?]]%lookup_insert_Some; [done|]. by apply Hm. Qed.

Lemma store_wf_delete m k : store_wf m -> store_wf (delete k m).
Proof. intros Hm k' v [_ ?]%lookup_delete_Some. by apply Hm. Qed.

Lemma unmarshal_price_key v e :
  unmarshal_price v = Some e -> key_of v = priceKey (Denom e) (Height e).
Proof.
  destruct v; cbn; intros; simplify_eq; try done.
  by destruct Dec_UnmarshalNull; simplify_eq/=.
Qed.

(** *** Reading parameters and histories leaves the state alone *)

Lemma GetParams_run w : exists p, GetParams w = (Ok p, w).
Proof. unfold GetParams, store_get, bind, reads. repeat case_match; by eexists. Qed.

Lemma GetParams_ok w p w' :
  GetParams w = (Ok p, w') -> w' = w /\ forall w2, w_oracle w2 !! OracleParamsKey = w_oracle w !! OracleParamsKey ->
    GetParams w2 = (Ok p, w2).
Proof.
  unfold GetParams, store_get, bind, reads. intros E.
  split; [|intros w2 ->]; destruct (w_oracle w !! OracleParamsKey) as [[]|]; cbv in E |- *;
    by simplify_eq.
Qed.

Definition history (denom : string) (from : Z) m : list PriceEntry :=
  filter (fun e => from <= Height e) (prices_under (pricePrefix denom) m).

Lemma GetPriceHistory_run denom from w :
  GetPriceHistory denom from w = (Ok (history denom from (w_oracle w)), w).
Proof. done. Qed.

Lemma elem_of_history denom from m e :
  e ∈ history denom from m <->
  from <= Height e /\ exists k v, m !! k = Some v /\ unmarshal_price v = Some e /\
    String.prefix (pricePrefix denom) k = true.
Proof.
  unfold history, prices_under. rewrite list_elem_of_filter, list_elem_of_omap.
  split; [intros (? & [k v] & [? ?]%elem_of_kv_prefix_iter & ?)|intros (? & k & v & ? & ? & ?)]; 
    (split; [done|]); [by eauto 6|].
  exists (k, v). by rewrite elem_of_kv_prefix_iter.
Qed.

(** *** The median *)

#[local] Instance price_le_total : Total price_le.
Proof. intros x y. unfold price_le. lia. Qed.
#[local] Instance price_le_trans : Transitive price_le.
Proof. intros x y z. unfold price_le. lia. Qed.

Lemma sorted_entries_rank es i e :
  merge_sort price_le es !! i = Some e ->
  (S i <= count (fun a => PriceUSD a <= PriceUSD e)%Z es /\
   length es - i <= count (fun a => PriceUSD e <= PriceUSD a)%Z es)%nat.
Proof.
  intros Hi. pose proof (merge_sort_Permutation price_le es) as Hp.
  rewrite <- (Permutation_length Hp), <- !(count_Permutation _ _ _ Hp).
  by apply (sorted_rank PriceUSD); [apply StronglySorted_merge_sort; apply _|].
Qed.

(** Half of a sum of two decimals, rounded to the last place, lies between them. *)
Lemma half_between a b s c :
  Dec_Add a b = Some s -> Dec_Quo s (NewDecFromInt 2) = Some c -> a <= b -> a <= c <= b.
Proof.
  intros ->%Dec_Add_exact [_ Hc]%Dec_Quo_near Hab.
  rewrite NewDecFromInt_scale in Hc. unfold dec_one in Hc. lia.
Qed.

Lemma median_price_ok es (w : World B) c w' :
  median_price es w = (Ok c, w') ->
  w' = w /\
  (length es <= 2 * count (fun a => PriceUSD a <= c)%Z es /\
   length es <= 2 * count (fun a => c <= PriceUSD a)%Z es)%nat.
Proof.
  unfold median_price.
  rewrite (Permutation_length (merge_sort_Permutation price_le es)).
  pose proof (Nat.div_mod_eq (length es) 2) as Hn.
  pose proof (Nat.mod_upper_bound (length es) 2) as Hm.
  destruct (Nat.odd _) eqn:Hodd.
  - rewrite <- Nat.bit0_odd, Nat.bit0_eqb, Nat.eqb_eq in Hodd.
    intros Hr. inv_go.
    match goal with H : _ !! _ = Some _ |- _ => apply sorted_entries_rank in H end.
    split; [done|]. lia.
  - rewrite <- Nat.negb_even, negb_false_iff, Nat.even_spec in Hodd.
    destruct Hodd as [k Hk].
    intros Hr. inv_go.
    match goal with H : (0 <? _)%nat = true |- _ => apply Nat.ltb_lt in H end.
    match goal with H1 : _ !! (?n - 1)%nat = Some ?a, H2 : _ !! ?n = Some ?b |- _ =>
      assert (PriceUSD a <= PriceUSD b) as Hab
        by (pose proof (StronglySorted_merge_sort price_le es) as Hs;
            eapply (sorted_lookup_le PriceUSD _ (n - 1) n); [apply Hs|..]; eauto; lia);
      pose proof (proj1 (sorted_entries_rank _ _ _ H1)) as R1;
      pose proof (proj2 (sorted_entries_rank _ _ _ H2)) as R2 end.
    destruct (half_between _ _ _ _ ltac:(eassumption) ltac:(eassumption) Hab) as [L1 L2].
    split; [done|]. split.
    + etransitivity; [|apply Nat.mul_le_mono_l, (count_mono (fun a => PriceUSD a <= PriceUSD x))]; [lia|].
      intros; lia.
    + etransitivity; [|apply Nat.mul_le_mono_l, (count_mono (fun a => PriceUSD x1 <= PriceUSD a))]; [lia|].
      intros; lia.
Qed.

(** The list of sorted prices, all the median depends on. *)
Definition median_of (ps : list Z) : option Z :=
  let n := length ps in
  if Nat.odd n then ps !! (n / 2)%nat
  else
    mid1 ← (if (0 <? n)%nat then ps !! (n / 2 - 1)%nat else None);
    mid2 ← ps !! (n / 2)%nat;
    s ← Dec_Add mid1 mid2;
    Dec_Quo s (NewDecFromInt 2).

Lemma median_price_spec es (w : World B) :
  median_price es w = or_panic (median_of (PriceUSD <$> merge_sort price_le es)) w.
Proof.
  unfold median_price, median_of. rewrite length_fmap. destruct (Nat.odd _).
  - rewrite list_lookup_fmap. by destruct (_ !! _).
  - destruct (0 <? _)%nat; [|done]. rewrite !list_lookup_fmap.
    destruct (_ !! (_ - 1)%nat) as [e1|]; [|done]. cbn.
    destruct (_ !! _) as [e2|]; [|done]. cbn. by destruct (Dec_Add _ _).
Qed.

Lemma sorted_prices_perm es es' :
  es ≡ₚ es' -> PriceUSD <$> merge_sort price_le es = PriceUSD <$> merge_sort price_le es'.
Proof.
  intros Hp. apply (StronglySorted_unique Z.le).
  1,2: eapply (StronglySorted_fmap _ price_le); [by intros|]; apply StronglySorted_merge_sort; apply _.
  by rewrite !(merge_sort_Permutation price_le), Hp.
Qed.

Lemma median_price_perm es es' (w : World B) : es ≡ₚ es' -> median_price es w = median_price es' w.
Proof. intros Hp. by rewrite !median_price_spec, (sorted_prices_perm _ _ Hp). Qed.

Lemma ComputeTWAP_ok ctx d w t w' :
  ComputeTWAP ctx d w = (Ok t, w') ->
  w' = w /\ tw_Denom t = d /\ WindowEnd t = BlockHeight ctx /\
  let es := history d (WindowStart t) (w_oracle w) in
  NumSamples t = Z.of_nat (length es) /\
  (length es <= 2 * count (fun a => PriceUSD a <= TWAP t)%Z es /\
   length es <= 2 * count (fun a => TWAP t <= PriceUSD a)%Z es)%nat.
Proof.
  unfold ComputeTWAP. intros Hr. inv_go.
  match goal with H : GetParams _ = _ |- _ => apply GetParams_ok in H as [-> _] end.
  match goal with H : GetPriceHistory _ _ _ = _ |- _ => rewrite GetPriceHistory_run in H; injection H as <- <- end.
  match goal with H : median_price _ _ = _ |- _ => apply median_price_ok in H as (-> & ? & ?) end.
  done.
Qed.

(** *** Pruning *)

Lemma for_each_delete ks w u w' :
  for_each ks store_delete w = (Ok u, w') ->
  exists m, w' = set_oracle m w /\
    forall k, m !! k = if bool_decide (k ∈ ks) then None else w_oracle w !! k.
Proof.
  revert w. induction ks as [|k0 ks IH]; cbn [for_each]; intros w Hr.
  - inv_go. exists (w_oracle w). split; [by destruct w|]. intros k.
    rewrite bool_decide_false by apply not_elem_of_nil. done.
  - apply bind_ok in Hr as (? & w1 & Hd & Hr). unfold store_delete in Hd. inv_go.
    apply IH in Hr as (m & -> & Hm). exists m. split; [done|]. intros k. rewrite Hm. cbn.
    destruct (decide (k = k0)) as [->|Hk].
    + rewrite (bool_decide_true (k0 ∈ k0 :: ks)), lookup_delete_eq by set_solver. by case_bool_decide.
    + rewrite lookup_delete_ne by done. repeat case_bool_decide; set_solver.
Qed.

Lemma elem_of_prune_keys cutoff m k :
  k ∈ prune_keys cutoff m <->
  exists v e, m !! k = Some v /\ unmarshal_price v = Some e /\ Height e < cutoff /\
    String.prefix PriceKeyPrefix k = true.
Proof.
  unfold prune_keys. rewrite list_elem_of_omap. split.
  - intros ([k' v] & [? ?]%elem_of_kv_prefix_iter & E). cbn in E.
    destruct (unmarshal_price v) as [e|] eqn:?; [|done].
    destruct (Z.ltb_spec (Height e) cutoff); simplify_eq. eauto 7.
  - intros (v & e & ? & E & ? & ?). exists (k, v). rewrite elem_of_kv_prefix_iter. cbn.
    split; [done|]. rewrite E. by rewrite (proj2 (Z.ltb_lt _ _)).
Qed.

(** What pruning does to the store: it drops the prices older than the cutoff
    and nothing else. *)
Lemma PruneOldPrices_ok h w u w' p :
  PruneOldPrices h w = (Ok u, w') -> GetParams w = (Ok p, w) ->
  exists m, w' = set_oracle m w /\
    forall k, m !! k = w_oracle w !! k \/
      (m !! k = None /\ exists v e, w_oracle w !! k = Some v /\ unmarshal_price v = Some e /\
         Height e < prune_cutoff p h /\ String.prefix PriceKeyPrefix k = true).
Proof.
  unfold PruneOldPrices. intros Hr Hp. rewrite (bind_run _ _ _ _ _ Hp) in Hr. inv_go.
  - exists (w_oracle w). split; [by destruct w|]. auto.
  - match goal with H : for_each _ _ _ = _ |- _ => apply for_each_delete in H as (m & -> & Hm) end.
    exists m. split; [done|]. intros k. rewrite Hm. case_bool_decide as E; [|by left].
    right. split; [done|]. by apply elem_of_prune_keys in E.
Qed.

Lemma PruneOldPrices_total h w : exists w', PruneOldPrices h w = (Ok tt, w').
Proof.
  unfold PruneOldPrices. destruct (GetParams_run w) as [p Hp]. rewrite (bind_run _ _ _ _ _ Hp).
  case_match; [by eexists|]. unfold bind at 1. cbn [reads].
  generalize (prune_keys (prune_cutoff p h) (w_oracle w)). intros ks. generalize w.
  induction ks as [|k ks IH]; intros w0; [by eexists|]. cbn [for_each].
  unfold bind, store_delete, modify at 1. apply IH.
Qed.

(** Parameters whose windows do not overflow int64. *)
Definition params_ok (p : OracleParams) : Prop :=
  0 <= TwapWindowBlocks p /\ 0 <= MaxPriceAge p /\ TwapWindowBlocks p + MaxPriceAge p < two63.

Lemma cutoff_le_window p h h' :
  params_ok p -> 0 <= h <= h' -> h' < two63 -> prune_cutoff p h <= window_start p h'.
Proof.
  unfold params_ok, prune_cutoff, window_start, two63. intros (? & ? & ?) ? ?.
  rewrite (wrap_i64_id (h - _)), (wrap_i64_id (_ - MaxPriceAge p)), (wrap_i64_id (h' - _))
    by (unfold in_i64, two63; lia).
  case_match; rewrite ?Z.ltb_lt, ?Z.ltb_ge in *; lia.
Qed.

Lemma priceKey_ne_params d h : OracleParamsKey <> priceKey d h.
Proof. done. Qed.

Lemma priceKey_ne_twap d d' h : twapKey d' <> priceKey d h.
Proof. done. Qed.

Lemma twapKey_ne_params d : OracleParamsKey <> twapKey d.
Proof. done. Qed.

(** The histories of two stores that agree on the prices from [from] on. *)
Lemma history_perm d from m m' :
  (forall k v e, String.prefix (pricePrefix d) k = true -> unmarshal_price v = Some e ->
     from <= Height e -> m !! k = Some v <-> m' !! k = Some v) ->
  history d from m ≡ₚ history d from m'.
Proof.
  intros Hm. unfold history, prices_under. rewrite !filter_omap.
  apply omap_kv_iter_perm. intros k v Hpre [e He]. cbn in He.
  destruct (unmarshal_price v) as [e'|] eqn:E; [|done]. cbn in He.
  case_guard; simplify_eq. eauto.
Qed.

Lemma ComputeTWAP_history ctx d w w2 p :
  GetParams w = (Ok p, w) -> GetParams w2 = (Ok p, w2) ->
  history d (window_start p (BlockHeight ctx)) (w_oracle w) ≡ₚ
    history d (window_start p (BlockHeight ctx)) (w_oracle w2) ->
  fst (ComputeTWAP ctx d w) = fst (ComputeTWAP ctx d w2).
Proof.
  intros H1' H2' Hp. unfold ComputeTWAP.
  rewrite (bind_run _ _ _ _ _ H1'), (bind_run _ _ _ _ _ H2'). unfold bind at 1. unfold bind at 2.
  rewrite !GetPriceHistory_run, (Permutation_length Hp).
  case_match; [done|]. unfold bind.
  rewrite (median_price_perm _ _ w Hp), !median_price_spec.
  by destruct (median_of _).
Qed.

(** Computing a TWAP only reads. *)
Lemma ComputeTWAP_state ctx d w : snd (ComputeTWAP ctx d w) = w.
Proof.
  unfold ComputeTWAP. destruct (GetParams_run w) as [p Hp]. rewrite (bind_run _ _ _ _ _ Hp).
  rewrite (bind_run _ _ _ _ _ (GetPriceHistory_run _ _ _)).
  case_match; [done|]. unfold bind. rewrite median_price_spec. by destruct (median_of _).
Qed.

(** *** What a successful submission does *)

Definition submitted_value ctx (req : MsgSubmitPrice) : value :=
  let entry p := mkPriceEntry (msg_Denom req) p (msg_Submitter req) (BlockHeight ctx) (BlockTime ctx) in
  match msg_PriceUsd req with Some p => VPrice (entry p) | None => VNullPrice (entry 0) end.

Lemma SubmitPrice_shape ctx req w u w' p :
  SubmitPrice ctx req w = (Ok u, w') -> GetParams w = (Ok p, w) ->
  let d := msg_Denom req in
  let h := BlockHeight ctx in
  (exists submitter, AccAddressFromBech32 (msg_Submitter req) = Some submitter /\
     IsValidatorSubmitter ctx submitter = true) /\
  d ∈ WhitelistedDenoms p /\
  w_bank w' = w_bank w /\ w_coll w' = w_coll w /\ w_sc w' = w_sc w /\
  forall k, w_oracle w' !! k = <[priceKey d h := submitted_value ctx req]> (w_oracle w) !! k \/
    (k = twapKey d /\ exists t, tw_Denom t = d /\ w_oracle w' !! k = Some (VTWAP t)) \/
    (w_oracle w' !! k = None /\ exists v e,
       <[priceKey d h := submitted_value ctx req]> (w_oracle w) !! k = Some v /\
       unmarshal_price v = Some e /\ Height e < prune_cutoff p h /\
       String.prefix PriceKeyPrefix k = true).
Proof.
  intros Hr Hp d h. unfold SubmitPrice in Hr.
  destruct (AccAddressFromBech32 _) as [submitter|] eqn:Ha; [|done].
  destruct (IsValidatorSubmitter ctx submitter) eqn:Hv; [|done]. cbn [negb] in Hr.
  rewrite (bind_run _ _ _ _ _ Hp) in Hr.
  case_bool_decide as Hd; [|done]. cbn [negb] in Hr.
  destruct (_ && _); [done|].
  apply bind_ok in Hr as (? & w1 & Hs & Hr).
  assert (w1 = set_oracle (<[priceKey d h := submitted_value ctx req]> (w_oracle w)) w) as ->.
  { unfold submitted_value, SetPrice, store_set in *. destruct (msg_PriceUsd req); by inv_go. }
  set (m1 := <[priceKey d h := _]> (w_oracle w)) in *.
  apply bind_ok in Hr as (tw & w1 & Ht & Hr). apply bind_ok in Hr as (? & w2 & Ht2 & Hr).
  assert (exists m2, w2 = set_oracle m2 w /\ m2 !! OracleParamsKey = w_oracle w !! OracleParamsKey /\
    forall k, m2 !! k = m1 !! k \/
      (k = twapKey d /\ exists t, tw_Denom t = d /\ m2 !! k = Some (VTWAP t))) as (m2 & -> & Hp2 & Hm2).
  { apply try_ok in Ht as [(t & -> & Ht)|(e & -> & Ht)].
    - apply ComputeTWAP_ok in Ht as (-> & Hd' & _). apply modify_ok in Ht2 as ->.
      eexists; split; [done|]. cbn. fold d in Hd'. rewrite Hd'. split.
      { rewrite lookup_insert_ne by done. unfold m1. by rewrite lookup_insert_ne by done. }
      intros k. destruct (decide (twapKey d = k)) as [<-|].
      + right. rewrite lookup_insert_eq. eauto.
      + left. by rewrite lookup_insert_ne.
    - assert (w1 = set_oracle m1 w) as ->
        by (by rewrite <- (ComputeTWAP_state ctx (msg_Denom req) (set_oracle m1 w)), Ht).
      apply ret_ok in Ht2 as [_ ->]. exists m1. split; [done|]. split; [|by left].
      unfold m1. by rewrite lookup_insert_ne by done. }
  apply bind_ok in Hr as (? & w3 & Hpr & Hr).
  apply (PruneOldPrices_ok _ _ _ _ p) in Hpr as (m3 & -> & Hm3);
    [|by apply (GetParams_ok w p w Hp)].
  apply modify_ok in Hr as ->. repeat (split; [by eauto|]). cbn in *.
  intros k. destruct (Hm3 k) as [->|(-> & v & e & Hk & He & ?)].
  - destruct (Hm2 k); eauto.
  - destruct (Hm2 k) as [E|(_ & t & _ & E)]; rewrite E in Hk; [eauto 10|]. by simplify_eq.
Qed.

(** *** Availability and robustness of the TWAP *)

(** A price small enough that the sum of two cannot overflow a Dec. *)
Definition price_bounded (e : PriceEntry) : Prop := Z.abs (PriceUSD e) < 2 ^ 200.

#[export] Instance price_bounded_dec e : Decision (price_bounded e).
Proof. unfold price_bounded. apply _. Defined.

Lemma median_of_some ps :
  ps <> [] -> Forall (fun p => Z.abs p < 2 ^ 200) ps -> is_Some (median_of ps).
Proof.
  intros Hne Hb. unfold median_of.
  assert (0 < length ps)%nat as Hl by (destruct ps; [done|cbn; lia]).
  assert (Hd : (length ps / 2 < length ps)%nat) by (apply Nat.div_lt; lia).
  destruct (Nat.odd _); [by apply lookup_lt_is_Some|].
  rewrite (proj2 (Nat.ltb_lt _ _) Hl).
  destruct (lookup_lt_is_Some_2 ps (length ps / 2 - 1)) as [a Ha]; [lia|].
  destruct (lookup_lt_is_Some_2 ps (length ps / 2)) as [b Hb']; [lia|].
  pose proof (Forall_lookup_1 _ _ _ _ Hb Ha) as Ba. pose proof (Forall_lookup_1 _ _ _ _ Hb Hb') as Bb.
  cbn in Ba, Bb. assert (2 ^ 200 + 2 ^ 200 < 2 ^ 314 / dec_one) as Hbig by done.
  assert (2 ^ 314 / dec_one * dec_one <= 2 ^ 314) as Hdiv by done.
  assert (2 ^ 314 / dec_one < 2 ^ 314) as Hdiv' by done.
  rewrite Ha, Hb'. cbn [mbind option_bind]. rewrite Dec_Add_fits by lia. cbn [mbind option_bind].
  apply Dec_Quo_fits; [rewrite NewDecFromInt_scale; unfold dec_one; lia|].
  rewrite Z.abs_mul, (Z.abs_eq dec_one) by done. unfold dec_one in *. lia.
Qed.

Lemma ComputeTWAP_run ctx d w p :
  GetParams w = (Ok p, w) ->
  let from := window_start p (BlockHeight ctx) in
  let es := history d from (w_oracle w) in
  MinSubmissions p <= Z.of_nat (length es) -> es <> [] -> Forall price_bounded es ->
  exists c, ComputeTWAP ctx d w =
    (Ok (mkTWAPData d c from (BlockHeight ctx) (Z.of_nat (length es))), w).
Proof.
  intros Hp from es Hn Hne Hb. unfold ComputeTWAP. rewrite (bind_run _ _ _ _ _ Hp).
  rewrite (bind_run _ _ _ _ _ (GetPriceHistory_run _ _ _)).
  rewrite (proj2 (Z.ltb_ge _ _)) by done.
  destruct (median_of_some (PriceUSD <$> merge_sort price_le es)) as [c Hc].
  { intros E%fmap_nil_inv. apply Hne, Permutation_nil_r.
    by rewrite <- (merge_sort_Permutation price_le es), E. }
  { rewrite (merge_sort_Permutation price_le es), Forall_fmap. done. }
  exists c. unfold bind. rewrite median_price_spec. fold from es. by rewrite Hc.
Qed.

(** C3.  Robustness of the TWAP.  When the window of a denomination holds at
    least MinSubmissions prices, ComputeTWAP returns a value (no error, no
    panic), over exactly the stored prices of the window; and if more than
    half of those prices lie in an interval, so does the TWAP: a minority of
    submitters cannot move it outside the range the majority reports. *)
Theorem twap_honest_majority ctx d w p lo hi :
  GetParams w = (Ok p, w) ->
  let from := window_start p (BlockHeight ctx) in
  let es := history d from (w_oracle w) in
  MinSubmissions p <= Z.of_nat (length es) -> Forall price_bounded es ->
  (length es < 2 * count (fun e => lo <= PriceUSD e <= hi)%Z es)%nat ->
  exists t, ComputeTWAP ctx d w = (Ok t, w) /\ lo <= TWAP t <= hi /\
    tw_Denom t = d /\ WindowStart t = from /\ NumSamples t = Z.of_nat (length es).
Proof.
  intros Hp from es Hn Hb Hmaj.
  assert (es <> []) as Hne by (intros E; rewrite E in Hmaj; cbn in Hmaj; lia).
  destruct (ComputeTWAP_run ctx d w p Hp Hn Hne Hb) as [c Hc].
  eexists. split; [exact Hc|]. fold from es in Hc. cbn [TWAP tw_Denom WindowStart NumSamples].
  apply ComputeTWAP_ok in Hc as (_ & _ & _ & _ & H1' & H2').
  cbn [TWAP WindowStart] in H1', H2'. fold es in H1', H2'.
  split; [|done]. split; apply Z.nlt_ge; intros Hlt.
  - pose proof (count_disjoint (fun a => PriceUSD a <= c) (fun e => lo <= PriceUSD e <= hi) es
      ltac:(cbv beta; intros; lia)). lia.
  - pose proof (count_disjoint (fun a => c <= PriceUSD a) (fun e => lo <= PriceUSD e <= hi) es
      ltac:(cbv beta; intros; lia)). lia.
Qed.

(** *** Pruning and the window *)

Lemma PruneOldPrices_params h w w' p :
  PruneOldPrices h w = (Ok tt, w') -> GetParams w = (Ok p, w) -> GetParams w' = (Ok p, w').
Proof.
  intros Hr Hp. destruct (PruneOldPrices_ok _ _ _ _ _ Hr Hp) as (m & -> & Hm).
  apply (GetParams_ok w p w Hp). destruct (Hm OracleParamsKey) as [E|(_ & ? & ? & _ & _ & _ & [=])]; done.
Qed.

(** Pruning is invisible to the TWAP.  Removing old prices at height [h]
    (which always succeeds) never changes the outcome of ComputeTWAP, for any
    denomination, at [h] or at any later height. *)
Theorem prune_preserves_twap h w p ctx d :
  GetParams w = (Ok p, w) -> params_ok p -> 0 <= h <= BlockHeight ctx -> BlockHeight ctx < two63 ->
  exists w', PruneOldPrices h w = (Ok tt, w') /\
    fst (ComputeTWAP ctx d w') = fst (ComputeTWAP ctx d w).
Proof.
  intros Hp Hok Hh Hlt. destruct (PruneOldPrices_total h w) as [w' Hr]. exists w'. split; [done|].
  pose proof (PruneOldPrices_params _ _ _ _ Hr Hp) as Hp'.
  destruct (PruneOldPrices_ok _ _ _ _ _ Hr Hp) as (m & -> & Hm).
  apply (ComputeTWAP_history _ _ _ _ p); [done..|]. apply history_perm. intros k v e _ He Hfrom. cbn.
  pose proof (cutoff_le_window p h (BlockHeight ctx) Hok Hh Hlt).
  destruct (Hm k) as [->|(E & v' & e' & Hk & He' & ? & _)]; [done|].
  rewrite E, Hk. split; [done|]. intros [= ->]. simplify_eq. lia.
Qed.

(** *** Submissions *)

Lemma submitted_value_key ctx req :
  key_of (submitted_value ctx req) = priceKey (msg_Denom req) (BlockHeight ctx).
Proof. unfold submitted_value. by destruct (msg_PriceUsd req). Qed.

Lemma submitted_value_height ctx req e :
  unmarshal_price (submitted_value ctx req) = Some e ->
  Height e = BlockHeight ctx /\ Denom e = msg_Denom req /\ Submitter e = msg_Submitter req.
Proof.
  unfold submitted_value. destruct (msg_PriceUsd req); cbn; [by intros [= <-]|].
  destruct Dec_UnmarshalNull; cbn; [by intros [= <-]|done].
Qed.

(** An accepted submission is in the store afterwards: its own pruning leaves it. *)
Lemma SubmitPrice_stored ctx req w u w' p :
  SubmitPrice ctx req w = (Ok u, w') -> GetParams w = (Ok p, w) -> params_ok p ->
  0 <= BlockHeight ctx < two63 ->
  w_oracle w' !! priceKey (msg_Denom req) (BlockHeight ctx) = Some (submitted_value ctx req).
Proof.
  intros Hr Hp Hok Hh. destruct (SubmitPrice_shape _ _ _ _ _ _ Hr Hp) as (_ & _ & _ & _ & _ & Hm).
  destruct (Hm (priceKey (msg_Denom req) (BlockHeight ctx))) as [->|[[E _]|(_ & v & e & Hv & He & Hlt & _)]].
  - by rewrite lookup_insert_eq.
  - discriminate E.
  - rewrite lookup_insert_eq in Hv. injection Hv as <-.
    apply submitted_value_height in He as (He & _).
    pose proof (cutoff_le_window p (BlockHeight ctx) (BlockHeight ctx) Hok ltac:(lia) ltac:(lia)) as Hc.
    unfold window_start in Hc. destruct Hok as (? & ? & ?).
    rewrite wrap_i64_id in Hc by (unfold in_i64, two63 in *; lia). revert Hc. case_match; lia.
Qed.

(** Who can write prices, and what.  A SubmitPrice that succeeds came from
    an address the staking keeper accepts, for a whitelisted denomination; its
    entry is stored under the current height and survives the pruning of the
    same call; the balances, the collateral and stablecoin stores, the oracle
    parameters and every other denomination's TWAP are as before; and any price
    that is gone afterwards lies below the pruning cutoff. *)
Theorem SubmitPrice_effect ctx req w u w' p :
  SubmitPrice ctx req w = (Ok u, w') -> GetParams w = (Ok p, w) -> params_ok p ->
  0 <= BlockHeight ctx < two63 ->
  let d := msg_Denom req in
  (exists submitter, AccAddressFromBech32 (msg_Submitter req) = Some submitter /\
     IsValidatorSubmitter ctx submitter = true) /\
  d ∈ WhitelistedDenoms p /\
  w_oracle w' !! priceKey d (BlockHeight ctx) = Some (submitted_value ctx req) /\
  w_bank w' = w_bank w /\ w_coll w' = w_coll w /\ w_sc w' = w_sc w /\
  GetParams w' = (Ok p, w') /\
  (forall d', d' <> d -> w_oracle w' !! twapKey d' = w_oracle w !! twapKey d') /\
  (forall k v e, w_oracle w !! k = Some v -> unmarshal_price v = Some e ->
     w_oracle w' !! k = None -> Height e < prune_cutoff p (BlockHeight ctx)).
Proof.
  intros Hr Hp Hok Hh d. pose proof (SubmitPrice_stored _ _ _ _ _ _ Hr Hp Hok Hh) as Hst.
  destruct (SubmitPrice_shape _ _ _ _ _ _ Hr Hp) as (Ha & Hd & Hb & Hc & Hs & Hm).
  do 6 (split; [done|]). fold d in Hm, Hst. split; [|split].
  - apply (GetParams_ok w p w Hp). destruct (Hm OracleParamsKey) as [->|[[[=] _]|(_ & ? & ? & _ & _ & _ & [=])]].
    by rewrite lookup_insert_ne by done.
  - intros d' Hne. destruct (Hm (twapKey d')) as [->|[[E _]|(_ & ? & ? & _ & _ & _ & [=])]].
    + by rewrite lookup_insert_ne by done.
    + unfold twapKey in E. by apply string_app_inj in E.
  - intros k v e Hk He Hnone. destruct (Hm k) as [E|[(_ & ? & _ & E)|(_ & v' & e' & Hk' & He' & Hlt & _)]].
    1,2: rewrite Hnone in E; try done. by symmetry in E; apply lookup_insert_None in E as [? _]; simplify_eq.
    destruct (decide (k = priceKey d (BlockHeight ctx))) as [->|Hne]; [by rewrite Hnone in Hst|].
    rewrite lookup_insert_ne in Hk' by done. by simplify_eq.
Qed.

(** One price per denomination and block.  When two submissions for the
    same denomination are accepted in one block, the second replaces the first:
    the only entry of that denomination and height left in the store is the
    second submitter's, so the window holds at most one sample per block
    whatever the number of validators. *)
Theorem same_block_submission_replaced ctx req1 req2 w u1 w1 u2 w2 p k e :
  SubmitPrice ctx req1 w = (Ok u1, w1) -> SubmitPrice ctx req2 w1 = (Ok u2, w2) ->
  GetParams w = (Ok p, w) -> GetParams w1 = (Ok p, w1) -> params_ok p ->
  0 <= BlockHeight ctx < two63 -> store_wf (w_oracle w2) ->
  w_oracle w2 !! k = Some (VPrice e) -> Denom e = msg_Denom req2 -> Height e = BlockHeight ctx ->
  Submitter e = msg_Submitter req2 /\ msg_PriceUsd req2 = Some (PriceUSD e).
Proof.
  intros _ Hr2 _ Hp1 Hok Hh Hwf Hk Hd He.
  pose proof (SubmitPrice_stored _ _ _ _ _ _ Hr2 Hp1 Hok Hh) as Hst.
  pose proof (Hwf _ _ Hk) as ->. cbn [key_of] in Hk. rewrite Hd, He, Hst in Hk.
  unfold submitted_value in Hk. destruct (msg_PriceUsd req2) as [q|]; [|done]. by injection Hk as <-.
Qed.

(** *** The state machine of the module *)

(** What holds of a store in every reachable state: entries sit under their
    own key, prices and cached TWAPs are positive. *)
Definition value_pos (v : value) : Prop :=
  match v with
  | VPrice e => 0 < PriceUSD e
  | VNullPrice _ => False
  | VTWAP t => 0 < TWAP t
  | VParams _ => True
  end.

Definition store_ok m : Prop := store_wf m /\ map_Forall (fun _ v => value_pos v) m.

Lemma store_ok_insert m v : store_ok m -> value_pos v -> store_ok (<[key_of v := v]> m).
Proof. intros [? ?] ?. split; [by apply store_wf_insert|by apply map_Forall_insert_2]. Qed.

Lemma store_ok_sub m m' : store_ok m -> m' ⊆ m -> store_ok m'.
Proof.
  intros [Hw Hv] Hs. split; intros k v Hk; [apply Hw|apply (Hv k)]; by eapply lookup_weaken.
Qed.

Lemma ComputeTWAP_pos ctx d w t w' :
  ComputeTWAP ctx d w = (Ok t, w') -> store_ok (w_oracle w) -> 0 < TWAP t.
Proof.
  intros Hr [_ Hv]. pose proof Hr as (-> & _ & _ & _ & Hc & _)%ComputeTWAP_ok.
  set (es := history _ _ _) in *.
  assert (Hne : es <> []).
  { intros E. unfold ComputeTWAP in Hr. destruct (GetParams_run w) as [p Hp].
    rewrite (bind_run _ _ _ _ _ Hp) in Hr.
    rewrite (bind_run _ _ _ _ _ (GetPriceHistory_run _ _ _)) in Hr.
    case_match; [done|]. apply bind_ok in Hr as (c & w1 & Hm & [-> _]%ret_ok).
    cbn [WindowStart] in es. unfold es in E. rewrite E in Hm. done. }
  destruct (filter (fun a => PriceUSD a <= TWAP t) es) as [|e l] eqn:Ef.
  { unfold count in Hc. rewrite Ef in Hc. destruct es; [done|]. cbn in Hc. lia. }
  assert (e ∈ filter (fun a => PriceUSD a <= TWAP t) es) as He by (rewrite Ef; left).
  apply list_elem_of_filter in He as [Hle (_ & k & v & Hk & Hu & _)%elem_of_history].
  specialize (Hv _ _ Hk). destruct v; cbn in Hu, Hv; simplify_eq; lia.
Qed.

(** Recomputing one TWAP: the cache of that denomination is all that changes. *)
Definition refresh (ctx : Ctx) (d : string) : M (World B) unit :=
  let! twap := try (ComputeTWAP ctx d) in
  match twap with inl t => SetTWAP t | inr _ => ret tt end.

Lemma refresh_ok ctx d w u w' :
  refresh ctx d w = (Ok u, w') ->
  (exists t, ComputeTWAP ctx d w = (Ok t, w) /\ tw_Denom t = d /\
     w' = set_oracle (<[twapKey d := VTWAP t]> (w_oracle w)) w) \/
  (exists e, ComputeTWAP ctx d w = (Err e, w) /\ w' = w).
Proof.
  unfold refresh. intros Hr. apply bind_ok in Hr as (r & w1 & Ht & Hr).
  pose proof (ComputeTWAP_state ctx d w) as Hs.
  apply try_ok in Ht as [(t & -> & Ht)|(e & -> & Ht)]; rewrite Ht in Hs; cbn in Hs; subst w1.
  - left. apply modify_ok in Hr as ->. pose proof Ht as (_ & Hd & _)%ComputeTWAP_ok.
    exists t. by rewrite Hd.
  - right. apply ret_ok in Hr as [_ ->]. eauto.
Qed.

Lemma refresh_store_ok ctx d w u w' :
  refresh ctx d w = (Ok u, w') -> store_ok (w_oracle w) -> store_ok (w_oracle w').
Proof.
  intros [(t & Ht & Hd & ->)|(_ & _ & ->)]%refresh_ok Hs; [|done]. cbn.
  rewrite <- Hd. apply (store_ok_insert _ (VTWAP t) Hs). by eapply ComputeTWAP_pos.
Qed.

Lemma PruneOldPrices_store_ok h w u w' :
  PruneOldPrices h w = (Ok u, w') -> store_ok (w_oracle w) -> store_ok (w_oracle w').
Proof.
  intros Hr Hs. destruct (GetParams_run w) as [p Hp].
  destruct (PruneOldPrices_ok _ _ _ _ _ Hr Hp) as (m & -> & Hm). apply (store_ok_sub _ _ Hs).
  apply map_subseteq_spec. intros k v Hk. cbn in Hk. destruct (Hm k) as [<-|[E _]]; [done|]. by rewrite E in Hk.
Qed.

Lemma SubmitPrice_store_ok ctx req w u w' :
  MsgSubmitPrice_ValidateBasic req = Ok tt ->
  SubmitPrice ctx req w = (Ok u, w') -> store_ok (w_oracle w) -> store_ok (w_oracle w').
Proof.
  intros Hv Hr Hs. unfold SubmitPrice in Hr.
  destruct (AccAddressFromBech32 (msg_Submitter req)) as [a|] eqn:Ha; [|done].
  destruct (negb (IsValidatorSubmitter ctx a)); [done|].
  destruct (GetParams_run w) as [p Hp]. rewrite (bind_run _ _ _ _ _ Hp) in Hr.
  do 2 (case_match; [done|]).
  apply bind_ok in Hr as (? & w1 & Hst & Hr).
  assert (store_ok (w_oracle w1)) as Hs1.
  { unfold MsgSubmitPrice_ValidateBasic in Hv. rewrite Ha in Hv.
    destruct (negb _) in Hv; [|done]. destruct (msg_PriceUsd req) as [q|]; [|done].
    destruct (Z.ltb_spec 0 q); [|done]. apply modify_ok in Hst as ->. cbn.
    exact (store_ok_insert _ (VPrice (mkPriceEntry (msg_Denom req) q (msg_Submitter req)
      (BlockHeight ctx) (BlockTime ctx))) Hs ltac:(done)). }
  apply bind_ok in Hr as (r & w2 & Ht & Hr). apply bind_ok in Hr as (? & w3 & Ht2 & Hr).
  apply bind_ok in Hr as (? & w4 & Hpr & Hr). apply modify_ok in Hr as ->. cbn.
  eapply PruneOldPrices_store_ok; [done|]. apply (refresh_store_ok ctx (msg_Denom req) w1 tt); [|done].
  unfold refresh. rewrite (bind_run _ _ _ _ _ Ht). by destruct x0.
Qed.

(** The steps of the module: genesis, the hooks of a block, and transactions
    whose message passed ValidateBasic (reverted when the handler fails). *)
Inductive step : World B -> World B -> Prop :=
  | step_begin ctx w w' : BeginBlock ctx w = (Ok tt, w') -> step w w'
  | step_submit ctx req w r w' :
      MsgSubmitPrice_ValidateBasic req = Ok tt ->
      runTx (SubmitPrice ctx req) w = (r, w') -> step w w'
  | step_end ctx w w' : EndBlock ctx w = (Ok tt, w') -> step w w'
  | step_other b c s ev w :
      step w (mkWorld b (w_oracle w) c s ev).

Lemma step_store_ok w w' : step w w' -> store_ok (w_oracle w) -> store_ok (w_oracle w').
Proof.
  intros [ctx w0 w1 Hr|ctx req w0 r w1 Hv Hr|ctx w0 w1 Hr|]; [| | |done].
  - unfold BeginBlock in Hr. destruct (GetParams_run w0) as [p Hp].
    rewrite (bind_run _ _ _ _ _ Hp) in Hr. revert Hr.
    apply (for_each_inv (fun w => store_ok (w_oracle w))). intros d. apply refresh_store_ok.
  - destruct r as [u|e|]; [apply (proj1 (runTx_ok _ _ _ _)) in Hr; exact (SubmitPrice_store_ok _ _ _ _ _ Hv Hr)|..];
      by apply runTx_revert in Hr as ->.
  - exact (PruneOldPrices_store_ok _ _ _ _ Hr).
Qed.

(** The oracle never serves a non-positive price.  Starting from genesis,
    after any interleaving of block hooks, transactions of this module and
    writes of the other modules to their own state, a TWAP or a latest price
    the module returns is positive, and belongs to the denomination asked for. *)
Theorem oracle_reachable_positive gs w0 u0 w1 w d :
  w_oracle w0 = ∅ -> InitGenesis gs w0 = (Ok u0, w1) -> rtc step w1 w ->
  (forall t, GetTWAP d w = (Ok t, w) -> 0 < TWAP t /\ tw_Denom t = d) /\
  (forall e, GetLatestPrice d w = (Ok e, w) -> 0 < PriceUSD e).
Proof.
  intros Hempty Hi Hr. assert (store_ok (w_oracle w)) as [Hw Hv].
  { assert (store_ok (w_oracle w1)) as Hs.
    { apply modify_ok in Hi as ->. cbn. rewrite Hempty. by apply (store_ok_insert ∅ (VParams _)). }
    revert Hs. clear -Hr H0. induction Hr; eauto using step_store_ok. }
  split.
  - intros t Ht. unfold GetTWAP, store_get, bind, reads in Ht.
    destruct (w_oracle w !! twapKey d) as [[]|] eqn:E; try done. injection Ht as ->.
    split; [by apply (Hv _ _ E)|]. apply Hw in E. cbn in E. by apply string_app_inj in E.
  - intros e He. unfold GetLatestPrice, bind, reads in He.
    destruct (latest_of _ _) as [e'|] eqn:E; [|done]. injection He as ->.
    assert (e ∈ prices_under (pricePrefix d) (w_oracle w)) as Hin.
    { clear -E. assert (forall l b, latest_of b l = Some e -> b = Some e \/ e ∈ l) as HH.
      { induction l as [|x l IH]; intros b Hb; cbn in Hb; [by left|].
        destruct b as [b|]; [destruct (_ <? _)|]; apply IH in Hb; set_solver. }
      apply HH in E as [?|?]; [done|done]. }
    apply list_elem_of_omap in Hin as ([k v] & [Hk _]%elem_of_kv_prefix_iter & Hu).
    specialize (Hv _ _ Hk). destruct v; cbn in Hu, Hv; by simplify_eq.
Qed.

(** *** The hooks of a block *)

Lemma pricePrefix_not_twap d d' k :
  String.prefix (pricePrefix d) k = true -> k <> twapKey d'.
Proof. intros [t ->]%prefix_iff. done. Qed.

Lemma twapKey_inj d d' : twapKey d = twapKey d' -> d = d'.
Proof. apply string_app_inj. Qed.

(** Two stores that differ in cached TWAPs only. *)
Definition same_prices m m' : Prop := forall k, (forall d, k <> twapKey d) -> m !! k = m' !! k.

Lemma ComputeTWAP_same_prices ctx d w w2 :
  same_prices (w_oracle w) (w_oracle w2) ->
  fst (ComputeTWAP ctx d w) = fst (ComputeTWAP ctx d w2).
Proof.
  intros Hs. destruct (GetParams_run w) as [p Hp].
  assert (GetParams w2 = (Ok p, w2)) as Hp2 by (apply (GetParams_ok w p w Hp); by rewrite Hs).
  apply (ComputeTWAP_history _ _ _ _ p); [done..|]. apply history_perm. intros k v e Hk _ _.
  rewrite Hs; [done|]. intros d'. by eapply pricePrefix_not_twap.
Qed.

Lemma for_each_refresh ctx ds w0 w u w' :
  for_each ds (refresh ctx) w = (Ok u, w') -> same_prices (w_oracle w) (w_oracle w0) ->
  same_prices (w_oracle w') (w_oracle w0) /\
  forall d, w_oracle w' !! twapKey d =
    match bool_decide (d ∈ ds), fst (ComputeTWAP ctx d w0) with
    | true, Ok t => Some (VTWAP t)
    | _, _ => w_oracle w !! twapKey d
    end.
Proof.
  revert w. induction ds as [|d0 ds IH]; cbn [for_each]; intros w Hr Hs.
  - apply ret_ok in Hr as [_ ->]. split; [done|]. intros d.
    by rewrite bool_decide_false by apply not_elem_of_nil.
  - apply bind_ok in Hr as (? & w1 & Hd%refresh_ok & Hr).
    pose proof (ComputeTWAP_same_prices ctx d0 w w0 Hs) as E.
    assert (same_prices (w_oracle w1) (w_oracle w0)) as Hs1.
    { destruct Hd as [(t & _ & _ & ->)|(e & _ & ->)]; [|done]. intros k Hk. cbn.
      rewrite lookup_insert_ne by (symmetry; apply Hk). by apply Hs. }
    destruct (IH w1 Hr Hs1) as [HS HT]. split; [done|]. intros d. rewrite HT.
    destruct (decide (d = d0)) as [->|Hne].
    + rewrite (bool_decide_true (d0 ∈ d0 :: ds)) by left. rewrite <- E.
      destruct Hd as [(t & -> & _ & ->)|(e & -> & ->)]; cbn; [|by case_match].
      rewrite lookup_insert_eq. by case_match.
    + assert (w_oracle w1 !! twapKey d = w_oracle w !! twapKey d) as ->.
      { destruct Hd as [(t & _ & _ & ->)|(e & _ & ->)]; [|done]. cbn.
        rewrite lookup_insert_ne; [done|]. intros ->%twapKey_inj. done. }
      rewrite (bool_decide_ext (d ∈ d0 :: ds) (d ∈ ds)); [done|]. set_solver.
Qed.

(** What BeginBlock leaves in the TWAP cache.  For a whitelisted
    denomination whose window gives a TWAP, GetTWAP returns exactly that fresh
    value; for every other denomination, in particular one whose window has too
    few samples, the cached value stays as it was, however old it is.  Prices
    and parameters are untouched. *)
Theorem BeginBlock_refresh ctx w w' p d :
  BeginBlock ctx w = (Ok tt, w') -> GetParams w = (Ok p, w) ->
  same_prices (w_oracle w') (w_oracle w) /\
  (forall t, d ∈ WhitelistedDenoms p -> ComputeTWAP ctx d w = (Ok t, w) -> GetTWAP d w' = (Ok t, w')) /\
  (d ∉ WhitelistedDenoms p \/ (exists e, ComputeTWAP ctx d w = (Err e, w)) ->
     fst (GetTWAP d w') = fst (GetTWAP d w)).
Proof.
  intros Hr Hp. unfold BeginBlock in Hr. rewrite (bind_run _ _ _ _ _ Hp) in Hr.
  destruct (for_each_refresh ctx _ w w tt w' Hr) as [HS HT]; [done|].
  split; [done|]. specialize (HT d). unfold GetTWAP, store_get, bind, reads. rewrite HT. split.
  - intros t Hd ->. by rewrite bool_decide_true.
  - intros [Hd|[e ->]]; [rewrite bool_decide_false by done|destruct (bool_decide _)]; cbn;
      by destruct (w_oracle w !! twapKey d) as [[]|].
Qed.

Lemma latest_of_spec l b e :
  latest_of b l = Some e ->
  (b = Some e \/ e ∈ l) /\ (forall x, x ∈ l \/ b = Some x -> Height x <= Height e).
Proof.
  revert b. induction l as [|x l IH]; intros b Hb; cbn in Hb.
  - split; [by left|]. intros x [?%elem_of_nil|?]; [done|]. simplify_eq. lia.
  - destruct b as [b|].
    + destruct (Z.ltb_spec (Height b) (Height x)); destruct (IH _ Hb) as [Hin Hmax].
      * split; [set_solver|]. intros y [[->|?]%elem_of_cons|[= ->]]; auto.
        pose proof (Hmax x (or_intror eq_refl)). lia.
      * split; [set_solver|]. intros y [[->|?]%elem_of_cons|[= ->]]; auto.
        pose proof (Hmax b (or_intror eq_refl)). lia.
    + destruct (IH _ Hb) as [Hin Hmax]. split; [set_solver|].
      intros y [[->|?]%elem_of_cons|?]; auto; done.
Qed.

Lemma latest_of_none l b : latest_of b l = None <-> l = [] /\ b = None.
Proof.
  revert b. induction l as [|x l IH]; intros b; cbn; [naive_solver|].
  destruct b as [b|]; [destruct (_ <? _)|]; rewrite IH; naive_solver.
Qed.

(** GetLatestPrice returns the newest stored price of the denomination's
    prefix, and fails exactly when the prefix holds no price. *)
Theorem GetLatestPrice_newest d w :
  match GetLatestPrice d w with
  | (Ok e, w') => w' = w /\ e ∈ history d (Height e) (w_oracle w) /\
      (forall from e', e' ∈ history d from (w_oracle w) -> Height e' <= Height e)
  | (Err _, w') => w' = w /\ forall from, history d from (w_oracle w) = []
  | (Panic, _) => False
  end.
Proof.
  unfold GetLatestPrice, bind, reads. destruct (latest_of _ _) as [e|] eqn:E; cbn.
  - apply latest_of_spec in E as [[?|Hin] Hmax]; [done|]. split; [done|]. unfold history. split.
    + apply list_elem_of_filter. split; [lia|done].
    + intros from e' [_ ?]%list_elem_of_filter. auto.
  - apply latest_of_none in E as [E _]. split; [done|]. intros from. unfold history. by rewrite E.
Qed.
End Lemmas.

(** ** Concrete runs *)
Section Witnesses.

#[local] Existing Instance sdkmath.
#[local] Existing Instance bech32_toy.

(** Two validators, both bonded. *)
Definition two_validators : StakingKeeper := {|
  GetValidator _ a := bool_decide (a = "alice") || bool_decide (a = "bob");
  BondedValidatorsByPower _ := ["alice"; "bob"];
|}.
#[local] Existing Instance two_validators.

Definition empty_world : World unit := mkWorld tt ∅ ∅ ∅ [].

Definition atom_price (val : string) (price : Z) : MsgSubmitPrice :=
  mkMsgSubmitPrice (AccAddress_String val) "ATOM" (Some price).

Definition genesis_world : World unit := snd (InitGenesis DefaultGenesis empty_world).

(** Three blocks with a price each, one of them an outlier. *)
Definition priced_world : World unit :=
  snd ((SubmitPrice (mkCtx 1 0) (atom_price "alice" 10) ;;!
        SubmitPrice (mkCtx 2 0) (atom_price "bob" 11) ;;!
        SubmitPrice (mkCtx 3 0) (atom_price "alice" 100000)) genesis_world).

Lemma twap_honest_majority_witness :
  exists t, ComputeTWAP (mkCtx 3 0) "ATOM" priced_world = (Ok t, priced_world) /\ 9 <= TWAP t <= 12.
Proof.
  destruct (twap_honest_majority (mkCtx 3 0) "ATOM" priced_world DefaultOracleParams 9 12) as (t & Ht & Hb & _).
  - vm_compute. reflexivity.
  - vm_compute. discriminate.
  - apply (bool_decide_unpack _). vm_compute. exact I.
  - apply Nat.ltb_lt. vm_compute. reflexivity.
  - exists t. split; [exact Ht|exact Hb].
Defined.

Lemma prune_preserves_twap_witness :
  exists w', PruneOldPrices 40 priced_world = (Ok tt, w') /\
    fst (ComputeTWAP (mkCtx 41 0) "ATOM" w') = fst (ComputeTWAP (mkCtx 41 0) "ATOM" priced_world).
Proof.
  apply (prune_preserves_twap 40 priced_world DefaultOracleParams (mkCtx 41 0) "ATOM").
  - vm_compute. reflexivity.
  - vm_compute. repeat split; discriminate.
  - vm_compute. split; discriminate.
  - vm_compute. reflexivity.
Defined.

Lemma SubmitPrice_effect_witness :
  w_oracle (snd (SubmitPrice (mkCtx 4 0) (atom_price "bob" 12) priced_world)) !! priceKey "ATOM" 4
  = Some (VPrice (mkPriceEntry "ATOM" 12 (AccAddress_String "bob") 4 0)).
Proof.
  refine (proj1 (proj2 (proj2 (SubmitPrice_effect (mkCtx 4 0) (atom_price "bob" 12) priced_world tt
    (snd (SubmitPrice (mkCtx 4 0) (atom_price "bob" 12) priced_world)) DefaultOracleParams _ _ _ _)))).
  - vm_compute. reflexivity.
  - vm_compute. reflexivity.
  - vm_compute. repeat split; discriminate.
  - vm_compute. split; [discriminate|reflexivity].
Defined.

(** After "alice" and "bob" both submitted at height 4. *)
Definition contested_world : World unit :=
  snd ((SubmitPrice (mkCtx 4 0) (atom_price "alice" 10) ;;!
        SubmitPrice (mkCtx 4 0) (atom_price "bob" 12)) priced_world).

Lemma contested_store_wf : store_wf (w_oracle contested_world).
Proof.
  assert (map_Forall (fun k v => k = key_of v) (w_oracle contested_world)) as Hm; [|exact Hm].
  apply map_Forall_to_list. vm_compute. repeat constructor.
Qed.

Lemma same_block_submission_replaced_witness :
  Submitter (mkPriceEntry "ATOM" 12 (AccAddress_String "bob") 4 0) = AccAddress_String "bob" /\
  msg_PriceUsd (atom_price "bob" 12) = Some 12.
Proof.
  apply (same_block_submission_replaced (mkCtx 4 0) (atom_price "alice" 10) (atom_price "bob" 12)
    priced_world tt (snd (SubmitPrice (mkCtx 4 0) (atom_price "alice" 10) priced_world)) tt contested_world
    DefaultOracleParams (priceKey "ATOM" 4)).
  - vm_compute. reflexivity.
  - vm_compute. reflexivity.
  - vm_compute. reflexivity.
  - vm_compute. reflexivity.
  - vm_compute. repeat split; discriminate.
  - vm_compute. split; [discriminate|reflexivity].
  - exact contested_store_wf.
  - vm_compute. reflexivity.
  - reflexivity.
  - reflexivity.
Defined.

Lemma oracle_reachable_positive_witness :
  let w := snd (BeginBlock (mkCtx 2 0) genesis_world) in
  rtc step genesis_world w /\
  ~ exists t, GetTWAP "ATOM" w = (Ok t, w) /\ TWAP t <= 0.
Proof.
  cbn zeta. assert (rtc step genesis_world (snd (BeginBlock (mkCtx 2 0) genesis_world))) as Hr
    by (apply rtc_once, (step_begin (mkCtx 2 0)); vm_compute; reflexivity).
  split; [exact Hr|]. intros (t & Ht & Hle).
  destruct (proj1 (oracle_reachable_positive DefaultGenesis empty_world tt genesis_world
    (snd (BeginBlock (mkCtx 2 0) genesis_world)) "ATOM" eq_refl eq_refl Hr) t Ht) as [Hpos _]. lia.
Defined.

Lemma GetLatestPrice_newest_witness :
  exists e, GetLatestPrice "ATOM" priced_world = (Ok e, priced_world) /\ Height e = 3 /\
    e ∈ history "ATOM" (Height e) (w_oracle priced_world).
Proof.
  pose proof (GetLatestPrice_newest "ATOM" priced_world) as Hn.
  destruct (GetLatestPrice "ATOM" priced_world) as [[e|x|] w'] eqn:E.
  - destruct Hn as (-> & Hin & _). exists e. split; [reflexivity|]. split; [|exact Hin].
    vm_compute in E. injection E as <-. reflexivity.
  - vm_compute in E. discriminate E.
  - destruct Hn.
Defined.

Lemma BeginBlock_refresh_witness :
  fst (GetTWAP "ATOM" (snd (BeginBlock (mkCtx 90 0) priced_world))) = fst (GetTWAP "ATOM" priced_world) /\
  is_Ok (fst (GetTWAP "ATOM" priced_world)) = true.
Proof.
  split; [|vm_compute; reflexivity].
  apply (proj2 (proj2 (BeginBlock_refresh (mkCtx 90 0) priced_world
    (snd (BeginBlock (mkCtx 90 0) priced_world)) DefaultOracleParams "ATOM"
    ltac:(vm_compute; reflexivity) ltac:(vm_compute; reflexivity)))).
  right. eexists. vm_compute. reflexivity.
Defined.
End Witnesses.
End oraclekeeper.
