(* ===== verification/Collateral.v ===== *)
(** Collateral: x/ibc-collateral (keeper/keeper.go, keeper/msg_server.go,
    keeper/query_server.go, genesis.go, ibc_middleware.go).

    Positions are stored under [position/<owner>/<denom>], the total locked
    per denomination under [locked/<denom>], the whitelisted assets under
    [asset/<denom>]; locked coins sit in the vault module account of the bank,
    reached through the [BankKeeper] interface.  Theorems: the counter of a
    denomination is the sum of its positions, the vault holds at least that
    much, locking and unlocking round-trip, debt blocks withdrawal, and the
    IBC middleware changes nothing but the event log. *)

From Stdlib Require Import ZArith Lia Ascii String.
From stdpp Require Import base gmap sets list strings fin_maps.
From S2P Require Import Prelude Sdk Types Bank.

Open Scope Z_scope.
Open Scope go_scope.
Import ibccollateraltypes.

Module collateralkeeper.

Section Keeper.
Context {B : Type} `{SdkMath} `{Bech32} `{BankKeeper B}.

Definition coll_get (k : string) : M (World B) (option value) :=
  reads (fun w => w_coll w !! k).
Definition coll_set (k : string) (v : value) : M (World B) unit :=
  modify (fun w => set_coll (<[k:=v]> (w_coll w)) w).
Definition coll_delete (k : string) : M (World B) unit :=
  modify (fun w => set_coll (delete k (w_coll w)) w).

(** *** Assets *)

Definition assetKey (ibcDenom : string) : string := CollateralAssetPrefix +:+ ibcDenom.

Definition RegisterCollateralAsset (asset : AssetJSON) : M (World B) unit :=
  if bool_decide (aj_IBCDenom asset = "")
  then throw (Errorf "RegisterCollateralAsset: ibc_denom must not be empty") else
  coll_set (assetKey (aj_IBCDenom asset)) (VAsset asset).

Definition GetCollateralAsset (ibcDenom : string) : M (World B) CollateralAsset :=
  let! bz := coll_get (assetKey ibcDenom) in
  match bz with
  | None => throw (Wrapf "denom" ErrDenomNotWhitelisted)
  | Some (VAsset j) =>
      match AssetJSON_Unmarshal j with
      | Some asset => ret asset
      | None => throw (Errorf "GetCollateralAsset: unmarshal error")
      end
  | Some _ => throw (Errorf "GetCollateralAsset: unmarshal error")
  end.

Definition GetAllCollateralAssets : M (World B) (list CollateralAsset) :=
  let! m := reads w_coll in
  ret (omap (fun kv => match kv.2 with VAsset j => AssetJSON_Unmarshal j | _ => None end)
         (kv_prefix_iter CollateralAssetPrefix m)).

(** *** Positions *)

Definition positionKey (owner ibcDenom : string) : string :=
  CollateralPositionPrefix +:+ AccAddress_String owner +:+ "/" +:+ ibcDenom.

Definition GetPosition (owner ibcDenom : string) : M (World B) CollateralPosition :=
  let! bz := coll_get (positionKey owner ibcDenom) in
  match bz with
  | None => throw (Wrapf "owner, denom" ErrPositionNotFound)
  | Some (VPosition p) => ret p
  | Some _ => throw (Errorf "GetPosition: unmarshal error")
  end.

(** An owner that is not an address is logged and the position dropped. *)
Definition SetPosition (pos : CollateralPosition) : M (World B) unit :=
  match AccAddressFromBech32 (Owner pos) with
  | None => ret tt
  | Some owner => coll_set (positionKey owner (IBCDenom pos)) (VPosition pos)
  end.

Definition deletePosition (owner ibcDenom : string) : M (World B) unit :=
  coll_delete (positionKey owner ibcDenom).

Definition GetAllPositions : M (World B) (list CollateralPosition) :=
  let! m := reads w_coll in
  ret (omap (fun kv => match kv.2 with VPosition p => Some p | _ => None end)
         (kv_prefix_iter CollateralPositionPrefix m)).

(** *** Total locked *)

Definition lockedKey (ibcDenom : string) : string := TotalLockedPrefix +:+ ibcDenom.

Definition GetTotalLocked (ibcDenom : string) : M (World B) Z :=
  let! bz := coll_get (lockedKey ibcDenom) in
  match bz with
  | Some (VLocked amount) => ret amount
  | _ => ret 0
  end.

Definition setTotalLocked (ibcDenom : string) (amount : Z) : M (World B) unit :=
  coll_set (lockedKey ibcDenom) (VLocked amount).

(** *** Core operations *)

Definition with_Amount (a : Z) (p : CollateralPosition) : CollateralPosition :=
  mkCollateralPosition (Owner p) (IBCDenom p) a (LockedAt p) (MintedZYTD p).
Definition with_Minted (z : Z) (p : CollateralPosition) : CollateralPosition :=
  mkCollateralPosition (Owner p) (IBCDenom p) (Amount p) (LockedAt p) z.

Definition LockCollateral (ctx : Ctx) (owner ibcDenom : string) (amount : option Z) : M (World B) unit :=
  let! asset := GetCollateralAsset ibcDenom in
  if negb (IsActive asset) then throw (Wrapf "denom" ErrAssetNotActive) else
  let! amount := or_panic amount in
  let! coins := or_panic (coins_of ibcDenom amount) in
  map_err (Wrapf "LockCollateral: bank transfer failed")
    (lift_bank (SendCoinsFromAccountToModule ctx owner ModuleAccountName coins)) ;;!
  let! found := try (GetPosition owner ibcDenom) in
  let pos := match found with
             | inl p => p
             | inr _ => mkCollateralPosition (AccAddress_String owner) ibcDenom 0 (BlockTime ctx) 0
             end in
  let! newAmount := or_panic (Int_Add (Amount pos) amount) in
  SetPosition (with_Amount newAmount pos) ;;!
  let! total := GetTotalLocked ibcDenom in
  let! newTotal := or_panic (Int_Add total amount) in
  setTotalLocked ibcDenom newTotal.

Definition UnlockCollateral (ctx : Ctx) (owner ibcDenom : string) (amount : option Z) : M (World B) unit :=
  let! pos := GetPosition owner ibcDenom in
  if 0 <? MintedZYTD pos then throw (Wrapf "ZYTD outstanding" ErrUnlockDenied) else
  let! amount := or_panic amount in
  if Amount pos <? amount then throw (Wrapf "requested more than locked" ErrInsufficientLockedAmount) else
  let! coins := or_panic (coins_of ibcDenom amount) in
  map_err (Wrapf "UnlockCollateral: bank transfer failed")
    (lift_bank (SendCoinsFromModuleToAccount ctx ModuleAccountName owner coins)) ;;!
  let! newAmount := or_panic (Int_Sub (Amount pos) amount) in
  (if newAmount =? 0 then deletePosition owner ibcDenom
   else SetPosition (with_Amount newAmount pos)) ;;!
  let! total := GetTotalLocked ibcDenom in
  let! newTotal := or_panic (Int_Sub total amount) in
  setTotalLocked ibcDenom (if newTotal <? 0 then 0 else newTotal).

Definition UpdateMintedZYTD (owner ibcDenom : string) (delta : Z) : M (World B) unit :=
  let! pos := GetPosition owner ibcDenom in
  let! newMinted := or_panic (Int_Add (MintedZYTD pos) delta) in
  if newMinted <? 0 then throw (Errorf "UpdateMintedZYTD: resulting minted_zytd would be negative") else
  SetPosition (with_Minted newMinted pos).

(** *** Message handlers *)

Definition collateral_event (ty owner denom : string) (amount : Z) : Event :=
  NewEvent ty [("owner", AStr owner); ("ibc_denom", AStr denom); ("amount", AInt amount)].

(** Returns the amount locked after the call. *)
Definition msg_LockCollateral (ctx : Ctx) (msg : MsgLockCollateral) : M (World B) Z :=
  match AccAddressFromBech32 (lk_Owner msg) with
  | None => throw (Wrapf "owner" ErrInvalidAddress)
  | Some ownerAddr =>
      LockCollateral ctx ownerAddr (lk_IbcDenom msg) (lk_Amount msg) ;;!
      let! pos := map_err (Wrapf "LockCollateral: failed to fetch updated position")
        (GetPosition ownerAddr (lk_IbcDenom msg)) in
      let! amount := or_panic (lk_Amount msg) in
      EmitEvent (collateral_event EventTypeLockCollateral (lk_Owner msg) (lk_IbcDenom msg) amount) ;;!
      ret (Amount pos)
  end.

(** Returns the amounts unlocked and remaining. *)
Definition msg_UnlockCollateral (ctx : Ctx) (msg : MsgUnlockCollateral) : M (World B) (Z * Z) :=
  match AccAddressFromBech32 (ul_Owner msg) with
  | None => throw (Wrapf "owner" ErrInvalidAddress)
  | Some ownerAddr =>
      let! oldPos := GetPosition ownerAddr (ul_IbcDenom msg) in
      UnlockCollateral ctx ownerAddr (ul_IbcDenom msg) (ul_Amount msg) ;;!
      let! amount := or_panic (ul_Amount msg) in
      let! remaining := or_panic (Int_Sub (Amount oldPos) amount) in
      EmitEvent (collateral_event EventTypeUnlockCollateral (ul_Owner msg) (ul_IbcDenom msg) amount) ;;!
      ret (amount, if remaining <? 0 then 0 else remaining)
  end.

(** *** Queries and genesis *)

Definition QueryPosition (owner ibcDenom : string) : M (World B) CollateralPosition :=
  match AccAddressFromBech32 owner with
  | None => throw (Wrapf "owner" ErrInvalidAddress)
  | Some ownerAddr => GetPosition ownerAddr ibcDenom
  end.

Definition QueryAssets : M (World B) (list CollateralAsset) := GetAllCollateralAssets.

Definition QueryTotalLocked (ibcDenom : string) : M (World B) Z :=
  if bool_decide (ibcDenom = "") then throw (Errorf "QueryTotalLocked: ibc_denom must not be empty")
  else GetTotalLocked ibcDenom.

(** A genesis position with its nil amounts set to zero. *)
Definition position_of_json (j : PositionJSON) : CollateralPosition :=
  mkCollateralPosition (pj_Owner j) (pj_IBCDenom j) (default 0 (pj_Amount j)) (pj_LockedAt j)
    (default 0 (pj_MintedZYTD j)).

Definition restore_position (j : PositionJSON) : M (World B) unit :=
  let pos := position_of_json j in
  SetPosition pos ;;!
  let! existing := GetTotalLocked (IBCDenom pos) in
  let! total := or_panic (Int_Add existing (Amount pos)) in
  setTotalLocked (IBCDenom pos) total.

Definition InitGenesis (genState : GenesisState) : M (World B) unit :=
  for_each (CollateralAssets genState) (fun asset =>
    let! r := try (RegisterCollateralAsset asset) in
    match r with inl _ => ret tt | inr _ => panic end) ;;!
  for_each (Positions genState) restore_position.

Definition asset_to_json (a : CollateralAsset) : AssetJSON :=
  mkAssetJSON (as_IBCDenom a) (BaseDenom a) (Some (MinRatio a)) (Some (LiquidationThreshold a)) (IsActive a).
Definition position_to_json (p : CollateralPosition) : PositionJSON :=
  mkPositionJSON (Owner p) (IBCDenom p) (Some (Amount p)) (LockedAt p) (Some (MintedZYTD p)).

Definition ExportGenesis : M (World B) GenesisState :=
  let! assets := GetAllCollateralAssets in
  let! positions := GetAllPositions in
  ret {| CollateralAssets := asset_to_json <$> assets; Positions := position_to_json <$> positions |}.
End Keeper.

(** ** ibc_middleware.go *)

(** The callbacks of ibc-go's IBCModule.  [Chan] stands for the arguments of
    the channel-handshake callbacks and [Packet] for a packet with its relayer;
    [Ack] for an acknowledgement. *)
Record IBCModule (B Chan Packet Ack : Type) : Type := mkIBCModule {
  OnChanOpenInit : Chan -> M (World B) string;
  OnChanOpenTry : Chan -> M (World B) string;
  OnChanOpenAck : Chan -> M (World B) unit;
  OnChanOpenConfirm : Chan -> M (World B) unit;
  OnChanCloseInit : Chan -> M (World B) unit;
  OnChanCloseConfirm : Chan -> M (World B) unit;
  OnRecvPacket : Ctx -> Packet -> M (World B) Ack;
  OnAcknowledgementPacket : Packet -> Ack -> M (World B) unit;
  OnTimeoutPacket : Packet -> M (World B) unit;
}.
Arguments mkIBCModule {B Chan Packet Ack}.
Arguments OnChanOpenInit {B Chan Packet Ack}.
Arguments OnChanOpenTry {B Chan Packet Ack}.
Arguments OnChanOpenAck {B Chan Packet Ack}.
Arguments OnChanOpenConfirm {B Chan Packet Ack}.
Arguments OnChanCloseInit {B Chan Packet Ack}.
Arguments OnChanCloseConfirm {B Chan Packet Ack}.
Arguments OnRecvPacket {B Chan Packet Ack}.
Arguments OnAcknowledgementPacket {B Chan Packet Ack}.
Arguments OnTimeoutPacket {B Chan Packet Ack}.

(** FungibleTokenPacketData. *)
Record PacketData : Type := mkPacketData {
  pd_Denom : string;
  pd_Amount : string;
  pd_Receiver : string;
}.

(** What the middleware uses of ibc-go: decoding a packet, the denomination
    prefix of the receiving channel, and the "token returns home" test. *)
Record IBCTransfer (Packet Ack : Type) : Type := mkIBCTransfer {
  ack_Success : Ack -> bool;
  UnmarshalData : Packet -> option PacketData;
  GetDenomPrefix : Packet -> string;
  ReceiverChainIsSource : Packet -> string -> bool;
}.
Arguments mkIBCTransfer {Packet Ack}.
Arguments ack_Success {Packet Ack}.
Arguments UnmarshalData {Packet Ack}.
Arguments GetDenomPrefix {Packet Ack}.
Arguments ReceiverChainIsSource {Packet Ack}.

Section Middleware.
Context {B Chan Packet Ack : Type} `{SdkMath} (tr : IBCTransfer Packet Ack).

(** The denomination the receiver sees on this chain. *)
Definition received_denom (packet : Packet) (data : PacketData) : string :=
  if ReceiverChainIsSource tr packet (pd_Denom data) then pd_Denom data
  else GetDenomPrefix tr packet +:+ pd_Denom data.

Definition middleware_OnRecvPacket (im : IBCModule B Chan Packet Ack) (ctx : Ctx) (packet : Packet)
    : M (World B) Ack :=
  let! ack := OnRecvPacket im ctx packet in
  if negb (ack_Success tr ack) then ret ack else
  match UnmarshalData tr packet with
  | None => ret ack
  | Some data =>
      let ibcDenom := received_denom packet data in
      let! found := try (GetCollateralAsset ibcDenom) in
      match found with
      | inr _ => ret ack
      | inl asset =>
          if negb (IsActive asset) then ret ack else
          EmitEvent (NewEvent EventTypeCollateralReceived
            [("owner", AStr (pd_Receiver data)); ("ibc_denom", AStr ibcDenom);
             ("amount", AStr (pd_Amount data))]) ;;!
          ret ack
      end
  end.

Definition IBCMiddleware (im : IBCModule B Chan Packet Ack) : IBCModule B Chan Packet Ack := {|
  OnChanOpenInit := OnChanOpenInit im;
  OnChanOpenTry := OnChanOpenTry im;
  OnChanOpenAck := OnChanOpenAck im;
  OnChanOpenConfirm := OnChanOpenConfirm im;
  OnChanCloseInit := OnChanCloseInit im;
  OnChanCloseConfirm := OnChanCloseConfirm im;
  OnRecvPacket := middleware_OnRecvPacket im;
  OnAcknowledgementPacket := OnAcknowledgementPacket im;
  OnTimeoutPacket := OnTimeoutPacket im;
|}.
End Middleware.

(** ** The invariant of the store *)
Section Lemmas.
Context {B : Type} `{SdkMathLaws} `{Bech32Laws} `{BankLaws B}.
Implicit Types (w : World B) (m : gmap string value).

(** Keys of different tables differ; a position key determines its owner and
    its denomination, because an address holds no slash. *)
Lemma positionKey_ne_locked a d d' : positionKey a d <> lockedKey d'.
Proof. done. Qed.
Lemma positionKey_ne_asset a d d' : positionKey a d <> assetKey d'.
Proof. done. Qed.
Lemma lockedKey_ne_asset d d' : lockedKey d <> assetKey d'.
Proof. done. Qed.
Lemma lockedKey_inj d d' : lockedKey d = lockedKey d' -> d = d'.
Proof. apply string_app_inj. Qed.

Lemma positionKey_inj a d a' d' :
  VerifyAddressFormat a = true -> VerifyAddressFormat a' = true ->
  positionKey a d = positionKey a' d' -> a = a' /\ d = d'.
Proof.
  intros Ha Ha' E. unfold positionKey in E. apply string_app_inj in E.
  change ("/" +:+ d) with (String "/" d) in E. change ("/" +:+ d') with (String "/" d') in E.
  apply first_sep_inj in E as [E ->]; [|apply AccAddress_String_no_slash..].
  by apply AccAddress_String_inj in E.
Qed.

(** Every entry sits under its own key, and amounts are not negative. *)
Definition slot_ok (k : string) (v : value) : Prop :=
  match v with
  | VAsset j => k = assetKey (aj_IBCDenom j) /\ aj_IBCDenom j <> ""
  | VPosition p =>
      (exists a, AccAddressFromBech32 (Owner p) = Some a /\ k = positionKey a (IBCDenom p)) /\
      0 <= Amount p /\ 0 <= MintedZYTD p
  | VLocked z => exists d, k = lockedKey d
  end.

Definition position_amount (d k : string) (v : value) : Z :=
  match v with
  | VPosition p => if bool_decide (IBCDenom p = d) then Amount p else 0
  | _ => 0
  end.

(** The amount of [d] in all positions, and the counter kept for it. *)
Definition locked_sum m (d : string) : Z := map_sum (position_amount d) m.
Definition total_locked m (d : string) : Z :=
  match m !! lockedKey d with Some (VLocked z) => z | _ => 0 end.

Record coll_inv m : Prop := {
  inv_slots : map_Forall slot_ok m;
  inv_totals : forall d, total_locked m d = locked_sum m d;
}.

(** The position of an owner in a denomination. *)
Definition position_at m (a d : string) : option CollateralPosition :=
  match m !! positionKey a d with Some (VPosition p) => Some p | _ => None end.

Definition amount_at m (a d : string) : Z := default 0 (Amount <$> position_at m a d).

Lemma position_at_owner m a d p :
  map_Forall slot_ok m -> VerifyAddressFormat a = true -> position_at m a d = Some p ->
  AccAddressFromBech32 (Owner p) = Some a /\ IBCDenom p = d /\ 0 <= Amount p /\ 0 <= MintedZYTD p.
Proof.
  intros Hm Ha. unfold position_at. destruct (m !! positionKey a d) as [[]|] eqn:E; try done.
  intros [= ->]. destruct (Hm _ _ E) as ((a' & Hp & Hk) & ? & ?).
  apply positionKey_inj in Hk as [-> ->]; [done|done|]. by eapply AccAddressFromBech32_valid.
Qed.

(** What the key of a position can hold. *)
Lemma slot_position m a d v :
  map_Forall slot_ok m -> m !! positionKey a d = Some v -> exists p, v = VPosition p.
Proof.
  intros Hm E. specialize (Hm _ _ E). destruct v; [by destruct Hm|by eexists|]. by destruct Hm.
Qed.

Lemma position_amount_at m a d d' :
  map_Forall slot_ok m -> VerifyAddressFormat a = true ->
  default 0 (position_amount d' (positionKey a d) <$> m !! positionKey a d) =
  if bool_decide (d = d') then amount_at m a d else 0.
Proof.
  intros Hm Ha. unfold amount_at.
  destruct (position_at m a d) as [p|] eqn:E.
  - destruct (position_at_owner _ _ _ _ Hm Ha E) as (_ & Hd & _).
    unfold position_at in E. destruct (m !! positionKey a d) as [[]|]; try done. simplify_eq/=. done.
  - unfold position_at in E. destruct (m !! positionKey a d) as [v|] eqn:Em; cbn; [|by case_bool_decide].
    destruct (slot_position _ _ _ _ Hm Em) as [p ->]. done.
Qed.

Lemma locked_sum_put m a p d :
  map_Forall slot_ok m -> VerifyAddressFormat a = true ->
  locked_sum (<[positionKey a (IBCDenom p) := VPosition p]> m) d =
  locked_sum m d + if bool_decide (IBCDenom p = d) then Amount p - amount_at m a (IBCDenom p) else 0.
Proof.
  intros Hm Ha. unfold locked_sum. rewrite map_sum_insert, position_amount_at by done.
  cbn. case_bool_decide; lia.
Qed.

Lemma locked_sum_remove m a d0 d :
  map_Forall slot_ok m -> VerifyAddressFormat a = true ->
  locked_sum (delete (positionKey a d0) m) d =
  locked_sum m d - if bool_decide (d0 = d) then amount_at m a d0 else 0.
Proof. intros Hm Ha. unfold locked_sum. by rewrite map_sum_delete_any, position_amount_at. Qed.

Lemma locked_sum_total m d0 z d :
  map_Forall slot_ok m -> locked_sum (<[lockedKey d0 := VLocked z]> m) d = locked_sum m d.
Proof.
  intros Hm. unfold locked_sum. rewrite map_sum_insert. cbn.
  destruct (m !! lockedKey d0) as [v|] eqn:E; cbn; [|lia].
  specialize (Hm _ _ E). destruct v; cbn; try lia. by destruct Hm as [(? & _ & ?) _].
Qed.

Lemma locked_sum_nonneg m d : map_Forall slot_ok m -> 0 <= locked_sum m d.
Proof.
  intros Hm. apply map_sum_nonneg. intros k v Hk. specialize (Hm _ _ Hk).
  destruct v; cbn in *; try lia. case_bool_decide; lia.
Qed.

Lemma amount_at_le_sum m a d :
  map_Forall slot_ok m -> VerifyAddressFormat a = true -> amount_at m a d <= locked_sum m d.
Proof.
  intros Hm Ha. pose proof (locked_sum_remove m a d d Hm Ha) as E.
  rewrite bool_decide_true in E by done.
  pose proof (locked_sum_nonneg (delete (positionKey a d) m) d (map_Forall_delete _ _ _ Hm)). lia.
Qed.

Lemma total_locked_put m a d v d' :
  total_locked (<[positionKey a d := v]> m) d' = total_locked m d'.
Proof. unfold total_locked. by rewrite lookup_insert_ne. Qed.

Lemma total_locked_remove m a d d' :
  total_locked (delete (positionKey a d) m) d' = total_locked m d'.
Proof. unfold total_locked. by rewrite lookup_delete_ne. Qed.

Lemma total_locked_set m d z d' :
  total_locked (<[lockedKey d := VLocked z]> m) d' =
  if bool_decide (d = d') then z else total_locked m d'.
Proof.
  unfold total_locked. case_bool_decide as E; [subst; by rewrite lookup_insert_eq|].
  rewrite lookup_insert_ne; [done|]. by intros ?%lockedKey_inj.
Qed.

Lemma slot_position_put m a p :
  map_Forall slot_ok m -> AccAddressFromBech32 (Owner p) = Some a -> 0 <= Amount p -> 0 <= MintedZYTD p ->
  map_Forall slot_ok (<[positionKey a (IBCDenom p) := VPosition p]> m).
Proof. intros. apply map_Forall_insert_2; [|done]. cbn. eauto 6. Qed.

Lemma slot_total_set m d z : map_Forall slot_ok m -> map_Forall slot_ok (<[lockedKey d := VLocked z]> m).
Proof. intros. apply map_Forall_insert_2; [|done]. by exists d. Qed.

(** Storing a position and adjusting the counter by the change of its amount
    keeps the invariant; so does removing a position. *)
Lemma coll_inv_put m a p :
  coll_inv m -> AccAddressFromBech32 (Owner p) = Some a -> 0 <= Amount p -> 0 <= MintedZYTD p ->
  coll_inv (<[lockedKey (IBCDenom p) :=
      VLocked (total_locked m (IBCDenom p) + (Amount p - amount_at m a (IBCDenom p)))]>
    (<[positionKey a (IBCDenom p) := VPosition p]> m)).
Proof.
  intros [Hs Ht] Ha ? ?. pose proof (AccAddressFromBech32_valid _ _ Ha) as Hv.
  pose proof (slot_position_put m a p Hs Ha) as Hs'. split; [by apply slot_total_set; auto|].
  intros d. rewrite total_locked_set, locked_sum_total, locked_sum_put, total_locked_put, !Ht by auto.
  case_bool_decide; subst; lia.
Qed.

Lemma coll_inv_remove m a d :
  coll_inv m -> VerifyAddressFormat a = true ->
  coll_inv (<[lockedKey d := VLocked (total_locked m d - amount_at m a d)]> (delete (positionKey a d) m)).
Proof.
  intros [Hs Ht] Hv. pose proof (map_Forall_delete _ _ (positionKey a d) Hs) as Hs'.
  split; [by apply slot_total_set|].
  intros d'. rewrite total_locked_set, locked_sum_total, locked_sum_remove, total_locked_remove, !Ht by done.
  case_bool_decide; subst; lia.
Qed.

(** Storing a position with the amount it had keeps the counters right. *)
Lemma coll_inv_update m a p :
  coll_inv m -> AccAddressFromBech32 (Owner p) = Some a -> 0 <= Amount p -> 0 <= MintedZYTD p ->
  Amount p = amount_at m a (IBCDenom p) ->
  coll_inv (<[positionKey a (IBCDenom p) := VPosition p]> m).
Proof.
  intros [Hs Ht] Ha ? ? E. pose proof (AccAddressFromBech32_valid _ _ Ha) as Hv.
  split; [by apply slot_position_put|].
  intros d. rewrite total_locked_put, locked_sum_put, Ht by done. case_bool_decide; lia.
Qed.

(** *** Running the operations *)

Lemma GetPosition_some w a d p :
  GetPosition a d w = (Ok p, w) <-> position_at (w_coll w) a d = Some p.
Proof.
  unfold GetPosition, position_at, coll_get, bind, reads, ret, throw.
  destruct (w_coll w !! positionKey a d) as [[]|]; split; intros; by simplify_eq/=.
Qed.

Lemma GetPosition_ok w a d p w' :
  GetPosition a d w = (Ok p, w') -> w' = w /\ position_at (w_coll w) a d = Some p.
Proof.
  intros Hr. assert (w' = w) as ->; [|split; [done|by apply GetPosition_some]].
  unfold GetPosition, coll_get, bind, reads, ret, throw in Hr. repeat case_match; by simplify_eq.
Qed.

Lemma GetPosition_err w a d e w' :
  GetPosition a d w = (Err e, w') -> w' = w /\ position_at (w_coll w) a d = None.
Proof.
  unfold GetPosition, position_at, coll_get, bind, reads, ret, throw.
  destruct (w_coll w !! positionKey a d) as [[]|]; intros; by simplify_eq/=.
Qed.

Lemma GetTotalLocked_run w d : GetTotalLocked d w = (Ok (total_locked (w_coll w) d), w).
Proof.
  unfold GetTotalLocked, total_locked, coll_get, bind, reads, ret, throw.
  by destruct (w_coll w !! lockedKey d) as [[]|].
Qed.

Lemma GetCollateralAsset_state w d r w' : GetCollateralAsset d w = (r, w') -> w' = w.
Proof.
  unfold GetCollateralAsset, coll_get, bind, reads, ret, throw. repeat case_match; intros; by simplify_eq.
Qed.

(** The position a lock starts from. *)
Definition position_or_new m (ctx : Ctx) (a d : string) : CollateralPosition :=
  default (mkCollateralPosition (AccAddress_String a) d 0 (BlockTime ctx) 0) (position_at m a d).

Lemma position_or_new_facts m ctx a d :
  map_Forall slot_ok m -> VerifyAddressFormat a = true ->
  let p := position_or_new m ctx a d in
  AccAddressFromBech32 (Owner p) = Some a /\ IBCDenom p = d /\ Amount p = amount_at m a d /\
  0 <= Amount p /\ 0 <= MintedZYTD p.
Proof.
  intros Hm Ha. unfold position_or_new, amount_at.
  destruct (position_at m a d) as [p|] eqn:E; cbn.
  - destruct (position_at_owner _ _ _ _ Hm Ha E) as (? & ? & ? & ?). by split_and!.
  - rewrite AccAddress_String_parse by done. split_and!; done || lia.
Qed.

(** The state after a lock or an unlock: the bank moved the coins, the position
    and the counter follow. *)
Definition locked_state m (a d : string) (p : CollateralPosition) (total : Z) : gmap string value :=
  <[lockedKey d := VLocked total]> (<[positionKey a d := VPosition p]> m).

Lemma LockCollateral_ok ctx a d amt w u w' :
  LockCollateral ctx a d amt w = (Ok u, w') ->
  map_Forall slot_ok (w_coll w) -> VerifyAddressFormat a = true ->
  exists n cs b asset,
    amt = Some n /\ 0 <= n /\ coins_of d n = Some cs /\
    GetCollateralAsset d w = (Ok asset, w) /\ IsActive asset = true /\
    SendCoinsFromAccountToModule ctx a ModuleAccountName cs (w_bank w) = (Ok tt, b) /\
    let p := position_or_new (w_coll w) ctx a d in
    w' = set_coll (locked_state (w_coll w) a d (with_Amount (Amount p + n) p)
                     (total_locked (w_coll w) d + n)) (set_bank b w).
Proof.
  intros Hr Hs Ha. unfold LockCollateral in Hr.
  apply bind_ok in Hr as (asset & w0 & Has & Hr). pose proof (GetCollateralAsset_state _ _ _ _ Has) as ->.
  destruct (IsActive asset) eqn:Hact; [|done]. cbn [negb] in Hr.
  apply bind_ok in Hr as (n & w0 & [-> ->]%or_panic_ok & Hr).
  apply bind_ok in Hr as (cs & w0 & [Hcs ->]%or_panic_ok & Hr).
  apply bind_ok in Hr as ([] & w1 & Hb%map_err_ok & Hr). apply lift_bank_ok in Hb as (b & Hb & ->).
  apply bind_ok in Hr as (r & w1 & Hp & Hr).
  assert (w1 = set_bank b w /\ match r with inl p => p | inr _ =>
      mkCollateralPosition (AccAddress_String a) d 0 (BlockTime ctx) 0 end
      = position_or_new (w_coll w) ctx a d) as [-> E].
  { unfold position_or_new.
    apply try_ok in Hp as [(p & -> & [-> Hp]%GetPosition_ok)|(e & -> & [-> Hp]%GetPosition_err)];
      cbn in Hp; by rewrite Hp. }
  cbv zeta in Hr. rewrite E in Hr.
  destruct (position_or_new_facts (w_coll w) ctx a d Hs Ha) as (Hown & Hden & _).
  set (p := position_or_new _ _ _ _) in *.
  apply bind_ok in Hr as (n' & w1 & [->%Int_Add_exact ->]%or_panic_ok & Hr).
  unfold SetPosition in Hr. cbn [Owner IBCDenom with_Amount] in Hr. rewrite Hown, Hden in Hr.
  apply bind_ok in Hr as (? & w1 & ->%modify_ok & Hr).
  rewrite (bind_run _ _ _ _ _ (GetTotalLocked_run _ _)) in Hr.
  apply bind_ok in Hr as (t & w1 & [Ht%Int_Add_exact ->]%or_panic_ok & ->%modify_ok).
  cbn [w_coll set_coll] in Ht. rewrite total_locked_put in Ht. subst t.
  pose proof (coins_of_inv _ _ _ Hcs) as (_ & ? & _).
  exists n, cs, b, asset. repeat (split; [done|]). done.
Qed.

Lemma UnlockCollateral_ok ctx a d amt w u w' :
  UnlockCollateral ctx a d amt w = (Ok u, w') ->
  coll_inv (w_coll w) -> VerifyAddressFormat a = true ->
  exists p n cs b,
    position_at (w_coll w) a d = Some p /\ MintedZYTD p = 0 /\ amt = Some n /\ 0 <= n <= Amount p /\
    coins_of d n = Some cs /\
    SendCoinsFromModuleToAccount ctx ModuleAccountName a cs (w_bank w) = (Ok tt, b) /\
    w' = set_coll (if Amount p - n =? 0
                   then <[lockedKey d := VLocked (total_locked (w_coll w) d - n)]>
                          (delete (positionKey a d) (w_coll w))
                   else locked_state (w_coll w) a d (with_Amount (Amount p - n) p)
                          (total_locked (w_coll w) d - n)) (set_bank b w).
Proof.
  intros Hr [Hs Ht] Ha. unfold UnlockCollateral in Hr.
  apply bind_ok in Hr as (p & w0 & [-> Hp]%GetPosition_ok & Hr).
  destruct (position_at_owner _ _ _ _ Hs Ha Hp) as (Hown & Hden & Hp0 & Hm0).
  destruct (Z.ltb_spec 0 (MintedZYTD p)); [done|].
  apply bind_ok in Hr as (n & w0 & [-> ->]%or_panic_ok & Hr).
  destruct (Z.ltb_spec (Amount p) n); [done|].
  apply bind_ok in Hr as (cs & w0 & [Hcs ->]%or_panic_ok & Hr).
  apply bind_ok in Hr as ([] & w1 & Hb%map_err_ok & Hr). apply lift_bank_ok in Hb as (b & Hb & ->).
  apply bind_ok in Hr as (n' & w1 & [->%Int_Sub_exact ->]%or_panic_ok & Hr).
  pose proof (coins_of_inv _ _ _ Hcs) as (_ & ? & _).
  assert (n <= total_locked (w_coll w) d) as Hle.
  { pose proof (amount_at_le_sum (w_coll w) a d Hs Ha). unfold amount_at in *. rewrite Hp in *.
    rewrite Ht. cbn in *. lia. }
  apply bind_ok in Hr as (u1 & w1 & Hd & Hr).
  rewrite (bind_run _ _ _ _ _ (GetTotalLocked_run _ _)) in Hr.
  apply bind_ok in Hr as (t & w2 & [Ht'%Int_Sub_exact ->]%or_panic_ok & ->%modify_ok).
  assert (total_locked (w_coll w1) d = total_locked (w_coll w) d) as E.
  { destruct (Amount p - n =? 0); [apply modify_ok in Hd as ->; apply total_locked_remove|].
    unfold SetPosition in Hd. cbn [Owner with_Amount] in Hd. rewrite Hown in Hd.
    apply modify_ok in Hd as ->. apply total_locked_put. }
  rewrite E in Ht'. subst t. rewrite (proj2 (Z.ltb_ge _ 0)) by lia.
  exists p, n, cs, b. split; [done|]. split; [lia|]. do 2 (split; [done|]). do 2 (split; [done|]).
  destruct (Amount p - n =? 0); [by apply modify_ok in Hd as ->|].
  unfold SetPosition in Hd. cbn [Owner IBCDenom with_Amount] in Hd. rewrite Hown, Hden in Hd.
  by apply modify_ok in Hd as ->.
Qed.

Lemma UpdateMintedZYTD_ok a d delta w u w' :
  UpdateMintedZYTD a d delta w = (Ok u, w') ->
  map_Forall slot_ok (w_coll w) -> VerifyAddressFormat a = true ->
  exists p, position_at (w_coll w) a d = Some p /\ 0 <= MintedZYTD p + delta /\
    w' = set_coll (<[positionKey a d := VPosition (with_Minted (MintedZYTD p + delta) p)]> (w_coll w)) w.
Proof.
  intros Hr Hs Ha. unfold UpdateMintedZYTD in Hr.
  apply bind_ok in Hr as (p & w0 & [-> Hp]%GetPosition_ok & Hr).
  destruct (position_at_owner _ _ _ _ Hs Ha Hp) as (Hown & Hden & Hp0 & Hm0).
  apply bind_ok in Hr as (n & w0 & [->%Int_Add_exact ->]%or_panic_ok & Hr).
  destruct (Z.ltb_spec (MintedZYTD p + delta) 0); [done|].
  unfold SetPosition in Hr. cbn [Owner IBCDenom with_Minted] in Hr. rewrite Hown, Hden in Hr.
  apply modify_ok in Hr as ->. eauto.
Qed.

(** ** The vault *)

(** The vault account holds at least what the positions of each denomination
    add up to. *)
Definition vault_ok w : Prop :=
  forall va d, GetModuleAddress ModuleAccountName = Some va ->
    locked_sum (w_coll w) d <= bk_balance (w_bank w) va d.

Lemma position_at_set m a d p total a' d' :
  VerifyAddressFormat a = true -> VerifyAddressFormat a' = true ->
  position_at (locked_state m a d p total) a' d' =
  if bool_decide (a' = a /\ d' = d) then Some p else position_at m a' d'.
Proof.
  intros Ha Ha'. unfold position_at, locked_state. rewrite lookup_insert_ne by done.
  case_bool_decide as E; [destruct E as [-> ->]; by rewrite lookup_insert_eq|].
  rewrite lookup_insert_ne; [done|]. intros ?%positionKey_inj; naive_solver.
Qed.

Lemma Lock_coll_inv m ctx a d n :
  coll_inv m -> VerifyAddressFormat a = true -> 0 <= n ->
  let p := position_or_new m ctx a d in
  coll_inv (locked_state m a d (with_Amount (Amount p + n) p) (total_locked m d + n)).
Proof.
  intros Hi Ha Hn p. destruct (position_or_new_facts m ctx a d (inv_slots _ Hi) Ha) as (Ho & Hd & HA & HA0 & HM0).
  fold p in Ho, Hd, HA, HA0, HM0. pose proof (coll_inv_put m a (with_Amount (Amount p + n) p) Hi Ho) as Hp.
  cbn [IBCDenom Amount MintedZYTD with_Amount] in Hp. rewrite Hd in Hp. unfold locked_state.
  replace (total_locked m d + n) with (total_locked m d + (Amount p + n - amount_at m a d)) by lia.
  apply Hp; lia.
Qed.

Lemma Unlock_coll_inv m a d p n :
  coll_inv m -> VerifyAddressFormat a = true -> position_at m a d = Some p -> 0 <= n <= Amount p ->
  coll_inv (if Amount p - n =? 0
            then <[lockedKey d := VLocked (total_locked m d - n)]> (delete (positionKey a d) m)
            else locked_state m a d (with_Amount (Amount p - n) p) (total_locked m d - n)).
Proof.
  intros Hi Ha Hp Hn. destruct (position_at_owner _ _ _ _ (inv_slots _ Hi) Ha Hp) as (Ho & Hd & ? & ?).
  assert (amount_at m a d = Amount p) as HA by (unfold amount_at; by rewrite Hp).
  destruct (Z.eqb_spec (Amount p - n) 0).
  - replace n with (amount_at m a d) by lia. by apply coll_inv_remove.
  - pose proof (coll_inv_put m a (with_Amount (Amount p - n) p) Hi Ho) as Hput.
    cbn [IBCDenom Amount MintedZYTD with_Amount] in Hput. rewrite Hd in Hput. unfold locked_state.
    replace (total_locked m d - n) with (total_locked m d + (Amount p - n - amount_at m a d)) by lia.
    apply Hput; lia.
Qed.

(** The sum of the positions moves with the counter. *)
Lemma locked_sum_by_total m m' d :
  coll_inv m -> coll_inv m' -> locked_sum m' d - locked_sum m d = total_locked m' d - total_locked m d.
Proof. intros [_ H1'] [_ H2']. by rewrite H1', H2'. Qed.

Lemma LockCollateral_inv ctx a d amt w u w' :
  LockCollateral ctx a d amt w = (Ok u, w') ->
  coll_inv (w_coll w) -> VerifyAddressFormat a = true ->
  coll_inv (w_coll w') /\
  (GetModuleAddress ModuleAccountName <> Some a -> vault_ok w -> vault_ok w').
Proof.
  intros Hr Hi Ha. destruct (LockCollateral_ok _ _ _ _ _ _ _ Hr (inv_slots _ Hi) Ha)
    as (n & cs & b & asset & -> & Hn & Hcs & _ & _ & Hb & ->).
  pose proof (Lock_coll_inv (w_coll w) ctx a d n Hi Ha Hn) as Hi'. cbn in *. split; [done|].
  intros Hne Hv va d' Hva. specialize (Hv va d' Hva). cbn.
  pose proof (locked_sum_by_total _ _ d' Hi Hi') as E. unfold locked_state in E at 2.
  rewrite total_locked_set, total_locked_put in E.
  apply send_to_module in Hb as (ma & Hma & Hbal & _). simplify_eq. rewrite Hbal.
  rewrite (coins_of_amount _ _ _ _ Hcs). unfold owned_by. rewrite (bool_decide_false (ma = a)) by congruence.
  rewrite bool_decide_true by done. repeat case_bool_decide; subst; lia.
Qed.

Lemma UnlockCollateral_inv ctx a d amt w u w' :
  UnlockCollateral ctx a d amt w = (Ok u, w') ->
  coll_inv (w_coll w) -> VerifyAddressFormat a = true ->
  coll_inv (w_coll w') /\ (vault_ok w -> vault_ok w').
Proof.
  intros Hr Hi Ha. destruct (UnlockCollateral_ok _ _ _ _ _ _ _ Hr Hi Ha)
    as (p & n & cs & b & Hp & _ & -> & Hn & Hcs & Hb & ->).
  pose proof (Unlock_coll_inv (w_coll w) a d p n Hi Ha Hp Hn) as Hi'. cbn [w_coll set_coll] in *. split; [done|].
  intros Hv va d' Hva. specialize (Hv va d' Hva). cbn [w_coll set_coll w_bank set_bank].
  pose proof (locked_sum_by_total _ _ d' Hi Hi') as E.
  set (m' := if _ =? 0 then _ else _) in *.
  assert (total_locked m' d' = total_locked (w_coll w) d' - if bool_decide (d = d') then n else 0) as E'.
  { subst m'. case_match; unfold locked_state; rewrite total_locked_set, ?total_locked_put, ?total_locked_remove;
      case_bool_decide; subst; lia. }
  apply send_from_module in Hb as (ma & Hma & Hbal & _). simplify_eq. rewrite Hbal.
  rewrite (coins_of_amount _ _ _ _ Hcs). unfold owned_by. rewrite (bool_decide_true (ma = ma)) by done.
  repeat case_bool_decide; subst; lia.
Qed.

Lemma UpdateMintedZYTD_inv a d delta w u w' :
  UpdateMintedZYTD a d delta w = (Ok u, w') ->
  coll_inv (w_coll w) -> VerifyAddressFormat a = true ->
  coll_inv (w_coll w') /\ (vault_ok w -> vault_ok w').
Proof.
  intros Hr Hi Ha. destruct (UpdateMintedZYTD_ok _ _ _ _ _ _ Hr (inv_slots _ Hi) Ha) as (p & Hp & Hz & ->).
  destruct (position_at_owner _ _ _ _ (inv_slots _ Hi) Ha Hp) as (Ho & Hd & ? & ?).
  assert (coll_inv (<[positionKey a d := VPosition (with_Minted (MintedZYTD p + delta) p)]> (w_coll w))) as Hi'.
  { pose proof (coll_inv_update (w_coll w) a (with_Minted (MintedZYTD p + delta) p) Hi Ho) as Hu.
    cbn in Hu. rewrite Hd in Hu. apply Hu; [done|done|]. unfold amount_at. by rewrite Hp. }
  cbn in *. split; [done|]. intros Hv va d' Hva. specialize (Hv va d' Hva). cbn.
  pose proof (locked_sum_by_total _ _ d' Hi Hi') as E. rewrite total_locked_put in E. lia.
Qed.

(** C4.  What locking does.  A LockCollateral that succeeds was for an active
    whitelisted asset; it moves exactly the amount from the owner to the vault
    and leaves every other balance and the supply alone; the owner's position
    grows by the amount with its debt unchanged, every other position is as
    before; and the two invariants survive: each counter is the sum of its
    positions, and the vault covers it. *)
Theorem LockCollateral_effect ctx a d n w u w' va :
  LockCollateral ctx a d (Some n) w = (Ok u, w') ->
  coll_inv (w_coll w) -> vault_ok w -> VerifyAddressFormat a = true ->
  GetModuleAddress ModuleAccountName = Some va -> a <> va ->
  (exists asset, GetCollateralAsset d w = (Ok asset, w) /\ IsActive asset = true) /\
  bk_balance (w_bank w') a d = bk_balance (w_bank w) a d - n /\
  bk_balance (w_bank w') va d = bk_balance (w_bank w) va d + n /\
  (forall x d', d' <> d \/ (x <> a /\ x <> va) -> bk_balance (w_bank w') x d' = bk_balance (w_bank w) x d') /\
  (forall d', bk_supply (w_bank w') d' = bk_supply (w_bank w) d') /\
  (exists p, position_at (w_coll w') a d = Some p /\ Amount p = amount_at (w_coll w) a d + n /\
     MintedZYTD p = default 0 (MintedZYTD <$> position_at (w_coll w) a d)) /\
  (forall a' d', VerifyAddressFormat a' = true -> a' <> a \/ d' <> d ->
     position_at (w_coll w') a' d' = position_at (w_coll w) a' d') /\
  total_locked (w_coll w') d = total_locked (w_coll w) d + n /\
  coll_inv (w_coll w') /\ vault_ok w'.
Proof.
  intros Hr Hi Hv Ha Hva Hne. destruct (LockCollateral_inv _ _ _ _ _ _ _ Hr Hi Ha) as [Hi' Hv'].
  destruct (LockCollateral_ok _ _ _ _ _ _ _ Hr (inv_slots _ Hi) Ha)
    as (n' & cs & b & asset & [= <-] & Hn & Hcs & Has & Hact & Hb & ->).
  destruct (position_or_new_facts (w_coll w) ctx a d (inv_slots _ Hi) Ha) as (_ & _ & HA & _).
  apply send_to_module in Hb as (ma & Hma & Hbal & Hsup).
  rewrite Hva in Hma. injection Hma as <-.
  assert (Hc := fun d' => coins_of_amount _ _ _ d' Hcs).
  split; [eauto|]. cbn [w_bank set_bank set_coll w_coll] in *.
  rewrite !Hbal, !Hc. unfold owned_by.
  do 2 (split; [repeat case_bool_decide; simplify_eq; lia|]). split.
  { intros x d' Hx. rewrite Hbal, Hc. unfold owned_by. repeat case_bool_decide; subst; try lia; naive_solver. }
  split; [done|]. split.
  { eexists. rewrite position_at_set, bool_decide_true by done. split; [done|]. cbn. rewrite HA.
    split; [done|]. unfold position_or_new. by destruct (position_at _ _ _). }
  split; [intros a' d' Ha' Hor; rewrite position_at_set, bool_decide_false by naive_solver; done|].
  unfold locked_state. rewrite total_locked_set, bool_decide_true by done.
  split; [done|]. split; [done|]. apply Hv'; [congruence|done].
Qed.

(** C8.  Debt blocks withdrawal.  While a position has ZYTD minted against it,
    UnlockCollateral returns ErrUnlockDenied, for every amount, and changes
    nothing. *)
Theorem UnlockCollateral_debt_denied ctx a d amt w p :
  position_at (w_coll w) a d = Some p -> 0 < MintedZYTD p ->
  exists e, UnlockCollateral ctx a d amt w = (Err e, w) /\ errors_Is e ModuleName 1404 = true.
Proof.
  intros Hp Hm. unfold UnlockCollateral. apply GetPosition_some in Hp.
  rewrite (bind_run _ _ _ _ _ Hp), (proj2 (Z.ltb_lt _ _) Hm). by eexists.
Qed.

(** C10.  Locking and unlocking round-trip.  When an owner locks an amount and
    unlocks the same amount, every balance, every position's amount and the
    counters are back where they were. *)
Theorem lock_unlock_roundtrip ctx ctx' a d n w u1 w1 u2 w2 :
  LockCollateral ctx a d (Some n) w = (Ok u1, w1) ->
  UnlockCollateral ctx' a d (Some n) w1 = (Ok u2, w2) ->
  coll_inv (w_coll w) -> VerifyAddressFormat a = true ->
  (forall x d', bk_balance (w_bank w2) x d' = bk_balance (w_bank w) x d') /\
  (forall x d', VerifyAddressFormat x = true -> amount_at (w_coll w2) x d' = amount_at (w_coll w) x d') /\
  (forall d', total_locked (w_coll w2) d' = total_locked (w_coll w) d').
Proof.
  intros Hr1 Hr2 Hi Ha. destruct (LockCollateral_inv _ _ _ _ _ _ _ Hr1 Hi Ha) as [Hi1 _].
  destruct (LockCollateral_ok _ _ _ _ _ _ _ Hr1 (inv_slots _ Hi) Ha)
    as (n' & cs & b1 & asset & [= <-] & Hn & Hcs & _ & _ & Hb1 & ->).
  destruct (UnlockCollateral_ok _ _ _ _ _ _ _ Hr2 Hi1 Ha)
    as (p & n' & cs' & b2 & Hp & _ & [= <-] & Hle & Hcs' & Hb2 & ->).
  destruct (position_or_new_facts (w_coll w) ctx a d (inv_slots _ Hi) Ha) as (_ & _ & HA & _).
  cbn [w_bank set_bank set_coll w_coll] in *. simplify_eq.
  apply send_to_module in Hb1 as (ma & Hma & Hbal1 & _).
  apply send_from_module in Hb2 as (ma' & Hma' & Hbal2 & _). simplify_eq.
  rewrite position_at_set, bool_decide_true in Hp by done. injection Hp as <-. cbn [Amount with_Amount] in *.
  split; [intros; rewrite Hbal2, Hbal1; lia|].
  rewrite HA. replace (amount_at (w_coll w) a d + n - n) with (amount_at (w_coll w) a d) by lia.
  split.
  - intros x d' Hx. unfold amount_at at 1. destruct (Z.eqb_spec (amount_at (w_coll w) a d) 0) as [E|E].
    + unfold position_at, locked_state. rewrite lookup_insert_ne by done.
      destruct (decide (x = a /\ d' = d)) as [[-> ->]|Hor]; [by rewrite lookup_delete_eq|].
      rewrite lookup_delete_ne by (intros ?%positionKey_inj; naive_solver).
      rewrite !lookup_insert_ne by (done || (intros ?%positionKey_inj; naive_solver)). done.
    + rewrite !position_at_set by done. case_bool_decide as Hc; [by destruct Hc as [-> ->]|done].
  - intros d'. destruct (Z.eqb_spec (amount_at (w_coll w) a d) 0); unfold locked_state;
      repeat first [rewrite total_locked_set | rewrite total_locked_put | rewrite total_locked_remove];
      repeat case_bool_decide; simplify_eq; lia.
Qed.

(** A run of the middleware that emits nothing. *)
Ltac no_event Hw Hnil := exists []; rewrite Hw; split; [done|]; apply Hnil;
  intros (? & ? & ? & ? & ? & ? & ? & ?); simplify_eq; congruence.

(** The middleware is transparent.  On any packet it returns the
    acknowledgement of the transfer module (or its error or panic), and the
    state that module left, except that it appends one event exactly when the
    transfer succeeded and the received denomination is an active collateral
    asset. *)
Theorem middleware_transparent {Chan Packet Ack} (tr : IBCTransfer Packet Ack)
    (im : IBCModule B Chan Packet Ack) ctx packet w r w1 :
  OnRecvPacket im ctx packet w = (r, w1) ->
  exists evs,
    OnRecvPacket (IBCMiddleware tr im) ctx packet w =
      (r, mkWorld (w_bank w1) (w_oracle w1) (w_coll w1) (w_sc w1) (w_events w1 ++ evs)) /\
    (evs <> [] <-> exists ack data asset, r = Ok ack /\ ack_Success tr ack = true /\
       UnmarshalData tr packet = Some data /\
       GetCollateralAsset (received_denom tr packet data) w1 = (Ok asset, w1) /\ IsActive asset = true).
Proof.
  intros Hr. assert (Hw : mkWorld (w_bank w1) (w_oracle w1) (w_coll w1) (w_sc w1) (w_events w1 ++ []) = w1)
    by (rewrite app_nil_r; by destruct w1).
  assert (Hnil : forall P : Prop, ~ P -> ([] : list Event) <> [] <-> P) by tauto.
  cbn [OnRecvPacket IBCMiddleware]. unfold middleware_OnRecvPacket, bind at 1. rewrite Hr.
  destruct r as [ack|e|]; [|no_event Hw Hnil..].
  destruct (ack_Success tr ack) eqn:Hs; cbn [negb]; [|no_event Hw Hnil].
  destruct (UnmarshalData tr packet) as [data|] eqn:Hd; [|no_event Hw Hnil].
  unfold bind at 1, try.
  destruct (GetCollateralAsset (received_denom tr packet data) w1) as [[asset|e|] w2] eqn:Hg;
    pose proof (GetCollateralAsset_state _ _ _ _ Hg) as ->.
  - destruct (IsActive asset) eqn:Hact; cbn [negb]; [|no_event Hw Hnil].
    eexists. split; [unfold bind, EmitEvent, modify, ret; cbn; reflexivity|]. split; [|done]. intros _. eauto 10.
  - no_event Hw Hnil.
  - exfalso. unfold GetCollateralAsset, coll_get, bind, reads, ret, throw in Hg. repeat case_match; done.
Qed.

(** ** Genesis *)

Lemma assetKey_inj d d' : assetKey d = assetKey d' -> d = d'.
Proof. apply string_app_inj. Qed.

Lemma AssetJSON_roundtrip a : AssetJSON_Unmarshal (asset_to_json a) = Some a.
Proof. by destruct a. Qed.

Lemma position_json_roundtrip p : position_of_json (position_to_json p) = p.
Proof. by destruct p. Qed.

Lemma GetCollateralAsset_iff w d a :
  GetCollateralAsset d w = (Ok a, w) <->
  exists j, w_coll w !! assetKey d = Some (VAsset j) /\ AssetJSON_Unmarshal j = Some a.
Proof.
  unfold GetCollateralAsset, coll_get, bind, reads, ret, throw. split.
  - intros E. destruct (w_coll w !! assetKey d) as [[j| |]|]; try done. exists j.
    destruct (AssetJSON_Unmarshal j); by simplify_eq.
  - intros (j & -> & ->). done.
Qed.

Definition register_or_panic (asset : AssetJSON) : M (World B) unit :=
  let! r := try (RegisterCollateralAsset asset) in
  match r with inl _ => ret tt | inr _ => panic end.

(** Registering a list of assets with distinct denominations. *)
Lemma register_all js w :
  NoDup (aj_IBCDenom <$> js) -> Forall (fun j => aj_IBCDenom j <> "") js ->
  exists m', for_each js register_or_panic w = (Ok tt, set_coll m' w) /\
    (forall j, j ∈ js -> m' !! assetKey (aj_IBCDenom j) = Some (VAsset j)) /\
    (forall k, (forall j, j ∈ js -> k <> assetKey (aj_IBCDenom j)) -> m' !! k = w_coll w !! k).
Proof.
  revert w. induction js as [|j js IH]; intros w Hnd Hne.
  - exists (w_coll w). split; [by destruct w|]. split; [set_solver|done].
  - cbn in Hnd. apply NoDup_cons in Hnd as [Hj Hnd]. apply Forall_cons in Hne as [Hjne Hne].
    destruct (IH (set_coll (<[assetKey (aj_IBCDenom j) := VAsset j]> (w_coll w)) w) Hnd Hne)
      as (m' & Hrun & Hin & Hout).
    assert (Hdist : forall j', j' ∈ js -> assetKey (aj_IBCDenom j) <> assetKey (aj_IBCDenom j')).
    { intros j' Hj' E%assetKey_inj. apply Hj. rewrite E. by apply list_elem_of_fmap_2. }
    exists m'. split; [|split].
    + cbn [for_each]. erewrite bind_run; [exact Hrun|]. unfold register_or_panic, RegisterCollateralAsset.
      rewrite bool_decide_false by done. done.
    + intros j' [->|?]%elem_of_cons; [|by apply Hin]. rewrite Hout by done. cbn. by rewrite lookup_insert_eq.
    + intros k Hk. rewrite Hout by (intros; apply Hk; by right). cbn.
      rewrite lookup_insert_ne; [done|]. intros <-. by apply (Hk j); [left|].
Qed.

Definition amount_sum (ps : list CollateralPosition) (d : string) : Z :=
  lsum (fun p => if bool_decide (IBCDenom p = d) then Amount p else 0) ps.

(** The key a position is stored under. *)
Definition key_of_position (p : CollateralPosition) : string :=
  match AccAddressFromBech32 (Owner p) with
  | Some a => positionKey a (IBCDenom p)
  | None => ""
  end.

(** Restoring positions that are well-formed, have distinct keys and are not
    in the store yet. *)
Lemma restore_all ps w :
  coll_inv (w_coll w) -> NoDup (key_of_position <$> ps) ->
  Forall (fun p => is_Some (AccAddressFromBech32 (Owner p)) /\ 0 <= Amount p /\ 0 <= MintedZYTD p /\
                   w_coll w !! key_of_position p = None) ps ->
  (forall d, locked_sum (w_coll w) d + amount_sum ps d < 2 ^ 256) ->
  exists m', for_each (position_to_json <$> ps) restore_position w = (Ok tt, set_coll m' w) /\
    coll_inv m' /\
    (forall k p, m' !! k = Some (VPosition p) <->
       w_coll w !! k = Some (VPosition p) \/ (p ∈ ps /\ k = key_of_position p)) /\
    (forall d, m' !! assetKey d = w_coll w !! assetKey d).
Proof.
  revert w. induction ps as [|p ps IH]; intros w Hi Hnd Hok Hfit.
  { exists (w_coll w). split; [by destruct w|]. split_and!; [done| |done].
    intros k p. split; [by left|]. intros [?|[?%elem_of_nil _]]; done. }
  cbn [fmap list_fmap] in Hnd. apply NoDup_cons in Hnd as [Hk Hnd].
  apply Forall_cons in Hok as [([a Ha] & HA & HM & Hnone) Hok].
  assert (key_of_position p = positionKey a (IBCDenom p)) as Hkey by (unfold key_of_position; by rewrite Ha).
  rewrite Hkey in Hnone, Hk.
  assert (amount_at (w_coll w) a (IBCDenom p) = 0) as HA0 by (unfold amount_at, position_at; by rewrite Hnone).
  pose proof (coll_inv_put (w_coll w) a p Hi Ha HA HM) as Hi1.
  rewrite HA0, Z.sub_0_r in Hi1.
  set (m1 := <[lockedKey _ := _]> _) in Hi1. set (w1 := set_coll m1 w).
  assert (Hsum1 : forall d, locked_sum m1 d =
    locked_sum (w_coll w) d + if bool_decide (IBCDenom p = d) then Amount p else 0).
  { intros d. subst m1. rewrite locked_sum_total by (apply slot_position_put; [apply Hi|done..]).
    rewrite locked_sum_put, HA0, Z.sub_0_r by (apply Hi || by eapply AccAddressFromBech32_valid). done. }
  assert (Hrun1 : restore_position (position_to_json p) w = (Ok tt, w1)).
  { unfold restore_position. rewrite position_json_roundtrip. unfold SetPosition. rewrite Ha.
    unfold bind at 1, coll_set, modify. rewrite (bind_run _ _ _ _ _ (GetTotalLocked_run _ _)).
    cbn [w_coll set_coll]. rewrite total_locked_put.
    pose proof (Hfit (IBCDenom p)) as Hf. unfold amount_sum in Hf.
    rewrite lsum_cons, bool_decide_true in Hf by done.
    pose proof (lsum_nonneg (fun q => if bool_decide (IBCDenom q = IBCDenom p) then Amount q else 0) ps) as Hpos.
    pose proof (locked_sum_nonneg (w_coll w) (IBCDenom p) (inv_slots _ Hi)).
    rewrite Int_Add_fits; [done|]. rewrite (inv_totals _ Hi).
    rewrite Z.abs_eq by lia. enough (0 <= lsum (fun q => if bool_decide (IBCDenom q = IBCDenom p) then Amount q else 0) ps) by lia.
    apply Hpos. intros q Hq. rewrite Forall_forall in Hok. destruct (Hok q Hq) as (_ & ? & _).
    case_bool_decide; lia. }
  destruct (IH w1) as (m' & Hrun & Hi' & Hpos & Has); [done|done| | |].
  { apply Forall_forall. intros q Hq. rewrite Forall_forall in Hok. destruct (Hok q Hq) as ([aq Haq] & ? & ? & Hqn).
    split_and!; [by eexists|done..|]. cbn. unfold m1.
    assert (key_of_position q <> positionKey a (IBCDenom p)) as Hne
      by (intros E; apply Hk; rewrite <- E; by apply list_elem_of_fmap_2).
    revert Hqn Hne. unfold key_of_position. rewrite Haq. intros Hqn Hne.
    by rewrite !lookup_insert_ne by (done || congruence). }
  { intros d. specialize (Hfit d). unfold amount_sum in *. rewrite lsum_cons in Hfit.
    cbn [w_coll set_coll w1]. rewrite Hsum1. lia. }
  exists m'. split_and!; [|done| |].
  - cbn [fmap list_fmap for_each]. by rewrite (bind_run _ _ _ _ _ Hrun1).
  - intros k q. rewrite Hpos. cbn. unfold m1. rewrite elem_of_cons.
    destruct (decide (k = lockedKey (IBCDenom p))) as [->|Hkl].
    + rewrite lookup_insert_eq. split.
      * intros [?|[Hq E]]; [done|]. by eauto.
      * intros [E|[[->|Hq] E]]; [|by rewrite Hkey in E|by eauto].
        destruct (inv_slots _ Hi _ _ E) as ((? & _ & ?) & _). done.
    + rewrite lookup_insert_ne by done.
      destruct (decide (k = positionKey a (IBCDenom p))) as [->|Hkp].
      * rewrite lookup_insert_eq, Hnone. split.
        -- intros [[= ->]|[Hq E]]; [by eauto|]. by eauto.
        -- intros [?|[[->|Hq] E]]; [done|by left|by eauto].
      * rewrite lookup_insert_ne by done. split; [naive_solver|].
        intros [?|[[->|Hq] E]]; [by eauto|congruence|by eauto].
  - intros d. rewrite Has. cbn. unfold m1. by rewrite !lookup_insert_ne by done.
Qed.

(** What an export lists. *)
Definition positions_of m : list CollateralPosition :=
  omap (fun kv => match kv.2 with VPosition p => Some p | _ => None end)
    (kv_prefix_iter CollateralPositionPrefix m).
Definition assets_of m : list CollateralAsset :=
  omap (fun kv => match kv.2 with VAsset j => AssetJSON_Unmarshal j | _ => None end)
    (kv_prefix_iter CollateralAssetPrefix m).

Lemma ExportGenesis_run w :
  ExportGenesis w = (Ok {| CollateralAssets := asset_to_json <$> assets_of (w_coll w);
                           Positions := position_to_json <$> positions_of (w_coll w) |}, w).
Proof. done. Qed.

Lemma elem_of_positions_of m p :
  map_Forall slot_ok m -> p ∈ positions_of m <-> m !! key_of_position p = Some (VPosition p).
Proof.
  intros Hm. unfold positions_of. rewrite list_elem_of_omap. split.
  - intros ([k v] & [Hk _]%elem_of_kv_prefix_iter & E). destruct v; simplify_eq/=.
    destruct (Hm _ _ Hk) as ((a & Ha & ->) & _). unfold key_of_position. by rewrite Ha.
  - intros Hk. exists (key_of_position p, VPosition p). rewrite elem_of_kv_prefix_iter. split; [|done].
    split; [done|]. destruct (Hm _ _ Hk) as ((a & Ha & ->) & _). apply prefix_iff. by eexists.
Qed.

Lemma elem_of_assets_of m a :
  map_Forall slot_ok m ->
  a ∈ assets_of m <-> exists j, m !! assetKey (aj_IBCDenom j) = Some (VAsset j) /\ AssetJSON_Unmarshal j = Some a.
Proof.
  intros Hm. unfold assets_of. rewrite list_elem_of_omap. split.
  - intros ([k v] & [Hk _]%elem_of_kv_prefix_iter & E). destruct v as [j| |]; simplify_eq/=.
    destruct (Hm _ _ Hk) as [-> _]. eauto.
  - intros (j & Hk & Hj). exists (assetKey (aj_IBCDenom j), VAsset j). rewrite elem_of_kv_prefix_iter.
    split; [|done]. split; [done|]. apply prefix_iff. by eexists.
Qed.

Lemma NoDup_positions_of m : map_Forall slot_ok m -> NoDup (key_of_position <$> positions_of m).
Proof.
  intros Hm. apply (NoDup_fmap_omap _ _ fst); [apply NoDup_kv_prefix_iter|].
  intros [k v] [k' v'] p p' [Hk _]%elem_of_kv_prefix_iter [Hk' _]%elem_of_kv_prefix_iter E E' Hkey.
  destruct v, v'; simplify_eq/=.
  destruct (Hm _ _ Hk) as ((a & Ha & ->) & _), (Hm _ _ Hk') as ((a' & Ha' & ->) & _).
  unfold key_of_position in Hkey. by rewrite Ha, Ha' in Hkey.
Qed.

Lemma Unmarshal_denom j a : AssetJSON_Unmarshal j = Some a -> as_IBCDenom a = aj_IBCDenom j.
Proof. unfold AssetJSON_Unmarshal. repeat case_match; intros; by simplify_eq. Qed.

Lemma NoDup_assets_of m : map_Forall slot_ok m -> NoDup (as_IBCDenom <$> assets_of m).
Proof.
  intros Hm. apply (NoDup_fmap_omap _ _ fst); [apply NoDup_kv_prefix_iter|].
  intros [k v] [k' v'] p p' [Hk _]%elem_of_kv_prefix_iter [Hk' _]%elem_of_kv_prefix_iter E E' Hkey.
  destruct v, v'; simplify_eq/=.
  destruct (Hm _ _ Hk) as [-> _], (Hm _ _ Hk') as [-> _].
  apply Unmarshal_denom in E, E'. congruence.
Qed.

Lemma positions_of_sum m d :
  map_Forall slot_ok m -> amount_sum (positions_of m) d = locked_sum m d.
Proof.
  intros Hm. unfold amount_sum, positions_of, locked_sum. rewrite lsum_omap.
  rewrite <- (lsum_kv_prefix_iter _ CollateralPositionPrefix).
  - apply lsum_ext. intros [k v] _. by destruct v.
  - intros k v Hk Hpre. destruct v; try done. destruct (Hm _ _ Hk) as ((? & _ & ->) & _).
    by rewrite (proj2 (prefix_iff _ _)) in Hpre by (by eexists).
Qed.

(** Stores with the same positions have the same sums. *)
Lemma locked_sum_ext m m' d :
  (forall k p, m !! k = Some (VPosition p) <-> m' !! k = Some (VPosition p)) ->
  locked_sum m d = locked_sum m' d.
Proof.
  intros E. unfold locked_sum.
  set (P := fun kv : string * value => match kv.2 with VPosition _ => True | _ => False end).
  assert (forall x, Decision (P x)) as Hdec by (intros [? []]; unfold P; cbn; apply _).
  rewrite <- (map_sum_filter _ P m), <- (map_sum_filter _ P m'); [|intros ? [] _ HP; first [reflexivity|by destruct HP]..].
  f_equal. apply map_eq. intros k. apply option_eq. intros v. rewrite !map_lookup_filter_Some.
  destruct v; unfold P; cbn; [naive_solver| |naive_solver]. by rewrite E.
Qed.

(** A store of assets only. *)
Lemma locked_sum_none m d : (forall k p, m !! k <> Some (VPosition p)) -> locked_sum m d = 0.
Proof. intros Hm. rewrite (locked_sum_ext m ∅ d); [apply map_sum_empty|]. intros k p. by split; [intros ?%Hm|]. Qed.

Lemma assets_only_inv m0 m :
  map_Forall slot_ok m0 ->
  (forall k v, m !! k = Some v -> exists a, a ∈ assets_of m0 /\
     k = assetKey (as_IBCDenom a) /\ v = VAsset (asset_to_json a)) -> coll_inv m.
Proof.
  intros Hs Hm. split.
  - intros k v (a & (j & Hj & Ea)%elem_of_assets_of & -> & ->)%Hm; [|done]. cbn. split; [done|].
    rewrite (Unmarshal_denom _ _ Ea). by destruct (Hs _ _ Hj).
  - intros d. rewrite locked_sum_none by (intros k p (? & _ & _ & [=])%Hm). unfold total_locked.
    destruct (m !! lockedKey d) as [v|] eqn:E; [|done]. by apply Hm in E as (? & _ & ? & _).
Qed.

Lemma positions_of_ok m m1 :
  map_Forall slot_ok m -> (forall k p, m1 !! k <> Some (VPosition p)) ->
  (forall k v, m1 !! k = Some v -> exists a, k = assetKey (as_IBCDenom a)) ->
  Forall (fun p => is_Some (AccAddressFromBech32 (Owner p)) /\ 0 <= Amount p /\ 0 <= MintedZYTD p /\
                   m1 !! key_of_position p = None) (positions_of m).
Proof.
  intros Hs Hp Ha. apply Forall_forall. intros p Hk%elem_of_positions_of; [|done].
  destruct (Hs _ _ Hk) as ((a & Hpa & E) & ? & ?). split_and!; [by eexists|done..|].
  rewrite E. destruct (m1 !! _) as [v|] eqn:Em; [|done]. apply Ha in Em as [? [=]].
Qed.

(** Genesis round trip.  Exporting the module's state and importing it
    into an empty store succeeds and gives back every position, every
    counter and every asset, and a store that satisfies the invariant. *)
Theorem genesis_roundtrip w w0 :
  coll_inv (w_coll w) -> (forall d, locked_sum (w_coll w) d < 2 ^ 256) -> w_coll w0 = ∅ ->
  exists gs m', ExportGenesis w = (Ok gs, w) /\ InitGenesis gs w0 = (Ok tt, set_coll m' w0) /\
    coll_inv m' /\
    (forall a d, position_at m' a d = position_at (w_coll w) a d) /\
    (forall d, total_locked m' d = total_locked (w_coll w) d) /\
    (forall d a, GetCollateralAsset d (set_coll m' w0) = (Ok a, set_coll m' w0) <->
                 GetCollateralAsset d w = (Ok a, w)).
Proof.
  intros Hi Hfit Hempty. pose proof (inv_slots _ Hi) as Hs. eexists.
  destruct (register_all (asset_to_json <$> assets_of (w_coll w)) w0) as (m1 & Hreg & Hin & Hout).
  { rewrite <- list_fmap_compose. by apply NoDup_assets_of. }
  { apply Forall_fmap, Forall_forall. intros a (j & Hj & Ea)%elem_of_assets_of; [|done]. cbn.
    rewrite (Unmarshal_denom _ _ Ea). by destruct (Hs _ _ Hj). }
  assert (Hm1 : forall k v, m1 !! k = Some v -> exists a, a ∈ assets_of (w_coll w) /\
    k = assetKey (as_IBCDenom a) /\ v = VAsset (asset_to_json a)).
  { intros k v Hk. destruct (decide (Exists (fun a => k = assetKey (as_IBCDenom a)) (assets_of (w_coll w)))) as [E|E].
    - apply Exists_exists in E as (a & Ha & ->). exists a. split; [done|]. split; [done|].
      pose proof (Hin (asset_to_json a) (list_elem_of_fmap_2 _ _ _ Ha)) as E. cbn in E. congruence.
    - exfalso. rewrite Hout in Hk; [by rewrite Hempty in Hk|].
      intros j (a & -> & Ha)%list_elem_of_fmap_1 ->. apply E, Exists_exists. eauto. }
  assert (Hm1p : forall k p, m1 !! k <> Some (VPosition p)) by (intros k p (? & _ & _ & [=])%Hm1).
  assert (Hi1 : coll_inv m1) by (by apply assets_only_inv with (m0 := w_coll w)).
  assert (Hsum1 : forall d, locked_sum m1 d = 0) by (intros d; by apply locked_sum_none).
  destruct (restore_all (positions_of (w_coll w)) (set_coll m1 w0)) as (m' & Hrun & Hi' & Hpos & Has);
    [done|by apply NoDup_positions_of|apply positions_of_ok; naive_solver| |].
  { intros d. cbn. rewrite Hsum1, positions_of_sum by done. apply Hfit. }
  assert (Hpos' : forall k p, m' !! k = Some (VPosition p) <-> w_coll w !! k = Some (VPosition p)).
  { intros k p. rewrite Hpos, elem_of_positions_of by done. cbn. split.
    - intros [?%Hm1p|[? ->]]; done.
    - intros Hk. right. destruct (Hs _ _ Hk) as ((a & Ha & ->) & _).
      assert (key_of_position p = positionKey a (IBCDenom p)) as E by (unfold key_of_position; by rewrite Ha).
      by rewrite E. }
  exists m'. split_and!; [apply ExportGenesis_run| |done| | |].
  - unfold InitGenesis. cbn [CollateralAssets Positions]. erewrite bind_run; [exact Hrun|exact Hreg].
  - intros a d. apply option_eq. intros p. unfold position_at. specialize (Hpos' (positionKey a d)).
    destruct (m' !! _) as [[]|], (w_coll w !! _) as [[]|]; naive_solver.
  - intros d. rewrite (inv_totals _ Hi'), (inv_totals _ Hi). by apply locked_sum_ext.
  - intros d a. rewrite !GetCollateralAsset_iff. cbn. rewrite Has. cbn. split.
    + intros (j & (a' & Ha' & E%assetKey_inj & [= ->])%Hm1 & Hj). rewrite AssetJSON_roundtrip in Hj.
      injection Hj as ->. apply elem_of_assets_of in Ha' as (j & Hj & Ea); [|done].
      exists j. by rewrite E, (Unmarshal_denom _ _ Ea).
    + intros (j & Hj & Ea). exists (asset_to_json a). rewrite AssetJSON_roundtrip. split; [|done].
      destruct (Hs _ _ Hj) as [E%assetKey_inj _]. rewrite E, <- (Unmarshal_denom _ _ Ea).
      apply (Hin (asset_to_json a)), list_elem_of_fmap_2, elem_of_assets_of; [done|].
      exists j. by rewrite E in Hj.
Qed.
End Lemmas.

(** ** With the bank of the chain *)
Section Availability.
Context `{SdkMathLaws} `{Bech32Laws} (cfg : bankkeeper.Config).
#[local] Instance chain_bank : BankKeeper bankkeeper.BankState := bankkeeper.bank_keeper cfg.

(** C9.  Collateral without debt can always be withdrawn.  In any state that
    satisfies the two invariants, the owner of a debt-free position can unlock
    any part of it: the call succeeds, whatever happened before, provided the
    vault is a module account without vesting locks and the owner is not a
    blocked address. *)
Theorem unlock_available ctx a d n (w : World bankkeeper.BankState) va perms p :
  coll_inv (w_coll w) -> vault_ok w -> VerifyAddressFormat a = true ->
  position_at (w_coll w) a d = Some p -> MintedZYTD p = 0 -> 0 < n <= Amount p ->
  ValidateDenom d = true ->
  bankkeeper.permAddrs cfg !! ModuleAccountName = Some (va, perms) ->
  bankkeeper.LockedCoins cfg ctx va = [] -> a ∉ bankkeeper.blockedAddrs cfg ->
  (forall x, 0 <= bankkeeper.GetBalance (w_bank w) x d < 2 ^ 255) ->
  exists w', UnlockCollateral ctx a d (Some n) w = (Ok tt, w').
Proof.
  intros Hi Hv Ha Hp Hm Hn Hd Hva Hl Hbl Hb.
  destruct (position_at_owner _ _ _ _ (inv_slots _ Hi) Ha Hp) as (Ho & Hden & _ & _).
  pose proof (amount_at_le_sum _ a d (inv_slots _ Hi) Ha) as Hsum.
  unfold amount_at in Hsum. rewrite Hp in Hsum. cbn in Hsum.
  assert (GetModuleAddress ModuleAccountName = Some va) as Hga.
  { cbn. unfold bankkeeper.ModuleAddress. by rewrite Hva. }
  pose proof (Hv va d Hga) as Hvb. cbn in Hvb. pose proof (Hb va) as Hbva.
  assert (2 ^ 255 < 2 ^ 256) as Hpow by done.
  destruct (bankkeeper.SendCoins_run cfg ctx va a d n (w_bank w) Hl Hd ltac:(lia) Hb) as [b' Hs].
  unfold UnlockCollateral. apply GetPosition_some in Hp. rewrite (bind_run _ _ _ _ _ Hp), Hm. cbn [Z.ltb].
  change (0 <? 0) with false. cbv iota. unfold or_panic. rewrite bind_ret.
  rewrite (proj2 (Z.ltb_ge (Amount p) n)) by lia. rewrite coins_of_run by (done || lia).
  rewrite bool_decide_false by lia. rewrite bind_ret.
  erewrite bind_run; [|apply map_err_run; unfold lift_bank; cbn; unfold bankkeeper.sendFromModuleToAccount;
    unfold bankkeeper.ModuleAddress; rewrite Hva; cbn; unfold bankkeeper.BlockedAddr; rewrite bool_decide_false by done; rewrite Hs; reflexivity].
  rewrite Int_Sub_fits by lia. rewrite bind_ret.
  set (w1 := set_bank b' w).
  assert (exists w2, (if Amount p - n =? 0 then deletePosition a d else SetPosition (with_Amount (Amount p - n) p)) w1
    = (Ok tt, w2) /\ total_locked (w_coll w2) d = total_locked (w_coll w) d) as (w2 & H2' & Ht2).
  { destruct (_ =? 0); [|unfold SetPosition; cbn [Owner with_Amount]; rewrite Ho]; eexists; (split; [done|]);
      [apply total_locked_remove|apply total_locked_put]. }
  rewrite (bind_run _ _ _ _ _ H2'), (bind_run _ _ _ _ _ (GetTotalLocked_run _ _)), Ht2.
  rewrite (inv_totals _ Hi), Int_Sub_fits by lia. by eexists.
Qed.
End Availability.

(** ** Concrete runs *)
Section Witnesses.
#[local] Existing Instance sdkmath.
#[local] Existing Instance bech32_toy.

(** A chain with the vault and the mint as module accounts. *)
Definition sample_cfg : bankkeeper.Config := {|
  bankkeeper.permAddrs := {[ ModuleAccountName := ("vault", []);
    stablecointypes.ModuleAccountName := ("mint", ["minter"; "burner"]) ]};
  bankkeeper.blockedAddrs := {[ "vault"; "mint" ]};
  bankkeeper.LockedCoins _ _ := [];
|}.
#[local] Instance sample_bank : BankKeeper bankkeeper.BankState := bankkeeper.bank_keeper sample_cfg.

#[local] Instance sample_laws : BankLaws bankkeeper.BankState := bankkeeper.bank_laws sample_cfg.

(** "alice" holds 1000 uzytc; the default assets are registered. *)
Definition rich_bank : bankkeeper.BankState :=
  bankkeeper.mkBankState {[ ("alice", "uzytc") := 1000 ]} {[ "uzytc" := 1000 ]} ∅.
Definition genesis_world : World bankkeeper.BankState :=
  snd (InitGenesis DefaultGenesis (mkWorld rich_bank ∅ ∅ ∅ [])).
Definition locked_world : World bankkeeper.BankState :=
  snd (LockCollateral (mkCtx 7 70) "alice" "uzytc" (Some 400) genesis_world).

Lemma genesis_world_assets k v : w_coll genesis_world !! k = Some v -> exists j, v = VAsset j.
Proof.
  intros Hk. assert (map_Forall (fun _ v => match v with VAsset _ => True | _ => False end) (w_coll genesis_world)) as Hm.
  { apply map_Forall_to_list. vm_compute. repeat constructor. }
  specialize (Hm _ _ Hk). destruct v; by eauto.
Qed.

Lemma genesis_world_inv : coll_inv (w_coll genesis_world) /\ vault_ok genesis_world.
Proof.
  assert (forall d, locked_sum (w_coll genesis_world) d = 0) as Hz.
  { intros d. apply locked_sum_none. intros k p (j & [=])%genesis_world_assets. }
  split; [split|].
  - apply map_Forall_to_list. vm_compute. repeat constructor; discriminate.
  - intros d. rewrite Hz. unfold total_locked.
    destruct (w_coll genesis_world !! lockedKey d) as [v|] eqn:E; [|done].
    by apply genesis_world_assets in E as [j ->].
  - intros va d _. rewrite Hz. cbn. unfold bankkeeper.GetBalance. cbn.
    change (bankkeeper.balances _) with (bankkeeper.balances rich_bank). cbn [bankkeeper.balances rich_bank].
    destruct (_ !! _) as [z|] eqn:E; [|done].
    apply lookup_singleton_Some in E as [_ <-]. done.
Qed.

Lemma LockCollateral_effect_witness :
  bk_balance (w_bank locked_world) "vault" "uzytc" = bk_balance (w_bank genesis_world) "vault" "uzytc" + 400.
Proof.
  refine (proj1 (proj2 (proj2 (LockCollateral_effect (mkCtx 7 70) "alice" "uzytc" 400 genesis_world tt locked_world
    "vault" _ (proj1 genesis_world_inv) (proj2 genesis_world_inv) _ _ _)))).
  - vm_compute. reflexivity.
  - reflexivity.
  - reflexivity.
  - discriminate.
Defined.

(** The same position with debt. *)
Definition indebted_world : World bankkeeper.BankState :=
  snd (UpdateMintedZYTD "alice" "uzytc" 5 locked_world).

Lemma UnlockCollateral_debt_denied_witness :
  exists e, UnlockCollateral (mkCtx 8 80) "alice" "uzytc" (Some 1) indebted_world = (Err e, indebted_world) /\
    errors_Is e ModuleName 1404 = true.
Proof.
  apply (UnlockCollateral_debt_denied (mkCtx 8 80) "alice" "uzytc" (Some 1) indebted_world
    (mkCollateralPosition (AccAddress_String "alice") "uzytc" 400 70 5)).
  - vm_compute. reflexivity.
  - reflexivity.
Defined.

Definition unlocked_world : World bankkeeper.BankState :=
  snd (UnlockCollateral (mkCtx 8 80) "alice" "uzytc" (Some 400) locked_world).

Lemma lock_unlock_roundtrip_witness :
  bk_balance (w_bank locked_world) "alice" "uzytc" = 600 /\
  bk_balance (w_bank unlocked_world) "alice" "uzytc" = bk_balance (w_bank genesis_world) "alice" "uzytc".
Proof.
  split; [vm_compute; reflexivity|].
  refine (proj1 (lock_unlock_roundtrip (mkCtx 7 70) (mkCtx 8 80) "alice" "uzytc" 400 genesis_world tt locked_world tt
    unlocked_world _ _ (proj1 genesis_world_inv) _) "alice" "uzytc").
  - vm_compute. reflexivity.
  - vm_compute. reflexivity.
  - reflexivity.
Defined.

Definition sample_transfer : IBCTransfer string bool := {|
  ack_Success b := b;
  UnmarshalData p := Some (mkPacketData p "10" "bob");
  GetDenomPrefix _ := "ibc/";
  ReceiverChainIsSource _ _ := false;
|}.
Definition accepting_module : IBCModule bankkeeper.BankState unit string bool :=
  mkIBCModule (fun _ => ret "") (fun _ => ret "") (fun _ => ret tt) (fun _ => ret tt) (fun _ => ret tt)
    (fun _ => ret tt) (fun _ _ => ret true) (fun _ _ => ret tt) (fun _ => ret tt).

Lemma middleware_transparent_witness :
  exists evs, OnRecvPacket (IBCMiddleware sample_transfer accepting_module) (mkCtx 7 70) "ATOM" genesis_world =
    (Ok true, mkWorld (w_bank genesis_world) (w_oracle genesis_world) (w_coll genesis_world)
       (w_sc genesis_world) (w_events genesis_world ++ evs)).
Proof.
  destruct (middleware_transparent sample_transfer accepting_module (mkCtx 7 70) "ATOM" genesis_world (Ok true)
    genesis_world eq_refl) as (evs & E & _).
  exists evs. exact E.
Defined.

Lemma genesis_roundtrip_witness :
  exists gs m', ExportGenesis genesis_world = (Ok gs, genesis_world) /\
    InitGenesis gs (mkWorld rich_bank ∅ ∅ ∅ []) = (Ok tt, set_coll m' (mkWorld rich_bank ∅ ∅ ∅ [])).
Proof.
  destruct (genesis_roundtrip genesis_world (mkWorld rich_bank ∅ ∅ ∅ []) (proj1 genesis_world_inv))
    as (gs & m' & E1 & E2 & _).
  - intros d. rewrite locked_sum_none; [reflexivity|]. intros k p (j & [=])%genesis_world_assets.
  - reflexivity.
  - exists gs, m'. split; [exact E1|exact E2].
Defined.

Lemma locked_world_inv : coll_inv (w_coll locked_world) /\ vault_ok locked_world.
Proof.
  assert (LockCollateral (mkCtx 7 70) "alice" "uzytc" (Some 400) genesis_world = (Ok tt, locked_world)) as Hr
    by (vm_compute; reflexivity).
  destruct (LockCollateral_inv _ _ _ _ _ _ _ Hr (proj1 genesis_world_inv) eq_refl) as [Hi Hv].
  split; [exact Hi|]. apply Hv; [discriminate|apply genesis_world_inv].
Qed.

Lemma locked_world_balances x : 0 <= bankkeeper.GetBalance (w_bank locked_world) x "uzytc" < 2 ^ 255.
Proof.
  assert (map_Forall (fun _ z => 0 <= z <= 1000) (bankkeeper.balances (w_bank locked_world))) as Hm.
  { apply map_Forall_to_list. vm_compute. repeat constructor; discriminate. }
  unfold bankkeeper.GetBalance. assert (1000 < 2 ^ 255) by done.
  destruct (_ !! _) as [z|] eqn:E; cbn; [|lia]. specialize (Hm _ _ E). cbn in Hm. lia.
Qed.

Lemma unlock_available_witness :
  exists w', UnlockCollateral (mkCtx 8 80) "alice" "uzytc" (Some 100) locked_world = (Ok tt, w').
Proof.
  apply (unlock_available sample_cfg (mkCtx 8 80) "alice" "uzytc" 100 locked_world "vault" []
    (mkCollateralPosition (AccAddress_String "alice") "uzytc" 400 70 0) (proj1 locked_world_inv)
    (proj2 locked_world_inv)).
  - reflexivity.
  - vm_compute. reflexivity.
  - reflexivity.
  - split; [reflexivity|discriminate].
  - reflexivity.
  - reflexivity.
  - reflexivity.
  - apply (bool_decide_unpack _). vm_compute. exact I.
  - exact locked_world_balances.
Defined.
End Witnesses.
End collateralkeeper.
