(* ===== verification/Pqc.v ===== *)
(** Pqc: x/privacy/pqc/signature.go over its library.

    circl's Dilithium5 and golang.org/x/crypto/sha3 are not part of the
    repository: they are the fields of the class [Crypto]. *)

From Stdlib Require Import ZArith Lia Ascii String.
From stdpp Require Import base list strings.
From S2P Require Import Prelude.

Open Scope Z_scope.

Class Crypto : Type := {
  sha3_256 : string -> string;
  (** circl/sign/dilithium/mode5 *)
  mode5_PublicKeySize : nat;
  mode5_PrivateKeySize : nat;
  mode5_SignatureSize : nat;
  mode5_SignTo : string -> string -> string;
  mode5_Verify : string -> string -> string -> bool;
}.

(** What signing promises: a signature has the documented size, and verifies
    under the key pair's public key. *)
Class CryptoLaws `{Crypto} (keypair : string -> string -> Prop) : Prop := {
  keypair_sizes pk sk : keypair pk sk ->
    String.length pk = mode5_PublicKeySize /\ String.length sk = mode5_PrivateKeySize;
  SignTo_size sk msg : String.length (mode5_SignTo sk msg) = mode5_SignatureSize;
  SignTo_verifies pk sk msg : keypair pk sk -> mode5_Verify pk msg (mode5_SignTo sk msg) = true;
}.

Module pqc.
Section Signature.
Context `{Crypto}.

Definition Sign (message privKeyBytes : string) : outcome string :=
  if negb (String.length privKeyBytes =? mode5_PrivateKeySize)%nat
  then Err (Errorf "dilithium5 sign: invalid private key length")
  else Ok (mode5_SignTo privKeyBytes message).

Definition Verify (message signature pubKeyBytes : string) : bool :=
  if negb (String.length pubKeyBytes =? mode5_PublicKeySize)%nat then false
  else if negb (String.length signature =? mode5_SignatureSize)%nat then false
  else mode5_Verify pubKeyBytes message signature.
End Signature.

(** encoding/binary.LittleEndian.PutUint64. *)
Fixpoint le_bytes (n : nat) (z : Z) : string :=
  match n with
  | O => EmptyString
  | S n => String (ascii_of_N (Z.to_N (z mod 256))) (le_bytes n (z / 256))
  end.

Definition PutUint64 (z : Z) : string := le_bytes 8 (wrap_u64 z).

(** encoding/hex.EncodeToString. *)
Definition hexdigit (n : nat) : ascii := if (n <? 10)%nat then ascii_of_nat (48 + n) else ascii_of_nat (87 + n).

Fixpoint EncodeToString (s : string) : string :=
  match s with
  | EmptyString => EmptyString
  | String c s =>
      let n := nat_of_ascii c in
      String (hexdigit (n / 16)) (String (hexdigit (n mod 16)) (EncodeToString s))
  end.

Lemma ascii_of_N_byte z z' :
  0 <= z < 256 -> 0 <= z' < 256 -> ascii_of_N (Z.to_N z) = ascii_of_N (Z.to_N z') -> z = z'.
Proof.
  intros ? ? E%(f_equal N_of_ascii). rewrite !N_ascii_embedding in E by lia. lia.
Qed.

Lemma le_bytes_inj n z z' : 0 <= z < 256 ^ Z.of_nat n -> 0 <= z' < 256 ^ Z.of_nat n ->
  le_bytes n z = le_bytes n z' -> z = z'.
Proof.
  revert z z'. induction n as [|n IH]; intros z z' Hz Hz' E; [cbn in *; lia|].
  rewrite Nat2Z.inj_succ, Z.pow_succ_r in Hz, Hz' by lia. injection E as E1 E2.
  apply ascii_of_N_byte in E1; [|apply Z.mod_pos_bound; lia..].
  apply IH in E2; [|split; [apply Z.div_pos; lia|apply Z.div_lt_upper_bound; lia]..].
  rewrite (Z.div_mod z 256), (Z.div_mod z' 256) by lia. lia.
Qed.

Lemma le_bytes_length n z : String.length (le_bytes n z) = n.
Proof. revert z. induction n as [|n IH]; intros z; cbn; [done|]. by rewrite IH. Qed.

Lemma PutUint64_inj z z' : in_i64 z -> in_i64 z' -> PutUint64 z = PutUint64 z' -> z = z'.
Proof.
  unfold PutUint64, wrap_u64, in_i64, two64, two63. intros Hz Hz' E.
  apply le_bytes_inj in E; [|apply Z.mod_pos_bound; lia..].
  assert (z = z' + 18446744073709551616 * (z / 18446744073709551616 - z' / 18446744073709551616)) as Ez
    by (rewrite (Z.div_mod z 18446744073709551616), (Z.div_mod z' 18446744073709551616) at 1 by lia; lia).
  lia.
Qed.

Section SignatureTheorems.
Context `{CryptoLaws}.

(** A signature made with a key pair passes Verify, and Verify never passes a
    signature or a key of the wrong size. *)
Lemma Sign_Verify pk sk msg :
  keypair pk sk -> exists sig, Sign msg sk = Ok sig /\ Verify msg sig pk = true.
Proof.
  intros Hk. destruct (keypair_sizes _ _ Hk) as [Hp Hs]. exists (mode5_SignTo sk msg).
  unfold Sign, Verify. rewrite Hs, Hp, SignTo_size, !Nat.eqb_refl. cbn. by rewrite SignTo_verifies.
Qed.

Lemma Verify_nonempty msg pk : (0 < mode5_SignatureSize)%nat -> Verify msg "" pk = true -> False.
Proof.
  unfold Verify. intros Hs. destruct (negb _); [done|]. destruct mode5_SignatureSize; [lia|done].
Qed.
End SignatureTheorems.
End pqc.
