(* ===== verification/Migration.v ===== *)
(** Migration: the height-driven state machine of x/stablecoin/types/migration.go
    and the replay-protection decorator of x/stablecoin/ante/replay_protection.go.

    Theorems: the phase only ever advances, and the decorator lets a
    transaction through exactly when every ZYTD message of it expires within
    the next MaxExpirationWindow blocks, so that a captured transaction is dead
    six blocks later. *)

From Stdlib Require Import ZArith Lia String.
From stdpp Require Import base list strings.
From S2P Require Import Prelude Sdk Types.

Open Scope Z_scope.
Open Scope go_scope.
Import stablecointypes.

Module migration.

Definition GracePhaseLockHeight : Z := 20000.
Definition GracePhaseHardHeight : Z := 50000.

Definition ErrMigrationMintForbidden : err := Registered ModuleName 1610.
Definition ErrHardFreezeNoKey : err := Registered ModuleName 1611.
Definition ErrHardFreeze : err := Registered ModuleName 1612.

(** A uint8. *)
Definition MigrationPhase : Type := Z.
Definition MigrationPhase1 : MigrationPhase := 1.
Definition MigrationPhase2 : MigrationPhase := 2.
Definition MigrationPhase3 : MigrationPhase := 3.

Definition GetMigrationPhase (currentHeight : Z) : MigrationPhase :=
  if currentHeight <=? GracePhaseLockHeight then MigrationPhase1
  else if currentHeight <=? GracePhaseHardHeight then MigrationPhase2
  else MigrationPhase3.

Definition CheckMintAllowed (currentHeight : Z) : option err :=
  if GetMigrationPhase currentHeight =? MigrationPhase2 then Some ErrMigrationMintForbidden else None.

Definition CheckHardFreeze (currentHeight : Z) (hasPQCKey : bool) : option err :=
  if negb (GetMigrationPhase currentHeight =? MigrationPhase3) then None
  else if negb hasPQCKey then Some ErrHardFreezeNoKey
  else None.

Definition MigrationPhase_String (p : MigrationPhase) : string :=
  if p =? MigrationPhase1 then "Phase1-ActiveRegistration"
  else if p =? MigrationPhase2 then "Phase2-LockOnlyMigration"
  else if p =? MigrationPhase3 then "Phase3-HardEnforcement"
  else "Unknown".

Lemma GetMigrationPhase_cases h :
  (h <= 20000 /\ GetMigrationPhase h = 1) \/ (20000 < h <= 50000 /\ GetMigrationPhase h = 2) \/
  (50000 < h /\ GetMigrationPhase h = 3).
Proof.
  unfold GetMigrationPhase, GracePhaseLockHeight, GracePhaseHardHeight.
  destruct (Z.leb_spec h 20000); [by left|]. right.
  destruct (Z.leb_spec h 50000); [by left|]. by right.
Qed.

Lemma CheckMintAllowed_iff h : CheckMintAllowed h = None <-> GetMigrationPhase h <> 2.
Proof. unfold CheckMintAllowed, MigrationPhase2. destruct (Z.eqb_spec (GetMigrationPhase h) 2); naive_solver. Qed.

(** The migration only moves forward.  The phase never decreases with the
    height, mints are closed exactly in phase 2, and the key requirement, once
    it applies, applies at every later height. *)
Theorem migration_monotone h h' :
  h <= h' ->
  GetMigrationPhase h <= GetMigrationPhase h' /\
  (CheckMintAllowed h = Some ErrMigrationMintForbidden <-> 20000 < h <= 50000) /\
  (CheckHardFreeze h false = Some ErrHardFreezeNoKey ->
     CheckHardFreeze h' false = Some ErrHardFreezeNoKey) /\
  CheckHardFreeze h true = None.
Proof.
  intros Hle. unfold CheckMintAllowed, CheckHardFreeze, MigrationPhase2, MigrationPhase3.
  destruct (GetMigrationPhase_cases h) as [[? E]|[[? E]|[? E]]], (GetMigrationPhase_cases h') as [[? E']|[[? E']|[? E']]];
    try lia; rewrite E, E'; cbn; (split; [lia|]); (split; [split; intros; done || lia|]); by split.
Qed.

Lemma migration_monotone_witness : GetMigrationPhase 20000 <= GetMigrationPhase 20001.
Proof. exact (proj1 (migration_monotone 20000 20001 ltac:(lia))). Defined.

End migration.

(** ** The ante decorator *)
Module replay.

Definition MaxExpirationWindow : Z := 5.

Definition ErrExpirationTooFar : err := Registered ModuleName 1600.
Definition ErrExpirationPast : err := Registered ModuleName 1601.

(** The messages of a transaction. *)
Inductive Msg : Type :=
  | MMint (m : MsgMintZYTD)
  | MBurn (m : MsgBurnZYTD)
  | MLiquidate (m : MsgLiquidate)
  | MRegister (m : MsgRegisterZYTDKey)
  | MOther (typeURL : string).

(** The ExpirationBlockHeighter interface: which messages have it. *)
Definition GetExpirationBlockHeight (msg : Msg) : option Z :=
  match msg with
  | MMint m => Some (mint_ExpirationBlockHeight m)
  | MBurn m => Some (burn_ExpirationBlockHeight m)
  | MLiquidate m => Some (liq_ExpirationBlockHeight m)
  | MRegister m => Some (reg_ExpirationBlockHeight m)
  | MOther _ => None
  end.

Fixpoint check_msgs (currentHeight : Z) (msgs : list Msg) : option err :=
  match msgs with
  | [] => None
  | msg :: msgs =>
      match GetExpirationBlockHeight msg with
      | None => check_msgs currentHeight msgs
      | Some exp =>
          if exp <? currentHeight then Some (Wrapf "msg" ErrExpirationPast) else
          let maxAllowed := wrap_i64 (currentHeight + MaxExpirationWindow) in
          if maxAllowed <? exp then Some (Wrapf "msg" ErrExpirationTooFar) else
          check_msgs currentHeight msgs
      end
  end.

Definition AnteHandle {S A} (ctx : Ctx) (tx : list Msg) (simulate : bool)
    (next : Ctx -> list Msg -> bool -> M S A) : M S A :=
  if simulate then next ctx tx simulate else
  match check_msgs (BlockHeight ctx) tx with
  | Some e => throw e
  | None => next ctx tx simulate
  end.

(** The expiration a message carries, if any, is in the window at [h]. *)
Definition in_window (h : Z) (msg : Msg) : Prop :=
  match GetExpirationBlockHeight msg with
  | Some exp => h <= exp <= h + MaxExpirationWindow
  | None => True
  end.

Lemma check_msgs_spec h msgs :
  in_i64 (h + MaxExpirationWindow) -> check_msgs h msgs = None <-> Forall (in_window h) msgs.
Proof.
  intros Hh. unfold in_window. induction msgs as [|m msgs IH]; cbn; [by split|].
  rewrite Forall_cons. rewrite wrap_i64_id by done.
  destruct (GetExpirationBlockHeight m) as [e|]; [|by rewrite IH; naive_solver].
  destruct (Z.ltb_spec e h); [naive_solver lia|].
  destruct (Z.ltb_spec (h + MaxExpirationWindow) e); [naive_solver lia|].
  rewrite IH. naive_solver lia.
Qed.

(** Replay protection.  Outside simulation the decorator runs the rest of
    the chain exactly when every ZYTD message expires between the current
    height and MaxExpirationWindow blocks later, and otherwise fails without
    touching the state; so a transaction with a ZYTD message that was accepted
    at one height is rejected at every height more than MaxExpirationWindow
    blocks later. *)
Theorem replay_window {S A} ctx tx (next : Ctx -> list Msg -> bool -> M S A) s :
  in_i64 (BlockHeight ctx + MaxExpirationWindow) ->
  (Forall (in_window (BlockHeight ctx)) tx -> AnteHandle ctx tx false next s = next ctx tx false s) /\
  (~ Forall (in_window (BlockHeight ctx)) tx -> exists e, AnteHandle ctx tx false next s = (Err e, s)) /\
  (forall ctx' msg exp, msg ∈ tx -> GetExpirationBlockHeight msg = Some exp ->
     Forall (in_window (BlockHeight ctx)) tx ->
     in_i64 (BlockHeight ctx' + MaxExpirationWindow) ->
     BlockHeight ctx + MaxExpirationWindow < BlockHeight ctx' ->
     exists e, AnteHandle ctx' tx false next s = (Err e, s)).
Proof.
  intros Hh. assert (Hrej : forall c, in_i64 (BlockHeight c + MaxExpirationWindow) ->
    ~ Forall (in_window (BlockHeight c)) tx -> exists e, AnteHandle c tx false next s = (Err e, s)).
  { intros c Hc Hn. unfold AnteHandle. destruct (check_msgs _ _) as [e|] eqn:E; [by eexists|].
    by apply check_msgs_spec in E. }
  split_and!.
  - intros Hw%check_msgs_spec; [|done]. unfold AnteHandle. by rewrite Hw.
  - by apply Hrej.
  - intros ctx' msg exp Hin Hexp Hw Hh' Hlt. apply Hrej; [done|]. rewrite !Forall_forall in *.
    intros Hw'. specialize (Hw _ Hin). specialize (Hw' _ Hin). unfold in_window in *. rewrite Hexp in *. lia.
Qed.

Definition sample_burn : Msg := MBurn (mkMsgBurnZYTD "zyth1" "uzytc" (Some 1) 12 "" "").

Lemma replay_window_witness :
  AnteHandle (mkCtx 10 0) [sample_burn] false (fun _ _ _ => ret tt) 0 = ret tt 0.
Proof.
  refine (proj1 (replay_window (mkCtx 10 0) [sample_burn] (fun _ _ _ => ret tt) 0 _) _).
  - vm_compute. split; [discriminate|reflexivity].
  - repeat constructor; vm_compute; discriminate.
Defined.

End replay.
