(* ===== verification/Stablecoin.v ===== *)
(** Stablecoin: x/stablecoin (keeper/keeper.go, keeper/msg_server.go,
    keeper/query_server.go, genesis.go).

    Mint records are stored under [mint/<owner>/<denom>], the total supply
    under [supply], Dilithium5 keys under [pqckey/<owner>].  The handlers call
    the collateral keeper, the oracle keeper and the bank, as the code does.
    Theorems: what a mint does and that it is over-collateralised; the records,
    the debts of the positions and the total supply agree in every reachable
    state; the migration phases and registered keys are enforced; BurnZYTD and
    Liquidate cannot succeed on a position with debt. *)

From Stdlib Require Import ZArith Lia Ascii String.
From stdpp Require Import base gmap sets list strings fin_maps pretty.
From S2P Require Import Prelude Sdk Types Bank Oracle Collateral Pqc Migration.

Open Scope Z_scope.
Open Scope go_scope.
Import stablecointypes.

Module stablecoinkeeper.
Import migration.

Section Keeper.
Context {B : Type} `{SdkMath} `{Bech32} `{BankKeeper B} `{Crypto}.

Definition sc_get (k : string) : M (World B) (option value) :=
  reads (fun w => w_sc w !! k).
Definition sc_set (k : string) (v : value) : M (World B) unit :=
  modify (fun w => set_sc (<[k:=v]> (w_sc w)) w).
Definition sc_delete (k : string) : M (World B) unit :=
  modify (fun w => set_sc (delete k (w_sc w)) w).

Definition GetParams : M (World B) StablecoinParams :=
  let! bz := sc_get ParamsKey in
  match bz with
  | Some (VParams p) => ret p
  | _ => ret DefaultStablecoinParams
  end.

Definition SetParams (params : StablecoinParams) : M (World B) unit := sc_set ParamsKey (VParams params).

(** *** Mint records *)

Definition mintRecordKey (owner ibcDenom : string) : string :=
  MintRecordPrefix +:+ AccAddress_String owner +:+ "/" +:+ ibcDenom.

Definition GetMintRecord (owner ibcDenom : string) : M (World B) MintRecord :=
  let! bz := sc_get (mintRecordKey owner ibcDenom) in
  match bz with
  | None => throw ErrMintRecordNotFound
  | Some (VRecord r) => ret r
  | Some _ => throw (Errorf "unmarshal mint record")
  end.

(** An owner that does not parse is the nil address. *)
Definition SetMintRecord (record : MintRecord) : M (World B) unit :=
  let owner := default "" (AccAddressFromBech32 (mr_Owner record)) in
  sc_set (mintRecordKey owner (mr_IBCDenom record)) (VRecord record).

Definition DeleteMintRecord (owner ibcDenom : string) : M (World B) unit :=
  sc_delete (mintRecordKey owner ibcDenom).

(** *** Total supply *)

Definition GetTotalSupply : M (World B) Z :=
  let! bz := sc_get TotalSupplyKey in
  match bz with
  | Some (VSupply z) => ret z
  | _ => ret 0
  end.

Definition SetTotalSupply (supply : Z) : M (World B) unit := sc_set TotalSupplyKey (VSupply supply).

(** *** Collateral ratio *)

Definition GetCollateralRatio (owner ibcDenom : string) : M (World B) Z :=
  let! record := GetMintRecord owner ibcDenom in
  if Minted record =? 0 then ret (NewDecFromInt 999) else
  let! position := map_err (Wrapf "get position") (collateralkeeper.GetPosition owner ibcDenom) in
  let! twap := map_err (fun _ => ErrOraclePriceUnavailable) (oraclekeeper.GetTWAP ibcDenom) in
  let! collateralUSD := or_panic (Dec_Mul (NewDecFromInt (ibccollateraltypes.Amount position))
                                    (oracletypes.TWAP twap)) in
  or_panic (Dec_Quo collateralUSD (NewDecFromInt (Minted record))).

Definition GetMaxMintable (ibcDenom : string) (collateralAmount : option Z) : M (World B) Z :=
  let! asset := map_err (Wrapf "get collateral asset") (collateralkeeper.GetCollateralAsset ibcDenom) in
  let! twap := map_err (fun _ => ErrOraclePriceUnavailable) (oraclekeeper.GetTWAP ibcDenom) in
  let! collateralAmount := or_panic collateralAmount in
  let! collateralUSD := or_panic (Dec_Mul (NewDecFromInt collateralAmount) (oracletypes.TWAP twap)) in
  let! maxMintable := or_panic (Dec_Quo collateralUSD (ibccollateraltypes.MinRatio asset)) in
  or_panic (Dec_TruncateInt maxMintable).

(** *** Dilithium5 key registry *)

Definition pqcKeyRegistryKey (owner : string) : string := ZYTDKeyRegistryPrefix +:+ AccAddress_String owner.

(** The store panics on a nil value. *)
Definition SetZYTDPQCKey (owner pubkey : string) : M (World B) unit :=
  if bool_decide (pubkey = "") then panic else sc_set (pqcKeyRegistryKey owner) (VBytes pubkey).

Definition GetZYTDPQCKey (owner : string) : M (World B) string :=
  let! bz := sc_get (pqcKeyRegistryKey owner) in
  match bz with
  | Some (VBytes k) => ret k
  | _ => throw ErrPQCKeyNotRegistered
  end.

Definition HasZYTDPQCKey (owner : string) : M (World B) bool :=
  reads (fun w => bool_decide (is_Some (w_sc w !! pqcKeyRegistryKey owner))).

(** *** msg_server.go *)

Definition buildZYTDMsgHash (sender ibcDenom : string) (expirationBlockHeight : Z) : string :=
  sha3_256 ("zytherion/zytd/v1/" +:+ sender +:+ ibcDenom +:+ pqc.PutUint64 expirationBlockHeight).

Definition verifyZYTDPQCSig (ctx : Ctx) (sender ibcDenom : string) (expiration : Z)
    (providedPubKey providedSig : string) : M (World B) unit :=
  let currentHeight := BlockHeight ctx in
  let phase := GetMigrationPhase currentHeight in
  let! key := try (GetZYTDPQCKey sender) in
  let hasKey := match key with inl _ => true | inr _ => false end in
  let registeredKey := match key with inl k => k | inr _ => "" end in
  check (CheckHardFreeze currentHeight hasKey) ;;!
  if negb hasKey && ((phase =? MigrationPhase1) || (phase =? MigrationPhase2)) then ret tt else
  if negb (bool_decide (registeredKey = providedPubKey)) then throw ErrPQCKeyMismatch else
  let msgHash := buildZYTDMsgHash sender ibcDenom expiration in
  if negb (pqc.Verify msgHash providedSig providedPubKey)
  then (if phase =? MigrationPhase3 then throw ErrHardFreeze else throw ErrInvalidPQCSig)
  else ret tt.

Definition MintZYTD (ctx : Ctx) (req : MsgMintZYTD) : M (World B) Z :=
  match AccAddressFromBech32 (mint_Sender req) with
  | None => throw (Errorf "invalid sender address")
  | Some sender =>
      let ibcDenom := mint_IbcDenom req in
      check (CheckMintAllowed (BlockHeight ctx)) ;;!
      verifyZYTDPQCSig ctx sender ibcDenom (mint_ExpirationBlockHeight req)
        (mint_Dilithium5PubKey req) (mint_Dilithium5Sig req) ;;!
      let! asset := map_err (Wrapf "collateral asset not found") (collateralkeeper.GetCollateralAsset ibcDenom) in
      if negb (ibccollateraltypes.IsActive asset) then throw (Errorf "collateral asset is not active") else
      let! twap := map_err (fun _ => ErrOraclePriceUnavailable) (oraclekeeper.GetTWAP ibcDenom) in
      let! collateralAmount := or_panic (mint_CollateralAmount req) in
      let! collateralUSD := or_panic (Dec_Mul (NewDecFromInt collateralAmount) (oracletypes.TWAP twap)) in
      let! ratio := or_panic (Dec_Quo collateralUSD (ibccollateraltypes.MinRatio asset)) in
      let! maxMintable := or_panic (Dec_TruncateInt ratio) in
      let! requested := or_panic (mint_RequestedZytd req) in
      if maxMintable <? requested then throw ErrExceedsCollateralValue else
      map_err (Wrapf "lock collateral")
        (collateralkeeper.LockCollateral ctx sender ibcDenom (Some collateralAmount)) ;;!
      let! mintCoins := or_panic (coins_of ZYTDDenom requested) in
      map_err (Wrapf "mint ZYTD") (lift_bank (MintCoins ctx ModuleAccountName mintCoins)) ;;!
      map_err (Wrapf "send minted ZYTD to sender")
        (lift_bank (SendCoinsFromModuleToAccount ctx ModuleAccountName sender mintCoins)) ;;!
      map_err (Wrapf "update minted ZYTD") (collateralkeeper.UpdateMintedZYTD sender ibcDenom requested) ;;!
      let! existing := try (GetMintRecord sender ibcDenom) in
      let! record :=
        match existing with
        | inl r =>
            let! m := or_panic (Int_Add (Minted r) requested) in
            let! usd := or_panic (Dec_Add (CollateralUSD r) collateralUSD) in
            ret (mkMintRecord (mint_Sender req) ibcDenom m usd (MintedAt r))
        | inr _ => ret (mkMintRecord (mint_Sender req) ibcDenom requested collateralUSD (BlockHeight ctx))
        end in
      SetMintRecord record ;;!
      let! supply := GetTotalSupply in
      let! newSupply := or_panic (Int_Add supply requested) in
      SetTotalSupply newSupply ;;!
      let! collateralRatio := or_panic (Dec_Quo collateralUSD (NewDecFromInt requested)) in
      EmitEvent (NewEvent EventTypeMintZYTD
        [("owner", AStr (mint_Sender req)); ("ibc_denom", AStr ibcDenom);
         ("collateral_amount", AInt collateralAmount); ("zytd_amount", AInt requested);
         ("collateral_ratio", ADec collateralRatio)]) ;;!
      ret requested
  end.

Definition BurnZYTD (ctx : Ctx) (req : MsgBurnZYTD) : M (World B) Z :=
  match AccAddressFromBech32 (burn_Sender req) with
  | None => throw (Errorf "invalid sender address")
  | Some sender =>
      let ibcDenom := burn_IbcDenom req in
      verifyZYTDPQCSig ctx sender ibcDenom (burn_ExpirationBlockHeight req)
        (burn_Dilithium5PubKey req) (burn_Dilithium5Sig req) ;;!
      let! record := map_err (fun _ => ErrMintRecordNotFound) (GetMintRecord sender ibcDenom) in
      let! zytdAmount := or_panic (burn_ZytdAmount req) in
      if Minted record <? zytdAmount then throw ErrExceedsMintedAmount else
      let! burnCoins := or_panic (coins_of ZYTDDenom zytdAmount) in
      map_err (Wrapf "send ZYTD to module")
        (lift_bank (SendCoinsFromAccountToModule ctx sender ModuleAccountName burnCoins)) ;;!
      map_err (Wrapf "burn ZYTD") (lift_bank (BurnCoins ctx ModuleAccountName burnCoins)) ;;!
      let! position := map_err (Wrapf "get collateral position") (collateralkeeper.GetPosition sender ibcDenom) in
      let! burnRatio := or_panic (Dec_Quo (NewDecFromInt zytdAmount) (NewDecFromInt (Minted record))) in
      let! share := or_panic (Dec_MulInt burnRatio (ibccollateraltypes.Amount position)) in
      let! returnAmount := or_panic (Dec_TruncateInt share) in
      map_err (Wrapf "unlock collateral")
        (collateralkeeper.UnlockCollateral ctx sender ibcDenom (Some returnAmount)) ;;!
      map_err (Wrapf "update minted ZYTD") (collateralkeeper.UpdateMintedZYTD sender ibcDenom (- zytdAmount)) ;;!
      let! newMinted := or_panic (Int_Sub (Minted record) zytdAmount) in
      (if newMinted =? 0 then DeleteMintRecord sender ibcDenom
       else
         let! keep := or_panic (Dec_Sub dec_one burnRatio) in
         let! usd := or_panic (Dec_Mul (CollateralUSD record) keep) in
         SetMintRecord (mkMintRecord (mr_Owner record) (mr_IBCDenom record) newMinted usd (MintedAt record))) ;;!
      let! supply := GetTotalSupply in
      let! newSupply := or_panic (Int_Sub supply zytdAmount) in
      SetTotalSupply (if newSupply <? 0 then 0 else newSupply) ;;!
      EmitEvent (NewEvent EventTypeBurnZYTD
        [("owner", AStr (burn_Sender req)); ("ibc_denom", AStr ibcDenom);
         ("zytd_amount", AInt zytdAmount); ("collateral_amount", AInt returnAmount)]) ;;!
      ret returnAmount
  end.

(** [_ = bankKeeper.Send...]: the error is dropped. *)
Definition ignore_error (c : M (World B) unit) : M (World B) unit :=
  let! r := try c in ret tt.

Definition Liquidate (ctx : Ctx) (req : MsgLiquidate) : M (World B) Z :=
  match AccAddressFromBech32 (liq_Liquidator req) with
  | None => throw (Errorf "invalid liquidator address")
  | Some liquidator =>
  match AccAddressFromBech32 (liq_TargetOwner req) with
  | None => throw (Errorf "invalid target_owner address")
  | Some targetOwner =>
      let ibcDenom := liq_IbcDenom req in
      verifyZYTDPQCSig ctx liquidator ibcDenom (liq_ExpirationBlockHeight req)
        (liq_Dilithium5PubKey req) (liq_Dilithium5Sig req) ;;!
      let! position := map_err (Wrapf "get target position") (collateralkeeper.GetPosition targetOwner ibcDenom) in
      let! asset := map_err (Wrapf "get collateral asset") (collateralkeeper.GetCollateralAsset ibcDenom) in
      let! twap := map_err (fun _ => ErrOraclePriceUnavailable) (oraclekeeper.GetTWAP ibcDenom) in
      let amount := ibccollateraltypes.Amount position in
      let debtZYTD := ibccollateraltypes.MintedZYTD position in
      let! collateralValue := or_panic (Dec_Mul (NewDecFromInt amount) (oracletypes.TWAP twap)) in
      if debtZYTD =? 0 then throw ErrPositionHealthy else
      let! currentRatio := or_panic (Dec_Quo collateralValue (NewDecFromInt debtZYTD)) in
      if ibccollateraltypes.LiquidationThreshold asset <=? currentRatio then throw ErrPositionHealthy else
      let! params := GetParams in
      let! debtInCollateral := or_panic (Dec_Quo (NewDecFromInt debtZYTD) (oracletypes.TWAP twap)) in
      let! onePlus := or_panic (Dec_Add dec_one (LiquidationPenalty params)) in
      let! seizeDec := or_panic (Dec_Mul debtInCollateral onePlus) in
      let! seize := or_panic (Dec_TruncateInt seizeDec) in
      let collateralToSeize := if amount <? seize then amount else seize in
      let! rewardDec := or_panic (Dec_Mul debtInCollateral (LiquidatorReward params)) in
      let! reward := or_panic (Dec_TruncateInt rewardDec) in
      let liquidatorReward := if collateralToSeize <? reward then collateralToSeize else reward in
      let! protocolFee := or_panic (Int_Sub collateralToSeize liquidatorReward) in
      let! debtCoins := or_panic (coins_of ZYTDDenom debtZYTD) in
      map_err (Wrapf "liquidator send ZYTD")
        (lift_bank (SendCoinsFromAccountToModule ctx liquidator ModuleAccountName debtCoins)) ;;!
      map_err (Wrapf "burn liquidated ZYTD") (lift_bank (BurnCoins ctx ModuleAccountName debtCoins)) ;;!
      map_err (Wrapf "unlock seized collateral")
        (collateralkeeper.UnlockCollateral ctx targetOwner ibcDenom (Some collateralToSeize)) ;;!
      when (0 <? liquidatorReward)
        (let! rewardCoins := or_panic (coins_of ibcDenom liquidatorReward) in
         ignore_error (lift_bank (SendCoinsFromModuleToAccount ctx ModuleAccountName liquidator rewardCoins))) ;;!
      when (0 <? protocolFee)
        (match AccAddressFromBech32 (ProtocolFeeReceiver params) with
         | None => ret tt
         | Some feeReceiver =>
             let! feeCoins := or_panic (coins_of ibcDenom protocolFee) in
             ignore_error (lift_bank (SendCoinsFromModuleToAccount ctx ModuleAccountName feeReceiver feeCoins))
         end) ;;!
      map_err (Wrapf "close liquidated position")
        (collateralkeeper.UpdateMintedZYTD targetOwner ibcDenom (- debtZYTD)) ;;!
      DeleteMintRecord targetOwner ibcDenom ;;!
      let! supply := GetTotalSupply in
      let! newSupply := or_panic (Int_Sub supply debtZYTD) in
      SetTotalSupply (if newSupply <? 0 then 0 else newSupply) ;;!
      EmitEvent (NewEvent EventTypeLiquidation
        [("liquidator", AStr (liq_Liquidator req)); ("target", AStr (liq_TargetOwner req));
         ("ibc_denom", AStr ibcDenom); ("zytd_amount", AInt debtZYTD);
         ("collateral_amount", AInt collateralToSeize)]) ;;!
      ret collateralToSeize
  end
  end.

Definition RegisterZYTDKey (ctx : Ctx) (req : MsgRegisterZYTDKey) : M (World B) string :=
  match AccAddressFromBech32 (reg_Sender req) with
  | None => throw (Errorf "invalid sender address")
  | Some sender =>
      SetZYTDPQCKey sender (reg_Dilithium5PubKey req) ;;!
      let pubKeyHash := pqc.EncodeToString (sha3_256 (reg_Dilithium5PubKey req)) in
      let phase := GetMigrationPhase (BlockHeight ctx) in
      EmitEvent (NewEvent "register_zytd_key"
        [("sender", AStr (reg_Sender req)); ("dilithium5_key_hash", AStr pubKeyHash);
         ("migration_phase", AStr (MigrationPhase_String phase)); ("block_height", AInt (BlockHeight ctx))]) ;;!
      ret pubKeyHash
  end.

(** *** Queries and genesis *)

Definition QueryMintRecord (owner ibcDenom : string) : M (World B) MintRecord :=
  match AccAddressFromBech32 owner with
  | None => throw (Errorf "invalid owner address")
  | Some addr => GetMintRecord addr ibcDenom
  end.

Definition QueryCollateralRatio (owner ibcDenom : string) : M (World B) Z :=
  match AccAddressFromBech32 owner with
  | None => throw (Errorf "invalid owner address")
  | Some addr => GetCollateralRatio addr ibcDenom
  end.

Definition QueryTotalSupply : M (World B) Z := GetTotalSupply.

Definition QueryMaxMintable (ibcDenom : string) (collateralAmount : option Z) : M (World B) Z :=
  GetMaxMintable ibcDenom collateralAmount.

(** genesis.go; the total supply travels as a decimal string, read back with
    sdk.NewIntFromString ([parse], cosmossdk.io/math). *)
Record GenesisState : Type := mkGenesisState {
  Params : StablecoinParams;
  MintRecords : list MintRecord;
  TotalSupply : string;
}.

Definition DefaultGenesis : GenesisState :=
  {| Params := DefaultStablecoinParams; MintRecords := []; TotalSupply := "0" |}.

Definition ValidateGenesis (gs : GenesisState) : outcome unit :=
  if bool_decide (p_ZYTDDenom (Params gs) = "") then Err (Errorf "stablecoin genesis: ZYTDDenom cannot be empty")
  else Ok tt.

Definition InitGenesis (parse : string -> option Z) (gs : GenesisState) : M (World B) unit :=
  SetParams (Params gs) ;;!
  let supply := if bool_decide (TotalSupply gs = "") then 0 else default 0 (parse (TotalSupply gs)) in
  SetTotalSupply supply ;;!
  for_each (MintRecords gs) SetMintRecord.

Definition records_of (m : gmap string value) : list MintRecord :=
  omap (fun kv => match kv.2 with VRecord r => Some r | _ => None end) (kv_prefix_iter MintRecordPrefix m).

Definition ExportGenesis : M (World B) GenesisState :=
  let! params := GetParams in
  let! supply := GetTotalSupply in
  let! m := reads w_sc in
  ret {| Params := params; MintRecords := records_of m; TotalSupply := pretty supply |}.
End Keeper.

(** ** The invariant of the store *)
Section Lemmas.
Context {B : Type} `{SdkMathLaws} `{Bech32Laws} `{BankLaws B} `{Crypto}.
Implicit Types (w : World B) (m : gmap string value).

Lemma mintRecordKey_inj a d a' d' :
  VerifyAddressFormat a = true -> VerifyAddressFormat a' = true ->
  mintRecordKey a d = mintRecordKey a' d' -> a = a' /\ d = d'.
Proof.
  intros Ha Ha' E. unfold mintRecordKey in E. apply string_app_inj in E.
  change ("/" +:+ d) with (String "/" d) in E. change ("/" +:+ d') with (String "/" d') in E.
  apply first_sep_inj in E as [E ->]; [|apply AccAddress_String_no_slash..].
  by apply AccAddress_String_inj in E.
Qed.

Lemma mintRecordKey_prefix a d : String.prefix MintRecordPrefix (mintRecordKey a d) = true.
Proof. apply prefix_iff. by eexists. Qed.

(** Records sit under their own key and nothing else is under their prefix. *)
Definition sc_slot (k : string) (v : value) : Prop :=
  match v with
  | VRecord r => (exists a, AccAddressFromBech32 (mr_Owner r) = Some a /\ k = mintRecordKey a (mr_IBCDenom r)) /\
                 0 <= Minted r
  | _ => String.prefix MintRecordPrefix k = false
  end.

Definition record_at m (a d : string) : option MintRecord :=
  match m !! mintRecordKey a d with Some (VRecord r) => Some r | _ => None end.

Definition minted_at m (a d : string) : Z := default 0 (Minted <$> record_at m a d).

Definition supply_of m : Z := match m !! TotalSupplyKey with Some (VSupply z) => z | _ => 0 end.

Definition record_minted (k : string) (v : value) : Z :=
  match v with VRecord r => Minted r | _ => 0 end.

(** The sum of all mint records. *)
Definition record_sum m : Z := map_sum record_minted m.

Record sc_inv m : Prop := {
  sc_slots : map_Forall sc_slot m;
  sc_supply : supply_of m = record_sum m;
}.

Lemma record_at_owner m a d r :
  map_Forall sc_slot m -> VerifyAddressFormat a = true -> record_at m a d = Some r ->
  AccAddressFromBech32 (mr_Owner r) = Some a /\ mr_IBCDenom r = d /\ 0 <= Minted r.
Proof.
  intros Hm Ha. unfold record_at. destruct (m !! mintRecordKey a d) as [[]|] eqn:E; try done.
  intros [= ->]. destruct (Hm _ _ E) as ((a' & Hp & Hk) & ?).
  apply mintRecordKey_inj in Hk as [-> ->]; [done|done|]. by eapply AccAddressFromBech32_valid.
Qed.

Lemma record_slot m a d v :
  map_Forall sc_slot m -> m !! mintRecordKey a d = Some v -> exists r, v = VRecord r.
Proof.
  intros Hm E. specialize (Hm _ _ E). destruct v; try by eexists.
  all: cbn in Hm; by rewrite mintRecordKey_prefix in Hm.
Qed.

Lemma record_minted_at m a d :
  map_Forall sc_slot m ->
  default 0 (record_minted (mintRecordKey a d) <$> m !! mintRecordKey a d) = minted_at m a d.
Proof.
  intros Hm. unfold minted_at, record_at. destruct (m !! mintRecordKey a d) as [v|] eqn:E; [|done].
  by destruct (record_slot _ _ _ _ Hm E) as [r ->].
Qed.

(** Writing a record and the matching supply keeps the invariant. *)
Lemma sc_inv_put m a r :
  sc_inv m -> AccAddressFromBech32 (mr_Owner r) = Some a -> 0 <= Minted r ->
  sc_inv (<[TotalSupplyKey := VSupply (supply_of m + (Minted r - minted_at m a (mr_IBCDenom r)))]>
            (<[mintRecordKey a (mr_IBCDenom r) := VRecord r]> m)).
Proof.
  intros [Hs Hsup] Ha Hr.
  assert (map_Forall sc_slot (<[mintRecordKey a (mr_IBCDenom r) := VRecord r]> m)) as Hs1
    by (apply map_Forall_insert_2; [cbn; eauto|done]).
  split; [by apply map_Forall_insert_2|].
  unfold supply_of at 1. rewrite lookup_insert_eq. unfold record_sum. rewrite map_sum_insert.
  rewrite lookup_insert_ne by done. cbn [record_minted].
  rewrite map_sum_insert, record_minted_at by done. cbn [record_minted]. fold (record_sum m). rewrite <- Hsup.
  destruct (m !! TotalSupplyKey) as [v|] eqn:E; cbn; [|lia].
  specialize (Hs _ _ E). destruct v; cbn; try lia. by destruct Hs as [(? & _ & ?) _].
Qed.

(** A write outside the records and the supply is invisible. *)
Lemma sc_inv_other m k v :
  sc_inv m -> String.prefix MintRecordPrefix k = false -> k <> TotalSupplyKey ->
  (forall r, v <> VRecord r) -> sc_inv (<[k := v]> m).
Proof.
  intros [Hs Hsup] Hk Hne Hv.
  assert (sc_slot k v) as Hslot by (destruct v; [by destruct (Hv r)|done..]).
  split; [by apply map_Forall_insert_2|]. unfold supply_of. rewrite lookup_insert_ne by done.
  fold (supply_of m). rewrite Hsup. unfold record_sum. rewrite map_sum_insert.
  assert (record_minted k v = 0) as -> by (destruct v; [by destruct (Hv r)|done..]).
  destruct (m !! k) as [v'|] eqn:E; cbn; [|lia].
  specialize (Hs _ _ E). destruct v'; cbn in *; try lia.
  destruct Hs as [(? & _ & ->) _]. by rewrite mintRecordKey_prefix in Hk.
Qed.

(** *** Running the pieces *)

Lemma GetMintRecord_ok w a d r w' :
  GetMintRecord a d w = (Ok r, w') -> w' = w /\ record_at (w_sc w) a d = Some r.
Proof.
  unfold GetMintRecord, record_at, sc_get, bind, reads, ret, throw.
  destruct (w_sc w !! mintRecordKey a d) as [[]|]; intros; by simplify_eq/=.
Qed.

Lemma GetMintRecord_err w a d e w' :
  GetMintRecord a d w = (Err e, w') -> w' = w /\ record_at (w_sc w) a d = None.
Proof.
  unfold GetMintRecord, record_at, sc_get, bind, reads, ret, throw.
  destruct (w_sc w !! mintRecordKey a d) as [[]|]; intros; by simplify_eq/=.
Qed.

Lemma GetTotalSupply_run w : GetTotalSupply w = (Ok (supply_of (w_sc w)), w).
Proof.
  unfold GetTotalSupply, supply_of, sc_get, bind, reads, ret.
  by destruct (w_sc w !! TotalSupplyKey) as [[]|].
Qed.

Lemma GetTWAP_readonly d : readonly (oraclekeeper.GetTWAP (B := B) d).
Proof. unfold oraclekeeper.GetTWAP, oraclekeeper.store_get. solve_readonly. Qed.

Lemma GetZYTDPQCKey_readonly a : readonly (GetZYTDPQCKey (B := B) a).
Proof. unfold GetZYTDPQCKey, sc_get. solve_readonly. Qed.
#[local] Hint Resolve GetTWAP_readonly GetZYTDPQCKey_readonly : readonly.

Lemma verify_readonly ctx a d e pk sg : readonly (verifyZYTDPQCSig (B := B) ctx a d e pk sg).
Proof. unfold verifyZYTDPQCSig. solve_readonly. Qed.

Definition registered_key w (a : string) : option string :=
  match w_sc w !! pqcKeyRegistryKey a with Some (VBytes k) => Some k | _ => None end.

(** What passing the signature check means. *)
Lemma verify_ok ctx a d e pk sg w u w' :
  verifyZYTDPQCSig ctx a d e pk sg w = (Ok u, w') ->
  (registered_key w a = None /\ BlockHeight ctx <= GracePhaseHardHeight) \/
  (registered_key w a = Some pk /\ pqc.Verify (buildZYTDMsgHash a d e) sg pk = true).
Proof.
  unfold verifyZYTDPQCSig, GetZYTDPQCKey, registered_key, sc_get, try, bind, reads, ret, throw, check.
  unfold CheckHardFreeze, MigrationPhase1, MigrationPhase2, MigrationPhase3, GracePhaseHardHeight.
  destruct (GetMigrationPhase_cases (BlockHeight ctx)) as [[? ->]|[[? ->]|[? ->]]];
    destruct (w_sc w !! pqcKeyRegistryKey a) as [[]|]; cbn; intros E; try (by left; split; [done|lia]); try done;
    case_bool_decide; try done; subst; cbn in E;
    destruct (pqc.Verify _ _ _) eqn:Ev; try done; by right.
Qed.

(** *** Over-collateralisation arithmetic *)

(** The dollar value of an integer amount at a Dec price is exact. *)
Lemma collateral_value c p usd : Dec_Mul (NewDecFromInt c) p = Some usd -> usd = c * p.
Proof. intros Hm%Dec_Mul_near. rewrite NewDecFromInt_scale in Hm. unfold dec_one in Hm. nia. Qed.

(** What fits under the truncated quotient is covered by the value, up to one
    unit in the last place of the ratio. *)
Lemma max_mintable_bound usd ratio q mx r :
  Dec_Quo usd ratio = Some q -> Dec_TruncateInt q = Some mx -> 0 < ratio -> 0 < r -> r <= mx ->
  (r * ratio - usd) * dec_one < ratio.
Proof.
  intros [_ Hq]%Dec_Quo_near ->%Dec_TruncateInt_quot Hr0 Hr Hle.
  assert (r * dec_one <= q) as Hrq.
  { assert (0 <= q). { destruct (Z.le_gt_cases 0 q); [done|].
      pose proof (Z.quot_opp_l (- q) dec_one ltac:(done)) as E. rewrite Z.opp_involutive in E.
      pose proof (Z.quot_pos (- q) dec_one ltac:(lia) ltac:(done)). lia. }
    pose proof (Z.mul_quot_le q dec_one ltac:(done) ltac:(done)). unfold dec_one in *. nia. }
  unfold dec_one in *. nia.
Qed.

(** *** Minting *)

(** The record a mint leaves. *)
Definition record_after m ctx (req : MsgMintZYTD) (a : string) (r usd : Z) : MintRecord :=
  match record_at m a (mint_IbcDenom req) with
  | Some old => mkMintRecord (mint_Sender req) (mint_IbcDenom req) (Minted old + r)
                  (CollateralUSD old + usd) (MintedAt old)
  | None => mkMintRecord (mint_Sender req) (mint_IbcDenom req) r usd (BlockHeight ctx)
  end.

(** The checks a mint passed, and the calls it made. *)
Record mint_run ctx (req : MsgMintZYTD) w (a : string) (c r usd : Z) asset twap w' : Prop := {
  mr_sender : AccAddressFromBech32 (mint_Sender req) = Some a;
  mr_phase : GetMigrationPhase (BlockHeight ctx) <> 2;
  mr_signed : verifyZYTDPQCSig ctx a (mint_IbcDenom req) (mint_ExpirationBlockHeight req)
    (mint_Dilithium5PubKey req) (mint_Dilithium5Sig req) w = (Ok tt, w);
  mr_asset : collateralkeeper.GetCollateralAsset (mint_IbcDenom req) w = (Ok asset, w);
  mr_active : ibccollateraltypes.IsActive asset = true;
  mr_twap : oraclekeeper.GetTWAP (mint_IbcDenom req) w = (Ok twap, w);
  mr_coll : mint_CollateralAmount req = Some c;
  mr_req : mint_RequestedZytd req = Some r;
  mr_usd : usd = c * oracletypes.TWAP twap;
  mr_covered : 0 < ibccollateraltypes.MinRatio asset -> 0 < r ->
    (r * ibccollateraltypes.MinRatio asset - c * oracletypes.TWAP twap) * dec_one
      < ibccollateraltypes.MinRatio asset;
  mr_calls : exists w1 cs b1 b2 w2,
    collateralkeeper.LockCollateral ctx a (mint_IbcDenom req) (Some c) w = (Ok tt, w1) /\
    coins_of ZYTDDenom r = Some cs /\
    MintCoins ctx ModuleAccountName cs (w_bank w1) = (Ok tt, b1) /\
    SendCoinsFromModuleToAccount ctx ModuleAccountName a cs b1 = (Ok tt, b2) /\
    collateralkeeper.UpdateMintedZYTD a (mint_IbcDenom req) r (set_bank b2 w1) = (Ok tt, w2) /\
    w_bank w' = w_bank w2 /\ w_coll w' = w_coll w2 /\ w_oracle w' = w_oracle w2 /\
    w_sc w' = <[TotalSupplyKey := VSupply (supply_of (w_sc w2) + r)]>
      (<[mintRecordKey a (mint_IbcDenom req) := VRecord (record_after (w_sc w2) ctx req a r usd)]> (w_sc w2));
}.

Lemma MintZYTD_ok ctx req w z w' :
  MintZYTD ctx req w = (Ok z, w') ->
  exists a c r usd asset twap, z = r /\ mint_run ctx req w a c r usd asset twap w'.
Proof.
  unfold MintZYTD. destruct (AccAddressFromBech32 (mint_Sender req)) as [a|] eqn:Ha; [|done].
  cbv zeta. intros Hr.
  apply bind_ok in Hr as (? & w0 & [Hph ->]%check_ok & Hr).
  apply bind_ok in Hr as ([] & w0 & Hsig & Hr). pose proof (readonly_run _ _ _ _ (verify_readonly _ _ _ _ _ _) Hsig) as ->.
  apply bind_ok in Hr as (asset & w0 & Has%map_err_ok & Hr).
  pose proof (collateralkeeper.GetCollateralAsset_state _ _ _ _ Has) as ->.
  destruct (ibccollateraltypes.IsActive asset) eqn:Hact; [|done]. cbn [negb] in Hr.
  apply bind_ok in Hr as (twap & w0 & Htw%map_err_ok & Hr).
  pose proof (readonly_run _ _ _ _ (GetTWAP_readonly _) Htw) as ->.
  apply bind_ok in Hr as (c & w0 & [Hc ->]%or_panic_ok & Hr).
  apply bind_ok in Hr as (usd & w0 & [Husd%collateral_value ->]%or_panic_ok & Hr).
  apply bind_ok in Hr as (q & w0 & [Hq ->]%or_panic_ok & Hr).
  apply bind_ok in Hr as (mx & w0 & [Hmx ->]%or_panic_ok & Hr).
  apply bind_ok in Hr as (r & w0 & [Hreq ->]%or_panic_ok & Hr).
  destruct (Z.ltb_spec mx r) as [|Hle]; [done|].
  apply bind_ok in Hr as ([] & w1 & Hlock%map_err_ok & Hr).
  apply bind_ok in Hr as (cs & w0 & [Hcs ->]%or_panic_ok & Hr).
  apply bind_ok in Hr as ([] & w0 & Hmint%map_err_ok & Hr). apply lift_bank_ok in Hmint as (b1 & Hmint & ->).
  apply bind_ok in Hr as ([] & w0 & Hsend%map_err_ok & Hr). apply lift_bank_ok in Hsend as (b2 & Hsend & ->).
  apply bind_ok in Hr as ([] & w2 & Hupd%map_err_ok & Hr).
  apply bind_ok in Hr as (ex & w3 & Hex & Hr). apply bind_ok in Hr as (rc & w4 & Hrc & Hr).
  assert (w4 = w2 /\ rc = record_after (w_sc w2) ctx req a r usd) as [-> ->].
  { unfold record_after.
    apply try_ok in Hex as [(old & -> & [-> ->]%GetMintRecord_ok)|(e & -> & [-> ->]%GetMintRecord_err)].
    - apply bind_ok in Hrc as (mm & w5 & [->%Int_Add_exact ->]%or_panic_ok & Hrc).
      apply bind_ok in Hrc as (uu & w5 & [->%Dec_Add_exact ->]%or_panic_ok & [-> ->]%ret_ok). done.
    - by apply ret_ok in Hrc as [-> ->]. }
  apply bind_ok in Hr as (? & w5 & ->%modify_ok & Hr).
  rewrite (bind_run _ _ _ _ _ (GetTotalSupply_run _)) in Hr.
  apply bind_ok in Hr as (ns & w5 & [->%Int_Add_exact ->]%or_panic_ok & Hr).
  apply bind_ok in Hr as (? & w5 & ->%modify_ok & Hr).
  apply bind_ok in Hr as (cr & w5 & [_ ->]%or_panic_ok & Hr).
  apply bind_ok in Hr as (? & w5 & ->%modify_ok & [-> ->]%ret_ok).
  exists a, c, r, usd, asset, twap. split; [done|]. split; try done.
  - by apply CheckMintAllowed_iff.
  - intros Hr0 Hrpos. rewrite <- Husd. by eapply max_mintable_bound.
  - exists w1, cs, b1, b2, w2. repeat (split; [done|]).
    assert (mint_IbcDenom req = mr_IBCDenom (record_after (w_sc w2) ctx req a r usd) /\
            mint_Sender req = mr_Owner (record_after (w_sc w2) ctx req a r usd)) as [Ed Eo]
      by (unfold record_after; by destruct (record_at _ _ _)).
    cbn. rewrite <- Ed, <- Eo, Ha. cbn. unfold supply_of at 1. rewrite lookup_insert_ne by done. done.
Qed.

(** ** Records and positions together *)

(** The ZYTD debt a position carries. *)
Definition debt_at (m : gmap string ibccollateraltypes.value) (a d : string) : Z :=
  default 0 (ibccollateraltypes.MintedZYTD <$> collateralkeeper.position_at m a d).

Record sys_inv w : Prop := {
  si_coll : collateralkeeper.coll_inv (w_coll w);
  si_vault : collateralkeeper.vault_ok w;
  si_sc : sc_inv (w_sc w);
  si_linked : forall a d, VerifyAddressFormat a = true ->
    minted_at (w_sc w) a d = debt_at (w_coll w) a d;
  si_bank : bk_supply (w_bank w) ZYTDDenom = supply_of (w_sc w);
}.

Lemma Lock_debt ctx a d amt w u w' :
  collateralkeeper.LockCollateral ctx a d amt w = (Ok u, w') ->
  collateralkeeper.coll_inv (w_coll w) -> VerifyAddressFormat a = true ->
  w_sc w' = w_sc w /\ w_oracle w' = w_oracle w /\
  (forall d', bk_supply (w_bank w') d' = bk_supply (w_bank w) d') /\
  (forall a' d', VerifyAddressFormat a' = true -> debt_at (w_coll w') a' d' = debt_at (w_coll w) a' d').
Proof.
  intros Hr Hi Ha.
  destruct (collateralkeeper.LockCollateral_ok _ _ _ _ _ _ _ Hr (collateralkeeper.inv_slots _ Hi) Ha)
    as (n & cs & b & asset & -> & _ & _ & _ & _ & Hb & ->).
  apply send_to_module in Hb as (ma & _ & _ & Hsup). cbn. do 3 (split; [done|]).
  intros a' d' Ha'. unfold debt_at. rewrite collateralkeeper.position_at_set by done.
  case_bool_decide as E; [destruct E as [-> ->]|done]. cbn.
  unfold collateralkeeper.position_or_new. by destruct (collateralkeeper.position_at _ _ _).
Qed.

Lemma Unlock_debt ctx a d amt w u w' :
  collateralkeeper.UnlockCollateral ctx a d amt w = (Ok u, w') ->
  collateralkeeper.coll_inv (w_coll w) -> VerifyAddressFormat a = true ->
  debt_at (w_coll w) a d = 0 /\ w_sc w' = w_sc w /\ w_oracle w' = w_oracle w /\
  (forall d', bk_supply (w_bank w') d' = bk_supply (w_bank w) d') /\
  (forall a' d', VerifyAddressFormat a' = true -> debt_at (w_coll w') a' d' = debt_at (w_coll w) a' d').
Proof.
  intros Hr Hi Ha. destruct (collateralkeeper.UnlockCollateral_ok _ _ _ _ _ _ _ Hr Hi Ha)
    as (p & n & cs & b & Hp & Hm & -> & _ & _ & Hb & ->).
  apply send_from_module in Hb as (ma & _ & _ & Hsup). cbn [w_sc w_oracle w_coll w_bank set_coll set_bank].
  split; [unfold debt_at; rewrite Hp; done|]. do 3 (split; [done|]).
  intros a' d' Ha'. unfold debt_at. destruct (_ =? 0).
  - unfold collateralkeeper.position_at at 1. rewrite lookup_insert_ne by done.
    destruct (decide (a' = a /\ d' = d)) as [[-> ->]|Hne]; [by rewrite lookup_delete_eq, Hp; cbn; rewrite Hm|].
    rewrite lookup_delete_ne by (intros ?%collateralkeeper.positionKey_inj; naive_solver). done.
  - rewrite collateralkeeper.position_at_set by done.
    case_bool_decide as E; [destruct E as [-> ->]; by rewrite Hp|done].
Qed.

Lemma Update_debt a d r w u w' :
  collateralkeeper.UpdateMintedZYTD a d r w = (Ok u, w') ->
  collateralkeeper.coll_inv (w_coll w) -> VerifyAddressFormat a = true ->
  w_sc w' = w_sc w /\ w_oracle w' = w_oracle w /\ w_bank w' = w_bank w /\
  (forall a' d', VerifyAddressFormat a' = true ->
     debt_at (w_coll w') a' d' = debt_at (w_coll w) a' d' + if bool_decide (a' = a /\ d' = d) then r else 0) /\
  (forall a' d', VerifyAddressFormat a' = true ->
     collateralkeeper.amount_at (w_coll w') a' d' = collateralkeeper.amount_at (w_coll w) a' d').
Proof.
  intros Hr Hi Ha.
  destruct (collateralkeeper.UpdateMintedZYTD_ok _ _ _ _ _ _ Hr (collateralkeeper.inv_slots _ Hi) Ha)
    as (p & Hp & Hz & ->). cbn. do 3 (split; [done|]).
  assert (forall a' d', VerifyAddressFormat a' = true ->
    collateralkeeper.position_at (<[collateralkeeper.positionKey a d :=
      ibccollateraltypes.VPosition (collateralkeeper.with_Minted (ibccollateraltypes.MintedZYTD p + r) p)]> (w_coll w)) a' d'
    = if bool_decide (a' = a /\ d' = d) then Some (collateralkeeper.with_Minted (ibccollateraltypes.MintedZYTD p + r) p)
      else collateralkeeper.position_at (w_coll w) a' d') as Hpos.
  { intros a' d' Ha'. unfold collateralkeeper.position_at.
    case_bool_decide as E; [destruct E as [-> ->]; by rewrite lookup_insert_eq|].
    rewrite lookup_insert_ne by (intros ?%collateralkeeper.positionKey_inj; naive_solver). done. }
  split; intros a' d' Ha'; unfold debt_at, collateralkeeper.amount_at; rewrite Hpos by done;
    (case_bool_decide as E; [destruct E as [-> ->]; rewrite Hp|]); cbn; lia.
Qed.

Lemma record_after_facts m ctx req a r usd :
  mr_Owner (record_after m ctx req a r usd) = mint_Sender req /\
  mr_IBCDenom (record_after m ctx req a r usd) = mint_IbcDenom req /\
  Minted (record_after m ctx req a r usd) = minted_at m a (mint_IbcDenom req) + r.
Proof. unfold record_after, minted_at. destruct (record_at _ _ _); cbn; split_and!; done || lia. Qed.

Lemma minted_at_put m a d v s a' d' :
  VerifyAddressFormat a = true -> VerifyAddressFormat a' = true ->
  minted_at (<[TotalSupplyKey := VSupply s]> (<[mintRecordKey a d := VRecord v]> m)) a' d' =
  if bool_decide (a' = a /\ d' = d) then Minted v else minted_at m a' d'.
Proof.
  intros Ha Ha'. unfold minted_at, record_at. rewrite lookup_insert_ne by done.
  case_bool_decide as E; [destruct E as [-> ->]; by rewrite lookup_insert_eq|].
  rewrite lookup_insert_ne by (intros ?%mintRecordKey_inj; naive_solver). done.
Qed.

(** The bank after minting [cs] and sending them to [a]. *)
Lemma mint_and_send ctx a cs (b b1 b2 : B) :
  MintCoins ctx ModuleAccountName cs b = (Ok tt, b1) ->
  SendCoinsFromModuleToAccount ctx ModuleAccountName a cs b1 = (Ok tt, b2) ->
  (forall x d, bk_balance b2 x d = bk_balance b x d + owned_by x a (coins_amount cs d)) /\
  (forall d, bk_supply b2 d = bk_supply b d + coins_amount cs d).
Proof.
  intros (ma & Hma & Hb1 & Hs1)%mint_coins (ma' & Hma' & Hb2 & Hs2)%send_from_module. simplify_eq.
  split; intros; rewrite ?Hb2, ?Hb1, ?Hs2, ?Hs1; [|lia].
  unfold owned_by. repeat case_bool_decide; lia.
Qed.

(** The changes a mint makes, and that the invariant survives it. *)
Lemma MintZYTD_changes ctx req w z w' a c r usd asset twap :
  mint_run ctx req w a c r usd asset twap w' -> z = r -> sys_inv w ->
  GetModuleAddress ibccollateraltypes.ModuleAccountName <> Some a ->
  sys_inv w' /\ w_oracle w' = w_oracle w /\ 0 <= c /\ 0 <= r /\
  supply_of (w_sc w') = supply_of (w_sc w) + r /\
  (forall a' d', VerifyAddressFormat a' = true -> debt_at (w_coll w') a' d' =
     debt_at (w_coll w) a' d' + if bool_decide (a' = a /\ d' = mint_IbcDenom req) then r else 0) /\
  collateralkeeper.amount_at (w_coll w') a (mint_IbcDenom req) =
    collateralkeeper.amount_at (w_coll w) a (mint_IbcDenom req) + c /\
  (exists cs b1, coins_of (mint_IbcDenom req) c = Some cs /\
     SendCoinsFromAccountToModule ctx a ibccollateraltypes.ModuleAccountName cs (w_bank w) = (Ok tt, b1) /\
     forall x d, bk_balance (w_bank w') x d =
       bk_balance b1 x d + owned_by x a (if bool_decide (ZYTDDenom = d) then r else 0)).
Proof.
  intros [Hs _ _ _ _ _ _ _ _ _ (w1 & cs & b1 & b2 & w2 & Hl & Hcs & Hm & Hsend & Hu & Eb & Ec & Eo & Es)] -> Hi Hne.
  destruct Hi as [Hic Hiv Hisc Hlink Hbk].
  pose proof (AccAddressFromBech32_valid _ _ Hs) as Ha.
  destruct (collateralkeeper.LockCollateral_inv _ _ _ _ _ _ _ Hl Hic Ha) as [Hic1 Hiv1]. specialize (Hiv1 Hne Hiv).
  destruct (Lock_debt _ _ _ _ _ _ _ Hl Hic Ha) as (Hsc1 & Ho1 & Hsup1 & Hd1).
  destruct (mint_and_send _ _ _ _ _ _ Hm Hsend) as [Hbal2 Hsup2].
  assert (Hiv2 : collateralkeeper.vault_ok (set_bank b2 w1)).
  { intros va d' Hva. specialize (Hiv1 va d' Hva). cbn. rewrite Hbal2. unfold owned_by.
    pose proof (coins_of_inv _ _ _ Hcs) as (_ & ? & _). rewrite (coins_of_amount _ _ _ _ Hcs).
    repeat case_bool_decide; lia. }
  destruct (collateralkeeper.UpdateMintedZYTD_inv _ _ _ _ _ _ Hu Hic1 Ha) as [Hic2 Hiv3]. specialize (Hiv3 Hiv2).
  destruct (Update_debt _ _ _ _ _ _ Hu Hic1 Ha) as (Hsc2 & Ho2 & Hb2 & Hd2 & Ham2). cbn in Hsc2, Ho2, Hb2.
  pose proof (coins_of_inv _ _ _ Hcs) as (_ & Hr0 & _).
  rewrite Hsc2, Hsc1 in Es.
  destruct (record_after_facts (w_sc w) ctx req a r usd) as (Hro & Hrd & Hrm).
  assert (0 <= minted_at (w_sc w) a (mint_IbcDenom req)) as Hm0.
  { unfold minted_at. destruct (record_at _ _ _) as [old|] eqn:E; [|done].
    by destruct (record_at_owner _ _ _ _ (sc_slots _ Hisc) Ha E) as (_ & _ & ?). }
  assert (Hdebt : forall a' d', VerifyAddressFormat a' = true -> debt_at (w_coll w') a' d' =
     debt_at (w_coll w) a' d' + if bool_decide (a' = a /\ d' = mint_IbcDenom req) then r else 0).
  { intros a' d' Ha'. rewrite Ec, Hd2 by done. cbn. by rewrite Hd1. }
  assert (Hsup : supply_of (w_sc w') = supply_of (w_sc w) + r)
    by (rewrite Es; unfold supply_of at 1; by rewrite lookup_insert_eq).
  split; [split|].
  - by rewrite Ec.
  - intros va d' Hva. specialize (Hiv3 va d' Hva). by rewrite Ec, Eb.
  - rewrite Es. pose proof (sc_inv_put (w_sc w) a (record_after (w_sc w) ctx req a r usd) Hisc) as Hp.
    rewrite Hro, Hrd, Hrm in Hp. specialize (Hp Hs ltac:(lia)).
    replace (supply_of (w_sc w) + (minted_at (w_sc w) a (mint_IbcDenom req) + r - minted_at (w_sc w) a (mint_IbcDenom req)))
      with (supply_of (w_sc w) + r) in Hp by lia. exact Hp.
  - intros a' d' Ha'. rewrite Hdebt, <- Hlink by done. rewrite Es, minted_at_put by done.
    case_bool_decide as E; [destruct E as [-> ->]; by rewrite Hrm|lia].
  - rewrite Hsup, <- Hbk, Eb, Hb2, Hsup2, Hsup1. by rewrite (coins_of_amount _ _ _ _ Hcs), bool_decide_true.
  - destruct (collateralkeeper.LockCollateral_ok _ _ _ _ _ _ _ Hl (collateralkeeper.inv_slots _ Hic) Ha)
      as (c' & cs1 & b0 & asset' & [= <-] & Hc0 & Hcs1 & _ & _ & Hb0 & Ew1).
    split_and!; [by rewrite Eo, Ho2, Ho1|done..| |].
    + rewrite Ec, Ham2 by done. rewrite Ew1. cbn. unfold collateralkeeper.amount_at at 1.
      rewrite collateralkeeper.position_at_set, bool_decide_true by done. cbn.
      by destruct (collateralkeeper.position_or_new_facts (w_coll w) ctx a (mint_IbcDenom req)
        (collateralkeeper.inv_slots _ Hic) Ha) as (_ & _ & -> & _).
    + exists cs1, b0. split; [done|]. split; [done|]. intros x d. rewrite Eb, Hb2, Hbal2.
      rewrite (coins_of_amount _ _ _ _ Hcs), Ew1. done.
Qed.

(** C2.  What a mint does.  A MintZYTD that succeeds (from an account other
    than the vault) was made outside the lock-only phase, carried a valid
    signature whenever the sender has a registered key or phase 3 is active,
    and was for an active asset with an oracle price.  The ZYTD it created is
    covered: requested * MinRatio exceeds the oracle value of the collateral it
    locked by less than one unit in the last place of MinRatio.  Afterwards the
    sender's position holds the collateral and the debt, the sender's ZYTD
    balance and the supply grew by the amount, and the system invariant holds. *)
Theorem MintZYTD_effect ctx req w z w' va :
  MintZYTD ctx req w = (Ok z, w') -> sys_inv w -> MsgMintZYTD_ValidateBasic req = Ok tt ->
  GetModuleAddress ibccollateraltypes.ModuleAccountName = Some va ->
  AccAddressFromBech32 (mint_Sender req) <> Some va ->
  let d := mint_IbcDenom req in
  exists a c asset twap,
    AccAddressFromBech32 (mint_Sender req) = Some a /\
    mint_CollateralAmount req = Some c /\ mint_RequestedZytd req = Some z /\ 0 < z /\
    (BlockHeight ctx <= GracePhaseLockHeight \/ GracePhaseHardHeight < BlockHeight ctx) /\
    (registered_key w a = None /\ BlockHeight ctx <= GracePhaseHardHeight \/
     registered_key w a = Some (mint_Dilithium5PubKey req) /\
     pqc.Verify (buildZYTDMsgHash a d (mint_ExpirationBlockHeight req)) (mint_Dilithium5Sig req)
       (mint_Dilithium5PubKey req) = true) /\
    collateralkeeper.GetCollateralAsset d w = (Ok asset, w) /\ ibccollateraltypes.IsActive asset = true /\
    oraclekeeper.GetTWAP d w = (Ok twap, w) /\
    (0 < ibccollateraltypes.MinRatio asset ->
       (z * ibccollateraltypes.MinRatio asset - c * oracletypes.TWAP twap) * dec_one
         < ibccollateraltypes.MinRatio asset) /\
    collateralkeeper.amount_at (w_coll w') a d = collateralkeeper.amount_at (w_coll w) a d + c /\
    debt_at (w_coll w') a d = debt_at (w_coll w) a d + z /\
    (d <> ZYTDDenom -> bk_balance (w_bank w') a ZYTDDenom = bk_balance (w_bank w) a ZYTDDenom + z) /\
    bk_supply (w_bank w') ZYTDDenom = bk_supply (w_bank w) ZYTDDenom + z /\
    sys_inv w'.
Proof.
  intros Hr Hi Hv Hva Hne d.
  destruct (MintZYTD_ok _ _ _ _ _ Hr) as (a & c & r & usd & asset & twap & -> & Hrun).
  rewrite (mr_sender _ _ _ _ _ _ _ _ _ _ Hrun) in Hne.
  destruct (MintZYTD_changes _ _ _ r _ _ _ _ _ _ _ Hrun eq_refl Hi ltac:(congruence))
    as (Hi' & _ & _ & _ & Hsup & Hdebt & Ham & cs & b1 & Hcs & Hb1 & Hbal).
  destruct Hrun as [Hs Hph Hsig Has Hact Htw Hc Hreq Husd Hcov _].
  pose proof (AccAddressFromBech32_valid _ _ Hs) as Ha.
  unfold MsgMintZYTD_ValidateBasic in Hv. rewrite Hs in Hv.
  assert (0 < r) as Hr0.
  { rewrite Hc, Hreq in Hv. cbn in Hv. repeat (destruct (negb _) in Hv || destruct (0 <? c) in Hv; [|done]).
    destruct (Z.ltb_spec 0 r); [done|]. destruct (0 <? c); done. }
  exists a, c, asset, twap. split_and!; try done.
  - unfold GracePhaseLockHeight, GracePhaseHardHeight.
    destruct (GetMigrationPhase_cases (BlockHeight ctx)) as [[? _]|[[_ ?]|[? _]]]; [by left|done|right; lia].
  - by apply verify_ok in Hsig.
  - auto.
  - rewrite Hdebt by done. by rewrite bool_decide_true.
  - intros Hd. rewrite Hbal. apply send_to_module in Hb1 as (ma & _ & Hb & _).
    rewrite Hb, !(coins_of_amount _ _ _ _ Hcs). rewrite bool_decide_false by done.
    rewrite bool_decide_true by done. unfold owned_by. rewrite (bool_decide_true (a = a)) by done.
    repeat case_bool_decide; lia.
  - by rewrite (si_bank _ Hi'), (si_bank _ Hi), Hsup.
Qed.

(** *** Burning and liquidating *)

(** UnlockCollateral never releases collateral of a position with debt. *)
Lemma Unlock_needs_no_debt ctx a d amt w u w' p :
  collateralkeeper.UnlockCollateral ctx a d amt w = (Ok u, w') ->
  collateralkeeper.position_at (w_coll w) a d = Some p -> ibccollateraltypes.MintedZYTD p <= 0.
Proof.
  intros Hr Hp. unfold collateralkeeper.UnlockCollateral in Hr.
  apply collateralkeeper.GetPosition_some in Hp. rewrite (bind_run _ _ _ _ _ Hp) in Hr.
  destruct (Z.ltb_spec 0 (ibccollateraltypes.MintedZYTD p)); [done|lia].
Qed.

Lemma BurnZYTD_not_ok ctx req w :
  sys_inv w -> MsgBurnZYTD_ValidateBasic req = Ok tt -> is_Ok (fst (BurnZYTD ctx req w)) = false.
Proof.
  intros Hi Hv. destruct (BurnZYTD ctx req w) as [[z|e|] w'] eqn:Hr; [exfalso|done..].
  unfold BurnZYTD in Hr. unfold MsgBurnZYTD_ValidateBasic in Hv.
  destruct (AccAddressFromBech32 (burn_Sender req)) as [a|] eqn:Hs; [|done]. cbv zeta in Hr.
  pose proof (AccAddressFromBech32_valid _ _ Hs) as Ha.
  apply bind_ok in Hr as ([] & w0 & Hsig & Hr). pose proof (readonly_run _ _ _ _ (verify_readonly _ _ _ _ _ _) Hsig) as ->.
  apply bind_ok in Hr as (rec & w0 & [-> Hrec]%map_err_ok%GetMintRecord_ok & Hr).
  apply bind_ok in Hr as (n & w0 & [Hn ->]%or_panic_ok & Hr).
  destruct (Z.ltb_spec (Minted rec) n) as [|Hle]; [done|].
  assert (0 < n) as Hn0.
  { rewrite Hn in Hv. cbn in Hv. destruct (negb _) in Hv; [|done]. by destruct (Z.ltb_spec 0 n). }
  apply bind_ok in Hr as (cs & w0 & [_ ->]%or_panic_ok & Hr).
  apply bind_ok in Hr as ([] & w0 & (b1 & _ & ->)%map_err_ok%lift_bank_ok & Hr).
  apply bind_ok in Hr as ([] & w0 & (b2 & _ & ->)%map_err_ok%lift_bank_ok & Hr).
  apply bind_ok in Hr as (p & w0 & [-> Hp]%map_err_ok%collateralkeeper.GetPosition_ok & Hr). cbn in Hp.
  do 3 apply bind_ok in Hr as (? & w0 & [_ ->]%or_panic_ok & Hr).
  apply bind_ok in Hr as ([] & w0 & Hu%map_err_ok & _).
  apply (Unlock_needs_no_debt _ _ _ _ _ _ _ p) in Hu; [|done].
  pose proof (si_linked _ Hi a (burn_IbcDenom req) Ha) as E. unfold minted_at, debt_at in E.
  rewrite Hrec, Hp in E. cbn in E. lia.
Qed.

(** BurnZYTD cannot succeed.  In a state that satisfies the system
    invariant, no message that passes ValidateBasic makes BurnZYTD return
    normally: it unlocks collateral before it reduces the debt of the
    position, and the collateral keeper refuses to unlock a position with debt.
    So no ZYTD is ever burned this way, and the transaction changes nothing. *)
Theorem BurnZYTD_never_succeeds ctx req w :
  sys_inv w -> MsgBurnZYTD_ValidateBasic req = Ok tt ->
  is_Ok (fst (BurnZYTD ctx req w)) = false /\ snd (runTx (BurnZYTD ctx req) w) = w.
Proof.
  intros Hi Hv. pose proof (BurnZYTD_not_ok ctx req w Hi Hv) as Hf. split; [done|].
  unfold runTx. by destruct (BurnZYTD ctx req w) as [[] ?].
Qed.

Lemma Liquidate_not_ok ctx req w :
  collateralkeeper.coll_inv (w_coll w) -> is_Ok (fst (Liquidate ctx req w)) = false.
Proof.
  intros Hi. destruct (Liquidate ctx req w) as [[z|e|] w'] eqn:Hr; [exfalso|done..].
  unfold Liquidate in Hr. destruct (AccAddressFromBech32 (liq_Liquidator req)) as [l|]; [|done].
  destruct (AccAddressFromBech32 (liq_TargetOwner req)) as [a|] eqn:Hs; [|done]. cbv zeta in Hr.
  pose proof (AccAddressFromBech32_valid _ _ Hs) as Ha.
  apply bind_ok in Hr as ([] & w0 & Hsig & Hr). pose proof (readonly_run _ _ _ _ (verify_readonly _ _ _ _ _ _) Hsig) as ->.
  apply bind_ok in Hr as (p & w0 & [-> Hp]%map_err_ok%collateralkeeper.GetPosition_ok & Hr).
  apply bind_ok in Hr as (asset & w0 & ->%map_err_ok%collateralkeeper.GetCollateralAsset_state & Hr).
  apply bind_ok in Hr as (twap & w0 & Htw%map_err_ok & Hr). pose proof (readonly_run _ _ _ _ (GetTWAP_readonly _) Htw) as ->.
  apply bind_ok in Hr as (? & w0 & [_ ->]%or_panic_ok & Hr).
  destruct (Z.eqb_spec (ibccollateraltypes.MintedZYTD p) 0) as [|Hm]; [done|].
  apply bind_ok in Hr as (? & w0 & [_ ->]%or_panic_ok & Hr). destruct (_ <=? _); [done|].
  apply bind_ok in Hr as (params & w0 & Hg & Hr).
  assert (w0 = w) as -> by (eapply (readonly_run GetParams); [|done]; unfold GetParams, sc_get; solve_readonly).
  do 8 apply bind_ok in Hr as (? & w0 & [_ ->]%or_panic_ok & Hr).
  apply bind_ok in Hr as ([] & w0 & (b1 & _ & ->)%map_err_ok%lift_bank_ok & Hr).
  apply bind_ok in Hr as ([] & w0 & (b2 & _ & ->)%map_err_ok%lift_bank_ok & Hr).
  apply bind_ok in Hr as ([] & w0 & Hu%map_err_ok & _).
  apply (Unlock_needs_no_debt _ _ _ _ _ _ _ p) in Hu; [|done].
  destruct (collateralkeeper.position_at_owner _ _ _ _ (collateralkeeper.inv_slots _ Hi) Ha Hp) as (_ & _ & _ & ?). lia.
Qed.

(** Liquidate cannot succeed.  In a state whose collateral store is
    well-formed, Liquidate never returns normally, whoever calls it and however
    far under water the position is: a position without debt is reported
    healthy, and one with debt cannot be unlocked. *)
Theorem Liquidate_never_succeeds ctx req w :
  collateralkeeper.coll_inv (w_coll w) ->
  is_Ok (fst (Liquidate ctx req w)) = false /\ snd (runTx (Liquidate ctx req) w) = w.
Proof.
  intros Hi. pose proof (Liquidate_not_ok ctx req w Hi) as Hf. split; [done|].
  unfold runTx. by destruct (Liquidate ctx req w) as [[] ?].
Qed.

(** *** Phases and keys *)

Lemma verify_hard_freeze ctx a d e pk sg w :
  GracePhaseHardHeight < BlockHeight ctx -> registered_key w a = None ->
  verifyZYTDPQCSig ctx a d e pk sg w = (Err ErrHardFreezeNoKey, w).
Proof.
  unfold GracePhaseHardHeight, registered_key. intros Hh Hk.
  unfold verifyZYTDPQCSig, GetZYTDPQCKey, sc_get, try, bind, reads, ret, throw, check, CheckHardFreeze.
  destruct (GetMigrationPhase_cases (BlockHeight ctx)) as [[? _]|[[? _]|[_ ->]]]; [lia..|].
  by destruct (w_sc w !! pqcKeyRegistryKey a) as [[]|].
Qed.

(** The migration is enforced.  In phase 2 a mint from any address fails
    with ErrMigrationMintForbidden; in phase 3 a sender without a registered
    Dilithium5 key can neither mint, burn nor liquidate (ErrHardFreezeNoKey).
    Nothing is written in either case. *)
Theorem migration_enforced ctx w mint burn liq a :
  AccAddressFromBech32 (mint_Sender mint) = Some a ->
  AccAddressFromBech32 (burn_Sender burn) = Some a ->
  AccAddressFromBech32 (liq_Liquidator liq) = Some a ->
  is_Some (AccAddressFromBech32 (liq_TargetOwner liq)) ->
  (GracePhaseLockHeight < BlockHeight ctx <= GracePhaseHardHeight ->
     MintZYTD ctx mint w = (Err ErrMigrationMintForbidden, w)) /\
  (GracePhaseHardHeight < BlockHeight ctx -> registered_key w a = None ->
     MintZYTD ctx mint w = (Err ErrHardFreezeNoKey, w) /\
     BurnZYTD ctx burn w = (Err ErrHardFreezeNoKey, w) /\
     Liquidate ctx liq w = (Err ErrHardFreezeNoKey, w)).
Proof.
  intros Hm Hb Hl [t Ht]. unfold GracePhaseLockHeight, GracePhaseHardHeight.
  destruct (GetMigrationPhase_cases (BlockHeight ctx)) as [[? E]|[[? E]|[? E]]]; (split; [intros ?|intros ? Hk]); try lia.
  - unfold MintZYTD, bind, check, CheckMintAllowed, MigrationPhase2. by rewrite Hm, E.
  - assert (Hv := fun d e pk sg => verify_hard_freeze ctx a d e pk sg w ltac:(done) Hk).
    unfold MintZYTD, BurnZYTD, Liquidate, CheckMintAllowed, MigrationPhase2. rewrite Hm, Hb, Hl, Ht, E. cbv zeta.
    split_and!; [|by erewrite bind_run_err..]. cbn. by erewrite bind_run_err.
Qed.

(** *** The mint limit *)

(** C7.  QueryMaxMintable is the limit MintZYTD enforces.  For an active asset
    and an authorised sender outside phase 2 (the signature check passes), and
    an amount of collateral for which QueryMaxMintable answers mx: MintZYTD
    refuses the request with ErrExceedsCollateralValue exactly when it is above
    mx, so a request for mx itself is not refused for its size; the refusal
    writes nothing, and what is minted is at most mx. *)
Theorem max_mintable_is_limit ctx req w a c r mx asset :
  QueryMaxMintable (mint_IbcDenom req) (mint_CollateralAmount req) w = (Ok mx, w) ->
  AccAddressFromBech32 (mint_Sender req) = Some a -> GetMigrationPhase (BlockHeight ctx) <> 2 ->
  verifyZYTDPQCSig ctx a (mint_IbcDenom req) (mint_ExpirationBlockHeight req)
    (mint_Dilithium5PubKey req) (mint_Dilithium5Sig req) w = (Ok tt, w) ->
  collateralkeeper.GetCollateralAsset (mint_IbcDenom req) w = (Ok asset, w) ->
  ibccollateraltypes.IsActive asset = true ->
  mint_CollateralAmount req = Some c -> mint_RequestedZytd req = Some r ->
  (fst (MintZYTD ctx req w) = Err ErrExceedsCollateralValue <-> mx < r) /\
  (mx < r -> MintZYTD ctx req w = (Err ErrExceedsCollateralValue, w)) /\
  (forall z w', MintZYTD ctx req w = (Ok z, w') -> z <= mx).
Proof.
  intros Hq Hs Hph Hsig Has Hact Hc Hr. unfold QueryMaxMintable, GetMaxMintable in Hq.
  rewrite (bind_run _ _ _ _ _ (map_err_run _ _ _ _ _ Has)) in Hq.
  apply bind_ok in Hq as (twap & w0 & Htw & Hq).
  pose proof (readonly_run _ _ _ _ (GetTWAP_readonly _) (map_err_ok _ _ _ _ _ Htw)) as ->.
  rewrite Hc in Hq. cbn [or_panic] in Hq. rewrite bind_ret in Hq.
  apply bind_ok in Hq as (usd & w0 & [Husd ->]%or_panic_ok & Hq).
  apply bind_ok in Hq as (q & w0 & [Hqq ->]%or_panic_ok & Hq). apply or_panic_ok in Hq as [Hmx _].
  assert (exists rest, avoids ErrExceedsCollateralValue rest /\
    MintZYTD ctx req w = (if mx <? r then throw ErrExceedsCollateralValue else rest) w) as (rest & Hrest & E).
  { unfold MintZYTD. rewrite Hs. cbv zeta.
    apply CheckMintAllowed_iff in Hph. rewrite Hph. cbn [check]. rewrite bind_ret.
    rewrite (bind_run _ _ _ _ _ Hsig), (bind_run _ _ _ _ _ (map_err_run _ _ _ _ _ Has)), Hact.
    cbn [negb]. rewrite (bind_run _ _ _ _ _ Htw), Hc. cbn [or_panic]. rewrite bind_ret, Husd.
    cbn [or_panic]. rewrite bind_ret, Hqq. cbn [or_panic]. rewrite bind_ret, Hmx. cbn [or_panic].
    rewrite bind_ret, Hr. cbn [or_panic]. rewrite bind_ret. eexists. split; [|reflexivity].
    unfold GetTotalSupply, SetTotalSupply, SetMintRecord, sc_set, sc_get, EmitEvent. solve_avoids. }
  split; [|split].
  - rewrite E. destruct (Z.ltb_spec mx r); split; [done..|intros He; by apply Hrest in He|lia].
  - intros Hlt. rewrite E. by rewrite (proj2 (Z.ltb_lt _ _) Hlt).
  - intros z w' Hz. destruct (Z.ltb_spec mx r) as [|Hle]; [by rewrite E in Hz|].
    destruct (MintZYTD_ok _ _ _ _ _ Hz) as (? & ? & r' & ? & ? & ? & -> & [_ _ _ _ _ _ _ Hr' _ _ _]). by simplify_eq.
Qed.

(** *** Genesis *)

Definition key_of_record (r : MintRecord) : string :=
  mintRecordKey (default "" (AccAddressFromBech32 (mr_Owner r))) (mr_IBCDenom r).

Lemma SetMintRecords_run rs w :
  for_each rs SetMintRecord w =
  (Ok tt, set_sc (foldl (fun m r => <[key_of_record r := VRecord r]> m) (w_sc w) rs) w).
Proof.
  revert w. induction rs as [|r rs IH]; intros w; [by destruct w|]. cbn [for_each foldl].
  unfold bind at 1. cbn. rewrite IH. done.
Qed.

Lemma elem_of_records_of m r :
  map_Forall sc_slot m -> r ∈ records_of m <-> m !! key_of_record r = Some (VRecord r).
Proof.
  intros Hm. unfold records_of. rewrite list_elem_of_omap. split.
  - intros ([k v] & [Hk _]%elem_of_kv_prefix_iter & E). destruct v; simplify_eq/=.
    destruct (Hm _ _ Hk) as ((a & Ha & ->) & _). unfold key_of_record. by rewrite Ha.
  - intros Hk. exists (key_of_record r, VRecord r). rewrite elem_of_kv_prefix_iter. split; [|done].
    split; [done|]. apply mintRecordKey_prefix.
Qed.

Lemma NoDup_records_of m : map_Forall sc_slot m -> NoDup (key_of_record <$> records_of m).
Proof.
  intros Hm. apply (NoDup_fmap_omap _ _ fst); [apply NoDup_kv_prefix_iter|].
  intros [k v] [k' v'] r r' [Hk _]%elem_of_kv_prefix_iter [Hk' _]%elem_of_kv_prefix_iter E E' Hkey.
  destruct v, v'; simplify_eq/=.
  destruct (Hm _ _ Hk) as ((a & Ha & ->) & _), (Hm _ _ Hk') as ((a' & Ha' & ->) & _).
  rewrite Ha, Ha' in Hkey. cbn in Hkey. unfold mintRecordKey. by rewrite Hkey.
Qed.

(** What a genesis export carries.  Exporting the module and importing it
    into an empty store gives back every mint record and the total supply, but
    no Dilithium5 key: after a restart from exported genesis no address has a
    registered key, so in phase 3 every holder is frozen until registering
    again. *)
Theorem export_drops_keys parse w w0 :
  map_Forall sc_slot (w_sc w) -> w_sc w0 = ∅ ->
  let z := supply_of (w_sc w) in parse (pretty z) = Some z -> pretty z <> "" ->
  exists gs m', ExportGenesis w = (Ok gs, w) /\ InitGenesis parse gs w0 = (Ok tt, set_sc m' w0) /\
    (forall a d, VerifyAddressFormat a = true -> record_at m' a d = record_at (w_sc w) a d) /\
    supply_of m' = supply_of (w_sc w) /\
    (forall a, registered_key (set_sc m' w0) a = None).
Proof.
  intros Hs Hempty z Hparse Hne. unfold z in *. eexists.
  set (m1 := <[TotalSupplyKey := VSupply (supply_of (w_sc w))]>
               (<[ParamsKey := VParams (default DefaultStablecoinParams (match w_sc w !! ParamsKey with
                   Some (VParams p) => Some p | _ => None end))]> ∅) : gmap string value).
  set (m' := foldl (fun m r => <[key_of_record r := VRecord r]> m) m1 (records_of (w_sc w))).
  destruct (foldl_insert_spec key_of_record VRecord (records_of (w_sc w)) m1 (NoDup_records_of _ Hs)) as [Hin Hout].
  fold m' in Hin, Hout.
  assert (Hother : forall k, String.prefix MintRecordPrefix k = false -> m' !! k = m1 !! k).
  { intros k Hk. apply Hout. intros r _ ->. unfold key_of_record in Hk. by rewrite mintRecordKey_prefix in Hk. }
  exists m'. split_and!.
  - unfold ExportGenesis, GetParams, sc_get, bind, reads, ret. 
    instantiate (1 := mkGenesisState (default DefaultStablecoinParams (match w_sc w !! ParamsKey with
                   Some (VParams p) => Some p | _ => None end)) (records_of (w_sc w)) (pretty (supply_of (w_sc w)))).
    destruct (w_sc w !! ParamsKey) as [[]|]; by rewrite GetTotalSupply_run.
  - unfold InitGenesis, bind, SetParams, SetTotalSupply, sc_set, modify. cbn [Params TotalSupply MintRecords].
    rewrite bool_decide_false, Hparse by done. rewrite SetMintRecords_run. cbn [w_sc set_sc]. rewrite Hempty. done.
  - intros a d Ha. apply option_eq. intros r. unfold record_at. split.
    + destruct (m' !! mintRecordKey a d) as [[r'| | | |]|] eqn:E; try done. intros [= ->].
      destruct (decide (Exists (fun r => mintRecordKey a d = key_of_record r) (records_of (w_sc w)))) as [Hx|Hx].
      * apply Exists_exists in Hx as (r'' & Hr'' & Ek). rewrite Ek, (Hin _ Hr'') in E. injection E as ->.
        apply elem_of_records_of in Hr''; [|done]. by rewrite Ek, Hr''.
      * rewrite Hout in E. { unfold m1 in E. by rewrite !lookup_insert_ne in E by done. }
        intros r' Hr' Ek. apply Hx, Exists_exists. eauto.
    + destruct (w_sc w !! mintRecordKey a d) as [[r'| | | |]|] eqn:E; try done. intros [= ->].
      destruct (Hs _ _ E) as ((a' & Ha' & Ek) & _).
      assert (key_of_record r = mintRecordKey a d) as Ek' by (unfold key_of_record; by rewrite Ha').
      rewrite <- Ek', Hin; [done|]. apply elem_of_records_of; [done|]. by rewrite Ek'.
  - unfold supply_of. rewrite Hother by done. unfold m1. by rewrite lookup_insert_eq.
  - intros a. unfold registered_key. cbn. rewrite Hother by done. unfold m1. by rewrite !lookup_insert_ne by done.
Qed.
End Lemmas.

(** ** Concrete runs *)
Section Witnesses.
#[local] Existing Instance sdkmath.
#[local] Existing Instance bech32_toy.
#[local] Instance mint_bank : BankKeeper bankkeeper.BankState := bankkeeper.bank_keeper collateralkeeper.sample_cfg.
#[local] Instance mint_laws : BankLaws bankkeeper.BankState := bankkeeper.bank_laws collateralkeeper.sample_cfg.

Definition toy_crypto : Crypto := {|
  sha3_256 s := s;
  mode5_PublicKeySize := 3;
  mode5_PrivateKeySize := 3;
  mode5_SignatureSize := 2;
  mode5_SignTo _ _ := "ok";
  mode5_Verify _ _ sig := bool_decide (sig = "ok");
|}.
#[local] Existing Instance toy_crypto.

(** The collateral module's sample genesis with a TWAP of 2.0 for uzytc. *)
Definition priced_world : World bankkeeper.BankState :=
  set_oracle {[ oraclekeeper.twapKey "uzytc" :=
    oracletypes.VTWAP (oracletypes.mkTWAPData "uzytc" 2000000000000000000 0 5 3) ]} collateralkeeper.genesis_world.

Lemma priced_world_inv : sys_inv priced_world.
Proof.
  destruct collateralkeeper.genesis_world_inv as [Hi Hv]. split; [exact Hi|exact Hv|..].
  - split; [apply map_Forall_empty|reflexivity].
  - intros a d _. unfold debt_at, collateralkeeper.position_at. cbn [w_coll priced_world set_oracle].
    destruct (w_coll collateralkeeper.genesis_world !! _) as [v|] eqn:E; [|reflexivity].
    by apply collateralkeeper.genesis_world_assets in E as [j ->].
  - reflexivity.
Qed.

Definition mint300 : MsgMintZYTD := mkMsgMintZYTD (AccAddress_String "alice") "uzytc" (Some 400) (Some 300) 12 "" "".
Definition minted_world : World bankkeeper.BankState := snd (MintZYTD (mkCtx 9 90) mint300 priced_world).

Lemma MintZYTD_effect_witness :
  exists a c asset twap, AccAddressFromBech32 (mint_Sender mint300) = Some a /\
    mint_CollateralAmount mint300 = Some c /\
    collateralkeeper.GetCollateralAsset "uzytc" priced_world = (Ok asset, priced_world) /\
    oraclekeeper.GetTWAP "uzytc" priced_world = (Ok twap, priced_world) /\
    bk_supply (w_bank minted_world) ZYTDDenom = bk_supply (w_bank priced_world) ZYTDDenom + 300 /\
    sys_inv minted_world.
Proof.
  destruct (MintZYTD_effect (mkCtx 9 90) mint300 priced_world 300 minted_world "vault")
    as (a & c & asset & twap & H1 & H2 & _ & _ & _ & _ & H3 & _ & H4 & _ & _ & _ & _ & H5 & H6).
  - vm_compute. reflexivity.
  - exact priced_world_inv.
  - vm_compute. reflexivity.
  - reflexivity.
  - vm_compute. discriminate.
  - exists a, c, asset, twap. split_and!; assumption.
Defined.

Lemma minted_world_inv : sys_inv minted_world.
Proof.
  assert (MintZYTD (mkCtx 9 90) mint300 priced_world = (Ok 300, minted_world)) as Hr by (vm_compute; reflexivity).
  destruct (MintZYTD_ok _ _ _ _ _ Hr) as (a & c & r & usd & asset & twap & E & Hrun).
  refine (proj1 (MintZYTD_changes _ _ _ r _ _ _ _ _ _ _ Hrun eq_refl priced_world_inv _)).
  pose proof (mr_sender _ _ _ _ _ _ _ _ _ _ Hrun) as Ha. vm_compute in Ha. injection Ha as <-. discriminate.
Qed.

Definition burn100 : MsgBurnZYTD := mkMsgBurnZYTD (AccAddress_String "alice") "uzytc" (Some 100) 12 "" "".

Lemma BurnZYTD_never_succeeds_witness :
  is_Ok (fst (BurnZYTD (mkCtx 10 100) burn100 minted_world)) = false.
Proof.
  refine (proj1 (BurnZYTD_never_succeeds (mkCtx 10 100) burn100 minted_world minted_world_inv _)).
  vm_compute. reflexivity.
Defined.

Definition liquidate_alice : MsgLiquidate :=
  mkMsgLiquidate (AccAddress_String "bob") (AccAddress_String "alice") "uzytc" 12 "" "".

Lemma Liquidate_never_succeeds_witness :
  is_Ok (fst (Liquidate (mkCtx 10 100) liquidate_alice minted_world)) = false.
Proof.
  exact (proj1 (Liquidate_never_succeeds (mkCtx 10 100) liquidate_alice minted_world (si_coll _ minted_world_inv))).
Defined.

Lemma migration_enforced_witness :
  MintZYTD (mkCtx 20001 0) mint300 priced_world = (Err ErrMigrationMintForbidden, priced_world).
Proof.
  refine (proj1 (migration_enforced (mkCtx 20001 0) priced_world mint300 burn100
    (mkMsgLiquidate (AccAddress_String "alice") (AccAddress_String "alice") "uzytc" 12 "" "") "alice" _ _ _ _) _).
  - vm_compute. reflexivity.
  - vm_compute. reflexivity.
  - vm_compute. reflexivity.
  - vm_compute. eexists. reflexivity.
  - vm_compute. split; [reflexivity|discriminate].
Defined.

(** At the limit of 400 the mint goes through, one above it does not. *)
Lemma max_mintable_is_limit_witness :
  let req n := mkMsgMintZYTD (AccAddress_String "alice") "uzytc" (Some 400) (Some n) 12 "" "" in
  fst (MintZYTD (mkCtx 9 90) (req 400) priced_world) = Ok 400 /\
  fst (MintZYTD (mkCtx 9 90) (req 400) priced_world) <> Err ErrExceedsCollateralValue /\
  MintZYTD (mkCtx 9 90) (req 401) priced_world = (Err ErrExceedsCollateralValue, priced_world).
Proof.
  intros req.
  assert (forall n, (fst (MintZYTD (mkCtx 9 90) (req n) priced_world) = Err ErrExceedsCollateralValue <-> 400 < n) /\
    (400 < n -> MintZYTD (mkCtx 9 90) (req n) priced_world = (Err ErrExceedsCollateralValue, priced_world))) as Hl.
  { intros n. refine (let h := max_mintable_is_limit (mkCtx 9 90) (req n) priced_world "alice" 400 n 400
      (ibccollateraltypes.mkCollateralAsset "uzytc" "ZYTC" 2000000000000000000 1500000000000000000 true) _ _ _ _ _ _ _ _
      in conj (proj1 h) (proj1 (proj2 h))).
    - vm_compute. reflexivity.
    - vm_compute. reflexivity.
    - vm_compute. discriminate.
    - vm_compute. reflexivity.
    - vm_compute. reflexivity.
    - reflexivity.
    - reflexivity.
    - reflexivity. }
  split; [vm_compute; reflexivity|]. split.
  - intros He. apply (Hl 400) in He. lia.
  - apply (Hl 401). lia.
Defined.

(** A reader for the one numeral the next run needs. *)
Definition read300 (s : string) : option Z := if bool_decide (s = "300") then Some 300 else None.

Lemma export_drops_keys_witness :
  exists gs m', ExportGenesis minted_world = (Ok gs, minted_world) /\
    InitGenesis read300 gs (mkWorld collateralkeeper.rich_bank ∅ ∅ ∅ []) =
      (Ok tt, set_sc m' (mkWorld collateralkeeper.rich_bank ∅ ∅ ∅ [])) /\ supply_of m' = 300.
Proof.
  destruct (export_drops_keys read300 minted_world (mkWorld collateralkeeper.rich_bank ∅ ∅ ∅ [])
    (sc_slots _ (si_sc _ minted_world_inv))) as (gs & m' & E1 & E2 & _ & E3 & _).
  - reflexivity.
  - vm_compute. reflexivity.
  - vm_compute. discriminate.
  - exists gs, m'. split; [exact E1|]. split; [exact E2|]. rewrite E3. vm_compute. reflexivity.
Defined.
End Witnesses.
End stablecoinkeeper.
