(* ===== verification/System.v ===== *)
(** System: the modules composed into the state machine of the chain.

    [deliver] is what BaseApp does with a transaction of one message:
    ValidateBasic, then the handler on a cached branch that is written back
    only on success (cosmos-sdk/baseapp/baseapp.go, runTx and runMsgs).  [step]
    interleaves transactions, the oracle's block hooks and bank activity of the
    rest of the chain.  The theorems here are about every reachable state. *)

From Stdlib Require Import ZArith Lia Ascii String.
From stdpp Require Import base gmap sets list strings fin_maps relations.
From S2P Require Import Prelude Sdk Types Bank Oracle Collateral Pqc Migration Stablecoin.

Open Scope Z_scope.
Open Scope go_scope.

Module chain.

(** The messages of the three modules. *)
Inductive Tx : Type :=
  | TxSubmitPrice (m : oracletypes.MsgSubmitPrice)
  | TxLock (m : ibccollateraltypes.MsgLockCollateral)
  | TxUnlock (m : ibccollateraltypes.MsgUnlockCollateral)
  | TxMint (m : stablecointypes.MsgMintZYTD)
  | TxBurn (m : stablecointypes.MsgBurnZYTD)
  | TxLiquidate (m : stablecointypes.MsgLiquidate)
  | TxRegisterKey (m : stablecointypes.MsgRegisterZYTDKey).

Section Chain.
Context {B : Type} `{SdkMath} `{Bech32} `{BankKeeper B} `{StakingKeeper} `{Crypto}.

Definition ValidateBasic (tx : Tx) : outcome unit :=
  match tx with
  | TxSubmitPrice m => oracletypes.MsgSubmitPrice_ValidateBasic m
  | TxLock m => ibccollateraltypes.MsgLockCollateral_ValidateBasic m
  | TxUnlock m => ibccollateraltypes.MsgUnlockCollateral_ValidateBasic m
  | TxMint m => stablecointypes.MsgMintZYTD_ValidateBasic m
  | TxBurn m => stablecointypes.MsgBurnZYTD_ValidateBasic m
  | TxLiquidate m => stablecointypes.MsgLiquidate_ValidateBasic m
  | TxRegisterKey m => stablecointypes.MsgRegisterZYTDKey_ValidateBasic m
  end.

Definition void {A} (c : M (World B) A) : M (World B) unit := c ;;! ret tt.

Definition handle (ctx : Ctx) (tx : Tx) : M (World B) unit :=
  match tx with
  | TxSubmitPrice m => oraclekeeper.SubmitPrice ctx m
  | TxLock m => void (collateralkeeper.msg_LockCollateral ctx m)
  | TxUnlock m => void (collateralkeeper.msg_UnlockCollateral ctx m)
  | TxMint m => void (stablecoinkeeper.MintZYTD ctx m)
  | TxBurn m => void (stablecoinkeeper.BurnZYTD ctx m)
  | TxLiquidate m => void (stablecoinkeeper.Liquidate ctx m)
  | TxRegisterKey m => void (stablecoinkeeper.RegisterZYTDKey ctx m)
  end.

Definition deliver (ctx : Ctx) (tx : Tx) : M (World B) unit :=
  match ValidateBasic tx with
  | Ok _ => runTx (handle ctx tx)
  | Err e => throw e
  | Panic => panic
  end.

(** GetSigners: whose coins a message can lock. *)
Definition signer (tx : Tx) : option string :=
  AccAddressFromBech32
    match tx with
    | TxSubmitPrice m => oracletypes.msg_Submitter m
    | TxLock m => ibccollateraltypes.lk_Owner m
    | TxUnlock m => ibccollateraltypes.ul_Owner m
    | TxMint m => stablecointypes.mint_Sender m
    | TxBurn m => stablecointypes.burn_Sender m
    | TxLiquidate m => stablecointypes.liq_Liquidator m
    | TxRegisterKey m => stablecointypes.reg_Sender m
    end.

Definition vault : option string := GetModuleAddress ibccollateraltypes.ModuleAccountName.

(** One step of the chain.  The vault has no key, so it signs nothing; bank
    activity of other modules may move coins but does not take them out of the
    vault, and does not mint or burn ZYTD. *)
Inductive step : World B -> World B -> Prop :=
  | step_tx ctx tx w r w' :
      signer tx <> vault -> deliver ctx tx w = (r, w') -> step w w'
  | step_begin ctx w w' : oraclekeeper.BeginBlock ctx w = (Ok tt, w') -> step w w'
  | step_end ctx w w' : oraclekeeper.EndBlock ctx w = (Ok tt, w') -> step w w'
  | step_bank b w :
      (forall va d, vault = Some va -> bk_balance (w_bank w) va d <= bk_balance b va d) ->
      bk_supply b stablecointypes.ZYTDDenom = bk_supply (w_bank w) stablecointypes.ZYTDDenom ->
      step w (set_bank b w).

(** The genesis of the three modules on the bank's genesis [b]. *)
Definition init_chain (parse : string -> option Z) (b : B) : outcome unit * World B :=
  (oraclekeeper.InitGenesis oracletypes.DefaultGenesis ;;!
   collateralkeeper.InitGenesis ibccollateraltypes.DefaultGenesis ;;!
   stablecoinkeeper.InitGenesis parse stablecoinkeeper.DefaultGenesis)
  (mkWorld b ∅ ∅ ∅ []).
End Chain.

Section Theorems.
Context {B : Type} `{SdkMathLaws} `{Bech32Laws} `{BankLaws B} `{StakingKeeper} `{Crypto}.
Implicit Types w : World B.
Import stablecoinkeeper.

(** The invariant of the chain. *)
Definition inv w : Prop := sys_inv w /\ oraclekeeper.store_ok (w_oracle w).

Lemma sys_inv_frame w w' :
  w_bank w' = w_bank w -> w_coll w' = w_coll w -> w_sc w' = w_sc w -> sys_inv w -> sys_inv w'.
Proof.
  intros Eb Ec Es [? Hv ? ? ?]. split; rewrite ?Eb, ?Ec, ?Es; try done.
  intros va d Hva. rewrite Eb, Ec. by apply Hv.
Qed.

Lemma deliver_ok ctx tx w r w' :
  deliver ctx tx w = (r, w') ->
  w' = w \/ (ValidateBasic tx = Ok tt /\ handle ctx tx w = (Ok tt, w')).
Proof.
  unfold deliver. destruct (ValidateBasic tx) as [[]|e|]; [|intros [= _ <-]; by left..].
  unfold runTx. destruct (handle ctx tx w) as [[[]|e|] w1] eqn:E; intros [= <- <-]; auto.
Qed.

Lemma void_ok {A} (c : M (World B) A) w u w' : void c w = (Ok u, w') -> exists a, c w = (Ok a, w').
Proof. intros (a & w1 & Hc & [_ ->]%ret_ok)%bind_ok. eauto. Qed.

(** *** The handlers keep the invariant *)

Lemma SubmitPrice_frame ctx m w u w' :
  oraclekeeper.SubmitPrice ctx m w = (Ok u, w') ->
  w_bank w' = w_bank w /\ w_coll w' = w_coll w /\ w_sc w' = w_sc w.
Proof.
  intros Hr. destruct (oraclekeeper.GetParams_run w) as [p Hp].
  by destruct (oraclekeeper.SubmitPrice_shape _ _ _ _ _ _ Hr Hp) as (_ & _ & ? & ? & ? & _).
Qed.

Lemma BeginBlock_frame ctx w u w' :
  oraclekeeper.BeginBlock ctx w = (Ok u, w') ->
  w_bank w' = w_bank w /\ w_coll w' = w_coll w /\ w_sc w' = w_sc w.
Proof.
  intros Hr. unfold oraclekeeper.BeginBlock in Hr. destruct (oraclekeeper.GetParams_run w) as [p Hp].
  rewrite (bind_run _ _ _ _ _ Hp) in Hr.
  refine (for_each_inv (fun w0 => w_bank w0 = w_bank w /\ w_coll w0 = w_coll w /\ w_sc w0 = w_sc w)
    _ _ _ _ _ _ Hr _); [|done]. intros d w0 u0 w1 Hd. fold (oraclekeeper.refresh (B := B) ctx d) in Hd.
  by apply oraclekeeper.refresh_ok in Hd as [(t & _ & _ & ->)|(e & _ & ->)].
Qed.

Lemma EndBlock_frame ctx w u w' :
  oraclekeeper.EndBlock ctx w = (Ok u, w') ->
  w_bank w' = w_bank w /\ w_coll w' = w_coll w /\ w_sc w' = w_sc w.
Proof.
  intros Hr. destruct (oraclekeeper.GetParams_run w) as [p Hp].
  by destruct (oraclekeeper.PruneOldPrices_ok _ _ _ _ _ Hr Hp) as (m & -> & _).
Qed.

Lemma msg_Lock_inv ctx m w z w' :
  collateralkeeper.msg_LockCollateral ctx m w = (Ok z, w') -> sys_inv w ->
  AccAddressFromBech32 (ibccollateraltypes.lk_Owner m) <> vault -> sys_inv w' /\ w_oracle w' = w_oracle w /\
  bk_supply (w_bank w') stablecointypes.ZYTDDenom = bk_supply (w_bank w) stablecointypes.ZYTDDenom.
Proof.
  intros Hr Hi Hne. unfold collateralkeeper.msg_LockCollateral in Hr.
  destruct (AccAddressFromBech32 _) as [a|] eqn:Ha; [|done].
  pose proof (AccAddressFromBech32_valid _ _ Ha) as Hva.
  apply bind_ok in Hr as ([] & w1 & Hl & Hr).
  apply bind_ok in Hr as (p & w2 & [-> _]%map_err_ok%collateralkeeper.GetPosition_ok & Hr).
  apply bind_ok in Hr as (n & w2 & [_ ->]%or_panic_ok & Hr).
  apply bind_ok in Hr as (? & w2 & ->%modify_ok & [_ ->]%ret_ok).
  destruct (collateralkeeper.LockCollateral_inv _ _ _ _ _ _ _ Hl (si_coll _ Hi) Hva) as [Hc Hv].
  destruct (Lock_debt _ _ _ _ _ _ _ Hl (si_coll _ Hi) Hva) as (Es & Eo & Eb & Ed).
  split; [|split; [done|apply Eb]].
  apply (sys_inv_frame w1); [done..|]. split; [done| | | |].
  - apply Hv; [unfold vault in Hne; congruence|apply Hi].
  - rewrite Es. apply Hi.
  - intros. rewrite Es, Ed by done. by apply Hi.
  - rewrite Es, Eb. apply Hi.
Qed.

Lemma msg_Unlock_inv ctx m w z w' :
  collateralkeeper.msg_UnlockCollateral ctx m w = (Ok z, w') -> sys_inv w ->
  sys_inv w' /\ w_oracle w' = w_oracle w /\
  bk_supply (w_bank w') stablecointypes.ZYTDDenom = bk_supply (w_bank w) stablecointypes.ZYTDDenom.
Proof.
  intros Hr Hi. unfold collateralkeeper.msg_UnlockCollateral in Hr.
  destruct (AccAddressFromBech32 _) as [a|] eqn:Ha; [|done].
  pose proof (AccAddressFromBech32_valid _ _ Ha) as Hva.
  apply bind_ok in Hr as (p & w1 & [-> _]%collateralkeeper.GetPosition_ok & Hr).
  apply bind_ok in Hr as ([] & w1 & Hl & Hr).
  do 2 apply bind_ok in Hr as (? & w2 & [_ ->]%or_panic_ok & Hr).
  apply bind_ok in Hr as (? & w2 & ->%modify_ok & [_ ->]%ret_ok).
  destruct (collateralkeeper.UnlockCollateral_inv _ _ _ _ _ _ _ Hl (si_coll _ Hi) Hva) as [Hc Hv].
  destruct (Unlock_debt _ _ _ _ _ _ _ Hl (si_coll _ Hi) Hva) as (_ & Es & Eo & Eb & Ed).
  split; [|split; [done|apply Eb]].
  apply (sys_inv_frame w1); [done..|]. split; [done| | | |].
  - apply Hv, Hi.
  - rewrite Es. apply Hi.
  - intros. rewrite Es, Ed by done. by apply Hi.
  - rewrite Es, Eb. apply Hi.
Qed.

Lemma RegisterKey_inv ctx m w z w' :
  RegisterZYTDKey ctx m w = (Ok z, w') -> sys_inv w ->
  sys_inv w' /\ w_oracle w' = w_oracle w /\ w_bank w' = w_bank w.
Proof.
  intros Hr Hi. unfold RegisterZYTDKey in Hr. destruct (AccAddressFromBech32 _) as [a|]; [|done].
  apply bind_ok in Hr as (? & w1 & Hs & Hr). unfold SetZYTDPQCKey in Hs. case_bool_decide; [done|].
  apply modify_ok in Hs as ->. apply bind_ok in Hr as (? & w2 & ->%modify_ok & [_ ->]%ret_ok). cbn.
  split; [|done]. apply (sys_inv_frame (set_sc (<[pqcKeyRegistryKey a := stablecointypes.VBytes
    (stablecointypes.reg_Dilithium5PubKey m)]> (w_sc w)) w)); [done..|].
  destruct Hi as [? ? Hsc Hl Hb]. split; cbn; try done.
  - by apply sc_inv_other.
  - intros a' d' Ha'. unfold minted_at, record_at. rewrite lookup_insert_ne by done. by apply Hl.
  - rewrite Hb. unfold supply_of. by rewrite lookup_insert_ne.
Qed.

(** What a step does to the invariant and to the ZYTD supply. *)
Lemma handle_inv ctx tx w w' :
  signer tx <> vault -> ValidateBasic tx = Ok tt -> handle ctx tx w = (Ok tt, w') -> inv w ->
  inv w' /\ bk_supply (w_bank w) stablecointypes.ZYTDDenom <= bk_supply (w_bank w') stablecointypes.ZYTDDenom.
Proof.
  intros Hne Hv Hr [Hi Ho]. destruct tx as [m|m|m|m|m|m|m]; cbn [handle ValidateBasic signer] in *.
  - destruct (SubmitPrice_frame _ _ _ _ _ Hr) as (Eb & Ec & Es). split; [|by rewrite Eb].
    split; [by apply (sys_inv_frame w)|by eapply oraclekeeper.SubmitPrice_store_ok].
  - apply void_ok in Hr as [z Hr]. destruct (msg_Lock_inv _ _ _ _ _ Hr Hi Hne) as (? & Eo & ->).
    split; [split; [done|by rewrite Eo]|done].
  - apply void_ok in Hr as [z Hr]. destruct (msg_Unlock_inv _ _ _ _ _ Hr Hi) as (? & Eo & ->).
    split; [split; [done|by rewrite Eo]|done].
  - apply void_ok in Hr as [z Hr].
    destruct (MintZYTD_ok _ _ _ _ _ Hr) as (a & c & r & usd & asset & twap & _ & Hrun).
    unfold signer in Hne. cbn beta iota in Hne. rewrite (mr_sender _ _ _ _ _ _ _ _ _ _ Hrun) in Hne.
    destruct (MintZYTD_changes _ _ _ r _ _ _ _ _ _ _ Hrun eq_refl Hi ltac:(unfold vault in Hne; congruence))
      as (Hi' & Eo & _ & Hr0 & Hsup & _).
    split; [split; [done|by rewrite Eo]|]. rewrite (si_bank _ Hi), (si_bank _ Hi'), Hsup. lia.
  - apply void_ok in Hr as [z Hr]. pose proof (BurnZYTD_not_ok ctx m w Hi Hv) as Hf. by rewrite Hr in Hf.
  - apply void_ok in Hr as [z Hr]. pose proof (Liquidate_not_ok ctx m w (si_coll _ Hi)) as Hf. by rewrite Hr in Hf.
  - apply void_ok in Hr as [z Hr]. destruct (RegisterKey_inv _ _ _ _ _ Hr Hi) as (? & Eo & Eb).
    split; [split; [done|by rewrite Eo]|by rewrite Eb].
Qed.

Lemma step_inv w w' :
  step w w' -> inv w ->
  inv w' /\ bk_supply (w_bank w) stablecointypes.ZYTDDenom <= bk_supply (w_bank w') stablecointypes.ZYTDDenom.
Proof.
  intros [ctx tx w0 r w1 Hne Hr|ctx w0 w1 Hr|ctx w0 w1 Hr|b w0 Hva Hsup] Hi.
  - apply deliver_ok in Hr as [->|[Hv Hr]]; [done|]. by eapply handle_inv.
  - destruct (BeginBlock_frame _ _ _ _ Hr) as (Eb & Ec & Es). split; [|by rewrite Eb].
    split; [apply (sys_inv_frame w0); [done..|apply Hi]|].
    refine (oraclekeeper.step_store_ok _ _ (oraclekeeper.step_begin ctx _ _ Hr) (proj2 Hi)).
  - destruct (EndBlock_frame _ _ _ _ Hr) as (Eb & Ec & Es). split; [|by rewrite Eb].
    split; [apply (sys_inv_frame w0); [done..|apply Hi]|].
    refine (oraclekeeper.step_store_ok _ _ (oraclekeeper.step_end ctx _ _ Hr) (proj2 Hi)).
  - destruct Hi as [[Hc Hv Hsc Hl Hb] Ho]. split; [|cbn; lia]. split; [|done]. split; try done.
    + intros va d E. cbn. specialize (Hva va d E). specialize (Hv va d E). lia.
    + cbn. by rewrite Hsup.
Qed.

(** *** Genesis *)

Lemma assets_registered_inv js (m : gmap string ibccollateraltypes.value) :
  Forall (fun j => ibccollateraltypes.aj_IBCDenom j <> "") js ->
  (forall j, j ∈ js -> m !! collateralkeeper.assetKey (ibccollateraltypes.aj_IBCDenom j) =
     Some (ibccollateraltypes.VAsset j)) ->
  (forall k, (forall j, j ∈ js -> k <> collateralkeeper.assetKey (ibccollateraltypes.aj_IBCDenom j)) -> m !! k = None) ->
  collateralkeeper.coll_inv m /\ (forall k p, m !! k <> Some (ibccollateraltypes.VPosition p)).
Proof.
  intros Hne Hin Hout.
  assert (Hm : forall k v, m !! k = Some v -> exists j, j ∈ js /\
    k = collateralkeeper.assetKey (ibccollateraltypes.aj_IBCDenom j) /\ v = ibccollateraltypes.VAsset j).
  { intros k v Hk.
    destruct (decide (Exists (fun j => k = collateralkeeper.assetKey (ibccollateraltypes.aj_IBCDenom j)) js)) as [E|E].
    - apply Exists_exists in E as (j & Hj & ->). exists j. rewrite (Hin _ Hj) in Hk. by simplify_eq.
    - rewrite Hout in Hk; [done|]. intros j Hj ->. apply E, Exists_exists. eauto. }
  assert (Hpos : forall k p, m !! k <> Some (ibccollateraltypes.VPosition p)) by (intros k p (? & _ & _ & [=])%Hm).
  split; [split|done].
  - intros k v (j & Hj & -> & ->)%Hm. rewrite Forall_forall in Hne. by split; [|apply Hne].
  - intros d. rewrite collateralkeeper.locked_sum_none by done. unfold collateralkeeper.total_locked.
    destruct (m !! _) as [v|] eqn:E; [|done]. by apply Hm in E as (? & _ & ? & _).
Qed.

Lemma init_chain_inv parse b :
  parse "0" = Some 0 -> bk_supply b stablecointypes.ZYTDDenom = 0 ->
  (forall va d, vault = Some va -> 0 <= bk_balance b va d) ->
  exists w, init_chain parse b = (Ok tt, w) /\ inv w.
Proof.
  intros Hp Hs Hb. unfold init_chain. unfold bind at 1.
  set (w1 := snd (oraclekeeper.InitGenesis oracletypes.DefaultGenesis (mkWorld b ∅ ∅ ∅ []))).
  change (oraclekeeper.InitGenesis oracletypes.DefaultGenesis (mkWorld b ∅ ∅ ∅ [])) with (@Ok unit tt, w1).
  cbv iota beta.
  assert (Hne : Forall (fun j => ibccollateraltypes.aj_IBCDenom j <> "") ibccollateraltypes.DefaultCollateralAssets)
    by (repeat constructor; done).
  destruct (collateralkeeper.register_all ibccollateraltypes.DefaultCollateralAssets w1) as (m & Hrun & Hin & Hout);
    [|done|].
  { cbn. apply (bool_decide_unpack _). by vm_compute. }
  destruct (assets_registered_inv _ m Hne Hin Hout) as [Hc Hpos].
  erewrite bind_run; [|unfold collateralkeeper.InitGenesis; erewrite bind_run; [reflexivity|exact Hrun]].
  eexists. split; [cbn; rewrite Hp; reflexivity|]. cbn. split; [split; cbn|].
  - exact Hc.
  - intros va d Hva. cbn. rewrite collateralkeeper.locked_sum_none by done. by apply Hb.
  - split; [|reflexivity]. repeat (apply map_Forall_insert_2; [done|]). apply map_Forall_empty.
  - intros a d _. unfold debt_at, collateralkeeper.position_at.
    destruct (m !! _) as [[]|] eqn:E; try done. by apply Hpos in E.
  - exact Hs.
  - by apply (oraclekeeper.store_ok_insert ∅ (oracletypes.VParams oracletypes.DefaultOracleParams)).
Qed.

Lemma reachable_inv parse b w0 w :
  init_chain parse b = (Ok tt, w0) -> rtc step w0 w ->
  parse "0" = Some 0 -> bk_supply b stablecointypes.ZYTDDenom = 0 ->
  (forall va d, vault = Some va -> 0 <= bk_balance b va d) -> inv w.
Proof.
  intros Hini Hr Hp Hs Hb. destruct (init_chain_inv parse b Hp Hs Hb) as (w0' & E & Hi).
  rewrite Hini in E. injection E as <-. clear Hini. revert Hi.
  induction Hr as [|x y z Hxy _ IH]; [by intros|]. intros Hi. apply IH. by apply (step_inv x y).
Qed.

(** C1.  The books of the chain balance.  In every state the chain can reach
    from genesis, by any interleaving of transactions of the three modules
    (successful, failing or panicking), block hooks and bank activity of the
    rest of the chain: the locked counter of each denomination is the sum of
    its positions and the vault account covers it; the recorded total supply of
    ZYTD is the sum of all mint records and equals the bank's supply; the mint
    record of every owner and denomination equals the debt of the position; and
    the cached oracle prices are positive. *)
Theorem chain_books_balance parse b w0 w :
  init_chain parse b = (Ok tt, w0) -> rtc step w0 w ->
  parse "0" = Some 0 -> bk_supply b stablecointypes.ZYTDDenom = 0 ->
  (forall va d, vault = Some va -> 0 <= bk_balance b va d) ->
  (forall d, collateralkeeper.total_locked (w_coll w) d = collateralkeeper.locked_sum (w_coll w) d) /\
  (forall va d, vault = Some va -> collateralkeeper.locked_sum (w_coll w) d <= bk_balance (w_bank w) va d) /\
  supply_of (w_sc w) = record_sum (w_sc w) /\
  bk_supply (w_bank w) stablecointypes.ZYTDDenom = record_sum (w_sc w) /\
  (forall a d, VerifyAddressFormat a = true -> minted_at (w_sc w) a d = debt_at (w_coll w) a d) /\
  (forall d t, oraclekeeper.GetTWAP d w = (Ok t, w) -> 0 < oracletypes.TWAP t).
Proof.
  intros Hini Hr Hp Hs Hb. destruct (reachable_inv _ _ _ _ Hini Hr Hp Hs Hb) as [[Hc Hv Hsc Hl Hbk] [_ Ho]].
  split_and!.
  - apply Hc.
  - intros va d Hva. by apply Hv.
  - apply Hsc.
  - rewrite Hbk. apply Hsc.
  - done.
  - intros d t Ht. unfold oraclekeeper.GetTWAP, oraclekeeper.store_get, bind, reads in Ht.
    destruct (w_oracle w !! oraclekeeper.twapKey d) as [[]|] eqn:E; try done. injection Ht as ->. apply (Ho _ _ E).
Qed.

(** C5.  Debt can never be repaid: a consequence of two defects, against what
    the code is documented to do.  msg_server.go describes MsgBurnZYTD as the
    way to return ZYTD and get the collateral back, allowed in all phases, and
    MsgLiquidate as the way to close a position under water.  But both call
    UnlockCollateral while the position still has its debt (lines 264 and 392,
    each before the UpdateMintedZYTD that would reduce it), and UnlockCollateral
    refuses every position with debt.  So, in a chain that starts from genesis
    without ZYTD in the bank, with "0" read as 0 and no vault balance negative:
    from any reachable state on, no BurnZYTD or Liquidate transaction is ever
    delivered successfully, whatever it asks for, and the supply of ZYTD never
    decreases. *)
Theorem zytd_never_retired parse b w0 w w' :
  init_chain parse b = (Ok tt, w0) -> rtc step w0 w -> rtc step w w' ->
  parse "0" = Some 0 -> bk_supply b stablecointypes.ZYTDDenom = 0 ->
  (forall va d, vault = Some va -> 0 <= bk_balance b va d) ->
  bk_supply (w_bank w) stablecointypes.ZYTDDenom <= bk_supply (w_bank w') stablecointypes.ZYTDDenom /\
  (forall ctx m, is_Ok (fst (deliver ctx (TxBurn m) w')) = false) /\
  (forall ctx m, is_Ok (fst (deliver ctx (TxLiquidate m) w')) = false).
Proof.
  intros Hini Hr Hr' Hp Hs Hb. pose proof (reachable_inv _ _ _ _ Hini Hr Hp Hs Hb) as Hi.
  assert (rtc step w0 w') as Hrr by (by transitivity w).
  pose proof (reachable_inv _ _ _ _ Hini Hrr Hp Hs Hb) as [Hi' _]. split; [|split].
  - clear Hini Hr Hrr Hi'. revert Hi. induction Hr' as [|x y z Hxy _ IH]; intros Hi; [done|].
    destruct (step_inv x y Hxy Hi) as [Hi' ?]. specialize (IH Hi'). lia.
  - intros ctx m. unfold deliver, runTx. cbn [ValidateBasic handle].
    destruct (stablecointypes.MsgBurnZYTD_ValidateBasic m) as [[]|e|] eqn:Hv; [|done..].
    pose proof (BurnZYTD_not_ok ctx m w' Hi' Hv) as Hf. unfold void, bind.
    by destruct (BurnZYTD ctx m w') as [[] ?].
  - intros ctx m. unfold deliver, runTx. cbn [ValidateBasic handle].
    destruct (stablecointypes.MsgLiquidate_ValidateBasic m) as [[]|e|]; [|done..].
    pose proof (Liquidate_not_ok ctx m w' (si_coll _ Hi')) as Hf. unfold void, bind.
    by destruct (Liquidate ctx m w') as [[] ?].
Qed.
End Theorems.

(** ** Concrete runs *)
Section Witnesses.
#[local] Existing Instance sdkmath.
#[local] Existing Instance bech32_toy.
#[local] Existing Instance oraclekeeper.two_validators.
#[local] Existing Instance stablecoinkeeper.toy_crypto.
#[local] Instance chain_bank : BankKeeper bankkeeper.BankState := bankkeeper.bank_keeper collateralkeeper.sample_cfg.
#[local] Instance chain_laws : BankLaws bankkeeper.BankState := bankkeeper.bank_laws collateralkeeper.sample_cfg.

Definition read0 (s : string) : option Z := if bool_decide (s = "0") then Some 0 else None.
Definition start : World bankkeeper.BankState := snd (init_chain read0 collateralkeeper.rich_bank).
Definition lock_alice : Tx :=
  TxLock (ibccollateraltypes.mkMsgLockCollateral (AccAddress_String "alice") "uzytc" (Some 400)).
Definition after_lock : World bankkeeper.BankState := snd (deliver (mkCtx 3 30) lock_alice start).

Lemma rich_bank_nonneg va d : vault = Some va -> 0 <= bk_balance collateralkeeper.rich_bank va d.
Proof.
  intros _. cbn. unfold bankkeeper.GetBalance. cbn [bankkeeper.balances collateralkeeper.rich_bank].
  destruct (_ !! _) as [z|] eqn:E; [|done]. apply lookup_singleton_Some in E as [_ <-]. done.
Qed.

Lemma after_lock_reachable : rtc step start after_lock.
Proof.
  apply rtc_once, (step_tx (mkCtx 3 30) lock_alice _ (Ok tt)); [vm_compute; discriminate|vm_compute; reflexivity].
Qed.

Lemma chain_books_balance_witness :
  collateralkeeper.total_locked (w_coll after_lock) "uzytc" = 400 /\
  collateralkeeper.total_locked (w_coll after_lock) "uzytc" = collateralkeeper.locked_sum (w_coll after_lock) "uzytc".
Proof.
  split; [vm_compute; reflexivity|].
  refine (proj1 (chain_books_balance read0 collateralkeeper.rich_bank start after_lock _ after_lock_reachable _ _
    rich_bank_nonneg) "uzytc").
  - vm_compute. reflexivity.
  - reflexivity.
  - reflexivity.
Defined.

Definition burn_alice : stablecointypes.MsgBurnZYTD :=
  stablecointypes.mkMsgBurnZYTD (AccAddress_String "alice") "uzytc" (Some 1) 50 "" "".

Lemma zytd_never_retired_witness :
  rtc step start after_lock /\ is_Ok (fst (deliver (mkCtx 4 40) (TxBurn burn_alice) after_lock)) = false.
Proof.
  split; [exact after_lock_reachable|].
  refine (proj1 (proj2 (zytd_never_retired read0 collateralkeeper.rich_bank start start after_lock _ (rtc_refl _ _)
    after_lock_reachable _ _ rich_bank_nonneg)) (mkCtx 4 40) burn_alice).
  - vm_compute. reflexivity.
  - reflexivity.
  - reflexivity.
Defined.
End Witnesses.
End chain.
