(* ===== verification/Tfhe.v ===== *)
(** Tfhe: x/privacy/tfhe/engine.go over the Rust library.

    The C functions of the bridge call the tfhe-rs crate, which is not part of
    the repository: they are the fields of the class [TFHELib] ([None] is the
    negative length the bridge returns on an error), with what its comments
    promise in [TFHELaws]: results are sums, differences and products modulo
    2^32, provided the operands share the key configuration of the server key.
    The wrappers check their arguments and run the call directly or on a pool
    worker; [Submit] of worker_pool.go runs the job it is given and hands back
    its error. *)

From Stdlib Require Import ZArith Lia Ascii String.
From stdpp Require Import base list strings.
From S2P Require Import Prelude.

Open Scope Z_scope.
Open Scope go_scope.

Class TFHELib : Type := {
  tfhe_encrypt_u32 : string -> Z -> option string;
  tfhe_encrypt_u32_pk : string -> Z -> option string;
  tfhe_add_u32 : string -> string -> string -> option string;
  tfhe_sub_u32 : string -> string -> string -> option string;
  tfhe_mul_scalar_u32 : string -> string -> Z -> option string;
  tfhe_decrypt_u32 : string -> string -> option Z;
  (** The node's client key cache, and whether the worker pool was started. *)
  nodeClientKeyCache : string;
  pool_started : bool;
}.

(** What the comments of the bridge promise.  A client key, its public key and
    its server key are generated together and share a key configuration,
    [key_conf]; [encrypts c ct n] says that [ct] is a ciphertext of [n] under
    the configuration [c].  The sums, differences and products are promised
    only for operands under the configuration of the server key (lib.rs,
    tfhe_add_u32; engine.go, AddUint32), and decryption only under the
    configuration of the client key; about anything else nothing is said. *)
Class TFHELaws `{TFHELib} {Conf : Type} (key_conf : string -> Conf) (encrypts : Conf -> string -> Z -> Prop) : Prop := {
  encrypt_law k n ct : tfhe_encrypt_u32 k n = Some ct -> ct <> "" /\ encrypts (key_conf k) ct (wrap_u32 n);
  encrypt_pk_law k n ct : tfhe_encrypt_u32_pk k n = Some ct -> ct <> "" /\ encrypts (key_conf k) ct (wrap_u32 n);
  add_nonempty sk a b ct : tfhe_add_u32 sk a b = Some ct -> ct <> "";
  sub_nonempty sk a b ct : tfhe_sub_u32 sk a b = Some ct -> ct <> "";
  mul_scalar_nonempty sk a n ct : tfhe_mul_scalar_u32 sk a n = Some ct -> ct <> "";
  add_law sk a b m n ct : encrypts (key_conf sk) a m -> encrypts (key_conf sk) b n ->
    tfhe_add_u32 sk a b = Some ct -> encrypts (key_conf sk) ct (wrap_u32 (m + n));
  sub_law sk a b m n ct : encrypts (key_conf sk) a m -> encrypts (key_conf sk) b n ->
    tfhe_sub_u32 sk a b = Some ct -> encrypts (key_conf sk) ct (wrap_u32 (m - n));
  mul_scalar_law sk a m n ct : encrypts (key_conf sk) a m ->
    tfhe_mul_scalar_u32 sk a n = Some ct -> encrypts (key_conf sk) ct (wrap_u32 (m * n));
  decrypt_law ck ct m n : encrypts (key_conf ck) ct m -> tfhe_decrypt_u32 ck ct = Some n -> n = m;
}.

Module tfhe.
Section Engine.
Context `{TFHELib}.

Definition of_rust {A} (msg : string) (o : option A) : outcome A :=
  match o with Some a => Ok a | None => Err (Errorf msg) end.

(** TFHEWorkerPool.Submit. *)
Definition Submit {A} (fn : outcome A) : outcome A := fn.

Definition on_worker {A} (direct : outcome A) : outcome A :=
  if pool_started then Submit direct else direct.

Definition EncryptUint32 (clientKey : string) (plaintext : Z) : outcome string :=
  if bool_decide (clientKey = "") then Err (Errorf "tfhe: client key is empty")
  else of_rust "tfhe: encryption failed" (tfhe_encrypt_u32 clientKey plaintext).

Definition EncryptWithPublicKey (pubKey : string) (plaintext : Z) : outcome string :=
  if bool_decide (pubKey = "") then Err (Errorf "tfhe: public key is empty")
  else of_rust "tfhe: PublicKey encryption failed" (tfhe_encrypt_u32_pk pubKey plaintext).

(** The server key is not used: the operand is encrypted with the node's
    cached client key. *)
Definition EncryptWithServerKey (serverKey : string) (plaintext : Z) : outcome string :=
  if bool_decide (nodeClientKeyCache = "") then Err (Errorf "tfhe: EncryptWithServerKey: node keys not initialised")
  else EncryptUint32 nodeClientKeyCache plaintext.

Definition AddUint32 (serverKey ct1 ct2 : string) : outcome string :=
  if bool_decide (serverKey = "") then Err (Errorf "tfhe: server key is empty")
  else if bool_decide (ct1 = "") || bool_decide (ct2 = "") then Err (Errorf "tfhe: ciphertext inputs must not be empty")
  else on_worker (of_rust "tfhe: homomorphic add failed" (tfhe_add_u32 serverKey ct1 ct2)).

Definition SubUint32 (serverKey ct1 ct2 : string) : outcome string :=
  if bool_decide (serverKey = "") then Err (Errorf "tfhe: server key is empty")
  else if bool_decide (ct1 = "") || bool_decide (ct2 = "") then Err (Errorf "tfhe: ciphertext inputs must not be empty")
  else on_worker (of_rust "tfhe: homomorphic sub failed" (tfhe_sub_u32 serverKey ct1 ct2)).

Definition MultiplyScalarUint32 (serverKey ct : string) (scalar : Z) : outcome string :=
  if bool_decide (serverKey = "") then Err (Errorf "tfhe: server key is empty")
  else if bool_decide (ct = "") then Err (Errorf "tfhe: ciphertext must not be empty")
  else on_worker (of_rust "tfhe: scalar multiply failed" (tfhe_mul_scalar_u32 serverKey ct scalar)).

Definition DecryptUint32 (clientKey ciphertext : string) : outcome Z :=
  if bool_decide (clientKey = "") then Err (Errorf "tfhe: client key is empty")
  else if bool_decide (ciphertext = "") then Err (Errorf "tfhe: ciphertext is empty")
  else of_rust "tfhe: decryption failed" (tfhe_decrypt_u32 clientKey ciphertext).
End Engine.

Section Lemmas.
Context `{TFHELaws}.

Lemma of_rust_ok {A} msg (o : option A) a : of_rust msg o = Ok a -> o = Some a.
Proof. destruct o; cbn; intros; by simplify_eq. Qed.

Lemma on_worker_id {A} (c : outcome A) : on_worker c = c.
Proof. unfold on_worker. by destruct pool_started. Qed.

Lemma EncryptUint32_encrypts k n ct :
  EncryptUint32 k n = Ok ct -> ct <> "" /\ encrypts (key_conf k) ct (wrap_u32 n).
Proof. unfold EncryptUint32. case_bool_decide; [done|]. intros E%of_rust_ok. by eapply encrypt_law. Qed.

Lemma EncryptWithPublicKey_encrypts k n ct :
  EncryptWithPublicKey k n = Ok ct -> ct <> "" /\ encrypts (key_conf k) ct (wrap_u32 n).
Proof. unfold EncryptWithPublicKey. case_bool_decide; [done|]. intros E%of_rust_ok. by eapply encrypt_pk_law. Qed.

(** The result is under the node's configuration, whatever the server key. *)
Lemma EncryptWithServerKey_encrypts sk n ct :
  EncryptWithServerKey sk n = Ok ct -> ct <> "" /\ encrypts (key_conf nodeClientKeyCache) ct (wrap_u32 n).
Proof. unfold EncryptWithServerKey. case_bool_decide; [done|]. apply EncryptUint32_encrypts. Qed.

Lemma AddUint32_ok sk a b ct : AddUint32 sk a b = Ok ct -> tfhe_add_u32 sk a b = Some ct /\ ct <> "".
Proof.
  unfold AddUint32. rewrite on_worker_id. repeat case_bool_decide; try done.
  intros E%of_rust_ok. split; [done|]. by eapply add_nonempty.
Qed.

Lemma AddUint32_encrypts sk a b m n ct : encrypts (key_conf sk) a m -> encrypts (key_conf sk) b n ->
  AddUint32 sk a b = Ok ct -> encrypts (key_conf sk) ct (wrap_u32 (m + n)).
Proof. intros Ha Hb [E _]%AddUint32_ok. by eapply add_law. Qed.

Lemma SubUint32_ok sk a b ct : SubUint32 sk a b = Ok ct -> tfhe_sub_u32 sk a b = Some ct /\ ct <> "".
Proof.
  unfold SubUint32. rewrite on_worker_id. repeat case_bool_decide; try done.
  intros E%of_rust_ok. split; [done|]. by eapply sub_nonempty.
Qed.

Lemma SubUint32_encrypts sk a b m n ct : encrypts (key_conf sk) a m -> encrypts (key_conf sk) b n ->
  SubUint32 sk a b = Ok ct -> encrypts (key_conf sk) ct (wrap_u32 (m - n)).
Proof. intros Ha Hb [E _]%SubUint32_ok. by eapply sub_law. Qed.

Lemma MultiplyScalarUint32_encrypts sk a m n ct : encrypts (key_conf sk) a m ->
  MultiplyScalarUint32 sk a n = Ok ct -> encrypts (key_conf sk) ct (wrap_u32 (m * n)).
Proof.
  unfold MultiplyScalarUint32. rewrite on_worker_id. intros Ha. repeat case_bool_decide; try done.
  intros E%of_rust_ok. by eapply mul_scalar_law.
Qed.

Lemma DecryptUint32_encrypts ck ct m n : encrypts (key_conf ck) ct m -> DecryptUint32 ck ct = Ok n -> n = m.
Proof.
  unfold DecryptUint32. intros Hc. repeat case_bool_decide; try done. intros E%of_rust_ok. by eapply decrypt_law.
Qed.
End Lemmas.

(** A library that satisfies the laws.  There are two configurations: keys
    that start with u belong to a user, all others to the node.  A ciphertext
    is a letter for its configuration and the number in binary, least
    significant bit first; operations on a foreign ciphertext give noise. *)
Fixpoint bits (p : positive) : string :=
  match p with xH => "e" | xO p => String "0"%char (bits p) | xI p => String "1"%char (bits p) end.
Fixpoint unbits (s : string) : positive :=
  match s with
  | String "0"%char s => xO (unbits s)
  | String "1"%char s => xI (unbits s)
  | _ => xH
  end.
Definition toy_plain (ct : string) : Z :=
  match ct with String _ (String "z"%char _) => 0 | String _ s => Zpos (unbits s) | "" => 0 end.
Definition toy_conf (key : string) : ascii := if String.prefix "u" key then "u"%char else "n"%char.
Definition toy_encode (c : ascii) (n : Z) : string :=
  String c (match wrap_u32 n with Zpos p => bits p | _ => "z" end).
Definition toy_under (c : ascii) (ct : string) : bool :=
  match ct with String d _ => Ascii.eqb c d | "" => false end.
Definition toy_noise : Z := 3735928559.

Definition toy_tfhe : TFHELib := {|
  tfhe_encrypt_u32 k n := Some (toy_encode (toy_conf k) n);
  tfhe_encrypt_u32_pk k n := Some (toy_encode (toy_conf k) n);
  tfhe_add_u32 sk a b := Some (toy_encode (toy_conf sk)
    (if toy_under (toy_conf sk) a && toy_under (toy_conf sk) b then toy_plain a + toy_plain b else toy_noise));
  tfhe_sub_u32 sk a b := Some (toy_encode (toy_conf sk)
    (if toy_under (toy_conf sk) a && toy_under (toy_conf sk) b then toy_plain a - toy_plain b else toy_noise));
  tfhe_mul_scalar_u32 sk a n := Some (toy_encode (toy_conf sk)
    (if toy_under (toy_conf sk) a then toy_plain a * n else toy_noise));
  tfhe_decrypt_u32 ck a := Some (if toy_under (toy_conf ck) a then toy_plain a else toy_noise);
  nodeClientKeyCache := "ck";
  pool_started := true;
|}.

Definition toy_encrypts (c : ascii) (ct : string) (n : Z) : Prop := ct = toy_encode c n /\ 0 <= n < 4294967296.

Lemma toy_encode_plain c n : toy_plain (toy_encode c n) = wrap_u32 n.
Proof.
  assert (Hu : forall p, unbits (bits p) = p) by (induction p; cbn; congruence).
  assert (Hp : forall p, toy_plain (String c (bits p)) = Zpos p)
    by (intros p; pose proof (Hu p); destruct p; cbn in *; congruence).
  unfold toy_encode. pose proof (Z.mod_pos_bound n 4294967296 ltac:(lia)).
  fold (wrap_u32 n) in *. destruct (wrap_u32 n); [done|apply Hp|lia].
Qed.

Lemma toy_encrypts_encode c n : toy_encrypts c (toy_encode c n) (wrap_u32 n).
Proof.
  split; [|apply Z.mod_pos_bound; lia]. unfold toy_encode, wrap_u32. by rewrite Zmod_mod.
Qed.

Lemma toy_encrypts_inv c ct n : toy_encrypts c ct n -> toy_under c ct = true /\ toy_plain ct = n.
Proof.
  intros [-> Hn]. split; [apply Ascii.eqb_refl|]. rewrite toy_encode_plain. by apply Z.mod_small.
Qed.

#[export] Instance toy_tfhe_laws : @TFHELaws toy_tfhe ascii toy_conf toy_encrypts.
Proof.
  split; cbn [tfhe_encrypt_u32 tfhe_encrypt_u32_pk tfhe_add_u32 tfhe_sub_u32 tfhe_mul_scalar_u32 tfhe_decrypt_u32 toy_tfhe].
  1,2: intros k n ct [= <-]; split; [done|apply toy_encrypts_encode].
  1,2: by intros sk a b ct [= <-].
  - by intros sk a n ct [= <-].
  - intros sk a b m n ct [-> ->]%toy_encrypts_inv [-> ->]%toy_encrypts_inv [= <-]. apply toy_encrypts_encode.
  - intros sk a b m n ct [-> ->]%toy_encrypts_inv [-> ->]%toy_encrypts_inv [= <-]. apply toy_encrypts_encode.
  - intros sk a m n ct [-> ->]%toy_encrypts_inv [= <-]. apply toy_encrypts_encode.
  - intros ck ct m n [-> ->]%toy_encrypts_inv [= <-]. done.
Qed.
End tfhe.
