(* ===== verification/Confidential.v ===== *)
(** Confidential: x/stablecoin/keeper/confidential_transfer.go.

    Each account has a ciphertext of its balance (a u32, so arithmetic wraps)
    and a public credit limit (a u64).  Theorems: the limits add up to what was
    minted; the balance of an account is its limit modulo 2^32 as long as its
    registered key, the server keys and the node's client key share a key
    configuration, which the code assumes and does not check, so the limit
    bounds what can be spent exactly while it stays below 2^32; a transfer
    moves its amount and nothing else; a transfer above the limit changes
    nothing.  An account with a key pair of its own loses its balance with its
    first transfer (the witness of [confidential_books]). *)

From Stdlib Require Import ZArith Lia Ascii String.
From stdpp Require Import base gmap sets list strings fin_maps.
From S2P Require Import Prelude Sdk Types Tfhe.

Open Scope Z_scope.
Open Scope go_scope.
Import stablecointypes.

Module confidential.

Definition encZYTDStatePrefix : string := "enc_zytd_v2/".
Definition userTFHEPubKeyPrefix : string := "tfhe_pubkey/".

Definition MaxUint64 : Z := two64 - 1.
Definition MaxUint32 : Z := 4294967295.

Section Keeper.
Context {B : Type} `{Bech32} `{TFHELib}.

Definition zytdStateKey (addr : string) : string := encZYTDStatePrefix +:+ AccAddress_String addr.

Definition zero_state : ZYTDAccountState := mkZYTDAccountState "" 0 0 0.

Definition GetZYTDAccountState (addr : string) : M (World B) ZYTDAccountState :=
  reads (fun w => match w_sc w !! zytdStateKey addr with
                  | Some (VAccount s) => s
                  | _ => zero_state
                  end).

Definition SetZYTDAccountState (addr : string) (s : ZYTDAccountState) : M (World B) unit :=
  modify (fun w => set_sc (<[zytdStateKey addr := VAccount s]> (w_sc w)) w).

Definition userPubKeyStoreKey (addr : string) : string := userTFHEPubKeyPrefix +:+ AccAddress_String addr.

Definition SetUserTFHEPublicKey (addr pubKey : string) : M (World B) unit :=
  if bool_decide (pubKey = "") then throw (Errorf "stablecoin: TFHE public key must not be empty") else
  if (String.length pubKey <? 1024)%nat then throw (Errorf "stablecoin: TFHE public key too small") else
  modify (fun w => set_sc (<[userPubKeyStoreKey addr := VBytes pubKey]> (w_sc w)) w).

Definition GetUserTFHEPublicKey (addr : string) : M (World B) (option string) :=
  reads (fun w => match w_sc w !! userPubKeyStoreKey addr with Some (VBytes k) => Some k | _ => None end).

Definition HasUserTFHEPublicKey (addr : string) : M (World B) bool :=
  reads (fun w => bool_decide (is_Some (w_sc w !! userPubKeyStoreKey addr))).

(** A call of the engine whose error is wrapped. *)
Definition engine {A} (msg : string) (o : outcome A) : M (World B) A :=
  match o with
  | Ok a => ret a
  | Err e => throw (Wrapf msg e)
  | Panic => panic
  end.

(** [limit + amount] on uint64, capped at the maximum when it overflows. *)
Definition add_limit (limit amount : Z) : Z :=
  let s := wrap_u64 (limit + amount) in
  if s <? limit then MaxUint64 else s.

(** The new record of an account. *)
Definition new_state (ctx : Ctx) (ct : string) (limit : Z) : ZYTDAccountState :=
  mkZYTDAccountState ct limit (BlockHeight ctx) (Z.of_nat (String.length ct)).

(** The balance ciphertext plus [enc]; the first credit is [enc] itself. *)
Definition credit (msg serverKey balance enc : string) : M (World B) string :=
  if bool_decide (balance = "") then ret enc else engine msg (tfhe.AddUint32 serverKey balance enc).

Definition ConfidentialMintZYTD (ctx : Ctx) (recipient : string) (mintAmount : Z) (serverKey : string)
    : M (World B) unit :=
  if mintAmount =? 0 then throw (Errorf "stablecoin: mint amount must be > 0") else
  if bool_decide (serverKey = "") then throw (Errorf "stablecoin: server key must not be empty") else
  let! userPubKey := GetUserTFHEPublicKey recipient in
  match userPubKey with
  | None => throw (Errorf "stablecoin: recipient has no registered TFHE public key")
  | Some userPubKey =>
      let! encMintAmount := engine "stablecoin: encrypt mint amount with user public key"
        (tfhe.EncryptWithPublicKey userPubKey mintAmount) in
      let! state := GetZYTDAccountState recipient in
      let! newBalanceCT := credit "stablecoin: homomorphic add during mint" serverKey
        (EncryptedBalance state) encMintAmount in
      let newCreditLimit := add_limit (PublicCreditLimit state) mintAmount in
      SetZYTDAccountState recipient (new_state ctx newBalanceCT newCreditLimit) ;;!
      EmitEvent (NewEvent "confidential_mint_zytd"
        [("recipient", AStr (AccAddress_String recipient)); ("new_credit_limit", AInt newCreditLimit);
         ("balance_ct_size_bytes", AInt (Z.of_nat (String.length newBalanceCT)))])
  end.

Definition ConfidentialTransferZYTD (ctx : Ctx) (sender recipient : string) (plaintextAmount : Z)
    (serverKey : string) : M (World B) unit :=
  if plaintextAmount =? 0 then throw (Errorf "stablecoin: transfer amount must be > 0") else
  if MaxUint32 <? plaintextAmount then throw (Errorf "stablecoin: transfer amount overflows uint32") else
  if bool_decide (serverKey = "") then throw (Errorf "stablecoin: server key must not be empty") else
  let! senderState := GetZYTDAccountState sender in
  if bool_decide (EncryptedBalance senderState = "")
  then throw (Errorf "stablecoin: sender has no encrypted ZYTD balance") else
  if PublicCreditLimit senderState <? plaintextAmount
  then throw (Errorf "stablecoin: transfer amount exceeds sender credit limit") else
  let! encAmount := engine "stablecoin: encrypt transfer amount"
    (tfhe.EncryptWithServerKey serverKey plaintextAmount) in
  let! newSenderCT := engine "stablecoin: homomorphic sub (sender deduction)"
    (tfhe.SubUint32 serverKey (EncryptedBalance senderState) encAmount) in
  let newSenderCreditLimit := wrap_u64 (PublicCreditLimit senderState - plaintextAmount) in
  SetZYTDAccountState sender (new_state ctx newSenderCT newSenderCreditLimit) ;;!
  let! recipientPubKey := GetUserTFHEPublicKey recipient in
  match recipientPubKey with
  | None => throw (Errorf "stablecoin: recipient has no registered TFHE public key")
  | Some recipientPubKey =>
      let! encAmountForRecipient := engine "stablecoin: encrypt transfer amount for recipient"
        (tfhe.EncryptWithPublicKey recipientPubKey plaintextAmount) in
      let! recipientState := GetZYTDAccountState recipient in
      let! newRecipientCT := credit "stablecoin: homomorphic add (recipient credit)" serverKey
        (EncryptedBalance recipientState) encAmountForRecipient in
      let newRecipientCreditLimit := add_limit (PublicCreditLimit recipientState) plaintextAmount in
      SetZYTDAccountState recipient (new_state ctx newRecipientCT newRecipientCreditLimit) ;;!
      EmitEvent (NewEvent "confidential_transfer_zytd"
        [("sender", AStr (AccAddress_String sender)); ("recipient", AStr (AccAddress_String recipient));
         ("amount", AInt plaintextAmount); ("sender_new_credit_limit", AInt newSenderCreditLimit)])
  end.

(** QueryEncryptedZYTDBalance: the ciphertext and its size. *)
Definition QueryEncryptedZYTDBalance (addr : string) : M (World B) (string * Z) :=
  let! state := GetZYTDAccountState addr in
  if bool_decide (EncryptedBalance state = "") then ret ("", 0)
  else ret (EncryptedBalance state, SizeBytes state).

Definition QueryCreditLimit (addr : string) : M (World B) Z :=
  let! state := GetZYTDAccountState addr in ret (PublicCreditLimit state).
End Keeper.

Section Theorems.
Context {B : Type} `{Bech32Laws}.
Context `{!TFHELib} {Conf : Type} (key_conf : string -> Conf) (encrypts : Conf -> string -> Z -> Prop) `{!TFHELaws key_conf encrypts}.
Implicit Types (w : World B) (m : gmap string value).

Definition account m (a : string) : ZYTDAccountState :=
  match m !! zytdStateKey a with Some (VAccount s) => s | _ => zero_state end.

Definition limit_at m (a : string) : Z := PublicCreditLimit (account m a).

(** The number [n] a record's balance stands for under a configuration:
    nothing yet is zero. *)
Definition rec_balance (c : Conf) (s : ZYTDAccountState) (n : Z) : Prop :=
  if bool_decide (EncryptedBalance s = "") then n = 0 else encrypts c (EncryptedBalance s) n.
Definition balance_is (c : Conf) m (a : string) (n : Z) : Prop := rec_balance c (account m a) n.

(** The key an account has registered, if any, is of the configuration [c]. *)
Definition key_shared (c : Conf) m (a : string) : Prop :=
  forall pk, m !! userPubKeyStoreKey a = Some (VBytes pk) -> key_conf pk = c.

Lemma engine_ok {A} msg (o : outcome A) w a w' : engine msg o w = (Ok a, w') -> o = Ok a /\ w' = w.
Proof. destruct o; cbv; intros; by simplify_eq. Qed.

Lemma credit_ok msg sk bal enc w ct w' : credit msg sk bal enc w = (Ok ct, w') -> enc <> "" ->
  w' = w /\ ct <> "" /\
  forall c x n, key_conf sk = c -> (if bool_decide (bal = "") then x = 0 else encrypts c bal x) ->
    encrypts c enc (wrap_u32 n) -> encrypts c ct (wrap_u32 (x + n)).
Proof.
  unfold credit. intros Hr Hne. case_bool_decide.
  - apply ret_ok in Hr as [-> ->]. split_and!; [done..|]. intros c x n _ -> He. exact He.
  - apply engine_ok in Hr as [Ha ->]. split; [done|]. split; [apply (tfhe.AddUint32_ok _ _ _ _ Ha)|].
    intros c x n <- Hx He. pose proof (tfhe.AddUint32_encrypts _ _ _ _ _ _ Hx He Ha) as E.
    unfold wrap_u32 in *. by rewrite Zplus_mod_idemp_r in E.
Qed.

Lemma add_limit_exact limit n : 0 <= limit -> 0 <= n -> limit + n < two64 -> add_limit limit n = limit + n.
Proof.
  intros. unfold add_limit. rewrite wrap_u64_id by lia.
  destruct (Z.ltb_spec (limit + n) limit); [lia|done].
Qed.

(** One account's record is replaced. *)
Definition set_account m (a : string) (s : ZYTDAccountState) := <[zytdStateKey a := VAccount s]> m.

(** The account gets [n] more.  Its balance follows when the server key and the
    key it registered share a configuration. *)
Definition credited sk m m' (a : string) (n : Z) : Prop := exists s,
  m' = set_account m a s /\ EncryptedBalance s <> "" /\
  PublicCreditLimit s = add_limit (limit_at m a) n /\
  forall c b, key_conf sk = c -> key_shared c m a -> balance_is c m a b ->
    encrypts c (EncryptedBalance s) (wrap_u32 (b + n)).

(** The account pays [n].  Its balance follows when the server key shares the
    configuration of the node's client key. *)
Definition debited sk m m' (a : string) (n : Z) : Prop := exists s,
  m' = set_account m a s /\ EncryptedBalance s <> "" /\
  PublicCreditLimit s = wrap_u64 (limit_at m a - n) /\
  forall c b, key_conf sk = c -> key_conf nodeClientKeyCache = c -> balance_is c m a b ->
    encrypts c (EncryptedBalance s) (wrap_u32 (b - n)).

(** Reading the account, adding the encrypted amount and writing it back, as
    the mint and the second half of a transfer do. *)
Lemma credit_run ctx msg sk a n pk enc w st w1 ct w2 u w3 :
  w_sc w !! userPubKeyStoreKey a = Some (VBytes pk) -> tfhe.EncryptWithPublicKey pk n = Ok enc ->
  GetZYTDAccountState a w = (Ok st, w1) ->
  credit msg sk (EncryptedBalance st) enc w1 = (Ok ct, w2) ->
  SetZYTDAccountState a (new_state ctx ct (add_limit (PublicCreditLimit st) n)) w2 = (Ok u, w3) ->
  credited sk (w_sc w) (w_sc w3) a n.
Proof.
  unfold GetZYTDAccountState, SetZYTDAccountState.
  intros Hpk [Hne He]%tfhe.EncryptWithPublicKey_encrypts Hg Hc Hs. inv_go.
  destruct (credit_ok _ _ _ _ _ _ _ Hc Hne) as (-> & Hct & E).
  exists (new_state ctx ct (add_limit (PublicCreditLimit (account (w_sc w) a)) n)). split_and!; [done..|].
  intros c b Hsk Hkey Hb. apply E; [done|exact Hb|]. by rewrite <- (Hkey pk Hpk).
Qed.

(** Reading the account, subtracting and writing it back: the first half of a
    transfer. *)
Lemma debit_run ctx sk a n enc w st w1 ct u w2 :
  GetZYTDAccountState a w = (Ok st, w1) -> bool_decide (EncryptedBalance st = "") = false ->
  tfhe.EncryptWithServerKey sk n = Ok enc -> tfhe.SubUint32 sk (EncryptedBalance st) enc = Ok ct ->
  SetZYTDAccountState a (new_state ctx ct (wrap_u64 (PublicCreditLimit st - n))) w1 = (Ok u, w2) ->
  st = account (w_sc w) a /\ debited sk (w_sc w) (w_sc w2) a n.
Proof.
  unfold GetZYTDAccountState, SetZYTDAccountState. intros Hg He Henc Hsub Hs. inv_go. split; [done|].
  apply tfhe.EncryptWithServerKey_encrypts in Henc as [_ Henc].
  exists (new_state ctx ct (wrap_u64 (PublicCreditLimit (account (w_sc w) a) - n))).
  split_and!; [done|apply (tfhe.SubUint32_ok _ _ _ _ Hsub)|done|].
  intros c b <- Hnode Hb. unfold balance_is, rec_balance, account in Hb. rewrite He in Hb. rewrite Hnode in Henc.
  pose proof (tfhe.SubUint32_encrypts _ _ _ _ _ _ Hb Henc Hsub) as E. unfold wrap_u32 in *.
  by rewrite Zminus_mod_idemp_r in E.
Qed.

Lemma registered_key (o : option value) pk :
  Some pk = match o with Some (VBytes k) => Some k | _ => None end -> o = Some (VBytes pk).
Proof. by destruct o as [[]|]; intros [= ->]. Qed.

Lemma EmitEvent_sc e w u w' : EmitEvent e w = (Ok u, w') -> w_sc w' = w_sc w.
Proof. unfold EmitEvent. intros. by inv_go. Qed.

Lemma ConfidentialMintZYTD_ok ctx a n sk w u w' :
  ConfidentialMintZYTD ctx a n sk w = (Ok u, w') -> credited sk (w_sc w) (w_sc w') a n.
Proof.
  unfold ConfidentialMintZYTD, GetUserTFHEPublicKey. intros Hr. inv_go.
  repeat match goal with H : engine _ _ _ = _ |- _ => apply engine_ok in H as [? ->] end.
  match goal with H : EmitEvent _ _ = _ |- _ => apply EmitEvent_sc in H as -> end.
  eapply credit_run; eauto.
Qed.

Lemma ConfidentialTransferZYTD_ok ctx a b n sk w u w' :
  ConfidentialTransferZYTD ctx a b n sk w = (Ok u, w') ->
  n <= limit_at (w_sc w) a /\ exists m1, debited sk (w_sc w) m1 a n /\ credited sk m1 (w_sc w') b n.
Proof.
  unfold ConfidentialTransferZYTD. intros Hr. inv_go.
  repeat match goal with H : engine _ _ _ = _ |- _ => apply engine_ok in H as [? ->] end.
  unfold GetUserTFHEPublicKey in *. inv_go.
  match goal with H : EmitEvent _ _ = _ |- _ => apply EmitEvent_sc in H as -> end.
  match goal with Hg : GetZYTDAccountState a _ = (Ok ?st, _), Hs : SetZYTDAccountState a _ _ = (_, ?w2) |- _ =>
    assert (st = account (w_sc w) a /\ debited sk (w_sc w) (w_sc w2) a n) as [Hst Hd] by (eapply debit_run; eauto) end.
  subst. split; [unfold limit_at; lia|].
  eexists. split; [exact Hd|]. eapply credit_run; eauto using registered_key.
Qed.

(** ** The books *)

Definition limit_of (v : value) : Z := match v with VAccount s => PublicCreditLimit s | _ => 0 end.

Definition total_limits m : Z := map_sum (fun _ => limit_of) m.

(** Every account record has a limit and lies under the accounts' prefix. *)
Definition conf_inv m : Prop := forall k s, m !! k = Some (VAccount s) ->
  0 <= PublicCreditLimit s /\ String.prefix encZYTDStatePrefix k = true.

Lemma conf_inv_set m a s : conf_inv m -> 0 <= PublicCreditLimit s -> conf_inv (set_account m a s).
Proof.
  unfold set_account. intros Hi Hs k s' [[<- E]|[_ E]]%lookup_insert_Some; [|by eapply Hi].
  simplify_eq. split; [done|]. apply prefix_iff. eexists. reflexivity.
Qed.

Lemma total_limits_set m a s : total_limits (set_account m a s) = total_limits m + PublicCreditLimit s - limit_at m a.
Proof.
  unfold total_limits, set_account, limit_at, account. rewrite map_sum_insert.
  by destruct (m !! zytdStateKey a) as [[]|].
Qed.

Lemma total_limits_none m : (forall k s, m !! k <> Some (VAccount s)) -> total_limits m = 0.
Proof.
  intros Hno. apply map_sum_zero. intros k [] E; [done..|]. by apply Hno in E.
Qed.

Lemma limit_le_total m a : conf_inv m -> 0 <= limit_at m a <= total_limits m.
Proof.
  intros Hi.
  assert (Hp : forall k v, m !! k = Some v -> 0 <= limit_of v) by (intros k [] ?; cbn; [lia..|]; by eapply Hi).
  pose proof (map_sum_nonneg (fun _ => limit_of) m Hp : 0 <= total_limits m).
  unfold limit_at, account. destruct (m !! zytdStateKey a) as [v|] eqn:E; [|cbn; lia].
  pose proof (map_sum_lookup_le (fun _ => limit_of) m _ v Hp E : limit_of v <= total_limits m).
  pose proof (Hp _ _ E). by destruct v; cbn in *.
Qed.

Lemma credited_inv sk m m' a n :
  credited sk m m' a n -> 0 <= n -> conf_inv m -> total_limits m + n < two64 ->
  conf_inv m' /\ total_limits m' = total_limits m + n.
Proof.
  intros (s & -> & _ & Hl & _) Hn Hi Hb. pose proof (limit_le_total m a Hi).
  rewrite add_limit_exact in Hl by lia. rewrite total_limits_set, Hl. split; [|lia].
  apply conf_inv_set; [done|lia].
Qed.

Lemma debited_inv sk m m' a n :
  debited sk m m' a n -> 0 <= n <= limit_at m a -> conf_inv m -> total_limits m < two64 ->
  conf_inv m' /\ total_limits m' = total_limits m - n.
Proof.
  intros (s & -> & _ & Hl & _) Hn Hi Hb. pose proof (limit_le_total m a Hi).
  rewrite wrap_u64_id in Hl by lia. rewrite total_limits_set, Hl. split; [|lia].
  apply conf_inv_set; [done|lia].
Qed.

(** *** The limit of each account

    Accounts are compared by their bech32 text, as the store keys are. *)

Definition same_account (a b : string) : bool := bool_decide (AccAddress_String a = AccAddress_String b).

Lemma account_set_text m a s b :
  account (set_account m a s) b = if same_account a b then s else account m b.
Proof.
  unfold account, set_account, zytdStateKey, same_account. case_bool_decide as E.
  - by rewrite E, lookup_insert_eq.
  - rewrite lookup_insert_ne; [done|]. intros E'. apply string_app_inj in E'. done.
Qed.

Lemma account_text m a b : same_account a b = true -> account m a = account m b.
Proof. intros E%bool_decide_eq_true. unfold account, zytdStateKey. by rewrite E. Qed.

Lemma limit_at_set m a s b :
  limit_at (set_account m a s) b = if same_account a b then PublicCreditLimit s else limit_at m b.
Proof. unfold limit_at. rewrite account_set_text. by destruct (same_account a b). Qed.

Lemma credited_limit sk m m' a n b : credited sk m m' a n -> 0 <= n -> conf_inv m -> total_limits m + n < two64 ->
  limit_at m' b = limit_at m b + (if same_account a b then n else 0).
Proof.
  intros (s & -> & _ & Hl & _) Hn Hi Hb. pose proof (limit_le_total m a Hi). rewrite limit_at_set.
  destruct (same_account a b) eqn:E; [|lia]. rewrite Hl, add_limit_exact by lia.
  unfold limit_at. by rewrite (account_text m a b E).
Qed.

Lemma debited_limit sk m m' a n b : debited sk m m' a n -> 0 <= n <= limit_at m a -> conf_inv m -> total_limits m < two64 ->
  limit_at m' b = limit_at m b - (if same_account a b then n else 0).
Proof.
  intros (s & -> & _ & Hl & _) Hn Hi Hb. pose proof (limit_le_total m a Hi). rewrite limit_at_set.
  destruct (same_account a b) eqn:E; [|lia]. rewrite Hl, wrap_u64_id by lia.
  unfold limit_at. by rewrite (account_text m a b E).
Qed.

(** *** One account whose keys are of the configuration of the node *)

Lemma key_shared_text c m a b : same_account a b = true -> key_shared c m a <-> key_shared c m b.
Proof. intros E%bool_decide_eq_true. unfold key_shared, userPubKeyStoreKey. by rewrite E. Qed.

Lemma key_shared_set c m a s b : key_shared c (set_account m a s) b <-> key_shared c m b.
Proof. unfold key_shared, set_account. by rewrite lookup_insert_ne. Qed.

(** The account's balance is its limit modulo 2^32. *)
Definition in_step (c : Conf) m (a : string) : Prop := balance_is c m a (wrap_u32 (limit_at m a)).

Lemma in_step_set c m a s b : EncryptedBalance s <> "" ->
  (same_account a b = true -> encrypts c (EncryptedBalance s) (wrap_u32 (PublicCreditLimit s))) ->
  (same_account a b = false -> in_step c m b) -> in_step c (set_account m a s) b.
Proof.
  intros Hne Hs Hb. unfold in_step, balance_is, limit_at, rec_balance in *. rewrite account_set_text.
  destruct (same_account a b); [|by apply Hb]. rewrite bool_decide_false by done. by apply Hs.
Qed.

Lemma credited_in_step c sk m m' a b n :
  credited sk m m' a n -> 0 <= n -> conf_inv m -> total_limits m + n < two64 ->
  (same_account a b = true -> key_conf sk = c) -> key_shared c m b -> in_step c m b ->
  in_step c m' b /\ key_shared c m' b.
Proof.
  intros (s & -> & Hne & Hl & He) Hn Hi Hb Hsk Hk Hst. rewrite key_shared_set. split; [|done].
  pose proof (limit_le_total m a Hi). rewrite add_limit_exact in Hl by lia.
  apply in_step_set; [done| |done]. intros Eab. rewrite Hl.
  assert (in_step c m a) as Ha by (unfold in_step, balance_is, limit_at in *; by rewrite (account_text m a b Eab)).
  pose proof (He c _ (Hsk Eab) (proj2 (key_shared_text c m a b Eab) Hk) Ha) as E. unfold wrap_u32 in *.
  by rewrite Zplus_mod_idemp_l in E.
Qed.

Lemma debited_in_step c sk m m' a b n :
  debited sk m m' a n -> 0 <= n <= limit_at m a -> conf_inv m -> total_limits m < two64 ->
  (same_account a b = true -> key_conf sk = c) -> key_conf nodeClientKeyCache = c -> key_shared c m b -> in_step c m b ->
  in_step c m' b /\ key_shared c m' b.
Proof.
  intros (s & -> & Hne & Hl & He) Hn Hi Hb Hsk Hnode Hk Hst. rewrite key_shared_set. split; [|done].
  pose proof (limit_le_total m a Hi). rewrite wrap_u64_id in Hl by lia.
  apply in_step_set; [done| |done]. intros Eab. rewrite Hl.
  assert (in_step c m a) as Ha by (unfold in_step, balance_is, limit_at in *; by rewrite (account_text m a b Eab)).
  pose proof (He c _ (Hsk Eab) Hnode Ha) as E. unfold wrap_u32 in *. by rewrite Zminus_mod_idemp_l in E.
Qed.

(** ** Sequences of operations *)

(** Calls of the keeper, each on its own branch of the store. *)
Inductive conf_op : Type :=
  | OpRegister (addr pubKey : string)
  | OpMint (ctx : Ctx) (recipient : string) (amount : Z) (serverKey : string)
  | OpTransfer (ctx : Ctx) (sender recipient : string) (amount : Z) (serverKey : string).

Definition exec_op (op : conf_op) : M (World B) unit :=
  match op with
  | OpRegister a k => SetUserTFHEPublicKey a k
  | OpMint ctx a n sk => ConfidentialMintZYTD ctx a n sk
  | OpTransfer ctx a b n sk => ConfidentialTransferZYTD ctx a b n sk
  end.

(** The amounts are of the width the code gives them. *)
Definition op_width (op : conf_op) : Prop :=
  match op with
  | OpRegister _ _ => True
  | OpMint _ _ n _ => 0 <= n <= MaxUint32
  | OpTransfer _ _ _ n _ => 0 <= n <= MaxUint64
  end.

Definition minted_by (op : conf_op) (r : outcome unit) : Z :=
  match op, r with OpMint _ _ n _, Ok _ => n | _, _ => 0 end.

(** Runs the operations; also counts what the successful mints minted. *)
Fixpoint run_ops (ops : list conf_op) (w : World B) : Z * World B :=
  match ops with
  | [] => (0, w)
  | op :: ops =>
      let '(r, w1) := runTx (exec_op op) w in
      let '(t, w2) := run_ops ops w1 in
      (minted_by op r + t, w2)
  end.

Lemma register_inv a k w u w' :
  SetUserTFHEPublicKey a k w = (Ok u, w') -> conf_inv (w_sc w) ->
  conf_inv (w_sc w') /\ total_limits (w_sc w') = total_limits (w_sc w).
Proof.
  unfold SetUserTFHEPublicKey. intros Hr Hi. inv_go. cbn.
  assert (Hno : forall s, w_sc w !! userPubKeyStoreKey a <> Some (VAccount s))
    by (intros s [_ E]%Hi; cbn in E; discriminate E).
  split.
  - intros k' s [[_ E]|[_ E]]%lookup_insert_Some; [done|by apply Hi].
  - unfold total_limits. rewrite map_sum_insert. cbn.
    destruct (w_sc w !! userPubKeyStoreKey a) as [[]|] eqn:E; cbn; [lia..|by destruct (Hno s)|lia].
Qed.

Lemma op_inv op w r w1 :
  op_width op -> runTx (exec_op op) w = (r, w1) -> conf_inv (w_sc w) ->
  total_limits (w_sc w) + minted_by op r < two64 ->
  conf_inv (w_sc w1) /\ total_limits (w_sc w1) = total_limits (w_sc w) + minted_by op r.
Proof.
  intros Hw Hr Hi Hb. destruct r as [u|e|]; cycle 1;
    [apply runTx_revert in Hr as ->; destruct op; cbn; split; [done|lia|done|lia|done|lia]..|].
  apply (proj1 (runTx_ok _ _ _ _)) in Hr. destruct op as [a k|ctx a n sk|ctx a b n sk]; cbn in *.
  - rewrite Z.add_0_r. by eapply register_inv.
  - eapply credited_inv; [by eapply ConfidentialMintZYTD_ok|lia|done..].
  - apply ConfidentialTransferZYTD_ok in Hr as (Hle & m1 & Hd & Hc).
    destruct (debited_inv _ _ _ _ _ Hd) as [Hi1 Ht1]; [lia|done|lia|].
    destruct (credited_inv _ _ _ _ _ Hc) as [Hi2 Ht2]; [lia|done|lia|]. split; [done|lia].
Qed.

Lemma minted_by_nonneg op r : op_width op -> 0 <= minted_by op r.
Proof. destruct op, r; cbn; lia. Qed.

Lemma run_ops_nonneg ops w : Forall op_width ops -> 0 <= fst (run_ops ops w).
Proof.
  intros Hw. revert w. induction Hw as [|op ops Hop _ IH]; intros w; cbn [run_ops]; [done|].
  destruct (runTx (exec_op op) w) as [r w1]. specialize (IH w1). destruct (run_ops ops w1). cbn in *.
  pose proof (minted_by_nonneg op r Hop). lia.
Qed.

Lemma run_ops_inv ops w : Forall op_width ops -> conf_inv (w_sc w) ->
  total_limits (w_sc w) + fst (run_ops ops w) < two64 ->
  conf_inv (w_sc (snd (run_ops ops w))) /\
  total_limits (w_sc (snd (run_ops ops w))) = total_limits (w_sc w) + fst (run_ops ops w).
Proof.
  intros Hw. revert w. induction Hw as [|op ops Hop Hops IH]; intros w Hi; cbn [run_ops].
  - cbn. intros _. split; [done|lia].
  - destruct (runTx (exec_op op) w) as [r w1] eqn:Er. pose proof (run_ops_nonneg ops w1 Hops). specialize (IH w1).
    destruct (run_ops ops w1) as [t w2]. cbn in *. intros Hb.
    destruct (op_inv op w r w1 Hop Er Hi) as [Hi1 Ht1]; [lia|].
    destruct IH as [Hi2 Ht2]; [done|lia|]. split; [done|lia].
Qed.

(** What the operations do with the keys of the account [a]: whatever is
    registered for it, and every server key its balance is computed with, is
    of the configuration [c]. *)
Definition op_shares (c : Conf) (a : string) (op : conf_op) : Prop :=
  match op with
  | OpRegister b pk => same_account b a = true -> key_conf pk = c
  | OpMint _ b _ sk => same_account b a = true -> key_conf sk = c
  | OpTransfer _ b b' _ sk => same_account b a = true \/ same_account b' a = true -> key_conf sk = c
  end.

Lemma register_in_step c a b pk w u w' :
  SetUserTFHEPublicKey b pk w = (Ok u, w') -> (same_account b a = true -> key_conf pk = c) ->
  key_shared c (w_sc w) a -> in_step c (w_sc w) a -> in_step c (w_sc w') a /\ key_shared c (w_sc w') a.
Proof.
  unfold SetUserTFHEPublicKey. intros Hr Hpk Hk Hst. inv_go. cbn. split.
  - unfold in_step, balance_is, limit_at, account in *. by rewrite lookup_insert_ne.
  - intros pk'. destruct (decide (userPubKeyStoreKey b = userPubKeyStoreKey a)) as [E|E].
    + rewrite E, lookup_insert_eq. intros [= <-]. apply Hpk, bool_decide_eq_true. by apply string_app_inj in E.
    + rewrite lookup_insert_ne by done. apply Hk.
Qed.

Lemma op_in_step c a op w r w1 : key_conf nodeClientKeyCache = c -> op_shares c a op ->
  op_width op -> runTx (exec_op op) w = (r, w1) -> conf_inv (w_sc w) ->
  total_limits (w_sc w) + minted_by op r < two64 -> key_shared c (w_sc w) a -> in_step c (w_sc w) a ->
  in_step c (w_sc w1) a /\ key_shared c (w_sc w1) a.
Proof.
  intros Hnode Hs Hw Hr Hi Hb Hk Hst. destruct r as [u|e|]; cycle 1; [apply runTx_revert in Hr as ->; done..|].
  apply (proj1 (runTx_ok _ _ _ _)) in Hr. destruct op as [b k|ctx b n sk|ctx b b' n sk]; cbn in *.
  - by eapply register_in_step.
  - eapply credited_in_step; [by eapply ConfidentialMintZYTD_ok|lia|done..].
  - apply ConfidentialTransferZYTD_ok in Hr as (Hle & m1 & Hd & Hc).
    destruct (debited_inv _ _ _ _ _ Hd) as [Hi1 Ht1]; [lia|done|lia|].
    destruct (debited_in_step c _ _ _ _ a _ Hd) as [Hst1 Hk1]; [lia|done|lia|by auto|done..|].
    eapply credited_in_step; [exact Hc|lia|done|lia|by auto|done..].
Qed.

Lemma run_ops_in_step c a ops w : key_conf nodeClientKeyCache = c -> Forall (op_shares c a) ops ->
  Forall op_width ops -> conf_inv (w_sc w) -> total_limits (w_sc w) + fst (run_ops ops w) < two64 ->
  key_shared c (w_sc w) a -> in_step c (w_sc w) a -> in_step c (w_sc (snd (run_ops ops w))) a.
Proof.
  intros Hnode Hs Hw. revert w. induction Hw as [|op ops Hop Hops IH]; intros w Hi; cbn [run_ops]; [done|].
  apply Forall_cons in Hs as [Hs1 Hs]. destruct (runTx (exec_op op) w) as [r w1] eqn:Er.
  pose proof (run_ops_nonneg ops w1 Hops) as Hnn. specialize (IH Hs w1).
  destruct (run_ops ops w1) as [t w2]. cbn in *. intros Hb Hk Hst. pose proof (minted_by_nonneg op r Hop).
  destruct (op_inv op w r w1 Hop Er Hi) as [Hi1 Ht1]; [lia|].
  destruct (op_in_step c a op w r w1) as [Hst1 Hk1]; try done; [lia|]. apply IH; [done|lia|done..].
Qed.

(** C36: the confidential books.  Start from a store with no accounts and run
    any sequence of key registrations, mints and transfers (failed ones are
    rolled back) that mints less than 2^64 in all.  Then the public credit
    limits add up to exactly what was minted, whoever holds which keys.  The
    encrypted balance of an account is in step with its limit on the condition
    that the code itself names for its subtraction (confidential_transfer.go,
    line 302): when the public key the account registers, the node's client key
    and the server keys used for it share one key configuration, then whoever
    decrypts its balance with a client key of that configuration gets its limit
    modulo 2^32, and the limit itself while at most 2^32 - 1 was minted.
    A user with a key pair of his own is outside this condition, and the
    comment's "PublicCreditLimit <= true balance (always)" does not hold for
    him, nor from 2^32 on for anyone. *)
Theorem confidential_books ops w :
  Forall op_width ops ->
  (forall k s, w_sc w !! k <> Some (VAccount s)) ->
  fst (run_ops ops w) < two64 ->
  let m := w_sc (snd (run_ops ops w)) in
  total_limits m = fst (run_ops ops w) /\
  forall c a, key_conf nodeClientKeyCache = c -> key_shared c (w_sc w) a -> Forall (op_shares c a) ops ->
    if bool_decide (EncryptedBalance (account m a) = "") then wrap_u32 (limit_at m a) = 0 else
    encrypts c (EncryptedBalance (account m a)) (wrap_u32 (limit_at m a)) /\
    forall ck n, key_conf ck = c -> tfhe.DecryptUint32 ck (EncryptedBalance (account m a)) = Ok n ->
      n = wrap_u32 (limit_at m a) /\ (fst (run_ops ops w) <= MaxUint32 -> n = limit_at m a).
Proof.
  intros Hops Hno Hb m.
  assert (conf_inv (w_sc w)) as Hi by (intros k s E; by apply Hno in E).
  assert (total_limits (w_sc w) = 0) as H0' by (apply total_limits_none; done).
  destruct (run_ops_inv ops w Hops Hi) as [Hi' Ht]; [lia|]. fold m in Hi', Ht.
  split; [lia|]. intros c a Hnode Hk Hs. pose proof (limit_le_total m a Hi').
  assert (in_step c (w_sc w) a) as Hst.
  { unfold in_step, balance_is, limit_at, account. by destruct (w_sc w !! zytdStateKey a) as [[]|] eqn:E; [..|by apply Hno in E|]. }
  apply (run_ops_in_step c a ops w Hnode Hs Hops Hi) in Hst; [|lia|done]. fold m in Hst.
  unfold in_step, balance_is, rec_balance in Hst. case_bool_decide; [done|]. split; [exact Hst|].
  intros ck n <- Hn. rewrite (tfhe.DecryptUint32_encrypts _ _ _ _ Hst Hn). split; [done|].
  intros Hm. apply Z.mod_small. unfold MaxUint32 in *. lia.
Qed.

(** A transfer that succeeds is covered by the sender's limit and moves
    exactly its amount: with room below 2^64, the sender's limit drops by it,
    the recipient's rises by it, every other account keeps its limit, and a
    transfer to oneself changes nothing.  An account that was in step stays in
    step if the server key, the node's client key and its registered key share
    a configuration. *)
Theorem ConfidentialTransferZYTD_effect ctx a b n sk w u w' :
  0 <= n -> conf_inv (w_sc w) -> total_limits (w_sc w) < two64 ->
  ConfidentialTransferZYTD ctx a b n sk w = (Ok u, w') ->
  n <= limit_at (w_sc w) a /\
  forall x,
    limit_at (w_sc w') x = limit_at (w_sc w) x + (if same_account b x then n else 0) - (if same_account a x then n else 0) /\
    forall c, key_conf sk = c -> key_conf nodeClientKeyCache = c -> key_shared c (w_sc w) x ->
      in_step c (w_sc w) x -> in_step c (w_sc w') x.
Proof.
  intros Hn Hi Hbd (Hle & m1 & Hd & Hc)%ConfidentialTransferZYTD_ok. split; [done|]. intros x.
  destruct (debited_inv _ _ _ _ _ Hd) as [Hi1 Ht1]; [lia|done|done|].
  split.
  - rewrite (credited_limit _ _ _ _ _ x Hc), (debited_limit _ _ _ _ _ x Hd) by (done || lia). lia.
  - intros c Hsk Hnode Hk Hst.
    destruct (debited_in_step c _ _ _ _ x _ Hd) as [Hst1 Hk1]; [lia|done..|].
    by eapply (credited_in_step c _ _ _ _ x _ Hc); [lia|done|lia|..].
Qed.

(** An engine whose calls succeed on non-empty arguments. *)
Record engine_total : Prop := {
  total_encrypt k n : is_Some (tfhe_encrypt_u32 k n);
  total_encrypt_pk k n : is_Some (tfhe_encrypt_u32_pk k n);
  total_add sk a b : is_Some (tfhe_add_u32 sk a b);
  total_sub sk a b : is_Some (tfhe_sub_u32 sk a b);
  total_cache : nodeClientKeyCache <> "";
}.

(** What a transfer needs. *)
Definition transfer_guard m (a b : string) (n : Z) (sk : string) : bool :=
  negb (n =? 0) && (n <=? MaxUint32) && negb (bool_decide (sk = "")) &&
  negb (bool_decide (EncryptedBalance (account m a) = "")) && (n <=? limit_at m a) &&
  match m !! userPubKeyStoreKey b with Some (VBytes k) => negb (bool_decide (k = "")) | _ => false end.

Lemma engine_run {A} msg (o : outcome A) w a : o = Ok a -> engine msg o w = (Ok a, w).
Proof. by intros ->. Qed.

Lemma pubkey_after_set m a s b :
  (<[zytdStateKey a := VAccount s]> m) !! userPubKeyStoreKey b = m !! userPubKeyStoreKey b.
Proof. by rewrite lookup_insert_ne. Qed.

Lemma EncryptWithServerKey_total sk n : engine_total -> exists ct, tfhe.EncryptWithServerKey sk n = Ok ct.
Proof.
  intros Ht. unfold tfhe.EncryptWithServerKey, tfhe.EncryptUint32.
  rewrite !bool_decide_false by apply (total_cache Ht). destruct (total_encrypt Ht nodeClientKeyCache n) as [ct ->]. by exists ct.
Qed.

Lemma EncryptWithPublicKey_total pk n : engine_total -> pk <> "" -> exists ct, tfhe.EncryptWithPublicKey pk n = Ok ct.
Proof.
  intros Ht Hk. unfold tfhe.EncryptWithPublicKey. rewrite bool_decide_false by done.
  destruct (total_encrypt_pk Ht pk n) as [ct ->]. by exists ct.
Qed.

Lemma SubUint32_total sk a b :
  engine_total -> sk <> "" -> a <> "" -> b <> "" -> exists ct, tfhe.SubUint32 sk a b = Ok ct.
Proof.
  intros Ht ???. unfold tfhe.SubUint32. rewrite tfhe.on_worker_id, !bool_decide_false by done. cbn [orb].
  destruct (total_sub Ht sk a b) as [ct ->]. by exists ct.
Qed.

Lemma credit_total msg sk bal enc w :
  engine_total -> sk <> "" -> enc <> "" -> exists ct, credit msg sk bal enc w = (Ok ct, w).
Proof.
  intros Ht ??. unfold credit. case_bool_decide; [by exists enc|].
  unfold tfhe.AddUint32. rewrite tfhe.on_worker_id, !bool_decide_false by done. cbn [orb].
  destruct (total_add Ht sk bal enc) as [ct ->]. by exists ct.
Qed.

(** The first half, as far as the sender's debit. *)
Lemma debit_total sk a n w : engine_total -> sk <> "" -> EncryptedBalance (account (w_sc w) a) <> "" ->
  exists enc ct, tfhe.EncryptWithServerKey sk n = Ok enc /\
    tfhe.SubUint32 sk (EncryptedBalance (account (w_sc w) a)) enc = Ok ct.
Proof.
  intros Ht Hsk Ha. destruct (EncryptWithServerKey_total sk n Ht) as [enc E].
  pose proof (proj1 (tfhe.EncryptWithServerKey_encrypts _ _ _ E)).
  destruct (SubUint32_total sk (EncryptedBalance (account (w_sc w) a)) enc) as [ct E']; [done..|]. by exists enc, ct.
Qed.

Lemma transfer_is_Ok ctx a b n sk w : engine_total ->
  is_Ok (fst (ConfidentialTransferZYTD ctx a b n sk w)) = transfer_guard (w_sc w) a b n sk.
Proof.
  intros Ht. unfold ConfidentialTransferZYTD, transfer_guard.
  destruct (n =? 0); [done|]. rewrite Z.leb_antisym. destruct (MaxUint32 <? n); [done|].
  case_bool_decide as Hsk; [done|]. unfold GetZYTDAccountState at 1, bind at 1, reads at 1.
  fold (account (w_sc w) a). case_bool_decide as Hbal; [done|]. fold (limit_at (w_sc w) a).
  rewrite Z.leb_antisym. destruct (limit_at (w_sc w) a <? n); [done|]. cbn [negb andb].
  destruct (debit_total sk a n w Ht Hsk Hbal) as (enc & ct & E1 & E2).
  rewrite (bind_run _ _ _ _ _ (engine_run _ _ _ _ E1)), (bind_run _ _ _ _ _ (engine_run _ _ _ _ E2)).
  unfold SetZYTDAccountState at 1, bind at 1, modify at 1.
  unfold GetUserTFHEPublicKey at 1, bind at 1, reads at 1. cbn [w_sc set_sc]. rewrite pubkey_after_set.
  destruct (w_sc w !! userPubKeyStoreKey b) as [[| | |bz|]|]; try done. case_bool_decide as Hbz; [by subst|].
  destruct (EncryptWithPublicKey_total bz n Ht Hbz) as [enc' E3].
  rewrite (bind_run _ _ _ _ _ (engine_run _ _ _ _ E3)). 
  unfold GetZYTDAccountState at 1, bind at 1, reads at 1.
  apply tfhe.EncryptWithPublicKey_encrypts in E3 as [Hne _]. unfold bind at 1.
  match goal with |- context [credit ?msg sk ?bal enc' ?w] => destruct (credit_total msg sk bal enc' w Ht Hsk Hne) as [ct' ->] end.
  done.
Qed.

(** With a working engine a transfer succeeds exactly when the amount is
    between 1 and 2^32 - 1 and within the sender's credit limit, the server
    key is given, the sender has an encrypted balance and the recipient has a
    registered key; in every other case the store is as before the call, once
    the failed transaction is rolled back. *)
Theorem ConfidentialTransferZYTD_accepts ctx a b n sk w :
  engine_total -> 0 <= n ->
  is_Ok (fst (ConfidentialTransferZYTD ctx a b n sk w)) = transfer_guard (w_sc w) a b n sk /\
  (transfer_guard (w_sc w) a b n sk = false -> snd (runTx (ConfidentialTransferZYTD ctx a b n sk) w) = w).
Proof.
  intros Ht Hn.
  assert (is_Ok (fst (ConfidentialTransferZYTD ctx a b n sk w)) = transfer_guard (w_sc w) a b n sk) as Hok.
  { by apply transfer_is_Ok. }
  split; [done|]. intros Hg. rewrite Hg in Hok. unfold runTx.
  by destruct (ConfidentialTransferZYTD ctx a b n sk w) as [[] ?].
Qed.

(** Past 2^32 the limit outgrows the balance: two mints of 2^31 to the same
    account, each within the width of an amount, leave a credit limit of 2^32
    over an encrypted balance of 0. *)
Theorem credit_limit_outgrows_balance ctx a c sk w u1 w1 u2 w2 :
  limit_at (w_sc w) a = 0 -> in_step c (w_sc w) a -> key_conf sk = c -> key_shared c (w_sc w) a ->
  ConfidentialMintZYTD ctx a 2147483648 sk w = (Ok u1, w1) ->
  ConfidentialMintZYTD ctx a 2147483648 sk w1 = (Ok u2, w2) ->
  limit_at (w_sc w2) a = 4294967296 /\ balance_is c (w_sc w2) a 0.
Proof.
  intros Hl0 Hst0 Hsk Hk (s1 & E1 & Hne1 & Hl1 & Hp1)%ConfidentialMintZYTD_ok
    (s2 & E2 & Hne2 & Hl2 & Hp2)%ConfidentialMintZYTD_ok.
  assert (same_account a a = true) as Eaa by (by apply bool_decide_eq_true).
  assert (account (w_sc w1) a = s1) as A1 by (rewrite E1, account_set_text, Eaa; done).
  assert (account (w_sc w2) a = s2) as A2 by (rewrite E2, account_set_text, Eaa; done).
  unfold in_step in Hst0. unfold balance_is, limit_at in *. rewrite A1 in *. rewrite A2, Hl2, Hl1, Hl0 in *.
  specialize (Hp1 c _ Hsk Hk Hst0). split; [by vm_compute|]. unfold rec_balance. rewrite bool_decide_false by done.
  apply (Hp2 c 2147483648); [done|by rewrite E1; apply key_shared_set|].
  unfold rec_balance. by rewrite bool_decide_false.
Qed.
End Theorems.

(** ** The theorems at concrete inputs *)

Section Witnesses.
#[local] Existing Instance bech32_toy.
#[local] Existing Instance tfhe.toy_tfhe.
#[local] Existing Instance tfhe.toy_tfhe_laws.

(** Alice and Bob register keys of the node's configuration, Dave one of a key
    pair of his own. *)
Definition user_key : string := Nat.iter 1024 (String "k"%char) "".
Definition own_key : string := Nat.iter 1024 (String "u"%char) "".
Definition conf_world : World unit := mkWorld tt ∅ ∅ ∅ [].
Definition conf_ops : list conf_op :=
  [OpRegister "alice" user_key; OpRegister "bob" user_key; OpRegister "dave" own_key;
   OpMint (mkCtx 5 50) "alice" 700 "sk"; OpTransfer (mkCtx 6 60) "alice" "bob" 200 "sk";
   OpTransfer (mkCtx 6 60) "bob" "alice" 900 "sk"; OpTransfer (mkCtx 7 70) "bob" "carol" 50 "sk";
   OpMint (mkCtx 8 80) "dave" 300 "sk"; OpTransfer (mkCtx 9 90) "dave" "alice" 100 "sk"].
Definition conf_final : World unit := snd (run_ops conf_ops conf_world).

Definition decrypted (ck : string) (w : World unit) (a : string) : outcome Z :=
  tfhe.DecryptUint32 ck (EncryptedBalance (account (w_sc w) a)).

Lemma conf_ops_width : Forall op_width conf_ops.
Proof. repeat constructor; vm_compute; discriminate. Qed.

Lemma conf_world_empty k s : w_sc conf_world !! k <> Some (VAccount s).
Proof. cbn. by rewrite lookup_empty. Qed.

(** Alice's balance is in step although Dave pays her; Dave's is not: he has
    a limit of 200 over a balance that is noise, under the wrong key. *)
Lemma confidential_books_witness :
  fst (run_ops conf_ops conf_world) = 1000 /\ total_limits (w_sc conf_final) = 1000 /\
  decrypted "ck" conf_final "alice" = Ok 600 /\ limit_at (w_sc conf_final) "alice" = 600 /\
  limit_at (w_sc conf_final) "dave" = 200 /\ decrypted "uk" conf_final "dave" = Ok tfhe.toy_noise /\
  decrypted "ck" conf_final "dave" = Ok tfhe.toy_noise.
Proof.
  destruct (confidential_books tfhe.toy_conf tfhe.toy_encrypts conf_ops conf_world) as [Ht Hb].
  - exact conf_ops_width.
  - exact conf_world_empty.
  - by vm_compute.
  - split; [by vm_compute|]. split; [refine (eq_trans Ht _); by vm_compute|].
    specialize (Hb "n"%char "alice").
    assert (decrypted "ck" conf_final "alice" = Ok 600) as Hd by (vm_compute; reflexivity).
    split; [exact Hd|]. split; [|split_and!; vm_compute; reflexivity].
    rewrite (bool_decide_eq_false_2 (EncryptedBalance _ = "")) in Hb by (vm_compute; discriminate).
    symmetry. apply Hb with (ck := "ck"); [reflexivity| | |reflexivity|exact Hd|vm_compute; discriminate].
    + intros pk Hpk. cbn in Hpk. by rewrite lookup_empty in Hpk.
    + unfold conf_ops. repeat constructor; vm_compute; try done; intros [?|?]; done.
Defined.

(** Alice has 700 and Bob's key is known. *)
Definition alice_world : World unit := snd (run_ops (take 4 conf_ops) conf_world).
Definition transferred : World unit := snd (ConfidentialTransferZYTD (mkCtx 6 60) "alice" "bob" 200 "sk" alice_world).

Lemma alice_world_inv : conf_inv (w_sc alice_world) /\ total_limits (w_sc alice_world) = 700.
Proof.
  assert (fst (run_ops (take 4 conf_ops) conf_world) = 700) as Hf by (vm_compute; reflexivity).
  destruct (run_ops_inv tfhe.toy_conf tfhe.toy_encrypts (take 4 conf_ops) conf_world) as [Hi Ht].
  - apply Forall_take, conf_ops_width.
  - intros k s E. by apply conf_world_empty in E.
  - rewrite Hf, total_limits_none by exact conf_world_empty. done.
  - split; [done|]. unfold alice_world. rewrite Ht, Hf, total_limits_none by exact conf_world_empty. done.
Qed.

Lemma ConfidentialTransferZYTD_effect_witness :
  limit_at (w_sc transferred) "alice" = 500 /\ limit_at (w_sc transferred) "bob" = 200 /\
  decrypted "ck" transferred "bob" = Ok 200.
Proof.
  destruct (ConfidentialTransferZYTD_effect tfhe.toy_conf tfhe.toy_encrypts (mkCtx 6 60) "alice" "bob" 200 "sk" alice_world tt transferred)
    as [_ Hc].
  - lia.
  - exact (proj1 alice_world_inv).
  - rewrite (proj2 alice_world_inv). by vm_compute.
  - vm_compute. reflexivity.
  - split; [refine (eq_trans (proj1 (Hc "alice")) _); vm_compute; reflexivity|].
    split; [refine (eq_trans (proj1 (Hc "bob")) _); vm_compute; reflexivity|vm_compute; reflexivity].
Defined.

Lemma toy_total : engine_total.
Proof. by split; cbn; eauto. Qed.

Lemma ConfidentialTransferZYTD_accepts_witness :
  is_Ok (fst (ConfidentialTransferZYTD (mkCtx 6 60) "alice" "bob" 200 "sk" alice_world)) = true /\
  is_Ok (fst (ConfidentialTransferZYTD (mkCtx 6 60) "alice" "bob" 701 "sk" alice_world)) = false /\
  snd (runTx (ConfidentialTransferZYTD (mkCtx 6 60) "alice" "carol" 200 "sk") alice_world) = alice_world.
Proof.
  pose proof (fun b n => ConfidentialTransferZYTD_accepts tfhe.toy_conf tfhe.toy_encrypts (mkCtx 6 60) "alice" b n "sk" alice_world toy_total) as H.
  split_and!.
  - refine (eq_trans (proj1 (H "bob" 200 ltac:(lia))) _). vm_compute. reflexivity.
  - refine (eq_trans (proj1 (H "bob" 701 ltac:(lia))) _). vm_compute. reflexivity.
  - apply H; [lia|vm_compute; reflexivity].
Defined.

Definition keyed_world : World unit := snd (run_ops (take 3 conf_ops) conf_world).
Definition half_world : World unit := snd (ConfidentialMintZYTD (mkCtx 6 60) "alice" 2147483648 "sk" keyed_world).
Definition full_world : World unit := snd (ConfidentialMintZYTD (mkCtx 6 60) "alice" 2147483648 "sk" half_world).

Lemma credit_limit_outgrows_balance_witness :
  limit_at (w_sc full_world) "alice" = 4294967296 /\ decrypted "ck" full_world "alice" = Ok 0.
Proof.
  destruct (credit_limit_outgrows_balance tfhe.toy_conf tfhe.toy_encrypts (mkCtx 6 60) "alice" "n"%char "sk"
    keyed_world tt half_world tt full_world) as [Hl _]; try (vm_compute; reflexivity).
  - intros pk. assert (w_sc keyed_world !! userPubKeyStoreKey "alice" = Some (VBytes user_key)) as -> by (vm_compute; reflexivity).
    intros [= <-]. vm_compute. reflexivity.
  - split; [exact Hl|]. vm_compute. reflexivity.
Defined.
End Witnesses.
End confidential.
