(* ===== verification/Privacy.v ===== *)
(** Privacy: the store of x/privacy/keeper and its state rent.

    keeper.go (commitments, cached results, the submission quota) and
    state_rent.go with types/state_rent.go (rent on encrypted blobs, grace
    period, eviction), over the bank interface of Bank.v.

    Theorems: as shipped, no call ever charges rent or evicts, because the
    billing start of a blob is never stored; once a start is stored, a charge
    is exactly the documented formula while it fits an int64; a blob is
    evicted only after its whole grace period, counted from a failed payment
    that no later payment made good. *)

From Stdlib Require Import ZArith Lia Ascii String.
From stdpp Require Import base gmap sets list strings fin_maps pretty.
From S2P Require Import Prelude Sdk Types Bank.

Open Scope Z_scope.
Open Scope go_scope.

Module privacytypes.

Definition ModuleName : string := "privacy".

Definition CommitmentKeyPrefix : string := "commitment/".
Definition TFHEResultKeyPrefix : string := "tfhe_result/".
Definition TFHEQuotaKeyPrefix : string := "tfhe_quota/".

Definition CommitmentKey (addr : string) : string := CommitmentKeyPrefix +:+ addr.
Definition TFHEResultKey (resultHash : string) : string := TFHEResultKeyPrefix +:+ resultHash.
Definition TFHEQuotaKey (addr : string) : string := TFHEQuotaKeyPrefix +:+ addr.

Definition StateRentDenom : string := "uzytc".
Definition DefaultRentRatePerBytePerBlock : Z := 1.
Definition DefaultMaxFreeSizeBytes : Z := 1024.
Definition DefaultGracePeriodBlocks : Z := 14400.

Record StateRentParams : Type := mkStateRentParams {
  RentRatePerBytePerBlock : Z;
  MaxFreeSizeBytes : Z;
  GracePeriodBlocks : Z;
}.

Definition DefaultStateRentParams : StateRentParams :=
  mkStateRentParams DefaultRentRatePerBytePerBlock DefaultMaxFreeSizeBytes DefaultGracePeriodBlocks.

(** The rent owed, in int64 arithmetic; [NewInt64Coin] panics on a negative
    amount. *)
Definition RentDue (p : StateRentParams) (sizeBytes blocks : Z) : option Coin :=
  let billableBytes := wrap_i64 (sizeBytes - MaxFreeSizeBytes p) in
  if (billableBytes <=? 0) || (blocks <=? 0) then NewCoin StateRentDenom 0 else
  let amount := wrap_i64 (wrap_i64 (billableBytes * RentRatePerBytePerBlock p) * blocks) in
  NewCoin StateRentDenom amount.

(** shardMetaJSON of keeper.go: the metadata of a ciphertext's shards, as it is
    written to the store. *)
Record shardMetaJSON : Type := mkShardMetaJSON {
  j_CommitmentHash : string;
  j_OriginalLen : Z;
  j_ShardNodeMap : gmap string (list string);
  j_MerkleRoot : string;
  j_ProposerPubkey : string;
}.

(** What the store holds: raw bytes, an int64, the parameters or metadata as
    JSON, a big-endian uint64. *)
Inductive value : Type :=
  | VRaw (bz : string)
  | VHeight (h : Z)
  | VRentParams (p : StateRentParams)
  | VCount (n : Z)
  | VMeta (m : shardMetaJSON).

(** The length of a string as JSON text, with its quotes, for valid UTF-8 (and
    without U+2028 and U+2029): encoding/json writes two bytes for a quote, a
    backslash, a newline, a carriage return and a tab, and six for the other
    control characters and for the characters < > and &. *)
Definition json_char_size (c : ascii) : Z :=
  let n := nat_of_ascii c in
  if (n =? 34)%nat || (n =? 92)%nat || (n =? 10)%nat || (n =? 13)%nat || (n =? 9)%nat then 2 else
  if (n <? 32)%nat || (n =? 60)%nat || (n =? 62)%nat || (n =? 38)%nat then 6 else 1.

Fixpoint json_chars_size (s : string) : Z :=
  match s with "" => 0 | String c s => json_char_size c + json_chars_size s end.

Definition json_string_size (s : string) : Z := 2 + json_chars_size s.

(** Elements with commas between them, in brackets. *)
Definition json_seq_size (sizes : list Z) : Z :=
  2 + foldr Z.add 0 sizes + Z.max 0 (Z.of_nat (length sizes) - 1).

Definition meta_size (m : shardMetaJSON) : Z :=
  let fields := 88 in
  fields + json_string_size (j_CommitmentHash m) + Z.of_nat (String.length (pretty (j_OriginalLen m))) +
  json_seq_size ((fun kv => json_string_size kv.1 + 1 + json_seq_size (json_string_size <$> kv.2)) <$> map_to_list (j_ShardNodeMap m)) +
  json_string_size (j_MerkleRoot m) + json_string_size (j_ProposerPubkey m).

(** The length of the stored encoding: JSON numbers are decimal, and the keys
    and punctuation of the parameters' object take 79 bytes. *)
Definition value_size (v : value) : Z :=
  let digits z := Z.of_nat (String.length (pretty z)) in
  match v with
  | VRaw bz => Z.of_nat (String.length bz)
  | VHeight h => digits h
  | VRentParams p => 79 + digits (RentRatePerBytePerBlock p) + digits (MaxFreeSizeBytes p) + digits (GracePeriodBlocks p)
  | VCount _ => 8
  | VMeta m => meta_size m
  end.
End privacytypes.

Module privacykeeper.
Import privacytypes.

(** The bank, the module's store and the events. *)
Record State (B : Type) : Type := mkState {
  p_bank : B;
  p_store : gmap string value;
  p_events : list Event;
}.
Arguments mkState {B}.
Arguments p_bank {B}.
Arguments p_store {B}.
Arguments p_events {B}.

Section Keeper.
Context {B : Type} `{BankKeeper B} `{Bech32}.

Definition on_bank {A} (c : M B A) : M (State B) A := fun s =>
  let '(r, b) := c (p_bank s) in (r, mkState b (p_store s) (p_events s)).

Definition store_get (k : string) : M (State B) (option value) := reads (fun s => p_store s !! k).
Definition store_set (k : string) (v : value) : M (State B) unit :=
  modify (fun s => mkState (p_bank s) (<[k := v]> (p_store s)) (p_events s)).
Definition store_delete (k : string) : M (State B) unit :=
  modify (fun s => mkState (p_bank s) (delete k (p_store s)) (p_events s)).
Definition Emit (e : Event) : M (State B) unit :=
  modify (fun s => mkState (p_bank s) (p_store s) (p_events s ++ [e])).

(** *** keeper.go *)

Definition SetTFHEResult (resultHash resultCiphertext : string) : M (State B) unit :=
  store_set (TFHEResultKey resultHash) (VRaw resultCiphertext).

Definition GetTFHEResult (resultHash : string) : M (State B) (option string) :=
  let! bz := store_get (TFHEResultKey resultHash) in
  ret (match bz with Some (VRaw ct) => Some ct | _ => None end).

Definition SetCommitment (addr commitment : string) : M (State B) unit :=
  if negb (bool_decide (String.length commitment = 32%nat))
  then throw (Errorf "SetCommitment: commitment must be 32 bytes")
  else store_set (CommitmentKey addr) (VRaw commitment).

Definition GetCommitment (addr : string) : M (State B) (option string) :=
  let! bz := store_get (CommitmentKey addr) in
  ret (match bz with Some (VRaw c) => Some c | _ => None end).

Definition HasCommitment (addr : string) : M (State B) bool :=
  let! bz := store_get (CommitmentKey addr) in ret (bool_decide (is_Some bz)).

Definition GetTFHEQuota (addr : string) : M (State B) Z :=
  let! bz := store_get (TFHEQuotaKey addr) in
  ret (match bz with Some (VCount n) => n | _ => 0 end).

Definition setTFHEQuota (addr : string) (count : Z) : M (State B) unit :=
  store_set (TFHEQuotaKey addr) (VCount count).

Definition IncrTFHEQuota (addr : string) : M (State B) unit :=
  let! cur := GetTFHEQuota addr in setTFHEQuota addr (wrap_u64 (cur + 1)).

Definition DecrTFHEQuota (addr : string) : M (State B) unit :=
  let! cur := GetTFHEQuota addr in
  when (0 <? cur) (setTFHEQuota addr (wrap_u64 (cur - 1))).

(** *** state_rent.go *)

Definition stateRentParamsKey : string := "state_rent_params".
Definition rentLastChargedPrefix : string := "rent_last/".
Definition rentGraceStartPrefix : string := "rent_grace/".

Definition GetStateRentParams : M (State B) StateRentParams :=
  let! bz := store_get stateRentParamsKey in
  ret (match bz with Some (VRentParams p) => p | _ => DefaultStateRentParams end).

Definition SetStateRentParams (params : StateRentParams) : M (State B) unit :=
  store_set stateRentParamsKey (VRentParams params).

(** A blob seen for the first time counts as charged at the current height. *)
Definition getRentLastCharged (ctx : Ctx) (commitmentKey : string) : M (State B) Z :=
  let! bz := store_get (rentLastChargedPrefix +:+ commitmentKey) in
  ret (match bz with Some (VHeight h) => h | _ => BlockHeight ctx end).

Definition setRentLastCharged (commitmentKey : string) (height : Z) : M (State B) unit :=
  store_set (rentLastChargedPrefix +:+ commitmentKey) (VHeight height).

Definition getGraceStart (commitmentKey : string) : M (State B) Z :=
  let! bz := store_get (rentGraceStartPrefix +:+ commitmentKey) in
  ret (match bz with Some (VHeight h) => h | _ => 0 end).

Definition setGraceStart (commitmentKey : string) (height : Z) : M (State B) unit :=
  store_set (rentGraceStartPrefix +:+ commitmentKey) (VHeight height).

Definition clearGracePeriod (commitmentKey : string) : M (State B) unit :=
  store_delete (rentGraceStartPrefix +:+ commitmentKey).

Definition rent_default_event (commitmentKey owner : string) (params : StateRentParams) (currentHeight : Z) : Event :=
  NewEvent "rent_default"
    [("commitment_key", AStr commitmentKey); ("owner", AStr (AccAddress_String owner));
     ("grace_period_blocks", AInt (GracePeriodBlocks params));
     ("eviction_at_block", AInt (wrap_i64 (currentHeight + GracePeriodBlocks params)))].

Definition rent_collected_event (commitmentKey owner : string) (rentDue : Coin) (sizeBytes : Z) : Event :=
  NewEvent "rent_collected"
    [("commitment_key", AStr commitmentKey); ("owner", AStr (AccAddress_String owner));
     ("amount", AStr (pretty (Amount rentDue) +:+ Denom rentDue)); ("size_bytes", AInt sizeBytes)].

Definition handleRentDefault (commitmentKey owner : string) (currentHeight : Z) (params : StateRentParams)
    : M (State B) unit :=
  let! g := getGraceStart commitmentKey in
  when (g =? 0)
    (setGraceStart commitmentKey currentHeight ;;!
     Emit (rent_default_event commitmentKey owner params currentHeight)).

Definition CollectRent (ctx : Ctx) (commitmentKey owner : string) (sizeBytes : Z) : M (State B) unit :=
  let! params := GetStateRentParams in
  let currentHeight := BlockHeight ctx in
  let! lastCharged := getRentLastCharged ctx commitmentKey in
  let blocksSinceCharge := wrap_i64 (currentHeight - lastCharged) in
  if blocksSinceCharge <=? 0 then ret tt else
  let! rentDue := or_panic (RentDue params sizeBytes blocksSinceCharge) in
  if Amount rentDue =? 0 then setRentLastCharged commitmentKey currentHeight else
  let! coins := or_panic (NewCoins [rentDue]) in
  let! err := try (on_bank (SendCoinsFromAccountToModule ctx owner ModuleName coins)) in
  match err with
  | inr err =>
      handleRentDefault commitmentKey owner currentHeight params ;;!
      throw (Wrapf "privacy: rent collection failed" err)
  | inl _ =>
      let! _ := try (on_bank (BurnCoins ctx ModuleName coins)) in
      setRentLastCharged commitmentKey currentHeight ;;!
      clearGracePeriod commitmentKey ;;!
      Emit (rent_collected_event commitmentKey owner rentDue sizeBytes)
  end.

Definition CheckAndEvict (ctx : Ctx) (commitmentKey : string) : M (State B) bool :=
  let! graceStart := getGraceStart commitmentKey in
  if graceStart =? 0 then ret false else
  let! params := GetStateRentParams in
  if wrap_i64 (BlockHeight ctx - graceStart) <? GracePeriodBlocks params then ret false else
  let! blobData := store_get commitmentKey in
  match blobData with
  | Some v =>
      Emit (NewEvent "commitment_evicted"
        [("commitment_key", AStr commitmentKey); ("grace_started_at", AInt graceStart);
         ("evicted_at", AInt (BlockHeight ctx)); ("data_size_bytes", AInt (value_size v))]) ;;!
      store_delete commitmentKey
  | None => ret tt
  end ;;!
  store_delete (rentLastChargedPrefix +:+ commitmentKey) ;;!
  store_delete (rentGraceStartPrefix +:+ commitmentKey) ;;!
  ret true.
End Keeper.

(** A state with its store changed. *)
Definition on_store {B} (f : gmap string value -> gmap string value) (s : State B) : State B :=
  mkState (p_bank s) (f (p_store s)) (p_events s).

(** ** Calls of the keeper *)

Section Theorems.
Context {B : Type} `{BankKeeper B} `{Bech32}.
Implicit Types s : State B.

(** Every operation that writes. *)
Inductive call : Type :=
  | CallCollect (ctx : Ctx) (commitmentKey owner : string) (sizeBytes : Z)
  | CallEvict (ctx : Ctx) (commitmentKey : string)
  | CallSetCommitment (addr commitment : string)
  | CallSetResult (resultHash resultCiphertext : string)
  | CallIncr (addr : string)
  | CallDecr (addr : string).

Definition exec (c : call) : M (State B) unit :=
  match c with
  | CallCollect ctx k o n => CollectRent ctx k o n
  | CallEvict ctx k => CheckAndEvict ctx k ;;! ret tt
  | CallSetCommitment a c => SetCommitment a c
  | CallSetResult h ct => SetTFHEResult h ct
  | CallIncr a => IncrTFHEQuota a
  | CallDecr a => DecrTFHEQuota a
  end.

(** The calls one after the other; the writes of a call that failed stay. *)
Fixpoint run_calls (cs : list call) s : State B :=
  match cs with [] => s | c :: cs => run_calls cs (snd (exec c s)) end.

Definition rent_last s (k : string) : option Z :=
  match p_store s !! (rentLastChargedPrefix +:+ k) with Some (VHeight h) => Some h | _ => None end.

Definition grace_start s (k : string) : Z :=
  match p_store s !! (rentGraceStartPrefix +:+ k) with Some (VHeight h) => h | _ => 0 end.

Definition rent_params s : StateRentParams :=
  match p_store s !! stateRentParamsKey with Some (VRentParams p) => p | _ => DefaultStateRentParams end.

(** No billing has started and no grace period runs. *)
Definition no_rent s : Prop := forall k, rent_last s k = None /\ grace_start s k = 0.

Lemma CollectRent_first ctx k o n s : rent_last s k = None -> CollectRent ctx k o n s = (Ok tt, s).
Proof.
  unfold rent_last. intros E.
  unfold CollectRent, GetStateRentParams, getRentLastCharged, store_get, reads, bind, ret.
  cbn beta iota. destruct (p_store s !! (rentLastChargedPrefix +:+ k)) as [[]|]; try discriminate;
    rewrite Z.sub_diag; reflexivity.
Qed.

Lemma CheckAndEvict_none ctx k s : grace_start s k = 0 -> CheckAndEvict ctx k s = (Ok false, s).
Proof.
  unfold grace_start. intros E. unfold CheckAndEvict, getGraceStart, store_get, reads, bind, ret.
  cbn beta iota. by rewrite E.
Qed.

(** A write under a key of another prefix leaves the rent records alone. *)
Lemma no_rent_set s k v :
  no_rent s -> String.prefix rentLastChargedPrefix k = false -> String.prefix rentGraceStartPrefix k = false ->
  no_rent (mkState (p_bank s) (<[k := v]> (p_store s)) (p_events s)).
Proof.
  intros Hn H1 H2 k'. destruct (Hn k') as [Hl Hg]. unfold rent_last, grace_start in *. cbn [p_store].
  assert (k <> rentLastChargedPrefix +:+ k') by (intros ->; by rewrite prefix_app in H1).
  assert (k <> rentGraceStartPrefix +:+ k') by (intros ->; by rewrite prefix_app in H2).
  by rewrite !lookup_insert_ne.
Qed.

Lemma exec_no_rent c s : no_rent s -> no_rent (snd (exec c s)).
Proof.
  intros Hn. destruct c as [ctx k o n|ctx k|a c|h ct|a|a]; cbn [exec].
  - by rewrite CollectRent_first by apply Hn.
  - unfold bind. by rewrite CheckAndEvict_none by apply Hn.
  - unfold SetCommitment. case_bool_decide; [|done]. by apply no_rent_set.
  - by apply no_rent_set.
  - by apply no_rent_set.
  - unfold DecrTFHEQuota, bind, GetTFHEQuota, store_get, reads, bind, ret, when.
    destruct (0 <? _); [|done]. by apply no_rent_set.
Qed.

Lemma run_calls_no_rent cs s : no_rent s -> no_rent (run_calls cs s).
Proof. revert s. induction cs as [|c cs IH]; intros s Hn; [done|]. by apply IH, exec_no_rent. Qed.

(** Rent never starts.  The billing start of a blob is only written after
    a charge, and a blob without one counts as charged in the current block:
    whatever sequence of keeper calls ran on a store without rent records,
    CollectRent still returns nil without touching the bank, the store or the
    events, for every blob, owner, size and height, and CheckAndEvict still
    evicts nothing. *)
Theorem rent_never_starts cs s :
  no_rent s ->
  let s' := run_calls cs s in
  (forall ctx k owner size, CollectRent ctx k owner size s' = (Ok tt, s')) /\
  (forall ctx k, CheckAndEvict ctx k s' = (Ok false, s')).
Proof.
  intros Hn s'. pose proof (run_calls_no_rent cs s Hn) as Hn'. fold s' in Hn'.
  split; intros; [apply CollectRent_first|apply CheckAndEvict_none]; apply Hn'.
Qed.

(** ** One charge *)

Lemma RentDue_exact p size blocks :
  let bytes := size - MaxFreeSizeBytes p in
  0 < bytes -> 0 < RentRatePerBytePerBlock p -> 0 < blocks ->
  bytes * RentRatePerBytePerBlock p * blocks < two63 ->
  RentDue p size blocks = Some (mkCoin StateRentDenom (bytes * RentRatePerBytePerBlock p * blocks)).
Proof.
  cbn zeta. set (bytes := size - MaxFreeSizeBytes p). set (rate := RentRatePerBytePerBlock p). intros Hb Hr Hk Hm.
  assert (bytes * rate <= bytes * rate * blocks) by nia. assert (bytes <= bytes * rate) by nia.
  unfold RentDue. fold bytes rate. rewrite (wrap_i64_id bytes) by (unfold in_i64, two63 in *; lia).
  rewrite (wrap_i64_id (bytes * rate)) by (unfold in_i64, two63 in *; lia).
  rewrite wrap_i64_id by (unfold in_i64, two63 in *; lia).
  destruct (Z.leb_spec bytes 0); [lia|]. destruct (Z.leb_spec blocks 0); [lia|]. cbn [orb].
  unfold NewCoin, Coin_Validate. cbn [Denom Amount].
  replace (0 <=? bytes * rate * blocks) with true by (symmetry; apply Z.leb_le; nia). done.
Qed.

Lemma NewCoins_rent n : 0 < n -> NewCoins [mkCoin StateRentDenom n] = Some [mkCoin StateRentDenom n].
Proof.
  intros Hn. pose proof (coins_of_run StateRentDenom n eq_refl ltac:(lia)) as E.
  rewrite bool_decide_false in E by lia. unfold coins_of, NewCoin, Coin_Validate in E. cbn [Denom Amount] in E.
  by rewrite (proj2 (Z.leb_le 0 n)) in E by lia.
Qed.

(** The blob is due for [due] uzytc at this height. *)
Record chargeable (ctx : Ctx) (k : string) (size : Z) s (h0 due : Z) : Prop := {
  ch_last : rent_last s k = Some h0;
  ch_later : 0 <= h0 < BlockHeight ctx;
  ch_height : BlockHeight ctx < two63;
  ch_bytes : 0 < size - MaxFreeSizeBytes (rent_params s);
  ch_rate : 0 < RentRatePerBytePerBlock (rent_params s);
  ch_due : due = (size - MaxFreeSizeBytes (rent_params s)) * RentRatePerBytePerBlock (rent_params s) * (BlockHeight ctx - h0);
  ch_fits : due < two63;
}.

(** What CollectRent does from the transfer on. *)
Definition charge (ctx : Ctx) (k owner : string) (size due : Z) : M (State B) unit :=
  let coins := [mkCoin StateRentDenom due] in
  let! params := GetStateRentParams in
  let! err := try (on_bank (SendCoinsFromAccountToModule ctx owner ModuleName coins)) in
  match err with
  | inr err =>
      handleRentDefault k owner (BlockHeight ctx) params ;;!
      throw (Wrapf "privacy: rent collection failed" err)
  | inl _ =>
      let! _ := try (on_bank (BurnCoins ctx ModuleName coins)) in
      setRentLastCharged k (BlockHeight ctx) ;;!
      clearGracePeriod k ;;!
      Emit (rent_collected_event k owner (mkCoin StateRentDenom due) size)
  end.

Lemma GetStateRentParams_run s : GetStateRentParams s = (Ok (rent_params s), s).
Proof. done. Qed.

Lemma getRentLastCharged_run ctx k s :
  getRentLastCharged ctx k s = (Ok (default (BlockHeight ctx) (rent_last s k)), s).
Proof. unfold getRentLastCharged, rent_last, bind, store_get, reads, ret. by repeat case_match. Qed.

Lemma getGraceStart_run k s : getGraceStart k s = (Ok (grace_start s k), s).
Proof. done. Qed.

Lemma CollectRent_charge ctx k owner size s h0 due :
  chargeable ctx k size s h0 due -> 0 < due /\ CollectRent ctx k owner size s = charge ctx k owner size due s.
Proof.
  intros [Hl Hlt Hh Hb Hr Hd Hf]. unfold CollectRent, charge.
  rewrite !(bind_run _ _ _ _ _ (GetStateRentParams_run s)), (bind_run _ _ _ _ _ (getRentLastCharged_run ctx k s)), Hl.
  cbn [default from_option id].
  rewrite wrap_i64_id by (unfold in_i64, two63 in *; lia).
  destruct (Z.leb_spec (BlockHeight ctx - h0) 0); [lia|].
  assert (0 < due) as Hpos by (subst due; repeat apply Z.mul_pos_pos; lia). split; [done|].
  rewrite RentDue_exact, <- Hd by (done || lia). cbn [or_panic]. rewrite bind_ret. cbn [Amount].
  destruct (Z.eqb_spec due 0); [lia|]. rewrite NewCoins_rent by done. cbn [or_panic]. by rewrite bind_ret.
Qed.

(** A failed payment starts the grace period unless it is running. *)
Lemma handleRentDefault_run k owner h p s : exists s',
  handleRentDefault k owner h p s = (Ok tt, s') /\
  rent_last s' k = rent_last s k /\ p_bank s' = p_bank s /\
  grace_start s' k = if grace_start s k =? 0 then h else grace_start s k.
Proof.
  unfold handleRentDefault. rewrite (bind_run _ _ _ _ _ (getGraceStart_run k s)).
  destruct (grace_start s k =? 0) eqn:E; cbn [when]; [|by exists s].
  eexists. split; [reflexivity|]. unfold rent_last, grace_start. cbn.
  rewrite lookup_insert_ne by done. by rewrite lookup_insert_eq.
Qed.

(** A payment moves the billing start and ends the grace period. *)
Lemma paid_records b es k h s :
  let s' := mkState b (delete (rentGraceStartPrefix +:+ k) (<[rentLastChargedPrefix +:+ k := VHeight h]> (p_store s))) es in
  rent_last s' k = Some h /\ grace_start s' k = 0.
Proof.
  cbn zeta. unfold rent_last, grace_start. cbn [p_store].
  rewrite lookup_delete_ne, lookup_insert_eq by done. by rewrite lookup_delete_eq.
Qed.

(** Into the module account and burnt there: what it does to the owner and the supply. *)
Lemma send_burn_net `{!BankLaws B} ctx owner due b b1 b2 u ma :
  transferred b b1 owner ma [mkCoin StateRentDenom due] -> GetModuleAddress ModuleName = Some ma ->
  BurnCoins ctx ModuleName [mkCoin StateRentDenom due] b1 = (Ok u, b2) ->
  bk_supply b2 StateRentDenom = bk_supply b StateRentDenom - due /\
  (owner <> ma -> bk_balance b2 owner StateRentDenom = bk_balance b owner StateRentDenom - due).
Proof.
  intros [Ht1 Ht2] Hm (ma' & Hm' & Hi1 & Hi2)%burn_coins. simplify_eq.
  assert (coins_amount [mkCoin StateRentDenom due] StateRentDenom = due) as Ec
    by (cbn [coins_amount Denom Amount]; rewrite bool_decide_true by done; lia).
  split; [rewrite Hi2, Ht2, Ec; lia|]. intros Hne. rewrite Hi1, Ht1, Ec. unfold owned_by.
  rewrite !(bool_decide_false (owner = ma)), (bool_decide_true (owner = owner)) by done. lia.
Qed.

(** A charge.  For a blob whose billing start is known, with an amount
    that fits an int64, CollectRent takes exactly
    (size - free) * rate * blocks uzytc from the owner into the module account
    and burns it, moves the billing start to the current height and ends any
    grace period; when the owner cannot pay, the billing start stays, and the
    grace period starts now unless it was already running. *)
Theorem CollectRent_effect `{!BankLaws B} ctx k owner size s h0 due r s' :
  chargeable ctx k size s h0 due ->
  CollectRent ctx k owner size s = (r, s') ->
  match r with
  | Ok _ => exists ma b1 rb, GetModuleAddress ModuleName = Some ma /\
      transferred (p_bank s) b1 owner ma [mkCoin StateRentDenom due] /\
      BurnCoins ctx ModuleName [mkCoin StateRentDenom due] b1 = (rb, p_bank s') /\
      (is_Ok rb = true -> bk_supply (p_bank s') StateRentDenom = bk_supply (p_bank s) StateRentDenom - due /\
        (owner <> ma -> bk_balance (p_bank s') owner StateRentDenom = bk_balance (p_bank s) owner StateRentDenom - due)) /\
      rent_last s' k = Some (BlockHeight ctx) /\ grace_start s' k = 0
  | Err _ => rent_last s' k = Some h0 /\
      grace_start s' k = if grace_start s k =? 0 then BlockHeight ctx else grace_start s k
  | Panic => p_store s' = p_store s /\ p_events s' = p_events s
  end.
Proof.
  intros Hc Hr. destruct (CollectRent_charge ctx k owner size s h0 due Hc) as [Hpos E]. rewrite E in Hr. clear E.
  unfold charge in Hr. rewrite (bind_run _ _ _ _ _ (GetStateRentParams_run s)) in Hr.
  unfold bind at 1, try, on_bank at 1 in Hr.
  destruct (SendCoinsFromAccountToModule _ _ _ _ (p_bank s)) as [[[]|e|] b1] eqn:Es; cbn in Hr.
  - unfold bind at 1, on_bank in Hr. cbn [p_bank p_store p_events] in Hr.
    destruct (send_to_module _ _ _ _ _ _ _ Es) as (ma & Hma & Ht).
    destruct (BurnCoins _ _ _ b1) as [rb b2] eqn:Eb.
    assert (is_Ok rb = true -> exists u, rb = Ok u) as Hrb by (destruct rb; [eauto|done..]).
    destruct rb as [u|e|]; cbn in Hr; [injection Hr as <- <-..|by injection Hr as <- <-]; cbn.
    all: exists ma, b1; eexists; split_and!; [done|exact Ht|exact Eb| | |]; try apply paid_records.
    all: intros [u' Hu]%Hrb; simplify_eq; by eapply send_burn_net.
  - destruct (handleRentDefault_run k owner (BlockHeight ctx) (rent_params s)
      (mkState b1 (p_store s) (p_events s))) as (s1 & E & Hl & _ & Hg).
    rewrite (bind_run _ _ _ _ _ E) in Hr. cbv [throw] in Hr. simplify_eq.
    split; [|exact Hg]. rewrite Hl. exact (ch_last _ _ _ _ _ _ Hc).
  - by simplify_eq.
Qed.

(** ** Grace periods *)

(** What one call does to the records of the rent, whichever way it ends. *)
Inductive rent_effect (h : Z) (k0 : string) s : State B -> Prop :=
  | eff_bank b : rent_effect h k0 s (mkState b (p_store s) (p_events s))
  | eff_free b : rent_effect h k0 s
      (mkState b (<[rentLastChargedPrefix +:+ k0 := VHeight h]> (p_store s)) (p_events s))
  | eff_paid b owner due size : rent_effect h k0 s
      (mkState b (delete (rentGraceStartPrefix +:+ k0) (<[rentLastChargedPrefix +:+ k0 := VHeight h]> (p_store s)))
        (p_events s ++ [rent_collected_event k0 owner due size]))
  | eff_default b owner : grace_start s k0 = 0 -> rent_effect h k0 s
      (mkState b (<[rentGraceStartPrefix +:+ k0 := VHeight h]> (p_store s))
        (p_events s ++ [rent_default_event k0 owner (rent_params s) h])).

Lemma state_eta s : mkState (p_bank s) (p_store s) (p_events s) = s.
Proof. by destruct s. Qed.

Lemma CollectRent_rent_effect ctx k owner size s : rent_effect (BlockHeight ctx) k s (snd (CollectRent ctx k owner size s)).
Proof.
  assert (rent_effect (BlockHeight ctx) k s s) as Hid by (rewrite <- (state_eta s) at 2; apply eff_bank).
  unfold CollectRent.
  rewrite (bind_run _ _ _ _ _ (GetStateRentParams_run s)), (bind_run _ _ _ _ _ (getRentLastCharged_run ctx k s)).
  destruct (_ <=? 0); [exact Hid|]. destruct (RentDue _ _ _) as [due|]; [|exact Hid]. cbn [or_panic]. rewrite bind_ret.
  destruct (_ =? 0); [apply eff_free|]. destruct (NewCoins [due]) as [coins|]; [|exact Hid]. cbn [or_panic]. rewrite bind_ret.
  unfold bind at 1, try, on_bank at 1.
  destruct (SendCoinsFromAccountToModule _ _ _ _ (p_bank s)) as [[[]|e|] b1]; [|..|apply eff_bank].
  - unfold bind at 1, on_bank. cbn [p_bank p_store p_events].
    destruct (BurnCoins _ _ _ b1) as [[u|e|] b2]; cbn; [apply eff_paid..|apply eff_bank].
  - unfold handleRentDefault. unfold bind at 1 2. rewrite getGraceStart_run.
    change (grace_start (mkState b1 (p_store s) (p_events s)) k) with (grace_start s k).
    destruct (Z.eqb_spec (grace_start s k) 0); cbn; [by apply eff_default|apply eff_bank].
Qed.

Definition is_collected (k : string) (e : Event) : Prop :=
  ev_type e = "rent_collected" /\ ("commitment_key", AStr k) ∈ ev_attrs e.

(** How a call may change the grace period of a blob: it ends it, leaves it
    alone without a payment having been made, or starts it and announces so. *)
Definition grace_step (p : StateRentParams) (h : Z) s s' : Prop :=
  rent_params s' = p /\ exists new, p_events s' = p_events s ++ new /\
  forall k, grace_start s' k = 0 \/
    (grace_start s' k = grace_start s k /\ Forall (fun e => ~ is_collected k e) new) \/
    (grace_start s' k = h /\ exists owner, new = [rent_default_event k owner p h]).

Lemma grace_key_ne k k0 : k <> k0 -> rentGraceStartPrefix +:+ k0 <> rentGraceStartPrefix +:+ k.
Proof. intros Hne E%string_app_inj. congruence. Qed.

Lemma rent_effect_step p h k0 s s' : rent_params s = p -> rent_effect h k0 s s' -> grace_step p h s s'.
Proof.
  intros Hp He. destruct He as [b|b|b owner due size|b owner Hg]; (split; [|]);
    try (unfold rent_params in *; cbn [p_store]; by rewrite ?lookup_delete_ne, ?lookup_insert_ne by done);
    cbn [p_events].
  - exists []. split; [by rewrite app_nil_r|]. intros k. right. left. done.
  - exists []. split; [by rewrite app_nil_r|]. intros k. right. left. split; [|done].
    unfold grace_start. cbn. by rewrite lookup_insert_ne.
  - eexists. split; [done|]. intros k. unfold grace_start. cbn [p_store].
    destruct (decide (k = k0)) as [->|Hne]; [left; by rewrite lookup_delete_eq|].
    right. left. rewrite lookup_delete_ne, lookup_insert_ne by (done || by apply grace_key_ne). split; [done|].
    constructor; [|done]. intros [_ Hin]. cbn in Hin. set_solver.
  - eexists. split; [done|]. intros k. unfold grace_start. cbn [p_store].
    destruct (decide (k = k0)) as [->|Hne]; [right; right; rewrite lookup_insert_eq, <- Hp; eauto|].
    right. left. rewrite lookup_insert_ne by by apply grace_key_ne. split; [done|].
    constructor; [|done]. by intros [? _].
Qed.

Lemma store_step p h s k v :
  rent_params s = p -> k <> stateRentParamsKey -> String.prefix rentGraceStartPrefix k = false ->
  grace_step p h s (on_store (<[k := v]>) s).
Proof.
  intros Hp Hk Hg. split; [unfold rent_params; cbn; by rewrite lookup_insert_ne|].
  exists []. split; [by rewrite app_nil_r|]. intros k'. right. left. split; [|done].
  unfold grace_start. cbn. rewrite lookup_insert_ne; [done|]. intros ->. by rewrite prefix_app in Hg.
Qed.

(** The state after an eviction. *)
Definition evict_state (ctx : Ctx) (k : string) s : State B :=
  mkState (p_bank s)
    (delete (rentGraceStartPrefix +:+ k) (delete (rentLastChargedPrefix +:+ k) (delete k (p_store s))))
    (p_events s ++
      match p_store s !! k with
      | Some v => [NewEvent "commitment_evicted"
          [("commitment_key", AStr k); ("grace_started_at", AInt (grace_start s k));
           ("evicted_at", AInt (BlockHeight ctx)); ("data_size_bytes", AInt (value_size v))]]
      | None => []
      end).

Lemma CheckAndEvict_run ctx k s :
  CheckAndEvict ctx k s =
    if (grace_start s k =? 0) || (wrap_i64 (BlockHeight ctx - grace_start s k) <? GracePeriodBlocks (rent_params s))
    then (Ok false, s) else (Ok true, evict_state ctx k s).
Proof.
  unfold CheckAndEvict. rewrite (bind_run _ _ _ _ _ (getGraceStart_run k s)).
  destruct (_ =? 0); [done|]. rewrite (bind_run _ _ _ _ _ (GetStateRentParams_run s)). cbn [orb].
  destruct (_ <? _); [done|]. unfold store_get. unfold bind at 1, reads at 1. unfold evict_state.
  destruct (p_store s !! k) eqn:E; [done|]. cbn. rewrite app_nil_r. by rewrite (delete_id _ k).
Qed.

Lemma app_longer (q k : string) : q <> "" -> q +:+ k <> k.
Proof.
  intros Hq E. apply (f_equal String.length) in E. rewrite str_length_app in E. destruct q; [done|]. cbn in E. lia.
Qed.

Lemma delete_lookup_or {V} (m : gmap string V) k k' : delete k m !! k' = m !! k' \/ delete k m !! k' = None.
Proof. destruct (decide (k = k')) as [->|]; [right; apply lookup_delete_eq|left; by apply lookup_delete_ne]. Qed.

Lemma evict_step p h ctx k s : rent_params s = p -> k <> stateRentParamsKey -> grace_step p h s (evict_state ctx k s).
Proof.
  intros Hp Hk. split; [unfold rent_params; cbn; by rewrite !lookup_delete_ne|].
  eexists. split; [done|]. intros k'.
  assert (grace_start (evict_state ctx k s) k' = grace_start s k' \/ grace_start (evict_state ctx k s) k' = 0) as [E|E]; [| |by left].
  - unfold grace_start. cbn [p_store evict_state].
    destruct (delete_lookup_or (delete (rentLastChargedPrefix +:+ k) (delete k (p_store s)))
      (rentGraceStartPrefix +:+ k) (rentGraceStartPrefix +:+ k')) as [-> | ->]; [|by right].
    rewrite lookup_delete_ne by done.
    destruct (delete_lookup_or (p_store s) k (rentGraceStartPrefix +:+ k')) as [-> | ->]; [by left|by right].
  - right. left. split; [done|]. destruct (p_store s !! k); [|done]. constructor; [by intros [? _]|done].
Qed.

Definition max_height : Z := 4611686018427387904.

(** Heights of blocks, and no blob is kept under the parameters' key. *)
Definition call_ok (c : call) : Prop :=
  match c with
  | CallCollect ctx k _ _ | CallEvict ctx k => 0 < BlockHeight ctx < max_height /\ k <> stateRentParamsKey
  | _ => True
  end.

Lemma exec_step p c s : rent_params s = p -> call_ok c ->
  exists h, 0 < h < max_height /\ grace_step p h s (snd (exec c s)).
Proof.
  intros Hp Hok. assert (forall h, grace_step p h s s) as Hid.
  { intros h. split; [done|]. exists []. split; [by rewrite app_nil_r|]. intros k. right. by left. }
  destruct c as [ctx k o n|ctx k|a c|hh ct|a|a]; cbn [exec].
  - exists (BlockHeight ctx). split; [apply Hok|]. eapply rent_effect_step; [done|]. apply CollectRent_rent_effect.
  - exists (BlockHeight ctx). split; [apply Hok|]. unfold bind. rewrite CheckAndEvict_run.
    destruct (_ || _); [apply Hid|]. apply evict_step; [done|apply Hok].
  - exists 1. split; [done|]. unfold SetCommitment. case_bool_decide; [|apply Hid]. by apply store_step.
  - exists 1. split; [done|]. by apply store_step.
  - exists 1. split; [done|]. by apply store_step.
  - exists 1. split; [done|]. unfold DecrTFHEQuota, bind, GetTFHEQuota, store_get, reads, bind, ret, when.
    destruct (0 <? _); [by apply store_step|apply Hid].
Qed.

(** Every running grace period was announced, and not paid for since. *)
Definition announced (p : StateRentParams) s : Prop :=
  rent_params s = p /\ forall k, grace_start s k <> 0 ->
    0 < grace_start s k < max_height /\
    exists owner es1 es2, p_events s = es1 ++ rent_default_event k owner p (grace_start s k) :: es2 /\
      Forall (fun e => ~ is_collected k e) es2.

Lemma grace_step_announced p h s s' :
  0 < h < max_height -> grace_step p h s s' -> announced p s -> announced p s'.
Proof.
  intros Hh [Hp (new & Ee & Hg)] [_ Ha]. split; [done|]. intros k Hk.
  destruct (Hg k) as [E|[[E Hn]|(E & owner & En)]]; [done| |].
  - rewrite E in *. destruct (Ha k Hk) as (Hr & owner & es1 & es2 & E1 & Hf). split; [done|].
    exists owner, es1, (es2 ++ new). rewrite Ee, E1, <- app_assoc. split; [done|]. by apply Forall_app.
  - rewrite E. split; [done|]. exists owner, (p_events s), []. by rewrite Ee, En.
Qed.

Lemma run_calls_announced p cs s : Forall call_ok cs -> announced p s -> announced p (run_calls cs s).
Proof.
  intros Hc. revert s. induction Hc as [|c cs Hc _ IH]; intros s Ha; [done|]. cbn [run_calls]. apply IH.
  destruct (exec_step p c s (proj1 Ha) Hc) as (h & Hh & Hs). by eapply grace_step_announced.
Qed.

(** Eviction.  On a store with no grace period running and fixed
    parameters, after any sequence of keeper calls a blob is evicted at height
    h only if a rent_default event announced it, at a height g with
    g + GracePeriodBlocks <= h, and no rent was collected for it since that
    event; the blob and its rent records are then gone. *)
Theorem eviction_announced cs s ctx k s' :
  Forall call_ok cs -> call_ok (CallEvict ctx k) ->
  (forall k, grace_start s k = 0) ->
  CheckAndEvict ctx k (run_calls cs s) = (Ok true, s') ->
  let p := rent_params s in
  (exists g owner es1 es2,
    p_events (run_calls cs s) = es1 ++ rent_default_event k owner p g :: es2 /\
    Forall (fun e => ~ is_collected k e) es2 /\ g + GracePeriodBlocks p <= BlockHeight ctx) /\
  p_store s' !! k = None /\ rent_last s' k = None /\ grace_start s' k = 0.
Proof.
  intros Hc Hk Hs Hr p.
  destruct (run_calls_announced p cs s Hc) as [Hp Ha]; [split; [done|]; by intros k' []|].
  rewrite CheckAndEvict_run in Hr. destruct (_ || _) eqn:Eg; simplify_eq.
  apply orb_false_iff in Eg as [Hg%Z.eqb_neq Hw%Z.ltb_ge]. rewrite Hp in Hw.
  destruct (Ha k Hg) as (Hgr & owner & es1 & es2 & Ee & Hf).
  rewrite wrap_i64_id in Hw by (destruct Hk as [Hk _]; cbn in Hk; unfold in_i64, two63, max_height in *; lia).
  split; [exists (grace_start (run_calls cs s) k), owner, es1, es2; split_and!; [done..|lia]|].
  unfold rent_last, grace_start. cbn [p_store evict_state]. rewrite lookup_delete_eq. split_and!; [|by rewrite lookup_delete_ne, lookup_delete_eq|done].
  do 2 rewrite lookup_delete_ne by (by apply app_longer). by rewrite lookup_delete_eq.
Qed.
End Theorems.

(** ** The theorems at concrete inputs *)

Section Witnesses.
#[local] Existing Instance bech32_toy.
#[local] Existing Instance sdkmath.

(** Alice has 5000 uzytc; the module account may burn. *)
Definition rent_cfg : bankkeeper.Config :=
  bankkeeper.mkConfig {[ "privacy" := ("privacc", ["minter"; "burner"; "staking"]) ]} ∅ (fun _ _ => []).
#[local] Instance rent_bank : BankKeeper bankkeeper.BankState := bankkeeper.bank_keeper rent_cfg.
#[local] Instance rent_bank_laws : BankLaws bankkeeper.BankState := bankkeeper.bank_laws rent_cfg.

Definition alice_bank : bankkeeper.BankState :=
  bankkeeper.mkBankState {[ ("alice", "uzytc") := 5000 ]} {[ "uzytc" := 5000 ]} {[ "privacc" := true ]}.
Definition fresh : State bankkeeper.BankState := mkState alice_bank {[ "blob" := VRaw "ciphertext" ]} [].
Definition started : State bankkeeper.BankState := on_store (<[rentLastChargedPrefix +:+ "blob" := VHeight 10]>) fresh.

Lemma rent_never_starts_witness :
  fst (CollectRent (mkCtx 99 0) "blob" "alice" 21504
    (run_calls [CallCollect (mkCtx 5 0) "blob" "alice" 21504; CallIncr "alice"] fresh)) = Ok tt.
Proof.
  destruct (rent_never_starts [CallCollect (mkCtx 5 0) "blob" "alice" 21504; CallIncr "alice"] fresh) as [Hc _].
  - intros k. unfold rent_last, grace_start. cbn [p_store fresh].
    rewrite !lookup_singleton_ne by (intros E; discriminate E). done.
  - by rewrite Hc.
Defined.

Lemma CollectRent_effect_witness :
  let r := CollectRent (mkCtx 13 0) "blob" "alice" 2024 started in
  is_Ok (fst r) = true /\ rent_last (snd r) "blob" = Some 13 /\ grace_start (snd r) "blob" = 0 /\
  bk_balance (p_bank (snd r)) "alice" "uzytc" = 2000.
Proof.
  cbn zeta. pose proof (CollectRent_effect (mkCtx 13 0) "blob" "alice" 2024 started 10 3000
    (fst (CollectRent (mkCtx 13 0) "blob" "alice" 2024 started)) (snd (CollectRent (mkCtx 13 0) "blob" "alice" 2024 started))) as Hc.
  assert (fst (CollectRent (mkCtx 13 0) "blob" "alice" 2024 started) = Ok tt) as E by (vm_compute; reflexivity).
  rewrite E in Hc. destruct Hc as (ma & b1 & rb & _ & _ & _ & _ & Hl & Hg).
  - by split; vm_compute.
  - vm_compute. reflexivity.
  - rewrite E. split_and!; [done|exact Hl|exact Hg|vm_compute; reflexivity].
Defined.

(** Alice cannot pay for 9 blocks of a large blob. *)
Definition unpaid_calls : list call := [CallCollect (mkCtx 19 0) "blob" "alice" 21504; CallIncr "bob"].

Lemma eviction_announced_witness :
  let s := run_calls unpaid_calls started in
  fst (CheckAndEvict (mkCtx 14418 0) "blob" s) = Ok false /\
  let '(r, s') := CheckAndEvict (mkCtx 14419 0) "blob" s in r = Ok true /\ p_store s' !! "blob" = None.
Proof.
  split; [vm_compute; reflexivity|].
  assert (CheckAndEvict (mkCtx 14419 0) "blob" (run_calls unpaid_calls started) =
    (Ok true, snd (CheckAndEvict (mkCtx 14419 0) "blob" (run_calls unpaid_calls started)))) as E by (vm_compute; reflexivity).
  rewrite E. split; [done|].
  apply (eviction_announced unpaid_calls started (mkCtx 14419 0) "blob" _ ltac:(by repeat constructor)
    ltac:(by repeat constructor)); [|exact E].
  intros k. unfold grace_start. cbn [p_store started on_store fresh].
  rewrite lookup_insert_ne, lookup_singleton_ne by (intros E'; discriminate E'). done.
Defined.
End Witnesses.
End privacykeeper.
