(* ===== verification/Shards.v ===== *)
(** Shards: x/privacy/tfhe/merkle.go and erasure.go.

    A ciphertext is cut into 12 data shards, extended by 4 parity shards, and
    a Merkle tree over the 16 shard hashes authenticates each of them.  The
    hash function and the Reed-Solomon encoder (klauspost/reedsolomon) are
    parameters.

    Theorems: every proof the tree hands out verifies; a shard accepted under a
    full-length proof is the shard the tree was built from, or an explicit hash
    collision; the length of a proof is not checked, so two concatenated leaf
    hashes pass as a shard; any 12 shards give the ciphertext back. *)

From Stdlib Require Import ZArith Lia Ascii String.
From stdpp Require Import base list strings.
From S2P Require Import Prelude.

Open Scope Z_scope.
Open Scope go_scope.

Class Sha256 : Type := { Sum256 : string -> string }.

(** A digest has 32 bytes. *)
Class Sha256Laws `{Sha256} : Prop := { Sum256_length s : String.length (Sum256 s) = 32%nat }.

(** An encoder of klauspost/reedsolomon: operations on the shard slices; a
    shard that is missing is [None]. *)
Class ReedSolomon : Type := {
  rs_New : nat -> nat -> bool;
  rs_Split : string -> option (list string);
  rs_Encode : list string -> option (list string);
  rs_Reconstruct : list (option string) -> option (list string);
  rs_Verify : list string -> option bool;
}.

Module shards.

Definition ErasureDataShards : nat := 12.
Definition ErasureParityShards : nat := 4.
Definition ErasureTotalShards : nat := ErasureDataShards + ErasureParityShards.

Record ShardResult : Type := mkShardResult {
  Index : Z;
  Data : string;
}.

(** ** merkle.go *)

Record MerkleTree : Type := mkMerkleTree {
  nodes : list (list string);
  depth : nat;
  numLeaves : nat;
}.

Record MerkleProof : Type := mkMerkleProof {
  LeafIndex : Z;
  Path : list string;
}.

Definition zeroHash : string := Nat.iter 32 (String "000"%char) "".

Section Merkle.
Context `{Sha256}.

Definition hashPair (left right : string) : string := Sum256 (left +:+ right).

(** log2: panics unless [n] is a positive power of two; [fuel] bounds the
    halvings. *)
Fixpoint log2_loop (fuel : nat) (n d : Z) : Z :=
  match fuel with
  | O => d
  | S fuel => if 1 <? n then log2_loop fuel (Z.shiftr n 1) (d + 1) else d
  end.

Definition log2 (n : Z) : option Z :=
  if (n <=? 0) || negb (Z.land n (n - 1) =? 0) then None else Some (log2_loop (Z.to_nat n) n 0).

(** The loop over the shards: each writes its leaf, in order. *)
Fixpoint set_leaves (shs : list ShardResult) (leaves : list string) : outcome (list string) :=
  match shs with
  | [] => Ok leaves
  | sr :: shs =>
      if (Index sr <? 0) || (Z.of_nat ErasureTotalShards <=? Index sr)
      then Err (Errorf "merkle: shard index out of range")
      else set_leaves shs (<[Z.to_nat (Index sr) := Sum256 (Data sr)]> leaves)
  end.

Definition parents (childLevel : list string) : list string :=
  (fun i => hashPair (default "" (childLevel !! (2 * i)%nat)) (default "" (childLevel !! (2 * i + 1)%nat)))
    <$> seq 0 (length childLevel / 2).

(** The levels above and including [lvl], root first. *)
Fixpoint build_levels (d : nat) (lvl : list string) : list (list string) :=
  match d with
  | O => [lvl]
  | S d => build_levels d (parents lvl) ++ [lvl]
  end.

Definition BuildMerkleTree (shs : list ShardResult) : outcome MerkleTree :=
  if negb (length shs =? ErasureTotalShards)%nat then Err (Errorf "merkle: wrong number of shards") else
  match set_leaves shs (replicate ErasureTotalShards zeroHash) with
  | Ok leaves =>
      match log2 (Z.of_nat ErasureTotalShards) with
      | Some d => Ok (mkMerkleTree (build_levels (Z.to_nat d) leaves) (Z.to_nat d) ErasureTotalShards)
      | None => Panic
      end
  | Err e => Err e
  | Panic => Panic
  end.

(** Root: indexing panics when there is no node. *)
Definition Root (t : MerkleTree) : outcome string :=
  match (nodes t !! 0%nat) ≫= (.!! 0%nat) with Some r => Ok r | None => Panic end.

(** The loop of ProofForShard from level [lvl] up: the siblings. *)
Fixpoint proof_path (t : MerkleTree) (lvl : nat) (idx : Z) : option (list string) :=
  match lvl with
  | O => Some []
  | S lvl' =>
      match (nodes t !! lvl) ≫= (.!! Z.to_nat (Z.lxor idx 1)) with
      | Some sibling => match proof_path t lvl' (Z.quot idx 2) with
                        | Some p => Some (sibling :: p)
                        | None => None
                        end
      | None => None
      end
  end.

Definition ProofForShard (t : MerkleTree) (shardIndex : Z) : outcome MerkleProof :=
  if (shardIndex <? 0) || (Z.of_nat (numLeaves t) <=? shardIndex)
  then Err (Errorf "merkle: shard index out of range") else
  match proof_path t (depth t) shardIndex with
  | Some p => Ok (mkMerkleProof shardIndex p)
  | None => Panic
  end.

Fixpoint climb (current : string) (idx : Z) (path : list string) : string :=
  match path with
  | [] => current
  | sibling :: path =>
      climb (if Z.rem idx 2 =? 0 then hashPair current sibling else hashPair sibling current) (Z.quot idx 2) path
  end.

Definition VerifyProof (root : string) (shardIndex : Z) (shardData : string) (proof : option MerkleProof)
    : outcome unit :=
  match proof with
  | None => Err (Errorf "merkle: proof is nil")
  | Some proof =>
      if negb (LeafIndex proof =? shardIndex) then Err (Errorf "merkle: proof.LeafIndex != shardIndex") else
      if negb (bool_decide (climb (Sum256 shardData) shardIndex (Path proof) = root))
      then Err (Errorf "merkle: proof verification failed") else Ok tt
  end.
End Merkle.

(** ** erasure.go *)

Section Erasure.
Context `{ReedSolomon}.

Definition newEncoder : outcome unit :=
  if rs_New ErasureDataShards ErasureParityShards then Ok tt
  else Err (Errorf "erasure: failed to create Reed-Solomon encoder").

(** [results[i] = ...] for the shards in order: more than 16 would panic, and
    missing ones stay zero values. *)
Definition wrap_results (shs : list string) : outcome (list ShardResult) :=
  if (ErasureTotalShards <? length shs)%nat then Panic else
  Ok (imap (fun i s => mkShardResult (Z.of_nat i) s) shs ++
      replicate (ErasureTotalShards - length shs) (mkShardResult 0 "")).

Definition Split (data : string) : outcome (list ShardResult) :=
  if bool_decide (data = "") then Err (Errorf "erasure: data must not be empty") else
  match newEncoder with
  | Ok _ =>
      match rs_Split data with
      | None => Err (Errorf "erasure: Split failed")
      | Some shs =>
          match rs_Encode shs with
          | None => Err (Errorf "erasure: Encode failed")
          | Some shs => wrap_results shs
          end
      end
  | Err e => Err e
  | Panic => Panic
  end.

(** The number of shards that are not nil. *)
Fixpoint count_available (shs : list (option string)) : nat :=
  match shs with
  | [] => 0
  | Some _ :: shs => S (count_available shs)
  | None :: shs => count_available shs
  end.

(** Go's [out[:n]] on a string. *)
Definition slice_to (n : nat) (s : string) : string := String.substring 0 n s.

Definition Reconstruct (shs : list (option string)) (originalLen : Z) : outcome string :=
  if negb (length shs =? ErasureTotalShards)%nat then Err (Errorf "erasure: wrong number of shards") else
  if (count_available shs <? ErasureDataShards)%nat then Err (Errorf "erasure: insufficient shards") else
  match newEncoder with
  | Ok _ =>
      match rs_Reconstruct shs with
      | None => Err (Errorf "erasure: Reconstruct failed")
      | Some shs =>
          match rs_Verify shs with
          | None => Err (Errorf "erasure: Verify failed")
          | Some false => Err (Errorf "erasure: reconstructed shards failed integrity check")
          | Some true =>
              let out := String.concat "" (take ErasureDataShards shs) in
              if (0 <? originalLen) && (originalLen <=? Z.of_nat (String.length out))
              then Ok (slice_to (Z.to_nat originalLen) out) else Ok out
          end
      end
  | Err e => Err e
  | Panic => Panic
  end.

Fixpoint place (results : list ShardResult) (shs : list (option string)) : outcome (list (option string)) :=
  match results with
  | [] => Ok shs
  | r :: results =>
      if (Index r <? 0) || (Z.of_nat ErasureTotalShards <=? Index r)
      then Err (Errorf "erasure: invalid shard index")
      else place results (<[Z.to_nat (Index r) := Some (Data r)]> shs)
  end.

Definition ReconstructFromResults (results : list ShardResult) (originalLen : Z) : outcome string :=
  match place results (replicate ErasureTotalShards None) with
  | Ok shs => Reconstruct shs originalLen
  | Err e => Err e
  | Panic => Panic
  end.
End Erasure.

(** ** The tree *)

Section MerkleTheorems.
Context `{Sha256}.
Implicit Types (lvl : list string) (k : nat).

Lemma lxor_even m : 0 <= m -> Z.lxor (2 * m) 1 = 2 * m + 1.
Proof. destruct m; [done|done|lia]. Qed.
Lemma lxor_odd m : 0 <= m -> Z.lxor (2 * m + 1) 1 = 2 * m.
Proof. destruct m; [done|done|lia]. Qed.

Lemma parents_length lvl : length (parents lvl) = (length lvl / 2)%nat.
Proof. unfold parents. by rewrite length_fmap, length_seq. Qed.

Lemma parents_lookup lvl j a b :
  lvl !! (2 * j)%nat = Some a -> lvl !! (2 * j + 1)%nat = Some b -> parents lvl !! j = Some (hashPair a b).
Proof.
  intros Ha Hb. unfold parents. rewrite list_lookup_fmap, lookup_seq_lt.
  - cbn [fmap option_fmap option_map Nat.add]. by rewrite Ha, Hb.
  - apply lookup_lt_Some in Hb. apply Nat.div_le_lower_bound; lia.
Qed.

Lemma build_levels_length d lvl : length (build_levels d lvl) = S d.
Proof. revert lvl. induction d as [|d IH]; intros lvl; cbn; [done|]. rewrite length_app, IH. cbn. lia. Qed.

Lemma build_levels_last d lvl : build_levels d lvl !! d = Some lvl.
Proof.
  destruct d; cbn; [done|]. rewrite lookup_app_r; rewrite build_levels_length; [|lia]. by rewrite Nat.sub_diag.
Qed.

Lemma build_levels_below d lvl i : (i <= d)%nat -> build_levels (S d) lvl !! i = build_levels d (parents lvl) !! i.
Proof. intros. cbn [build_levels]. apply lookup_app_l. rewrite build_levels_length. lia. Qed.

(** What hashing a node with its sibling gives, on either side. *)
Lemma step_parent lvl k c :
  Nat.even (length lvl) = true -> lvl !! k = Some c -> exists sib,
    lvl !! Z.to_nat (Z.lxor (Z.of_nat k) 1) = Some sib /\
    parents lvl !! (k / 2)%nat =
      Some (if Z.rem (Z.of_nat k) 2 =? 0 then hashPair c sib else hashPair sib c).
Proof.
  intros Hev Hk. pose proof (lookup_lt_Some _ _ _ Hk) as Hlt. apply Nat.even_spec in Hev as [n Hn].
  destruct (Nat.Even_or_Odd k) as [[m ->]|[m ->]].
  - destruct (lookup_lt_is_Some_2 lvl (2 * m + 1)) as [sib Hs]; [lia|]. exists sib.
    rewrite Nat2Z.inj_mul, lxor_even by lia.
    replace (Z.to_nat (2 * Z.of_nat m + 1)) with (2 * m + 1)%nat by lia. split; [done|].
    rewrite Nat.mul_comm, Nat.div_mul by lia. rewrite Z.mul_comm, Z.rem_mul by lia. cbn. by apply parents_lookup.
  - destruct (lookup_lt_is_Some_2 lvl (2 * m)) as [sib Hs]; [lia|]. exists sib.
    rewrite Nat2Z.inj_add, Nat2Z.inj_mul, lxor_odd by lia.
    replace (Z.to_nat (2 * Z.of_nat m)) with (2 * m)%nat by lia. split; [done|].
    replace ((2 * m + 1) / 2)%nat with m by (rewrite Nat.mul_comm, Nat.div_add_l; cbn; lia).
    rewrite Z.rem_mod_nonneg by lia. replace ((Z.of_nat 2 * Z.of_nat m + Z.of_nat 1) mod 2) with 1 by (Z.div_mod_to_equations; lia).
    cbn. by apply parents_lookup.
Qed.

Definition root_of (ls : list (list string)) : option string := (ls !! 0%nat) ≫= (.!! 0%nat).

(** The path from level [d] of a tree whose top levels are built from [lvl]. *)
Lemma path_complete d : forall lvl t k c,
  length lvl = (2 ^ d)%nat ->
  (forall i, (i <= d)%nat -> nodes t !! i = build_levels d lvl !! i) ->
  lvl !! k = Some c ->
  exists p, proof_path t d (Z.of_nat k) = Some p /\ length p = d /\
    root_of (nodes t) = Some (climb c (Z.of_nat k) p).
Proof.
  induction d as [|d IH]; intros lvl t k c Hlen Hn Hk.
  - exists []. split_and!; [done..|]. unfold root_of. rewrite (Hn 0%nat) by lia. cbn.
    pose proof (lookup_lt_Some _ _ _ Hk). cbn in Hlen. by replace 0%nat with k by lia.
  - destruct (step_parent lvl k c) as (sib & Hs & Hp); [rewrite Hlen; cbn; by rewrite Nat.even_add, Nat.add_0_r, Bool.eqb_reflx|done|].
    edestruct (IH (parents lvl) t (k / 2)%nat) as (p & Ep & Hl & Hr); [| |exact Hp|].
    + rewrite parents_length, Hlen, Nat.pow_succ_r', Nat.mul_comm. by apply Nat.div_mul.
    + intros i Hi. rewrite Hn by lia. by apply build_levels_below.
    + exists (sib :: p). cbn [proof_path]. rewrite Hn, build_levels_last by lia. cbn [mbind option_bind].
      rewrite Hs, Z.quot_div_nonneg by lia. change 2 with (Z.of_nat 2) at 1. rewrite <- Nat2Z.inj_div, Ep.
      split_and!; [done|cbn; by rewrite Hl|]. cbn [climb]. rewrite Hr.
      rewrite Z.quot_div_nonneg by lia. change (Z.of_nat k / 2) with (Z.of_nat k / Z.of_nat 2). by rewrite <- Nat2Z.inj_div.
Qed.

(** ** Building *)

Lemma set_leaves_length shs leaves leaves' : set_leaves shs leaves = Ok leaves' -> length leaves' = length leaves.
Proof.
  revert leaves. induction shs as [|sr shs IH]; cbn; intros leaves Hs; [by simplify_eq|].
  destruct (_ || _); [done|]. apply IH in Hs. by rewrite length_insert in Hs.
Qed.

(** Leaf [k] is the hash of the last shard with that index. *)
Lemma set_leaves_spec shs leaves leaves' sr pre post :
  shs = pre ++ sr :: post -> Forall (fun sr' => Index sr' <> Index sr) post ->
  set_leaves shs leaves = Ok leaves' -> (ErasureTotalShards <= length leaves)%nat ->
  0 <= Index sr < Z.of_nat ErasureTotalShards /\ leaves' !! Z.to_nat (Index sr) = Some (Sum256 (Data sr)).
Proof.
  intros -> Hp. revert leaves. induction pre as [|x pre IH]; intros leaves Hs Hl; cbn [set_leaves app] in Hs.
  - destruct (Z.ltb_spec (Index sr) 0); [done|]. destruct (Z.leb_spec (Z.of_nat ErasureTotalShards) (Index sr)); [done|].
    cbn [orb] in Hs. split; [lia|].
    assert (<[Z.to_nat (Index sr) := Sum256 (Data sr)]> leaves !! Z.to_nat (Index sr) = Some (Sum256 (Data sr))) as Hk
      by (apply list_lookup_insert_eq; lia).
    revert Hs Hk. generalize (<[Z.to_nat (Index sr) := Sum256 (Data sr)]> leaves) as l. clear - Hp H0.
    induction Hp as [|y post Hy _ IH]; cbn [set_leaves]; intros l Hs Hk; [by simplify_eq|].
    destruct (Z.ltb_spec (Index y) 0); [done|]. destruct (_ <=? _); [done|]. cbn [orb] in Hs.
    apply (IH _ Hs). rewrite list_lookup_insert_ne by lia. done.
  - destruct (_ || _); [done|]. apply (IH _ Hs). by rewrite length_insert.
Qed.

(** A built tree has its 16 leaves at level 4. *)
Lemma BuildMerkleTree_ok shs t : BuildMerkleTree shs = Ok t -> exists leaves,
  set_leaves shs (replicate ErasureTotalShards zeroHash) = Ok leaves /\ length leaves = (2 ^ 4)%nat /\
  t = mkMerkleTree (build_levels 4 leaves) 4 ErasureTotalShards.
Proof.
  unfold BuildMerkleTree. destruct (negb _); [done|].
  destruct (set_leaves _ _) as [leaves|e|] eqn:E; [|done..].
  change (log2 (Z.of_nat ErasureTotalShards)) with (Some 4). intros [= <-].
  exists leaves. split_and!; [done| |done]. apply set_leaves_length in E. by rewrite E, length_replicate.
Qed.

(** [sr] is the last of the shards that has its index. *)
Definition shard_of (shs : list ShardResult) (sr : ShardResult) : Prop :=
  exists pre post, shs = pre ++ sr :: post /\ Forall (fun sr' => Index sr' <> Index sr) post.

Lemma honest_proof shs t sr : BuildMerkleTree shs = Ok t -> shard_of shs sr ->
  0 <= Index sr < 16 /\ exists root p, Root t = Ok root /\ length p = 4%nat /\
    proof_path t 4 (Index sr) = Some p /\ climb (Sum256 (Data sr)) (Index sr) p = root.
Proof.
  intros (leaves & Hs & Hl & ->)%BuildMerkleTree_ok (pre & post & E & Hp).
  destruct (set_leaves_spec _ _ _ _ _ _ E Hp Hs) as [Hi Hk]; [by rewrite length_replicate|]. split; [exact Hi|].
  set (t := mkMerkleTree (build_levels 4 leaves) 4 ErasureTotalShards).
  destruct (path_complete 4 leaves t (Z.to_nat (Index sr)) (Sum256 (Data sr)) Hl) as (p & Ep & Hpl & Hr); [done..|].
  rewrite Z2Nat.id in Ep, Hr by lia. exists (climb (Sum256 (Data sr)) (Index sr) p), p.
  unfold Root. unfold root_of in Hr. by rewrite Hr.
Qed.

Lemma ProofForShard_run shs t i p : BuildMerkleTree shs = Ok t -> 0 <= i < 16 ->
  proof_path t 4 i = Some p -> ProofForShard t i = Ok (mkMerkleProof i p).
Proof.
  intros (leaves & _ & _ & ->)%BuildMerkleTree_ok Hi Hp. unfold ProofForShard. cbn [numLeaves depth].
  destruct (Z.ltb_spec i 0); [lia|].
  destruct (Z.leb_spec (Z.of_nat ErasureTotalShards) i) as [Hge|]; [change (16 <= i) in Hge; lia|].
  cbn [orb]. by rewrite Hp.
Qed.

(** Completeness.  For every shard a tree was built from, ProofForShard
    returns a proof, and VerifyProof accepts the shard's data at its index
    against the tree's root. *)
Theorem merkle_complete shs t sr :
  BuildMerkleTree shs = Ok t -> shard_of shs sr ->
  exists root proof, Root t = Ok root /\ ProofForShard t (Index sr) = Ok proof /\
    VerifyProof root (Index sr) (Data sr) (Some proof) = Ok tt.
Proof.
  intros Ht Hsr. destruct (honest_proof _ _ _ Ht Hsr) as (Hi & root & p & Hr & Hl & Hp & Hc).
  exists root, (mkMerkleProof (Index sr) p). split; [done|]. split; [by eapply ProofForShard_run|].
  unfold VerifyProof. cbn [LeafIndex Path]. by rewrite Z.eqb_refl, Hc, bool_decide_true.
Qed.

(** ** What an accepted shard is *)

(** The strings hashed on the way from a shard to the root. *)
Fixpoint climb_inputs (current : string) (idx : Z) (path : list string) : list string :=
  match path with
  | [] => []
  | sibling :: path =>
      let input := if Z.rem idx 2 =? 0 then current +:+ sibling else sibling +:+ current in
      input :: climb_inputs (Sum256 input) (Z.quot idx 2) path
  end.

Definition proof_inputs (shardData : string) (idx : Z) (path : list string) : list string :=
  shardData :: climb_inputs (Sum256 shardData) idx path.

(** A collision between what two verifications hash. *)
Definition collision (xs ys : list string) : Prop :=
  exists x y, x ∈ xs /\ y ∈ ys /\ x <> y /\ Sum256 x = Sum256 y.

Lemma climb_inj `{!Sha256Laws} p : forall p' c c' idx,
  String.length c = 32%nat -> String.length c' = 32%nat ->
  Forall (fun h => String.length h = 32%nat) p -> Forall (fun h => String.length h = 32%nat) p' ->
  length p = length p' -> climb c idx p = climb c' idx p' ->
  c = c' \/ collision (climb_inputs c idx p) (climb_inputs c' idx p').
Proof.
  induction p as [|s p IH]; intros [|s' p'] c c' idx Hc Hc' Hp Hp' Hl E; try discriminate; [by left|].
  inversion Hp as [|? ? Hs Hp1]; inversion Hp' as [|? ? Hs' Hp1']; subst. injection Hl as Hl.
  set (x := if Z.rem idx 2 =? 0 then c +:+ s else s +:+ c).
  set (x' := if Z.rem idx 2 =? 0 then c' +:+ s' else s' +:+ c').
  destruct (IH p' (Sum256 x) (Sum256 x') (Z.quot idx 2)) as [Ex|(a & b & Ha & Hb & Hne & Ehash)];
    [apply Sum256_length..|done|done|done| | |].
  - cbn in E. unfold x, x', hashPair in *. by destruct (Z.rem idx 2 =? 0).
  - destruct (decide (x = x')) as [Exx|Hne].
    + left. unfold x, x' in Exx. destruct (Z.rem idx 2 =? 0); apply str_app_inj_len in Exx as [? ?]; congruence.
    + right. exists x, x'. split_and!; [by left|by left|done|done].
  - right. exists a, b. cbn. fold x x'. split_and!; [by right|by right|done|done].
Qed.

Lemma set_leaves_32 `{!Sha256Laws} shs leaves leaves' : set_leaves shs leaves = Ok leaves' ->
  Forall (fun h => String.length h = 32%nat) leaves -> Forall (fun h => String.length h = 32%nat) leaves'.
Proof.
  revert leaves. induction shs as [|sr shs IH]; cbn [set_leaves]; intros leaves Hs Hf; [by simplify_eq|].
  destruct (_ || _); [done|]. apply (IH _ Hs). apply Forall_insert; [done|]. apply Sum256_length.
Qed.

Lemma build_levels_32 `{!Sha256Laws} d lvl : Forall (fun h => String.length h = 32%nat) lvl ->
  Forall (Forall (fun h => String.length h = 32%nat)) (build_levels d lvl).
Proof.
  revert lvl. induction d as [|d IH]; intros lvl Hf; cbn; [by constructor|].
  apply Forall_app. split; [|by constructor]. apply IH. unfold parents. apply Forall_fmap, Forall_true. intros i. apply Sum256_length.
Qed.

Lemma proof_path_32 t n idx p : Forall (Forall (fun h => String.length h = 32%nat)) (nodes t) ->
  proof_path t n idx = Some p -> Forall (fun h => String.length h = 32%nat) p.
Proof.
  intros Hf. revert idx p. induction n as [|n IH]; cbn [proof_path]; intros idx p Hp; [by simplify_eq|].
  destruct (nodes t !! S n) as [l|] eqn:El; cbn in Hp; [|done].
  destruct (l !! _) as [sib|] eqn:Es; [|done]. destruct (proof_path t n _) as [q|] eqn:Eq; simplify_eq.
  constructor; [|by eapply IH]. pose proof (Forall_lookup_1 _ _ _ _ Hf El) as Hl.
  exact (Forall_lookup_1 _ _ _ _ Hl Es).
Qed.

Lemma honest_path_32 `{!Sha256Laws} shs t idx p : BuildMerkleTree shs = Ok t -> proof_path t 4 idx = Some p ->
  Forall (fun h => String.length h = 32%nat) p.
Proof.
  intros (leaves & Hs & _ & ->)%BuildMerkleTree_ok Hp. eapply proof_path_32; [|exact Hp].
  apply build_levels_32. eapply set_leaves_32; [exact Hs|]. by apply Forall_replicate.
Qed.

Lemma climb_length `{!Sha256Laws} path : forall current idx,
  String.length current = 32%nat -> String.length (climb current idx path) = 32%nat.
Proof. induction path as [|h path IH]; intros current idx Hc; [done|]. apply IH. case_match; apply Sum256_length. Qed.

(** A tree is built from 16 shards with indices in range. *)
Lemma BuildMerkleTree_run shs : length shs = ErasureTotalShards ->
  Forall (fun sr => 0 <= Index sr < 16) shs -> exists t, BuildMerkleTree shs = Ok t.
Proof.
  intros Hl Hf. assert (forall leaves, exists leaves', set_leaves shs leaves = Ok leaves') as Hs.
  { clear Hl. induction Hf as [|sr shs Hi Hf IH]; intros leaves; cbn [set_leaves]; [by eexists|].
    destruct (Z.ltb_spec (Index sr) 0); [lia|]. destruct (Z.leb_spec (Z.of_nat ErasureTotalShards) (Index sr)) as [Hge|];
      [change (16 <= Index sr) in Hge; lia|]. apply IH. }
  destruct (Hs (replicate ErasureTotalShards zeroHash)) as [leaves E].
  unfold BuildMerkleTree. rewrite Hl, Nat.eqb_refl, E. cbn [negb].
  change (log2 (Z.of_nat ErasureTotalShards)) with (Some 4). by eexists.
Qed.

(** Soundness.  When VerifyProof accepts some data at the index of a
    shard the tree was built from, under a proof of the full length 4, the
    data is that shard's data, or the two verifications hash two different
    strings to the same digest. *)
Theorem merkle_sound `{!Sha256Laws} shs t sr root data proof :
  BuildMerkleTree shs = Ok t -> shard_of shs sr -> Root t = Ok root ->
  length (Path proof) = 4%nat -> Forall (fun h => String.length h = 32%nat) (Path proof) ->
  VerifyProof root (Index sr) data (Some proof) = Ok tt ->
  data = Data sr \/ exists honest, ProofForShard t (Index sr) = Ok honest /\
    collision (proof_inputs data (Index sr) (Path proof)) (proof_inputs (Data sr) (Index sr) (Path honest)).
Proof.
  intros Ht Hsr Hr Hlen H32 Hv. destruct (honest_proof _ _ _ Ht Hsr) as (Hi & root' & p & Hr' & Hl & Hp & Hc).
  rewrite Hr in Hr'. injection Hr' as <-.
  assert (ProofForShard t (Index sr) = Ok (mkMerkleProof (Index sr) p)) as Hh by by eapply ProofForShard_run.
  unfold VerifyProof in Hv. destruct (negb _); [done|]. case_bool_decide as Hcl; [|done].
  pose proof (honest_path_32 _ _ _ _ Ht Hp) as Hp32.
  destruct (climb_inj (Path proof) p (Sum256 data) (Sum256 (Data sr)) (Index sr)) as [Ed|(x & y & Hx & Hy & Hne & Exy)];
    [apply Sum256_length..|done|done|congruence|congruence| |].
  - destruct (decide (data = Data sr)) as [?|Hne]; [by left|right].
    eexists. split; [exact Hh|]. exists data, (Data sr). split_and!; [by left|by left|done|done].
  - right. eexists. split; [exact Hh|]. exists x, y. split_and!; [by right|by right|done|done].
Qed.

(** The length of the proof is not checked.  For every tree and every
    pair of neighbouring leaves, the 64 bytes of the two leaf hashes are
    accepted as the data of a shard, with the upper three siblings as proof. *)
Theorem merkle_accepts_interior shs t leaves root k a b :
  BuildMerkleTree shs = Ok t -> set_leaves shs (replicate ErasureTotalShards zeroHash) = Ok leaves ->
  leaves !! (2 * k)%nat = Some a -> leaves !! (2 * k + 1)%nat = Some b -> Root t = Ok root ->
  exists path, length path = 3%nat /\
    VerifyProof root (Z.of_nat k) (a +:+ b) (Some (mkMerkleProof (Z.of_nat k) path)) = Ok tt.
Proof.
  intros (leaves' & Hs' & Hl & ->)%BuildMerkleTree_ok Hs Ha Hb Hr. rewrite Hs in Hs'. injection Hs' as <-.
  set (t := mkMerkleTree (build_levels 4 leaves) 4 ErasureTotalShards) in *.
  destruct (path_complete 3 (parents leaves) t k (hashPair a b)) as (p & _ & Hp & Hroot).
  - by rewrite parents_length, Hl.
  - intros i Hi. by apply build_levels_below.
  - by apply parents_lookup.
  - exists p. split; [done|]. unfold VerifyProof. cbn [LeafIndex Path]. rewrite Z.eqb_refl.
    unfold root_of in Hroot. unfold Root in Hr. rewrite Hroot in Hr. injection Hr as <-.
    by rewrite bool_decide_true.
Qed.
End MerkleTheorems.

(** ** Recovering a ciphertext *)

(** What the library documents: splitting cuts the data into equal shards,
    the last one zero-padded; encoding fills in the parity shards and leaves
    the data shards; any [ErasureDataShards] shards of an encoded set give the
    whole set back, and an encoded set verifies. *)
Class ReedSolomonLaws `{ReedSolomon} : Prop := {
  rs_new_ok : rs_New ErasureDataShards ErasureParityShards = true;
  rs_split_ok data : data <> "" -> exists shs pad,
    rs_Split data = Some shs /\ length shs = ErasureTotalShards /\
    String.concat "" (take ErasureDataShards shs) = data +:+ pad;
  rs_encode_ok data shs : rs_Split data = Some shs -> exists enc,
    rs_Encode shs = Some enc /\ length enc = ErasureTotalShards /\
    take ErasureDataShards enc = take ErasureDataShards shs /\ rs_Verify enc = Some true;
  rs_reconstruct_ok data shs enc part :
    rs_Split data = Some shs -> rs_Encode shs = Some enc ->
    Forall2 (fun o s => o = None \/ o = Some s) part enc ->
    (ErasureDataShards <= count_available part)%nat -> rs_Reconstruct part = Some enc;
}.

Section ErasureTheorems.
Context `{ReedSolomonLaws}.

Lemma count_insert l i d : l !! i = Some None -> count_available (<[i := Some d]> l) = S (count_available l).
Proof.
  revert i. induction l as [|o l IH]; intros [|i] Hi; cbn in *; simplify_eq; [done|].
  destruct o; cbn; by rewrite IH.
Qed.

Lemma count_replicate n : count_available (replicate n None) = 0%nat.
Proof. by induction n. Qed.

(** Placing shards of [enc] with distinct indices into an array that is empty
    there. *)
Lemma place_ok enc picked : forall shs,
  length enc = ErasureTotalShards ->
  Forall (fun r => 0 <= Index r /\ enc !! Z.to_nat (Index r) = Some (Data r)) picked ->
  NoDup (Index <$> picked) ->
  Forall2 (fun o s => o = None \/ o = Some s) shs enc ->
  (forall r, r ∈ picked -> shs !! Z.to_nat (Index r) = Some None) ->
  exists shs', place picked shs = Ok shs' /\
    Forall2 (fun o s => o = None \/ o = Some s) shs' enc /\
    count_available shs' = (count_available shs + length picked)%nat.
Proof.
  induction picked as [|r picked IH]; intros shs Hl Hf Hnd Hs Hnone; cbn [place].
  - exists shs. split_and!; [done..|cbn; lia].
  - inversion Hf as [|? ? [Hi Hd] Hf']; subst. cbn in Hnd. apply NoDup_cons in Hnd as [Hnin Hnd].
    pose proof (lookup_lt_Some _ _ _ Hd) as Hlt. rewrite Hl in Hlt.
    destruct (Z.ltb_spec (Index r) 0); [lia|].
    destruct (Z.leb_spec (Z.of_nat ErasureTotalShards) (Index r)); [lia|]. cbn [orb].
    destruct (IH (<[Z.to_nat (Index r) := Some (Data r)]> shs)) as (shs' & Hp & Hs' & Hc); [done..| | |].
    + apply Forall2_same_length_lookup. split; [rewrite length_insert; by eapply Forall2_length|].
      intros i o s Ho He. apply list_lookup_insert_Some in Ho as [(<- & <- & _)|(_ & Ho)].
      * right. congruence.
      * eapply Forall2_lookup_lr in Hs; eauto.
    + intros r' Hr'. rewrite list_lookup_insert_ne; [by apply Hnone; right|].
      assert (Index r' <> Index r) by (intros E; apply Hnin; rewrite <- E; by apply list_elem_of_fmap_2).
      rewrite Forall_forall in Hf'. destruct (Hf' _ Hr'). lia.
    + exists shs'. split_and!; [done..|]. rewrite Hc, count_insert by (by apply Hnone; left). cbn. lia.
Qed.

Lemma slice_to_app a b : slice_to (String.length a) (a +:+ b) = a.
Proof.
  unfold slice_to. induction a as [|c a IH]; [by destruct b|]. exact (f_equal (String c) IH).
Qed.

Lemma wrap_results_lookup enc rs r : length enc = ErasureTotalShards -> wrap_results enc = Ok rs -> r ∈ rs ->
  0 <= Index r /\ enc !! Z.to_nat (Index r) = Some (Data r).
Proof.
  intros Hl. unfold wrap_results. rewrite Hl, Nat.ltb_irrefl, Nat.sub_diag. cbn [replicate]. rewrite app_nil_r.
  intros [= <-] (i & Hi)%list_elem_of_lookup. rewrite list_lookup_imap in Hi.
  destruct (enc !! i) as [d|] eqn:E; cbn in Hi; [|done]. injection Hi as <-. cbn. split; [lia|]. by rewrite Nat2Z.id.
Qed.

(** The encoded shards behind a successful [Split]. *)
Lemma Split_run data : data <> "" -> exists shs enc pad,
  rs_Split data = Some shs /\ rs_Encode shs = Some enc /\ length enc = ErasureTotalShards /\
  rs_Verify enc = Some true /\ String.concat "" (take ErasureDataShards enc) = data +:+ pad /\
  Split data = wrap_results enc.
Proof.
  intros Hd. destruct (rs_split_ok data Hd) as (shs & pad & Es & _ & Hc).
  destruct (rs_encode_ok data shs Es) as (enc & Ee & Hl & Ht & Hv). exists shs, enc, pad.
  rewrite Ht. split_and!; [done..|]. unfold Split, newEncoder. by rewrite bool_decide_false, rs_new_ok, Es, Ee.
Qed.

(** From the results of a split, with distinct indices and in any order. *)
Lemma reconstruct_picked data rs picked :
  data <> "" -> Split data = Ok rs -> Forall (fun r => r ∈ rs) picked -> NoDup (Index <$> picked) ->
  ReconstructFromResults picked (Z.of_nat (String.length data)) =
    if (ErasureDataShards <=? length picked)%nat then Ok data else Err (Errorf "erasure: insufficient shards").
Proof.
  intros Hd. destruct (Split_run data Hd) as (shs & enc & pad & Es & Ee & Hl & Hv & Hc & ->). intros Er Hp Hnd.
  destruct (place_ok enc picked (replicate ErasureTotalShards None)) as (part & Epl & Hpart & Hcnt); [done| |done| | |].
  - eapply Forall_impl; [exact Hp|]. intros r Hr. by eapply wrap_results_lookup.
  - apply Forall2_replicate_l; [exact Hl|]. apply Forall_true. intros x. by left.
  - intros r Hr. apply lookup_replicate_2. rewrite Forall_forall in Hp.
    destruct (wrap_results_lookup enc rs r Hl Er (Hp _ Hr)) as [_ Hlk]. apply lookup_lt_Some in Hlk. lia.
  - rewrite count_replicate in Hcnt. cbn [Nat.add] in Hcnt.
    unfold ReconstructFromResults, Reconstruct. rewrite Epl, (Forall2_length _ _ _ Hpart), Hl, Nat.eqb_refl, Hcnt. cbn [negb].
    rewrite Nat.ltb_antisym. destruct (Nat.leb_spec ErasureDataShards (length picked)) as [Hge|]; [|done]. cbn [negb].
    unfold newEncoder. rewrite rs_new_ok, (rs_reconstruct_ok data shs enc part Es Ee Hpart) by lia. rewrite Hv, Hc.
    pose proof (str_length_app data pad).
    destruct (Z.ltb_spec 0 (Z.of_nat (String.length data))); [|destruct data; [done|cbn in *; lia]].
    destruct (Z.leb_spec (Z.of_nat (String.length data)) (Z.of_nat (String.length (data +:+ pad)))); [|lia].
    cbn [andb]. by rewrite Nat2Z.id, slice_to_app.
Qed.

(** A split succeeds and numbers its 16 shards in order. *)
Lemma Split_total data : data <> "" ->
  exists rs, Split data = Ok rs /\ length rs = ErasureTotalShards /\
    forall i sr, rs !! i = Some sr -> Index sr = Z.of_nat i.
Proof.
  intros Hd. destruct (Split_run data Hd) as (shs & enc & pad & _ & _ & Hl & _ & _ & ->).
  unfold wrap_results. rewrite Hl, Nat.ltb_irrefl, Nat.sub_diag. cbn [replicate]. rewrite app_nil_r.
  eexists. split; [done|]. rewrite length_imap. split; [done|]. intros i sr Hi. rewrite list_lookup_imap in Hi.
  destruct (enc !! i); cbn in Hi; by simplify_eq.
Qed.

(** Recovery.  Split succeeds on every non-empty ciphertext and gives 16
    shards; from any of them with distinct indices, in any order,
    ReconstructFromResults gives the ciphertext back, without the padding, when
    there are at least 12, and an error when there are fewer. *)
Theorem erasure_roundtrip data :
  data <> "" ->
  exists rs, Split data = Ok rs /\ length rs = ErasureTotalShards /\
  forall picked, Forall (fun r => r ∈ rs) picked -> NoDup (Index <$> picked) ->
    ReconstructFromResults picked (Z.of_nat (String.length data)) =
      if (ErasureDataShards <=? length picked)%nat then Ok data else Err (Errorf "erasure: insufficient shards").
Proof.
  intros Hd. destruct (Split_total data Hd) as (rs & Er & Hl & _). exists rs. split_and!; [done..|].
  intros picked Hp Hnd. by eapply reconstruct_picked.
Qed.
End ErasureTheorems.

(** ** The theorems at concrete inputs *)

(** A digest of 32 bytes: the first 32 bytes, zero-padded. *)
Definition toy_sha256 : Sha256 := {| Sum256 s := slice_to 32 (s +:+ zeroHash) |}.

Lemma slice_to_length n s : (n <= String.length s)%nat -> String.length (slice_to n s) = n.
Proof.
  unfold slice_to. revert s. induction n as [|n IH]; intros [|c s] Hn; cbn in *; [done|done|lia|].
  f_equal. apply IH. lia.
Qed.

Lemma toy_sha256_laws : @Sha256Laws toy_sha256.
Proof. split. intros s. apply slice_to_length. rewrite str_length_app. cbn. lia. Qed.

(** A code: one data shard carries everything and so does each parity shard;
    the other data shards are padding. *)
Definition toy_set (d : string) : list string :=
  d :: replicate 11 (Nat.iter (String.length d) (String "000"%char) "") ++ replicate 4 d.
Definition toy_rs : ReedSolomon := {|
  rs_New _ _ := true;
  rs_Split data := Some (toy_set data);
  rs_Encode shs := match shs with d :: _ => Some (toy_set d) | [] => None end;
  rs_Reconstruct part :=
    match part with
    | Some d :: _ => Some (toy_set d)
    | None :: rest => match omap id (drop 11 rest) with d :: _ => Some (toy_set d) | [] => None end
    | [] => None
    end;
  rs_Verify shs := match shs with d :: _ => Some (bool_decide (shs = toy_set d)) | [] => None end;
|}.

Lemma count_available_app l l' : count_available (l ++ l') = (count_available l + count_available l')%nat.
Proof. induction l as [|[] l IH]; cbn; [done|by rewrite IH|done]. Qed.

Lemma count_le_length l : (count_available l <= length l)%nat.
Proof. induction l as [|[] l IH]; cbn; lia. Qed.

Lemma count_omap l : omap id l = [] -> count_available l = 0%nat.
Proof. induction l as [|[d|] l IH]; cbn; [done|done|done]. Qed.

Lemma toy_rs_laws : @ReedSolomonLaws toy_rs.
Proof.
  split; cbn; [done| | |].
  - intros data _. exists (toy_set data). eexists. split_and!; [done..|]. reflexivity.
  - intros data shs [= <-]. exists (toy_set data). split_and!; [done..|].
    change (Some (bool_decide (toy_set data = toy_set data)) = Some true). by rewrite bool_decide_true.
  - intros data shs enc part [= <-] [= <-] Hf Hc. unfold toy_set in Hf.
    apply Forall2_cons_inv_r in Hf as (o & rest & Ho & Hf & ->).
    destruct Ho as [-> | ->]; [|done]. cbn in Hc.
    apply Forall2_app_inv_r in Hf as (l1 & l2 & H1 & H2 & ->).
    pose proof (Forall2_length _ _ _ H1) as Hl1. rewrite length_replicate in Hl1.
    rewrite drop_app_length' by done. pose proof (count_le_length l1). rewrite count_available_app in Hc.
    destruct (omap id l2) as [|d l] eqn:E; [apply count_omap in E; unfold ErasureDataShards in Hc; lia|].
    assert (d ∈ omap id l2) as (o & Hin & Ho)%list_elem_of_omap by (rewrite E; left). cbn in Ho. subst o.
    apply list_elem_of_lookup in Hin as [i Hi]. destruct (Forall2_lookup_l _ _ _ _ _ H2 Hi) as (x & Hx & [?|Hd]); [done|].
    injection Hd as <-. apply lookup_replicate in Hx as [-> _]. done.
Qed.

Section Witnesses.
#[local] Existing Instance toy_sha256.
#[local] Existing Instance toy_sha256_laws.
#[local] Existing Instance toy_rs.
#[local] Existing Instance toy_rs_laws.

Definition sample_shards : list ShardResult :=
  match Split "ciphertext" with Ok rs => rs | _ => [] end.
Definition sample_tree : MerkleTree :=
  match BuildMerkleTree sample_shards with Ok t => t | _ => mkMerkleTree [] 0 0 end.
Definition sample_root : string := match Root sample_tree with Ok r => r | _ => "" end.
Definition parity_shard : ShardResult := mkShardResult 13 "ciphertext".

Lemma sample_shard_of : shard_of sample_shards parity_shard.
Proof. exists (take 13 sample_shards), (drop 14 sample_shards). by repeat constructor. Qed.

Lemma merkle_complete_witness : exists root proof, Root sample_tree = Ok root /\
  ProofForShard sample_tree 13 = Ok proof /\ VerifyProof root 13 "ciphertext" (Some proof) = Ok tt.
Proof. apply (merkle_complete sample_shards sample_tree parity_shard); [vm_compute; reflexivity|exact sample_shard_of]. Defined.

Lemma merkle_sound_witness : exists proof, VerifyProof sample_root 13 "ciphertext" (Some proof) = Ok tt /\
  ("ciphertext" = Data parity_shard \/ exists honest, ProofForShard sample_tree 13 = Ok honest /\
    collision (proof_inputs "ciphertext" 13 (Path proof)) (proof_inputs "ciphertext" 13 (Path honest))).
Proof.
  exists (match ProofForShard sample_tree 13 with Ok p => p | _ => mkMerkleProof 0 [] end).
  split; [vm_compute; reflexivity|].
  apply (merkle_sound sample_shards sample_tree parity_shard sample_root).
  - vm_compute. reflexivity.
  - exact sample_shard_of.
  - vm_compute. reflexivity.
  - vm_compute. reflexivity.
  - vm_compute. by repeat constructor.
  - vm_compute. reflexivity.
Defined.

Definition sample_leaves : list string :=
  match set_leaves sample_shards (replicate ErasureTotalShards zeroHash) with Ok l => l | _ => [] end.

Lemma merkle_accepts_interior_witness : exists path, length path = 3%nat /\
  VerifyProof sample_root 6 (Sum256 "ciphertext" +:+ Sum256 "ciphertext") (Some (mkMerkleProof 6 path)) = Ok tt.
Proof. apply (merkle_accepts_interior sample_shards sample_tree sample_leaves sample_root 6); vm_compute; reflexivity. Defined.

Lemma erasure_roundtrip_witness :
  ReconstructFromResults (rev (drop 4 sample_shards)) 10 = Ok "ciphertext" /\
  is_Ok (ReconstructFromResults (drop 5 sample_shards) 10) = false.
Proof.
  destruct (erasure_roundtrip "ciphertext" ltac:(discriminate)) as (rs & Hs & _ & Hr).
  assert (rs = sample_shards) as -> by (unfold sample_shards; by rewrite Hs). split.
  - refine (eq_trans (Hr (rev (drop 4 sample_shards)) _ _) _); [| |vm_compute; reflexivity].
    + apply Forall_rev, Forall_drop, Forall_forall. done.
    + apply (bool_decide_unpack _). vm_compute. exact I.
  - refine (eq_trans (f_equal is_Ok (Hr (drop 5 sample_shards) _ _)) _); [| |vm_compute; reflexivity].
    + apply Forall_drop, Forall_forall. done.
    + apply (bool_decide_unpack _). vm_compute. exact I.
Defined.
End Witnesses.
End shards.
