(* ===== verification/Lwr.v ===== *)
(** Lwr: the block hashes of x/privacy/pqc.

    lwr_hash.go (the LWR-SHA3 hash), povl.go (its iteration), hashing.go and
    block.go (the SHA3 block hash and signed blocks).  SHA3 and Dilithium5 are
    the class [Crypto]; the byte stream of SHAKE-256 is the class [Shake].

    Theorems: the int32 double loop of polyMulRound never overflows and is
    negacyclic multiplication followed by rounding; the hash always has 96
    bytes and validates; PoVL chains compose; a signed block verifies, and a
    block hash does not see where the application hash and the transactions
    begin and end. *)

From Stdlib Require Import ZArith Lia Ascii String.
From stdpp Require Import base sets list strings.
From S2P Require Import Prelude Pqc.

Open Scope Z_scope.
Open Scope go_scope.

(** The bytes an XOF of golang.org/x/crypto/sha3 outputs for a message. *)
Class Shake : Type := { shake256 : string -> nat -> ascii }.

(** A SHA3-256 digest has 32 bytes. *)
Class Sha3Laws `{Crypto} : Prop := { sha3_length s : String.length (sha3_256 s) = 32%nat }.

(** int32 wrap-around. *)
Definition two32 : Z := 4294967296.
Definition wrap_i32 (z : Z) : Z := (z + 2147483648) mod two32 - 2147483648.

Definition byte_val (c : ascii) : Z := Z.of_N (N_of_ascii c).
Definition byte_of (z : Z) : ascii := ascii_of_N (Z.to_N (z mod 256)).

(** [s[i]] for an index in range. *)
Definition byte_at (s : string) (i : nat) : Z := match String.get i s with Some c => byte_val c | None => 0 end.

Fixpoint bytes_of (l : list ascii) : string := match l with [] => "" | c :: l => String c (bytes_of l) end.

(** encoding/binary.BigEndian. *)
Fixpoint be_bytes (n : nat) (z : Z) : string :=
  match n with
  | O => ""
  | S n => String (byte_of (Z.shiftr z (8 * Z.of_nat n))) (be_bytes n z)
  end.

Fixpoint be_val_from (acc : Z) (s : string) : Z :=
  match s with "" => acc | String c s => be_val_from (256 * acc + byte_val c) s end.
Definition be_val (s : string) : Z := be_val_from 0 s.

(** Go's [make([]byte, n)] and [copy] into one. *)
Definition zero_bytes (n : nat) : string := Nat.iter n (String "000"%char) "".

Module lwr.

Definition HashSize : nat := 32.
Definition LWRHashSize : nat := 96.
Definition lwrN : nat := 256.
Definition lwrQ : Z := 3329.
Definition lwrP : Z := 256.
Definition lwrOutputCoeffs : nat := 64.
Definition PoVLStateSize : nat := 32.

(** simd_opt.go: 32 bytes, padded with zeros or cut. *)
Definition zeroPad32 (b : string) : string := String.substring 0 HashSize (b +:+ zero_bytes HashSize).

Section Hash.
Context `{Crypto} `{Shake}.

Definition computeSeed (input prevHash : string) : string := sha3_256 (input +:+ prevHash).

(** The rejection sampling loop of expandMatrix; [fuel] bounds the reads of
    two bytes, [None] when they did not suffice. *)
Fixpoint expand_loop (fuel : nat) (seed : string) (pos : nat) (a : list Z) : option (list Z) :=
  if (length a =? lwrN)%nat then Some a else
  match fuel with
  | O => None
  | S fuel =>
      let v := byte_val (shake256 ("A" +:+ seed) pos) + 256 * byte_val (shake256 ("A" +:+ seed) (S pos)) in
      expand_loop fuel seed (S (S pos)) (if v <? lwrQ then a ++ [v] else a)
  end.

Definition expandMatrix (fuel : nat) (seed : string) : option (list Z) := expand_loop fuel seed 0 [].

(** One coefficient of the secret, from two bits of the input. *)
Definition secret_coeff (input : string) (i : nat) : Z :=
  let bitIdx := (2 * i)%nat in
  let byteIdx := ((bitIdx / 8) mod String.length input)%nat in
  let shift := Z.of_nat (bitIdx mod 8) in
  let b0 := Z.land (Z.shiftr (byte_at input byteIdx) shift) 1 in
  let b1 := Z.land (Z.shiftr (byte_at input ((byteIdx + 1) mod String.length input)) ((shift + 1) mod 8)) 1 in
  let two := Z.lor b0 (Z.shiftl b1 1) in
  if two =? 0 then -1 else if two =? 3 then 1 else 0.

Definition inputToSecret (input : string) : list Z :=
  if bool_decide (input = "") then replicate lwrN 0 else secret_coeff input <$> seq 0 lwrN.

(** The body of the double loop: [b[(i+j) mod n] ±= a[i] * s[j]] on int32. *)
Definition mul_step (a s b : list Z) (ij : nat * nat) : list Z :=
  let '(i, j) := ij in
  let k := ((i + j) mod lwrN)%nat in
  let prod := wrap_i32 (default 0 (a !! i) * default 0 (s !! j)) in
  if (lwrN <=? i + j)%nat then alter (fun x => wrap_i32 (x - prod)) k b
  else alter (fun x => wrap_i32 (x + prod)) k b.

Definition index_pairs : list (nat * nat) := i ← seq 0 lwrN; (fun j => (i, j)) <$> seq 0 lwrN.

(** Reduction mod q and rounding, on int32 with Go's truncated division. *)
Definition round_coeff (x : Z) : Z :=
  let val := Z.rem (wrap_i32 (Z.rem x lwrQ + lwrQ)) lwrQ in
  let rounded := Z.quot (wrap_i32 (val * lwrP)) lwrQ in
  Z.rem rounded lwrP.

Definition polyMulRound (a s : list Z) : list Z :=
  round_coeff <$> foldl (mul_step a s) (replicate lwrN 0) index_pairs.

Definition GenerateLWRBlockHash (fuel : nat) (input prevHash : string) : option string :=
  let seed := computeSeed input prevHash in
  match expandMatrix fuel seed with
  | None => None
  | Some a =>
      let b := polyMulRound a (inputToSecret input) in
      Some (seed +:+ bytes_of (byte_of <$> take lwrOutputCoeffs b))
  end.

Definition ValidateLWRHash (h : string) : outcome unit :=
  if negb (String.length h =? LWRHashSize)%nat then Err (Errorf "invalid LWR hash: wrong size") else
  if forallb (fun i => byte_at h (32 + i) <? lwrP) (seq 0 lwrOutputCoeffs) then Ok tt
  else Err (Errorf "invalid LWR hash: coefficient out of range").

(** *** povl.go *)

Definition GeneratePoVLState (fuel : nat) (prevState : string) : option string :=
  let prevState := if bool_decide (prevState = "") then zero_bytes PoVLStateSize else prevState in
  let currentState := zeroPad32 prevState in
  match GenerateLWRBlockHash fuel currentState currentState with
  | Some lwrMix => Some (sha3_256 (lwrMix +:+ currentState))
  | None => None
  end.

Fixpoint povl_loop (fuel : nat) (state : string) (nSteps : nat) : option string :=
  match nSteps with
  | O => Some state
  | S n => match GeneratePoVLState fuel state with Some state => povl_loop fuel state n | None => None end
  end.

Definition ComputePoVLChain (fuel : nat) (initialState : string) (nSteps : Z) : option string :=
  povl_loop fuel (zeroPad32 initialState) (Z.to_nat nSteps).

Definition VerifyPoVLChain (fuel : nat) (initialState expectedFinalState : string) (nSteps : Z) : option bool :=
  match ComputePoVLChain fuel initialState nSteps with
  | Some s => Some (bool_decide (s = expectedFinalState))
  | None => None
  end.

(** *** hashing.go *)

Definition blockHashDomain : string := "ZYTHERION_BLOCK_HASH_V1".

Record BlockHashInput : Type := mkBlockHashInput {
  bi_Height : Z;
  bi_PrevHash : string;
  bi_AppHash : string;
  bi_Transactions : list string;
  bi_PoVLStateRoot : string;
  bi_PoVLProof : string;
  bi_PoVLStepCount : Z;
}.

Definition concat_all (l : list string) : string := foldr String.append "" l.

Definition canonicalise (input : BlockHashInput) : string :=
  be_bytes 8 (wrap_u64 (bi_Height input)) +:+ be_bytes 8 (bi_PoVLStepCount input) +:+
  zeroPad32 (bi_PrevHash input) +:+ zeroPad32 (bi_PoVLStateRoot input) +:+
  bi_AppHash input +:+ bi_PoVLProof input +:+ concat_all (bi_Transactions input).

Definition GenerateBlockHash (input : BlockHashInput) : string :=
  let data := canonicalise input in
  let expansion := bytes_of (shake256 (blockHashDomain +:+ data) <$> seq 0 128) in
  sha3_256 (blockHashDomain +:+ data +:+ expansion).

(** *** block.go *)

Record Block : Type := mkBlock {
  Height : Z;
  PrevHash : string;
  AppHash : string;
  Transactions : list string;
  Hash : string;
  PoVLStateRoot : string;
  PoVLProof : string;
  PoVLStepCount : Z;
}.

Record SignedBlock : Type := mkSignedBlock {
  sb_Block : Block;
  ValidatorSignature : string;
}.

Definition computeHash (b : Block) : string :=
  GenerateBlockHash (mkBlockHashInput (Height b) (PrevHash b) (AppHash b) (Transactions b)
    (PoVLStateRoot b) (PoVLProof b) (PoVLStepCount b)).

Definition NewBlock (height : Z) (prevHash appHash : string) (txs : list string) : Block :=
  let b := mkBlock height (zeroPad32 prevHash) appHash txs "" (zero_bytes PoVLStateSize) "" 0 in
  mkBlock height (zeroPad32 prevHash) appHash txs (computeHash b) (zero_bytes PoVLStateSize) "" 0.

Definition SignBlock (b : Block) (privKeyBytes : string) : outcome SignedBlock :=
  if bool_decide (Hash b = "") then Err (Errorf "sign block: block hash is empty") else
  match pqc.Sign (Hash b) privKeyBytes with
  | Ok sig => Ok (mkSignedBlock b sig)
  | Err e => Err (Wrapf "sign block" e)
  | Panic => Panic
  end.

Definition VerifySignedBlock (sb : SignedBlock) (pubKeyBytes : string) : bool :=
  if bool_decide (Hash (sb_Block sb) = "") || bool_decide (ValidatorSignature sb = "") then false
  else pqc.Verify (Hash (sb_Block sb)) (ValidatorSignature sb) pubKeyBytes.
End Hash.

(** ** The product *)

Section Product.
Implicit Types a s b : list Z.

Lemma wrap_i32_id z : -2147483648 <= z < 2147483648 -> wrap_i32 z = z.
Proof. intros. unfold wrap_i32, two32. rewrite Z.mod_small; lia. Qed.

Lemma wrap_i32_add_l x y : wrap_i32 (wrap_i32 x + y) = wrap_i32 (x + y).
Proof.
  unfold wrap_i32. f_equal.
  replace ((x + 2147483648) mod two32 - 2147483648 + y + 2147483648) with ((x + 2147483648) mod two32 + y) by lia.
  rewrite Zplus_mod_idemp_l. f_equal. lia.
Qed.

Lemma wrap_i32_add_r x y : wrap_i32 (x + wrap_i32 y) = wrap_i32 (x + y).
Proof. by rewrite Z.add_comm, wrap_i32_add_l, Z.add_comm. Qed.

Lemma wrap_i32_sub_r x y : wrap_i32 (x - wrap_i32 y) = wrap_i32 (x - y).
Proof.
  unfold wrap_i32. f_equal.
  replace (x - ((y + 2147483648) mod two32 - 2147483648) + 2147483648)
    with (x + 4294967296 - (y + 2147483648) mod two32) by lia.
  rewrite Zminus_mod_idemp_r. f_equal. lia.
Qed.

(** What the pair adds to coefficient [k]. *)
Definition contrib a s (k : nat) (ij : nat * nat) : Z :=
  let '(i, j) := ij in
  let prod := default 0 (a !! i) * default 0 (s !! j) in
  if bool_decide (((i + j) mod lwrN)%nat = k) then if (lwrN <=? i + j)%nat then - prod else prod else 0.

Lemma mul_step_lookup a s b ij k x :
  b !! k = Some x ->
  mul_step a s b ij !! k = Some (if bool_decide (((fst ij + snd ij) mod lwrN)%nat = k) then wrap_i32 (x + contrib a s k ij) else x).
Proof.
  destruct ij as [i j]. cbn [fst snd mul_step contrib]. intros Hk.
  destruct (lwrN <=? i + j)%nat; case_bool_decide as E;
    [rewrite E, list_lookup_alter_eq, Hk|rewrite list_lookup_alter_ne, Hk by done|rewrite E, list_lookup_alter_eq, Hk|rewrite list_lookup_alter_ne, Hk by done];
    cbn; [|done| |done]; f_equal.
  - by rewrite wrap_i32_sub_r.
  - by rewrite wrap_i32_add_r.
Qed.

Lemma mul_step_length a s b ij : length (mul_step a s b ij) = length b.
Proof. destruct ij as [i j]. cbn [mul_step]. destruct (_ <=? _)%nat; apply length_alter. Qed.

Lemma mul_loop_lookup a s l : forall b k x,
  b !! k = Some (wrap_i32 x) -> foldl (mul_step a s) b l !! k = Some (wrap_i32 (x + lsum (contrib a s k) l)).
Proof.
  induction l as [|ij l IH]; intros b k x Hk; cbn [foldl].
  - cbn. by rewrite Z.add_0_r.
  - rewrite lsum_cons, Z.add_assoc. apply IH. rewrite (mul_step_lookup _ _ _ _ _ _ Hk). f_equal.
    destruct ij as [i j]. cbn [fst snd]. case_bool_decide as E; [apply wrap_i32_add_l|].
    unfold contrib. by rewrite bool_decide_false, Z.add_0_r.
Qed.

(** Coefficient [k] of [a * s] in Z[X]/(X^256 + 1). *)
Definition negacyclic a s (k : nat) : Z :=
  lsum (fun i => if (i <=? k)%nat then default 0 (a !! i) * default 0 (s !! (k - i)%nat)
                 else - (default 0 (a !! i) * default 0 (s !! (lwrN + k - i)%nat))) (seq 0 lwrN).

Lemma lsum_bind {A C} (f : A -> list C) (g : C -> Z) l : lsum g (l ≫= f) = lsum (fun x => lsum g (f x)) l.
Proof.
  induction l as [|x l IH]; [done|]. rewrite lsum_cons, <- IH. cbn.
  generalize (f x) as l1. induction l1 as [|y l1 IH1]; [done|]. cbn [app]. rewrite !lsum_cons. cbn in IH1. lia.
Qed.

Lemma lsum_single {A} `{EqDecision A} (g : A -> Z) l x :
  NoDup l -> x ∈ l -> (forall y, y ∈ l -> y <> x -> g y = 0) -> lsum g l = g x.
Proof.
  induction 1 as [|y l Hy Hnd IH]; intros Hx Hz; [by apply elem_of_nil in Hx|]. rewrite lsum_cons.
  destruct (decide (y = x)) as [->|Hne].
  - rewrite (lsum_ext g (fun _ => 0)); [|intros z Hin; apply Hz; [by right|congruence]].
    assert (lsum (fun _ : A => 0) l = 0) as -> by (clear; induction l; [done|]; rewrite lsum_cons; lia). lia.
  - rewrite (Hz y), IH; [done|set_solver| |by left|done]. intros z Hin. apply Hz. by right.
Qed.

Lemma contrib_negacyclic a s k : (k < lwrN)%nat -> lsum (contrib a s k) index_pairs = negacyclic a s k.
Proof.
  intros Hk. unfold index_pairs, negacyclic. rewrite lsum_bind. apply lsum_ext.
  intros i Hi%elem_of_seq. rewrite lsum_fmap. destruct (Nat.leb_spec i k) as [Hle|Hlt].
  - rewrite (lsum_single _ _ (k - i)%nat); [|apply NoDup_seq|apply elem_of_seq; lia|].
    + unfold contrib. replace (i + (k - i))%nat with k by lia. rewrite Nat.mod_small, bool_decide_true by done.
      by rewrite (proj2 (Nat.leb_gt _ _)).
    + intros j Hj%elem_of_seq Hne. unfold contrib. rewrite bool_decide_false; [done|]. intros E.
      destruct (decide (i + j < lwrN)%nat); [rewrite Nat.mod_small in E by done; lia|].
      replace (i + j)%nat with ((i + j - lwrN) + 1 * lwrN)%nat in E by lia.
      rewrite Nat.Div0.mod_add, Nat.mod_small in E by lia. lia.
  - rewrite (lsum_single _ _ (lwrN + k - i)%nat); [|apply NoDup_seq|apply elem_of_seq; lia|].
    + unfold contrib. replace (i + (lwrN + k - i))%nat with (k + 1 * lwrN)%nat by lia.
      rewrite Nat.Div0.mod_add, Nat.mod_small, bool_decide_true by done. by rewrite (proj2 (Nat.leb_le _ _)) by lia.
    + intros j Hj%elem_of_seq Hne. unfold contrib. rewrite bool_decide_false; [done|]. intros E.
      destruct (decide (i + j < lwrN)%nat); [rewrite Nat.mod_small in E by done; lia|].
      replace (i + j)%nat with ((i + j - lwrN) + 1 * lwrN)%nat in E by lia.
      rewrite Nat.Div0.mod_add, Nat.mod_small in E by lia. lia.
Qed.

(** The inputs of the product: coefficients mod q, and a ternary secret. *)
Definition mod_q a : Prop := length a = lwrN /\ Forall (fun x => 0 <= x < lwrQ) a.
Definition ternary s : Prop := length s = lwrN /\ Forall (fun x => -1 <= x <= 1) s.

Lemma lsum_bound {A} (g : A -> Z) c l : (forall x, x ∈ l -> - c <= g x <= c) ->
  - (c * Z.of_nat (length l)) <= lsum g l <= c * Z.of_nat (length l).
Proof.
  induction l as [|x l IH]; intros Hg; [unfold lsum; cbn; lia|]. rewrite lsum_cons. cbn [length].
  pose proof (Hg x ltac:(by left)). specialize (IH ltac:(intros; apply Hg; by right)). lia.
Qed.

Lemma term_bound a s i j : mod_q a -> ternary s -> - lwrQ <= default 0 (a !! i) * default 0 (s !! j) <= lwrQ.
Proof.
  intros [_ Ha] [_ Hs]. unfold lwrQ in *.
  assert (0 <= default 0 (a !! i) < 3329) by (destruct (a !! i) eqn:E; cbn; [exact (Forall_lookup_1 _ _ _ _ Ha E)|lia]).
  assert (-1 <= default 0 (s !! j) <= 1) by (destruct (s !! j) eqn:E; cbn; [exact (Forall_lookup_1 _ _ _ _ Hs E)|lia]).
  nia.
Qed.

Lemma negacyclic_bound a s k : mod_q a -> ternary s -> -852224 <= negacyclic a s k <= 852224.
Proof.
  intros Ha Hs. 
  change (- (lwrQ * Z.of_nat (length (seq 0 lwrN))) <= negacyclic a s k <= lwrQ * Z.of_nat (length (seq 0 lwrN))).
  apply lsum_bound. intros i _.
  destruct (i <=? k)%nat; [by apply term_bound|].
  pose proof (term_bound a s i (lwrN + k - i)%nat Ha Hs). lia.
Qed.

Lemma round_coeff_spec x : -852224 <= x <= 852224 ->
  round_coeff x = (x mod lwrQ) * lwrP / lwrQ /\ 0 <= round_coeff x < lwrP.
Proof.
  intros Hx. unfold round_coeff, lwrQ, lwrP in *.
  pose proof (Z.rem_bound_abs x 3329 ltac:(lia)). rewrite (wrap_i32_id (Z.rem x 3329 + 3329)) by lia.
  assert (Z.rem (Z.rem x 3329 + 3329) 3329 = x mod 3329) as ->.
  { rewrite Z.rem_mod_nonneg by lia. rewrite <- (Z.mod_add x (- Z.quot x 3329 + 1) 3329) by lia. f_equal.
    pose proof (Z.quot_rem' x 3329). lia. }
  pose proof (Z.mod_pos_bound x 3329 ltac:(lia)). rewrite (wrap_i32_id (x mod 3329 * 256)) by lia.
  rewrite Z.quot_div_nonneg by lia.
  assert (0 <= x mod 3329 * 256 / 3329 < 256) by (split; [apply Z.div_pos; lia|apply Z.div_lt_upper_bound; lia]).
  rewrite Z.rem_small by lia. done.
Qed.

Lemma polyMulRound_lookup a s k c : (k < lwrN)%nat -> wrap_i32 (lsum (contrib a s k) index_pairs) = c ->
  polyMulRound a s !! k = Some (round_coeff c).
Proof.
  intros Hk Hc. unfold polyMulRound. generalize dependent index_pairs. intros l Hc.
  rewrite list_lookup_fmap, (mul_loop_lookup a s l (replicate lwrN 0) k 0).
  - cbn [fmap option_fmap option_map]. by rewrite Z.add_0_l, Hc.
  - apply lookup_replicate_2. exact Hk.
Qed.

Lemma polyMulRound_coeff a s k : mod_q a -> ternary s -> (k < lwrN)%nat ->
  polyMulRound a s !! k = Some ((negacyclic a s k mod lwrQ) * lwrP / lwrQ) /\
  0 <= (negacyclic a s k mod lwrQ) * lwrP / lwrQ < 256.
Proof.
  intros Ha Hs Hk. pose proof (negacyclic_bound a s k Ha Hs) as Hb.
  destruct (round_coeff_spec _ Hb) as [Hr Hr']. rewrite <- Hr. split; [|exact Hr'].
  apply polyMulRound_lookup; [exact Hk|]. rewrite contrib_negacyclic by exact Hk. apply wrap_i32_id. lia.
Qed.

(** The lattice product.  On coefficients mod 3329 and a ternary secret,
    the int32 double loop of polyMulRound never overflows: coefficient k of
    the result is floor(256 * c / 3329) for c the k-th coefficient, mod 3329,
    of the product in Z[X]/(X^256 + 1), and so it fits a byte. *)
Theorem polyMulRound_spec a s k :
  mod_q a -> ternary s -> (k < lwrN)%nat ->
  polyMulRound a s !! k = Some ((negacyclic a s k mod lwrQ) * lwrP / lwrQ) /\
  0 <= (negacyclic a s k mod lwrQ) * lwrP / lwrQ < 256.
Proof. apply polyMulRound_coeff. Qed.
End Product.

(** ** The hash *)

Section HashTheorems.
#[local] Opaque index_pairs mul_step round_coeff.
Context `{Crypto} `{!Sha3Laws} `{Shake}.

Lemma byte_val_range c : 0 <= byte_val c < 256.
Proof. unfold byte_val. pose proof (N_ascii_bounded c). lia. Qed.

Lemma byte_val_of z : 0 <= z < 256 -> byte_val (byte_of z) = z.
Proof. intros. unfold byte_val, byte_of. rewrite Z.mod_small by lia. rewrite N_ascii_embedding; lia. Qed.

Lemma byte_at_range s i : 0 <= byte_at s i < 256.
Proof. unfold byte_at. destruct (String.get i s); [apply byte_val_range|lia]. Qed.

Lemma expand_loop_mod_q fuel seed pos a a' : Forall (fun x => 0 <= x < lwrQ) a ->
  expand_loop fuel seed pos a = Some a' -> mod_q a'.
Proof.
  revert pos a. induction fuel as [|fuel IH]; intros pos a Ha; cbn [expand_loop];
    (destruct (Nat.eqb_spec (length a) lwrN); [intros [= <-]; by split|]); [done|].
  apply IH. destruct (_ <? lwrQ) eqn:E; [|done]. apply Forall_app. split; [done|]. constructor; [|done].
  apply Z.ltb_lt in E. pose proof (byte_val_range (shake256 ("A" +:+ seed) pos)).
  pose proof (byte_val_range (shake256 ("A" +:+ seed) (S pos))). lia.
Qed.

Lemma inputToSecret_ternary input : ternary (inputToSecret input).
Proof.
  unfold inputToSecret. case_bool_decide; split.
  - apply length_replicate.
  - apply Forall_replicate. lia.
  - by rewrite length_fmap, length_seq.
  - apply Forall_fmap, Forall_true. intros i. unfold compose, secret_coeff. repeat case_match; lia.
Qed.

Lemma polyMulRound_length a s : length (polyMulRound a s) = lwrN.
Proof.
  unfold polyMulRound. rewrite length_fmap. generalize index_pairs as l. intros l.
  enough (forall b, length (foldl (mul_step a s) b l) = length b) as -> by apply length_replicate.
  induction l as [|[i j] l IH]; intros b; cbn [foldl]; [done|]. rewrite IH. apply mul_step_length.
Qed.

Lemma bytes_of_length l : String.length (bytes_of l) = length l.
Proof. induction l as [|c l IH]; cbn; [done|]. by rewrite IH. Qed.

Lemma bytes_of_get l i : String.get i (bytes_of l) = l !! i.
Proof. revert i. induction l as [|c l IH]; intros [|i]; cbn; [done..|apply IH]. Qed.

Lemma get_app_r (a b : string) i : String.get (String.length a + i) (a +:+ b) = String.get i b.
Proof. induction a as [|c a IH]; [done|]. exact IH. Qed.

Lemma ValidateLWRHash_length h : ValidateLWRHash h = Ok tt <-> String.length h = LWRHashSize.
Proof.
  unfold ValidateLWRHash. destruct (Nat.eqb_spec (String.length h) LWRHashSize) as [E|E]; cbn [negb]; [|done].
  split; [done|]. intros _. rewrite (proj2 (forallb_forall _ _)); [done|].
  intros i _. apply Z.ltb_lt, byte_at_range.
Qed.

Lemma GenerateLWRBlockHash_length fuel input prev h :
  GenerateLWRBlockHash fuel input prev = Some h -> String.length h = LWRHashSize.
Proof.
  unfold GenerateLWRBlockHash. destruct (expandMatrix _ _) as [a|]; [|done]. intros [= <-].
  rewrite str_length_app, bytes_of_length, length_fmap, length_take, polyMulRound_length. unfold computeSeed.
  by rewrite sha3_length.
Qed.

(** *** The sampling

    What the loop of expandMatrix keeps of its stream, without a bound on the
    reads. *)

(** The value of the two bytes of read [i]. *)
Definition sample (seed : string) (i : nat) : Z :=
  byte_val (shake256 ("A" +:+ seed) (2 * i)) + 256 * byte_val (shake256 ("A" +:+ seed) (S (2 * i))).

(** The accepted values of [n] reads from read [i] on. *)
Definition accepted_from (seed : string) (i n : nat) : list Z :=
  sample seed <$> filter (fun j => sample seed j < lwrQ) (seq i n).
Definition accepted (seed : string) (n : nat) : list Z := accepted_from seed 0 n.

(** The loop ends on this seed: the stream holds 256 values below q. *)
Definition sampling_ends (seed : string) : Prop := exists n, (lwrN <= length (accepted seed n))%nat.

Lemma accepted_from_S seed i n :
  accepted_from seed i (S n) = (if sample seed i <? lwrQ then [sample seed i] else []) ++ accepted_from seed (S i) n.
Proof.
  unfold accepted_from. cbn [seq]. rewrite filter_cons.
  destruct (Z.ltb_spec (sample seed i) lwrQ); case_decide; [done|lia..|done].
Qed.

Lemma accepted_prefix seed n m : (n <= m)%nat -> exists l, accepted seed m = accepted seed n ++ l.
Proof.
  intros Hle. exists (accepted_from seed n (m - n)). unfold accepted, accepted_from.
  replace m with (n + (m - n))%nat at 1 by lia. by rewrite seq_app, filter_app, fmap_app.
Qed.

(** With fuel for [n] reads the loop collects the first 256 values accepted. *)
Lemma expand_loop_accepted seed n : forall i a, (length a <= lwrN)%nat ->
  expand_loop n seed (2 * i) a =
    if (lwrN <=? length (a ++ accepted_from seed i n))%nat then Some (take lwrN (a ++ accepted_from seed i n)) else None.
Proof.
  induction n as [|n IH]; intros i a Ha; cbn [expand_loop]; destruct (Nat.eqb_spec (length a) lwrN) as [E|E].
  - change (accepted_from seed i 0) with (@nil Z). by rewrite app_nil_r, E, Nat.leb_refl, take_ge by lia.
  - change (accepted_from seed i 0) with (@nil Z). by rewrite app_nil_r, (proj2 (Nat.leb_gt _ _)) by lia.
  - rewrite length_app, (proj2 (Nat.leb_le _ _)) by lia. by rewrite take_app_le, take_ge by lia.
  - fold (sample seed i). replace (S (S (2 * i))) with (2 * S i)%nat by lia.
    rewrite accepted_from_S. destruct (sample seed i <? lwrQ); rewrite IH; [|rewrite length_app; cbn; lia| |done].
    + by rewrite <- app_assoc.
    + done.
Qed.

Lemma expandMatrix_accepted seed n fuel : (lwrN <= length (accepted seed n))%nat -> (n <= fuel)%nat ->
  expandMatrix fuel seed = Some (take lwrN (accepted seed n)).
Proof.
  intros Hn Hf. destruct (accepted_prefix seed n fuel Hf) as [l E].
  unfold expandMatrix. change 0%nat with (2 * 0)%nat at 1. rewrite expand_loop_accepted by (cbn; lia).
  change ([] ++ accepted_from seed 0 fuel) with (accepted seed fuel). rewrite E, length_app.
  by rewrite (proj2 (Nat.leb_le _ _)), take_app_le by lia.
Qed.

(** The loop returns for some number of reads exactly when the stream holds
    256 values below q. *)
Lemma expandMatrix_ends seed : (exists fuel, is_Some (expandMatrix fuel seed)) <-> sampling_ends seed.
Proof.
  split; [intros [n Hn]; exists n|intros [n Hn]; exists n; rewrite (expandMatrix_accepted seed n n) by lia; by eexists].
  revert Hn. unfold expandMatrix. change 0%nat with (2 * 0)%nat at 1. rewrite expand_loop_accepted by (cbn; lia).
  change ([] ++ accepted_from seed 0 n) with (accepted seed n). destruct (Nat.leb_spec lwrN (length (accepted seed n))); [done|].
  by intros [? ?].
Qed.

Lemma GenerateLWRBlockHash_ends input prev : sampling_ends (computeSeed input prev) ->
  exists n h, forall fuel, (n <= fuel)%nat -> GenerateLWRBlockHash fuel input prev = Some h.
Proof.
  intros [n Hn]. exists n. eexists. intros fuel Hf. unfold GenerateLWRBlockHash.
  by rewrite (expandMatrix_accepted _ n fuel Hn Hf).
Qed.

(** C38: the LWR block hash.  When the first n reads of the stream for the
    seed, the SHA3 digest of the input and the previous hash, hold 256 values
    below q = 3329, the sampling loop ends within n reads, and
    GenerateLWRBlockHash returns one hash however many more are allowed: 96
    bytes that pass ValidateLWRHash, the seed followed by 64 coefficients.
    Coefficient k is the rounded k-th coefficient of the negacyclic product of
    the first 256 values below q with the input's ternary secret.  (A stream
    without 256 such values would keep the loop running for ever.) *)
Theorem lwr_hash_correct input prevHash n :
  let seed := computeSeed input prevHash in
  let a := take lwrN (accepted seed n) in
  (lwrN <= length (accepted seed n))%nat ->
  exists h coeffs, (forall fuel, (n <= fuel)%nat -> GenerateLWRBlockHash fuel input prevHash = Some h) /\
    h = seed +:+ coeffs /\ String.length h = LWRHashSize /\ ValidateLWRHash h = Ok tt /\
    forall k, (k < lwrOutputCoeffs)%nat ->
      byte_at h (32 + k) = (negacyclic a (inputToSecret input) k mod lwrQ) * lwrP / lwrQ.
Proof.
  cbn zeta. intros Hn. set (seed := computeSeed input prevHash). set (a := take lwrN (accepted seed n)).
  assert (forall fuel, (n <= fuel)%nat -> expandMatrix fuel seed = Some a) as Ha
    by (intros fuel Hf; by apply expandMatrix_accepted).
  set (coeffs := bytes_of (byte_of <$> take lwrOutputCoeffs (polyMulRound a (inputToSecret input)))).
  assert (forall fuel, (n <= fuel)%nat -> GenerateLWRBlockHash fuel input prevHash = Some (seed +:+ coeffs)) as Hh
    by (intros fuel Hf; unfold GenerateLWRBlockHash; fold seed; by rewrite Ha).
  pose proof (GenerateLWRBlockHash_length _ _ _ _ (Hh n (le_n _))) as Hl.
  exists (seed +:+ coeffs), coeffs. split; [exact Hh|]. split; [done|]. split; [exact Hl|].
  split; [by apply ValidateLWRHash_length|]. intros k Hk.
  unfold byte_at. rewrite <- (sha3_length (input +:+ prevHash)). unfold seed at 1, computeSeed at 1, coeffs.
  rewrite get_app_r, bytes_of_get, list_lookup_fmap, lookup_take_lt by done.
  destruct (polyMulRound_coeff a (inputToSecret input) k) as [E Hr].
  - eapply expand_loop_mod_q, (Ha n), le_n. constructor.
  - apply inputToSecret_ternary.
  - unfold lwrN, lwrOutputCoeffs in *. lia.
  - rewrite E. cbn [fmap option_fmap option_map]. by apply byte_val_of.
Qed.

(** ** PoVL chains *)

Lemma substring_app_length (a b : string) : String.substring 0 (String.length a) (a +:+ b) = a.
Proof. induction a as [|c a IH]; [by destruct b|]. exact (f_equal (String c) IH). Qed.

Lemma zeroPad32_id s : String.length s = 32%nat -> zeroPad32 s = s.
Proof. intros E. unfold zeroPad32, HashSize. rewrite <- E at 1. apply substring_app_length. Qed.

Lemma substring_length n s : (n <= String.length s)%nat -> String.length (String.substring 0 n s) = n.
Proof.
  revert s. induction n as [|n IH]; intros [|c s] Hn; cbn in *; [done|done|lia|]. f_equal. apply IH. lia.
Qed.

Lemma zero_bytes_length n : String.length (zero_bytes n) = n.
Proof. induction n as [|n IH]; [done|]. exact (f_equal S IH). Qed.

Lemma zeroPad32_length s : String.length (zeroPad32 s) = 32%nat.
Proof.
  unfold zeroPad32, HashSize. apply substring_length. rewrite str_length_app, zero_bytes_length. lia.
Qed.

Lemma GeneratePoVLState_length fuel s s' : GeneratePoVLState fuel s = Some s' -> String.length s' = 32%nat.
Proof. unfold GeneratePoVLState. destruct (GenerateLWRBlockHash _ _ _); [|done]. intros [= <-]. apply sha3_length. Qed.

Lemma povl_loop_length fuel n s s' : String.length s = 32%nat -> povl_loop fuel s n = Some s' -> String.length s' = 32%nat.
Proof.
  revert s. induction n as [|n IH]; cbn [povl_loop]; intros s Hs; [by intros [= <-]|].
  destruct (GeneratePoVLState fuel s) as [s1|] eqn:E; [|done]. apply IH. by eapply GeneratePoVLState_length.
Qed.

Lemma povl_loop_app fuel m n s :
  povl_loop fuel s (m + n) = match povl_loop fuel s m with Some s' => povl_loop fuel s' n | None => None end.
Proof.
  revert s. induction m as [|m IH]; intros s; cbn [Nat.add povl_loop]; [done|].
  destruct (GeneratePoVLState fuel s); [apply IH|done].
Qed.

(** A chain of m + n steps is a chain of n steps from the end of a chain of m
    steps, so a verifier that accepted the first part can check the whole by
    checking the rest. *)
Lemma povl_chain_composes fuel s m n mid :
  0 <= m -> 0 <= n -> ComputePoVLChain fuel s m = Some mid ->
  ComputePoVLChain fuel s (m + n) = ComputePoVLChain fuel mid n /\
  forall final, VerifyPoVLChain fuel s final (m + n) = VerifyPoVLChain fuel mid final n.
Proof.
  intros Hm Hn Hmid.
  assert (ComputePoVLChain fuel s (m + n) = ComputePoVLChain fuel mid n) as E.
  - unfold ComputePoVLChain in *. rewrite Z2Nat.inj_add, povl_loop_app, Hmid by done.
    apply povl_loop_length in Hmid; [|apply zeroPad32_length]. by rewrite zeroPad32_id.
  - split; [done|]. intros final. unfold VerifyPoVLChain. by rewrite E.
Qed.

(** ** Signed blocks *)

Lemma concat_all_cons x l : concat_all (x :: l) = x +:+ concat_all l.
Proof. done. Qed.

Lemma str_app_assoc (a b c : string) : a +:+ (b +:+ c) = (a +:+ b) +:+ c.
Proof. induction a as [|x a IH]; [done|]. exact (f_equal (String x) IH). Qed.

Lemma NewBlock_hash_length h prev app txs : String.length (Hash (NewBlock h prev app txs)) = 32%nat.
Proof. apply sha3_length. Qed.

(** The hash of a new block covers the concatenation of the application hash
    and the transactions. *)
Lemma NewBlock_hash_concat h prev app txs app' txs' : app +:+ concat_all txs = app' +:+ concat_all txs' ->
  Hash (NewBlock h prev app txs) = Hash (NewBlock h prev app' txs').
Proof.
  intros E. unfold NewBlock, computeHash, GenerateBlockHash. cbn [Hash].
  assert (forall b b', canonicalise b = canonicalise b' ->
    sha3_256 (blockHashDomain +:+ canonicalise b +:+ bytes_of (shake256 (blockHashDomain +:+ canonicalise b) <$> seq 0 128)) =
    sha3_256 (blockHashDomain +:+ canonicalise b' +:+ bytes_of (shake256 (blockHashDomain +:+ canonicalise b') <$> seq 0 128)))
    as Hc by (intros b b' ->; done).
  apply Hc. unfold canonicalise.
  cbn [bi_Height bi_PrevHash bi_AppHash bi_Transactions bi_PoVLStateRoot bi_PoVLProof bi_PoVLStepCount
       Height PrevHash AppHash Transactions PoVLStateRoot PoVLProof PoVLStepCount].
  change ("" +:+ concat_all txs) with (concat_all txs). change ("" +:+ concat_all txs') with (concat_all txs').
  by rewrite E.
Qed.

(** Signed blocks.  A block made by NewBlock and signed with a Dilithium5
    key verifies under that key, and so does, with the same signature, every
    block that moves bytes between the application hash and the first
    transaction, or merges the first two transactions: the hash covers only
    their concatenation. *)
Theorem signed_block_roundtrip `{!CryptoLaws keypair} pk sk h prev app tx1 tx2 txs :
  keypair pk sk -> (0 < mode5_SignatureSize)%nat ->
  exists sb, SignBlock (NewBlock h prev app (tx1 :: tx2 :: txs)) sk = Ok sb /\ VerifySignedBlock sb pk = true /\
    forall b', b' ∈ [NewBlock h prev (app +:+ tx1) ("" :: tx2 :: txs); NewBlock h prev app ((tx1 +:+ tx2) :: txs)] ->
      VerifySignedBlock (mkSignedBlock b' (ValidatorSignature sb)) pk = true.
Proof.
  intros Hk Hsz. set (b := NewBlock h prev app (tx1 :: tx2 :: txs)).
  destruct (pqc.Sign_Verify pk sk (Hash b) Hk) as (sig & Hs & Hv).
  assert (forall b', Hash b' = Hash b -> VerifySignedBlock (mkSignedBlock b' sig) pk = true) as Hall.
  { intros b' E. unfold VerifySignedBlock. cbn [sb_Block ValidatorSignature]. rewrite E.
    rewrite !bool_decide_false; [done|intros ->; by apply pqc.Verify_nonempty in Hv|].
    intros En. pose proof (NewBlock_hash_length h prev app (tx1 :: tx2 :: txs)) as Hl. fold b in Hl. by rewrite En in Hl. }
  exists (mkSignedBlock b sig). split; [|split; [by apply Hall|]].
  - unfold SignBlock. rewrite Hs, bool_decide_false; [done|]. intros En.
    pose proof (NewBlock_hash_length h prev app (tx1 :: tx2 :: txs)) as Hl. fold b in Hl. by rewrite En in Hl.
  - intros b' Hb'. cbn [ValidatorSignature]. apply Hall.
    apply elem_of_cons in Hb' as [-> | ->%list_elem_of_singleton]; apply NewBlock_hash_concat;
      rewrite !concat_all_cons, !str_app_assoc; [|done]. by rewrite <- (str_app_assoc (app +:+ tx1)).
Qed.
End HashTheorems.

(** ** The theorems at concrete inputs *)

Definition toy_shake : Shake := {| shake256 _ _ := "000"%char |}.

Definition toy_pqc : Crypto := {|
  sha3_256 := zeroPad32;
  mode5_PublicKeySize := 1;
  mode5_PrivateKeySize := 1;
  mode5_SignatureSize := 1;
  mode5_SignTo _ _ := "s";
  mode5_Verify _ _ sig := bool_decide (sig = "s");
|}.
Definition toy_keypair (pk sk : string) : Prop := pk = "p" /\ sk = "k".

Lemma toy_sha3_laws : @Sha3Laws toy_pqc.
Proof. split. apply zeroPad32_length. Qed.

Lemma toy_pqc_laws : @CryptoLaws toy_pqc toy_keypair.
Proof. split; cbn; [by intros pk sk [-> ->]|done..]. Qed.

(** A stream that depends on the message and on the position; every third
    read is rejected. *)
Definition mixing_shake : Shake := {| shake256 m i :=
  if Nat.even i then byte_of (byte_at m (i mod 33) + Z.of_nat i)
  else if (Nat.div2 i mod 3 =? 0)%nat then "255"%char else byte_of (Z.of_nat (Nat.div2 i mod 13)) |}.

Lemma mixing_sample seed i : (i mod 3 <> 0)%nat -> @sample mixing_shake seed i < lwrQ.
Proof.
  intros Hi. unfold sample.
  pose proof (byte_val_range (@shake256 mixing_shake ("A" +:+ seed) (2 * i))) as Hlow.
  assert (byte_val (@shake256 mixing_shake ("A" +:+ seed) (S (2 * i))) = Z.of_nat (i mod 13)) as ->.
  - unfold shake256, mixing_shake. rewrite Nat.even_succ, <- Nat.negb_even, Nat.even_even, Nat.div2_succ_double.
    rewrite (proj2 (Nat.eqb_neq _ _) Hi). cbn [negb]. apply byte_val_of.
    pose proof (Nat.mod_upper_bound i 13 ltac:(lia)). lia.
  - pose proof (Nat.mod_upper_bound i 13 ltac:(lia)). unfold lwrQ. lia.
Qed.

Lemma mixing_accepted seed : (lwrN <= length (@accepted mixing_shake seed 384))%nat.
Proof.
  unfold accepted, accepted_from. rewrite length_fmap.
  etrans; [|apply (count_mono (fun i => (i mod 3 <> 0)%nat)); intros i _; apply mixing_sample].
  apply Nat.leb_le. vm_compute. reflexivity.
Qed.

Section SamplingWitness.
#[local] Existing Instance mixing_shake.
#[local] Existing Instance toy_pqc.
#[local] Existing Instance toy_sha3_laws.
#[local] Opaque polyMulRound.

Lemma lwr_hash_correct_witness : exists h, GenerateLWRBlockHash 400 "block" "prev" = Some h /\
  ValidateLWRHash h = Ok tt /\ byte_at h 37 = 61 /\ byte_at h 40 = 166.
Proof.
  destruct (lwr_hash_correct "block" "prev" 384) as (h & coeffs & Hg & _ & _ & Hv & Hk).
  - apply mixing_accepted.
  - exists h. split; [apply Hg; lia|]. split; [exact Hv|]. split.
    + refine (eq_trans (Hk 5%nat _) _); [unfold lwrOutputCoeffs; lia|]. vm_compute. reflexivity.
    + refine (eq_trans (Hk 8%nat _) _); [unfold lwrOutputCoeffs; lia|]. vm_compute. reflexivity.
Defined.
End SamplingWitness.

Section Witnesses.
#[local] Existing Instance toy_shake.
#[local] Existing Instance toy_pqc.
#[local] Existing Instance toy_sha3_laws.
#[local] Existing Instance toy_pqc_laws.
#[local] Opaque polyMulRound.

Lemma polyMulRound_spec_witness :
  let a := replicate lwrN 3328 in let s := replicate lwrN 1 in
  polyMulRound a s !! 255%nat = Some 236 /\ negacyclic a s 255 mod lwrQ = 3073.
Proof.
  cbn zeta. split; [|vm_compute; reflexivity].
  refine (eq_trans (proj1 (polyMulRound_spec (replicate lwrN 3328) (replicate lwrN 1) 255 _ _ _)) _).
  - split; [done|]. apply Forall_replicate. done.
  - split; [done|]. apply Forall_replicate. lia.
  - unfold lwrN. lia.
  - vm_compute. reflexivity.
Defined.

Lemma toy_expand seed : expandMatrix 256 seed = Some (replicate 256 0).
Proof. vm_compute. reflexivity. Qed.

Lemma signed_block_roundtrip_witness : exists sb,
  SignBlock (NewBlock 7 "prev" "app" ["tx1"; "tx2"]) "k" = Ok sb /\ VerifySignedBlock sb "p" = true /\
  VerifySignedBlock (mkSignedBlock (NewBlock 7 "prev" "app" ["tx1tx2"]) (ValidatorSignature sb)) "p" = true.
Proof.
  destruct (signed_block_roundtrip "p" "k" 7 "prev" "app" "tx1" "tx2" []) as (sb & Hs & Hv & Hm).
  - by split.
  - cbn. lia.
  - exists sb. split; [exact Hs|]. split; [exact Hv|]. apply Hm. right. left.
Defined.
End Witnesses.
End lwr.
