(* ===== verification/Proposal.v ===== *)
(** Proposal: app/lwr_proposal.go.

    PrepareProposal puts a sentinel in front of the transactions: a marker, the
    LWR hash of their concatenation, and the end of a PoVL chain.
    ProcessProposal recomputes both.  The state is the part of the privacy
    store the handlers use.  [fuel] bounds the reads of the rejection sampling
    of Lwr.v; [None] stands for a run that needs more.

    Theorems: what a proposer prepares every validator with the same store
    accepts; an accepted proposal carries the hash of its transactions and the
    right PoVL state, but only their concatenation is bound; a malformed
    sentinel is rejected, in one range of lengths only because BaseApp recovers
    the handler's panic. *)

From Stdlib Require Import ZArith Lia Ascii String.
From stdpp Require Import base gmap sets list strings fin_maps.
From S2P Require Import Prelude Pqc Lwr.

Open Scope Z_scope.
Open Scope go_scope.
Import lwr.

Module proposal.

Definition lwrMarkerUint32 : Z := 0x4C575248.
Definition lwrVersion : Z := 1.
Definition lwrHeaderSize : nat := 8.
Definition lwrHashSize : nat := 96.
Definition povlRootSize : nat := 32.
Definition povlStepSize : nat := 8.

Definition LatestPQCHashKey : string := "pqc_hash/latest".
Definition mock_proof : string := "mock-groth16-proof-for-povl".

(** The keys of the privacy store the handlers read and write. *)
Definition Store : Type := gmap string string.

Inductive Status : Type := ACCEPT | REJECT.

(** Go's [s[i:j]]: panics when [j] is past the end. *)
Definition slice (s : string) (i j : nat) : option string :=
  if (j <=? String.length s)%nat then Some (String.substring i (j - i) s) else None.

(** [copy] into a zeroed slice of [n] bytes. *)
Definition copy_into (n : nat) (s : string) : string := String.substring 0 n (s +:+ zero_bytes n).

Section Handlers.
Context `{Crypto} `{Shake} (fuel : nat).

Definition buildTxPayload (txs : list string) : string := concat_all txs.

Definition getPrevPQCHash (st : Store) : string := default (zero_bytes 32) (st !! LatestPQCHashKey).

Definition commitLWRHash (lwrHash : string) (st : Store) : Store := <["lwr_proposal_hash" := lwrHash]> st.

Definition buildPoVLSentinel (lwrHash povlRoot : string) (steps : Z) (proof : string) : string :=
  be_bytes 4 lwrMarkerUint32 +:+ be_bytes 4 lwrVersion +:+
  copy_into lwrHashSize lwrHash +:+ copy_into povlRootSize povlRoot +:+
  be_bytes 8 steps +:+ be_bytes 4 (wrap_u32 (Z.of_nat (String.length proof))) +:+ proof.

(** The proposer's transactions with the sentinel in front.
    GenerateLWRBlockHash never returns an error, so its fallback is not
    reached. *)
Definition LWRPrepareProposal (st : Store) (txs : list string) : option (list string) :=
  match GenerateLWRBlockHash fuel (buildTxPayload txs) (getPrevPQCHash st) with
  | None => None
  | Some lwrHash =>
      match ComputePoVLChain fuel (String.substring 0 32 lwrHash) 10 with
      | None => None
      | Some povlRoot => Some (buildPoVLSentinel lwrHash povlRoot 10 mock_proof :: txs)
      end
  end.

(** The checks against the recomputed hash and chain. *)
Definition check_claims (st : Store) (userTxs : list string) (claimedHash claimedPoVLRoot : string)
    (claimedSteps : Z) (claimedProof : string) : option (outcome Status * Store) :=
  match GenerateLWRBlockHash fuel (buildTxPayload userTxs) (getPrevPQCHash st) with
  | None => None
  | Some expectedHash =>
      if negb (bool_decide (claimedHash = expectedHash)) then Some (Ok REJECT, st) else
      match ValidateLWRHash expectedHash with
      | Ok _ =>
          if negb (bool_decide (claimedProof = mock_proof)) then Some (Ok REJECT, st) else
          match VerifyPoVLChain fuel (String.substring 0 32 expectedHash) claimedPoVLRoot claimedSteps with
          | None => None
          | Some false => Some (Ok REJECT, st)
          | Some true => Some (Ok ACCEPT, commitLWRHash expectedHash st)
          end
      | _ => Some (Ok REJECT, st)
      end
  end.

Definition LWRProcessProposal (st : Store) (txs : list string) : option (outcome Status * Store) :=
  match txs with
  | [] => Some (Ok REJECT, st)
  | sentinel :: userTxs =>
      if (String.length sentinel <? lwrHeaderSize)%nat then Some (Ok REJECT, st) else
      if negb (be_val (String.substring 0 4 sentinel) =? lwrMarkerUint32) then Some (Ok REJECT, st) else
      if (String.length sentinel <? lwrHeaderSize + lwrHashSize + povlRootSize + povlStepSize)%nat
      then Some (Ok REJECT, st) else
      let claimedHash := String.substring 8 96 sentinel in
      let claimedPoVLRoot := String.substring 104 32 sentinel in
      let claimedSteps := be_val (String.substring 136 8 sentinel) in
      match slice sentinel 144 148 with
      | None => Some (Panic, st)
      | Some lenBytes =>
          let proofLen := Z.to_nat (be_val lenBytes) in
          if (String.length sentinel <? 148 + proofLen)%nat then Some (Ok REJECT, st) else
          check_claims st userTxs claimedHash claimedPoVLRoot claimedSteps (String.substring 148 proofLen sentinel)
      end
  end.

(** BaseApp.ProcessProposal: a panic of the handler is recovered and rejects;
    the state the handler wrote is a branch that is dropped. *)
Definition ProcessProposal (st : Store) (txs : list string) : option Status :=
  match LWRProcessProposal st txs with
  | Some (Ok status, _) => Some status
  | Some (_, _) => Some REJECT
  | None => None
  end.
End Handlers.

(** ** Reading back what was written *)

Lemma substring_skip (a b : string) n m : String.substring (String.length a + n) m (a +:+ b) = String.substring n m b.
Proof. induction a as [|c a IH]; [done|]. exact IH. Qed.

(** The field after [a] in [a ++ b ++ c]. *)
Lemma substring_field (a b c : string) i n :
  String.length a = i -> String.length b = n -> String.substring i n (a +:+ b +:+ c) = b.
Proof.
  intros <- <-. rewrite <- (Nat.add_0_r (String.length a)), substring_skip. apply substring_app_length.
Qed.

Lemma be_bytes_length n z : String.length (be_bytes n z) = n.
Proof. induction n as [|n IH]; cbn; [done|]. by rewrite IH. Qed.

Lemma be_val_from_bytes n acc z : 0 <= z ->
  be_val_from acc (be_bytes n z) = 256 ^ Z.of_nat n * acc + z mod 256 ^ Z.of_nat n.
Proof.
  intros Hz. revert acc. induction n as [|n IH]; intros acc; cbn [be_bytes be_val_from].
  - change (256 ^ Z.of_nat 0) with 1. rewrite Z.mod_1_r. lia.
  - rewrite IH, Nat2Z.inj_succ, Z.pow_succ_r by lia. set (q := 256 ^ Z.of_nat n).
    assert (0 < q) by (unfold q; apply Z.pow_pos_nonneg; lia).
    assert (byte_val (byte_of (Z.shiftr z (8 * Z.of_nat n))) = (z / q) mod 256) as ->.
    { unfold byte_of, byte_val. pose proof (Z.mod_pos_bound (Z.shiftr z (8 * Z.of_nat n)) 256 ltac:(lia)).
      rewrite N_ascii_embedding by lia. rewrite Z2N.id by lia. f_equal. rewrite Z.shiftr_div_pow2 by lia.
      unfold q. rewrite Z.pow_mul_r by lia. done. }
    rewrite (Z.mul_comm 256 q), Z.rem_mul_r by lia. lia.
Qed.

Lemma be_val_bytes n z : 0 <= z < 256 ^ Z.of_nat n -> be_val (be_bytes n z) = z.
Proof. intros Hz. unfold be_val. rewrite be_val_from_bytes, Z.mod_small; lia. Qed.

Lemma copy_into_id n s : String.length s = n -> copy_into n s = s.
Proof. intros <-. apply substring_app_length. Qed.

Section Theorems.
Context `{Crypto} `{!Sha3Laws} `{Shake} (fuel : nat).
Implicit Types (st : Store) (txs : list string).
#[local] Opaque polyMulRound.

(** The fields of a sentinel. *)
Lemma sentinel_fields hash root steps :
  String.length hash = 96%nat -> String.length root = 32%nat -> 0 <= steps < two64 ->
  let s := buildPoVLSentinel hash root steps mock_proof in
  String.length s = 175%nat /\ be_val (String.substring 0 4 s) = lwrMarkerUint32 /\
  String.substring 8 96 s = hash /\ String.substring 104 32 s = root /\
  be_val (String.substring 136 8 s) = steps /\ be_val (String.substring 144 4 s) = 27 /\
  String.substring 148 27 s = mock_proof.
Proof.
  intros Hh Hr Hs. unfold buildPoVLSentinel, lwrHashSize, povlRootSize. rewrite !copy_into_id by done.
  set (m := be_bytes 4 lwrMarkerUint32). set (v := be_bytes 4 lwrVersion). set (st := be_bytes 8 steps).
  change (be_bytes 4 (wrap_u32 (Z.of_nat (String.length mock_proof)))) with (be_bytes 4 27). set (pl := be_bytes 4 27).
  assert (String.length m = 4%nat /\ String.length v = 4%nat /\ String.length st = 8%nat /\ String.length pl = 4%nat)
    as (Lm & Lv & Ls & Lp) by done.
  assert (be_val m = lwrMarkerUint32 /\ be_val st = steps /\ be_val pl = 27) as (Vm & Vs & Vp)
    by (split_and!; [by vm_compute|by apply be_val_bytes|by vm_compute]).
  clearbody m v st pl.
  pose proof (substring_field "" m (v +:+ hash +:+ root +:+ st +:+ pl +:+ mock_proof) 0 4 eq_refl Lm) as F1.
  pose proof (substring_field (m +:+ v) hash (root +:+ st +:+ pl +:+ mock_proof) 8 96) as F2.
  pose proof (substring_field (m +:+ v +:+ hash) root (st +:+ pl +:+ mock_proof) 104 32) as F3.
  pose proof (substring_field (m +:+ v +:+ hash +:+ root) st (pl +:+ mock_proof) 136 8) as F4.
  pose proof (substring_field (m +:+ v +:+ hash +:+ root +:+ st) pl mock_proof 144 4) as F5.
  pose proof (substring_field (m +:+ v +:+ hash +:+ root +:+ st +:+ pl) mock_proof "" 148 27) as F6.
  rewrite !str_length_app, Lm, Lv, Hh, ?Hr, ?Ls, ?Lp in *. rewrite <- !str_app_assoc in *.
  change (String.substring 0 4 (m +:+ v +:+ hash +:+ root +:+ st +:+ pl +:+ mock_proof) = m) in F1.
  assert (mock_proof +:+ "" = mock_proof) as Em by done. rewrite Em in F6.
  split_and!; [done| |by apply F2|by apply F3| | |by apply F6].
  - by rewrite F1.
  - by rewrite F4.
  - by rewrite F5.
Qed.

(** *** A prepared proposal *)

Lemma prepared_process st st' txs h root :
  GenerateLWRBlockHash fuel (buildTxPayload txs) (getPrevPQCHash st) = Some h ->
  ComputePoVLChain fuel (String.substring 0 32 h) 10 = Some root -> getPrevPQCHash st' = getPrevPQCHash st ->
  LWRPrepareProposal fuel st txs = Some (buildPoVLSentinel h root 10 mock_proof :: txs) /\
  LWRProcessProposal fuel st' (buildPoVLSentinel h root 10 mock_proof :: txs) = Some (Ok ACCEPT, commitLWRHash h st').
Proof.
  intros Eh Ec Est. pose proof (GenerateLWRBlockHash_length _ _ _ _ Eh) as Hl.
  unfold LWRPrepareProposal. rewrite Eh, Ec. split; [done|].
  destruct (sentinel_fields h root 10) as (L & M & F1 & F2 & F3 & F4 & F5); [done| |done|].
  { eapply povl_loop_length, Ec. apply zeroPad32_length. }
  unfold LWRProcessProposal. rewrite L, M. cbn [Nat.ltb Nat.leb negb lwrHeaderSize]. rewrite Z.eqb_refl. cbn [negb].
  unfold slice. rewrite L. cbn [Nat.leb Nat.ltb Nat.add lwrHeaderSize lwrHashSize povlRootSize povlStepSize Nat.sub].
  rewrite F4. change (Z.to_nat 27) with 27%nat. cbn [Nat.leb Nat.add].
  rewrite F1, F2, F3, F5. unfold check_claims. rewrite Est, Eh, bool_decide_true by done. cbn [negb].
  rewrite (proj2 (ValidateLWRHash_length h) Hl), bool_decide_true by done. cbn [negb].
  unfold VerifyPoVLChain. by rewrite Ec, bool_decide_true.
Qed.

(** What acceptance means.  An accepted proposal starts with a sentinel
    that carries the LWR hash of the concatenated remaining transactions and
    the previous hash, and the PoVL state that many steps after it; that hash
    is stored.  Only the concatenation is bound: any other split of the same
    bytes into transactions is processed the same way. *)
Theorem accepted_proposal_sound st txs st' :
  LWRProcessProposal fuel st txs = Some (Ok ACCEPT, st') ->
  exists sentinel userTxs h, txs = sentinel :: userTxs /\
    GenerateLWRBlockHash fuel (buildTxPayload userTxs) (getPrevPQCHash st) = Some h /\
    String.substring 8 96 sentinel = h /\
    ComputePoVLChain fuel (String.substring 0 32 h) (be_val (String.substring 136 8 sentinel)) =
      Some (String.substring 104 32 sentinel) /\
    st' = commitLWRHash h st /\
    forall userTxs', buildTxPayload userTxs' = buildTxPayload userTxs ->
      LWRProcessProposal fuel st (sentinel :: userTxs') = Some (Ok ACCEPT, st').
Proof.
  intros Hr. pose proof Hr as Hr'. destruct txs as [|sentinel userTxs]; [done|]. cbn [LWRProcessProposal] in Hr.
  destruct (_ <? lwrHeaderSize)%nat; [done|]. destruct (negb _); [done|]. destruct (_ <? _)%nat; [done|].
  destruct (slice sentinel 144 148) as [lb|]; [|done]. destruct (_ <? _)%nat; [done|].
  unfold check_claims in Hr.
  destruct (GenerateLWRBlockHash _ _ _) as [h|] eqn:Eh; [|done]. case_bool_decide as Ec; [|done]. cbn [negb] in Hr.
  destruct (ValidateLWRHash h); [|done..]. destruct (negb _); [done|].
  unfold VerifyPoVLChain in Hr. destruct (ComputePoVLChain _ _ _) as [root|] eqn:Ep; [|done].
  case_bool_decide as Er; [|done]. injection Hr as <-. subst root.
  exists sentinel, userTxs, h. split_and!; [done..|]. intros userTxs' E. rewrite <- Hr'.
  cbn [LWRProcessProposal]. unfold check_claims. by rewrite E.
Qed.

(** Malformed sentinels.  A proposal whose first transaction is shorter
    than 148 bytes or does not start with the marker is rejected.  For lengths
    144 to 147 the handler's own length check lets it through and reading the
    proof's length panics; BaseApp turns the panic into the rejection. *)
Theorem malformed_sentinel_rejected st sentinel userTxs :
  (String.length sentinel < 148)%nat \/ be_val (String.substring 0 4 sentinel) <> lwrMarkerUint32 ->
  ProcessProposal fuel st (sentinel :: userTxs) = Some REJECT /\
  ((144 <= String.length sentinel < 148)%nat -> be_val (String.substring 0 4 sentinel) = lwrMarkerUint32 ->
   LWRProcessProposal fuel st (sentinel :: userTxs) = Some (Panic, st)).
Proof.
  intros Hm. unfold ProcessProposal. cbn [LWRProcessProposal].
  destruct (Nat.ltb_spec (String.length sentinel) lwrHeaderSize); [split; [done|]; unfold lwrHeaderSize in *; lia|].
  destruct (Z.eqb_spec (be_val (String.substring 0 4 sentinel)) lwrMarkerUint32) as [E|E]; cbn [negb]; [|done].
  destruct (Nat.ltb_spec (String.length sentinel) (lwrHeaderSize + lwrHashSize + povlRootSize + povlStepSize)) as [Hl|Hl];
    [split; [done|]; unfold lwrHeaderSize, lwrHashSize, povlRootSize, povlStepSize in *; lia|].
  destruct Hm as [Hlt|Hne]; [|done]. unfold slice.
  by rewrite (proj2 (Nat.leb_gt 148 (String.length sentinel))) by lia.
Qed.
End Theorems.

(** ** Agreement

    The fuel goes: on every 32-byte seed the stream of SHAKE-256 holds 256
    values below q, on each after its own number of reads. *)

Section Agreement.
Context `{Crypto} `{!Sha3Laws} `{Shake}.
Hypothesis seeds_end : forall seed, String.length seed = 32%nat -> sampling_ends seed.
#[local] Opaque polyMulRound.

Lemma lwr_hash_returns input prev :
  exists n h, forall fuel, (n <= fuel)%nat -> GenerateLWRBlockHash fuel input prev = Some h.
Proof. apply GenerateLWRBlockHash_ends, seeds_end, sha3_length. Qed.

Lemma povl_loop_returns steps : forall s,
  exists n r, forall fuel, (n <= fuel)%nat -> povl_loop fuel s steps = Some r.
Proof.
  induction steps as [|steps IH]; intros s; cbn [povl_loop]; [by exists 0%nat, s|].
  unfold GeneratePoVLState. set (c := zeroPad32 _). destruct (lwr_hash_returns c c) as (n & h & Hh).
  destruct (IH (sha3_256 (h +:+ c))) as (m & r & Hr). exists (n + m)%nat, r. intros fuel Hf.
  rewrite (Hh fuel) by lia. apply Hr. lia.
Qed.

Lemma prepared_returns st txs : exists n sentinel h, forall fuel, (n <= fuel)%nat ->
  GenerateLWRBlockHash fuel (buildTxPayload txs) (getPrevPQCHash st) = Some h /\
  LWRPrepareProposal fuel st txs = Some (sentinel :: txs) /\
  forall st', getPrevPQCHash st' = getPrevPQCHash st ->
    LWRProcessProposal fuel st' (sentinel :: txs) = Some (Ok ACCEPT, commitLWRHash h st').
Proof.
  destruct (lwr_hash_returns (buildTxPayload txs) (getPrevPQCHash st)) as (n & h & Hh).
  destruct (povl_loop_returns (Z.to_nat 10) (zeroPad32 (String.substring 0 32 h))) as (m & root & Hr).
  exists (n + m)%nat, (buildPoVLSentinel h root 10 mock_proof), h. intros fuel Hf.
  assert (GenerateLWRBlockHash fuel (buildTxPayload txs) (getPrevPQCHash st) = Some h) as Eh by (apply Hh; lia).
  assert (ComputePoVLChain fuel (String.substring 0 32 h) 10 = Some root) as Ec by (apply Hr; lia).
  split; [exact Eh|]. split; [by apply (prepared_process fuel st st txs h root)|].
  intros st' Est. by apply (prepared_process fuel st st' txs h root).
Qed.

(** C37: agreement.  When the sampling ends on every 32-byte seed (the seeds
    are SHA3-256 digests), PrepareProposal returns, after some number of reads
    and with any larger allowance the same, the given transactions behind one
    sentinel, and ProcessProposal of every validator with the same previous
    hash accepts it.  The handler writes the LWR hash of the transactions to
    its context as it accepts; BaseApp drops that branch, so what ProcessProposal
    returns is the status alone and nothing is stored. *)
Theorem prepared_proposal_accepted st txs :
  exists n sentinel h, forall fuel, (n <= fuel)%nat ->
    GenerateLWRBlockHash fuel (buildTxPayload txs) (getPrevPQCHash st) = Some h /\
    LWRPrepareProposal fuel st txs = Some (sentinel :: txs) /\
    forall st', getPrevPQCHash st' = getPrevPQCHash st ->
      ProcessProposal fuel st' (sentinel :: txs) = Some ACCEPT /\
      LWRProcessProposal fuel st' (sentinel :: txs) = Some (Ok ACCEPT, commitLWRHash h st').
Proof.
  destruct (prepared_returns st txs) as (n & sentinel & h & Hp). exists n, sentinel, h. intros fuel Hf.
  destruct (Hp fuel Hf) as (Hh & Hs & Ha). split; [exact Hh|]. split; [exact Hs|]. intros st' Est.
  unfold ProcessProposal. by rewrite (Ha st' Est).
Qed.
End Agreement.

(** ** The theorems at concrete inputs *)

Section Witnesses.
#[local] Existing Instance mixing_shake.
#[local] Existing Instance toy_pqc.
#[local] Existing Instance toy_sha3_laws.
#[local] Opaque polyMulRound.

Lemma mixing_ends seed : sampling_ends seed.
Proof. exists 384%nat. apply mixing_accepted. Qed.

Lemma prepared_proposal_accepted_witness : exists fuel sentinel h,
  LWRPrepareProposal fuel ∅ ["tx1"; "tx2"] = Some [sentinel; "tx1"; "tx2"] /\
  ProcessProposal fuel {["poly/1" := "blob"]} [sentinel; "tx1"; "tx2"] = Some ACCEPT /\
  LWRProcessProposal fuel ∅ [sentinel; "tx1"; "tx2"] = Some (Ok ACCEPT, commitLWRHash h ∅).
Proof.
  destruct (prepared_proposal_accepted (fun seed _ => mixing_ends seed) ∅ ["tx1"; "tx2"]) as (n & sentinel & h & Hp).
  exists n, sentinel, h. destruct (Hp n (le_n n)) as (_ & Hs & Ha). split; [exact Hs|].
  split; [apply Ha; reflexivity|]. apply Ha. reflexivity.
Defined.

(** The prepared proposal with its two transactions merged. *)
Lemma accepted_proposal_sound_witness : exists fuel sentinel st',
  LWRProcessProposal fuel ∅ [sentinel; "tx1"; "tx2"] = Some (Ok ACCEPT, st') /\
  LWRProcessProposal fuel ∅ [sentinel; "tx1tx2"] = Some (Ok ACCEPT, st').
Proof.
  destruct (prepared_returns (fun seed _ => mixing_ends seed) ∅ ["tx1"; "tx2"]) as (n & sentinel & h & Hp).
  destruct (Hp n (le_n n)) as (_ & _ & Ha). specialize (Ha ∅ eq_refl).
  exists n, sentinel, (commitLWRHash h ∅). split; [exact Ha|].
  destruct (accepted_proposal_sound n ∅ [sentinel; "tx1"; "tx2"] (commitLWRHash h ∅) Ha)
    as (sentinel' & userTxs & h' & E & _ & _ & _ & _ & Hs).
  injection E as <- <-. apply Hs. reflexivity.
Defined.

Lemma malformed_sentinel_rejected_witness :
  let short := be_bytes 4 lwrMarkerUint32 +:+ zero_bytes 140 in
  ProcessProposal 256 ∅ [short; "tx1"] = Some REJECT /\ LWRProcessProposal 256 ∅ [short; "tx1"] = Some (Panic, ∅).
Proof.
  cbn zeta. destruct (malformed_sentinel_rejected 256 ∅ (be_bytes 4 lwrMarkerUint32 +:+ zero_bytes 140) ["tx1"]) as [Hr Hp].
  - left. apply Nat.ltb_lt. vm_compute. reflexivity.
  - split; [exact Hr|]. apply Hp; [split; apply Nat.leb_le|]; vm_compute; reflexivity.
Defined.
End Witnesses.
End proposal.
