(* ===== verification/Wire.v ===== *)
(** Wire: the encodings the node exchanges and stores.

    Hexadecimal (encoding/hex), decimal integers (strconv), and the protobuf
    encoding of a message with one bytes field, written twice in the
    repository: by hand in crypto/kyber1024/keys.go, and over
    google.golang.org/protobuf/encoding/protowire in
    crypto/dilithium5/keys.go (the class [Protowire], with an
    instance made of the hand-written varints).

    Theorems: every encoding is read back, also from the middle of a longer
    input; the two protobuf encoders agree; the decoders differ on unknown
    fields. *)

From Stdlib Require Import ZArith Lia Ascii String.
From stdpp Require Import base list strings pretty.
From S2P Require Import Prelude Pqc Lwr.

Open Scope Z_scope.
Open Scope go_scope.

(** ** Byte strings *)

(** Go's [s[n:]] and [s[:n]] for [n] in range. *)
Fixpoint str_drop (n : nat) (s : string) : string :=
  match n, s with
  | S n, String _ s => str_drop n s
  | _, _ => s
  end.

Fixpoint str_take (n : nat) (s : string) : string :=
  match n, s with
  | S n, String c s => String c (str_take n s)
  | _, _ => ""
  end.

Lemma str_drop_app (a b : string) : str_drop (String.length a) (a +:+ b) = b.
Proof. induction a as [|c a IH]; string_simpl; [done|]. exact IH. Qed.

Lemma str_take_app (a b : string) : str_take (String.length a) (a +:+ b) = a.
Proof. induction a as [|c a IH]; string_simpl; [by destruct b|]. cbn. by rewrite IH. Qed.

Lemma str_take_all (a : string) : str_take (String.length a) a = a.
Proof. induction a as [|c a IH]; [done|]. cbn. by rewrite IH. Qed.

Lemma str_take_length n s : (n <= String.length s)%nat -> String.length (str_take n s) = n.
Proof.
  revert s. induction n as [|n IH]; intros [|c s] Hl; cbn in *; try lia. by rewrite IH by lia.
Qed.

Lemma str_drop_length n s : String.length (str_drop n s) = (String.length s - n)%nat.
Proof. revert s. induction n as [|n IH]; intros [|c s]; cbn; [done..|]. apply IH. Qed.

Lemma str_take_drop n s : str_take n s +:+ str_drop n s = s.
Proof.
  revert s. induction n as [|n IH]; intros [|c s]; string_simpl; cbn [str_take str_drop]; [done..|].
  string_simpl. by rewrite IH.
Qed.

Lemma str_length_zero (s : string) : String.length s = 0%nat -> s = "".
Proof. by destruct s. Qed.

Lemma string_app_nil_r (s : string) : s +:+ "" = s.
Proof. induction s as [|c s IH]; string_simpl; [done|]. by rewrite IH. Qed.

(** ** encoding/hex *)

Module hex.

Definition fromHexChar (c : ascii) : option nat :=
  let n := nat_of_ascii c in
  if (48 <=? n)%nat && (n <=? 57)%nat then Some (n - 48)%nat else
  if (97 <=? n)%nat && (n <=? 102)%nat then Some (n - 87)%nat else
  if (65 <=? n)%nat && (n <=? 70)%nat then Some (n - 55)%nat else None.

(** [None] is any error: an odd length or a byte that is no hex digit. *)
Fixpoint DecodeString (s : string) : option string :=
  match s with
  | "" => Some ""
  | String a (String b s) =>
      match fromHexChar a, fromHexChar b, DecodeString s with
      | Some x, Some y, Some t => Some (String (ascii_of_nat (x * 16 + y)) t)
      | _, _, _ => None
      end
  | String _ "" => None
  end.

Lemma byte_roundtrip c :
  let n := nat_of_ascii c in
  match fromHexChar (pqc.hexdigit (n / 16)), fromHexChar (pqc.hexdigit (n mod 16)) with
  | Some x, Some y => ascii_of_nat (x * 16 + y) = c
  | _, _ => False
  end.
Proof. destruct c as [[] [] [] [] [] [] [] []]; vm_compute; reflexivity. Qed.

Lemma Decode_Encode s : DecodeString (pqc.EncodeToString s) = Some s.
Proof.
  induction s as [|c s IH]; [done|]. cbn [pqc.EncodeToString DecodeString]. rewrite IH.
  pose proof (byte_roundtrip c) as Hb. cbv zeta in Hb. repeat case_match; try done. by rewrite Hb.
Qed.

Lemma Encode_inj s t : pqc.EncodeToString s = pqc.EncodeToString t -> s = t.
Proof. intros E%(f_equal DecodeString). rewrite !Decode_Encode in E. congruence. Qed.

Lemma Encode_length s : String.length (pqc.EncodeToString s) = (2 * String.length s)%nat.
Proof. induction s as [|c s IH]; [done|]. cbn. rewrite IH. lia. Qed.

Lemma Encode_empty s : pqc.EncodeToString s = "" <-> s = "".
Proof. destruct s; cbn; split; congruence. Qed.
End hex.

(** ** strconv *)

Module strconv.

(** The value of a run of decimal digits in front of which [acc] was read. *)
Fixpoint parse_digits (acc : N) (s : string) : option N :=
  match s with
  | "" => Some acc
  | String c s =>
      let n := N_of_ascii c in
      if (48 <=? n)%N && (n <=? 57)%N then parse_digits (10 * acc + (n - 48)) s else None
  end.

Definition split_sign (s : string) : bool * string :=
  match s with
  | String "-"%char s => (true, s)
  | String "+"%char s => (false, s)
  | _ => (false, s)
  end.

(** Atoi: an optional sign and decimal digits, within int64. *)
Definition Atoi (s : string) : option Z :=
  let '(neg, ds) := split_sign s in
  if bool_decide (ds = "") then None else
  match parse_digits 0 ds with
  | None => None
  | Some n =>
      let z := if neg then - Z.of_N n else Z.of_N n in
      if (- two63 <=? z) && (z <? two63) then Some z else None
  end.

Lemma pretty_N_char_digit x : (x < 10)%N ->
  let n := N_of_ascii (pretty_N_char x) in (48 <=? n)%N && (n <=? 57)%N = true /\ (n - 48 = x)%N.
Proof.
  intros Hx. assert (x ∈ [0;1;2;3;4;5;6;7;8;9]%N) as Hin by (rewrite !elem_of_cons; lia).
  clear Hx. repeat (apply elem_of_cons in Hin as [->|Hin]; [done|]). by apply elem_of_nil in Hin.
Qed.

Lemma parse_pretty_N_go x s : parse_digits 0 (pretty_N_go x s) = parse_digits x s.
Proof.
  revert s. induction (N.lt_wf_0 x) as [x _ IH]; intros s.
  assert (x = 0 \/ 0 < x)%N as [->|?] by lia; [by rewrite pretty_N_go_0|].
  rewrite pretty_N_go_step by done. rewrite IH by (by apply N.div_lt). cbn [parse_digits].
  destruct (pretty_N_char_digit (x mod 10)) as [-> ->]; [by apply N.mod_lt|].
  f_equal. pose proof (N.div_mod x 10). lia.
Qed.

Lemma parse_pretty_N (x : N) : parse_digits 0 (pretty x) = Some x.
Proof. unfold pretty, pretty_N. case_decide; [by subst|]. by rewrite parse_pretty_N_go. Qed.

(** A numeral is not empty and has no sign. *)
Lemma pretty_N_go_head x s : (0 < x)%N \/ (exists c t, s = String c t /\ c <> "-"%char /\ c <> "+"%char) ->
  exists c t, pretty_N_go x s = String c t /\ c <> "-"%char /\ c <> "+"%char.
Proof.
  revert s. induction (N.lt_wf_0 x) as [x _ IH]; intros s Hs.
  assert (x = 0 \/ 0 < x)%N as [->|Hx] by lia; [rewrite pretty_N_go_0; destruct Hs; [lia|done]|].
  rewrite pretty_N_go_step by done. apply IH; [by apply N.div_lt|]. right.
  eexists _, s. split; [done|]. unfold pretty_N_char. by repeat case_match.
Qed.

Lemma pretty_N_head (x : N) : exists c t, pretty x = String c t /\ c <> "-"%char /\ c <> "+"%char.
Proof.
  unfold pretty, pretty_N. case_decide; [by exists "0"%char, ""|]. apply pretty_N_go_head. left. lia.
Qed.

Lemma split_sign_plain c t : c <> "-"%char -> c <> "+"%char -> split_sign (String c t) = (false, String c t).
Proof. intros H1 H2. destruct c as [[] [] [] [] [] [] [] []]; done. Qed.

Lemma Atoi_nonneg (n : N) : Z.of_N n < two63 -> Atoi (pretty n) = Some (Z.of_N n).
Proof.
  intros Hr. destruct (pretty_N_head n) as (c & t & E & H1 & H2).
  unfold Atoi. rewrite E, split_sign_plain by done. rewrite <- E, parse_pretty_N.
  rewrite bool_decide_false by (rewrite E; done).
  rewrite (proj2 (Z.leb_le _ _)), (proj2 (Z.ltb_lt _ _)) by (unfold two63 in *; lia). done.
Qed.

(** strconv.Itoa is undone by Atoi. *)
Lemma Atoi_Itoa (z : Z) : in_i64 z -> Atoi (pretty z) = Some z.
Proof.
  intros [Hl Hr]. destruct z as [|p|p]; [done| |].
  - change (pretty (Z.pos p)) with (pretty (N.pos p)). by apply (Atoi_nonneg (N.pos p)).
  - change (pretty (Z.neg p)) with (String "-"%char (pretty (N.pos p))).
    destruct (pretty_N_head (N.pos p)) as (c & t & E & _). unfold Atoi. cbn [split_sign].
    rewrite bool_decide_false by (rewrite E; done). rewrite parse_pretty_N.
    change (- Z.of_N (N.pos p)) with (Z.neg p).
    rewrite (proj2 (Z.leb_le _ _)), (proj2 (Z.ltb_lt _ _)) by (unfold two63 in *; lia). done.
Qed.
End strconv.

(** ** The hand-written codec of crypto/kyber1024/keys.go *)

Module kyberwire.

(** [fuel] is the free part of the ten-byte buffer: indexing past it would
    panic ([None]). *)
Fixpoint encodeVarint_loop (fuel : nat) (v : Z) : option string :=
  match fuel with
  | O => None
  | S fuel =>
      if 128 <=? v then
        match encodeVarint_loop fuel (Z.shiftr v 7) with
        | Some rest => Some (String (byte_of (Z.lor (v mod 256) 128)) rest)
        | None => None
        end
      else Some (String (byte_of v) "")
  end.

Definition encodeVarint (v : Z) : option string := encodeVarint_loop 10 v.

(** The value and the number of bytes read: 0 when the input ends inside, -1
    when it is too long. *)
Fixpoint decodeVarint_from (i : nat) (x s : Z) (b : string) : Z * Z :=
  match b with
  | "" => (0, 0)
  | String c b =>
      if (i =? 10)%nat then (0, -1) else
      if byte_val c <? 128 then (Z.lor x (wrap_u64 (Z.shiftl (byte_val c) s)), Z.of_nat i + 1)
      else decodeVarint_from (S i) (Z.lor x (wrap_u64 (Z.shiftl (Z.land (byte_val c) 127) s))) (s + 7) b
  end.

Definition decodeVarint (b : string) : Z * Z := decodeVarint_from 0 0 0 b.

Definition str_len (s : string) : Z := Z.of_nat (String.length s).

Definition marshalBytesField1 (b : string) : outcome string :=
  if bool_decide (b = "") then Ok "" else
  match encodeVarint (str_len b) with
  | Some length => Ok (String (byte_of 10) (length +:+ b))
  | None => Panic
  end.

Definition unmarshalBytesField1 (dAtA : string) : outcome string :=
  match dAtA with
  | "" => Ok ""
  | String c dAtA =>
      if negb (byte_val c =? 10) then Err (Errorf "unexpected tag byte") else
      let '(length, n) := decodeVarint dAtA in
      if n <=? 0 then Err (Errorf "invalid varint for length") else
      let dAtA := str_drop (Z.to_nat n) dAtA in
      if str_len dAtA <? length then Err (Errorf "buffer too short")
      else Ok (str_take (Z.to_nat length) dAtA)
  end.

Lemma lor_disjoint x v s : 0 <= s -> 0 <= x < 2 ^ s -> Z.lor x (v * 2 ^ s) = x + v * 2 ^ s.
Proof.
  intros Hs Hx. rewrite <- (Z.add_lor_land x (v * 2 ^ s)).
  replace (Z.land x (v * 2 ^ s)) with 0; [lia|]. symmetry. apply Z.bits_inj'. intros k Hk.
  rewrite Z.land_spec, Z.bits_0, <- Z.shiftl_mul_pow2, Z.shiftl_spec by lia.
  destruct (Z.ltb_spec k s); [rewrite (Z.testbit_neg_r v) by lia; by rewrite andb_false_r|].
  destruct (Z.eq_dec x 0) as [->|]; [by rewrite Z.bits_0|].
  rewrite (Z.bits_above_log2 x k); [done|lia|]. apply Z.log2_lt_pow2; [lia|].
  apply (Z.lt_le_trans _ (2 ^ s)); [lia|]. apply Z.pow_le_mono_r; lia.
Qed.

(** The byte with the continuation bit set. *)
Lemma continuation v : 0 <= v ->
  128 <= Z.lor (v mod 256) 128 < 256 /\ Z.land (Z.lor (v mod 256) 128) 127 = v mod 128.
Proof.
  intros Hv. pose proof (Z.mod_pos_bound v 256 ltac:(lia)) as Hb.
  rewrite (Znumtheory.Zmod_div_mod 128 256 v) by (done || (exists 2; done)).
  generalize dependent (v mod 256). intros b Hb. split.
  - assert (Hall : forallb (fun k => let z := Z.lor (Z.of_nat k) 128 in (128 <=? z) && (z <? 256)) (seq 0 256) = true)
      by (vm_compute; reflexivity).
    rewrite forallb_forall in Hall. specialize (Hall (Z.to_nat b) ltac:(apply in_seq; lia)).
    cbv zeta in Hall. rewrite Z2Nat.id in Hall by lia. lia.
  - rewrite Z.land_lor_distr_l. change (Z.land 128 127) with 0. rewrite Z.lor_0_r.
    change 127 with (Z.ones 7). by rewrite Z.land_ones by lia.
Qed.

(** Reading back a varint from byte [i] on. *)
Lemma varint_loop_roundtrip fuel : forall i x v rest,
  (i + fuel = 10)%nat -> (i < 10)%nat -> 0 <= x < 2 ^ (7 * Z.of_nat i) -> 0 <= v -> v * 2 ^ (7 * Z.of_nat i) < two64 ->
  exists e, encodeVarint_loop fuel v = Some e /\
    decodeVarint_from i x (7 * Z.of_nat i) (e +:+ rest) =
      (x + v * 2 ^ (7 * Z.of_nat i), Z.of_nat i + str_len e).
Proof.
  induction fuel as [|fuel IH]; intros i x v rest Hf Hi Hx Hv Hb; [lia|].
  cbn [encodeVarint_loop]. set (s := 7 * Z.of_nat i) in *.
  assert (0 < 2 ^ s) by (apply Z.pow_pos_nonneg; lia).
  destruct (Z.leb_spec 128 v) as [Hge|Hlt].
  - destruct (continuation v Hv) as [Hc Hl]. pose proof (Z.div_mod v 128 ltac:(lia)) as Hd.
    pose proof (Z.mod_pos_bound v 128 ltac:(lia)).
    assert (E7 : 7 * Z.of_nat (S i) = s + 7) by (subst s; lia).
    assert (P7 : 2 ^ (s + 7) = 128 * 2 ^ s) by (rewrite Z.pow_add_r by lia; lia).
    rewrite Z.shiftr_div_pow2 by lia. change (2 ^ 7) with 128.
    assert (Hi' : (S i < 10)%nat).
    { destruct (decide (S i < 10)%nat); [done|]. exfalso. assert (i = 9%nat) as -> by lia.
      change (2 ^ s) with 9223372036854775808 in *. unfold two64 in *. lia. }
    edestruct (IH (S i) (x + v mod 128 * 2 ^ s) (v / 128) rest) as (e & -> & Ed);
      [lia|done|rewrite E7, P7; nia|apply Z.div_pos; lia|rewrite E7, P7; nia|].
    eexists. split; [done|]. string_simpl. cbn [decodeVarint_from].
    rewrite (proj2 (Nat.eqb_neq i 10)) by lia. rewrite lwr.byte_val_of by lia.
    destruct (Z.ltb_spec (Z.lor (v mod 256) 128) 128); [lia|].
    rewrite Hl, Z.shiftl_mul_pow2 by lia.
    rewrite wrap_u64_id by nia. rewrite lor_disjoint by (done || lia).
    rewrite E7 in Ed. rewrite Ed, P7. unfold str_len. cbn [String.length]. f_equal; nia.
  - eexists. split; [done|]. string_simpl. cbn [decodeVarint_from].
    rewrite (proj2 (Nat.eqb_neq i 10)) by lia. rewrite lwr.byte_val_of by lia.
    rewrite (proj2 (Z.ltb_lt v 128)) by done. rewrite Z.shiftl_mul_pow2 by lia.
    rewrite wrap_u64_id by nia. rewrite lor_disjoint by (done || lia). done.
Qed.

Lemma varint_roundtrip v rest : 0 <= v < two64 -> exists e,
  encodeVarint v = Some e /\ e <> "" /\ decodeVarint (e +:+ rest) = (v, str_len e).
Proof.
  intros Hv. destruct (varint_loop_roundtrip 10 0 0 v rest) as (e & Ee & Ed); [done|lia|cbn; lia|lia|cbn; lia|].
  exists e. split_and!; [done| |].
  - intros ->. cbn in Ee. repeat case_match; done.
  - unfold decodeVarint. change (7 * Z.of_nat 0) with 0 in Ed. rewrite Ed. f_equal; cbn; lia.
Qed.

(** A slice has fewer than 2^63 bytes. *)
Definition slice_fits (b : string) : Prop := str_len b < two63.

Lemma marshal_run b : slice_fits b -> b <> "" -> exists e,
  encodeVarint (str_len b) = Some e /\ marshalBytesField1 b = Ok (String (byte_of 10) (e +:+ b)).
Proof.
  unfold slice_fits, two63. intros Hb Hne.
  destruct (varint_roundtrip (str_len b) "") as (e & Ee & _); [unfold str_len, two64 in *; lia|].
  exists e. unfold marshalBytesField1. by rewrite bool_decide_false, Ee.
Qed.

(** Marshal is undone by Unmarshal, which ignores what follows the field. *)
Lemma kyber_unmarshal_marshal b rest : slice_fits b -> b <> "" \/ rest = "" ->
  exists m, marshalBytesField1 b = Ok m /\ unmarshalBytesField1 (m +:+ rest) = Ok b.
Proof.
  intros Hb Hr. destruct (decide (b = "")) as [->|Hne].
  { exists "". split; [done|]. by destruct Hr as [?| ->]. }
  destruct (marshal_run b Hb Hne) as (e & Ee & Em). exists (String (byte_of 10) (e +:+ b)).
  split; [done|]. unfold slice_fits, two63 in Hb.
  destruct (varint_roundtrip (str_len b) (b +:+ rest)) as (e' & Ee' & Hne' & Ed);
    [unfold str_len, two64 in *; lia|].
  rewrite Ee' in Ee. injection Ee as ->. string_simpl. cbn [unmarshalBytesField1].
  rewrite lwr.byte_val_of by lia. cbn [Z.eqb negb]. rewrite <- string_app_assoc, Ed.
  assert (0 < str_len e) by (unfold str_len; destruct e; [done|cbn; lia]).
  destruct (Z.leb_spec (str_len e) 0); [lia|]. replace (Z.to_nat (str_len e)) with (String.length e) by (unfold str_len; lia).
  rewrite str_drop_app.
  rewrite (proj2 (Z.ltb_ge _ _)) by (unfold str_len; rewrite str_length_app; lia).
  unfold str_len. by rewrite Nat2Z.id, str_take_app.
Qed.
End kyberwire.

(** ** The codec of crypto/dilithium5/dilithium_key.go *)

(** google.golang.org/protobuf/encoding/protowire: the append functions return
    the extended buffer, the consume functions the number of bytes they read,
    negative for a parse error. *)
Class Protowire : Type := {
  AppendTag : string -> Z -> Z -> string;
  AppendBytes : string -> string -> string;
  ConsumeTag : string -> Z * Z * Z;
  ConsumeBytes : string -> string * Z;
  ConsumeFieldValue : Z -> Z -> string -> Z;
  ParseError : Z -> err;
  SizeTag : Z -> Z;
  SizeVarint : Z -> Z;
}.

Definition BytesType : Z := 2.

Class ProtowireLaws `{Protowire} : Prop := {
  append_tag b num typ : AppendTag b num typ = b +:+ AppendTag "" num typ;
  append_bytes b v : AppendBytes b v = b +:+ AppendBytes "" v;
  consume_tag rest : ConsumeTag (AppendTag "" 1 BytesType +:+ rest) =
    (1, BytesType, Z.of_nat (String.length (AppendTag "" 1 BytesType)));
  consume_bytes v rest : Z.of_nat (String.length v) < two63 ->
    ConsumeBytes (AppendBytes "" v +:+ rest) = (v, Z.of_nat (String.length (AppendBytes "" v)));
  consume_tag_reads b num typ n : ConsumeTag b = (num, typ, n) -> 0 <= n -> 0 < n;
  size_tag num : SizeTag num = Z.of_nat (String.length (AppendTag "" num BytesType));
  size_bytes v : Z.of_nat (String.length v) < two63 ->
    Z.of_nat (String.length (AppendBytes "" v)) =
      SizeVarint (Z.of_nat (String.length v)) + Z.of_nat (String.length v);
}.

Module dilithiumwire.
Import kyberwire.
Section Codec.
Context `{Protowire}.

Definition marshalDilithiumField1 (b : string) : string :=
  if bool_decide (b = "") then "" else AppendBytes (AppendTag "" 1 BytesType) b.

(** The loop over the fields: field 1 is returned, others are skipped. Every
    turn reads a tag, so the length of the input bounds the turns. *)
Fixpoint unmarshal_loop (fuel : nat) (dAtA : string) : option (outcome string) :=
  if bool_decide (dAtA = "") then Some (Ok "") else
  match fuel with
  | O => None
  | S fuel =>
      let '(num, typ, n) := ConsumeTag dAtA in
      if n <? 0 then Some (Err (ParseError n)) else
      let dAtA := str_drop (Z.to_nat n) dAtA in
      if (num =? 1) && (typ =? BytesType) then
        let '(v, n) := ConsumeBytes dAtA in
        if n <? 0 then Some (Err (ParseError n)) else Some (Ok v)
      else
        let n := ConsumeFieldValue num typ dAtA in
        if n <? 0 then Some (Err (ParseError n)) else unmarshal_loop fuel (str_drop (Z.to_nat n) dAtA)
  end.

Definition unmarshalDilithiumField1 (dAtA : string) : option (outcome string) :=
  unmarshal_loop (String.length dAtA) dAtA.

Definition sizeField1 (dataLen : Z) : Z :=
  if dataLen =? 0 then 0 else SizeTag 1 + SizeVarint dataLen + dataLen.
End Codec.

Section Lemmas.
Context `{ProtowireLaws}.

(** The loop always ends: the fuel of [unmarshalDilithiumField1] is enough. *)
Lemma unmarshal_loop_total fuel d : (String.length d <= fuel)%nat -> is_Some (unmarshal_loop fuel d).
Proof.
  revert d. induction fuel as [|fuel IH]; intros d Hd.
  { apply Nat.le_0_r, str_length_zero in Hd as ->. by eexists. }
  cbn [unmarshal_loop]. case_bool_decide as Hne; [by eexists|].
  destruct (ConsumeTag d) as [[num typ] n] eqn:Et. destruct (Z.ltb_spec n 0); [by eexists|].
  pose proof (consume_tag_reads _ _ _ _ Et ltac:(lia)).
  destruct (_ && _); [destruct (ConsumeBytes _); case_match; by eexists|].
  case_match; [by eexists|]. apply IH. rewrite !str_drop_length.
  destruct d; [done|]. cbn [String.length] in *. lia.
Qed.

Lemma unmarshal_total d : is_Some (unmarshalDilithiumField1 d).
Proof. by apply unmarshal_loop_total. Qed.

Lemma unmarshal_marshal b rest : slice_fits b -> b <> "" \/ rest = "" ->
  unmarshalDilithiumField1 (marshalDilithiumField1 b +:+ rest) = Some (Ok b).
Proof.
  intros Hb Hr. unfold marshalDilithiumField1. case_bool_decide as Hne.
  { subst b. by destruct Hr as [?| ->]. }
  rewrite append_bytes. unfold unmarshalDilithiumField1. rewrite <- string_app_assoc.
  pose proof (consume_tag (AppendBytes "" b +:+ rest)) as Et.
  pose proof (consume_tag_reads _ _ _ _ Et ltac:(lia)) as Hl.
  destruct (String.length (_ +:+ _)) as [|fuel] eqn:El; [rewrite !str_length_app in El; lia|].
  cbn [unmarshal_loop]. rewrite bool_decide_false by (intros E; rewrite E in El; done).
  rewrite Et, (proj2 (Z.ltb_ge _ _)) by lia. cbn [Z.eqb andb BytesType Pos.eqb].
  rewrite Nat2Z.id, str_drop_app, consume_bytes by done.
  by rewrite (proj2 (Z.ltb_ge _ _)) by lia.
Qed.

(** Size is the length of Marshal. *)
Lemma size_marshal b : slice_fits b -> sizeField1 (str_len b) = str_len (marshalDilithiumField1 b).
Proof.
  intros Hb. unfold sizeField1, marshalDilithiumField1. case_bool_decide as Hne; [by subst|].
  rewrite (proj2 (Z.eqb_neq _ _)) by (unfold str_len; destruct b; [done|cbn; lia]).
  rewrite append_bytes. unfold str_len. rewrite str_length_app, Nat2Z.inj_add, size_bytes, size_tag by done. lia.
Qed.
End Lemmas.

(** *** An instance made of the varints above *)

Definition varint (v : Z) : string := default "" (encodeVarint v).

Definition consume_bytes_fn (b : string) : string * Z :=
  let '(len, n) := decodeVarint b in
  if n <=? 0 then ("", -1) else
  let b := str_drop (Z.to_nat n) b in
  if str_len b <? len then ("", -1) else (str_take (Z.to_nat len) b, n + len).

Definition protowire : Protowire := {|
  AppendTag b num typ := b +:+ varint (8 * num + typ);
  AppendBytes b v := b +:+ varint (str_len v) +:+ v;
  ConsumeTag b :=
    let '(v, n) := decodeVarint b in
    if n <=? 0 then (0, 0, -1) else
    if Z.shiftr v 3 <? 1 then (0, 0, -1) else (Z.shiftr v 3, Z.land v 7, n);
  ConsumeBytes := consume_bytes_fn;
  ConsumeFieldValue _ typ b :=
    if typ =? 0 then (let n := snd (decodeVarint b) in if n <=? 0 then -1 else n) else
    if typ =? 1 then (if str_len b <? 8 then -1 else 8) else
    if typ =? 2 then snd (consume_bytes_fn b) else
    if typ =? 5 then (if str_len b <? 4 then -1 else 4) else -1;
  ParseError _ := Errorf "proto: cannot parse invalid wire-format data";
  SizeTag num := str_len (varint (8 * num + BytesType));
  SizeVarint v := str_len (varint v);
|}.

Lemma varint_run v rest : 0 <= v < two64 ->
  encodeVarint v = Some (varint v) /\ varint v <> "" /\ decodeVarint (varint v +:+ rest) = (v, str_len (varint v)).
Proof.
  intros Hv. destruct (varint_roundtrip v rest Hv) as (e & Ee & Hne & Ed).
  unfold varint. by rewrite Ee.
Qed.

Lemma consume_bytes_run v rest : str_len v < two63 ->
  consume_bytes_fn (varint (str_len v) +:+ v +:+ rest) = (v, str_len (varint (str_len v)) + str_len v).
Proof.
  intros Hv. destruct (varint_run (str_len v) (v +:+ rest)) as (_ & Hne & Ed);
    [unfold str_len, two63, two64 in *; lia|].
  unfold consume_bytes_fn. rewrite Ed.
  assert (0 < str_len (varint (str_len v))) by (unfold str_len at 1; destruct (varint _); [done|cbn; lia]).
  rewrite (proj2 (Z.leb_gt _ _)) by done.
  replace (Z.to_nat (str_len (varint (str_len v)))) with (String.length (varint (str_len v))) by (unfold str_len; lia).
  rewrite str_drop_app, (proj2 (Z.ltb_ge _ _)) by (unfold str_len; rewrite str_length_app; lia).
  replace (Z.to_nat (str_len v)) with (String.length v) by (unfold str_len; lia). by rewrite str_take_app.
Qed.

#[export] Instance protowire_laws : @ProtowireLaws protowire.
Proof.
  split; cbn [protowire AppendTag AppendBytes ConsumeTag ConsumeBytes SizeTag SizeVarint].
  - done.
  - done.
  - intros rest. change (8 * 1 + BytesType) with 10. rewrite string_app_nil. by rewrite (proj2 (proj2 (varint_run 10 rest ltac:(done)))).
  - intros v rest Hv. rewrite string_app_nil, <- string_app_assoc, consume_bytes_run by done.
    unfold str_len. rewrite str_length_app. f_equal. lia.
  - intros b num typ n E ?. destruct (decodeVarint b) as [v k]. destruct (Z.leb_spec k 0); [simplify_eq; lia|].
    case_match; simplify_eq; lia.
  - done.
  - intros v Hv. rewrite string_app_nil, str_length_app. unfold str_len. lia.
Qed.

(** The two encoders write the same bytes. *)
Lemma encoders_agree b : slice_fits b ->
  kyberwire.marshalBytesField1 b = Ok (@marshalDilithiumField1 protowire b).
Proof.
  intros Hb. unfold kyberwire.marshalBytesField1, marshalDilithiumField1. case_bool_decide as Hne; [done|].
  cbn [protowire AppendTag AppendBytes].
  destruct (varint_run (str_len b) "") as (-> & _); [unfold slice_fits, str_len, two63, two64 in *; lia|].
  done.
Qed.
End dilithiumwire.

(** The decoders do not: the one of kyber1024 rejects a message whose first
    field is not field 1, the one of dilithium5 skips it. *)
Example decoders_differ :
  let d := String (byte_of 16) (String (byte_of 1) (String (byte_of 10) (String (byte_of 1) "k"))) in
  kyberwire.unmarshalBytesField1 d = Err (Errorf "unexpected tag byte") /\
  @dilithiumwire.unmarshalDilithiumField1 dilithiumwire.protowire d = Some (Ok "k").
Proof. split; vm_compute; reflexivity. Qed.
