(* ===== verification/Keys.v ===== *)
(** Keys: crypto/dilithium5, crypto/kyber1024 and x/privacy/pqc/hybrid_kem.go.

    Account keys (Dilithium5) with their addresses and their derivation from a
    mnemonic, the Kyber1024 key encapsulation with file encryption, and the
    hybrid key exchange.  circl, go-bip39, HKDF, AES-GCM and X25519 are
    classes with their documented behaviour as laws; a function that draws
    randomness takes it as an argument.

    Theorems: a wallet recovered from a mnemonic signs what its address's key
    verifies; a file encrypted to a public key is decrypted by the private
    key; the two sides of the hybrid exchange derive different session keys,
    unless the responder leaves the X25519 part out. *)

From Stdlib Require Import ZArith Lia Ascii String.
From stdpp Require Import base list strings.
From S2P Require Import Prelude Pqc Lwr Wire.

Open Scope Z_scope.
Open Scope go_scope.

(** ** Libraries *)

(** circl/sign/dilithium/mode5: key generation reads a byte stream. *)
Class Mode5Keys : Type := {
  mode5_Public : string -> string;
  mode5_GenerateKey : (nat -> ascii) -> option (string * string);
  (** cometbft/crypto.AddressHash *)
  AddressHash : string -> string;
}.

Class Mode5KeysLaws `{Crypto} `{Mode5Keys} (keypair : string -> string -> Prop) : Prop := {
  GenerateKey_pair r pk sk : mode5_GenerateKey r = Some (pk, sk) -> keypair pk sk;
  GenerateKey_total r : is_Some (mode5_GenerateKey r);
  GenerateKey_ext r r' : (forall i, r i = r' i) -> mode5_GenerateKey r = mode5_GenerateKey r';
  Public_pair pk sk : keypair pk sk -> mode5_Public sk = pk;
  mode5_sizes : mode5_PublicKeySize = 2592%nat /\ mode5_PrivateKeySize = 4864%nat;
  AddressHash_length bz : String.length (AddressHash bz) = 20%nat;
}.

(** cosmos/go-bip39 and golang.org/x/crypto/hkdf with SHA-256 (the salt is
    always nil): [hkdf ikm info n] are the first [n] bytes, [None] past the
    limit of 255 blocks. *)
Class Derivation : Type := {
  IsMnemonicValid : string -> bool;
  NewSeed : string -> string -> string;
  hkdf : string -> string -> nat -> option string;
}.

Class DerivationLaws `{Derivation} : Prop := {
  hkdf_reads ikm info n : Z.of_nat n <= 8160 -> exists bz, hkdf ikm info n = Some bz /\ String.length bz = n;
}.

(** circl/kem/kyber/kyber1024 on serialised keys: whether a key parses, and the
    operations; [Encapsulate] draws from the entropy it is given. *)
Class Kyber : Type := {
  kem_GenerateKeyPair : string -> option (string * string);
  kem_DeriveKeyPair : string -> string * string;
  kem_pub_ok : string -> bool;
  kem_priv_ok : string -> bool;
  kem_Public : string -> string;
  kem_Encapsulate : string -> string -> option (string * string);
  kem_Decapsulate : string -> string -> option string;
}.

Class KyberLaws `{Kyber} (kempair : string -> string -> Prop) : Prop := {
  kem_generate r pk sk : kem_GenerateKeyPair r = Some (pk, sk) -> kempair pk sk;
  kem_derive seed : String.length seed = 64%nat ->
    kempair (fst (kem_DeriveKeyPair seed)) (snd (kem_DeriveKeyPair seed));
  kem_parse pk sk : kempair pk sk -> kem_pub_ok pk = true /\ kem_priv_ok sk = true /\ kem_Public sk = pk;
  kem_correct pk sk r ct ss : kempair pk sk -> kem_Encapsulate pk r = Some (ct, ss) ->
    kem_Decapsulate sk ct = Some ss;
  kem_sizes pk r ct ss : kem_Encapsulate pk r = Some (ct, ss) ->
    String.length ct = 1568%nat /\ String.length ss = 32%nat;
}.

(** crypto/aes with crypto/cipher.NewGCM: sealing under a key and a nonce. *)
Class Gcm : Type := {
  gcm_Seal : string -> string -> string -> string;
  gcm_Open : string -> string -> string -> option string;
}.

Class GcmLaws `{Gcm} : Prop := {
  gcm_open_seal key nonce pt : gcm_Open key nonce (gcm_Seal key nonce pt) = Some pt;
}.

(** crypto/ecdh.X25519 *)
Class X25519 : Type := {
  x_GenerateKey : string -> option string;
  x_PublicKey : string -> string;
  x_ECDH : string -> string -> option string;
}.

(** A public key and a shared secret have 32 bytes. *)
Class X25519Laws `{X25519} : Prop := {
  x_public_size priv : String.length (x_PublicKey priv) = 32%nat;
  x_shared_size priv pub ss : x_ECDH priv pub = Some ss -> String.length ss = 32%nat;
}.

(** ** crypto/dilithium5 *)

Module dilithium5.

Definition KeyType : string := "dilithium5".
Definition PubKeySize : nat := 2592.
Definition PrivKeySize : nat := 4864.
Definition hkdfDomainSeparator : string := "zytherion/dilithium5/v1".

Record PubKey : Type := mkPubKey { PubKey_Key : string }.
Record PrivKey : Type := mkPrivKey { PrivKey_Key : string }.

(** *** reader.go *)

Record deterministicReader : Type := mkReader { seed : string; pos : nat }.

Definition newDeterministicReader (seed : string) : deterministicReader := mkReader seed 0.

(** [r.seed[i % len(r.seed)]]; the readers that are built have a seed. *)
Definition seed_at (seed : string) (i : nat) : ascii :=
  default "000"%char (String.get (i mod String.length seed) seed).

Fixpoint Read (n : nat) (r : deterministicReader) : string * deterministicReader :=
  match n with
  | O => ("", r)
  | S n =>
      let c := seed_at (seed r) (pos r) in
      let '(p, r') := Read n (mkReader (seed r) (S (pos r))) in (String c p, r')
  end.

(** The stream a consumer of the reader sees. *)
Definition stream (r : deterministicReader) (i : nat) : ascii := seed_at (seed r) (pos r + i).

Section Keys.
Context `{Crypto} `{Mode5Keys} `{Derivation} `{Protowire}.

Definition Address (pk : PubKey) : string :=
  if bool_decide (PubKey_Key pk = "") then "" else AddressHash (PubKey_Key pk).

Definition AccAddressFromPubKey (pk : PubKey) : string := Address pk.

Definition VerifySignature (pk : PubKey) (msg sig : string) : bool := pqc.Verify msg sig (PubKey_Key pk).

Definition PubKey_Equals (pk other : PubKey) : bool := bool_decide (PubKey_Key pk = PubKey_Key other).
Definition PrivKey_Equals (sk other : PrivKey) : bool := bool_decide (PrivKey_Key sk = PrivKey_Key other).

Definition PrivKey_Sign (sk : PrivKey) (msg : string) : outcome string :=
  match pqc.Sign msg (PrivKey_Key sk) with
  | Ok sig => Ok sig
  | Err e => Err (Wrapf "dilithium5 sign" e)
  | Panic => Panic
  end.

Definition PrivKey_PubKey (sk : PrivKey) : outcome PubKey :=
  if negb (String.length (PrivKey_Key sk) =? PrivKeySize)%nat then Panic
  else Ok (mkPubKey (mode5_Public (PrivKey_Key sk))).

Definition GenPrivKey (entropy : nat -> ascii) : outcome PrivKey :=
  match mode5_GenerateKey entropy with
  | Some (_, priv) => Ok (mkPrivKey priv)
  | None => Err (Errorf "dilithium5 key generation")
  end.

Definition GenPrivKeyFromSecret (secret : string) : outcome PrivKey :=
  if (String.length secret <? 32)%nat then Err (Errorf "dilithium5 GenPrivKeyFromSecret: secret must be at least 32 bytes") else
  match mode5_GenerateKey (stream (newDeterministicReader secret)) with
  | Some (_, priv) => Ok (mkPrivKey priv)
  | None => Err (Errorf "dilithium5 deterministic keygen")
  end.

Definition PrivKeyFromBytes (bz : string) : outcome PrivKey :=
  if negb (String.length bz =? PrivKeySize)%nat then Err (Errorf "dilithium5: invalid private key size") else Ok (mkPrivKey bz).

Definition PubKeyFromBytes (bz : string) : outcome PubKey :=
  if negb (String.length bz =? PubKeySize)%nat then Err (Errorf "dilithium5: invalid public key size") else Ok (mkPubKey bz).

(** *** Protobuf *)

Definition PubKey_Marshal (pk : PubKey) : string := dilithiumwire.marshalDilithiumField1 (PubKey_Key pk).
Definition PubKey_Size (pk : PubKey) : Z := dilithiumwire.sizeField1 (kyberwire.str_len (PubKey_Key pk)).
Definition PubKey_Unmarshal (dAtA : string) : option (outcome PubKey) :=
  match dilithiumwire.unmarshalDilithiumField1 dAtA with
  | Some (Ok key) => Some (Ok (mkPubKey key))
  | Some (Err e) => Some (Err (Wrapf "dilithium5.PubKey.Unmarshal" e))
  | Some Panic => Some Panic
  | None => None
  end.

(** *** hd.go *)

Definition Derive (mnemonic bip39Passphrase hdPath : string) : outcome string :=
  if negb (IsMnemonicValid mnemonic) then Err (Errorf "dilithium5 derive: invalid BIP-39 mnemonic") else
  match hkdf (NewSeed mnemonic bip39Passphrase) (hkdfDomainSeparator +:+ "/" +:+ hdPath) 32 with
  | Some entropy => Ok entropy
  | None => Err (Errorf "dilithium5 derive hkdf")
  end.

Definition Generate (bz : string) : outcome PrivKey :=
  match GenPrivKeyFromSecret bz with
  | Ok privKey => Ok privKey
  | _ => Panic
  end.
End Keys.
End dilithium5.

(** ** crypto/kyber1024 *)

Module kyber1024.

Definition kyberDomainSeparator : string := "zytherion/kyber1024/v1".
Definition NonceSize : nat := 12.

Record PublicKey : Type := mkPublicKey { PublicKey_Key : string }.
Record PrivateKey : Type := mkPrivateKey { PrivateKey_Key : string }.

Definition PublicKey_Marshal (pk : PublicKey) : outcome string := kyberwire.marshalBytesField1 (PublicKey_Key pk).
Definition PublicKey_Unmarshal (dAtA : string) : outcome PublicKey :=
  match kyberwire.unmarshalBytesField1 dAtA with
  | Ok key => Ok (mkPublicKey key)
  | Err e => Err (Wrapf "kyber1024.PublicKey.Unmarshal" e)
  | Panic => Panic
  end.

Section Kem.
Context `{Kyber} `{Derivation} `{Gcm}.

Definition GenKeyPair (entropy : string) : outcome (string * string) :=
  match kem_GenerateKeyPair entropy with
  | Some kp => Ok kp
  | None => Err (Errorf "kyber1024: key generation failed")
  end.

Definition GenKeyPairFromSeed (seed : string) : outcome (string * string) :=
  if (String.length seed <? 64)%nat then Err (Errorf "kyber1024: seed must be at least 64 bytes")
  else Ok (kem_DeriveKeyPair (str_take 64 seed)).

Definition PublicKeyFromPrivate (privBytes : string) : outcome string :=
  if kem_priv_ok privBytes then Ok (kem_Public privBytes) else Err (Errorf "kyber1024: unmarshal private key").

(** PrivateKey.Public panics on a key that does not parse. *)
Definition PrivateKey_Public (sk : PrivateKey) : outcome PublicKey :=
  match PublicKeyFromPrivate (PrivateKey_Key sk) with
  | Ok pub => Ok (mkPublicKey pub)
  | _ => Panic
  end.

Definition Encapsulate (pubBytes entropy : string) : outcome (string * string) :=
  if negb (kem_pub_ok pubBytes) then Err (Errorf "kyber1024: unmarshal public key") else
  match kem_Encapsulate pubBytes entropy with
  | Some r => Ok r
  | None => Err (Errorf "kyber1024: encapsulate")
  end.

Definition Decapsulate (privBytes ciphertext : string) : outcome string :=
  if negb (kem_priv_ok privBytes) then Err (Errorf "kyber1024: unmarshal private key") else
  match kem_Decapsulate privBytes ciphertext with
  | Some ss => Ok ss
  | None => Err (Errorf "kyber1024: decapsulate")
  end.

(** aes.NewCipher accepts keys of 16, 24 and 32 bytes. *)
Definition aes_key_ok (key : string) : bool :=
  let n := String.length key in (n =? 16)%nat || (n =? 24)%nat || (n =? 32)%nat.

(** [nonce] is what the random source delivers: [None] when it fails. *)
Definition EncryptFile (pubBytes plaintext entropy : string) (nonce : option string) : outcome string :=
  match Encapsulate pubBytes entropy with
  | Ok (kemCT, sharedSecret) =>
      if negb (aes_key_ok sharedSecret) then Err (Errorf "kyber1024: AES init") else
      match nonce with
      | None => Err (Errorf "kyber1024: nonce generation")
      | Some nonce =>
          let encrypted := gcm_Seal sharedSecret nonce plaintext in
          let ctLen := Z.of_nat (String.length kemCT) in
          Ok (String (byte_of (Z.shiftr ctLen 8)) (String (byte_of ctLen) (kemCT +:+ nonce +:+ encrypted)))
      end
  | Err e => Err e
  | Panic => Panic
  end.

Definition DecryptFile (privBytes blob : string) : outcome string :=
  match blob with
  | String b0 (String b1 body) =>
      let ctLen := Z.lor (Z.shiftl (byte_val b0) 8) (byte_val b1) in
      if Z.of_nat (String.length blob) <? 2 + ctLen + 12 then Err (Errorf "kyber1024: blob truncated") else
      let kemCT := str_take (Z.to_nat ctLen) body in
      let rest := str_drop (Z.to_nat ctLen) body in
      match Decapsulate privBytes kemCT with
      | Ok sharedSecret =>
          if negb (aes_key_ok sharedSecret) then Err (Errorf "kyber1024: AES init") else
          if (String.length rest <? NonceSize)%nat then Err (Errorf "kyber1024: blob missing nonce") else
          match gcm_Open sharedSecret (str_take NonceSize rest) (str_drop NonceSize rest) with
          | Some plaintext => Ok plaintext
          | None => Err (Errorf "kyber1024: AES-GCM decrypt failed (wrong key or corrupted data)")
          end
      | Err e => Err e
      | Panic => Panic
      end
  | _ => Err (Errorf "kyber1024: blob too short")
  end.

(** *** hd.go *)

Definition DeriveFromMnemonic (mnemonic bip39Passphrase hdPath : string) : outcome (string * string) :=
  if negb (IsMnemonicValid mnemonic) then Err (Errorf "kyber1024 derive: invalid BIP-39 mnemonic") else
  match hkdf (NewSeed mnemonic bip39Passphrase) (kyberDomainSeparator +:+ "/" +:+ hdPath) 64 with
  | Some entropy => GenKeyPairFromSeed entropy
  | None => Err (Errorf "kyber1024 derive hkdf")
  end.
End Kem.
End kyber1024.

(** ** x/privacy/pqc/hybrid_kem.go *)

Module hybrid.
Import kyber1024.

Definition HybridSessionKeySize : nat := 32.
Definition hybridHKDFInfo : string := "zytherion/hybrid-kem/kyber1024+x25519/v1".

Record HybridKEMResult : Type := mkHybridKEMResult {
  SessionKey : string;
  KyberCiphertext : string;
  X25519PubKey : string;
}.

Section Exchange.
Context `{Kyber} `{Derivation} `{X25519}.

Definition deriveSessionKey (kyberSS x25519SS : string) : outcome string :=
  match hkdf (kyberSS +:+ x25519SS) hybridHKDFInfo HybridSessionKeySize with
  | Some key => Ok key
  | None => Err (Errorf "hybrid KEM: HKDF failed")
  end.

(** The initiator: the X25519 key pair is made, but the session key is derived
    from the Kyber secret alone. *)
Definition HybridEncapsulate (responderKyberPub entropy xentropy : string) : outcome HybridKEMResult :=
  match Encapsulate responderKyberPub entropy with
  | Ok (kyberCT, kyberSS) =>
      match x_GenerateKey xentropy with
      | None => Err (Errorf "hybrid KEM: x25519 keygen")
      | Some x25519Priv =>
          match deriveSessionKey kyberSS "" with
          | Ok sessionKey => Ok (mkHybridKEMResult sessionKey kyberCT (x_PublicKey x25519Priv))
          | Err e => Err (Wrapf "hybrid KEM: session key derivation" e)
          | Panic => Panic
          end
      end
  | Err e => Err (Wrapf "hybrid KEM: kyber encapsulate" e)
  | Panic => Panic
  end.

(** The X25519 part of the responder; NewPublicKey accepts any 32 bytes. *)
Definition responder_secret (initiatorX25519Pub xentropy : string) : outcome string :=
  if negb (String.length initiatorX25519Pub =? 32)%nat then Ok "" else
  match x_GenerateKey xentropy with
  | None => Err (Errorf "hybrid KEM: x25519 keygen")
  | Some responderX25519Priv =>
      match x_ECDH responderX25519Priv initiatorX25519Pub with
      | Some ss => Ok ss
      | None => Err (Errorf "hybrid KEM: x25519 ECDH")
      end
  end.

Definition HybridDecapsulate (responderKyberPriv kyberCT initiatorX25519Pub xentropy : string) : outcome string :=
  match Decapsulate responderKyberPriv kyberCT with
  | Ok kyberSS =>
      match responder_secret initiatorX25519Pub xentropy with
      | Ok x25519SS =>
          match deriveSessionKey kyberSS x25519SS with
          | Ok sk => Ok sk
          | Err e => Err (Wrapf "hybrid KEM: session key derivation" e)
          | Panic => Panic
          end
      | Err e => Err e
      | Panic => Panic
      end
  | Err e => Err (Wrapf "hybrid KEM: kyber decapsulate" e)
  | Panic => Panic
  end.
End Exchange.
End hybrid.

(** ** Wallets *)

Module wallet.
Import dilithium5.
Section Wallet.
Context `{CryptoLaws} `{!Mode5Keys} `{!Mode5KeysLaws keypair} `{DerivationLaws} `{ProtowireLaws}.

(** What the reader delivers is its stream. *)
Lemma Read_stream n r : Read n r =
  (bytes_of (stream r <$> seq 0 n), mkReader (seed r) (pos r + n)).
Proof.
  revert r. induction n as [|n IH]; intros [sd p]; cbn [Read].
  { cbn. by rewrite Nat.add_0_r. }
  rewrite IH. cbn [seed pos seq fmap list_fmap bytes_of]. f_equal; [f_equal|].
  - unfold stream. cbn. by rewrite Nat.add_0_r.
  - f_equal. rewrite <- fmap_S_seq, <- list_fmap_compose. apply list_fmap_ext. intros i x _.
    unfold stream. cbn. by rewrite Nat.add_succ_r.
  - f_equal. lia.
Qed.

Lemma string_get_app i (a b : string) :
  String.get i (a +:+ b) = if (i <? String.length a)%nat then String.get i a else String.get (i - String.length a) b.
Proof.
  revert i. induction a as [|c a IH]; intros i; string_simpl; [by rewrite Nat.sub_0_r|].
  destruct i as [|i]; [done|]. cbn [String.get String.length]. rewrite IH.
  change (S i <? S (String.length a))%nat with (i <? String.length a)%nat. done.
Qed.

(** The stream repeats the secret, so repeating the secret changes nothing:
    the key does not tell a secret from its repetition. *)
Lemma GenPrivKeyFromSecret_cyclic secret : (32 <= String.length secret)%nat ->
  GenPrivKeyFromSecret (secret +:+ secret) = GenPrivKeyFromSecret secret.
Proof.
  intros Hl. unfold GenPrivKeyFromSecret. rewrite str_length_app.
  rewrite !(proj2 (Nat.ltb_ge _ _)) by lia.
  erewrite GenerateKey_ext; [done|]. intros i. unfold stream, newDeterministicReader, seed_at. cbn [seed pos].
  rewrite str_length_app, string_get_app. set (n := String.length secret) in *. f_equal. cbn [Nat.add].
  pose proof (Nat.mod_upper_bound i (n + n) ltac:(lia)). pose proof (Nat.div_mod_eq i (n + n)).
  set (q := (i / (n + n))%nat) in *.
  destruct (Nat.ltb_spec (i mod (n + n)) n); f_equal.
  - apply (Nat.mod_unique _ _ (2 * q)); nia.
  - apply (Nat.mod_unique _ _ (2 * q + 1)); nia.
Qed.

Lemma GenPrivKeyFromSecret_run secret : (32 <= String.length secret)%nat -> exists pk sk,
  GenPrivKeyFromSecret secret = Ok (mkPrivKey sk) /\ keypair pk sk.
Proof.
  intros Hl. unfold GenPrivKeyFromSecret. rewrite (proj2 (Nat.ltb_ge _ _)) by done.
  destruct (GenerateKey_total (stream (newDeterministicReader secret))) as [[pk sk] E].
  exists pk, sk. rewrite E. split; [done|]. by eapply GenerateKey_pair.
Qed.

(** Every key pair is usable: the public key is recovered from the private one,
    verifies its signatures, has a 20-byte address and survives protobuf. *)
Lemma keypair_usable pk sk : keypair pk sk ->
  PrivKey_PubKey (mkPrivKey sk) = Ok (mkPubKey pk) /\
  String.length (Address (mkPubKey pk)) = 20%nat /\
  (forall msg, exists sig, PrivKey_Sign (mkPrivKey sk) msg = Ok sig /\ VerifySignature (mkPubKey pk) msg sig = true) /\
  PubKey_Unmarshal (PubKey_Marshal (mkPubKey pk)) = Some (Ok (mkPubKey pk)).
Proof.
  intros Hk. destruct (keypair_sizes _ _ Hk) as [Hp Hs], mode5_sizes as [Ep Es].
  assert (pk <> "") as Hne by (intros ->; cbn in Hp; lia).
  split_and!.
  - unfold PrivKey_PubKey, PrivKeySize. cbn [PrivKey_Key]. rewrite Hs, Es, Nat.eqb_refl. cbn [negb].
    by rewrite (Public_pair pk).
  - unfold Address. cbn [PubKey_Key]. rewrite bool_decide_false by done. apply AddressHash_length.
  - intros msg. destruct (pqc.Sign_Verify pk sk msg Hk) as (sig & E & Hv). exists sig.
    unfold PrivKey_Sign. cbn [PrivKey_Key]. by rewrite E.
  - unfold PubKey_Unmarshal, PubKey_Marshal. cbn [PubKey_Key].
    rewrite <- (string_app_nil_r (dilithiumwire.marshalDilithiumField1 pk)).
    rewrite dilithiumwire.unmarshal_marshal; [done| |by left].
    unfold kyberwire.slice_fits, kyberwire.str_len, two63. lia.
Qed.

(** Recovering a wallet.  For every valid mnemonic, passphrase and path,
    Derive returns 32 bytes of entropy and Generate makes a key from them
    without panicking; the key's public key can be recomputed, has a 20-byte
    address, verifies every message the private key signs, and is read back
    from its protobuf encoding. *)
Theorem mnemonic_wallet mnemonic passphrase hdPath :
  IsMnemonicValid mnemonic = true ->
  exists entropy sk pk,
    Derive mnemonic passphrase hdPath = Ok entropy /\ String.length entropy = 32%nat /\
    Generate entropy = Ok sk /\ PrivKey_PubKey sk = Ok pk /\
    String.length (Address pk) = 20%nat /\
    (forall msg, exists sig, PrivKey_Sign sk msg = Ok sig /\ VerifySignature pk msg sig = true) /\
    PubKey_Unmarshal (PubKey_Marshal pk) = Some (Ok pk).
Proof.
  intros Hm. unfold Derive. rewrite Hm. cbn [negb].
  destruct (hkdf_reads (NewSeed mnemonic passphrase) (hkdfDomainSeparator +:+ "/" +:+ hdPath) 32)
    as (entropy & -> & Hl); [lia|].
  destruct (GenPrivKeyFromSecret_run entropy) as (pk & sk & E & Hk); [lia|].
  exists entropy, (mkPrivKey sk), (mkPubKey pk). unfold Generate. rewrite E.
  split_and!; try done; apply (keypair_usable pk sk Hk).
Qed.
End Wallet.
End wallet.

(** ** Encrypted files and the hybrid exchange *)

Module kem.
Import kyber1024 hybrid.
Section Files.
Context `{KyberLaws} `{DerivationLaws} `{GcmLaws} `{X25519Laws}.

Lemma length_prefix n : 0 <= n < 65536 ->
  Z.lor (Z.shiftl (byte_val (byte_of (Z.shiftr n 8))) 8) (byte_val (byte_of n)) = n.
Proof.
  intros Hn. rewrite Z.shiftr_div_pow2 by lia. change (2 ^ 8) with 256.
  rewrite lwr.byte_val_of by (split; [apply Z.div_pos|apply Z.div_lt_upper_bound]; lia).
  unfold byte_of at 1. unfold byte_val. rewrite N_ascii_embedding by (pose proof (Z.mod_pos_bound n 256); lia).
  rewrite Z2N.id by (apply Z.mod_pos_bound; lia).
  rewrite Z.lor_comm, Z.shiftl_mul_pow2, (kyberwire.lor_disjoint (n mod 256) (n / 256) 8) by (cbn; try apply Z.mod_pos_bound; lia).
  change (2 ^ 8) with 256. pose proof (Z.div_mod n 256). lia.
Qed.

Lemma aes_key_32 key : String.length key = 32%nat -> aes_key_ok key = true.
Proof. unfold aes_key_ok. by intros ->. Qed.

(** A file encrypted to a public key comes back.  For a Kyber1024 key
    pair, a nonce of 12 bytes and randomness on which encapsulation succeeds,
    EncryptFile returns a blob, DecryptFile with the private key returns
    exactly the plaintext, and a blob cut anywhere before its ciphertext is
    refused. *)
Theorem file_roundtrip pub priv plaintext entropy nonce :
  kempair pub priv -> String.length nonce = NonceSize -> is_Some (kem_Encapsulate pub entropy) ->
  exists blob,
    EncryptFile pub plaintext entropy (Some nonce) = Ok blob /\
    DecryptFile priv blob = Ok plaintext /\
    (forall n, (n < 2 + 1568 + 12)%nat -> exists e, DecryptFile priv (str_take n blob) = Err e).
Proof.
  intros Hk Hn [[ct ss] Ee]. destruct (kem_parse _ _ Hk) as (Hp & Hs & _).
  destruct (kem_sizes _ _ _ _ Ee) as [Hct Hss]. unfold EncryptFile, Encapsulate.
  rewrite Hp, Ee. cbn [negb]. rewrite (aes_key_32 ss Hss). cbn [negb].
  eexists. split; [reflexivity|]. split.
  - unfold DecryptFile. rewrite length_prefix by lia.
    cbn [String.length]. rewrite !str_length_app. rewrite (proj2 (Z.ltb_ge _ _)) by (unfold NonceSize in *; lia).
    rewrite Nat2Z.id, str_take_app, str_drop_app. unfold Decapsulate.
    rewrite Hs, (kem_correct pub priv entropy ct ss Hk Ee). cbn [negb]. rewrite (aes_key_32 ss Hss). cbn [negb].
    rewrite str_length_app, (proj2 (Nat.ltb_ge _ _)) by lia.
    rewrite <- Hn, str_take_app, str_drop_app. by rewrite gcm_open_seal.
  - intros n Hlt. destruct n as [|[|n]]; [by eexists..|]. cbn [str_take]. unfold DecryptFile.
    rewrite length_prefix by lia. rewrite (proj2 (Z.ltb_lt _ _)); [by eexists|].
    cbn [String.length]. assert (Hle : forall k s, (String.length (str_take k s) <= k)%nat).
    { clear. induction k as [|k IH]; intros [|c s]; cbn; try lia. specialize (IH s). lia. }
    pose proof (Hle n (ct +:+ nonce +:+ gcm_Seal ss nonce plaintext)). lia.
Qed.

(** The two sides of the hybrid exchange.  When the initiator's message is
    answered, the initiator's session key comes from the Kyber secret alone
    and the responder's from the Kyber secret followed by 32 more bytes: the
    keys differ, or HKDF maps two different secrets to one key.  Only a
    responder that is not given the initiator's X25519 key derives the same
    key. *)
Theorem hybrid_sides pub priv entropy xe xe' res :
  kempair pub priv -> HybridEncapsulate pub entropy xe = Ok res ->
  HybridDecapsulate priv (KyberCiphertext res) "" xe' = Ok (SessionKey res) /\
  forall key, HybridDecapsulate priv (KyberCiphertext res) (X25519PubKey res) xe' = Ok key ->
    key <> SessionKey res \/
    exists ikm ikm', ikm <> ikm' /\
      hkdf ikm hybridHKDFInfo HybridSessionKeySize = hkdf ikm' hybridHKDFInfo HybridSessionKeySize.
Proof.
  intros Hk Er. destruct (kem_parse _ _ Hk) as (Hp & Hs & _).
  unfold HybridEncapsulate, Encapsulate in Er. rewrite Hp in Er. cbn [negb] in Er.
  destruct (kem_Encapsulate pub entropy) as [[ct ss]|] eqn:Ee; [|done].
  destruct (x_GenerateKey xe) as [xp|]; [|done].
  unfold deriveSessionKey in Er. rewrite string_app_nil_r in Er.
  destruct (hkdf ss hybridHKDFInfo HybridSessionKeySize) as [k|] eqn:Ek; [|done]. injection Er as <-.
  cbn [KyberCiphertext SessionKey X25519PubKey]. unfold HybridDecapsulate, Decapsulate.
  rewrite Hs, (kem_correct _ _ _ _ _ Hk Ee). cbn [negb]. split.
  - unfold responder_secret. cbn. unfold deriveSessionKey. by rewrite string_app_nil_r, Ek.
  - unfold responder_secret. rewrite x_public_size, Nat.eqb_refl. cbn [negb].
    destruct (x_GenerateKey xe') as [rp|]; [|done]. destruct (x_ECDH rp _) as [x|] eqn:Ex; [|done].
    apply x_shared_size in Ex. unfold deriveSessionKey.
    destruct (hkdf (ss +:+ x) hybridHKDFInfo HybridSessionKeySize) as [k'|] eqn:Ek'; [|done].
    intros key [= <-]. destruct (decide (k' = k)) as [->|]; [|by left]. right.
    exists (ss +:+ x), ss. split; [|congruence].
    intros E%(f_equal String.length). rewrite str_length_app in E. lia.
Qed.
End Files.
End kem.

(** ** Instances *)

Module keys_toy.
Import dilithium5 kyber1024 hybrid.

(** [n] bytes of [s], padded with zeros. *)
Definition cut (n : nat) (s : string) : string := str_take n (s +:+ zero_bytes n).

Lemma cut_length n s : String.length (cut n s) = n.
Proof. apply str_take_length. rewrite str_length_app, lwr.zero_bytes_length. lia. Qed.

(** A key is one byte, repeated; a signature is the padded message. *)
Definition one_byte (n : nat) (c : ascii) : string := Nat.iter n (String c) "".

Lemma one_byte_length n c : String.length (one_byte n c) = n.
Proof. induction n as [|n IH]; [done|]. cbn. by f_equal. Qed.

Definition key_pair (pk sk : string) : Prop := exists c, pk = one_byte 2592 c /\ sk = one_byte 4864 c.

Definition crypto : Crypto := {|
  sha3_256 s := cut 32 s;
  mode5_PublicKeySize := 2592;
  mode5_PrivateKeySize := 4864;
  mode5_SignatureSize := 4595;
  mode5_SignTo _ msg := cut 4595 msg;
  mode5_Verify _ msg sig := bool_decide (sig = cut 4595 msg);
|}.

#[export] Instance crypto_laws : @CryptoLaws crypto key_pair.
Proof.
  split.
  - intros pk sk (c & -> & ->). split; apply one_byte_length.
  - intros sk msg. apply cut_length.
  - intros. cbn. by apply bool_decide_true.
Qed.

Definition mode5keys : Mode5Keys := {|
  mode5_Public sk := match sk with String c _ => one_byte 2592 c | "" => "" end;
  mode5_GenerateKey r := Some (one_byte 2592 (r 0%nat), one_byte 4864 (r 0%nat));
  AddressHash bz := cut 20 bz;
|}.

#[export] Instance mode5keys_laws : @Mode5KeysLaws crypto mode5keys key_pair.
Proof.
  split; cbn [mode5keys crypto mode5_Public mode5_GenerateKey AddressHash mode5_PublicKeySize mode5_PrivateKeySize].
  - intros r pk sk [= <- <-]. by eexists.
  - by eexists.
  - intros r r' E. by rewrite E.
  - intros pk sk (c & -> & ->). change 4864%nat with (S 4863). cbn [one_byte Nat.iter]. done.
  - done.
  - intros. apply cut_length.
Qed.

Definition derivation : Derivation := {|
  IsMnemonicValid m := negb (bool_decide (m = ""));
  NewSeed m p := m +:+ p;
  hkdf ikm info n := if Z.of_nat n <=? 8160 then Some (cut n (ikm +:+ info)) else None;
|}.

#[export] Instance derivation_laws : @DerivationLaws derivation.
Proof.
  split. intros ikm info n Hn. cbn [derivation hkdf]. rewrite (proj2 (Z.leb_le _ _)) by done.
  eexists. split; [done|]. apply cut_length.
Qed.

Definition kyber : Kyber := {|
  kem_GenerateKeyPair e := Some ("pub", "priv");
  kem_DeriveKeyPair _ := ("pub", "priv");
  kem_pub_ok pk := bool_decide (pk = "pub");
  kem_priv_ok sk := bool_decide (sk = "priv");
  kem_Public _ := "pub";
  kem_Encapsulate _ e := Some (cut 1568 e, cut 32 (cut 1568 e));
  kem_Decapsulate _ ct := Some (cut 32 ct);
|}.

Definition kem_pair (pk sk : string) : Prop := pk = "pub" /\ sk = "priv".

#[export] Instance kyber_laws : @KyberLaws kyber kem_pair.
Proof.
  split; cbn [kyber kem_GenerateKeyPair kem_DeriveKeyPair kem_pub_ok kem_priv_ok kem_Public kem_Encapsulate kem_Decapsulate].
  - intros r pk sk [= <- <-]. done.
  - done.
  - intros pk sk [-> ->]. done.
  - intros pk sk r ct ss _ [= <- <-]. done.
  - intros pk r ct ss [= <- <-]. split; apply cut_length.
Qed.

Definition gcm : Gcm := {|
  gcm_Seal _ _ pt := String "t"%char pt;
  gcm_Open _ _ ct := match ct with String _ pt => Some pt | "" => None end;
|}.

#[export] Instance gcm_laws : @GcmLaws gcm.
Proof. done. Qed.

Definition x25519 : X25519 := {|
  x_GenerateKey e := Some e;
  x_PublicKey priv := cut 32 priv;
  x_ECDH priv pub := Some (cut 32 (priv +:+ pub));
|}.

#[export] Instance x25519_laws : @X25519Laws x25519.
Proof. split; [intros; apply cut_length|]. intros priv pub ss [= <-]. apply cut_length. Qed.

#[local] Existing Instance crypto.
#[local] Existing Instance mode5keys.
#[local] Existing Instance derivation.
#[local] Existing Instance kyber.
#[local] Existing Instance gcm.
#[local] Existing Instance x25519.
#[local] Existing Instance dilithiumwire.protowire.
#[local] Existing Instance dilithiumwire.protowire_laws.

Lemma mnemonic_wallet_witness :
  exists entropy sk pk,
    Derive "abandon ability" "" "m/44'/118'/0'/0/0" = Ok entropy /\ String.length entropy = 32%nat /\
    Generate entropy = Ok sk /\ PrivKey_PubKey sk = Ok pk /\
    String.length (Address pk) = 20%nat /\
    (forall msg, exists sig, PrivKey_Sign sk msg = Ok sig /\ VerifySignature pk msg sig = true) /\
    PubKey_Unmarshal (PubKey_Marshal pk) = Some (Ok pk).
Proof. apply (wallet.mnemonic_wallet (keypair := key_pair) "abandon ability" "" "m/44'/118'/0'/0/0"). reflexivity. Defined.

Lemma file_roundtrip_witness : exists blob,
  EncryptFile "pub" "secret" "e" (Some "twelve-bytes") = Ok blob /\
  DecryptFile "priv" blob = Ok "secret" /\
  (forall n, (n < 2 + 1568 + 12)%nat -> exists e, DecryptFile "priv" (str_take n blob) = Err e).
Proof.
  apply (kem.file_roundtrip (kempair := kem_pair) "pub" "priv" "secret" "e" "twelve-bytes");
    [done|reflexivity|by eexists].
Defined.

Lemma hybrid_sides_witness : exists res,
  HybridEncapsulate "pub" "e" "x" = Ok res /\
  HybridDecapsulate "priv" (KyberCiphertext res) "" "y" = Ok (SessionKey res) /\
  forall key, HybridDecapsulate "priv" (KyberCiphertext res) (X25519PubKey res) "y" = Ok key ->
    key <> SessionKey res \/
    exists ikm ikm', ikm <> ikm' /\
      hkdf ikm hybridHKDFInfo HybridSessionKeySize = hkdf ikm' hybridHKDFInfo HybridSessionKeySize.
Proof.
  eexists. split; [reflexivity|].
  apply (kem.hybrid_sides (kempair := kem_pair) "pub" "priv" "e" "x" "y"); [done|reflexivity].
Defined.
End keys_toy.
