(* ===== verification/ShardNet.v ===== *)
(** ShardNet: x/privacy/tfhe/shard_store.go and shard_distributor.go.

    A node keeps shards and their signatures in files, serves them over HTTP
    behind a rate limiter, places the shards of a new ciphertext on the nodes
    of the cluster, and reconstructs a ciphertext from its own shards and
    those it fetches.  The files of a node are a map from (directory, file
    name) to contents; a write can fail ([Disk]).  The network is a parameter:
    what a GET to a peer answers.  What is sent to peers is an outbox: the code
    ignores whether sending succeeded.  JSON bodies are decoded records
    ([None]: a body that is not valid JSON or longer than 64 KB).

    Theorems: the limiter's bound; the exact effect of an upload, and that
    anybody can make one that is stored.  Placement, delivery and
    reconstruction are proved in Cluster.v. *)

From Stdlib Require Import ZArith Lia Ascii String.
From stdpp Require Import base gmap sets list strings fin_maps sorting pretty.
From S2P Require Import Prelude Sdk Pqc Lwr Wire Shards Keys.

Open Scope Z_scope.
Open Scope go_scope.

(** ** shard_store.go *)

(** Whether the operating system lets the node create a directory, write a
    file or remove a directory. *)
Class Disk : Type := {
  mkdir_ok : string -> bool;
  write_ok : string * string -> bool;
  remove_ok : string -> bool;
}.

Module shardstore.
Import shards.

Notation Files := (gmap (string * string) string).

(** [fmt.Sprintf("%02d", i)]. *)
Definition pad2 (i : Z) : string :=
  let s := pretty i in if (String.length s =? 1)%nat then String "0"%char s else s.

Definition shardDir (commitmentHash : string) : string := pqc.EncodeToString commitmentHash.

Definition shardPath (commitmentHash : string) (shardIndex : Z) : string * string :=
  (shardDir commitmentHash, pad2 shardIndex +:+ ".shard").

Definition signaturePath (commitmentHash : string) (shardIndex : Z) : string * string :=
  (shardDir commitmentHash, pad2 shardIndex +:+ ".sig").

Definition is_index (i : Z) : bool := (0 <=? i) && (i <? Z.of_nat ErasureTotalShards).

(** Byte order on names. *)
Definition str_le (a b : string) : Prop := String.leb a b = true.

#[export] Instance str_le_dec : RelDecision str_le.
Proof. intros a b. unfold str_le. apply _. Defined.

Section Store.
Context `{Disk}.

Definition write_file (path : string * string) (data : string) : M Files unit := modify (insert path data).

Definition StoreShard (commitmentHash : string) (shardIndex : Z) (data : string) : M Files unit :=
  if bool_decide (commitmentHash = "") then throw (Errorf "shard_store: commitmentHash must not be empty") else
  if negb (is_index shardIndex) then throw (Errorf "shard_store: invalid shard index") else
  if bool_decide (data = "") then throw (Errorf "shard_store: shard data must not be empty") else
  if negb (mkdir_ok (shardDir commitmentHash)) then throw (Errorf "shard_store: failed to create shard directory") else
  let path := shardPath commitmentHash shardIndex in
  if negb (write_ok path) then throw (Errorf "shard_store: failed to write shard") else
  write_file path data.

Definition LoadShard (commitmentHash : string) (shardIndex : Z) (fs : Files) : option string :=
  fs !! shardPath commitmentHash shardIndex.

Definition HasShard (commitmentHash : string) (shardIndex : Z) (fs : Files) : bool :=
  bool_decide (is_Some (fs !! shardPath commitmentHash shardIndex)).

(** The directory of an empty commitment is the base directory. *)
Definition DeleteShards (commitmentHash : string) : M Files unit :=
  let dir := shardDir commitmentHash in
  if negb (remove_ok dir) then throw (Errorf "shard_store: failed to delete shards") else
  modify (fun fs => if bool_decide (dir = "") then ∅ else filter (fun kv => kv.1.1 <> dir) fs).

(** [fmt.Sscanf(name, "%02d.shard", &idx)]: at most two characters for the
    number, then the literal; what follows is not read. *)
Definition scan_index (name : string) : option Z :=
  let num n := match strconv.Atoi (str_take n name) with
               | Some i => if String.prefix ".shard" (str_drop n name) then Some i else None
               | None => None
               end in
  match num 2%nat with Some i => Some i | None => num 1%nat end.

(** os.ReadDir lists the entries in the order of their names. *)
Definition dir_entries (dir : string) (fs : Files) : list string :=
  merge_sort str_le
    (omap (fun kv => if bool_decide (kv.1.1 = dir) then Some kv.1.2 else None) (map_to_list fs)).

Definition ListLocalShards (commitmentHash : string) (fs : Files) : list Z :=
  omap scan_index (dir_entries (shardDir commitmentHash) fs).

Definition StoreShardSignature (commitmentHash : string) (shardIndex : Z) (sig : string) : M Files unit :=
  if bool_decide (sig = "") then ret tt else
  if negb (mkdir_ok (shardDir commitmentHash)) then throw (Errorf "shard_store: failed to create shard directory for signature") else
  let path := signaturePath commitmentHash shardIndex in
  if negb (write_ok path) then throw (Errorf "shard_store: failed to write signature") else
  write_file path sig.

Definition LoadShardSignature (commitmentHash : string) (shardIndex : Z) (fs : Files) : option string :=
  fs !! signaturePath commitmentHash shardIndex.
End Store.

(** *** Metadata *)

Definition ReplicationFactor : nat := 4.

Record TFHEShardMeta : Type := mkTFHEShardMeta {
  CommitmentHash : string;
  OriginalLen : Z;
  ShardNodeMap : gmap Z (list string);
  MerkleRoot : string;
  ProposerPubkey : string;
}.
End shardstore.

(** ** The rate limiter *)

Module ratelimit.

Record rateBucket : Type := mkRateBucket {
  count : Z;
  resetAt : Z;
}.

Record ShardRateLimiter : Type := mkShardRateLimiter {
  clients : gmap string rateBucket;
  maxRequests : Z;
  window : Z;
}.

Definition NewShardRateLimiter (maxRequests window : Z) : ShardRateLimiter :=
  mkShardRateLimiter ∅ maxRequests window.

Definition set_client (key : string) (b : rateBucket) (r : ShardRateLimiter) : ShardRateLimiter :=
  mkShardRateLimiter (<[key := b]> (clients r)) (maxRequests r) (window r).

(** [now] is the clock's reading, in nanoseconds. *)
Definition Allow (key : string) (now : Z) (r : ShardRateLimiter) : bool * ShardRateLimiter :=
  match clients r !! key with
  | Some b =>
      if resetAt b <? now then (true, set_client key (mkRateBucket 1 (now + window r)) r) else
      if maxRequests r <=? count b then (false, r) else
      (true, set_client key (mkRateBucket (count b + 1) (resetAt b)) r)
  | None => (true, set_client key (mkRateBucket 1 (now + window r)) r)
  end.
End ratelimit.

(** ** shard_distributor.go *)

Module distributor.
Import shards shardstore ratelimit.

Record ShardUpload : Type := mkShardUpload {
  CommitmentHex : string;
  up_Index : Z;
  DataHex : string;
  MerkleRootHex : string;
  MerkleProofHex : string;
  ProposerPubkeyHex : string;
  SignatureHex : string;
}.

Record Request : Type := mkRequest {
  Method : string;
  RemoteAddr : string;
  Authorization : string;
  query_commitment : string;
  query_index : string;
  Body : option ShardUpload;
}.

Record Response : Type := mkResponse {
  StatusCode : Z;
  RespBody : string;
  XShardSignature : string;
}.

Definition StatusOK : Z := 200.
Definition StatusCreated : Z := 201.
Definition StatusBadRequest : Z := 400.
Definition StatusUnauthorized : Z := 401.
Definition StatusForbidden : Z := 403.
Definition StatusNotFound : Z := 404.
Definition StatusMethodNotAllowed : Z := 405.
Definition StatusTooManyRequests : Z := 429.
Definition StatusInternalServerError : Z := 500.

Definition http_Error (msg : string) (code : Z) : Response := mkResponse code msg "".

(** The configuration of a node's distributor. *)
Record ShardDistributor : Type := mkShardDistributor {
  nodeID : string;
  signingPrivKey : string;
  signingPubKey : string;
}.

Definition NewShardDistributor (nodeID : string) : ShardDistributor * ShardRateLimiter :=
  (mkShardDistributor nodeID "" "", NewShardRateLimiter 60 60000000000).

(** What the running node changes: its files, its limiter, and what it sent. *)
Record Node : Type := mkNode {
  files : Files;
  rateLimiter : ShardRateLimiter;
  outbox : list (string * ShardUpload);
}.

Definition on_files {A} (c : M Files A) : M Node A := fun s =>
  let '(r, fs) := c (files s) in (r, mkNode fs (rateLimiter s) (outbox s)).

Definition send (peer : string) (upload : ShardUpload) : M Node unit :=
  modify (fun s => mkNode (files s) (rateLimiter s) (outbox s ++ [(peer, upload)])).

Definition lift {S A} (o : outcome A) : M S A :=
  match o with Ok a => ret a | Err e => throw e | Panic => panic end.

Section Handlers.
Context `{Crypto} `{Sha256} `{Disk}.

Definition WithSigningKey (PrivateKey PublicKey : string) (d : ShardDistributor) : outcome ShardDistributor :=
  if negb (String.length PrivateKey =? mode5_PrivateKeySize)%nat
  then Err (Errorf "shard_distributor: invalid Dilithium5 private key length") else
  if negb (String.length PublicKey =? mode5_PublicKeySize)%nat
  then Err (Errorf "shard_distributor: invalid Dilithium5 public key length") else
  Ok (mkShardDistributor (nodeID d) PrivateKey PublicKey).

Definition distributor_ProposerPubkey (d : ShardDistributor) : string := signingPubKey d.

Definition signShardData (d : ShardDistributor) (shardData : string) : outcome string :=
  if bool_decide (signingPrivKey d = "") then Ok "" else
  match pqc.Sign (Sum256 shardData) (signingPrivKey d) with
  | Ok sig => Ok sig
  | Err e => Err (Wrapf "shard_distributor: Dilithium5 sign failed" e)
  | Panic => Panic
  end.

Definition handleGetShard (r : Request) (fs : Files) : Response :=
  match hex.DecodeString (query_commitment r) with
  | None => http_Error "invalid commitment" StatusBadRequest
  | Some commitment =>
      match strconv.Atoi (query_index r) with
      | None => http_Error "invalid index" StatusBadRequest
      | Some index =>
          match LoadShard commitment index fs with
          | None => http_Error "shard not found" StatusNotFound
          | Some data =>
              let sig := match LoadShardSignature commitment index fs with
                         | Some sig => pqc.EncodeToString sig
                         | None => ""
                         end in
              mkResponse StatusOK data sig
          end
      end
  end.

(** Step 1 of handlePostShard: [None] when the check passes or there is no
    proposer key. *)
Definition check_signature (upload : ShardUpload) (shardData : string) : option Response :=
  if bool_decide (ProposerPubkeyHex upload = "") then None else
  match hex.DecodeString (ProposerPubkeyHex upload) with
  | None => Some (http_Error "invalid proposer_pubkey_hex" StatusBadRequest)
  | Some proposerPubkey =>
      if negb (String.length proposerPubkey =? mode5_PublicKeySize)%nat
      then Some (http_Error "invalid proposer_pubkey_hex" StatusBadRequest) else
      if bool_decide (SignatureHex upload = "")
      then Some (http_Error "signature_hex is required when proposer_pubkey_hex is present" StatusBadRequest) else
      match hex.DecodeString (SignatureHex upload) with
      | None => Some (http_Error "invalid signature_hex" StatusBadRequest)
      | Some sigBytes =>
          if negb (String.length sigBytes =? mode5_SignatureSize)%nat
          then Some (http_Error "invalid signature_hex" StatusBadRequest) else
          if negb (pqc.Verify (Sum256 shardData) sigBytes proposerPubkey)
          then Some (http_Error "Dilithium5 signature verification failed" StatusForbidden) else None
      end
  end.

Definition hashSize : nat := 32.

(** The hashes of a flat proof. *)
Definition split_proof (depth : nat) (proofBytes : string) : list string :=
  (fun i => str_take hashSize (str_drop (i * hashSize) proofBytes)) <$> seq 0 depth.

(** Step 2: the proof against the root of the upload. *)
Definition check_proof (upload : ShardUpload) (shardData merkleRootBytes merkleProofBytes : string) : outcome (option Response) :=
  match log2 (Z.of_nat ErasureTotalShards) with
  | None => Panic
  | Some depth =>
      if negb (Z.of_nat (String.length merkleProofBytes) =? depth * Z.of_nat hashSize)
      then Ok (Some (http_Error "merkle proof must be 128 bytes" StatusBadRequest)) else
      let proof := mkMerkleProof (up_Index upload) (split_proof (Z.to_nat depth) merkleProofBytes) in
      match VerifyProof merkleRootBytes (up_Index upload) shardData (Some proof) with
      | Ok _ => Ok None
      | Err _ => Ok (Some (http_Error "Merkle proof verification failed" StatusForbidden))
      | Panic => Panic
      end
  end.

Definition handlePostShard (body : option ShardUpload) : M Files Response :=
  match body with
  | None => ret (http_Error "invalid JSON body" StatusBadRequest)
  | Some upload =>
  match hex.DecodeString (CommitmentHex upload) with
  | None | Some "" => ret (http_Error "invalid commitment_hex" StatusBadRequest)
  | Some commitment =>
  match hex.DecodeString (DataHex upload) with
  | None | Some "" => ret (http_Error "invalid data_hex" StatusBadRequest)
  | Some shardData =>
  match hex.DecodeString (MerkleRootHex upload) with
  | None => ret (http_Error "invalid merkle_root_hex (must be 32 bytes)" StatusBadRequest)
  | Some merkleRootBytes =>
  if negb (String.length merkleRootBytes =? 32)%nat
  then ret (http_Error "invalid merkle_root_hex (must be 32 bytes)" StatusBadRequest) else
  match hex.DecodeString (MerkleProofHex upload) with
  | None => ret (http_Error "invalid merkle_proof_hex" StatusBadRequest)
  | Some merkleProofBytes =>
  if negb (is_index (up_Index upload)) then ret (http_Error "index out of range" StatusBadRequest) else
  match check_signature upload shardData with
  | Some resp => ret resp
  | None =>
      let! bad := lift (check_proof upload shardData merkleRootBytes merkleProofBytes) in
      match bad with
      | Some resp => ret resp
      | None =>
          let! stored := try (StoreShard commitment (up_Index upload) shardData) in
          match stored with
          | inr _ => ret (http_Error "failed to store shard" StatusInternalServerError)
          | inl _ => ret (mkResponse StatusCreated "" "")
          end
      end
  end end end end end end.

(** The route /shard with its middlewares, from the outermost in. *)
Definition rateLimitMiddleware (now : Z) (next : Request -> M Node Response) (r : Request) : M Node Response := fun s =>
  let '(ok, lim) := Allow (RemoteAddr r) now (rateLimiter s) in
  let s := mkNode (files s) lim (outbox s) in
  if ok then next r s else (Ok (http_Error "rate limit exceeded" StatusTooManyRequests), s).

Definition authMiddleware (next : Request -> M Node Response) (r : Request) : M Node Response :=
  if bool_decide (Authorization r = "") then ret (http_Error "missing Authorization header" StatusUnauthorized) else
  if (String.length (Authorization r) <=? 7)%nat then ret (http_Error "malformed Authorization header" StatusUnauthorized) else
  next r.

Definition shard_route (r : Request) : M Node Response :=
  if bool_decide (Method r = "GET") then reads (fun s => handleGetShard r (files s)) else
  if bool_decide (Method r = "POST") then on_files (handlePostShard (Body r)) else
  ret (http_Error "method not allowed" StatusMethodNotAllowed).

Definition serve_shard (now : Z) : Request -> M Node Response :=
  rateLimitMiddleware now (authMiddleware shard_route).

(** The route /shardmeta: the indices as JSON. *)
Definition serve_shardmeta (now : Z) : Request -> M Node (Response + list Z) := fun r s =>
  let '(ok, lim) := Allow (RemoteAddr r) now (rateLimiter s) in
  let s := mkNode (files s) lim (outbox s) in
  if negb ok then (Ok (inl (http_Error "rate limit exceeded" StatusTooManyRequests)), s) else
  match hex.DecodeString (query_commitment r) with
  | None => (Ok (inl (http_Error "invalid commitment" StatusBadRequest)), s)
  | Some commitment => (Ok (inr (ListLocalShards commitment (files s))), s)
  end.
End Handlers.

(** *** Placement *)

(** strings.TrimSpace on ASCII. *)
Fixpoint trim_left (s : string) : string :=
  match s with
  | String c t => if is_space c then trim_left t else s
  | "" => ""
  end.

Fixpoint trim_right (s : string) : string :=
  match s with
  | String c t => if all_space s then "" else String c (trim_right t)
  | "" => ""
  end.

Definition TrimSpace (s : string) : string := trim_right (trim_left s).

(** [strings.Split(s, ",")]. *)
Fixpoint split_comma (acc s : string) : list string :=
  match s with
  | "" => [acc]
  | String c s => if Ascii.eqb c "," then acc :: split_comma "" s else split_comma (acc +:+ String c "") s
  end.

(** The environment variables the distributor reads. *)
Record Env : Type := mkEnv {
  TFHE_NODE_ID : string;
  TFHE_PEERS : string;
}.

Definition local_nodeID (env : Env) (d : ShardDistributor) : string :=
  if bool_decide (nodeID d = "") then
    if bool_decide (TFHE_NODE_ID env = "") then "local_node" else TFHE_NODE_ID env
  else nodeID d.

Definition add_peer (m : gset string) (p : string) : gset string :=
  if bool_decide (TrimSpace p = "") then m else {[ TrimSpace p ]} ∪ m.

Definition clusterMap (env : Env) (node : string) (peerAddrs : list string) : gset string :=
  let m := foldl add_peer {[ node ]} peerAddrs in
  if bool_decide (TFHE_PEERS env = "") then m else foldl add_peer m (split_comma "" (TFHE_PEERS env)).

Definition clusterNodes (env : Env) (node : string) (peerAddrs : list string) : list string :=
  merge_sort str_le (elements (clusterMap env node peerAddrs)).

Section Distribute.
Context `{Crypto} `{Sha256} `{Disk}.

(** [int(hArr[0]) % len(clusterNodes)]. *)
Definition primaryIdx (commitmentHash : string) (index : Z) (n : nat) : nat :=
  Z.to_nat (byte_at (Sum256 (pqc.EncodeToString commitmentHash +:+ "_" +:+ pretty index)) 0) mod n.

Definition assignedNodes (nodes : list string) (commitmentHash : string) (index : Z) : list string :=
  let replFactor := Nat.min ReplicationFactor (length nodes) in
  let primary := primaryIdx commitmentHash index (length nodes) in
  (fun r => default "" (nodes !! ((primary + r) mod length nodes)%nat)) <$> seq 0 replFactor.

(** Each hash is copied into its 32 bytes of the output. *)
Definition serializeProof (proof : MerkleProof) : string :=
  foldr (fun h rest => str_take hashSize (h +:+ zero_bytes hashSize) +:+ rest) "" (Path proof).

(** The body of the request sendShardToPeer makes. *)
Definition shard_upload (commitmentHash : string) (shardIndex : Z) (data merkleRoot merkleProofBytes proposerPubkey signature : string) : ShardUpload :=
  mkShardUpload (pqc.EncodeToString commitmentHash) shardIndex (pqc.EncodeToString data)
    (pqc.EncodeToString merkleRoot) (pqc.EncodeToString merkleProofBytes)
    (if (String.length proposerPubkey =? mode5_PublicKeySize)%nat then pqc.EncodeToString proposerPubkey else "")
    (if (String.length signature =? mode5_SignatureSize)%nat then pqc.EncodeToString signature else "").

Definition sendShardToPeer (peerAddr commitmentHash : string) (shardIndex : Z) (data merkleRoot merkleProofBytes proposerPubkey signature : string) : M Node unit :=
  send peerAddr (shard_upload commitmentHash shardIndex data merkleRoot merkleProofBytes proposerPubkey signature).

(** The loop body of DistributeShards; returns the nodes of the shard. *)
Definition distribute_one (d : ShardDistributor) (node : string) (nodes : list string) (tree : MerkleTree)
    (merkleRoot commitmentHash : string) (sr : ShardResult) : M Node (list string) :=
  let! proof := map_err (Wrapf "distributor: proof generation failed") (lift (ProofForShard tree (Index sr))) in
  let proofBytes := serializeProof proof in
  let! sig := map_err (Wrapf "distributor: signing shard failed") (lift (signShardData d (Data sr))) in
  let assigned := assignedNodes nodes commitmentHash (Index sr) in
  when (existsb (String.eqb node) assigned)
    (map_err (Wrapf "distributor: failed to store shard locally") (on_files (StoreShard commitmentHash (Index sr) (Data sr))) ;;!
     map_err (Wrapf "distributor: failed to store signature") (on_files (StoreShardSignature commitmentHash (Index sr) sig))) ;;!
  for_each assigned (fun peerAddr =>
    when (negb (String.eqb peerAddr node))
      (sendShardToPeer peerAddr commitmentHash (Index sr) (Data sr) merkleRoot proofBytes (signingPubKey d) sig)) ;;!
  ret assigned.

Fixpoint distribute_loop (d : ShardDistributor) (node : string) (nodes : list string) (tree : MerkleTree)
    (merkleRoot commitmentHash : string) (shs : list ShardResult) (m : gmap Z (list string)) : M Node (gmap Z (list string)) :=
  match shs with
  | [] => ret m
  | sr :: shs =>
      let! assigned := distribute_one d node nodes tree merkleRoot commitmentHash sr in
      distribute_loop d node nodes tree merkleRoot commitmentHash shs (<[Index sr := assigned]> m)
  end.

Definition DistributeShards (env : Env) (d : ShardDistributor) (shs : list ShardResult) (commitmentHash : string)
    (peerAddrs : list string) : M Node TFHEShardMeta :=
  if negb (length shs =? ErasureTotalShards)%nat then throw (Errorf "distributor: wrong number of shards") else
  let! tree := map_err (Wrapf "distributor: Merkle tree construction failed") (lift (BuildMerkleTree shs)) in
  let! merkleRoot := lift (Root tree) in
  let node := local_nodeID env d in
  let nodes := clusterNodes env node peerAddrs in
  let! m := distribute_loop d node nodes tree merkleRoot commitmentHash shs ∅ in
  ret (mkTFHEShardMeta commitmentHash 0 m merkleRoot (signingPubKey d)).

(** RepairShards looks for shards that are under-replicated and loads them, and
    does nothing with them: the indices it would repair. *)
Definition RepairShards (meta : option TFHEShardMeta) (fs : Files) : list Z :=
  match meta with
  | None => []
  | Some meta =>
      filter (fun idx => (length (default [] (ShardNodeMap meta !! idx)) < ReplicationFactor)%nat /\
                         is_Some (LoadShard (CommitmentHash meta) idx fs))
        (Z.of_nat <$> seq 0 ErasureTotalShards)
  end.
End Distribute.

(** *** Reconstruction *)

Section Reconstruct.
Context `{Crypto} `{Sha256} `{ReedSolomon} `{Disk}.

(** What a GET request to a peer for a shard answers: [None] when the request
    fails. *)
Context (http_get : string -> string -> Z -> option Response).

Definition maxBody : nat := Z.to_nat 65536.

Definition fetchShardFromPeer (peerAddr commitmentHash : string) (shardIndex : Z) : outcome (string * string) :=
  match http_get peerAddr (pqc.EncodeToString commitmentHash) shardIndex with
  | None => Err (Errorf "peer fetch: HTTP request failed")
  | Some resp =>
      if StatusCode resp =? StatusNotFound then Err (Errorf "peer fetch: shard not found on peer") else
      if negb (StatusCode resp =? StatusOK) then Err (Errorf "peer fetch: unexpected status") else
      Ok (str_take maxBody (RespBody resp), default "" (hex.DecodeString (XShardSignature resp)))
  end.

(** Whether the code keeps a fetched shard: the signature counts only when it
    has the right length. *)
Definition accept_fetched (meta : TFHEShardMeta) (data sig : string) : bool :=
  let hasPubKey := (String.length (ProposerPubkey meta) =? mode5_PublicKeySize)%nat in
  if hasPubKey && (String.length sig =? mode5_SignatureSize)%nat
  then pqc.Verify (Sum256 data) sig (ProposerPubkey meta) else true.

Fixpoint collect_local (commitmentHash : string) (idxs : list Z) (collected : list ShardResult) (fs : Files) : list ShardResult :=
  match idxs with
  | [] => collected
  | idx :: idxs =>
      let collected := match LoadShard commitmentHash idx fs with
                       | Some data => collected ++ [mkShardResult idx data]
                       | None => collected
                       end in
      if (ErasureDataShards <=? length collected)%nat then collected else collect_local commitmentHash idxs collected fs
  end.

Fixpoint try_peers (d : ShardDistributor) (meta : TFHEShardMeta) (idx : Z) (peers : list string) : M Files (option ShardResult) :=
  match peers with
  | [] => ret None
  | peer :: peers =>
      if String.eqb peer (nodeID d) then try_peers d meta idx peers else
      match fetchShardFromPeer peer (CommitmentHash meta) idx with
      | Ok (data, sig) =>
          if accept_fetched meta data sig then
            try (StoreShard (CommitmentHash meta) idx data) ;;! ret (Some (mkShardResult idx data))
          else try_peers d meta idx peers
      | _ => try_peers d meta idx peers
      end
  end.

Fixpoint collect_remote (d : ShardDistributor) (meta : TFHEShardMeta) (have : list Z) (idxs : list Z) (collected : list ShardResult) : M Files (list ShardResult) :=
  match idxs with
  | [] => ret collected
  | idx :: idxs =>
      if (ErasureDataShards <=? length collected)%nat then ret collected else
      if bool_decide (idx ∈ have) then collect_remote d meta have idxs collected else
      let! got := try_peers d meta idx (default [] (ShardNodeMap meta !! idx)) in
      collect_remote d meta have idxs (match got with Some sr => collected ++ [sr] | None => collected end)
  end.

Definition all_indices : list Z := Z.of_nat <$> seq 0 ErasureTotalShards.

Definition ReconstructCiphertext (d : ShardDistributor) (meta : option TFHEShardMeta) : M Files string :=
  match meta with
  | None => throw (Errorf "distributor: shard meta is nil")
  | Some meta =>
      let! collected := reads (collect_local (CommitmentHash meta) all_indices []) in
      let! collected :=
        (if (length collected <? ErasureDataShards)%nat
         then collect_remote d meta (Index <$> collected) all_indices collected else ret collected) in
      if (length collected <? ErasureDataShards)%nat then throw (Errorf "distributor: cannot reconstruct")
      else lift (ReconstructFromResults collected (OriginalLen meta))
  end.
End Reconstruct.

(** selectRandomPeers: [js] are the random numbers of the shuffle, one per
    position from the last to the second. *)
Fixpoint shuffle (js : list nat) (i : nat) (cp : list string) : list string :=
  match i, js with
  | S i', j :: js =>
      let j := (j mod (S i))%nat in
      shuffle js i' (match cp !! i, cp !! j with
                     | Some x, Some y => <[j := x]> (<[i := y]> cp)
                     | _, _ => cp
                     end)
  | _, _ => cp
  end.

Definition selectRandomPeers (js : list nat) (peers : list string) (n : Z) : list string :=
  if (n <=? 0) || (length peers =? 0)%nat then [] else
  if Z.of_nat (length peers) <=? n then peers else
  merge_sort str_le (take (Z.to_nat n) (shuffle js (length peers - 1) peers)).
End distributor.

(** ** The bound of the limiter *)

Module ratelimit_theorems.
Import ratelimit.

(** Requests of clients at times, answered one after the other: each with
    whether it was let through. *)
Fixpoint run (evs : list (string * Z)) (r : ShardRateLimiter) : list (string * Z * bool) * ShardRateLimiter :=
  match evs with
  | [] => ([], r)
  | (key, now) :: evs =>
      let '(ok, r) := Allow key now r in
      let '(log, r) := run evs r in ((key, now, ok) :: log, r)
  end.

(** The requests of [key] let through between [lo] and [hi]. *)
Definition admitted (key : string) (lo hi : Z) (log : list (string * Z * bool)) : Z :=
  lsum (fun e => if bool_decide (e.1.1 = key) && (lo <=? e.1.2) && (e.1.2 <=? hi) && e.2 then 1 else 0) log.

Definition ordered (evs : list (string * Z)) : Prop := StronglySorted (fun a b => a.2 <= b.2) evs.

(** [key] has made [c] requests in a bucket that lasts until [rst]. *)
Definition bucket (key : string) (c rst : Z) (r : ShardRateLimiter) : Prop :=
  clients r !! key = Some (mkRateBucket c rst).

Section Bound.
Context (key : string) (lo hi : Z).
Implicit Types r : ShardRateLimiter.

Lemma Allow_params k now r :
  maxRequests (snd (Allow k now r)) = maxRequests r /\ window (snd (Allow k now r)) = window r.
Proof. unfold Allow. repeat case_match; done. Qed.

Lemma Allow_other k now r : k <> key -> clients (snd (Allow k now r)) !! key = clients r !! key.
Proof. intros. unfold Allow. repeat case_match; cbn; try done; by rewrite lookup_insert_ne. Qed.

(** The three cases of a request of [key]. *)
Lemma Allow_key now r :
  (exists r', Allow key now r = (true, r') /\ bucket key 1 (now + window r) r' /\
     (clients r !! key = None \/ exists b, clients r !! key = Some b /\ resetAt b < now)) \/
  (exists b, clients r !! key = Some b /\ now <= resetAt b /\ maxRequests r <= count b /\ Allow key now r = (false, r)) \/
  (exists b r', clients r !! key = Some b /\ now <= resetAt b /\ count b < maxRequests r /\
     Allow key now r = (true, r') /\ bucket key (count b + 1) (resetAt b) r').
Proof.
  unfold Allow, bucket. destruct (clients r !! key) as [b|] eqn:E.
  - destruct (Z.ltb_spec (resetAt b) now).
    + left. eexists. split_and!; [done|cbn; by rewrite lookup_insert_eq|eauto].
    + destruct (Z.leb_spec (maxRequests r) (count b)); [right; left; eauto|].
      right. right. exists b. eexists. split_and!; [done..|]. cbn. by rewrite lookup_insert_eq.
  - left. eexists. split_and!; [done|cbn; by rewrite lookup_insert_eq|by left].
Qed.

Lemma admitted_cons k now ok log :
  admitted key lo hi ((k, now, ok) :: log) =
    (if bool_decide (k = key) && (lo <=? now) && (now <=? hi) && ok then 1 else 0) + admitted key lo hi log.
Proof. done. Qed.

Lemma run_cons k now evs r :
  fst (run ((k, now) :: evs) r) =
    (k, now, fst (Allow k now r)) :: fst (run evs (snd (Allow k now r))).
Proof. cbn [run]. destruct (Allow k now r) as [ok r'] eqn:E. cbn [fst snd]. by destruct (run evs r'). Qed.

Lemma admitted_step k now evs r :
  admitted key lo hi (fst (run ((k, now) :: evs) r)) =
    (if bool_decide (k = key) && (lo <=? now) && (now <=? hi) && fst (Allow k now r) then 1 else 0) +
    admitted key lo hi (fst (run evs (snd (Allow k now r)))).
Proof. by rewrite run_cons, admitted_cons. Qed.

(** Requests of [key] after [hi] do not count. *)
Lemma admitted_late evs r : Forall (fun e => hi < e.2) evs -> admitted key lo hi (fst (run evs r)) = 0.
Proof.
  revert r. induction evs as [|[k now] evs IH]; intros r Hl; [done|]. inversion Hl as [|? ? Hn Hl']; subst.
  rewrite admitted_step, IH by done. cbn in Hn. rewrite (proj2 (Z.leb_gt now hi)) by done.
  by rewrite !andb_false_r.
Qed.

(** Splits a request of another client off. *)
Ltac other_client k H :=
  destruct (decide (k = key)) as [->|H];
  [rewrite bool_decide_true by done; cbn [andb]|rewrite bool_decide_false by done; cbn [andb]].

(** Inside one bucket that covers the interval. *)
Lemma one_bucket evs : forall r c rst, ordered evs -> bucket key c rst r -> hi <= rst -> c <= maxRequests r ->
  admitted key lo hi (fst (run evs r)) <= maxRequests r - c.
Proof.
  induction evs as [|[k now] evs IH]; intros r c rst Ho Hb Hr Hc; [cbn; unfold admitted, lsum; cbn; lia|].
  apply StronglySorted_cons in Ho as [Hhd Ho]. rewrite admitted_step.
  destruct (Z.ltb_spec hi now) as [Hlate|Hin].
  { rewrite (proj2 (Z.leb_gt now hi)), !andb_false_r by done. cbn [andb].
    rewrite admitted_late; [lia|]. eapply Forall_impl; [exact Hhd|]. cbn. intros; lia. }
  pose proof (Allow_params k now r) as [Em _]. other_client k Hk.
  - destruct (Allow_key now r) as [(r' & E & Hb' & [Hn|(b & Hn & Hlt)])|[(b & Hn & Hle & Hm & E)|(b & r' & Hn & Hle & Hm & E & Hb')]];
      unfold bucket in Hb; rewrite Hb in Hn; simplify_eq; cbn in *; rewrite E in *; cbn [fst snd] in *; [lia| |].
    + rewrite andb_false_r. pose proof (IH r c rst Ho Hb Hr Hc). lia.
    + rewrite andb_true_r. pose proof (IH r' _ _ Ho Hb' Hr ltac:(lia)). case_match; lia.
  - rewrite <- Em. apply (IH _ c rst Ho); [|done|by rewrite Em]. unfold bucket. by rewrite Allow_other.
Qed.

(** From inside the interval on: the rest of the bucket, and one more. *)
Lemma two_buckets evs : forall r c rst, ordered evs -> Forall (fun e => lo <= e.2) evs ->
  bucket key c rst r -> 0 <= c <= maxRequests r -> 1 <= maxRequests r -> hi - lo <= window r ->
  admitted key lo hi (fst (run evs r)) <= maxRequests r - c + maxRequests r.
Proof.
  induction evs as [|[k now] evs IH]; intros r c rst Ho Hlo Hb Hc Hm1 Hw; [cbn; unfold admitted, lsum; cbn; lia|].
  apply StronglySorted_cons in Ho as [Hhd Ho]. inversion Hlo as [|? ? Hn1 Hlo']; subst. cbn in Hn1.
  rewrite admitted_step. pose proof (Allow_params k now r) as [Em Ew]. other_client k Hk.
  - destruct (Allow_key now r) as [(r' & E & Hb' & _)|[(b & Hn & Hle & Hm & E)|(b & r' & Hn & Hle & Hm & E & Hb')]];
      rewrite E in *; cbn [fst snd] in *.
    + pose proof (one_bucket evs r' 1 _ Ho Hb' ltac:(lia) ltac:(lia)). case_match; lia.
    + rewrite andb_false_r. pose proof (IH r c rst Ho Hlo' Hb Hc Hm1 Hw). lia.
    + unfold bucket in Hb. rewrite Hb in Hn. simplify_eq. cbn in *.
      pose proof (IH r' (c + 1) rst Ho Hlo' Hb' ltac:(lia) ltac:(lia) ltac:(lia)). case_match; lia.
  - rewrite <- Em. apply (IH _ c rst Ho Hlo'); rewrite ?Em, ?Ew; try done. unfold bucket. by rewrite Allow_other.
Qed.

Definition counts_ok r : Prop := forall c rst, bucket key c rst r -> 0 <= c <= maxRequests r.

Lemma Allow_counts_ok k now r : 1 <= maxRequests r -> counts_ok r -> counts_ok (snd (Allow k now r)).
Proof.
  intros Hm Hc c rst Hb. destruct (Allow_params k now r) as [-> _]. destruct (decide (k = key)) as [->|Hk].
  - destruct (Allow_key now r) as [(r' & E & Hb' & _)|[(b & _ & _ & _ & E)|(b & r' & Hn & _ & Hlt & E & Hb')]];
      rewrite E in Hb; cbn [snd] in Hb; unfold bucket in *.
    + rewrite Hb in Hb'. simplify_eq. lia.
    + by apply (Hc c rst).
    + rewrite Hb in Hb'. simplify_eq. destruct b as [c0 r0]. pose proof (Hc c0 r0 Hn). cbn in *. lia.
  - unfold bucket in Hb. rewrite Allow_other in Hb by done. by apply (Hc c rst).
Qed.

Lemma admitted_bound evs : forall r, ordered evs -> counts_ok r -> 1 <= maxRequests r -> hi - lo <= window r ->
  admitted key lo hi (fst (run evs r)) <= 2 * maxRequests r.
Proof.
  induction evs as [|[k now] evs IH]; intros r Ho Hc Hm Hw; [cbn; unfold admitted, lsum; cbn; lia|].
  pose proof Ho as [Hhd Ho']%StronglySorted_cons. pose proof (Allow_params k now r) as [Em Ew].
  pose proof (IH (snd (Allow k now r)) Ho' ltac:(by apply Allow_counts_ok) ltac:(lia) ltac:(lia)) as HI. rewrite Em in HI.
  destruct (Z.leb_spec lo now) as [Hlo|Hlo].
  2:{ rewrite admitted_step, (proj2 (Z.leb_gt lo now)), !andb_false_r by done. cbn [andb]. lia. }
  destruct (clients r !! key) as [[c rst]|] eqn:E.
  - pose proof (Hc c rst E). pose proof (two_buckets ((k, now) :: evs) r c rst Ho) as Ht.
    specialize (Ht ltac:(constructor; [done|]; eapply Forall_impl; [exact Hhd|]; cbn; intros; lia) E ltac:(done) Hm Hw). lia.
  - rewrite admitted_step. other_client k Hk; [|lia].
    destruct (Allow_key now r) as [(r' & Ea & Hb' & _)|[(b & Hn & _)|(b & r' & Hn & _)]]; [|congruence..].
    rewrite Ea in *. cbn [fst snd] in *. pose proof (one_bucket evs r' 1 _ Ho' Hb' ltac:(lia) ltac:(lia)). case_match; lia.
Qed.
End Bound.

(** The rate limit.  For a fresh limiter that allows at least one request
    per window, and requests of any clients in the order of their times: every
    client is let through at most twice the limit in any interval as long as
    the window, and its first request always is. *)
Theorem rate_limit_bound maxReq win evs key lo hi :
  1 <= maxReq -> ordered evs -> hi - lo <= win ->
  let log := fst (run evs (NewShardRateLimiter maxReq win)) in
  admitted key lo hi log <= 2 * maxReq /\
  (forall pre post now ok, log = pre ++ (key, now, ok) :: post -> Forall (fun e => e.1.1 <> key) pre -> ok = true).
Proof.
  intros Hm Ho Hw log. split; [apply admitted_bound; [done| |done..]; intros c rst Hb; unfold bucket in Hb; cbn in Hb; by rewrite lookup_empty in Hb|].
  subst log. assert (Hn : clients (NewShardRateLimiter maxReq win) !! key = None) by apply lookup_empty.
  generalize dependent (NewShardRateLimiter maxReq win). clear Ho. induction evs as [|[k t] evs IH]; intros r Hn pre post now ok E Hp.
  { by destruct pre. }
  rewrite run_cons in E. destruct pre as [|e pre]; cbn in E; simplify_eq.
  - unfold Allow. by rewrite Hn.
  - inversion Hp as [|? ? Hk Hp']; subst. cbn in Hk.
    apply (IH (snd (Allow k t r))) with (pre := pre) (post := post) (now := now); [by rewrite Allow_other|done|done].
Qed.

Lemma rate_limit_bound_witness :
  admitted "a" 0 60 (fst (run ((fun i => ("a", Z.of_nat i)) <$> seq 0 100) (NewShardRateLimiter 3 60))) <= 6.
Proof.
  apply (rate_limit_bound 3 60 ((fun i => ("a", Z.of_nat i)) <$> seq 0 100) "a" 0 60); [lia| |lia].
  assert (forall n k, ordered ((fun i => ("a", Z.of_nat i)) <$> seq k n)) as Ho; [|exact (Ho 100%nat 0%nat)].
  induction n as [|n IH]; intros k; [constructor|].
  cbn. constructor; [apply IH|]. apply Forall_fmap, Forall_forall. intros i [Hi _]%elem_of_seq. cbn. lia.
Defined.
End ratelimit_theorems.

(** ** Uploads *)

Module upload_theorems.
Import shards shardstore distributor.

Section Uploads.
Context `{Crypto} `{Sha256} `{Disk}.
Implicit Types fs : Files.

Definition created : Response := mkResponse StatusCreated "" "".

(** A proof the handler read from its bytes verifies [data]. *)
Definition proof_verifies (root : string) (idx : Z) (data : string) (path : list string) : Prop :=
  length path = 4%nat /\ Forall (fun h => String.length h = hashSize) path /\
  VerifyProof root idx data (Some (mkMerkleProof idx path)) = Ok tt.

Lemma log2_16 : log2 (Z.of_nat ErasureTotalShards) = Some 4.
Proof. reflexivity. Qed.

Lemma split_proof_sizes proof : String.length proof = (4 * hashSize)%nat ->
  length (split_proof 4 proof) = 4%nat /\ Forall (fun h => String.length h = hashSize) (split_proof 4 proof).
Proof.
  intros Hl. unfold split_proof. split; [by rewrite length_fmap, length_seq|].
  apply Forall_fmap, Forall_forall. intros i Hi%elem_of_seq. unfold compose.
  apply str_take_length. rewrite str_drop_length, Hl. unfold hashSize in *. lia.
Qed.

Lemma check_proof_cases upload data root proof :
  (exists resp, check_proof upload data root proof = Ok (Some resp) /\ StatusCode resp <> StatusCreated) \/
  (check_proof upload data root proof = Ok None /\ proof_verifies root (up_Index upload) data (split_proof 4 proof)).
Proof.
  unfold check_proof. rewrite log2_16. change (4 * Z.of_nat hashSize) with 128.
  destruct (Z.eqb_spec (Z.of_nat (String.length proof)) 128) as [Hl|]; cbn [negb]; [|left; eexists; split; [done|discriminate]].
  change (Z.to_nat 4) with 4%nat.
  destruct (split_proof_sizes proof) as [H4 H32]; [unfold hashSize; lia|].
  destruct (VerifyProof _ _ _ _) as [[]|e|] eqn:Ev; [right|left; eexists; split; [done|discriminate]|].
  - split; [done|]. by split_and!.
  - exfalso. unfold VerifyProof in Ev. repeat case_match; done.
Qed.

Lemma check_signature_cases upload data :
  (exists resp, check_signature upload data = Some resp /\ StatusCode resp <> StatusCreated) \/
  (check_signature upload data = None /\
   (ProposerPubkeyHex upload <> "" -> exists pk sig, hex.DecodeString (ProposerPubkeyHex upload) = Some pk /\
      hex.DecodeString (SignatureHex upload) = Some sig /\ pqc.Verify (Sum256 data) sig pk = true)).
Proof.
  unfold check_signature. case_bool_decide; [right; split; [done|congruence]|].
  destruct (hex.DecodeString (ProposerPubkeyHex upload)) as [pk|]; [|left; eexists; split; [done|discriminate]].
  destruct (negb _); [left; eexists; split; [done|discriminate]|].
  case_bool_decide; [left; eexists; split; [done|discriminate]|].
  destruct (hex.DecodeString (SignatureHex upload)) as [sig|]; [|left; eexists; split; [done|discriminate]].
  destruct (negb (String.length sig =? _)%nat); [left; eexists; split; [done|discriminate]|].
  destruct (pqc.Verify _ _ _) eqn:Ev; cbn [negb]; [right; eauto 6|left; eexists; split; [done|discriminate]].
Qed.

Lemma StoreShard_cases c idx data fs :
  (exists e, StoreShard c idx data fs = (Err e, fs)) \/
  StoreShard c idx data fs = (Ok tt, <[shardPath c idx := data]> fs).
Proof. unfold StoreShard. repeat case_match; try (left; by eexists). by right. Qed.

Lemma StoreShard_run c idx data fs :
  c <> "" -> is_index idx = true -> data <> "" -> mkdir_ok (shardDir c) = true -> write_ok (shardPath c idx) = true ->
  StoreShard c idx data fs = (Ok tt, <[shardPath c idx := data]> fs).
Proof. intros Hc Hi Hd Hm Hw. unfold StoreShard. by rewrite !bool_decide_false, Hi, Hm, Hw. Qed.

(** The two ways an upload ends. *)
Lemma post_shard_cases body fs :
  exists resp fs', handlePostShard body fs = (Ok resp, fs') /\
  ((StatusCode resp <> StatusCreated /\ fs' = fs) \/
   (resp = created /\ exists up c data root proof,
      body = Some up /\ hex.DecodeString (CommitmentHex up) = Some c /\ c <> "" /\
      hex.DecodeString (DataHex up) = Some data /\ data <> "" /\
      hex.DecodeString (MerkleRootHex up) = Some root /\ String.length root = 32%nat /\
      hex.DecodeString (MerkleProofHex up) = Some proof /\ is_index (up_Index up) = true /\
      proof_verifies root (up_Index up) data (split_proof 4 proof) /\
      (ProposerPubkeyHex up <> "" -> exists pk sig, hex.DecodeString (ProposerPubkeyHex up) = Some pk /\
         hex.DecodeString (SignatureHex up) = Some sig /\ pqc.Verify (Sum256 data) sig pk = true) /\
      fs' = <[shardPath c (up_Index up) := data]> fs)).
Proof.
  unfold handlePostShard. destruct body as [up|]; [|by do 2 eexists; split; [done|left]].
  destruct (hex.DecodeString (CommitmentHex up)) as [[|? ?]|] eqn:Ec; [by do 2 eexists; split; [done|left]| |by do 2 eexists; split; [done|left]].
  destruct (hex.DecodeString (DataHex up)) as [[|? ?]|] eqn:Ed; [by do 2 eexists; split; [done|left]| |by do 2 eexists; split; [done|left]].
  destruct (hex.DecodeString (MerkleRootHex up)) as [root|] eqn:Er; [|by do 2 eexists; split; [done|left]].
  destruct (Nat.eqb_spec (String.length root) 32) as [Hr|]; cbn [negb]; [|by do 2 eexists; split; [done|left]].
  destruct (hex.DecodeString (MerkleProofHex up)) as [proof|] eqn:Ep; [|by do 2 eexists; split; [done|left]].
  destruct (is_index (up_Index up)) eqn:Ei; cbn [negb]; [|by do 2 eexists; split; [done|left]].
  set (c := String _ _) in Ec |- *. set (data := String _ _) in Ed |- *.
  destruct (check_signature_cases up data) as [(resp & -> & Hs)|[-> Hs]]; [by do 2 eexists; split; [done|left]|].
  destruct (check_proof_cases up data root proof) as [(resp & Ek & Hk)|[Ek Hk]];
    rewrite (bind_run _ _ _ _ _ (f_equal (fun o => lift o fs) Ek : _ = (Ok _, fs))); [by do 2 eexists; split; [done|left]|].
  destruct (StoreShard_cases c (up_Index up) data fs) as [(e & Es)|Es];
    unfold bind, try; rewrite Es; [by do 2 eexists; split; [done|left]|].
  do 2 eexists. split; [done|]. right. split; [done|]. exists up, c, data, root, proof. by split_and!.
Qed.

Lemma str_drop_add a b s : str_drop (a + b) s = str_drop b (str_drop a s).
Proof. revert s. induction a as [|a IH]; intros s; [done|]. destruct s; [by destruct b|]. apply IH. Qed.

Lemma split_proof_S n s : split_proof (S n) s = str_take hashSize s :: split_proof n (str_drop hashSize s).
Proof.
  unfold split_proof. change (seq 0 (S n)) with (0%nat :: seq 1 n). rewrite fmap_cons. f_equal.
  rewrite <- fmap_S_seq, <- list_fmap_compose. apply list_fmap_ext. intros i x _. unfold compose.
  rewrite <- str_drop_add. done.
Qed.

(** The flat proof is read back. *)
Lemma split_serialize proof : Forall (fun h => String.length h = hashSize) (Path proof) ->
  split_proof (length (Path proof)) (serializeProof proof) = Path proof /\
  String.length (serializeProof proof) = (length (Path proof) * hashSize)%nat.
Proof.
  unfold serializeProof. induction 1 as [|h path Hh Hf [IH1 IH2]]; [done|]. cbn [length foldr].
  rewrite <- Hh at 1 3. rewrite str_take_app, split_proof_S. rewrite <- Hh at 1 2.
  rewrite str_take_app, str_drop_app, IH1. split; [done|]. rewrite str_length_app, IH2, Hh. lia.
Qed.

(** The signature part of an upload a node makes: none, or a key with a
    signature of the data that verifies. *)
Definition signed_or_not (data pk sig : string) : Prop :=
  (pk = "" /\ sig = "") \/
  (pk <> "" /\ sig <> "" /\ String.length pk = mode5_PublicKeySize /\ String.length sig = mode5_SignatureSize /\
   pqc.Verify (Sum256 data) sig pk = true).

Lemma check_signature_run c idx data root proof pk sig : signed_or_not data pk sig ->
  check_signature (shard_upload c idx data root proof pk sig) data = None.
Proof.
  unfold check_signature, shard_upload. cbn [ProposerPubkeyHex SignatureHex]. intros [[-> ->]|(Hp & Hs & Lp & Ls & Hv)].
  - rewrite bool_decide_true; [done|]. by destruct (_ =? _)%nat.
  - rewrite Lp, Ls, !Nat.eqb_refl. rewrite !bool_decide_false by (by rewrite hex.Encode_empty).
    rewrite !hex.Decode_Encode, Lp, Ls, !Nat.eqb_refl, Hv. done.
Qed.

(** An upload with a proof that verifies is stored. *)
Lemma upload_accepted c idx data root proof pk sig fs :
  c <> "" -> data <> "" -> is_index idx = true -> String.length root = 32%nat ->
  length (Path proof) = 4%nat -> Forall (fun h => String.length h = hashSize) (Path proof) ->
  VerifyProof root idx data (Some (mkMerkleProof idx (Path proof))) = Ok tt -> signed_or_not data pk sig ->
  mkdir_ok (shardDir c) = true -> write_ok (shardPath c idx) = true ->
  handlePostShard (Some (shard_upload c idx data root (serializeProof proof) pk sig)) fs =
    (Ok created, <[shardPath c idx := data]> fs).
Proof.
  intros Hc Hd Hi Hr Hl Hf Hv Hs Hm Hw. pose proof (check_signature_run c idx data root (serializeProof proof) pk sig Hs) as Ecs.
  destruct (split_serialize proof Hf) as [Esp Elen]. rewrite Hl in Esp, Elen.
  set (up := shard_upload _ _ _ _ _ _ _) in *.
  assert (check_proof up data root (serializeProof proof) = Ok None) as Ecp.
  { unfold check_proof. rewrite log2_16, Elen. cbn [negb Z.eqb]. change (Z.to_nat 4) with 4%nat. rewrite Esp.
    change (up_Index up) with idx. by rewrite Hv. }
  unfold handlePostShard. change (CommitmentHex up) with (pqc.EncodeToString c).
  change (DataHex up) with (pqc.EncodeToString data). change (MerkleRootHex up) with (pqc.EncodeToString root).
  change (MerkleProofHex up) with (pqc.EncodeToString (serializeProof proof)). change (up_Index up) with idx.
  rewrite !hex.Decode_Encode, Hr, Hi. cbn [Nat.eqb negb].
  destruct c as [|c0 c]; [done|]. destruct data as [|d0 data]; [done|]. rewrite Ecs.
  rewrite (bind_run _ _ _ _ _ (f_equal (fun o => lift o fs) Ecp : _ = (Ok _, fs))).
  unfold bind, try. by rewrite StoreShard_run.
Qed.

(** An upload without any key, for any commitment, index and data: the handler
    checks the proof against the root that comes with the upload, and asks for
    a signature only when the upload names a key. *)
Definition forged_upload (c : string) (idx : Z) (data : string) : ShardUpload :=
  let path := replicate 4 zeroHash in
  shard_upload c idx data (climb (Sum256 data) idx path) (serializeProof (mkMerkleProof idx path)) "" "".

Lemma forged_upload_unsigned c idx data :
  ProposerPubkeyHex (forged_upload c idx data) = "" /\ SignatureHex (forged_upload c idx data) = "".
Proof. split; cbn; by case_match. Qed.

Lemma post_shard_open `{!Sha256Laws} c idx data fs :
  c <> "" -> data <> "" -> is_index idx = true ->
  mkdir_ok (shardDir c) = true -> write_ok (shardPath c idx) = true ->
  handlePostShard (Some (forged_upload c idx data)) fs = (Ok created, <[shardPath c idx := data]> fs).
Proof.
  intros Hc Hd Hi Hm Hw. apply upload_accepted; try done.
  - cbn [climb]. apply climb_length, Sum256_length.
  - cbn. by repeat constructor.
  - unfold VerifyProof. cbn [LeafIndex Path]. rewrite Z.eqb_refl. cbn [negb]. by rewrite bool_decide_true.
  - by left.
Qed.

(** C12: what an upload does.  handlePostShard always answers.  It answers 201
    exactly when it writes one file: the decoded data at the decoded
    commitment and index, after the data passed VerifyProof against the
    upload's own root with the four hashes of the upload's proof, and the
    signature check when the upload carries a proposer key.  Otherwise no file
    changes.  If that root is the root of a tree, the data is that of the
    tree's shard at the index, or the verification exhibits a hash
    collision. *)
Theorem post_shard_effect `{!Sha256Laws} body fs :
  exists resp fs', handlePostShard body fs = (Ok resp, fs') /\
  ((StatusCode resp <> StatusCreated /\ fs' = fs) \/
   (resp = created /\ exists up c data root path,
      body = Some up /\ hex.DecodeString (CommitmentHex up) = Some c /\ hex.DecodeString (DataHex up) = Some data /\
      hex.DecodeString (MerkleRootHex up) = Some root /\ is_index (up_Index up) = true /\
      proof_verifies root (up_Index up) data path /\
      (ProposerPubkeyHex up <> "" -> exists pk sig, hex.DecodeString (ProposerPubkeyHex up) = Some pk /\
         hex.DecodeString (SignatureHex up) = Some sig /\ pqc.Verify (Sum256 data) sig pk = true) /\
      fs' = <[shardPath c (up_Index up) := data]> fs /\
      forall shs t sr, BuildMerkleTree shs = Ok t -> Root t = Ok root -> shard_of shs sr -> up_Index up = Index sr ->
        data = Data sr \/ exists honest, ProofForShard t (Index sr) = Ok honest /\
          collision (proof_inputs data (Index sr) path) (proof_inputs (Data sr) (Index sr) (Path honest)))).
Proof.
  destruct (post_shard_cases body fs) as (resp & fs' & E & [Hno|[Hc Hx]]); exists resp, fs'; (split; [done|]); [by left|right].
  destruct Hx as (up & c & data & root & proof & Eb & Ec & _ & Ed & _ & Er & _ & _ & Ei & Hv & Hs & Ef).
  split; [done|]. exists up, c, data, root, (split_proof 4 proof). split_and!; try done.
  intros shs t sr Ht Hr Hsr Esr. destruct Hv as (H4 & H32 & Hv). rewrite Esr in Hv.
  destruct (merkle_sound _ _ _ _ _ (mkMerkleProof _ _) Ht Hsr Hr H4 H32 Hv) as [?|?]; [by left|by right].
Qed.
End Uploads.

Section UploadWitnesses.
#[local] Existing Instance keys_toy.crypto.
#[local] Existing Instance toy_sha256.
#[local] Existing Instance toy_sha256_laws.
#[local] Instance disk : Disk := {| mkdir_ok _ := true; write_ok _ := true; remove_ok _ := true |}.

Lemma post_shard_effect_witness : exists resp fs',
  handlePostShard (Some (forged_upload "c" 3 "data")) ∅ = (Ok resp, fs') /\
  ((StatusCode resp <> StatusCreated /\ fs' = ∅) \/ resp = created).
Proof.
  destruct (post_shard_effect (Some (forged_upload "c" 3 "data")) ∅) as (resp & fs' & E & [H1|[H1 _]]);
    exists resp, fs'; (split; [exact E|]); [left; exact H1|right; exact H1].
Defined.
End UploadWitnesses.
End upload_theorems.
