(* ===== verification/Cluster.v ===== *)
(** Cluster: the shard distributors of several nodes together.

    A cluster is a map from node names to the nodes' states.  The requests of
    one node's distributor (x/privacy/tfhe/shard_distributor.go,
    sendShardToPeer and fetchShardFromPeer) are answered by the handlers of the
    other nodes, behind the rate limiter and the authorisation middleware.  The
    addresses requests come from and the times they arrive at are those of the
    class [Network].

    Theorems: after a distribution every node can reconstruct the ciphertext
    while fewer nodes are down than there are copies of each shard and the rate
    limiters have room for 16 uploads and 16 fetches; shards of
    32 KB and more are placed on paper only, since no node accepts the request
    that carries them. *)

From Stdlib Require Import ZArith Lia Ascii String.
From stdpp Require Import base gmap sets list strings fin_maps sorting pretty.
From S2P Require Import Prelude Sdk Pqc Lwr Wire Shards Keys ShardNet.

Open Scope Z_scope.
Open Scope go_scope.

(** ** Reconstruction as a selection of shards *)

Module reconstruction.
Import shards shardstore distributor.

(** Two disjoint selections of a list, counted. *)
Lemma filter_disjoint_length {A} (P Q R : A -> Prop) `{!forall x, Decision (P x), !forall x, Decision (Q x), !forall x, Decision (R x)} l :
  (forall x, x ∈ l -> (R x <-> P x \/ Q x) /\ ~ (P x /\ Q x)) ->
  (length (filter P l) + length (filter Q l) = length (filter R l))%nat.
Proof.
  induction l as [|x l IH]; intros Hl; [done|]. rewrite !filter_cons.
  pose proof (Hl x ltac:(left)) as [HR Hn]. specialize (IH (fun y Hy => Hl y (list_elem_of_further _ _ _ Hy))).
  repeat case_decide; cbn; try lia; tauto.
Qed.

Lemma filter_length_all {A} (P : A -> Prop) `{!forall x, Decision (P x)} l :
  (forall x, x ∈ l -> P x) -> length (filter P l) = length l.
Proof.
  induction l as [|x l IH]; intros Hl; [done|]. rewrite filter_cons_True by (apply Hl; left). cbn. f_equal.
  apply IH. intros y Hy. apply Hl. by right.
Qed.

Lemma omap_index (f : Z -> option ShardResult) (l : list Z) :
  (forall idx sr, f idx = Some sr -> Index sr = idx) -> Index <$> omap f l = filter (fun idx => is_Some (f idx)) l.
Proof.
  intros Hf. induction l as [|x l IH]; [done|]. rewrite filter_cons. cbn [omap list_omap].
  destruct (f x) as [sr|] eqn:E; [rewrite decide_True by done|rewrite decide_False by (by intros [? ?])]; [|exact IH].
  rewrite fmap_cons. f_equal; [by apply Hf|exact IH].
Qed.

Lemma omap_index_length (f : Z -> option ShardResult) (l : list Z) :
  (forall idx sr, f idx = Some sr -> Index sr = idx) -> length (omap f l) = length (filter (fun idx => is_Some (f idx)) l).
Proof. intros Hf. by rewrite <- omap_index, length_fmap. Qed.

Section Reconstruction.
Context `{Crypto} `{Sha256} `{ReedSolomon} `{Disk}.
Context (http_get : string -> string -> Z -> option Response) (d : ShardDistributor) (meta : TFHEShardMeta).
Implicit Types fs : Files.

Definition local_shard fs (idx : Z) : option ShardResult := mkShardResult idx <$> LoadShard (CommitmentHash meta) idx fs.

(** The first of the peers whose answer is kept. *)
Fixpoint first_kept (idx : Z) (peers : list string) : option ShardResult :=
  match peers with
  | [] => None
  | peer :: peers =>
      if String.eqb peer (nodeID d) then first_kept idx peers else
      match fetchShardFromPeer http_get peer (CommitmentHash meta) idx with
      | Ok (data, sig) => if accept_fetched meta data sig then Some (mkShardResult idx data) else first_kept idx peers
      | _ => first_kept idx peers
      end
  end.

Definition remote_shard (idx : Z) : option ShardResult := first_kept idx (default [] (ShardNodeMap meta !! idx)).

Lemma first_kept_index idx peers sr : first_kept idx peers = Some sr -> Index sr = idx.
Proof. induction peers as [|p peers IH]; cbn [first_kept]; repeat case_match; intros; simplify_eq; auto. Qed.

Lemma local_shard_index fs idx sr : local_shard fs idx = Some sr -> Index sr = idx.
Proof. unfold local_shard. destruct (LoadShard _ _ _); cbn; intros; by simplify_eq. Qed.

Lemma try_peers_run idx peers fs : exists fs', try_peers http_get d meta idx peers fs = (Ok (first_kept idx peers), fs').
Proof.
  induction peers as [|p peers IH]; [by eexists|]. cbn [try_peers first_kept]. destruct (String.eqb p (nodeID d)); [done|].
  destruct (fetchShardFromPeer _ _ _ _) as [[data sig]|e|]; [|done..]. destruct (accept_fetched _ _ _); [|done].
  destruct (upload_theorems.StoreShard_cases (CommitmentHash meta) idx data fs) as [(e & E)|E]; unfold bind, try; rewrite E; by eexists.
Qed.

(** The collecting loops keep the first twelve of what there is. *)
Lemma collect_local_take fs idxs acc : (length acc < ErasureDataShards)%nat ->
  collect_local (CommitmentHash meta) idxs acc fs = take ErasureDataShards (acc ++ omap (local_shard fs) idxs).
Proof.
  revert acc. induction idxs as [|idx idxs IH]; intros acc Ha; cbn [collect_local].
  { cbn [omap list_omap]. rewrite app_nil_r, take_ge by lia. done. }
  change (omap (local_shard fs) (idx :: idxs)) with
    (match local_shard fs idx with Some y => y :: omap (local_shard fs) idxs | None => omap (local_shard fs) idxs end).
  unfold local_shard at 1. destruct (LoadShard _ _ _) as [data|]; cbn [fmap option_fmap option_map].
  - destruct (Nat.leb_spec ErasureDataShards (length (acc ++ [mkShardResult idx data]))) as [Hle|Hgt].
    + rewrite length_app in Hle. cbn in Hle.
      change (mkShardResult idx data :: omap (local_shard fs) idxs) with ([mkShardResult idx data] ++ omap (local_shard fs) idxs).
      rewrite app_assoc, take_app_le by (rewrite length_app; cbn; lia).
      by rewrite take_ge by (rewrite length_app; cbn; lia).
    + rewrite IH by done. by rewrite <- app_assoc.
  - destruct (Nat.leb_spec ErasureDataShards (length acc)); [lia|]. by apply IH.
Qed.

Definition missing_shard (have : list Z) (idx : Z) : option ShardResult :=
  if bool_decide (idx ∈ have) then None else remote_shard idx.

Lemma collect_remote_take have idxs acc fs : (length acc <= ErasureDataShards)%nat ->
  exists fs', collect_remote http_get d meta have idxs acc fs =
    (Ok (take ErasureDataShards (acc ++ omap (missing_shard have) idxs)), fs').
Proof.
  revert acc fs. induction idxs as [|idx idxs IH]; intros acc fs Ha; cbn [collect_remote].
  { cbn [omap list_omap]. rewrite app_nil_r, take_ge by lia. by eexists. }
  destruct (Nat.leb_spec ErasureDataShards (length acc)) as [Hle|Hgt].
  { rewrite take_app_le, take_ge by lia. by eexists. }
  change (omap (missing_shard have) (idx :: idxs)) with
    (match missing_shard have idx with Some y => y :: omap (missing_shard have) idxs | None => omap (missing_shard have) idxs end).
  unfold missing_shard at 1. case_bool_decide; [by apply IH|]. unfold remote_shard at 1.
  destruct (try_peers_run idx (default [] (ShardNodeMap meta !! idx)) fs) as (fs' & E). rewrite (bind_run _ _ _ _ _ E).
  destruct (first_kept _ _) as [sr|]; [|by apply IH].
  destruct (IH (acc ++ [sr]) fs') as (fs'' & ->); [rewrite length_app; cbn; lia|]. rewrite <- app_assoc. by eexists.
Qed.

(** Reconstruction when only right shards are found: it succeeds exactly when
    twelve indices are available, locally or from a peer. *)
Definition available fs (idx : Z) : Prop := is_Some (local_shard fs idx) \/ is_Some (remote_shard idx).

#[export] Instance available_dec fs idx : Decision (available fs idx).
Proof. unfold available. apply _. Defined.

Lemma all_indices_NoDup : NoDup all_indices.
Proof. apply (bool_decide_unpack _). vm_compute. exact I. Qed.

(** All the shards the loops could collect: the local ones, and for the other
    indices those of peers. *)
Definition found fs : list ShardResult :=
  let local := omap (local_shard fs) all_indices in
  local ++ omap (missing_shard (Index <$> local)) all_indices.

Lemma found_indices fs (have := filter (fun idx => is_Some (local_shard fs idx)) all_indices) :
  Index <$> found fs = have ++ filter (fun idx => is_Some (missing_shard have idx)) all_indices.
Proof.
  assert (Index <$> omap (local_shard fs) all_indices = have) as El by (apply omap_index; eauto using local_shard_index).
  unfold found. rewrite fmap_app, El. f_equal. apply omap_index. unfold missing_shard. intros idx sr.
  case_bool_decide; [done|]. apply first_kept_index.
Qed.

Lemma found_NoDup fs : NoDup (Index <$> found fs).
Proof.
  rewrite found_indices. apply NoDup_app. split; [apply NoDup_filter, all_indices_NoDup|].
  split; [|apply NoDup_filter, all_indices_NoDup]. intros idx Hi [Hm _]%list_elem_of_filter.
  unfold missing_shard in Hm. rewrite bool_decide_true in Hm by done. by destruct Hm.
Qed.

Lemma found_length fs : length (found fs) = length (filter (available fs) all_indices).
Proof.
  rewrite <- (length_fmap Index), found_indices, length_app.
  apply filter_disjoint_length. intros idx Hi. unfold available, missing_shard.
  case_bool_decide as Hx; rewrite list_elem_of_filter in Hx.
  - destruct Hx as [Hx _]. split; [|by intros [_ [? ?]]]. split; intros _; by left.
  - split; [tauto|]. intros [? _]. by apply Hx.
Qed.

Lemma found_all (P : ShardResult -> Prop) fs :
  (forall idx sr, local_shard fs idx = Some sr -> idx ∈ all_indices -> P sr) ->
  (forall idx sr, remote_shard idx = Some sr -> idx ∈ all_indices -> P sr) -> Forall P (found fs).
Proof.
  intros Hl Hr. apply Forall_app. split; apply Forall_forall; intros sr (idx & Hi & E)%list_elem_of_omap; [eauto|].
  unfold missing_shard in E. case_bool_decide; [done|]. eauto.
Qed.

(** ReconstructCiphertext decodes the first twelve of them. *)
Lemma ReconstructCiphertext_found fs :
  fst (ReconstructCiphertext http_get d (Some meta) fs) =
    if (length (found fs) <? ErasureDataShards)%nat then Err (Errorf "distributor: cannot reconstruct")
    else ReconstructFromResults (take ErasureDataShards (found fs)) (OriginalLen meta).
Proof.
  unfold ReconstructCiphertext. unfold bind at 1, reads. rewrite collect_local_take by (unfold ErasureDataShards; cbn; lia).
  cbn [app]. set (loc := omap (local_shard fs) all_indices).
  assert (Hlift : forall (b : bool) e (o : outcome string) (s : Files),
    fst ((if b then throw e else lift o) s) = if b then Err e else o) by (by intros [] ? [] ?).
  assert (Hlen : forall l : list ShardResult, (length (take ErasureDataShards l) <? ErasureDataShards)%nat = (length l <? ErasureDataShards)%nat).
  { intros l. rewrite length_take. destruct (Nat.ltb_spec (length l) ErasureDataShards); [apply Nat.ltb_lt|apply Nat.ltb_ge]; lia. }
  rewrite Hlen. destruct (Nat.ltb_spec (length loc) ErasureDataShards) as [Hlt|Hge].
  - rewrite (take_ge loc) by lia. destruct (collect_remote_take (Index <$> loc) all_indices loc fs) as (fs' & E); [lia|].
    rewrite (bind_run _ _ _ _ _ E), Hlift, Hlen. done.
  - rewrite bind_ret, Hlift, Hlen. unfold found. fold loc. rewrite take_app_le, length_app by lia.
    rewrite !(proj2 (Nat.ltb_ge _ _)) by lia. done.
Qed.

Lemma reconstruct_available `{!ReedSolomonLaws} data rs fs :
  data <> "" -> Split data = Ok rs -> OriginalLen meta = Z.of_nat (String.length data) ->
  (forall idx sr, local_shard fs idx = Some sr -> idx ∈ all_indices -> sr ∈ rs) ->
  (forall idx sr, remote_shard idx = Some sr -> idx ∈ all_indices -> sr ∈ rs) ->
  fst (ReconstructCiphertext http_get d (Some meta) fs) =
    if (ErasureDataShards <=? length (filter (available fs) all_indices))%nat
    then Ok data else Err (Errorf "distributor: cannot reconstruct").
Proof.
  intros Hd Hs Ho Hloc Hrem. rewrite ReconstructCiphertext_found, <- found_length, Ho, Nat.ltb_antisym.
  destruct (Nat.leb_spec ErasureDataShards (length (found fs))); cbn [negb]; [|done].
  rewrite (reconstruct_picked data rs); [|done..| |].
  - rewrite length_take, (proj2 (Nat.leb_le _ _)) by lia. done.
  - by apply Forall_take, found_all.
  - rewrite fmap_take. eapply sublist_NoDup; [apply found_NoDup|apply sublist_take].
Qed.
End Reconstruction.
End reconstruction.

(** ** The nodes and their requests *)

Module cluster.
Import shards shardstore ratelimit distributor upload_theorems reconstruction.

(** *** Room in a rate limiter *)

(** The limiter lets [k] more requests from [addr] through, whenever they
    come. *)
Definition spare (r : ShardRateLimiter) (addr : string) (k : Z) : Prop :=
  k <= maxRequests r /\ forall b, clients r !! addr = Some b -> count b + k <= maxRequests r.

Lemma spare_le r addr k k' : k' <= k -> spare r addr k -> spare r addr k'.
Proof. intros Hk [Hm Hb]. split; [lia|]. intros b E. specialize (Hb b E). lia. Qed.

Lemma Allow_spared r addr now : spare r addr 1 -> fst (Allow addr now r) = true.
Proof.
  intros [_ Hb]. unfold Allow. destruct (clients r !! addr) as [b|]; [|done]. specialize (Hb b eq_refl).
  destruct (resetAt b <? now); [done|]. destruct (Z.leb_spec (maxRequests r) (count b)); [lia|done].
Qed.

(** A request, from whatever address, takes at most one. *)
Lemma Allow_spare r key now addr k : 0 <= k -> spare r addr (k + 1) -> spare (snd (Allow key now r)) addr k.
Proof.
  intros Hk [Hm Hb].
  assert (forall b', count b' + k <= maxRequests r -> spare (set_client key b' r) addr k) as Hset.
  { intros b' Hb'. split; [cbn; lia|]. cbn. intros b [[-> <-]|[_ E]]%lookup_insert_Some; [done|].
    specialize (Hb b E). lia. }
  unfold Allow. destruct (clients r !! key) as [b|] eqn:E.
  - destruct (resetAt b <? now); [apply Hset; cbn; lia|].
    destruct (Z.leb_spec (maxRequests r) (count b)); [by apply (spare_le r addr (k + 1) k); [lia|]|].
    destruct (decide (key = addr)) as [->|Hne]; [apply Hset; cbn; specialize (Hb b E); lia|].
    split; [cbn; lia|]. cbn. intros b' E'. rewrite lookup_insert_ne in E' by done. specialize (Hb b' E'). lia.
  - apply Hset. cbn. lia.
Qed.

Lemma fresh_spare maxReq win addr k : k <= maxReq -> spare (NewShardRateLimiter maxReq win) addr k.
Proof. intros Hk. split; [done|]. intros b E. cbn in E. by rewrite lookup_empty in E. Qed.

Definition quoted (s : string) : string := String "034"%char (s +:+ String "034"%char "").

Definition json_field (name value : string) : string := quoted name +:+ ":" +:+ quoted value.

(** [omitempty]. *)
Definition json_optional (name value : string) : string :=
  if bool_decide (value = "") then "" else "," +:+ json_field name value.

(** [json.Marshal(upload)]; the fields are hex digits, which need no escape. *)
Definition json_body (up : ShardUpload) : string :=
  "{" +:+ json_field "commitment_hex" (CommitmentHex up) +:+ "," +:+
  quoted "index" +:+ ":" +:+ pretty (up_Index up) +:+ "," +:+
  json_field "data_hex" (DataHex up) +:+ "," +:+
  json_field "merkle_root_hex" (MerkleRootHex up) +:+ "," +:+
  json_field "merkle_proof_hex" (MerkleProofHex up) +:+
  json_optional "proposer_pubkey_hex" (ProposerPubkeyHex up) +:+
  json_optional "signature_hex" (SignatureHex up) +:+ "}".

(** What the handler decodes from the request's body: of a longer text it reads
    a proper prefix of an object, which is not valid JSON. *)
Definition read_body (up : ShardUpload) : option ShardUpload :=
  if (String.length (json_body up) <=? maxBody)%nat then Some up else None.

Definition bearer (senderNodeID : string) : string := "Bearer " +:+ senderNodeID.

(** Where a request comes from, as the receiver sees it (host and port of the
    connection), and when it arrives, by method, sender, receiver and index of
    the shard; and the indices a reader has asked a peer for before it asks it
    for this one. *)
Class Network : Type := {
  remote_addr : string -> string -> string -> Z -> string;
  arrival : string -> string -> string -> Z -> Z;
  asked_before : string -> string -> Z -> list Z;
}.

Definition post_request `{Network} (senderNodeID receiver : string) (up : ShardUpload) : Request :=
  mkRequest "POST" (remote_addr "POST" senderNodeID receiver (up_Index up)) (bearer senderNodeID) "" "" (read_body up).

Definition get_request `{Network} (senderNodeID receiver commitment : string) (idx : Z) : Request :=
  mkRequest "GET" (remote_addr "GET" senderNodeID receiver idx) (bearer senderNodeID) commitment (pretty idx) None.

Notation Cluster := (gmap string Node).

Section Requests.
Context `{Crypto} `{Sha256} `{Disk} `{Network}.

(** A POST reaches the node that has the address; sendShardToPeer's result is
    not used. *)
Definition deliver (senderNodeID : string) (cl : Cluster) (msg : string * ShardUpload) : Cluster :=
  match cl !! msg.1 with
  | Some s => <[msg.1 := snd (serve_shard (arrival "POST" senderNodeID msg.1 (up_Index msg.2))
                                (post_request senderNodeID msg.1 msg.2) s)]> cl
  | None => cl
  end.

Definition deliver_all (senderNodeID : string) (cl : Cluster) (msgs : list (string * ShardUpload)) : Cluster :=
  foldl (deliver senderNodeID) cl msgs.

Definition serve_get (senderNodeID peer commitment : string) (s : Node) (idx : Z) : outcome Response * Node :=
  serve_shard (arrival "GET" senderNodeID peer idx) (get_request senderNodeID peer commitment idx) s.

(** A GET is answered by a node that is running and has served what the reader
    asked it for before. *)
Definition cluster_get (running : gset string) (cl : Cluster) (senderNodeID peer commitment : string) (idx : Z) : option Response :=
  if bool_decide (peer ∈ running) then
    match cl !! peer with
    | Some s =>
        let s := foldl (fun s i => snd (serve_get senderNodeID peer commitment s i)) s (asked_before senderNodeID peer idx) in
        match fst (serve_get senderNodeID peer commitment s idx) with
        | Ok resp => Some resp
        | _ => None
        end
    | None => None
    end
  else None.
End Requests.

(** *** Requests between nodes with names *)

Lemma bearer_ok sender : sender <> "" -> bearer sender <> "" /\ (String.length (bearer sender) <=? 7)%nat = false.
Proof. unfold bearer. destruct sender as [|c s]; [done|]. intros _. split; [done|]. apply Nat.leb_gt. rewrite str_length_app. cbn. lia. Qed.

Section RequestLemmas.
Context `{Crypto} `{Sha256} `{Disk} `{Network}.

Lemma auth_ok next r s : forall sender, sender <> "" -> Authorization r = bearer sender ->
  authMiddleware next r s = next r s.
Proof.
  intros sender Hs E. destruct (bearer_ok sender Hs) as [Hn Hl]. unfold authMiddleware.
  rewrite E, bool_decide_false, Hl by done. done.
Qed.

(** The node after the limiter has seen a request. *)
Definition limited (now : Z) (r : Request) (s : Node) : Node :=
  mkNode (files s) (snd (Allow (RemoteAddr r) now (rateLimiter s))) (outbox s).

Lemma serve_limiter now r s : rateLimiter (snd (serve_shard now r s)) = snd (Allow (RemoteAddr r) now (rateLimiter s)).
Proof.
  unfold serve_shard, rateLimitMiddleware. destruct (Allow _ _ _) as [ok lim]. destruct ok; [|done].
  unfold authMiddleware, shard_route, on_files, reads, ret. repeat case_match; simplify_eq; done.
Qed.

(** The handler's part of a request that the middlewares let through. *)
Lemma serve_ok now r s sender : sender <> "" -> Authorization r = bearer sender ->
  serve_shard now r s =
    if fst (Allow (RemoteAddr r) now (rateLimiter s)) then shard_route r (limited now r s)
    else (Ok (http_Error "rate limit exceeded" StatusTooManyRequests), limited now r s).
Proof.
  intros Hs E. unfold serve_shard, rateLimitMiddleware, limited. destruct (Allow _ _ _) as [[|] lim]; cbn [fst snd]; [|done].
  by apply (auth_ok _ _ _ sender).
Qed.

Lemma serve_spared now r s sender : sender <> "" -> Authorization r = bearer sender ->
  spare (rateLimiter s) (RemoteAddr r) 1 -> serve_shard now r s = shard_route r (limited now r s).
Proof. intros Hs E Hsp. rewrite (serve_ok _ _ _ sender) by done. by rewrite Allow_spared. Qed.

Lemma get_run sender peer commitment idx s : sender <> "" ->
  spare (rateLimiter s) (remote_addr "GET" sender peer idx) 1 ->
  fst (serve_get sender peer commitment s idx) = Ok (handleGetShard (get_request sender peer commitment idx) (files s)).
Proof. intros Hs Hsp. unfold serve_get. by rewrite (serve_spared _ _ _ sender). Qed.

(** GET requests leave the files alone and take one of the limiter's room
    each. *)
Lemma get_files sender peer commitment idx s : sender <> "" -> files (snd (serve_get sender peer commitment s idx)) = files s.
Proof.
  intros Hs. unfold serve_get. rewrite (serve_ok _ _ _ sender) by done. by destruct (fst (Allow _ _ _)).
Qed.

Lemma gets_run sender peer commitment idxs : forall s, sender <> "" ->
  let s' := foldl (fun s i => snd (serve_get sender peer commitment s i)) s idxs in
  files s' = files s /\
  forall addr k, 0 <= k -> spare (rateLimiter s) addr (k + Z.of_nat (length idxs)) -> spare (rateLimiter s') addr k.
Proof.
  induction idxs as [|i idxs IH]; intros s Hs; cbn [foldl].
  - split; [done|]. intros addr k _. cbn. by rewrite Z.add_0_r.
  - destruct (IH (snd (serve_get sender peer commitment s i)) Hs) as [Hf Hsp]. split; [by rewrite Hf, get_files|].
    intros addr k Hk H'. apply Hsp; [done|]. unfold serve_get. rewrite serve_limiter. apply Allow_spare; [lia|].
    cbn [length] in H'. by replace (k + Z.of_nat (length idxs) + 1) with (k + Z.of_nat (S (length idxs))) by lia.
Qed.

Definition files_at (cl : Cluster) (p : string) : option Files := files <$> cl !! p.

(** The room of a node's limiter, for a node that is there. *)
Definition spare_at (cl : Cluster) (p addr : string) (k : Z) : Prop :=
  forall s, cl !! p = Some s -> spare (rateLimiter s) addr k.

Lemma deliver_files sender cl p up q : sender <> "" ->
  files_at (deliver sender cl (p, up)) q =
    match cl !! p with
    | Some s => if decide (p = q) then
                  Some (if fst (Allow (remote_addr "POST" sender p (up_Index up)) (arrival "POST" sender p (up_Index up)) (rateLimiter s))
                        then snd (handlePostShard (read_body up) (files s)) else files s)
                else files_at cl q
    | None => files_at cl q
    end.
Proof.
  intros Hs. unfold deliver, files_at. cbn [fst snd]. destruct (cl !! p) as [s|] eqn:E; [|done].
  case_decide; [subst|by rewrite lookup_insert_ne]. rewrite lookup_insert_eq. cbn. f_equal.
  rewrite (serve_ok _ _ _ sender) by done. cbn [RemoteAddr post_request]. destruct (fst (Allow _ _ _)); [|done].
  unfold shard_route. cbn [Method Body post_request]. rewrite bool_decide_false, bool_decide_true by done.
  unfold on_files, limited. cbn [files]. by destruct (handlePostShard _ _).
Qed.

Lemma deliver_lookup sender cl p up q : sender <> "" -> spare_at cl p (remote_addr "POST" sender p (up_Index up)) 1 ->
  files_at (deliver sender cl (p, up)) q =
    if decide (p = q) then (fun fs => snd (handlePostShard (read_body up) fs)) <$> files_at cl q else files_at cl q.
Proof.
  intros Hs Hsp. rewrite deliver_files by done. unfold files_at. destruct (cl !! p) as [s|] eqn:E.
  - rewrite Allow_spared by (by apply Hsp). case_decide; [|done]. subst. by rewrite E.
  - case_decide; [|done]. subst. by rewrite E.
Qed.

Lemma deliver_spare sender cl p up q addr k : 0 <= k ->
  spare_at cl q addr (k + (if decide (p = q) then 1 else 0)) -> spare_at (deliver sender cl (p, up)) q addr k.
Proof.
  intros Hk Hsp s. unfold deliver. cbn [fst snd]. destruct (cl !! p) as [s0|] eqn:E.
  - case_decide; [subst; rewrite lookup_insert_eq|rewrite lookup_insert_ne by done].
    + intros [= <-]. rewrite serve_limiter. by apply Allow_spare, Hsp.
    + intros Es. rewrite Z.add_0_r in Hsp. by apply Hsp.
  - intros Es. apply (spare_le _ _ (k + (if decide (p = q) then 1 else 0))); [case_decide; lia|by apply Hsp].
Qed.
End RequestLemmas.

(** *** Names of files *)

Lemma Encode_inj_dir c c' : shardDir c = shardDir c' -> c = c'.
Proof. apply hex.Encode_inj. Qed.

Lemma index_lt idx : is_index idx = true <-> 0 <= idx < 16.
Proof. unfold is_index. rewrite andb_true_iff, Z.leb_le, Z.ltb_lt. done. Qed.

Lemma all_indices_spec idx : idx ∈ all_indices <-> 0 <= idx < 16.
Proof.
  unfold all_indices. rewrite list_elem_of_fmap. setoid_rewrite elem_of_seq. split.
  - intros (n & -> & ?). unfold ErasureTotalShards, ErasureDataShards, ErasureParityShards in *. lia.
  - intros ?. exists (Z.to_nat idx). unfold ErasureTotalShards, ErasureDataShards, ErasureParityShards. lia.
Qed.

(** A fact about the indices, by running through them. *)
Ltac all_idx idx Hi :=
  let H := fresh in
  assert (H : idx = 0 \/ idx = 1 \/ idx = 2 \/ idx = 3 \/ idx = 4 \/ idx = 5 \/ idx = 6 \/ idx = 7 \/
              idx = 8 \/ idx = 9 \/ idx = 10 \/ idx = 11 \/ idx = 12 \/ idx = 13 \/ idx = 14 \/ idx = 15) by lia;
  destruct H as [->|[->|[->|[->|[->|[->|[->|[->|[->|[->|[->|[->|[->|[->|[->| ->]]]]]]]]]]]]]]].

Lemma pad2_inj i j : 0 <= i < 16 -> 0 <= j < 16 -> pad2 i = pad2 j -> i = j.
Proof.
  intros Hi Hj. assert (Hn : NoDup (pad2 <$> all_indices)) by (apply (bool_decide_unpack _); vm_compute; exact I).
  intros E. assert (Hl : forall k, 0 <= k < 16 -> (pad2 <$> all_indices) !! Z.to_nat k = Some (pad2 k)).
  { intros k Hk. rewrite list_lookup_fmap. all_idx k Hk; reflexivity. }
  pose proof (NoDup_lookup _ _ _ _ Hn (Hl i Hi) ltac:(rewrite E; exact (Hl j Hj))). lia.
Qed.

Lemma pad2_length idx : 0 <= idx < 16 -> String.length (pad2 idx) = 2%nat.
Proof. intros Hi. all_idx idx Hi; reflexivity. Qed.

Lemma shardPath_inj c i j : 0 <= i < 16 -> 0 <= j < 16 -> shardPath c i = shardPath c j -> i = j.
Proof.
  intros Hi Hj [= E]. apply pad2_inj; [done..|]. apply (f_equal (str_take 2)) in E.
  rewrite <- (pad2_length i Hi) in E at 1. rewrite str_take_app, <- (pad2_length j Hj), str_take_app in E. done.
Qed.

Lemma shard_not_sig c i j : 0 <= i < 16 -> 0 <= j < 16 -> shardPath c i <> signaturePath c j.
Proof.
  intros Hi Hj [= E]. apply (f_equal (str_drop 2)) in E.
  rewrite <- (pad2_length i Hi) in E at 1. rewrite str_drop_app, <- (pad2_length j Hj), str_drop_app in E. done.
Qed.

Lemma sigPath_inj c i j : 0 <= i < 16 -> 0 <= j < 16 -> signaturePath c i = signaturePath c j -> i = j.
Proof.
  intros Hi Hj [= E]. apply pad2_inj; [done..|]. apply (f_equal (str_take 2)) in E.
  rewrite <- (pad2_length i Hi) in E at 1. rewrite str_take_app, <- (pad2_length j Hj), str_take_app in E. done.
Qed.

Lemma Atoi_index idx : 0 <= idx < 16 -> strconv.Atoi (pretty idx) = Some idx.
Proof. intros Hi. all_idx idx Hi; reflexivity. Qed.

(** ** What a distribution does *)

(** What distribution relies on in its environment: directories and files can
    be written, and Dilithium5 has its documented sizes. *)
Class Writable `{Disk} : Prop := {
  mkdir_always dir : mkdir_ok dir = true;
  write_always path : write_ok path = true;
}.

Class Mode5Sizes `{Crypto} : Prop := {
  mode5_sizes : mode5_PublicKeySize = 2592%nat /\ mode5_PrivateKeySize = 4864%nat /\ mode5_SignatureSize = 4595%nat;
}.

(** The shards of one ciphertext, numbered in order. *)
Definition numbered (rs : list ShardResult) : Prop :=
  length rs = ErasureTotalShards /\ forall i sr, rs !! i = Some sr -> Index sr = Z.of_nat i.

Section Numbered.
Context (rs : list ShardResult) (Hrs : numbered rs).

Lemma numbered_lookup sr : sr ∈ rs -> 0 <= Index sr < 16 /\ rs !! Z.to_nat (Index sr) = Some sr.
Proof.
  intros (i & Hi)%list_elem_of_lookup. destruct Hrs as [Hl Hn]. pose proof (lookup_lt_Some _ _ _ Hi) as Hlt.
  rewrite Hl in Hlt. unfold ErasureTotalShards, ErasureDataShards, ErasureParityShards in Hlt.
  rewrite (Hn _ _ Hi). rewrite Nat2Z.id. split; [lia|done].
Qed.

Lemma numbered_inj sr sr' : sr ∈ rs -> sr' ∈ rs -> Index sr = Index sr' -> sr = sr'.
Proof.
  intros [_ H1]%numbered_lookup [_ H2]%numbered_lookup E. rewrite E in H1. congruence.
Qed.

Lemma numbered_ex idx : 0 <= idx < 16 -> exists sr, sr ∈ rs /\ Index sr = idx.
Proof.
  intros Hi. destruct Hrs as [Hl Hn]. destruct (lookup_lt_is_Some_2 rs (Z.to_nat idx)) as [sr Hsr];
    [rewrite Hl; unfold ErasureTotalShards, ErasureDataShards, ErasureParityShards; lia|].
  exists sr. split; [by eapply list_elem_of_lookup_2|]. rewrite (Hn _ _ Hsr). lia.
Qed.

Lemma numbered_shard_of sr : sr ∈ rs -> shard_of rs sr.
Proof.
  intros Hin. pose proof (numbered_lookup sr Hin) as [Hi Hl]. exists (take (Z.to_nat (Index sr)) rs), (drop (S (Z.to_nat (Index sr))) rs).
  split; [by rewrite take_drop_middle|]. apply Forall_forall. intros sr' (i & Hi')%list_elem_of_lookup E.
  rewrite lookup_drop in Hi'. destruct Hrs as [_ Hn]. rewrite (Hn _ _ Hi') in E. lia.
Qed.

Lemma numbered_tree `{Sha256} : exists t root, BuildMerkleTree rs = Ok t /\ Root t = Ok root.
Proof.
  destruct (BuildMerkleTree_run rs) as [t Ht]; [apply Hrs|apply Forall_forall; intros sr Hsr; by apply numbered_lookup|].
  destruct (numbered_ex 0) as (sr & Hsr & _); [lia|].
  destruct (honest_proof _ _ _ Ht (numbered_shard_of sr Hsr)) as (_ & root & _ & Hr & _). eauto.
Qed.
End Numbered.

Section Distribution.
Context `{Crypto} {keypair : string -> string -> Prop} `{!CryptoLaws keypair} `{!Mode5Sizes}.
Context `{Sha256} `{!Sha256Laws} `{Disk} `{!Writable} `{Network}.

(** The distributor signs with a key pair, or not at all. *)
Definition keyed (d : ShardDistributor) : Prop :=
  (signingPrivKey d = "" /\ signingPubKey d = "") \/ keypair (signingPubKey d) (signingPrivKey d).

Definition shard_sig (d : ShardDistributor) (data : string) : string :=
  match signShardData d data with Ok sig => sig | _ => "" end.

Lemma signShardData_run d data : keyed d ->
  signShardData d data = Ok (shard_sig d data) /\ signed_or_not data (signingPubKey d) (shard_sig d data) /\
  (shard_sig d data <> "" -> pqc.Verify (Sum256 data) (shard_sig d data) (signingPubKey d) = true).
Proof.
  unfold shard_sig, signShardData. intros [[-> ->]|Hk].
  - rewrite bool_decide_true by done. split; [done|]. split; [by left|done].
  - destruct (keypair_sizes _ _ Hk) as [Hp Hs]. destruct mode5_sizes as (E1 & E2 & E3).
    rewrite bool_decide_false by (intros E; rewrite E in Hs; cbn in Hs; lia).
    destruct (pqc.Sign_Verify _ _ (Sum256 data) Hk) as (sig & -> & Hv). split; [done|]. split; [|done].
    right. assert (String.length sig = mode5_SignatureSize) as Hl.
    { unfold pqc.Verify in Hv. rewrite Hp, Nat.eqb_refl in Hv. cbn [negb] in Hv.
      by destruct (Nat.eqb_spec (String.length sig) mode5_SignatureSize). }
    split_and!; [intros E; rewrite E in Hp; cbn in Hp; lia|intros ->; cbn in Hl; lia|done..].
Qed.

Context (d : ShardDistributor) (c : string) (rs : list ShardResult) (tree : MerkleTree) (root : string).
Context (Hk : keyed d) (Hc : c <> "") (Hrs : numbered rs) (Htree : BuildMerkleTree rs = Ok tree) (Hroot : Root tree = Ok root).
Context (Hne : Forall (fun sr => Data sr <> "") rs).
Context (node : string) (nodes : list string).

Definition proof_of (sr : ShardResult) : MerkleProof :=
  match ProofForShard tree (Index sr) with Ok p => p | _ => mkMerkleProof 0 [] end.

Definition upload_of (sr : ShardResult) : ShardUpload :=
  shard_upload c (Index sr) (Data sr) root (serializeProof (proof_of sr)) (signingPubKey d) (shard_sig d (Data sr)).

Definition assigned (sr : ShardResult) : list string := assignedNodes nodes c (Index sr).

(** The files of the proposer after it kept its copy of a shard. *)
Definition keep (fs : gmap (string * string) string) (sr : ShardResult) : gmap (string * string) string :=
  if existsb (String.eqb node) (assigned sr) then
    let fs := <[shardPath c (Index sr) := Data sr]> fs in
    if bool_decide (shard_sig d (Data sr) = "") then fs
    else <[signaturePath c (Index sr) := shard_sig d (Data sr)]> fs
  else fs.

Definition uploads (sr : ShardResult) : list (string * ShardUpload) :=
  (fun p => (p, upload_of sr)) <$> filter (fun p => p <> node) (assigned sr).

Lemma proof_of_spec sr : sr ∈ rs ->
  0 <= Index sr < 16 /\ ProofForShard tree (Index sr) = Ok (proof_of sr) /\ LeafIndex (proof_of sr) = Index sr /\
  length (Path (proof_of sr)) = 4%nat /\ Forall (fun h => String.length h = 32%nat) (Path (proof_of sr)) /\
  climb (Sum256 (Data sr)) (Index sr) (Path (proof_of sr)) = root /\ String.length root = 32%nat.
Proof.
  intros Hin. destruct (honest_proof _ _ _ Htree (numbered_shard_of _ Hrs _ Hin)) as (Hi & root' & p & Hr & Hl & Hp & Hcl).
  rewrite Hroot in Hr. injection Hr as <-. unfold proof_of. rewrite (ProofForShard_run _ _ _ _ Htree Hi Hp). cbn.
  split; [done|]. split_and!; try done; [by eapply honest_path_32|]. rewrite <- Hcl. apply climb_length, Sum256_length.
Qed.

Lemma send_all (f : string -> ShardUpload) ps s :
  for_each ps (fun p => when (negb (String.eqb p node)) (send p (f p))) s =
    (Ok tt, mkNode (files s) (rateLimiter s) (outbox s ++ ((fun p => (p, f p)) <$> filter (fun p => p <> node) ps))).
Proof.
  revert s. induction ps as [|p ps IH]; intros s; cbn [for_each].
  - cbn. rewrite app_nil_r. by destruct s.
  - rewrite filter_cons. destruct (String.eqb_spec p node) as [->|Hp]; cbn [negb when].
    + rewrite bind_ret, decide_False by (intros ?; done). apply IH.
    + rewrite decide_True by done. unfold bind, send, modify. rewrite IH. cbn. by rewrite <- app_assoc.
Qed.

Lemma distribute_one_run sr s : sr ∈ rs ->
  distribute_one d node nodes tree root c sr s =
    (Ok (assigned sr), mkNode (keep (files s) sr) (rateLimiter s) (outbox s ++ uploads sr)).
Proof.
  intros Hin. destruct (proof_of_spec sr Hin) as (Hi & Hp & _). destruct (signShardData_run d (Data sr) Hk) as (Hs & _ & _).
  unfold distribute_one. rewrite Hp, Hs. unfold bind at 1, map_err, lift, ret at 1. cbn [fst].
  unfold bind at 1, map_err, lift, ret at 1. unfold keep. fold (assigned sr).
  assert (Hd : Data sr <> "") by (rewrite Forall_forall in Hne; by apply Hne).
  set (st := mkNode _ _ _) in |- *.
  set (loc := when _ _). assert (loc s = (Ok tt, mkNode (files st) (rateLimiter s) (outbox s))) as E.
  { subst loc st. cbn [files]. destruct (existsb _ _); cbn [when]; [|by destruct s].
    rewrite (bind_run _ _ _ tt (mkNode (<[shardPath c (Index sr) := Data sr]> (files s)) (rateLimiter s) (outbox s))).
    2:{ apply map_err_run. unfold on_files. rewrite upload_theorems.StoreShard_run; auto using mkdir_always, write_always.
        by apply index_lt. }
    apply map_err_run. unfold on_files, StoreShardSignature. cbn [files]. case_bool_decide; [done|].
    rewrite mkdir_always, write_always. done. }
  rewrite (bind_run _ _ _ _ _ E). unfold sendShardToPeer. rewrite (bind_run _ _ _ _ _ (send_all (fun _ => upload_of sr) _ _)). done.
Qed.

Lemma distribute_loop_run shs m s : Forall (fun sr => sr ∈ rs) shs ->
  distribute_loop d node nodes tree root c shs m s =
    (Ok (foldl (fun m sr => <[Index sr := assigned sr]> m) m shs),
     mkNode (foldl keep (files s) shs) (rateLimiter s) (outbox s ++ (shs ≫= uploads))).
Proof.
  revert m s. induction shs as [|sr shs IH]; intros m s Hf; cbn [distribute_loop].
  - cbn. rewrite app_nil_r. by destruct s.
  - inversion Hf; subst. rewrite (bind_run _ _ _ _ _ (distribute_one_run _ _ ltac:(done))), IH by done.
    cbn. by rewrite <- app_assoc.
Qed.

(** The map of the metadata. *)
Definition node_map : gmap Z (list string) := foldl (fun m sr => <[Index sr := assigned sr]> m) ∅ rs.

Lemma node_map_lookup idx : 0 <= idx < 16 -> node_map !! idx = Some (assignedNodes nodes c idx).
Proof.
  intros Hi. destruct (numbered_ex rs Hrs idx Hi) as (sr & Hin & <-). unfold node_map.
  assert (Hg : forall (l : list ShardResult) (m : gmap Z (list string)), sr ∈ l \/ m !! Index sr = Some (assigned sr) ->
    foldl (fun m sr => <[Index sr := assigned sr]> m) m l !! Index sr = Some (assigned sr)).
  { induction l as [|x l IH]; intros m; cbn; [intros [?%not_elem_of_nil|?]; done|].
    intros [[->|Hl]%elem_of_cons|Hm]; apply IH; [right; apply lookup_insert_eq|by left|].
    destruct (decide (Index x = Index sr)) as [E|]; [|right; by rewrite lookup_insert_ne].
    right. unfold assigned. rewrite E. apply lookup_insert_eq. }
  apply Hg. by left.
Qed.

(** *** What the nodes hold *)

Definition holds (fs : gmap (string * string) string) (sr : ShardResult) : Prop :=
  fs !! shardPath c (Index sr) = Some (Data sr).

(** Only right shards, and only signatures that verify. *)
Definition good (fs : gmap (string * string) string) : Prop :=
  forall idx, 0 <= idx < 16 ->
    (forall data, fs !! shardPath c idx = Some data -> mkShardResult idx data ∈ rs) /\
    (forall sig, fs !! signaturePath c idx = Some sig -> exists data, mkShardResult idx data ∈ rs /\
       pqc.Verify (Sum256 data) sig (signingPubKey d) = true).

Lemma sr_eta sr : mkShardResult (Index sr) (Data sr) = sr.
Proof. by destruct sr. Qed.

Lemma store_good fs sr : sr ∈ rs -> good fs -> good (<[shardPath c (Index sr) := Data sr]> fs).
Proof.
  intros Hin Hg idx Hi. destruct (numbered_lookup _ Hrs _ Hin) as [Hs _]. destruct (Hg idx Hi) as [H1' H2']. split.
  - intros data [[E <-]|[_ ?]]%lookup_insert_Some; [|by apply H1'].
    apply shardPath_inj in E as <-; [|done..]. by rewrite sr_eta.
  - intros sig. rewrite lookup_insert_ne by (by apply shard_not_sig). apply H2'.
Qed.

Lemma store_holds fs sr sr' : sr ∈ rs -> sr' ∈ rs -> holds fs sr' -> holds (<[shardPath c (Index sr) := Data sr]> fs) sr'.
Proof.
  intros Hin Hin' Hh. unfold holds. destruct (decide (Index sr = Index sr')) as [E|Hn].
  - rewrite (numbered_inj _ Hrs _ _ Hin Hin' E). apply lookup_insert_eq.
  - rewrite lookup_insert_ne; [done|]. intros E. apply Hn. eapply shardPath_inj; [by eapply numbered_lookup..|done].
Qed.

Lemma keep_good fs sr : sr ∈ rs -> good fs -> good (keep fs sr).
Proof.
  intros Hin Hg. unfold keep. destruct (existsb _ _); [|done]. pose proof (store_good fs sr Hin Hg) as Hg'.
  case_bool_decide as Hs; [done|]. intros idx Hi. destruct (Hg' idx Hi) as [H1' H2'].
  destruct (numbered_lookup _ Hrs _ Hin) as [Hi' _]. split.
  - intros data. rewrite lookup_insert_ne by (intros E; by apply (shard_not_sig c idx (Index sr))). apply H1'.
  - intros sig [[E <-]|[_ ?]]%lookup_insert_Some; [|by apply H2']. apply sigPath_inj in E as <-; [|done..].
    exists (Data sr). rewrite sr_eta. split; [done|]. by apply (signShardData_run d (Data sr) Hk).
Qed.

Lemma keep_holds fs sr sr' : sr ∈ rs -> sr' ∈ rs -> holds fs sr' -> holds (keep fs sr) sr'.
Proof.
  intros Hin Hin' Hh. unfold keep. destruct (existsb _ _); [|done]. pose proof (store_holds fs sr sr' Hin Hin' Hh) as Hg'.
  case_bool_decide as Hs; [done|]. unfold holds. rewrite lookup_insert_ne; [done|].
  intros E. by apply (shard_not_sig c (Index sr') (Index sr)); [by eapply numbered_lookup..|].
Qed.

Lemma keep_own fs sr : sr ∈ rs -> node ∈ assigned sr -> holds (keep fs sr) sr.
Proof.
  intros Hin Ha. unfold keep, holds. replace (existsb _ _) with true.
  - case_bool_decide; [apply lookup_insert_eq|]. rewrite lookup_insert_ne; [apply lookup_insert_eq|].
    intros E. by apply (shard_not_sig c (Index sr) (Index sr)); [by eapply numbered_lookup..|].
  - symmetry. apply existsb_exists. exists node. split; [by apply list_elem_of_In|apply String.eqb_refl].
Qed.

Lemma keep_all_good shs fs : Forall (fun sr => sr ∈ rs) shs -> good fs -> good (foldl keep fs shs).
Proof. intros Hf. revert fs. induction Hf; intros fs Hg; cbn; [done|]. auto using keep_good. Qed.

Lemma keep_all_holds shs fs sr : Forall (fun sr => sr ∈ rs) shs -> sr ∈ rs ->
  holds fs sr \/ (sr ∈ shs /\ node ∈ assigned sr) -> holds (foldl keep fs shs) sr.
Proof.
  intros Hf Hin. revert fs. induction Hf as [|x shs Hx Hf IH]; intros fs; cbn; [by intros [?|[?%not_elem_of_nil ?]]|].
  intros [Hh|[[->|Hl]%elem_of_cons Ha]]; apply IH; [left; by apply keep_holds|left; by apply keep_own|by right].
Qed.

(** *** The size of a request *)

Lemma json_field_length name value : String.length (json_field name value) = (String.length name + String.length value + 5)%nat.
Proof. unfold json_field, quoted. rewrite !str_length_app. cbn. rewrite !str_length_app. cbn. lia. Qed.

Lemma json_optional_length name value : (String.length (json_optional name value) <= String.length name + String.length value + 6)%nat.
Proof. unfold json_optional. case_bool_decide; [cbn; lia|]. rewrite str_length_app, json_field_length. cbn. lia. Qed.

Lemma pretty_index_length idx : 0 <= idx < 16 -> (String.length (pretty idx) <= 2)%nat.
Proof. intros Hi. all_idx idx Hi; apply Nat.leb_le; reflexivity. Qed.

Lemma upload_small sr : sr ∈ rs -> String.length c = 32%nat -> Z.of_nat (String.length (Data sr)) <= 25000 ->
  read_body (upload_of sr) = Some (upload_of sr).
Proof.
  intros Hin Hc32 Hsz. destruct (proof_of_spec sr Hin) as (Hi & _ & _ & H4' & H32 & _ & Hr).
  destruct (split_serialize (proof_of sr) H32) as [_ Hlp]. rewrite H4' in Hlp.
  destruct mode5_sizes as (E1 & _ & E3). unfold read_body. rewrite (proj2 (Nat.leb_le _ _)); [done|].
  unfold json_body, upload_of, shard_upload.
  cbn [CommitmentHex up_Index DataHex MerkleRootHex MerkleProofHex ProposerPubkeyHex SignatureHex].
  rewrite !str_length_app, !json_field_length, !hex.Encode_length, Hr, Hc32, Hlp.
  pose proof (pretty_index_length _ Hi) as Hpl. set (pk := if (_ =? mode5_PublicKeySize)%nat then _ else _).
  set (sg := if (_ =? mode5_SignatureSize)%nat then _ else _).
  pose proof (json_optional_length "proposer_pubkey_hex" pk) as L1. pose proof (json_optional_length "signature_hex" sg) as L2.
  assert (String.length pk <= 2 * 2592)%nat by (subst pk; destruct (Nat.eqb_spec (String.length (signingPubKey d)) mode5_PublicKeySize);
    [rewrite hex.Encode_length|cbn [String.length]]; lia).
  assert (String.length sg <= 2 * 4595)%nat by (subst sg; destruct (Nat.eqb_spec (String.length (shard_sig d (Data sr))) mode5_SignatureSize);
    [rewrite hex.Encode_length|cbn [String.length]]; lia).
  change (String.length (quoted "index")) with 7%nat. cbn [String.length String.append Nat.add] in *. unfold hashSize, maxBody. lia.
Qed.

Lemma upload_large sr : 32768 <= Z.of_nat (String.length (Data sr)) -> read_body (upload_of sr) = None.
Proof.
  intros Hsz. unfold read_body. rewrite (proj2 (Nat.leb_gt _ _)); [done|]. unfold json_body, upload_of, shard_upload.
  cbn [DataHex]. rewrite !str_length_app, !json_field_length, hex.Encode_length. unfold maxBody. cbn [String.length]. lia.
Qed.

(** *** Delivery *)

Context (sender : string) (Hsender : sender <> "").

(** An upload of the proposer is stored wherever it arrives. *)
Lemma upload_stored sr fs : sr ∈ rs ->
  handlePostShard (Some (upload_of sr)) fs = (Ok created, <[shardPath c (Index sr) := Data sr]> fs).
Proof.
  intros Hin. destruct (proof_of_spec sr Hin) as (Hi & _ & Hli & H4' & H32 & Hcl & Hr).
  destruct (signShardData_run d (Data sr) Hk) as (_ & Hs & _).
  apply upload_accepted; try done; auto using mkdir_always, write_always; [rewrite Forall_forall in Hne; by apply Hne|by apply index_lt|].
  unfold VerifyProof. cbn [LeafIndex Path]. by rewrite Z.eqb_refl, Hcl, bool_decide_true.
Qed.

Definition small : Prop := Forall (fun sr => Z.of_nat (String.length (Data sr)) <= 25000) rs.

Lemma deliver_upload cl p sr q : sr ∈ rs -> String.length c = 32%nat -> small ->
  spare_at cl p (remote_addr "POST" sender p (Index sr)) 1 ->
  files_at (deliver sender cl (p, upload_of sr)) q =
    if decide (p = q) then <[shardPath c (Index sr) := Data sr]> <$> files_at cl q else files_at cl q.
Proof.
  intros Hin Hc32 Hsm Hsp. unfold small in Hsm. rewrite Forall_forall in Hsm.
  rewrite (deliver_lookup _ _ _ _ _ Hsender), (upload_small sr Hin Hc32 (Hsm _ Hin)) by exact Hsp.
  case_decide; [|done]. destruct (files_at cl q); [|done]. cbn [fmap option_fmap option_map]. by rewrite upload_stored.
Qed.

Lemma deliver_large cl p sr q : 32768 <= Z.of_nat (String.length (Data sr)) ->
  files_at (deliver sender cl (p, upload_of sr)) q = files_at cl q.
Proof.
  intros Hl. rewrite (deliver_files _ _ _ _ _ Hsender). destruct (cl !! p) as [s|] eqn:E; [|done].
  case_decide; [subst|done]. unfold files_at. rewrite E, (upload_large _ Hl). by destruct (fst (Allow _ _ _)).
Qed.

Definition all_good (cl : Cluster) : Prop := forall q fs, files_at cl q = Some fs -> good fs.

Definition node_holds (cl : Cluster) (q : string) (sr : ShardResult) : Prop := exists fs, files_at cl q = Some fs /\ holds fs sr.

(** How many of the messages go to a node. *)
Definition sent (msgs : list (string * ShardUpload)) (p : string) : Z := Z.of_nat (length (filter (fun m => m.1 = p) msgs)).

Lemma sent_cons p up msgs q : sent ((p, up) :: msgs) q = (if decide (p = q) then 1 else 0) + sent msgs q.
Proof. unfold sent. rewrite filter_cons. cbn [fst]. case_decide; cbn [length]; lia. Qed.

Lemma deliver_all_spare msgs : forall cl q addr k, 0 <= k ->
  spare_at cl q addr (k + sent msgs q) -> spare_at (deliver_all sender cl msgs) q addr k.
Proof.
  induction msgs as [|[p up] msgs IH]; intros cl q addr k Hk0 Hsp; [by rewrite Z.add_0_r in Hsp|].
  cbn [deliver_all foldl]. apply IH; [done|]. rewrite sent_cons in Hsp. apply deliver_spare; [unfold sent; lia|].
  by replace (k + sent msgs q + (if decide (p = q) then 1 else 0)) with (k + ((if decide (p = q) then 1 else 0) + sent msgs q)) by lia.
Qed.

Lemma deliver_all_spec msgs cl : String.length c = 32%nat -> small ->
  Forall (fun m => exists sr, sr ∈ rs /\ m.2 = upload_of sr) msgs -> all_good cl ->
  (forall p idx, 0 <= idx < 16 -> spare_at cl p (remote_addr "POST" sender p idx) (sent msgs p)) ->
  all_good (deliver_all sender cl msgs) /\
  (forall q sr, sr ∈ rs -> node_holds cl q sr -> node_holds (deliver_all sender cl msgs) q sr) /\
  (forall q sr, sr ∈ rs -> (q, upload_of sr) ∈ msgs -> is_Some (files_at cl q) -> node_holds (deliver_all sender cl msgs) q sr).
Proof.
  intros Hc32 Hsm Hm. revert cl. induction Hm as [|[p up] msgs (sr & Hin & Eup) Hm IH]; intros cl Hg Hsp.
  { split; [done|]. split; [done|]. by intros ? ? ? ?%not_elem_of_nil. }
  cbn in Eup. subst up. cbn [deliver_all foldl]. set (cl1 := deliver sender cl (p, upload_of sr)).
  destruct (numbered_lookup _ Hrs _ Hin) as [Hi _].
  assert (Hl : forall q, files_at cl1 q = if decide (p = q) then <[shardPath c (Index sr) := Data sr]> <$> files_at cl q else files_at cl q).
  { intros q. apply deliver_upload; [done..|]. intros s Es. apply (spare_le _ _ (sent ((p, upload_of sr) :: msgs) p)); [|by apply Hsp].
    rewrite sent_cons, decide_True by done. unfold sent. lia. }
  assert (Hg1 : all_good cl1).
  { intros q fs. rewrite Hl. case_decide; [|apply Hg]. destruct (files_at cl q) eqn:E; cbn; [|done].
    intros [= <-]. apply store_good; [done|]. by eapply Hg. }
  assert (Hsp1 : forall q idx, 0 <= idx < 16 -> spare_at cl1 q (remote_addr "POST" sender q idx) (sent msgs q)).
  { intros q idx Hidx. apply deliver_spare; [unfold sent; lia|]. rewrite Z.add_comm, <- (sent_cons p (upload_of sr)). by apply Hsp. }
  destruct (IH cl1 Hg1 Hsp1) as (IHg & IHk & IHn). split; [done|]. split.
  - intros q sr' Hin' (fs & Ef & Hh). apply IHk; [done|]. unfold node_holds. rewrite Hl, Ef. case_decide; [|eauto].
    eexists. split; [done|]. by apply store_holds.
  - intros q sr' Hin' [E|Hl']%elem_of_cons [fs Ef].
    + apply pair_eq in E as [-> Eu%(f_equal up_Index)]. change (Index sr' = Index sr) in Eu. apply IHk; [done|]. unfold node_holds. rewrite Hl, Ef, decide_True by done.
      eexists. split; [done|]. rewrite (numbered_inj _ Hrs _ _ Hin' Hin Eu). apply lookup_insert_eq.
    + apply IHn; [done..|]. rewrite Hl, Ef. case_decide; by eexists.
Qed.

(** *** Fetching *)

Lemma get_shard peer fs idx : 0 <= idx < 16 ->
  handleGetShard (get_request sender peer (pqc.EncodeToString c) idx) fs =
    match fs !! shardPath c idx with
    | None => http_Error "shard not found" StatusNotFound
    | Some data => mkResponse StatusOK data
        (match fs !! signaturePath c idx with Some sig => pqc.EncodeToString sig | None => "" end)
    end.
Proof.
  intros Hi. unfold handleGetShard. cbn [query_commitment query_index get_request].
  by rewrite hex.Decode_Encode, Atoi_index.
Qed.

Context (meta : TFHEShardMeta) (Hmc : CommitmentHash meta = c) (Hmp : ProposerPubkey meta = signingPubKey d).

Lemma str_take_short s n : (String.length s <= n)%nat -> str_take n s = s.
Proof. revert n. induction s as [|a s IH]; intros [|n] Hn; cbn in *; [done..|lia|]. f_equal. apply IH. lia. Qed.

(** What a node fetches is right and kept. *)
Definition fetchable (cl : Cluster) : Prop := forall p idx, 0 <= idx < 16 ->
  spare_at cl p (remote_addr "GET" sender p idx) (1 + Z.of_nat (length (asked_before sender p idx))).

Lemma fetch_right running cl p idx : all_good cl -> small -> fetchable cl -> 0 <= idx < 16 ->
  match fetchShardFromPeer (cluster_get running cl sender) p c idx with
  | Ok (data, sig) => mkShardResult idx data ∈ rs /\ accept_fetched meta data sig = true
  | Err _ => forall sr, Index sr = idx -> p ∈ running -> ~ node_holds cl p sr
  | Panic => False
  end.
Proof.
  intros Hg Hsm Hft Hi. unfold fetchShardFromPeer, cluster_get. case_bool_decide as Hrun; [|by intros]. unfold node_holds, files_at.
  destruct (cl !! p) as [s|] eqn:E; [|by intros ? ? ? (? & ? & ?)].
  destruct (gets_run sender p (pqc.EncodeToString c) (asked_before sender p idx) s Hsender) as [Hfs Hlim].
  rewrite get_run by (done || (apply Hlim; [lia|by apply Hft])). rewrite Hfs, get_shard by done. destruct (files s !! shardPath c idx) as [data|] eqn:Ed.
  2:{ cbn [StatusCode http_Error]. change (StatusNotFound =? StatusNotFound) with true. cbn iota.
      intros sr <- _ (fs & Ef & Hh). cbn in Ef. injection Ef as <-. unfold holds in Hh. congruence. }
  assert (good (files s)) as Hgs by (apply (Hg p); unfold files_at; by rewrite E).
  destruct (Hgs idx Hi) as [Hd Hs]. pose proof (Hd data Ed) as Hin. cbn [StatusCode RespBody XShardSignature Z.eqb negb StatusOK StatusNotFound].
  change (200 =? 404) with false. cbn iota.
  rewrite str_take_short; [|unfold small in Hsm; rewrite Forall_forall in Hsm; specialize (Hsm _ Hin); cbn in Hsm; unfold maxBody; lia].
  split; [done|]. unfold accept_fetched. rewrite Hmp. destruct mode5_sizes as (E1 & _ & E3).
  destruct (files s !! signaturePath c idx) as [sig|] eqn:Es.
  - rewrite hex.Decode_Encode. cbn. destruct (Hs sig eq_refl) as (data' & Hin' & Hv).
    pose proof (numbered_inj _ Hrs _ _ Hin Hin' eq_refl) as [= ->]. by destruct (_ && _).
  - destruct (_ && _) eqn:Eb; [|done]. apply andb_true_iff in Eb as [_ Eb%Nat.eqb_eq].
    change (String.length (default "" (hex.DecodeString ""))) with 0%nat in Eb. lia.
Qed.

Section Reader.
Context (running : gset string) (cl : Cluster) (Hg : all_good cl) (Hsm : small) (Hft : fetchable cl) (dB : ShardDistributor) (Hb : nodeID dB = sender).

Lemma first_kept_right idx peers sr : 0 <= idx < 16 ->
  first_kept (cluster_get running cl sender) dB meta idx peers = Some sr -> sr ∈ rs.
Proof.
  intros Hi. induction peers as [|p peers IH]; [done|]. cbn [first_kept]. destruct (String.eqb _ _); [done|].
  rewrite Hmc. pose proof (fetch_right running cl p idx Hg Hsm Hft Hi) as Hf.
  destruct (fetchShardFromPeer _ _ _ _) as [[data sig]|e|]; [|done..]. destruct Hf as [Hin ->]. by intros [= <-].
Qed.

Lemma first_kept_found idx peers sr p : 0 <= idx < 16 -> Index sr = idx ->
  p ∈ peers -> p <> nodeID dB -> p ∈ running -> node_holds cl p sr ->
  is_Some (first_kept (cluster_get running cl sender) dB meta idx peers).
Proof.
  intros Hi Hsr Hp Hpn Hr Hh. induction peers as [|p' peers IH]; [by apply not_elem_of_nil in Hp|]. cbn [first_kept].
  destruct (String.eqb_spec p' (nodeID dB)) as [->|Hp']; [apply elem_of_cons in Hp as [?|?]; [done|by apply IH]|].
  rewrite Hmc. pose proof (fetch_right running cl p' idx Hg Hsm Hft Hi) as Hf.
  destruct (fetchShardFromPeer _ _ _ _) as [[data sig]|e|]; [|apply elem_of_cons in Hp as [->|?]; [|by apply IH]|done].
  - destruct Hf as [_ ->]. by eexists.
  - by destruct (Hf sr Hsr Hr).
Qed.
End Reader.
End Distribution.

(** *** Where shards are placed *)

Lemma mod_once a n : (a < 2 * n)%nat -> (a mod n = if (a <? n)%nat then a else a - n)%nat.
Proof.
  intros Ha. destruct (Nat.ltb_spec a n); [by apply Nat.mod_small|].
  symmetry. apply Nat.mod_unique with (q := 1%nat); lia.
Qed.

Section Placement.
Context `{Sha256}.

Lemma assignedNodes_spec nodes c idx : NoDup nodes -> nodes <> [] ->
  NoDup (assignedNodes nodes c idx) /\ length (assignedNodes nodes c idx) = Nat.min ReplicationFactor (length nodes) /\
  (forall p, p ∈ assignedNodes nodes c idx -> p ∈ nodes).
Proof.
  intros Hnd Hn. assert (0 < length nodes)%nat by (destruct nodes; [done|cbn; lia]).
  unfold assignedNodes. set (n := length nodes) in *. set (primary := primaryIdx c idx n).
  assert (primary < n)%nat by (apply Nat.mod_upper_bound; lia).
  assert (Hl : forall r, nodes !! ((primary + r) mod n)%nat = Some (default "" (nodes !! ((primary + r) mod n)%nat))).
  { intros r. destruct (lookup_lt_is_Some_2 nodes ((primary + r) mod n)) as [p Hp]; [apply Nat.mod_upper_bound; lia|by rewrite Hp]. }
  split; [|split; [by rewrite length_fmap, length_seq|]].
  - apply NoDup_fmap_2_strong; [|apply NoDup_seq]. intros x y Hx%elem_of_seq Hy%elem_of_seq E.
    pose proof (NoDup_lookup _ _ _ _ Hnd (Hl x) ltac:(rewrite E; exact (Hl y))) as Em. rewrite !mod_once in Em by lia.
    destruct (Nat.ltb_spec (primary + x) n), (Nat.ltb_spec (primary + y) n); lia.
  - intros p (r & -> & _)%list_elem_of_fmap. eapply list_elem_of_lookup_2, Hl.
Qed.

(** With fewer nodes down than copies, a copy is on a running node. *)
Lemma running_copy nodes c idx (running : gset string) : NoDup nodes -> nodes <> [] ->
  (length (filter (fun p => p ∉ running) nodes) < Nat.min ReplicationFactor (length nodes))%nat ->
  exists p, p ∈ assignedNodes nodes c idx /\ p ∈ running.
Proof.
  intros Hnd Hn Hd. destruct (assignedNodes_spec nodes c idx Hnd Hn) as (Ha & Hl & Hs).
  destruct (decide (Exists (fun p => p ∈ running) (assignedNodes nodes c idx))) as [(p & Hp & Hr)%Exists_exists|Hno]; [eauto|].
  exfalso. assert (Hsub : assignedNodes nodes c idx ⊆+ filter (fun p => p ∉ running) nodes).
  { apply NoDup_submseteq; [done|]. intros p Hp. apply list_elem_of_filter. split; [|by apply Hs].
    intros Hr. apply Hno, Exists_exists. eauto. }
  apply submseteq_length in Hsub. lia.
Qed.

Lemma clusterMap_node env node peers : node ∈ clusterMap env node peers.
Proof.
  assert (Hf : forall ps (m : gset string), node ∈ m -> node ∈ foldl add_peer m ps).
  { induction ps as [|p ps IH]; intros m Hm; [done|]. apply IH. unfold add_peer. case_bool_decide; set_solver. }
  unfold clusterMap. case_bool_decide; [apply Hf; set_solver|]. apply Hf, Hf. set_solver.
Qed.

Lemma clusterNodes_spec env node peers :
  NoDup (clusterNodes env node peers) /\ node ∈ clusterNodes env node peers /\ clusterNodes env node peers <> [].
Proof.
  unfold clusterNodes. pose proof (merge_sort_Permutation str_le (elements (clusterMap env node peers))) as Hp.
  assert (node ∈ merge_sort str_le (elements (clusterMap env node peers))) as Hin
    by (rewrite Hp; apply elem_of_elements, clusterMap_node).
  split; [rewrite Hp; apply NoDup_elements|]. split; [done|]. intros E. rewrite E in Hin. by apply not_elem_of_nil in Hin.
Qed.
End Placement.

(** ** The cluster's promises *)

Section Promises.
Context `{Crypto} {keypair : string -> string -> Prop} `{!CryptoLaws keypair} `{!Mode5Sizes}.
Context `{Sha256} `{!Sha256Laws} `{Disk} `{!Writable} `{ReedSolomon} `{!ReedSolomonLaws} `{Network}.

Definition set_OriginalLen (n : Z) (meta : TFHEShardMeta) : TFHEShardMeta :=
  mkTFHEShardMeta (CommitmentHash meta) n (ShardNodeMap meta) (MerkleRoot meta) (ProposerPubkey meta).

Lemma DistributeShards_run env d rs c peers s tree root (node := local_nodeID env d) (nodes := clusterNodes env node peers) :
  keyed (keypair := keypair) d -> c <> "" -> numbered rs -> BuildMerkleTree rs = Ok tree -> Root tree = Ok root ->
  Forall (fun sr => Data sr <> "") rs ->
  DistributeShards env d rs c peers s =
    (Ok (mkTFHEShardMeta c 0 (node_map c rs nodes) root (signingPubKey d)),
     mkNode (foldl (keep d c node nodes) (files s) rs) (rateLimiter s)
       (outbox s ++ (rs ≫= uploads d c tree root node nodes))).
Proof.
  intros Hk Hc Hrs Ht Hr Hne. unfold DistributeShards. rewrite (proj1 Hrs), Nat.eqb_refl, Ht. cbn [negb].
  unfold bind at 1, map_err, lift, ret at 1. rewrite Hr. unfold bind at 1, ret at 1. fold node nodes.
  rewrite (bind_run _ _ _ _ _ (distribute_loop_run d c rs tree root Hk Hc Hrs Ht Hr Hne node nodes rs ∅ s ltac:(by apply Forall_forall))).
  done.
Qed.

(** Every node that is given a shard and is not the proposer is sent it. *)
Lemma uploads_elem d c rs tree root node nodes sr p : sr ∈ rs -> p ∈ assigned c nodes sr -> p <> node ->
  (p, upload_of d c tree root sr) ∈ (rs ≫= uploads d c tree root node nodes).
Proof.
  intros Hin Hp Hn. apply list_elem_of_bind. exists sr. split; [|done]. unfold uploads. apply list_elem_of_fmap. exists p. split; [done|].
  by apply list_elem_of_filter.
Qed.

Lemma uploads_form d c rs tree root node nodes :
  Forall (fun m => exists sr, sr ∈ rs /\ m.2 = upload_of d c tree root sr) ((rs ≫= uploads d c tree root node nodes)).
Proof.
  apply Forall_forall. intros m (sr & Hm & Hin)%list_elem_of_bind.
  apply list_elem_of_fmap in Hm as (p & -> & _). exists sr. done.
Qed.

(** A node is sent at most one upload for each of the sixteen shards. *)
Lemma uploads_sent d c tree root node nodes shs p : NoDup nodes -> nodes <> [] ->
  sent (shs ≫= uploads d c tree root node nodes) p <= Z.of_nat (length shs).
Proof.
  intros Hnd Hn. unfold sent. induction shs as [|sr shs IH]; [done|].
  cbn [mbind list_bind]. rewrite filter_app, length_app. cbn [length].
  enough (length (filter (fun m => m.1 = p) (uploads d c tree root node nodes sr)) <= 1)%nat by (cbn in IH; lia).
  unfold uploads. destruct (assignedNodes_spec nodes c (Index sr) Hnd Hn) as (Ha & _ & _).
  apply (NoDup_filter (fun p => p <> node)) in Ha. fold (assigned c nodes sr) in Ha.
  induction Ha as [|q l Hq Ha IHl]; [cbn; lia|]. rewrite fmap_cons, filter_cons. cbn [fst].
  case_decide; [subst|exact IHl]. cbn [length]. enough (filter (fun m : string * ShardUpload => m.1 = p) ((fun p => (p, upload_of d c tree root sr)) <$> l) = []) as -> by done.
  clear -Hq. induction l as [|q l IH]; [done|]. rewrite fmap_cons, filter_cons. cbn [fst].
  rewrite decide_False by (intros ->; apply Hq; left). apply IH. intros Hx. apply Hq. by right.
Qed.

(** The limiters have room: for every node and every address [sender] uploads
    from, for one upload of each shard; for every address [reader] fetches
    from, for these and one fetch of each shard. *)
Definition uploadable (sender : string) (cl : gmap string Node) : Prop :=
  forall p idx, 0 <= idx < 16 -> spare_at cl p (remote_addr "POST" sender p idx) 16.
Definition readable (reader : string) (cl : gmap string Node) : Prop :=
  forall p idx, 0 <= idx < 16 -> spare_at cl p (remote_addr "GET" reader p idx) 32.

(** Nothing is stored under the commitment yet. *)
Definition fresh (c : string) (cl : Cluster) : Prop :=
  forall q s name, cl !! q = Some s -> files s !! (shardDir c, name) = None.

Lemma fresh_good d c rs cl : fresh c cl -> all_good d c rs cl.
Proof.
  intros Hf q fs. unfold files_at. destruct (cl !! q) as [s|] eqn:E; [|done]. intros [= <-] idx _.
  split; intros x Hx; unfold shardPath, signaturePath in Hx; rewrite (Hf q s) in Hx; done.
Qed.

(** After a distribution, and the delivery of what it sent, every node of the
    cluster holds the shards assigned to it, and no node holds a wrong one. *)
Lemma distribution_spec env d rs c peers cl s tree root (nodes := clusterNodes env (nodeID d) peers) :
  keyed (keypair := keypair) d -> nodeID d <> "" -> String.length c = 32%nat -> numbered rs -> small rs ->
  BuildMerkleTree rs = Ok tree -> Root tree = Ok root -> Forall (fun sr => Data sr <> "") rs ->
  (forall p, p ∈ nodes -> is_Some (cl !! p)) -> fresh c cl -> uploadable (nodeID d) cl -> cl !! nodeID d = Some s -> outbox s = [] ->
  exists s', DistributeShards env d rs c peers s = (Ok (mkTFHEShardMeta c 0 (node_map c rs nodes) root (signingPubKey d)), s') /\
    let cl' := deliver_all (nodeID d) (<[nodeID d := s']> cl) (outbox s') in
    all_good d c rs cl' /\ (forall sr p, sr ∈ rs -> p ∈ assigned c nodes sr -> node_holds c cl' p sr) /\
    forall p addr, spare_at cl p addr 32 -> spare_at cl' p addr 16.
Proof.
  intros Hk Hid Hc Hrs Hsm Ht Hr Hne Hdom Hf Hup Hs Ho. assert (c <> "") as Hc0 by (by intros ->).
  assert (local_nodeID env d = nodeID d) as El by (unfold local_nodeID; by rewrite bool_decide_false).
  pose proof (DistributeShards_run env d rs c peers s tree root Hk Hc0 Hrs Ht Hr Hne) as E. rewrite El, Ho in E. fold nodes in E.
  eexists. split; [exact E|]. cbn [outbox app]. set (s' := mkNode _ _ _). set (cl0 := <[nodeID d := s']> cl).
  assert (Hall : Forall (fun sr => sr ∈ rs) rs) by (by apply Forall_forall).
  assert (Hown : files_at cl0 (nodeID d) = Some (files s')) by (unfold files_at, cl0; by rewrite lookup_insert_eq).
  assert (all_good d c rs cl0) as Hg.
  { intros q fs. unfold files_at, cl0. destruct (decide (nodeID d = q)) as [<-|Hq].
    - rewrite lookup_insert_eq. intros [= <-]. apply (keep_all_good (keypair := keypair)); [done..|].
      eapply (fresh_good d c rs cl Hf (nodeID d)). unfold files_at. by rewrite Hs.
    - rewrite lookup_insert_ne by done. by apply (fresh_good d c rs cl Hf q). }
  pose proof (clusterNodes_spec env (nodeID d) peers) as (Hnd & _ & Hnn). fold nodes in Hnd, Hnn.
  assert (forall p, sent (rs ≫= uploads d c tree root (nodeID d) nodes) p <= 16) as Hsent
    by (intros p; etrans; [by apply uploads_sent|rewrite (proj1 Hrs); done]).
  assert (Hsp0 : forall p addr k, spare_at cl p addr k -> spare_at cl0 p addr k).
  { intros p addr k Hsp s1. unfold cl0. destruct (decide (nodeID d = p)) as [<-|Hp];
      [rewrite lookup_insert_eq; intros [= <-]; exact (Hsp s Hs)|rewrite lookup_insert_ne by done; apply Hsp]. }
  destruct (deliver_all_spec (keypair := keypair) d c rs tree root Hk Hc0 Hrs Ht Hr Hne (nodeID d) Hid
    (rs ≫= uploads d c tree root (nodeID d) nodes) cl0) as (Hg' & Hkeep & Hnew); [done..|apply uploads_form|done| |].
  { intros p idx Hidx s1 Es. apply (spare_le _ _ 16); [apply Hsent|]. by apply (Hsp0 p _ 16 (Hup p idx Hidx)). }
  split; [exact Hg'|]. split.
  2:{ intros p addr Hsp. apply deliver_all_spare; [lia|]. intros s1 Es. apply (spare_le _ _ 32); [|by apply (Hsp0 p addr 32)].
      specialize (Hsent p). lia. }
  intros sr p Hin Hp. destruct (decide (p = nodeID d)) as [->|Hpn].
  - apply Hkeep; [done|]. exists (files s'). split; [done|]. eapply keep_all_holds; [exact Hrs|exact Hall|done|by right].
  - apply Hnew; [done|by apply uploads_elem|]. unfold files_at, cl0. rewrite lookup_insert_ne by done.
    destruct (Hdom p) as [sp ->]; [|by eexists]. by eapply (assignedNodes_spec nodes c (Index sr)).
Qed.

(** Recovery from the cluster.  For a ciphertext that splits into shards
    of at most 25,000 bytes, a proposer that signs with a key pair or not at
    all, and a cluster in which every node exists, nothing is stored under the
    commitment, and the rate limiters have room for one upload of each shard
    from the proposer and one fetch of each from the reader: DistributeShards
    succeeds, and once what it sent has been delivered, ReconstructCiphertext
    gives the ciphertext back on every node of the cluster, as long as fewer
    nodes are down than there are copies of a shard: 4, or all the nodes when
    there are fewer. *)
Theorem cluster_recovers env d c data rs peers cl s (nodes := clusterNodes env (nodeID d) peers) :
  Split data = Ok rs -> Forall (fun sr => 0 < Z.of_nat (String.length (Data sr)) <= 25000) rs ->
  String.length c = 32%nat -> keyed (keypair := keypair) d -> nodeID d <> "" ->
  (forall p, p ∈ nodes -> is_Some (cl !! p)) -> fresh c cl -> uploadable (nodeID d) cl -> cl !! nodeID d = Some s -> outbox s = [] ->
  exists meta s', DistributeShards env d rs c peers s = (Ok meta, s') /\
    let cl' := deliver_all (nodeID d) (<[nodeID d := s']> cl) (outbox s') in
    forall running dB sB, (length (filter (fun p => p ∉ running) nodes) < Nat.min ReplicationFactor (length nodes))%nat ->
      nodeID dB <> "" -> cl' !! nodeID dB = Some sB -> readable (nodeID dB) cl ->
      (forall p idx, 0 <= idx < 16 -> (length (asked_before (nodeID dB) p idx) < 16)%nat) ->
      fst (ReconstructCiphertext (cluster_get running cl' (nodeID dB)) dB
             (Some (set_OriginalLen (Z.of_nat (String.length data)) meta)) (files sB)) = Ok data.
Proof.
  intros Hsp Hsz Hc Hk Hid Hdom Hf Hup Hs Ho. assert (data <> "") as Hd by (intros ->; discriminate Hsp).
  destruct (Split_total data Hd) as (rs' & E & Hl & Hi). rewrite Hsp in E. injection E as <-.
  assert (numbered rs) as Hrs by done. destruct (numbered_tree rs Hrs) as (tree & root & Ht & Hr).
  assert (Forall (fun sr => Data sr <> "") rs) as Hne by (eapply Forall_impl; [exact Hsz|]; intros sr [? _] E; rewrite E in *; done).
  assert (small rs) as Hsm by (eapply Forall_impl; [exact Hsz|]; intros sr [_ ?]; done).
  destruct (distribution_spec env d rs c peers cl s tree root) as (s' & E & Hg & Hh & Hroom); [done..|].
  eexists _, s'. split; [exact E|]. fold nodes in Hh |- *. intros cl' running dB sB Hrun Hb HsB Hrd Hask. fold cl' in Hg, Hh, Hroom.
  assert (fetchable (nodeID dB) cl') as Hft.
  { intros p idx Hidx sp Ep. specialize (Hask p idx Hidx). apply (spare_le _ _ 16); [lia|]. by apply (Hroom p _ (Hrd p idx Hidx)). }
  pose proof (clusterNodes_spec env (nodeID d) peers) as (Hnd & _ & Hnn). fold nodes in Hnd, Hnn.
  set (meta := set_OriginalLen _ _). rewrite (reconstruct_available _ _ _ data rs); [|done..| |].
  - rewrite filter_length_all; [done|]. intros idx Hidx%all_indices_spec.
    destruct (numbered_ex rs Hrs idx Hidx) as (sr & Hin & Esr).
    destruct (running_copy nodes c idx running Hnd Hnn Hrun) as (p & Hp & Hpr).
    assert (node_holds c cl' p sr) as Hps by (apply Hh; [done|]; unfold assigned; by rewrite Esr).
    unfold available, remote_shard. cbn [meta set_OriginalLen ShardNodeMap]. rewrite node_map_lookup by done. cbn [default].
    destruct (decide (p = nodeID dB)) as [->|Hpn]; [left|right].
    + destruct Hps as (fs & Ef & Hhs). unfold files_at in Ef. rewrite HsB in Ef. injection Ef as <-.
      unfold local_shard, LoadShard. cbn. unfold holds in Hhs. rewrite Esr in Hhs. by rewrite Hhs.
    + by eapply (first_kept_found d c).
  - intros idx sr El Hidx%all_indices_spec. unfold local_shard, LoadShard in El. cbn in El.
    destruct (files sB !! shardPath c idx) as [x|] eqn:Ex; [|done]. injection El as <-.
    assert (good d c rs (files sB)) as HgB by (apply (Hg (nodeID dB)); unfold files_at; by rewrite HsB).
    by apply (HgB idx Hidx).
  - intros idx sr El Hidx%all_indices_spec. by eapply (first_kept_right d c rs Hrs _ Hb meta).
Qed.

(** Large shards stay at home.  When the shards of a ciphertext have 32,768
    bytes or more (TFHESubmit's own limit on a ciphertext is 512 KB, but its
    ValidateBasic stops at 32 KB), DistributeShards succeeds and records copies on up to four nodes for every
    shard, but delivering what it sent changes no node's files: the JSON body
    with the data in hex is longer than the 64 KB a node reads of it. *)
Theorem large_shards_stay_home env d c data rs peers s (nodes := clusterNodes env (nodeID d) peers) :
  Split data = Ok rs -> Forall (fun sr => 32768 <= Z.of_nat (String.length (Data sr))) rs ->
  c <> "" -> keyed (keypair := keypair) d -> nodeID d <> "" -> outbox s = [] ->
  exists meta s', DistributeShards env d rs c peers s = (Ok meta, s') /\
    (forall idx, 0 <= idx < 16 -> ShardNodeMap meta !! idx = Some (assignedNodes nodes c idx) /\
       length (assignedNodes nodes c idx) = Nat.min ReplicationFactor (length nodes)) /\
    forall cl p, files_at (deliver_all (nodeID d) cl (outbox s')) p = files_at cl p.
Proof.
  intros Hsp Hsz Hc Hk Hid Ho. assert (data <> "") as Hd by (intros ->; discriminate Hsp).
  destruct (Split_total data Hd) as (rs' & E & Hl & Hi). rewrite Hsp in E. injection E as <-.
  assert (numbered rs) as Hrs by done. destruct (numbered_tree rs Hrs) as (tree & root & Ht & Hr).
  assert (Forall (fun sr => Data sr <> "") rs) as Hne by (eapply Forall_impl; [exact Hsz|]; intros sr Hx E; cbn beta in Hx; rewrite E in Hx; done).
  assert (local_nodeID env d = nodeID d) as El by (unfold local_nodeID; by rewrite bool_decide_false).
  pose proof (DistributeShards_run env d rs c peers s tree root Hk Hc Hrs Ht Hr Hne) as E. rewrite El, Ho in E. fold nodes in E.
  pose proof (clusterNodes_spec env (nodeID d) peers) as (Hnd & _ & Hnn).
  eexists _, _. split; [exact E|]. split.
  - intros idx Hidx. split; [by apply node_map_lookup|]. by apply assignedNodes_spec.
  - intros cl q. cbn [outbox app]. pose proof (uploads_form d c rs tree root (nodeID d) nodes) as Hf.
    clear E. revert cl. induction Hf as [|[p up] msgs (sr & Hin & Eup) Hf IH]; intros cl; [done|]. cbn in Eup. subst up. cbn [deliver_all foldl].
    etrans; [apply IH|]. apply deliver_large; [done|]. rewrite Forall_forall in Hsz. by apply Hsz.
Qed.

Lemma forged_upload_small c idx data : String.length c = 32%nat -> 0 <= idx < 16 ->
  Z.of_nat (String.length data) <= 32000 -> read_body (forged_upload c idx data) = Some (forged_upload c idx data).
Proof.
  intros Hc Hi Hsz. destruct (forged_upload_unsigned c idx data) as [Ep Es]. unfold read_body.
  rewrite (proj2 (Nat.leb_le _ _)); [done|]. unfold json_body. rewrite Ep, Es.
  change (json_optional "proposer_pubkey_hex" "") with "". change (json_optional "signature_hex" "") with "".
  unfold forged_upload, shard_upload. cbn [CommitmentHex up_Index DataHex MerkleRootHex MerkleProofHex].
  destruct (split_serialize (mkMerkleProof idx (replicate 4 zeroHash))) as [_ Hlp]; [by apply Forall_replicate|].
  rewrite !str_length_app, !json_field_length, !hex.Encode_length, Hc, Hlp, climb_length by apply Sum256_length.
  change (String.length (quoted "index")) with 7%nat. pose proof (pretty_index_length _ Hi).
  cbn [String.length String.append Nat.add Path length replicate]. unfold hashSize, maxBody. lia.
Qed.

(** Anybody can replace a shard.  For every node that has no signature
    for the index (only the proposer stores any) and room in its limiter, and
    every commitment, index and data of at most 32,000 bytes, there is an upload with neither key nor
    signature after which the node answers requests for that shard with the
    data, and every node keeps the answer, whatever key the metadata names. *)
Theorem forged_shard_accepted cl p s c idx data attacker :
  String.length c = 32%nat -> 0 <= idx < 16 -> 0 < Z.of_nat (String.length data) <= 32000 -> attacker <> "" ->
  cl !! p = Some s -> files s !! signaturePath c idx = None ->
  exists up, ProposerPubkeyHex up = "" /\ SignatureHex up = "" /\
    forall running reader meta, p ∈ running -> reader <> "" ->
      spare_at cl p (remote_addr "POST" attacker p idx) 1 ->
      spare_at cl p (remote_addr "GET" reader p idx) (2 + Z.of_nat (length (asked_before reader p idx))) ->
      fetchShardFromPeer (cluster_get running (deliver attacker cl (p, up)) reader) p c idx = Ok (data, "") /\
      accept_fetched meta data "" = true.
Proof.
  intros Hc Hi Hsz Ha Hs Hsig. exists (forged_upload c idx data).
  destruct (forged_upload_unsigned c idx data) as [Ep Es]. split; [done|]. split; [done|]. intros running reader meta Hr Hrd Hroom Hroom'.
  pose proof (deliver_lookup attacker cl p (forged_upload c idx data) p Ha Hroom) as Hl.
  assert (spare_at (deliver attacker cl (p, forged_upload c idx data)) p (remote_addr "GET" reader p idx)
    (1 + Z.of_nat (length (asked_before reader p idx)))) as Hsp.
  { apply deliver_spare; [lia|]. rewrite decide_True by done.
    by replace (1 + Z.of_nat (length (asked_before reader p idx)) + 1) with (2 + Z.of_nat (length (asked_before reader p idx))) by lia. }
  unfold files_at in Hl. rewrite decide_True, Hs, forged_upload_small in Hl by (done || lia).
  cbn [fmap option_fmap option_map] in Hl.
  rewrite post_shard_open in Hl; [|by intros ->|intros ->; cbn in Hsz; lia|by apply index_lt|apply mkdir_always|apply write_always].
  cbn [snd] in Hl. set (cl' := deliver _ _ _) in *. split.
  - unfold fetchShardFromPeer, cluster_get. rewrite bool_decide_true by done.
    destruct (cl' !! p) as [s'|] eqn:Es'; [|done]. injection Hl as Hf.
    destruct (gets_run reader p (pqc.EncodeToString c) (asked_before reader p idx) s' Hrd) as [Hfs Hlim].
    rewrite get_run by (done || (apply Hlim; [lia|by apply Hsp])).
    rewrite Hfs, get_shard, Hf, lookup_insert_eq, lookup_insert_ne, Hsig by (done || by apply shard_not_sig).
    cbn [StatusCode RespBody XShardSignature]. change (StatusOK =? StatusNotFound) with false. change (StatusOK =? StatusOK) with true.
    cbn [negb]. rewrite str_take_short by (unfold maxBody; lia). done.
  - unfold accept_fetched. destruct mode5_sizes as (_ & _ & E3). rewrite E3. by rewrite andb_false_r.
Qed.
End Promises.

(** ** The theorems at concrete inputs *)

Section ClusterWitnesses.
Import keys_toy.
#[local] Existing Instance keys_toy.crypto.
#[local] Existing Instance toy_sha256.
#[local] Existing Instance toy_sha256_laws.
#[local] Existing Instance toy_rs.
#[local] Existing Instance toy_rs_laws.

#[local] Instance disk : Disk := {| mkdir_ok _ := true; write_ok _ := true; remove_ok _ := true |}.

#[local] Instance disk_writable : Writable.
Proof. by split. Qed.

#[local] Instance crypto_sizes : Mode5Sizes.
Proof. by split. Qed.

(** Every request comes over a connection of its own sender, at the start of a
    window, and the reader asks every peer for every shard. *)
#[local] Instance network : Network := {|
  remote_addr _ sender _ _ := sender;
  arrival _ _ _ _ := 0;
  asked_before _ _ idx := seqZ 0 idx;
|}.

Definition sample_env : Env := mkEnv "" "".
Definition sample_names : list string := ["n1"; "n2"; "n3"; "n4"; "n5"].
Definition proposer : ShardDistributor := mkShardDistributor "n1" (one_byte 4864 "k") (one_byte 2592 "k").
Definition reader : ShardDistributor := mkShardDistributor "n5" "" "".
Definition empty_node : Node := mkNode ∅ (ratelimit.NewShardRateLimiter 60 60000000000) [].
Definition sample_cluster : gmap string Node := list_to_map ((fun n => (n, empty_node)) <$> sample_names).
Definition sample_hash : string := one_byte 32 "c".

(** Every node of the sample cluster has no files. *)
Lemma sample_nodes q s : sample_cluster !! q = Some s -> s = empty_node.
Proof.
  unfold sample_cluster. intros Hq%elem_of_list_to_map_2. apply list_elem_of_fmap in Hq as (n & [= _ ->] & _). done.
Qed.

(** The limit of NewShardDistributor, 60 requests, is room enough. *)
Lemma sample_room (cl : gmap string Node) addr k p : (forall q s, cl !! q = Some s -> s = empty_node) -> k <= 60 -> spare_at cl p addr k.
Proof. intros Hcl Hk s ->%Hcl. by apply fresh_spare. Qed.

Lemma sample_asked reader p idx : 0 <= idx < 16 -> (length (asked_before reader p idx) < 16)%nat.
Proof. intros Hi. cbn. rewrite length_seqZ. lia. Qed.

Lemma cluster_recovers_witness :
  exists meta s', DistributeShards sample_env proposer sample_shards sample_hash (tail sample_names) empty_node = (Ok meta, s') /\
    let cl' := deliver_all "n1" (<["n1" := s']> sample_cluster) (outbox s') in
    forall sB, cl' !! "n5" = Some sB ->
      fst (ReconstructCiphertext (cluster_get {[ "n2"; "n4" ]} cl' "n5") reader
             (Some (set_OriginalLen 10 meta)) (files sB)) = Ok "ciphertext".
Proof.
  destruct (cluster_recovers (keypair := key_pair) sample_env proposer sample_hash "ciphertext" sample_shards (tail sample_names)
    sample_cluster empty_node) as (meta & s' & E & Hr).
  - vm_compute. reflexivity.
  - apply (bool_decide_unpack _). vm_compute. exact I.
  - reflexivity.
  - right. by exists "k"%char.
  - discriminate.
  - apply Forall_forall, (bool_decide_unpack _). vm_compute. exact I.
  - intros q s name ->%sample_nodes. reflexivity.
  - intros p idx _. apply sample_room; [exact sample_nodes|lia].
  - vm_compute. reflexivity.
  - reflexivity.
  - exists meta, s'. split; [exact E|]. intros cl' sB HsB.
    apply (Hr {[ "n2"; "n4" ]} reader sB); [|discriminate|exact HsB| |intros p idx; apply sample_asked].
    + apply Nat.ltb_lt. vm_compute. reflexivity.
    + intros p idx _. apply sample_room; [exact sample_nodes|lia].
Defined.

(** Of a ciphertext of 32,768 bytes the toy code makes shards as long. *)
Definition large : string := one_byte (Z.to_nat 32768) "x".

Lemma large_shards : exists rs, Split large = Ok rs /\ Forall (fun sr => 32768 <= Z.of_nat (String.length (Data sr))) rs.
Proof.
  assert (Z.of_nat (String.length large) = 32768) as Hlen by (unfold large; rewrite one_byte_length; lia).
  generalize dependent large. intros data Hlen. assert (data <> "") as Hd by (by intros ->).
  destruct (Split_run data Hd) as (shs & enc & pad & Es & Ee & Hl & _ & _ & E). injection Es as <-. injection Ee as <-.
  destruct (Split_total data Hd) as (rs & Er & _). exists rs. split; [done|]. rewrite E in Er. apply Forall_forall.
  intros r Hr. apply (wrap_results_lookup _ _ _ Hl Er) in Hr as [_ Hr%list_elem_of_lookup_2].
  assert (Data r = data \/ Data r = Nat.iter (String.length data) (String "000"%char) "") as [-> | ->]; [|lia|].
  - apply elem_of_cons in Hr as [?|[[? _]%elem_of_replicate|[? _]%elem_of_replicate]%elem_of_app]; auto.
  - change (Nat.iter _ _ _) with (one_byte (String.length data) "000"%char). rewrite one_byte_length. lia.
Qed.

Lemma large_shards_stay_home_witness :
  exists rs meta s', DistributeShards sample_env proposer rs sample_hash (tail sample_names) empty_node = (Ok meta, s') /\
    length (default [] (ShardNodeMap meta !! 3)) = 4%nat /\
    forall cl p, files_at (deliver_all "n1" cl (outbox s')) p = files_at cl p.
Proof.
  destruct large_shards as (rs & Hs & Hl).
  destruct (large_shards_stay_home (keypair := key_pair) sample_env proposer sample_hash large rs (tail sample_names) empty_node Hs Hl)
    as (meta & s' & E & Hm & Hd); [discriminate|right; by exists "k"%char|discriminate|reflexivity|].
  exists rs, meta, s'. split; [exact E|]. split; [|exact Hd]. destruct (Hm 3 ltac:(lia)) as [-> Hn].
  refine (eq_trans Hn _). vm_compute. reflexivity.
Defined.

Lemma forged_shard_accepted_witness : exists up, ProposerPubkeyHex up = "" /\
  fetchShardFromPeer (cluster_get {[ "n2" ]} (deliver "mallory" sample_cluster ("n2", up)) "n5") "n2" sample_hash 3 = Ok ("forged", "").
Proof.
  destruct (forged_shard_accepted sample_cluster "n2" empty_node sample_hash 3 "forged" "mallory") as (up & Hp & _ & Hf);
    [reflexivity|lia|cbn; lia|discriminate|vm_compute; reflexivity|reflexivity|].
  exists up. split; [exact Hp|].
  apply (Hf {[ "n2" ]} "n5" (mkTFHEShardMeta "" 0 ∅ "" "")); [set_solver|discriminate|..]; (apply sample_room; [exact sample_nodes|]);
    [lia|change (2 + Z.of_nat (length (seqZ 0 3)) <= 60); rewrite length_seqZ; lia].
Defined.
End ClusterWitnesses.
End cluster.
