(* ===== verification/PrivacyMsgs.v ===== *)
(** PrivacyMsgs: the messages and queries of x/privacy.

    keeper/msg_server_init_commitment.go, msg_server_tfhe_submit.go,
    msg_server_legacy.go, the query handlers, the metadata store of keeper.go
    and the stateless checks of types/, over the store of Privacy.v, the
    distributor of ShardNet.v and the bank interface.

    A node's world is the chain's state, the node's own files and outbox, which
    a transaction that fails does not undo, and the gas it has used.

    Theorems: a submission's exact effect; its ciphertext comes back from a
    query on any node of the cluster; an account can submit once and never
    again; what the store holds keeps its shape; two nodes can disagree on the
    state after the same submission; deposits are only ever added to the
    module's account. *)

From Stdlib Require Import ZArith Lia Ascii String.
From stdpp Require Import base gmap sets list strings fin_maps sorting pretty.
From S2P Require Import Prelude Sdk Types Bank Pqc Lwr Wire Shards Keys Privacy ShardNet Cluster.

Open Scope Z_scope.
Open Scope go_scope.

(** cosmossdk.io/math: [None] for an error. *)
Class DecParse : Type := { NewDecFromStr : string -> option Z }.

(** ** ParseCoinNormalized (cosmos-sdk/types) *)

Module coinparse.
Import distributor.

Definition is_amount_char (c : ascii) : bool := is_digit c || Ascii.eqb c ".".

(** The longest prefix of digits and dots, and the rest. *)
Fixpoint span_amount (s : string) : string * string :=
  match s with
  | String c t => if is_amount_char c then let '(a, r) := span_amount t in (String c a, r) else ("", s)
  | "" => ("", "")
  end.

Fixpoint all_digits (s : string) : bool :=
  match s with "" => true | String c s => is_digit c && all_digits s end.

(** The text after the first dot, if any. *)
Fixpoint split_dot (s : string) : string * option string :=
  match s with
  | "" => ("", None)
  | String c t => if Ascii.eqb c "." then ("", Some t) else let '(a, r) := split_dot t in (String c a, r)
  end.

(** reDecAmt: [[:digit:]]+(?:\.[[:digit:]]+)?|\.[[:digit:]]+ *)
Definition reDecAmt (s : string) : bool :=
  match split_dot s with
  | (w, None) => negb (bool_decide (w = "")) && all_digits w
  | (w, Some f) => all_digits w && negb (bool_decide (f = "")) && all_digits f
  end.

Section Parse.
Context `{SdkMath} `{DecParse}.

(** reDecCoin: the amount ends where neither a digit nor a dot follows, since a
    denomination starts with a letter. *)
Definition reDecCoin (coinStr : string) : option (string * string) :=
  let '(amt, rest) := span_amount coinStr in
  let denom := trim_left rest in
  if reDecAmt amt && ValidateDenom denom then Some (amt, denom) else None.

(** A coin with a decimal amount. *)
Definition ParseDecCoin (coinStr : string) : outcome (string * Z) :=
  match reDecCoin (TrimSpace coinStr) with
  | None => Err (Errorf "invalid decimal coin expression")
  | Some (amountStr, denomStr) =>
      match NewDecFromStr amountStr with
      | None => Err (Errorf "failed to parse decimal coin amount")
      | Some amount =>
          if negb (ValidateDenom denomStr) then Err (Errorf "invalid denom cannot contain spaces") else
          if amount <? 0 then Panic else Ok (denomStr, amount)
      end
  end.

(** No denomination is registered, so NormalizeDecCoin returns the coin; the
    change that TruncateDecimal also computes is dropped. *)
Definition ParseCoinNormalized (coinStr : string) : outcome Coin :=
  match ParseDecCoin coinStr with
  | Ok (denom, amount) =>
      match Dec_TruncateInt amount with
      | Some truncated =>
          match Dec_Sub amount (NewDecFromInt truncated) with
          | Some change =>
              match NewCoin denom truncated with
              | Some coin => if change <? 0 then Panic else Ok coin
              | None => Panic
              end
          | None => Panic
          end
      | None => Panic
      end
  | Err e => Err e
  | Panic => Panic
  end.

Lemma ParseCoinNormalized_valid s coin : ParseCoinNormalized s = Ok coin -> ValidateDenom (Denom coin) = true /\ 0 <= Amount coin.
Proof.
  unfold ParseCoinNormalized. destruct (ParseDecCoin s) as [[denom amount]|e|]; [|done..].
  destruct (Dec_TruncateInt amount) as [t|]; [|done]. destruct (Dec_Sub _ _) as [ch|]; [|done].
  unfold NewCoin, Coin_Validate. cbn [Denom Amount].
  destruct (ValidateDenom denom) eqn:Ed; cbn [andb]; [|done]. destruct (Z.leb_spec 0 t); [|done].
  destruct (ch <? 0); [done|]. intros [= <-]. done.
Qed.
End Parse.
End coinparse.

(** ** Types *)

Module privacymsgs.
Import privacytypes privacykeeper shards shardstore distributor coinparse.

Definition ErrInvalidAddress : err := Registered ModuleName 1101.
Definition ErrInvalidCommitment : err := Registered ModuleName 1103.
Definition ErrInvalidDepositAmount : err := Registered ModuleName 1107.
Definition ErrInsufficientBalance : err := Registered ModuleName 1108.
Definition ErrInvalidCiphertext : err := Registered ModuleName 1201.
Definition ErrShardOperationFailed : err := Registered ModuleName 1202.
Definition ErrTFHEQuotaExceeded : err := Registered ModuleName 1205.

Definition TFHEMetaKeyPrefix : string := "tfhe_meta/".
Definition TFHEMetaKey (commitmentHash : string) : string := TFHEMetaKeyPrefix +:+ commitmentHash.

Record MsgInitCommitment : Type := mkMsgInitCommitment {
  Creator : string;
  MsgAmount : string;
  Commitment : string;
}.

Record MsgTFHESubmit : Type := mkMsgTFHESubmit {
  Sender : string;
  Ciphertext : string;
}.

Record MsgTFHESubmitResponse : Type := mkMsgTFHESubmitResponse {
  resp_CommitmentHash : string;
  TotalShards : Z;
}.

Definition TFHEGasPerKB : Z := 1500.
Definition MinCiphertextSize : Z := 1024.
Definition CiphertextMaxBytes : Z := 512 * 1024.
Definition MaxCiphertextSize : Z := CiphertextMaxBytes.
Definition TFHEMaxActiveCommitments : Z := 1.

Section Basic.
Context `{SdkMath} `{DecParse} `{Bech32}.

Definition InitCommitment_ValidateBasic (msg : MsgInitCommitment) : outcome unit :=
  match AccAddressFromBech32 (Creator msg) with
  | None => Err ErrInvalidAddress
  | Some _ =>
      match ParseCoinNormalized (MsgAmount msg) with
      | Err _ => Err ErrInvalidDepositAmount
      | Panic => Panic
      | Ok coin =>
          if negb (0 <? Amount coin) then Err ErrInvalidDepositAmount else
          if negb (String.length (Commitment msg) =? 32)%nat then Err ErrInvalidCommitment else Ok tt
      end
  end.

Definition TFHESubmit_ValidateBasic (msg : MsgTFHESubmit) : outcome unit :=
  match AccAddressFromBech32 (Sender msg) with
  | None => Err ErrInvalidAddress
  | Some _ =>
      if (String.length (Ciphertext msg) =? 0)%nat then Err (Errorf "ciphertext must not be empty") else
      if 32 * 1024 <? Z.of_nat (String.length (Ciphertext msg)) then Err (Errorf "ciphertext too large") else Ok tt
  end.

(** The two message types that are no longer accepted. *)
Definition EncryptedTransfer_ValidateBasic (sender : string) : outcome unit :=
  match AccAddressFromBech32 sender with
  | None => Err ErrInvalidAddress
  | Some _ => Err (Errorf "encrypted_transfer removed in v0.3")
  end.

Definition Deposit_ValidateBasic (creator : string) : outcome unit :=
  match AccAddressFromBech32 creator with
  | None => Err ErrInvalidAddress
  | Some _ => Err (Errorf "deposit removed in v0.3")
  end.
End Basic.

(** ** Metadata in the store (keeper.go) *)

(** [fmt.Sscanf(s, "%x", &ch)] for a [ch] of zeros: pairs of digits up to the
    first character that is none; [None] when a pair is incomplete. *)
Fixpoint scan_pairs (s : string) : option string :=
  match s with
  | "" => Some ""
  | String a s =>
      match hex.fromHexChar a with
      | None => Some ""
      | Some hi =>
          match s with
          | "" => None
          | String b s =>
              match hex.fromHexChar b, scan_pairs s with
              | Some lo, Some bz => Some (String (ascii_of_nat (hi * 16 + lo)) bz)
              | _, _ => None
              end
          end
      end
  end.

Definition scan_hex (s : string) : string :=
  match scan_pairs s with
  | Some "" | None => zero_bytes (String.length s / 2)
  | Some bz => bz
  end.

Definition marshalTFHEMeta (meta : TFHEShardMeta) : shardMetaJSON :=
  mkShardMetaJSON (pqc.EncodeToString (CommitmentHash meta)) (OriginalLen meta)
    (kmap (fun idx : Z => pretty idx) (ShardNodeMap meta))
    (pqc.EncodeToString (MerkleRoot meta)) (pqc.EncodeToString (ProposerPubkey meta)).

(** One key of the decoded object. *)
Definition add_index (m : gmap Z (list string)) (kv : string * list string) : gmap Z (list string) :=
  match strconv.Atoi kv.1 with Some idx => <[idx := kv.2]> m | None => m end.

Definition unmarshalTFHEMeta (m : shardMetaJSON) : TFHEShardMeta :=
  mkTFHEShardMeta (scan_hex (j_CommitmentHash m)) (j_OriginalLen m)
    (foldl add_index ∅ (map_to_list (j_ShardNodeMap m)))
    (default "" (hex.DecodeString (j_MerkleRoot m))) (default "" (hex.DecodeString (j_ProposerPubkey m))).

Section Keeper.
Context {B : Type} `{BankKeeper B} `{Bech32}.

Definition SetTFHEMeta (meta : TFHEShardMeta) : M (State B) unit :=
  if bool_decide (CommitmentHash meta = "") then throw (Errorf "SetTFHEMeta: meta is nil or has empty commitment hash")
  else store_set (TFHEMetaKey (CommitmentHash meta)) (VMeta (marshalTFHEMeta meta)).

Definition GetTFHEMeta (commitmentHash : string) : M (State B) (option TFHEShardMeta) :=
  let! bz := store_get (TFHEMetaKey commitmentHash) in
  ret (match bz with Some (VMeta m) => Some (unmarshalTFHEMeta m) | _ => None end).
End Keeper.

(** ** Messages *)

(** One node: the chain's state, its own files and outbox, the gas used. *)
Record World (B : Type) : Type := mkWorld {
  w_chain : State B;
  w_node : Node;
  w_gas : Z;
}.
Arguments mkWorld {B}.
Arguments w_chain {B}.
Arguments w_node {B}.
Arguments w_gas {B}.

(** How the node is set up: its distributor ([None]: the shard store could not
    be opened), its environment variables, the monikers x/staking knows
    ([None]: no staking keeper) and the transaction's gas limit ([None]: an
    infinite meter). *)
Record Config : Type := mkConfig {
  cfg_distributor : option ShardDistributor;
  cfg_env : Env;
  cfg_monikers : option (list string);
  cfg_gas_limit : option Z;
}.

Section Messages.
Context {B : Type} `{BankKeeper B} `{Bech32} `{SdkMath} `{DecParse}.
Context `{Crypto} `{Sha256} `{ReedSolomon} `{Disk}.

Definition on_chain {A} (c : M (State B) A) : M (World B) A := fun w =>
  let '(r, s) := c (w_chain w) in (r, mkWorld s (w_node w) (w_gas w)).

Definition on_node {A} (c : M Node A) : M (World B) A := fun w =>
  let '(r, n) := c (w_node w) in (r, mkWorld (w_chain w) n (w_gas w)).

(** ConsumeGas of a basic or infinite gas meter. *)
Definition ConsumeGas (limit : option Z) (amount : Z) : M (World B) unit := fun w =>
  let consumed := w_gas w + amount in
  if two64 <=? consumed then (Panic, mkWorld (w_chain w) (w_node w) (if limit is Some _ then two64 - 1 else 0)) else
  let w := mkWorld (w_chain w) (w_node w) consumed in
  match limit with
  | Some l => if l <? consumed then (Panic, w) else (Ok tt, w)
  | None => (Ok tt, w)
  end.

Definition GetValidatorMonikers (cfg : Config) : list string :=
  match cfg_monikers cfg with None => [] | Some ms => filter (fun m => m <> "") ms end.

Fixpoint all_zero (s : string) : bool :=
  match s with "" => true | String c s => Ascii.eqb c "000"%char && all_zero s end.

Definition validateCommitmentBytes (commitment : string) : option err :=
  if negb (String.length commitment =? 32)%nat then Some (Errorf "commitment must be 32 bytes") else
  if all_zero commitment then Some (Errorf "commitment must not be the zero value") else None.

Definition InitCommitment (ctx : Ctx) (msg : MsgInitCommitment) : M (State B) unit :=
  match AccAddressFromBech32 (Creator msg) with
  | None => throw (Wrapf "invalid creator address" ErrInvalidAddress)
  | Some creatorAddr =>
  match ParseCoinNormalized (MsgAmount msg) with
  | Panic => panic
  | Err _ => throw (Wrapf "not a valid coin" ErrInvalidDepositAmount)
  | Ok coin =>
  if negb (0 <? Amount coin) then throw (Wrapf "deposit amount must be positive" ErrInvalidDepositAmount) else
  let! coins := or_panic (NewCoins [coin]) in
  map_err (fun _ => Wrapf "bank transfer failed" ErrInsufficientBalance)
    (on_bank (SendCoinsFromAccountToModule ctx creatorAddr ModuleName coins)) ;;!
  match validateCommitmentBytes (Commitment msg) with
  | Some _ => throw (Wrapf "" ErrInvalidCommitment)
  | None =>
      map_err (Wrapf "failed to store commitment") (SetCommitment creatorAddr (Commitment msg)) ;;!
      Emit (NewEvent "init_commitment" [("creator", AStr (Creator msg)); ("deposit_denom", AStr (Denom coin))])
  end end end.

Definition set_meta_fields (n : Z) (merkleRoot proposerPubkey : string) (meta : TFHEShardMeta) : TFHEShardMeta :=
  mkTFHEShardMeta (CommitmentHash meta) n (ShardNodeMap meta) merkleRoot proposerPubkey.

Definition submit_event (sender commitmentHash merkleRoot : string) (size : Z) : Event :=
  NewEvent "tfhe_submit"
    [("sender", AStr sender); ("commitment_hash", AStr (pqc.EncodeToString commitmentHash));
     ("ciphertext_size_bytes", AInt size); ("shards_total", AInt (Z.of_nat ErasureTotalShards));
     ("merkle_root", AStr (pqc.EncodeToString merkleRoot))].

(** [uint64(len+1023) / 1024 * TFHEGasPerKB]. *)
Definition submit_gas (len : Z) : Z := wrap_u64 (wrap_u64 (len + 1023) / 1024 * TFHEGasPerKB).

Definition TFHESubmit (cfg : Config) (msg : MsgTFHESubmit) : M (World B) MsgTFHESubmitResponse :=
  match AccAddressFromBech32 (Sender msg) with
  | None => throw (Wrapf "invalid sender" ErrInvalidAddress)
  | Some senderAddr =>
  let ct := Ciphertext msg in
  let len := Z.of_nat (String.length ct) in
  if len <? MinCiphertextSize then throw (Wrapf "ciphertext too small" ErrInvalidCiphertext) else
  if MaxCiphertextSize <? len then throw (Wrapf "ciphertext too large" ErrInvalidCiphertext) else
  let! quota := on_chain (GetTFHEQuota senderAddr) in
  if TFHEMaxActiveCommitments <=? quota then throw (Wrapf "already has active commitment(s)" ErrTFHEQuotaExceeded) else
  let commitmentHash := Sum256 ct in
  let! shs := map_err (fun _ => Wrapf "erasure coding failed" ErrShardOperationFailed) (lift (Split ct)) in
  let! merkleTree := map_err (fun _ => Wrapf "Merkle tree construction failed" ErrShardOperationFailed) (lift (BuildMerkleTree shs)) in
  let! merkleRoot := lift (Root merkleTree) in
  let peerAddrs := GetValidatorMonikers cfg in
  match cfg_distributor cfg with
  | None => panic
  | Some d =>
      let! shardMeta := map_err (fun _ => Wrapf "shard distribution failed" ErrShardOperationFailed)
        (on_node (DistributeShards (cfg_env cfg) d shs commitmentHash peerAddrs)) in
      let shardMeta := set_meta_fields len merkleRoot (signingPubKey d) shardMeta in
      map_err (Wrapf "failed to store shard metadata") (on_chain (SetTFHEMeta shardMeta)) ;;!
      map_err (Wrapf "failed to set commitment") (on_chain (SetCommitment senderAddr commitmentHash)) ;;!
      on_chain (IncrTFHEQuota senderAddr) ;;!
      ConsumeGas (cfg_gas_limit cfg) (submit_gas len) ;;!
      on_chain (Emit (submit_event (Sender msg) commitmentHash merkleRoot len)) ;;!
      ret (mkMsgTFHESubmitResponse commitmentHash (Z.of_nat ErasureTotalShards))
  end end.

Definition EncryptedTransfer : M (World B) unit := throw (Errorf "encrypted_transfer is disabled in Zytherion v0.3").
Definition Deposit : M (World B) unit := throw (Errorf "deposit is disabled in Zytherion v0.3").

(** ** Queries *)

Record CommitmentResponse : Type := mkCommitmentResponse {
  cr_Address : string;
  CommitmentHex : string;
}.

Definition QueryCommitment (addrStr : string) : M (State B) CommitmentResponse :=
  match AccAddressFromBech32 addrStr with
  | None => throw (Wrapf "invalid address" ErrInvalidAddress)
  | Some addr =>
      let! commitment := GetCommitment addr in
      match commitment with
      | None => throw (Errorf "no commitment registered")
      | Some commitment => ret (mkCommitmentResponse addrStr (pqc.EncodeToString commitment))
      end
  end.

Record QueryTFHEResultResponse : Type := mkQueryTFHEResultResponse {
  qr_CommitmentHash : string;
  ResultCiphertext : string;
  ReconstructedFrom : Z;
}.

(** [None]: a nil request. *)
Definition TFHEResult (http_get : string -> string -> Z -> option Response) (cfg : Config)
    (req : option (string * string)) : M (World B) QueryTFHEResultResponse :=
  match req with
  | None => throw (Errorf "InvalidArgument: nil")
  | Some (hash, hashHex) =>
  match (if bool_decide (hash = "") && negb (bool_decide (hashHex = "")) then hex.DecodeString hashHex else Some hash) with
  | None => throw (Errorf "InvalidArgument: invalid hex commitment hash")
  | Some commitmentHash =>
  if negb (String.length commitmentHash =? 32)%nat then throw (Errorf "InvalidArgument: commitment hash must be 32 bytes") else
  let! cached := on_chain (GetTFHEResult commitmentHash) in
  match cached with
  | Some resultCt => ret (mkQueryTFHEResultResponse commitmentHash resultCt 0)
  | None =>
  let! meta := on_chain (GetTFHEMeta commitmentHash) in
  match meta with
  | None => throw (Errorf "NotFound")
  | Some meta =>
  match cfg_distributor cfg with
  | None => panic
  | Some d =>
      let! reconstructed := map_err (Wrapf "Internal: shard reconstruction failed")
        (on_node (on_files (ReconstructCiphertext http_get d (Some meta)))) in
      on_chain (SetTFHEResult commitmentHash reconstructed) ;;!
      ret (mkQueryTFHEResultResponse commitmentHash reconstructed (wrap_u32 (OriginalLen meta)))
  end end end end end.

(** The sum, in uint64, of the counters under the quota prefix. *)
Definition countAllActiveCommitments (s : State B) : Z :=
  foldl (fun total (kv : string * value) =>
           match kv with
           | (k, VCount n) => if String.prefix TFHEQuotaKeyPrefix k then wrap_u64 (total + n) else total
           | _ => total
           end) 0 (map_to_list (p_store s)).
End Messages.

(** ** Metadata comes back from the store *)

Lemma scan_pairs_Encode s : scan_pairs (pqc.EncodeToString s) = Some s.
Proof.
  induction s as [|c s IH]; [done|]. cbn [pqc.EncodeToString scan_pairs].
  pose proof (hex.Decode_Encode (String c "")) as Hd. cbn [pqc.EncodeToString hex.DecodeString] in Hd.
  destruct (hex.fromHexChar (pqc.hexdigit (nat_of_ascii c / 16))) as [hi|]; [|done].
  destruct (hex.fromHexChar (pqc.hexdigit (nat_of_ascii c mod 16))) as [lo|]; [|done].
  rewrite IH. injection Hd as <-. done.
Qed.

Lemma scan_hex_Encode s : scan_hex (pqc.EncodeToString s) = s.
Proof. unfold scan_hex. rewrite scan_pairs_Encode. by destruct s. Qed.

Lemma add_index_all l : forall acc, Forall (fun kv => in_i64 kv.1) l -> NoDup l.*1 -> (forall k, k ∈ l.*1 -> acc !! k = None) ->
  foldl add_index acc (prod_map (fun idx : Z => pretty idx) id <$> l) = list_to_map l ∪ acc.
Proof.
  induction l as [|[k v] l IH]; intros acc Hf Hn Ha; cbn [fmap list_fmap foldl].
  { by rewrite left_id_L by apply _. }
  inversion Hf as [|? ? Hk Hf']; subst. cbn in Hk, Hn. apply NoDup_cons in Hn as [Hni Hn].
  unfold add_index at 2. cbn [prod_map fst snd]. rewrite strconv.Atoi_Itoa by done. unfold id at 1.
  rewrite IH; [|done..|].
  - rewrite list_to_map_cons, <- insert_union_r by (by apply not_elem_of_list_to_map_1). apply insert_union_l.
  - intros k' Hk'. rewrite lookup_insert_ne by (intros ->; done). apply Ha. by right.
Qed.

(** Go's maps have int keys. *)
Definition int_keys (m : gmap Z (list string)) : Prop := map_Forall (fun k _ => in_i64 k) m.

Lemma node_map_roundtrip (m : gmap Z (list string)) : int_keys m ->
  foldl add_index ∅ (map_to_list (kmap (fun idx : Z => pretty idx) m : gmap string (list string))) = m.
Proof.
  intros Hm. unfold kmap.
  assert (Hnd : NoDup (prod_map (fun idx : Z => pretty idx) (@id (list string)) <$> map_to_list m).*1).
  { rewrite <- list_fmap_compose.
    assert (Eq : fst ∘ prod_map (fun idx : Z => pretty idx) (@id (list string)) <$> map_to_list m =
      (fun i : Z => pretty i) <$> (map_to_list m).*1) by (rewrite <- list_fmap_compose; by apply list_fmap_ext).
    rewrite Eq. apply (NoDup_fmap_2 _), NoDup_fst_map_to_list. }
  destruct (Permutation_map_inv _ _ (map_to_list_to_map _ Hnd)) as (l & -> & Hl).
  change (map ?f l) with (f <$> l). rewrite add_index_all.
  - rewrite (right_id_L ∅ (∪)). rewrite <- (list_to_map_proper _ _ (NoDup_fst_map_to_list m) Hl). apply list_to_map_to_list.
  - rewrite <- Hl. apply Forall_forall. intros [k v] Hkv%elem_of_map_to_list. by apply (Hm k v).
  - rewrite <- Hl. apply NoDup_fst_map_to_list.
  - intros. apply lookup_empty.
Qed.

Lemma meta_roundtrip meta : int_keys (ShardNodeMap meta) -> unmarshalTFHEMeta (marshalTFHEMeta meta) = meta.
Proof.
  intros Hk. destruct meta as [c n m r pk]. unfold unmarshalTFHEMeta, marshalTFHEMeta.
  cbn [j_CommitmentHash j_OriginalLen j_ShardNodeMap j_MerkleRoot j_ProposerPubkey CommitmentHash OriginalLen ShardNodeMap MerkleRoot ProposerPubkey].
  rewrite scan_hex_Encode, !hex.Decode_Encode, node_map_roundtrip by done. done.
Qed.

(** ** What a submission does *)

Section SubmitTheorems.
Context {B : Type} `{BankKeeper B} `{Bech32}.
Context `{Crypto} `{Sha256} `{!Sha256Laws} `{ReedSolomon} `{Disk}.
Implicit Types (s : State B) (w : World B) (cfg : Config).

Definition quota_of s (a : string) : Z := match p_store s !! TFHEQuotaKey a with Some (VCount n) => n | _ => 0 end.

(** The three writes. *)
Definition submitted (a h : string) (meta : TFHEShardMeta) s : State B :=
  mkState (p_bank s)
    (<[TFHEQuotaKey a := VCount (wrap_u64 (quota_of s a + 1))]>
       (<[CommitmentKey a := VRaw h]> (<[TFHEMetaKey h := VMeta (marshalTFHEMeta meta)]> (p_store s))))
    (p_events s).

Definition with_event (e : Event) s : State B := mkState (p_bank s) (p_store s) (p_events s ++ [e]).

(** What the message needs before anything is distributed. *)
Definition submittable cfg msg w (a : string) (d : ShardDistributor) (rs : list ShardResult) (tree : MerkleTree) (root : string) : Prop :=
  AccAddressFromBech32 (Sender msg) = Some a /\
  MinCiphertextSize <= Z.of_nat (String.length (Ciphertext msg)) <= MaxCiphertextSize /\
  quota_of (w_chain w) a < TFHEMaxActiveCommitments /\ cfg_distributor cfg = Some d /\
  Split (Ciphertext msg) = Ok rs /\ BuildMerkleTree rs = Ok tree /\ Root tree = Ok root.

Lemma keys_distinct a b h : TFHEQuotaKey a <> CommitmentKey b /\ TFHEQuotaKey a <> TFHEMetaKey h /\ CommitmentKey b <> TFHEMetaKey h.
Proof. split_and!; discriminate. Qed.

(** The handler up to the charge for gas. *)
Lemma TFHESubmit_eq cfg msg w a d rs tree root meta0 node' :
  submittable cfg msg w a d rs tree root ->
  DistributeShards (cfg_env cfg) d rs (Sum256 (Ciphertext msg)) (GetValidatorMonikers cfg) (w_node w) = (Ok meta0, node') ->
  CommitmentHash meta0 = Sum256 (Ciphertext msg) ->
  let len := Z.of_nat (String.length (Ciphertext msg)) in
  let h := Sum256 (Ciphertext msg) in
  TFHESubmit cfg msg w =
    (ConsumeGas (cfg_gas_limit cfg) (submit_gas len) ;;!
     on_chain (Emit (submit_event (Sender msg) h root len)) ;;!
     ret (mkMsgTFHESubmitResponse h (Z.of_nat ErasureTotalShards)))
      (mkWorld (submitted a h (set_meta_fields len root (signingPubKey d) meta0) (w_chain w)) node' (w_gas w)).
Proof.
  intros (Ha & [Hmin Hmax] & Hq & Hd & Hs & Ht & Hr) E Hc len h. unfold TFHESubmit. rewrite Ha.
  fold len. destruct (Z.ltb_spec len MinCiphertextSize); [lia|]. destruct (Z.ltb_spec MaxCiphertextSize len); [lia|].
  unfold bind at 1, on_chain at 1, GetTFHEQuota, store_get, reads, bind at 1, ret at 1. fold (quota_of (w_chain w) a).
  destruct (Z.leb_spec TFHEMaxActiveCommitments (quota_of (w_chain w) a)); [lia|].
  rewrite Hs, Hd. cbn [lift]. unfold bind at 1, map_err at 1, ret at 1. rewrite Ht. cbn [lift].
  unfold bind at 1, map_err at 1, ret at 1. rewrite Hr. cbn [lift]. unfold bind at 1, ret at 1.
  unfold bind at 1, map_err at 1, on_node. cbn [w_node]. rewrite E. cbn [w_chain w_node w_gas].
  assert (String.length h = 32%nat) as H32 by apply Sum256_length.
  assert (h <> "") as Hh by (intros E'; by rewrite E' in H32).
  unfold SetTFHEMeta. cbn [set_meta_fields CommitmentHash]. rewrite Hc. fold h. rewrite bool_decide_false by done.
  unfold SetCommitment. fold h. rewrite (bool_decide_true _ H32). cbn [negb].
  unfold bind at 1, map_err at 1, on_chain at 1, store_set at 1, modify. cbn [w_chain w_node w_gas].
  unfold bind at 1, map_err at 1, on_chain at 1, store_set at 1, modify. cbn [w_chain w_node w_gas p_bank p_store p_events].
  unfold bind at 1. unfold on_chain at 1. cbn [w_chain w_node w_gas].
  unfold IncrTFHEQuota, GetTFHEQuota, setTFHEQuota, store_get, store_set, reads, modify, bind at 1 2, ret at 1.
  cbn [p_bank p_store p_events]. destruct (keys_distinct a a h) as (D1 & D2 & _).
  rewrite !lookup_insert_ne by (by apply not_eq_sym). fold (quota_of (w_chain w) a). reflexivity.
Qed.

Lemma DistributeShards_hash env d shs c peers n meta n' :
  DistributeShards env d shs c peers n = (Ok meta, n') -> CommitmentHash meta = c.
Proof.
  unfold DistributeShards. destruct (negb _); [done|]. intros E. inv_go. done.
Qed.

(** Every way a submission can end.  An error leaves the chain as it was; on
    success the chain has the three writes and the event. *)
Lemma TFHESubmit_inv cfg msg w r w' : TFHESubmit cfg msg w = (r, w') ->
  let len := Z.of_nat (String.length (Ciphertext msg)) in
  let h := Sum256 (Ciphertext msg) in
  (exists e, r = Err e /\ w_chain w' = w_chain w) \/ r = Panic \/
  (exists a d rs tree root meta0, r = Ok (mkMsgTFHESubmitResponse h (Z.of_nat ErasureTotalShards)) /\
     submittable cfg msg w a d rs tree root /\ CommitmentHash meta0 = h /\
     DistributeShards (cfg_env cfg) d rs h (GetValidatorMonikers cfg) (w_node w) = (Ok meta0, w_node w') /\
     w_chain w' = with_event (submit_event (Sender msg) h root len)
       (submitted a h (set_meta_fields len root (signingPubKey d) meta0) (w_chain w)) /\
     w_gas w' = w_gas w + submit_gas len).
Proof.
  intros E len h. pose proof E as E0. unfold TFHESubmit in E.
  destruct (AccAddressFromBech32 (Sender msg)) as [a|] eqn:Ha; [|injection E as <- <-; left; eauto].
  fold len in E. destruct (Z.ltb_spec len MinCiphertextSize); [injection E as <- <-; left; eauto|].
  destruct (Z.ltb_spec MaxCiphertextSize len); [injection E as <- <-; left; eauto|].
  unfold bind at 1, on_chain at 1, GetTFHEQuota, store_get, reads, bind at 1, ret at 1 in E. fold (quota_of (w_chain w) a) in E.
  destruct (Z.leb_spec TFHEMaxActiveCommitments (quota_of (w_chain w) a)); [injection E as <- <-; left; eauto|].
  unfold bind at 1, map_err at 1 in E. destruct (Split (Ciphertext msg)) as [rs|e|] eqn:Hs; cbn [lift] in E;
    [unfold ret at 1 in E|injection E as <- <-; left; eauto|injection E as <- <-; auto].
  unfold bind at 1, map_err at 1 in E. destruct (BuildMerkleTree rs) as [tree|e|] eqn:Ht; cbn [lift] in E;
    [unfold ret at 1 in E|injection E as <- <-; left; eauto|injection E as <- <-; auto].
  unfold bind at 1 in E. destruct (Root tree) as [root|e|] eqn:Hr; cbn [lift] in E;
    [unfold ret at 1 in E|injection E as <- <-; left; eauto|injection E as <- <-; auto].
  destruct (cfg_distributor cfg) as [d|] eqn:Hd; [|injection E as <- <-; auto].
  unfold bind at 1, map_err at 1, on_node in E. cbn [w_node] in E. fold h in E.
  destruct (DistributeShards (cfg_env cfg) d rs h (GetValidatorMonikers cfg) (w_node w)) as [[meta0|e|] n'] eqn:Ed;
    [clear E|injection E as <- <-; left; eauto|injection E as <- <-; auto].
  assert (submittable cfg msg w a d rs tree root) as Hsub by (repeat split; try done; lia).
  pose proof (DistributeShards_hash _ _ _ _ _ _ _ _ Ed) as Hc.
  rewrite (TFHESubmit_eq cfg msg w a d rs tree root meta0 n' Hsub Ed Hc) in E0. fold h len in E0.
  unfold bind at 1, ConsumeGas in E0. cbn [w_gas w_chain w_node] in E0.
  destruct (two64 <=? _); [injection E0 as <- <-; auto|].
  destruct (match cfg_gas_limit cfg with Some l => _ | None => _ end) as [[[]|e|] w1] eqn:Eg;
    [|destruct (cfg_gas_limit cfg); [destruct (_ <? _)|]; discriminate|injection E0 as <- <-; auto].
  right. right. exists a, d, rs, tree, root, meta0.
  assert (w1 = mkWorld (submitted a h (set_meta_fields len root (signingPubKey d) meta0) (w_chain w)) n' (w_gas w + submit_gas len)) as ->
    by (destruct (cfg_gas_limit cfg); [destruct (_ <? _)|]; by simplify_eq).
  unfold bind, on_chain, Emit, modify, ret in E0. cbn [w_chain w_node w_gas] in E0. injection E0 as <- <-. done.
Qed.
End SubmitTheorems.

(** ** Sequences of messages *)

Section Steps.
Context {B : Type} `{BankKeeper B} `{Bech32} `{SdkMath} `{DecParse}.
Context `{Crypto} `{Sha256} `{!Sha256Laws} `{ReedSolomon} `{Disk}.
Implicit Types (s : State B) (w : World B) (cfg : Config).

Inductive pmsg : Type :=
  | PInit (ctx : Ctx) (msg : MsgInitCommitment)
  | PSubmit (cfg : Config) (msg : MsgTFHESubmit)
  | PTransfer
  | PDeposit
  | PResult (http_get : string -> string -> Z -> option Response) (cfg : Config) (req : option (string * string)).

(** A transaction that fails is undone on the chain, not on the node; what a
    query writes to the chain's state is never committed. *)
Definition commit {A} (o : outcome A * World B) w : World B :=
  match o with
  | (Ok _, w') => w'
  | (_, w') => mkWorld (w_chain w) (w_node w') (w_gas w')
  end.

Definition deliver_msg (m : pmsg) w : World B :=
  let w := mkWorld (w_chain w) (w_node w) 0 in
  match m with
  | PInit ctx msg => commit (on_chain (InitCommitment ctx msg) w) w
  | PSubmit cfg msg => commit (TFHESubmit cfg msg w) w
  | PTransfer => commit (EncryptedTransfer w) w
  | PDeposit => commit (Deposit w) w
  | PResult http_get cfg req => let w' := snd (TFHEResult http_get cfg req w) in mkWorld (w_chain w) (w_node w') (w_gas w')
  end.

Definition deliver_msgs (ms : list pmsg) w : World B := foldl (fun w m => deliver_msg m w) w ms.

(** What a message does to the chain. *)
Inductive step s : State B -> Prop :=
  | step_none : step s s
  | step_init ctx a coin coins c b' e :
      0 < Amount coin -> NewCoins [coin] = Some coins -> String.length c = 32%nat -> all_zero c = false ->
      SendCoinsFromAccountToModule ctx a ModuleName coins (p_bank s) = (Ok tt, b') ->
      step s (mkState b' (<[CommitmentKey a := VRaw c]> (p_store s)) (p_events s ++ [e]))
  | step_submit a h meta e :
      quota_of s a < TFHEMaxActiveCommitments -> String.length h = 32%nat -> CommitmentHash meta = h ->
      step s (with_event e (submitted a h meta s)).

Lemma InitCommitment_inv ctx msg s s' : InitCommitment ctx msg s = (Ok tt, s') ->
  exists a coin coins b', AccAddressFromBech32 (Creator msg) = Some a /\ ParseCoinNormalized (MsgAmount msg) = Ok coin /\
    0 < Amount coin /\ NewCoins [coin] = Some coins /\ validateCommitmentBytes (Commitment msg) = None /\
    SendCoinsFromAccountToModule ctx a ModuleName coins (p_bank s) = (Ok tt, b') /\
    s' = mkState b' (<[CommitmentKey a := VRaw (Commitment msg)]> (p_store s))
           (p_events s ++ [NewEvent "init_commitment" [("creator", AStr (Creator msg)); ("deposit_denom", AStr (Denom coin))]]).
Proof.
  unfold InitCommitment. destruct (AccAddressFromBech32 _) as [a|]; [|done]. destruct (ParseCoinNormalized _) as [coin|e|]; [|done..].
  destruct (Z.ltb_spec 0 (Amount coin)); cbn [negb]; [|done]. intros E. apply bind_ok in E as (coins & s1 & E1 & E).
  apply or_panic_ok in E1 as [Ec ->]. apply bind_ok in E as ([] & s2 & E1%map_err_ok & E).
  unfold on_bank in E1. destruct (SendCoinsFromAccountToModule _ _ _ _ _) as [r b'] eqn:Eb. injection E1 as -> <-.
  destruct (validateCommitmentBytes _) eqn:Ev; [done|]. apply bind_ok in E as (u & s3 & E1%map_err_ok & E).
  unfold SetCommitment in E1. destruct (negb _); [done|]. unfold store_set, modify in E1. injection E1 as _ <-.
  unfold Emit, modify in E. injection E as <-. exists a, coin, coins, b'. done.
Qed.

Lemma validateCommitmentBytes_spec c : validateCommitmentBytes c = None <-> String.length c = 32%nat /\ all_zero c = false.
Proof.
  unfold validateCommitmentBytes. destruct (Nat.eqb_spec (String.length c) 32); cbn [negb]; [|split; [done|tauto]].
  destruct (all_zero c); split; try done; by intros [].
Qed.

Lemma deliver_step m w : step (w_chain w) (w_chain (deliver_msg m w)).
Proof.
  destruct m as [ctx msg|cfg msg| | |http cfg req]; cbn [deliver_msg]; [| |constructor..].
  - unfold on_chain. cbn [w_chain w_node w_gas]. destruct (InitCommitment ctx msg (w_chain w)) as [[[]|e|] s'] eqn:E; [|constructor..].
    destruct (InitCommitment_inv _ _ _ _ E) as (a & coin & coins & b' & _ & _ & Hp & Hc & Hv & Hb & ->).
    apply validateCommitmentBytes_spec in Hv as [? ?]. by eapply step_init.
  - destruct (TFHESubmit cfg msg _) as [r w'] eqn:E. apply TFHESubmit_inv in E as [(e & -> & _)|[-> |E]]; [constructor..|].
    destruct E as (a & d & rs & tree & root & meta0 & -> & (_ & _ & Hq & _) & Hh & _ & Hc & _). cbn [commit].
    rewrite Hc. apply step_submit; [done|apply Sum256_length|done].
Qed.

Lemma deliver_msgs_inv (P : State B -> Prop) ms w :
  (forall s s', step s s' -> P s -> P s') -> P (w_chain w) -> P (w_chain (deliver_msgs ms w)).
Proof.
  intros Hstep. revert w. induction ms as [|m ms IH]; intros w Hw; [done|]. apply IH. eapply Hstep; [apply deliver_step|done].
Qed.

Lemma keys_inj a b : (TFHEQuotaKey a = TFHEQuotaKey b -> a = b) /\ (CommitmentKey a = CommitmentKey b -> a = b) /\
  (TFHEMetaKey a = TFHEMetaKey b -> a = b).
Proof. split_and!; apply string_app_inj. Qed.

(** The count of an account, after the writes of another key. *)
Lemma quota_submitted a h meta s b :
  quota_of (submitted a h meta s) b = if decide (a = b) then wrap_u64 (quota_of s a + 1) else quota_of s b.
Proof.
  unfold submitted. unfold quota_of at 1. cbn [p_store]. case_decide as Hab; [subst; by rewrite lookup_insert_eq|].
  destruct (keys_distinct b a h) as (D1 & D2 & _).
  rewrite !lookup_insert_ne; [done|by apply not_eq_sym..|]. intros E. apply Hab. by apply (proj1 (keys_inj a b)).
Qed.

(** One submission per account, for ever.  After an account's submission
    succeeded, and whatever messages are delivered then, every further
    submission of the account fails with ErrTFHEQuotaExceeded, whatever its
    ciphertext of a valid size, and changes nothing, on the chain or on the
    node: no message lowers the counter. *)
Theorem submit_once cfg msg w resp w1 a ms cfg' msg' :
  TFHESubmit cfg msg w = (Ok resp, w1) -> AccAddressFromBech32 (Sender msg) = Some a ->
  0 <= quota_of (w_chain w) a ->
  AccAddressFromBech32 (Sender msg') = Some a ->
  MinCiphertextSize <= Z.of_nat (String.length (Ciphertext msg')) <= MaxCiphertextSize ->
  let w2 := deliver_msgs ms w1 in
  TFHESubmit cfg' msg' w2 = (Err (Wrapf "already has active commitment(s)" ErrTFHEQuotaExceeded), w2).
Proof.
  intros E Ha Hq Ha' [Hmin Hmax] w2.
  assert (TFHEMaxActiveCommitments <= quota_of (w_chain w2) a) as Hq2.
  { apply (deliver_msgs_inv (fun s => TFHEMaxActiveCommitments <= quota_of s a)).
    - intros s s' Hs Hqs. destruct Hs as [|ctx b coin coins c b' e _ _ _ _ _|b h meta e Hb _ _]; [done| |].
      + unfold quota_of. cbn [p_store]. destruct (keys_distinct a b "") as (D1 & _). rewrite lookup_insert_ne; [done|by apply not_eq_sym].
      + change (TFHEMaxActiveCommitments <= quota_of (submitted b h meta s) a). rewrite quota_submitted.
        case_decide; [subst; lia|done].
    - apply TFHESubmit_inv in E as [(e & ? & _)|[?|E]]; [done..|].
      destruct E as (a' & d & rs & tree & root & meta0 & _ & (Ha1 & _ & Hlt & _) & _ & _ & -> & _). rewrite Ha in Ha1. injection Ha1 as <-.
      change (TFHEMaxActiveCommitments <= quota_of (submitted a (Sum256 (Ciphertext msg)) (set_meta_fields (Z.of_nat (String.length (Ciphertext msg))) root (signingPubKey d) meta0) (w_chain w)) a).
      rewrite quota_submitted, decide_True by done. unfold TFHEMaxActiveCommitments in *. rewrite wrap_u64_id; unfold two64; lia. }
  unfold TFHESubmit. rewrite Ha'. destruct (Z.ltb_spec (Z.of_nat (String.length (Ciphertext msg'))) MinCiphertextSize); [lia|].
  destruct (Z.ltb_spec MaxCiphertextSize (Z.of_nat (String.length (Ciphertext msg')))); [lia|].
  unfold bind at 1, on_chain at 1, GetTFHEQuota, store_get, reads, bind at 1, ret at 1. fold (quota_of (w_chain w2) a).
  destruct (Z.leb_spec TFHEMaxActiveCommitments (quota_of (w_chain w2) a)); [|lia]. by destruct w2.
Qed.

(** The shape of what the store holds, by key. *)
Definition shaped s : Prop :=
  (forall a v, p_store s !! CommitmentKey a = Some v -> exists c, v = VRaw c /\ String.length c = 32%nat) /\
  (forall a v, p_store s !! TFHEQuotaKey a = Some v -> v = VCount 1) /\
  (forall h v, p_store s !! TFHEMetaKey h = Some v ->
     String.length h = 32%nat /\ exists m, v = VMeta m /\ CommitmentHash (unmarshalTFHEMeta m) = h).

Lemma shaped_quota s a : shaped s -> quota_of s a < TFHEMaxActiveCommitments -> quota_of s a = 0.
Proof.
  intros (_ & Hq & _). unfold quota_of. destruct (p_store s !! TFHEQuotaKey a) as [v|] eqn:E; [|done].
  by rewrite (Hq a v E).
Qed.

Lemma step_shaped s s' : step s s' -> shaped s -> shaped s'.
Proof.
  intros [|ctx b coin coins c b' e _ _ H32 _ _|b h meta e Hq H32 Hm] Hs; [done|pose proof Hs as (Hc & Hqs & Hms)..].
  - split; [|split]; intros k v; cbn [p_store]; rewrite lookup_insert_Some; intros [[E <-]|[_ Hk]]; [eauto|by eauto|done|by eauto|done|by eauto].
  - assert (wrap_u64 (quota_of s b + 1) = 1) as Hw by (by rewrite (shaped_quota s b Hs Hq)).
    split; [|split]; intros k v; cbn [p_store with_event submitted]; rewrite Hw, !lookup_insert_Some;
      intros [[E <-]|[_ [[E' <-]|[_ [[E'' <-]|[_ Hk]]]]]]; try done; eauto.
    apply keys_inj in E'' as <-. split; [done|]. eexists. split; [done|]. unfold unmarshalTFHEMeta, marshalTFHEMeta. cbn.
    by rewrite scan_hex_Encode.
Qed.

(** The store keeps its shape.  From a store where every commitment is a
    32-byte string, every counter is 1, and every metadata entry has a 32-byte
    key and decodes to metadata of that commitment, any sequence of messages
    and queries leads to such a store; in it, QueryCommitment answers with 64
    hexadecimal digits for exactly the accounts that have a commitment. *)
Theorem store_shapes ms w :
  shaped (w_chain w) ->
  let s := w_chain (deliver_msgs ms w) in
  shaped s /\
  (forall addr a, AccAddressFromBech32 addr = Some a ->
     (exists resp, QueryCommitment addr s = (Ok resp, s) /\ String.length (CommitmentHex resp) = 64%nat /\ HasCommitment a s = (Ok true, s)) \/
     (QueryCommitment addr s = (Err (Errorf "no commitment registered"), s) /\ HasCommitment a s = (Ok false, s))).
Proof.
  intros Hw s. assert (shaped s) as Hs by (apply deliver_msgs_inv; [apply step_shaped|done]). split; [done|].
  intros addr a Ha. unfold QueryCommitment. rewrite Ha. unfold GetCommitment, HasCommitment, store_get, reads, bind, ret.
  destruct (p_store s !! CommitmentKey a) as [v|] eqn:E; [left|by right].
  destruct (proj1 Hs a v E) as (c & -> & H32). eexists. split; [done|]. cbn [CommitmentHex].
  rewrite hex.Encode_length, H32. by rewrite bool_decide_true.
Qed.

Lemma NewCoins_one coin coins : 0 < Amount coin -> NewCoins [coin] = Some coins -> coins = [coin].
Proof.
  intros Hp. unfold NewCoins, sanitizeCoins. rewrite filter_cons_True by lia. cbn [filter list_filter].
  change (merge_sort coin_le [coin]) with [coin]. case_match; intros; by simplify_eq.
Qed.

(** Deposits stay.  Whatever messages are delivered, the balance of the
    module's account never falls, in any denomination, and no coin is created
    or destroyed: the module has no message that pays a deposit back. *)
Theorem escrow_only_grows `{!BankLaws B} ms w ma d :
  GetModuleAddress (B := B) ModuleName = Some ma ->
  bk_balance (p_bank (w_chain w)) ma d <= bk_balance (p_bank (w_chain (deliver_msgs ms w))) ma d /\
  bk_supply (p_bank (w_chain (deliver_msgs ms w))) d = bk_supply (p_bank (w_chain w)) d.
Proof.
  intros Hma. apply (deliver_msgs_inv (fun s => bk_balance (p_bank (w_chain w)) ma d <= bk_balance (p_bank s) ma d /\
    bk_supply (p_bank s) d = bk_supply (p_bank (w_chain w)) d)); [|done].
  intros s s' [|ctx a coin coins c b' e Hp Hc _ _ Hb|a h meta e _ _ _] [Hle Hsup]; [done| |done].
  cbn [p_bank]. destruct (send_to_module _ _ _ _ _ _ _ Hb) as (ma' & Hma' & Ht & Hs). rewrite Hma in Hma'. injection Hma' as <-.
  rewrite Hs, Ht. split; [|done]. unfold owned_by. rewrite (bool_decide_true (ma = ma)) by done.
  rewrite (NewCoins_one _ _ Hp Hc). cbn [coins_amount]. repeat case_bool_decide; lia.
Qed.
End Steps.

(** ** From a submission to a query *)

Section EndToEnd.
Import reconstruction cluster.
Context {B : Type} `{BankKeeper B} `{Bech32}.
Context `{Crypto} {keypair : string -> string -> Prop} `{!CryptoLaws keypair} `{!Mode5Sizes}.
Context `{Sha256} `{!Sha256Laws} `{Disk} `{!Writable} `{ReedSolomon} `{!ReedSolomonLaws} `{Network}.
Implicit Types (s : State B) (w : World B) (cfg : Config).

Definition nodes_of cfg (d : ShardDistributor) : list string :=
  clusterNodes (cfg_env cfg) (local_nodeID (cfg_env cfg) d) (GetValidatorMonikers cfg).

Lemma node_map_int_keys c rs nodes : numbered rs -> int_keys (node_map c rs nodes).
Proof.
  intros Hrs. unfold node_map. assert (Hall : Forall (fun sr => 0 <= Index sr < 16) rs)
    by (apply Forall_forall; intros sr Hsr; by apply (numbered_lookup rs Hrs)).
  assert (int_keys ∅) as Hnil by (apply map_Forall_empty). clear Hrs. revert Hnil. generalize (∅ : gmap Z (list string)).
  induction Hall as [|sr rs Hi Hall IH]; intros m Hm; [done|]. cbn [foldl]. apply IH.
  apply map_Forall_insert_2; [|done]. unfold in_i64, two63. lia.
Qed.

(** The metadata a submission stores. *)
Definition stored_meta cfg (d : ShardDistributor) (ct : string) (rs : list ShardResult) (root : string) : TFHEShardMeta :=
  mkTFHEShardMeta (Sum256 ct) (Z.of_nat (String.length ct)) (node_map (Sum256 ct) rs (nodes_of cfg d)) root (signingPubKey d).

Lemma stored_meta_roundtrip cfg d ct rs root : numbered rs ->
  unmarshalTFHEMeta (marshalTFHEMeta (stored_meta cfg d ct rs root)) = stored_meta cfg d ct rs root.
Proof. intros Hrs. apply meta_roundtrip. by apply node_map_int_keys. Qed.

Lemma Sum256_nonempty x : Sum256 x <> "".
Proof. intros E. pose proof (Sum256_length x) as Hl. rewrite E in Hl. discriminate. Qed.

Lemma Split_numbered data rs : Split data = Ok rs -> data <> "" /\ numbered rs.
Proof.
  intros Hs. assert (data <> "") as Hd by (intros ->; discriminate Hs). split; [done|].
  destruct (Split_total data Hd) as (rs' & E & ? & ?). rewrite Hs in E. injection E as <-. done.
Qed.


(** C6: a ciphertext comes back.  After a successful submission on a node
    that signs with a key pair or not at all, of a ciphertext whose shards have
    at most 25,000 bytes (from 32,768 on none would arrive), and the delivery of
    the shards to a cluster in which nothing was stored under its digest:
    TFHEResult answers with the ciphertext on every node of the cluster that has
    the chain's state, as long as fewer nodes are down than there are copies of
    a shard.  Every request passes the rate limiter of its receiver, which must
    have room for 16 uploads from the proposer's address and for these and 16
    fetches from the reader's (of the 60 a minute it is made with); the reader
    has asked a peer for at most 15 shards before it asks for another; files can
    be written. *)
Theorem submit_result_roundtrip cfg msg w resp w1 d rs cl :
  let ct := Ciphertext msg in
  let h := Sum256 ct in
  let nodes := nodes_of cfg d in
  TFHESubmit cfg msg w = (Ok resp, w1) -> cfg_distributor cfg = Some d -> keyed (keypair := keypair) d -> nodeID d <> "" ->
  Split ct = Ok rs -> Forall (fun sr => 0 < Z.of_nat (String.length (Data sr)) <= 25000) rs ->
  cl !! nodeID d = Some (w_node w) -> outbox (w_node w) = [] ->
  (forall p, p ∈ nodes -> is_Some (cl !! p)) -> fresh h cl -> uploadable (nodeID d) cl -> p_store (w_chain w) !! TFHEResultKey h = None ->
  let cl' := deliver_all (nodeID d) (<[nodeID d := w_node w1]> cl) (outbox (w_node w1)) in
  forall running cfgB dB wB, (length (filter (fun p => p ∉ running) nodes) < Nat.min ReplicationFactor (length nodes))%nat ->
    cfg_distributor cfgB = Some dB -> nodeID dB <> "" -> w_chain wB = w_chain w1 -> cl' !! nodeID dB = Some (w_node wB) ->
    readable (nodeID dB) cl -> (forall p idx, 0 <= idx < 16 -> (length (asked_before (nodeID dB) p idx) < 16)%nat) ->
    fst (TFHEResult (cluster_get running cl' (nodeID dB)) cfgB (Some (h, "")) wB) =
      Ok (mkQueryTFHEResultResponse h ct (wrap_u32 (Z.of_nat (String.length ct)))).
Proof.
  intros ct h nodes E Hd Hk Hid Hs Hsz Hcl Ho Hdom Hf Hup Hnone cl' running cfgB dB wB Hdown HdB HidB Hch HclB Hrd Hask.
  destruct (Split_numbered _ _ Hs) as [_ Hrs]. destruct (numbered_tree rs Hrs) as (tree & root & Ht & Hr).
  assert (local_nodeID (cfg_env cfg) d = nodeID d) as El by (unfold local_nodeID; by rewrite bool_decide_false).
  assert (Forall (fun sr => Data sr <> "") rs) as Hne by (eapply Forall_impl; [exact Hsz|]; intros sr [? _] E'; rewrite E' in *; done).
  unfold nodes, nodes_of in Hdom, Hdown. rewrite El in Hdom, Hdown.
  destruct (cluster_recovers (keypair := keypair) (cfg_env cfg) d h ct rs (GetValidatorMonikers cfg) cl (w_node w))
    as (meta & s' & Ed & Hrec); [done|done|apply Sum256_length|done..|].
  pose proof (DistributeShards_run (cfg_env cfg) d rs h (GetValidatorMonikers cfg) (w_node w) tree root Hk (Sum256_nonempty ct) Hrs Ht Hr Hne) as Er.
  apply TFHESubmit_inv in E as [(e & ? & _)|[?|E]]; [done..|].
  destruct E as (a & d' & rs' & tree' & root' & meta0 & _ & (_ & _ & _ & Hd' & Hs' & Ht' & Hr') & _ & Ed' & Hc & _).
  rewrite Hd in Hd'. injection Hd' as <-. fold ct in Hs'. rewrite Hs in Hs'. injection Hs' as <-. rewrite Ht in Ht'. injection Ht' as <-.
  rewrite Hr in Hr'. injection Hr' as <-. fold ct in Ed', Hc. fold h in Ed', Hc. rewrite Ed in Ed'. injection Ed' as -> ->. rewrite Ed in Er. injection Er as -> _.
  specialize (Hrec running dB (w_node wB) Hdown HidB HclB Hrd Hask). fold cl' in Hrec.
  unfold TFHEResult. rewrite (bool_decide_false (h = "") (Sum256_nonempty ct)). cbn [andb].
  rewrite (proj2 (Nat.eqb_eq (String.length h) 32) (Sum256_length ct)). cbn [negb].
  unfold on_chain, GetTFHEResult, GetTFHEMeta, store_get, reads, bind, ret. rewrite Hch, Hc. cbn [w_chain w_node w_gas with_event submitted p_store].
  fold ct h. rewrite !lookup_insert_ne by discriminate. rewrite Hnone.
  cbn [w_chain w_node w_gas with_event submitted p_store]. rewrite !lookup_insert_ne by discriminate. rewrite lookup_insert_eq, HdB.
  change (set_meta_fields _ _ _ _) with (mkTFHEShardMeta h (Z.of_nat (String.length ct)) (node_map h rs (clusterNodes (cfg_env cfg) (local_nodeID (cfg_env cfg) d) (GetValidatorMonikers cfg))) root (signingPubKey d)).
  change (set_OriginalLen _ _) with (mkTFHEShardMeta h (Z.of_nat (String.length ct)) (node_map h rs (clusterNodes (cfg_env cfg) (local_nodeID (cfg_env cfg) d) (GetValidatorMonikers cfg))) root (signingPubKey d)) in Hrec.
  rewrite meta_roundtrip by (by apply node_map_int_keys). unfold map_err, on_node, on_files. cbn [w_node w_chain].
  destruct (ReconstructCiphertext _ _ _ _) as [rr fs'] eqn:Err. cbn [fst] in Hrec. subst rr. done.
Qed.

(** The metadata entry after a successful submission. *)
Lemma submit_meta cfg msg w resp w1 d rs tree root :
  TFHESubmit cfg msg w = (Ok resp, w1) -> cfg_distributor cfg = Some d -> keyed (keypair := keypair) d ->
  Split (Ciphertext msg) = Ok rs -> Forall (fun sr => Data sr <> "") rs -> BuildMerkleTree rs = Ok tree -> Root tree = Ok root ->
  p_store (w_chain w1) !! TFHEMetaKey (Sum256 (Ciphertext msg)) =
    Some (VMeta (marshalTFHEMeta (stored_meta cfg d (Ciphertext msg) rs root))).
Proof.
  intros E Hd Hk Hs Hne Ht Hr. destruct (Split_numbered _ _ Hs) as [_ Hrs].
  pose proof (DistributeShards_run (cfg_env cfg) d rs (Sum256 (Ciphertext msg)) (GetValidatorMonikers cfg) (w_node w) tree root
    Hk (Sum256_nonempty _) Hrs Ht Hr Hne) as Er.
  apply TFHESubmit_inv in E as [(e & ? & _)|[?|E]]; [done..|].
  destruct E as (a & d' & rs' & tree' & root' & meta0 & _ & (_ & _ & _ & Hd' & Hs' & Ht' & Hr') & _ & Ed' & -> & _).
  rewrite Hd in Hd'. injection Hd' as <-. rewrite Hs in Hs'. injection Hs' as <-. rewrite Ht in Ht'. injection Ht' as <-.
  rewrite Hr in Hr'. injection Hr' as <-. rewrite Er in Ed'. injection Ed' as <- _.
  cbn [with_event submitted p_store]. rewrite !lookup_insert_ne by discriminate. by rewrite lookup_insert_eq.
Qed.

(** In a cluster of at most four nodes every shard is on every node. *)
Lemma assigned_everywhere nodes c idx p : NoDup nodes -> (length nodes <= ReplicationFactor)%nat -> p ∈ nodes ->
  p ∈ assignedNodes nodes c idx.
Proof.
  intros Hnd Hl Hp. assert (nodes <> []) as Hn by (intros ->; by apply not_elem_of_nil in Hp).
  destruct (assignedNodes_spec nodes c idx Hnd Hn) as (Ha & Hla & Hs). rewrite Nat.min_r in Hla by done.
  assert (assignedNodes nodes c idx ⊆+ nodes) as Hsub by (by apply NoDup_submseteq).
  rewrite (submseteq_length_Permutation _ _ Hsub) by lia. done.
Qed.

(** Nodes disagree on the state.  Take two nodes that execute the same
    submission on the same chain, where the second is not among the nodes the
    first knows (its moniker is not a validator's) and knows at most four nodes
    with itself.  Both succeed, and the metadata they store differs: each
    counts itself as a node of the cluster. *)
Theorem metadata_depends_on_node cfg1 cfg2 msg n1 n2 s r1 w1 r2 w2 d1 d2 rs :
  let run cfg n := TFHESubmit cfg msg (mkWorld s n 0) in
  run cfg1 n1 = (Ok r1, w1) -> run cfg2 n2 = (Ok r2, w2) ->
  cfg_distributor cfg1 = Some d1 -> cfg_distributor cfg2 = Some d2 -> keyed (keypair := keypair) d1 -> keyed (keypair := keypair) d2 ->
  Split (Ciphertext msg) = Ok rs -> Forall (fun sr => Data sr <> "") rs ->
  local_nodeID (cfg_env cfg2) d2 ∉ nodes_of cfg1 d1 -> (length (nodes_of cfg2 d2) <= 4)%nat ->
  r1 = r2 /\ w_chain w1 <> w_chain w2.
Proof.
  intros run E1 E2 Hd1 Hd2 Hk1 Hk2 Hs Hne Hnot Hlen. destruct (Split_numbered _ _ Hs) as [_ Hrs].
  destruct (numbered_tree rs Hrs) as (tree & root & Ht & Hr). split.
  - apply TFHESubmit_inv in E1 as [(? & ? & _)|[?|(? & ? & ? & ? & ? & ? & E1 & _)]]; [done..|].
    apply TFHESubmit_inv in E2 as [(? & ? & _)|[?|(? & ? & ? & ? & ? & ? & E2 & _)]]; [done..|]. congruence.
  - intros Eq. pose proof (submit_meta _ _ _ _ _ _ _ _ _ E1 Hd1 Hk1 Hs Hne Ht Hr) as M1.
    pose proof (submit_meta _ _ _ _ _ _ _ _ _ E2 Hd2 Hk2 Hs Hne Ht Hr) as M2. rewrite Eq, M2 in M1.
    assert (stored_meta cfg2 d2 (Ciphertext msg) rs root = stored_meta cfg1 d1 (Ciphertext msg) rs root) as Em.
    { apply (f_equal (fun v => match v with Some (VMeta m) => Some (unmarshalTFHEMeta m) | _ => None end)) in M1.
      rewrite !stored_meta_roundtrip in M1 by done. by apply Some_inj in M1. }
    apply (f_equal (fun m => ShardNodeMap m !! 0)) in Em. cbn [stored_meta ShardNodeMap] in Em.
    rewrite !node_map_lookup in Em by (done || lia). injection Em as Em.
    pose proof (clusterNodes_spec (cfg_env cfg2) (local_nodeID (cfg_env cfg2) d2) (GetValidatorMonikers cfg2)) as (Hnd & Hin & _).
    pose proof (clusterNodes_spec (cfg_env cfg1) (local_nodeID (cfg_env cfg1) d1) (GetValidatorMonikers cfg1)) as (Hnd1 & _ & Hnn).
    apply Hnot. apply (assignedNodes_spec (nodes_of cfg1 d1) (Sum256 (Ciphertext msg)) 0 Hnd1 Hnn).
    fold (nodes_of cfg1 d1) (nodes_of cfg2 d2) in Em. rewrite <- Em. by apply assigned_everywhere.
Qed.
End EndToEnd.

(** ** The theorems at concrete inputs *)

Section MsgWitnesses.
Import cluster keys_toy.
#[local] Existing Instance bech32_toy.
#[local] Existing Instance sdkmath.
#[local] Existing Instance keys_toy.crypto.
#[local] Existing Instance toy_sha256.
#[local] Existing Instance toy_sha256_laws.
#[local] Existing Instance toy_rs.
#[local] Existing Instance toy_rs_laws.
#[local] Existing Instance cluster.disk.
#[local] Existing Instance cluster.disk_writable.
#[local] Existing Instance cluster.crypto_sizes.
#[local] Existing Instance cluster.network.
#[local] Existing Instance privacykeeper.rent_bank.
#[local] Existing Instance privacykeeper.rent_bank_laws.

(** Whole amounts only. *)
#[local] Instance dec_parse : DecParse := {| NewDecFromStr s := (fun n => n * dec_one) <$> strconv.Atoi s |}.

Definition alice : string := AccAddress_String "alice".
Definition sample_ct : string := one_byte 1024 "x".
Definition sample_msg : MsgTFHESubmit := mkMsgTFHESubmit alice sample_ct.
Definition sample_config (name : string) : Config :=
  mkConfig (Some (mkShardDistributor name "" "")) (mkEnv "" "") (Some ["n1"; "n2"; ""]) (Some 200000).
Definition sample_world : World bankkeeper.BankState := mkWorld (mkState alice_bank ∅ []) empty_node 0.
Definition after_submit : World bankkeeper.BankState := snd (TFHESubmit (sample_config "n1") sample_msg sample_world).
Definition sample_resp : MsgTFHESubmitResponse := mkMsgTFHESubmitResponse (Sum256 sample_ct) 16.
Definition sample_rs : list ShardResult := match Split sample_ct with Ok rs => rs | _ => [] end.

Lemma ok_pair {S A} (o : outcome A * S) a : fst o = Ok a -> o = (Ok a, snd o).
Proof. destruct o. by intros [= ->]. Qed.

Lemma sample_submit : TFHESubmit (sample_config "n1") sample_msg sample_world = (Ok sample_resp, after_submit).
Proof. unfold after_submit. refine (ok_pair (TFHESubmit (sample_config "n1") sample_msg sample_world) sample_resp _). vm_compute. reflexivity. Qed.

Lemma sample_keyed name : keyed (keypair := key_pair) (mkShardDistributor name "" "").
Proof. by left. Qed.

Lemma sample_shards_sizes : Forall (fun sr => 0 < Z.of_nat (String.length (Data sr)) <= 25000) sample_rs.
Proof. apply (bool_decide_unpack _). vm_compute. exact I. Qed.

Lemma sample_shards_nonempty : Forall (fun sr => Data sr <> "") sample_rs.
Proof. eapply Forall_impl; [exact sample_shards_sizes|]. intros sr [Hs _] E. by rewrite E in Hs. Qed.


(** A cluster of two nodes, with no files yet. *)
Definition pair_cluster : gmap string Node := {[ "n1" := empty_node; "n2" := empty_node ]}.

Lemma pair_nodes q s : pair_cluster !! q = Some s -> s = empty_node.
Proof.
  unfold pair_cluster. intros [[_ <-]|[_ [_ <-]%lookup_singleton_Some]]%lookup_insert_Some; reflexivity.
Qed.

Lemma submit_result_roundtrip_witness :
  let cl' := deliver_all "n1" (<["n1" := w_node after_submit]> pair_cluster) (outbox (w_node after_submit)) in
  exists n, cl' !! "n2" = Some n /\
    fst (TFHEResult (cluster_get {[ "n1" ]} cl' "n2") (sample_config "n2") (Some (Sum256 sample_ct, ""))
           (mkWorld (w_chain after_submit) n 0)) = Ok (mkQueryTFHEResultResponse (Sum256 sample_ct) sample_ct 1024).
Proof.
  intros cl'. assert (is_Some (cl' !! "n2")) as [n Hn] by (apply (bool_decide_unpack _); vm_compute; exact I).
  exists n. split; [exact Hn|].
  refine (eq_trans (submit_result_roundtrip (keypair := key_pair) (sample_config "n1") sample_msg sample_world sample_resp after_submit
    (mkShardDistributor "n1" "" "") sample_rs pair_cluster sample_submit eq_refl (sample_keyed "n1") _ _ _ _ _ _ _ _ _
    {[ "n1" ]} (sample_config "n2") (mkShardDistributor "n2" "" "") (mkWorld (w_chain after_submit) n 0) _ _ _ _ _ _ _) _).
  - discriminate.
  - vm_compute. reflexivity.
  - exact sample_shards_sizes.
  - vm_compute. reflexivity.
  - reflexivity.
  - apply Forall_forall, (bool_decide_unpack _). vm_compute. exact I.
  - intros q s name ->%pair_nodes. reflexivity.
  - intros p idx _. apply sample_room; [exact pair_nodes|lia].
  - vm_compute. reflexivity.
  - apply Nat.ltb_lt. vm_compute. reflexivity.
  - reflexivity.
  - discriminate.
  - reflexivity.
  - exact Hn.
  - intros p idx _. apply sample_room; [exact pair_nodes|lia].
  - intros p idx. apply sample_asked.
  - reflexivity.
Defined.

Lemma submit_once_witness :
  fst (TFHESubmit (sample_config "n1") sample_msg (deliver_msgs [PTransfer; PDeposit] after_submit)) =
    Err (Wrapf "already has active commitment(s)" ErrTFHEQuotaExceeded).
Proof.
  refine (f_equal fst (submit_once (sample_config "n1") sample_msg sample_world sample_resp after_submit "alice"
    [PTransfer; PDeposit] (sample_config "n1") sample_msg sample_submit _ _ _ _)); vm_compute; (reflexivity || discriminate || (split; discriminate)).
Defined.

Definition sample_init : pmsg :=
  PInit (mkCtx 1 1) (mkMsgInitCommitment alice "40uzytc" (one_byte 32 "c")).

Lemma store_shapes_witness : shaped (w_chain (deliver_msgs [sample_init; PSubmit (sample_config "n1") sample_msg] sample_world)).
Proof.
  apply (store_shapes [sample_init; PSubmit (sample_config "n1") sample_msg] sample_world).
  split; [|split]; intros k v E; discriminate E.
Defined.

Lemma escrow_only_grows_witness :
  bk_balance (p_bank (w_chain sample_world)) "privacc" "uzytc" <=
    bk_balance (p_bank (w_chain (deliver_msgs [sample_init] sample_world))) "privacc" "uzytc" /\
  bk_balance (p_bank (w_chain (deliver_msgs [sample_init] sample_world))) "privacc" "uzytc" = 40.
Proof.
  split; [|vm_compute; reflexivity]. apply (escrow_only_grows [sample_init] sample_world "privacc" "uzytc"). vm_compute. reflexivity.
Defined.

Lemma metadata_depends_on_node_witness :
  w_chain after_submit <> w_chain (snd (TFHESubmit (sample_config "sentry") sample_msg sample_world)).
Proof.
  refine (proj2 (metadata_depends_on_node (keypair := key_pair) (sample_config "n1") (sample_config "sentry") sample_msg empty_node empty_node
    (mkState alice_bank ∅ []) sample_resp after_submit sample_resp (snd (TFHESubmit (sample_config "sentry") sample_msg sample_world))
    (mkShardDistributor "n1" "" "") (mkShardDistributor "sentry" "" "") sample_rs sample_submit _ eq_refl eq_refl
    (sample_keyed "n1") (sample_keyed "sentry") _ sample_shards_nonempty _ _)).
  - refine (ok_pair (TFHESubmit (sample_config "sentry") sample_msg sample_world) sample_resp _). vm_compute. reflexivity.
  - vm_compute. reflexivity.
  - apply (bool_decide_unpack _). vm_compute. exact I.
  - apply Nat.leb_le. vm_compute. reflexivity.
Defined.
End MsgWitnesses.
End privacymsgs.
