(* ===== verification/KVStore.v ===== *)
(** KVStore: the interface of the key-value stores of cosmos-sdk/store, its
    iterators and prefixes.

    The interfaces KVStore and Iterator of store/types/store.go are classes of
    operations with their documented laws.  The abstraction of a store is the
    finite map of its contents, and the laws say that every operation refines
    the operation of the same name on maps; that of an iterator is the list of
    the entries it has left.  A client of a store is a [prog].  PrefixEndBytes,
    InclusiveEndBytes and KVStorePrefixIterator are those of
    store/types/utils.go.

    Theorems: a client runs on a lawful store as on its contents; a prefix
    iterator visits exactly the keys that start with the prefix, which is what
    [kv_prefix_iter] of Prelude.v assumes of the modules' stores. *)

From Stdlib Require Import ZArith Lia Ascii String.
From stdpp Require Import base gmap sets list strings fin_maps sorting.
From S2P Require Import Prelude.

Open Scope Z_scope.
Open Scope go_scope.

(** ** bytes.Compare *)

Module order.

Definition Compare (a b : string) : Z := match String.compare a b with Lt => -1 | Eq => 0 | Gt => 1 end.

Definition str_lt (a b : string) : Prop := String.compare a b = Lt.

Lemma ascii_compare_refl a : Ascii.compare a a = Eq.
Proof. unfold Ascii.compare. apply N.compare_refl. Qed.

Lemma compare_refl a : String.compare a a = Eq.
Proof. induction a as [|c a IH]; cbn; [done|]. by rewrite ascii_compare_refl. Qed.

Lemma compare_eq a b : String.compare a b = Eq <-> a = b.
Proof. split; [apply String.compare_eq_iff|intros ->; apply compare_refl]. Qed.

Lemma ascii_compare_trans a b c : Ascii.compare a b = Lt -> Ascii.compare b c = Lt -> Ascii.compare a c = Lt.
Proof. unfold Ascii.compare. rewrite !N.compare_lt_iff. lia. Qed.

#[export] Instance str_lt_trans : Transitive str_lt.
Proof.
  intros a. unfold str_lt. induction a as [|x a IH]; intros [|y b] [|z c]; cbn; try done.
  destruct (Ascii.compare x y) eqn:Exy; destruct (Ascii.compare y z) eqn:Eyz; try done;
    rewrite ?Ascii.compare_eq_iff in *; try (apply Ascii.compare_eq_iff in Exy); try (apply Ascii.compare_eq_iff in Eyz); subst.
  - rewrite ascii_compare_refl. apply IH.
  - by rewrite Eyz.
  - by rewrite Exy.
  - by rewrite (ascii_compare_trans _ _ _ Exy Eyz).
Qed.

Lemma str_lt_irrefl a : ~ str_lt a a.
Proof. unfold str_lt. by rewrite compare_refl. Qed.

Lemma str_lt_total a b : str_lt a b \/ a = b \/ str_lt b a.
Proof.
  unfold str_lt. destruct (String.compare a b) eqn:E; [right; left; by apply compare_eq|by left|].
  right; right. rewrite String.compare_antisym, E. done.
Qed.

Lemma Compare_lt a b : Compare a b < 0 <-> str_lt a b.
Proof. unfold Compare, str_lt. destruct (String.compare a b); split; intros; (done || lia). Qed.

Lemma Compare_gt a b : 0 < Compare a b <-> str_lt b a.
Proof. unfold Compare, str_lt. rewrite (String.compare_antisym b a). destruct (String.compare a b); cbn; split; intros; (done || lia). Qed.

Lemma Compare_eq a b : Compare a b = 0 <-> a = b.
Proof. rewrite <- compare_eq. unfold Compare. destruct (String.compare a b); split; intros; (done || lia). Qed.

#[export] Instance str_lt_dec : RelDecision str_lt.
Proof. intros a b. unfold str_lt. apply _. Defined.

(** The order of an iterator. *)
Definition before (ascending : bool) (a b : string) : Prop := if ascending then str_lt a b else str_lt b a.

#[export] Instance before_trans asc : Transitive (before asc).
Proof. intros a b c. unfold before. destruct asc; intros; by etrans. Qed.

#[export] Instance before_dec asc : RelDecision (before asc).
Proof. intros a b. unfold before. destruct asc; apply _. Defined.

Lemma before_irrefl asc a : ~ before asc a a.
Proof. unfold before. destruct asc; apply str_lt_irrefl. Qed.

Lemma before_total asc a b : before asc a b \/ a = b \/ before asc b a.
Proof. unfold before. destruct (str_lt_total a b) as [?|[?|?]]; destruct asc; auto. Qed.

Lemma leb_lt a b : String.leb a b = true <-> str_lt a b \/ a = b.
Proof. unfold String.leb, str_lt. rewrite <- compare_eq. destruct (String.compare a b); naive_solver. Qed.
End order.

Import order.

(** ** Domains *)

(** The bounds of an iterator; [None] is nil. *)
Definition bound : Type := option string.

(** The half-open range between two bounds. *)
Definition in_domain (lo hi : bound) (k : string) : Prop :=
  (match lo with Some l => ~ str_lt k l | None => True end) /\ (match hi with Some h => str_lt k h | None => True end).

#[export] Instance in_domain_dec lo hi k : Decision (in_domain lo hi k).
Proof. unfold in_domain. destruct lo, hi; apply _. Defined.

(** Bounds a store accepts: neither is empty. *)
Definition bounds_ok (lo hi : bound) : Prop := lo <> Some "" /\ hi <> Some "".

(** The entries of [m] in a domain, in the order of an iterator. *)
Definition range {V} (lo hi : bound) (ascending : bool) (m : gmap string V) : list (string * V) :=
  let l := filter (fun kv => in_domain lo hi kv.1) (merge_sort key_le (map_to_list m)) in
  if ascending then l else reverse l.

Definition ordered {V} (ascending : bool) (l : list (string * V)) : Prop := StronglySorted (before ascending) l.*1.

Lemma ordered_cons {V} asc k (v : V) l : ordered asc ((k, v) :: l) <-> ordered asc l /\ forall k' v', (k', v') ∈ l -> before asc k k'.
Proof.
  unfold ordered. cbn [fmap list_fmap fst]. rewrite StronglySorted_cons, Forall_fmap, Forall_forall. split.
  - intros [Hf Hs]. split; [done|]. intros k' v' Hin. by apply (Hf (k', v')).
  - intros [Hs Hf]. split; [|done]. intros [k' v'] Hin. by apply (Hf k' v').
Qed.

Lemma ordered_reverse {V} asc (l : list (string * V)) : ordered asc l -> ordered (negb asc) (reverse l).
Proof.
  induction l as [|[k v] l IH]; intros Hs; [constructor|]. apply ordered_cons in Hs as [Hs Hf].
  rewrite reverse_cons. unfold ordered. rewrite fmap_app. apply StronglySorted_app. split_and!; [|by apply IH|repeat constructor].
  intros a b Ha Hb%list_elem_of_singleton. cbn in Hb. subst b. apply list_elem_of_fmap in Ha as ([k' v'] & -> & Hin).
  rewrite elem_of_reverse in Hin. apply Hf in Hin. by destruct asc.
Qed.

Lemma ordered_app {V} asc (l1 l2 : list (string * V)) : ordered asc (l1 ++ l2) -> ordered asc l1 /\ ordered asc l2.
Proof. unfold ordered. rewrite fmap_app. by intros (? & ? & ?)%StronglySorted_app. Qed.

(** An ordered list is determined by its elements. *)
Lemma ordered_unique {V} asc (l l' : list (string * V)) : ordered asc l -> ordered asc l' ->
  (forall kv, kv ∈ l <-> kv ∈ l') -> l = l'.
Proof.
  revert l'. induction l as [|[k v] l IH]; intros [|[k' v'] l'] H1 H2 E; [done| | |].
  - destruct (not_elem_of_nil (k', v')). apply E. left.
  - destruct (not_elem_of_nil (k, v)). apply E. left.
  - apply ordered_cons in H1 as [H1 F1], H2 as [H2 F2].
    assert ((k, v) = (k', v')) as [= <- <-].
    { pose proof (proj1 (E (k, v)) ltac:(left)) as Hin. pose proof (proj2 (E (k', v')) ltac:(left)) as Hin'.
      apply elem_of_cons in Hin as [Hin|Hin]; [done|]. apply elem_of_cons in Hin' as [Hin'|Hin']; [done|].
      apply F2 in Hin. apply F1 in Hin'.
      destruct (before_irrefl asc k). by etrans. }
    f_equal. apply IH; [done|done|]. intros kv. specialize (E kv). rewrite !elem_of_cons in E.
    assert (forall w, (k, w) ∈ l -> False) as N1 by (intros w Hw; by apply F1, before_irrefl in Hw).
    assert (forall w, (k, w) ∈ l' -> False) as N2 by (intros w Hw; by apply F2, before_irrefl in Hw).
    destruct kv as [k1 v1]. split; intros Hin; [destruct (proj1 E ltac:(by right)) as [[= -> ->]|?]|destruct (proj2 E ltac:(by right)) as [[= -> ->]|?]];
      (done || by destruct (N1 v) || by destruct (N2 v)).
Qed.

Lemma merge_sort_ordered {V} (m : gmap string V) : ordered true (merge_sort key_le (map_to_list m)).
Proof.
  assert (Transitive (@key_le V)) as Ht.
  { intros x y z. unfold key_le. rewrite !leb_lt. intros [?| ->] [?| <-]; auto. left. by etrans. }
  assert (Total (@key_le V)) as Hto.
  { intros x y. unfold key_le. rewrite !leb_lt. destruct (str_lt_total x.1 y.1) as [?|[?|?]]; auto. }
  pose proof (StronglySorted_merge_sort key_le (map_to_list m)) as Hs.
  assert (NoDup (merge_sort key_le (map_to_list m)).*1) as Hnd by (rewrite (merge_sort_Permutation key_le); apply NoDup_fst_map_to_list).
  revert Hs Hnd. generalize (merge_sort key_le (map_to_list m)). clear. intros l Hs.
  induction Hs as [|[k v] l Hs IH Hf]; intros Hnd; [constructor|]. cbn in Hnd. apply NoDup_cons in Hnd as [Hk Hnd].
  apply ordered_cons. split; [by apply IH|]. intros k' v' Hin. rewrite Forall_forall in Hf. pose proof (Hf _ Hin) as Hle.
  unfold key_le in Hle. cbn in Hle. apply leb_lt in Hle as [?| ->]; [done|]. destruct Hk. by apply (list_elem_of_fmap_2 fst _ _ Hin).
Qed.

Lemma ordered_filter {V} asc (P : string * V -> Prop) `{!forall x, Decision (P x)} l : ordered asc l -> ordered asc (filter P l).
Proof.
  induction l as [|[k v] l IH]; intros Hs; [done|]. apply ordered_cons in Hs as [Hs Hf]. rewrite filter_cons.
  destruct (decide _); [|by apply IH]. apply ordered_cons. split; [by apply IH|]. intros k' v' [_ Hin]%list_elem_of_filter. by eapply Hf.
Qed.

Lemma range_ordered {V} lo hi asc (m : gmap string V) : ordered asc (range lo hi asc m).
Proof.
  unfold range. pose proof (ordered_filter true (fun kv => in_domain lo hi kv.1) _ (merge_sort_ordered m)).
  destruct asc; [done|]. by apply (ordered_reverse true).
Qed.

Lemma elem_of_range {V} lo hi asc (m : gmap string V) k v : (k, v) ∈ range lo hi asc m <-> m !! k = Some v /\ in_domain lo hi k.
Proof.
  unfold range. assert (forall l : list (string * V), (k, v) ∈ (if asc then l else reverse l) <-> (k, v) ∈ l) as ->
    by (intros l; destruct asc; [done|apply elem_of_reverse]).
  rewrite list_elem_of_filter, (merge_sort_Permutation key_le), elem_of_map_to_list. cbn. tauto.
Qed.

(** ** Iterators *)

Notation entry := (string * option string)%type.

(** store/types/store.go: Iterator.  Key, Value and Next panic on an iterator
    that is not valid.  [it_size] is not part of the interface: it bounds the
    entries left and is the fuel of loops. *)
Class Iterator (I : Type) : Type := {
  it_Valid : I -> bool;
  it_Key : I -> outcome string;
  it_Value : I -> outcome (option string);
  it_Next : I -> outcome I;
  it_size : I -> nat;
}.

(** [holds i l]: the iterator has the entries [l] left. *)
Class IteratorLaws (I : Type) `{Iterator I} (holds : I -> list entry -> Prop) : Prop := {
  holds_valid i l : holds i l -> it_Valid i = bool_decide (l <> []);
  holds_head i k v l : holds i ((k, v) :: l) ->
    it_Key i = Ok k /\ it_Value i = Ok v /\ exists i', it_Next i = Ok i' /\ holds i' l;
  holds_size i l : holds i l -> (length l <= it_size i)%nat;
}.

(** Code that reads an iterator, without a state of its own. *)
Definition obind {A B} (c : outcome A) (k : A -> outcome B) : outcome B :=
  match c with Ok a => k a | Err e => Err e | Panic => Panic end.
Notation "'let*' x ':=' e 'in' k" := (obind e (fun x => k))
  (at level 200, x pattern, e at level 100, k at level 200, only parsing) : go_scope.

(** A client's loop: [for ; iter.Valid(); iter.Next()]. *)
Fixpoint drain_loop {I} `{Iterator I} (fuel : nat) (i : I) : outcome (list entry) :=
  if negb (it_Valid i) then Ok [] else
  match fuel with
  | O => Panic
  | S fuel =>
      let* k := it_Key i in
      let* v := it_Value i in
      let* i := it_Next i in
      let* l := drain_loop fuel i in
      Ok ((k, v) :: l)
  end.
Definition drain {I} `{Iterator I} (i : I) : outcome (list entry) := drain_loop (it_size i) i.

Lemma drain_holds {I} `{IteratorLaws I holds} i l : holds i l -> drain i = Ok l.
Proof.
  intros Hl. unfold drain. pose proof (holds_size _ _ Hl) as Hs. revert Hs. generalize (it_size i). intros fuel. revert i l Hl.
  induction fuel as [|fuel IH]; intros i [|[k v] l] Hl Hs; cbn in Hs; try lia; cbn [drain_loop]; rewrite (holds_valid _ _ Hl); cbn; try done.
  destruct (holds_head _ _ _ _ Hl) as (Ek & Ev & i' & En & Hl'). rewrite Ek, Ev, En. cbn [obind].
  by rewrite (IH i' l) by (done || lia).
Qed.

(** ** Stores *)

(** store/types/store.go: KVStore, over the states [S] and the iterators [I];
    [kv_iterator true] is Iterator and [kv_iterator false] ReverseIterator. *)
Class KVStore (S I : Type) : Type := {
  kv_Get : string -> M S (option string);
  kv_Has : string -> M S bool;
  kv_Set : string -> option string -> M S unit;
  kv_Delete : string -> M S unit;
  kv_iterator : bool -> bound -> bound -> M S I;
}.

(** store/types/validity.go. *)
Definition AssertValidKey {S} (key : string) : M S unit := if bool_decide (key = "") then panic else ret tt.
Definition AssertValidValue {S} (value : option string) : M S unit := if bool_decide (value = None) then panic else ret tt.

(** *** The contents of a store *)

Notation contents_map := (gmap string string).

(** The store interface on maps. *)
Definition map_Get (key : string) : M contents_map (option string) := AssertValidKey key ;;! reads (fun m => m !! key).
Definition map_Has (key : string) : M contents_map bool := AssertValidKey key ;;! reads (fun m => bool_decide (m !! key <> None)).
Definition map_Set (key : string) (value : option string) : M contents_map unit :=
  AssertValidKey key ;;! AssertValidValue value ;;! modify (partial_alter (fun _ => value) key).
Definition map_Delete (key : string) : M contents_map unit := AssertValidKey key ;;! modify (delete key).
Definition entries (ascending : bool) (start end_ : bound) (m : contents_map) : list entry := range start end_ ascending (Some <$> m).

Section Refines.
Context {S : Type} (inv : S -> Prop) (contents : S -> contents_map).

(** [c] on a store returns what [d] returns on its contents, and leaves it
    with the contents [d] leaves. *)
Definition refines {A} (c : M S A) (d : M contents_map A) : Prop :=
  forall s, inv s -> exists s', c s = (fst (d (contents s)), s') /\ inv s' /\ contents s' = snd (d (contents s)).

Lemma refines_ret {A} (a : A) : refines (ret a) (ret a).
Proof. intros s Hs. by exists s. Qed.

Lemma refines_throw {A} e : refines (@throw S A e) (throw e).
Proof. intros s Hs. by exists s. Qed.

Lemma refines_panic {A} : refines (@panic S A) panic.
Proof. intros s Hs. by exists s. Qed.

Lemma refines_bind {A B} (c : M S A) d (k : A -> M S B) l :
  refines c d -> (forall a, refines (k a) (l a)) -> refines (bind c k) (bind d l).
Proof.
  intros Hc Hk s Hs. destruct (Hc s Hs) as (s1 & E & Hs1 & Ec). unfold bind. rewrite E.
  destruct (d (contents s)) as [[a|e|] m] eqn:Ed; cbn in *; subst m; [by apply Hk|by exists s1..].
Qed.

Lemma refines_assert {A} (c : M S A) d k : (k <> "" -> refines c d) -> refines (AssertValidKey k ;;! c) (AssertValidKey k ;;! d).
Proof. intros Hc. unfold AssertValidKey. case_bool_decide; [apply (refines_panic (A := A))|by apply Hc]. Qed.
End Refines.
#[export] Hint Resolve refines_ret refines_throw refines_panic refines_bind : refines.

(** What the interface promises: every operation refines the one on maps, and
    an iterator visits the entries of its domain.  An empty bound is an error
    of some stores. *)
Class KVStoreLaws (S I : Type) `{KVStore S I} `{Iterator I} (inv : S -> Prop) (contents : S -> contents_map)
    (holds : I -> list entry -> Prop) : Prop := {
  kv_iterators :: IteratorLaws I holds;
  kv_Get_refines k : refines inv contents (kv_Get k) (map_Get k);
  kv_Has_refines k : refines inv contents (kv_Has k) (map_Has k);
  kv_Set_refines k v : refines inv contents (kv_Set k v) (map_Set k v);
  kv_Delete_refines k : refines inv contents (kv_Delete k) (map_Delete k);
  kv_iterator_holds asc start end_ s : inv s -> bounds_ok start end_ ->
    exists i s', kv_iterator asc start end_ s = (Ok i, s') /\ inv s' /\ contents s' = contents s /\
      holds i (entries asc start end_ (contents s));
}.
#[export] Hint Resolve kv_Get_refines kv_Has_refines kv_Set_refines kv_Delete_refines : refines.

(** *** Clients *)

(** Code that uses a store through its interface. *)
Inductive prog (A : Type) : Type :=
  | PRet (a : A)
  | PFail (e : err)
  | PPanic
  | PGet (key : string) (k : option string -> prog A)
  | PHas (key : string) (k : bool -> prog A)
  | PSet (key : string) (value : option string) (k : prog A)
  | PDelete (key : string) (k : prog A)
  | PIterate (ascending : bool) (start end_ : bound) (k : list entry -> prog A).
Arguments PRet {A} a.
Arguments PFail {A} e.
Arguments PPanic {A}.
Arguments PGet {A} key k.
Arguments PHas {A} key k.
Arguments PSet {A} key value k.
Arguments PDelete {A} key k.
Arguments PIterate {A} ascending start end_ k.

Definition lift {S A} (o : outcome A) : M S A := fun s => (o, s).

Lemma lift_run {S A} (o : outcome A) a (s : S) : o = Ok a -> lift o s = (Ok a, s).
Proof. by intros ->. Qed.
Lemma lift_ok {S A} (o : outcome A) (s : S) a s' : lift o s = (Ok a, s') -> o = Ok a /\ s' = s.
Proof. by intros [= -> ->]. Qed.

Section Run.
Context {S I : Type} `{KVStore S I} `{Iterator I}.

(** Reading an iterator to its end. *)
Definition iterate (ascending : bool) (start end_ : bound) : M S (list entry) :=
  let! i := kv_iterator ascending start end_ in
  lift (drain i).

Fixpoint run {A} (p : prog A) : M S A :=
  match p with
  | PRet a => ret a
  | PFail e => throw e
  | PPanic => panic
  | PGet key k => let! v := kv_Get key in run (k v)
  | PHas key k => let! b := kv_Has key in run (k b)
  | PSet key value k => kv_Set key value ;;! run k
  | PDelete key k => kv_Delete key ;;! run k
  | PIterate ascending start end_ k => let! l := iterate ascending start end_ in run (k l)
  end.
End Run.

(** The domains a client iterates over have no empty bound. *)
Fixpoint prog_ok {A} (p : prog A) : Prop :=
  match p with
  | PRet _ | PFail _ | PPanic => True
  | PGet _ k => forall v, prog_ok (k v)
  | PHas _ k => forall b, prog_ok (k b)
  | PSet _ _ k | PDelete _ k => prog_ok k
  | PIterate _ start end_ k => bounds_ok start end_ /\ forall l, prog_ok (k l)
  end.

(** A map is a store; its iterators are the lists of what they have left. *)
#[export] Instance list_Iterator : Iterator (list entry) := {|
  it_Valid l := bool_decide (l <> []);
  it_Key l := match l with [] => Panic | (k, _) :: _ => Ok k end;
  it_Value l := match l with [] => Panic | (_, v) :: _ => Ok v end;
  it_Next l := match l with [] => Panic | _ :: l => Ok l end;
  it_size := length;
|}.

#[export] Instance map_KVStore : KVStore contents_map (list entry) := {|
  kv_Get := map_Get;
  kv_Has := map_Has;
  kv_Set := map_Set;
  kv_Delete := map_Delete;
  kv_iterator ascending start end_ := reads (entries ascending start end_);
|}.

#[export] Instance list_IteratorLaws : IteratorLaws (list entry) eq.
Proof. split; [by intros ? ? ->|intros ? ? ? ? ->; cbn; eauto|by intros ? ? ->]. Qed.

#[export] Instance map_KVStoreLaws : KVStoreLaws contents_map (list entry) (fun _ => True) id eq.
Proof.
  split; [apply _|try (intros; intros s _; eexists; split_and!; [apply surjective_pairing|done|done])..].
  intros asc start end_ s _ _. by exists (entries asc start end_ s), s.
Qed.

Lemma map_iterate asc start end_ (m : contents_map) : iterate asc start end_ m = (Ok (entries asc start end_ m), m).
Proof. unfold iterate. erewrite bind_run by done. unfold lift. by rewrite (drain_holds _ _ eq_refl). Qed.

Section RunLaws.
Context {S I : Type} `{KVStoreLaws S I inv contents holds}.

Lemma iterate_refines asc start end_ : bounds_ok start end_ ->
  refines inv contents (iterate asc start end_) (reads (entries asc start end_)).
Proof.
  intros Hb s Hs. destruct (kv_iterator_holds asc start end_ s Hs Hb) as (i & s' & Ei & Hs' & Ec & Hi).
  exists s'. unfold iterate. rewrite (bind_run _ _ _ _ _ Ei). unfold lift. by rewrite (drain_holds i _ Hi).
Qed.

(** A client of a lawful store runs as on the map of its contents. *)
Lemma run_refines {A} (p : prog A) : prog_ok p -> refines inv contents (run p) (run p).
Proof.
  induction p as [| | |key k IH|key k IH|key v k IH|key k IH|asc start end_ k IH]; cbn [prog_ok run]; intros Hok; auto with refines.
  - apply refines_bind; [apply kv_Get_refines|auto].
  - apply refines_bind; [apply kv_Has_refines|auto].
  - apply refines_bind; [apply kv_Set_refines|auto].
  - apply refines_bind; [apply kv_Delete_refines|auto].
  - destruct Hok as [Hb Hok]. apply refines_bind; [|auto]. intros s Hs. destruct (iterate_refines asc start end_ Hb s Hs) as (s' & -> & ? & ?).
    exists s'. by rewrite map_iterate.
Qed.
End RunLaws.

(** ** Prefixes (store/types/utils.go) *)

Definition ascii_succ (c : ascii) : ascii := ascii_of_N (N_of_ascii c + 1).
Definition byte_255 : ascii := ascii_of_N 255.

(** The loop of PrefixEndBytes, on the bytes from the last to the first. *)
Fixpoint end_loop (r : list ascii) : option (list ascii) :=
  match r with
  | [] => None
  | c :: r => if bool_decide (c <> byte_255) then Some (ascii_succ c :: r) else end_loop r
  end.

Definition PrefixEndBytes (prefix : string) : bound :=
  if bool_decide (prefix = "") then None else
  (fun r => string_of_list_ascii (reverse r)) <$> end_loop (reverse (list_ascii_of_string prefix)).

Definition InclusiveEndBytes (inclusiveBytes : string) : string := inclusiveBytes +:+ String Ascii.zero "".

Section PrefixIterator.
Context {S I : Type} `{KVStore S I} `{Iterator I}.

Definition KVStorePrefixIterator (prefix : string) : M S I := kv_iterator true (Some prefix) (PrefixEndBytes prefix).
Definition KVStoreReversePrefixIterator (prefix : string) : M S I := kv_iterator false (Some prefix) (PrefixEndBytes prefix).
End PrefixIterator.

(** The same from the first byte on. *)
Fixpoint prefix_end (p : string) : bound :=
  match p with
  | "" => None
  | String c p =>
      match prefix_end p with
      | Some e => Some (String c e)
      | None => if bool_decide (c = byte_255) then None else Some (String (ascii_succ c) "")
      end
  end.

Lemma end_loop_app r r' : end_loop (r ++ r') = match end_loop r with Some e => Some (e ++ r') | None => end_loop r' end.
Proof. induction r as [|c r IH]; cbn; [done|]. by case_bool_decide. Qed.

Lemma PrefixEndBytes_eq p : PrefixEndBytes p = prefix_end p.
Proof.
  unfold PrefixEndBytes. case_bool_decide as E; [by rewrite E|clear E].
  induction p as [|c p IH]; [done|]. cbn [list_ascii_of_string prefix_end]. rewrite reverse_cons, end_loop_app, <- IH.
  destruct (end_loop _) as [r|]; cbn [fmap option_fmap option_map].
  - rewrite reverse_app. done.
  - unfold end_loop. by repeat case_bool_decide.
Qed.

Lemma str_lt_cons c a d b : str_lt (String c a) (String d b) <-> (N_of_ascii c < N_of_ascii d)%N \/ (c = d /\ str_lt a b).
Proof.
  unfold str_lt. cbn. unfold Ascii.compare. destruct (N.compare_spec (N_of_ascii c) (N_of_ascii d)) as [E|E|E].
  - apply (f_equal ascii_of_N) in E. rewrite !ascii_N_embedding in E. subst. split; [by right|]. intros [?|[_ ?]]; [lia|done].
  - naive_solver.
  - split; [done|]. intros [?|[-> _]]; lia.
Qed.

Lemma str_lt_nil a : ~ str_lt a "".
Proof. by destruct a. Qed.

Lemma N_of_ascii_succ c : c <> byte_255 -> N_of_ascii (ascii_succ c) = (N_of_ascii c + 1)%N.
Proof.
  intros Hc. unfold ascii_succ. apply N_ascii_embedding. pose proof (N_ascii_bounded c).
  destruct (N.eq_dec (N_of_ascii c) 255%N) as [E|]; [|lia]. destruct Hc. unfold byte_255. by rewrite <- E, ascii_N_embedding.
Qed.

(** The range of a prefix is the keys that start with it. *)
Lemma prefix_domain p k : in_domain (Some p) (PrefixEndBytes p) k <-> String.prefix p k = true.
Proof.
  rewrite PrefixEndBytes_eq. unfold in_domain. revert k. induction p as [|c p IH]; intros k.
  - cbn. destruct k; split; (done || intros _; by split).
  - destruct k as [|d k]; [cbn; split; [intros [[] _]; done|done]|]. cbn [String.prefix prefix_end].
    assert ((if ascii_dec c d then String.prefix p k else false) = true <-> c = d /\ String.prefix p k = true) as -> by (destruct (ascii_dec c d); naive_solver).
    rewrite <- IH, str_lt_cons. destruct (prefix_end p) as [e|].
    + rewrite str_lt_cons. split; [|intros (<- & ? & ?); split; [intros [?|[_ ?]]; [lia|done]|by right]].
      intros [Hn [?|[-> ?]]]; [destruct Hn; by left|]. split_and!; [done| |done]. intros ?. apply Hn. by right.
    + case_bool_decide as Hc.
      * split; [|intros (<- & ? & ?); split; [intros [?|[_ ?]]; [lia|done]|done]]. intros [Hn _].
        assert (c = d) as <-.
        { subst c. pose proof (N_ascii_bounded d). destruct (N.eq_dec (N_of_ascii d) 255%N) as [E|E].
          - unfold byte_255. by rewrite <- E, ascii_N_embedding.
          - destruct Hn. left. change (N_of_ascii byte_255) with 255%N. lia. }
        split_and!; [done| |done]. intros ?. apply Hn. by right.
      * rewrite str_lt_cons, N_of_ascii_succ by done. split.
        -- intros [Hn [?|[_ []%str_lt_nil]]]. assert (N_of_ascii d = N_of_ascii c) as E%(f_equal ascii_of_N).
           { destruct (N.lt_trichotomy (N_of_ascii d) (N_of_ascii c)) as [?|[?|?]]; [destruct Hn; by left|done|lia]. }
           rewrite !ascii_N_embedding in E. subst d. split_and!; [done| |done]. intros ?. apply Hn. by right.
        -- intros (<- & ? & _). split; [intros [?|[_ ?]]; [lia|done]|]. left. lia.
Qed.

(** Nothing lies between a key and its inclusive end. *)
Lemma InclusiveEndBytes_domain lo a k : in_domain lo (Some (InclusiveEndBytes a)) k <-> in_domain lo None k /\ (k = a \/ str_lt k a).
Proof.
  assert (str_lt k (InclusiveEndBytes a) <-> k = a \/ str_lt k a) as E.
  { unfold InclusiveEndBytes. revert k. induction a as [|c a IH]; intros k.
    - change ("" +:+ String Ascii.zero "") with (String Ascii.zero ""). destruct k as [|d k]; [naive_solver|].
      rewrite str_lt_cons. change (N_of_ascii Ascii.zero) with 0%N. split; [intros [?|[_ []%str_lt_nil]]; lia|]. intros [?|[]%str_lt_nil]; done.
    - change (String c a +:+ String Ascii.zero "") with (String c (a +:+ String Ascii.zero "")). destruct k as [|d k].
      + split; [by right|done].
      + rewrite !str_lt_cons, IH. naive_solver. }
  unfold in_domain. rewrite E. tauto.
Qed.

Lemma prefix_bounds_ok p : p <> "" -> bounds_ok (Some p) (PrefixEndBytes p).
Proof.
  intros Hp. split; [congruence|]. rewrite PrefixEndBytes_eq. destruct p as [|c p]; [done|]. cbn.
  destruct (prefix_end p); [done|]. by case_bool_decide.
Qed.

Lemma prefix_entries p (m : contents_map) : entries true (Some p) (PrefixEndBytes p) m = kv_prefix_iter p (Some <$> m).
Proof. unfold entries, range, kv_prefix_iter. apply list_filter_iff. intros [k v]. apply prefix_domain. Qed.

(** KVStorePrefixIterator visits the keys that start with the prefix, in
    order: the iteration [kv_prefix_iter] the models of the modules use. *)
Lemma KVStorePrefixIterator_drain {S I : Type} `{KVStoreLaws S I inv contents holds} p s : inv s -> p <> "" ->
  exists i s', KVStorePrefixIterator p s = (Ok i, s') /\ inv s' /\ contents s' = contents s /\
    drain i = Ok (kv_prefix_iter p (Some <$> contents s)).
Proof.
  intros Hs Hp. destruct (kv_iterator_holds true _ _ s Hs (prefix_bounds_ok p Hp)) as (i & s' & ? & ? & ? & Hi).
  exists i, s'. split_and!; [done..|]. rewrite <- prefix_entries. by apply (drain_holds i).
Qed.
