(* ===== verification/Coins.v ===== *)
(** Coins: the arithmetic of coins and coin sets of cosmos-sdk/types/coin.go.

    A coin set is a list of coins; it is valid when its denominations are
    valid and strictly increasing and its amounts positive.  What a set is
    worth is the function [coins_amount] of Sdk.v from denominations to
    amounts.  Operations that panic have the outcome [Panic]; the sums of
    sdk.Int panic on overflow.

    Theorems: valid sets are determined by their amounts, and under Add and Sub
    they are a cancellative commutative monoid; SafeSub reports a negative
    amount exactly when one set does not cover the other; Max and Min are the
    lattice operations their comments promise; the comparisons decide the order
    of the amounts; Find's binary search finds what is there. *)

From Stdlib Require Import ZArith Lia Ascii String.
From stdpp Require Import base gmap sets list strings fin_maps sorting pretty.
From S2P Require Import Prelude Sdk KVStore.
Import order.

Open Scope Z_scope.
Open Scope go_scope.

(** Multiplication and division of cosmossdk.io/math. *)
Class SdkMathMul : Type := {
  Int_Mul : Z -> Z -> option Z;
  Int_Quo : Z -> Z -> option Z;
}.
Class SdkMathMulLaws `{SdkMathMul} : Prop := {
  Int_Mul_exact a b c : Int_Mul a b = Some c -> c = a * b;
  Int_Mul_fits a b : Z.abs (a * b) < 2 ^ 256 -> Int_Mul a b = Some (a * b);
  Int_Quo_exact a b c : Int_Quo a b = Some c -> c = Z.quot a b;
  Int_Quo_fits a b : b <> 0 -> Int_Quo a b = Some (Z.quot a b);
}.

Definition o_panic {A} (o : option A) : outcome A := match o with Some a => Ok a | None => Panic end.

Notation Coins := (list Coin).

Definition Coin_String (c : Coin) : string := pretty (Amount c) +:+ Denom c.
Definition Coins_String (coins : Coins) : string := String.concat "," (Coin_String <$> coins).

Section Ops.
Context `{SdkMath} `{SdkMathMul}.

(** ** Single coins *)

Definition Coin_IsValid (c : Coin) : bool := Coin_Validate c.
Definition Coin_IsZero (c : Coin) : bool := Amount c =? 0.
Definition Coin_IsPositive (c : Coin) : bool := Z.sgn (Amount c) =? 1.
Definition Coin_IsNegative (c : Coin) : bool := Z.sgn (Amount c) =? -1.

Definition same_denom (c other : Coin) (b : bool) : outcome bool :=
  if bool_decide (Denom c <> Denom other) then Panic else Ok b.

Definition Coin_IsGTE (c other : Coin) : outcome bool := same_denom c other (negb (Amount c <? Amount other)).
Definition Coin_IsLT (c other : Coin) : outcome bool := same_denom c other (Amount c <? Amount other).
Definition Coin_IsLTE (c other : Coin) : outcome bool := same_denom c other (negb (Amount other <? Amount c)).
Definition Coin_IsEqual (c other : Coin) : outcome bool := same_denom c other (Amount c =? Amount other).

Definition Coin_Add (c coinB : Coin) : outcome Coin :=
  if bool_decide (Denom c <> Denom coinB) then Panic else
  let* a := o_panic (Int_Add (Amount c) (Amount coinB)) in Ok (mkCoin (Denom c) a).

Definition Coin_AddAmount (c : Coin) (amount : Z) : outcome Coin :=
  let* a := o_panic (Int_Add (Amount c) amount) in Ok (mkCoin (Denom c) a).

Definition Coin_SafeSub (c coinB : Coin) : outcome Coin :=
  if bool_decide (Denom c <> Denom coinB) then Err (Errorf "invalid coin denoms") else
  let* a := o_panic (Int_Sub (Amount c) (Amount coinB)) in
  let res := mkCoin (Denom c) a in
  if Coin_IsNegative res then Err (Errorf "negative coin amount") else Ok res.

Definition Coin_Sub (c coinB : Coin) : outcome Coin :=
  match Coin_SafeSub c coinB with Ok res => Ok res | _ => Panic end.

Definition Coin_SubAmount (c : Coin) (amount : Z) : outcome Coin :=
  let* a := o_panic (Int_Sub (Amount c) amount) in
  let res := mkCoin (Denom c) a in
  if Coin_IsNegative res then Panic else Ok res.

(** ** Sets *)

Fixpoint isSorted (coins : Coins) : bool :=
  match coins with
  | c :: ((c' :: _) as coins') => negb (String.ltb (Denom c') (Denom c)) && isSorted coins'
  | _ => true
  end.

Definition removeZeroCoins (coins : Coins) : Coins :=
  if forallb (fun c => negb (Coin_IsZero c)) coins then coins else filter (fun c => negb (Coin_IsZero c) = true) coins.

Definition Coins_Sort (coins : Coins) : Coins := merge_sort coin_le coins.

Definition Denoms (coins : Coins) : list string := Denom <$> coins.

Definition mk_NewCoins (coins : Coins) : outcome Coins := o_panic (NewCoins coins).

Definition negative (coins : Coins) : Coins := (fun c => mkCoin (Denom c) (- Amount c)) <$> coins.

Definition IsAnyNegative (coins : Coins) : bool := existsb Coin_IsNegative coins.

Definition Coins_IsZero (coins : Coins) : bool := forallb Coin_IsZero coins.

Definition IsAllPositive (coins : Coins) : bool := negb (Nat.eqb (length coins) 0) && forallb Coin_IsPositive coins.

(** uniqCoins of safeAdd: the coins of each denomination. *)
Definition uniqCoins (coins : Coins) : gmap string Coins :=
  foldl (fun m c => <[Denom c := default [] (m !! Denom c) ++ [c]]> m) ∅ coins.

Fixpoint add_all (acc : Coin) (cL : Coins) : outcome Coin :=
  match cL with
  | [] => Ok acc
  | c :: cL => let* acc := Coin_Add acc c in add_all acc cL
  end.

(** The loop over uniqCoins. *)
Fixpoint coalesce (l : list (string * Coins)) : outcome Coins :=
  match l with
  | [] => Ok []
  | (denom, cL) :: l =>
      let* comboCoin := add_all (mkCoin denom 0) cL in
      let* rest := coalesce l in
      Ok (if Coin_IsZero comboCoin then rest else comboCoin :: rest)
  end.

Definition safeAdd (coins coinsB : Coins) : outcome Coins :=
  if negb (isSorted coins) then Panic else
  if negb (isSorted coinsB) then Panic else
  let* coalesced := coalesce (map_to_list (uniqCoins (coins ++ coinsB))) in
  Ok (Coins_Sort coalesced).

Definition Coins_Add (coins coinsB : Coins) : outcome Coins := safeAdd coins coinsB.

Definition Coins_SafeSub (coins coinsB : Coins) : outcome (Coins * bool) :=
  let* b := mk_NewCoins coinsB in
  let* diff := safeAdd coins (negative b) in
  Ok (diff, IsAnyNegative diff).

Definition Coins_Sub (coins coinsB : Coins) : outcome Coins :=
  let* r := Coins_SafeSub coins coinsB in
  if snd r then Panic else Ok (fst r).

Fixpoint map_coins (f : Z -> option Z) (coins : Coins) : outcome Coins :=
  match coins with
  | [] => Ok []
  | c :: coins =>
      let* a := o_panic (f (Amount c)) in
      let* c' := o_panic (NewCoin (Denom c) a) in
      let* rest := map_coins f coins in
      Ok (c' :: rest)
  end.

(** [None]: the operation is refused. *)
Definition SafeMulInt (coins : Coins) (x : Z) : outcome (option Coins) :=
  if x =? 0 then Ok None else let* res := map_coins (fun a => Int_Mul a x) coins in Ok (Some res).
Definition MulInt (coins : Coins) (x : Z) : outcome Coins :=
  let* r := SafeMulInt coins x in o_panic r.
Definition SafeQuoInt (coins : Coins) (x : Z) : outcome (option Coins) :=
  if x =? 0 then Ok None else let* res := map_coins (fun a => Int_Quo a x) coins in Ok (Some res).
Definition QuoInt (coins : Coins) (x : Z) : outcome Coins :=
  let* r := SafeQuoInt coins x in o_panic r.

(** The two-index loops of Max and Min: [both] makes the coin of a
    denomination of both sets, the coins of one set only are kept or not. *)
Fixpoint two_index (keep : bool) (both : Coin -> Coin -> Coins) (coins : Coins) : Coins -> Coins :=
  fix go (coinsB : Coins) : Coins :=
    match coins, coinsB with
    | [], _ => if keep then coinsB else []
    | _, [] => if keep then coins else []
    | coinA :: coins', coinB :: coinsB' =>
        match String.compare (Denom coinA) (Denom coinB) with
        | Lt => (if keep then [coinA] else []) ++ two_index keep both coins' coinsB
        | Eq => both coinA coinB ++ two_index keep both coins' coinsB'
        | Gt => (if keep then [coinB] else []) ++ go coinsB'
        end
    end.

Definition Coins_Max (coins coinsB : Coins) : outcome Coins :=
  mk_NewCoins (two_index true (fun a b => [if Amount a <? Amount b then b else a]) coins coinsB).
Definition Coins_Min (coins coinsB : Coins) : outcome Coins :=
  mk_NewCoins (two_index false (fun a b => let m := if Amount b <? Amount a then b else a in if Coin_IsZero m then [] else [m]) coins coinsB).

(** Find's binary search; [fuel] bounds the length of the slice. *)
Fixpoint find_loop (fuel : nat) (coins : Coins) (denom : string) : option Coin :=
  match fuel, coins with
  | _, [] => None
  | _, [c] => if bool_decide (Denom c = denom) then Some c else None
  | O, _ => None
  | S fuel, _ =>
      let midIdx := Nat.div (length coins) 2 in
      match coins !! midIdx with
      | None => None
      | Some c =>
          match String.compare denom (Denom c) with
          | Lt => find_loop fuel (take midIdx coins) denom
          | Eq => Some c
          | Gt => find_loop fuel (drop (S midIdx) coins) denom
          end
      end
  end.
Definition Find (coins : Coins) (denom : string) : option Coin := find_loop (length coins) coins denom.

Definition AmountOfNoDenomValidation (coins : Coins) (denom : string) : Z :=
  match Find coins denom with Some c => Amount c | None => 0 end.
Definition AmountOf (coins : Coins) (denom : string) : outcome Z :=
  if ValidateDenom denom then Ok (AmountOfNoDenomValidation coins denom) else Panic.

(** [for _, coin := range coins { if stop(coin, coinsB.AmountOf(coin.Denom)) { return found } }; return !found]. *)
Fixpoint scan (stop : Coin -> Z -> bool) (found : bool) (coinsB coins : Coins) : outcome bool :=
  match coins with
  | [] => Ok (negb found)
  | c :: coins => let* a := AmountOf coinsB (Denom c) in if stop c a then Ok found else scan stop found coinsB coins
  end.

Definition DenomsSubsetOf (coins coinsB : Coins) : outcome bool :=
  if Nat.ltb (length coinsB) (length coins) then Ok false else
  scan (fun _ a => a =? 0) false coinsB coins.

Definition IsAllGT (coins coinsB : Coins) : outcome bool :=
  if Nat.eqb (length coins) 0 then Ok false else
  if Nat.eqb (length coinsB) 0 then Ok true else
  let* sub := DenomsSubsetOf coinsB coins in
  if negb sub then Ok false else
  scan (fun coinB amountA => negb (Amount coinB <? amountA)) false coins coinsB.

Definition IsAllGTE (coins coinsB : Coins) : outcome bool :=
  if Nat.eqb (length coinsB) 0 then Ok true else
  if Nat.eqb (length coins) 0 then Ok false else
  scan (fun coinB amountA => amountA <? Amount coinB) false coins coinsB.

Definition IsAllLT (coins coinsB : Coins) : outcome bool := IsAllGT coinsB coins.
Definition IsAllLTE (coins coinsB : Coins) : outcome bool := IsAllGTE coinsB coins.

Definition IsAnyGT (coins coinsB : Coins) : outcome bool :=
  if Nat.eqb (length coinsB) 0 then Ok false else
  scan (fun c amt => (amt <? Amount c) && negb (amt =? 0)) true coinsB coins.

Definition IsAnyGTE (coins coinsB : Coins) : outcome bool :=
  if Nat.eqb (length coinsB) 0 then Ok false else
  scan (fun c amt => (amt <=? Amount c) && negb (amt =? 0)) true coinsB coins.

Fixpoint all_equal (coins coinsB : Coins) : outcome bool :=
  match coins, coinsB with
  | c :: coins, c' :: coinsB => let* b := Coin_IsEqual c c' in if negb b then Ok false else all_equal coins coinsB
  | _, _ => Ok true
  end.
Definition Coins_IsEqual (coins coinsB : Coins) : outcome bool :=
  if negb (Nat.eqb (length coins) (length coinsB)) then Ok false else
  all_equal (Coins_Sort coins) (Coins_Sort coinsB).
End Ops.

(** ** Valid sets *)

Definition valid (coins : Coins) : Prop := Coins_Validate coins = true.

Definition strict (coins : Coins) : Prop := StronglySorted str_lt (Denom <$> coins).

Lemma ltb_lt a b : String.ltb a b = true <-> str_lt a b.
Proof. unfold String.ltb, str_lt. destruct (String.compare a b); done. Qed.

Lemma Validate_from_iff low l : Coins_Validate_from low l = true <->
  StronglySorted str_lt (low :: (Denom <$> l)) /\ Forall (fun c => ValidateDenom (Denom c) = true /\ 0 < Amount c) l.
Proof.
  revert low. induction l as [|c l IH]; intros low; cbn [Coins_Validate_from fmap list_fmap].
  - split; [intros _; split; [repeat constructor|done]|done].
  - rewrite !andb_true_iff, IH, ltb_lt, Z.ltb_lt, Forall_cons, (StronglySorted_cons _ _ low), (StronglySorted_cons _ _ (Denom c)), Forall_cons. split.
    + intros [[[? Hl] ?] [[Hf Hs] ?]]. split_and!; try done. eapply Forall_impl; [exact Hf|]. intros d ?. by etrans.
    + intros [[[? ?] [? ?]] [[? ?] ?]]. auto.
Qed.

Lemma valid_iff l : valid l <-> strict l /\ Forall (fun c => ValidateDenom (Denom c) = true /\ 0 < Amount c) l.
Proof.
  unfold valid, strict. destruct l as [|c l]; cbn [Coins_Validate].
  - split; [intros _; split; [constructor|done]|done].
  - rewrite !andb_true_iff, Validate_from_iff, Z.ltb_lt, Forall_cons. cbn [fmap list_fmap]. tauto.
Qed.

Lemma strict_cons c l : strict (c :: l) <-> strict l /\ Forall (fun c' => str_lt (Denom c) (Denom c')) l.
Proof. unfold strict. cbn [fmap list_fmap]. rewrite StronglySorted_cons, Forall_fmap. tauto. Qed.

Lemma strict_NoDup l : strict l -> NoDup (Denom <$> l).
Proof.
  induction l as [|c l IH]; [constructor|]. intros [Hs Hf]%strict_cons. cbn. constructor; [|by apply IH].
  intros (c' & E & Hin)%list_elem_of_fmap. rewrite Forall_forall in Hf. apply Hf in Hin. rewrite E in Hin. by apply str_lt_irrefl in Hin.
Qed.

(** ** Amounts *)

Lemma amount_notin l d : d ∉ (Denom <$> l) -> coins_amount l d = 0.
Proof.
  induction l as [|c l IH]; [done|]. cbn. intros Hn. rewrite elem_of_cons in Hn. rewrite bool_decide_false by naive_solver. apply IH. tauto.
Qed.

Lemma amount_in l c : NoDup (Denom <$> l) -> c ∈ l -> coins_amount l (Denom c) = Amount c.
Proof.
  induction l as [|c' l IH]; [by intros _ ?%elem_of_nil|]. cbn. intros [Hn Hd]%NoDup_cons [->|Hin]%elem_of_cons.
  - rewrite bool_decide_true, amount_notin by done. lia.
  - rewrite bool_decide_false; [by rewrite IH|]. intros E. apply Hn. rewrite E. by apply list_elem_of_fmap_2.
Qed.

Lemma amount_app l l' d : coins_amount (l ++ l') d = coins_amount l d + coins_amount l' d.
Proof. induction l as [|c l IH]; cbn; [done|]. rewrite IH. lia. Qed.

Lemma amount_filter l d : coins_amount (filter (fun c => Denom c = d) l) d = coins_amount l d.
Proof.
  induction l as [|c l IH]; [done|]. rewrite filter_cons. case_decide as E; cbn; rewrite IH; [done|]. by rewrite bool_decide_false.
Qed.

Lemma amount_negative l d : coins_amount (negative l) d = - coins_amount l d.
Proof. induction l as [|c l IH]; [done|]. cbn. change (coins_amount _ d) with (coins_amount (negative l) d) at 1. rewrite IH. case_bool_decide; lia. Qed.

Lemma amount_perm l l' d : l ≡ₚ l' -> coins_amount l d = coins_amount l' d.
Proof. induction 1; cbn; lia. Qed.

Lemma amount_elem l d : coins_amount l d <> 0 -> exists c, c ∈ l /\ Denom c = d.
Proof.
  intros Hn. destruct (decide (d ∈ (Denom <$> l))) as [(c & -> & ?)%list_elem_of_fmap|]; [by exists c|]. by rewrite amount_notin in Hn.
Qed.

(** A set without zero coins is determined by its amounts. *)
Lemma elem_of_strict l c : strict l -> Forall (fun c => Amount c <> 0) l ->
  c ∈ l <-> coins_amount l (Denom c) = Amount c /\ Amount c <> 0.
Proof.
  intros Hs Hz. split.
  - intros Hin. split; [by apply amount_in, Hin; apply strict_NoDup|]. rewrite Forall_forall in Hz. by apply Hz.
  - intros [E Hc]. destruct (amount_elem l (Denom c)) as (c' & Hin & Ed); [by rewrite E|].
    pose proof (amount_in l c' (strict_NoDup _ Hs) Hin) as Ec. rewrite Ed in Ec. destruct c, c'. cbn in *. by subst.
Qed.

Definition pair_of (c : Coin) : string * Z := (Denom c, Amount c).

Lemma coins_ext l l' : strict l -> strict l' -> Forall (fun c => Amount c <> 0) l -> Forall (fun c => Amount c <> 0) l' ->
  (forall d, coins_amount l d = coins_amount l' d) -> l = l'.
Proof.
  intros Hs Hs' Hz Hz' E.
  assert (forall l, ordered true (pair_of <$> l) <-> strict l) as Ho by (intros k; unfold ordered, strict; by rewrite <- list_fmap_compose).
  assert (Inj (=) (=) pair_of) as Hinj by (intros [] []; unfold pair_of; cbn; by intros [= -> ->]).
  apply (inj (fmap pair_of)), (ordered_unique true); [by apply Ho|by apply Ho|].
  intros kv. rewrite !list_elem_of_fmap. split; intros (c & -> & Hin); exists c; (split; [done|]);
    apply elem_of_strict in Hin; try done; apply elem_of_strict; rewrite ?E; try done; by rewrite <- ?E.
Qed.

Lemma valid_nonzero l : valid l -> strict l /\ Forall (fun c => Amount c <> 0) l.
Proof. intros [Hs Hf]%valid_iff. split; [done|]. eapply Forall_impl; [exact Hf|]. cbn. lia. Qed.

Lemma valid_ext l l' : valid l -> valid l' -> (forall d, coins_amount l d = coins_amount l' d) -> l = l'.
Proof. intros [? ?]%valid_nonzero [? ?]%valid_nonzero. by apply coins_ext. Qed.

Lemma valid_nonneg l d : valid l -> 0 <= coins_amount l d.
Proof.
  intros [_ Hf]%valid_iff. induction Hf as [|c l [_ ?] Hf IH]; cbn; [done|]. case_bool_decide; lia.
Qed.

Lemma valid_denom l d : valid l -> coins_amount l d <> 0 -> ValidateDenom d = true.
Proof. intros [_ Hf]%valid_iff (c & Hin & <-)%amount_elem. rewrite Forall_forall in Hf. by apply Hf. Qed.

(** A set is valid when it is strict, with valid denominations and positive
    amounts. *)
Lemma valid_intro l : strict l -> Forall (fun c => Amount c <> 0) l ->
  (forall d, coins_amount l d <> 0 -> ValidateDenom d = true /\ 0 < coins_amount l d) -> valid l.
Proof.
  intros Hs Hz Ha. apply valid_iff. split; [done|]. rewrite Forall_forall in Hz |- *. intros c Hin.
  pose proof (amount_in l c (strict_NoDup _ Hs) Hin) as E. pose proof (Hz c Hin) as Hc. rewrite <- E in Hc |- *. by apply Ha.
Qed.

Lemma isSorted_strict l : strict l -> isSorted l = true.
Proof.
  induction l as [|c l IH]; [done|]. intros [Hs Hf]%strict_cons. destruct l as [|c' l]; [done|]. cbn [isSorted]. apply andb_true_iff.
  split; [|by apply IH]. apply negb_true_iff. apply Forall_cons in Hf as [Hf _]. destruct (String.ltb (Denom c') (Denom c)) eqn:E; [|done].
  apply ltb_lt in E. destruct (str_lt_irrefl (Denom c)). by etrans.
Qed.

Lemma strict_negative l : strict l -> strict (negative l).
Proof. unfold strict, negative. by rewrite <- list_fmap_compose. Qed.

Lemma sort_strict l : NoDup (Denom <$> l) -> strict (Coins_Sort l).
Proof.
  intros Hnd. assert (Transitive coin_le) as Ht by (intros x y z; unfold coin_le; rewrite !leb_lt; intros [?| ->] [?| <-]; auto; left; by etrans).
  assert (Total coin_le) as Hto by (intros x y; unfold coin_le; rewrite !leb_lt; destruct (str_lt_total (Denom x) (Denom y)) as [?|[?|?]]; auto).
  pose proof (StronglySorted_merge_sort coin_le l) as Hs. assert (NoDup (Denom <$> merge_sort coin_le l)) as Hn by (by rewrite (merge_sort_Permutation coin_le)).
  unfold Coins_Sort. revert Hs Hn. generalize (merge_sort coin_le l). clear. intros l Hs. induction Hs as [|c l Hs IH Hf]; intros Hn; [constructor|].
  cbn in Hn. apply NoDup_cons in Hn as [Hc Hn]. apply strict_cons. split; [by apply IH|]. rewrite Forall_forall in Hf |- *. intros c' Hin.
  destruct (proj1 (leb_lt _ _) (Hf c' Hin)) as [?|E]; [done|]. destruct Hc. rewrite E. by apply list_elem_of_fmap_2.
Qed.

(** ** Addition *)

Lemma uniqCoins_lookup l d :
  uniqCoins l !! d = match filter (fun c => Denom c = d) l with [] => None | cs => Some cs end.
Proof.
  induction l as [|c l IH] using rev_ind; [done|]. unfold uniqCoins in *. rewrite foldl_snoc, filter_app.
  destruct (decide (Denom c = d)) as [<-|Hne].
  - rewrite lookup_insert_eq, IH. rewrite filter_cons, decide_True, filter_nil by done. by destruct (filter _ l).
  - rewrite lookup_insert_ne, IH by done. rewrite filter_cons, decide_False, filter_nil, app_nil_r by done. done.
Qed.

Section AddLemmas.
Context `{SdkMathLaws}.

Lemma add_all_inv acc cL r : add_all acc cL = Ok r -> r = mkCoin (Denom acc) (Amount acc + coins_amount cL (Denom acc)) /\ Forall (fun c => Denom c = Denom acc) cL.
Proof.
  revert acc. induction cL as [|c cL IH]; intros acc; cbn [add_all coins_amount].
  - intros [= <-]. split; [|done]. destruct acc. cbn. f_equal. lia.
  - unfold Coin_Add. case_bool_decide as E; [done|]. destruct (Int_Add _ _) as [a|] eqn:Ea; [|done]. cbn [o_panic obind].
    intros [-> Hf]%IH. cbn in *. apply Int_Add_exact in Ea as ->. split; [|by constructor]. rewrite bool_decide_true by done. f_equal. lia.
Qed.

Lemma add_all_run acc cL : Forall (fun c => Denom c = Denom acc) cL ->
  (forall n, Z.abs (Amount acc + coins_amount (take n cL) (Denom acc)) < 2 ^ 256) -> exists r, add_all acc cL = Ok r.
Proof.
  revert acc. induction cL as [|c cL IH]; intros acc Hf Hn; [by exists acc|]. cbn [add_all]. apply Forall_cons in Hf as [Ec Hf].
  unfold Coin_Add. rewrite bool_decide_false by (rewrite Ec; intros []; done). pose proof (Hn 1%nat) as H1. change (take 1 (c :: cL)) with [c] in H1. cbn [coins_amount] in H1. rewrite bool_decide_true in H1 by done.
  rewrite Int_Add_fits by lia. cbn [o_panic obind]. apply IH; [done|]. intros n. cbn [Amount Denom].
  specialize (Hn (S n)). change (take (S n) (c :: cL)) with (c :: take n cL) in Hn. cbn [coins_amount] in Hn. rewrite bool_decide_true in Hn by done. by rewrite <- Z.add_assoc.
Qed.

Lemma coalesce_inv l r : NoDup l.*1 -> coalesce l = Ok r ->
  NoDup (Denom <$> r) /\
  forall c, c ∈ r <-> Amount c <> 0 /\ exists cs, (Denom c, cs) ∈ l /\ Amount c = coins_amount cs (Denom c).
Proof.
  revert r. induction l as [|[d cs] l IH]; intros r Hnd; cbn [coalesce].
  - intros [= <-]. split; [constructor|]. intros c. split; [by intros ?%elem_of_nil|by intros (_ & ? & ?%elem_of_nil & _)].
  - cbn in Hnd. apply NoDup_cons in Hnd as [Hd Hnd]. destruct (add_all _ cs) as [combo|e|] eqn:Ea; [|done..]. cbn [obind].
    destruct (coalesce l) as [r0|e|]; [|done..]. cbn [obind]. intros [= <-]. destruct (IH r0 Hnd eq_refl) as [Hn Hin]. clear IH.
    apply add_all_inv in Ea as [Ec _]. cbn in Ec. rewrite Z.add_0_l in Ec.
    assert (forall c, Denom c = d -> c ∉ r0) as Hout.
    { intros c <- (_ & cs' & Hl & _)%Hin. apply Hd. by apply (list_elem_of_fmap_2 fst _ _ Hl). }
    assert (forall c, Amount c <> 0 /\ (exists cs0, (Denom c, cs0) ∈ (d, cs) :: l /\ Amount c = coins_amount cs0 (Denom c)) <->
      (c = combo /\ Amount c <> 0) \/ c ∈ r0) as Hiff.
    { intros c. rewrite Hin. setoid_rewrite elem_of_cons. subst combo. split.
      - intros [Hz (cs' & [[= E ->]|Hl] & Ec)]; [left|right; eauto]. split; [|done]. destruct c. cbn in *. by subst.
      - intros [[-> Hz]|[Hz (cs' & Hl & Ec)]]; cbn in *; (split; [done|]); eauto. }
    setoid_rewrite Hiff. destruct (Z.eqb_spec (Amount combo) 0) as [Hz|Hz]; unfold Coin_IsZero; rewrite ?Hz; cbn.
    + split; [done|]. intros c. naive_solver.
    + rewrite (proj2 (Z.eqb_neq _ _) Hz). split.
      * cbn. constructor; [|done]. intros (c & E & Hc)%list_elem_of_fmap. apply (Hout c); [by rewrite <- E, Ec|done].
      * intros c. rewrite elem_of_cons. naive_solver.
Qed.

Lemma coalesce_run l : (forall d cs, (d, cs) ∈ l -> exists r, add_all (mkCoin d 0) cs = Ok r) -> exists r, coalesce l = Ok r.
Proof.
  induction l as [|[d cs] l IH]; intros Hr; [by exists []|]. cbn [coalesce]. destruct (Hr d cs) as [c ->]; [apply elem_of_cons; by left|].
  destruct IH as [r ->]; [intros d' cs' ?; apply Hr, elem_of_cons; by right|]. cbn [obind]. eauto.
Qed.

(** The sum is in canonical form and worth the sum of the sets. *)
Lemma safeAdd_inv a b s : safeAdd a b = Ok s ->
  strict s /\ Forall (fun c => Amount c <> 0) s /\ forall d, coins_amount s d = coins_amount a d + coins_amount b d.
Proof.
  unfold safeAdd. destruct (negb (isSorted a)), (negb (isSorted b)); try done. destruct (coalesce _) as [r|e|] eqn:Ec; [|done..]. intros [= <-].
  apply coalesce_inv in Ec as [Hn Hin]; [|apply NoDup_fst_map_to_list].
  assert (Coins_Sort r ≡ₚ r) as Hp by apply merge_sort_Permutation. split_and!; [by apply sort_strict| |].
  - rewrite Hp. apply Forall_forall. by intros c [? _]%Hin.
  - intros d. rewrite (amount_perm _ _ d Hp), <- amount_app, <- (amount_filter (a ++ b)). set (v := coins_amount (filter _ _) d).
    assert (forall c, c ∈ r <-> Amount c <> 0 /\ Amount c = coins_amount (filter (fun c' => Denom c' = Denom c) (a ++ b)) (Denom c)) as Hin'.
    { intros c. rewrite Hin. split.
      - intros [Hz (cs & El & E)]. split; [done|]. rewrite elem_of_map_to_list, uniqCoins_lookup in El. rewrite E. f_equal.
        destruct (filter (fun c' => Denom c' = Denom c) (a ++ b)); by simplify_eq.
      - intros [Hz E]. split; [done|]. eexists. rewrite elem_of_map_to_list, uniqCoins_lookup. split; [|exact E].
        by destruct (filter (fun c' => Denom c' = Denom c) (a ++ b)). }
    destruct (decide (v = 0)) as [E0|E0].
    + rewrite E0. apply amount_notin. intros (c & -> & [Hz E]%Hin')%list_elem_of_fmap. unfold v in E0. congruence.
    + apply (amount_in r (mkCoin d v) Hn), Hin'. done.
Qed.

Lemma strict_filter l d : strict l -> filter (fun c => Denom c = d) l = [] \/ exists c, filter (fun c => Denom c = d) l = [c].
Proof.
  intros Hn%strict_NoDup. induction l as [|c l IH]; [by left|]. cbn in Hn. apply NoDup_cons in Hn as [Hc Hn]. rewrite filter_cons. case_decide as E; [|by apply IH].
  right. exists c. f_equal. destruct (filter _ l) as [|x r] eqn:Ef; [done|]. destruct Hc.
  assert (x ∈ x :: r) as Hx by (apply elem_of_cons; by left). rewrite <- Ef in Hx. apply list_elem_of_filter in Hx as [Hx Hin].
  rewrite E, <- Hx. by apply list_elem_of_fmap_2.
Qed.

(** Addition of canonical sets fails only when an amount overflows. *)
Lemma safeAdd_run a b : strict a -> strict b ->
  (forall d, Z.abs (coins_amount a d) < 2 ^ 256 /\ Z.abs (coins_amount b d) < 2 ^ 256 /\ Z.abs (coins_amount a d + coins_amount b d) < 2 ^ 256) ->
  exists s, safeAdd a b = Ok s.
Proof.
  intros Ha Hb Hfit. unfold safeAdd. rewrite !isSorted_strict by done. cbn [negb].
  destruct (coalesce_run (map_to_list (uniqCoins (a ++ b)))) as [r ->]; [|by eexists].
  intros d cs. rewrite elem_of_map_to_list, uniqCoins_lookup. destruct (filter _ (a ++ b)) as [|x l] eqn:Ef; [done|]. intros [= <-].
  apply add_all_run.
  - rewrite <- Ef. apply Forall_forall. by intros c [? _]%list_elem_of_filter.
  - intros n. cbn [Amount Denom]. rewrite Z.add_0_l, <- Ef, filter_app. destruct (Hfit d) as (Fa & Fb & Fab).
    rewrite <- (amount_filter a d), <- (amount_filter b d) in *.
    destruct (strict_filter a d Ha) as [Ea|[ca Ea]], (strict_filter b d Hb) as [Eb|[cb Eb]]; rewrite Ea, Eb in *;
      destruct n as [|[|[|n]]]; cbn -[Z.pow] in *; repeat case_bool_decide; lia.
Qed.

Definition fits_sum (a b : Coins) : Prop := forall d, coins_amount a d + coins_amount b d < 2 ^ 256.

Lemma Coins_Add_valid a b : valid a -> valid b -> fits_sum a b ->
  exists s, Coins_Add a b = Ok s /\ valid s /\ forall d, coins_amount s d = coins_amount a d + coins_amount b d.
Proof.
  intros Ha Hb Hfit. destruct (safeAdd_run a b) as [s Es].
  - by apply valid_nonzero.
  - by apply valid_nonzero.
  - intros d. pose proof (valid_nonneg a d Ha). pose proof (valid_nonneg b d Hb). specialize (Hfit d). lia.
  - destruct (safeAdd_inv _ _ _ Es) as (Hs & Hz & E). exists s. split_and!; [done| |done]. apply valid_intro; [done|done|].
    intros d Hd. rewrite E in Hd |- *. pose proof (valid_nonneg a d Ha). pose proof (valid_nonneg b d Hb). split; [|lia].
    destruct (decide (coins_amount a d = 0)); [apply (valid_denom b)|apply (valid_denom a)]; (done || lia).
Qed.

Lemma NewCoins_valid b : valid b -> NewCoins b = Some b.
Proof.
  intros Hb. unfold NewCoins, sanitizeCoins. pose proof (valid_nonzero b Hb) as [Hs Hz].
  assert (merge_sort coin_le (filter (fun c => Amount c <> 0) b) = b) as ->.
  { assert (filter (fun c => Amount c <> 0) b = b) as -> by (apply list_filter_all_iff || (clear Hb Hs; induction Hz as [|c l Hc Hz IH]; [done|]; by rewrite filter_cons, decide_True, IH)).
    apply coins_ext; [by apply sort_strict, strict_NoDup|done|by rewrite (merge_sort_Permutation coin_le)|done|].
    intros d. apply amount_perm, merge_sort_Permutation. }
  unfold valid in Hb. by rewrite Hb.
Qed.

(** SafeSub subtracts, and reports whether [b] is not covered by [a]. *)
Lemma Coins_SafeSub_valid a b : valid a -> valid b -> (forall d, coins_amount a d < 2 ^ 256) -> (forall d, coins_amount b d < 2 ^ 256) ->
  exists s neg, Coins_SafeSub a b = Ok (s, neg) /\ (forall d, coins_amount s d = coins_amount a d - coins_amount b d) /\
    (neg = false <-> forall d, coins_amount b d <= coins_amount a d) /\ (neg = false -> valid s).
Proof.
  intros Ha Hb Fa Fb. unfold Coins_SafeSub, mk_NewCoins. rewrite NewCoins_valid by done. cbn [o_panic obind].
  destruct (safeAdd_run a (negative b)) as [s Es].
  - by apply valid_nonzero.
  - by apply strict_negative, valid_nonzero.
  - intros d. rewrite amount_negative. pose proof (valid_nonneg a d Ha). pose proof (valid_nonneg b d Hb). specialize (Fa d). specialize (Fb d). lia.
  - rewrite Es. cbn [obind]. destruct (safeAdd_inv _ _ _ Es) as (Hs & Hz & E).
    assert (forall d, coins_amount s d = coins_amount a d - coins_amount b d) as E' by (intros d; rewrite E, amount_negative; lia).
    assert (IsAnyNegative s = false <-> forall d, coins_amount b d <= coins_amount a d) as Hneg.
    { unfold IsAnyNegative. split.
      - intros Hn d. specialize (E' d). destruct (decide (coins_amount s d = 0)) as [|Hd]; [lia|]. destruct (amount_elem s d Hd) as (c & Hin & <-).
        rewrite (amount_in s c (strict_NoDup _ Hs) Hin) in E'. destruct (decide (Amount c < 0)); [|lia].
        assert (existsb Coin_IsNegative s = true) as Ht; [|congruence]. apply existsb_exists. exists c. split; [by apply list_elem_of_In|].
        unfold Coin_IsNegative. rewrite Z.sgn_neg by done. done.
      - intros Hle. destruct (existsb _ s) eqn:Eb; [|done]. apply existsb_exists in Eb as (c & Hin%list_elem_of_In & Hc). exfalso.
        pose proof (amount_in s c (strict_NoDup _ Hs) Hin) as Ea. rewrite E' in Ea. specialize (Hle (Denom c)).
        unfold Coin_IsNegative in Hc. apply Z.eqb_eq, Z.sgn_neg_iff in Hc. lia. }
    exists s, (IsAnyNegative s). split_and!; [done|done|done|]. intros Hn. pose proof (proj1 Hneg Hn) as Hle. apply valid_intro; [done|done|].
    intros d Hd. rewrite E' in Hd |- *. specialize (Hle d). pose proof (valid_nonneg b d Hb). split; [|lia]. apply (valid_denom a); [done|lia].
Qed.

(** Adding and subtracting valid sets: associative and commutative with the
    empty set as unit, Sub undoes Add, and a set is subtracted exactly when it
    is covered. *)
Theorem coins_monoid a b c : valid a -> valid b -> valid c ->
  (forall d, coins_amount a d + coins_amount b d + coins_amount c d < 2 ^ 256) ->
  exists ab bc abc, Coins_Add a b = Ok ab /\ Coins_Add b a = Ok ab /\ Coins_Add b c = Ok bc /\
    Coins_Add ab c = Ok abc /\ Coins_Add a bc = Ok abc /\ valid abc /\
    (forall d, coins_amount abc d = coins_amount a d + coins_amount b d + coins_amount c d) /\
    Coins_Add a [] = Ok a /\ Coins_Sub ab b = Ok a /\
    ((exists r, Coins_Sub a b = Ok r) <-> forall d, coins_amount b d <= coins_amount a d).
Proof.
  intros Ha Hb Hc Hfit.
  assert (forall x d, valid x -> 0 <= coins_amount x d) as Hnn by (intros; by apply valid_nonneg).
  assert (forall d, 0 <= coins_amount a d /\ 0 <= coins_amount b d /\ 0 <= coins_amount c d) as Hpos by auto.
  assert (valid []) as Hnil by done.
  destruct (Coins_Add_valid a b) as (ab & Eab & Vab & Aab); [done|done|intros d; specialize (Hfit d); specialize (Hpos d); lia|].
  destruct (Coins_Add_valid b a) as (ba & Eba & Vba & Aba); [done|done|intros d; specialize (Hfit d); specialize (Hpos d); lia|].
  destruct (Coins_Add_valid b c) as (bc & Ebc & Vbc & Abc); [done|done|intros d; specialize (Hfit d); specialize (Hpos d); lia|].
  destruct (Coins_Add_valid ab c) as (l & El & Vl & Al); [done|done|intros d; rewrite Aab; apply Hfit|].
  destruct (Coins_Add_valid a bc) as (r & Er & Vr & Ar); [done|done|intros d; rewrite Abc; specialize (Hfit d); lia|].
  destruct (Coins_Add_valid a []) as (a0 & Ea0 & Va0 & Aa0); [done|done|intros d; specialize (Hfit d); specialize (Hpos d); cbn; lia|].
  destruct (Coins_SafeSub_valid ab b) as (s & neg & Es & As & Hneg & Vs); [done|done|intros d; specialize (Hfit d); specialize (Hpos d); rewrite ?Aab; lia..|].
  destruct (Coins_SafeSub_valid a b) as (s' & neg' & Es' & As' & Hneg' & Vs'); [done|done|intros d; specialize (Hfit d); specialize (Hpos d); lia..|].
  assert (neg = false) as -> by (apply Hneg; intros d; specialize (Hpos d); rewrite Aab; lia).
  rewrite (valid_ext ba ab) in Eba by (try done; intros d; rewrite Aab, Aba; lia).
  rewrite (valid_ext r l) in Er by (try done; intros d; rewrite Ar, Al, Aab, Abc; lia).
  rewrite (valid_ext a0 a) in Ea0 by (try done; intros d; rewrite Aa0; cbn; lia).
  exists ab, bc, l. split_and!; try done.
  - intros d. by rewrite Al, Aab.
  - unfold Coins_Sub. rewrite Es. cbn. f_equal. apply valid_ext; [by apply Vs|done|]. intros d. rewrite As, Aab. lia.
  - unfold Coins_Sub. rewrite Es'. cbn. rewrite <- Hneg'. destruct neg'; split; (done || by intros [r0 ?] || by eexists).
Qed.
End AddLemmas.

(** ** Find *)

Lemma strict_app l l' : strict (l ++ l') <-> strict l /\ strict l' /\ forall c c', c ∈ l -> c' ∈ l' -> str_lt (Denom c) (Denom c').
Proof.
  unfold strict. rewrite fmap_app, StronglySorted_app. setoid_rewrite list_elem_of_fmap. naive_solver.
Qed.

(** The binary search finds a coin of the denomination exactly when there is
    one. *)
Lemma find_loop_spec fuel l d : strict l -> (length l <= fuel)%nat ->
  match find_loop fuel l d with Some c => c ∈ l /\ Denom c = d | None => d ∉ (Denom <$> l) end.
Proof.
  revert l. induction fuel as [|fuel IH]; intros [|c [|c' l]] Hs Hl; cbn [length] in Hl; try lia; try (cbn; by apply not_elem_of_nil).
  - cbn [find_loop]. case_bool_decide as E; [split; [apply elem_of_cons; by left|done]|]. cbn. intros [?|?%elem_of_nil]%elem_of_cons; congruence.
  - set (l0 := c :: c' :: l) in *. change (find_loop (S fuel) l0 d) with
      (match l0 !! Nat.div (length l0) 2 with
       | None => None
       | Some x => match String.compare d (Denom x) with
         | Lt => find_loop fuel (take (Nat.div (length l0) 2) l0) d | Eq => Some x
         | Gt => find_loop fuel (drop (S (Nat.div (length l0) 2)) l0) d end end).
    set (mid := Nat.div (length l0) 2). assert (mid < length l0)%nat as Hm by (apply Nat.div_lt; cbn; lia).
    destruct (lookup_lt_is_Some_2 l0 mid Hm) as [x Hx]. rewrite Hx. rewrite <- (take_drop_middle l0 mid x Hx) in Hs.
    assert (forall e, e ∈ l0 <-> e ∈ take mid l0 \/ e = x \/ e ∈ drop (S mid) l0) as Hin.
    { intros e. rewrite <- (take_drop_middle l0 mid x Hx) at 1. rewrite elem_of_app, elem_of_cons. done. }
    apply strict_app in Hs as (H1 & H2 & H12). apply strict_cons in H2 as [H2 H3]. rewrite Forall_forall in H3.
    assert (str_lt (Denom x) d -> d ∉ (Denom <$> take mid l0)) as Hlo.
    { intros Hd (e & -> & He)%list_elem_of_fmap. apply (str_lt_irrefl (Denom x)). etrans; [exact Hd|]. apply H12; [done|apply elem_of_cons; by left]. }
    assert (str_lt d (Denom x) -> d ∉ (Denom <$> drop (S mid) l0)) as Hhi.
    { intros Hd (e & -> & He)%list_elem_of_fmap. apply (str_lt_irrefl (Denom x)). etrans; [|exact Hd]. by apply H3. }
    destruct (String.compare d (Denom x)) eqn:E.
    + apply compare_eq in E as ->. split; [apply Hin; auto|done].
    + assert (Hlt : str_lt d (Denom x)) by done. pose proof (IH (take mid l0) H1) as Hr. rewrite length_take in Hr. specialize (Hr ltac:(cbn in *; lia)).
      destruct (find_loop fuel (take mid l0) d) as [e|]; [split; [apply Hin; left|]; apply Hr|].
      intros (e & -> & [He|[->|He]]%Hin)%list_elem_of_fmap; [by apply Hr, list_elem_of_fmap_2|by apply str_lt_irrefl in Hlt|by apply (Hhi Hlt), list_elem_of_fmap_2].
    + assert (str_lt (Denom x) d) as Hgt by (apply Compare_gt; unfold Compare; by rewrite E).
      pose proof (IH (drop (S mid) l0) H2) as Hr. rewrite length_drop in Hr. specialize (Hr ltac:(cbn in *; lia)).
      destruct (find_loop fuel (drop (S mid) l0) d) as [e|]; [split; [apply Hin; right; right|]; apply Hr|].
      intros (e & -> & [He|[->|He]]%Hin)%list_elem_of_fmap; [by apply (Hlo Hgt), list_elem_of_fmap_2|by apply str_lt_irrefl in Hgt|by apply Hr, list_elem_of_fmap_2].
Qed.

Lemma AmountOf_amount l d : strict l -> AmountOfNoDenomValidation l d = coins_amount l d.
Proof.
  intros Hs. unfold AmountOfNoDenomValidation, Find. pose proof (find_loop_spec (length l) l d Hs (le_n _)) as Hf.
  destruct (find_loop _ l d) as [c|]; [|by rewrite amount_notin]. destruct Hf as [Hin <-]. symmetry. apply amount_in; [by apply strict_NoDup|done].
Qed.

(** ** Comparisons *)

Lemma scan_run stop found coinsB coins : strict coinsB -> Forall (fun c => ValidateDenom (Denom c) = true) coins ->
  scan stop found coinsB coins = Ok (if existsb (fun c => stop c (coins_amount coinsB (Denom c))) coins then found else negb found).
Proof.
  intros Hs Hf. induction Hf as [|c coins Hc Hf IH]; [done|]. cbn [scan existsb]. unfold AmountOf. rewrite Hc. cbn [obind].
  rewrite AmountOf_amount by done. destruct (stop c _); [done|]. by rewrite IH.
Qed.

Lemma valid_denoms l : valid l -> Forall (fun c => ValidateDenom (Denom c) = true) l.
Proof. intros [_ Hf]%valid_iff. eapply Forall_impl; [exact Hf|]. by intros c [? _]. Qed.

Lemma existsb_false {A} (f : A -> bool) l : existsb f l = false <-> forall x, x ∈ l -> f x = false.
Proof.
  split.
  - intros E x Hin. destruct (f x) eqn:Ef; [|done]. rewrite <- E. symmetry. apply existsb_exists. exists x. split; [by apply list_elem_of_In|done].
  - intros Hf. destruct (existsb f l) eqn:E; [|done]. apply existsb_exists in E as (x & Hin%list_elem_of_In & Hx). by rewrite Hf in Hx.
Qed.

(** A property of the coins of a valid set is one of its amounts. *)
Lemma valid_forall l (P : string -> Z -> Prop) : valid l ->
  (forall c, c ∈ l -> P (Denom c) (Amount c)) <-> (forall d, coins_amount l d <> 0 -> P d (coins_amount l d)).
Proof.
  intros [Hs Hz]%valid_nonzero. split.
  - intros HP d Hd. destruct (amount_elem l d Hd) as (c & Hin & <-). rewrite (amount_in l c (strict_NoDup _ Hs) Hin). by apply HP.
  - intros HP c Hin. pose proof (amount_in l c (strict_NoDup _ Hs) Hin) as E. rewrite <- E. apply HP. rewrite E. rewrite Forall_forall in Hz. by apply Hz.
Qed.

Lemma valid_nil_amount l : valid l -> (forall d, coins_amount l d = 0) -> l = [].
Proof. intros Hl Hz. by apply valid_ext. Qed.

Section CompareLemmas.

Lemma IsAllGTE_run a b : valid a -> valid b ->
  exists x, IsAllGTE a b = Ok x /\ (x = true <-> forall d, coins_amount b d <= coins_amount a d).
Proof.
  intros Ha Hb. unfold IsAllGTE. destruct b as [|cb b0]; [exists true; split; [done|]; split; [intros _ d; by apply valid_nonneg|done]|].
  destruct a as [|ca a0].
  - exists false. split; [done|]. split; [done|]. intros Hle. exfalso. pose proof (proj1 (valid_iff _) Hb) as [Hs Hf]. apply Forall_cons in Hf as [[_ ?] _].
    specialize (Hle (Denom cb)). rewrite (amount_in (cb :: b0) cb) in Hle; [cbn in Hle; lia|by apply strict_NoDup|apply elem_of_cons; by left].
  - set (a := ca :: a0) in *. set (b := cb :: b0) in *. change (Nat.eqb (length b) 0) with false. change (Nat.eqb (length a) 0) with false. cbn iota.
    rewrite scan_run by (by apply valid_nonzero || by apply valid_denoms). eexists. split; [done|]. destruct (existsb _ b) eqn:E; cbn [negb].
    + split; [done|]. intros Hle. exfalso. apply existsb_exists in E as (c & Hin%list_elem_of_In & Hlt%Z.ltb_lt). specialize (Hle (Denom c)).
      rewrite (amount_in b c) in Hle; [lia|by apply strict_NoDup, valid_nonzero|done].
    + split; [|done]. intros _ d. destruct (decide (coins_amount b d = 0)) as [->|Hd]; [by apply valid_nonneg|].
      revert d Hd. apply (valid_forall b (fun d x => x <= coins_amount a d)); [done|]. intros c Hin. rewrite existsb_false in E. specialize (E c Hin). lia.
Qed.

Lemma DenomsSubsetOf_run b a : valid a -> valid b ->
  exists x, DenomsSubsetOf b a = Ok x /\ (x = true <-> forall d, coins_amount b d <> 0 -> coins_amount a d <> 0).
Proof.
  intros Ha Hb. unfold DenomsSubsetOf.
  assert ((forall d, coins_amount b d <> 0 -> coins_amount a d <> 0) <-> forall c, c ∈ b -> coins_amount a (Denom c) <> 0) as Hiff.
  { symmetry. apply (valid_forall b (fun d _ => coins_amount a d <> 0)). done. }
  destruct (Nat.ltb_spec (length a) (length b)) as [Hlen|Hlen].
  - exists false. split; [done|]. split; [done|]. rewrite Hiff. intros Hsub. exfalso.
    assert ((Denom <$> b) ⊆+ (Denom <$> a)) as Hle%submseteq_length.
    { apply NoDup_submseteq; [by apply strict_NoDup, valid_nonzero|]. intros d (c & -> & Hin)%list_elem_of_fmap.
      destruct (amount_elem a (Denom c) (Hsub c Hin)) as (c' & ? & <-). by apply list_elem_of_fmap_2. }
    rewrite !length_fmap in Hle. lia.
  - rewrite scan_run by (by apply valid_nonzero || by apply valid_denoms). eexists. split; [done|]. rewrite Hiff. destruct (existsb _ b) eqn:E; cbn [negb].
    + split; [done|]. intros Hsub. apply existsb_exists in E as (c & Hin%list_elem_of_In & Hz%Z.eqb_eq). by destruct (Hsub c Hin).
    + split; [|done]. intros _ c Hin. rewrite existsb_false in E. specialize (E c Hin). lia.
Qed.

Lemma IsAllGT_run a b : valid a -> valid b ->
  exists x, IsAllGT a b = Ok x /\ (x = true <-> a <> [] /\ forall d, coins_amount b d <> 0 -> coins_amount b d < coins_amount a d).
Proof.
  intros Ha Hb. unfold IsAllGT. destruct a as [|ca a0]; [exists false; split; [done|]; by split; [|intros [[] _]]|].
  set (a := ca :: a0) in *. change (Nat.eqb (length a) 0) with false. cbn iota.
  destruct b as [|cb b0]; [exists true; split; [done|]; split; [intros _; split; [done|intros d []; done]|done]|].
  set (b := cb :: b0) in *. change (Nat.eqb (length b) 0) with false. cbn iota.
  destruct (DenomsSubsetOf_run b a Ha Hb) as (x & -> & Hx). cbn [obind]. destruct x; cbn [negb].
  - rewrite scan_run by (by apply valid_nonzero || by apply valid_denoms). eexists. split; [done|].
    assert ((forall d, coins_amount b d <> 0 -> coins_amount b d < coins_amount a d) <-> forall c, c ∈ b -> Amount c < coins_amount a (Denom c)) as ->.
    { symmetry. apply (valid_forall b (fun d x => x < coins_amount a d)). done. }
    destruct (existsb _ b) eqn:E; cbn [negb].
    + split; [done|]. intros [_ Hlt]. apply existsb_exists in E as (c & Hin%list_elem_of_In & Hc). specialize (Hlt c Hin). lia.
    + split; [|done]. intros _. split; [done|]. intros c Hin. rewrite existsb_false in E. specialize (E c Hin). lia.
  - exists false. split; [done|]. split; [done|]. intros [_ Hlt]. apply Hx. intros d Hd. specialize (Hlt d Hd). pose proof (valid_nonneg b d Hb). lia.
Qed.

Lemma IsAny_run (f : Z -> Z -> bool) a b : valid a -> valid b ->
  exists x, (if Nat.eqb (length b) 0 then Ok false else scan (fun c amt => f amt (Amount c) && negb (amt =? 0)) true b a) = Ok x /\
    (x = true <-> exists d, coins_amount a d <> 0 /\ coins_amount b d <> 0 /\ f (coins_amount b d) (coins_amount a d) = true).
Proof.
  intros Ha Hb. destruct (Nat.eqb_spec (length b) 0) as [E|E].
  - exists false. split; [done|]. apply nil_length_inv in E as ->. split; [done|]. by intros (d & _ & [] & _).
  - rewrite scan_run by (by apply valid_nonzero || by apply valid_denoms). eexists. split; [done|]. destruct (existsb _ a) eqn:Ee; cbn [negb].
    + split; [|done]. intros _. apply existsb_exists in Ee as (c & Hin%list_elem_of_In & [Hf Hn%negb_true_iff%Z.eqb_neq]%andb_true_iff).
      pose proof (valid_nonzero a Ha) as [Hs Hz]. rewrite Forall_forall in Hz. exists (Denom c). rewrite (amount_in a c (strict_NoDup _ Hs) Hin). auto.
    + split; [done|]. intros (d & Hda & Hdb & Hf). destruct (amount_elem a d Hda) as (c & Hin & <-).
      rewrite (amount_in a c) in Hf; [|by apply strict_NoDup, valid_nonzero|done]. rewrite existsb_false in Ee. specialize (Ee c Hin). rewrite Hf in Ee. cbn in Ee.
      apply negb_false_iff, Z.eqb_eq in Ee. done.
Qed.
End CompareLemmas.

(** ** Max and Min *)

Section TwoIndex.
Context (keep : bool) (both : Coin -> Coin -> Coins) (f : Z -> Z -> Z).
Hypothesis both_denom : forall a b, Denom a = Denom b -> forall c, c ∈ both a b -> Denom c = Denom a.
Hypothesis both_one : forall a b, both a b = [] \/ exists c, both a b = [c].
Hypothesis both_amount : forall a b d, Denom a = Denom b -> coins_amount (both a b) d = if bool_decide (Denom a = d) then f (Amount a) (Amount b) else 0.
Hypothesis f_left : forall x, 0 <= x -> f x 0 = if keep then x else 0.
Hypothesis f_right : forall x, 0 <= x -> f 0 x = if keep then x else 0.

Lemma two_index_cons ca a cb b : two_index keep both (ca :: a) (cb :: b) =
  match String.compare (Denom ca) (Denom cb) with
  | Lt => (if keep then [ca] else []) ++ two_index keep both a (cb :: b)
  | Eq => both ca cb ++ two_index keep both a b
  | Gt => (if keep then [cb] else []) ++ two_index keep both (ca :: a) b
  end.
Proof. done. Qed.

Lemma two_index_denoms (P : string -> Prop) a b : Forall (fun c => P (Denom c)) a -> Forall (fun c => P (Denom c)) b ->
  Forall (fun c => P (Denom c)) (two_index keep both a b).
Proof.
  clear f_left f_right both_amount both_one. revert b. induction a as [|ca a IHa]; intros b Ha Hb; induction b as [|cb b IHb]; try (by cbn; destruct keep).
  apply Forall_cons in Ha as Ha'. destruct Ha' as [Hca Ha']. apply Forall_cons in Hb as Hb'. destruct Hb' as [Hcb Hb']. rewrite two_index_cons.
  destruct (String.compare (Denom ca) (Denom cb)) eqn:E; apply Forall_app; (split; [|auto]).
  - apply compare_eq in E. apply Forall_forall. intros c Hc. by rewrite (both_denom _ _ E c Hc).
  - destruct keep; by repeat constructor.
  - destruct keep; by repeat constructor.
Qed.

Lemma amount_cons c l d : strict (c :: l) -> coins_amount (c :: l) d = if bool_decide (Denom c = d) then Amount c else coins_amount l d.
Proof.
  intros Hn%strict_NoDup. cbn in *. apply NoDup_cons in Hn as [Hn _]. case_bool_decide as E; [|lia]. subst d. rewrite amount_notin by done. lia.
Qed.

Lemma amount_below c l d : strict (c :: l) -> str_lt d (Denom c) -> coins_amount (c :: l) d = 0.
Proof.
  intros [Hs Hf]%strict_cons Hd. apply amount_notin. cbn. intros [->|(c' & -> & Hin)%list_elem_of_fmap]%elem_of_cons; [by apply str_lt_irrefl in Hd|].
  rewrite Forall_forall in Hf. apply (str_lt_irrefl (Denom c)). etrans; [by apply Hf|done].
Qed.

Lemma strict_prefix l l' d : (forall c, c ∈ l -> Denom c = d) -> (l = [] \/ exists c, l = [c]) -> strict l' -> Forall (fun c => str_lt d (Denom c)) l' -> strict (l ++ l').
Proof.
  intros Hd Hl Hs Hf. destruct Hl as [->|[c ->]]; [done|]. apply strict_cons. split; [done|]. by rewrite (Hd c) by (apply elem_of_cons; by left).
Qed.

Lemma above_head c l d : strict (c :: l) -> str_lt d (Denom c) -> Forall (fun c' => str_lt d (Denom c')) (c :: l).
Proof. intros [_ Hf]%strict_cons Hd. constructor; [done|]. eapply Forall_impl; [exact Hf|]. intros ? ?. by etrans. Qed.

(** The loop combines the amounts denomination by denomination. *)
Lemma two_index_spec a b : strict a -> strict b -> Forall (fun c => 0 <= Amount c) a -> Forall (fun c => 0 <= Amount c) b ->
  strict (two_index keep both a b) /\ forall d, coins_amount (two_index keep both a b) d = f (coins_amount a d) (coins_amount b d).
Proof.
  assert (forall l d, Forall (fun c => 0 <= Amount c) l -> 0 <= coins_amount l d) as Hnn by (intros l d; induction 1; cbn; [lia|case_bool_decide; lia]).
  assert (f 0 0 = 0) as F00 by (rewrite f_left by lia; by destruct keep).
  assert (forall c : Coin, (if keep then [c] else []) = [] \/ exists c0, (if keep then [c] else []) = [c0]) as Hone by (intros c; destruct keep; eauto).
  assert (forall (c c' : Coin), c' ∈ (if keep then [c] else []) -> Denom c' = Denom c) as Hdn by (intros c c'; destruct keep; [by intros ->%list_elem_of_singleton|by intros ?%elem_of_nil]).
  assert (forall c d, coins_amount (if keep then [c] else []) d = if keep then (if bool_decide (Denom c = d) then Amount c else 0) else 0) as Hka
    by (intros c d; destruct keep; cbn; [case_bool_decide; lia|done]).
  revert b. induction a as [|ca a IHa]; intros b Hsa Hsb Hpa Hpb; induction b as [|cb b IHb].
  - cbn. destruct keep; (split; [constructor|]); intros d; by rewrite F00.
  - change (two_index keep both [] (cb :: b)) with (if keep then cb :: b else []). split; [by destruct keep|]. intros d. rewrite f_right by auto. by destruct keep.
  - change (two_index keep both (ca :: a) []) with (if keep then ca :: a else []). split; [by destruct keep|]. intros d. rewrite f_left by auto. by destruct keep.
  - apply strict_cons in Hsa as Hsa'. destruct Hsa' as [Hsa' Hfa]. apply strict_cons in Hsb as Hsb'. destruct Hsb' as [Hsb' Hfb].
    apply Forall_cons in Hpa as Hpa'. destruct Hpa' as [Hca Hpa']. apply Forall_cons in Hpb as Hpb'. destruct Hpb' as [Hcb Hpb']. rewrite two_index_cons.
    destruct (String.compare (Denom ca) (Denom cb)) eqn:E.
    + apply compare_eq in E. destruct (IHa b Hsa' Hsb' Hpa' Hpb') as [Hs HA]. split.
      * apply (strict_prefix _ _ (Denom ca)); [by apply both_denom|apply both_one|done|]. apply two_index_denoms; [done|by rewrite E].
      * intros d. rewrite amount_app, both_amount, HA by done. rewrite (amount_cons ca a), (amount_cons cb b) by done. rewrite <- E. case_bool_decide as Ed; [|done].
        subst d. rewrite (amount_notin a), (amount_notin b), F00; [lia|rewrite E; by apply NoDup_cons, (strict_NoDup (cb :: b))|by apply NoDup_cons, (strict_NoDup (ca :: a))].
    + assert (str_lt (Denom ca) (Denom cb)) as Hlt by done. destruct (IHa (cb :: b) Hsa' Hsb Hpa' Hpb) as [Hs HA]. split.
      * apply (strict_prefix _ _ (Denom ca)); [apply Hdn|apply Hone|done|]. apply two_index_denoms; [done|by apply above_head].
      * intros d. rewrite amount_app, Hka, HA, (amount_cons ca a) by done. case_bool_decide as Ed; [|by destruct keep].
        subst d. rewrite (amount_below cb b) by done. rewrite (amount_notin a) by (by apply NoDup_cons, (strict_NoDup (ca :: a))). rewrite F00, f_left by done. destruct keep; lia.
    + assert (str_lt (Denom cb) (Denom ca)) as Hlt by (apply Compare_gt; unfold Compare; by rewrite E). destruct (IHb Hsb' Hpb') as [Hs HA]. split.
      * apply (strict_prefix _ _ (Denom cb)); [apply Hdn|apply Hone|done|]. apply two_index_denoms; [by apply above_head|done].
      * intros d. rewrite amount_app, Hka. rewrite HA, (amount_cons cb b) by done. case_bool_decide as Ed; [|by destruct keep].
        subst d. rewrite (amount_below ca a) by done. rewrite (amount_notin b) by (by apply NoDup_cons, (strict_NoDup (cb :: b))). rewrite F00, f_right by done. destruct keep; lia.
Qed.
End TwoIndex.

Lemma valid_pos l : valid l -> Forall (fun c => 0 <= Amount c) l.
Proof. intros [_ Hf]%valid_iff. eapply Forall_impl; [exact Hf|]. cbn. lia. Qed.

(** A strict set whose amounts are those of valid sets is valid once its zero
    coins are gone. *)
Lemma NewCoins_strict l : strict l -> (forall d, 0 <= coins_amount l d) -> (forall d, coins_amount l d <> 0 -> ValidateDenom d = true) ->
  Forall (fun c => Amount c <> 0) l -> NewCoins l = Some l /\ valid l.
Proof.
  intros Hs Hp Hd Hz. assert (valid l) as Hv by (apply valid_intro; [done|done|]; intros d Hn; split; [by apply Hd|]; specialize (Hp d); lia).
  split; [by apply NewCoins_valid|done].
Qed.

Lemma strict_nonzero l : strict l -> (forall c, c ∈ l -> coins_amount l (Denom c) <> 0) -> Forall (fun c => Amount c <> 0) l.
Proof. intros Hs Hn. apply Forall_forall. intros c Hin E. apply (Hn c Hin). by rewrite (amount_in l c (strict_NoDup _ Hs) Hin). Qed.

Section Lattice.
Context `{SdkMathLaws}.

Lemma Coins_Max_run a b : valid a -> valid b ->
  exists m, Coins_Max a b = Ok m /\ valid m /\ forall d, coins_amount m d = Z.max (coins_amount a d) (coins_amount b d).
Proof.
  intros Ha Hb. unfold Coins_Max, mk_NewCoins. set (both := fun x y : Coin => _).
  destruct (two_index_spec true both Z.max) with (a := a) (b := b) as [Hs HA]; try (apply valid_nonzero || apply valid_pos); try done.
  - intros x y E c ->%list_elem_of_singleton. unfold both. by case_match.
  - intros x y. right. by eexists.
  - intros x y d E. unfold both. cbn. destruct (Z.ltb_spec (Amount x) (Amount y)); [rewrite <- E|]; case_bool_decide; lia.
  - intros x ?. lia.
  - intros x ?. lia.
  - pose proof (valid_nonneg a) as Na. pose proof (valid_nonneg b) as Nb.
    destruct (NewCoins_strict _ Hs) as [-> Hv].
    + intros d. rewrite HA. specialize (Na d Ha). lia.
    + intros d Hd. rewrite HA in Hd. specialize (Na d Ha). specialize (Nb d Hb).
      destruct (decide (coins_amount a d = 0)); [apply (valid_denom b)|apply (valid_denom a)]; (done || lia).
    + apply strict_nonzero; [done|]. intros c Hin. rewrite HA.
      assert (forall l, valid l -> Forall (fun c => coins_amount l (Denom c) <> 0) l) as Hl.
      { intros l Hl. apply Forall_forall. apply (valid_forall l (fun d _ => coins_amount l d <> 0)); done. }
      assert (Forall (fun c => coins_amount a (Denom c) <> 0 \/ coins_amount b (Denom c) <> 0) (two_index true both a b)) as Hd.
      { apply (two_index_denoms true both) with (P := fun d => coins_amount a d <> 0 \/ coins_amount b d <> 0).
        - intros x y E e ->%list_elem_of_singleton. unfold both. by case_match.
        - eapply Forall_impl; [by apply Hl|]. by left.
        - eapply Forall_impl; [by apply Hl|]. by right. }
      rewrite Forall_forall in Hd. specialize (Hd c Hin). specialize (Na (Denom c) Ha). specialize (Nb (Denom c) Hb). lia.
    + by eexists.
Qed.

Lemma Coins_Min_run a b : valid a -> valid b ->
  exists m, Coins_Min a b = Ok m /\ valid m /\ forall d, coins_amount m d = Z.min (coins_amount a d) (coins_amount b d).
Proof.
  intros Ha Hb. unfold Coins_Min, mk_NewCoins. set (both := fun x y : Coin => _).
  assert (forall x y c, c ∈ both x y -> c = (if Amount y <? Amount x then y else x) /\ Amount c <> 0) as Hboth.
  { intros x y c. unfold both, Coin_IsZero. case_match eqn:E; [by intros ?%elem_of_nil|]. intros ->%list_elem_of_singleton. split; [done|]. lia. }
  assert (forall l l', strict l -> strict l' -> Forall (fun c => 0 <= Amount c) l -> Forall (fun c => 0 <= Amount c) l' ->
    strict (two_index false both l l') /\ forall d, coins_amount (two_index false both l l') d = Z.min (coins_amount l d) (coins_amount l' d)) as Hspec.
  { apply two_index_spec.
    - intros x y E c [-> _]%Hboth. by case_match.
    - intros x y. unfold both. case_match; [by left|right; by eexists].
    - intros x y d E. unfold both, Coin_IsZero. destruct (Z.ltb_spec (Amount y) (Amount x)); case_match eqn:E0; cbn; rewrite <- ?E; case_bool_decide; lia.
    - intros x ?. lia.
    - intros x ?. lia. }
  destruct (Hspec a b) as [Hs HA]; try (apply valid_nonzero || apply valid_pos); try done.
  pose proof (valid_nonneg a) as Na. pose proof (valid_nonneg b) as Nb.
  destruct (NewCoins_strict _ Hs) as [-> Hv].
  - intros d. rewrite HA. specialize (Na d Ha). specialize (Nb d Hb). lia.
  - intros d Hd. rewrite HA in Hd. specialize (Na d Ha). specialize (Nb d Hb). apply (valid_denom a); [done|lia].
  - clear -Hboth. revert b. induction a as [|ca a IHa]; intros b; induction b as [|cb b IHb]; try done. rewrite two_index_cons.
    destruct (String.compare _ _); [apply Forall_app; split; [|done]|apply IHa|apply IHb]. apply Forall_forall. by intros c [_ ?]%Hboth.
  - by eexists.
Qed.

(** Max and Min of valid sets are the componentwise maximum and minimum, and
    obey the laws their comments state: both sets are below the maximum, which
    is below every common upper bound, and the minimum and the maximum add up
    to the sum. *)
Theorem coins_lattice a b c : valid a -> valid b -> valid c -> fits_sum a b ->
  exists mx mn ab, Coins_Max a b = Ok mx /\ Coins_Min a b = Ok mn /\ valid mx /\ valid mn /\
    (forall d, coins_amount mx d = Z.max (coins_amount a d) (coins_amount b d) /\ coins_amount mn d = Z.min (coins_amount a d) (coins_amount b d)) /\
    IsAllLTE a mx = Ok true /\ IsAllLTE b mx = Ok true /\ IsAllLTE mn a = Ok true /\ IsAllLTE mn b = Ok true /\
    (IsAllLTE mx c = Ok true <-> IsAllLTE a c = Ok true /\ IsAllLTE b c = Ok true) /\
    (IsAllLTE c mn = Ok true <-> IsAllLTE c a = Ok true /\ IsAllLTE c b = Ok true) /\
    Coins_Add a b = Ok ab /\ Coins_Add mn mx = Ok ab.
Proof.
  intros Ha Hb Hc Hfit. destruct (Coins_Max_run a b Ha Hb) as (mx & Emx & Vmx & Amx). destruct (Coins_Min_run a b Ha Hb) as (mn & Emn & Vmn & Amn).
  assert (forall x y, valid x -> valid y -> IsAllLTE x y = Ok true <-> forall d, coins_amount x d <= coins_amount y d) as Hle.
  { intros x y Hx Hy. unfold IsAllLTE. destruct (IsAllGTE_run y x Hy Hx) as (r & -> & <-). split; [by intros [= ->]|by intros ->]. }
  destruct (Coins_Add_valid a b) as (ab & Eab & Vab & Aab); [done|done|done|].
  destruct (Coins_Add_valid mn mx) as (ab' & Eab' & Vab' & Aab'); [done|done|intros d; specialize (Hfit d); rewrite Amx, Amn; lia|].
  rewrite (valid_ext ab' ab) in Eab' by (try done; intros d; rewrite Aab, Aab', Amx, Amn; lia).
  exists mx, mn, ab. rewrite !Hle by done.
  assert (forall d, coins_amount mx d = Z.max (coins_amount a d) (coins_amount b d) /\ coins_amount mn d = Z.min (coins_amount a d) (coins_amount b d)) as HA by auto.
  assert (forall P : string -> Prop, (forall d, P d) -> forall d, P d) as Hid by auto.
  split_and!; try done; try (intros d; specialize (HA d); lia).
  - split; [intros Hall; split; intros d; specialize (HA d); specialize (Hall d); lia|intros [H1 H2] d; specialize (HA d); specialize (H1 d); specialize (H2 d); lia].
  - split; [intros Hall; split; intros d; specialize (HA d); specialize (Hall d); lia|intros [H1 H2] d; specialize (HA d); specialize (H1 d); specialize (H2 d); lia].
Qed.

(** ** Equality, multiplication, division *)

Lemma sort_valid a : valid a -> Coins_Sort a = a.
Proof.
  intros [Hs Hz]%valid_nonzero. apply coins_ext; [by apply sort_strict, strict_NoDup|done| |done|].
  - unfold Coins_Sort. by rewrite (merge_sort_Permutation coin_le).
  - intros d. apply amount_perm, merge_sort_Permutation.
Qed.

Lemma all_equal_iff a b : length a = length b -> all_equal a b = Ok true <-> a = b.
Proof.
  revert b. induction a as [|ca a IH]; intros [|cb b] Hl; try done. cbn [all_equal]. unfold Coin_IsEqual, same_denom. case_bool_decide as E; cbn [obind].
  - split; [done|]. by intros [= -> _].
  - destruct (Z.eqb_spec (Amount ca) (Amount cb)) as [Ea|Ea]; cbn [negb].
    + rewrite IH by (cbn in Hl; lia). split; [intros ->; f_equal; destruct ca, cb; cbn in *; congruence|by intros [= _ ->]].
    + split; [done|]. intros [= -> _]. done.
Qed.

(** IsEqual returns true exactly on equal sets; on sets of the same length with
    other denominations it may panic instead of returning false. *)
Lemma Coins_IsEqual_true a b : valid a -> valid b -> Coins_IsEqual a b = Ok true <-> a = b.
Proof.
  intros Ha Hb. unfold Coins_IsEqual. rewrite !sort_valid by done. destruct (Nat.eqb_spec (length a) (length b)) as [E|E]; cbn [negb].
  - by apply all_equal_iff.
  - split; [done|]. intros ->. done.
Qed.
End Lattice.

Example IsEqual_panics : Coins_IsEqual [mkCoin "aaa" 1] [mkCoin "bbb" 1] = Panic.
Proof. reflexivity. Qed.

Lemma map_coins_inv f a r : map_coins f a = Ok r ->
  Denoms r = Denoms a /\ Forall2 (fun c c' => f (Amount c) = Some (Amount c') /\ 0 <= Amount c') a r.
Proof.
  revert r. induction a as [|c a IH]; intros r; cbn [map_coins]; [intros [= <-]; by split|].
  destruct (f (Amount c)) as [x|] eqn:Ef; [|done]. cbn [o_panic obind]. unfold NewCoin. destruct (Coin_Validate _) eqn:Ev; [|done]. cbn [o_panic obind].
  destruct (map_coins f a) as [r0|e|]; [|done..]. cbn [obind]. intros [= <-]. destruct (IH r0 eq_refl) as [Ed Hf]. split.
  - unfold Denoms. cbn. by f_equal.
  - constructor; [|done]. cbn. split; [done|]. unfold Coin_Validate in Ev. apply andb_true_iff in Ev as [_ Ev%Z.leb_le]. done.
Qed.

Lemma map_coins_run f a : valid a -> (forall c, c ∈ a -> exists x, f (Amount c) = Some x /\ 0 <= x) -> exists r, map_coins f a = Ok r.
Proof.
  intros Hv%valid_denoms. induction Hv as [|c a Hd Hv IH]; intros Hf; [by exists []|]. cbn [map_coins].
  destruct (Hf c) as (x & -> & Hx); [apply elem_of_cons; by left|]. cbn [o_panic obind]. unfold NewCoin, Coin_Validate. cbn [Denom Amount].
  rewrite Hd, (proj2 (Z.leb_le 0 x)) by done. cbn. destruct IH as [r ->]; [intros c' ?; apply Hf, elem_of_cons; by right|]. by eexists.
Qed.

(** MulInt by a positive number that does not overflow multiplies every
    amount, and keeps the set valid. *)
Lemma MulInt_valid `{SdkMathMulLaws} a x : valid a -> 0 < x -> (forall d, coins_amount a d * x < 2 ^ 256) ->
  exists r, MulInt a x = Ok r /\ valid r /\ forall d, coins_amount r d = coins_amount a d * x.
Proof.
  intros Ha Hx Hfit. unfold MulInt, SafeMulInt. rewrite (proj2 (Z.eqb_neq x 0)) by lia.
  pose proof (valid_nonzero a Ha) as [Hs _]. pose proof (proj1 (valid_iff a) Ha) as [_ Hp]. rewrite Forall_forall in Hp.
  destruct (map_coins_run (fun y => Int_Mul y x) a Ha) as [r Er].
  - intros c Hin. pose proof (amount_in a c (strict_NoDup _ Hs) Hin) as E. specialize (Hfit (Denom c)). rewrite E in Hfit. destruct (Hp c Hin) as [_ ?].
    exists (Amount c * x). split; [apply Int_Mul_fits; rewrite Z.abs_eq; nia|nia].
  - rewrite Er. cbn [obind o_panic]. exists r. split; [done|]. apply map_coins_inv in Er as [Ed Hf].
    assert (forall d, coins_amount r d = coins_amount a d * x) as HA.
    { clear -Ed Hf H0. induction Hf as [|c c' a r [Ec _] Hf IH]; [done|]. intros d. unfold Denoms in Ed. cbn in Ed. injection Ed as Ed1 Ed2. cbn. rewrite IH, Ed1 by done.
      apply Int_Mul_exact in Ec. rewrite Ec. case_bool_decide; lia. }
    split; [|done]. apply valid_iff. split; [unfold strict; unfold Denoms in Ed; by rewrite Ed|].
    apply Forall_forall. intros c' Hin. apply list_elem_of_lookup in Hin as [i Hi].
    destruct (Forall2_lookup_r _ _ _ _ _ Hf Hi) as (c & Hc & Ec & _). apply Int_Mul_exact in Ec.
    assert (Denom c' = Denom c) as ->.
    { assert (Denoms r !! i = Some (Denom c')) as E1 by (unfold Denoms; by rewrite list_lookup_fmap, Hi).
      assert (Denoms a !! i = Some (Denom c)) as E2 by (unfold Denoms; by rewrite list_lookup_fmap, Hc). rewrite Ed in E1. congruence. }
    destruct (Hp c) as [? ?]; [by eapply list_elem_of_lookup_2|]. split; [done|]. rewrite Ec. nia.
Qed.

(** The comparisons of valid sets decide relations between their amounts. *)
Lemma coins_comparisons a b : valid a -> valid b ->
  (exists x, IsAllGTE a b = Ok x /\ (x = true <-> forall d, coins_amount b d <= coins_amount a d)) /\
  (exists x, IsAllGT a b = Ok x /\ (x = true <-> a <> [] /\ forall d, coins_amount b d <> 0 -> coins_amount b d < coins_amount a d)) /\
  (exists x, IsAnyGT a b = Ok x /\ (x = true <-> exists d, coins_amount b d <> 0 /\ coins_amount b d < coins_amount a d)) /\
  (exists x, IsAnyGTE a b = Ok x /\ (x = true <-> exists d, coins_amount b d <> 0 /\ coins_amount b d <= coins_amount a d)).
Proof.
  intros Ha Hb. pose proof (valid_nonneg b) as Nb. split_and!; [by apply IsAllGTE_run|by apply IsAllGT_run| |].
  - destruct (IsAny_run Z.ltb a b Ha Hb) as (x & E & Hx). exists x. split; [exact E|]. rewrite Hx.
    split; intros (d & Hd); exists d; specialize (Nb d Hb); rewrite Z.ltb_lt in *; lia.
  - destruct (IsAny_run Z.leb a b Ha Hb) as (x & E & Hx). exists x. split; [exact E|]. rewrite Hx.
    split; intros (d & Hd); exists d; specialize (Nb d Hb); rewrite Z.leb_le in *; lia.
Qed.

Module coins_toy.
#[local] Existing Instances sdkmath sdkmath_laws.

Definition ca : Coins := [mkCoin "aaa" 2; mkCoin "bbb" 3].
Definition cb : Coins := [mkCoin "bbb" 1; mkCoin "ccc" 4].
Definition cc : Coins := [mkCoin "aaa" 5; mkCoin "bbb" 5; mkCoin "ccc" 5].

Lemma small_amounts d : coins_amount ca d <= 100 /\ coins_amount cb d <= 100 /\ coins_amount cc d <= 100.
Proof. unfold ca, cb, cc. cbn. repeat case_bool_decide; lia. Qed.

Lemma coins_monoid_witness : exists ab bc abc,
  Coins_Add ca cb = Ok ab /\ Coins_Add cb ca = Ok ab /\ Coins_Add cb cc = Ok bc /\ Coins_Add ab cc = Ok abc /\ Coins_Add ca bc = Ok abc /\
  ab = [mkCoin "aaa" 2; mkCoin "bbb" 4; mkCoin "ccc" 4] /\ Coins_Sub ab cb = Ok ca.
Proof.
  destruct (coins_monoid ca cb cc) as (ab & bc & abc & E1 & E2 & E3 & E4 & E5 & _ & _ & _ & E6 & _); [reflexivity..| |].
  - intros d. pose proof (small_amounts d). lia.
  - exists ab, bc, abc. split_and!; try assumption. vm_compute in E1. by injection E1.
Defined.

Lemma coins_lattice_witness : exists mx mn ab, Coins_Max ca cb = Ok mx /\ Coins_Min ca cb = Ok mn /\ Coins_Add mn mx = Ok ab /\
  mx = [mkCoin "aaa" 2; mkCoin "bbb" 3; mkCoin "ccc" 4] /\ mn = [mkCoin "bbb" 1] /\ Coins_Add ca cb = Ok ab.
Proof.
  destruct (coins_lattice ca cb cc) as (mx & mn & ab & E1 & E2 & _ & _ & _ & _ & _ & _ & _ & _ & _ & E3 & E4); [reflexivity..| |].
  - intros d. pose proof (small_amounts d). lia.
  - exists mx, mn, ab. split_and!; try assumption; [vm_compute in E1; by injection E1|vm_compute in E2; by injection E2].
Defined.
End coins_toy.
