(* ===== verification/BitArray.v ===== *)
(** BitArray: cosmos-sdk/crypto/types/compact_bit_array.go, the bits that say
    which members of a multisignature have signed.

    A nil array is [None]; arrays that come from the wire may have any number
    of extra bits and any number of bytes, so reading a bit can panic.
    Theorems: on an array whose bytes hold its bits, GetIndex and SetIndex read
    and write a list of booleans and NumTrueBitsBefore counts in it; the JSON
    form is read back exactly, except that of an array without bits, on which
    UnmarshalJSON panics. *)

From Stdlib Require Import ZArith Lia Ascii String.
From stdpp Require Import base gmap sets list strings fin_maps.
From S2P Require Import Prelude KVStore.

Open Scope Z_scope.
Open Scope go_scope.

Record CompactBitArray : Type := mkBitArray {
  ExtraBitsStored : Z;
  Elems : list Z;
}.

Definition NewCompactBitArray (bits : Z) : option CompactBitArray :=
  if bits <=? 0 then None else
  let nElems := Z.quot (wrap_i64 (bits + 7)) 8 in
  if (nElems <=? 0) || (2147483647 <? nElems) then None else
  Some (mkBitArray (Z.rem bits 8) (repeat 0 (Z.to_nat nElems))).

Definition Count (bA : option CompactBitArray) : Z :=
  match bA with
  | None => 0
  | Some bA =>
      let n := Z.of_nat (length (Elems bA)) in
      if ExtraBitsStored bA =? 0 then n * 8 else (n - 1) * 8 + ExtraBitsStored bA
  end.

(** An element of a slice. *)
Definition elem_at (l : list Z) (i : Z) : outcome Z :=
  match l !! Z.to_nat i with Some e => Ok e | None => Panic end.

(** [1 << uint8(7 - (i % 8))]. *)
Definition bit_mask (i : Z) : Z := Z.shiftl 1 (7 - Z.rem i 8).

Definition GetIndex (bA : option CompactBitArray) (i : Z) : outcome bool :=
  match bA with
  | None => Ok false
  | Some a =>
      if (i <? 0) || (Count bA <=? i) then Ok false else
      let* e := elem_at (Elems a) (Z.shiftr i 3) in
      Ok (0 <? Z.land e (bit_mask i))
  end.

(** The new array and what the method returns. *)
Definition SetIndex (bA : option CompactBitArray) (i : Z) (v : bool) : outcome (option CompactBitArray * bool) :=
  match bA with
  | None => Ok (bA, false)
  | Some a =>
      if (i <? 0) || (Count bA <=? i) then Ok (bA, false) else
      let* e := elem_at (Elems a) (Z.shiftr i 3) in
      let e' := if v then Z.lor e (bit_mask i) else Z.land e (Z.lxor 255 (bit_mask i)) in
      Ok (Some (mkBitArray (ExtraBitsStored a) (<[Z.to_nat (Z.shiftr i 3) := e']> (Elems a))), true)
  end.

(** bits.OnesCount8. *)
Definition OnesCount8 (b : Z) : Z := foldr (fun i n => Z.b2z (Z.testbit b i) + n) 0 [0; 1; 2; 3; 4; 5; 6; 7].

Fixpoint count_elems (elem : Z) (elems : list Z) (index onesCount : Z) : Z :=
  match elems with
  | [] => onesCount
  | e :: elems =>
      if index <=? elem * 8 + 7 then onesCount + OnesCount8 (Z.shiftr e (7 - Z.rem index 8 + 1))
      else count_elems (elem + 1) elems index (onesCount + OnesCount8 e)
  end.

Definition NumTrueBitsBefore (bA : option CompactBitArray) (index : Z) : outcome Z :=
  let max := Count bA in
  let index := if max <? index then max else index in
  match bA with
  | None => Panic
  | Some a => Ok (count_elems 0 (Elems a) index 0)
  end.

Definition quote : ascii := ascii_of_N 34.

(** The characters of the bits from [i] on. *)
Fixpoint json_bits (n : nat) (bA : option CompactBitArray) (i : Z) : outcome string :=
  match n with
  | O => Ok ""
  | S n =>
      let* b := GetIndex bA i in
      let* rest := json_bits n bA (i + 1) in
      Ok (String (if b then "x" else "_")%char rest)
  end.

Definition MarshalJSON (bA : option CompactBitArray) : outcome string :=
  match bA with
  | None => Ok "null"
  | Some _ => let* bits := json_bits (Z.to_nat (Count bA)) bA 0 in Ok (String quote (bits +:+ String quote ""))
  end.

(** bitArrayJSONRegexp: the text between the quotes. *)
Fixpoint match_bits (s : string) : option string :=
  match s with
  | "" => None
  | String c s =>
      if Ascii.eqb c quote then (if bool_decide (s = "") then Some "" else None)
      else if Ascii.eqb c "_" || Ascii.eqb c "x" then String c <$> match_bits s else None
  end.
Definition bitArrayJSONRegexp (s : string) : option string :=
  match s with String c s => if Ascii.eqb c quote then match_bits s else None | "" => None end.

Fixpoint set_bits (bits : string) (i : Z) (bA : option CompactBitArray) : outcome (option CompactBitArray) :=
  match bits with
  | "" => Ok bA
  | String c bits =>
      if Ascii.eqb c "x" then let* r := SetIndex bA i true in set_bits bits (i + 1) (fst r)
      else set_bits bits (i + 1) bA
  end.

(** The value the pointer receives. *)
Definition UnmarshalJSON (bz : string) : outcome CompactBitArray :=
  if bool_decide (bz = "null") then Ok (mkBitArray 0 []) else
  match bitArrayJSONRegexp bz with
  | None => Err (Errorf "bitArray in JSON should be a string of format")
  | Some bits =>
      let* bA2 := set_bits bits 0 (NewCompactBitArray (Z.of_nat (String.length bits))) in
      match bA2 with Some a => Ok a | None => Panic end
  end.

(** ** Specification *)

(** The bits of a byte, most significant first, and of all bytes. *)
Definition byte_bits (e : Z) : list bool := (fun i => Z.testbit e (7 - i)) <$> [0; 1; 2; 3; 4; 5; 6; 7].
Definition all_bits (l : list Z) : list bool := flat_map byte_bits l.

(** The bytes hold the bits. *)
Definition bitarray_ok (a : CompactBitArray) : Prop :=
  0 <= Count (Some a) <= 8 * Z.of_nat (length (Elems a)) /\ Forall (fun e => 0 <= e < 256) (Elems a).

Definition bits_of (a : CompactBitArray) : list bool := take (Z.to_nat (Count (Some a))) (all_bits (Elems a)).

Definition count_true (l : list bool) : Z := foldr (fun (b : bool) n => Z.b2z b + n) 0 l.

Lemma byte_bits_length e : length (byte_bits e) = 8%nat.
Proof. done. Qed.

Lemma all_bits_length l : length (all_bits l) = (8 * length l)%nat.
Proof. induction l as [|e l IH]; [done|]. cbn [all_bits flat_map]. rewrite length_app, byte_bits_length. fold (all_bits l). rewrite IH. cbn. lia. Qed.

Lemma bits_of_length a : bitarray_ok a -> Z.of_nat (length (bits_of a)) = Count (Some a).
Proof. intros [Hc _]. unfold bits_of. rewrite length_take, all_bits_length. lia. Qed.

Lemma count_true_app l l' : count_true (l ++ l') = count_true l + count_true l'.
Proof. induction l as [|b l IH]; cbn; [done|]. fold (count_true (l ++ l')) (count_true l). lia. Qed.

Lemma all_bits_lookup l i e : l !! (i / 8)%nat = Some e -> all_bits l !! i = Some (Z.testbit e (7 - Z.of_nat (i mod 8))).
Proof.
  revert i. induction l as [|e0 l IH]; intros i Hl; [done|]. cbn [all_bits flat_map].
  destruct (Nat.lt_ge_cases i 8) as [Hi|Hi].
  - rewrite lookup_app_l by (rewrite byte_bits_length; lia). rewrite Nat.div_small in Hl by lia. injection Hl as <-.
    rewrite Nat.mod_small by lia. do 8 (destruct i as [|i]; [reflexivity|]). lia.
  - rewrite lookup_app_r by (rewrite byte_bits_length; lia). rewrite byte_bits_length. fold (all_bits l).
    replace i with (8 + (i - 8))%nat in Hl by lia. replace (8 + (i - 8))%nat with ((i - 8) + 1 * 8)%nat in Hl by lia.
    rewrite Nat.div_add in Hl by lia. rewrite Nat.add_1_r in Hl. rewrite (IH _ Hl). do 3 f_equal.
    replace i with ((i - 8) + 1 * 8)%nat at 2 by lia. by rewrite Nat.Div0.mod_add.
Qed.

Lemma mask_bit e i : 0 <= i -> (0 <? Z.land e (bit_mask i)) = Z.testbit e (7 - Z.rem i 8).
Proof.
  intros Hi. unfold bit_mask. rewrite Z.shiftl_1_l. rewrite Z.rem_mod_nonneg by lia. pose proof (Z.mod_pos_bound i 8).
  set (k := 7 - i mod 8). assert (0 <= k) as Hk by lia.
  assert (Z.land e (2 ^ k) = if Z.testbit e k then 2 ^ k else 0) as ->.
  { apply Z.bits_inj'. intros n Hn. rewrite Z.land_spec, Z.pow2_bits_eqb by done. destruct (Z.testbit e k) eqn:E.
    - rewrite Z.pow2_bits_eqb by done. destruct (Z.eqb_spec k n) as [<-|]; [by rewrite E|by rewrite andb_false_r].
    - rewrite Z.bits_0. destruct (Z.eqb_spec k n) as [<-|]; [by rewrite E|by rewrite andb_false_r]. }
  pose proof (Z.pow_pos_nonneg 2 k). destruct (Z.testbit e k); [by apply Z.ltb_lt; lia|done].
Qed.

Lemma shiftr_3 i : 0 <= i -> Z.to_nat (Z.shiftr i 3) = (Z.to_nat i / 8)%nat.
Proof. intros Hi. rewrite Z.shiftr_div_pow2 by lia. change (2 ^ 3) with 8. rewrite Z2Nat.inj_div by lia. done. Qed.

(** Reading a bit, on any array: a panic when the byte is missing. *)
Lemma GetIndex_all a i : 0 <= i < Count (Some a) ->
  GetIndex (Some a) i = match all_bits (Elems a) !! Z.to_nat i with Some b => Ok b | None => Panic end.
Proof.
  intros Hi. unfold GetIndex. destruct (Z.ltb_spec i 0); [lia|]. destruct (Z.leb_spec (Count (Some a)) i); [lia|]. cbn [orb].
  unfold elem_at. rewrite shiftr_3 by lia. destruct (Elems a !! _) as [e|] eqn:Ee; cbn [obind].
  - rewrite (all_bits_lookup _ _ _ Ee), mask_bit by lia. do 3 f_equal. rewrite Z.rem_mod_nonneg by lia. by rewrite Nat2Z.inj_mod, Z2Nat.id by lia.
  - rewrite lookup_ge_None_2; [done|]. rewrite all_bits_length. apply lookup_ge_None in Ee.
    pose proof (Nat.Div0.mul_div_le (Z.to_nat i) 8). lia.
Qed.

Lemma GetIndex_spec a i : bitarray_ok a -> GetIndex (Some a) i = Ok (if i <? 0 then false else default false (bits_of a !! Z.to_nat i)).
Proof.
  intros Ha. pose proof Ha as [Hc _]. destruct (Z.ltb_spec i 0) as [Hi|Hi].
  - unfold GetIndex. by rewrite (proj2 (Z.ltb_lt i 0)).
  - destruct (Z.lt_ge_cases i (Count (Some a))) as [Hl|Hl].
    + rewrite GetIndex_all by lia. unfold bits_of. rewrite lookup_take_lt by lia.
      destruct (all_bits (Elems a) !! Z.to_nat i) eqn:E; [done|]. apply lookup_ge_None in E. rewrite all_bits_length in E. lia.
    + unfold GetIndex. rewrite (proj2 (Z.ltb_ge i 0)), (proj2 (Z.leb_le (Count (Some a)) i)) by done. cbn.
      rewrite lookup_ge_None_2; [done|]. pose proof (bits_of_length a Ha). lia.
Qed.

(** Counting the bits of a byte before one of its bits. *)
Lemma ones_spec e r : 0 <= e < 256 -> 0 <= r < 8 ->
  OnesCount8 (Z.shiftr e (7 - r + 1)) = count_true (take (Z.to_nat r) (byte_bits e)) /\ OnesCount8 e = count_true (byte_bits e).
Proof.
  intros He Hr.
  assert (forallb (fun e => forallb (fun r => (OnesCount8 (Z.shiftr (Z.of_nat e) (7 - Z.of_nat r + 1)) =? count_true (take r (byte_bits (Z.of_nat e))))
    && (OnesCount8 (Z.of_nat e) =? count_true (byte_bits (Z.of_nat e)))) (seq 0 8)) (seq 0 256) = true) as Hall by (vm_compute; reflexivity).
  rewrite forallb_forall in Hall. specialize (Hall (Z.to_nat e)). rewrite forallb_forall in Hall.
  specialize (Hall ltac:(apply in_seq; lia) (Z.to_nat r) ltac:(apply in_seq; lia)). rewrite !Z2Nat.id in Hall by lia.
  apply andb_true_iff in Hall as [H1%Z.eqb_eq H2%Z.eqb_eq]. by split.
Qed.

Lemma count_elems_spec l elem index n : Forall (fun e => 0 <= e < 256) l -> 0 <= elem -> 8 * elem <= index ->
  count_elems elem l index n = n + count_true (take (Z.to_nat (index - 8 * elem)) (all_bits l)).
Proof.
  intros Hl. revert elem n. induction Hl as [|e l He Hl IH]; intros elem n He0 Hi; cbn [count_elems].
  - cbn. rewrite take_nil. cbn. lia.
  - cbn [all_bits flat_map]. fold (all_bits l). destruct (Z.leb_spec index (elem * 8 + 7)) as [Hle|Hgt].
    + rewrite take_app_le by (rewrite byte_bits_length; lia). rewrite Z.rem_mod_nonneg by lia.
      assert (index mod 8 = index - 8 * elem) as -> by (symmetry; apply (Z.mod_unique _ _ elem); lia).
      destruct (ones_spec e (index - 8 * elem)) as [-> _]; [done|lia|lia].
    + rewrite IH by lia. destruct (ones_spec e 0) as [_ ->]; [done|lia|].
      rewrite take_app_ge by (rewrite byte_bits_length; lia). rewrite byte_bits_length, count_true_app.
      replace (Z.to_nat (index - 8 * elem) - 8)%nat with (Z.to_nat (index - 8 * (elem + 1))) by lia. lia.
Qed.

(** NumTrueBitsBefore counts. *)
Lemma NumTrueBitsBefore_spec a index : bitarray_ok a -> 0 <= index ->
  NumTrueBitsBefore (Some a) index = Ok (count_true (take (Z.to_nat index) (bits_of a))).
Proof.
  intros [Hc Hl] Hi. unfold NumTrueBitsBefore. f_equal. rewrite count_elems_spec by (done || destruct (Z.ltb_spec (Count (Some a)) index); lia).
  unfold bits_of. rewrite take_take, Z.add_0_l, Z.sub_0_r. do 2 f_equal. destruct (Z.ltb_spec (Count (Some a)) index); lia.
Qed.

Lemma set_bit_bits e i (v : bool) : 0 <= e < 256 -> (i < 8)%nat ->
  let e' := if v then Z.lor e (bit_mask (Z.of_nat i)) else Z.land e (Z.lxor 255 (bit_mask (Z.of_nat i))) in
  0 <= e' < 256 /\ byte_bits e' = <[i := v]> (byte_bits e).
Proof.
  intros He Hi.
  assert (forallb (fun e => forallb (fun i => forallb (fun v : bool =>
    let e := Z.of_nat e in let e' := if v then Z.lor e (bit_mask (Z.of_nat i)) else Z.land e (Z.lxor 255 (bit_mask (Z.of_nat i))) in
    (0 <=? e') && (e' <? 256) && bool_decide (byte_bits e' = <[i := v]> (byte_bits e))) [true; false]) (seq 0 8)) (seq 0 256) = true) as Hall by (vm_compute; reflexivity).
  rewrite forallb_forall in Hall. specialize (Hall (Z.to_nat e) ltac:(apply in_seq; lia)). rewrite forallb_forall in Hall.
  specialize (Hall i ltac:(apply in_seq; lia)). rewrite forallb_forall in Hall. specialize (Hall v ltac:(destruct v; cbn; auto)).
  rewrite Z2Nat.id in Hall by lia. cbv zeta in *. apply andb_true_iff in Hall as [[H1%Z.leb_le H2%Z.ltb_lt]%andb_true_iff H3]. apply bool_decide_eq_true in H3. done.
Qed.

Lemma all_bits_insert l i e (v : bool) : l !! (i / 8)%nat = Some e -> Forall (fun e => 0 <= e < 256) l ->
  let e' := if v then Z.lor e (bit_mask (Z.of_nat i)) else Z.land e (Z.lxor 255 (bit_mask (Z.of_nat i))) in
  all_bits (<[(i / 8)%nat := e']> l) = <[i := v]> (all_bits l) /\ Forall (fun e => 0 <= e < 256) (<[(i / 8)%nat := e']> l).
Proof.
  intros Hl Hf. assert (bit_mask (Z.of_nat i) = bit_mask (Z.of_nat (i mod 8))) as ->.
  { unfold bit_mask. rewrite !Z.rem_mod_nonneg by lia. rewrite !Nat2Z.inj_mod. rewrite Z.mod_mod by lia. done. }
  cbv zeta. set (e' := (if v then _ else _ : Z)).
  assert (0 <= e < 256) as He by (rewrite Forall_lookup in Hf; eauto).
  destruct (set_bit_bits e (i mod 8) v He) as [Hr Hb]; [apply Nat.mod_upper_bound; lia|]. fold e' in Hr, Hb.
  split; [|apply Forall_insert; done]. clear Hf. pose proof (Nat.div_mod i 8 ltac:(lia)) as Hdm.
  clearbody e'. revert Hl Hdm. generalize (i / 8)%nat as q. intros q. revert i l Hb. induction q as [|q IH]; intros i l Hb Hl Hdm; destruct l as [|e0 l]; [done| |done|].
  - injection Hl as ->. cbn [insert list_insert all_bits flat_map]. fold (all_bits l). rewrite Hb.
    rewrite Nat.mul_0_r, Nat.add_0_l in Hdm. rewrite insert_app_l by (rewrite byte_bits_length, Hdm; apply Nat.mod_upper_bound; lia).
    by rewrite <- Hdm.
  - cbn [insert list_insert all_bits flat_map]. fold (all_bits l) (all_bits (<[q := e']> l)).
    rewrite insert_app_r_alt by (rewrite byte_bits_length; lia). f_equal. rewrite byte_bits_length.
    rewrite <- (IH (i - 8)%nat); [done| |done|].
    + by rewrite Hb; replace i with ((i - 8) + 1 * 8)%nat at 1 by lia; rewrite Nat.Div0.mod_add.
    + replace i with ((i - 8) + 1 * 8)%nat in Hdm at 2 by lia. rewrite Nat.Div0.mod_add in Hdm. lia.
Qed.

(** SetIndex writes one bit. *)
Lemma SetIndex_spec a i v : bitarray_ok a -> 0 <= i < Count (Some a) ->
  exists a', SetIndex (Some a) i v = Ok (Some a', true) /\ bitarray_ok a' /\ Count (Some a') = Count (Some a) /\ bits_of a' = <[Z.to_nat i := v]> (bits_of a).
Proof.
  intros [Hc Hl] Hi. unfold SetIndex. destruct (Z.ltb_spec i 0); [lia|]. destruct (Z.leb_spec (Count (Some a)) i); [lia|]. cbn [orb].
  unfold elem_at. rewrite shiftr_3 by lia. assert (is_Some (Elems a !! (Z.to_nat i / 8)%nat)) as [e Ee].
  { apply lookup_lt_is_Some. apply Nat.Div0.div_lt_upper_bound. lia. }
  rewrite Ee. cbn [obind]. set (e' := (if v then _ else _ : Z)).
  destruct (all_bits_insert (Elems a) (Z.to_nat i) e v Ee Hl) as [Hb Hf]. rewrite Z2Nat.id in Hb, Hf by lia. fold e' in Hb, Hf.
  set (a' := mkBitArray (ExtraBitsStored a) (<[(Z.to_nat i / 8)%nat := e']> (Elems a))).
  assert (Count (Some a') = Count (Some a)) as Ec by (unfold Count, a'; cbn; by rewrite length_insert).
  exists a'. split_and!; [done| |done|].
  - split; [|done]. rewrite Ec. unfold a'. cbn. by rewrite length_insert.
  - unfold bits_of. rewrite Ec. unfold a' at 1. cbn [Elems]. by rewrite Hb, take_insert_lt by lia.
Qed.

Lemma NewCompactBitArray_spec n : 0 < n < 17179869176 ->
  exists a, NewCompactBitArray n = Some a /\ bitarray_ok a /\ Count (Some a) = n /\ bits_of a = replicate (Z.to_nat n) false.
Proof.
  intros Hn. unfold NewCompactBitArray. destruct (Z.leb_spec n 0); [lia|]. rewrite wrap_i64_id by (unfold in_i64, two63; lia).
  rewrite Z.quot_div_nonneg by lia. pose proof (Z.div_mod (n + 7) 8). pose proof (Z.mod_pos_bound (n + 7) 8).
  destruct (Z.leb_spec ((n + 7) / 8) 0); [lia|]. destruct (Z.ltb_spec 2147483647 ((n + 7) / 8)); [lia|]. cbn [orb]. eexists. split; [done|].
  assert (Count (Some (mkBitArray (Z.rem n 8) (repeat 0 (Z.to_nat ((n + 7) / 8))))) = n) as Ec.
  { unfold Count. cbn [Elems ExtraBitsStored]. rewrite repeat_length, Z.rem_mod_nonneg by lia.
    pose proof (Z.div_mod n 8). pose proof (Z.mod_pos_bound n 8). destruct (Z.eqb_spec (n mod 8) 0); rewrite Z2Nat.id by lia; lia. }
  split_and!; [|done|].
  - split; [rewrite Ec; cbn; rewrite repeat_length; lia|]. cbn. apply Forall_forall. intros x Hx%list_elem_of_In%repeat_spec. lia.
  - unfold bits_of. rewrite Ec. cbn [Elems]. assert (forall k, all_bits (repeat 0 k) = replicate (8 * k) false) as ->.
    { induction k as [|k IH]; [done|]. cbn [repeat all_bits flat_map]. fold (all_bits (repeat 0 k)). rewrite IH.
      replace (8 * S k)%nat with (8 + 8 * k)%nat by lia. rewrite replicate_add. done. }
    rewrite take_replicate. f_equal. lia.
Qed.

(** *** The JSON form *)

Definition bit_char (b : bool) : ascii := if b then "x"%char else "_"%char.
Fixpoint bits_string (l : list bool) : string := match l with [] => "" | b :: l => String (bit_char b) (bits_string l) end.

Lemma json_bits_spec a n i : bitarray_ok a -> Z.of_nat (i + n) <= Count (Some a) ->
  json_bits n (Some a) (Z.of_nat i) = Ok (bits_string (take n (drop i (bits_of a)))).
Proof.
  intros Ha. revert i. induction n as [|n IH]; intros i Hi; [done|]. cbn [json_bits]. pose proof (bits_of_length a Ha) as Hlen.
  destruct (lookup_lt_is_Some_2 (bits_of a) i) as [b Eb]; [lia|].
  rewrite GetIndex_spec, (proj2 (Z.ltb_ge (Z.of_nat i) 0)), Nat2Z.id, Eb by (done || lia). cbn [default obind].
  replace (Z.of_nat i + 1) with (Z.of_nat (S i)) by lia. rewrite IH by lia. cbn [obind].
  by rewrite (drop_S _ b i) by done.
Qed.

Lemma match_bits_string l : match_bits (bits_string l +:+ String quote "") = Some (bits_string l).
Proof.
  induction l as [|b l IH]; [done|]. cbn [bits_string]. rewrite string_app_cons. cbn [match_bits].
  by destruct b; cbn [bit_char Ascii.eqb orb]; rewrite IH.
Qed.

Lemma bits_string_length l : String.length (bits_string l) = length l.
Proof. induction l as [|b l IH]; [done|]. cbn. by rewrite IH. Qed.

Lemma set_bits_spec l a pre : bitarray_ok a -> bits_of a = pre ++ replicate (length l) false ->
  exists a', set_bits (bits_string l) (Z.of_nat (length pre)) (Some a) = Ok (Some a') /\ bits_of a' = pre ++ l /\ Count (Some a') = Count (Some a).
Proof.
  revert a pre. induction l as [|b l IH]; intros a pre Ha Hb; cbn [bits_string set_bits]; [by exists a|].
  pose proof (bits_of_length a Ha) as Hlen. rewrite Hb in Hlen. cbn [length replicate] in *. rewrite length_app in Hlen. cbn [length] in Hlen. rewrite length_replicate in Hlen.
  assert (forall a', bitarray_ok a' -> bits_of a' = pre ++ b :: replicate (length l) false -> Count (Some a') = Count (Some a) ->
    exists a2, set_bits (bits_string l) (Z.of_nat (length pre) + 1) (Some a') = Ok (Some a2) /\ bits_of a2 = pre ++ b :: l /\ Count (Some a2) = Count (Some a)) as Hrest.
  { intros a' Ha' Hb' Hc'. destruct (IH a' (pre ++ [b]) Ha') as (a2 & E & Hb2 & Hc2); [by rewrite Hb', <- app_assoc|].
    exists a2. rewrite length_app in E. cbn [length] in E. rewrite Nat2Z.inj_add in E. split_and!; [exact E|by rewrite Hb2, <- app_assoc|by rewrite Hc2]. }
  destruct b; cbn [bit_char Ascii.eqb].
  - destruct (SetIndex_spec a (Z.of_nat (length pre)) true Ha) as (a' & E & Ha' & Hc' & Hb'); [lia|].
    change (Ascii.eqb "x" "x") with true. cbn iota. rewrite E. cbn [obind fst]. apply Hrest; [done| |done].
    rewrite Hb', Hb, Nat2Z.id. rewrite insert_app_r_alt by lia. by rewrite Nat.sub_diag.
  - change (Ascii.eqb "_" "x") with false. cbn iota. by apply Hrest.
Qed.

(** The JSON form of bit arrays.  Any array whose bytes hold its bits is
    printed, and unless it has no bits at all, reading the text back gives an
    array with the same bits; on the text of an array without bits
    UnmarshalJSON dereferences nil. *)
Theorem bitarray_json_roundtrip a : bitarray_ok a -> Count (Some a) < 17179869176 ->
  exists s, MarshalJSON (Some a) = Ok s /\
    if bool_decide (bits_of a = []) then UnmarshalJSON s = Panic
    else exists a', UnmarshalJSON s = Ok a' /\ bits_of a' = bits_of a /\ Count (Some a') = Count (Some a).
Proof.
  intros Ha Hc. pose proof (bits_of_length a Ha) as Hlen.
  pose proof (json_bits_spec a (Z.to_nat (Count (Some a))) 0 Ha ltac:(destruct Ha; lia)) as Ej.
  rewrite drop_0, take_ge in Ej by lia. change (Z.of_nat 0) with 0 in Ej.
  unfold MarshalJSON. rewrite Ej. cbn [obind]. eexists. split; [done|].
  assert (forall l, UnmarshalJSON (String quote (bits_string l +:+ String quote "")) =
    let* bA2 := set_bits (bits_string l) 0 (NewCompactBitArray (Z.of_nat (length l))) in match bA2 with Some a => Ok a | None => Panic end) as Eu.
  { intros l. unfold UnmarshalJSON. rewrite bool_decide_false by done. cbn [bitArrayJSONRegexp]. change (Ascii.eqb quote quote) with true. cbn iota.
    by rewrite match_bits_string, bits_string_length. }
  rewrite Eu. case_bool_decide as E.
  - by rewrite E.
  - assert (0 < Z.of_nat (length (bits_of a))) by (destruct (bits_of a); [done|cbn; lia]).
    destruct (NewCompactBitArray_spec (Z.of_nat (length (bits_of a)))) as (a0 & -> & Ha0 & Hc0 & Hb0); [lia|].
    destruct (set_bits_spec (bits_of a) a0 [] Ha0) as (a' & Es & Hb' & Hc'); [rewrite Hb0, Nat2Z.id; done|].
    change (Z.of_nat (@length bool [])) with 0 in Es. rewrite Es. cbn [obind]. exists a'. split_and!; [done|done|]. by rewrite Hc', Hc0, Hlen.
Qed.

Lemma bitarray_json_roundtrip_witness :
  exists s, MarshalJSON (Some (mkBitArray 3 [160])) = Ok s /\
    exists a', UnmarshalJSON s = Ok a' /\ bits_of a' = [true; false; true] /\ Count (Some a') = 3.
Proof.
  destruct (bitarray_json_roundtrip (mkBitArray 3 [160])) as (s & E & H).
  - split; [cbn; lia|]. constructor; [lia|constructor].
  - reflexivity.
  - exists s. split; [exact E|]. rewrite bool_decide_false in H by (vm_compute; discriminate).
    destruct H as (a' & Eu & Hb & Hc). exists a'. split; [exact Eu|]. split; [rewrite Hb; reflexivity|rewrite Hc; reflexivity].
Defined.
