(* ===== verification/Gas.v ===== *)
(** Gas: the gas meters of cosmos-sdk/store/types/gas.go and the metered stores
    of cosmos-sdk/store/gaskv/store.go.

    Every module reads and writes its store through a metered one.  A meter
    panics when its limit is passed; since the outcome [Panic] has no value,
    the value of the panic a meter raised is kept in it ([raised]), which is
    what recovering code looks at.

    Theorem: a client of a metered store does exactly what it does on the
    parent, and pays [prog_gas], whenever the meter has that much left, and
    otherwise panics. *)

From Stdlib Require Import ZArith Lia Ascii String.
From stdpp Require Import base gmap sets list strings fin_maps.
From S2P Require Import Prelude KVStore.

Open Scope Z_scope.
Open Scope go_scope.

(** ** Gas meters *)

Inductive gas_panic : Type := ErrorOutOfGas | ErrorGasOverflow | ErrorNegativeGasConsumed.

#[export] Instance gas_panic_eq_dec : EqDecision gas_panic.
Proof. solve_decision. Defined.

(** basicGasMeter, and infiniteGasMeter when there is no limit. *)
Record GasMeter : Type := mkMeter {
  limit : option Z;
  consumed : Z;
  raised : option gas_panic;
}.

Definition NewGasMeter (l : Z) : GasMeter := mkMeter (Some l) 0 None.
Definition NewInfiniteGasMeter : GasMeter := mkMeter None 0 None.

Definition Limit (g : GasMeter) : Z := match limit g with Some l => l | None => two64 - 1 end.
Definition GasConsumed (g : GasMeter) : Z := consumed g.
Definition IsPastLimit (g : GasMeter) : bool := match limit g with Some l => l <? consumed g | None => false end.
Definition IsOutOfGas (g : GasMeter) : bool := match limit g with Some l => l <=? consumed g | None => false end.
Definition GasRemaining (g : GasMeter) : Z :=
  match limit g with Some l => if IsPastLimit g then 0 else wrap_u64 (l - consumed g) | None => two64 - 1 end.
Definition GasConsumedToLimit (g : GasMeter) : Z :=
  match limit g with Some l => if IsPastLimit g then l else consumed g | None => consumed g end.

Definition addUint64Overflow (a b : Z) : Z * bool := if two64 - 1 - a <? b then (0, true) else (a + b, false).

Definition set_consumed (c : Z) (g : GasMeter) : GasMeter := mkMeter (limit g) c (raised g).
Definition raise {A} (p : gas_panic) : M GasMeter A := fun g => (Panic, mkMeter (limit g) (consumed g) (Some p)).

Definition ConsumeGas (amount : Z) : M GasMeter unit :=
  let! g := get in
  let '(c, overflow) := addUint64Overflow (consumed g) amount in
  match limit g with
  | Some l =>
      if overflow then modify (set_consumed (two64 - 1)) ;;! raise ErrorGasOverflow else
      modify (set_consumed c) ;;!
      if l <? c then raise ErrorOutOfGas else ret tt
  | None =>
      modify (set_consumed c) ;;!
      if overflow then raise ErrorGasOverflow else ret tt
  end.

Definition RefundGas (amount : Z) : M GasMeter unit :=
  let! g := get in
  if consumed g <? amount then raise ErrorNegativeGasConsumed else modify (set_consumed (consumed g - amount)).

(** A meter that has not panicked. *)
Definition meter_ok (g : GasMeter) : Prop := raised g = None /\ 0 <= consumed g <= Limit g /\ Limit g < two64.

Definition spend (n : Z) (g : GasMeter) : GasMeter := set_consumed (consumed g + n) g.

Lemma ConsumeGas_run n g : meter_ok g -> 0 <= n -> consumed g + n <= Limit g -> ConsumeGas n g = (Ok tt, spend n g) /\ meter_ok (spend n g).
Proof.
  intros (Hr & Hc & Hl) Hn Hle. split.
  - unfold ConsumeGas, addUint64Overflow, Limit in *. unfold bind at 1, get. destruct (Z.ltb_spec (two64 - 1 - consumed g) n); [destruct (limit g); lia|].
    destruct (limit g) as [l|]; [|reflexivity]. unfold bind, modify. destruct (Z.ltb_spec l (consumed g + n)); [lia|reflexivity].
  - unfold meter_ok, spend, Limit in *. cbn. split_and!; (done || lia).
Qed.

Lemma ConsumeGas_out n g : meter_ok g -> 0 <= n -> Limit g < consumed g + n -> exists g', ConsumeGas n g = (Panic, g') /\ raised g' <> None.
Proof.
  intros (Hr & Hc & Hl) Hn Hlt. unfold ConsumeGas, addUint64Overflow, Limit in *. unfold bind at 1, get.
  destruct (Z.ltb_spec (two64 - 1 - consumed g) n); destruct (limit g) as [l|]; unfold bind, modify; try lia; try by eexists.
  destruct (Z.ltb_spec l (consumed g + n)); [by eexists|lia].
Qed.

(** What a successful charge says. *)
Lemma ConsumeGas_ok n g u g' : ConsumeGas n g = (Ok u, g') -> raised g = None ->
  g' = spend n g /\ consumed g' <= two64 - 1 /\ (forall l, limit g = Some l -> consumed g' <= l).
Proof.
  intros E Hr. unfold ConsumeGas, addUint64Overflow in E. unfold bind at 1, get in E. destruct (Z.ltb_spec (two64 - 1 - consumed g) n) as [?|Ho]; destruct (limit g) as [l|] eqn:El.
  - discriminate E.
  - discriminate E.
  - unfold bind, modify in E. destruct (Z.ltb_spec l (consumed g + n)) as [?|Hl]; [discriminate E|]. injection E as _ <-. cbn. split_and!; [done|lia|]. by intros ? [= <-].
  - injection E as _ <-. cbn. split_and!; [done|lia|done].
Qed.

(** ** Metered stores *)

Record GasConfig : Type := mkGasConfig {
  HasCost : Z;
  DeleteCost : Z;
  ReadCostFlat : Z;
  ReadCostPerByte : Z;
  WriteCostFlat : Z;
  WriteCostPerByte : Z;
  IterNextCostFlat : Z;
}.

Definition KVGasConfig : GasConfig := mkGasConfig 1000 1000 1000 3 2000 30 30.
Definition TransientGasConfig : GasConfig := mkGasConfig 100 100 100 0 200 3 3.

Definition len_gas (s : string) : Z := Z.of_nat (String.length s).
Definition value_gas (v : option string) : Z := match v with Some s => len_gas s | None => 0 end.

Module gaskv.
Section GasStore.
Context {S I : Type} `{KVStore S I} `{Iterator I} (gasConfig : GasConfig).

Record Store : Type := mkStore { parent : S; gasMeter : GasMeter }.

Definition on_parent {A} (c : M S A) : M Store A := fun gs => let '(r, p) := c (parent gs) in (r, mkStore p (gasMeter gs)).
Definition charge (amount : Z) : M Store unit := fun gs => let '(r, g) := ConsumeGas amount (gasMeter gs) in (r, mkStore (parent gs) g).

Definition Get (key : string) : M Store (option string) :=
  charge (ReadCostFlat gasConfig) ;;!
  let! value := on_parent (kv_Get key) in
  charge (wrap_u64 (ReadCostPerByte gasConfig * len_gas key)) ;;!
  charge (wrap_u64 (ReadCostPerByte gasConfig * value_gas value)) ;;!
  ret value.

Definition Set_ (key : string) (value : option string) : M Store unit :=
  AssertValidKey key ;;!
  AssertValidValue value ;;!
  charge (WriteCostFlat gasConfig) ;;!
  charge (wrap_u64 (WriteCostPerByte gasConfig * len_gas key)) ;;!
  charge (wrap_u64 (WriteCostPerByte gasConfig * value_gas value)) ;;!
  on_parent (kv_Set key value).

Definition Has (key : string) : M Store bool := charge (HasCost gasConfig) ;;! on_parent (kv_Has key).

Definition Delete (key : string) : M Store unit := charge (DeleteCost gasConfig) ;;! on_parent (kv_Delete key).

(** Of a gasIterator, the parent; its meter is the store's. *)
Definition consumeSeekGas (gi : I) : M Store unit :=
  (if it_Valid gi then
     let! key := lift (it_Key gi) in
     let! value := lift (it_Value gi) in
     charge (wrap_u64 (ReadCostPerByte gasConfig * len_gas key)) ;;!
     charge (wrap_u64 (ReadCostPerByte gasConfig * value_gas value))
   else ret tt) ;;!
  charge (IterNextCostFlat gasConfig).

Definition iterator (ascending : bool) (start end_ : bound) : M Store I :=
  let! gi := on_parent (kv_iterator ascending start end_) in
  consumeSeekGas gi ;;!
  ret gi.

Definition Next (gi : I) : M Store I := consumeSeekGas gi ;;! lift (it_Next gi).

(** A client's loop over a gasIterator, and a client. *)
Fixpoint gas_drain (fuel : nat) (gi : I) : M Store (list entry) :=
  if negb (it_Valid gi) then ret [] else
  match fuel with
  | O => panic
  | Datatypes.S fuel =>
      let! k := lift (it_Key gi) in
      let! v := lift (it_Value gi) in
      let! gi := Next gi in
      let! l := gas_drain fuel gi in
      ret ((k, v) :: l)
  end.

Definition gas_iterate (ascending : bool) (start end_ : bound) : M Store (list entry) :=
  let! gi := iterator ascending start end_ in gas_drain (it_size gi) gi.

Fixpoint gas_run {A} (p : prog A) : M Store A :=
  match p with
  | PRet a => ret a
  | PFail e => throw e
  | PPanic => panic
  | PGet key k => let! v := Get key in gas_run (k v)
  | PHas key k => let! b := Has key in gas_run (k b)
  | PSet key value k => Set_ key value ;;! gas_run k
  | PDelete key k => Delete key ;;! gas_run k
  | PIterate ascending start end_ k => let! l := gas_iterate ascending start end_ in gas_run (k l)
  end.
End GasStore.
Arguments mkStore {S} parent gasMeter.
Arguments parent {S} s.
Arguments gasMeter {S} s.

(** *** What a client pays *)

Section Costs.
Context (cfg : GasConfig).

Definition seek_gas (l : list entry) : Z :=
  match l with
  | [] => IterNextCostFlat cfg
  | (k, v) :: _ => wrap_u64 (ReadCostPerByte cfg * len_gas k) + wrap_u64 (ReadCostPerByte cfg * value_gas v) + IterNextCostFlat cfg
  end.

(** Leaving every entry of an iterator that has [l] left. *)
Fixpoint drain_gas (l : list entry) : Z :=
  match l with
  | [] => 0
  | kv :: l' => seek_gas l + drain_gas l'
  end.

(** The gas of a client on the contents [m]: opening an iterator charges its
    first entry, and leaving an entry charges it (again). *)
Fixpoint prog_gas {A} (p : prog A) (m : contents_map) : Z :=
  match p with
  | PRet _ | PFail _ | PPanic => 0
  | PGet key k =>
      ReadCostFlat cfg +
      if bool_decide (key = "") then 0 else
      wrap_u64 (ReadCostPerByte cfg * len_gas key) + wrap_u64 (ReadCostPerByte cfg * value_gas (m !! key)) + prog_gas (k (m !! key)) m
  | PHas key k =>
      HasCost cfg + if bool_decide (key = "") then 0 else prog_gas (k (bool_decide (m !! key <> None))) m
  | PSet key value k =>
      if bool_decide (key = "") then 0 else
      if bool_decide (value = None) then 0 else
      WriteCostFlat cfg + wrap_u64 (WriteCostPerByte cfg * len_gas key) + wrap_u64 (WriteCostPerByte cfg * value_gas value) +
      prog_gas k (partial_alter (fun _ => value) key m)
  | PDelete key k =>
      DeleteCost cfg + if bool_decide (key = "") then 0 else prog_gas k (delete key m)
  | PIterate ascending start end_ k =>
      let l := entries ascending start end_ m in
      seek_gas l + drain_gas l + prog_gas (k l) m
  end.

Definition config_ok : Prop :=
  0 <= HasCost cfg /\ 0 <= DeleteCost cfg /\ 0 <= ReadCostFlat cfg /\ 0 <= WriteCostFlat cfg /\ 0 <= IterNextCostFlat cfg.
End Costs.

Section GasLaws.
Context {S I : Type} `{KVStoreLaws S I inv contents holds} (cfg : GasConfig) (Hcfg : config_ok cfg).

(** [c] does what [d] does on the contents and pays [cost], or, when the meter
    has not as much left, panics. *)
Definition metered {A} (c : M Store A) (d : M contents_map A) (cost : contents_map -> Z) : Prop :=
  (forall m, 0 <= cost m) /\
  forall gs, inv (parent gs) -> meter_ok (gasMeter gs) ->
    let m := contents (parent gs) in
    (consumed (gasMeter gs) + cost m <= Limit (gasMeter gs) ->
       exists s', c gs = (fst (d m), mkStore s' (spend (cost m) (gasMeter gs))) /\ inv s' /\ contents s' = snd (d m)) /\
    (Limit (gasMeter gs) < consumed (gasMeter gs) + cost m -> exists gs', c gs = (Panic, gs') /\ raised (gasMeter gs') <> None).

Lemma spend_0 g : spend 0 g = g.
Proof. unfold spend, set_consumed. rewrite Z.add_0_r. by destruct g. Qed.

Lemma spend_spend a b g : spend b (spend a g) = spend (a + b) g.
Proof. unfold spend, set_consumed. cbn. f_equal. lia. Qed.

Lemma metered_ext {A} (c : M Store A) d cost d' cost' :
  metered c d cost -> (forall m, d' m = d m) -> (forall m, cost' m = cost m) -> metered c d' cost'.
Proof.
  intros [Hn Hc] Ed En. split; [intros m; rewrite En; apply Hn|]. intros gs Hs Hg m. rewrite Ed, En. by apply Hc.
Qed.

(** Code without charges. *)
Lemma metered_free {A} (c : M Store A) d :
  (forall gs, inv (parent gs) -> exists s', c gs = (fst (d (contents (parent gs))), mkStore s' (gasMeter gs)) /\ inv s' /\ contents s' = snd (d (contents (parent gs)))) ->
  metered c d (fun _ => 0).
Proof.
  intros Hc. split; [done|]. intros gs Hs Hg m. split; [|destruct Hg as (? & ? & ?); lia]. intros _. rewrite spend_0. by apply Hc.
Qed.

Lemma metered_parent {A} (c : M S A) d : refines inv contents c d -> metered (on_parent c) d (fun _ => 0).
Proof. intros Hc. apply metered_free. intros gs Hs. destruct (Hc _ Hs) as (s' & E & ? & ?). exists s'. unfold on_parent. by rewrite E. Qed.

Lemma metered_lift {A} (o : outcome A) : metered (lift o) (lift o) (fun _ => 0).
Proof. apply metered_free. intros [p g] Hs. by exists p. Qed.

Lemma metered_charge n : 0 <= n -> metered (charge n) (ret tt) (fun _ => n).
Proof.
  intros Hn. split; [done|]. intros [p g] Hs Hg m. cbn in *. split; unfold charge; cbn [parent gasMeter].
  - intros Hle. destruct (ConsumeGas_run n g Hg Hn Hle) as [-> _]. by exists p.
  - intros Hlt. destruct (ConsumeGas_out n g Hg Hn Hlt) as (g' & -> & Hr). by exists (mkStore p g').
Qed.

Lemma metered_bind {A B} (c : M Store A) d cost (k : A -> M Store B) l costk :
  metered c d cost -> (forall a m m', d m = (Ok a, m') -> metered (k a) (l a) (costk a)) ->
  metered (bind c k) (bind d l) (fun m => cost m + match d m with (Ok a, m') => costk a m' | _ => 0 end).
Proof.
  intros [Hn Hc] Hk.
  assert (forall m, 0 <= match d m with (Ok a, m') => costk a m' | _ => 0 end) as Hnk by (intros m; destruct (d m) as [[a|e|] m'] eqn:Ed; [eapply Hk, Ed|done..]).
  split; [intros m; specialize (Hn m); specialize (Hnk m); lia|]. intros gs Hs Hg m.
  destruct (Hc gs Hs Hg) as (Hin & Hout). fold m in Hin, Hout. specialize (Hn m). specialize (Hnk m). unfold bind.
  destruct (Z.le_gt_cases (consumed (gasMeter gs) + cost m) (Limit (gasMeter gs))) as [Hle|Hgt].
  - destruct (Hin Hle) as (s' & E & Hs' & Ec). destruct (ConsumeGas_run _ _ Hg Hn Hle) as [_ Hg']. rewrite E.
    destruct (d m) as [[a|e|] m'] eqn:Ed; cbn [fst snd] in *.
    + destruct (Hk a m m' Ed) as [_ Hka]. destruct (Hka (mkStore s' (spend (cost m) (gasMeter gs))) Hs' Hg') as (Hin' & Hout'). cbn [parent gasMeter] in *.
      rewrite Ec in *. change (Limit (spend _ ?g)) with (Limit g) in *. cbn [consumed spend set_consumed] in Hin', Hout'.
      split; intros Ht; [|apply Hout'; cbn; lia].
      destruct Hin' as (s2 & E2 & ?); [cbn; lia|]. exists s2. by rewrite E2, spend_spend.
    + split; intros; [exists s'; by rewrite Z.add_0_r|lia].
    + split; intros; [exists s'; by rewrite Z.add_0_r|lia].
  - destruct (Hout Hgt) as (gs' & E & Hr). rewrite E. split; [lia|eauto].
Qed.

Lemma wrap_nonneg a : 0 <= wrap_u64 a.
Proof. unfold wrap_u64, two64. by apply Z.mod_pos_bound. Qed.

Lemma metered_then {A} n (c : M Store A) d cost : 0 <= n -> metered c d cost -> metered (charge n ;;! c) d (fun m => n + cost m).
Proof. intros Hn Hc. eapply metered_ext; [apply metered_bind; [by apply metered_charge|intros ? ? ? ?; exact Hc]|done|done]. Qed.

Lemma metered_ret {A} (a : A) : metered (ret a) (ret a) (fun _ => 0).
Proof. apply (metered_lift (Ok a)). Qed.

(** A step whose result is known. *)
Lemma metered_known {A B} (c : M Store A) (a : A) n (k : A -> M Store B) d costk :
  metered c (ret a) (fun _ => n) -> metered (k a) d costk -> metered (bind c k) d (fun m => n + costk m).
Proof.
  intros Hc Hk. eapply metered_ext; [apply (metered_bind c (ret a) (fun _ => n) k (fun _ => d) (fun _ => costk)); [done|]|done|done].
  intros a' m m' [= <- <-]. exact Hk.
Qed.

Lemma metered_Get key : metered (Get cfg key) (map_Get key)
  (fun m => ReadCostFlat cfg + if bool_decide (key = "") then 0 else
     wrap_u64 (ReadCostPerByte cfg * len_gas key) + wrap_u64 (ReadCostPerByte cfg * value_gas (m !! key))).
Proof.
  pose proof Hcfg as (_ & _ & ? & _). apply metered_then; [done|].
  eapply metered_ext.
  - eapply metered_bind; [apply metered_parent, kv_Get_refines|]. intros v _ _ _. apply metered_then; [apply wrap_nonneg|]. apply metered_then; [apply wrap_nonneg|apply metered_ret].
  - intros m. unfold map_Get, AssertValidKey, bind, reads, panic, ret. by case_bool_decide.
  - intros m. unfold map_Get, AssertValidKey, bind, reads, panic, ret. case_bool_decide; cbn; [done|].
    by rewrite Z.add_0_r, Z.add_0_l.
Qed.

Lemma metered_Has key : metered (Has cfg key) (map_Has key) (fun _ => HasCost cfg).
Proof.
  pose proof Hcfg as (? & _). eapply metered_ext; [apply metered_then; [done|apply metered_parent, kv_Has_refines]|done|]. intros m. cbn. lia.
Qed.

Lemma metered_Delete key : metered (Delete cfg key) (map_Delete key) (fun _ => DeleteCost cfg).
Proof.
  pose proof Hcfg as (_ & ? & _). eapply metered_ext; [apply metered_then; [done|apply metered_parent, kv_Delete_refines]|done|]. intros m. cbn. lia.
Qed.

Lemma metered_Set key value : metered (Set_ cfg key value) (map_Set key value)
  (fun m => if bool_decide (key = "") then 0 else if bool_decide (value = None) then 0 else
     WriteCostFlat cfg + wrap_u64 (WriteCostPerByte cfg * len_gas key) + wrap_u64 (WriteCostPerByte cfg * value_gas value)).
Proof.
  pose proof Hcfg as (_ & _ & _ & ? & _). unfold Set_, map_Set, AssertValidKey, AssertValidValue.
  case_bool_decide as Ek; [apply (metered_lift (A := unit) Panic)|]. case_bool_decide as Ev; [apply (metered_lift (A := unit) Panic)|].
  eapply metered_ext.
  - apply (metered_then (WriteCostFlat cfg)); [done|]. apply metered_then; [apply wrap_nonneg|]. apply metered_then; [apply wrap_nonneg|].
    apply metered_parent, kv_Set_refines.
  - intros m. unfold map_Set, AssertValidKey, AssertValidValue. by rewrite !bool_decide_false.
  - intros m. cbn. lia.
Qed.

(** *** Iterators *)

Lemma consumeSeekGas_metered gi l : holds gi l -> metered (consumeSeekGas cfg gi) (ret tt) (fun _ => seek_gas cfg l).
Proof.
  pose proof Hcfg as (_ & _ & _ & _ & ?). intros Hl. unfold consumeSeekGas. rewrite (holds_valid _ _ Hl).
  destruct l as [|[k v] l]; cbn [bool_decide].
  - rewrite bool_decide_false by naive_solver. eapply metered_ext; [apply (metered_known _ tt 0); [apply metered_ret|by apply metered_charge]|done|done].
  - rewrite bool_decide_true by done. destruct (holds_head _ _ _ _ Hl) as (-> & -> & _).
    apply (metered_known _ tt _ _ _ (fun _ => IterNextCostFlat cfg)); [|by apply metered_charge].
    apply (metered_known (lift (Ok k)) k 0 _ _ (fun _ => _)); [apply (metered_lift (Ok k))|].
    apply (metered_known (lift (Ok v)) v 0 _ _ (fun _ => _)); [apply (metered_lift (Ok v))|].
    apply (metered_then _ _ _ (fun _ => _)); [apply wrap_nonneg|]. apply metered_charge, wrap_nonneg.
Qed.

Lemma gas_drain_metered fuel gi l : holds gi l -> (length l <= fuel)%nat ->
  metered (gas_drain cfg fuel gi) (ret l) (fun _ => drain_gas cfg l).
Proof.
  revert gi l. induction fuel as [|fuel IH]; intros gi [|[k v] l] Hl Hle; cbn in Hle; try lia; cbn [gas_drain]; rewrite (holds_valid _ _ Hl).
  - apply metered_ret.
  - apply metered_ret.
  - rewrite bool_decide_true by done. cbn [negb]. destruct (holds_head _ _ _ _ Hl) as (-> & -> & gi' & En & Hl').
    eapply metered_ext; [|done|].
    + apply (metered_known _ k 0); [apply (metered_lift (Ok k))|]. apply (metered_known _ v 0); [apply (metered_lift (Ok v))|].
      eapply (metered_known _ gi').
      * unfold Next. rewrite En. apply (metered_known _ tt (seek_gas cfg ((k, v) :: l)) _ _ (fun _ => 0)); [by apply consumeSeekGas_metered|apply (metered_lift (Ok gi'))].
      * eapply (metered_known _ l); [apply IH; [done|lia]|apply metered_ret].
    + intros m. cbn. lia.
Qed.

Lemma gas_iterate_metered asc start end_ : bounds_ok start end_ ->
  metered (gas_iterate cfg asc start end_) (reads (entries asc start end_))
    (fun m => seek_gas cfg (entries asc start end_ m) + drain_gas cfg (entries asc start end_ m)).
Proof.
  intros Hb. assert (forall l, 0 <= seek_gas cfg l) as Hseek.
  { pose proof Hcfg as (_ & _ & _ & _ & ?). intros [|[k v] l]; cbn; [done|]. pose proof (wrap_nonneg (ReadCostPerByte cfg * len_gas k)). pose proof (wrap_nonneg (ReadCostPerByte cfg * value_gas v)). lia. }
  assert (forall l, 0 <= drain_gas cfg l) as Hdrain.
  { induction l as [|kv l IH]; [done|]. cbn [drain_gas]. specialize (Hseek (kv :: l)). lia. }
  split; [intros m; specialize (Hseek (entries asc start end_ m)); specialize (Hdrain (entries asc start end_ m)); lia|].
  intros [s g] Hs Hg m. cbn [parent gasMeter] in *. destruct (kv_iterator_holds asc start end_ s Hs Hb) as (i & s' & Ei & Hs' & Ec & Hi). fold m in Hi.
  assert (metered (consumeSeekGas cfg i ;;! gas_drain cfg (it_size i) i) (ret (entries asc start end_ m))
    (fun _ => seek_gas cfg (entries asc start end_ m) + drain_gas cfg (entries asc start end_ m))) as [_ Hm].
  { apply (metered_known _ tt _ _ _ (fun _ => drain_gas cfg _)); [by apply consumeSeekGas_metered|]. apply gas_drain_metered; [done|by apply holds_size]. }
  specialize (Hm (mkStore s' g) Hs' Hg). cbn [parent gasMeter] in Hm. rewrite Ec in Hm. fold m in Hm.
  assert (gas_iterate cfg asc start end_ (mkStore s g) = (consumeSeekGas cfg i ;;! gas_drain cfg (it_size i) i) (mkStore s' g)) as ->; [|exact Hm].
  unfold gas_iterate, iterator, on_parent, bind, ret. cbn [parent gasMeter]. rewrite Ei. by destruct (consumeSeekGas cfg i (mkStore s' g)) as [[[]|e|] ?].
Qed.

(** *** Clients *)

(** Clients of metered stores.  On a metered store over any lawful store,
    a client whose meter has at least [prog_gas] left does what it does on the
    parent, returns the same, and pays exactly [prog_gas]; with less it panics
    with the meter's own panic. *)
Theorem gas_run_metered {A} (p : prog A) s g : prog_ok p -> inv s -> meter_ok g ->
  let m := contents s in
  if consumed g + prog_gas cfg p m <=? Limit g then (
    exists s', gas_run cfg p (mkStore s g) = (fst (run p s), mkStore s' (spend (prog_gas cfg p m) g)) /\ inv s' /\
      contents s' = contents (snd (run p s)) /\ meter_ok (spend (prog_gas cfg p m) g))
  else (exists gs', gas_run cfg p (mkStore s g) = (Panic, gs') /\ raised (gasMeter gs') <> None).
Proof.
  intros Hok Hs Hg m. assert (metered (gas_run cfg p) (run p) (prog_gas cfg p)) as [Hn Hm].
  { clear s g Hs Hg m. pose proof Hcfg as (? & ? & ? & ? & ?). induction p as [| | |key k IH|key k IH|key v k IH|key k IH|asc start end_ k IH]; cbn [prog_ok gas_run run] in *.
    - apply metered_ret.
    - apply (metered_lift (Err e)).
    - apply (metered_lift Panic).
    - eapply metered_ext; [eapply metered_bind; [apply metered_Get|intros v _ _ _; apply IH, Hok]|done|].
      intros m. cbn [prog_gas]. unfold map_Get, AssertValidKey, bind, reads, panic, ret. case_bool_decide; cbn; [lia|]. by rewrite Z.add_assoc.
    - eapply metered_ext; [eapply metered_bind; [apply metered_Has|intros v _ _ _; apply IH, Hok]|done|].
      intros m. cbn [prog_gas]. unfold map_Has, AssertValidKey, bind, reads, panic, ret. case_bool_decide; cbn; lia.
    - eapply metered_ext; [eapply metered_bind; [apply metered_Set|intros ? ? ? ?; apply IH, Hok]|done|].
      intros m. cbn [prog_gas]. unfold map_Set, AssertValidKey, AssertValidValue, bind, modify, panic, ret. repeat case_bool_decide; cbn; lia.
    - eapply metered_ext; [eapply metered_bind; [apply metered_Delete|intros ? ? ? ?; apply IH, Hok]|done|].
      intros m. cbn [prog_gas]. unfold map_Delete, AssertValidKey, bind, modify, panic, ret. repeat case_bool_decide; cbn; lia.
    - destruct Hok as [Hb Hok]. eapply metered_ext; [eapply metered_bind; [by apply gas_iterate_metered|intros v _ _ _; apply IH, Hok]| |done].
      intros m. unfold bind. rewrite map_iterate. done. }
  destruct (Hm (mkStore s g) Hs Hg) as (Hin & Hout). cbn [parent gasMeter] in *. fold m in Hin, Hout.
  destruct (run_refines p Hok s Hs) as (s1 & E1 & _ & Ec1). fold m in E1, Ec1. rewrite E1. cbn [fst snd].
  destruct (Z.leb_spec (consumed g + prog_gas cfg p m) (Limit g)) as [Hle|Hgt]; [|auto].
  destruct (Hin Hle) as (s' & E & Hs' & Ec). exists s'. rewrite E, Ec, Ec1. split_and!; try done. by apply (ConsumeGas_run _ g).
Qed.
End GasLaws.
End gaskv.

Module gas_toy.
(** A map with two entries; a client reads one, writes one and iterates. *)
Definition m0 : contents_map := list_to_map [("a", "xy"); ("b", "z")].
Definition client : prog (list entry) :=
  PGet "a" (fun v => PSet "c" v (PIterate true None None (fun l => PRet l))).

Lemma config : gaskv.config_ok KVGasConfig.
Proof. cbv. intuition discriminate. Qed.

Lemma client_ok : prog_ok client.
Proof. cbn. intros. split; [split; discriminate|done]. Qed.

Lemma meters l : 0 <= l < two64 -> meter_ok (NewGasMeter l).
Proof. intros ?. unfold meter_ok, Limit, NewGasMeter. cbn. split_and!; (done || lia). Qed.

Lemma gas_run_metered_witness :
  (exists m', gaskv.gas_run KVGasConfig client (gaskv.mkStore m0 (NewGasMeter 3252)) =
     (Ok [("a", Some "xy"); ("b", Some "z"); ("c", Some "xy")], gaskv.mkStore m' (mkMeter (Some 3252) 3252 None)) /\ m' !! "c" = Some "xy") /\
  (exists gs', gaskv.gas_run KVGasConfig client (gaskv.mkStore m0 (NewGasMeter 3251)) = (Panic, gs') /\ raised (gaskv.gasMeter gs') <> None).
Proof.
  assert (gaskv.prog_gas KVGasConfig client m0 = 3252) as E by reflexivity.
  split.
  - pose proof (gaskv.gas_run_metered (inv := fun _ => True) (contents := id) (holds := eq) KVGasConfig config client m0 (NewGasMeter 3252) client_ok I (meters 3252 ltac:(unfold two64; lia))) as H.
    unfold id in H. cbv zeta in H. rewrite E in H. destruct H as (m' & Em & _ & Ec & _). exists m'. split; [exact Em|]. rewrite Ec. reflexivity.
  - pose proof (gaskv.gas_run_metered (inv := fun _ => True) (contents := id) (holds := eq) KVGasConfig config client m0 (NewGasMeter 3251) client_ok I (meters 3251 ltac:(unfold two64; lia))) as H.
    unfold id in H. cbv zeta in H. rewrite E in H. exact H.
Defined.
End gas_toy.
