(* ===== verification/CacheIterators.v ===== *)
(** CacheIterators: cosmos-sdk/store/cachekv/internal.

    memiterator.go iterates over a range of a tree of cached writes, where a
    nil value is a deletion (the package tidwall/btree is a class with its
    documented behaviour); mergeiterator.go iterates over a parent's iterator
    shadowed by the cached one.

    Theorems: both satisfy the laws of [IteratorLaws]; the first visits exactly
    the items of its range in its order, the second exactly the entries of the
    reference function [merged], which are the parent's entries overridden by
    the cache's. *)

From Stdlib Require Import ZArith Lia Ascii String.
From stdpp Require Import base gmap sets list strings fin_maps sorting.
From S2P Require Import Prelude KVStore.
Import order.

Open Scope Z_scope.
Open Scope go_scope.

(** ** cachekv/internal/btree.go and memiterator.go *)

(** tidwall/btree: an ordered tree of items and its cursors. *)
Class BTreeG : Type := {
  tree : Type;
  cursor : Type;
  tree_New : tree;
  tree_Set : string -> option string -> tree -> tree;
  tree_Len : tree -> nat;
  tree_Iter : tree -> cursor;
  cur_Seek : string -> cursor -> bool * cursor;
  cur_First : cursor -> bool * cursor;
  cur_Last : cursor -> bool * cursor;
  cur_Next : cursor -> bool * cursor;
  cur_Prev : cursor -> bool * cursor;
  cur_Item : cursor -> entry;
}.

(** What the package documents: the items in the order of their keys, and
    where a cursor stands after each call ([at_item c l n]: on item [n] of
    [l]). *)
Class BTreeGLaws `{BTreeG} (items : tree -> list entry) (on : cursor -> list entry -> Prop)
    (at_item : cursor -> list entry -> nat -> Prop) : Prop := {
  items_New : items tree_New = [];
  items_ordered t : ordered true (items t);
  items_Set k v t k' v' : (k', v') ∈ items (tree_Set k v t) <-> (k' = k /\ v' = v) \/ (k' <> k /\ (k', v') ∈ items t);
  items_Len t : tree_Len t = length (items t);
  on_Iter t : on (tree_Iter t) (items t);
  at_on c l n : at_item c l n -> on c l;
  Seek_found c l k n e : on c l -> l !! n = Some e -> ~ str_lt e.1 k ->
    (forall m e', (m < n)%nat -> l !! m = Some e' -> str_lt e'.1 k) -> exists c', cur_Seek k c = (true, c') /\ at_item c' l n;
  Seek_none c l k : on c l -> (forall e, e ∈ l -> str_lt e.1 k) -> exists c', cur_Seek k c = (false, c') /\ on c' l;
  First_spec c l : on c l -> if decide (l = []) then exists c', cur_First c = (false, c') else exists c', cur_First c = (true, c') /\ at_item c' l 0%nat;
  Last_spec c l : on c l ->
    if decide (l = []) then exists c', cur_Last c = (false, c') else exists c', cur_Last c = (true, c') /\ at_item c' l (length l - 1)%nat;
  Next_spec c l n : at_item c l n ->
    if decide (S n < length l)%nat then exists c', cur_Next c = (true, c') /\ at_item c' l (S n) else exists c', cur_Next c = (false, c');
  Prev_spec c l n : at_item c l n ->
    match n with O => exists c', cur_Prev c = (false, c') | S n => exists c', cur_Prev c = (true, c') /\ at_item c' l n end;
  Item_spec c l n : at_item c l n -> l !! n = Some (cur_Item c);
}.

Module memiter.
Section Mem.
Context `{BTreeG}.

(** [mi_len] is the number of items of the tree, the fuel of loops. *)
Record memIterator : Type := mkMemIterator {
  mi_iter : cursor;
  mi_start : bound;
  mi_end : bound;
  mi_ascending : bool;
  mi_valid : bool;
  mi_len : nat;
}.

Definition keyInRange (mi : memIterator) (key : string) : bool :=
  if mi_ascending mi && (match mi_end mi with Some e => 0 <=? Compare key e | None => false end) then false else
  if negb (mi_ascending mi) && (match mi_start mi with Some s => Compare key s <? 0 | None => false end) then false else true.

Definition set_valid (mi : memIterator) (b : bool) : memIterator :=
  mkMemIterator (mi_iter mi) (mi_start mi) (mi_end mi) (mi_ascending mi) b (mi_len mi).

Definition check_range (mi : memIterator) : memIterator :=
  if mi_valid mi then set_valid mi (keyInRange mi (fst (cur_Item (mi_iter mi)))) else mi.

(** Where newMemIterator puts the cursor. *)
Definition start_cursor (start end_ : bound) (iter : cursor) (ascending : bool) : bool * cursor :=
  if ascending then
    match start with Some s => cur_Seek s iter | None => cur_First iter end
  else
    match end_ with
    | Some e =>
        let '(valid, iter) := cur_Seek e iter in
        if negb valid then cur_Last iter else cur_Prev iter
    | None => cur_Last iter
    end.

Definition newMemIterator (start end_ : bound) (items : tree) (ascending : bool) : memIterator :=
  let '(valid, iter) := start_cursor start end_ (tree_Iter items) ascending in
  check_range (mkMemIterator iter start end_ ascending valid (tree_Len items)).

Definition mem_Next (mi : memIterator) : outcome memIterator :=
  if negb (mi_valid mi) then Panic else
  let '(valid, iter) := if mi_ascending mi then cur_Next (mi_iter mi) else cur_Prev (mi_iter mi) in
  Ok (check_range (mkMemIterator iter (mi_start mi) (mi_end mi) (mi_ascending mi) valid (mi_len mi))).

(** Key and Value of an invalid iterator are those of the cursor's last item. *)
#[export] Instance mem_Iterator : Iterator memIterator := {|
  it_Valid := mi_valid;
  it_Key mi := Ok (fst (cur_Item (mi_iter mi)));
  it_Value mi := Ok (snd (cur_Item (mi_iter mi)));
  it_Next := mem_Next;
  it_size := mi_len;
|}.

(** BTree.Iterator and BTree.ReverseIterator. *)
Definition BTree_iterator (start end_ : bound) (items : tree) (ascending : bool) : outcome memIterator :=
  if bool_decide (start = Some "") || bool_decide (end_ = Some "") then Err (Errorf "key cannot be empty")
  else Ok (newMemIterator start end_ items ascending).

(** *** The entries it visits *)

Context `{!BTreeGLaws items on at_item}.

(** The items from position [n] on, in the order of the iterator. *)
Definition rest (asc : bool) (n : nat) (full : list entry) : list entry :=
  if asc then drop n full else reverse (take (S n) full).

Lemma rest_step asc full n e : full !! n = Some e ->
  rest asc n full = e :: (if asc then rest asc (S n) full else match n with O => [] | S n => rest asc n full end).
Proof.
  intros He. unfold rest. destruct asc; [by apply drop_S|]. rewrite (take_S_r _ _ _ He), reverse_app. by destruct n.
Qed.

Lemma rest_ordered asc full n : ordered true full -> ordered asc (rest asc n full).
Proof.
  intros Ho. destruct asc; cbn [rest]; [|apply (ordered_reverse true)].
  - by apply (ordered_app true (take n full)); rewrite take_drop.
  - by apply (ordered_app true _ (drop (S n) full)); rewrite take_drop.
Qed.

Lemma elem_of_rest asc full n e : e ∈ rest asc n full <-> exists m, full !! m = Some e /\ (if asc then n <= m else m <= n)%nat.
Proof.
  unfold rest. destruct asc.
  - rewrite list_elem_of_lookup. setoid_rewrite lookup_drop. split; [intros [m Hm]; exists (n + m)%nat; auto with lia|].
    intros (m & Hm & ?). exists (m - n)%nat. by replace (n + (m - n))%nat with m by lia.
  - rewrite elem_of_reverse, list_elem_of_lookup. setoid_rewrite lookup_take_Some. naive_solver lia.
Qed.

(** What an iterator at position [n] has left. *)
Definition left_from (mi : memIterator) (full : list entry) (n : nat) : list entry :=
  filter (fun e => keyInRange mi e.1 = true) (rest (mi_ascending mi) n full).

Definition mem_holds (mi : memIterator) (l : list entry) : Prop :=
  mi_valid mi = bool_decide (l <> []) /\ (length l <= mi_len mi)%nat /\
  (l <> [] -> exists full n, at_item (mi_iter mi) full n /\ ordered true full /\ l = left_from mi full n).

Lemma keyInRange_iff mi k :
  keyInRange mi k = true <-> in_domain (if mi_ascending mi then None else mi_start mi) (if mi_ascending mi then mi_end mi else None) k.
Proof.
  unfold keyInRange, in_domain. destruct (mi_ascending mi); cbn [andb negb].
  - destruct (mi_end mi) as [x|]; [|done]. rewrite <- Compare_lt. destruct (Z.leb_spec 0 (Compare k x)); naive_solver lia.
  - destruct (mi_start mi) as [x|]; [|done]. rewrite <- Compare_lt. destruct (Z.ltb_spec (Compare k x) 0); naive_solver lia.
Qed.

(** The range is left once and for all. *)
Lemma keyInRange_stops mi k k' : before (mi_ascending mi) k k' -> keyInRange mi k' = true -> keyInRange mi k = true.
Proof.
  rewrite !keyInRange_iff. unfold in_domain, before. destruct (mi_ascending mi).
  - destruct (mi_end mi); [|done]. intros ? [_ ?]. split; [done|]. by etrans.
  - destruct (mi_start mi); [|done]. intros ? [Hn _]. split; [|done]. intros ?. apply Hn. by etrans.
Qed.

Lemma left_from_step mi full n e : ordered true full -> full !! n = Some e ->
  left_from mi full n =
    if keyInRange mi e.1 then
      e :: (if mi_ascending mi then left_from mi full (S n) else match n with O => [] | S n => left_from mi full n end)
    else [].
Proof.
  intros Ho He. unfold left_from. pose proof (rest_ordered (mi_ascending mi) full n Ho) as Hr.
  rewrite (rest_step _ _ _ _ He) in Hr |- *. rewrite filter_cons. case_decide as Hk.
  - rewrite Hk. f_equal. destruct (mi_ascending mi), n; done.
  - destruct (keyInRange mi e.1) eqn:E; [done|]. destruct e as [k v]. cbn in E. apply ordered_cons in Hr as [_ Hf].
    destruct (filter _ _) as [|[k' v'] r] eqn:Er; [done|].
    assert ((k', v') ∈ (k', v') :: r) as Hin by left. rewrite <- Er in Hin. apply list_elem_of_filter in Hin as [Hk' Hin].
    apply Hf in Hin. cbn in Hk'. rewrite (keyInRange_stops mi k k') in E; done.
Qed.

Lemma left_from_length mi full n : (length (left_from mi full n) <= length full)%nat.
Proof.
  unfold left_from. etrans; [apply length_filter|]. unfold rest. destruct (mi_ascending mi).
  - rewrite length_drop. lia.
  - rewrite length_reverse, length_take. lia.
Qed.

(** A cursor that has just moved to an item. *)
Lemma check_range_holds c s e asc n len full : at_item c full n -> ordered true full ->
  (length (left_from (mkMemIterator c s e asc true len) full n) <= len)%nat ->
  mem_holds (check_range (mkMemIterator c s e asc true len)) (left_from (mkMemIterator c s e asc true len) full n).
Proof.
  intros Ha Ho Hl. set (mi := mkMemIterator c s e asc true len) in *. pose proof (Item_spec _ _ _ Ha) as He.
  pose proof (left_from_step mi full n _ Ho He) as Hs. unfold check_range. cbn [mi mi_valid mi_iter].
  split_and!; [|done|].
  - rewrite Hs. unfold set_valid. cbn [mi_valid]. by destruct (keyInRange mi _).
  - intros _. by exists full, n.
Qed.

Lemma invalid_holds c s e asc len : mem_holds (check_range (mkMemIterator c s e asc false len)) [].
Proof. split_and!; cbn; (done || lia). Qed.

#[export] Instance mem_IteratorLaws : IteratorLaws memIterator mem_holds.
Proof.
  split.
  - by intros i l [].
  - intros mi k v l (Hv & Hl & He). destruct He as (full & n & Ha & Ho & El); [done|].
    pose proof (Item_spec _ _ _ Ha) as Hn. rewrite (left_from_step mi full n _ Ho Hn) in El.
    destruct (keyInRange mi _); [|done]. injection El as Ec El. cbn [it_Key it_Value it_Next mem_Iterator]. rewrite <- Ec.
    split_and!; [done|done|]. unfold mem_Next. rewrite Hv. cbn [bool_decide negb].
    rewrite bool_decide_true by done. cbn [negb]. destruct mi as [c s e asc b len]. cbn [mi_iter mi_ascending mi_start mi_end mi_len] in *.
    cbn [length] in Hl. destruct asc.
    + pose proof (Next_spec _ _ _ Ha) as Hnx. case_decide.
      * destruct Hnx as (c' & -> & Ha'). eexists. split; [done|]. rewrite El.
        apply (check_range_holds c' s e true (S n) len full); [done|done|]. rewrite El in Hl. exact (Nat.le_trans _ _ _ (Nat.le_succ_diag_r _) Hl).
      * destruct Hnx as (c' & ->). eexists. split; [done|].
        replace l with (@nil entry); [apply invalid_holds|]. rewrite El. unfold left_from, rest. cbn. by rewrite drop_ge by lia.
    + pose proof (Prev_spec _ _ _ Ha) as Hnx. destruct n as [|n].
      * destruct Hnx as (c' & ->). eexists. split; [done|]. rewrite El. apply invalid_holds.
      * destruct Hnx as (c' & -> & Ha'). eexists. split; [done|]. rewrite El.
        apply (check_range_holds c' s e false n len full); [done|done|]. rewrite El in Hl. exact (Nat.le_trans _ _ _ (Nat.le_succ_diag_r _) Hl).
  - by intros i l (_ & ? & _).
Qed.

(** *** The iterator of a range *)

(** The entries of a domain, in the order of an iterator. *)
Definition in_order (asc : bool) (lo hi : bound) (l : list entry) : list entry :=
  filter (fun e => in_domain lo hi e.1) (if asc then l else reverse l).

Lemma in_order_ordered asc lo hi l : ordered true l -> ordered asc (in_order asc lo hi l).
Proof. intros Ho. apply ordered_filter. destruct asc; [done|]. by apply (ordered_reverse true). Qed.

Lemma elem_of_in_order asc lo hi l e : e ∈ in_order asc lo hi l <-> in_domain lo hi e.1 /\ e ∈ l.
Proof. unfold in_order. rewrite list_elem_of_filter. destruct asc; by rewrite ?elem_of_reverse. Qed.

Lemma left_from_all mi full n : ordered true full ->
  (forall m e, full !! m = Some e ->
    (in_domain (mi_start mi) (mi_end mi) e.1 <-> keyInRange mi e.1 = true /\ (if mi_ascending mi then n <= m else m <= n)%nat)) ->
  left_from mi full n = in_order (mi_ascending mi) (mi_start mi) (mi_end mi) full.
Proof.
  intros Ho Hd. apply (ordered_unique (mi_ascending mi)).
  - by apply ordered_filter, rest_ordered.
  - by apply in_order_ordered.
  - intros e. unfold left_from. rewrite list_elem_of_filter, elem_of_rest, elem_of_in_order, list_elem_of_lookup.
    split; [intros (Hk & m & Hm & ?); split; [apply (Hd m e)|]; eauto|].
    intros [Hi [m Hm]]. destruct (proj1 (Hd m e Hm) Hi) as [Hk Hle]. split; [exact Hk|by exists m].
Qed.

Lemma ordered_lookup {V} (l : list (string * V)) m n e e' : ordered true l -> l !! m = Some e -> l !! n = Some e' ->
  (m < n)%nat -> str_lt e.1 e'.1.
Proof.
  intros Ho Hm Hn Hl.
  rewrite <- (take_drop_middle l m e Hm) in Ho. apply ordered_app in Ho as [_ Ho]. destruct e as [k v], e' as [k' v'].
  apply ordered_cons in Ho as [_ Ho]. apply (Ho k' v'). apply list_elem_of_lookup. exists (n - S m)%nat.
  rewrite lookup_drop. by replace (S m + (n - S m))%nat with n by lia.
Qed.

(** Where Seek goes. *)
Lemma first_from {V} (l : list (string * V)) k :
  (forall e, e ∈ l -> str_lt e.1 k) \/
  exists n e, l !! n = Some e /\ ~ str_lt e.1 k /\ forall m e', (m < n)%nat -> l !! m = Some e' -> str_lt e'.1 k.
Proof.
  induction l as [|e l IH]; [left; by intros e ?%elem_of_nil|]. destruct (decide (str_lt e.1 k)) as [Hk|Hk].
  - destruct IH as [IH|(n & e' & Hn & Hk' & IH)]; [left|right].
    + intros e' [->|?]%elem_of_cons; auto.
    + exists (S n), e'. split_and!; [done|done|]. intros [|m] e1 Hm; cbn; [by intros [= <-]|]. apply IH. lia.
  - right. exists 0%nat, e. split_and!; [done|done|lia].
Qed.

Lemma Seek_spec c l k : on c l -> ordered true l ->
  (exists c', cur_Seek k c = (false, c') /\ on c' l /\ forall e, e ∈ l -> str_lt e.1 k) \/
  (exists c' n, cur_Seek k c = (true, c') /\ at_item c' l n /\ forall m e, l !! m = Some e -> (str_lt e.1 k <-> m < n)%nat).
Proof.
  intros Hc Ho. destruct (first_from l k) as [Hl|(n & e & Hn & Hk & Hl)].
  - left. destruct (Seek_none c l k Hc Hl) as (c' & ? & ?). eauto.
  - right. destruct (Seek_found c l k n e Hc Hn Hk Hl) as (c' & ? & ?). exists c', n. split_and!; [done|done|].
    intros m e' Hm. split; [|eauto]. intros Hk'. destruct (decide (m < n)%nat) as [|Hmn]; [done|]. destruct Hk.
    destruct (decide (m = n)) as [Emn|]; [rewrite Emn, Hn in Hm; by injection Hm as ->|].
    etrans; [|exact Hk']. apply (ordered_lookup l n m e e'); (done || lia).
Qed.

(** The keys on the inner side of the bound an iterator starts from. *)
Definition inside (start end_ : bound) (asc : bool) (k : string) : Prop :=
  if asc then match start with Some s => ~ str_lt k s | None => True end
  else match end_ with Some e => str_lt k e | None => True end.

(** The position an iterator starts at: the first item of its order within
    the bound it starts from. *)
Lemma start_cursor_spec start end_ asc c l : on c l -> ordered true l ->
  (exists c', start_cursor start end_ c asc = (false, c') /\ forall e, e ∈ l -> ~ inside start end_ asc e.1) \/
  (exists c' n, start_cursor start end_ c asc = (true, c') /\ at_item c' l n /\
    forall m e, l !! m = Some e -> (inside start end_ asc e.1 <-> if asc then n <= m else m <= n)%nat).
Proof.
  intros Hc Ho. assert (l = [] -> forall P : entry -> Prop, forall e, e ∈ l -> P e) as Hnil by (intros -> P e ?%elem_of_nil; done).
  assert (forall c', on c' l -> (forall e, e ∈ l -> if asc then True else inside start end_ asc e.1) -> asc = false ->
    (exists c'', cur_Last c' = (false, c'') /\ forall e, e ∈ l -> ~ inside start end_ asc e.1) \/
    (exists c'' n, cur_Last c' = (true, c'') /\ at_item c'' l n /\
      forall m e, l !! m = Some e -> (inside start end_ asc e.1 <-> if asc then n <= m else m <= n)%nat)) as Hlast.
  { intros c' Hc' Hin ->. pose proof (Last_spec c' l Hc') as Hl. case_decide.
    - left. destruct Hl as [c'' ->]. exists c''. split; [done|]. by apply Hnil.
    - right. destruct Hl as (c'' & -> & Ha). exists c'', (length l - 1)%nat. split_and!; [done|done|].
      intros m e Hm. pose proof (lookup_lt_Some _ _ _ Hm). split; [lia|]. intros _. by apply Hin, list_elem_of_lookup_2 with m. }
  unfold start_cursor, inside in *. destruct asc; [destruct start as [s|]|destruct end_ as [e|]].
  - destruct (Seek_spec c l s Hc Ho) as [(c' & -> & _ & Hl)|(c' & n & -> & Ha & Hl)]; [left|right].
    + exists c'. split; [done|]. intros e He Hn. by apply Hn, Hl.
    + exists c', n. split_and!; [done|done|]. intros m e Hm. rewrite (Hl m e Hm). lia.
  - pose proof (First_spec c l Hc) as Hf. case_decide; [left|right].
    + destruct Hf as [c' ->]. exists c'. split; [done|]. by apply Hnil.
    + destruct Hf as (c' & -> & Ha). exists c', 0%nat. split_and!; [done|done|]. intros; split; (done || lia).
  - destruct (Seek_spec c l e Hc Ho) as [(c' & -> & Hc' & Hl)|(c' & n & -> & Ha & Hl)]; cbn [negb].
    + by apply Hlast.
    + pose proof (Prev_spec _ _ _ Ha) as Hp. destruct n as [|n]; [left|right].
      * destruct Hp as [c'' ->]. exists c''. split; [done|]. intros e' [m Hm]%list_elem_of_lookup. rewrite (Hl m e' Hm). lia.
      * destruct Hp as (c'' & -> & Ha'). exists c'', n. split_and!; [done|done|]. intros m e' Hm. rewrite (Hl m e' Hm). lia.
  - by apply Hlast.
Qed.

(** newMemIterator visits the items of its range in its order. *)
Lemma newMemIterator_holds start end_ t asc :
  mem_holds (newMemIterator start end_ t asc) (in_order asc start end_ (items t)).
Proof.
  pose proof (start_cursor_spec start end_ asc _ _ (on_Iter t) (items_ordered t)) as Hs.
  unfold newMemIterator.
  destruct Hs as [(c & -> & Hn)|(c & n & -> & Ha & Hl)].
  - replace (in_order _ _ _ _) with (@nil entry); [apply invalid_holds|]. symmetry. destruct (in_order _ _ _ _) as [|e l] eqn:E; [done|].
    assert (e ∈ e :: l) as Hin by left. rewrite <- E in Hin. apply elem_of_in_order in Hin as [[Hlo Hhi] Hin]. destruct (Hn e Hin). by destruct asc.
  - set (mi := mkMemIterator c start end_ asc true (tree_Len t)).
    assert (in_order asc start end_ (items t) = left_from mi (items t) n) as ->.
    { symmetry. apply (left_from_all mi); [apply items_ordered|]. intros m e Hm. cbn [mi mi_ascending]. rewrite <- (Hl m e Hm), keyInRange_iff.
      unfold in_domain. cbn [mi mi_ascending mi_start mi_end]. destruct asc; tauto. }
    apply check_range_holds; [done|apply items_ordered|]. rewrite items_Len. apply left_from_length.
Qed.

End Mem.
End memiter.

(** ** cachekv/internal/mergeiterator.go *)

Module mergeiterator.

(** Like bytes.Compare but opposite if not ascending. *)
Definition compare (ascending : bool) (a b : string) : Z := if ascending then Compare a b else Compare a b * -1.

Lemma compare_cases asc a b :
  (compare asc a b = -1 /\ before asc a b) \/ (compare asc a b = 0 /\ a = b) \/ (compare asc a b = 1 /\ before asc b a).
Proof.
  unfold compare, Compare, before, str_lt. rewrite (String.compare_antisym a b).
  destruct (String.compare b a) eqn:E; cbn; [apply compare_eq in E| |]; destruct asc; cbn; naive_solver.
Qed.

Lemma before_asym asc a b : before asc a b -> before asc b a -> False.
Proof. intros H1 H2. apply (before_irrefl asc a). by etrans. Qed.

(** A cached entry in the output: a deletion is not visible. *)
Definition emit (k : string) (v : option string) (l : list entry) : list entry :=
  match v with None => l | Some _ => (k, v) :: l end.

(** The entries of [lp] overridden by those of [lc], where [None] deletes: the
    reference for the iterator. *)
Fixpoint merged (asc : bool) (lp : list entry) {struct lp} : list entry -> list entry :=
  fix go (lc : list entry) : list entry :=
    match lp, lc with
    | [], [] => []
    | [], (kc, vc) :: lc' => emit kc vc (go lc')
    | (kp, vp) :: lp', [] => (kp, vp) :: merged asc lp' []
    | (kp, vp) :: lp', (kc, vc) :: lc' =>
        if decide (before asc kp kc) then (kp, vp) :: merged asc lp' lc
        else if decide (kp = kc) then emit kc vc (merged asc lp' lc')
        else emit kc vc (go lc')
    end.

Lemma merged_nil_l asc k v lc : merged asc [] ((k, v) :: lc) = emit k v (merged asc [] lc).
Proof. done. Qed.

Lemma merged_nil_r asc lp : merged asc lp [] = lp.
Proof. induction lp as [|[k v] lp IH]; [done|]. cbn. by rewrite IH. Qed.

Lemma merged_before asc kp vp lp kc vc lc : before asc kp kc ->
  merged asc ((kp, vp) :: lp) ((kc, vc) :: lc) = (kp, vp) :: merged asc lp ((kc, vc) :: lc).
Proof. intros. cbn. by rewrite decide_True. Qed.

Lemma merged_same asc k vp lp vc lc : merged asc ((k, vp) :: lp) ((k, vc) :: lc) = emit k vc (merged asc lp lc).
Proof. cbn. rewrite decide_False by apply before_irrefl. by rewrite decide_True. Qed.

Lemma merged_after asc kp vp lp kc vc lc : before asc kc kp ->
  merged asc ((kp, vp) :: lp) ((kc, vc) :: lc) = emit kc vc (merged asc ((kp, vp) :: lp) lc).
Proof.
  intros Hb. cbn. rewrite decide_False by (intros ?; by eapply before_asym). rewrite decide_False; [done|].
  intros ->. by apply before_irrefl in Hb.
Qed.

Lemma merged_length asc lp lc : (length (merged asc lp lc) <= length lp + length lc)%nat.
Proof.
  assert (forall k v l, (length (emit k v l) <= S (length l))%nat) as He by (intros ? [] ?; cbn; lia).
  revert lc. induction lp as [|[kp vp] lp IHp]; intros lc; induction lc as [|[kc vc] lc IHc]; [done| | |].
  - rewrite merged_nil_l. etrans; [apply He|]. cbn [length] in *. lia.
  - by rewrite merged_nil_r, Nat.add_0_r.
  - destruct (before_total asc kp kc) as [?|[<-|?]].
    + rewrite merged_before by done. specialize (IHp ((kc, vc) :: lc)). cbn [length] in *. lia.
    + rewrite merged_same. etrans; [apply He|]. specialize (IHp lc). cbn [length]. lia.
    + rewrite merged_after by done. etrans; [apply He|]. cbn [length] in *. lia.
Qed.

Section Merge.
Context {IP IC : Type} `{Iterator IP} `{Iterator IC}.

Record cacheMergeIterator : Type := mkCacheMergeIterator {
  cm_parent : IP;
  cm_cache : IC;
  cm_ascending : bool;
  cm_valid : bool;
}.

Fixpoint skipCacheDeletes (fuel : nat) (ascending : bool) (until : bound) (cache : IC) : outcome IC :=
  if negb (it_Valid cache) then Ok cache else
  let* v := it_Value cache in
  if bool_decide (v <> None) then Ok cache else
  let* k := it_Key cache in
  if match until with None => true | Some u => compare ascending k u <? 0 end then
    match fuel with
    | O => Panic
    | S fuel => let* cache := it_Next cache in skipCacheDeletes fuel ascending until cache
    end
  else Ok cache.

Fixpoint skipUntilExistsOrInvalid (fuel : nat) (ascending : bool) (parent : IP) (cache : IC) : outcome (bool * IP * IC) :=
  match fuel with
  | O => Panic
  | S fuel =>
      if negb (it_Valid parent) then
        let* cache := skipCacheDeletes (it_size cache) ascending None cache in
        Ok (it_Valid cache, parent, cache)
      else if negb (it_Valid cache) then Ok (true, parent, cache) else
      let* keyP := it_Key parent in
      let* keyC := it_Key cache in
      let cmp := compare ascending keyP keyC in
      if cmp =? -1 then Ok (true, parent, cache)
      else if cmp =? 0 then
        let* valueC := it_Value cache in
        if bool_decide (valueC = None) then
          let* parent := it_Next parent in
          let* cache := it_Next cache in
          skipUntilExistsOrInvalid fuel ascending parent cache
        else Ok (true, parent, cache)
      else
        let* valueC := it_Value cache in
        if bool_decide (valueC = None) then
          let* cache := skipCacheDeletes (it_size cache) ascending (Some keyP) cache in
          skipUntilExistsOrInvalid fuel ascending parent cache
        else Ok (true, parent, cache)
  end.

(** The end of NewCacheMergeIterator and of Next. *)
Definition settle (ascending : bool) (parent : IP) (cache : IC) : outcome cacheMergeIterator :=
  let* r := skipUntilExistsOrInvalid (S (it_size cache)) ascending parent cache in
  let '(valid, parent, cache) := r in
  Ok (mkCacheMergeIterator parent cache ascending valid).

Definition NewCacheMergeIterator (parent : IP) (cache : IC) (ascending : bool) : outcome cacheMergeIterator :=
  settle ascending parent cache.

Definition Next (iter : cacheMergeIterator) : outcome cacheMergeIterator :=
  let '(mkCacheMergeIterator parent cache ascending valid) := iter in
  if negb valid then Panic else
  let* pc :=
    if negb (it_Valid parent) then let* cache := it_Next cache in Ok (parent, cache)
    else if negb (it_Valid cache) then let* parent := it_Next parent in Ok (parent, cache)
    else
      let* keyP := it_Key parent in
      let* keyC := it_Key cache in
      let cmp := compare ascending keyP keyC in
      if cmp =? -1 then let* parent := it_Next parent in Ok (parent, cache)
      else if cmp =? 0 then
        let* parent := it_Next parent in
        let* cache := it_Next cache in
        Ok (parent, cache)
      else let* cache := it_Next cache in Ok (parent, cache) in
  settle ascending (fst pc) (snd pc).

Definition Key (iter : cacheMergeIterator) : outcome string :=
  let '(mkCacheMergeIterator parent cache ascending valid) := iter in
  if negb valid then Panic else
  if negb (it_Valid parent) then it_Key cache else
  if negb (it_Valid cache) then it_Key parent else
  let* keyP := it_Key parent in
  let* keyC := it_Key cache in
  if compare ascending keyP keyC =? 1 then Ok keyC else Ok keyP.

Definition Value (iter : cacheMergeIterator) : outcome (option string) :=
  let '(mkCacheMergeIterator parent cache ascending valid) := iter in
  if negb valid then Panic else
  if negb (it_Valid parent) then it_Value cache else
  if negb (it_Valid cache) then it_Value parent else
  let* keyP := it_Key parent in
  let* keyC := it_Key cache in
  if compare ascending keyP keyC =? -1 then it_Value parent else it_Value cache.

#[export] Instance merge_Iterator : Iterator cacheMergeIterator := {|
  it_Valid := cm_valid;
  it_Key := Key;
  it_Value := Value;
  it_Next := Next;
  it_size iter := (it_size (cm_parent iter) + it_size (cm_cache iter))%nat;
|}.

(** *** The merged iterator visits the merged entries *)

Context {holdsP : IP -> list entry -> Prop} {holdsC : IC -> list entry -> Prop}.
Context `{!IteratorLaws IP holdsP} `{!IteratorLaws IC holdsC}.

(** The first entry is not a deletion still to be skipped. *)
Definition settled (asc : bool) (lp lc : list entry) : Prop :=
  match lp, lc with
  | [], (_, vc) :: _ => vc <> None
  | (kp, _) :: _, (kc, vc) :: _ => before asc kp kc \/ vc <> None
  | _, [] => True
  end.

Definition merge_holds (iter : cacheMergeIterator) (l : list entry) : Prop :=
  exists lp lc, holdsP (cm_parent iter) lp /\ holdsC (cm_cache iter) lc /\
    settled (cm_ascending iter) lp lc /\ l = merged (cm_ascending iter) lp lc /\ cm_valid iter = bool_decide (l <> []).

(** The key the parent is on. *)
Definition until_of (lp : list entry) : bound := match lp with [] => None | (k, _) :: _ => Some k end.

Lemma skipCacheDeletes_holds fuel asc lp c lc : holdsC c lc -> (length lc <= fuel)%nat ->
  exists c' lc', skipCacheDeletes fuel asc (until_of lp) c = Ok c' /\ holdsC c' lc' /\ lc' `suffix_of` lc /\
    merged asc lp lc' = merged asc lp lc /\
    (forall k r, lc' = (k, None) :: r -> exists kp, until_of lp = Some kp /\ ~ before asc k kp).
Proof.
  revert c lc. induction fuel as [|fuel IH]; intros c [|[k [v|]] lc] Hc Hl; cbn [length] in Hl; try lia;
    cbn [skipCacheDeletes]; rewrite (holds_valid _ _ Hc); rewrite ?bool_decide_true, ?bool_decide_false by naive_solver; cbn [negb];
    try (by exists c, []);
    destruct (holds_head _ _ _ _ Hc) as (Hk & Hv & c1 & Hn & Hc1); rewrite Hv; cbn [obind].
  - rewrite bool_decide_true by done. by exists c, ((k, Some v) :: lc).
  - rewrite bool_decide_false by naive_solver. rewrite Hk. cbn [obind].
    assert (forall b : bool, b = true -> merged asc lp lc = merged asc lp ((k, None) :: lc) ->
      exists c' lc', (if b then let* cache := it_Next c in skipCacheDeletes fuel asc (until_of lp) cache else Ok c) = Ok c' /\
      holdsC c' lc' /\ lc' `suffix_of` ((k, None) :: lc) /\ merged asc lp lc' = merged asc lp ((k, None) :: lc) /\
      (forall k' r, lc' = (k', None) :: r -> exists kp, until_of lp = Some kp /\ ~ before asc k' kp)) as Hgo.
    { intros b -> E. rewrite Hn. cbn [obind]. destruct (IH c1 lc Hc1 ltac:(lia)) as (c' & lc' & ? & ? & ? & E' & ?).
      exists c', lc'. split_and!; [done|done|by apply suffix_cons_r|by rewrite E'|done]. }
    destruct lp as [|[kp vp] lp]; cbn [until_of] in *.
    + by apply (Hgo true).
    + destruct (compare_cases asc k kp) as [[-> Hb]|Hb].
      * apply Hgo; [done|]. by rewrite merged_after.
      * exists c, ((k, None) :: lc). destruct (Z.ltb_spec (compare asc k kp) 0); [lia|]. split_and!; [done|done|done|done|].
        intros k' r [= <- <-]. exists kp. split; [done|]. intros Hb'. destruct Hb as [[_ ->]|[_ Hb]]; [by eapply before_irrefl|by eapply before_asym].
Qed.

Lemma settled_valid asc lp lc : settled asc lp lc -> bool_decide (merged asc lp lc <> []) = bool_decide (lp <> []) || bool_decide (lc <> []).
Proof.
  destruct lp as [|[kp vp] lp], lc as [|[kc vc] lc]; cbn [settled]; [done| | |].
  - intros Hv. rewrite merged_nil_l. by destruct vc.
  - intros _. by rewrite merged_nil_r.
  - intros Hb. destruct (before_total asc kp kc) as [?|[<-|Ha]].
    + by rewrite merged_before.
    + rewrite merged_same. destruct Hb as [Hb|Hv]; [by apply before_irrefl in Hb|by destruct vc].
    + rewrite merged_after by done. destruct Hb as [Hb|Hv]; [by destruct (before_asym asc kp kc)|by destruct vc].
Qed.

Lemma skipUntilExistsOrInvalid_holds fuel asc p lp c lc : holdsP p lp -> holdsC c lc -> (length lc < fuel)%nat ->
  exists p' lp' c' lc', skipUntilExistsOrInvalid fuel asc p c = Ok (bool_decide (merged asc lp lc <> []), p', c') /\
    holdsP p' lp' /\ holdsC c' lc' /\ settled asc lp' lc' /\ merged asc lp' lc' = merged asc lp lc.
Proof.
  revert p lp c lc. induction fuel as [|fuel IH]; intros p lp c lc Hp Hc Hl; [lia|]. cbn [skipUntilExistsOrInvalid].
  assert (forall b, settled asc lp lc -> b = true -> lp <> [] -> exists p' lp' c' lc', Ok (b, p, c) = Ok (bool_decide (merged asc lp lc <> []), p', c') /\
    holdsP p' lp' /\ holdsC c' lc' /\ settled asc lp' lc' /\ merged asc lp' lc' = merged asc lp lc) as Hstop.
  { intros b Hs -> Hn. exists p, lp, c, lc. rewrite settled_valid, bool_decide_true by done. done. }
  rewrite (holds_valid _ _ Hp). destruct lp as [|[kp vp] lp].
  - rewrite bool_decide_false by naive_solver. cbn [negb].
    destruct (skipCacheDeletes_holds (it_size c) asc [] c lc Hc (holds_size _ _ Hc)) as (c' & lc' & Hs & Hc' & _ & E & Hd). cbn [until_of] in *.
    assert (settled asc [] lc') as Hset by (destruct lc' as [|[k [v|]] lc']; [done|done|by destruct (Hd _ _ eq_refl) as (? & ? & _)]).
    rewrite Hs. cbn [obind]. exists p, [], c', lc'. rewrite <- E, (holds_valid _ _ Hc'). split_and!; [by rewrite (settled_valid _ _ _ Hset)|done..].
  - rewrite bool_decide_true by done. cbn [negb]. rewrite (holds_valid _ _ Hc). destruct lc as [|[kc vc] lc]; [by apply Hstop|].
    rewrite bool_decide_true by done. cbn [negb].
    destruct (holds_head _ _ _ _ Hp) as (Hkp & Hvp & p1 & Hnp & Hp1). destruct (holds_head _ _ _ _ Hc) as (Hkc & Hvc & c1 & Hnc & Hc1).
    rewrite Hkp. cbn [obind]. rewrite Hkc. cbn [obind].
    destruct (compare_cases asc kp kc) as [[-> Hb]|[[-> <-]|[-> Hb]]]; cbn [Z.eqb]; [apply Hstop; [by left|done..]| |].
    + rewrite Hvc. cbn [obind]. destruct vc as [v|]; [rewrite bool_decide_false by done; apply Hstop; [by right|done..]|].
      rewrite bool_decide_true, Hnp by done. cbn [obind]. rewrite Hnc, merged_same. cbn [obind emit]. apply IH; [done|done|cbn in Hl; lia].
    + rewrite Hvc. cbn [obind]. destruct vc as [v|]; [rewrite bool_decide_false by done; apply Hstop; [by right|done..]|].
      rewrite bool_decide_true by done.
      destruct (skipCacheDeletes_holds (it_size c) asc ((kp, vp) :: lp) c _ Hc (holds_size _ _ Hc)) as (c' & lc' & Hs & Hc' & Hsuf & E & Hd).
      cbn [until_of] in *. rewrite Hs. cbn [obind]. rewrite <- E. apply IH; [done|done|].
      pose proof (suffix_length _ _ Hsuf) as Hle. destruct (decide (length lc' = length ((kc, @None string) :: lc))) as [El|]; [|cbn in *; lia].
      destruct Hsuf as [r Er]. destruct r as [|x r]; [|apply (f_equal length) in Er; rewrite length_app in Er; cbn in *; lia].
      destruct (Hd kc lc (eq_sym Er)) as (? & [= <-] & []). done.
Qed.

Lemma settle_holds asc p lp c lc : holdsP p lp -> holdsC c lc ->
  exists iter, settle asc p c = Ok iter /\ merge_holds iter (merged asc lp lc).
Proof.
  intros Hp Hc. unfold settle.
  destruct (skipUntilExistsOrInvalid_holds (S (it_size c)) asc p lp c lc Hp Hc) as (p' & lp' & c' & lc' & -> & Hp' & Hc' & Hs & E).
  { pose proof (holds_size _ _ Hc). lia. }
  cbn [obind]. eexists. split; [done|]. exists lp', lc'. cbn. by rewrite <- E.
Qed.

(** What Key and Value return and what is left after Next. *)
Lemma merge_head iter k v l : merge_holds iter ((k, v) :: l) ->
  Key iter = Ok k /\ Value iter = Ok v /\ exists iter', Next iter = Ok iter' /\ merge_holds iter' l.
Proof.
  destruct iter as [p c asc valid]. intros (lp & lc & Hp & Hc & Hs & E & Hv). cbn [cm_parent cm_cache cm_ascending cm_valid] in *.
  rewrite bool_decide_true in Hv by done. subst valid. unfold Key, Value, Next. cbn [negb]. rewrite (holds_valid _ _ Hp), (holds_valid _ _ Hc).
  destruct lp as [|[kp vp] lp].
  - rewrite (bool_decide_false ([] <> [])) by naive_solver. cbn [negb]. destruct lc as [|[kc vc] lc]; [done|]. cbn [settled] in Hs.
    rewrite merged_nil_l in E. destruct vc as [vc|]; [|done]. injection E as -> -> ->.
    destruct (holds_head _ _ _ _ Hc) as (Hkc & Hvc & c1 & Hnc & Hc1). split_and!; [done|done|]. rewrite Hnc. cbn [obind fst snd]. by apply (settle_holds asc p []).
  - rewrite (bool_decide_true (_ :: lp <> [])) by done. cbn [negb]. destruct (holds_head _ _ _ _ Hp) as (Hkp & Hvp & p1 & Hnp & Hp1).
    destruct lc as [|[kc vc] lc].
    + rewrite (bool_decide_false ([] <> [])) by naive_solver. cbn [negb]. rewrite merged_nil_r in E. injection E as -> -> ->.
      split_and!; [done|done|]. rewrite Hnp. cbn [obind fst snd]. destruct (settle_holds asc p1 lp c [] Hp1 Hc) as (i & ? & Hi).
      exists i. by rewrite merged_nil_r in Hi.
    + rewrite (bool_decide_true (_ :: lc <> [])) by done. cbn [negb]. destruct (holds_head _ _ _ _ Hc) as (Hkc & Hvc & c1 & Hnc & Hc1).
      rewrite Hkp, Hkc. cbn [obind]. destruct (compare_cases asc kp kc) as [[-> Hb]|[[-> <-]|[-> Hb]]]; cbn [Z.eqb].
      * rewrite merged_before in E by done. injection E as -> -> ->. split_and!; [done|done|]. rewrite Hnp. cbn [obind fst snd]. by apply settle_holds.
      * rewrite merged_same in E. destruct Hs as [Hb|Hs]; [by apply before_irrefl in Hb|]. destruct vc as [vc|]; [|done].
        injection E as -> -> ->. split_and!; [done|done|]. rewrite Hnp. cbn [obind]. rewrite Hnc. cbn [obind fst snd]. by apply settle_holds.
      * rewrite merged_after in E by done. destruct Hs as [Hs|Hs]; [by destruct (before_asym asc kp kc)|]. destruct vc as [vc|]; [|done].
        injection E as -> -> ->. split_and!; [done|done|]. rewrite Hnc. cbn [obind fst snd]. by apply (settle_holds asc p ((kp, vp) :: lp)).
Qed.

#[export] Instance merge_IteratorLaws : IteratorLaws cacheMergeIterator merge_holds.
Proof.
  split.
  - by intros i l (lp & lc & _ & _ & _ & _ & ?).
  - apply merge_head.
  - intros i l (lp & lc & Hp & Hc & _ & -> & _). etrans; [apply merged_length|]. cbn.
    pose proof (holds_size _ _ Hp). pose proof (holds_size _ _ Hc). lia.
Qed.

Lemma NewCacheMergeIterator_holds p lp c lc asc : holdsP p lp -> holdsC c lc ->
  exists iter, NewCacheMergeIterator p c asc = Ok iter /\ merge_holds iter (merged asc lp lc).
Proof. apply settle_holds. Qed.
End Merge.
End mergeiterator.

(** *** Merging ordered entries *)

Section MergedMaps.
Import mergeiterator.

Lemma elem_of_emit k v l (e : entry) : e ∈ emit k v l <-> (e = (k, v) /\ v <> None) \/ e ∈ l.
Proof. destruct v; cbn; [rewrite elem_of_cons|]; naive_solver. Qed.

Lemma ordered_emit asc k v l : ordered asc l -> (forall k' v', (k', v') ∈ l -> before asc k k') -> ordered asc (emit k v l).
Proof. intros Ho Hf. destruct v; [|done]. by apply ordered_cons. Qed.

(** The merged entries are ordered, and are those of the cache that exist and
    those of the parent the cache does not mention. *)
Lemma merged_spec asc lp lc : ordered asc lp -> ordered asc lc ->
  ordered asc (merged asc lp lc) /\
  forall k v, (k, v) ∈ merged asc lp lc <-> ((k, v) ∈ lc /\ v <> None) \/ ((k, v) ∈ lp /\ forall w, (k, w) ∉ lc).
Proof.
  revert lc. induction lp as [|[kp vp] lp IHp]; intros lc; induction lc as [|[kc vc] lc IHc]; intros Hop Hoc.
  - split; [done|]. intros k v. cbn. set_solver.
  - rewrite merged_nil_l. apply ordered_cons in Hoc as Hoc'. destruct Hoc' as [Hoc' Hf]. destruct (IHc Hop Hoc') as [Ho Hin]. split.
    + apply ordered_emit; [done|]. intros k v [[? _]|[[]%not_elem_of_nil _]]%Hin. by eapply Hf.
    + intros k v. rewrite elem_of_emit, Hin, elem_of_cons. setoid_rewrite not_elem_of_cons. set_solver.
  - rewrite merged_nil_r. split; [done|]. intros k v. set_solver.
  - apply ordered_cons in Hop as Hop'. destruct Hop' as [Hop' Hfp]. apply ordered_cons in Hoc as Hoc'. destruct Hoc' as [Hoc' Hfc].
    destruct (before_total asc kp kc) as [Hb|[<-|Hb]].
    + rewrite merged_before by done. destruct (IHp _ Hop' Hoc) as [Ho Hin].
      assert (forall v, (kp, v) ∉ (kc, vc) :: lc) as Hnot.
      { intros v [[= -> _]|Hv]%elem_of_cons; [by apply before_irrefl in Hb|]. apply Hfc in Hv. by eapply before_asym. }
      split.
      * apply ordered_cons. split; [done|]. intros k v [[[[= -> _]|Hv]%elem_of_cons _]|[Hv _]]%Hin; [done|etrans; [done|by eapply Hfc]|by eapply Hfp].
      * intros k v. rewrite elem_of_cons, Hin, (elem_of_cons lp). split; [intros [[= -> ->]|[?|[? ?]]]; auto|].
        intros [?|[[[= -> ->]|?] ?]]; auto.
    + rewrite merged_same. destruct (IHp _ Hop' Hoc') as [Ho Hin]. split.
      * apply ordered_emit; [done|]. intros k v [[Hv _]|[Hv _]]%Hin; [by eapply Hfc|by eapply Hfp].
      * intros k v. rewrite elem_of_emit, Hin, !elem_of_cons. setoid_rewrite not_elem_of_cons. split.
        -- intros [[[= -> ->] ?]|[[? ?]|[Hv ?]]]; [auto|auto|]. right. split; [auto|]. intros w. split; [|done].
           intros [= -> _]. apply Hfp in Hv. by apply before_irrefl in Hv.
        -- intros [[[[= -> ->]|?] ?]|[[[= -> ->]|?] Hn]]; [auto|auto|by destruct (proj1 (Hn vc))|]. right; right. split; [done|]. intros w. apply Hn.
    + rewrite merged_after by done. destruct (IHc Hop Hoc') as [Ho Hin]. split.
      * apply ordered_emit; [done|]. intros k v [[Hv _]|[[[= -> _]|Hv]%elem_of_cons _]]%Hin; [by eapply Hfc|done|etrans; [done|by eapply Hfp]].
      * intros k v. rewrite elem_of_emit, Hin, !(elem_of_cons lc). setoid_rewrite not_elem_of_cons. split.
        -- intros [[[= -> ->] ?]|[[? ?]|[Hv ?]]]; [auto|auto|]. right. split; [done|]. intros w. split; [|done].
           intros [= -> _]. apply elem_of_cons in Hv as [[= -> _]|Hv]; [by apply before_irrefl in Hb|]. apply Hfp in Hv. by eapply before_asym.
        -- intros [[[[= -> ->]|?] ?]|[? Hn]]; [auto|auto|]. right; right. split; [done|]. intros w. apply Hn.
Qed.
End MergedMaps.

#[export] Existing Instances memiter.mem_Iterator memiter.mem_IteratorLaws mergeiterator.merge_Iterator mergeiterator.merge_IteratorLaws.
