(* ===== verification/CacheKV.v ===== *)
(** CacheKV: cosmos-sdk/store/cachekv/store.go, the branch of a store that
    BaseApp runs a transaction on.

    A branch keeps the values read and written ([cache]), the keys written
    that are not yet in the sorted tree ([unsortedCache]), and a tree of sorted
    writes for iterators; it is a store over any parent store, so branches
    nest.  [tx_on_branch] is what BaseApp.runTx does with a branch: write it on
    success, drop it otherwise.

    Theorems: a branch of a lawful store is a lawful store with the parent's
    contents overridden by its cache, whatever the parent; Write moves those
    contents to the parent; running code on a branch is the rollback [runTx]
    assumes. *)

From Stdlib Require Import ZArith Lia Ascii String.
From stdpp Require Import base gmap sets list strings fin_maps sorting.
From S2P Require Import Prelude KVStore CacheIterators.
Import order.

Open Scope Z_scope.
Open Scope go_scope.

(** cometbft-db. *)
Class Dbm : Type := { IsKeyInDomain : string -> bound -> bound -> bool }.
Class DbmLaws `{Dbm} : Prop := { IsKeyInDomain_spec k start end_ : IsKeyInDomain k start end_ = true <-> in_domain start end_ k }.

Module cachekv.

(** *** Searching sorted keys *)

Definition str_at (strL : list string) (i : Z) : outcome string :=
  if i <? 0 then Panic else match strL !! Z.to_nat i with Some s => Ok s | None => Panic end.

(** [for i := mid - 1; i >= 0; i-- { if stop(strL[i]) { return i + 1 } }; return 0]. *)
Fixpoint scan_down (stop : string -> bool) (strL : list string) (n : nat) : outcome Z :=
  match n with
  | O => Ok 0
  | S i => let* s := str_at strL (Z.of_nat i) in if stop s then Ok (Z.of_nat i + 1) else scan_down stop strL i
  end.

(** The binary search of both functions: the index of a found key, or where
    [left] and [right] end. *)
Fixpoint bin_search (fuel : nat) (strL : list string) (q : string) (left_ right_ : Z) : outcome (Z + Z * Z) :=
  if left_ <=? right_ then
    match fuel with
    | O => Panic
    | S fuel =>
        let mid := Z.shiftr (left_ + right_) 1 in
        let* midStr := str_at strL mid in
        if bool_decide (midStr = q) then Ok (inl mid)
        else if bool_decide (str_lt midStr q) then bin_search fuel strL q (mid + 1) right_
        else bin_search fuel strL q left_ (mid - 1)
    end
  else Ok (inr (left_, right_)).

Definition len (strL : list string) : Z := Z.of_nat (length strL).

Definition findStartIndex (strL : list string) (startQ : string) : outcome Z :=
  if len strL =? 0 then Ok (-1) else
  let* r := bin_search (S (length strL)) strL startQ 0 (len strL - 1) in
  match r with
  | inl mid => let* midStr := str_at strL mid in scan_down (fun s => bool_decide (s <> midStr)) strL (Z.to_nat mid)
  | inr (left_, _) =>
      if (0 <=? left_) && (left_ <? len strL) then
        let* s := str_at strL left_ in
        Ok (if bool_decide (str_lt s startQ) then -1 else left_)
      else Ok (-1)
  end.

(** [for i := right_; i >= 0; i-- { if strL[i] < endQ { return i } }; return -1]. *)
Fixpoint last_below (strL : list string) (endQ : string) (n : nat) : outcome Z :=
  match n with
  | O => Ok (-1)
  | S i => let* s := str_at strL (Z.of_nat i) in if bool_decide (str_lt s endQ) then Ok (Z.of_nat i) else last_below strL endQ i
  end.

Definition findEndIndex (strL : list string) (endQ : string) : outcome Z :=
  if len strL =? 0 then Ok (-1) else
  let* r := bin_search (S (length strL)) strL endQ 0 (len strL - 1) in
  match r with
  | inl mid => let* midStr := str_at strL mid in scan_down (fun s => bool_decide (str_lt s midStr)) strL (Z.to_nat mid)
  | inr (_, right_) => last_below strL endQ (Z.to_nat (right_ + 1))
  end.

(** *** What they find in keys sorted without repetition *)

Definition sorted_keys (strL : list string) : Prop := StronglySorted str_lt strL.

Lemma str_at_Ok strL i s : str_at strL i = Ok s <-> 0 <= i /\ strL !! Z.to_nat i = Some s.
Proof. unfold str_at. destruct (Z.ltb_spec i 0); [split; [done|lia]|]. destruct (strL !! _); naive_solver. Qed.

Lemma str_at_lt strL i : 0 <= i < len strL -> exists s, str_at strL i = Ok s.
Proof.
  intros Hi. unfold len in Hi. destruct (lookup_lt_is_Some_2 strL (Z.to_nat i)) as [s Hs]; [lia|]. exists s. apply str_at_Ok. split; [lia|done].
Qed.

Lemma sorted_at strL i j s t : sorted_keys strL -> str_at strL i = Ok s -> str_at strL j = Ok t -> i < j -> str_lt s t.
Proof.
  rewrite !str_at_Ok. intros Hs [? Hi] [? Hj] Hij. rewrite <- (take_drop_middle strL _ s Hi) in Hs.
  unfold sorted_keys in Hs. apply StronglySorted_app in Hs as (_ & _ & Hs). apply StronglySorted_cons in Hs as [Hs _].
  rewrite Forall_lookup in Hs. apply (Hs (Z.to_nat j - S (Z.to_nat i))%nat). rewrite lookup_drop. by replace (_ + _)%nat with (Z.to_nat j) by lia.
Qed.

(** The search is right: a key that is found is the one asked for, and
    otherwise everything before [left] is below it and everything after
    [right] above. *)
Lemma bin_search_spec fuel strL q left right : sorted_keys strL ->
  0 <= left -> right < len strL -> left <= right + 1 -> right - left + 1 < Z.of_nat fuel ->
  (forall i s, i < left -> str_at strL i = Ok s -> str_lt s q) ->
  (forall i s, right < i -> str_at strL i = Ok s -> str_lt q s) ->
  (exists mid, bin_search fuel strL q left right = Ok (inl mid) /\ str_at strL mid = Ok q) \/
  (exists l, bin_search fuel strL q left right = Ok (inr (l, l - 1)) /\ 0 <= l <= len strL /\
    (forall i s, i < l -> str_at strL i = Ok s -> str_lt s q) /\ (forall i s, l <= i -> str_at strL i = Ok s -> str_lt q s)).
Proof.
  intros Hs. revert left right. induction fuel as [|fuel IH]; intros left right Hl Hr Hlr Hf Hlo Hhi; [lia|].
  cbn [bin_search]. destruct (Z.leb_spec left right) as [Hle|Hgt].
  - rewrite Z.shiftr_div_pow2 by lia. change (2 ^ 1) with 2. set (mid := (left + right) / 2).
    assert (left <= mid <= right) as Hm by (unfold mid; split; [apply Z.div_le_lower_bound|apply Z.div_le_upper_bound]; lia).
    destruct (str_at_lt strL mid) as [m Em]; [lia|]. rewrite Em. cbn [obind]. case_bool_decide as Eq; [left; exists mid; by subst m|].
    case_bool_decide as Hlt.
    + apply IH; try lia; [|done]. intros i s Hi Es. destruct (decide (i = mid)) as [Ei|]; [rewrite Ei in Es; congruence|].
      etrans; [|exact Hlt]. apply (sorted_at strL i mid); (done || lia).
    + apply IH; try lia; [done|]. intros i s Hi Es. assert (str_lt q m) as Hqm by (destruct (str_lt_total q m) as [?|[?|?]]; congruence).
      destruct (decide (i = mid)) as [Ei|]; [rewrite Ei in Es; congruence|]. etrans; [exact Hqm|]. apply (sorted_at strL mid i); (done || lia).
  - right. exists left. replace (left - 1) with right by lia. split_and!; [done|lia|lia|done|]. intros i s Hi. apply Hhi. lia.
Qed.

Lemma scan_down_stop (stop : string -> bool) strL n s : str_at strL (Z.of_nat n) = Ok s ->
  (forall i t, i < Z.of_nat n -> str_at strL i = Ok t -> stop t = true) -> scan_down stop strL n = Ok (Z.of_nat n).
Proof.
  intros Hs Hst. destruct n as [|n]; [done|]. cbn [scan_down]. apply str_at_Ok in Hs as [_ Hs].
  destruct (str_at_lt strL (Z.of_nat n)) as [u Eu]; [apply lookup_lt_Some in Hs; unfold len; lia|].
  rewrite Eu. cbn [obind]. rewrite (Hst (Z.of_nat n) u) by (done || lia). f_equal. lia.
Qed.


Lemma search_all strL q : sorted_keys strL -> strL <> [] ->
  (exists mid, bin_search (S (length strL)) strL q 0 (len strL - 1) = Ok (inl mid) /\ str_at strL mid = Ok q) \/
  (exists l, bin_search (S (length strL)) strL q 0 (len strL - 1) = Ok (inr (l, l - 1)) /\ 0 <= l <= len strL /\
    (forall i s, i < l -> str_at strL i = Ok s -> str_lt s q) /\ (forall i s, l <= i -> str_at strL i = Ok s -> str_lt q s)).
Proof.
  intros Hs Hn. apply bin_search_spec; unfold len; [done|lia|lia|lia|lia| |].
  - intros i s ? [? _]%str_at_Ok. lia.
  - intros i s Hi [? Hl%lookup_lt_Some]%str_at_Ok. lia.
Qed.

(** findStartIndex returns the first index that is not below [q], and -1 when
    there is none. *)
Lemma findStartIndex_spec strL q : sorted_keys strL ->
  exists n, findStartIndex strL q = Ok n /\ -1 <= n < Z.max 1 (len strL) /\
    (forall i s, str_at strL i = Ok s -> (str_lt s q <-> n = -1 \/ i < n)).
Proof.
  intros Hs. unfold findStartIndex. destruct (Z.eqb_spec (len strL) 0) as [E|E].
  - exists (-1). split_and!; [done|lia|lia|]. intros i s [? Hi%lookup_lt_Some]%str_at_Ok. unfold len in E. lia.
  - assert (strL <> []) as Hn by (intros ->; done). destruct (search_all strL q Hs Hn) as [(mid & -> & Em)|(l & -> & Hl & Hlo & Hhi)]; cbn [obind].
    + rewrite Em. cbn [obind]. pose proof Em as [Hm0 Hm]%str_at_Ok. pose proof (lookup_lt_Some _ _ _ Hm) as Hml. exists mid.
      rewrite (scan_down_stop _ _ _ q); rewrite ?Z2Nat.id by lia; [|done|].
      * split_and!; [done|lia|unfold len; lia|]. intros i s Hi. split.
        -- intros Hlt. right. destruct (decide (i < mid)) as [|]; [done|]. destruct (decide (i = mid)) as [->|]; [|].
           ++ rewrite Em in Hi. injection Hi as <-. by apply str_lt_irrefl in Hlt.
           ++ destruct (str_lt_irrefl s). etrans; [exact Hlt|]. apply (sorted_at strL mid i); (done || lia).
        -- intros [->|?]; [lia|]. by apply (sorted_at strL i mid).
      * intros i t Hi Ht. apply bool_decide_true. intros ->. apply (str_lt_irrefl q). by apply (sorted_at strL i mid).
    + rewrite (proj2 (Z.leb_le 0 l)) by lia. cbn [andb]. destruct (Z.ltb_spec l (len strL)) as [Hll|Hll].
      * destruct (str_at_lt strL l) as [t Et]; [lia|]. rewrite Et. cbn [obind]. pose proof (Hhi l t ltac:(lia) Et) as Ht.
        rewrite bool_decide_false by (intros ?; apply (str_lt_irrefl q); by etrans). exists l. split_and!; [done|lia|lia|].
        intros i s Hi. split; [|intros [?|?]; [lia|by eapply Hlo]]. intros Hsq. right. destruct (decide (i < l)); [done|].
        destruct (str_lt_irrefl q). etrans; [|exact Hsq]. apply (Hhi i); (done || lia).
      * exists (-1). split_and!; [done|lia|lia|]. intros i s Hi. split; [by left|]. intros _. apply (Hlo i); [|done].
        apply str_at_Ok in Hi as [? Hi%lookup_lt_Some]. unfold len in *. lia.
Qed.

(** findEndIndex returns the last index below [q], or that of [q] itself; -1
    when there is none. *)
Lemma findEndIndex_spec strL q : sorted_keys strL ->
  exists n, findEndIndex strL q = Ok n /\ -1 <= n < Z.max 1 (len strL) /\
    forall i s, str_at strL i = Ok s -> (str_lt s q -> i <= n) /\ (i < n -> str_lt s q).
Proof.
  intros Hs. unfold findEndIndex. destruct (Z.eqb_spec (len strL) 0) as [E|E].
  - exists (-1). split_and!; [done|lia|lia|]. intros i s [? Hi%lookup_lt_Some]%str_at_Ok. unfold len in E. lia.
  - assert (strL <> []) as Hn by (intros ->; done). destruct (search_all strL q Hs Hn) as [(mid & -> & Em)|(l & -> & Hl & Hlo & Hhi)]; cbn [obind].
    + rewrite Em. cbn [obind]. pose proof Em as [Hm0 Hm]%str_at_Ok. pose proof (lookup_lt_Some _ _ _ Hm) as Hml. exists mid.
      assert (forall i s, i < mid -> str_at strL i = Ok s -> str_lt s q) as Hbelow by (intros i s ? Hi; by apply (sorted_at strL i mid)).
      rewrite (scan_down_stop _ _ _ q); rewrite ?Z2Nat.id by lia; [|done|].
      * split_and!; [done|lia|unfold len; lia|]. intros i s Hi. split; [|by intros ?; eapply Hbelow]. intros Hlt.
        destruct (decide (i <= mid)) as [|]; [done|]. destruct (str_lt_irrefl s). etrans; [exact Hlt|]. apply (sorted_at strL mid i); (done || lia).
      * intros i t Hi Ht. apply bool_decide_true. by eapply Hbelow.
    + replace (l - 1 + 1) with l by lia. exists (l - 1). split_and!; [|lia|lia|].
      * destruct (Z.to_nat l) as [|n] eqn:El; cbn [last_below]; [f_equal; lia|].
        destruct (str_at_lt strL (Z.of_nat n)) as [t Et]; [lia|]. rewrite Et. cbn [obind].
        rewrite bool_decide_true by (apply (Hlo (Z.of_nat n)); (done || lia)). f_equal. lia.
      * intros i s Hi. split; [|intros ?; apply (Hlo i); (done || lia)]. intros Hsq. destruct (decide (i < l)) as [|]; [lia|].
        destruct (str_lt_irrefl q). etrans; [|exact Hsq]. apply (Hhi i); (done || lia).
Qed.

(** *** The branch *)

Record cValue : Type := mkCValue {
  value : option string;
  dirty : bool;
}.

Definition minSortSize : Z := 1024.

Section Branch.
Context {S I : Type} `{KVStore S I} `{Iterator I} `{BTreeG} `{Dbm}.

Record Store : Type := mkStore {
  cache : gmap string cValue;
  unsortedCache : gset string;
  sortedCache : tree;
  parent : S;
}.

Definition NewStore (parent : S) : Store := mkStore ∅ ∅ tree_New parent.

Definition set_cache c (st : Store) : Store := mkStore c (unsortedCache st) (sortedCache st) (parent st).
Definition set_unsorted u (st : Store) : Store := mkStore (cache st) u (sortedCache st) (parent st).
Definition set_sorted t (st : Store) : Store := mkStore (cache st) (unsortedCache st) t (parent st).
Definition set_parent p (st : Store) : Store := mkStore (cache st) (unsortedCache st) (sortedCache st) p.

(** A call of a method of the parent. *)
Definition on_parent {A} (c : M S A) : M Store A := fun st =>
  let '(r, p) := c (parent st) in (r, set_parent p st).

Definition setCacheValue (key : string) (v : option string) (d : bool) : M Store unit :=
  modify (fun st => set_cache (<[key := mkCValue v d]> (cache st)) st) ;;!
  when d (modify (fun st => set_unsorted ({[key]} ∪ unsortedCache st) st)).

Definition Get (key : string) : M Store (option string) :=
  AssertValidKey key ;;!
  let! c := reads cache in
  match c !! key with
  | None =>
      let! v := on_parent (kv_Get key) in
      setCacheValue key v false ;;!
      ret v
  | Some cacheValue => ret (value cacheValue)
  end.

Definition Set_ (key : string) (v : option string) : M Store unit :=
  AssertValidKey key ;;!
  AssertValidValue v ;;!
  setCacheValue key v true.

Definition Has (key : string) : M Store bool :=
  let! v := Get key in
  ret (bool_decide (v <> None)).

Definition Delete (key : string) : M Store unit :=
  AssertValidKey key ;;!
  setCacheValue key None true.

(** The keys of the dirty values, sorted. *)
Definition str_le (a b : string) : Prop := String.leb a b = true.
#[export] Instance str_le_dec : RelDecision str_le.
Proof. intros a b. unfold str_le. apply _. Defined.

Definition dirty_keys (c : gmap string cValue) : list string :=
  merge_sort str_le (filter (fun kc : string * cValue => dirty kc.2 = true) (map_to_list c)).*1.

(** store.cache[key], whose fields are read: a missing key is a nil pointer. *)
Definition cached (key : string) : M Store cValue :=
  let! c := reads cache in or_panic (c !! key).

Definition write_cached (key : string) : M Store unit :=
  let! cacheValue := cached key in
  match value cacheValue with
  | Some v => on_parent (kv_Set key (Some v))
  | None => on_parent (kv_Delete key)
  end.

Definition Write : M Store unit :=
  let! st := get in
  if bool_decide (cache st = ∅) && bool_decide (unsortedCache st = ∅) then modify (set_sorted tree_New) else
  for_each (dirty_keys (cache st)) write_cached ;;!
  modify (fun st => set_sorted tree_New (set_unsorted ∅ (set_cache ∅ st))).

(** *** Iteration *)

(** The key-value pairs of cached keys. *)
Fixpoint pairs (keys : list string) : M Store (list entry) :=
  match keys with
  | [] => ret []
  | key :: keys =>
      let! cacheValue := cached key in
      let! l := pairs keys in
      ret ((key, value cacheValue) :: l)
  end.

Inductive sortState : Type := stateUnsorted | stateAlreadySorted.

Definition sort_pairs (l : list entry) : list entry := merge_sort key_le l.

Definition clearUnsortedCacheSubset (unsorted : list entry) (state : sortState) : M Store unit :=
  let! st := get in
  (if Nat.eqb (length unsorted) (size (unsortedCache st)) then modify (set_unsorted ∅)
   else for_each unsorted (fun kv => modify (fun st => set_unsorted (unsortedCache st ∖ {[kv.1]}) st))) ;;!
  for_each (match state with stateUnsorted => sort_pairs unsorted | stateAlreadySorted => unsorted end)
    (fun item => modify (fun st => set_sorted (tree_Set item.1 item.2 (sortedCache st)) st)).

(** The indices [startIndex..endIndex] of the sorted unsorted keys to move to
    the tree: those of the domain, and at least [minSortSize] of them. *)
Definition dirty_span (strL : list string) (start end_ : bound) : outcome (Z * Z) :=
  let startStr := default "" start in
  let* s := findStartIndex strL startStr in
  let startIndex := if s <? 0 then 0 else s in
  let* e := match end_ with None => Ok (len strL - 1) | Some endStr => findEndIndex strL endStr end in
  let endIndex := if e <? 0 then len strL - 1 else e in
  Ok (if endIndex - startIndex <? minSortSize then
        let endIndex := Z.min (startIndex + minSortSize) (len strL - 1) in
        if endIndex - startIndex <? minSortSize then (Z.max (endIndex - minSortSize) 0, endIndex) else (startIndex, endIndex)
      else (startIndex, endIndex)).

(** [strL[startIndex..endIndex]]. *)
Fixpoint strs_at (strL : list string) (idx : list Z) : outcome (list string) :=
  match idx with
  | [] => Ok []
  | i :: idx => let* s := str_at strL i in let* l := strs_at strL idx in Ok (s :: l)
  end.

Definition dirtyItems (start end_ : bound) : M Store unit :=
  let startStr := default "" start in
  if match end_ with Some endStr => bool_decide (str_lt endStr startStr) | None => false end then ret tt else
  let! st := get in
  if Z.of_nat (size (unsortedCache st)) <? minSortSize then
    let! unsorted := pairs (filter (fun key => IsKeyInDomain key start end_ = true) (elements (unsortedCache st))) in
    clearUnsortedCacheSubset unsorted stateUnsorted
  else
    let strL := merge_sort str_le (elements (unsortedCache st)) in
    let! span := lift (dirty_span strL start end_) in
    let '(startIndex, endIndex) := span in
    let! keys := lift (strs_at strL (seqZ startIndex (endIndex - startIndex + 1))) in
    let! kvL := pairs keys in
    clearUnsortedCacheSubset kvL stateAlreadySorted.

Definition iterator (ascending : bool) (start end_ : bound) : M Store (mergeiterator.cacheMergeIterator (IP := I) (IC := memiter.memIterator)) :=
  dirtyItems start end_ ;;!
  let! isoSortedCache := reads sortedCache in
  let! parent := on_parent (kv_iterator ascending start end_) in
  match memiter.BTree_iterator start end_ isoSortedCache ascending with
  | Ok cache => lift (mergeiterator.NewCacheMergeIterator parent cache ascending)
  | _ => panic
  end.

#[export] Instance branch_KVStore : KVStore Store (mergeiterator.cacheMergeIterator (IP := I) (IC := memiter.memIterator)) := {|
  kv_Get := Get;
  kv_Has := Has;
  kv_Set := Set_;
  kv_Delete := Delete;
  kv_iterator := iterator;
|}.
End Branch.

(** ** A branch of a lawful store is a lawful store *)

Lemma sorted_merge_sort (l : list string) : NoDup l -> sorted_keys (merge_sort str_le l).
Proof.
  intros Hnd. assert (Transitive str_le) as Ht by (intros x y z; unfold str_le; rewrite !leb_lt; intros [?| ->] [?| <-]; auto; left; by etrans).
  assert (Total str_le) as Hto by (intros x y; unfold str_le; rewrite !leb_lt; destruct (str_lt_total x y) as [?|[?|?]]; auto).
  pose proof (StronglySorted_merge_sort str_le l) as Hs. assert (NoDup (merge_sort str_le l)) as Hn by (by rewrite (merge_sort_Permutation str_le)).
  revert Hs Hn. generalize (merge_sort str_le l). clear. intros l Hs. induction Hs as [|x l Hs IH Hf]; intros Hn; [constructor|].
  apply NoDup_cons in Hn as [Hx Hn]. constructor; [by apply IH|]. rewrite Forall_forall in Hf |- *. intros y Hy.
  destruct (proj1 (leb_lt x y) (Hf y Hy)) as [?| ->]; done.
Qed.

Section Searching.

Lemma str_at_inj strL i j s : NoDup strL -> str_at strL i = Ok s -> str_at strL j = Ok s -> i = j.
Proof. rewrite !str_at_Ok. intros Hn [? Hi] [? Hj]. pose proof (NoDup_lookup _ _ _ _ Hn Hi Hj). lia. Qed.

Lemma strs_at_spec strL idx : NoDup strL -> NoDup idx -> (forall i, i ∈ idx -> 0 <= i < len strL) ->
  exists l, strs_at strL idx = Ok l /\ NoDup l /\ forall k, k ∈ l <-> exists i, i ∈ idx /\ str_at strL i = Ok k.
Proof.
  intros Hs. induction idx as [|i idx IH]; intros Hn Hr; cbn [strs_at].
  - exists []. split_and!; [done|constructor|]. intros k. split; [by intros ?%elem_of_nil|by intros (? & ?%elem_of_nil & _)].
  - apply NoDup_cons in Hn as [Hi Hn]. destruct (str_at_lt strL i) as [s Es]; [apply Hr; apply elem_of_cons; by left|]. rewrite Es. cbn [obind].
    destruct IH as (l & -> & Hl & Hin); [done|intros j Hj; apply Hr; apply elem_of_cons; by right|]. cbn [obind]. exists (s :: l). split_and!; [done| |].
    + constructor; [|done]. rewrite Hin. intros (j & Hj & Ej). by rewrite (str_at_inj strL i j s Hs Es Ej) in Hi.
    + intros k. rewrite elem_of_cons, Hin. setoid_rewrite elem_of_cons. split.
      * intros [->|(j & ? & ?)]; eauto.
      * intros (j & [->|?] & Ej); [left; congruence|eauto].
Qed.

(** The span covers the domain. *)
Lemma dirty_span_spec strL start end_ : sorted_keys strL -> strL <> [] ->
  exists a b, dirty_span strL start end_ = Ok (a, b) /\ 0 <= a /\ b < len strL /\
    forall i s, str_at strL i = Ok s -> in_domain start end_ s -> a <= i <= b.
Proof.
  intros Hs Hn. assert (0 < len strL) as Hlen by (unfold len; destruct strL; [done|cbn; lia]). unfold dirty_span.
  destruct (findStartIndex_spec strL (default "" start) Hs) as (n & -> & Hn1 & Hstart). cbn [obind].
  assert (exists m, match end_ with None => Ok (len strL - 1) | Some endStr => findEndIndex strL endStr end = Ok m /\ m < len strL /\
    forall i s, str_at strL i = Ok s -> in_domain start end_ s -> i <= m) as (m & -> & Hm & Hend).
  { destruct end_ as [e|].
    - destruct (findEndIndex_spec strL e Hs) as (m & -> & Hm & Hend). exists m. split_and!; [done|lia|]. intros i s Hi [_ He]. by apply (Hend i s).
    - exists (len strL - 1). split_and!; [done|lia|]. intros i s [? Hi%lookup_lt_Some]%str_at_Ok _. unfold len. lia. }
  cbn [obind].
  assert (forall i s, str_at strL i = Ok s -> in_domain start end_ s -> (if n <? 0 then 0 else n) <= i <= if m <? 0 then len strL - 1 else m) as Hcov.
  { intros i s Hi Hd. pose proof (Hend i s Hi Hd) as Hle. pose proof Hi as [Hi0 _]%str_at_Ok. assert (~ str_lt s (default "" start)) as Hns.
    { destruct Hd as [Hd _]. destruct start; [done|]. cbn. apply str_lt_nil. }
    rewrite (Hstart i s Hi) in Hns. destruct (Z.ltb_spec n 0), (Z.ltb_spec m 0); lia. }
  destruct (Z.ltb_spec n 0), (Z.ltb_spec m 0); cbn [fst snd] in *;
    repeat match goal with |- context [?x <? ?y] => destruct (Z.ltb_spec x y) end;
    (eexists _, _; split_and!; [done|unfold minSortSize in *; lia|unfold minSortSize in *; lia|]; intros i s Hi Hd; specialize (Hcov i s Hi Hd); unfold minSortSize in *; lia).
Qed.
End Searching.

Section BranchLaws.
Context {S I : Type} `{KVStoreLaws S I inv contents holds} `{BTreeGLaws items on at_item} `{DbmLaws}.
Notation Store := (@Store S _).

(** What a branch shows: its cache over its parent. *)
Definition visible (st : Store) : contents_map :=
  merge (fun c p => match c with Some cv => value cv | None => p end) (cache st) (contents (parent st)).

Lemma lookup_visible st k : visible st !! k = match cache st !! k with Some cv => value cv | None => contents (parent st) !! k end.
Proof. unfold visible. rewrite lookup_merge. unfold diag_None. destruct (cache st !! k), (contents (parent st) !! k); done. Qed.

(** The clean values are the parent's; the keys not in [unsortedCache] are in
    the tree exactly when they are dirty. *)
Record branch_inv (st : Store) : Prop := {
  bi_parent : inv (parent st);
  bi_clean : forall k cv, cache st !! k = Some cv -> k <> "" /\ (dirty cv = false -> value cv = contents (parent st) !! k);
  bi_unsorted : forall k, k ∈ unsortedCache st -> exists v, cache st !! k = Some (mkCValue v true);
  bi_sorted : forall k v, k ∉ unsortedCache st -> ((k, v) ∈ items (sortedCache st) <-> cache st !! k = Some (mkCValue v true));
}.

Lemma NewStore_inv p : inv p -> branch_inv (NewStore p) /\ visible (NewStore p) = contents p.
Proof.
  intros Hp. split.
  - split; cbn; [done|by intros k cv []%lookup_empty_Some|set_solver|]. intros k v _. rewrite items_New, lookup_empty. split; [by intros ?%elem_of_nil|done].
  - apply map_eq. intros k. by rewrite lookup_visible.
Qed.

Lemma set_dirty st k v : branch_inv st -> k <> "" ->
  exists st', setCacheValue k v true st = (Ok tt, st') /\ branch_inv st' /\ visible st' = partial_alter (fun _ => v) k (visible st).
Proof.
  intros [Hp Hc Hu Ht] Hk. eexists. split; [done|]. split.
  - split; cbn; [done| | |].
    + intros k' cv. rewrite lookup_insert_Some. intros [[<- <-]|[_ ?]]; [done|by apply Hc].
    + intros k'. rewrite elem_of_union, elem_of_singleton. intros [->|Hk']; [exists v; by rewrite lookup_insert_eq|].
      destruct (decide (k = k')) as [->|]; [exists v; by rewrite lookup_insert_eq|]. rewrite lookup_insert_ne by done. by apply Hu.
    + intros k' v' Hn. rewrite lookup_insert_ne by set_solver. apply Ht. set_solver.
  - apply map_eq. intros k'. rewrite lookup_visible. cbn. destruct (decide (k = k')) as [->|].
    + by rewrite lookup_insert_eq, lookup_partial_alter_eq.
    + by rewrite lookup_insert_ne, lookup_partial_alter_ne, lookup_visible by done.
Qed.

(** *** Reads and writes *)

(** A call of the parent that leaves its contents. *)
Lemma set_parent_inv st p : branch_inv st -> inv p -> contents p = contents (parent st) ->
  branch_inv (set_parent p st) /\ visible (set_parent p st) = visible st.
Proof.
  intros [Hp Hc Hu Ht] Hi E. split.
  - split; cbn; [done| |done|done]. by rewrite E.
  - unfold visible. cbn. by rewrite E.
Qed.

Lemma Get_refines k : refines branch_inv visible (Get k) (map_Get k).
Proof.
  apply refines_assert. intros Hk st Hst. unfold bind at 1. cbn [reads]. change ((reads cache) st) with (Ok (cache st), st). cbn [fst snd reads].
  rewrite lookup_visible. destruct (cache st !! k) as [cv|] eqn:Ek; [by exists st|].
  destruct (kv_Get_refines k (parent st) (bi_parent _ Hst)) as (p & Ep & Hp & Ec). unfold map_Get, AssertValidKey in Ep, Ec.
  rewrite bool_decide_false in Ep, Ec by done. change (_ ;;! _) with (reads (fun m : contents_map => m !! k)) in Ep, Ec. cbn [reads fst snd] in Ep, Ec.
  unfold on_parent. unfold bind at 1. rewrite Ep. destruct (set_parent_inv st p Hst Hp Ec) as [[Hp' Hc Hu Ht] Ev].
  eexists. split; [done|]. split.
  - split; cbn in *; [done| | |].
    + intros k' cv. rewrite lookup_insert_Some. intros [[<- <-]|[_ ?]]; [cbn; by rewrite Ec|by apply Hc].
    + intros k' Hk'. destruct (Hu k' Hk') as [v Hv]. exists v. rewrite lookup_insert_ne; [done|]. intros <-. congruence.
    + intros k' v Hn. rewrite (Ht k' v Hn). destruct (decide (k = k')) as [->|]; [rewrite lookup_insert_eq; naive_solver|by rewrite lookup_insert_ne].
  - rewrite <- Ev. apply map_eq. intros k'. rewrite !lookup_visible. cbn. destruct (decide (k = k')) as [->|].
    + by rewrite lookup_insert_eq, Ek, Ec.
    + by rewrite lookup_insert_ne.
Qed.

Lemma Set_refines k v : refines branch_inv visible (Set_ k v) (map_Set k v).
Proof.
  apply refines_assert. intros Hk. unfold AssertValidValue. case_bool_decide as Hv; [apply refines_panic|].
  intros st Hst. destruct (set_dirty st k v Hst Hk) as (st' & E & ? & ?). by exists st'.
Qed.

Lemma Delete_refines k : refines branch_inv visible (Delete k) (map_Delete k).
Proof. apply refines_assert. intros Hk st Hst. destruct (set_dirty st k None Hst Hk) as (st' & E & ? & ?). by exists st'. Qed.

Lemma Has_refines k : refines branch_inv visible (Has k) (map_Has k).
Proof.
  assert (map_Has k = (let! v := map_Get k in ret (bool_decide (v <> None)))) as ->.
  { unfold map_Has, map_Get, AssertValidKey. by case_bool_decide. }
  apply refines_bind; [apply Get_refines|]. intros v. apply refines_ret.
Qed.

(** *** Sorting the dirty items of a domain *)

Lemma pairs_spec keys (st : Store) : (forall k, k ∈ keys -> exists v, cache st !! k = Some (mkCValue v true)) ->
  exists l, pairs keys st = (Ok l, st) /\ l.*1 = keys /\ forall k v, (k, v) ∈ l -> cache st !! k = Some (mkCValue v true).
Proof.
  induction keys as [|k keys IH]; intros Hk.
  - exists []. split_and!; [done|done|]. by intros k v ?%elem_of_nil.
  - destruct (Hk k) as [v Ev]; [apply elem_of_cons; by left|]. destruct IH as (l & El & E1 & Hl); [intros k' ?; apply Hk, elem_of_cons; by right|].
    exists ((k, v) :: l). split_and!; [|cbn; by f_equal|].
    + cbn [pairs]. unfold cached. erewrite bind_run; [|erewrite bind_run by done; by rewrite Ev]. by rewrite (bind_run _ _ _ _ _ El).
    + intros k' v' [[= -> ->]|?]%elem_of_cons; auto.
Qed.

Definition set_items (l : list entry) (t : tree) : tree := foldl (fun t item => tree_Set item.1 item.2 t) t l.

Lemma items_set_items l t k v : NoDup l.*1 ->
  (k, v) ∈ items (set_items l t) <-> (k, v) ∈ l \/ (k ∉ l.*1 /\ (k, v) ∈ items t).
Proof.
  revert t. induction l as [|[k0 v0] l IH]; intros t Hn; [cbn; set_solver|]. cbn in Hn. apply NoDup_cons in Hn as [Hk0 Hn].
  cbn [set_items foldl fst snd]. rewrite (IH (tree_Set k0 v0 t) Hn), items_Set. cbn [fmap list_fmap fst]. rewrite !elem_of_cons.
  destruct (decide (k = k0)) as [->|]; naive_solver.
Qed.

Lemma foldl_unsorted (l : list entry) (st : Store) :
  foldl (fun st kv => set_unsorted (unsortedCache st ∖ {[kv.1]}) st) st l = set_unsorted (unsortedCache st ∖ list_to_set l.*1) st.
Proof.
  revert st. induction l as [|[k v] l IH]; intros st; cbn [foldl fst].
  - unfold set_unsorted. destruct st as [c u t p]. cbn. f_equal. set_solver.
  - rewrite IH. unfold set_unsorted. cbn. f_equal. set_solver.
Qed.

Lemma foldl_sorted (l : list entry) (st : Store) :
  foldl (fun st item => set_sorted (tree_Set item.1 item.2 (sortedCache st)) st) st l = set_sorted (set_items l (sortedCache st)) st.
Proof. revert st. induction l as [|e l IH]; intros st; [by destruct st|]. cbn [foldl]. by rewrite IH. Qed.

Lemma clearUnsortedCacheSubset_spec l state (st : Store) : branch_inv st -> NoDup l.*1 ->
  (forall k, k ∈ l.*1 -> k ∈ unsortedCache st) -> (forall k v, (k, v) ∈ l -> cache st !! k = Some (mkCValue v true)) ->
  exists st', clearUnsortedCacheSubset l state st = (Ok tt, st') /\ branch_inv st' /\ cache st' = cache st /\ parent st' = parent st /\
    unsortedCache st' = unsortedCache st ∖ list_to_set l.*1.
Proof.
  intros [Hp Hc Hu Ht] Hn Hsub Hl. set (u := unsortedCache st ∖ list_to_set l.*1).
  assert ((if Nat.eqb (length l) (size (unsortedCache st)) then modify (set_unsorted ∅)
    else for_each l (fun kv => modify (fun st => set_unsorted (unsortedCache st ∖ {[kv.1]}) st))) st = (Ok tt, set_unsorted u st)) as Eu.
  { destruct (Nat.eqb_spec (length l) (size (unsortedCache st))) as [E|_].
    - unfold modify. do 2 f_equal. symmetry. unfold u. apply leibniz_equiv. assert (list_to_set l.*1 ≡ unsortedCache st) as ->; [|set_solver].
      apply set_subseteq_size_equiv; [intros k Hk%elem_of_list_to_set; by apply Hsub|]. rewrite size_list_to_set by done. rewrite length_fmap. lia.
    - rewrite for_each_modify. f_equal. apply foldl_unsorted. }
  set (l' := match state with stateUnsorted => sort_pairs l | stateAlreadySorted => l end).
  assert (l' ≡ₚ l) as Hperm by (destruct state; [apply merge_sort_Permutation|done]).
  assert (forall st : Store, for_each l' (fun item => modify (fun st => set_sorted (tree_Set item.1 item.2 (sortedCache st)) st)) st =
    (Ok tt, set_sorted (set_items l' (sortedCache st)) st)) as Es.
  { intros s0. rewrite for_each_modify. f_equal. apply foldl_sorted. }
  eexists. split; [unfold clearUnsortedCacheSubset; erewrite bind_run by done; rewrite (bind_run _ _ _ _ _ Eu); apply Es|].
  split; [|done]. split; cbn; [done|done| |].
  - intros k [Hk _]%elem_of_difference. by apply Hu.
  - intros k v. rewrite items_set_items by (by rewrite Hperm). rewrite Hperm. unfold u. rewrite not_elem_of_difference, elem_of_list_to_set.
    intros Hk. destruct (decide (k ∈ l.*1)) as [Hin|Hin].
    + apply list_elem_of_fmap in Hin as Hin'. destruct Hin' as ([k' v'] & -> & Hv). pose proof (Hl _ _ Hv) as Ev. cbn in *. split.
      * intros [?|[? _]]; [by apply Hl|done].
      * intros E. left. by simplify_eq.
    + rewrite <- Ht by tauto. split; [|auto]. intros [Hv|[_ ?]]; [|done]. destruct Hin. by apply (list_elem_of_fmap_2 fst _ _ Hv).
Qed.

(** dirtyItems leaves no unsorted key in the domain. *)
Lemma dirtyItems_spec start end_ (st : Store) : branch_inv st ->
  exists st', dirtyItems start end_ st = (Ok tt, st') /\ branch_inv st' /\ cache st' = cache st /\ parent st' = parent st /\
    forall k, in_domain start end_ k -> k ∉ unsortedCache st'.
Proof.
  intros Hst. unfold dirtyItems. destruct (match end_ with Some endStr => _ | None => false end) eqn:Eb.
  { exists st. split_and!; [done..|]. intros k [Hlo Hhi] _. destruct end_ as [e|]; [|done]. apply bool_decide_eq_true in Eb.
    destruct start as [s0|]; [|by apply str_lt_nil in Eb]. apply Hlo. by etrans. }
  erewrite bind_run by done. destruct (Z.ltb_spec (Z.of_nat (size (unsortedCache st))) minSortSize) as [Hsmall|Hlarge].
  - destruct (pairs_spec (filter (fun key => IsKeyInDomain key start end_ = true) (elements (unsortedCache st))) st) as (l & El & E1 & Hl).
    { intros k [_ Hk]%list_elem_of_filter. apply (bi_unsorted _ Hst). by apply elem_of_elements. }
    rewrite (bind_run _ _ _ _ _ El). destruct (clearUnsortedCacheSubset_spec l stateUnsorted st Hst) as (st' & E & Hst' & ? & ? & Eu).
    + rewrite E1. apply NoDup_filter, NoDup_elements.
    + intros k. rewrite E1, list_elem_of_filter, elem_of_elements. tauto.
    + done.
    + exists st'. split_and!; [done..|]. intros k Hk. rewrite Eu, E1, elem_of_difference, elem_of_list_to_set, list_elem_of_filter, IsKeyInDomain_spec, elem_of_elements. tauto.
  - set (strL := merge_sort str_le (elements (unsortedCache st))).
    assert (strL ≡ₚ elements (unsortedCache st)) as Hperm by apply merge_sort_Permutation.
    assert (NoDup strL) as Hnd by (rewrite Hperm; apply NoDup_elements).
    assert (sorted_keys strL) as Hsorted by (apply sorted_merge_sort, NoDup_elements).
    assert (strL <> []) as Hne.
    { intros E. apply (f_equal length) in E. rewrite Hperm in E. change (length (elements (unsortedCache st))) with (size (unsortedCache st)) in E.
      unfold minSortSize in Hlarge. cbn in E. lia. }
    destruct (dirty_span_spec strL start end_ Hsorted Hne) as (a & b & Es & Ha & Hb & Hcov).
    assert (forall (o : outcome (Z * Z)) x, o = Ok x -> lift o st = (Ok x, st)) as Hlift by (by intros ? ? ->).
    rewrite (bind_run _ _ _ _ _ (Hlift _ _ Es)).
    destruct (strs_at_spec strL (seqZ a (b - a + 1)) Hnd) as (keys & Ek & Hkn & Hkin); [apply NoDup_seqZ|intros i; rewrite elem_of_seqZ; lia|].
    rewrite Ek. erewrite bind_run by done.
    assert (forall k, k ∈ keys -> k ∈ unsortedCache st) as Hku.
    { intros k (i & _ & Hi)%Hkin. apply str_at_Ok in Hi as [_ Hi%list_elem_of_lookup_2]. by rewrite Hperm, elem_of_elements in Hi. }
    destruct (pairs_spec keys st) as (l & El & E1 & Hl); [intros k Hk; by apply (bi_unsorted _ Hst), Hku|].
    rewrite (bind_run _ _ _ _ _ El). destruct (clearUnsortedCacheSubset_spec l stateAlreadySorted st Hst) as (st' & E & Hst' & ? & ? & Eu); [by rewrite E1|by rewrite E1|done|].
    exists st'. split_and!; [done..|]. intros k Hk. rewrite Eu, E1, elem_of_difference, elem_of_list_to_set. intros [Hin Hnk]. apply Hnk, Hkin.
    assert (k ∈ strL) as [i Hi]%list_elem_of_lookup by (by rewrite Hperm, elem_of_elements).
    assert (str_at strL (Z.of_nat i) = Ok k) as Hat by (apply str_at_Ok; rewrite Nat2Z.id; split; [lia|done]).
    exists (Z.of_nat i). split; [|done]. rewrite elem_of_seqZ. pose proof (Hcov _ _ Hat Hk). lia.
Qed.

(** *** Iterators *)

Lemma elem_of_entries asc start end_ (m : contents_map) k v :
  (k, v) ∈ entries asc start end_ m <-> in_domain start end_ k /\ exists x, v = Some x /\ m !! k = Some x.
Proof. unfold entries. rewrite elem_of_range, lookup_fmap. destruct (m !! k) as [x|]; cbn; naive_solver. Qed.

(** The parent's entries overridden by the tree's items are the entries of
    the branch. *)
Lemma merged_visible asc start end_ st : branch_inv st -> (forall k, in_domain start end_ k -> k ∉ unsortedCache st) ->
  mergeiterator.merged asc (entries asc start end_ (contents (parent st))) (memiter.in_order asc start end_ (items (sortedCache st))) =
  entries asc start end_ (visible st).
Proof.
  intros [Hp Hc Hu Ht] Hd.
  destruct (merged_spec asc (entries asc start end_ (contents (parent st))) (memiter.in_order asc start end_ (items (sortedCache st)))) as [Ho Hin].
  { apply range_ordered. }
  { apply memiter.in_order_ordered, items_ordered. }
  apply (ordered_unique asc); [done|apply range_ordered|]. intros [k v].
  assert (forall w, (k, w) ∈ memiter.in_order asc start end_ (items (sortedCache st)) <-> in_domain start end_ k /\ cache st !! k = Some (mkCValue w true)) as Hitem.
  { intros w. rewrite memiter.elem_of_in_order. cbn [fst]. split; intros [Hk Hw]; (split; [done|]); by apply (Ht k w (Hd k Hk)). }
  rewrite Hin, Hitem, !elem_of_entries, lookup_visible. setoid_rewrite Hitem. split.
  - intros [[[Hk E] Hv]|[[Hk (x & -> & E)] Hnot]]; (split; [done|]).
    + rewrite E. destruct v as [x|]; [by exists x|done].
    + exists x. split; [done|]. destruct (cache st !! k) as [[w []]|] eqn:Ek; [by destruct (Hnot w)| |done].
      destruct (Hc k _ Ek) as [_ Hw]. cbn in *. by rewrite Hw.
  - intros [Hk (x & -> & E)]. destruct (cache st !! k) as [[w []]|] eqn:Ek; cbn in E; [left; by subst w|right|right].
    + destruct (Hc k _ Ek) as [_ Hw]. cbn in Hw. split; [split; [done|]; exists x; rewrite <- Hw; by subst|]. intros ? [_ ?]. congruence.
    + split; [eauto|]. by intros ? [_ ?].
Qed.

Lemma iterator_holds asc start end_ st : branch_inv st -> bounds_ok start end_ ->
  exists i st', iterator asc start end_ st = (Ok i, st') /\ branch_inv st' /\ visible st' = visible st /\
    mergeiterator.merge_holds (holdsP := holds) (holdsC := memiter.mem_holds (at_item := at_item)) i (entries asc start end_ (visible st)) /\
    contents (parent st') = contents (parent st).
Proof.
  intros Hst [Hb1 Hb2]. destruct (dirtyItems_spec start end_ st Hst) as (st1 & E1 & Hst1 & Ec & Epa & Hd).
  destruct (kv_iterator_holds asc start end_ (parent st1) (bi_parent _ Hst1) (conj Hb1 Hb2)) as (ip & p & Ei & Hp & Ecp & Hip).
  destruct (set_parent_inv st1 p Hst1 Hp Ecp) as [Hst2 Ev].
  assert (visible st1 = visible st) as Ev1 by (unfold visible; by rewrite Ec, Epa).
  destruct (mergeiterator.NewCacheMergeIterator_holds ip _ _ _ asc Hip (memiter.newMemIterator_holds (at_item := at_item) start end_ (sortedCache st1) asc)) as (i & En & Hi).
  rewrite merged_visible in Hi by done. rewrite Ev1 in Hi. exists i, (set_parent p st1). split; [|split_and!; [done|by rewrite Ev|done|cbn; by rewrite Ecp, Epa]].
  unfold iterator. rewrite (bind_run _ _ _ _ _ E1). erewrite bind_run by done. erewrite bind_run; [|unfold on_parent; by rewrite Ei].
  unfold memiter.BTree_iterator. rewrite !bool_decide_false by done. cbn [orb]. unfold lift. by rewrite En.
Qed.

#[export] Instance branch_KVStoreLaws :
  KVStoreLaws Store _ branch_inv visible (mergeiterator.merge_holds (holdsP := holds) (holdsC := memiter.mem_holds (at_item := at_item))).
Proof.
  pose proof (kv_iterators (KVStoreLaws := H1)). split.
  - apply _.
  - apply Get_refines.
  - apply Has_refines.
  - apply Set_refines.
  - apply Delete_refines.
  - intros asc start end_ st Hst Hb. destruct (iterator_holds asc start end_ st Hst Hb) as (i & st' & ? & ? & ? & ? & _). by exists i, st'.
Qed.

(** *** Write *)

Lemma elem_of_dirty_keys (c : gmap string cValue) k : k ∈ dirty_keys c <-> exists v, c !! k = Some (mkCValue v true).
Proof.
  unfold dirty_keys. rewrite (merge_sort_Permutation str_le), list_elem_of_fmap. split.
  - intros ([k' [v []]] & -> & [Hd Hin%elem_of_map_to_list]%list_elem_of_filter); [by exists v|done].
  - intros [v Hv]. exists (k, mkCValue v true). split; [done|]. apply list_elem_of_filter. split; [done|]. by apply elem_of_map_to_list.
Qed.

(** Writing the keys [keys] of the cache to the parent. *)
Lemma write_keys keys st : branch_inv st -> (forall k, k ∈ keys -> exists v, cache st !! k = Some (mkCValue v true)) ->
  exists st', for_each keys write_cached st = (Ok tt, st') /\ cache st' = cache st /\ inv (parent st') /\
    forall k, contents (parent st') !! k = if decide (k ∈ keys) then visible st !! k else contents (parent st) !! k.
Proof.
  intros Hst. assert (inv (parent st)) as Hp by apply Hst. assert (forall k cv, cache st !! k = Some cv -> k <> "") as Hne by (intros k cv Hk; by destruct (bi_clean _ Hst k cv Hk)).
  assert (forall k cv, cache st !! k = Some cv -> visible st !! k = value cv) as Hvis by (intros k cv Hk; by rewrite lookup_visible, Hk).
  revert Hp Hne Hvis. generalize (visible st). clear Hst. revert st. induction keys as [|k keys IH]; intros st m Hp Hne Hvis Hk.
  - exists st. split_and!; [done|done|done|]. intros k. by rewrite decide_False by apply not_elem_of_nil.
  - destruct (Hk k) as [v Ev]; [apply elem_of_cons; by left|].
    assert (exists p, write_cached k st = (Ok tt, set_parent p st) /\ inv p /\ contents p = partial_alter (fun _ => v) k (contents (parent st))) as (p & Ew & Hp' & Ec).
    { unfold write_cached, cached. erewrite bind_run; [|erewrite bind_run by done; by rewrite Ev]. cbn [value].
      pose proof (Hne _ _ Ev) as Hk0. destruct v as [v|].
      - destruct (kv_Set_refines k (Some v) (parent st) Hp) as (p & E & Hp' & Ec). exists p. unfold on_parent. rewrite E, Ec.
        unfold map_Set, AssertValidKey, AssertValidValue. rewrite !bool_decide_false by done. done.
      - destruct (kv_Delete_refines k (parent st) Hp) as (p & E & Hp' & Ec). exists p. unfold on_parent. rewrite E, Ec.
        unfold map_Delete, AssertValidKey. rewrite !bool_decide_false by done. done. }
    destruct (IH (set_parent p st) m Hp' Hne Hvis) as (st' & E & Hc' & Hp2 & Hm); [intros k' ?; apply Hk, elem_of_cons; by right|].
    exists st'. split_and!; [cbn [for_each]; by rewrite (bind_run _ _ _ _ _ Ew)|done|done|]. intros k'. rewrite Hm. cbn [set_parent parent]. rewrite Ec.
    destruct (decide (k' ∈ keys)) as [Hin|Hin].
    + by rewrite decide_True by (apply elem_of_cons; by right).
    + destruct (decide (k = k')) as [<-|Hkk].
      * rewrite lookup_partial_alter_eq, decide_True by (apply elem_of_cons; by left). by rewrite (Hvis _ _ Ev).
      * rewrite lookup_partial_alter_ne by done. rewrite decide_False; [done|]. intros [?|?]%elem_of_cons; congruence.
Qed.

(** Write makes the contents of the parent those of the branch, which becomes
    empty. *)
Lemma Write_spec st : branch_inv st ->
  exists st', Write st = (Ok tt, st') /\ branch_inv st' /\ cache st' = ∅ /\ visible st' = visible st /\ contents (parent st') = visible st.
Proof.
  intros Hst. unfold Write. erewrite bind_run by done.
  assert (forall p, inv p -> contents p = visible st -> let st' := mkStore ∅ ∅ tree_New p in
    branch_inv st' /\ cache st' = ∅ /\ visible st' = visible st /\ contents (parent st') = visible st) as Hdone.
  { intros p Hp Ec st'. destruct (NewStore_inv p Hp) as [? Ev]. split_and!; [done|done|by rewrite <- Ec|done]. }
  destruct (bool_decide (cache st = ∅) && bool_decide (unsortedCache st = ∅)) eqn:E.
  - apply andb_true_iff in E as [Ec%bool_decide_eq_true Eu%bool_decide_eq_true]. exists (set_sorted tree_New st).
    split; [done|]. unfold set_sorted. rewrite Ec, Eu. apply Hdone; [apply Hst|]. apply map_eq. intros k. by rewrite lookup_visible, Ec, lookup_empty.
  - destruct (write_keys (dirty_keys (cache st)) st Hst) as (st1 & E1 & Ec & Hp & Hm); [by intros k ?%elem_of_dirty_keys|].
    rewrite (bind_run _ _ _ _ _ E1). eexists. split; [done|]. apply Hdone; [done|]. apply map_eq. intros k. rewrite Hm.
    destruct (decide (k ∈ dirty_keys (cache st))) as [Hk|Hk]; [done|]. rewrite lookup_visible. destruct (cache st !! k) as [[v []]|] eqn:Ek; [|symmetry; by apply (bi_clean _ Hst _ _ Ek)|done].
    destruct Hk. apply elem_of_dirty_keys. eauto.
Qed.
End BranchLaws.

(** ** Transactions on branches (baseapp/baseapp.go, runTx) *)

Section RunTx.
Context {S I : Type} `{KVStore S I} `{Iterator I} `{BTreeG} `{Dbm}.

(** Code on a fresh branch, and what happens to the branch when it succeeds;
    otherwise the branch is dropped. *)
Definition on_branch {A} (p : prog A) (commit : M Store unit) : M S A := fun s =>
  let '(r, st) := (let! a := run p in commit ;;! ret a) (NewStore s) in (r, parent st).

Fixpoint prog_bind {A B} (p : prog A) (k : A -> prog B) : prog B :=
  match p with
  | PRet a => k a
  | PFail e => PFail e
  | PPanic => PPanic
  | PGet key c => PGet key (fun v => prog_bind (c v) k)
  | PHas key c => PHas key (fun b => prog_bind (c b) k)
  | PSet key v c => PSet key v (prog_bind c k)
  | PDelete key c => PDelete key (prog_bind c k)
  | PIterate asc start end_ c => PIterate asc start end_ (fun l => prog_bind (c l) k)
  end.

(** The ante handler runs on a branch that is written when it succeeds; the
    messages and the post handler run on a second one, written in DeliverTx
    only, after the block's gas is consumed ([block_gas = false]: that panics).
    [mempool] is the error of the mempool, if any. *)
Definition runTx {A} (deliver block_gas : bool) (mempool : option err) (anteHandler : prog unit) (runMsgs : prog A) (postHandler : A -> prog unit) : M S A :=
  on_branch anteHandler Write ;;!
  check mempool ;;!
  on_branch (prog_bind runMsgs (fun a => prog_bind (postHandler a) (fun _ => PRet a)))
    (if deliver then if block_gas then Write else panic else ret tt).
End RunTx.

(** What a transaction does to the contents of the store: all or nothing for
    the ante handler, and then for the messages. *)
Definition all_or_nothing {A} (p : prog A) (commit : outcome bool) : M contents_map A := fun m =>
  match run p m with
  | (Ok a, m') => match commit with Ok true => (Ok a, m') | Ok false => (Ok a, m) | Err e => (Err e, m) | Panic => (Panic, m) end
  | (r, _) => (r, m)
  end.

Definition tx_spec {A} (deliver block_gas : bool) (mempool : option err) (anteHandler : prog unit) (runMsgs : prog A) (postHandler : A -> prog unit) : M contents_map A :=
  all_or_nothing anteHandler (Ok true) ;;!
  check mempool ;;!
  all_or_nothing (prog_bind runMsgs (fun a => prog_bind (postHandler a) (fun _ => PRet a)))
    (if deliver then if block_gas then Ok true else Panic else Ok false).

Section RunTxLaws.
Context {S I : Type} `{KVStoreLaws S I inv contents holds} `{BTreeGLaws items on at_item} `{DbmLaws}.
Notation Store := (@Store S _).
Notation branch_inv := (branch_inv (inv := inv) (contents := contents) (items := items)).
Notation visible := (visible (contents := contents)).

(** Code that leaves the parent's contents alone until a final commit. *)
Definition keeps_parent {A} (c : M Store A) : Prop :=
  forall st, branch_inv st -> contents (parent (snd (c st))) = contents (parent st).

Lemma keeps_parent_bind {A B} (c : M Store A) d (k : A -> M Store B) : refines branch_inv visible c d ->
  keeps_parent c -> (forall a, keeps_parent (k a)) -> keeps_parent (bind c k).
Proof.
  intros Hr Hc Hk st Hst. destruct (Hr st Hst) as (st1 & E & Hst1 & _). pose proof (Hc st Hst) as Hp. unfold bind. rewrite E in Hp |- *. cbn [snd] in Hp.
  destruct (fst (d (visible st))) as [a|e|]; cbn [snd]; [|done|done]. by rewrite (Hk a st1 Hst1).
Qed.

Lemma keeps_parent_Get k : keeps_parent (Get k).
Proof.
  intros st Hst. unfold Get, AssertValidKey. case_bool_decide as Hk; [done|]. cbn. unfold bind, reads. destruct (cache st !! k) as [cv|]; [done|].
  destruct (kv_Get_refines k (parent st) (bi_parent _ Hst)) as (p & E & _ & Ec). unfold on_parent. rewrite E.
  unfold map_Get, AssertValidKey in Ec |- *. rewrite bool_decide_false in Ec |- * by done. cbn in *. by rewrite Ec.
Qed.

Lemma keeps_parent_write k v : keeps_parent (AssertValidKey k ;;! setCacheValue k v true).
Proof. intros st _. unfold AssertValidKey. by case_bool_decide. Qed.

Lemma keeps_parent_Set k v : keeps_parent (Set_ k v).
Proof. intros st _. unfold Set_, AssertValidKey, AssertValidValue. by repeat case_bool_decide. Qed.

Lemma keeps_parent_iterate asc start end_ : bounds_ok start end_ -> keeps_parent (iterate asc start end_).
Proof.
  intros Hb st Hst. destruct (iterator_holds asc start end_ st Hst Hb) as (i & st' & E & _ & _ & _ & Ec).
  unfold iterate. cbn [kv_iterator branch_KVStore]. by rewrite (bind_run _ _ _ _ _ E).
Qed.

(** A client of a branch leaves the parent's contents alone. *)
Lemma run_keeps_parent {A} (p : prog A) : prog_ok p -> keeps_parent (run (I := mergeiterator.cacheMergeIterator) p).
Proof.
  assert (forall k, keeps_parent (Has k)) as HHas.
  { intros k. eapply keeps_parent_bind; [apply Get_refines|apply keeps_parent_Get|done]. }
  induction p as [| | |key k IH|key k IH|key v k IH|key k IH|asc start end_ k IH]; cbn [prog_ok run]; intros Hok; [done..| | | | |].
  - eapply keeps_parent_bind; [apply Get_refines|apply keeps_parent_Get|auto].
  - eapply keeps_parent_bind; [apply Has_refines|apply HHas|auto].
  - eapply keeps_parent_bind; [apply Set_refines|apply keeps_parent_Set|auto].
  - eapply keeps_parent_bind; [apply Delete_refines|apply keeps_parent_write|auto].
  - destruct Hok as [Hb Hok]. eapply keeps_parent_bind; [by apply iterate_refines|by apply keeps_parent_iterate|auto].
Qed.

Definition commit_of (c : outcome bool) : M Store unit :=
  match c with Ok true => Write | Ok false => ret tt | Err e => throw e | Panic => panic end.

Lemma on_branch_refines {A} (p : prog A) c : prog_ok p -> refines inv contents (on_branch p (commit_of c)) (all_or_nothing p c).
Proof.
  intros Hok s Hs. destruct (NewStore_inv s Hs) as [Hst Ev]. destruct (run_refines p Hok (NewStore s) Hst) as (st & E & Hst' & Ev').
  pose proof (run_keeps_parent p Hok (NewStore s) Hst) as Hk. rewrite E in Hk. cbn [snd parent NewStore] in Hk. rewrite Ev in E, Ev'.
  unfold on_branch, all_or_nothing. destruct (run p (contents s)) as [r m] eqn:Er. cbn [fst snd] in *.
  assert (exists s', (r, parent st) = (r, s') /\ inv s' /\ contents s' = contents s) as Hdrop by (exists (parent st); split_and!; [done|apply Hst'|done]).
  unfold bind at 1. rewrite E. destruct r as [a|e|]; [|by exists (parent st); split_and!; [|apply Hst'|]..].
  destruct c as [[]|e|]; cbn [commit_of].
  - destruct (Write_spec st Hst') as (st2 & Ew & Hst2 & _ & _ & Ec). rewrite (bind_run _ _ _ _ _ Ew). exists (parent st2).
    split_and!; [done|apply Hst2|]. by rewrite Ec.
  - exists (parent st). split_and!; [done|apply Hst'|done].
  - exists (parent st). split_and!; [done|apply Hst'|done].
  - exists (parent st). split_and!; [done|apply Hst'|done].
Qed.

Lemma prog_ok_bind {A B} (p : prog A) (k : A -> prog B) : prog_ok p -> (forall a, prog_ok (k a)) -> prog_ok (prog_bind p k).
Proof. induction p; cbn; naive_solver. Qed.

Lemma refines_check (o : option err) : refines inv contents (check o) (check o).
Proof. destruct o; [apply refines_throw|apply refines_ret]. Qed.

(** C18: Iterating over a branch visits, in order, exactly the entries of its
    domain in the parent's contents overridden by the writes of the branch. *)
Theorem branch_iterates asc start end_ st : branch_inv st -> bounds_ok start end_ ->
  exists i st', iterator asc start end_ st = (Ok i, st') /\ branch_inv st' /\ visible st' = visible st /\
    drain i = Ok (entries asc start end_ (visible st)).
Proof.
  intros Hst Hb. destruct (iterator_holds asc start end_ st Hst Hb) as (i & st' & ? & ? & ? & Hi & _). exists i, st'. split_and!; [done..|].
  pose proof (kv_iterators (KVStoreLaws := H1)). by apply (drain_holds i).
Qed.

(** C17: Running a transaction on branches, over any lawful store, does to the
    store's contents what the specification says: a failing ante handler
    leaves them unchanged, failing messages (or a failing post handler, or
    block gas that runs out) leave what the ante handler wrote, and otherwise
    everything is written. *)
Theorem runTx_refines {A} deliver block_gas mempool (anteHandler : prog unit) (runMsgs : prog A) (postHandler : A -> prog unit) :
  prog_ok anteHandler -> prog_ok runMsgs -> (forall a, prog_ok (postHandler a)) ->
  refines inv contents (runTx deliver block_gas mempool anteHandler runMsgs postHandler)
    (tx_spec deliver block_gas mempool anteHandler runMsgs postHandler).
Proof.
  intros Ha Hm Hp. apply refines_bind; [by apply (on_branch_refines anteHandler (Ok true))|intros _].
  apply refines_bind; [apply refines_check|intros _].
  replace (if deliver then if block_gas then Write else panic else ret tt) with
    (commit_of (if deliver then if block_gas then Ok true else Panic else Ok false)) by (by destruct deliver, block_gas).
  apply on_branch_refines. apply prog_ok_bind; [done|]. intros a. apply prog_ok_bind; [apply Hp|done].
Qed.
End RunTxLaws.
End cachekv.

#[export] Existing Instances cachekv.branch_KVStore cachekv.branch_KVStoreLaws.

(** ** Concrete packages *)

Module toykv.

(** A tree as a map, a cursor as the items in order and a position. *)
Definition goto (c : list entry * nat) (n : nat) : bool * (list entry * nat) := (bool_decide (n < length c.1)%nat, (c.1, n)).
Definition toy_items (t : gmap string (option string)) : list entry := merge_sort key_le (map_to_list t).
Definition seek (k : string) (c : list entry * nat) : bool * (list entry * nat) :=
  match list_find (fun e : entry => ~ str_lt e.1 k) c.1 with Some (n, _) => goto c n | None => (false, c) end.

#[export] Instance map_btree : BTreeG := {|
  tree := gmap string (option string);
  cursor := list entry * nat;
  tree_New := ∅;
  tree_Set k v t := <[k := v]> t;
  tree_Len t := length (toy_items t);
  tree_Iter t := (toy_items t, 0%nat);
  cur_Seek := seek;
  cur_First c := goto c 0;
  cur_Last c := goto c (length c.1 - 1);
  cur_Next c := goto c (S c.2);
  cur_Prev c := match c.2 with O => (false, c) | S n => goto c n end;
  cur_Item c := default ("", None) (c.1 !! c.2);
|}.

Definition toy_on (c : list entry * nat) (l : list entry) : Prop := c.1 = l.
Definition toy_at (c : list entry * nat) (l : list entry) (n : nat) : Prop := c = (l, n) /\ (n < length l)%nat.

Lemma goto_at c l n : c.1 = l -> (n < length l)%nat -> exists c', goto c n = (true, c') /\ toy_at c' l n.
Proof. intros <- Hn. exists (c.1, n). unfold goto. by rewrite bool_decide_true. Qed.

Lemma goto_out c l n : c.1 = l -> ~ (n < length l)%nat -> exists c', goto c n = (false, c') /\ toy_on c' l.
Proof. intros <- Hn. exists (c.1, n). unfold goto. by rewrite bool_decide_false. Qed.

#[export] Instance map_btree_laws : BTreeGLaws toy_items toy_on toy_at.
Proof.
  split.
  - done.
  - apply merge_sort_ordered.
  - intros k v t k' v'. cbn. unfold toy_items. rewrite !(merge_sort_Permutation key_le), !elem_of_map_to_list, lookup_insert_Some. naive_solver.
  - done.
  - done.
  - by intros c l n [-> _].
  - intros c l k n e Hc Hn Hk Hl. cbn. unfold seek. rewrite Hc. replace (list_find _ l) with (Some (n, e)).
    + apply goto_at; [done|by eapply lookup_lt_Some].
    + symmetry. apply list_find_Some. split_and!; [done|done|]. intros m e' Hm Hmn Hn'. by eapply Hn', Hl.
  - intros c l k Hc Hl. cbn. unfold seek. rewrite Hc. replace (list_find _ l) with (@None (nat * entry)); [by exists c|].
    symmetry. apply list_find_None. apply Forall_forall. intros e He Hn. by apply Hn, Hl.
  - intros c l Hc. case_decide as Hl; [edestruct (goto_out c l 0 Hc) as (c' & E & _); [rewrite Hl; cbn; lia|by exists c']|].
    apply goto_at; [done|]. destruct l; [done|cbn; lia].
  - intros c l Hc. cbn. rewrite Hc. case_decide as Hl.
    + edestruct (goto_out c l (length l - 1) Hc) as (c' & E & _); [rewrite Hl; cbn; lia|by exists c'].
    + apply goto_at; [done|]. destruct l; [done|cbn; lia].
  - intros c l n [-> Hn]. cbn. case_decide as Hl; [by apply goto_at|]. by destruct (goto_out (l, n) l (S n)) as (c' & E & _); [..|exists c'].
  - intros c l n [-> Hn]. cbn. destruct n as [|n]; [by exists (l, 0%nat)|]. apply goto_at; [done|lia].
  - intros c l n [-> Hn]. cbn. destruct (lookup_lt_is_Some_2 l n Hn) as [e ->]. done.
Qed.

#[export] Instance toy_dbm : Dbm := {| IsKeyInDomain k start end_ := bool_decide (in_domain start end_ k) |}.
#[export] Instance toy_dbm_laws : DbmLaws.
Proof. split. intros k start end_. apply bool_decide_eq_true. Qed.

(** Three entries under a branch, as under deliverState. *)
Definition m0 : contents_map := {[ "a" := "1"; "b" := "2"; "c" := "3" ]}.
Definition committed : cachekv.Store := cachekv.NewStore m0.
Definition pay_fee : prog unit := PSet "fee" (Some "10") (PRet ()).
Definition move : prog (list string) := PDelete "a" (PSet "bb" (Some "4") (PIterate false (Some "b") (Some "d") (fun l => PRet l.*1))).
Definition move_and_fail : prog (list string) := PDelete "a" (PFail (Errorf "no")).
Definition no_post (_ : list string) : prog unit := PRet ().
Notation shown := (cachekv.visible (contents := id)).

Lemma bounds_b_d : bounds_ok (Some "b") (Some "d").
Proof. done. Qed.

Lemma committed_inv : cachekv.branch_inv (inv := fun _ : contents_map => True) (contents := id) (items := toy_items) committed.
Proof. exact (proj1 (cachekv.NewStore_inv (S := contents_map) (inv := fun _ => True) (contents := id) (items := toy_items) m0 Logic.I)). Qed.

Lemma runTx_refines_witness : exists s1 s2,
  cachekv.runTx true true None pay_fee move no_post committed = (Ok ["c"; "bb"; "b"], s1) /\
  range None None true (shown s1) = [("b", "2"); ("bb", "4"); ("c", "3"); ("fee", "10")] /\
  cachekv.runTx true true None pay_fee move_and_fail no_post committed = (Err (Errorf "no"), s2) /\
  range None None true (shown s2) = [("a", "1"); ("b", "2"); ("c", "3"); ("fee", "10")].
Proof.
  destruct (cachekv.runTx_refines true true None pay_fee move no_post Logic.I (conj bounds_b_d (fun _ => Logic.I)) (fun _ => Logic.I) committed committed_inv) as (s1 & E1 & _ & V1).
  destruct (cachekv.runTx_refines true true None pay_fee move_and_fail no_post Logic.I Logic.I (fun _ => Logic.I) committed committed_inv) as (s2 & E2 & _ & V2).
  exists s1, s2. rewrite E1, V1, E2, V2. split_and!; reflexivity.
Defined.

Definition edited : cachekv.Store := snd (cachekv.Delete "b" (snd (cachekv.Set_ "bb" (Some "4") committed))).

Lemma edited_inv : cachekv.branch_inv (inv := fun _ : contents_map => True) (contents := id) (items := toy_items) edited.
Proof.
  unfold edited. destruct (cachekv.Set_refines "bb" (Some "4") committed committed_inv) as (s1 & -> & H1 & _). cbn [snd].
  by destruct (cachekv.Delete_refines "b" s1 H1) as (s2 & -> & H2 & _).
Qed.

Lemma branch_iterates_witness : exists i st',
  cachekv.iterator true (Some "b") (Some "d") edited = (Ok i, st') /\
  drain i = Ok [("bb", Some "4"); ("c", Some "3")].
Proof.
  destruct (cachekv.branch_iterates true (Some "b") (Some "d") edited edited_inv bounds_b_d) as (i & st' & E & _ & _ & D).
  exists i, st'. rewrite E, D. split; [reflexivity|]. vm_compute. reflexivity.
Defined.
End toykv.
