(* ===== verification/PrefixKV.v ===== *)
(** PrefixKV: cosmos-sdk/store/prefix/store.go, the part of a store under a
    prefix, as a store.

    A nil key, which panics, and an empty one are told apart here ([bound]).
    Theorem: over any lawful store, a prefix store with a non-empty prefix is a
    lawful store whose contents are the parent's entries under the prefix,
    without it; with CacheKV.v this gives the stack every keeper works on. *)

From Stdlib Require Import ZArith Lia Ascii String.
From stdpp Require Import base gmap sets list strings fin_maps sorting.
From S2P Require Import Prelude KVStore.
Import order.

Open Scope Z_scope.
Open Scope go_scope.

Module prefixkv.

Definition cloneAppend (bz tail_ : string) : string := bz +:+ tail_.
Definition cpIncr (bz : string) : bound := PrefixEndBytes bz.

(** [None]: the key does not start with the prefix. *)
Fixpoint strip (key prefix : string) {struct prefix} : option string :=
  match prefix, key with
  | "", _ => Some key
  | String c prefix, String d key => if ascii_dec c d then strip key prefix else None
  | String _ _, "" => None
  end.
Definition stripPrefix (key prefix : string) : outcome string :=
  match strip key prefix with Some k => Ok k | None => Panic end.

Section Store.
Context {S I : Type} `{KVStore S I} `{Iterator I} (prefix : string).

Definition key (k : bound) : M S string :=
  match k with None => panic | Some k => ret (cloneAppend prefix k) end.

Definition Get (k : bound) : M S (option string) := let! k := key k in kv_Get k.
Definition Has (k : bound) : M S bool := let! k := key k in kv_Has k.
Definition Set_ (k : bound) (value : option string) : M S unit :=
  AssertValidKey (default "" k) ;;!
  AssertValidValue value ;;!
  let! k := key k in
  kv_Set k value.
Definition Delete (k : bound) : M S unit := let! k := key k in kv_Delete k.

Record prefixIterator : Type := mkPrefixIterator {
  pi_prefix : string;
  pi_start : bound;
  pi_end : bound;
  pi_iter : I;
  pi_valid : bool;
}.

Definition has_prefix (i : I) : outcome bool :=
  if it_Valid i then let* k := it_Key i in Ok (String.prefix prefix k) else Ok false.

Definition newPrefixIterator (start end_ : bound) (parent : I) : outcome prefixIterator :=
  let* valid := has_prefix parent in
  Ok (mkPrefixIterator prefix start end_ parent valid).

Definition Valid (pi : prefixIterator) : bool := pi_valid pi && it_Valid (pi_iter pi).

Definition iterator (ascending : bool) (start end_ : bound) : M S prefixIterator :=
  let newstart := cloneAppend prefix (default "" start) in
  let newend := match end_ with None => cpIncr prefix | Some e => Some (cloneAppend prefix e) end in
  let! iter := kv_iterator ascending (Some newstart) newend in
  lift (newPrefixIterator start end_ iter).
End Store.

Arguments prefixIterator I : clear implicits.
Arguments mkPrefixIterator {I}.
Arguments pi_prefix {I}.
Arguments pi_start {I}.
Arguments pi_end {I}.
Arguments pi_iter {I}.
Arguments pi_valid {I}.

Section Iterate.
Context {I : Type} `{Iterator I}.

Definition Next (pi : prefixIterator I) : outcome (prefixIterator I) :=
  if negb (pi_valid pi) then Panic else
  let* iter := it_Next (pi_iter pi) in
  let* valid := has_prefix (pi_prefix pi) iter in
  Ok (mkPrefixIterator (pi_prefix pi) (pi_start pi) (pi_end pi) iter valid).

Definition Key (pi : prefixIterator I) : outcome string :=
  if negb (pi_valid pi) then Panic else
  let* k := it_Key (pi_iter pi) in
  stripPrefix k (pi_prefix pi).

Definition Value (pi : prefixIterator I) : outcome (option string) :=
  if negb (pi_valid pi) then Panic else it_Value (pi_iter pi).

#[export] Instance prefix_Iterator : Iterator (prefixIterator I) := {|
  it_Valid := Valid;
  it_Key := Key;
  it_Value := Value;
  it_Next := Next;
  it_size pi := it_size (pi_iter pi);
|}.
End Iterate.

(** The keys of the interface are never empty but not nil. *)
Definition nonnil (k : string) : bound := if bool_decide (k = "") then None else Some k.

#[export] Instance prefix_KVStore {S I : Type} `{KVStore S I} `{Iterator I} (prefix : string) : KVStore S (prefixIterator I) := {|
  kv_Get k := Get prefix (nonnil k);
  kv_Has k := Has prefix (nonnil k);
  kv_Set k v := Set_ prefix (nonnil k) v;
  kv_Delete k := Delete prefix (nonnil k);
  kv_iterator := iterator prefix;
|}.

(** *** Keys under a prefix *)

Lemma strip_Some k p k' : strip k p = Some k' <-> k = p +:+ k'.
Proof.
  revert k. induction p as [|c p IH]; intros k; cbn [strip].
  - rewrite string_app_nil. split; [by intros [= ->]|by intros ->].
  - rewrite string_app_cons. destruct k as [|d k]; [done|]. destruct (ascii_dec c d) as [->|Hn].
    + rewrite IH. split; [by intros ->|by intros [= ->]].
    + split; [done|]. intros [= ? _]. congruence.
Qed.

Lemma strip_app p k : strip (p +:+ k) p = Some k.
Proof. by apply strip_Some. Qed.

Lemma str_lt_app p a b : str_lt (p +:+ a) (p +:+ b) <-> str_lt a b.
Proof.
  induction p as [|c p IH]; [by rewrite !string_app_nil|]. rewrite !string_app_cons, str_lt_cons, IH. split; [|by right].
  intros [?|[_ ?]]; [lia|done].
Qed.

Lemma app_ge p a : ~ str_lt (p +:+ a) p.
Proof.
  induction p as [|c p IH]; [rewrite string_app_nil; apply str_lt_nil|]. rewrite !string_app_cons, str_lt_cons. intros [?|[_ ?]]; [lia|done].
Qed.

Lemma between p a b k : ~ str_lt k (p +:+ a) -> str_lt k (p +:+ b) -> exists k', k = p +:+ k'.
Proof.
  revert k. induction p as [|c p IH]; intros k; [exists k; by rewrite string_app_nil|]. rewrite !string_app_cons. destruct k as [|d k].
  - intros Hn _. destruct Hn. done.
  - rewrite !str_lt_cons. intros Hn [?|[-> Hlt]]; [destruct Hn; by left|]. destruct (IH k) as [k' ->]; [|done|by exists k'].
    intros ?. apply Hn. by right.
Qed.

Definition newend (p : string) (end_ : bound) : bound := match end_ with None => cpIncr p | Some e => Some (cloneAppend p e) end.

(** The domain of the parent's iterator is the one asked for, under the
    prefix. *)
Lemma prefix_in_domain p start end_ k :
  in_domain (Some (cloneAppend p (default "" start))) (newend p end_) k <-> exists k', k = p +:+ k' /\ in_domain start end_ k'.
Proof.
  unfold cloneAppend. assert (forall k', ~ str_lt (p +:+ k') (p +:+ default "" start) <-> match start with Some l => ~ str_lt k' l | None => True end) as Hlo.
  { intros k'. rewrite str_lt_app. destruct start; [done|]. cbn. split; [done|]. intros _. apply str_lt_nil. }
  destruct end_ as [e|]; unfold in_domain, newend, cloneAppend, cpIncr; cbn [default].
  - split.
    + intros [H1 H2]. destruct (between _ _ _ _ H1 H2) as [k' ->]. exists k'. split; [done|]. rewrite Hlo in H1. by rewrite str_lt_app in H2.
    + intros (k' & -> & H1 & H2). rewrite Hlo, str_lt_app. done.
  - split.
    + intros [H1 H2]. assert (in_domain (Some p) (PrefixEndBytes p) k) as Hd.
      { split; [|done]. intros Hlt. destruct (str_lt_total p (p +:+ default "" start)) as [?|[E|?]].
        - apply H1. by etrans.
        - apply H1. by rewrite <- E.
        - by eapply app_ge. }
      apply prefix_domain, prefix_iff in Hd as [k' ->]. exists k'. split; [done|]. split; [by apply Hlo|done].
    + intros (k' & -> & H1 & _). split; [by apply Hlo|]. destruct (proj2 (prefix_domain p (p +:+ k'))) as [_ Hhi]; [by apply prefix_iff; exists k'|]. done.
Qed.

(** The contents under a prefix. *)
Definition under {V} (p : string) (m : gmap string V) : gmap string V :=
  list_to_map (omap (fun kv => (fun k => (k, kv.2)) <$> strip kv.1 p) (map_to_list m)).

Lemma lookup_under {V} p (m : gmap string V) k : under p m !! k = m !! (p +:+ k).
Proof.
  unfold under. set (f := fun kv : string * V => _). assert (forall (l : list (string * V)) k v, (k, v) ∈ omap f l <-> (p +:+ k, v) ∈ l) as Hin.
  { intros l k' v. rewrite list_elem_of_omap. unfold f. split.
    - intros ([k1 v1] & Hl & E). cbn in E. destruct (strip k1 p) as [k2|] eqn:Es; [|done]. injection E as <- <-. apply strip_Some in Es. by subst.
    - intros Hl. exists (p +:+ k', v). split; [done|]. cbn. by rewrite strip_app. }
  assert (NoDup (omap f (map_to_list m)).*1) as Hnd.
  { pose proof (NoDup_fst_map_to_list m) as Hnd. revert Hnd. generalize (map_to_list m) as l. induction l as [|[k1 v1] l IH]; [constructor|].
    cbn [fmap list_fmap fst]. intros [Hk Hnd]%NoDup_cons.
    change (omap f ((k1, v1) :: l)) with (match f (k1, v1) with Some y => y :: omap f l | None => omap f l end).
    change (f (k1, v1)) with ((fun k => (k, v1)) <$> strip k1 p). destruct (strip k1 p) as [k2|] eqn:Es; cbn; [|by apply IH]. apply strip_Some in Es.
    apply NoDup_cons. split; [|by apply IH]. intros ([k3 v3] & E & Hl)%list_elem_of_fmap. cbn in E. subst k3. apply Hin in Hl. apply Hk. rewrite Es.
    by apply (list_elem_of_fmap_2 fst _ _ Hl). }
  apply option_eq. intros v. rewrite <- elem_of_list_to_map by done. by rewrite Hin, elem_of_map_to_list.
Qed.

Section Laws.
Context {S I : Type} `{KVStoreLaws S I inv contents holds} (prefix : string) (Hprefix : prefix <> "").

Definition prefix_contents (s : S) : contents_map := under prefix (contents s).

Definition with_prefix (kv : entry) : entry := (prefix +:+ kv.1, kv.2).

Definition prefix_holds (pi : prefixIterator I) (l : list entry) : Prop :=
  pi_prefix pi = prefix /\ pi_valid pi = bool_decide (l <> []) /\ holds (pi_iter pi) (with_prefix <$> l).

Lemma has_prefix_holds i l : holds i (with_prefix <$> l) -> has_prefix prefix i = Ok (bool_decide (l <> [])).
Proof.
  intros Hl. unfold has_prefix. rewrite (holds_valid _ _ Hl). destruct l as [|[k v] l].
  - by rewrite bool_decide_false by naive_solver.
  - rewrite !bool_decide_true by done. destruct (holds_head _ _ _ _ Hl) as (-> & _). cbn [obind]. do 2 f_equal.
    apply prefix_iff. by exists k.
Qed.

#[export] Instance prefix_IteratorLaws : IteratorLaws (prefixIterator I) prefix_holds.
Proof.
  split.
  - intros pi l (_ & Hv & Hl). cbn. unfold Valid. rewrite Hv, (holds_valid _ _ Hl). by destruct l.
  - intros pi k v l (Hp & Hv & Hl). rewrite bool_decide_true in Hv by done. destruct (holds_head _ _ _ _ Hl) as (Ek & Ev & i' & En & Hl').
    cbn. unfold Key, Value, Next. rewrite Hv, Hp, Ek, Ev, En. cbn [negb obind]. unfold stripPrefix. rewrite strip_app. split_and!; [done..|].
    rewrite (has_prefix_holds _ _ Hl'). cbn [obind]. eexists. split; [done|]. by split_and!.
  - intros pi l (_ & _ & Hl). cbn. pose proof (holds_size _ _ Hl) as Hs. by rewrite length_fmap in Hs.
Qed.

Lemma key_nonempty k : prefix +:+ k <> "".
Proof. destruct prefix; [done|]. by rewrite string_app_cons. Qed.

Lemma newend_ok start end_ : bounds_ok (Some (cloneAppend prefix (default "" start))) (newend prefix end_).
Proof.
  split; [intros [= E]; by apply key_nonempty in E|]. destruct end_ as [e|]; cbn; [intros [= E]; by apply key_nonempty in E|]. by apply prefix_bounds_ok.
Qed.

Lemma refines_under {A} (c : M S A) (d : M contents_map A) (d' : M contents_map A) :
  refines inv contents c d -> (forall m, fst (d' (under prefix m)) = fst (d m) /\ snd (d' (under prefix m)) = under prefix (snd (d m))) ->
  refines inv prefix_contents c d'.
Proof.
  intros Hc Hd s Hs. destruct (Hc s Hs) as (s' & E & Hs' & Ec). destruct (Hd (contents s)) as [E1 E2]. exists s'.
  unfold prefix_contents. rewrite E1, E2, Ec. done.
Qed.

Lemma under_alter f k (m : contents_map) : under prefix (partial_alter f (prefix +:+ k) m) = partial_alter f k (under prefix m).
Proof.
  apply map_eq. intros k'. rewrite lookup_under. destruct (decide (k = k')) as [->|Hn].
  - by rewrite !lookup_partial_alter_eq, lookup_under.
  - rewrite lookup_partial_alter_ne by (intros E%(inj (String.append prefix)); congruence).
    by rewrite lookup_partial_alter_ne, lookup_under.
Qed.

Lemma prefix_entries_fmap asc start end_ (m : contents_map) :
  entries asc (Some (cloneAppend prefix (default "" start))) (newend prefix end_) m = with_prefix <$> entries asc start end_ (under prefix m).
Proof.
  apply (ordered_unique asc).
  - apply range_ordered.
  - pose proof (range_ordered start end_ asc (Some <$> under prefix m)) as Ho. unfold entries. revert Ho. generalize (range start end_ asc (Some <$> under prefix m)) as l.
    induction l as [|[k v] l IH]; [constructor|]. intros [Ho Hf]%ordered_cons. cbn. apply ordered_cons. split; [by apply IH|].
    intros k' v' ([k1 v1] & E & Hin)%list_elem_of_fmap. injection E as -> ->. apply Hf in Hin. unfold before in *. destruct asc; by apply str_lt_app.
  - intros [k v]. rewrite list_elem_of_fmap. unfold entries. rewrite elem_of_range, prefix_in_domain, lookup_fmap. split.
    + intros (Hm & k' & -> & Hd). exists (k', v). split; [done|]. apply elem_of_range. by rewrite lookup_fmap, lookup_under.
    + intros ([k' v'] & E & Hin). injection E as -> ->. apply elem_of_range in Hin as [Hm Hd]. rewrite lookup_fmap, lookup_under in Hm. eauto.
Qed.

(** Over any lawful store, the prefix store of a non-empty
    prefix is a lawful store: every operation does on the entries under the
    prefix what the interface promises, and its iterators, in both directions and for every domain, visit
    exactly the entries of that domain, their keys without the prefix. *)
#[export] Instance prefix_KVStoreLaws : KVStoreLaws S (prefixIterator I) (H := prefix_KVStore prefix) inv prefix_contents prefix_holds.
Proof.
  assert (forall k, k <> "" -> nonnil k = Some k) as Hnn by (intros k Hk; unfold nonnil; by rewrite bool_decide_false).
  split; [apply _|intros k..|].
  - cbn. destruct (decide (k = "")) as [->|Hk]; [apply (refines_panic inv prefix_contents)|]. rewrite Hnn by done.
    apply (refines_under _ (map_Get (prefix +:+ k))); [apply kv_Get_refines|]. intros m. unfold map_Get, AssertValidKey, bind, ret, reads.
    rewrite !bool_decide_false by (done || apply key_nonempty). cbn. by rewrite lookup_under.
  - cbn. destruct (decide (k = "")) as [->|Hk]; [apply (refines_panic inv prefix_contents)|]. rewrite Hnn by done.
    apply (refines_under _ (map_Has (prefix +:+ k))); [apply kv_Has_refines|]. intros m. unfold map_Has, AssertValidKey, bind, ret, reads.
    rewrite !(bool_decide_false (_ = "")) by (done || apply key_nonempty). cbn. by rewrite lookup_under.
  - intros v. cbn. destruct (decide (k = "")) as [->|Hk]; [apply (refines_panic inv prefix_contents)|]. rewrite Hnn by done.
    destruct v as [v|]; [|intros s Hs; unfold Set_, map_Set, AssertValidKey; cbn [default]; rewrite !bool_decide_false by done; by exists s].
    assert (forall s, Set_ prefix (Some k) (Some v) s = kv_Set (prefix +:+ k) (Some v) s) as Eq.
    { intros s. unfold Set_, AssertValidKey, AssertValidValue. cbn [default]. by rewrite !bool_decide_false by done. }
    intros s Hs. rewrite Eq. revert s Hs. apply (refines_under _ (map_Set (prefix +:+ k) (Some v))); [apply kv_Set_refines|].
    intros m. unfold map_Set, AssertValidKey, AssertValidValue, bind, ret, modify.
    rewrite !bool_decide_false by (done || apply key_nonempty). cbn. by rewrite under_alter.
  - cbn. destruct (decide (k = "")) as [->|Hk]; [apply (refines_panic inv prefix_contents)|]. rewrite Hnn by done.
    apply (refines_under _ (map_Delete (prefix +:+ k))); [apply kv_Delete_refines|]. intros m. unfold map_Delete, AssertValidKey, bind, ret, modify.
    rewrite !bool_decide_false by (done || apply key_nonempty). cbn. split; [done|]. symmetry. apply (under_alter (fun _ => None)).
  - intros asc start end_ s Hs [Hs0 He0]. cbn. unfold iterator. fold (newend prefix end_).
    destruct (kv_iterator_holds asc (Some (cloneAppend prefix (default "" start))) (newend prefix end_) s Hs) as (i & s' & Ei & Hs' & Ec & Hi).
    { apply newend_ok. }
    rewrite prefix_entries_fmap in Hi. rewrite (bind_run _ _ _ _ _ Ei). unfold lift, newPrefixIterator. rewrite (has_prefix_holds _ _ Hi). cbn [obind].
    eexists _, s'. split; [done|]. unfold prefix_contents. rewrite Ec. by split_and!.
Qed.
(** *** What lies outside the prefix *)

Definition outside (m m' : contents_map) : Prop := forall k, strip k prefix = None -> m' !! k = m !! k.

Definition framed {A} (c : M S A) : Prop := forall s, inv s -> inv (snd (c s)) /\ outside (contents s) (contents (snd (c s))).

Lemma framed_pure {A} (o : outcome A) : framed (lift o).
Proof. intros s Hs. by split. Qed.

Lemma framed_bind {A B} (c : M S A) (k : A -> M S B) : framed c -> (forall a, framed (k a)) -> framed (bind c k).
Proof.
  intros Hc Hk s Hs. destruct (Hc s Hs) as [Hs1 H1']. unfold bind. destruct (c s) as [[a|e|] s1]; cbn in *; [|done..].
  destruct (Hk a s1 Hs1) as [Hs2 H2']. split; [done|]. intros k' Hk'. by rewrite H2', H1'.
Qed.

Lemma framed_refines {A} (c : M S A) d : refines inv contents c d -> (forall m, outside m (snd (d m))) -> framed c.
Proof. intros Hc Hd s Hs. destruct (Hc s Hs) as (s' & -> & Hs' & Ec). cbn. split; [done|]. rewrite Ec. apply Hd. Qed.

Lemma outside_id m : outside m m.
Proof. by intros k. Qed.

Lemma outside_alter f k m : outside m (partial_alter f (prefix +:+ k) m).
Proof. intros k' Hk. rewrite lookup_partial_alter_ne; [done|]. intros <-. by rewrite strip_app in Hk. Qed.

Lemma framed_op {A} k (c : string -> M S A) (d : string -> M contents_map A) :
  (forall k, refines inv contents (c k) (d k)) -> (forall m, outside m (snd (d (prefix +:+ k) m))) -> framed (let! x := key prefix (nonnil k) in c x).
Proof.
  intros Hc Hd. unfold nonnil. case_bool_decide; [apply (framed_pure Panic)|]. apply (framed_refines _ (d (prefix +:+ k))); [apply Hc|done].
Qed.

(** A client of the prefix store leaves everything outside the prefix. *)
Lemma framed_run {A} (p : prog A) : prog_ok p -> framed (run (H := prefix_KVStore prefix) p).
Proof.
  assert (forall k (m : contents_map) A (d : M contents_map A), (forall m, outside m (snd (d m))) -> outside m (snd ((AssertValidKey (prefix +:+ k) ;;! d) m))) as Hv.
  { intros k m A' d Hd. unfold AssertValidKey. rewrite bool_decide_false by apply key_nonempty. apply Hd. }
  induction p as [| | |k c IH|k c IH|k v c IH|k c IH|asc start end_ c IH]; cbn [prog_ok run]; intros Hok.
  - apply (framed_pure (Ok a)).
  - apply (framed_pure (Err e)).
  - apply (framed_pure Panic).
  - apply framed_bind; [|auto]. apply (framed_op _ _ map_Get); [apply kv_Get_refines|]. intros m. apply Hv. intros m'. apply outside_id.
  - apply framed_bind; [|auto]. apply (framed_op _ _ map_Has); [apply kv_Has_refines|]. intros m. apply Hv. intros m'. apply outside_id.
  - apply framed_bind; [|auto]. cbn. unfold Set_. apply framed_bind; [unfold AssertValidKey; case_bool_decide; [apply (framed_pure Panic)|apply (framed_pure (Ok tt))]|].
    intros _. apply framed_bind; [unfold AssertValidValue; case_bool_decide; [apply (framed_pure Panic)|apply (framed_pure (Ok tt))]|]. intros _.
    apply (framed_op _ (fun k => kv_Set k v) (fun k => map_Set k v)); [intros; apply kv_Set_refines|]. intros m. apply Hv. intros m'. unfold AssertValidValue. case_bool_decide; [apply outside_id|apply outside_alter].
  - apply framed_bind; [|auto]. apply (framed_op _ _ map_Delete); [apply kv_Delete_refines|]. intros m. apply Hv. intros m'. apply (outside_alter (fun _ => None)).
  - destruct Hok as [Hb Hok]. apply framed_bind; [|auto]. apply framed_bind; [|intros i; apply framed_pure]. cbn. unfold iterator. apply framed_bind; [|intros i; apply framed_pure].
    fold (newend prefix end_). intros s Hs.
    destruct (kv_iterator_holds asc (Some (cloneAppend prefix (default "" start))) (newend prefix end_) s Hs) as (i & s' & Ei & Hs' & Ec & _); [apply newend_ok|].
    match goal with |- context [snd ?x] => replace x with (Ok i, s') by (symmetry; exact Ei) end. cbn. split; [done|]. rewrite Ec. apply outside_id.
Qed.

(** Prefix stores.  Over any lawful store, a client of the prefix store of
    a non-empty prefix does exactly what it would do on a store of its own
    that holds the entries under the prefix, without it: it returns the same,
    its iterations in both directions and over every domain included, leaves
    the same entries there, and everything outside the prefix as it was. *)
Theorem prefix_client {A} (p : prog A) s : prog_ok p -> inv s ->
  let m := under prefix (contents s) in
  exists s', run (H := prefix_KVStore prefix) p s = (fst (run p m), s') /\ inv s' /\
    forall k, contents s' !! k = match strip k prefix with Some k' => snd (run p m) !! k' | None => contents s !! k end.
Proof.
  intros Hok Hs m. destruct (run_refines (H := prefix_KVStore prefix) p Hok s Hs) as (s' & E & Hs' & Ec). exists s'. split_and!; [exact E|done|].
  intros k. destruct (strip k prefix) as [k'|] eqn:Ek.
  - apply strip_Some in Ek. subst k. rewrite <- lookup_under. exact (f_equal (lookup k') Ec).
  - destruct (framed_run p Hok s Hs) as [_ Hout]. rewrite E in Hout. by apply Hout.
Qed.
End Laws.
End prefixkv.

Module prefix_toy.
#[local] Existing Instance prefixkv.prefix_Iterator.

(** A client that writes under the prefix "bank/" and reads everything. *)
Definition m0 : contents_map := list_to_map [("auth/a", "1"); ("bank/x", "7"); ("bank0", "2")].
Definition client : prog (list entry) := PSet "y" (Some "8") (PIterate false None None (fun l => PRet l)).

Lemma prefix_client_witness :
  exists m', run (H := prefixkv.prefix_KVStore (H := map_KVStore) "bank/") client m0 = (Ok [("y", Some "8"); ("x", Some "7")], m') /\
    m' !! "bank/y" = Some "8" /\ m' !! "auth/a" = Some "1" /\ m' !! "bank0" = Some "2".
Proof.
  destruct (prefixkv.prefix_client (inv := fun _ => True) (contents := id) (H := map_KVStore) (holds := eq) "bank/" ltac:(discriminate) client m0) as (m' & E & _ & Hm).
  - split; [split; discriminate|done].
  - done.
  - exists m'. unfold id in *. rewrite !Hm. split; [|split_and!; reflexivity]. rewrite E. reflexivity.
Defined.
End prefix_toy.
