(* ===== verification/Pagination.v ===== *)
(** Pagination: cosmos-sdk/types/query (pagination.go, filtered_pagination.go).

    A paginated query walks over a store by its iterators and calls back for
    each entry of a page.  The class [PageStore] is what it needs of the store:
    any KVStore has it, and so has a map of decoded values, so that the queries
    of modules whose stores are modelled as decoded maps can use it too.  The
    state of the callback is the second half of the state.

    The errors of iterators are not modelled: those of the SDK's stores are
    always nil.

    Theorems: what a page holds and where the next begins; following the next
    keys visits every entry once, in order, in both directions; the generic
    form agrees with the filtered one; two requests that go wrong. *)

From Stdlib Require Import ZArith Lia Ascii String.
From stdpp Require Import base gmap sets list strings fin_maps sorting.
From S2P Require Import Prelude KVStore.

Open Scope Z_scope.
Open Scope go_scope.
Import order.

(** ** Stores that can be paginated *)

(** [ps_iterator true] is Iterator and [ps_iterator false] ReverseIterator; an
    iterator that is not valid panics on Key, Value and Next. *)
Class PageStore (S V I : Type) : Type := {
  ps_iterator : bool -> bound -> bound -> M S I;
  ps_Valid : I -> bool;
  ps_Key : I -> outcome string;
  ps_Value : I -> outcome V;
  ps_Next : I -> outcome I;
  ps_size : I -> nat;
}.

Class PageStoreLaws (S V I : Type) `{PageStore S V I} (inv : S -> Prop) (contents : S -> gmap string V) (holds : I -> list (string * V) -> Prop) : Prop := {
  ps_valid i l : holds i l -> ps_Valid i = bool_decide (l <> []);
  ps_head i k v l : holds i ((k, v) :: l) -> ps_Key i = Ok k /\ ps_Value i = Ok v /\ exists i', ps_Next i = Ok i' /\ holds i' l;
  ps_fuel i l : holds i l -> (length l <= ps_size i)%nat;
  ps_iterator_holds asc start end_ s : inv s -> bounds_ok start end_ ->
    exists i s', ps_iterator asc start end_ s = (Ok i, s') /\ inv s' /\ contents s' = contents s /\ holds i (range start end_ asc (contents s));
}.

(** Every KVStore. *)
Definition kv_pages {S I : Type} `{KVStore S I} `{Iterator I} : PageStore S (option string) I := {|
  ps_iterator := kv_iterator;
  ps_Valid := it_Valid;
  ps_Key := it_Key;
  ps_Value := it_Value;
  ps_Next := it_Next;
  ps_size := it_size;
|}.

Lemma kv_pages_laws {S I : Type} `{KVStoreLaws S I inv contents holds} :
  @PageStoreLaws S (option string) I kv_pages inv (fun s => Some <$> contents s) holds.
Proof.
  split; cbn [kv_pages ps_Valid ps_Key ps_Value ps_Next ps_size ps_iterator].
  - apply holds_valid.
  - apply holds_head.
  - apply holds_size.
  - intros asc start end_ s Hs Hb. destruct (kv_iterator_holds asc start end_ s Hs Hb) as (i & s' & E & Hs' & Ec & Hi). exists i, s'. by rewrite Ec.
Qed.

(** A map of decoded values. *)
#[export] Instance map_pages {V} : PageStore (gmap string V) V (list (string * V)) := {|
  ps_iterator asc start end_ := reads (range start end_ asc);
  ps_Valid l := match l with [] => false | _ => true end;
  ps_Key l := match l with [] => Panic | (k, _) :: _ => Ok k end;
  ps_Value l := match l with [] => Panic | (_, v) :: _ => Ok v end;
  ps_Next l := match l with [] => Panic | _ :: l => Ok l end;
  ps_size := length;
|}.

#[export] Instance map_pages_laws {V} : PageStoreLaws (gmap string V) V (list (string * V)) (fun _ => True) id eq.
Proof.
  split; cbn.
  - intros i [|] ->; [by rewrite bool_decide_false by (intros []; done)|by rewrite bool_decide_true].
  - intros i k v l ->. eauto.
  - by intros i l ->.
  - intros asc start end_ s _ _. by exists (range start end_ asc s), s.
Qed.

(** ** Requests *)

(** pagination.pb.go; a nil key is not an empty one. *)
Record PageRequest : Type := mkPageRequest { pg_Key : bound; pg_Offset : Z; pg_Limit : Z; pg_CountTotal : bool; pg_Reverse : bool }.
Record PageResponse : Type := mkPageResponse { pr_NextKey : bound; pr_Total : Z }.

Definition DefaultLimit : Z := 100.
Definition MaxLimit : Z := two64 - 1.

Definition ParsePagination (pageReq : option PageRequest) : outcome (Z * Z) :=
  let '(offset, limit) := match pageReq with Some r => (wrap_i64 (pg_Offset r), wrap_i64 (pg_Limit r)) | None => (0, DefaultLimit) end in
  if offset <? 0 then Err (Errorf "offset must greater than 0") else
  if limit <? 0 then Err (Errorf "limit must greater than 0") else
  let limit := if limit =? 0 then DefaultLimit else limit in
  Ok (wrap_i64 (Z.quot offset limit + 1), limit).

Definition no_request : PageRequest := mkPageRequest None 0 0 false false.

(** Limit and CountTotal: no limit means the default, and a total. *)
Definition limit_of (r : PageRequest) : Z := if pg_Limit r =? 0 then DefaultLimit else pg_Limit r.
Definition count_of (r : PageRequest) : bool := if pg_Limit r =? 0 then true else pg_CountTotal r.

(** [len(key) != 0]. *)
Definition has_key (key : bound) : bool := match key with Some (String _ _) => true | _ => false end.

(** ** Paginate *)

Section Paginate.
Context {S V I R : Type} `{PageStore S V I}.

(** A call of the store, and of the callback. *)
Definition on_store {A} (c : M S A) : M (S * R) A := fun s => let '(r, s1) := c (fst s) in (r, (s1, snd s)).
Definition on_result {A} (c : M R A) : M (S * R) A := fun s => let '(r, s2) := c (snd s) in (r, (fst s, s2)).

Definition getIterator (start : bound) (reverse : bool) : M S I :=
  if reverse then
    let! end_ :=
      match start with
      | None => ret None
      | Some _ =>
          let! itr := ps_iterator true start None in
          if ps_Valid itr then
            let! itr := lift (ps_Next itr) in
            let! key := lift (ps_Key itr) in
            ret (Some key)
          else ret None
      end in
    ps_iterator false None end_
  else ps_iterator true start None.

Section Loops.
Context (onResult : string -> V -> M R unit).

(** The loop after a key, and the loop with an offset. *)
Fixpoint key_loop (fuel : nat) (i : I) (limit count : Z) : M R bound :=
  if negb (ps_Valid i) then ret None else
  match fuel with
  | O => panic
  | Datatypes.S fuel =>
      let! key := lift (ps_Key i) in
      if count =? limit then ret (Some key) else
      let! value := lift (ps_Value i) in
      onResult key value ;;!
      let! i := lift (ps_Next i) in
      key_loop fuel i limit (wrap_u64 (count + 1))
  end.

Fixpoint offset_loop (fuel : nat) (i : I) (offset end_ : Z) (countTotal : bool) (count : Z) (nextKey : bound) : M R (bound * Z) :=
  if negb (ps_Valid i) then ret (nextKey, count) else
  match fuel with
  | O => panic
  | Datatypes.S fuel =>
      let count := wrap_u64 (count + 1) in
      let continue nextKey := let! i := lift (ps_Next i) in offset_loop fuel i offset end_ countTotal count nextKey in
      if count <=? offset then continue nextKey else
      if count <=? end_ then
        let! key := lift (ps_Key i) in
        let! value := lift (ps_Value i) in
        onResult key value ;;!
        continue nextKey
      else if count =? wrap_u64 (end_ + 1) then
        let! key := lift (ps_Key i) in
        if negb countTotal then ret (Some key, count) else continue (Some key)
      else continue nextKey
  end.

Definition Paginate (pageRequest : option PageRequest) : M (S * R) PageResponse :=
  let r := default no_request pageRequest in
  if (0 <? pg_Offset r) && bool_decide (pg_Key r <> None) then throw (Errorf "invalid request, either offset or key is expected, got both") else
  if has_key (pg_Key r) then
    let! iterator := on_store (getIterator (pg_Key r) (pg_Reverse r)) in
    let! nextKey := on_result (key_loop (ps_size iterator) iterator (limit_of r) 0) in
    ret (mkPageResponse nextKey 0)
  else
    let! iterator := on_store (getIterator None (pg_Reverse r)) in
    let end_ := wrap_u64 (pg_Offset r + limit_of r) in
    let! res := on_result (offset_loop (ps_size iterator) iterator (pg_Offset r) end_ (count_of r) 0 None) in
    ret (mkPageResponse (fst res) (if count_of r then snd res else 0)).
End Loops.

(** ** FilteredPaginate: the callback says whether an entry counts *)

Section FilteredLoops.
Context (onResult : string -> V -> bool -> M R bool).

Fixpoint filtered_key_loop (fuel : nat) (i : I) (limit numHits : Z) : M R bound :=
  if negb (ps_Valid i) then ret None else
  match fuel with
  | O => panic
  | Datatypes.S fuel =>
      let! key := lift (ps_Key i) in
      if numHits =? limit then ret (Some key) else
      let! value := lift (ps_Value i) in
      let! hit := onResult key value true in
      let! i := lift (ps_Next i) in
      filtered_key_loop fuel i limit (if hit : bool then wrap_u64 (numHits + 1) else numHits)
  end.

Fixpoint filtered_offset_loop (fuel : nat) (i : I) (offset end_ : Z) (countTotal : bool) (numHits : Z) (nextKey : bound) : M R (bound * Z) :=
  if negb (ps_Valid i) then ret (nextKey, numHits) else
  match fuel with
  | O => panic
  | Datatypes.S fuel =>
      let! key := lift (ps_Key i) in
      let! value := lift (ps_Value i) in
      let! hit := onResult key value ((offset <=? numHits) && (numHits <? end_)) in
      let numHits := if hit : bool then wrap_u64 (numHits + 1) else numHits in
      let continue nextKey := let! i := lift (ps_Next i) in filtered_offset_loop fuel i offset end_ countTotal numHits nextKey in
      if numHits =? wrap_u64 (end_ + 1) then
        let nextKey := match nextKey with None => Some key | _ => nextKey end in
        if negb countTotal then ret (nextKey, numHits) else continue nextKey
      else continue nextKey
  end.

Definition FilteredPaginate (pageRequest : option PageRequest) : M (S * R) PageResponse :=
  let r := default no_request pageRequest in
  if (0 <? pg_Offset r) && bool_decide (pg_Key r <> None) then throw (Errorf "invalid request, either offset or key is expected, got both") else
  if has_key (pg_Key r) then
    let! iterator := on_store (getIterator (pg_Key r) (pg_Reverse r)) in
    let! nextKey := on_result (filtered_key_loop (ps_size iterator) iterator (limit_of r) 0) in
    ret (mkPageResponse nextKey 0)
  else
    let! iterator := on_store (getIterator None (pg_Reverse r)) in
    let end_ := wrap_u64 (pg_Offset r + limit_of r) in
    let! res := on_result (filtered_offset_loop (ps_size iterator) iterator (pg_Offset r) end_ (count_of r) 0 None) in
    ret (mkPageResponse (fst res) (if count_of r then snd res else 0)).
End FilteredLoops.
End Paginate.

(** GenericFilteredPaginate: the values are decoded, and a result of size zero
    does not count. *)
Section Generic.
Context {S V I T F : Type} `{PageStore S V I}.
Context (unmarshal : V -> outcome T) (onResult : string -> T -> outcome F) (Size : F -> Z).

Fixpoint generic_key_loop (fuel : nat) (i : I) (limit numHits : Z) (results : list F) : outcome (list F * bound) :=
  if negb (ps_Valid i) then Ok (results, None) else
  match fuel with
  | O => Panic
  | Datatypes.S fuel =>
      let* key := ps_Key i in
      if numHits =? limit then Ok (results, Some key) else
      let* value := ps_Value i in
      let* protoMsg := unmarshal value in
      let* val := onResult key protoMsg in
      let* i := ps_Next i in
      if negb (Size val =? 0) then generic_key_loop fuel i limit (wrap_u64 (numHits + 1)) (results ++ [val])
      else generic_key_loop fuel i limit numHits results
  end.

Fixpoint generic_offset_loop (fuel : nat) (i : I) (offset end_ : Z) (countTotal : bool) (numHits : Z) (nextKey : bound) (results : list F) : outcome (list F * bound * Z) :=
  if negb (ps_Valid i) then Ok (results, nextKey, numHits) else
  match fuel with
  | O => Panic
  | Datatypes.S fuel =>
      let* key := ps_Key i in
      let* value := ps_Value i in
      let* protoMsg := unmarshal value in
      let* val := onResult key protoMsg in
      let results := if negb (Size val =? 0) && ((offset <=? numHits) && (numHits <? end_)) then results ++ [val] else results in
      let numHits := if negb (Size val =? 0) then wrap_u64 (numHits + 1) else numHits in
      let continue nextKey := let* i := ps_Next i in generic_offset_loop fuel i offset end_ countTotal numHits nextKey results in
      if numHits =? wrap_u64 (end_ + 1) then
        let nextKey := match nextKey with None => Some key | _ => nextKey end in
        if negb countTotal then Ok (results, nextKey, numHits) else continue nextKey
      else continue nextKey
  end.

Definition GenericFilteredPaginate (pageRequest : option PageRequest) : M S (list F * PageResponse) :=
  let r := default no_request pageRequest in
  if (0 <? pg_Offset r) && bool_decide (pg_Key r <> None) then throw (Errorf "invalid request, either offset or key is expected, got both") else
  if has_key (pg_Key r) then
    let! iterator := getIterator (pg_Key r) (pg_Reverse r) in
    let! res := lift (generic_key_loop (ps_size iterator) iterator (limit_of r) 0 []) in
    ret (fst res, mkPageResponse (snd res) 0)
  else
    let! iterator := getIterator None (pg_Reverse r) in
    let end_ := wrap_u64 (pg_Offset r + limit_of r) in
    let! res := lift (generic_offset_loop (ps_size iterator) iterator (pg_Offset r) end_ (count_of r) 0 None []) in
    ret (fst (fst res), mkPageResponse (snd (fst res)) (if count_of r then snd res else 0)).

(** The callback of FilteredPaginate that does the same. *)
Definition generic_callback (key : string) (value : V) (accumulate : bool) : M (list F) bool :=
  let! protoMsg := lift (unmarshal value) in
  let! val := lift (onResult key protoMsg) in
  if negb (Size val =? 0) then
    (if accumulate then modify (fun results => results ++ [val]) else ret tt) ;;! ret true
  else ret false.

Lemma generic_key_loop_eq fuel i limit numHits results :
  generic_key_loop fuel i limit numHits results =
    match filtered_key_loop generic_callback fuel i limit numHits results with (Ok nextKey, results') => Ok (results', nextKey) | (Err e, _) => Err e | (Panic, _) => Panic end.
Proof.
  revert i numHits results. induction fuel as [|fuel IH]; intros i numHits results; cbn [generic_key_loop filtered_key_loop]; destruct (ps_Valid i); try done. cbn [negb].
  unfold bind, lift, generic_callback, bind, lift, modify, ret. destruct (ps_Key i); [|done..]. cbn [obind]. destruct (numHits =? limit); [done|].
  destruct (ps_Value i); [|done..]. cbn [obind]. destruct (unmarshal _); [|done..]. cbn [obind]. destruct (onResult _ _); [|done..]. cbn [obind].
  destruct (Size _ =? 0); cbn [negb]; destruct (ps_Next i); cbn [obind]; (done || apply IH).
Qed.

Lemma generic_offset_loop_eq fuel i offset end_ ct numHits nextKey results :
  generic_offset_loop fuel i offset end_ ct numHits nextKey results =
    match filtered_offset_loop generic_callback fuel i offset end_ ct numHits nextKey results with
    | (Ok r, results') => Ok (results', fst r, snd r) | (Err e, _) => Err e | (Panic, _) => Panic end.
Proof.
  revert i numHits nextKey results. induction fuel as [|fuel IH]; intros i numHits nextKey results; cbn [generic_offset_loop filtered_offset_loop]; destruct (ps_Valid i); try done. cbn [negb].
  unfold bind, lift, generic_callback, bind, lift, modify, ret. destruct (ps_Key i); [|done..]. cbn [obind].
  destruct (ps_Value i); [|done..]. cbn [obind]. destruct (unmarshal _); [|done..]. cbn [obind]. destruct (onResult _ _); [|done..]. cbn [obind].
  destruct (Size _ =? 0), (offset <=? numHits), (numHits <? end_); cbn [negb andb];
    (destruct (_ =? _); [destruct ct; cbn [negb]; [|done]|]; destruct (ps_Next i); cbn [obind]; (done || apply IH)).
Qed.

(** The generic form is the filtered one with its callback: the same page, the
    same response, the same errors. *)
Lemma generic_filtered_equiv req s :
  GenericFilteredPaginate req s =
    match FilteredPaginate generic_callback req (s, []) with
    | (Ok res, (s', results)) => (Ok (results, res), s')
    | (Err e, (s', _)) => (Err e, s')
    | (Panic, (s', _)) => (Panic, s')
    end.
Proof.
  unfold GenericFilteredPaginate, FilteredPaginate. cbn zeta. destruct (_ && _); [done|]. unfold on_store, on_result, lift. destruct (has_key _).
  - unfold bind. cbn [fst snd]. destruct (getIterator _ _ s) as [[i|e|] s1]; [|done..]. cbn [fst snd]. rewrite generic_key_loop_eq.
    by destruct (filtered_key_loop _ _ _ _ _ _) as [[nk|e|] rs].
  - unfold bind. cbn [fst snd]. destruct (getIterator _ _ s) as [[i|e|] s1]; [|done..]. cbn [fst snd]. rewrite generic_offset_loop_eq.
    by destruct (filtered_offset_loop _ _ _ _ _ _ _ _ _) as [[[nk n]|e|] rs].
Qed.
End Generic.

(** ** What a page is *)

Section Pages.
Context {S V I : Type} `{PageStoreLaws S V I inv contents holds}.

Definition visit {R} (f : string -> V -> M R unit) (l : list (string * V)) : M R unit := for_each l (fun kv => f kv.1 kv.2).

Lemma bind_unit {R B} (c : M R B) (s : R) : (ret tt ;;! c) s = c s.
Proof. done. Qed.

(** After a key: the next [limit] entries, and the key of the one after them. *)
Lemma key_loop_spec {R} (f : string -> V -> M R unit) fuel i l limit count (r : R) : holds i l -> (length l <= fuel)%nat -> 0 <= count <= limit -> limit < two64 ->
  key_loop f fuel i limit count r = (visit f (take (Z.to_nat (limit - count)) l) ;;! ret (fst <$> l !! Z.to_nat (limit - count))) r.
Proof.
  intros Hi Hf Hc Hl. revert i l count r Hi Hf Hc. induction fuel as [|fuel IH]; intros i [|[k v] l] count r Hi Hf Hc; cbn in Hf; try lia; cbn [key_loop]; rewrite (ps_valid _ _ Hi).
  1, 2: rewrite bool_decide_false by (intros []; done); cbn [negb]; by rewrite take_nil, lookup_nil.
  rewrite bool_decide_true by done. cbn [negb]. destruct (ps_head _ _ _ _ Hi) as (Ek & Ev & i' & En & Hi'). rewrite Ek, Ev, En. unfold lift at 1. rewrite (bind_run _ _ _ _ _ eq_refl).
  destruct (Z.eqb_spec count limit) as [->|Hne].
  - by rewrite Z.sub_diag.
  - replace (Z.to_nat (limit - count)) with (Datatypes.S (Z.to_nat (limit - (count + 1)))) by lia. rewrite wrap_u64_id by lia. unfold lift at 1. rewrite (bind_run _ _ _ _ _ eq_refl).
    unfold visit. cbn [take for_each lookup list_lookup fst snd]. rewrite bind_assoc. apply bind_same. intros [] s'. unfold lift. rewrite (bind_run _ _ _ _ _ eq_refl). apply IH; [done|lia|lia].
Qed.

(** Behind the page nothing is visited; the entries are only counted. *)
Lemma offset_loop_rest {R} (f : string -> V -> M R unit) fuel i l offset end_ count nk (r : R) : holds i l -> (length l <= fuel)%nat ->
  0 <= offset <= end_ -> end_ < count -> count + Z.of_nat (length l) < two64 -> offset_loop f fuel i offset end_ true count nk r =
    (Ok (match l with (k, _) :: _ => if count =? end_ then Some k else nk | [] => nk end, count + Z.of_nat (length l)), r).
Proof.
  intros Hi Hf Ho He Hc. revert i l count Hi Hf He Hc. induction fuel as [|fuel IH]; intros i [|[k v] l] count Hi Hf He Hc; cbn in Hf; try lia; cbn [offset_loop]; rewrite (ps_valid _ _ Hi).
  1, 2: rewrite bool_decide_false by (intros []; done); cbn; unfold ret; by rewrite Z.add_0_r.
  rewrite bool_decide_true by done. cbn [negb]. destruct (ps_head _ _ _ _ Hi) as (_ & _ & i' & En & Hi'). rewrite En. cbn [length] in Hc. rewrite wrap_u64_id by lia.
  destruct (Z.leb_spec (count + 1) offset); [lia|]. destruct (Z.leb_spec (count + 1) end_); [lia|]. destruct (Z.eqb_spec count end_); [lia|].
  assert (count + 1 <> wrap_u64 (end_ + 1)) as Hne.
  { destruct (Z.eq_dec (end_ + 1) two64) as [E|]; [rewrite E; change (wrap_u64 two64) with 0; lia|rewrite wrap_u64_id by lia; lia]. }
  destruct (Z.eqb_spec (count + 1) (wrap_u64 (end_ + 1))); [done|]. unfold lift. rewrite (bind_run _ _ _ _ _ eq_refl), (IH i' l) by (done || lia). cbn [length].
  replace (count + 1 + Z.of_nat (length l)) with (count + Z.of_nat (Datatypes.S (length l))) by lia. do 2 f_equal. destruct l as [|[k' v'] l]; [done|]. destruct (Z.eqb_spec (count + 1) end_); [lia|done].
Qed.

(** With an offset: the entries from it up to the limit, the key of the one
    after them, and the number of entries when it is asked for. *)
Lemma offset_loop_spec {R} (f : string -> V -> M R unit) fuel i l offset end_ ct count (r : R) : holds i l -> (length l <= fuel)%nat ->
  0 <= offset <= end_ -> 0 <= count <= end_ -> end_ < two64 -> count + Z.of_nat (length l) < two64 ->
  exists n, offset_loop f fuel i offset end_ ct count None r =
    (visit f (drop (Z.to_nat (offset - count)) (take (Z.to_nat (end_ - count)) l)) ;;! ret (fst <$> l !! Z.to_nat (end_ - count), n)) r /\
    (ct = true -> n = count + Z.of_nat (length l)).
Proof.
  intros Hi Hf Ho. revert i l count r Hi Hf. induction fuel as [|fuel IH]; intros i [|[k v] l] count r Hi Hf Hc He Hn; cbn in Hf; try lia; cbn [offset_loop]; rewrite (ps_valid _ _ Hi).
  1, 2: exists count; rewrite bool_decide_false by (intros []; done); cbn [negb]; rewrite take_nil, drop_nil, lookup_nil; split; [done|cbn; lia].
  rewrite bool_decide_true by done. cbn [negb]. destruct (ps_head _ _ _ _ Hi) as (Ek & Ev & i' & En & Hi'). rewrite Ek, Ev, En. cbn [length] in Hn. rewrite wrap_u64_id by lia.
  destruct (Z.leb_spec (count + 1) offset) as [Hlo|Hlo].
  - unfold lift at 1. rewrite (bind_run _ _ _ _ _ eq_refl). destruct (IH i' l (count + 1) r) as (n & E & En'); [done|lia..|]. exists n. split; [|intros Ect; rewrite En' by done; cbn [length]; lia]. rewrite E.
    replace (Z.to_nat (end_ - count)) with (Datatypes.S (Z.to_nat (end_ - (count + 1)))) by lia. by replace (Z.to_nat (offset - count)) with (Datatypes.S (Z.to_nat (offset - (count + 1)))) by lia.
  - replace (Z.to_nat (offset - count)) with 0%nat by lia. rewrite drop_0. destruct (Z.leb_spec (count + 1) end_) as [Hle|Hle].
    + replace (Z.to_nat (end_ - count)) with (Datatypes.S (Z.to_nat (end_ - (count + 1)))) by lia. unfold lift at 1 2. rewrite !(bind_run _ _ _ _ _ eq_refl).
      unfold visit. cbn [take for_each lookup list_lookup fst snd].
      destruct (f k v r) as [[[]|e|] s'] eqn:Ef.
      * destruct (IH i' l (count + 1) s') as (n & E & En'); [done|lia..|]. exists n. split; [|intros Ect; rewrite En' by done; cbn [length]; lia].
        rewrite (bind_run _ _ _ _ _ Ef), bind_assoc, (bind_run _ _ _ _ _ Ef). unfold lift. rewrite (bind_run _ _ _ _ _ eq_refl), E.
        replace (Z.to_nat (offset - (count + 1))) with 0%nat by lia. by rewrite drop_0.
      * exists (count + Z.of_nat (Datatypes.S (length l))). split; [|done]. unfold bind. by rewrite Ef.
      * exists (count + Z.of_nat (Datatypes.S (length l))). split; [|done]. unfold bind. by rewrite Ef.
    + assert (count = end_) as -> by lia. rewrite Z.sub_diag. change (Z.to_nat 0) with 0%nat. cbn [take lookup list_lookup fmap option_fmap option_map fst]. unfold visit. cbn [for_each].
      rewrite wrap_u64_id, Z.eqb_refl by lia. unfold lift at 1. rewrite (bind_run _ _ _ _ _ eq_refl). destruct ct; cbn [negb].
      * unfold lift. rewrite (bind_run _ _ _ _ _ eq_refl). rewrite (offset_loop_rest f fuel i' l) by (done || lia). exists (end_ + Z.of_nat (Datatypes.S (length l))). split; [|done].
        unfold bind, ret. do 3 f_equal; [|lia]. destruct l as [|[k' v'] l]; [done|]. destruct (Z.eqb_spec (end_ + 1) end_); [lia|done].
      * exists (end_ + 1). split; [done|done].
Qed.

(** The iterators of requests. *)
Lemma before_domain_from asc (m : gmap string V) l1 k v l2 : range None None asc m = l1 ++ (k, v) :: l2 ->
  forall k' v', (k', v') ∈ range None None asc m -> ~ before asc k' k <-> (k', v') ∈ (k, v) :: l2.
Proof.
  intros E k' v'. pose proof (range_ordered None None asc m) as Ho. rewrite E in Ho |- *.
  unfold ordered in Ho. rewrite fmap_app in Ho. apply StronglySorted_app in Ho as (Hx & _ & Hs). intros [Hin|Hin]%elem_of_app.
  - assert (before asc k' k) as Hb by (apply Hx; [by apply (list_elem_of_fmap_2 fst _ _ Hin)|left]). split; [done|]. intros Hin2. exfalso.
    assert (before asc k' k') as Hi by (apply Hx; [by apply (list_elem_of_fmap_2 fst _ _ Hin)|by apply (list_elem_of_fmap_2 fst _ _ Hin2)]). by apply before_irrefl in Hi.
  - split; [done|]. intros _ Hb. apply (ordered_cons asc k v l2) in Hs as [_ Hf]. apply elem_of_cons in Hin as [[= -> ->]|Hin]; [by apply before_irrefl in Hb|].
    apply Hf in Hin. apply (before_irrefl asc k). by etrans.
Qed.

Lemma range_from (m : gmap string V) l1 k v l2 : range None None true m = l1 ++ (k, v) :: l2 -> range (Some k) None true m = (k, v) :: l2.
Proof.
  intros E. apply (ordered_unique true); [apply range_ordered| |].
  - pose proof (range_ordered None None true m) as Ho. rewrite E in Ho. by apply ordered_app in Ho as [_ ?].
  - intros [k' v']. pose proof (before_domain_from true m _ _ _ _ E k' v') as Hd. rewrite elem_of_range. unfold in_domain. cbn [before] in Hd. split.
    + intros [Hk [Hn _]]. apply Hd; [|done]. apply elem_of_range. by split.
    + intros Hin. assert ((k', v') ∈ range None None true m) as Hall by (rewrite E; apply elem_of_app; by right). pose proof Hall as [Hk _]%elem_of_range. split; [done|]. split; [|done]. by apply Hd.
Qed.

(** Walking down from [k]: up to the key after it. *)
Lemma range_down (m : gmap string V) l1 e w k v l2 : range None None false m = l1 ++ (e, w) :: (k, v) :: l2 -> range None (Some e) false m = (k, v) :: l2.
Proof.
  intros E. apply (ordered_unique false); [apply range_ordered| |].
  - pose proof (range_ordered None None false m) as Ho. rewrite E in Ho. apply ordered_app in Ho as [_ Ho]. by apply (ordered_cons false e w) in Ho as [? _].
  - intros [k' v']. assert (range None None false m = (l1 ++ [(e, w)]) ++ (k, v) :: l2) as E' by (by rewrite <- app_assoc). rewrite elem_of_range. unfold in_domain.
    pose proof (range_ordered None None false m) as Ho. rewrite E in Ho. apply ordered_app in Ho as [_ Ho]. apply (ordered_cons false e w) in Ho as [Ho Hf]. split.
    + intros [Hk [_ Hlt]]. assert ((k', v') ∈ range None None false m) as Hall by (apply elem_of_range; by split). apply (before_domain_from false m _ _ _ _ E'); [done|]. cbn.
      intros Hb. pose proof Hall as Hall'. rewrite E in Hall'. apply elem_of_app in Hall' as [Hin|Hin].
      * assert (before false k' e) as Hb'; [|cbn in Hb'; apply (str_lt_irrefl e); by etrans].
        pose proof (range_ordered None None false m) as Ho'. rewrite E in Ho'. unfold ordered in Ho'. rewrite fmap_app in Ho'. apply StronglySorted_app in Ho' as (Hx & _ & _). apply Hx; [by apply (list_elem_of_fmap_2 fst _ _ Hin)|left].
      * apply elem_of_cons in Hin as [[= -> ->]|Hin]; [by apply str_lt_irrefl in Hlt|]. apply (ordered_cons false k v l2) in Ho as [_ Hf2]. apply elem_of_cons in Hin as [[= -> ->]|Hin]; [by apply str_lt_irrefl in Hb|].
        apply Hf2 in Hin. cbn in Hin. apply (str_lt_irrefl k). by etrans.
    + intros Hin. assert ((k', v') ∈ range None None false m) as Hall by (rewrite E; apply elem_of_app; right; by right). apply elem_of_range in Hall as [Hk _]. split; [done|]. split; [done|]. by apply (Hf k' v').
Qed.

Lemma getIterator_first rev s : inv s -> exists i s', getIterator None rev s = (Ok i, s') /\ inv s' /\ contents s' = contents s /\ holds i (range None None (negb rev) (contents s)).
Proof. intros Hs. destruct rev; by apply ps_iterator_holds. Qed.

(** From a key on: in reverse, the entry before it in the walk gives the end. *)
Lemma getIterator_key rev k v l1 l2 s : inv s -> k <> "" -> contents s !! "" = None -> range None None (negb rev) (contents s) = l1 ++ (k, v) :: l2 -> (rev = true -> l1 <> []) ->
  exists i s', getIterator (Some k) rev s = (Ok i, s') /\ inv s' /\ contents s' = contents s /\ holds i ((k, v) :: l2).
Proof.
  intros Hs Hk He El Hl1. assert (bounds_ok (Some k) None) as Hb by (split; congruence). destruct rev; cbn [negb] in El.
  - destruct (ps_iterator_holds true (Some k) None s Hs Hb) as (i & s1 & Ei & Hs1 & Ec & Hi). unfold getIterator.
    destruct l1 as [|x l1 _] using rev_ind; [by destruct Hl1|]. destruct x as [e w]. rewrite <- app_assoc in El. cbn [app] in El.
    assert (range (Some k) None true (contents s) = (k, v) :: (e, w) :: reverse l1) as Er.
    { apply (range_from _ (reverse l2)). pose proof (f_equal reverse El) as E. unfold range in E |- *. rewrite reverse_involutive in E. rewrite E, reverse_app, !reverse_cons, <- !app_assoc. done. }
    rewrite Er in Hi. destruct (ps_head _ _ _ _ Hi) as (_ & _ & i' & En & Hi'). destruct (ps_head _ _ _ _ Hi') as (Ek' & _).
    assert ((let! itr := ps_iterator true (Some k) None in
      if ps_Valid itr then (let! itr := lift (ps_Next itr) in let! key := lift (ps_Key itr) in ret (Some key)) else ret None) s = (Ok (Some e), s1)) as Eend.
    { rewrite (bind_run _ _ _ _ _ Ei), (ps_valid _ _ Hi), bool_decide_true by done. unfold lift, bind. rewrite En. by rewrite Ek'. }
    rewrite (bind_run _ _ _ _ _ Eend).
    assert (e <> "") as Hne. { intros ->. assert (("", w) ∈ range None None false (contents s)) as Hin by (rewrite El; set_solver). apply elem_of_range in Hin as [Hin _]. congruence. }
    destruct (ps_iterator_holds false None (Some e) s1 Hs1) as (j & s2 & Ej & Hs2 & Ec2 & Hj); [split; congruence|]. exists j, s2. split; [exact Ej|]. split; [done|]. split; [by rewrite Ec2|].
    rewrite Ec in Hj. by rewrite (range_down _ _ _ _ _ _ _ El) in Hj.
  - destruct (ps_iterator_holds true (Some k) None s Hs Hb) as (i & s1 & Ei & Hs1 & Ec & Hi). exists i, s1. rewrite (range_from _ _ _ _ _ El) in Hi. done.
Qed.

(** A request for the first page, and for the page at a key. *)
Lemma Paginate_first {R} (f : string -> V -> M R unit) offset limit ct rev s (r : R) : inv s -> 0 <= offset -> 0 < limit -> offset + limit < two64 ->
  let l := range None None (negb rev) (contents s) in Z.of_nat (length l) < two64 -> exists s' n,
  inv s' /\ contents s' = contents s /\ (ct = true -> n = Z.of_nat (length l)) /\
  Paginate f (Some (mkPageRequest None offset limit ct rev)) (s, r) =
    match visit f (drop (Z.to_nat offset) (take (Z.to_nat (offset + limit)) l)) r with
    | (Ok _, r') => (Ok (mkPageResponse (fst <$> l !! Z.to_nat (offset + limit)) (if ct then n else 0)), (s', r'))
    | (Err e, r') => (Err e, (s', r'))
    | (Panic, r') => (Panic, (s', r'))
    end.
Proof.
  intros Hs Ho Hl Hend l Hn. destruct (getIterator_first rev s Hs) as (i & s' & Ei & Hs' & Ec & Hi). pose proof (ps_fuel _ _ Hi) as Hf.
  destruct (offset_loop_spec f (ps_size i) i l offset (offset + limit) ct 0 r Hi Hf) as (n & E & En); [lia..|]. exists s', n. split; [done|]. split; [done|]. split; [intros Ect; rewrite En by done; lia|].
  cbv [Paginate limit_of count_of default from_option id pg_Offset pg_Key pg_Limit pg_CountTotal pg_Reverse has_key]. rewrite bool_decide_false, andb_false_r by (intros []; done).
  destruct (Z.eqb_spec limit 0); [lia|]. rewrite wrap_u64_id by lia. unfold on_store, on_result, bind at 1. cbn [fst snd]. rewrite Ei. unfold bind at 1. cbn [fst snd]. rewrite E, !Z.sub_0_r. unfold bind.
  by destruct (visit f _ r) as [[]].
Qed.

Lemma Paginate_key {R} (f : string -> V -> M R unit) k v l1 l2 limit ct rev s (r : R) : inv s -> 0 < limit < two64 -> k <> "" -> contents s !! "" = None ->
  range None None (negb rev) (contents s) = l1 ++ (k, v) :: l2 -> (rev = true -> l1 <> []) -> exists s', inv s' /\ contents s' = contents s /\
  Paginate f (Some (mkPageRequest (Some k) 0 limit ct rev)) (s, r) =
    match visit f (take (Z.to_nat limit) ((k, v) :: l2)) r with
    | (Ok _, r') => (Ok (mkPageResponse (fst <$> ((k, v) :: l2) !! Z.to_nat limit) 0), (s', r'))
    | (Err e, r') => (Err e, (s', r'))
    | (Panic, r') => (Panic, (s', r'))
    end.
Proof.
  intros Hs Hl Hk He El Hl1. destruct (getIterator_key rev k v l1 l2 s Hs Hk He El Hl1) as (i & s' & Ei & Hs' & Ec & Hi). exists s'. split; [done|]. split; [done|].
  destruct k as [|c k]; [done|]. cbv [Paginate limit_of default from_option id pg_Offset pg_Key pg_Limit pg_CountTotal pg_Reverse has_key]. change (0 <? 0) with false. cbn [andb].
  destruct (Z.eqb_spec limit 0); [lia|]. unfold on_store, on_result, bind at 1. cbn [fst snd]. rewrite Ei. unfold bind at 1. cbn [fst snd]. rewrite (key_loop_spec f _ _ _ _ _ r Hi (ps_fuel _ _ Hi)) by lia. rewrite Z.sub_0_r.
  unfold bind. by destruct (visit f _ r) as [[]].
Qed.

(** ** All pages *)

Definition collect (k : string) (v : V) : M (list (string * V)) unit := modify (fun r => r ++ [(k, v)]).

(** A client that follows the next keys; its result is the list of pages. *)
Fixpoint all_pages (n : nat) (limit : Z) (reverse : bool) (key : bound) : M S (list (list (string * V))) :=
  match n with
  | O => panic
  | Datatypes.S n => fun s =>
      match Paginate collect (Some (mkPageRequest key 0 limit false reverse)) (s, []) with
      | (Ok res, (s, page)) =>
          match pr_NextKey res with
          | None => (Ok [page], s)
          | Some _ => (let! pages := all_pages n limit reverse (pr_NextKey res) in ret (page :: pages)) s
          end
      | (Err e, (s, _)) => (Err e, s)
      | (Panic, (s, _)) => (Panic, s)
      end
  end.

Lemma visit_collect l r : visit collect l r = (Ok tt, r ++ l).
Proof.
  unfold visit, collect. rewrite for_each_modify. f_equal. revert r. induction l as [|[k v] l IH]; intros r; cbn; [by rewrite app_nil_r|]. by rewrite IH, <- app_assoc.
Qed.

(** [pages] cuts [l] into full pages, the last one apart. *)
Inductive cut (limit : nat) : list (string * V) -> list (list (string * V)) -> Prop :=
  | cut_last l : (length l <= limit)%nat -> cut limit l [l]
  | cut_page page l pages : length page = limit -> l <> [] -> cut limit l pages -> cut limit (page ++ l) (page :: pages).

Lemma next_pages limit rev n k v l1 l2 s : inv s -> 0 < limit < two64 -> k <> "" -> contents s !! "" = None ->
  range None None (negb rev) (contents s) = l1 ++ (k, v) :: l2 -> (rev = true -> l1 <> []) -> (length l2 < n)%nat ->
  exists pages s', all_pages n limit rev (Some k) s = (Ok pages, s') /\ contents s' = contents s /\ cut (Z.to_nat limit) ((k, v) :: l2) pages.
Proof.
  intros Hs Hl. revert k v l1 l2 s Hs. induction n as [|n IH]; intros k v l1 l2 s Hs Hk He El Hl1 Hn; [lia|]. cbn [all_pages].
  destruct (Paginate_key collect k v l1 l2 limit false rev s [] Hs Hl Hk He El Hl1) as (s1 & Hs1 & Ec & E). rewrite E, visit_collect. cbn [pr_NextKey app].
  set (l := (k, v) :: l2) in *. destruct (l !! Z.to_nat limit) as [[k' v']|] eqn:Enext; cbn [fmap option_fmap option_map fst].
  - apply list_elem_of_split_length in Enext as (pre & post & Epost & Elen). assert (take (Z.to_nat limit) l = pre) as Epre by (rewrite Epost, Elen; apply take_app_length).
    assert (k' <> "") as Hk'. { intros ->. assert (("", v') ∈ range None None (negb rev) (contents s)) as Hin by (rewrite El, Epost; set_solver). apply elem_of_range in Hin as [Hin _]. congruence. }
    assert (pre <> []) as Hpre by (intros ->; cbn in Elen; lia).
    destruct (IH k' v' (l1 ++ pre) post s1) as (pages & s2 & E2 & Ec2 & Hcut); [done|done|by rewrite Ec|by rewrite Ec, El, Epost, app_assoc|by intros _ [? ?]%app_nil| |].
    { pose proof (f_equal length Epost) as Ep. subst l. rewrite length_app in Ep. cbn in Ep. lia. }
    exists ((take (Z.to_nat limit) l) :: pages), s2. rewrite (bind_run _ _ _ _ _ E2). split; [done|]. split; [by rewrite Ec2|]. rewrite Epre. rewrite Epost at 1. apply cut_page; done.
  - apply lookup_ge_None in Enext. exists [l], s1. rewrite take_ge by done. split; [done|]. split; [done|]. by apply cut_last.
Qed.

(** C24: Following the pages visits everything once.  Over any lawful store, for
    any positive limit and in both directions, a client that asks for a first
    page and then for the page at each next key until there is none gets the
    entries of the store in order, each exactly once, and every page but the
    last holds as many as the limit. *)
Theorem pages_complete limit rev n s : inv s -> 0 < limit < two64 -> contents s !! "" = None ->
  let l := range None None (negb rev) (contents s) in
  Z.of_nat (length l) < two64 -> (length l < n)%nat ->
  exists pages s', all_pages n limit rev None s = (Ok pages, s') /\ contents s' = contents s /\ concat pages = l /\ cut (Z.to_nat limit) l pages.
Proof.
  intros Hs Hl He l Hlen Hn. assert (forall l' pages, cut (Z.to_nat limit) l' pages -> concat pages = l') as Hconcat by (induction 1; cbn; [by rewrite app_nil_r|congruence]).
  destruct n as [|n]; [lia|]. cbn [all_pages]. destruct (Paginate_first collect 0 limit false rev s [] Hs) as (s1 & x & Hs1 & Ec & _ & E); [lia..|done|]. fold l in E. rewrite E, visit_collect. cbn [pr_NextKey app].
  rewrite Z.add_0_l. change (Z.to_nat 0) with 0%nat. rewrite drop_0. destruct (l !! Z.to_nat limit) as [[k' v']|] eqn:Enext; cbn [fmap option_fmap option_map fst].
  - apply list_elem_of_split_length in Enext as (pre & post & Epost & Elen). assert (take (Z.to_nat limit) l = pre) as Epre by (rewrite Epost, Elen; apply take_app_length).
    assert (k' <> "") as Hk'. { intros ->. assert (("", v') ∈ l) as Hin by (rewrite Epost; set_solver). apply elem_of_range in Hin as [Hin _]. congruence. }
    destruct (next_pages limit rev n k' v' pre post s1) as (pages & s2 & E2 & Ec2 & Hcut); [done|done|done|by rewrite Ec|by rewrite Ec|by intros _ ->; cbn in Elen; lia| |].
    { pose proof (f_equal length Epost) as Ep. rewrite length_app in Ep. cbn in Ep. lia. }
    assert (cut (Z.to_nat limit) l (pre :: pages)) as Hc by (rewrite Epost; by apply cut_page).
    exists (take (Z.to_nat limit) l :: pages), s2. rewrite (bind_run _ _ _ _ _ E2), Epre. split; [done|]. split; [by rewrite Ec2|]. split; [by apply Hconcat|done].
  - apply lookup_ge_None in Enext. rewrite take_ge by done. exists [l], s1. split; [done|]. split; [done|]. split; [cbn; by rewrite app_nil_r|by apply cut_last].
Qed.

(** ** FilteredPaginate when every entry counts *)

Section AllHits.
Context {R : Type} (f : string -> V -> M R unit) (g : string -> V -> bool -> M R bool).
Context (g_page : forall k v r, g k v true r = (f k v ;;! ret true) r) (g_skip : forall k v r, g k v false r = (Ok true, r)).

Lemma all_hits_key fuel i limit count (r : R) : filtered_key_loop g fuel i limit count r = key_loop f fuel i limit count r.
Proof using g_page.
  revert i count r. induction fuel as [|fuel IH]; intros i count r; [done|]. cbn [filtered_key_loop key_loop]. destruct (negb _); [done|]. apply bind_same. intros key s1. destruct (_ =? _); [done|].
  apply bind_same. intros value s2. unfold bind at 1. rewrite g_page. unfold bind, ret. destruct (f key value s2) as [[[]|e|] s3]; [|done..]. destruct (lift _ s3) as [[j|e|] s4]; [apply IH|done..].
Qed.

Lemma all_hits_offset fuel i l offset end_ ct count nk (r : R) : holds i l -> (length l <= fuel)%nat -> 0 <= offset <= end_ -> 0 <= count -> end_ < two64 -> count + Z.of_nat (length l) < two64 ->
  (nk <> None -> end_ < count) ->
  filtered_offset_loop g fuel i offset end_ ct count nk r = offset_loop f fuel i offset end_ ct count nk r.
Proof using H0 g_page g_skip.
  intros Hi Hf Ho. revert i l count nk r Hi Hf. induction fuel as [|fuel IH]; intros i [|[k v] l] count nk r Hi Hf Hc He Hn Hnk; cbn in Hf; try lia;
    cbn [filtered_offset_loop offset_loop]; rewrite (ps_valid _ _ Hi).
  1, 2: by rewrite bool_decide_false by (intros []; done).
  rewrite bool_decide_true by done. cbn [negb]. destruct (ps_head _ _ _ _ Hi) as (Ek & Ev & i' & En & Hi'). rewrite Ek, Ev, En. cbn [length] in Hn.
  unfold lift. rewrite !(bind_run _ _ _ _ _ eq_refl). rewrite wrap_u64_id by lia.
  assert (wrap_u64 (end_ + 1) = end_ + 1 \/ (wrap_u64 (end_ + 1) = 0 /\ end_ + 1 = two64)) as Hw.
  { destruct (Z.eq_dec (end_ + 1) two64) as [E|]; [right; rewrite E; done|left; apply wrap_u64_id; lia]. }
  destruct (Z.leb_spec offset count) as [Hoc|Hoc]; [destruct (Z.ltb_spec count end_) as [Hce|Hce]|]; cbn [andb].
  - unfold bind at 1. rewrite g_page. destruct (Z.leb_spec (count + 1) offset); [lia|]. destruct (Z.leb_spec (count + 1) end_); [|lia].
    unfold bind, ret. destruct (f k v r) as [[[]|e|] s3]; [|done..]. destruct (Z.eqb_spec (count + 1) (wrap_u64 (end_ + 1))); [lia|]. apply (IH i' l); [done|lia..|]. intros Hx. apply Hnk in Hx. lia.
  - unfold bind at 1. rewrite g_skip. destruct (Z.leb_spec (count + 1) offset); [lia|]. destruct (Z.leb_spec (count + 1) end_); [lia|].
    destruct (Z.eqb_spec (count + 1) (wrap_u64 (end_ + 1))).
    + assert (nk = None) as -> by (destruct nk; [exfalso; assert (end_ < count) by (by apply Hnk); lia|done]). destruct ct; cbn [negb]; [|done]. unfold bind. apply (IH i' l); [done|lia..].
    + unfold bind. apply (IH i' l); [done|lia..].
  - unfold bind at 1. rewrite g_skip. destruct (Z.leb_spec (count + 1) offset); [|lia]. destruct (Z.eqb_spec (count + 1) (wrap_u64 (end_ + 1))) as [E|]; [lia|].
    unfold bind. apply (IH i' l); [done|lia..|]. intros Hx. apply Hnk in Hx. lia.
Qed.

Lemma FilteredPaginate_all_hits req s (r : R) : inv s -> let q := default no_request req in
  0 <= pg_Offset q -> 0 <= pg_Limit q -> pg_Offset q + limit_of q < two64 -> Z.of_nat (length (range None None (negb (pg_Reverse q)) (contents s))) < two64 ->
  FilteredPaginate g req (s, r) = Paginate f req (s, r).
Proof using g_page g_skip H0.
  intros Hs q Ho Hl Hend Hn. unfold FilteredPaginate, Paginate. cbv zeta. fold q. destruct (_ && _); [done|]. assert (0 < limit_of q) as Hpos by (unfold limit_of, DefaultLimit; destruct (Z.eqb_spec (pg_Limit q) 0); lia).
  destruct (has_key _).
  - apply bind_same. intros i [s1 r1]. unfold on_result, bind. cbn [fst snd]. by rewrite all_hits_key.
  - destruct (getIterator_first (pg_Reverse q) s Hs) as (i & s1 & Ei & _ & _ & Hi). unfold on_store, on_result, bind. cbn [fst snd]. rewrite Ei. cbn [fst snd].
    by rewrite (all_hits_offset _ _ _ _ _ _ _ _ _ Hi (ps_fuel _ _ Hi)) by (rewrite ?wrap_u64_id by lia; (done || lia)).
Qed.
End AllHits.
End Pages.

(** ** Requests that go wrong *)

Module page_toy.
Definition store : gmap string Z := {[ "a" := 1; "b" := 2; "c" := 3 ]}.

(** [offset + limit] wraps: an offset with the greatest limit, which the SDK
    itself uses for everything, gives an empty page without a next key. *)
Example offset_overflow :
  Paginate (collect (V := Z)) (Some (mkPageRequest None 1 MaxLimit true false)) (store, []) = (Ok (mkPageResponse None 3), (store, [])).
Proof. vm_compute. reflexivity. Qed.

(** A reverse request at the greatest key asks an exhausted iterator for its
    key. *)
Example reverse_last_key : Paginate (collect (V := Z)) (Some (mkPageRequest (Some "c") 0 10 false true)) (store, []) = (Panic, (store, [])).
Proof. vm_compute. reflexivity. Qed.

Lemma pages_complete_witness : exists pages s', all_pages 4 2 true None store = (Ok pages, s') /\ concat pages = [("c", 3); ("b", 2); ("a", 1)] /\ cut 2 [("c", 3); ("b", 2); ("a", 1)] pages.
Proof.
  destruct (pages_complete 2 true 4 store) as (pages & s' & E & _ & Ec & Hcut).
  - exact I.
  - split; [lia|]. unfold two64. lia.
  - vm_compute. reflexivity.
  - vm_compute. reflexivity.
  - vm_compute. lia.
  - exists pages, s'. split; [exact E|]. assert (range None None (negb true) store = [("c", 3); ("b", 2); ("a", 1)]) as Er by (vm_compute; reflexivity).
    unfold id in Ec, Hcut. rewrite Er in Ec, Hcut. split; [exact Ec|exact Hcut].
Defined.
End page_toy.
