(* ===== verification/Vesting.v ===== *)
(** Vesting: cosmos-sdk/x/auth/vesting/types, accounts whose coins become
    spendable over time.

    A vesting account is its original coins, what of them and of other coins
    is delegated, and a schedule: continuous, periodic, at one moment, or
    never.  Times are in seconds; the code's int64 arithmetic wraps.  The part
    every account has is in Auth.v; nil coins are the empty list.

    Theorems: what is vested grows from nothing to everything and adds up with
    what is vesting; what is locked; the two counters of delegations add up to
    what is delegated, and the vesting one stays within what was vesting. *)

From Stdlib Require Import ZArith Lia Ascii String.
From stdpp Require Import base gmap sets list strings.
From S2P Require Import Prelude Sdk KVStore Coins.

Open Scope Z_scope.
Open Scope go_scope.

(** Dec.RoundInt of cosmossdk.io/math, and that Quo rounds monotonically. *)
Class SdkDecRound : Type := { Dec_RoundInt : Z -> option Z }.
Class SdkDecRoundLaws `{SdkMath} `{SdkDecRound} : Prop := {
  Dec_RoundInt_near d r : Dec_RoundInt d = Some r -> 2 * Z.abs (r * dec_one - d) <= dec_one;
  Dec_RoundInt_fits d : Z.abs d < 2 ^ 255 * dec_one -> is_Some (Dec_RoundInt d);
  Dec_Quo_mono a a' b c c' : 0 < b -> a <= a' -> Dec_Quo a b = Some c -> Dec_Quo a' b = Some c' -> c <= c';
}.

(** A concrete instance. *)
Definition sdkround : SdkDecRound := {| Dec_RoundInt d := fits 256 (round_half_even d) |}.

Lemma round_half_even_mono a b : a <= b -> round_half_even a <= round_half_even b.
Proof.
  intros Hle. destruct (decide (a = b)) as [->|]; [done|]. unfold round_half_even, dec_one.
  pose proof (Z.div_mod a 1000000000000000000). pose proof (Z.mod_pos_bound a 1000000000000000000).
  pose proof (Z.div_mod b 1000000000000000000). pose proof (Z.mod_pos_bound b 1000000000000000000).
  destruct (decide (a / 1000000000000000000 = b / 1000000000000000000)) as [E|E].
  - rewrite E in *. destruct (Z.even (b / _)); repeat case_match; lia.
  - assert (a / 1000000000000000000 < b / 1000000000000000000) by lia. destruct (Z.even (a / _)), (Z.even (b / _)); repeat case_match; lia.
Qed.

#[export] Instance sdkround_laws : @SdkDecRoundLaws sdkmath sdkround.
Proof.
  split; cbn [sdkround sdkmath Dec_RoundInt Dec_Quo].
  - intros d r E%fits_inv. subst r. apply round_half_even_near.
  - intros d Hd. eexists. apply fits_run. assert (Z.abs d <= 2 ^ 255 * dec_one) as Hd' by lia. pose proof (round_half_even_near d). unfold dec_one in *.
    assert (2 ^ 255 + 2 < 2 ^ 256) by done. lia.
  - intros a a' b c c' Hb Hle. destruct (Z.eqb_spec b 0); [lia|]. intros E%fits_inv E'%fits_inv. subst c c'. apply round_half_even_mono.
    apply Z.quot_le_mono; [done|]. unfold dec_one. lia.
Qed.

Module vesting.

(** *** period.go *)

Record Period : Type := mkPeriod { Length : Z; p_Amount : Coins }.

Fixpoint TotalLength_from (total : Z) (p : list Period) : Z :=
  match p with [] => total | period :: p => TotalLength_from (wrap_i64 (total + Length period)) p end.
Definition TotalLength (p : list Period) : Z := TotalLength_from 0 p.

(** *** vesting_account.go *)

Record BaseVestingAccount : Type := mkBaseVestingAccount {
  OriginalVesting : Coins;
  DelegatedFree : Coins;
  DelegatedVesting : Coins;
  EndTime : Z;
}.

Inductive Schedule : Type :=
  | Continuous (StartTime : Z)
  | Periodic (StartTime : Z) (VestingPeriods : list Period)
  | Delayed
  | PermanentLocked.

Record VestingAccount : Type := mkVestingAccount { base : BaseVestingAccount; schedule : Schedule }.

Section Accounts.
Context `{SdkMath} `{SdkDecRound}.

Fixpoint TotalAmount_from (total : Coins) (p : list Period) : outcome Coins :=
  match p with
  | [] => Ok total
  | period :: p => let* total := Coins_Add total (p_Amount period) in TotalAmount_from total p
  end.
Definition TotalAmount (p : list Period) : outcome Coins := TotalAmount_from [] p.

Definition NewBaseVestingAccount (originalVesting : Coins) (endTime : Z) : BaseVestingAccount := mkBaseVestingAccount originalVesting [] [] endTime.

Definition LockedCoinsFromVesting (bva : BaseVestingAccount) (vestingCoins : Coins) : outcome Coins :=
  let* m := Coins_Min vestingCoins (DelegatedVesting bva) in
  Coins_Sub vestingCoins m.

(** One coin of the loop of TrackDelegation, and of TrackUndelegation. *)
Definition track_coin (balance vestingCoins : Coins) (bva : BaseVestingAccount) (coin : Coin) : outcome BaseVestingAccount :=
  let* baseAmt := AmountOf balance (Denom coin) in
  let* vestingAmt := AmountOf vestingCoins (Denom coin) in
  let* delVestingAmt := AmountOf (DelegatedVesting bva) (Denom coin) in
  if (Amount coin =? 0) || (baseAmt <? Amount coin) then Panic else
  let* rest := o_panic (Int_Sub vestingAmt delVestingAmt) in
  let x := Z.min (Z.max rest 0) (Amount coin) in
  let* y := o_panic (Int_Sub (Amount coin) x) in
  let* dv := if x =? 0 then Ok (DelegatedVesting bva) else (let* xCoin := o_panic (NewCoin (Denom coin) x) in Coins_Add (DelegatedVesting bva) [xCoin]) in
  let* df := if y =? 0 then Ok (DelegatedFree bva) else (let* yCoin := o_panic (NewCoin (Denom coin) y) in Coins_Add (DelegatedFree bva) [yCoin]) in
  Ok (mkBaseVestingAccount (OriginalVesting bva) df dv (EndTime bva)).

Fixpoint BaseTrackDelegation (balance vestingCoins amount : Coins) (bva : BaseVestingAccount) : outcome BaseVestingAccount :=
  match amount with
  | [] => Ok bva
  | coin :: amount => let* bva := track_coin balance vestingCoins bva coin in BaseTrackDelegation balance vestingCoins amount bva
  end.

Definition untrack_coin (bva : BaseVestingAccount) (coin : Coin) : outcome BaseVestingAccount :=
  if Amount coin =? 0 then Panic else
  let* delegatedFree := AmountOf (DelegatedFree bva) (Denom coin) in
  let* delegatedVesting := AmountOf (DelegatedVesting bva) (Denom coin) in
  let x := Z.min delegatedFree (Amount coin) in
  let* rest := o_panic (Int_Sub (Amount coin) x) in
  let y := Z.min delegatedVesting rest in
  let* df := if x =? 0 then Ok (DelegatedFree bva) else (let* xCoin := o_panic (NewCoin (Denom coin) x) in Coins_Sub (DelegatedFree bva) [xCoin]) in
  let* dv := if y =? 0 then Ok (DelegatedVesting bva) else (let* yCoin := o_panic (NewCoin (Denom coin) y) in Coins_Sub (DelegatedVesting bva) [yCoin]) in
  Ok (mkBaseVestingAccount (OriginalVesting bva) df dv (EndTime bva)).

Fixpoint BaseTrackUndelegation (amount : Coins) (bva : BaseVestingAccount) : outcome BaseVestingAccount :=
  match amount with
  | [] => Ok bva
  | coin :: amount => let* bva := untrack_coin bva coin in BaseTrackUndelegation amount bva
  end.

(** *** The kinds of accounts *)

Definition NewContinuousVestingAccountRaw (bva : BaseVestingAccount) (startTime : Z) : VestingAccount := mkVestingAccount bva (Continuous startTime).
Definition NewDelayedVestingAccountRaw (bva : BaseVestingAccount) : VestingAccount := mkVestingAccount bva Delayed.
Definition NewPeriodicVestingAccount (originalVesting : Coins) (startTime : Z) (periods : list Period) : VestingAccount :=
  mkVestingAccount (mkBaseVestingAccount originalVesting [] [] (TotalLength_from startTime periods)) (Periodic startTime periods).
Definition NewPermanentLockedAccount (coins : Coins) : VestingAccount := mkVestingAccount (mkBaseVestingAccount coins [] [] 0) PermanentLocked.

(** The loop of a continuous account: each coin times the scalar. *)
Fixpoint scale_coins (s : Z) (coins : Coins) : outcome Coins :=
  match coins with
  | [] => Ok []
  | ovc :: coins =>
      let* d := o_panic (Dec_Mul (NewDecFromInt (Amount ovc)) s) in
      let* vestedAmt := o_panic (Dec_RoundInt d) in
      let* c := o_panic (NewCoin (Denom ovc) vestedAmt) in
      let* rest := scale_coins s coins in
      Ok (c :: rest)
  end.

(** The loop of a periodic account. *)
Fixpoint vested_periods (blockTime currentPeriodStartTime : Z) (vestedCoins : Coins) (periods : list Period) : outcome Coins :=
  match periods with
  | [] => Ok vestedCoins
  | period :: periods =>
      let x := wrap_i64 (blockTime - currentPeriodStartTime) in
      if x <? Length period then Ok vestedCoins else
      let* vestedCoins := Coins_Add vestedCoins (p_Amount period) in
      vested_periods blockTime (wrap_i64 (currentPeriodStartTime + Length period)) vestedCoins periods
  end.

Definition Continuous_GetVestedCoins (blockTime StartTime : Z) (bva : BaseVestingAccount) : outcome Coins :=
  if blockTime <=? StartTime then Ok [] else
  if EndTime bva <=? blockTime then Ok (OriginalVesting bva) else
  let x := wrap_i64 (blockTime - StartTime) in
  let y := wrap_i64 (EndTime bva - StartTime) in
  let* s := o_panic (Dec_Quo (NewDecFromInt x) (NewDecFromInt y)) in
  scale_coins s (OriginalVesting bva).

Definition Periodic_GetVestedCoins (blockTime StartTime : Z) (VestingPeriods : list Period) (bva : BaseVestingAccount) : outcome Coins :=
  if blockTime <=? StartTime then Ok [] else
  if EndTime bva <=? blockTime then Ok (OriginalVesting bva) else
  vested_periods blockTime StartTime [] VestingPeriods.

Definition Delayed_GetVestedCoins (blockTime : Z) (bva : BaseVestingAccount) : outcome Coins :=
  Ok (if EndTime bva <=? blockTime then OriginalVesting bva else []).

Definition PermanentLocked_GetVestedCoins : outcome Coins := Ok [].

Definition GetVestedCoins (blockTime : Z) (va : VestingAccount) : outcome Coins :=
  match schedule va with
  | Continuous StartTime => Continuous_GetVestedCoins blockTime StartTime (base va)
  | Periodic StartTime VestingPeriods => Periodic_GetVestedCoins blockTime StartTime VestingPeriods (base va)
  | Delayed => Delayed_GetVestedCoins blockTime (base va)
  | PermanentLocked => PermanentLocked_GetVestedCoins
  end.

Definition GetVestingCoins (blockTime : Z) (va : VestingAccount) : outcome Coins :=
  match schedule va with
  | PermanentLocked => Ok (OriginalVesting (base va))
  | _ => let* vested := GetVestedCoins blockTime va in Coins_Sub (OriginalVesting (base va)) vested
  end.

Definition LockedCoins (blockTime : Z) (va : VestingAccount) : outcome Coins :=
  let* vesting := GetVestingCoins blockTime va in
  LockedCoinsFromVesting (base va) vesting.

Definition TrackDelegation (blockTime : Z) (balance amount : Coins) (va : VestingAccount) : outcome VestingAccount :=
  let* vesting := GetVestingCoins blockTime va in
  let* bva := BaseTrackDelegation balance vesting amount (base va) in
  Ok (mkVestingAccount bva (schedule va)).

Definition TrackUndelegation (amount : Coins) (va : VestingAccount) : outcome VestingAccount :=
  let* bva := BaseTrackUndelegation amount (base va) in
  Ok (mkVestingAccount bva (schedule va)).

(** Validate, up to the validation of the base account, which Auth.v has. *)
Definition BaseValidate (bva : BaseVestingAccount) : outcome unit :=
  let* b := IsAllLTE (DelegatedVesting bva) (OriginalVesting bva) in
  if negb b then Err (Errorf "delegated vesting amount cannot be greater than original vesting amount") else Ok tt.

Definition Continuous_Validate (StartTime : Z) (bva : BaseVestingAccount) : outcome unit :=
  if EndTime bva <=? StartTime then Err (Errorf "vesting start-time cannot be before end-time") else BaseValidate bva.

Definition Periodic_Validate (StartTime : Z) (VestingPeriods : list Period) (bva : BaseVestingAccount) : outcome unit :=
  if EndTime bva <=? StartTime then Err (Errorf "vesting start-time cannot be before end-time") else
  let endTime := TotalLength_from StartTime VestingPeriods in
  let* originalVesting := TotalAmount VestingPeriods in
  if negb (endTime =? EndTime bva) then Err (Errorf "vesting end time does not match length of all vesting periods") else
  let* b := Coins_IsEqual originalVesting (OriginalVesting bva) in
  if negb b then Err (Errorf "original vesting coins does not match the sum of all coins in vesting periods") else
  BaseValidate bva.

Definition PermanentLocked_Validate (bva : BaseVestingAccount) : outcome unit :=
  if 0 <? EndTime bva then Err (Errorf "permanently vested accounts cannot have an end-time") else BaseValidate bva.

Definition Validate (va : VestingAccount) : outcome unit :=
  match schedule va with
  | Continuous StartTime => Continuous_Validate StartTime (base va)
  | Periodic StartTime VestingPeriods => Periodic_Validate StartTime VestingPeriods (base va)
  | Delayed => BaseValidate (base va)
  | PermanentLocked => PermanentLocked_Validate (base va)
  end.
End Accounts.

(** ** Lemmas on coin sets *)

Section CoinLemmas.
Context `{SdkMathLaws}.

(** Room for the products of sdk.Dec. *)
Definition small (c : Coins) : Prop := valid c /\ forall d, coins_amount c d < 2 ^ 194.

Lemma small_range c d : small c -> 0 <= coins_amount c d < 2 ^ 194.
Proof. intros [Hv Hs]. split; [by apply valid_nonneg|done]. Qed.

Lemma small_nil : small [].
Proof. split; [done|]. intros d. cbn. lia. Qed.

Definition nonzero (l : Coins) : Coins := filter (fun c => Amount c <> 0) l.

Lemma NewCoins_nonzero l : NewCoins l = NewCoins (nonzero l).
Proof.
  unfold NewCoins, sanitizeCoins, nonzero.
  assert (filter (fun c => Amount c <> 0) (filter (fun c => Amount c <> 0) l) = filter (fun c => Amount c <> 0) l) as E; [|by rewrite E].
  rewrite list_filter_filter. apply list_filter_iff. tauto.
Qed.

Lemma nonzero_strict l : strict l -> strict (nonzero l).
Proof.
  unfold nonzero. induction l as [|c l IH]; intros Hs; [done|]. apply strict_cons in Hs as [Hs Hf]. rewrite filter_cons. case_decide; [|by apply IH].
  apply strict_cons. split; [by apply IH|]. rewrite Forall_forall in Hf |- *. intros x [_ Hx]%list_elem_of_filter. by apply Hf.
Qed.

Lemma nonzero_amount l d : coins_amount (nonzero l) d = coins_amount l d.
Proof. unfold nonzero. induction l as [|c l IH]; [done|]. rewrite filter_cons. case_decide; cbn; case_bool_decide; lia. Qed.

(** Subtracting amounts that are covered, zeros included. *)
Lemma Sub_covered a b : valid a -> strict b -> (forall d, 0 <= coins_amount b d <= coins_amount a d) -> (forall d, coins_amount a d < 2 ^ 256) ->
  exists s, Coins_Sub a b = Ok s /\ valid s /\ forall d, coins_amount s d = coins_amount a d - coins_amount b d.
Proof.
  intros Ha Hb Hle Hfit.
  assert (valid (nonzero b)) as Hv.
  { apply valid_intro; [by apply nonzero_strict| |].
    - apply Forall_forall. by intros c [? _]%list_elem_of_filter.
    - intros d. rewrite nonzero_amount. intros Hd. specialize (Hle d). split; [apply (valid_denom a); [done|lia]|lia]. }
  destruct (Coins_SafeSub_valid a (nonzero b) Ha Hv Hfit) as (s & neg & E & Hs & Hn & Hvs).
  { intros d. rewrite nonzero_amount. specialize (Hle d). specialize (Hfit d). lia. }
  assert (neg = false) as -> by (apply Hn; intros d; rewrite nonzero_amount; apply Hle).
  exists s. split; [|split; [by apply Hvs|intros d; by rewrite Hs, nonzero_amount]].
  unfold Coins_Sub, Coins_SafeSub, mk_NewCoins in *. rewrite NewCoins_nonzero. by rewrite E.
Qed.

Lemma one_valid d x : ValidateDenom d = true -> 0 < x -> valid [mkCoin d x].
Proof. intros Hd Hx. unfold valid. cbn. rewrite Hd. by destruct (Z.ltb_spec 0 x); [|lia]. Qed.

Lemma one_amount d x d' : coins_amount [mkCoin d x] d' = if bool_decide (d = d') then x else 0.
Proof. cbn. case_bool_decide; lia. Qed.

Lemma NewCoin_run d x : ValidateDenom d = true -> 0 <= x -> NewCoin d x = Some (mkCoin d x).
Proof. intros Hd Hx. unfold NewCoin, Coin_Validate. cbn. rewrite Hd. by destruct (Z.leb_spec 0 x); [|lia]. Qed.

Lemma AmountOf_run l d : strict l -> ValidateDenom d = true -> AmountOf l d = Ok (coins_amount l d).
Proof. intros Hs Hd. unfold AmountOf. rewrite Hd. cbn. by rewrite AmountOf_amount. Qed.

Lemma strict_of l : valid l -> strict l.
Proof. intros Hv. by apply valid_nonzero. Qed.
End CoinLemmas.

(** ** What has vested *)

Section Schedules.
Context `{SdkMathLaws} `{!SdkDecRound} `{!SdkDecRoundLaws}.

(** The share of [a] that the scalar [s] leaves, and of a set. *)
Definition scaled (s a : Z) : Z :=
  match Dec_Mul (NewDecFromInt a) s with Some d => default 0 (Dec_RoundInt d) | None => 0 end.
Fixpoint scaled_amount (s : Z) (l : Coins) (d : string) : Z :=
  match l with [] => 0 | c :: l => (if bool_decide (Denom c = d) then scaled s (Amount c) else 0) + scaled_amount s l d end.

Lemma scaled_run s a : 0 <= s <= dec_one -> 0 <= a < 2 ^ 194 ->
  exists d, Dec_Mul (NewDecFromInt a) s = Some d /\ Dec_RoundInt d = Some (scaled s a) /\ 2 * Z.abs (scaled s a * dec_one - a * s) <= dec_one.
Proof.
  intros Hs Ha. unfold scaled. rewrite NewDecFromInt_scale. unfold dec_one in *.
  assert (0 <= a * s <= (2 ^ 194 - 1) * 1000000000000000000) as Hprod by nia.
  destruct (Dec_Mul_fits (a * 1000000000000000000) s) as [d Ed].
  { replace (a * 1000000000000000000 * s) with (a * s * 1000000000000000000) by ring. rewrite Z.abs_eq by lia.
    assert ((2 ^ 194 - 1) * 1000000000000000000 * 1000000000000000000 < 2 ^ 314) by done. lia. }
  rewrite Ed. exists d. split; [done|]. pose proof (Dec_Mul_near _ _ _ Ed) as Hd. unfold dec_one in Hd.
  assert (d = a * s) as -> by lia.
  destruct (Dec_RoundInt_fits (a * s)) as [r Er].
  { rewrite Z.abs_eq by lia. unfold dec_one. assert ((2 ^ 194 - 1) * 1000000000000000000 < 2 ^ 255 * 1000000000000000000) by done. lia. }
  rewrite Er. split; [done|]. cbn [default]. by apply Dec_RoundInt_near in Er.
Qed.

Lemma scaled_bounds s a : 0 <= s <= dec_one -> 0 <= a < 2 ^ 194 -> 0 <= scaled s a <= a.
Proof.
  intros Hs Ha. destruct (scaled_run s a Hs Ha) as (d & _ & _ & Hn). unfold dec_one in *.
  assert (0 <= a * s <= a * 1000000000000000000) by (split; [apply Z.mul_nonneg_nonneg|apply Z.mul_le_mono_nonneg_l]; lia). lia.
Qed.

Lemma scaled_mono s s' a : 0 <= s -> s <= s' -> s' <= dec_one -> 0 <= a < 2 ^ 194 -> scaled s a <= scaled s' a.
Proof.
  intros H0' Hle H1' Ha. destruct (decide (s = s')) as [->|Hne]; [done|].
  destruct (scaled_run s a ltac:(lia) Ha) as (_ & _ & _ & Hn). destruct (scaled_run s' a ltac:(lia) Ha) as (_ & _ & _ & Hn'). unfold dec_one in *.
  destruct (decide (a = 0)) as [->|Ha0]; [lia|]. assert (a * (s + 1) <= a * s') by (apply Z.mul_le_mono_nonneg_l; lia). lia.
Qed.

Lemma small_cons c l : small (c :: l) -> strict (c :: l) -> small l /\ 0 <= Amount c < 2 ^ 194 /\ ValidateDenom (Denom c) = true.
Proof.
  intros [Hv Hs] Hst. pose proof Hv as [_ Hf]%valid_iff. apply Forall_cons in Hf as [[Hd Hc] Hf]. apply strict_cons in Hst as [Hst _].
  split; [split; [by apply valid_iff|]|split; [|done]].
  - intros d. specialize (Hs d). cbn in Hs. case_bool_decide; lia.
  - assert (0 <= coins_amount l (Denom c)) by (apply valid_nonneg; by apply valid_iff). specialize (Hs (Denom c)). cbn in Hs. rewrite bool_decide_true in Hs by done. lia.
Qed.

Lemma scale_coins_run s l : 0 <= s <= dec_one -> small l ->
  exists r, scale_coins s l = Ok r /\ Denom <$> r = Denom <$> l /\ forall d, coins_amount r d = scaled_amount s l d.
Proof.
  intros Hs. induction l as [|c l IH]; intros Hl; [by exists []|].
  destruct (small_cons c l Hl (strict_of _ (proj1 Hl))) as (Hl' & Hc & Hd). destruct (IH Hl') as (r & Er & Hden & Hamt).
  destruct (scaled_run s (Amount c) Hs Hc) as (x & Ex & Ey & _). pose proof (scaled_bounds s (Amount c) Hs Hc).
  cbn [scale_coins]. rewrite Ex. cbn [o_panic obind]. rewrite Ey. cbn [o_panic obind]. rewrite NewCoin_run by (done || lia). cbn [o_panic obind]. rewrite Er. cbn [obind].
  eexists. split; [done|]. split; [cbn; by f_equal|]. intros d. cbn. by rewrite Hamt.
Qed.

Lemma scaled_amount_bounds s l d : 0 <= s <= dec_one -> small l -> 0 <= scaled_amount s l d <= coins_amount l d.
Proof.
  intros Hs. induction l as [|c l IH]; intros Hl; [done|]. destruct (small_cons c l Hl (strict_of _ (proj1 Hl))) as (Hl' & Hc & _).
  specialize (IH Hl'). pose proof (scaled_bounds s (Amount c) Hs Hc). cbn. case_bool_decide; lia.
Qed.

Lemma scaled_amount_mono s s' l d : 0 <= s -> s <= s' -> s' <= dec_one -> small l -> scaled_amount s l d <= scaled_amount s' l d.
Proof.
  intros H0' Hle H1'. induction l as [|c l IH]; intros Hl; [done|]. destruct (small_cons c l Hl (strict_of _ (proj1 Hl))) as (Hl' & Hc & _).
  specialize (IH Hl'). pose proof (scaled_mono s s' (Amount c) H0' Hle H1' Hc). cbn. case_bool_decide; lia.
Qed.

(** The scalar of a continuous schedule. *)
Definition scalar (x y : Z) : Z := default 0 (Dec_Quo (NewDecFromInt x) (NewDecFromInt y)).

Lemma scalar_run x y : 0 <= x < y -> in_i64 y -> Dec_Quo (NewDecFromInt x) (NewDecFromInt y) = Some (scalar x y) /\ 0 <= scalar x y <= dec_one.
Proof.
  intros Hx Hy. unfold scalar. rewrite !NewDecFromInt_scale. unfold in_i64, two63, dec_one in *.
  destruct (Dec_Quo_fits (x * 1000000000000000000) (y * 1000000000000000000)) as [c Ec]; [lia| |].
  { unfold dec_one. rewrite Z.abs_eq by lia. assert (9223372036854775808 * 1000000000000000000 * 1000000000000000000 < 2 ^ 314) by done. nia. }
  rewrite Ec. split; [done|]. change (default 0 (Some c)) with c. apply Dec_Quo_near in Ec as [_ Hn]. unfold dec_one in Hn.
  rewrite (Z.abs_eq (y * _)) in Hn by lia. remember (y * 1000000000000000000) as Y eqn:HY. assert (0 < Y) by lia.
  split; apply Z.nlt_ge; intros Hc.
  - assert (c * Y <= -1 * Y) by (apply Z.mul_le_mono_nonneg_r; lia). lia.
  - assert ((1000000000000000000 + 1) * Y <= c * Y) by (apply Z.mul_le_mono_nonneg_r; lia). lia.
Qed.

Lemma scalar_mono x x' y : 0 <= x -> x <= x' -> x' < y -> in_i64 y -> scalar x y <= scalar x' y.
Proof.
  intros H0' Hle Hlt Hy. destruct (scalar_run x y ltac:(lia) Hy) as [E _]. destruct (scalar_run x' y ltac:(lia) Hy) as [E' _].
  rewrite !NewDecFromInt_scale in *. eapply Dec_Quo_mono; [| |exact E|exact E']; unfold dec_one; nia.
Qed.

(** What the periods that are over by [t] amount to, and all of them. *)
Fixpoint periods_amount (t cur : Z) (ps : list Period) (d : string) : Z :=
  match ps with
  | [] => 0
  | p :: ps => if t - cur <? Length p then 0 else coins_amount (p_Amount p) d + periods_amount t (cur + Length p) ps d
  end.
Definition total_amount (ps : list Period) (d : string) : Z := lsum (fun p => coins_amount (p_Amount p) d) ps.
Definition total_length (ps : list Period) : Z := lsum Length ps.

Definition periods_ok (ps : list Period) : Prop := Forall (fun p => 0 < Length p /\ valid (p_Amount p)) ps.

Lemma total_amount_cons p ps d : total_amount (p :: ps) d = coins_amount (p_Amount p) d + total_amount ps d.
Proof. done. Qed.
Lemma total_length_cons p ps : total_length (p :: ps) = Length p + total_length ps.
Proof. done. Qed.

Lemma total_length_nonneg ps : periods_ok ps -> 0 <= total_length ps.
Proof. intros Hp. apply lsum_nonneg. intros p Hin. apply (proj1 (Forall_forall _ _) Hp) in Hin. lia. Qed.
Lemma total_amount_nonneg ps d : periods_ok ps -> 0 <= total_amount ps d.
Proof. intros Hp. apply lsum_nonneg. intros p Hin. apply (proj1 (Forall_forall _ _) Hp) in Hin as [_ ?]. by apply valid_nonneg. Qed.

Lemma periods_amount_bounds t cur ps d : periods_ok ps -> 0 <= periods_amount t cur ps d <= total_amount ps d.
Proof.
  revert cur. induction ps as [|p ps IH]; intros cur Hp; [done|]. pose proof Hp as [[_ Hv] Hps]%Forall_cons. specialize (IH (cur + Length p) Hps).
  pose proof (valid_nonneg _ d Hv). pose proof (total_amount_nonneg ps d Hps). cbn [periods_amount]. rewrite total_amount_cons. destruct (_ <? _); lia.
Qed.

Lemma periods_amount_mono t t' cur ps d : t <= t' -> periods_ok ps -> periods_amount t cur ps d <= periods_amount t' cur ps d.
Proof.
  intros Ht. revert cur. induction ps as [|p ps IH]; intros cur Hp; [done|]. pose proof Hp as [[_ Hv] Hps]%Forall_cons. specialize (IH (cur + Length p) Hps).
  cbn. pose proof (valid_nonneg _ d Hv). pose proof (proj1 (periods_amount_bounds t' (cur + Length p) ps d Hps)).
  destruct (Z.ltb_spec (t - cur) (Length p)), (Z.ltb_spec (t' - cur) (Length p)); lia.
Qed.

(** The loop computes them when nothing overflows. *)
Lemma vested_periods_run t cur acc ps : periods_ok ps -> valid acc -> (forall d, coins_amount acc d + total_amount ps d < 2 ^ 194) ->
  in_i64 cur -> in_i64 t -> in_i64 (cur + total_length ps) -> cur <= t -> t - cur < two63 ->
  exists r, vested_periods t cur acc ps = Ok r /\ valid r /\ forall d, coins_amount r d = coins_amount acc d + periods_amount t cur ps d.
Proof.
  revert cur acc. induction ps as [|p ps IH]; intros cur acc Hp Hacc Hfit Hcur Ht Hend Hle Hdiff.
  { exists acc. split; [done|]. split; [done|]. intros d. cbn. lia. }
  pose proof Hp as [[Hl Hv] Hps]%Forall_cons. cbn [vested_periods periods_amount]. rewrite total_length_cons in Hend.
  pose proof (total_length_nonneg ps Hps) as Htl. rewrite wrap_i64_id by (unfold in_i64, two63 in *; lia).
  destruct (Z.ltb_spec (t - cur) (Length p)). { exists acc. split; [done|]. split; [done|]. intros d. lia. }
  destruct (Coins_Add_valid acc (p_Amount p) Hacc Hv) as (s & Es & Hs & Hamt).
  { intros d. specialize (Hfit d). rewrite total_amount_cons in Hfit. pose proof (total_amount_nonneg ps d Hps). assert (2 ^ 194 < 2 ^ 256) by done. lia. }
  rewrite Es. cbn [obind]. rewrite wrap_i64_id by (unfold in_i64, two63 in *; lia).
  destruct (IH (cur + Length p) s Hps Hs) as (r & Er & Hr & Hramt).
  - intros d. rewrite Hamt. specialize (Hfit d). rewrite total_amount_cons in Hfit. lia.
  - unfold in_i64, two63 in *. lia.
  - done.
  - by rewrite <- Z.add_assoc.
  - lia.
  - lia.
  - exists r. split; [done|]. split; [done|]. intros d. rewrite Hramt, Hamt. lia.
Qed.

(** Schedules whose times are in range; a periodic one adds up. *)
Definition schedule_ok (va : VestingAccount) : Prop :=
  in_i64 (EndTime (base va)) /\
  match schedule va with
  | Continuous st => in_i64 st /\ in_i64 (EndTime (base va) - st)
  | Periodic st ps => in_i64 st /\ periods_ok ps /\ EndTime (base va) = st + total_length ps /\ in_i64 (total_length ps) /\
      forall d, total_amount ps d = coins_amount (OriginalVesting (base va)) d
  | _ => True
  end.

(** The amount vested at [t], as a function of the schedule. *)
Definition vested_amount (t : Z) (va : VestingAccount) (d : string) : Z :=
  let ov := coins_amount (OriginalVesting (base va)) d in
  match schedule va with
  | Continuous st =>
      if t <=? st then 0 else if EndTime (base va) <=? t then ov else
      scaled_amount (scalar (t - st) (EndTime (base va) - st)) (OriginalVesting (base va)) d
  | Periodic st ps => if t <=? st then 0 else if EndTime (base va) <=? t then ov else periods_amount t st ps d
  | Delayed => if EndTime (base va) <=? t then ov else 0
  | PermanentLocked => 0
  end.

Lemma GetVestedCoins_run t va : small (OriginalVesting (base va)) -> schedule_ok va -> in_i64 t ->
  exists v, GetVestedCoins t va = Ok v /\ strict v /\ forall d, coins_amount v d = vested_amount t va d.
Proof.
  intros Ho [He Hs] Ht. pose proof (strict_of _ (proj1 Ho)) as Hst. unfold GetVestedCoins, Continuous_GetVestedCoins, Periodic_GetVestedCoins, Delayed_GetVestedCoins, PermanentLocked_GetVestedCoins, vested_amount.
  assert (forall v, strict v -> exists v', Ok v = Ok v' /\ strict v' /\ forall d, coins_amount v' d = coins_amount v d) as Hret by (intros v ?; by exists v).
  assert (strict []) as Hnil by (by constructor).
  destruct (schedule va) as [st|st ps| |].
  - destruct (Z.leb_spec t st); [by apply Hret|]. destruct (Z.leb_spec (EndTime (base va)) t); [by apply Hret|]. destruct Hs as [_ Hy].
    rewrite !wrap_i64_id by (unfold in_i64 in *; lia). destruct (scalar_run (t - st) (EndTime (base va) - st) ltac:(lia) Hy) as [-> Hb]. cbn [o_panic obind].
    destruct (scale_coins_run _ _ Hb Ho) as (r & Er & Hd & Hr). exists r. split; [done|]. split; [|done]. unfold strict. by rewrite Hd.
  - destruct (Z.leb_spec t st); [by apply Hret|]. destruct (Z.leb_spec (EndTime (base va)) t); [by apply Hret|]. destruct Hs as (Hst' & Hp & Hend & Hl & Htot).
    destruct (vested_periods_run t st [] ps Hp) as (r & Er & Hr & Hamt); [done| |done|done|congruence|lia|unfold in_i64, two63 in *; lia|].
    + intros d. cbn. rewrite Htot. apply Ho.
    + exists r. split; [done|]. split; [by apply strict_of|]. intros d. by rewrite Hamt.
  - destruct (_ <=? _); by apply Hret.
  - by apply Hret.
Qed.

Lemma vested_amount_bounds t va d : small (OriginalVesting (base va)) -> schedule_ok va ->
  0 <= vested_amount t va d <= coins_amount (OriginalVesting (base va)) d.
Proof.
  intros Ho [He Hs]. pose proof (small_range _ d Ho). unfold vested_amount. destruct (schedule va) as [st|st ps| |].
  - destruct (Z.leb_spec t st); [lia|]. destruct (Z.leb_spec (EndTime (base va)) t); [lia|]. destruct Hs as [_ Hy].
    apply scaled_amount_bounds; [apply scalar_run; [lia|done]|done].
  - destruct (_ <=? st); [lia|]. destruct (_ <=? t); [lia|]. destruct Hs as (_ & Hp & _ & _ & Htot). rewrite <- Htot. by apply periods_amount_bounds.
  - destruct (_ <=? _); lia.
  - lia.
Qed.

Lemma vested_amount_mono t t' va d : small (OriginalVesting (base va)) -> schedule_ok va -> t <= t' -> vested_amount t va d <= vested_amount t' va d.
Proof.
  intros Ho Hs Ht. pose proof (vested_amount_bounds t va d Ho Hs) as Hb. pose proof (vested_amount_bounds t' va d Ho Hs) as Hb'. destruct Hs as [He Hs].
  unfold vested_amount in *. destruct (schedule va) as [st|st ps| |]; [| | |lia].
  - destruct (Z.leb_spec t st), (Z.leb_spec t' st), (Z.leb_spec (EndTime (base va)) t), (Z.leb_spec (EndTime (base va)) t'); try lia.
    destruct Hs as [_ Hy]. apply scaled_amount_mono; [apply scalar_run; [lia|done]|apply scalar_mono; (done || lia)|apply scalar_run; [lia|done]|done].
  - destruct (Z.leb_spec t st), (Z.leb_spec t' st), (Z.leb_spec (EndTime (base va)) t), (Z.leb_spec (EndTime (base va)) t'); try lia.
    destruct Hs as (_ & Hp & _). by apply periods_amount_mono.
  - destruct (Z.leb_spec (EndTime (base va)) t), (Z.leb_spec (EndTime (base va)) t'); lia.
Qed.

(** What is still vesting. *)
Definition vesting_amount (t : Z) (va : VestingAccount) (d : string) : Z := coins_amount (OriginalVesting (base va)) d - vested_amount t va d.

Lemma GetVestingCoins_run t va : small (OriginalVesting (base va)) -> schedule_ok va -> in_i64 t ->
  exists v, GetVestingCoins t va = Ok v /\ small v /\ forall d, coins_amount v d = vesting_amount t va d.
Proof.
  intros Ho Hs Ht. unfold GetVestingCoins, vesting_amount.
  assert (exists v, (let* vested := GetVestedCoins t va in Coins_Sub (OriginalVesting (base va)) vested) = Ok v /\ small v /\
    forall d, coins_amount v d = coins_amount (OriginalVesting (base va)) d - vested_amount t va d) as Hsub.
  { destruct (GetVestedCoins_run t va Ho Hs Ht) as (v & -> & Hv & Hamt). cbn [obind].
    destruct (Sub_covered (OriginalVesting (base va)) v (proj1 Ho) Hv) as (s & Es & Hvs & Hd).
    - intros d. rewrite Hamt. by apply vested_amount_bounds.
    - intros d. pose proof (small_range _ d Ho). assert (2 ^ 194 < 2 ^ 256) by done. lia.
    - exists s. split; [done|]. split; [split; [done|]|]; intros d; rewrite Hd, Hamt; [|done].
      pose proof (small_range _ d Ho). pose proof (vested_amount_bounds t va d Ho Hs). lia. }
  destruct (schedule va) eqn:E; [done..|]. exists (OriginalVesting (base va)). split; [done|]. split; [done|]. intros d. unfold vested_amount. rewrite E. lia.
Qed.

Lemma vesting_amount_bounds t va d : small (OriginalVesting (base va)) -> schedule_ok va ->
  0 <= vesting_amount t va d <= coins_amount (OriginalVesting (base va)) d.
Proof. intros Ho Hs. pose proof (vested_amount_bounds t va d Ho Hs). unfold vesting_amount. lia. Qed.

(** C40: What vests.  For every kind of account whose original coins are below
    2^194 each and whose schedule is in order (times in int64; for a continuous
    one the time between start and end too; for a periodic one lengths that add
    up without overflow to the end and amounts that add up to the original
    coins), at every time: the vested and the vesting coins can be computed,
    neither is negative, they add up to the original coins, and what has vested
    never shrinks as time passes, from nothing before the start to everything at
    the end.  Periods that MsgCreatePeriodicVestingAccount accepts need not be
    in order: when their lengths wrap so that the computed end is not after the
    start, everything is vested one second after the start. *)
Theorem vesting_schedule :
  (forall t t' va d, small (OriginalVesting (base va)) -> schedule_ok va -> in_i64 t -> in_i64 t' -> t <= t' ->
    exists vested vesting vested',
      GetVestedCoins t va = Ok vested /\ GetVestingCoins t va = Ok vesting /\ GetVestedCoins t' va = Ok vested' /\
      0 <= coins_amount vested d /\ 0 <= coins_amount vesting d /\
      coins_amount vested d + coins_amount vesting d = coins_amount (OriginalVesting (base va)) d /\
      coins_amount vested d <= coins_amount vested' d /\
      match schedule va with
      | Continuous st | Periodic st _ => (t <= st -> coins_amount vested d = 0) /\
          (st < t -> EndTime (base va) <= t -> coins_amount vested d = coins_amount (OriginalVesting (base va)) d)
      | Delayed => coins_amount vested d = if EndTime (base va) <=? t then coins_amount (OriginalVesting (base va)) d else 0
      | PermanentLocked => coins_amount vested d = 0
      end) /\
  (forall ov st ps t, EndTime (base (NewPeriodicVestingAccount ov st ps)) <= st < t ->
    GetVestedCoins t (NewPeriodicVestingAccount ov st ps) = Ok ov).
Proof.
  split.
  - intros t t' va d Ho Hs Ht Ht' Hle. destruct (GetVestedCoins_run t va Ho Hs Ht) as (v & Ev & _ & Hv). destruct (GetVestedCoins_run t' va Ho Hs Ht') as (v' & Ev' & _ & Hv').
    destruct (GetVestingCoins_run t va Ho Hs Ht) as (u & Eu & _ & Hu). exists v, u, v'.
    pose proof (vested_amount_bounds t va d Ho Hs). pose proof (vested_amount_mono t t' va d Ho Hs Hle). rewrite Hv, Hu, Hv'. unfold vesting_amount.
    split_and!; try done; try lia. unfold vested_amount in *. destruct (schedule va); try done; split; intros; destruct (Z.leb_spec t StartTime); try lia;
      destruct (Z.leb_spec (EndTime (base va)) t); lia.
  - intros ov st ps t [He Ht]. cbn [base NewPeriodicVestingAccount EndTime] in He. unfold GetVestedCoins, Periodic_GetVestedCoins.
    cbn [schedule base NewPeriodicVestingAccount EndTime OriginalVesting].
    by rewrite (proj2 (Z.leb_gt t st)), (proj2 (Z.leb_le _ t)) by lia.
Qed.

(** Validate checks what it can of that. *)
Lemma TotalLength_from_run total ps : periods_ok ps -> in_i64 total -> in_i64 (total + total_length ps) -> TotalLength_from total ps = total + total_length ps.
Proof.
  revert total. induction ps as [|p ps IH]; intros total Hp Ht Hend; [change (total_length []) with 0; cbn; lia|]. pose proof Hp as [[Hl _] Hps]%Forall_cons. cbn [TotalLength_from].
  rewrite total_length_cons in *. pose proof (total_length_nonneg ps Hps). rewrite wrap_i64_id by (unfold in_i64, two63 in *; lia).
  rewrite IH; [lia|done|unfold in_i64, two63 in *; lia|]. by rewrite <- Z.add_assoc.
Qed.

Lemma TotalAmount_from_run total ps : periods_ok ps -> valid total -> (forall d, coins_amount total d + total_amount ps d < 2 ^ 256) ->
  exists r, TotalAmount_from total ps = Ok r /\ valid r /\ forall d, coins_amount r d = coins_amount total d + total_amount ps d.
Proof.
  revert total. induction ps as [|p ps IH]; intros total Hp Ht Hfit. { exists total. split; [done|]. split; [done|]. intros d. change (total_amount [] d) with 0. lia. }
  pose proof Hp as [[_ Hv] Hps]%Forall_cons. cbn [TotalAmount_from].
  destruct (Coins_Add_valid total (p_Amount p) Ht Hv) as (s & -> & Hs & Hamt).
  { intros d. specialize (Hfit d). rewrite total_amount_cons in Hfit. pose proof (total_amount_nonneg ps d Hps). lia. }
  cbn [obind]. destruct (IH s Hps Hs) as (r & Er & Hr & Hramt). { intros d. rewrite Hamt. specialize (Hfit d). rewrite total_amount_cons in Hfit. lia. }
  exists r. split; [done|]. split; [done|]. intros d. rewrite Hramt, Hamt, total_amount_cons. lia.
Qed.

Lemma Validate_schedule va : Validate va = Ok tt -> small (OriginalVesting (base va)) -> in_i64 (EndTime (base va)) ->
  match schedule va with
  | Continuous st => in_i64 st /\ in_i64 (EndTime (base va) - st)
  | Periodic st ps => in_i64 st /\ periods_ok ps /\ in_i64 (st + total_length ps) /\ in_i64 (total_length ps) /\ forall d, total_amount ps d < 2 ^ 256
  | _ => True
  end -> schedule_ok va.
Proof.
  intros Hv [Ho _] He. unfold Validate, Continuous_Validate, Periodic_Validate, PermanentLocked_Validate in Hv. unfold schedule_ok. destruct (schedule va) as [st|st ps| |]; [done| |done|done].
  intros (Hst & Hp & Hsum & Hl & Hfit). split; [done|]. destruct (_ <=? st); [done|]. rewrite TotalLength_from_run in Hv by done.
  destruct (TotalAmount_from_run [] ps Hp) as (r & Er & Hr & Hamt); [done|intros d; cbn; apply Hfit|]. unfold TotalAmount in Hv. rewrite Er in Hv. cbn [obind] in Hv.
  destruct (Z.eqb_spec (st + total_length ps) (EndTime (base va))) as [Eend|]; [cbn [negb] in Hv|done].
  destruct (Coins_IsEqual r (OriginalVesting (base va))) as [[]| |] eqn:Eq; try done. apply Coins_IsEqual_true in Eq as ->; [|done..].
  split_and!; [done|done|done|done|]. intros d. by rewrite Hamt.
Qed.

(** ** Locked coins and delegations *)

Lemma LockedCoins_run t va : small (OriginalVesting (base va)) -> valid (DelegatedVesting (base va)) -> schedule_ok va -> in_i64 t ->
  exists l, LockedCoins t va = Ok l /\ valid l /\ forall d, coins_amount l d = Z.max (vesting_amount t va d - coins_amount (DelegatedVesting (base va)) d) 0.
Proof.
  intros Ho Hdv Hs Ht. destruct (GetVestingCoins_run t va Ho Hs Ht) as (v & Ev & [Hv Hsm] & Hamt). unfold LockedCoins. rewrite Ev. cbn [obind].
  unfold LockedCoinsFromVesting. destruct (Coins_Min_run v (DelegatedVesting (base va)) Hv Hdv) as (m & -> & Hm & Hmin). cbn [obind].
  destruct (Sub_covered v m Hv (strict_of _ Hm)) as (l & El & Hl & Hd).
  - intros d. rewrite Hmin. pose proof (valid_nonneg v d Hv). pose proof (valid_nonneg _ d Hdv). lia.
  - intros d. specialize (Hsm d). assert (2 ^ 194 < 2 ^ 256) by done. lia.
  - exists l. split; [done|]. split; [done|]. intros d. rewrite Hd, Hmin, Hamt. lia.
Qed.

(** Adding one coin, or nothing. *)
Lemma add_or_not c d x : valid c -> ValidateDenom d = true -> 0 <= x -> coins_amount c d + x < 2 ^ 256 -> (forall d, coins_amount c d < 2 ^ 256) ->
  exists c', (if x =? 0 then Ok c else (let* xCoin := o_panic (NewCoin d x) in Coins_Add c [xCoin])) = Ok c' /\ valid c' /\
    forall d', coins_amount c' d' = coins_amount c d' + if bool_decide (d = d') then x else 0.
Proof.
  intros Hc Hd Hx Hfit Hall. destruct (Z.eqb_spec x 0) as [->|Hx0]. { exists c. split; [done|]. split; [done|]. intros d'. case_bool_decide; lia. }
  rewrite NewCoin_run by (done || lia). cbn [o_panic obind]. destruct (Coins_Add_valid c [mkCoin d x] Hc (one_valid d x Hd ltac:(lia))) as (s & Es & Hs & Hamt).
  { intros d'. rewrite one_amount. case_bool_decide; subst; [lia|]. specialize (Hall d'). lia. }
  exists s. split; [done|]. split; [done|]. intros d'. by rewrite Hamt, one_amount.
Qed.

Lemma sub_or_not c d x : valid c -> ValidateDenom d = true -> 0 <= x <= coins_amount c d -> (forall d, coins_amount c d < 2 ^ 256) ->
  exists c', (if x =? 0 then Ok c else (let* xCoin := o_panic (NewCoin d x) in Coins_Sub c [xCoin])) = Ok c' /\ valid c' /\
    forall d', coins_amount c' d' = coins_amount c d' - if bool_decide (d = d') then x else 0.
Proof.
  intros Hc Hd Hx Hall. destruct (Z.eqb_spec x 0) as [->|Hx0]. { exists c. split; [done|]. split; [done|]. intros d'. case_bool_decide; lia. }
  rewrite NewCoin_run by (done || lia). cbn [o_panic obind]. destruct (Sub_covered c [mkCoin d x] Hc (strict_of _ (one_valid d x Hd ltac:(lia)))) as (s & Es & Hs & Hamt).
  { intros d'. rewrite one_amount. pose proof (valid_nonneg c d' Hc). case_bool_decide; subst; lia. }
  { done. }
  exists s. split; [done|]. split; [done|]. intros d'. by rewrite Hamt, one_amount.
Qed.

(** Counters that leave room for sums. *)
Definition counters_ok (bva : BaseVestingAccount) : Prop :=
  valid (DelegatedVesting bva) /\ valid (DelegatedFree bva) /\
  forall d, coins_amount (DelegatedVesting bva) d < 2 ^ 255 /\ coins_amount (DelegatedFree bva) d < 2 ^ 255.

Definition with_counters (df dv : Coins) (bva : BaseVestingAccount) : BaseVestingAccount := mkBaseVestingAccount (OriginalVesting bva) df dv (EndTime bva).

(** X of the specification, of an amount to delegate. *)
Definition delegated_vesting (V DV D : Z) : Z := Z.min (Z.max (V - DV) 0) D.

Lemma BaseTrackDelegation_run balance vesting amount bva : strict balance -> small vesting -> valid amount ->
  (forall d, coins_amount amount d <= coins_amount balance d) ->
  valid (DelegatedVesting bva) -> valid (DelegatedFree bva) ->
  (forall d, coins_amount (DelegatedVesting bva) d + coins_amount amount d < 2 ^ 256 /\ coins_amount (DelegatedFree bva) d + coins_amount amount d < 2 ^ 256) ->
  exists df dv, BaseTrackDelegation balance vesting amount bva = Ok (with_counters df dv bva) /\ valid df /\ valid dv /\
    forall d, let x := delegated_vesting (coins_amount vesting d) (coins_amount (DelegatedVesting bva) d) (coins_amount amount d) in
      coins_amount dv d = coins_amount (DelegatedVesting bva) d + x /\ coins_amount df d = coins_amount (DelegatedFree bva) d + (coins_amount amount d - x).
Proof.
  intros Hb Hv. revert bva. induction amount as [|c amount IH]; intros bva Ha Hle Hdv Hdf Hfit.
  { exists (DelegatedFree bva), (DelegatedVesting bva). split; [by destruct bva|]. split; [done|]. split; [done|]. intros d. unfold delegated_vesting. cbn. lia. }
  pose proof Ha as [Hst Hf]%valid_iff. apply Forall_cons in Hf as [[Hd Hpos] Hf]. pose proof Hst as [Hst' _]%strict_cons.
  assert (valid amount) as Ha' by by apply valid_iff. pose proof (amount_cons c amount) as Hcons.
  assert (coins_amount amount (Denom c) = 0) as Hzero.
  { apply amount_notin. pose proof (strict_NoDup _ Hst) as Hnd. rewrite fmap_cons in Hnd. by apply NoDup_cons in Hnd as [? _]. }
  assert (forall d, coins_amount (c :: amount) d = (if bool_decide (Denom c = d) then Amount c else 0) + coins_amount amount d) as Hsum by done.
  pose proof (Hle (Denom c)) as Hbal. rewrite Hsum, bool_decide_true, Hzero in Hbal by done.
  pose proof (small_range vesting (Denom c) Hv) as HV. pose proof (Hfit (Denom c)) as [F1 F2]. rewrite Hsum, bool_decide_true, Hzero in F1, F2 by done.
  pose proof (valid_nonneg _ (Denom c) Hdv). pose proof (valid_nonneg _ (Denom c) Hdf).
  assert (2 ^ 194 < 2 ^ 256) as Hpow by done.
  assert (forall d, 0 <= coins_amount amount d) as Hnn by (intros d; by apply valid_nonneg).
  cbn [BaseTrackDelegation]. unfold track_coin. rewrite !AmountOf_run by (done || apply strict_of, Hv || by apply strict_of). cbn [obind].
  destruct (Z.eqb_spec (Amount c) 0); [lia|]. destruct (Z.ltb_spec (coins_amount balance (Denom c)) (Amount c)); [lia|]. cbn [orb].
  rewrite Int_Sub_fits by lia. cbn [o_panic obind]. set (x := Z.min _ _). assert (x = delegated_vesting (coins_amount vesting (Denom c)) (coins_amount (DelegatedVesting bva) (Denom c)) (Amount c)) as Ex by done.
  rewrite Int_Sub_fits by (subst x; lia). cbn [o_panic obind].
  destruct (add_or_not (DelegatedVesting bva) (Denom c) x Hdv Hd) as (dv & -> & Hdv' & Edv); [subst x; lia|subst x; lia|intros d; specialize (Hfit d); pose proof (valid_nonneg _ d Ha); lia|].
  cbn [obind].
  destruct (add_or_not (DelegatedFree bva) (Denom c) (Amount c - x) Hdf Hd) as (df & -> & Hdf' & Edf); [subst x; lia|subst x; lia|intros d; specialize (Hfit d); pose proof (valid_nonneg _ d Ha); lia|].
  cbn [obind]. destruct (IH (mkBaseVestingAccount (OriginalVesting bva) df dv (EndTime bva)) Ha') as (df' & dv' & E & Hf' & Hv' & Hamt).
  - intros d. specialize (Hle d). rewrite Hsum in Hle. case_bool_decide; lia.
  - done.
  - done.
  - intros d. cbn. rewrite Edv, Edf. specialize (Hfit d). rewrite Hsum in Hfit. case_bool_decide; subst; subst x; lia.
  - exists df', dv'. split; [exact E|]. split; [done|]. split; [done|]. intros d. cbn zeta. destruct (Hamt d) as [A1 A2]. cbn in A1, A2. rewrite A1, A2, Edv, Edf, Hsum.
    unfold delegated_vesting in *. case_bool_decide as Ed; [rewrite <- Ed, Hzero; lia|]. rewrite !Z.add_0_r, Z.add_0_l. lia.
Qed.

(** X and Y of the specification, of an amount to undelegate. *)
Definition undelegated_free (DF D : Z) : Z := Z.min DF D.
Definition undelegated_vesting (DF DV D : Z) : Z := Z.min DV (D - undelegated_free DF D).

Lemma BaseTrackUndelegation_run amount bva : valid amount -> (forall d, coins_amount amount d < 2 ^ 256) ->
  valid (DelegatedVesting bva) -> valid (DelegatedFree bva) ->
  (forall d, coins_amount (DelegatedVesting bva) d < 2 ^ 256 /\ coins_amount (DelegatedFree bva) d < 2 ^ 256) ->
  exists df dv, BaseTrackUndelegation amount bva = Ok (with_counters df dv bva) /\ valid df /\ valid dv /\
    forall d, let DF := coins_amount (DelegatedFree bva) d in let DV := coins_amount (DelegatedVesting bva) d in let D := coins_amount amount d in
      coins_amount df d = DF - undelegated_free DF D /\ coins_amount dv d = DV - undelegated_vesting DF DV D.
Proof.
  revert bva. induction amount as [|c amount IH]; intros bva Ha Hfa Hdv Hdf Hfit.
  { exists (DelegatedFree bva), (DelegatedVesting bva). split; [by destruct bva|]. split; [done|]. split; [done|]. intros d.
    pose proof (valid_nonneg _ d Hdv). pose proof (valid_nonneg _ d Hdf). unfold undelegated_vesting, undelegated_free. cbn. lia. }
  pose proof Ha as [Hst Hf]%valid_iff. apply Forall_cons in Hf as [[Hd Hpos] Hf]. pose proof Hst as [Hst' _]%strict_cons.
  assert (valid amount) as Ha' by by apply valid_iff.
  assert (coins_amount amount (Denom c) = 0) as Hzero.
  { apply amount_notin. pose proof (strict_NoDup _ Hst) as Hnd. rewrite fmap_cons in Hnd. by apply NoDup_cons in Hnd as [? _]. }
  assert (forall d, coins_amount (c :: amount) d = (if bool_decide (Denom c = d) then Amount c else 0) + coins_amount amount d) as Hsum by done.
  pose proof (Hfa (Denom c)) as Fc. rewrite Hsum, bool_decide_true, Hzero in Fc by done. pose proof (Hfit (Denom c)) as [F1 F2].
  pose proof (valid_nonneg _ (Denom c) Hdv). pose proof (valid_nonneg _ (Denom c) Hdf).
  cbn [BaseTrackUndelegation]. unfold untrack_coin. destruct (Z.eqb_spec (Amount c) 0); [lia|]. rewrite !AmountOf_run by (done || by apply strict_of). cbn [obind].
  set (x := Z.min _ _). rewrite Int_Sub_fits by (subst x; lia). cbn [o_panic obind]. set (y := Z.min _ _).
  destruct (sub_or_not (DelegatedFree bva) (Denom c) x Hdf Hd) as (df & -> & Hdf' & Edf); [subst x; lia|intros d; apply Hfit|]. cbn [obind].
  destruct (sub_or_not (DelegatedVesting bva) (Denom c) y Hdv Hd) as (dv & -> & Hdv' & Edv); [subst x y; lia|intros d; apply Hfit|]. cbn [obind].
  destruct (IH (mkBaseVestingAccount (OriginalVesting bva) df dv (EndTime bva)) Ha') as (df' & dv' & E & Hf' & Hv' & Hamt).
  - intros d. specialize (Hfa d). rewrite Hsum in Hfa. case_bool_decide; lia.
  - done.
  - done.
  - intros d. cbn. rewrite Edv, Edf. specialize (Hfit d). case_bool_decide; subst; subst x y; lia.
  - exists df', dv'. split; [exact E|]. split; [done|]. split; [done|]. intros d. cbn zeta. destruct (Hamt d) as [A1 A2]. cbn in A1, A2. rewrite A1, A2, Edv, Edf, Hsum.
    unfold undelegated_vesting, undelegated_free in *. case_bool_decide as Ed; [rewrite <- Ed, Hzero; subst x y; lia|]. rewrite !Z.sub_0_r, Z.add_0_l. lia.
Qed.

(** *** What a call that returned has done *)

Lemma add_or_not_inv c d x c' : valid c -> ValidateDenom d = true -> 0 <= x ->
  (if x =? 0 then Ok c else (let* xCoin := o_panic (NewCoin d x) in Coins_Add c [xCoin])) = Ok c' ->
  valid c' /\ forall d', coins_amount c' d' = coins_amount c d' + if bool_decide (d = d') then x else 0.
Proof.
  intros Hc Hd Hx. destruct (Z.eqb_spec x 0) as [->|Hx0]. { intros [= <-]. split; [done|]. intros d'. case_bool_decide; lia. }
  rewrite NewCoin_run by (done || lia). cbn [o_panic obind]. intros (Hs & Hz & Ha)%safeAdd_inv.
  assert (forall d', coins_amount c' d' = coins_amount c d' + if bool_decide (d = d') then x else 0) as Ha' by (intros d'; by rewrite Ha, one_amount).
  split; [|done]. apply valid_intro; [done..|]. intros d' Hn. rewrite Ha' in Hn |- *. pose proof (valid_nonneg c d' Hc).
  case_bool_decide; subst; [split; [done|lia]|]. split; [apply (valid_denom c); [done|lia]|lia].
Qed.

Lemma sub_or_not_inv c d x c' : valid c -> ValidateDenom d = true -> 0 <= x <= coins_amount c d ->
  (if x =? 0 then Ok c else (let* xCoin := o_panic (NewCoin d x) in Coins_Sub c [xCoin])) = Ok c' ->
  valid c' /\ forall d', coins_amount c' d' = coins_amount c d' - if bool_decide (d = d') then x else 0.
Proof.
  intros Hc Hd Hx. destruct (Z.eqb_spec x 0) as [->|Hx0]. { intros [= <-]. split; [done|]. intros d'. case_bool_decide; lia. }
  rewrite NewCoin_run by (done || lia). cbn [o_panic obind]. unfold Coins_Sub, Coins_SafeSub, mk_NewCoins.
  rewrite NewCoins_valid by (apply one_valid; [done|lia]). cbn [o_panic obind].
  destruct (safeAdd c (negative [mkCoin d x])) as [s|e|] eqn:E; [|done..]. cbn [obind fst snd]. destruct (IsAnyNegative s); [done|]. intros [= <-].
  apply safeAdd_inv in E as (Hs & Hz & Ha).
  assert (forall d', coins_amount s d' = coins_amount c d' - if bool_decide (d = d') then x else 0) as Ha'.
  { intros d'. rewrite Ha, amount_negative, one_amount. case_bool_decide; lia. }
  split; [|done]. apply valid_intro; [done..|]. intros d' Hn. rewrite Ha' in Hn |- *. pose proof (valid_nonneg c d' Hc).
  case_bool_decide; subst; [split; [done|lia]|]. split; [apply (valid_denom c); [done|lia]|lia].
Qed.

Lemma BaseTrackDelegation_inv balance vesting amount bva bva' : strict balance -> small vesting -> valid amount ->
  valid (DelegatedVesting bva) -> valid (DelegatedFree bva) -> BaseTrackDelegation balance vesting amount bva = Ok bva' ->
  exists df dv, bva' = with_counters df dv bva /\ valid df /\ valid dv /\
    forall d, let x := delegated_vesting (coins_amount vesting d) (coins_amount (DelegatedVesting bva) d) (coins_amount amount d) in
      coins_amount dv d = coins_amount (DelegatedVesting bva) d + x /\ coins_amount df d = coins_amount (DelegatedFree bva) d + (coins_amount amount d - x).
Proof.
  intros Hb Hv. revert bva. induction amount as [|c amount IH]; intros bva Ha Hdv Hdf.
  { cbn [BaseTrackDelegation]. intros [= <-]. exists (DelegatedFree bva), (DelegatedVesting bva). split; [by destruct bva|]. split; [done|]. split; [done|].
    intros d. unfold delegated_vesting. cbn. lia. }
  pose proof Ha as [Hst Hf]%valid_iff. apply Forall_cons in Hf as [[Hd Hpos] Hf]. pose proof Hst as [Hst' _]%strict_cons.
  assert (valid amount) as Ha' by by apply valid_iff.
  assert (coins_amount amount (Denom c) = 0) as Hzero.
  { apply amount_notin. pose proof (strict_NoDup _ Hst) as Hnd. rewrite fmap_cons in Hnd. by apply NoDup_cons in Hnd as [? _]. }
  assert (forall d, coins_amount (c :: amount) d = (if bool_decide (Denom c = d) then Amount c else 0) + coins_amount amount d) as Hsum by done.
  assert (forall d, 0 <= coins_amount amount d) as Hnn by (intros d; by apply valid_nonneg).
  cbn [BaseTrackDelegation]. unfold track_coin. rewrite !AmountOf_run by (done || apply strict_of, Hv || by apply strict_of). cbn [obind].
  destruct ((Amount c =? 0) || _); [done|]. destruct (Int_Sub (coins_amount vesting (Denom c)) _) as [r|] eqn:E1; [|done]. cbn [o_panic obind]. apply Int_Sub_exact in E1 as ->.
  set (x := Z.min _ _). destruct (Int_Sub (Amount c) x) as [y|] eqn:E2; [|done]. cbn [o_panic obind]. apply Int_Sub_exact in E2 as ->.
  destruct (if x =? 0 then _ else _) as [dv|e|] eqn:E3; [|done..]. cbn [obind]. apply add_or_not_inv in E3 as [Hdv' Edv]; [|done|done|subst x; lia].
  destruct (if Amount c - x =? 0 then _ else _) as [df|e|] eqn:E4; [|done..]. cbn [obind]. apply add_or_not_inv in E4 as [Hdf' Edf]; [|done|done|subst x; lia].
  intros (df' & dv' & -> & Hf' & Hv' & Hamt)%IH; [|done..]. exists df', dv'. split; [done|]. split; [done|]. split; [done|].
  intros d. cbn zeta. destruct (Hamt d) as [A1 A2]. cbn in A1, A2. rewrite A1, A2, Edv, Edf, Hsum. specialize (Hnn d).
  unfold delegated_vesting in *. case_bool_decide as Ed; [rewrite <- Ed, Hzero; subst x; lia|]. rewrite !Z.add_0_r, Z.add_0_l. lia.
Qed.

Lemma BaseTrackUndelegation_inv amount bva bva' : valid amount -> valid (DelegatedVesting bva) -> valid (DelegatedFree bva) ->
  BaseTrackUndelegation amount bva = Ok bva' ->
  exists df dv, bva' = with_counters df dv bva /\ valid df /\ valid dv /\
    forall d, let DF := coins_amount (DelegatedFree bva) d in let DV := coins_amount (DelegatedVesting bva) d in let D := coins_amount amount d in
      coins_amount df d = DF - undelegated_free DF D /\ coins_amount dv d = DV - undelegated_vesting DF DV D.
Proof.
  revert bva. induction amount as [|c amount IH]; intros bva Ha Hdv Hdf.
  { cbn [BaseTrackUndelegation]. intros [= <-]. exists (DelegatedFree bva), (DelegatedVesting bva). split; [by destruct bva|]. split; [done|]. split; [done|]. intros d.
    pose proof (valid_nonneg _ d Hdv). pose proof (valid_nonneg _ d Hdf). unfold undelegated_vesting, undelegated_free. cbn. lia. }
  pose proof Ha as [Hst Hf]%valid_iff. apply Forall_cons in Hf as [[Hd Hpos] Hf]. pose proof Hst as [Hst' _]%strict_cons.
  assert (valid amount) as Ha' by by apply valid_iff.
  assert (coins_amount amount (Denom c) = 0) as Hzero.
  { apply amount_notin. pose proof (strict_NoDup _ Hst) as Hnd. rewrite fmap_cons in Hnd. by apply NoDup_cons in Hnd as [? _]. }
  assert (forall d, coins_amount (c :: amount) d = (if bool_decide (Denom c = d) then Amount c else 0) + coins_amount amount d) as Hsum by done.
  pose proof (valid_nonneg _ (Denom c) Hdv). pose proof (valid_nonneg _ (Denom c) Hdf).
  assert (forall d, 0 <= coins_amount amount d) as Hnn by (intros d; by apply valid_nonneg).
  cbn [BaseTrackUndelegation]. unfold untrack_coin. destruct (Amount c =? 0); [done|]. rewrite !AmountOf_run by (done || by apply strict_of). cbn [obind].
  set (x := Z.min _ _). destruct (Int_Sub (Amount c) x) as [r|] eqn:E1; [|done]. cbn [o_panic obind]. apply Int_Sub_exact in E1 as ->. set (y := Z.min _ _).
  destruct (if x =? 0 then _ else _) as [df|e|] eqn:E3; [|done..]. cbn [obind]. apply sub_or_not_inv in E3 as [Hdf' Edf]; [|done|done|subst x; lia].
  destruct (if y =? 0 then _ else _) as [dv|e|] eqn:E4; [|done..]. cbn [obind]. apply sub_or_not_inv in E4 as [Hdv' Edv]; [|done|done|subst x y; lia].
  intros (df' & dv' & -> & Hf' & Hv' & Hamt)%IH; [|done..]. exists df', dv'. split; [done|]. split; [done|]. split; [done|].
  intros d. cbn zeta. destruct (Hamt d) as [A1 A2]. cbn in A1, A2. rewrite A1, A2, Edv, Edf, Hsum. specialize (Hnn d).
  unfold undelegated_vesting, undelegated_free in *. case_bool_decide as Ed; [rewrite <- Ed, Hzero; subst x y; lia|]. rewrite !Z.sub_0_r, Z.add_0_l. lia.
Qed.

(** The balance covers what is locked. *)
Definition covered (t : Z) (va : VestingAccount) (bal : string -> Z) : Prop :=
  forall d, Z.max (vesting_amount t va d - coins_amount (DelegatedVesting (base va)) d) 0 <= bal d.

Lemma covered_later t t' va bal : small (OriginalVesting (base va)) -> schedule_ok va -> t <= t' -> covered t va bal -> covered t' va bal.
Proof.
  intros Ho Hs Ht Hc d. specialize (Hc d). pose proof (vested_amount_mono t t' va d Ho Hs Ht). unfold vesting_amount in *. lia.
Qed.

(** An account whose counters fit; what its schedule says does not depend on them. *)
Record account_ok (va : VestingAccount) : Prop := {
  ao_original : small (OriginalVesting (base va));
  ao_schedule : schedule_ok va;
  ao_vesting : valid (DelegatedVesting (base va));
  ao_free : valid (DelegatedFree (base va));
}.

Definition recount (df dv : Coins) (va : VestingAccount) : VestingAccount := mkVestingAccount (with_counters df dv (base va)) (schedule va).

Lemma recount_amount df dv va t d : vesting_amount t (recount df dv va) d = vesting_amount t va d.
Proof. done. Qed.

Lemma recount_ok df dv va : account_ok va -> valid df -> valid dv -> account_ok (recount df dv va).
Proof. by intros [? ? ? ?] ? ?; split. Qed.

(** A delegation that was tracked: the counters grow by it, the vesting one
    no further than what is vesting, and a balance that covered what is locked
    still does when the delegated coins have left it. *)
Lemma TrackDelegation_inv t balance amount va va' : account_ok va -> in_i64 t -> strict balance -> valid amount ->
  TrackDelegation t balance amount va = Ok va' ->
  exists df dv, va' = recount df dv va /\ account_ok va' /\
    (forall d, coins_amount dv d + coins_amount df d = coins_amount (DelegatedVesting (base va)) d + coins_amount (DelegatedFree (base va)) d + coins_amount amount d) /\
    (forall d, coins_amount (DelegatedVesting (base va)) d <= coins_amount dv d <= Z.max (coins_amount (DelegatedVesting (base va)) d) (vesting_amount t va d)) /\
    (forall bal, (forall d, coins_amount amount d <= bal d) -> covered t va bal -> covered t va' (fun d => bal d - coins_amount amount d)).
Proof.
  intros Hok Ht Hb Ha. pose proof Hok as [Ho Hs Hdv Hdf]. destruct (GetVestingCoins_run t va Ho Hs Ht) as (v & Ev & Hv & Hamt).
  unfold TrackDelegation. rewrite Ev. cbn [obind]. destruct (BaseTrackDelegation balance v amount (base va)) as [bva|e|] eqn:E; [|done..].
  apply BaseTrackDelegation_inv in E as (df & dv & -> & Hdf' & Hdv' & HA); [|done..]. cbn [obind]. intros [= <-].
  assert (forall d, 0 <= coins_amount amount d) as Hnn by (intros d; by apply valid_nonneg).
  exists df, dv. split; [done|]. split; [by apply recount_ok|]. split; [|split].
  - intros d. destruct (HA d). lia.
  - intros d. destruct (HA d) as [Edv _]. rewrite Edv, Hamt. specialize (Hnn d). unfold delegated_vesting. lia.
  - intros bal Hbal Hc d. specialize (Hc d). specialize (Hbal d). destruct (HA d) as [Edv _]. change (mkVestingAccount _ _) with (recount df dv va).
    rewrite recount_amount. cbn [recount base with_counters DelegatedVesting]. rewrite Edv, Hamt. specialize (Hnn d). unfold delegated_vesting. lia.
Qed.

(** The same of an undelegation, which adds its coins to the balance. *)
Lemma TrackUndelegation_inv t amount va va' : account_ok va -> valid amount -> TrackUndelegation amount va = Ok va' ->
  exists df dv, va' = recount df dv va /\ account_ok va' /\
    (forall d, let total := coins_amount (DelegatedVesting (base va)) d + coins_amount (DelegatedFree (base va)) d in
       coins_amount dv d + coins_amount df d = total - Z.min total (coins_amount amount d)) /\
    (forall d, coins_amount dv d <= coins_amount (DelegatedVesting (base va)) d) /\
    (forall bal, covered t va bal -> covered t va' (fun d => bal d + coins_amount amount d)).
Proof.
  intros Hok Ha. pose proof Hok as [Ho Hs Hdv Hdf]. unfold TrackUndelegation.
  destruct (BaseTrackUndelegation amount (base va)) as [bva|e|] eqn:E; [|done..].
  apply BaseTrackUndelegation_inv in E as (df & dv & -> & Hdf' & Hdv' & HA); [|done..]. cbn [obind]. intros [= <-].
  assert (forall d, 0 <= coins_amount amount d) as Hnn by (intros d; by apply valid_nonneg).
  exists df, dv. split; [done|]. split; [by apply recount_ok|].
  assert (forall d, 0 <= coins_amount (DelegatedVesting (base va)) d /\ 0 <= coins_amount (DelegatedFree (base va)) d) as Hpos by (intros d; split; by apply valid_nonneg).
  split; [|split].
  - intros d. cbn zeta. destruct (HA d) as [E1 E2]. cbn zeta in E1, E2. rewrite E1, E2. specialize (Hnn d). specialize (Hpos d).
    unfold undelegated_vesting, undelegated_free. lia.
  - intros d. destruct (HA d) as [_ E2]. cbn zeta in E2. rewrite E2. specialize (Hnn d). specialize (Hpos d). unfold undelegated_vesting, undelegated_free. lia.
  - intros bal Hc d. specialize (Hc d). destruct (HA d) as [_ E2]. cbn zeta in E2. change (mkVestingAccount _ _) with (recount df dv va).
    rewrite recount_amount. cbn [recount base with_counters DelegatedVesting]. rewrite E2. specialize (Hnn d). specialize (Hpos d). unfold undelegated_vesting, undelegated_free. lia.
Qed.

(** Delegating what the balance covers succeeds when the counters have room,
    and so does undelegating. *)
Lemma TrackDelegation_run t balance amount va : account_ok va -> in_i64 t -> strict balance -> valid amount ->
  (forall d, coins_amount amount d <= coins_amount balance d) ->
  (forall d, coins_amount (DelegatedVesting (base va)) d + coins_amount amount d < 2 ^ 256 /\ coins_amount (DelegatedFree (base va)) d + coins_amount amount d < 2 ^ 256) ->
  exists va', TrackDelegation t balance amount va = Ok va'.
Proof.
  intros [Ho Hs Hdv Hdf] Ht Hb Ha Hle Hfit. destruct (GetVestingCoins_run t va Ho Hs Ht) as (v & Ev & Hv & Hamt).
  unfold TrackDelegation. rewrite Ev. cbn [obind]. destruct (BaseTrackDelegation_run balance v amount (base va)) as (df & dv & -> & _); [done..|]. by eexists.
Qed.

Lemma TrackUndelegation_run amount va : account_ok va -> valid amount -> (forall d, coins_amount amount d < 2 ^ 256) ->
  (forall d, coins_amount (DelegatedVesting (base va)) d < 2 ^ 256 /\ coins_amount (DelegatedFree (base va)) d < 2 ^ 256) ->
  exists va', TrackUndelegation amount va = Ok va'.
Proof.
  intros [Ho Hs Hdv Hdf] Ha Hfa Hfit. unfold TrackUndelegation.
  destruct (BaseTrackUndelegation_run amount (base va)) as (df & dv & -> & _); [done..|]. by eexists.
Qed.

End Schedules.

Module toyvest.
#[local] Existing Instances sdkmath sdkmath_laws sdkround sdkround_laws.

(** 1000 over a year, of which a third has gone. *)
Definition year : VestingAccount := NewContinuousVestingAccountRaw (NewBaseVestingAccount [mkCoin "uzyt" 1000] 31536000) 0.

Lemma small_one n : 0 < n < 2 ^ 194 -> small [mkCoin "uzyt" n].
Proof. intros Hn. split; [by apply one_valid; [reflexivity|lia]|]. intros d. rewrite one_amount. case_bool_decide; lia. Qed.

(** Two periods of 2^62 seconds. *)
Definition centuries : list Period :=
  [mkPeriod 4611686018427387904 [mkCoin "uzyt" 500]; mkPeriod 4611686018427387904 [mkCoin "uzyt" 500]].

Lemma vesting_schedule_witness :
  (exists vested, GetVestedCoins 10512000 year = Ok vested /\ coins_amount vested "uzyt" = 333 /\
    exists vesting, GetVestingCoins 10512000 year = Ok vesting /\ coins_amount vesting "uzyt" = 667) /\
  GetVestedCoins 6 (NewPeriodicVestingAccount [mkCoin "uzyt" 1000] 5 centuries) = Ok [mkCoin "uzyt" 1000].
Proof.
  destruct vesting_schedule as [Hok Hwrap]. split.
  - destruct (Hok 10512000 20000000 year "uzyt") as (v & u & v' & Ev & Eu & _ & _ & _ & Hsum & _).
    + apply small_one. lia.
    + split; [|split]; unfold in_i64, two63; cbn; lia.
    + unfold in_i64, two63. lia.
    + unfold in_i64, two63. lia.
    + lia.
    + exists v. assert (coins_amount v "uzyt" = 333) as Hv by (vm_compute in Ev; injection Ev as <-; reflexivity).
      split; [exact Ev|]. split; [exact Hv|]. exists u. split; [exact Eu|]. rewrite Hv in Hsum. change (coins_amount (OriginalVesting (base year)) "uzyt") with 1000 in Hsum. lia.
  - apply Hwrap. vm_compute. split; [discriminate|reflexivity].
Defined.

End toyvest.

End vesting.
