(* ===== verification/StoreKeys.v ===== *)
(** StoreKeys: how the modules of cosmos-sdk build the keys of their stores
    (types/utils.go, types/address/store_key.go, types/kv/helpers.go).

    Numbers are written big endian and times in a fixed-width calendar format,
    so that the byte order of the keys is the order of what they stand for, and
    addresses after their length, so that a key can be taken apart again.  A
    time is its nanoseconds since 1970; [civil] is the Gregorian calendar of
    Go's time package.

    Theorems: both encodings preserve the order, the calendar one from year 0
    to year 9999; big endian numbers are read back; a length-prefixed address
    is read back and never a prefix of another. *)

From Stdlib Require Import ZArith Lia Ascii String.
From stdpp Require Import base gmap sets list strings fin_maps pretty.
From S2P Require Import Prelude Pqc Wire KVStore.

Import order.

Open Scope Z_scope.
Open Scope go_scope.

(** ** Numbers of a fixed width *)

(** [w] digits of [n] in base [b], the first the most significant, shifted
    by [off] in the code. *)
Fixpoint digits (b off : Z) (w : nat) (n : Z) : string :=
  match w with
  | O => ""
  | S w => String (ascii_of_N (Z.to_N (off + n / b ^ Z.of_nat w))) (digits b off w (n mod b ^ Z.of_nat w))
  end.

Definition Uint64ToBigEndian (i : Z) : string := digits 256 0 8 i.

Fixpoint big_endian (acc : Z) (bz : string) : Z :=
  match bz with "" => acc | String c bz => big_endian (acc * 256 + Z.of_N (N_of_ascii c)) bz end.

(** binary.BigEndian.Uint64: the first eight bytes, fewer are out of range. *)
Definition BigEndianToUint64 (bz : string) : outcome Z :=
  if Nat.eqb (String.length bz) 0 then Ok 0 else
  if Nat.ltb (String.length bz) 8 then Panic else Ok (big_endian 0 (str_take 8 bz)).

(** ** Times *)

Definition Time : Type := Z.
Definition day_ns : Z := 86400000000000.

(** The date of the day [d] after 1970-01-01: in cycles of 400 years that
    begin on the first of March. *)
Definition civil_in_cycle (doe : Z) : Z * Z * Z :=
  let yoe := (doe - doe / 1460 + doe / 36524 - doe / 146096) / 365 in
  let doy := doe - (365 * yoe + yoe / 4 - yoe / 100) in
  let mp := (5 * doy + 2) / 153 in
  let m := if mp <? 10 then mp + 3 else mp - 9 in
  (if m <=? 2 then yoe + 1 else yoe, m, doy - (153 * mp + 2) / 5 + 1).

Definition civil (d : Z) : Z * Z * Z :=
  let z := d + 719468 in
  let '(y, m, dd) := civil_in_cycle (z mod 146097) in
  (y + 400 * (z / 146097), m, dd).

(** appendInt of Go's time package: at least [w] digits. *)
Definition appendInt (w : nat) (x : Z) : string :=
  if (0 <=? x) && (x <? 10 ^ Z.of_nat w) then digits 10 48 w x
  else (if x <? 0 then "-" else "") +:+ (if Z.abs x <? 10 ^ Z.of_nat w then digits 10 48 w (Z.abs x) else pretty (Z.abs x)).

(** Format with SortableTimeFormat, 2006-01-02T15:04:05.000000000. *)
Definition FormatTimeString (t : Time) : string :=
  let '(y, m, d) := civil (t / day_ns) in
  let ns := t mod day_ns in
  appendInt 4 y +:+ ("-" +:+ (appendInt 2 m +:+ ("-" +:+ (appendInt 2 d +:+ ("T" +:+
    (appendInt 2 (ns / 3600000000000) +:+ (":" +:+ (appendInt 2 (ns / 60000000000 mod 60) +:+ (":" +:+
    (appendInt 2 (ns / 1000000000 mod 60) +:+ ("." +:+ appendInt 9 (ns mod 1000000000)))))))))))).

Definition FormatTimeBytes (t : Time) : string := FormatTimeString t.

(** ** Addresses *)

Definition ErrUnknownAddress : err := Registered "sdk" 9.
Definition MaxAddrLen : nat := 255.

Definition LengthPrefix (bz : string) : outcome string :=
  let bzLen := String.length bz in
  if Nat.eqb bzLen 0 then Ok bz else
  if Nat.ltb MaxAddrLen bzLen then Err (Wrapf "address length" ErrUnknownAddress) else
  Ok (String (ascii_of_nat bzLen) bz).
Definition MustLengthPrefix (bz : string) : outcome string :=
  match LengthPrefix bz with Ok res => Ok res | _ => Panic end.

Definition AssertKeyAtLeastLength (bz : string) (n : nat) : outcome unit :=
  if Nat.ltb (String.length bz) n then Panic else Ok tt.

(** The slice, and the index of its last byte (-1 before the first). *)
Definition ParseLengthPrefixedBytes (key : string) (startIndex sliceLength : nat) : outcome (string * Z) :=
  let* _ := AssertKeyAtLeastLength key (startIndex + sliceLength) in
  Ok (str_take sliceLength (str_drop startIndex key), Z.of_nat (startIndex + sliceLength) - 1).

(** ** Order *)

Lemma str_lt_app_len a a' b b' : String.length a = String.length a' ->
  str_lt (a +:+ b) (a' +:+ b') <-> str_lt a a' \/ (a = a' /\ str_lt b b').
Proof.
  revert a'. induction a as [|c a IH]; intros [|c' a'] Hl; try done.
  - string_simpl. split; [by right|]. intros [[]%str_lt_nil|[_ ?]]; done.
  - string_simpl. rewrite !str_lt_cons, (IH a') by (injection Hl; lia). naive_solver.
Qed.

Section Digits.
Context (b off : Z) (Hb : 2 <= b) (Hoff : 0 <= off) (Hmax : off + b <= 256).

Lemma digits_length w n : String.length (digits b off w n) = w.
Proof. revert n. induction w as [|w IH]; intros n; cbn; [done|]. by rewrite IH. Qed.

Lemma digit_code x : 0 <= x < b -> N_of_ascii (ascii_of_N (Z.to_N (off + x))) = Z.to_N (off + x).
Proof. intros Hx. apply N_ascii_embedding. lia. Qed.

(** The first digit of a number in range, and the rest. *)
Lemma digits_split w n : 0 <= n < b ^ Z.of_nat (S w) -> 0 <= n / b ^ Z.of_nat w < b /\ 0 <= n mod b ^ Z.of_nat w < b ^ Z.of_nat w.
Proof.
  intros Hn. assert (0 < b ^ Z.of_nat w) as Hpos by (apply Z.pow_pos_nonneg; lia). split; [|by apply Z.mod_pos_bound].
  rewrite Nat2Z.inj_succ, Z.pow_succ_r in Hn by lia. split; [apply Z.div_pos; lia|]. apply Z.div_lt_upper_bound; lia.
Qed.

Lemma digits_lt w n m : 0 <= n < b ^ Z.of_nat w -> 0 <= m < b ^ Z.of_nat w -> str_lt (digits b off w n) (digits b off w m) <-> n < m.
Proof.
  revert n m. induction w as [|w IH]; intros n m Hn Hm.
  - cbn in Hn, Hm. cbn [digits]. split; [intros []%str_lt_nil|lia].
  - destruct (digits_split w n Hn) as [Hn1 Hn2], (digits_split w m Hm) as [Hm1 Hm2]. cbn [digits]. rewrite str_lt_cons, IH by done.
    rewrite !digit_code by done. assert (0 < b ^ Z.of_nat w) as Hpos by lia.
    pose proof (Z.div_mod n (b ^ Z.of_nat w) ltac:(lia)) as En. pose proof (Z.div_mod m (b ^ Z.of_nat w) ltac:(lia)) as Em.
    set (p := b ^ Z.of_nat w) in *. split.
    + intros [Hlt|[E Hlt]]; [nia|]. apply (f_equal N_of_ascii) in E. rewrite !digit_code in E by done. assert (n / p = m / p) by lia. nia.
    + intros Hlt. destruct (Z.lt_trichotomy (n / p) (m / p)) as [?|[E|?]]; [left; lia|right; rewrite E; split; [done|nia]|nia].
Qed.

Lemma digits_inj w n m : 0 <= n < b ^ Z.of_nat w -> 0 <= m < b ^ Z.of_nat w -> digits b off w n = digits b off w m -> n = m.
Proof.
  intros Hn Hm E. destruct (Z.lt_trichotomy n m) as [Hlt|[?|Hlt]]; [|done|]; apply (digits_lt w) in Hlt; try done; rewrite E in Hlt; by apply str_lt_irrefl in Hlt.
Qed.
End Digits.

(** *** Big endian *)

Lemma big_endian_digits w n acc : 0 <= n < 256 ^ Z.of_nat w -> big_endian acc (digits 256 0 w n) = acc * 256 ^ Z.of_nat w + n.
Proof.
  revert n acc. induction w as [|w IH]; intros n acc Hn; [cbn in *; lia|].
  destruct (digits_split 256 ltac:(lia) w n Hn) as [H1 H2]. cbn [digits big_endian]. rewrite IH, (digit_code 256) by lia.
  rewrite Nat2Z.inj_succ, Z.pow_succ_r, Z2N.id by lia. pose proof (Z.div_mod n (256 ^ Z.of_nat w) ltac:(lia)). nia.
Qed.

(** Account numbers, proposal ids and the like as keys: they are read back, and
    their keys are ordered as they are. *)
Theorem big_endian_keys i j : 0 <= i < two64 -> 0 <= j < two64 ->
  BigEndianToUint64 (Uint64ToBigEndian i) = Ok i /\ (str_lt (Uint64ToBigEndian i) (Uint64ToBigEndian j) <-> i < j).
Proof.
  assert (two64 = 256 ^ Z.of_nat 8) as -> by reflexivity. intros Hi Hj. split.
  - unfold BigEndianToUint64, Uint64ToBigEndian. rewrite digits_length. change (Nat.eqb 8 0) with false. change (Nat.ltb 8 8) with false. cbn iota.
    rewrite <- (digits_length 256 0 8 i) at 1. rewrite str_take_all, big_endian_digits by done. f_equal.
  - apply digits_lt; lia.
Qed.

(** *** Times *)

(** Years that have four digits: from 0000 to 9999. *)
Definition time_ok (t : Time) : Prop := -62167219200000000000 <= t < 253402300800000000000.

Definition date_lt (a b : Z * Z * Z) : Prop :=
  a.1.1 < b.1.1 \/ (a.1.1 = b.1.1 /\ (a.1.2 < b.1.2 \/ (a.1.2 = b.1.2 /\ a.2 < b.2))).
#[export] Instance date_lt_dec a b : Decision (date_lt a b).
Proof. unfold date_lt. apply _. Defined.
#[export] Instance date_lt_trans : Transitive date_lt.
Proof. intros [[y m] d] [[y' m'] d'] [[y'' m''] d'']. unfold date_lt. cbn. lia. Qed.

Definition date_fields (a : Z * Z * Z) : bool := (1 <=? a.1.2) && (a.1.2 <=? 12) && (1 <=? a.2) && (a.2 <=? 31).

(** The year of a day in a cycle, its first day, and the date in the year. *)
Definition year_of (doe : Z) : Z := (doe - doe / 1460 + doe / 36524 - doe / 146096) / 365.
Definition year_start (y : Z) : Z := 365 * y + y / 4 - y / 100.
Definition day_of_year (doy : Z) : Z * Z * Z :=
  let mp := (5 * doy + 2) / 153 in
  let m := if mp <? 10 then mp + 3 else mp - 9 in
  (if m <=? 2 then 1 else 0, m, doy - (153 * mp + 2) / 5 + 1).

Lemma civil_in_cycle_eq doe : civil_in_cycle doe =
  let '(c, m, d) := day_of_year (doe - year_start (year_of doe)) in (year_of doe + c, m, d).
Proof.
  unfold civil_in_cycle, day_of_year, year_start, year_of. cbv zeta. destruct (_ <=? 2); f_equal; f_equal. lia.
Qed.

Lemma year_of_mono a b : 0 <= a <= b -> year_of a <= year_of b.
Proof. intros H. unfold year_of. apply Z.div_le_mono; [lia|]. Z.div_mod_to_equations. lia. Qed.

(** The first and last day of a year are in it, in all years of the cycle. *)
Lemma years_ok : forallb (fun n => let y := Z.of_nat n in (year_of (year_start y) =? y) && (year_of (year_start (y + 1) - 1) =? y) &&
    (365 <=? year_start (y + 1) - year_start y) && (year_start (y + 1) - year_start y <=? 366)) (seq 0 400) = true.
Proof. vm_compute. reflexivity. Qed.

Lemma year_ok y : 0 <= y < 400 -> year_of (year_start y) = y /\ year_of (year_start (y + 1) - 1) = y /\ 365 <= year_start (y + 1) - year_start y <= 366.
Proof.
  intros Hy. pose proof years_ok as E. rewrite forallb_forall in E. specialize (E (Z.to_nat y)). rewrite Z2Nat.id in E by lia.
  rewrite !andb_true_iff, !Z.eqb_eq, !Z.leb_le in E. destruct E as [[[? ?] ?] ?]; [apply in_seq; lia|]. lia.
Qed.

Lemma year_exists n k : 0 <= k < year_start (Z.of_nat n) -> exists y, 0 <= y < Z.of_nat n /\ year_start y <= k < year_start (y + 1).
Proof.
  induction n as [|n IH]; intros Hk; [change (year_start (Z.of_nat 0)) with 0 in Hk; lia|]. destruct (Z.lt_ge_cases k (year_start (Z.of_nat n))) as [Hl|Hl].
  - destruct IH as (y & ? & ?); [lia|]. exists y. lia.
  - exists (Z.of_nat n). rewrite Nat2Z.inj_succ in Hk. unfold Z.succ in Hk. lia.
Qed.

Lemma year_of_spec k : 0 <= k <= 146095 -> 0 <= year_of k < 400 /\ year_start (year_of k) <= k < year_start (year_of k + 1).
Proof.
  intros Hk. destruct (year_exists 400 k) as (y & Hy & Hr); [change (year_start (Z.of_nat 400)) with 146096; lia|].
  destruct (year_ok y ltac:(lia)) as (E1 & E2 & _). assert (0 <= year_start y) by (unfold year_start; Z.div_mod_to_equations; lia).
  pose proof (year_of_mono (year_start y) k ltac:(lia)). pose proof (year_of_mono k (year_start (y + 1) - 1) ltac:(lia)). assert (year_of k = y) as -> by lia. lia.
Qed.

(** The days of a year, one after the other. *)
Lemma doys_ok : forallb (fun n => let d := Z.of_nat n in bool_decide (date_lt (day_of_year d) (day_of_year (d + 1))) && date_fields (day_of_year d) &&
    (((day_of_year d).1.1 =? 0) || ((day_of_year d).1.1 =? 1) && ((day_of_year d).1.2 <=? 2))) (seq 0 366) = true.
Proof. vm_compute. reflexivity. Qed.

Lemma doy_ok d : 0 <= d < 366 -> date_lt (day_of_year d) (day_of_year (d + 1)) /\ date_fields (day_of_year d) = true /\
  ((day_of_year d).1.1 = 0 \/ (day_of_year d).1.1 = 1 /\ (day_of_year d).1.2 <= 2).
Proof.
  intros Hd. pose proof doys_ok as E. rewrite forallb_forall in E. specialize (E (Z.to_nat d)). rewrite Z2Nat.id in E by lia.
  rewrite !andb_true_iff, orb_true_iff, andb_true_iff, bool_decide_eq_true, !Z.eqb_eq, Z.leb_le in E. destruct E as [[? ?] ?]; [apply in_seq; lia|]. done.
Qed.

Lemma cycle_step k : 0 <= k < 146096 -> date_lt (civil_in_cycle k) (civil_in_cycle (k + 1)) /\ date_fields (civil_in_cycle k) = true.
Proof.
  intros Hk. destruct (year_of_spec k ltac:(lia)) as [Hy Hr]. destruct (year_ok _ Hy) as (_ & _ & Hlen).
  destruct (doy_ok (k - year_start (year_of k))) as (Hs & Hf & Hc); [lia|]. rewrite !civil_in_cycle_eq.
  destruct (day_of_year (k - year_start (year_of k))) as [[c m] d] eqn:Ed. cbn [fst snd] in Hc. split; [|exact Hf].
  destruct (Z.eq_dec (year_of (k + 1)) (year_of k)) as [E|E].
  - rewrite E. replace (k + 1 - year_start (year_of k)) with (k - year_start (year_of k) + 1) by lia.
    destruct (day_of_year (k - year_start (year_of k) + 1)) as [[c' m'] d']. unfold date_lt in *. cbn [fst snd] in *. lia.
  - destruct (Z.eq_dec k 146095) as [->|]; [by destruct E|]. destruct (year_of_spec (k + 1) ltac:(lia)) as [Hy' Hr'].
    pose proof (year_of_mono k (k + 1) ltac:(lia)). assert (k + 1 = year_start (year_of (k + 1))) as Estart.
    { destruct (Z.lt_ge_cases k (year_start (year_of (k + 1)))) as [?|Hge]; [lia|].
      destruct (year_ok _ Hy') as (E1 & _ & _). assert (0 <= year_start (year_of (k + 1))) by (unfold year_start; Z.div_mod_to_equations; lia).
      pose proof (year_of_mono (year_start (year_of (k + 1))) k ltac:(lia)). lia. }
    replace (k + 1 - year_start (year_of (k + 1))) with 0 by lia. change (day_of_year 0) with (0, 3, 1). unfold date_lt, date_fields in *. cbn [fst snd] in *.
    lia.
Qed.

Lemma civil_step d : date_lt (civil d) (civil (d + 1)) /\ date_fields (civil d) = true.
Proof.
  unfold civil. set (z := d + 719468). replace (d + 1 + 719468) with (z + 1) by (unfold z; lia).
  pose proof (Z.mod_pos_bound z 146097 ltac:(lia)) as Hr. destruct (Z.eq_dec (z mod 146097) 146096) as [E|E].
  - assert ((z + 1) mod 146097 = 0 /\ (z + 1) / 146097 = z / 146097 + 1) as [-> ->].
    { pose proof (Z.div_mod z 146097 ltac:(lia)) as Hz. split; symmetry; [apply (Z.mod_unique _ _ (z / 146097 + 1))|apply (Z.div_unique _ _ _ 0)]; lia. }
    rewrite E. change (civil_in_cycle 146096) with (400, 2, 29). change (civil_in_cycle 0) with (0, 3, 1). cbn iota beta. unfold date_lt, date_fields. cbn [fst snd].
    split; [lia|reflexivity].
  - assert ((z + 1) mod 146097 = z mod 146097 + 1 /\ (z + 1) / 146097 = z / 146097) as [-> ->].
    { pose proof (Z.div_mod z 146097 ltac:(lia)) as Hz. split; symmetry; [apply (Z.mod_unique _ _ (z / 146097))|apply (Z.div_unique _ _ _ (z mod 146097 + 1))]; lia. }
    destruct (cycle_step (z mod 146097)) as [Hs Hf]; [lia|].
    destruct (civil_in_cycle (z mod 146097)) as [[y m] dd], (civil_in_cycle (z mod 146097 + 1)) as [[y' m'] dd']. split; [|exact Hf].
    unfold date_lt in *. cbn [fst snd] in *. lia.
Qed.

Lemma civil_mono d d' : d < d' -> date_lt (civil d) (civil d').
Proof.
  intros Hlt. replace d' with (d + Z.of_nat (S (Z.to_nat (d' - d - 1)))) by lia. generalize (Z.to_nat (d' - d - 1)) as n. induction n as [|n IH].
  - apply civil_step.
  - etrans; [exact IH|]. replace (d + Z.of_nat (S (S n))) with (d + Z.of_nat (S n) + 1) by lia. apply civil_step.
Qed.

Lemma date_lt_irrefl a : ~ date_lt a a.
Proof. unfold date_lt. lia. Qed.

Lemma civil_lt d d' : date_lt (civil d) (civil d') <-> d < d'.
Proof.
  split; [|apply civil_mono]. intros Hlt. destruct (Z.lt_trichotomy d d') as [?|[->|Hgt]]; [done|by apply date_lt_irrefl in Hlt|].
  apply civil_mono in Hgt. assert (date_lt (civil d) (civil d)) as []%date_lt_irrefl by by etrans.
Qed.

Lemma civil_year t : time_ok t -> 0 <= (civil (t / day_ns)).1.1 < 10000.
Proof.
  intros [Hlo Hhi]. assert (-719528 <= t / day_ns) as H1 by (apply Z.div_le_lower_bound; unfold day_ns; lia).
  assert (t / day_ns <= 2932896) as H2 by (apply Z.lt_succ_r, Z.div_lt_upper_bound; unfold day_ns; lia). split.
  - destruct (Z.eq_dec (t / day_ns) (-719528)) as [->|]; [by vm_compute|]. pose proof (civil_mono (-719528) (t / day_ns) ltac:(lia)) as Hlt.
    change (civil (-719528)) with (0, 1, 1) in Hlt. unfold date_lt in Hlt. cbn [fst snd] in Hlt. lia.
  - destruct (Z.eq_dec (t / day_ns) 2932896) as [->|]; [by vm_compute|]. pose proof (civil_mono (t / day_ns) 2932896 ltac:(lia)) as Hlt.
    change (civil 2932896) with (9999, 12, 31) in Hlt. unfold date_lt in Hlt. cbn [fst snd] in Hlt. lia.
Qed.

Lemma appendInt_digits w x : 0 <= x < 10 ^ Z.of_nat w -> appendInt w x = digits 10 48 w x.
Proof. intros [?%Z.leb_le ?%Z.ltb_lt]. unfold appendInt. by rewrite (proj2 (andb_true_iff _ _)). Qed.

(** A field before more fields. *)
Lemma field_lt w x y c r r' : 0 <= x < 10 ^ Z.of_nat w -> 0 <= y < 10 ^ Z.of_nat w ->
  str_lt (appendInt w x +:+ (String c "" +:+ r)) (appendInt w y +:+ (String c "" +:+ r')) <-> x < y \/ (x = y /\ str_lt r r').
Proof.
  intros Hx Hy. rewrite !appendInt_digits by done. rewrite str_lt_app_len, digits_lt by (done || lia || by rewrite !digits_length).
  string_simpl. rewrite str_lt_cons. split.
  - intros [?|[E%digits_inj [?|[_ ?]]]]; [by left|lia|by right|lia..|done|done].
  - intros [?|[-> ?]]; [by left|right]. auto.
Qed.

Lemma last_field_lt w x y : 0 <= x < 10 ^ Z.of_nat w -> 0 <= y < 10 ^ Z.of_nat w -> str_lt (appendInt w x) (appendInt w y) <-> x < y.
Proof. intros Hx Hy. rewrite !appendInt_digits by done. by apply digits_lt. Qed.

(** The clock fields of a time, and the time. *)
Lemma clock_lt a b : 0 <= a -> 0 <= b ->
  (a / 3600000000000 < b / 3600000000000 \/ (a / 3600000000000 = b / 3600000000000 /\
  (a / 60000000000 mod 60 < b / 60000000000 mod 60 \/ (a / 60000000000 mod 60 = b / 60000000000 mod 60 /\
  (a / 1000000000 mod 60 < b / 1000000000 mod 60 \/ (a / 1000000000 mod 60 = b / 1000000000 mod 60 /\
   a mod 1000000000 < b mod 1000000000)))))) <-> a < b.
Proof.
  intros Ha Hb. change 60000000000 with (1000000000 * 60). change 3600000000000 with (1000000000 * 60 * 60). rewrite <- !Z.div_div by lia.
  assert (forall k x y : Z, 0 < k -> (x / k < y / k \/ x / k = y / k /\ x mod k < y mod k) <-> x < y) as Hk.
  { intros k x y Hpos. pose proof (Z.div_mod x k ltac:(lia)). pose proof (Z.div_mod y k ltac:(lia)).
    pose proof (Z.mod_pos_bound x k Hpos). pose proof (Z.mod_pos_bound y k Hpos). split; [nia|]. intros Hlt.
    destruct (Z.lt_trichotomy (x / k) (y / k)) as [?|[?|?]]; [by left|right; lia|nia]. }
  assert (forall k x y : Z, 0 < k -> (x / k = y / k /\ x mod k = y mod k) <-> x = y) as He.
  { intros k x y Hpos. split; [|by intros ->]. intros [E1 E2]. rewrite (Z.div_mod x k), (Z.div_mod y k) by lia. by rewrite E1, E2. }
  rewrite <- (Hk 1000000000 a b), <- (Hk 60 (a / 1000000000) (b / 1000000000)), <- (He 60 (a / 1000000000) (b / 1000000000)) by lia.
  rewrite <- (Hk 60 (a / 1000000000 / 60) (b / 1000000000 / 60)), <- (He 60 (a / 1000000000 / 60) (b / 1000000000 / 60)) by lia. tauto.
Qed.

(** Times as keys.  From year 0 to year 9999 the byte order of formatted
    times is the order of the times. *)
Theorem FormatTimeBytes_ordered s t : time_ok s -> time_ok t -> str_lt (FormatTimeBytes s) (FormatTimeBytes t) <-> s < t.
Proof.
  intros Hs Ht. pose proof (civil_year s Hs) as Ys. pose proof (civil_year t Ht) as Yt.
  pose proof (civil_lt (s / day_ns) (t / day_ns)) as Hday. pose proof (proj2 (civil_step (s / day_ns))) as Fs. pose proof (proj2 (civil_step (t / day_ns))) as Ft.
  assert (civil (s / day_ns) = civil (t / day_ns) <-> s / day_ns = t / day_ns) as Heq.
  { split; [|by intros ->]. intros E. destruct (Z.lt_trichotomy (s / day_ns) (t / day_ns)) as [Hl|[?|Hl]]; [|done|]; apply civil_mono in Hl; rewrite E in Hl; by apply date_lt_irrefl in Hl. }
  pose proof (Z.mod_pos_bound s day_ns ltac:(done)) as Ms. pose proof (Z.mod_pos_bound t day_ns ltac:(done)) as Mt.
  pose proof (Z.div_mod s day_ns ltac:(done)) as Ds. pose proof (Z.div_mod t day_ns ltac:(done)) as Dt.
  unfold FormatTimeBytes, FormatTimeString. destruct (civil (s / day_ns)) as [[y m] d], (civil (t / day_ns)) as [[y' m'] d'].
  unfold date_fields, date_lt in *. cbn [fst snd] in *. rewrite !andb_true_iff, !Z.leb_le in Fs, Ft.
  assert (forall a, 0 <= a < day_ns -> 0 <= a / 3600000000000 < 100) as Hh by (intros a Ha; unfold day_ns in Ha; Z.div_mod_to_equations; lia).
  assert (forall a k, 0 <= a / k mod 60 < 100) as Hm by (intros a k; pose proof (Z.mod_pos_bound (a / k) 60 ltac:(lia)); lia).
  rewrite !field_lt by (change (10 ^ Z.of_nat 4) with 10000; change (10 ^ Z.of_nat 2) with 100; first [lia|auto]).
  rewrite last_field_lt by (apply Z.mod_pos_bound; lia). rewrite clock_lt by lia.
  assert (forall x y z x' y' z' : Z, (x, y, z) = (x', y', z') <-> x = x' /\ y = y' /\ z = z') as Hpair by naive_solver. rewrite Hpair in Heq.
  assert (s < t <-> s / day_ns < t / day_ns \/ s / day_ns = t / day_ns /\ s mod day_ns < t mod day_ns) as -> by (unfold day_ns in *; lia). tauto.
Qed.

Lemma FormatTimeBytes_inj s t : time_ok s -> time_ok t -> FormatTimeBytes s = FormatTimeBytes t -> s = t.
Proof.
  intros Hs Ht E. pose proof (FormatTimeBytes_ordered s t Hs Ht) as H1. pose proof (FormatTimeBytes_ordered t s Ht Hs) as H2. rewrite E in H1, H2.
  destruct (Z.lt_trichotomy s t) as [Hl|[?|Hl]]; [|done|]; [apply H1 in Hl|apply H2 in Hl]; by apply str_lt_irrefl in Hl.
Qed.

Lemma FormatTimeBytes_length t : time_ok t -> String.length (FormatTimeBytes t) = 29%nat.
Proof.
  intros Ht. pose proof (civil_year t Ht) as Y. pose proof (proj2 (civil_step (t / day_ns))) as F. pose proof (Z.mod_pos_bound t day_ns ltac:(done)) as M.
  unfold FormatTimeBytes, FormatTimeString. destruct (civil (t / day_ns)) as [[y m] d]. unfold date_fields in F. cbn [fst snd] in *.
  rewrite !andb_true_iff, !Z.leb_le in F. assert (0 <= t mod day_ns / 3600000000000 < 100) as Hh by (unfold day_ns in *; Z.div_mod_to_equations; lia).
  assert (forall a k, 0 <= a / k mod 60 < 100) as Hm by (intros a k; pose proof (Z.mod_pos_bound (a / k) 60 ltac:(lia)); lia).
  rewrite !appendInt_digits by first [apply Z.mod_pos_bound; lia|apply Hm|change (10 ^ Z.of_nat 4) with 10000; change (10 ^ Z.of_nat 2) with 100; lia].
  by rewrite !str_length_app, !digits_length.
Qed.

(** ** Addresses in keys *)

Lemma MustLengthPrefix_run bz : (0 < String.length bz <= 255)%nat -> MustLengthPrefix bz = Ok (String (ascii_of_nat (String.length bz)) bz).
Proof.
  intros Hl. unfold MustLengthPrefix, LengthPrefix, MaxAddrLen. destruct (Nat.eqb_spec (String.length bz) 0); [lia|].
  by destruct (Nat.ltb_spec 255 (String.length bz)); [lia|].
Qed.

Lemma ParseLengthPrefixedBytes_app a b c : ParseLengthPrefixedBytes (a +:+ (b +:+ c)) (String.length a) (String.length b) =
  Ok (b, Z.of_nat (String.length a + String.length b) - 1).
Proof.
  unfold ParseLengthPrefixedBytes, AssertKeyAtLeastLength. rewrite !str_length_app.
  destruct (Nat.ltb_spec (String.length a + (String.length b + String.length c)) (String.length a + String.length b)); [lia|].
  cbn [obind]. by rewrite str_drop_app, str_take_app.
Qed.

(** Addresses behind their lengths are told apart, whatever follows. *)
Lemma length_prefix_inj a b r r' : (0 < String.length a <= 255)%nat -> (0 < String.length b <= 255)%nat ->
  String (ascii_of_nat (String.length a)) a +:+ r = String (ascii_of_nat (String.length b)) b +:+ r' -> a = b /\ r = r'.
Proof.
  intros Ha Hb E. string_simpl. injection E as El E. apply (f_equal nat_of_ascii) in El. rewrite !nat_ascii_embedding in El by lia.
  by apply str_app_inj_len in E.
Qed.
