(* ===== verification/Auth.v ===== *)
(** Auth: the keys and signatures of transactions, and the accounts of
    cosmos-sdk/x/auth (keeper and types).

    The store of x/auth has three parts: accounts by address, addresses by
    account number, and the next account number.  [auth_wf] says that they
    agree: account numbers are unique and below the next one.  The signatures
    are those of types/tx/signing and crypto/keys/multisig.

    Theorems: every operation keeps the store well formed, so that account
    numbers are never shared or reused; a multisignature that verifies has as
    many valid member signatures as its threshold. *)

From Stdlib Require Import ZArith Lia Ascii String.
From stdpp Require Import base gmap sets list strings fin_maps sorting.
From S2P Require Import Prelude Sdk KVStore BitArray Vesting.

Open Scope Z_scope.
Open Scope go_scope.

(** ** Keys and signatures *)

Inductive PubKey : Type :=
  | Ed25519 (key : string)
  | Secp256k1 (key : string)
  | Secp256r1 (key : string)
  | Dilithium5 (key : string)
  | Multisig (threshold : Z) (keys : list PubKey)
  | OtherKey (key : string).

(** signing.SignMode. *)
Inductive SignMode : Type :=
  | SIGN_MODE_UNSPECIFIED
  | SIGN_MODE_DIRECT
  | SIGN_MODE_TEXTUAL
  | SIGN_MODE_DIRECT_AUX
  | SIGN_MODE_LEGACY_AMINO_JSON
  | SIGN_MODE_EIP_191.

#[export] Instance SignMode_eq_dec : EqDecision SignMode.
Proof. solve_decision. Defined.

(** signing.SignatureData; [NilData] is the nil interface. *)
Inductive SigData : Type :=
  | NilData
  | SingleSignatureData (mode : SignMode) (sig : string)
  | MultiSignatureData (bits : option CompactBitArray) (sigs : list SigData).

(** Addresses and single signatures of the key types. *)
Class KeyLib : Type := {
  PubKey_Address : PubKey -> string;
  lib_VerifySignature : PubKey -> string -> string -> bool;
}.

Section Verify.
Context `{KeyLib}.

(** PubKey.VerifySignature: that of a multisignature key panics. *)
Definition key_VerifySignature (pk : PubKey) (msg sig : string) : outcome bool :=
  match pk with Multisig _ _ => Panic | _ => Ok (lib_VerifySignature pk msg sig) end.

Context (getSignBytes : SignMode -> outcome string).

(** The checks of VerifyMultisignature before the loop. *)
Definition multisig_sizes (threshold : Z) (nKeys : Z) (bitarray : option CompactBitArray) (nSigs : Z) : outcome unit :=
  let size := Count bitarray in
  if negb (nKeys =? size) then Err (Errorf "bit array size is incorrect") else
  if (nSigs <? threshold) || (size <? nSigs) then Err (Errorf "signature size is incorrect") else
  let* set := NumTrueBitsBefore bitarray size in
  if set <? threshold then Err (Errorf "not enough signatures set") else Ok tt.

(** The loop of VerifyMultisignature over the members [keys] from index [i]
    on. *)
Definition multi_loop (verify : PubKey -> SigData -> outcome unit) (bitarray : option CompactBitArray) :=
  fix go (keys : list PubKey) (i : nat) (sigs : list SigData) : outcome unit :=
    match keys with
    | [] => Ok tt
    | key :: keys =>
        let* b := GetIndex bitarray (Z.of_nat i) in
        if b then
          match sigs with
          | [] => Panic
          | s :: sigs => let* _ := verify key s in go keys (S i) sigs
          end
        else go keys (S i) sigs
    end.

(** signing.VerifySignature, and VerifyMultisignature of a LegacyAminoPubKey,
    whose loop checks every member with its own data. *)
Fixpoint VerifySignature (pubKey : PubKey) (sigData : SigData) : outcome unit :=
  match sigData with
  | SingleSignatureData mode sig =>
      let* signBytes := getSignBytes mode in
      let* ok := key_VerifySignature pubKey signBytes sig in
      if ok then Ok tt else Err (Errorf "unable to verify single signer signature")
  | MultiSignatureData bitarray sigs =>
      match pubKey with
      | Multisig threshold keys =>
          let* _ := multisig_sizes threshold (Z.of_nat (length keys)) bitarray (Z.of_nat (length sigs)) in
          multi_loop VerifySignature bitarray keys 0 sigs
      | _ => Err (Errorf "expected multisig.PubKey")
      end
  | NilData => Err (Errorf "unexpected SignatureData")
  end.
End Verify.

(** CountSubKeys (x/auth/ante/sigverify.go). *)
Fixpoint CountSubKeys (pub : PubKey) : Z :=
  match pub with
  | Multisig _ keys => (fix go (keys : list PubKey) : Z := match keys with [] => 0 | k :: keys => CountSubKeys k + go keys end) keys
  | _ => 1
  end.

(** ** Accounts (x/auth/types) *)

Record AuthParams : Type := mkAuthParams {
  MaxMemoCharacters : Z;
  TxSigLimit : Z;
  TxSizeCostPerByte : Z;
  SigVerifyCostED25519 : Z;
  SigVerifyCostSecp256k1 : Z;
}.

Definition DefaultAuthParams : AuthParams := mkAuthParams 256 7 10 590 1000.

Definition SigVerifyCostSecp256r1 (p : AuthParams) : Z := SigVerifyCostSecp256k1 p / 2.

Definition AuthParams_Validate (p : AuthParams) : outcome unit :=
  if TxSigLimit p =? 0 then Err (Errorf "invalid tx signature limit") else
  if SigVerifyCostED25519 p =? 0 then Err (Errorf "invalid ED25519 signature verification cost") else
  if SigVerifyCostSecp256k1 p =? 0 then Err (Errorf "invalid SECK256k1 signature verification cost") else
  if MaxMemoCharacters p =? 0 then Err (Errorf "invalid max memo characters") else
  if TxSizeCostPerByte p =? 0 then Err (Errorf "invalid tx size cost per byte") else Ok tt.

Inductive AccountKind : Type :=
  | BaseAccount
  | VestingAccount (va : vesting.VestingAccount)
  | ModuleAccount (name : string) (permissions : list string).

Record Account : Type := mkAccount {
  acc_Address : string;
  acc_PubKey : option PubKey;
  acc_AccountNumber : Z;
  acc_Sequence : Z;
  acc_kind : AccountKind;
}.

Definition NewBaseAccountWithAddress (addr : string) : Account := mkAccount addr None 0 0 BaseAccount.
Definition NewEmptyModuleAccount (addr name : string) (permissions : list string) : Account := mkAccount addr None 0 0 (ModuleAccount name permissions).

Definition SetPubKey (acc : Account) (pubKey : PubKey) : outcome Account :=
  match acc_kind acc with
  | ModuleAccount _ _ => Err (Errorf "not supported for module accounts")
  | _ => Ok (mkAccount (acc_Address acc) (Some pubKey) (acc_AccountNumber acc) (acc_Sequence acc) (acc_kind acc))
  end.
Definition SetAccountNumber (acc : Account) (n : Z) : Account := mkAccount (acc_Address acc) (acc_PubKey acc) n (acc_Sequence acc) (acc_kind acc).
Definition SetSequence (acc : Account) (n : Z) : Account := mkAccount (acc_Address acc) (acc_PubKey acc) (acc_AccountNumber acc) n (acc_kind acc).

(** The stored account with other vesting data: the account of
    x/auth/vesting that embeds it. *)
Definition with_vesting (acc : Account) (va : vesting.VestingAccount) : Account :=
  mkAccount (acc_Address acc) (acc_PubKey acc) (acc_AccountNumber acc) (acc_Sequence acc) (VestingAccount va).

(** ** The account keeper *)

Record AuthState : Type := mkAuthState {
  as_params : option AuthParams;
  as_accounts : gmap string Account;
  as_by_number : gmap Z string;
  as_global : option Z;
}.

Definition ErrUnknownAddress : err := Registered "sdk" 9.

Section Keeper.
(** NewAccountKeeper's permAddrs: module names with address and permissions. *)
Context (permAddrs : gmap string (string * list string)).

Definition NextAccountNumber : M AuthState Z :=
  let! accNumber := reads (fun s => default 0 (as_global s)) in
  modify (fun s => mkAuthState (as_params s) (as_accounts s) (as_by_number s) (Some (wrap_u64 (accNumber + 1)))) ;;!
  ret accNumber.

Definition HasAccount (addr : string) : M AuthState bool := reads (fun s => bool_decide (as_accounts s !! addr <> None)).
Definition HasAccountAddressByID (id : Z) : M AuthState bool := reads (fun s => bool_decide (as_by_number s !! id <> None)).
Definition GetAccount (addr : string) : M AuthState (option Account) := reads (fun s => as_accounts s !! addr).
Definition GetAccountAddressByID (id : Z) : M AuthState (option string) := reads (fun s => as_by_number s !! id).

Definition SetAccount (acc : Account) : M AuthState unit :=
  modify (fun s => mkAuthState (as_params s) (<[acc_Address acc := acc]> (as_accounts s)) (<[acc_AccountNumber acc := acc_Address acc]> (as_by_number s)) (as_global s)).

Definition RemoveAccount (acc : Account) : M AuthState unit :=
  modify (fun s => mkAuthState (as_params s) (delete (acc_Address acc) (as_accounts s)) (delete (acc_AccountNumber acc) (as_by_number s)) (as_global s)).

(** In the order of the store's keys. *)
Definition GetAllAccounts : M AuthState (list Account) := reads (fun s => snd <$> merge_sort key_le (map_to_list (as_accounts s))).

Definition NewAccount (acc : Account) : M AuthState Account :=
  let! n := NextAccountNumber in
  ret (SetAccountNumber acc n).
Definition NewAccountWithAddress (addr : string) : M AuthState Account := NewAccount (NewBaseAccountWithAddress addr).

Definition SetParams (params : AuthParams) : M AuthState unit :=
  match AuthParams_Validate params with
  | Ok _ => modify (fun s => mkAuthState (Some params) (as_accounts s) (as_by_number s) (as_global s))
  | Err e => throw e
  | Panic => panic
  end.
Definition GetParams : M AuthState AuthParams := reads (fun s => default (mkAuthParams 0 0 0 0 0) (as_params s)).

Definition GetPubKey (addr : string) : M AuthState (option PubKey) :=
  let! acc := GetAccount addr in
  match acc with None => throw ErrUnknownAddress | Some acc => ret (acc_PubKey acc) end.
Definition GetSequence (addr : string) : M AuthState Z :=
  let! acc := GetAccount addr in
  match acc with None => throw ErrUnknownAddress | Some acc => ret (acc_Sequence acc) end.

Definition GetModuleAddress (moduleName : string) : option string := fst <$> permAddrs !! moduleName.
Definition ValidatePermissions (name : string) (perms : list string) : bool :=
  forallb (fun p => bool_decide (p ∈ default [] (snd <$> permAddrs !! name))) perms.

Definition GetModuleAccountAndPermissions (moduleName : string) : M AuthState (option Account * list string) :=
  match permAddrs !! moduleName with
  | None => ret (None, [])
  | Some (addr, perms) =>
      let! acc := GetAccount addr in
      match acc with
      | Some acc => match acc_kind acc with ModuleAccount _ _ => ret (Some acc, perms) | _ => panic end
      | None =>
          let! maccI := NewAccount (NewEmptyModuleAccount addr moduleName perms) in
          SetAccount maccI ;;!
          ret (Some maccI, perms)
      end
  end.
Definition GetModuleAccount (moduleName : string) : M AuthState (option Account) :=
  let! r := GetModuleAccountAndPermissions moduleName in ret (fst r).

(** keeper/msg_server.go: UpdateParams. *)
Definition ErrInvalidSigner : err := Registered "gov" 13.
Definition UpdateParams (authority reqAuthority : string) (params : AuthParams) : M AuthState unit :=
  if bool_decide (authority <> reqAuthority) then throw ErrInvalidSigner else SetParams params.
End Keeper.

(** ** Multisignatures *)

(** The positions of the set bits, counted from [i]. *)
Fixpoint members (i : nat) (bs : list bool) : list nat :=
  match bs with [] => [] | b :: bs => (if b then [i] else []) ++ members (S i) bs end.

Lemma members_shift i bs j m : members i bs !! j = Some m -> (i <= m)%nat.
Proof.
  revert i j. induction bs as [|b bs IH]; intros i j; [done|]. cbn [members].
  destruct b; [destruct j as [|j]; [by intros [= <-]|]|]; cbn; intros Hm%IH; lia.
Qed.

Lemma members_count i bs : Z.of_nat (length (members i bs)) = count_true bs.
Proof. revert i. induction bs as [|b bs IH]; intros i; [done|]. cbn [members count_true foldr]. rewrite length_app, Nat2Z.inj_add, IH. by destruct b. Qed.

Section MultiLaws.
Context `{KeyLib} (getSignBytes : SignMode -> outcome string).

Lemma multi_loop_spec (verify : PubKey -> SigData -> outcome unit) bA keys i sigs bs :
  length bs = length keys -> (forall k b, bs !! k = Some b -> GetIndex bA (Z.of_nat (i + k)) = Ok b) ->
  multi_loop verify bA keys i sigs = Ok tt <->
  forall j m, members i bs !! j = Some m -> exists key s, keys !! (m - i)%nat = Some key /\ sigs !! j = Some s /\ verify key s = Ok tt.
Proof.
  revert i sigs bs. induction keys as [|key keys IH]; intros i sigs [|b bs] Hl Hb; try done.
  cbn [multi_loop]. rewrite <- (Nat.add_0_r i) at 1. rewrite (Hb 0%nat b) by done. cbn [obind].
  assert (forall sigs, multi_loop verify bA keys (S i) sigs = Ok tt <-> forall j m, members (S i) bs !! j = Some m ->
    exists key s, keys !! (m - S i)%nat = Some key /\ sigs !! j = Some s /\ verify key s = Ok tt) as IH'.
  { intros sigs'. apply IH; [by injection Hl|]. intros k b' Hk. specialize (Hb (S k) b' Hk). by rewrite Nat.add_succ_r in Hb. }
  assert (forall m, (S i <= m)%nat -> (key :: keys) !! (m - i)%nat = keys !! (m - S i)%nat) as Hidx.
  { intros m Hm. by replace (m - i)%nat with (S (m - S i)) by lia. }
  destruct b; cbn [members app].
  - destruct sigs as [|s sigs].
    + split; [done|]. intros Hall. destruct (Hall 0%nat i eq_refl) as (? & ? & _ & ? & _). done.
    + destruct (verify key s) as [[]|e|] eqn:Ev; cbn [obind].
      * fold (multi_loop verify bA). rewrite IH'. split.
        -- intros Hall [|j] m; [intros [= <-]; exists key, s; by rewrite Nat.sub_diag|]. cbn. intros Hm. rewrite Hidx by (by eapply members_shift). by apply Hall.
        -- intros Hall j m Hm. rewrite <- Hidx by (by eapply members_shift). by apply (Hall (S j)).
      * split; [done|]. intros Hall. destruct (Hall 0%nat i eq_refl) as (k & s' & Ek & [= <-] & E). rewrite Nat.sub_diag in Ek. injection Ek as <-. congruence.
      * split; [done|]. intros Hall. destruct (Hall 0%nat i eq_refl) as (k & s' & Ek & [= <-] & E). rewrite Nat.sub_diag in Ek. injection Ek as <-. congruence.
  - fold (multi_loop verify bA). rewrite IH'. split; intros Hall j m Hm; [rewrite Hidx by (by eapply members_shift)|rewrite <- Hidx by (by eapply members_shift)]; by apply Hall.
Qed.

Lemma multi_loop_bits verify a keys i sigs : multi_loop verify (Some a) keys i sigs = Ok tt -> Z.of_nat (i + length keys) = Count (Some a) ->
  keys <> [] -> Count (Some a) <= 8 * Z.of_nat (length (Elems a)).
Proof.
  revert i sigs. induction keys as [|key keys IH]; intros i sigs E Hc Hk; [done|]. cbn [multi_loop] in E. cbn [length] in Hc.
  rewrite GetIndex_all in E by lia. rewrite Nat2Z.id in E. destruct (all_bits (Elems a) !! i) as [b|] eqn:Eb; [|done].
  destruct keys as [|key' keys].
  - apply lookup_lt_Some in Eb. rewrite all_bits_length in Eb. cbn [length] in Hc. lia.
  - cbn [obind] in E. fold (multi_loop verify (Some a)) in E. destruct b.
    + destruct sigs as [|s sigs]; [done|]. destruct (verify key s) as [[]|e|]; [|done..]. cbn [obind] in E. by apply (IH _ _ E); [rewrite <- Hc; cbn [length]; lia|].
    + by apply (IH _ _ E); [rewrite <- Hc; cbn [length]; lia|].
Qed.

(** C34: Multisignatures.  A multisignature verifies exactly when its bit array
    has one bit per member key and its bytes hold them, the number of
    signatures is between the threshold and the number of members, at least
    threshold members are marked, and the j-th signature, which may be a
    multisignature itself, is valid for the j-th marked member; signatures
    beyond those of the marked members are not looked at. *)
Theorem multisig_spec threshold keys a sigs : Forall (fun e => 0 <= e < 256) (Elems a) ->
  VerifySignature getSignBytes (Multisig threshold keys) (MultiSignatureData (Some a) sigs) = Ok tt <->
  bitarray_ok a /\ Z.of_nat (length keys) = Count (Some a) /\ threshold <= Z.of_nat (length sigs) <= Z.of_nat (length keys) /\
  threshold <= Z.of_nat (length (members 0 (bits_of a))) /\
  forall j m, members 0 (bits_of a) !! j = Some m ->
    exists key s, keys !! m = Some key /\ sigs !! j = Some s /\ VerifySignature getSignBytes key s = Ok tt.
Proof.
  intros Hbytes. cbn [VerifySignature]. fold (VerifySignature getSignBytes). rewrite members_count. unfold multisig_sizes.
  destruct (Z.eqb_spec (Z.of_nat (length keys)) (Count (Some a))) as [Ec|Ec]; cbn [negb]; [|split; [done|intros (_ & ? & _); done]].
  destruct (Z.ltb_spec (Z.of_nat (length sigs)) threshold); cbn [orb]; [split; [done|intros (_ & _ & ? & _); lia]|].
  destruct (Z.ltb_spec (Count (Some a)) (Z.of_nat (length sigs))); cbn [orb]; [split; [done|intros (_ & _ & ? & _); lia]|].
  assert (multi_loop (VerifySignature getSignBytes) (Some a) keys 0 sigs = Ok tt -> bitarray_ok a) as Hok.
  { intros E. split; [|done]. split; [lia|]. destruct keys as [|key keys]; [cbn [length] in Ec; lia|]. by apply (multi_loop_bits _ _ _ _ _ E). }
  assert (bitarray_ok a -> multi_loop (VerifySignature getSignBytes) (Some a) keys 0 sigs = Ok tt <->
    forall j m, members 0 (bits_of a) !! j = Some m -> exists key s, keys !! m = Some key /\ sigs !! j = Some s /\ VerifySignature getSignBytes key s = Ok tt) as Hloop.
  { intros Ha. rewrite (multi_loop_spec _ _ _ 0 _ (bits_of a)).
    - assert (forall m, (m - 0)%nat = m) as E0 by lia. by setoid_rewrite E0.
    - pose proof (bits_of_length a Ha). lia.
    - intros k b Hk. rewrite Nat.add_0_l, GetIndex_spec, (proj2 (Z.ltb_ge (Z.of_nat k) 0)), Nat2Z.id by (done || lia). by rewrite Hk. }
  assert (bitarray_ok a -> NumTrueBitsBefore (Some a) (Count (Some a)) = Ok (count_true (bits_of a))) as Hnum.
  { intros Ha. rewrite NumTrueBitsBefore_spec by (done || lia). rewrite take_ge; [done|]. pose proof (bits_of_length a Ha). lia. }
  split.
  - intros E. destruct (NumTrueBitsBefore (Some a) (Count (Some a))) as [n|e|] eqn:En; cbn [obind] in E; [|done..].
    destruct (Z.ltb_spec n threshold) as [?|Hn]; cbn [obind] in E; [done|]. pose proof (Hok E) as Ha. specialize (Hnum Ha). injection Hnum as Hnum.
    rewrite <- Hnum. split; [done|]. split; [done|]. split; [lia|]. split; [lia|]. by apply Hloop.
  - intros (Ha & _ & _ & Ht & Hall). rewrite Hnum by done. cbn [obind]. destruct (Z.ltb_spec (count_true (bits_of a)) threshold); [lia|]. cbn [obind].
    by apply Hloop.
Qed.
End MultiLaws.

(** ** The store of accounts *)

Definition next_number (s : AuthState) : Z := default 0 (as_global s).

Record auth_wf (s : AuthState) : Prop := {
  wf_address a acc : as_accounts s !! a = Some acc -> acc_Address acc = a;
  wf_number a acc : as_accounts s !! a = Some acc -> 0 <= acc_AccountNumber acc < next_number s /\ as_by_number s !! acc_AccountNumber acc = Some a;
  wf_by_number n a : as_by_number s !! n = Some a -> exists acc, as_accounts s !! a = Some acc /\ acc_AccountNumber acc = n;
  wf_next : 0 <= next_number s;
}.

Lemma auth_wf_unique s a b acc acc' : auth_wf s -> as_accounts s !! a = Some acc -> as_accounts s !! b = Some acc' ->
  acc_AccountNumber acc = acc_AccountNumber acc' -> a = b.
Proof.
  intros Hwf Ha Hb E. pose proof (proj2 (wf_number s Hwf _ _ Ha)) as H1. pose proof (proj2 (wf_number s Hwf _ _ Hb)) as H2. congruence.
Qed.

(** Storing an account with its old number. *)
Lemma SetAccount_update s a old acc : auth_wf s -> as_accounts s !! a = Some old ->
  acc_Address acc = a -> acc_AccountNumber acc = acc_AccountNumber old ->
  exists s', SetAccount acc s = (Ok tt, s') /\ auth_wf s' /\ as_accounts s' = <[a := acc]> (as_accounts s) /\
    as_by_number s' = as_by_number s /\ as_global s' = as_global s /\ as_params s' = as_params s.
Proof.
  intros Hwf Ha Ea En. eexists. split; [reflexivity|]. cbn [as_accounts as_by_number as_global as_params]. rewrite Ea, En.
  destruct (wf_number s Hwf _ _ Ha) as [Hn Hb]. rewrite (insert_id (as_by_number s)) by done. split_and!; try done. split; cbn [as_accounts as_by_number as_global].
  - intros b acc' [[<- <-]|[? Hb']]%lookup_insert_Some; [done|by apply (wf_address s Hwf)].
  - intros b acc' [[<- <-]|[? Hb']]%lookup_insert_Some; [by rewrite En|by apply (wf_number s Hwf)].
  - intros n b Hnb. destruct (wf_by_number s Hwf _ _ Hnb) as (acc' & Hb' & E). destruct (decide (a = b)) as [<-|Hne].
    + exists acc. rewrite lookup_insert_eq. split; [done|]. congruence.
    + exists acc'. by rewrite lookup_insert_ne.
  - apply (wf_next s Hwf).
Qed.

(** Numbering and storing a new account. *)
Lemma NewAccount_set s proto : auth_wf s -> as_accounts s !! acc_Address proto = None -> next_number s + 1 < two64 ->
  let acc := SetAccountNumber proto (next_number s) in
  exists s', (let! acc := NewAccount proto in SetAccount acc ;;! ret acc) s = (Ok acc, s') /\ auth_wf s' /\
    as_accounts s' = <[acc_Address proto := acc]> (as_accounts s) /\ next_number s' = next_number s + 1 /\ as_params s' = as_params s.
Proof.
  intros Hwf Hnone Hlt acc. pose proof (wf_next s Hwf) as Hn.
  set (s' := mkAuthState (as_params s) (<[acc_Address proto := acc]> (as_accounts s)) (<[next_number s := acc_Address proto]> (as_by_number s)) (Some (wrap_u64 (next_number s + 1)))).
  assert (next_number s' = next_number s + 1) as Eg by (unfold next_number at 1; cbn; by rewrite wrap_u64_id by lia).
  exists s'. split; [reflexivity|]. split_and!; [|done|exact Eg|done].
  split; rewrite ?Eg; change (as_accounts s') with (<[acc_Address proto := acc]> (as_accounts s)); change (as_by_number s') with (<[next_number s := acc_Address proto]> (as_by_number s)).
  - intros b acc' [[<- <-]|[? Hb]]%lookup_insert_Some; [done|by apply (wf_address s Hwf)].
  - intros b acc' [[<- <-]|[Hne Hb]]%lookup_insert_Some.
    + cbn. split; [lia|]. by rewrite lookup_insert_eq.
    + destruct (wf_number s Hwf _ _ Hb) as [Hr Hby]. split; [lia|]. cbn. rewrite lookup_insert_ne; [done|]. lia.
  - intros n b [[<- <-]|[Hne Hb]]%lookup_insert_Some.
    + exists acc. cbn. by rewrite lookup_insert_eq.
    + destruct (wf_by_number s Hwf _ _ Hb) as (acc' & Hb' & E). exists acc'. cbn. rewrite lookup_insert_ne; [done|]. congruence.
  - lia.
Qed.

(** A new vesting account is numbered as a base account and stored with its
    schedule. *)
Lemma NewVesting_set s addr va : auth_wf s -> as_accounts s !! addr = None -> next_number s + 1 < two64 ->
  let acc := with_vesting (SetAccountNumber (NewBaseAccountWithAddress addr) (next_number s)) va in
  exists s', (let! acc := NewAccount (NewBaseAccountWithAddress addr) in SetAccount (with_vesting acc va)) s = (Ok tt, s') /\ auth_wf s' /\
    as_accounts s' = <[addr := acc]> (as_accounts s) /\ next_number s' = next_number s + 1.
Proof.
  intros Hwf Hnone Hlt acc. destruct (NewAccount_set s acc Hwf Hnone Hlt) as (s' & E & Hwf' & Es & Eg & _).
  exists s'. split_and!; [|done|exact Es|exact Eg]. apply bind_ok in E as (m & s1 & E1 & E). apply bind_ok in E as ([] & s2 & E2 & E).
  apply ret_ok in E as [_ ->]. unfold NewAccount in E1 |- *. apply bind_ok in E1 as (k & s3 & E3 & E1). apply ret_ok in E1 as [-> ->].
  unfold bind at 1, bind at 1. rewrite E3. unfold ret. replace (with_vesting _ va) with (SetAccountNumber acc k); [exact E2|].
  by injection E3 as <- _.
Qed.

(** Removing a stored account. *)
Lemma RemoveAccount_stored s a acc : auth_wf s -> as_accounts s !! a = Some acc ->
  exists s', RemoveAccount acc s = (Ok tt, s') /\ auth_wf s' /\ as_accounts s' = delete a (as_accounts s) /\ as_global s' = as_global s.
Proof.
  intros Hwf Ha. pose proof (wf_address s Hwf _ _ Ha) as Ea. eexists. split; [reflexivity|].
  cbn [as_accounts as_global]. rewrite Ea. split_and!; [|done..]. split; cbn [as_accounts as_by_number].
  - intros b acc' [_ Hb]%lookup_delete_Some. by apply (wf_address s Hwf).
  - intros b acc' [Hne Hb]%lookup_delete_Some. destruct (wf_number s Hwf _ _ Hb) as [Hn Hby]. split; [exact Hn|].
    rewrite lookup_delete_ne; [done|]. intros E. apply Hne. by eapply auth_wf_unique.
  - intros n b [Hne Hb]%lookup_delete_Some. destruct (wf_by_number s Hwf _ _ Hb) as (acc' & Hb' & E). exists acc'.
    rewrite lookup_delete_ne; [done|]. congruence.
  - apply (wf_next s Hwf).
Qed.

(** What the modules do to the store, with the addresses an operation removes:
    accounts are created for new recipients of coins, vesting accounts by their
    messages, module accounts on first use; keys, sequences and the counters of
    vesting accounts (delegations) are set; RemoveAccount takes a stored
    account away. *)
Inductive auth_step (permAddrs : gmap string (string * list string)) : gset string -> AuthState -> AuthState -> Prop :=
  | step_new addr s acc s' : as_accounts s !! addr = None ->
      (let! acc := NewAccountWithAddress addr in SetAccount acc ;;! ret acc) s = (Ok acc, s') -> auth_step permAddrs ∅ s s'
  | step_vesting addr va s u s' : as_accounts s !! addr = None ->
      (let! acc := NewAccount (NewBaseAccountWithAddress addr) in SetAccount (with_vesting acc va)) s = (Ok u, s') ->
      auth_step permAddrs ∅ s s'
  | step_module name s r s' : GetModuleAccountAndPermissions permAddrs name s = (Ok r, s') -> auth_step permAddrs ∅ s s'
  | step_pubkey addr pk s acc acc' s' : as_accounts s !! addr = Some acc -> SetPubKey acc pk = Ok acc' -> SetAccount acc' s = (Ok tt, s') -> auth_step permAddrs ∅ s s'
  | step_sequence addr n s acc s' : as_accounts s !! addr = Some acc -> SetAccount (SetSequence acc n) s = (Ok tt, s') -> auth_step permAddrs ∅ s s'
  | step_track addr va s acc s' : as_accounts s !! addr = Some acc -> SetAccount (with_vesting acc va) s = (Ok tt, s') -> auth_step permAddrs ∅ s s'
  | step_remove addr s acc s' : as_accounts s !! addr = Some acc -> RemoveAccount acc s = (Ok tt, s') -> auth_step permAddrs {[ addr ]} s s'
  | step_params p s s' : SetParams p s = (Ok tt, s') -> auth_step permAddrs ∅ s s'.

(** [n] operations, and all the addresses they removed. *)
Inductive auth_steps (permAddrs : gmap string (string * list string)) : nat -> gset string -> AuthState -> AuthState -> Prop :=
  | steps_nil s : auth_steps permAddrs 0 ∅ s s
  | steps_cons n R R' s s1 s2 : auth_step permAddrs R s s1 -> auth_steps permAddrs n R' s1 s2 -> auth_steps permAddrs (S n) (R ∪ R') s s2.

(** Accounts that were not removed stay, with their numbers; accounts that were
    not there, or were removed and made again, have numbers from [s]'s next. *)
Definition numbers_kept (R : gset string) (s s' : AuthState) : Prop :=
  next_number s <= next_number s' /\
  (forall a acc, as_accounts s !! a = Some acc -> a ∉ R -> exists acc', as_accounts s' !! a = Some acc' /\ acc_AccountNumber acc' = acc_AccountNumber acc) /\
  (forall a acc', as_accounts s !! a = None \/ a ∈ R -> as_accounts s' !! a = Some acc' -> next_number s <= acc_AccountNumber acc').

Lemma numbers_kept_update s s' a old acc : as_accounts s !! a = Some old -> acc_AccountNumber acc = acc_AccountNumber old ->
  as_accounts s' = <[a := acc]> (as_accounts s) -> as_global s' = as_global s -> numbers_kept ∅ s s'.
Proof.
  intros Ha En Es Eg. unfold numbers_kept, next_number. rewrite Eg, Es. split_and!; [done| |].
  - intros b acc' Hb _. destruct (decide (a = b)) as [<-|Hne]; [rewrite lookup_insert_eq; eexists; split; [done|]; congruence|rewrite lookup_insert_ne by done; eauto].
  - intros b acc' [Hb|[]%not_elem_of_empty] [[<- <-]|[? Hb']]%lookup_insert_Some; congruence.
Qed.

Lemma numbers_kept_new s s' a acc : as_accounts s !! a = None -> acc_AccountNumber acc = next_number s ->
  as_accounts s' = <[a := acc]> (as_accounts s) -> next_number s' = next_number s + 1 -> numbers_kept ∅ s s'.
Proof.
  intros Ha En Es Eg. unfold numbers_kept. rewrite Eg, Es. split_and!; [lia| |].
  - intros b acc' Hb _. rewrite lookup_insert_ne by congruence. eauto.
  - intros b acc' [Hb|[]%not_elem_of_empty] [[<- <-]|[? Hb']]%lookup_insert_Some; [lia|congruence].
Qed.

Lemma numbers_kept_remove s s' a : as_accounts s' = delete a (as_accounts s) -> as_global s' = as_global s -> numbers_kept {[ a ]} s s'.
Proof.
  intros Es Eg. unfold numbers_kept, next_number. rewrite Eg, Es. split_and!; [done| |].
  - intros b acc Hb Hn. rewrite lookup_delete_ne by set_solver. eauto.
  - intros b acc' Hb [? Hb']%lookup_delete_Some. destruct Hb; [congruence|set_solver].
Qed.

Lemma numbers_kept_refl s : numbers_kept ∅ s s.
Proof. split_and!; [done|eauto|intros a acc' [?|[]%not_elem_of_empty]; congruence]. Qed.

Lemma numbers_kept_trans R R' s s1 s2 : numbers_kept R s s1 -> numbers_kept R' s1 s2 -> numbers_kept (R ∪ R') s s2.
Proof.
  intros (Hn1 & Hk1 & Hf1) (Hn2 & Hk2 & Hf2). split_and!; [lia| |].
  - intros a acc Ha Hr. destruct (Hk1 a acc Ha) as (acc1 & Ha1 & <-); [set_solver|]. apply Hk2; [done|set_solver].
  - intros a acc' Ha Ha'. destruct (as_accounts s1 !! a) as [acc1|] eqn:Ha1; [destruct (decide (a ∈ R')) as [Hr|Hr]|].
    + specialize (Hf2 a acc' (or_intror Hr) Ha'). lia.
    + destruct (Hk2 a acc1 Ha1 Hr) as (acc2 & Ha2 & En). rewrite Ha' in Ha2. injection Ha2 as <-. rewrite En.
      eapply Hf1; [|done]. set_solver.
    + specialize (Hf2 a acc' (or_introl Ha1) Ha'). lia.
Qed.

Lemma auth_step_wf permAddrs R s s' : auth_step permAddrs R s s' -> auth_wf s -> next_number s + 1 < two64 ->
  auth_wf s' /\ numbers_kept R s s' /\ next_number s' <= next_number s + 1.
Proof.
  intros [addr s0 acc s1 Hnone E|addr va s0 u s1 Hnone E|name s0 r s1 E|addr pk s0 acc acc' s1 Ha Epk E|addr n s0 acc s1 Ha E|addr va s0 acc s1 Ha E
    |addr s0 acc s1 Ha E|p s0 s1 E] Hwf Hlt.
  - destruct (NewAccount_set s0 (NewBaseAccountWithAddress addr) Hwf Hnone Hlt) as (s2 & E2 & Hwf2 & Es & Eg & _). unfold NewAccountWithAddress in E. rewrite E in E2. injection E2 as -> <-.
    split_and!; [done|by eapply (numbers_kept_new _ _ addr); [| |exact Es|]|lia].
  - destruct (NewVesting_set s0 addr va Hwf Hnone Hlt) as (s2 & E2 & Hwf2 & Es & Eg). rewrite E in E2. injection E2 as -> <-.
    split_and!; [done|by eapply (numbers_kept_new _ _ addr); [| |exact Es|]|lia].
  - unfold GetModuleAccountAndPermissions in E. destruct (permAddrs !! name) as [[addr perms]|]; [|apply ret_ok in E as [_ ->]; split_and!; [done|apply numbers_kept_refl|lia]].
    unfold GetAccount, bind at 1, reads in E. destruct (as_accounts s0 !! addr) as [acc|] eqn:Ea.
    + destruct (acc_kind acc); [done|done|]. apply ret_ok in E as [_ ->]. split_and!; [done|apply numbers_kept_refl|lia].
    + destruct (NewAccount_set s0 (NewEmptyModuleAccount addr name perms) Hwf Ea Hlt) as (s2 & E2 & Hwf2 & Es & Eg & _).
      apply bind_ok in E as (m & s3 & E3 & E). apply bind_ok in E as ([] & s4 & E4 & E). apply ret_ok in E as [_ ->].
      rewrite (bind_run _ _ _ _ _ E3), (bind_run _ _ _ _ _ E4) in E2. injection E2 as -> ->. split_and!; [done|by eapply (numbers_kept_new _ _ addr); [| |exact Es|]|lia].
  - assert (acc_Address acc' = addr /\ acc_AccountNumber acc' = acc_AccountNumber acc) as [Ead En].
    { unfold SetPubKey in Epk. rewrite <- (wf_address s0 Hwf _ _ Ha). destruct (acc_kind acc); [by injection Epk as <-|by injection Epk as <-|done]. }
    destruct (SetAccount_update s0 addr acc acc' Hwf Ha Ead En) as (s2 & E2 & Hwf2 & Es & _ & Eg & _). rewrite E in E2. injection E2 as <-.
    split_and!; [done|by eapply (numbers_kept_update _ _ addr); [exact Ha| |exact Es|]|unfold next_number; rewrite Eg; lia].
  - destruct (SetAccount_update s0 addr acc (SetSequence acc n) Hwf Ha) as (s2 & E2 & Hwf2 & Es & _ & Eg & _); [exact (wf_address s0 Hwf _ _ Ha)|done|].
    rewrite E in E2. injection E2 as <-. split_and!; [done|by eapply (numbers_kept_update _ _ addr); [exact Ha| |exact Es|]|unfold next_number; rewrite Eg; lia].
  - destruct (SetAccount_update s0 addr acc (with_vesting acc va) Hwf Ha) as (s2 & E2 & Hwf2 & Es & _ & Eg & _); [exact (wf_address s0 Hwf _ _ Ha)|done|].
    rewrite E in E2. injection E2 as <-. split_and!; [done|by eapply (numbers_kept_update _ _ addr); [exact Ha| |exact Es|]|unfold next_number; rewrite Eg; lia].
  - destruct (RemoveAccount_stored s0 addr acc Hwf Ha) as (s2 & E2 & Hwf2 & Es & Eg). rewrite E in E2. injection E2 as <-.
    split_and!; [done|by apply numbers_kept_remove|unfold next_number; rewrite Eg; lia].
  - unfold SetParams in E. destruct (AuthParams_Validate p); [|done..]. apply modify_ok in E as ->. split_and!; [by destruct Hwf as [H1 H2 H3 H4]; split|exact (numbers_kept_refl s0)|].
    change (next_number s0 <= next_number s0 + 1). lia.
Qed.

(** C35: Account numbers.  Run any number n of operations of the account keeper
    from a well-formed state: new accounts, vesting accounts and module
    accounts, keys, sequences, the tracking of delegations, parameters,
    RemoveAccount.  If the next number plus n is below 2^64, so that the
    counter does not wrap, then no two accounts have the same number, the index
    by number is the inverse of the accounts, every account that was there and
    was not removed still is, under the same number, and every account that was
    not there, or was removed and made again, has a number that had never been
    given out. *)
Theorem account_numbers permAddrs n R s s' : auth_steps permAddrs n R s s' -> auth_wf s -> next_number s + Z.of_nat n < two64 ->
  auth_wf s' /\ numbers_kept R s s' /\
  forall a b acc acc', as_accounts s' !! a = Some acc -> as_accounts s' !! b = Some acc' ->
    acc_AccountNumber acc = acc_AccountNumber acc' -> a = b.
Proof.
  intros Hs Hwf Hlt. assert (auth_wf s' /\ numbers_kept R s s') as [Hwf' Hk].
  - induction Hs as [s|n R R' s s1 s2 Hstep Hs IH]; [split; [done|apply numbers_kept_refl]|].
    destruct (auth_step_wf _ _ _ _ Hstep Hwf) as (Hwf1 & Hk1 & Hle); [lia|].
    destruct IH as (Hwf2 & Hk2); [done|lia|]. split; [done|]. by eapply numbers_kept_trans.
  - split; [done|]. split; [done|]. intros a b acc acc' Ha Hb. by apply (auth_wf_unique s' a b acc acc' Hwf').
Qed.

(** ** Genesis (x/auth/types/genesis.go, keeper/genesis.go) *)

Record AuthGenesis : Type := mkAuthGenesis { gen_Params : AuthParams; gen_Accounts : list Account }.

(** SanitizeGenesisAccounts: the numbers seen, and for every number the
    positions of its duplicates after the first. *)
Fixpoint scan_numbers (i : nat) (accs : list Account) (seen : gset Z) (dup : gmap Z (list nat)) : gset Z * gmap Z (list nat) :=
  match accs with
  | [] => (seen, dup)
  | acc :: accs =>
      let num := acc_AccountNumber acc in
      if bool_decide (num ∉ seen) then scan_numbers (S i) accs ({[num]} ∪ seen) dup
      else scan_numbers (S i) accs seen (<[num := default [] (dup !! num) ++ [i]]> dup)
  end.

Fixpoint next_unused (fuel : nat) (seen : gset Z) (globalNum : Z) : Z :=
  match fuel with
  | O => globalNum
  | S fuel => if bool_decide (globalNum ∈ seen) then next_unused fuel seen (globalNum + 1) else globalNum
  end.

Fixpoint renumber (idxs : list nat) (globalNum : Z) (seen : gset Z) (accs : list Account) : list Account :=
  match idxs with
  | [] => accs
  | i :: idxs =>
      let g := next_unused (S (size seen)) seen globalNum in
      renumber idxs g ({[g]} ∪ seen) (alter (fun acc => SetAccountNumber acc g) i accs)
  end.

Definition by_number (a b : Account) : Prop := acc_AccountNumber a <= acc_AccountNumber b.
#[export] Instance by_number_dec : RelDecision by_number.
Proof. intros a b. unfold by_number. apply _. Defined.

Definition SanitizeGenesisAccounts (genAccs : list Account) : list Account :=
  let '(seen, dup) := scan_numbers 0 genAccs ∅ ∅ in
  let dupAccNums := merge_sort Z.le (elements (dom dup)) in
  let idxs := dupAccNums ≫= (fun num => default [] (dup !! num)) in
  merge_sort by_number (renumber idxs 0 seen genAccs).

Section Genesis.
Context (permAddrs : gmap string (string * list string)).

(** [for lastAccNum == nil || *lastAccNum < accNum { ... }]. *)
Fixpoint bump (fuel : nat) (lastAccNum : option Z) (accNum : Z) : M AuthState (option Z) :=
  if match lastAccNum with None => true | Some l => l <? accNum end then
    match fuel with
    | O => panic
    | S fuel => let! n := NextAccountNumber in bump fuel (Some n) accNum
    end
  else ret lastAccNum.

Fixpoint init_accounts (lastAccNum : option Z) (accounts : list Account) : M AuthState unit :=
  match accounts with
  | [] => ret tt
  | acc :: accounts =>
      let! last := bump (S (Z.to_nat (acc_AccountNumber acc))) lastAccNum (acc_AccountNumber acc) in
      SetAccount acc ;;!
      init_accounts last accounts
  end.

Definition FeeCollectorName : string := "fee_collector".

Definition Auth_InitGenesis (data : AuthGenesis) : M AuthState unit :=
  match AuthParams_Validate (gen_Params data) with
  | Ok _ =>
      SetParams (gen_Params data) ;;!
      init_accounts None (SanitizeGenesisAccounts (gen_Accounts data)) ;;!
      GetModuleAccount permAddrs FeeCollectorName ;;!
      ret tt
  | _ => panic
  end.

Definition Auth_ExportGenesis : M AuthState AuthGenesis :=
  let! params := GetParams in
  let! genAccounts := GetAllAccounts in
  ret (mkAuthGenesis params genAccounts).
End Genesis.

(** *** Numbers after sanitizing *)

Definition number_at (accs : list Account) (i : nat) : option Z := acc_AccountNumber <$> accs !! i.

(** Outside the positions still to do, numbers are distinct and seen. *)
Definition settled (todo : list nat) (seen : gset Z) (accs : list Account) : Prop :=
  (forall i n, i ∉ todo -> number_at accs i = Some n -> n ∈ seen) /\
  (forall i j n, i ∉ todo -> j ∉ todo -> number_at accs i = Some n -> number_at accs j = Some n -> i = j).

Lemma next_unused_spec fuel (seen : gset Z) (g : Z) : (size (filter (fun n : Z => (g <= n)%Z) seen) < fuel)%nat -> next_unused fuel seen g ∉ seen.
Proof.
  revert g. induction fuel as [|fuel IH]; intros g Hf; [lia|]. cbn [next_unused]. case_bool_decide as Hg; [|done]. apply IH.
  assert (size (filter (fun n : Z => (g + 1 <= n)%Z) seen) < size (filter (fun n : Z => (g <= n)%Z) seen))%nat; [|lia].
  apply subset_size. split; [intros n; rewrite !elem_of_filter; intros [? ?]; split; [lia|done]|].
  intros Hsub. specialize (Hsub g). rewrite !elem_of_filter in Hsub. destruct Hsub as [? _]; [split; [lia|done]|]. lia.
Qed.

Lemma next_unused_fresh seen g : next_unused (S (size seen)) seen g ∉ seen.
Proof.
  apply next_unused_spec. pose proof (subseteq_size (filter (fun n => g <= n) seen) seen ltac:(set_solver)). lia.
Qed.

Lemma number_at_alter accs i j g : number_at (alter (fun acc => SetAccountNumber acc g) i accs) j =
  if bool_decide (i = j) then (fun _ => g) <$> accs !! j else number_at accs j.
Proof.
  unfold number_at. case_bool_decide as E; [subst; rewrite list_lookup_alter_eq; by destruct (accs !! j)|by rewrite list_lookup_alter_ne].
Qed.

(** What an account is apart from its number. *)
Definition unnumbered (acc : Account) : Account := SetAccountNumber acc 0.

Lemma renumber_spec idxs g seen accs : NoDup idxs -> settled idxs seen accs ->
  NoDup (acc_AccountNumber <$> renumber idxs g seen accs) /\ unnumbered <$> renumber idxs g seen accs = unnumbered <$> accs /\
  forall i, i ∉ idxs -> renumber idxs g seen accs !! i = accs !! i.
Proof.
  revert g seen accs. induction idxs as [|i idxs IH]; intros g seen accs Hnd [Hseen Hinj]; cbn [renumber].
  - split_and!; [|done|done]. apply NoDup_alt. intros i j n Hi Hj. rewrite list_lookup_fmap in Hi, Hj. apply (Hinj i j n); (done || apply not_elem_of_nil).
  - apply NoDup_cons in Hnd as [Hi Hnd]. set (g' := next_unused _ _ _). pose proof (next_unused_fresh seen g) as Hg. fold g' in Hg.
    destruct (IH g' ({[g']} ∪ seen) (alter (fun acc => SetAccountNumber acc g') i accs) Hnd) as (H1 & H2 & H3).
    + split.
      * intros j n Hj. rewrite number_at_alter. case_bool_decide as E; [intros (? & _ & ->)%fmap_Some; set_solver|]. intros Hn. apply elem_of_union_r. apply (Hseen j); [set_solver|done].
      * intros j k n Hj Hk. rewrite !number_at_alter. case_bool_decide as Ej; case_bool_decide as Ek; [congruence| | |].
        -- intros (? & _ & ->)%fmap_Some Hn. destruct Hg. apply (Hseen k); [set_solver|done].
        -- intros Hn (? & _ & ->)%fmap_Some. destruct Hg. apply (Hseen j); [set_solver|done].
        -- apply Hinj; set_solver.
    + split_and!; [done| |].
      * rewrite H2. apply list_eq. intros j. rewrite !list_lookup_fmap. destruct (decide (i = j)) as [<-|Hne]; [rewrite list_lookup_alter_eq; by destruct (accs !! i)|by rewrite list_lookup_alter_ne].
      * intros j Hj. rewrite H3 by set_solver. apply list_lookup_alter_ne. set_solver.
Qed.

Definition dups (dup : gmap Z (list nat)) (num : Z) : list nat := default [] (dup !! num).

(** The positions below [i] are settled apart from those in [dup]. *)
Record scanned (accs : list Account) (i : nat) (seen : gset Z) (dup : gmap Z (list nat)) : Prop := {
  sc_seen j n : (j < i)%nat -> (forall m, j ∉ dups dup m) -> number_at accs j = Some n -> n ∈ seen;
  sc_inj j k n : (j < i)%nat -> (k < i)%nat -> (forall m, j ∉ dups dup m) -> (forall m, k ∉ dups dup m) ->
    number_at accs j = Some n -> number_at accs k = Some n -> j = k;
  sc_dup num j : j ∈ dups dup num -> (j < i)%nat /\ number_at accs j = Some num;
  sc_nodup num : NoDup (dups dup num);
  sc_below n : n ∈ seen -> exists j, (j < i)%nat /\ number_at accs j = Some n;
  sc_earlier num j : j ∈ dups dup num -> exists k, (k < j)%nat /\ number_at accs k = Some num;
}.

Lemma scan_numbers_spec all i accs seen dup : drop i all = accs -> scanned all i seen dup ->
  let '(seen', dup') := scan_numbers i accs seen dup in scanned all (length all) seen' dup'.
Proof.
  revert i seen dup. induction accs as [|acc accs IH]; intros i seen dup Hd Hs; cbn [scan_numbers].
  - assert (length all <= i)%nat as Hi by (apply (f_equal length) in Hd; rewrite length_drop in Hd; cbn in Hd; lia).
    destruct Hs as [H1 H2 H3 H4 H5 H6]. split; [..|done| |done].
    + intros j n Hj. apply H1. lia.
    + intros j k n Hj Hk. apply H2; lia.
    + intros num j Hj. destruct (H3 _ _ Hj) as [_ E]. split; [|done]. unfold number_at in E. destruct (all !! j) eqn:El; [|done]. by eapply lookup_lt_Some.
    + intros n (j & _ & E)%H5. exists j. split; [|done]. unfold number_at in E. destruct (all !! j) eqn:El; [|done]. by eapply lookup_lt_Some.
  - assert (number_at all i = Some (acc_AccountNumber acc)) as Ei.
    { unfold number_at. replace i with (i + 0)%nat by lia. by rewrite <- lookup_drop, Hd. }
    assert (drop (S i) all = accs) as Hd' by (rewrite <- Nat.add_1_r, <- drop_drop, Hd; done).
    set (num := acc_AccountNumber acc) in *. destruct Hs as [H1 H2 H3 H4 H5 H6]. case_bool_decide as Hnum.
    + apply IH; [done|]. split; [..|done| |done].
      * intros j n Hj Ht Hn. destruct (decide (j = i)) as [->|]; [rewrite Ei in Hn; set_solver|]. apply elem_of_union_r. apply (H1 j); (done || lia).
      * intros j k n Hj Hk Htj Htk Hnj Hnk. destruct (decide (j = i)) as [->|]; destruct (decide (k = i)) as [->|]; [done| | |apply (H2 j k n); (done || lia)].
        -- destruct Hnum. rewrite Ei in Hnj. injection Hnj as <-. apply (H1 k); (done || lia).
        -- destruct Hnum. rewrite Ei in Hnk. injection Hnk as <-. apply (H1 j); (done || lia).
      * intros m j Hj. destruct (H3 _ _ Hj). split; [lia|done].
      * intros n [->%elem_of_singleton|(j & ? & ?)%H5]%elem_of_union; [exists i|exists j]; (split; [lia|done]).
    + apply IH; [done|].
      assert (forall m, dups (<[num := default [] (dup !! num) ++ [i]]> dup) m = dups dup m ++ if bool_decide (m = num) then [i] else []) as Ed.
      { intros m. unfold dups. case_bool_decide as E; [subst; by rewrite lookup_insert_eq|rewrite lookup_insert_ne by done; by rewrite app_nil_r]. }
      assert (forall j, (forall m, j ∉ dups (<[num := default [] (dup !! num) ++ [i]]> dup) m) -> j <> i /\ forall m, j ∉ dups dup m) as Ht.
      { intros j Hj. split; [intros ->; apply (Hj num); rewrite Ed, bool_decide_true by done; set_solver|]. intros m Hm. apply (Hj m). rewrite Ed. set_solver. }
      split.
      * intros j n Hj [Hne Htj]%Ht. apply H1; (done || lia).
      * intros j k n Hj Hk [? ?]%Ht [? ?]%Ht. apply H2; (done || lia).
      * intros m j. rewrite Ed. intros [Hj|Hj]%elem_of_app; [destruct (H3 _ _ Hj); split; [lia|done]|]. case_bool_decide; [|by apply elem_of_nil in Hj].
        apply list_elem_of_singleton in Hj. subst. split; [lia|done].
      * intros m. rewrite Ed. apply NoDup_app. split_and!; [done| |case_bool_decide; [apply NoDup_singleton|constructor]].
        intros j Hj Hin. case_bool_decide; [|by apply elem_of_nil in Hin]. apply list_elem_of_singleton in Hin. subst. destruct (H3 _ _ Hj). lia.
      * intros n (j & ? & ?)%H5. exists j. split; [lia|done].
      * intros m j. rewrite Ed. intros [Hj|Hj]%elem_of_app; [by apply H6|]. case_bool_decide; [|by apply elem_of_nil in Hj].
        apply list_elem_of_singleton in Hj. subst. by apply H5.
Qed.

Lemma NoDup_mbind_disjoint {A} (l : list A) (f : A -> list nat) : NoDup l -> (forall a, NoDup (f a)) ->
  (forall a b j, j ∈ f a -> j ∈ f b -> a = b) -> NoDup (l ≫= f).
Proof.
  intros Hl Hf Hd. induction Hl as [|a l Ha Hl IH]; [constructor|]. cbn. apply NoDup_app. split_and!; [done| |done].
  intros j Hj (b & Hb & Hin)%list_elem_of_bind. by rewrite (Hd a b j) in Ha.
Qed.

#[export] Instance by_number_trans : Transitive by_number.
Proof. intros a b c. unfold by_number. lia. Qed.
#[export] Instance by_number_total : Total by_number.
Proof. intros a b. unfold by_number. lia. Qed.

Definition numbers (accs : list Account) : list Z := acc_AccountNumber <$> accs.

(** Sanitizing genesis accounts.  The accounts that come out are those
    that went in, apart from their numbers, in the order of their numbers,
    which are pairwise distinct; accounts whose numbers were distinct already
    are only sorted. *)
Theorem sanitize_spec accs : let out := SanitizeGenesisAccounts accs in
  (unnumbered <$> out) ≡ₚ (unnumbered <$> accs) /\ StronglySorted Z.lt (numbers out) /\
  (NoDup (numbers accs) -> out = merge_sort by_number accs).
Proof.
  cbv zeta. unfold SanitizeGenesisAccounts. pose proof (scan_numbers_spec accs 0 accs ∅ ∅ eq_refl) as Hs.
  destruct (scan_numbers 0 accs ∅ ∅) as [seen dup]. specialize (Hs ltac:(split; [intros; lia|intros; lia|intros ? ? []%elem_of_nil|intros; constructor|set_solver|intros ? ? []%elem_of_nil])).
  set (nums := merge_sort Z.le (elements (dom dup))). set (idxs := nums ≫= fun num => default [] (dup !! num)).
  assert (forall j, j ∈ idxs <-> exists m, j ∈ dups dup m) as Hidx.
  { intros j. unfold idxs. rewrite list_elem_of_bind. split; [intros (m & Hj & _); by exists m|]. intros (m & Hj). exists m. split; [done|].
    unfold nums. rewrite (merge_sort_Permutation Z.le), elem_of_elements, elem_of_dom. unfold dups in Hj. destruct (dup !! m); [done|by apply elem_of_nil in Hj]. }
  assert (NoDup idxs) as Hnd.
  { apply NoDup_mbind_disjoint; [unfold nums; rewrite (merge_sort_Permutation Z.le); apply NoDup_elements|apply (sc_nodup _ _ _ _ Hs)|].
    intros a b j [_ Ha]%(sc_dup _ _ _ _ Hs) [_ Hb]%(sc_dup _ _ _ _ Hs). congruence. }
  assert (forall j n, number_at accs j = Some n -> (j < length accs)%nat) as Hlt.
  { intros j n. unfold number_at. destruct (accs !! j) eqn:E; [|done]. intros _. by eapply lookup_lt_Some. }
  assert (settled idxs seen accs) as Hset.
  { split.
    - intros j n Hj Hn. apply (sc_seen _ _ _ _ Hs j); [by eapply Hlt| |done]. intros m Hm. apply Hj, Hidx. eauto.
    - intros j k n Hj Hk Hnj Hnk. apply (sc_inj _ _ _ _ Hs j k n); [by eapply Hlt|by eapply Hlt| | |done|done]; intros m Hm; [apply Hj|apply Hk]; apply Hidx; eauto. }
  destruct (renumber_spec idxs 0 seen accs Hnd Hset) as (H1 & H2 & H3). set (out := renumber idxs 0 seen accs) in *. split_and!.
  - rewrite (merge_sort_Permutation by_number). by rewrite H2.
  - pose proof (StronglySorted_merge_sort by_number out) as Hsort.
    assert (NoDup (numbers (merge_sort by_number out))) as Hn by (unfold numbers; rewrite (merge_sort_Permutation by_number); done).
    revert Hsort Hn. generalize (merge_sort by_number out). clear. intros l Hsort. induction Hsort as [|a l Hsort IH Hf]; intros Hn; [constructor|].
    cbn in Hn |- *. apply NoDup_cons in Hn as [Ha Hn]. constructor; [by apply IH|]. apply Forall_fmap. rewrite Forall_forall in Hf |- *. intros b Hb. cbn.
    specialize (Hf b Hb). unfold by_number in Hf. destruct (Z.eq_dec (acc_AccountNumber a) (acc_AccountNumber b)) as [E|]; [|lia].
    destruct Ha. rewrite E. by apply list_elem_of_fmap_2.
  - intros Hn. assert (idxs = []) as Ei; [|unfold out; by rewrite Ei].
    destruct idxs as [|j idxs'] eqn:E; [done|]. exfalso. destruct (proj1 (Hidx j) ltac:(left)) as (m & Hm).
    destruct (sc_dup _ _ _ _ Hs _ _ Hm) as [_ Hj]. destruct (sc_earlier _ _ _ _ Hs _ _ Hm) as (k & Hk & Hkm).
    unfold number_at in Hj, Hkm. rewrite <- list_lookup_fmap in Hj, Hkm. pose proof (NoDup_lookup _ _ _ _ Hn Hj Hkm). lia.
Qed.

(** *** Genesis round trip *)

Definition set_global (g : Z) (s : AuthState) : AuthState := mkAuthState (as_params s) (as_accounts s) (as_by_number s) (Some g).

Lemma bump_spec fuel last n s : next_number s = (match last with None => 0 | Some l => l + 1 end) -> 0 <= next_number s <= n -> n + 1 < two64 ->
  (n - next_number s < Z.of_nat fuel) -> bump fuel last n s = (Ok (Some n), set_global (n + 1) s).
Proof.
  revert last s. induction fuel as [|fuel IH]; intros last s Hl Hn Hb Hf; [lia|].
  assert (match last with None => true | Some l => l <? n end = true) as Ec by (destruct last as [l|]; [apply Z.ltb_lt; lia|done]).
  assert (NextAccountNumber s = (Ok (next_number s), set_global (next_number s + 1) s)) as En.
  { change (NextAccountNumber s) with (Ok (next_number s), set_global (wrap_u64 (next_number s + 1)) s). by rewrite wrap_u64_id by lia. }
  cbn [bump]. rewrite Ec, (bind_run _ _ _ _ _ En). destruct (Z.eq_dec (next_number s) n) as [E|E].
  - rewrite E. destruct fuel; cbn [bump]; by rewrite Z.ltb_irrefl.
  - rewrite (IH (Some (next_number s)) (set_global (next_number s + 1) s)); [done|done|cbn; lia|done|cbn; lia].
Qed.

Lemma SetAccount_fresh s acc : auth_wf s -> as_accounts s !! acc_Address acc = None -> 0 <= acc_AccountNumber acc < next_number s ->
  as_by_number s !! acc_AccountNumber acc = None -> auth_wf (snd (SetAccount acc s)).
Proof.
  intros Hwf Ha Hn Hb. unfold SetAccount, modify. cbn [snd]. split; unfold next_number in *; cbn [as_accounts as_by_number as_global].
  - intros b acc' [[<- <-]|[? Hb']]%lookup_insert_Some; [done|by apply (wf_address s Hwf)].
  - intros b acc' [[<- <-]|[Hne Hb']]%lookup_insert_Some; [by rewrite lookup_insert_eq|].
    destruct (wf_number s Hwf _ _ Hb') as [Hr Hby]. split; [done|]. rewrite lookup_insert_ne by congruence. done.
  - intros n b [[<- <-]|[Hne Hb']]%lookup_insert_Some; [eexists; by rewrite lookup_insert_eq|].
    destruct (wf_by_number s Hwf _ _ Hb') as (acc' & Hb2 & E). exists acc'. rewrite lookup_insert_ne by congruence. done.
  - apply (wf_next s Hwf).
Qed.

Lemma auth_wf_global s g : auth_wf s -> next_number s <= g -> auth_wf (set_global g s).
Proof.
  intros [H1 H2 H3 H4] Hg. split; [done| |done|cbn; lia]. intros a acc Ha. destruct (H2 a acc Ha). split; [cbn; lia|done].
Qed.

Lemma init_accounts_spec l last s : auth_wf s -> next_number s = (match last with None => 0 | Some n => n + 1 end) ->
  StronglySorted Z.lt (numbers l) -> NoDup (acc_Address <$> l) ->
  Forall (fun acc => next_number s <= acc_AccountNumber acc < two64 - 1 /\ as_accounts s !! acc_Address acc = None) l ->
  exists s', init_accounts last l s = (Ok tt, s') /\ auth_wf s' /\ as_params s' = as_params s /\ next_number s <= next_number s' /\
    (forall g, next_number s <= g -> Forall (fun acc => acc_AccountNumber acc < g) l -> next_number s' <= g) /\
    forall a acc, as_accounts s' !! a = Some acc <-> as_accounts s !! a = Some acc \/ (acc ∈ l /\ acc_Address acc = a).
Proof.
  revert last s. induction l as [|acc l IH]; intros last s Hwf Hlast Hsort Hnd Hall; cbn [init_accounts].
  - exists s. split_and!; try done. intros a acc. rewrite elem_of_nil. naive_solver.
  - apply Forall_cons in Hall as [[Hn Hfree] Hall]. cbn in Hsort, Hnd. apply StronglySorted_cons in Hsort as [Hlt Hsort]. apply NoDup_cons in Hnd as [Hna Hnd].
    pose proof (wf_next s Hwf) as Hpos. set (n := acc_AccountNumber acc) in *.
    rewrite (bind_run _ _ _ _ _ (bump_spec (S (Z.to_nat n)) last n s Hlast ltac:(lia) ltac:(unfold two64 in *; lia) ltac:(lia))).
    set (s1 := set_global (n + 1) s). assert (auth_wf s1) as Hwf1 by (apply auth_wf_global; [done|lia]).
    assert (auth_wf (snd (SetAccount acc s1))) as Hwf2.
    { apply SetAccount_fresh; [done|done|cbn; fold n; lia|]. fold n. destruct (as_by_number s1 !! n) as [b|] eqn:Eb; [|done].
      destruct (wf_by_number s Hwf _ _ Eb) as (acc' & Hb & E). pose proof (wf_number s Hwf _ _ Hb). lia. }
    erewrite bind_run by reflexivity. change (mkAuthState _ _ _ _) with (snd (SetAccount acc s1)). set (s2 := snd (SetAccount acc s1)) in *.
    assert (next_number s2 = n + 1) as E2 by done.
    destruct (IH (Some n) s2 Hwf2 E2 Hsort Hnd) as (s' & E & Hwf' & Ep & Hge & Hle & Hl).
    { rewrite Forall_fmap in Hlt. rewrite Forall_forall in Hall, Hlt |- *. intros acc' Hin. destruct (Hall acc' Hin) as [? Hf]. specialize (Hlt acc' Hin). cbn in Hlt.
      rewrite E2. split; [lia|]. unfold s2. cbn. rewrite lookup_insert_ne; [done|]. intros Ea. apply Hna. rewrite Ea. by apply list_elem_of_fmap_2. }
    exists s'. split_and!; [exact E|done|by rewrite Ep|lia| |].
    + intros g Hg [Hg1 Hg2]%Forall_cons. apply Hle; [rewrite E2; fold n in Hg1; lia|done].
    + intros a acc'. rewrite Hl. unfold s2. cbn. rewrite lookup_insert_Some, elem_of_cons. split.
      * intros [[[<- <-]|[_ ?]]|[? ?]]; [right; split; [by left|done]|by left|right; split; [by right|done]].
      * intros [Ha|[[->|Hin] Ea]]; [|by left; left|by right]. left. destruct (decide (acc_Address acc = a)) as [<-|]; [|by right]. congruence.
Qed.

(** The genesis of x/auth.  Exporting a well-formed store whose fee
    collector exists and importing it into an empty store succeeds and
    restores the parameters, every account with its number, key and sequence,
    and the index by number; the next number is above all of them and not above
    the old one. *)
Theorem auth_genesis_roundtrip permAddrs s params fc perms acc name ps : auth_wf s -> next_number s < two64 ->
  as_params s = Some params -> AuthParams_Validate params = Ok tt ->
  permAddrs !! FeeCollectorName = Some (fc, perms) -> as_accounts s !! fc = Some acc -> acc_kind acc = ModuleAccount name ps ->
  exists g s', Auth_ExportGenesis s = (Ok g, s) /\ Auth_InitGenesis permAddrs g (mkAuthState None ∅ ∅ None) = (Ok tt, s') /\
    as_params s' = as_params s /\ as_accounts s' = as_accounts s /\ as_by_number s' = as_by_number s /\
    auth_wf s' /\ next_number s' <= next_number s.
Proof.
  intros Hwf Hb Hp Hv Hperm Hfc Hkind. unfold Auth_ExportGenesis, GetParams, GetAllAccounts. set (l := snd <$> merge_sort key_le (map_to_list (as_accounts s))).
  exists (mkAuthGenesis params l). assert (forall a, a ∈ l <-> as_accounts s !! acc_Address a = Some a) as Hl.
  { intros a. unfold l. rewrite list_elem_of_fmap. split.
    - intros ([k v] & -> & Hin). rewrite (merge_sort_Permutation key_le), elem_of_map_to_list in Hin. cbn. by rewrite (wf_address s Hwf _ _ Hin).
    - intros Ha. exists (acc_Address a, a). split; [done|]. by rewrite (merge_sort_Permutation key_le), elem_of_map_to_list. }
  assert (NoDup l) as Hnd.
  { unfold l. rewrite (merge_sort_Permutation key_le). apply NoDup_fmap_2_strong; [|apply NoDup_map_to_list].
    intros [k v] [k' v'] H1%elem_of_map_to_list H2%elem_of_map_to_list E. cbn in E. subst v'. f_equal. by rewrite <- (wf_address s Hwf _ _ H1), <- (wf_address s Hwf _ _ H2). }
  assert (NoDup (numbers l)) as Hnum.
  { apply NoDup_fmap_2_strong; [|done]. intros a b Ha%Hl Hb'%Hl E. pose proof (auth_wf_unique s _ _ _ _ Hwf Ha Hb' E) as Ea. congruence. }
  assert (NoDup (acc_Address <$> l)) as Haddr by (apply NoDup_fmap_2_strong; [|done]; intros a b Ha%Hl Hb'%Hl E; congruence).
  destruct (sanitize_spec l) as (_ & Hsort & Hsame). specialize (Hsame Hnum). set (out := SanitizeGenesisAccounts l) in *.
  assert (out ≡ₚ l) as Hperml by (rewrite Hsame; apply (merge_sort_Permutation by_number)).
  destruct (init_accounts_spec out None (mkAuthState (Some params) ∅ ∅ None)) as (s' & E & Hwf' & Ep & _ & Hle & Hall).
  - split; cbn [as_accounts as_by_number]; [by intros ? ? ?%lookup_empty_Some..|done].
  - done.
  - done.
  - by rewrite Hperml.
  - apply Forall_forall. intros a Ha. rewrite Hperml in Ha. apply Hl in Ha. pose proof (wf_number s Hwf _ _ Ha). split; [change (0 <= acc_AccountNumber a < two64 - 1); lia|apply lookup_empty].
  - assert (as_accounts s' = as_accounts s) as Eacc.
    { apply map_eq. intros a. apply option_eq. intros acc'. rewrite Hall, Hperml, Hl. cbn [as_accounts]. split; [by intros [?%lookup_empty_Some|[? <-]]|].
      intros Ha. right. by rewrite (wf_address s Hwf _ _ Ha). }
    exists s'. split_and!; [|..|].
    + unfold bind, reads, ret. by rewrite Hp.
    + unfold Auth_InitGenesis. cbn [gen_Params gen_Accounts]. rewrite Hv. unfold SetParams. rewrite Hv. erewrite bind_run by reflexivity. cbn [as_accounts as_by_number as_global].
      fold out. rewrite (bind_run _ _ _ _ _ E). unfold GetModuleAccount, GetModuleAccountAndPermissions. rewrite Hperm. unfold GetAccount.
      unfold bind, reads. rewrite Eacc, Hfc, Hkind. done.
    + by rewrite Ep, Hp.
    + done.
    + apply map_eq. intros n. apply option_eq. intros a. split.
      * intros (acc' & Ha & <-)%(wf_by_number s' Hwf'). rewrite Eacc in Ha. by apply (wf_number s Hwf).
      * intros (acc' & Ha & <-)%(wf_by_number s Hwf). rewrite <- Eacc in Ha. by apply (wf_number s' Hwf').
    + done.
    + apply Hle; [apply (wf_next s Hwf)|]. apply Forall_forall. intros a Ha. rewrite Hperml in Ha. apply Hl in Ha. by apply (wf_number s Hwf _ _ Ha).
Qed.

Module auth_toy.

(** Addresses and signatures one can write down. *)
#[export] Instance toy_keys : KeyLib := {|
  PubKey_Address pk := match pk with Ed25519 k | Secp256k1 k | Secp256r1 k | Dilithium5 k | OtherKey k => k | Multisig _ _ => "multisig" end;
  lib_VerifySignature pk msg sig := bool_decide (sig = match pk with Ed25519 k | Secp256k1 k | Secp256r1 k | Dilithium5 k | OtherKey k => k | Multisig _ _ => "multisig" end +:+ ":" +:+ msg);
|}.

Definition two_of_three : PubKey := Multisig 2 [Secp256k1 "a"; Secp256k1 "b"; Dilithium5 "c"].

Lemma multisig_spec_witness :
  VerifySignature (fun _ => Ok "m") two_of_three (MultiSignatureData (Some (mkBitArray 3 [160]))
    [SingleSignatureData SIGN_MODE_DIRECT "a:m"; SingleSignatureData SIGN_MODE_DIRECT "c:m"]) = Ok tt /\
  VerifySignature (fun _ => Ok "m") two_of_three (MultiSignatureData (Some (mkBitArray 3 [160]))
    [SingleSignatureData SIGN_MODE_DIRECT "a:m"; SingleSignatureData SIGN_MODE_DIRECT "b:m"]) <> Ok tt.
Proof.
  assert (Forall (fun e => 0 <= e < 256) (Elems (mkBitArray 3 [160]))) as Hb by (constructor; [lia|constructor]).
  assert (bitarray_ok (mkBitArray 3 [160])) as Ha by (split; [cbn; lia|done]).
  assert (members 0 (bits_of (mkBitArray 3 [160])) = [0; 2]%nat) as Hm by reflexivity.
  split.
  - apply (multisig_spec (fun _ => Ok "m") 2 _ _ _ Hb). rewrite Hm. split_and!; [exact Ha|reflexivity|cbn; lia|cbn; lia|cbn; lia|].
    intros [|[|j]] m; [intros [= <-]; do 2 eexists; split_and!; reflexivity..|done].
  - intros E. apply (multisig_spec (fun _ => Ok "m") 2 _ _ _ Hb) in E as (_ & _ & _ & _ & Hall). rewrite Hm in Hall.
    destruct (Hall 1%nat 2%nat eq_refl) as (key & s & Ek & Es & E). cbn in Ek, Es. injection Ek as <-. injection Es as <-. vm_compute in E. discriminate E.
Defined.

Definition perms : gmap string (string * list string) := {[ "fee_collector" := ("fees", []) ]}.
Definition fee_acc : Account := mkAccount "fees" None 0 0 (ModuleAccount "fee_collector" []).
Definition alice : Account := mkAccount "alice" (Some (Dilithium5 "alice")) 2 5 BaseAccount.
Definition store : AuthState := mkAuthState (Some DefaultAuthParams) (<["alice" := alice]> {[ "fees" := fee_acc ]}) (<[2 := "alice"]> {[ 0 := "fees" ]}) (Some 7).

Lemma store_wf : auth_wf store.
Proof.
  split; cbn [as_accounts as_by_number store].
  - intros a acc [[<- <-]|[_ [<- <-]%lookup_singleton_Some]]%lookup_insert_Some; reflexivity.
  - intros a acc [[<- <-]|[_ [<- <-]%lookup_singleton_Some]]%lookup_insert_Some; (split; [cbn; lia|reflexivity]).
  - intros n a [[<- <-]|[_ [<- <-]%lookup_singleton_Some]]%lookup_insert_Some; [exists alice|exists fee_acc]; split; reflexivity.
  - cbn. lia.
Qed.

Lemma auth_genesis_roundtrip_witness : exists g s', Auth_ExportGenesis store = (Ok g, store) /\
  Auth_InitGenesis perms g (mkAuthState None ∅ ∅ None) = (Ok tt, s') /\ as_accounts s' = as_accounts store /\ next_number s' <= 7.
Proof.
  destruct (auth_genesis_roundtrip perms store DefaultAuthParams "fees" [] fee_acc "fee_collector" [] store_wf) as (g & s' & E1 & E2 & _ & E3 & _ & _ & Hn);
    [cbn; unfold two64; lia|reflexivity..|].
  exists g, s'. split_and!; [exact E1|exact E2|exact E3|exact Hn].
Defined.

(** Bob gets an account, it is removed, and he gets another one. *)
Definition with_bob : AuthState := snd ((let! acc := NewAccountWithAddress "bob" in SetAccount acc ;;! ret acc) store).
Definition without_bob : AuthState := snd (RemoveAccount (SetAccountNumber (NewBaseAccountWithAddress "bob") 7) with_bob).
Definition bob_again : AuthState :=
  snd ((let! acc := NewAccount (NewBaseAccountWithAddress "bob") in SetAccount (with_vesting acc vesting.toyvest.year)) without_bob).

Lemma account_numbers_witness : auth_steps perms 3 {[ "bob" ]} store bob_again /\ auth_wf bob_again /\
  exists acc, as_accounts bob_again !! "bob" = Some acc /\ acc_AccountNumber acc = 8.
Proof.
  assert (auth_steps perms 3 (∅ ∪ ({[ "bob" ]} ∪ (∅ ∪ ∅))) store bob_again) as Hs.
  { eapply (steps_cons _ _ _ _ _ with_bob); [by eapply (step_new perms "bob"); reflexivity|].
    eapply (steps_cons _ _ _ _ _ without_bob); [by eapply (step_remove perms "bob"); reflexivity|].
    eapply (steps_cons _ _ _ _ _ bob_again); [by eapply (step_vesting perms "bob" vesting.toyvest.year); reflexivity|]. apply steps_nil. }
  assert (∅ ∪ ({[ "bob" ]} ∪ (∅ ∪ ∅)) = ({[ "bob" ]} : gset string)) as E by set_solver. rewrite E in Hs.
  split; [exact Hs|]. destruct (account_numbers perms 3 {[ "bob" ]} store _ Hs store_wf) as [Hwf _]; [cbn; unfold two64; lia|].
  split; [exact Hwf|]. eexists. split; reflexivity.
Defined.
End auth_toy.
