(* ===== verification/BankStore.v ===== *)
(** BankStore: cosmos-sdk/x/bank over the account keeper.

    The store of the bank has six parts, one for each prefix of types/keys.go;
    a part maps what follows the prefix to the decoded value.  Balances are
    under the length-prefixed address and the denomination, the owners of a
    denomination under it, a zero byte and the length-prefixed address.  The
    accounts are those of Auth.v with their vesting schedules, so what is
    locked is computed from the account and the block time.  The functions are
    those of keeper/view.go, send.go, keeper.go and msg_server.go and of
    types/keys.go, events.go, msgs.go and params.go, under their names.

    Amounts in the old format of balances are not modelled; logging and
    telemetry are left out. *)

From Stdlib Require Import ZArith Lia Ascii String.
From stdpp Require Import base gmap sets list strings fin_maps sorting pretty.
From S2P Require Import Prelude Sdk Wire KVStore Coins StoreKeys Vesting Auth.

Open Scope Z_scope.
Open Scope go_scope.

Module bank.

(** ** types/errors.go *)

Definition ErrNoInputs : err := Registered "bank" 2.
Definition ErrNoOutputs : err := Registered "bank" 3.
Definition ErrInputOutputMismatch : err := Registered "bank" 4.
Definition ErrSendDisabled : err := Registered "bank" 5.
Definition ErrInvalidKey : err := Registered "bank" 7.
Definition ErrMultipleSenders : err := Registered "bank" 9.

Definition ErrUnauthorized : err := Registered "sdk" 4.
Definition ErrInsufficientFunds : err := Registered "sdk" 5.
Definition ErrInvalidAddress : err := Registered "sdk" 7.
Definition ErrUnknownAddress : err := Registered "sdk" 9.
Definition ErrInvalidCoins : err := Registered "sdk" 10.
Definition ErrInvalidRequest : err := Registered "sdk" 18.
Definition ErrInvalidSigner : err := Registered "gov" 13.

(** ** Data (types/bank.pb.go, params.go) *)

Record SendEnabled : Type := mkSendEnabled { se_Denom : string; se_Enabled : bool }.

Record Params : Type := mkParams { p_SendEnabled : list SendEnabled; DefaultSendEnabled : bool }.
Definition NewParams (defaultSendEnabled : bool) : Params := mkParams [] defaultSendEnabled.
Definition DefaultParams : Params := NewParams true.

Record DenomUnit : Type := mkDenomUnit { du_Denom : string; du_Exponent : Z; du_Aliases : list string }.
Record Metadata : Type := mkMetadata {
  md_Description : string;
  md_DenomUnits : list DenomUnit;
  md_Base : string;
  md_Display : string;
  md_Name : string;
  md_Symbol : string;
  md_URI : string;
  md_URIHash : string;
}.

(** ** Keys (types/keys.go) *)

(** After BalancesPrefix. *)
Definition CreateAccountBalancesPrefix (addr : string) : outcome string := MustLengthPrefix addr.
(** After DenomAddressPrefix. *)
Definition CreateDenomAddressPrefix (denom : string) : string := denom +:+ String Ascii.zero "".

Definition AddressAndDenomFromBalancesStore (key : string) : outcome (string * string) :=
  match key with
  | "" => Err ErrInvalidKey
  | String c rest =>
      let addrBound := nat_of_ascii c in
      if Nat.ltb (String.length rest) addrBound then Err ErrInvalidKey else
      Ok (str_take addrBound rest, str_drop addrBound rest)
  end.

(** ** The state *)

Record State : Type := mkState {
  b_auth : AuthState;
  b_balances : gmap string Z;
  b_owners : gset string;
  b_supply : gmap string Z;
  b_metadata : gmap string Metadata;
  b_send_enabled : gmap string bool;
  b_params : option Params;
  b_events : list Event;
}.

Definition set_auth (a : AuthState) (s : State) : State := mkState a (b_balances s) (b_owners s) (b_supply s) (b_metadata s) (b_send_enabled s) (b_params s) (b_events s).
Definition set_balances (m : gmap string Z) (o : gset string) (s : State) : State := mkState (b_auth s) m o (b_supply s) (b_metadata s) (b_send_enabled s) (b_params s) (b_events s).
Definition set_supply (m : gmap string Z) (s : State) : State := mkState (b_auth s) (b_balances s) (b_owners s) m (b_metadata s) (b_send_enabled s) (b_params s) (b_events s).
Definition set_metadata (m : gmap string Metadata) (s : State) : State := mkState (b_auth s) (b_balances s) (b_owners s) (b_supply s) m (b_send_enabled s) (b_params s) (b_events s).
Definition set_send_enabled (m : gmap string bool) (s : State) : State := mkState (b_auth s) (b_balances s) (b_owners s) (b_supply s) (b_metadata s) m (b_params s) (b_events s).
Definition set_params (p : Params) (s : State) : State := mkState (b_auth s) (b_balances s) (b_owners s) (b_supply s) (b_metadata s) (b_send_enabled s) (Some p) (b_events s).
Definition set_events (e : list Event) (s : State) : State := mkState (b_auth s) (b_balances s) (b_owners s) (b_supply s) (b_metadata s) (b_send_enabled s) (b_params s) e.

(** A call of the account keeper. *)
Definition on_auth {A} (c : M AuthState A) : M State A := fun s => let '(r, a) := c (b_auth s) in (r, set_auth a s).

Definition EmitEvents (evs : list Event) : M State unit := modify (fun s => set_events (b_events s ++ evs) s).
Definition EmitEvent (ev : Event) : M State unit := EmitEvents [ev].

(** What NewBaseKeeper is given: the module accounts of the account keeper, the
    blocked addresses (as bech32 text), the authority, and the restriction of
    WithMintCoinsRestriction, which is not used by default. *)
Record Keeper : Type := mkKeeper {
  permAddrs : gmap string (string * list string);
  blockedAddrs : gset string;
  authority : string;
  mintCoinsRestrictionFn : Ctx -> Coins -> option err;
}.

Definition NewBaseKeeper (permAddrs : gmap string (string * list string)) (blockedAddrs : gset string) (authority : string) : Keeper :=
  mkKeeper permAddrs blockedAddrs authority (fun _ _ => None).

Definition WithMintCoinsRestriction (check : Ctx -> Coins -> option err) (k : Keeper) : Keeper :=
  let oldRestrictionFn := mintCoinsRestrictionFn k in
  mkKeeper (permAddrs k) (blockedAddrs k) (authority k)
    (fun ctx coins => match check ctx coins with Some e => Some e | None => oldRestrictionFn ctx coins end).

(** ** keeper/view.go *)

Section View.
Context `{SdkMath} `{SdkDecRound}.

(** UnmarshalBalanceCompat of the stored amount, or of none. *)
Definition UnmarshalBalanceCompat (bz : option Z) (denom : string) : outcome Coin :=
  if negb (ValidateDenom denom) then Err (Errorf "invalid denom") else
  o_panic (NewCoin denom (default 0 bz)).

Definition no_err {A} (o : outcome A) : outcome A := match o with Err _ => Panic | _ => o end.

Definition GetBalance (addr denom : string) : M State Coin :=
  let! accountStore := lift (CreateAccountBalancesPrefix addr) in
  let! bz := reads (fun s => b_balances s !! (accountStore +:+ denom)) in
  lift (no_err (UnmarshalBalanceCompat bz denom)).

Definition HasBalance (addr : string) (amt : Coin) : M State bool :=
  let! balance := GetBalance addr (Denom amt) in
  lift (Coin_IsGTE balance amt).

(** IterateAccountBalances: the balances in the order of the store. *)
Fixpoint account_balances (n : nat) (l : list (string * Z)) : outcome (list Coin) :=
  match l with
  | [] => Ok []
  | (key, value) :: l =>
      let* balance := no_err (UnmarshalBalanceCompat (Some value) (str_drop n key)) in
      let* rest := account_balances n l in
      Ok (balance :: rest)
  end.
Definition IterateAccountBalances (addr : string) : M State (list Coin) :=
  let! accountStore := lift (CreateAccountBalancesPrefix addr) in
  let! l := reads (fun s => kv_prefix_iter accountStore (b_balances s)) in
  lift (account_balances (String.length accountStore) l).

Fixpoint add_each (balances : Coins) (l : list Coin) : outcome Coins :=
  match l with
  | [] => Ok balances
  | balance :: l => let* balances := Coins_Add balances [balance] in add_each balances l
  end.

Definition GetAllBalances (addr : string) : M State Coins :=
  let! l := IterateAccountBalances addr in
  let! balances := lift (add_each [] l) in
  ret (Coins_Sort balances).

(** IterateAllBalances: owners and balances in the order of the store. *)
Fixpoint all_balances (l : list (string * Z)) : outcome (list (string * Coin)) :=
  match l with
  | [] => Ok []
  | (key, value) :: l =>
      let* p := no_err (AddressAndDenomFromBalancesStore key) in
      let* balance := no_err (UnmarshalBalanceCompat (Some value) (snd p)) in
      let* rest := all_balances l in
      Ok ((fst p, balance) :: rest)
  end.
Definition IterateAllBalances : M State (list (string * Coin)) :=
  let! l := reads (fun s => kv_prefix_iter "" (b_balances s)) in
  lift (all_balances l).

Definition LockedCoins (ctx : Ctx) (addr : string) : M State Coins :=
  let! acc := on_auth (GetAccount addr) in
  match acc with
  | Some acc => match acc_kind acc with VestingAccount va => lift (vesting.LockedCoins (BlockTime ctx) va) | _ => ret [] end
  | None => ret []
  end.

(** spendableCoins, with the total. *)
Definition spendableCoins (ctx : Ctx) (addr : string) : M State (Coins * Coins) :=
  let! total := GetAllBalances addr in
  let! locked := LockedCoins ctx addr in
  let! r := lift (Coins_SafeSub total locked) in
  let '(spendable, hasNeg) := r in
  ret (if hasNeg then [] else spendable, total).

Definition SpendableCoins (ctx : Ctx) (addr : string) : M State Coins :=
  let! r := spendableCoins ctx addr in ret (fst r).

Definition SpendableCoin (ctx : Ctx) (addr denom : string) : M State Coin :=
  let! balance := GetBalance addr denom in
  let! locked := LockedCoins ctx addr in
  let! a := lift (AmountOf locked denom) in
  lift (Coin_SubAmount balance a).

Definition ValidateBalance (addr : string) : M State unit :=
  let! acc := on_auth (GetAccount addr) in
  match acc with
  | None => throw (Wrapf "account does not exist" ErrUnknownAddress)
  | Some acc =>
      let! balances := GetAllBalances addr in
      if negb (Coins_Validate balances) then throw (Errorf "account balance is invalid") else
      match acc_kind acc with
      | VestingAccount va =>
          let! gt := lift (IsAnyGT (vesting.OriginalVesting (vesting.base va)) balances) in
          if gt : bool then throw (Errorf "vesting amount cannot be greater than total amount") else ret tt
      | _ => ret tt
      end
  end.
End View.

(** ** types/events.go *)

Section Events.
Context `{Bech32}.

Definition coins_event (ty key addr : string) (amount : Coins) : Event :=
  NewEvent ty [(key, AStr (AccAddress_String addr)); ("amount", AStr (Coins_String amount))].
Definition NewCoinSpentEvent : string -> Coins -> Event := coins_event "coin_spent" "spender".
Definition NewCoinReceivedEvent : string -> Coins -> Event := coins_event "coin_received" "receiver".
Definition NewCoinMintEvent : string -> Coins -> Event := coins_event "coinbase" "minter".
Definition NewCoinBurnEvent : string -> Coins -> Event := coins_event "burn" "burner".
End Events.

(** ** keeper/send.go *)

(** Inputs and outputs of MsgMultiSend (types/bank.pb.go). *)
Record InOut : Type := mkInOut { io_Address : string; io_Coins : Coins }.

Section Send.
Context `{SdkMath} `{SdkDecRound} `{Bech32} (k : Keeper).

Definition GetParams : M State Params := reads (fun s => default (mkParams [] false) (b_params s)).

Definition setSendEnabledEntry (denom : string) (value : bool) : M State unit :=
  modify (fun s => set_send_enabled (<[denom := value]> (b_send_enabled s)) s).
Definition SetSendEnabled (denom : string) (value : bool) : M State unit := setSendEnabledEntry denom value.
Definition SetAllSendEnabled (entries : list SendEnabled) : M State unit :=
  for_each entries (fun entry => setSendEnabledEntry (se_Denom entry) (se_Enabled entry)).
Definition DeleteSendEnabled (denoms : list string) : M State unit :=
  for_each denoms (fun denom => modify (fun s => set_send_enabled (delete denom (b_send_enabled s)) s)).
Definition GetAllSendEnabledEntries : M State (list SendEnabled) :=
  reads (fun s => (fun e => mkSendEnabled e.1 e.2) <$> kv_prefix_iter "" (b_send_enabled s)).

Definition SetParams (params : Params) : M State unit :=
  match p_SendEnabled params with
  | [] => modify (set_params params)
  | entries => SetAllSendEnabled entries ;;! modify (set_params (NewParams (DefaultSendEnabled params)))
  end.

Definition getSendEnabled (denom : string) : M State (bool * bool) :=
  reads (fun s => match b_send_enabled s !! denom with Some enabled => (enabled, true) | None => (false, false) end).
Definition getSendEnabledOrDefault (denom : string) (defaultVal : bool) : M State bool :=
  let! r := getSendEnabled denom in ret (if snd r then fst r else defaultVal).
Definition GetSendEnabledEntry (denom : string) : M State (SendEnabled * bool) :=
  let! r := getSendEnabled denom in
  ret (if snd r then (mkSendEnabled denom (fst r), true) else (mkSendEnabled "" false, false)).
Definition IsSendEnabledDenom (denom : string) : M State bool :=
  let! p := GetParams in getSendEnabledOrDefault denom (DefaultSendEnabled p).
Definition IsSendEnabledCoin (coin : Coin) : M State bool := IsSendEnabledDenom (Denom coin).
Definition IsSendEnabledCoins (coins : Coins) : M State unit :=
  match coins with
  | [] => ret tt
  | _ =>
      let! p := GetParams in
      for_each coins (fun coin =>
        let! enabled := getSendEnabledOrDefault (Denom coin) (DefaultSendEnabled p) in
        if enabled : bool then ret tt else throw (Wrapf "transfers are currently disabled" ErrSendDisabled))
  end.

Definition BlockedAddr (addr : string) : bool := bool_decide (AccAddress_String addr ∈ blockedAddrs k).

(** The key of the index by denomination. *)
Definition owner_key (denom addr : string) : outcome string :=
  let* denomAddrKey := MustLengthPrefix addr in Ok (CreateDenomAddressPrefix denom +:+ denomAddrKey).

Definition setBalance (addr : string) (balance : Coin) : M State unit :=
  if negb (Coin_IsValid balance) then throw (Wrapf "" ErrInvalidCoins) else
  let! accountStore := lift (CreateAccountBalancesPrefix addr) in
  let! ok := lift (owner_key (Denom balance) addr) in
  modify (fun s =>
    if Coin_IsZero balance then set_balances (delete (accountStore +:+ Denom balance) (b_balances s)) (b_owners s ∖ {[ok]}) s
    else set_balances (<[accountStore +:+ Denom balance := Amount balance]> (b_balances s)) ({[ok]} ∪ b_owners s) s).

(** initBalances: zero coins are skipped, old balances are not removed. *)
Definition initBalance (addr : string) (balance : Coin) : M State unit :=
  if negb (Coin_IsValid balance) then throw (Wrapf "" ErrInvalidCoins) else
  if Coin_IsZero balance then ret tt else setBalance addr balance.
Definition initBalances (addr : string) (balances : Coins) : M State unit :=
  let! _ := lift (CreateAccountBalancesPrefix addr) in
  for_each balances (initBalance addr).

Definition subUnlockedCoin (addr : string) (lockedCoins : Coins) (coin : Coin) : M State unit :=
  let! balance := GetBalance addr (Denom coin) in
  let! lockedAmt := lift (AmountOf lockedCoins (Denom coin)) in
  let! locked := lift (o_panic (NewCoin (Denom coin) lockedAmt)) in
  let! r := lift (Coins_SafeSub [balance] [locked]) in
  let '(spendable, hasNeg) := r in
  if hasNeg : bool then throw (Wrapf "locked amount exceeds account balance funds" ErrInsufficientFunds) else
  let! r := lift (Coins_SafeSub spendable [coin]) in
  if snd r : bool then throw (Wrapf "spendable balance is smaller" ErrInsufficientFunds) else
  let! newBalance := lift (Coin_Sub balance coin) in
  setBalance addr newBalance.

Definition subUnlockedCoins (ctx : Ctx) (addr : string) (amt : Coins) : M State unit :=
  if negb (Coins_Validate amt) then throw (Wrapf "" ErrInvalidCoins) else
  let! lockedCoins := LockedCoins ctx addr in
  for_each amt (subUnlockedCoin addr lockedCoins) ;;!
  EmitEvent (NewCoinSpentEvent addr amt).

Definition addCoin (addr : string) (coin : Coin) : M State unit :=
  let! balance := GetBalance addr (Denom coin) in
  let! newBalance := lift (Coin_Add balance coin) in
  setBalance addr newBalance.

Definition addCoins (addr : string) (amt : Coins) : M State unit :=
  if negb (Coins_Validate amt) then throw (Wrapf "" ErrInvalidCoins) else
  for_each amt (addCoin addr) ;;!
  EmitEvent (NewCoinReceivedEvent addr amt).

(** The recipient's account is created if it does not exist. *)
Definition create_account (addr : string) : M State unit :=
  let! accExists := on_auth (HasAccount addr) in
  if accExists : bool then ret tt else
  let! acc := on_auth (NewAccountWithAddress addr) in
  on_auth (SetAccount acc).

Definition SendCoins (ctx : Ctx) (fromAddr toAddr : string) (amt : Coins) : M State unit :=
  subUnlockedCoins ctx fromAddr amt ;;!
  addCoins toAddr amt ;;!
  create_account toAddr ;;!
  EmitEvents [
    NewEvent "transfer" [("recipient", AStr (AccAddress_String toAddr)); ("sender", AStr (AccAddress_String fromAddr)); ("amount", AStr (Coins_String amt))];
    NewEvent "message" [("sender", AStr (AccAddress_String fromAddr))]].

(** *** types/msgs.go: inputs and outputs *)

Definition InOut_ValidateBasic (io : InOut) : outcome unit :=
  match AccAddressFromBech32 (io_Address io) with
  | None => Err (Wrapf "invalid address" ErrInvalidAddress)
  | Some _ =>
      if negb (Coins_Validate (io_Coins io)) then Err (Wrapf "" ErrInvalidCoins) else
      if negb (IsAllPositive (io_Coins io)) then Err (Wrapf "" ErrInvalidCoins) else Ok tt
  end.

Fixpoint total_of (total : Coins) (l : list InOut) : outcome Coins :=
  match l with
  | [] => Ok total
  | io :: l => let* _ := InOut_ValidateBasic io in let* total := Coins_Add total (io_Coins io) in total_of total l
  end.

Definition ValidateInputsOutputs (inputs outputs : list InOut) : outcome unit :=
  let* totalIn := total_of [] inputs in
  let* totalOut := total_of [] outputs in
  let* eq := Coins_IsEqual totalIn totalOut in
  if eq : bool then Ok tt else Err ErrInputOutputMismatch.

Definition from_bech32 (address : string) : M State string :=
  match AccAddressFromBech32 address with Some addr => ret addr | None => throw (Errorf "decoding bech32 failed") end.

Definition process_input (ctx : Ctx) (io : InOut) : M State unit :=
  let! inAddress := from_bech32 (io_Address io) in
  subUnlockedCoins ctx inAddress (io_Coins io) ;;!
  EmitEvent (NewEvent "message" [("sender", AStr (io_Address io))]).

Definition process_output (io : InOut) : M State unit :=
  let! outAddress := from_bech32 (io_Address io) in
  addCoins outAddress (io_Coins io) ;;!
  EmitEvent (NewEvent "transfer" [("recipient", AStr (io_Address io)); ("amount", AStr (Coins_String (io_Coins io)))]) ;;!
  create_account outAddress.

Definition InputOutputCoins (ctx : Ctx) (inputs outputs : list InOut) : M State unit :=
  lift (ValidateInputsOutputs inputs outputs) ;;!
  for_each inputs (process_input ctx) ;;!
  for_each outputs process_output.
End Send.

(** ** keeper/keeper.go *)

Section Keeper.
Context `{SdkMath} `{SdkDecRound} `{Bech32} (k : Keeper).

(** *** Supply and metadata *)

Definition GetSupply (denom : string) : M State Coin := reads (fun s => mkCoin denom (default 0 (b_supply s !! denom))).
Definition HasSupply (denom : string) : M State bool := reads (fun s => bool_decide (b_supply s !! denom <> None)).
Definition setSupply (coin : Coin) : M State unit :=
  modify (fun s => set_supply (if Coin_IsZero coin then delete (Denom coin) (b_supply s) else <[Denom coin := Amount coin]> (b_supply s)) s).

(** IterateTotalSupply. *)
Definition IterateTotalSupply : M State (list Coin) :=
  reads (fun s => (fun kv => mkCoin kv.1 kv.2) <$> kv_prefix_iter "" (b_supply s)).

(** GetPaginatedTotalSupply for a page that holds everything, as in
    ExportGenesis and the invariants. *)
Fixpoint add_supply (supply : Coins) (l : list (string * Z)) : outcome Coins :=
  match l with
  | [] => Ok supply
  | (key, amount) :: l =>
      let* c := o_panic (NewCoin key amount) in
      let* supply := Coins_Add supply [c] in
      add_supply supply l
  end.
Definition GetTotalSupply : M State Coins :=
  let! l := reads (fun s => kv_prefix_iter "" (b_supply s)) in
  lift (add_supply [] l).

Definition GetDenomMetaData (denom : string) : M State (option Metadata) := reads (fun s => b_metadata s !! denom).
Definition HasDenomMetaData (denom : string) : M State bool := reads (fun s => bool_decide (b_metadata s !! denom <> None)).
Definition GetAllDenomMetaData : M State (list Metadata) := reads (fun s => snd <$> kv_prefix_iter "" (b_metadata s)).
Definition SetDenomMetaData (denomMetaData : Metadata) : M State unit :=
  modify (fun s => set_metadata (<[md_Base denomMetaData := denomMetaData]> (b_metadata s)) s).

(** *** Modules *)

Definition module_account (name : string) : M State Account :=
  let! acc := on_auth (GetModuleAccount (permAddrs k) name) in or_panic acc.

(** ModuleAccount.HasPermission. *)
Definition HasPermission (acc : Account) (permission : string) : bool :=
  match acc_kind acc with ModuleAccount _ permissions => bool_decide (permission ∈ permissions) | _ => false end.

Definition SendCoinsFromModuleToAccount (ctx : Ctx) (senderModule recipientAddr : string) (amt : Coins) : M State unit :=
  let! senderAddr := or_panic (GetModuleAddress (permAddrs k) senderModule) in
  if BlockedAddr k recipientAddr then throw (Wrapf "not allowed to receive funds" ErrUnauthorized) else
  SendCoins ctx senderAddr recipientAddr amt.

Definition SendCoinsFromModuleToModule (ctx : Ctx) (senderModule recipientModule : string) (amt : Coins) : M State unit :=
  let! senderAddr := or_panic (GetModuleAddress (permAddrs k) senderModule) in
  let! recipientAcc := module_account recipientModule in
  SendCoins ctx senderAddr (acc_Address recipientAcc) amt.

Definition SendCoinsFromAccountToModule (ctx : Ctx) (senderAddr recipientModule : string) (amt : Coins) : M State unit :=
  let! recipientAcc := module_account recipientModule in
  SendCoins ctx senderAddr (acc_Address recipientAcc) amt.

Definition mint_supply (amount : Coin) : M State unit :=
  let! supply := GetSupply (Denom amount) in
  let! supply := lift (Coin_Add supply amount) in
  setSupply supply.

Definition MintCoins (ctx : Ctx) (moduleName : string) (amounts : Coins) : M State unit :=
  check (mintCoinsRestrictionFn k ctx amounts) ;;!
  let! acc := module_account moduleName in
  if negb (HasPermission acc "minter") then panic else
  addCoins (acc_Address acc) amounts ;;!
  for_each amounts mint_supply ;;!
  EmitEvent (NewCoinMintEvent (acc_Address acc) amounts).

Definition burn_supply (amount : Coin) : M State unit :=
  let! supply := GetSupply (Denom amount) in
  let! supply := lift (Coin_Sub supply amount) in
  setSupply supply.

Definition BurnCoins (ctx : Ctx) (moduleName : string) (amounts : Coins) : M State unit :=
  let! acc := module_account moduleName in
  if negb (HasPermission acc "burner") then panic else
  subUnlockedCoins ctx (acc_Address acc) amounts ;;!
  for_each amounts burn_supply ;;!
  EmitEvent (NewCoinBurnEvent (acc_Address acc) amounts).

(** *** Delegations *)

Definition track (addr : string) (f : vesting.VestingAccount -> outcome vesting.VestingAccount) : M State unit :=
  let! acc := on_auth (GetAccount addr) in
  match acc with
  | None => throw (Wrapf "account does not exist" ErrUnknownAddress)
  | Some acc =>
      match acc_kind acc with
      | VestingAccount va =>
          let! va := lift (f va) in
          on_auth (SetAccount (with_vesting acc va))
      | _ => ret tt
      end
  end.
Definition trackDelegation (ctx : Ctx) (addr : string) (balance amt : Coins) : M State unit :=
  track addr (vesting.TrackDelegation (BlockTime ctx) balance amt).
Definition trackUndelegation (addr : string) (amt : Coins) : M State unit :=
  track addr (vesting.TrackUndelegation amt).

(** The loop of DelegateCoins; its result are the balances before. *)
Fixpoint delegate_coins (delegatorAddr : string) (balances amt : Coins) : M State Coins :=
  match amt with
  | [] => ret balances
  | coin :: amt =>
      let! balance := GetBalance delegatorAddr (Denom coin) in
      let! lt := lift (Coin_IsLT balance coin) in
      if lt : bool then throw (Wrapf "failed to delegate" ErrInsufficientFunds) else
      let! balances := lift (Coins_Add balances [balance]) in
      let! rest := lift (Coin_Sub balance coin) in
      setBalance delegatorAddr rest ;;!
      delegate_coins delegatorAddr balances amt
  end.

Definition DelegateCoins (ctx : Ctx) (delegatorAddr moduleAccAddr : string) (amt : Coins) : M State unit :=
  let! moduleAcc := on_auth (GetAccount moduleAccAddr) in
  match moduleAcc with
  | None => throw (Wrapf "module account does not exist" ErrUnknownAddress)
  | Some _ =>
      if negb (Coins_Validate amt) then throw (Wrapf "" ErrInvalidCoins) else
      let! balances := delegate_coins delegatorAddr [] amt in
      map_err (Wrapf "failed to track delegation") (trackDelegation ctx delegatorAddr balances amt) ;;!
      EmitEvent (NewCoinSpentEvent delegatorAddr amt) ;;!
      addCoins moduleAccAddr amt
  end.

Definition UndelegateCoins (ctx : Ctx) (moduleAccAddr delegatorAddr : string) (amt : Coins) : M State unit :=
  let! moduleAcc := on_auth (GetAccount moduleAccAddr) in
  match moduleAcc with
  | None => throw (Wrapf "module account does not exist" ErrUnknownAddress)
  | Some _ =>
      if negb (Coins_Validate amt) then throw (Wrapf "" ErrInvalidCoins) else
      subUnlockedCoins ctx moduleAccAddr amt ;;!
      map_err (Wrapf "failed to track undelegation") (trackUndelegation delegatorAddr amt) ;;!
      addCoins delegatorAddr amt
  end.

Definition DelegateCoinsFromAccountToModule (ctx : Ctx) (senderAddr recipientModule : string) (amt : Coins) : M State unit :=
  let! recipientAcc := module_account recipientModule in
  if negb (HasPermission recipientAcc "staking") then panic else
  DelegateCoins ctx senderAddr (acc_Address recipientAcc) amt.

Definition UndelegateCoinsFromModuleToAccount (ctx : Ctx) (senderModule recipientAddr : string) (amt : Coins) : M State unit :=
  let! acc := module_account senderModule in
  if negb (HasPermission acc "staking") then panic else
  UndelegateCoins ctx (acc_Address acc) recipientAddr amt.

(** ** Messages (types/msgs.go, keeper/msg_server.go) *)

Definition Params_Validate (p : Params) : outcome unit :=
  match p_SendEnabled p with [] => Ok tt | _ => Err (Errorf "use of send_enabled in params is no longer supported") end.

Record MsgSend : Type := mkMsgSend { ms_FromAddress : string; ms_ToAddress : string; ms_Amount : Coins }.

Definition parse_address (msg address : string) : outcome string :=
  match AccAddressFromBech32 address with Some a => Ok a | None => Err (Wrapf msg ErrInvalidAddress) end.

Definition positive_coins (amount : Coins) : outcome unit :=
  if negb (Coins_Validate amount) then Err (Wrapf "" ErrInvalidCoins) else
  if negb (IsAllPositive amount) then Err (Wrapf "" ErrInvalidCoins) else Ok tt.

Definition MsgSend_ValidateBasic (msg : MsgSend) : outcome unit :=
  let* _ := parse_address "invalid from address" (ms_FromAddress msg) in
  let* _ := parse_address "invalid to address" (ms_ToAddress msg) in
  positive_coins (ms_Amount msg).

Definition Send (ctx : Ctx) (msg : MsgSend) : M State unit :=
  IsSendEnabledCoins (ms_Amount msg) ;;!
  let! from := from_bech32 (ms_FromAddress msg) in
  let! to := from_bech32 (ms_ToAddress msg) in
  if BlockedAddr k to then throw (Wrapf "not allowed to receive funds" ErrUnauthorized) else
  SendCoins ctx from to (ms_Amount msg).

Record MsgMultiSend : Type := mkMsgMultiSend { mm_Inputs : list InOut; mm_Outputs : list InOut }.

Definition MsgMultiSend_ValidateBasic (msg : MsgMultiSend) : outcome unit :=
  match mm_Inputs msg, mm_Outputs msg with
  | [], _ => Err ErrNoInputs
  | _ :: _ :: _, _ => Err ErrMultipleSenders
  | [_], [] => Err ErrNoOutputs
  | inputs, outputs => ValidateInputsOutputs inputs outputs
  end.

Definition output_allowed (out : InOut) : M State unit :=
  let! accAddr := or_panic (AccAddressFromBech32 (io_Address out)) in
  if BlockedAddr k accAddr then throw (Wrapf "not allowed to receive funds" ErrUnauthorized) else ret tt.

Definition MultiSend (ctx : Ctx) (msg : MsgMultiSend) : M State unit :=
  for_each (mm_Inputs msg) (fun in_ => IsSendEnabledCoins (io_Coins in_)) ;;!
  for_each (mm_Outputs msg) output_allowed ;;!
  InputOutputCoins ctx (mm_Inputs msg) (mm_Outputs msg).

Definition UpdateParams (reqAuthority : string) (params : Params) : M State unit :=
  if bool_decide (authority k <> reqAuthority) then throw (Wrapf "invalid authority" ErrInvalidSigner) else SetParams params.

Record MsgSetSendEnabled : Type := mkMsgSetSendEnabled { sse_Authority : string; sse_SendEnabled : list SendEnabled; sse_UseDefaultFor : list string }.

Definition SendEnabled_Validate (se : SendEnabled) : outcome unit :=
  if ValidateDenom (se_Denom se) then Ok tt else Err (Errorf "invalid denom").

Fixpoint check_entries (seen : gset string) (l : list SendEnabled) : outcome unit :=
  match l with
  | [] => Ok tt
  | se :: l =>
      if bool_decide (se_Denom se ∈ seen) then Err (Wrapf "duplicate denom entries found" ErrInvalidRequest) else
      match SendEnabled_Validate se with
      | Ok _ => check_entries ({[se_Denom se]} ∪ seen) l
      | _ => Err (Wrapf "invalid SendEnabled denom" ErrInvalidRequest)
      end
  end.

Definition MsgSetSendEnabled_ValidateBasic (msg : MsgSetSendEnabled) : outcome unit :=
  let* _ := if bool_decide (sse_Authority msg = "") then Ok "" else parse_address "invalid authority address" (sse_Authority msg) in
  let* _ := check_entries ∅ (sse_SendEnabled msg) in
  if forallb ValidateDenom (sse_UseDefaultFor msg) then Ok tt else Err (Wrapf "invalid UseDefaultFor denom" ErrInvalidRequest).

Definition msg_SetSendEnabled (msg : MsgSetSendEnabled) : M State unit :=
  if bool_decide (authority k <> sse_Authority msg) then throw (Wrapf "invalid authority" ErrInvalidSigner) else
  SetAllSendEnabled (sse_SendEnabled msg) ;;!
  DeleteSendEnabled (sse_UseDefaultFor msg).

(** ** keeper/invariants.go: whether an invariant is broken *)

Definition NonnegativeBalanceInvariant : M State bool :=
  let! l := IterateAllBalances in
  ret (existsb (fun p => Coin_IsNegative (snd p)) l).

Definition TotalSupply : M State bool :=
  let! supply := GetTotalSupply in
  let! l := IterateAllBalances in
  let! expectedTotal := lift (add_each [] (snd <$> l)) in
  let! eq := lift (Coins_IsEqual expectedTotal supply) in
  ret (negb eq).

Definition AllInvariants : M State bool := TotalSupply.
End Keeper.
End bank.
