(* ===== verification/VestingMsgs.v ===== *)
(** VestingMsgs: the messages that create vesting accounts
    (cosmos-sdk/x/auth/vesting/msg_server.go and types/msgs.go).

    Each handler creates the account of the recipient with its schedule and
    sends it the coins that vest.  Coins are sorted in place, so the coins that
    are sent are the sorted ones. *)

From Stdlib Require Import ZArith Lia Ascii String.
From stdpp Require Import base gmap sets list strings fin_maps sorting.
From S2P Require Import Prelude Sdk KVStore Coins Vesting Auth BankStore.

Open Scope Z_scope.
Open Scope go_scope.

Module vestingmsgs.
Import bank.

Record MsgCreateVestingAccount : Type := mkMsgCreateVestingAccount {
  cv_FromAddress : string; cv_ToAddress : string; cv_Amount : Coins; cv_EndTime : Z; cv_Delayed : bool }.
Record MsgCreatePermanentLockedAccount : Type := mkMsgCreatePermanentLockedAccount {
  cl_FromAddress : string; cl_ToAddress : string; cl_Amount : Coins }.
Record MsgCreatePeriodicVestingAccount : Type := mkMsgCreatePeriodicVestingAccount {
  cp_FromAddress : string; cp_ToAddress : string; cp_StartTime : Z; cp_VestingPeriods : list vesting.Period }.

Section Messages.
Context `{SdkMath} `{SdkDecRound} `{Bech32} (k : Keeper).

Definition MsgCreateVestingAccount_ValidateBasic (msg : MsgCreateVestingAccount) : outcome unit :=
  let* _ := parse_address "invalid 'from' address" (cv_FromAddress msg) in
  let* _ := parse_address "invalid 'to' address" (cv_ToAddress msg) in
  let* _ := positive_coins (cv_Amount msg) in
  if cv_EndTime msg <=? 0 then Err (Wrapf "invalid end time" ErrInvalidRequest) else Ok tt.

Definition MsgCreatePermanentLockedAccount_ValidateBasic (msg : MsgCreatePermanentLockedAccount) : outcome unit :=
  let* _ := parse_address "invalid sender address" (cl_FromAddress msg) in
  let* _ := parse_address "invalid recipient address" (cl_ToAddress msg) in
  positive_coins (cl_Amount msg).

Fixpoint check_periods (periods : list vesting.Period) : outcome unit :=
  match periods with
  | [] => Ok tt
  | period :: periods =>
      let* _ := positive_coins (vesting.p_Amount period) in
      if vesting.Length period <? 1 then Err (Errorf "invalid period length") else check_periods periods
  end.

Definition MsgCreatePeriodicVestingAccount_ValidateBasic (msg : MsgCreatePeriodicVestingAccount) : outcome unit :=
  match AccAddressFromBech32 (cp_FromAddress msg), AccAddressFromBech32 (cp_ToAddress msg) with
  | Some from, Some to =>
      if negb (VerifyAddressFormat from) then Err (Wrapf "invalid sender address" ErrInvalidAddress) else
      if negb (VerifyAddressFormat to) then Err (Wrapf "invalid recipient address" ErrInvalidAddress) else
      if cp_StartTime msg <? 1 then Err (Errorf "invalid start time") else
      check_periods (cp_VestingPeriods msg)
  | _, _ => Err (Errorf "decoding bech32 failed")
  end.

(** The checks of the recipient that the handlers share. *)
Definition recipient_free (to : string) : M State unit :=
  if BlockedAddr k to then throw (Wrapf "not allowed to receive funds" ErrUnauthorized) else
  let! acc := on_auth (GetAccount to) in
  match acc with Some _ => throw (Wrapf "account already exists" ErrInvalidRequest) | None => ret tt end.

(** NewAccount of a base account and SetAccount of the vesting account on it. *)
Definition create_vesting (to : string) (va : vesting.VestingAccount) : M State unit :=
  let! baseAccount := on_auth (NewAccount (NewBaseAccountWithAddress to)) in
  on_auth (SetAccount (with_vesting baseAccount va)).

Definition CreateVestingAccount (ctx : Ctx) (msg : MsgCreateVestingAccount) : M State unit :=
  IsSendEnabledCoins (cv_Amount msg) ;;!
  let! from := from_bech32 (cv_FromAddress msg) in
  let! to := from_bech32 (cv_ToAddress msg) in
  recipient_free to ;;!
  let amount := Coins_Sort (cv_Amount msg) in
  let baseVestingAccount := vesting.NewBaseVestingAccount amount (cv_EndTime msg) in
  create_vesting to
    (if cv_Delayed msg then vesting.NewDelayedVestingAccountRaw baseVestingAccount
     else vesting.NewContinuousVestingAccountRaw baseVestingAccount (BlockTime ctx)) ;;!
  SendCoins ctx from to amount.

Definition CreatePermanentLockedAccount (ctx : Ctx) (msg : MsgCreatePermanentLockedAccount) : M State unit :=
  IsSendEnabledCoins (cl_Amount msg) ;;!
  let! from := from_bech32 (cl_FromAddress msg) in
  let! to := from_bech32 (cl_ToAddress msg) in
  recipient_free to ;;!
  create_vesting to (vesting.NewPermanentLockedAccount (cl_Amount msg)) ;;!
  SendCoins ctx from to (cl_Amount msg).

Definition CreatePeriodicVestingAccount (ctx : Ctx) (msg : MsgCreatePeriodicVestingAccount) : M State unit :=
  let! from := from_bech32 (cp_FromAddress msg) in
  let! to := from_bech32 (cp_ToAddress msg) in
  recipient_free to ;;!
  let! totalCoins := lift (vesting.TotalAmount (cp_VestingPeriods msg)) in
  IsSendEnabledCoins totalCoins ;;!
  let totalCoins := Coins_Sort totalCoins in
  create_vesting to (vesting.NewPeriodicVestingAccount totalCoins (cp_StartTime msg) (cp_VestingPeriods msg)) ;;!
  SendCoins ctx from to totalCoins.
End Messages.
End vestingmsgs.
