(* ===== verification/BankBooks.v ===== *)
(** BankBooks: what the bank keeper of BankStore.v keeps true.

    [books] says that the store of balances is well formed: every entry is a
    positive amount under the key of an address and a valid denomination, and
    the index by denomination lists exactly the holders.  [bank_inv] adds that
    the supply of every denomination is the sum of its balances, and that every
    vesting account's balance covers what its schedule locks.

    Theorems: the invariant is kept by every operation of the keeper and every
    message; exactly when coins can be sent and what sending does; the
    invariants the code registers are never broken; delegating and undelegating
    restores all balances. *)

From Stdlib Require Import ZArith Lia Ascii String.
From stdpp Require Import base gmap sets list strings fin_maps sorting pretty.
From S2P Require Import Prelude Sdk Wire KVStore Coins StoreKeys Vesting Auth BankStore VestingMsgs.

Open Scope Z_scope.
Open Scope go_scope.

Import bank.

(** ** Keys *)

Definition addr_ok (a : string) : Prop := (0 < String.length a <= 255)%nat.

Definition addr_key (a : string) : string := String (ascii_of_nat (String.length a)) a.
Definition balance_key (a d : string) : string := addr_key a +:+ d.
Definition owner_at (d a : string) : string := CreateDenomAddressPrefix d +:+ addr_key a.

Lemma addr_key_run a : addr_ok a -> MustLengthPrefix a = Ok (addr_key a).
Proof. apply MustLengthPrefix_run. Qed.

Lemma owner_key_run d a : addr_ok a -> owner_key d a = Ok (owner_at d a).
Proof. intros Ha. unfold owner_key. by rewrite addr_key_run. Qed.

Lemma parse_balance_key a d : addr_ok a -> AddressAndDenomFromBalancesStore (balance_key a d) = Ok (a, d).
Proof.
  intros [H0 Ha]. unfold balance_key, addr_key. string_simpl. cbn [AddressAndDenomFromBalancesStore]. rewrite nat_ascii_embedding by lia.
  rewrite str_length_app. destruct (Nat.ltb_spec (String.length a + String.length d) (String.length a)); [lia|]. by rewrite str_take_app, str_drop_app.
Qed.

Lemma balance_key_inj a b d e : addr_ok a -> addr_ok b -> balance_key a d = balance_key b e -> a = b /\ d = e.
Proof. apply length_prefix_inj. Qed.

Lemma denom_no_zero d : ValidateDenom d = true -> has_char Ascii.zero d = false.
Proof.
  destruct d as [|c d]; [done|]. cbn [ValidateDenom]. rewrite !andb_true_iff. intros [[[Hc Hd] _] _].
  assert (forall c, is_denom_char c = true -> Ascii.eqb Ascii.zero c = false) as Hz by (intros [[] [] [] [] [] [] [] []]; done).
  assert (forall s, all_denom_char s = true -> has_char Ascii.zero s = false) as Hall.
  { induction s as [|c' s IH]; [done|]. cbn [all_denom_char has_char]. intros [Hc' Hs]%andb_true_iff. rewrite IH, orb_false_r by done. by rewrite Ascii.eqb_sym, Hz || rewrite Hz. }
  cbn [has_char]. rewrite Hall, orb_false_r by done. assert (is_denom_char c = true) as Hc' by (unfold is_denom_char; by rewrite Hc).
  first [by apply Hz | rewrite Ascii.eqb_sym; by apply Hz].
Qed.

Lemma owner_at_inj d e a b : ValidateDenom d = true -> ValidateDenom e = true -> owner_at d a = owner_at e b -> d = e /\ a = b.
Proof.
  intros Hd%denom_no_zero He%denom_no_zero. unfold owner_at, CreateDenomAddressPrefix. rewrite <- !string_app_assoc. string_simpl.
  intros [-> E]%first_sep_inj; [|done..]. split; [done|]. by injection E.
Qed.

(** ** The store of balances *)

Definition bal (s : State) (a d : string) : Z := default 0 (b_balances s !! balance_key a d).
Definition denom_of (key : string) : string := match AddressAndDenomFromBalancesStore key with Ok p => snd p | _ => "" end.
Definition total (s : State) (d : string) : Z := map_sum (fun key x => if bool_decide (denom_of key = d) then x else 0) (b_balances s).
Definition supply_of (s : State) (d : string) : Z := default 0 (b_supply s !! d).

(** Entries are positive amounts of addresses and valid denominations, and the
    index has exactly their holders. *)
Record books (s : State) : Prop := {
  bk_entry key x : b_balances s !! key = Some x -> exists a d, key = balance_key a d /\ addr_ok a /\ ValidateDenom d = true /\ 0 < x < 2 ^ 256;
  bk_owner o : o ∈ b_owners s <-> exists a d, o = owner_at d a /\ addr_ok a /\ ValidateDenom d = true /\ 0 < bal s a d;
}.

Lemma books_same s s' : b_balances s' = b_balances s -> b_owners s' = b_owners s -> books s -> books s'.
Proof. intros E1 E2 [H1 H2]. split; unfold bal; rewrite ?E1, ?E2; [exact H1|exact H2]. Qed.

(** What setBalance writes. *)
Definition put (a d : string) (x : Z) (s : State) : State :=
  if x =? 0 then set_balances (delete (balance_key a d) (b_balances s)) (b_owners s ∖ {[owner_at d a]}) s
  else set_balances (<[balance_key a d := x]> (b_balances s)) ({[owner_at d a]} ∪ b_owners s) s.

Lemma denom_of_key a d : addr_ok a -> denom_of (balance_key a d) = d.
Proof. intros Ha. unfold denom_of. by rewrite parse_balance_key. Qed.

Lemma put_balances a d x s : b_balances (put a d x s) = if x =? 0 then delete (balance_key a d) (b_balances s) else <[balance_key a d := x]> (b_balances s).
Proof. unfold put. by destruct (x =? 0). Qed.

Lemma bal_put a d x s b e : addr_ok a -> addr_ok b -> bal (put a d x s) b e = if bool_decide (b = a /\ e = d) then x else bal s b e.
Proof.
  intros Ha Hb. unfold bal. rewrite put_balances. case_bool_decide as E.
  - destruct E as [-> ->]. destruct (Z.eqb_spec x 0) as [->|]; by rewrite ?lookup_delete_eq, ?lookup_insert_eq.
  - assert (balance_key a d <> balance_key b e) by (intros [-> ->]%balance_key_inj; tauto).
    destruct (x =? 0); by rewrite ?lookup_delete_ne, ?lookup_insert_ne.
Qed.

Lemma total_put a d x s e : addr_ok a -> total (put a d x s) e = total s e + if bool_decide (e = d) then x - bal s a d else 0.
Proof.
  intros Ha. unfold total, bal. rewrite put_balances.
  destruct (Z.eqb_spec x 0) as [->|]; rewrite ?map_sum_delete_any, ?map_sum_insert, ?denom_of_key by done;
    destruct (b_balances s !! _); cbn; rewrite ?denom_of_key by done; repeat case_bool_decide; subst; (done || lia).
Qed.

Lemma books_range s : books s -> forall a d, 0 <= bal s a d < 2 ^ 256.
Proof.
  intros Hb a d. unfold bal. destruct (b_balances s !! _) as [x|] eqn:E; cbn; [|lia]. apply (bk_entry _ Hb) in E as (? & ? & _ & _ & _ & ?). lia.
Qed.

Lemma books_denom s a d : books s -> addr_ok a -> bal s a d <> 0 -> ValidateDenom d = true.
Proof.
  intros Hb Ha. unfold bal. destruct (b_balances s !! _) as [x|] eqn:E; cbn; [|lia]. apply (bk_entry _ Hb) in E as (b & e & Hk & Hb' & He & _). by apply balance_key_inj in Hk as [-> ->].
Qed.

Lemma books_put s a d x : books s -> addr_ok a -> ValidateDenom d = true -> 0 <= x < 2 ^ 256 -> books (put a d x s).
Proof.
  intros Hb Ha Hd Hx. split.
  - intros key y. rewrite put_balances. destruct (Z.eqb_spec x 0).
    + intros [_ Hk]%lookup_delete_Some. by apply (bk_entry _ Hb).
    + intros [[<- <-]|[_ Hk]]%lookup_insert_Some; [exists a, d; split_and!; (done || lia)|by apply (bk_entry _ Hb)].
  - intros o. assert (o ∈ b_owners (put a d x s) <-> (o = owner_at d a /\ x <> 0) \/ (o <> owner_at d a /\ o ∈ b_owners s)) as ->.
    { unfold put. destruct (Z.eqb_spec x 0); cbn [b_owners set_balances]; [set_solver|]. destruct (decide (o = owner_at d a)); set_solver. }
    rewrite (bk_owner _ Hb). split.
    + intros [[-> Hx0]|[Hne (b & e & -> & Hb' & He & Hpos)]].
      * exists a, d. rewrite bal_put, bool_decide_true by done. split_and!; (done || lia).
      * exists b, e. rewrite bal_put, bool_decide_false by (done || intros [-> ->]; done). done.
    + intros (b & e & -> & Hb' & He & Hpos). rewrite bal_put in Hpos by done. case_bool_decide as E.
      * destruct E as [-> ->]. left. split; [done|lia].
      * right. split; [|eauto 10]. intros [-> ->]%owner_at_inj; tauto.
Qed.

Lemma total_nonneg s d : books s -> 0 <= total s d.
Proof.
  intros Hb. apply map_sum_nonneg. intros key x Hk. apply (bk_entry _ Hb) in Hk as (? & ? & _ & _ & _ & ?). case_bool_decide; lia.
Qed.

Lemma bal_le_total s a d : books s -> addr_ok a -> bal s a d <= total s d.
Proof.
  intros Hb Ha. unfold bal. destruct (b_balances s !! _) as [x|] eqn:E; [|cbn; by apply total_nonneg]. cbn [default].
  pose proof (map_sum_lookup_le (fun key x => if bool_decide (denom_of key = d) then x else 0) (b_balances s) (balance_key a d) x) as Hle.
  cbn beta in Hle. rewrite denom_of_key, bool_decide_true in Hle by done. apply Hle; [|done].
  intros key y Hk. apply (bk_entry _ Hb) in Hk as (? & ? & _ & _ & _ & ?). case_bool_decide; lia.
Qed.

(** *** Shifting a balance by a coin set *)

Definition shift (a : string) (k : Z) (amt : Coins) (s : State) : State :=
  foldl (fun s c => put a (Denom c) (bal s a (Denom c) + k * Amount c) s) s amt.

Lemma bal_shift a k amt s b e : addr_ok a -> addr_ok b ->
  bal (shift a k amt s) b e = bal s b e + if bool_decide (b = a) then k * coins_amount amt e else 0.
Proof.
  intros Ha Hb. revert s. induction amt as [|c amt IH]; intros s; cbn; [case_bool_decide; lia|].
  unfold shift in IH. rewrite IH, bal_put by done. repeat case_bool_decide; naive_solver lia.
Qed.

Lemma total_shift a k amt s e : addr_ok a -> total (shift a k amt s) e = total s e + k * coins_amount amt e.
Proof.
  intros Ha. revert s. induction amt as [|c amt IH]; intros s; cbn; [lia|]. unfold shift in IH. rewrite IH, total_put by done.
  repeat case_bool_decide; naive_solver lia.
Qed.

Lemma amount_head c amt : strict (c :: amt) -> coins_amount amt (Denom c) = 0.
Proof. intros Hs%strict_NoDup. apply amount_notin. rewrite fmap_cons in Hs. by apply NoDup_cons in Hs as [? _]. Qed.

Lemma amount_split c amt d : coins_amount (c :: amt) d = (if bool_decide (Denom c = d) then Amount c else 0) + coins_amount amt d.
Proof. done. Qed.

Lemma valid_cons c amt : valid (c :: amt) <-> ValidateDenom (Denom c) = true /\ 0 < Amount c /\ strict (c :: amt) /\ valid amt.
Proof.
  rewrite !valid_iff, Forall_cons. split; [intros [Hs [[? ?] ?]]; split_and!; try done; by apply strict_cons in Hs as [? _]|].
  intros (? & ? & ? & ? & ?). done.
Qed.

Lemma books_shift a k amt s : books s -> addr_ok a -> valid amt -> (forall d, 0 <= bal s a d + k * coins_amount amt d < 2 ^ 256) -> books (shift a k amt s).
Proof.
  intros Hb Ha. revert s Hb. induction amt as [|c amt IH]; intros s Hb; [done|]. intros (Hd & Hc & Hs & Hv)%valid_cons Hr. cbn.
  pose proof (amount_head c amt Hs) as H0. assert (0 <= bal s a (Denom c) + k * Amount c < 2 ^ 256) as Hx.
  { specialize (Hr (Denom c)). rewrite amount_split, bool_decide_true, H0 in Hr by done. lia. }
  apply IH; [by apply books_put|done|]. intros d. rewrite bal_put by done.
  case_bool_decide as E; [destruct E as [_ ->]; rewrite H0; lia|]. specialize (Hr d). rewrite amount_split, bool_decide_false in Hr by naive_solver. lia.
Qed.

Lemma put_events a d x s e : put a d x (set_events e s) = set_events e (put a d x s).
Proof. unfold put. by destruct (x =? 0). Qed.
Lemma shift_events a k amt s e : shift a k amt (set_events e s) = set_events e (shift a k amt s).
Proof. revert s. induction amt as [|c amt IH]; intros s; [done|]. cbn. unfold shift in IH. rewrite put_events. apply IH. Qed.

(** Everything but balances and events. *)
Definition rest (s : State) := (b_auth s, b_supply s, b_metadata s, b_send_enabled s, b_params s).
Lemma put_rest a d x s : rest (put a d x s) = rest s /\ b_events (put a d x s) = b_events s.
Proof. unfold put. by destruct (x =? 0). Qed.
Lemma shift_rest a k amt s : rest (shift a k amt s) = rest s /\ b_events (shift a k amt s) = b_events s.
Proof.
  revert s. induction amt as [|c amt IH]; intros s; [done|]. cbn. unfold shift in IH. destruct (IH (put a (Denom c) (bal s a (Denom c) + k * Amount c) s)) as [-> ->]. apply put_rest.
Qed.

(** ** Running the operations *)

(** A coin as a set. *)
Definition coin1 (d : string) (x : Z) : Coins := if x =? 0 then [] else [mkCoin d x].

Lemma coin1_amount d x e : coins_amount (coin1 d x) e = if bool_decide (d = e) then x else 0.
Proof. unfold coin1. destruct (Z.eqb_spec x 0) as [->|]; cbn; case_bool_decide; lia. Qed.
Lemma coin1_strict d x : strict (coin1 d x).
Proof. unfold coin1. destruct (x =? 0); repeat constructor. Qed.
Lemma coin1_nonzero d x : Forall (fun c => Amount c <> 0) (coin1 d x).
Proof. unfold coin1. destruct (Z.eqb_spec x 0); by repeat constructor. Qed.
Lemma coin1_valid d x : ValidateDenom d = true -> 0 <= x -> valid (coin1 d x).
Proof. intros Hd Hx. unfold coin1. destruct (Z.eqb_spec x 0); [done|]. apply vesting.one_valid; [done|lia]. Qed.
Lemma coin1_ext d x l : strict l -> Forall (fun c => Amount c <> 0) l -> (forall e, coins_amount l e = if bool_decide (d = e) then x else 0) -> l = coin1 d x.
Proof. intros Hs Hz Ha. apply coins_ext; [done|apply coin1_strict|done|apply coin1_nonzero|]. intros e. by rewrite Ha, coin1_amount. Qed.

Section Running.
Context `{SdkMathLaws} `{!SdkDecRound} `{!SdkDecRoundLaws} `{Bech32} (k : Keeper).

Lemma SafeSub_one l d x y : ValidateDenom d = true -> l = [mkCoin d x] \/ l = coin1 d x -> 0 <= x < 2 ^ 256 -> 0 <= y < 2 ^ 256 ->
  Coins_SafeSub l [mkCoin d y] = Ok (coin1 d (x - y), x <? y).
Proof.
  intros Hd Hl Hx Hy. assert (strict l /\ forall e, coins_amount l e = if bool_decide (d = e) then x else 0) as [Hs Ha].
  { destruct Hl as [-> | ->]; [split; [repeat constructor|apply vesting.one_amount]|split; [apply coin1_strict|apply coin1_amount]]. }
  unfold Coins_SafeSub, mk_NewCoins. rewrite vesting.NewCoins_nonzero.
  assert (vesting.nonzero [mkCoin d y] = coin1 d y) as ->.
  { unfold vesting.nonzero, coin1. rewrite filter_cons. cbn. by destruct (Z.eqb_spec y 0), (decide _). }
  rewrite NewCoins_valid by (apply coin1_valid; [done|lia]). cbn [o_panic obind].
  assert (forall e, coins_amount (negative (coin1 d y)) e = if bool_decide (d = e) then - y else 0) as Hn.
  { intros e. rewrite amount_negative, coin1_amount. case_bool_decide; lia. }
  destruct (safeAdd_run l (negative (coin1 d y)) Hs) as (r & E).
  { apply strict_negative, coin1_strict. }
  { intros e. rewrite Ha, Hn. case_bool_decide; lia. }
  rewrite E. cbn [obind]. apply safeAdd_inv in E as (Hrs & Hrz & Hra).
  rewrite (coin1_ext d (x - y) r Hrs Hrz) by (intros e; rewrite Hra, Ha, Hn; case_bool_decide; lia).
  do 2 f_equal. unfold coin1, IsAnyNegative. destruct (Z.eqb_spec (x - y) 0); cbn.
  - symmetry. apply Z.ltb_ge. lia.
  - unfold Coin_IsNegative. cbn. rewrite orb_false_r. destruct (Z.ltb_spec x y).
    + apply Z.eqb_eq. rewrite Z.sgn_neg; lia.
    + apply Z.eqb_neq. rewrite Z.sgn_pos; lia.
Qed.

Lemma GetBalance_run s a d : books s -> addr_ok a -> ValidateDenom d = true -> GetBalance a d s = (Ok (mkCoin d (bal s a d)), s).
Proof.
  intros Hb Ha Hd. unfold GetBalance, CreateAccountBalancesPrefix. rewrite addr_key_run by done.
  unfold bind, lift, reads, UnmarshalBalanceCompat. rewrite Hd. cbn [negb]. rewrite vesting.NewCoin_run; [done..|]. exact (proj1 (books_range s Hb a d)).
Qed.

Lemma put_balance_run s a d x : addr_ok a -> ValidateDenom d = true -> 0 <= x -> setBalance a (mkCoin d x) s = (Ok tt, put a d x s).
Proof.
  intros Ha Hd Hx. unfold setBalance, Coin_IsValid, Coin_Validate, CreateAccountBalancesPrefix. cbn [Denom Amount]. rewrite Hd, (proj2 (Z.leb_le 0 x)) by done. cbn [andb negb].
  rewrite addr_key_run, owner_key_run by done. unfold bind, lift, modify, put. done.
Qed.

(** Taking a coin of an account with locked coins. *)
Lemma subUnlockedCoin_run s a l c : books s -> addr_ok a -> valid l -> (forall d, coins_amount l d < 2 ^ 256) ->
  ValidateDenom (Denom c) = true -> 0 < Amount c < 2 ^ 256 ->
  subUnlockedCoin a l c s =
    if bal s a (Denom c) <? coins_amount l (Denom c) then (Err (Wrapf "locked amount exceeds account balance funds" ErrInsufficientFunds), s) else
    if bal s a (Denom c) - coins_amount l (Denom c) <? Amount c then (Err (Wrapf "spendable balance is smaller" ErrInsufficientFunds), s) else
    (Ok tt, put a (Denom c) (bal s a (Denom c) + -1 * Amount c) s).
Proof.
  intros Hb Ha Hl Hfit Hd Hc. unfold subUnlockedCoin. rewrite (bind_run _ _ _ _ _ (GetBalance_run s a _ Hb Ha Hd)).
  pose proof (books_range s Hb a (Denom c)) as Hr. pose proof (valid_nonneg l (Denom c) Hl) as Hn. specialize (Hfit (Denom c)).
  rewrite vesting.AmountOf_run by (by apply vesting.strict_of || done). unfold bind at 1, lift at 1. rewrite vesting.NewCoin_run by done. unfold bind at 1, lift at 1. cbn [o_panic].
  rewrite (SafeSub_one _ (Denom c) (bal s a (Denom c))) by (done || by left || lia). unfold bind at 1, lift at 1.
  destruct (Z.ltb_spec (bal s a (Denom c)) (coins_amount l (Denom c))); [done|].
  destruct c as [d x]. cbn [Denom Amount] in *. rewrite (SafeSub_one _ d (bal s a d - coins_amount l d)) by (done || by right || lia). unfold bind at 1, lift at 1. cbn [snd].
  destruct (Z.ltb_spec (bal s a d - coins_amount l d) x); [done|].
  unfold Coin_Sub, Coin_SafeSub. cbn [Denom Amount]. rewrite bool_decide_false by naive_solver. rewrite Int_Sub_fits by lia. cbn [o_panic obind]. unfold Coin_IsNegative. cbn [Amount].
  destruct (Z.eqb_spec (Z.sgn (bal s a d - x)) (-1)) as [E|_]; [apply Z.sgn_neg_iff in E; lia|]. unfold bind, lift. rewrite put_balance_run by (done || lia).
  by replace (bal s a d + -1 * x) with (bal s a d - x) by lia.
Qed.

Lemma credit_coin_ok s a c u s' : books s -> addr_ok a -> ValidateDenom (Denom c) = true -> 0 < Amount c -> addCoin a c s = (Ok u, s') ->
  s' = put a (Denom c) (bal s a (Denom c) + 1 * Amount c) s /\ bal s a (Denom c) + Amount c < 2 ^ 256.
Proof.
  intros Hb Ha Hd Hc. unfold addCoin. rewrite (bind_run _ _ _ _ _ (GetBalance_run s a _ Hb Ha Hd)). unfold Coin_Add. cbn [Denom Amount]. rewrite bool_decide_false by naive_solver.
  destruct (Int_Add _ _) as [x|] eqn:E; [|done]. cbn [o_panic obind]. unfold bind, lift. pose proof (Int_Add_range _ _ _ E). apply Int_Add_exact in E as ->.
  pose proof (books_range s Hb a (Denom c)). rewrite put_balance_run by (done || lia). intros [= _ <-]. split; [f_equal; lia|lia].
Qed.

Lemma addCoin_run s a c : books s -> addr_ok a -> ValidateDenom (Denom c) = true -> 0 < Amount c -> bal s a (Denom c) + Amount c < 2 ^ 256 ->
  addCoin a c s = (Ok tt, put a (Denom c) (bal s a (Denom c) + 1 * Amount c) s).
Proof.
  intros Hb Ha Hd Hc Hfit. unfold addCoin. rewrite (bind_run _ _ _ _ _ (GetBalance_run s a _ Hb Ha Hd)). unfold Coin_Add. cbn [Denom Amount]. rewrite bool_decide_false by naive_solver.
  pose proof (books_range s Hb a (Denom c)). rewrite Int_Add_fits by lia. cbn [o_panic obind]. unfold bind, lift. rewrite put_balance_run by (done || lia).
  by replace (bal s a (Denom c) + 1 * Amount c) with (bal s a (Denom c) + Amount c) by lia.
Qed.
(** *** What is locked *)

Definition locked_coins (t : Z) (auth : AuthState) (a : string) : outcome Coins :=
  match as_accounts auth !! a with
  | Some acc => match acc_kind acc with VestingAccount va => vesting.LockedCoins t va | _ => Ok [] end
  | None => Ok []
  end.

Lemma set_auth_id s : set_auth (b_auth s) s = s.
Proof. by destruct s. Qed.

Lemma LockedCoins_eq ctx a s : LockedCoins ctx a s = (locked_coins (BlockTime ctx) (b_auth s) a, s).
Proof.
  unfold LockedCoins, locked_coins, bind, on_auth, GetAccount, reads. rewrite set_auth_id.
  destruct (as_accounts (b_auth s) !! a) as [acc|]; [|done]. by destruct (acc_kind acc).
Qed.

(** In numbers, zero for an account without a schedule. *)
Definition locked (t : Z) (auth : AuthState) (a d : string) : Z :=
  match as_accounts auth !! a with
  | Some acc => match acc_kind acc with
                | VestingAccount va => Z.max (vesting.vesting_amount t va d - coins_amount (vesting.DelegatedVesting (vesting.base va)) d) 0
                | _ => 0 end
  | None => 0
  end.

Definition accounts_ok (auth : AuthState) : Prop :=
  forall a acc va, as_accounts auth !! a = Some acc -> acc_kind acc = VestingAccount va -> vesting.account_ok va.

Lemma locked_run t auth a : accounts_ok auth -> in_i64 t ->
  exists l, locked_coins t auth a = Ok l /\ valid l /\ (forall d, coins_amount l d = locked t auth a d) /\ forall d, coins_amount l d < 2 ^ 256.
Proof.
  intros Hok Ht. unfold locked_coins, locked. assert (exists l, Ok [] = Ok l /\ valid l /\ (forall d, coins_amount l d = 0) /\ forall d, coins_amount l d < 2 ^ 256) as Hnil by by exists [].
  destruct (as_accounts auth !! a) as [acc|] eqn:Ea; [|done]. destruct (acc_kind acc) as [|va|] eqn:Ek; [done| |done].
  destruct (Hok _ _ _ Ea Ek) as [Ho Hs Hdv Hdf]. destruct (vesting.LockedCoins_run t va Ho Hdv Hs Ht) as (l & El & Hl & Ha).
  exists l. split_and!; [done..|]. intros d. rewrite Ha. pose proof (vesting.vesting_amount_bounds t va d Ho Hs). pose proof (vesting.small_range _ d Ho). pose proof (valid_nonneg _ d Hdv).
  assert (2 ^ 194 < 2 ^ 256) by done. lia.
Qed.

Lemma locked_nonneg t auth a d : 0 <= locked t auth a d.
Proof. unfold locked. destruct (as_accounts auth !! a) as [acc|]; [|done]. destruct (acc_kind acc); lia. Qed.

(** *** Coin sets *)

(** Amounts of sdk.Int. *)
Definition int_coins (amt : Coins) : Prop := forall d, coins_amount amt d < 2 ^ 256.

(** The account can pay [amt] from what is not locked. *)
Definition sendable (t : Z) (s : State) (a : string) (amt : Coins) : Prop :=
  forall d, 0 < coins_amount amt d -> locked t (b_auth s) a d + coins_amount amt d <= bal s a d.

Definition insufficient {A} (o : outcome A) : Prop := exists m, o = Err (Wrapf m ErrInsufficientFunds).

Lemma sub_loop a l amt s : books s -> addr_ok a -> valid l -> int_coins l -> valid amt -> int_coins amt ->
  (for_each amt (subUnlockedCoin a l) s = (Ok tt, shift a (-1) amt s) /\ forall d, 0 < coins_amount amt d -> coins_amount l d + coins_amount amt d <= bal s a d) \/
  (insufficient (fst (for_each amt (subUnlockedCoin a l) s)) /\ exists d, 0 < coins_amount amt d /\ bal s a d < coins_amount l d + coins_amount amt d).
Proof.
  intros Hb Ha Hl Hfl. revert s Hb. induction amt as [|c amt IH]; intros s Hb Hv Hfit.
  { left. split; [done|]. cbn. lia. }
  apply valid_cons in Hv as (Hd & Hc & Hs & Hv). pose proof (amount_head c amt Hs) as Hhd.
  assert (coins_amount (c :: amt) (Denom c) = Amount c) as Ec by (rewrite amount_split, bool_decide_true by done; lia).
  pose proof (Hfit (Denom c)) as Hf. rewrite Ec in Hf. cbn [for_each]. unfold bind. rewrite subUnlockedCoin_run by (done || lia).
  destruct (Z.ltb_spec (bal s a (Denom c)) (coins_amount l (Denom c))).
  { right. cbn [fst]. split; [by eexists|]. exists (Denom c). rewrite Ec. pose proof (books_range s Hb a (Denom c)). lia. }
  destruct (Z.ltb_spec (bal s a (Denom c) - coins_amount l (Denom c)) (Amount c)).
  { right. cbn [fst]. split; [by eexists|]. exists (Denom c). rewrite Ec. lia. }
  pose proof (books_range s Hb a (Denom c)) as Hr. pose proof (valid_nonneg l (Denom c) Hl) as Hnl.
  change (shift a (-1) (c :: amt) s) with (shift a (-1) amt (put a (Denom c) (bal s a (Denom c) + -1 * Amount c) s)).
  set (s1 := put _ _ _ s).
  assert (forall d, 0 < coins_amount amt d -> bal s1 a d = bal s a d /\ coins_amount (c :: amt) d = coins_amount amt d) as Hsame.
  { intros d Hpos. assert (Denom c <> d) as Hne by (intros <-; lia). subst s1. rewrite bal_put, bool_decide_false by naive_solver. by rewrite amount_split, bool_decide_false. }
  destruct (IH s1) as [[E Hall]|[E (d & Hpos & Hlt)]].
  - subst s1. apply books_put; (done || lia).
  - done.
  - intros d. specialize (Hfit d). rewrite amount_split in Hfit. case_bool_decide; lia.
  - left. split; [exact E|]. intros d Hpos. rewrite amount_split in Hpos |- *. case_bool_decide as Ed; [subst d; lia|].
    rewrite Z.add_0_l in Hpos |- *. destruct (Hsame d Hpos) as [<- _]. by apply Hall.
  - right. split; [exact E|]. exists d. destruct (Hsame d Hpos) as [<- ->]. done.
Qed.

(** subUnlockedCoins refuses an invalid set, takes the coins when what is not
    locked suffices, and fails otherwise. *)
Lemma subUnlockedCoins_run ctx a amt s : books s -> addr_ok a -> accounts_ok (b_auth s) -> in_i64 (BlockTime ctx) -> int_coins amt ->
  (~ valid amt /\ subUnlockedCoins ctx a amt s = (Err (Wrapf "" ErrInvalidCoins), s)) \/
  (valid amt /\ sendable (BlockTime ctx) s a amt /\
     subUnlockedCoins ctx a amt s = (Ok tt, set_events (b_events s ++ [NewCoinSpentEvent a amt]) (shift a (-1) amt s))) \/
  (valid amt /\ ~ sendable (BlockTime ctx) s a amt /\ insufficient (fst (subUnlockedCoins ctx a amt s))).
Proof.
  intros Hb Ha Hok Ht Hfit. unfold subUnlockedCoins. destruct (Coins_Validate amt) eqn:Hv; cbn [negb]; [|left; split; [by unfold valid; rewrite Hv|done]].
  destruct (locked_run (BlockTime ctx) (b_auth s) a Hok Ht) as (l & El & Hl & Hamt & Hfl).
  assert (LockedCoins ctx a s = (Ok l, s)) as EL by by rewrite LockedCoins_eq, El.
  right. rewrite (bind_run _ _ _ _ _ EL). destruct (sub_loop a l amt s Hb Ha Hl Hfl Hv Hfit) as [[E Hall]|[E (d & Hpos & Hlt)]].
  - left. split; [done|]. split; [intros d; rewrite <- Hamt; apply Hall|]. rewrite (bind_run _ _ _ _ _ E). unfold EmitEvent, EmitEvents, modify. by rewrite (proj2 (shift_rest a (-1) amt s)).
  - right. split; [done|]. split; [intros Hs; specialize (Hs d Hpos); rewrite <- Hamt in Hs; lia|].
    destruct E as [m E]. unfold bind. destruct (for_each amt _ s) as [o s']. cbn in E. subst o. by exists m.
Qed.

Lemma add_loop_ok a amt s u s' : books s -> addr_ok a -> valid amt -> for_each amt (addCoin a) s = (Ok u, s') ->
  s' = shift a 1 amt s /\ (forall d, bal s a d + coins_amount amt d < 2 ^ 256).
Proof.
  intros Hb Ha. revert s Hb. induction amt as [|c amt IH]; intros s Hb.
  { intros _ [_ ->]%ret_ok. split; [done|]. intros d. pose proof (books_range s Hb a d). cbn. lia. }
  intros (Hd & Hc & Hs & Hv)%valid_cons. cbn [for_each]. intros ([] & s1 & E & E')%bind_ok. apply credit_coin_ok in E as [-> Hfit]; [|done..].
  pose proof (books_range s Hb a (Denom c)) as Hr. pose proof (amount_head c amt Hs) as Hhd.
  apply IH in E' as [-> Hall]; [|apply books_put; (done || lia)|done]. split; [done|]. intros d. specialize (Hall d). rewrite bal_put in Hall by done. rewrite amount_split.
  repeat case_bool_decide; naive_solver lia.
Qed.

Lemma add_loop_run a amt s : books s -> addr_ok a -> valid amt -> (forall d, bal s a d + coins_amount amt d < 2 ^ 256) ->
  for_each amt (addCoin a) s = (Ok tt, shift a 1 amt s).
Proof.
  intros Hb Ha. revert s Hb. induction amt as [|c amt IH]; intros s Hb; [done|].
  intros (Hd & Hc & Hs & Hv)%valid_cons Hfit. pose proof (amount_head c amt Hs) as Hhd. pose proof (Hfit (Denom c)) as Hf. rewrite amount_split, bool_decide_true in Hf by done.
  cbn [for_each]. erewrite bind_run by (apply addCoin_run; (done || lia)). pose proof (books_range s Hb a (Denom c)).
  rewrite IH; [done|apply books_put; (done || lia)|done|]. intros d. rewrite bal_put by done. case_bool_decide as E; [destruct E as [_ ->]; lia|].
  specialize (Hfit d). rewrite amount_split, bool_decide_false in Hfit by naive_solver. lia.
Qed.

Lemma addCoins_run a amt s : books s -> addr_ok a -> valid amt -> (forall d, bal s a d + coins_amount amt d < 2 ^ 256) ->
  addCoins a amt s = (Ok tt, set_events (b_events s ++ [NewCoinReceivedEvent a amt]) (shift a 1 amt s)).
Proof.
  intros Hb Ha Hv Hfit. unfold addCoins. unfold valid in Hv. rewrite Hv. cbn [negb]. rewrite (bind_run _ _ _ _ _ (add_loop_run a amt s Hb Ha Hv Hfit)).
  unfold EmitEvent, EmitEvents, modify. by rewrite (proj2 (shift_rest a 1 amt s)).
Qed.

Lemma credit_coins_ok a amt s u s' : books s -> addr_ok a -> addCoins a amt s = (Ok u, s') ->
  valid amt /\ (forall d, bal s a d + coins_amount amt d < 2 ^ 256) /\ s' = set_events (b_events s ++ [NewCoinReceivedEvent a amt]) (shift a 1 amt s).
Proof.
  intros Hb Ha. unfold addCoins. destruct (Coins_Validate amt) eqn:Hv; [|done]. cbn [negb]. intros ([] & s1 & E & E')%bind_ok.
  apply add_loop_ok in E as [-> Hfit]; [|done..]. apply modify_ok in E' as ->. split; [done|]. split; [done|]. by rewrite (proj2 (shift_rest a 1 amt s)).
Qed.

(** *** Creating accounts *)

Definition with_account (a : string) (auth : AuthState) : AuthState :=
  match as_accounts auth !! a with
  | Some _ => auth
  | None =>
      let n := next_number auth in
      mkAuthState (as_params auth) (<[a := SetAccountNumber (NewBaseAccountWithAddress a) n]> (as_accounts auth)) (<[n := a]> (as_by_number auth)) (Some (wrap_u64 (n + 1)))
  end.

Lemma create_account_run a s : create_account a s = (Ok tt, set_auth (with_account a (b_auth s)) s).
Proof.
  unfold create_account, with_account, bind, on_auth, HasAccount, reads. cbn [fst snd]. destruct (as_accounts (b_auth s) !! a) as [acc|] eqn:E.
  - rewrite bool_decide_true by done. unfold ret. done.
  - rewrite bool_decide_false by (intros []; done). done.
Qed.

Lemma with_account_lookup a auth b : as_accounts (with_account a auth) !! b =
  match as_accounts auth !! b with Some acc => Some acc | None => if bool_decide (b = a) then Some (SetAccountNumber (NewBaseAccountWithAddress a) (next_number auth)) else None end.
Proof.
  unfold with_account. destruct (as_accounts auth !! a) as [acc|] eqn:E.
  - destruct (as_accounts auth !! b) eqn:Eb; [done|]. rewrite bool_decide_false; [done|]. intros ->. congruence.
  - cbn [as_accounts]. destruct (decide (b = a)) as [->|Hne].
    + by rewrite lookup_insert_eq, E, bool_decide_true.
    + rewrite lookup_insert_ne, (bool_decide_false (b = a)) by done. by destruct (as_accounts auth !! b).
Qed.

Lemma locked_with_account t a auth b d : locked t (with_account a auth) b d = locked t auth b d.
Proof. unfold locked. rewrite with_account_lookup. destruct (as_accounts auth !! b) as [acc|]; [done|]. by case_bool_decide. Qed.

Lemma accounts_ok_with a auth : accounts_ok auth -> accounts_ok (with_account a auth).
Proof.
  intros Hok b acc va. rewrite with_account_lookup. destruct (as_accounts auth !! b) as [acc'|] eqn:E; [intros [= <-]; by apply (Hok b)|].
  case_bool_decide; [|done]. by intros [= <-].
Qed.
(** ** The invariant *)

(** A state whose supply is short of its balances by [delta], as between the
    two halves of a transfer. *)
Record sound (t : Z) (delta : string -> Z) (s : State) : Prop := {
  so_books : books s;
  so_address a acc : as_accounts (b_auth s) !! a = Some acc -> acc_Address acc = a;
  so_accounts : accounts_ok (b_auth s);
  so_funds a d : addr_ok a -> locked t (b_auth s) a d <= bal s a d;
  so_supply d x : b_supply s !! d = Some x -> ValidateDenom d = true /\ 0 < x < 2 ^ 256;
  so_total d : total s d = supply_of s d + delta d;
}.

(** The books balance, and what is locked at time [t] is there. *)
Definition bank_inv (t : Z) (s : State) : Prop := sound t (fun _ => 0) s.

Lemma sound_ext t f g s : (forall d, f d = g d) -> sound t f s -> sound t g s.
Proof. intros E [? ? ? ? ? Ht]. split; try done. intros d. by rewrite Ht, E. Qed.

Lemma sound_events t f s e : sound t f s -> sound t f (set_events e s).
Proof. intros [Hb ? ? ? ? ?]. split; [by apply (books_same s)|done..]. Qed.

Lemma locked_later t t' auth a d : accounts_ok auth -> t <= t' -> locked t' auth a d <= locked t auth a d.
Proof.
  intros Hok Ht. unfold locked. destruct (as_accounts auth !! a) as [acc|] eqn:Ea; [|done]. destruct (acc_kind acc) as [|va|] eqn:Ek; [done| |done].
  destruct (Hok _ _ _ Ea Ek) as [Ho Hs _ _]. pose proof (vesting.vested_amount_mono t t' va d Ho Hs Ht). unfold vesting.vesting_amount. lia.
Qed.

Lemma sound_later t t' f s : t <= t' -> sound t f s -> sound t' f s.
Proof. intros Ht [? ? ? Hf ? ?]. split; try done. intros a d Ha. etrans; [by apply locked_later|by apply Hf]. Qed.

Lemma supply_range t f s d : sound t f s -> 0 <= supply_of s d < 2 ^ 256.
Proof. intros Hs. unfold supply_of. destruct (b_supply s !! d) as [x|] eqn:E; cbn; [|lia]. apply (so_supply _ _ _ Hs) in E. lia. Qed.

(** A new account without a schedule. *)
Lemma sound_new_account t f s auth' a acc : sound t f s -> as_accounts (b_auth s) !! a = None -> as_accounts auth' = <[a := acc]> (as_accounts (b_auth s)) ->
  acc_Address acc = a -> (forall va, acc_kind acc <> VestingAccount va) -> sound t f (set_auth auth' s).
Proof.
  intros [Hb Had Hok Hf Hsu Ht] Hnone E Ea Hk. split; cbn [set_auth b_auth]; try done.
  - by apply (books_same s).
  - intros b acc'. rewrite E. intros [[<- <-]|[_ ?]]%lookup_insert_Some; [done|by apply Had].
  - intros b acc' va. rewrite E. intros [[<- <-]|[_ Hb']]%lookup_insert_Some Ek; [by destruct (Hk va)|by eapply Hok].
  - intros b d Hb'. etrans; [|by apply (Hf b d)]. unfold locked. rewrite E. destruct (decide (a = b)) as [<-|Hne].
    + rewrite lookup_insert_eq, Hnone. destruct (acc_kind acc) as [|va|] eqn:Ek; [done|by destruct (Hk va)|done].
    + by rewrite lookup_insert_ne.
Qed.

Lemma sound_with_account t f s a : sound t f s -> sound t f (set_auth (with_account a (b_auth s)) s).
Proof.
  intros Hs. unfold with_account. destruct (as_accounts (b_auth s) !! a) as [acc|] eqn:E; [by rewrite set_auth_id|].
  eapply (sound_new_account _ _ _ _ a); [done|done|reflexivity|done|done].
Qed.

(** Shifting a balance, with the delegation counters when there are any. *)
Lemma sound_shift t f s a n amt : sound t f s -> addr_ok a -> valid amt ->
  (forall d, locked t (b_auth s) a d <= bal s a d + n * coins_amount amt d < 2 ^ 256) ->
  sound t (fun d => f d + n * coins_amount amt d) (shift a n amt s).
Proof.
  intros [Hb Had Hok Hf Hsu Ht] Ha Hv Hr. pose proof (shift_rest a n amt s) as [[= E1 E2 E3 E4 E5] _]. split; rewrite ?E1, ?E2; try done.
  - apply books_shift; try done. intros d. specialize (Hr d). pose proof (locked_nonneg t (b_auth s) a d). lia.
  - intros b d Hb'. rewrite bal_shift by done. specialize (Hf b d Hb'). case_bool_decide; [subst; specialize (Hr d); lia|lia].
  - intros d. rewrite total_shift by done. unfold supply_of. rewrite E2. fold (supply_of s d). rewrite Ht. lia.
Qed.

Lemma sub_ok ctx a amt f s u s' : sound (BlockTime ctx) f s -> addr_ok a -> in_i64 (BlockTime ctx) -> int_coins amt ->
  subUnlockedCoins ctx a amt s = (Ok u, s') ->
  valid amt /\ sendable (BlockTime ctx) s a amt /\ s' = set_events (b_events s ++ [NewCoinSpentEvent a amt]) (shift a (-1) amt s) /\
  sound (BlockTime ctx) (fun d => f d + -1 * coins_amount amt d) s'.
Proof.
  intros Hs Ha Ht Hfit E. destruct (subUnlockedCoins_run ctx a amt s (so_books _ _ _ Hs) Ha (so_accounts _ _ _ Hs) Ht Hfit) as [[_ E']|[(Hv & Hsend & E')|(_ & _ & [m E'])]];
    rewrite E in E'; [done| |done]. injection E' as -> ->. split_and!; [done..|]. apply sound_events, sound_shift; [done..|].
  intros d. pose proof (books_range s (so_books _ _ _ Hs) a d). pose proof (so_funds _ _ _ Hs a d Ha). pose proof (valid_nonneg amt d Hv) as Hn.
  destruct (Z.eq_dec (coins_amount amt d) 0) as [->|]; [lia|]. specialize (Hsend d). lia.
Qed.

Lemma add_ok t a amt f s u s' : sound t f s -> addr_ok a -> addCoins a amt s = (Ok u, s') ->
  valid amt /\ s' = set_events (b_events s ++ [NewCoinReceivedEvent a amt]) (shift a 1 amt s) /\ sound t (fun d => f d + 1 * coins_amount amt d) s'.
Proof.
  intros Hs Ha (Hv & Hfit & ->)%credit_coins_ok; [|apply Hs|done]. split_and!; [done..|]. apply sound_events, sound_shift; [done..|].
  intros d. pose proof (so_funds _ _ _ Hs a d Ha). pose proof (valid_nonneg amt d Hv). specialize (Hfit d). lia.
Qed.
(** ** Sending *)

Definition at_ (a b : string) (n : Z) : Z := if bool_decide (a = b) then n else 0.

(** What sending does: the coins move, the recipient has an account, four
    events are emitted, and nothing else changes. *)
Record sent (from to : string) (amt : Coins) (s s' : State) : Prop := {
  sn_bal a d : addr_ok a -> bal s' a d = bal s a d - at_ a from (coins_amount amt d) + at_ a to (coins_amount amt d);
  sn_total d : total s' d = total s d;
  sn_supply : b_supply s' = b_supply s;
  sn_auth : b_auth s' = with_account to (b_auth s);
  sn_rest : (b_metadata s', b_send_enabled s', b_params s') = (b_metadata s, b_send_enabled s, b_params s);
  sn_events : b_events s' = b_events s ++ [NewCoinSpentEvent from amt; NewCoinReceivedEvent to amt;
    NewEvent "transfer" [("recipient", AStr (AccAddress_String to)); ("sender", AStr (AccAddress_String from)); ("amount", AStr (Coins_String amt))];
    NewEvent "message" [("sender", AStr (AccAddress_String from))]];
}.

Definition sent_state (from to : string) (amt : Coins) (s : State) : State :=
  set_events (b_events s ++ [NewCoinSpentEvent from amt; NewCoinReceivedEvent to amt;
    NewEvent "transfer" [("recipient", AStr (AccAddress_String to)); ("sender", AStr (AccAddress_String from)); ("amount", AStr (Coins_String amt))];
    NewEvent "message" [("sender", AStr (AccAddress_String from))]])
    (set_auth (with_account to (b_auth s)) (shift to 1 amt (shift from (-1) amt s))).

Lemma sent_state_sent from to amt s : addr_ok from -> addr_ok to -> sent from to amt s (sent_state from to amt s).
Proof.
  intros Hf Ht. pose proof (shift_rest to 1 amt (shift from (-1) amt s)) as [[= E1 E2 E3 E4 E5] _]. pose proof (shift_rest from (-1) amt s) as [[= F1 F2 F3 F4 F5] _].
  split; cbn; rewrite ?E2, ?E3, ?E4, ?E5; try done; [| |by rewrite F3, F4, F5].
  - intros a d Ha. change (bal (sent_state from to amt s) a d) with (bal (shift to 1 amt (shift from (-1) amt s)) a d). rewrite !bal_shift by done.
    unfold at_. repeat case_bool_decide; lia.
  - intros d. change (total (sent_state from to amt s) d) with (total (shift to 1 amt (shift from (-1) amt s)) d). rewrite !total_shift by done. lia.
Qed.

Lemma send_tail (to : string) s e : (create_account to ;;! EmitEvents e) s = (Ok tt, set_events (b_events s ++ e) (set_auth (with_account to (b_auth s)) s)).
Proof. by rewrite (bind_run _ _ _ _ _ (create_account_run to s)). Qed.

Lemma sent_state_eq (from to : string) amt s e1 e2 e3 :
  let s1 := set_events (b_events s ++ [e1]) (shift from (-1) amt s) in
  let s2 := set_events (b_events s1 ++ [e2]) (shift to 1 amt s1) in
  set_events (b_events s2 ++ e3) (set_auth (with_account to (b_auth s2)) s2) =
  set_events (b_events s ++ [e1; e2] ++ e3) (set_auth (with_account to (b_auth s)) (shift to 1 amt (shift from (-1) amt s))).
Proof.
  cbn zeta. rewrite shift_events. cbn [set_events b_events b_auth set_auth]. pose proof (shift_rest to 1 amt (shift from (-1) amt s)) as [[= -> _ _ _ _] _].
  pose proof (shift_rest from (-1) amt s) as [[= -> _ _ _ _] _]. unfold set_events, set_auth. cbn. f_equal. by rewrite <- !app_assoc.
Qed.

Lemma transfer_ok ctx from to amt f s u s' : sound (BlockTime ctx) f s -> addr_ok from -> addr_ok to -> in_i64 (BlockTime ctx) -> int_coins amt ->
  SendCoins ctx from to amt s = (Ok u, s') ->
  valid amt /\ sendable (BlockTime ctx) s from amt /\ s' = sent_state from to amt s /\ sound (BlockTime ctx) f s'.
Proof.
  intros Hs Hf Ht Htime Hfit. unfold SendCoins. intros ([] & s1 & E1 & E)%bind_ok. apply sub_ok with (f := f) in E1 as (Hv & Hsend & E1 & Hs1); [|done..].
  apply bind_ok in E as ([] & s2 & E2 & E). apply (add_ok _ _ _ _ _ _ _ Hs1) in E2 as (_ & E2 & Hs2); [|done]. rewrite send_tail in E. injection E as _ <-.
  split_and!; [done..| |].
  - subst s2 s1. apply sent_state_eq.
  - apply sound_events, sound_with_account. eapply sound_ext; [|exact Hs2]. intros d. cbn. lia.
Qed.

Lemma send_run ctx from to amt s : bank_inv (BlockTime ctx) s -> addr_ok from -> addr_ok to -> in_i64 (BlockTime ctx) -> int_coins amt ->
  valid amt -> sendable (BlockTime ctx) s from amt -> SendCoins ctx from to amt s = (Ok tt, sent_state from to amt s).
Proof.
  intros Hs Hf Ht Htime Hfit Hv Hsend. pose proof Hs as [Hb _ Hok _ _ Htot].
  destruct (subUnlockedCoins_run ctx from amt s Hb Hf Hok Htime Hfit) as [[Hn _]|[(_ & _ & E)|(_ & Hn & _)]]; [done| |done].
  pose proof (sub_ok _ _ _ _ _ _ _ Hs Hf Htime Hfit E) as (_ & _ & _ & Hs1). set (s1 := set_events _ _) in *.
  assert (forall d, bal s1 to d + coins_amount amt d < 2 ^ 256) as Hroom.
  { intros d. pose proof (bal_le_total s1 to d (so_books _ _ _ Hs1) Ht). pose proof (so_total _ _ _ Hs1 d). pose proof (supply_range _ _ _ d Hs1). cbn beta in *. lia. }
  pose proof (addCoins_run to amt s1 (so_books _ _ _ Hs1) Ht Hv Hroom) as E2.
  unfold SendCoins. rewrite (bind_run _ _ _ _ _ E), (bind_run _ _ _ _ _ E2), send_tail. f_equal. apply sent_state_eq.
Qed.

(** C21: Sending coins.  In a state whose books balance, SendCoins refuses an
    invalid set of coins, fails with insufficient funds exactly when some
    denomination of the set exceeds what the sender holds beyond what its
    vesting schedule locks, and otherwise succeeds, whatever the recipient
    holds: the coins move from the sender to the recipient, who may be the
    same, the recipient's account is created if there was none, four events
    are emitted, nothing else changes, and the books balance again. *)
Theorem send_coins ctx from to amt s : bank_inv (BlockTime ctx) s -> addr_ok from -> addr_ok to -> in_i64 (BlockTime ctx) -> int_coins amt ->
  (~ valid amt /\ SendCoins ctx from to amt s = (Err (Wrapf "" ErrInvalidCoins), s)) \/
  (valid amt /\ ~ sendable (BlockTime ctx) s from amt /\ insufficient (fst (SendCoins ctx from to amt s))) \/
  (valid amt /\ sendable (BlockTime ctx) s from amt /\
     exists s', SendCoins ctx from to amt s = (Ok tt, s') /\ sent from to amt s s' /\ bank_inv (BlockTime ctx) s').
Proof.
  intros Hs Hf Ht Htime Hfit. pose proof Hs as [Hb _ Hok _ _ _].
  destruct (subUnlockedCoins_run ctx from amt s Hb Hf Hok Htime Hfit) as [[Hn E]|[(Hv & Hsend & _)|(Hv & Hsend & [m E])]].
  - left. split; [done|]. unfold SendCoins. by rewrite (bind_run_err _ _ _ _ _ E).
  - right; right. split; [done|]. split; [done|]. pose proof (send_run ctx from to amt s Hs Hf Ht Htime Hfit Hv Hsend) as Erun.
    exists (sent_state from to amt s). split; [done|]. split; [by apply sent_state_sent|]. by apply (transfer_ok _ _ _ _ _ _ _ _ Hs Hf Ht Htime Hfit Erun).
  - right; left. split; [done|]. split; [done|]. exists m. unfold SendCoins, bind. destruct (subUnlockedCoins ctx from amt s) as [o s']. cbn in E. by subst o.
Qed.

(** *** Modules *)

Definition modules_ok : Prop := forall name addr perms, permAddrs k !! name = Some (addr, perms) -> addr_ok addr.

(** The account of a module, created on first use. *)
Lemma module_account_ok t f name s acc s' : sound t f s -> modules_ok -> module_account k name s = (Ok acc, s') ->
  exists perms auth', permAddrs k !! name = Some (acc_Address acc, perms) /\ addr_ok (acc_Address acc) /\ s' = set_auth auth' s /\ sound t f s' /\
    as_accounts auth' = <[acc_Address acc := acc]> (as_accounts (b_auth s)) /\ (exists n p, acc_kind acc = ModuleAccount n p) /\
    forall t' a d, locked t' auth' a d = locked t' (b_auth s) a d.
Proof.
  intros Hs Hk. unfold module_account. intros (o & s1 & E & E')%bind_ok. apply or_panic_ok in E' as [-> ->].
  unfold on_auth, GetModuleAccount, GetModuleAccountAndPermissions in E. destruct (permAddrs k !! name) as [[addr perms]|] eqn:Ep; [|done].
  unfold bind, GetAccount, reads in E. destruct (as_accounts (b_auth s) !! addr) as [acc'|] eqn:Ea.
  - destruct (acc_kind acc') as [| |n p] eqn:Ek; [done|done|]. cbn in E. injection E as -> <-. pose proof (so_address _ _ _ Hs _ _ Ea) as Eaddr.
    exists perms, (b_auth s). rewrite set_auth_id, Eaddr. split_and!; [done|by eapply Hk|done|done| |eauto|done]. by rewrite insert_id.
  - cbn in E. injection E as <- <-. cbn [acc_Address SetAccountNumber NewEmptyModuleAccount].
    set (auth' := mkAuthState _ _ _ _). exists perms, auth'. split_and!; [done|by eapply Hk|done| |done|eauto|].
    + eapply (sound_new_account _ _ _ _ addr); [done|done|reflexivity|done|done].
    + intros t' a d. unfold locked. change (as_accounts auth') with (<[addr := SetAccountNumber (NewEmptyModuleAccount addr name perms) (default 0 (as_global (b_auth s)))]> (as_accounts (b_auth s))).
      destruct (decide (addr = a)) as [<-|Hne]; [by rewrite lookup_insert_eq, Ea|by rewrite lookup_insert_ne].
Qed.
(** ** Supply *)

(** What setSupply writes. *)
Definition put_supply (d : string) (x : Z) (s : State) : State :=
  set_supply (if x =? 0 then delete d (b_supply s) else <[d := x]> (b_supply s)) s.

Lemma supply_put d x s e : supply_of (put_supply d x s) e = if bool_decide (e = d) then x else supply_of s e.
Proof.
  unfold supply_of, put_supply. cbn [b_supply set_supply]. case_bool_decide as E; [subst e|].
  - destruct (Z.eqb_spec x 0) as [->|]; by rewrite ?lookup_delete_eq, ?lookup_insert_eq.
  - destruct (x =? 0); by rewrite ?lookup_delete_ne, ?lookup_insert_ne.
Qed.

Lemma sound_put_supply t f s d x : sound t f s -> ValidateDenom d = true -> 0 <= x < 2 ^ 256 ->
  sound t (fun e => f e + if bool_decide (d = e) then supply_of s d - x else 0) (put_supply d x s).
Proof.
  intros [Hb Had Hok Hf Hsu Ht] Hd Hx. split; try done.
  - by apply (books_same s).
  - intros e y. unfold put_supply. cbn [b_supply set_supply]. destruct (Z.eqb_spec x 0).
    + intros [_ Hk]%lookup_delete_Some. by apply Hsu.
    + intros [[<- <-]|[_ Hk]]%lookup_insert_Some; [split; [done|lia]|by apply Hsu].
  - intros e. rewrite supply_put. change (total (put_supply d x s) e) with (total s e). rewrite Ht. repeat case_bool_decide; naive_solver lia.
Qed.

(** Same balances, accounts and parameters, the supply moved by [n * amt]. *)
Definition supply_moved (n : Z) (amt : Coins) (s s' : State) : Prop :=
  b_balances s' = b_balances s /\ b_owners s' = b_owners s /\ b_auth s' = b_auth s /\
  (b_metadata s', b_send_enabled s', b_params s', b_events s') = (b_metadata s, b_send_enabled s, b_params s, b_events s) /\
  forall d, supply_of s' d = supply_of s d + n * coins_amount amt d.

Lemma supply_step (g : Coin -> M State unit) n t amt f s u s' :
  (forall c f s u s', sound t f s -> ValidateDenom (Denom c) = true -> 0 < Amount c -> g c s = (Ok u, s') ->
     s' = put_supply (Denom c) (supply_of s (Denom c) + n * Amount c) s /\ 0 <= supply_of s (Denom c) + n * Amount c < 2 ^ 256) ->
  sound t f s -> valid amt -> for_each amt g s = (Ok u, s') ->
  sound t (fun d => f d - n * coins_amount amt d) s' /\ supply_moved n amt s s'.
Proof.
  intros Hg. revert f s. induction amt as [|c amt IH]; intros f s Hs.
  { intros _ [_ ->]%ret_ok. split; [eapply sound_ext; [|exact Hs]; intros d; cbn; lia|]. split_and!; try done. intros d. cbn. lia. }
  intros (Hd & Hc & _ & Hv)%valid_cons. cbn [for_each]. intros ([] & s1 & E & E')%bind_ok. destruct (Hg _ _ _ _ _ Hs Hd Hc E) as [-> Hr].
  apply (IH _ _ (sound_put_supply _ _ _ _ _ Hs Hd Hr) Hv) in E' as [Hs' (E1 & E2 & E3 & E4 & E5)]. split.
  - eapply sound_ext; [|exact Hs']. intros d. rewrite amount_split. cbn beta. case_bool_decide; lia.
  - split_and!; try done. intros d. rewrite E5, supply_put, amount_split. repeat case_bool_decide; subst; (done || lia).
Qed.

Lemma mint_supply_ok t c f s u s' : sound t f s -> ValidateDenom (Denom c) = true -> 0 < Amount c -> mint_supply c s = (Ok u, s') ->
  s' = put_supply (Denom c) (supply_of s (Denom c) + 1 * Amount c) s /\ 0 <= supply_of s (Denom c) + 1 * Amount c < 2 ^ 256.
Proof.
  intros Hs Hd Hc. pose proof (supply_range _ _ _ (Denom c) Hs) as Hr. unfold mint_supply, GetSupply, bind, reads, Coin_Add. fold (supply_of s (Denom c)). cbn [Denom Amount].
  rewrite bool_decide_false by naive_solver. destruct (Int_Add _ _) as [x|] eqn:E; [|done]. cbn. pose proof (Int_Add_range _ _ _ E). apply Int_Add_exact in E as ->.
  intros [= _ <-]. replace (supply_of s (Denom c) + 1 * Amount c) with (supply_of s (Denom c) + Amount c) by lia. split; [done|lia].
Qed.

Lemma burn_supply_ok t c f s u s' : sound t f s -> ValidateDenom (Denom c) = true -> 0 < Amount c -> burn_supply c s = (Ok u, s') ->
  s' = put_supply (Denom c) (supply_of s (Denom c) + -1 * Amount c) s /\ 0 <= supply_of s (Denom c) + -1 * Amount c < 2 ^ 256.
Proof.
  intros Hs Hd Hc. pose proof (supply_range _ _ _ (Denom c) Hs) as Hr. unfold burn_supply, GetSupply, bind, reads, Coin_Sub, Coin_SafeSub. fold (supply_of s (Denom c)). cbn [Denom Amount].
  rewrite bool_decide_false by naive_solver. destruct (Int_Sub _ _) as [x|] eqn:E; [|done]. cbn. apply Int_Sub_exact in E as ->. unfold Coin_IsNegative. cbn [Amount].
  destruct (Z.eqb_spec (Z.sgn (supply_of s (Denom c) - Amount c)) (-1)) as [|Hn]; [done|]. cbn.
  intros [= _ <-]. replace (supply_of s (Denom c) + -1 * Amount c) with (supply_of s (Denom c) - Amount c) by lia. split; [done|]. rewrite Z.sgn_neg_iff in Hn. lia.
Qed.

(** Coins made or destroyed at a module's account. *)
Record issued_at (a : string) (n : Z) (amt : Coins) (s s' : State) : Prop := {
  is_bal b d : addr_ok b -> bal s' b d = bal s b d + at_ b a (n * coins_amount amt d);
  is_supply d : supply_of s' d = supply_of s d + n * coins_amount amt d;
  is_locked t b d : locked t (b_auth s') b d = locked t (b_auth s) b d;
  is_rest : (b_metadata s', b_send_enabled s', b_params s') = (b_metadata s, b_send_enabled s, b_params s);
}.

(** The common part of MintCoins and BurnCoins behind the module's account. *)
Lemma issued_intro a n amt s auth' ev ev' s2 : addr_ok a -> (forall t b d, locked t auth' b d = locked t (b_auth s) b d) ->
  supply_moved n amt (set_events ev (shift a n amt (set_auth auth' s))) s2 -> issued_at a n amt s (set_events ev' s2).
Proof.
  intros Ha Hl (E1 & E2 & E3 & E4 & E5). pose proof (shift_rest a n amt (set_auth auth' s)) as [[= F1 F2 F3 F4 F5] _]. cbn in F1, F2, F3, F4, F5, E3, E4.
  split.
  - intros b d Hb. assert (bal s2 b d = bal (shift a n amt (set_auth auth' s)) b d) as Eb by (unfold bal; by rewrite E1). change (bal s2 b d = bal s b d + at_ b a (n * coins_amount amt d)).
    rewrite Eb, bal_shift by done. done.
  - intros d. change (supply_of s2 d = supply_of s d + n * coins_amount amt d). rewrite E5. unfold supply_of. cbn. by rewrite F2.
  - intros t b d. cbn. by rewrite E3, F1.
  - cbn. injection E4 as -> -> -> _. by rewrite F3, F4, F5.
Qed.

Lemma MintCoins_ok ctx m amt f s u s' : sound (BlockTime ctx) f s -> modules_ok -> MintCoins k ctx m amt s = (Ok u, s') ->
  sound (BlockTime ctx) f s' /\ valid amt /\ exists a perms, permAddrs k !! m = Some (a, perms) /\ addr_ok a /\ issued_at a 1 amt s s'.
Proof.
  intros Hs Hk. unfold MintCoins. intros ([] & s0 & [_ ->]%check_ok & E)%bind_ok. apply bind_ok in E as (acc & s1 & E1 & E).
  apply (module_account_ok _ _ _ _ _ _ Hs Hk) in E1 as (perms & auth' & Ep & Ha & -> & Hs1 & _ & _ & Hl). destruct (HasPermission acc "minter"); [|done]. cbn [negb] in E.
  apply bind_ok in E as ([] & s2 & E2 & E). apply (add_ok _ _ _ _ _ _ _ Hs1) in E2 as (Hv & -> & Hs2); [|done].
  apply bind_ok in E as ([] & s3 & E3 & E). apply (supply_step mint_supply 1 (BlockTime ctx)) with (1 := mint_supply_ok (BlockTime ctx)) (2 := Hs2) in E3 as [Hs3 Hm]; [|done].
  apply modify_ok in E as ->. split; [|split; [done|]].
  - apply sound_events. eapply sound_ext; [|exact Hs3]. intros d. cbn. lia.
  - exists (acc_Address acc), perms. split; [done|]. split; [done|]. by eapply issued_intro.
Qed.

Lemma BurnCoins_ok ctx m amt f s u s' : sound (BlockTime ctx) f s -> modules_ok -> in_i64 (BlockTime ctx) -> int_coins amt -> BurnCoins k ctx m amt s = (Ok u, s') ->
  sound (BlockTime ctx) f s' /\ valid amt /\ exists a perms, permAddrs k !! m = Some (a, perms) /\ addr_ok a /\ issued_at a (-1) amt s s'.
Proof.
  intros Hs Hk Ht Hfit. unfold BurnCoins. intros (acc & s1 & E1 & E)%bind_ok.
  apply (module_account_ok _ _ _ _ _ _ Hs Hk) in E1 as (perms & auth' & Ep & Ha & -> & Hs1 & _ & _ & Hl). destruct (HasPermission acc "burner"); [|done]. cbn [negb] in E.
  apply bind_ok in E as ([] & s2 & E2 & E). apply (sub_ok _ _ _ _ _ _ _ Hs1) in E2 as (Hv & _ & -> & Hs2); [|done..].
  apply bind_ok in E as ([] & s3 & E3 & E). apply (supply_step burn_supply (-1) (BlockTime ctx)) with (1 := burn_supply_ok (BlockTime ctx)) (2 := Hs2) in E3 as [Hs3 Hm]; [|done].
  apply modify_ok in E as ->. split; [|split; [done|]].
  - apply sound_events. eapply sound_ext; [|exact Hs3]. intros d. cbn. lia.
  - exists (acc_Address acc), perms. split; [done|]. split; [done|]. by eapply issued_intro.
Qed.
(** ** Delegations *)

Lemma shift_auth a n amt s auth' : shift a n amt (set_auth auth' s) = set_auth auth' (shift a n amt s).
Proof.
  revert s. induction amt as [|c amt IH]; intros s; [done|]. cbn. unfold shift in IH.
  assert (forall d x, put a d x (set_auth auth' s) = set_auth auth' (put a d x s)) as -> by (intros d x; unfold put; by destruct (x =? 0)). apply IH.
Qed.

(** Shifting the balance of a vesting account together with its counters. *)
Lemma sound_track t f s a acc va va' n amt auth' : sound t f s -> addr_ok a -> valid amt ->
  as_accounts (b_auth s) !! a = Some acc -> acc_kind acc = VestingAccount va -> vesting.account_ok va' ->
  (forall d, 0 <= bal s a d + n * coins_amount amt d < 2 ^ 256) -> vesting.covered t va' (fun d => bal s a d + n * coins_amount amt d) ->
  as_accounts auth' = <[a := with_vesting acc va']> (as_accounts (b_auth s)) ->
  sound t (fun d => f d + n * coins_amount amt d) (set_auth auth' (shift a n amt s)).
Proof.
  intros [Hb Had Hok Hf Hsu Ht] Ha Hv Ea Ek Hva Hr Hc E. pose proof (shift_rest a n amt s) as [[= E1 E2 E3 E4 E5] _]. split; cbn [set_auth b_auth b_supply].
  - apply (books_same (shift a n amt s)); [done..|]. by apply books_shift.
  - intros b acc'. rewrite E. intros [[<- <-]|[_ ?]]%lookup_insert_Some; [exact (Had _ _ Ea)|by apply Had].
  - intros b acc' va''. rewrite E. intros [[<- <-]|[_ Hb']]%lookup_insert_Some Ek'; [by injection Ek' as <-|by eapply Hok].
  - intros b d Hb'. change (bal (set_auth auth' (shift a n amt s)) b d) with (bal (shift a n amt s) b d). rewrite bal_shift by done.
    unfold locked. rewrite E. case_bool_decide as Eb.
    + subst b. rewrite lookup_insert_eq. apply Hc.
    + rewrite lookup_insert_ne by done. rewrite Z.add_0_r. by apply (Hf b d).
  - by rewrite E2.
  - intros d. change (total (set_auth auth' (shift a n amt s)) d) with (total (shift a n amt s) d). rewrite total_shift by done.
    unfold supply_of. cbn [set_auth b_supply]. rewrite E2. fold (supply_of s d). rewrite Ht. lia.
Qed.

Lemma track_ok a g s u s' : track a g s = (Ok u, s') ->
  exists acc, as_accounts (b_auth s) !! a = Some acc /\
    match acc_kind acc with
    | VestingAccount va => exists va' auth', g va = Ok va' /\ s' = set_auth auth' s /\ as_accounts auth' = <[acc_Address acc := with_vesting acc va']> (as_accounts (b_auth s))
    | _ => s' = s
    end.
Proof.
  unfold track. intros (o & s1 & E1 & E)%bind_ok. unfold on_auth, GetAccount, reads in E1. rewrite set_auth_id in E1. injection E1 as <- <-.
  destruct (as_accounts (b_auth s) !! a) as [acc|] eqn:Ea; [|done]. exists acc. split; [done|]. destruct (acc_kind acc) as [|va|]; [by apply ret_ok in E as [_ ->]| |by apply ret_ok in E as [_ ->]].
  apply bind_ok in E as (va' & s2 & E2 & E). unfold lift in E2. injection E2 as E2 <-. exists va'. unfold on_auth, SetAccount, modify in E. injection E as _ <-.
  eexists. split_and!; [done|reflexivity|reflexivity].
Qed.

Lemma delegate_coins_ok a acc amt s r s' : books s -> addr_ok a -> valid amt -> strict acc -> delegate_coins a acc amt s = (Ok r, s') ->
  s' = shift a (-1) amt s /\ strict r /\ forall d, coins_amount amt d <= bal s a d.
Proof.
  intros Hb Ha. revert acc s Hb. induction amt as [|c amt IH]; intros acc s Hb Hv Hacc.
  { intros [-> ->]%ret_ok. split; [done|]. split; [done|]. intros d. apply (books_range s Hb). }
  apply valid_cons in Hv as (Hd & Hc & Hs & Hv). cbn [delegate_coins]. pose proof (books_range s Hb a (Denom c)) as Hr. pose proof (amount_head c amt Hs) as Hz.
  rewrite (bind_run _ _ _ _ _ (GetBalance_run s a _ Hb Ha Hd)). unfold Coin_IsLT, same_denom. cbn [Denom Amount]. rewrite bool_decide_false by naive_solver.
  unfold bind at 1, lift at 1. destruct (Z.ltb_spec (bal s a (Denom c)) (Amount c)); [done|]. intros (acc' & s1 & E1 & E)%bind_ok. unfold lift in E1. injection E1 as E1 <-.
  apply safeAdd_inv in E1 as (Hacc' & _ & _). unfold Coin_Sub, Coin_SafeSub in E. cbn [Denom Amount] in E. rewrite bool_decide_false, Int_Sub_fits in E by (naive_solver || lia).
  cbn [o_panic obind] in E. unfold Coin_IsNegative in E. cbn [Amount] in E. destruct (Z.eqb_spec (Z.sgn (bal s a (Denom c) - Amount c)) (-1)) as [|_]; [done|].
  apply bind_ok in E as (x & s1 & Ex & E). injection Ex as <- <-. rewrite (bind_run _ _ _ _ _ (put_balance_run s a (Denom c) (bal s a (Denom c) - Amount c) Ha Hd ltac:(lia))) in E.
  replace (bal s a (Denom c) - Amount c) with (bal s a (Denom c) + -1 * Amount c) in E by lia.
  apply IH in E as (-> & Hr' & Hle); [|apply books_put; (done || lia)|done..]. split; [done|]. split; [done|]. intros d. specialize (Hle d). rewrite bal_put in Hle by done.
  rewrite amount_split. repeat case_bool_decide; naive_solver lia.
Qed.

(** A transfer between balances. *)
Definition moved (from to : string) (amt : Coins) (s s' : State) : Prop :=
  (forall a d, addr_ok a -> bal s' a d = bal s a d - at_ a from (coins_amount amt d) + at_ a to (coins_amount amt d)) /\
  b_supply s' = b_supply s /\ (b_metadata s', b_send_enabled s', b_params s') = (b_metadata s, b_send_enabled s, b_params s).

Lemma moved_intro from to amt s s' n m a b : (a = from /\ n = -1 /\ b = to /\ m = 1) -> addr_ok from -> addr_ok to ->
  b_balances s' = b_balances (shift b m amt (shift a n amt s)) -> b_supply s' = b_supply s ->
  (b_metadata s', b_send_enabled s', b_params s') = (b_metadata s, b_send_enabled s, b_params s) -> moved from to amt s s'.
Proof.
  intros (-> & -> & -> & ->) Hf Ht E Es Er. split; [|done]. intros c d Hc.
  assert (bal s' c d = bal (shift to 1 amt (shift from (-1) amt s)) c d) as -> by (unfold bal; by rewrite E).
  rewrite !bal_shift by done. unfold at_. repeat case_bool_decide; lia.
Qed.

(** What delegating does to the delegator's account: its counters grow by what
    is delegated. *)
Definition delegated (a : string) (amt : Coins) (auth auth' : AuthState) : Prop :=
  exists acc, as_accounts auth !! a = Some acc /\
    match acc_kind acc with
    | VestingAccount va =>
        exists df dv, as_accounts auth' = <[a := with_vesting acc (vesting.recount df dv va)]> (as_accounts auth) /\ vesting.account_ok (vesting.recount df dv va) /\
          forall d, coins_amount dv d + coins_amount df d =
            coins_amount (vesting.DelegatedVesting (vesting.base va)) d + coins_amount (vesting.DelegatedFree (vesting.base va)) d + coins_amount amt d
    | _ => auth' = auth
    end.

(** The delegator's account pays, its counters grow. *)
Lemma delegate_half ctx a amt r f s u s' : sound (BlockTime ctx) f s -> addr_ok a -> valid amt -> in_i64 (BlockTime ctx) -> strict r ->
  (forall d, coins_amount amt d <= bal s a d) ->
  trackDelegation ctx a r amt (shift a (-1) amt s) = (Ok u, s') ->
  exists auth', s' = set_auth auth' (shift a (-1) amt s) /\ sound (BlockTime ctx) (fun d => f d + -1 * coins_amount amt d) s' /\ delegated a amt (b_auth s) auth'.
Proof.
  intros Hs Ha Hv Ht Hr Hle E. pose proof (shift_rest a (-1) amt s) as [[= E1 _ _ _ _] _].
  assert (forall d, 0 <= bal s a d + -1 * coins_amount amt d < 2 ^ 256) as Hrange.
  { intros d. pose proof (books_range s (so_books _ _ _ Hs) a d). specialize (Hle d). pose proof (valid_nonneg amt d Hv). lia. }
  apply track_ok in E as (acc & Ea & E). rewrite E1 in Ea. pose proof (so_address _ _ _ Hs _ _ Ea) as Eaddr.
  assert (forall d, locked (BlockTime ctx) (b_auth s) a d = 0 -> locked (BlockTime ctx) (b_auth s) a d <= bal s a d + -1 * coins_amount amt d < 2 ^ 256) as Hfree by (intros d ->; apply Hrange).
  assert (match acc_kind acc with VestingAccount _ => False | _ => True end -> exists auth', shift a (-1) amt s = set_auth auth' (shift a (-1) amt s) /\ sound (BlockTime ctx) (fun d => f d + -1 * coins_amount amt d) (shift a (-1) amt s) /\ delegated a amt (b_auth s) auth') as Hplain.
  { intros Hk. exists (b_auth (shift a (-1) amt s)). rewrite set_auth_id. split; [done|]. split; [|exists acc; split; [done|]; by destruct (acc_kind acc)].
    apply sound_shift; [done..|]. intros d. apply Hfree. unfold locked. rewrite Ea. by destruct (acc_kind acc). }
  destruct (acc_kind acc) as [|va|] eqn:Ek; [subst s'; by apply Hplain| |subst s'; by apply Hplain].
  destruct E as (va' & auth' & Eg & -> & Eau). exists auth'. split; [done|]. rewrite E1, Eaddr in Eau.
  pose proof (so_accounts _ _ _ Hs _ _ _ Ea Ek) as Hva. destruct (vesting.TrackDelegation_inv (BlockTime ctx) r amt va va' Hva Ht Hr Hv Eg) as (df & dv & -> & Hok' & Hsum & _ & Hcov).
  split; [|exists acc; split; [done|]; rewrite Ek; by exists df, dv].
  eapply sound_track; [done..| |done]. assert (forall d, bal s a d - coins_amount amt d = bal s a d + -1 * coins_amount amt d) as Eq by lia.
  intros d. rewrite <- Eq. revert d. apply (Hcov (bal s a)); [done|]. intros d. pose proof (so_funds _ _ _ Hs a d Ha) as Hf. unfold locked in Hf. by rewrite Ea, Ek in Hf.
Qed.

Lemma DelegateCoins_ok ctx a m amt f s u s' : sound (BlockTime ctx) f s -> addr_ok a -> addr_ok m -> in_i64 (BlockTime ctx) ->
  DelegateCoins ctx a m amt s = (Ok u, s') ->
  valid amt /\ sound (BlockTime ctx) f s' /\ moved a m amt s s' /\ (forall d, coins_amount amt d <= bal s a d) /\ delegated a amt (b_auth s) (b_auth s').
Proof.
  intros Hs Ha Hm Ht. unfold DelegateCoins. intros (o & s0 & E0 & E)%bind_ok. unfold on_auth, GetAccount, reads in E0. rewrite set_auth_id in E0. injection E0 as <- <-.
  destruct (as_accounts (b_auth s) !! m) as [macc|]; [|done]. destruct (Coins_Validate amt) eqn:Hv; [|done]. cbn [negb] in E.
  apply bind_ok in E as (r & s1 & E1 & E). apply delegate_coins_ok in E1 as (-> & Hr & Hle); [|apply Hs|done|done|constructor].
  apply bind_ok in E as ([] & s2 & E2 & E). apply map_err_ok in E2. destruct (delegate_half _ _ _ _ _ _ _ _ Hs Ha Hv Ht Hr Hle E2) as (auth' & -> & Hs2 & Hdel).
  apply bind_ok in E as ([] & s3 & E3 & E). apply modify_ok in E3 as ->. apply (add_ok _ _ _ _ _ _ _ (sound_events _ _ _ _ Hs2)) in E as (_ & -> & Hs3); [|done].
  split; [done|]. split; [eapply sound_ext; [|exact Hs3]; intros d; cbn; lia|]. split; [|split; [done|]].
  2: { cbn [b_events set_auth b_auth set_events]. pose proof (shift_rest m 1 amt (set_events (b_events (shift a (-1) amt s) ++ [NewCoinSpentEvent a amt]) (set_auth auth' (shift a (-1) amt s)))) as [[= -> _ _ _ _] _]. done. }
  cbn [b_events set_auth]. rewrite shift_events, shift_auth. pose proof (shift_rest m 1 amt (shift a (-1) amt s)) as [[= F1 F2 F3 F4 F5] _].
  pose proof (shift_rest a (-1) amt s) as [[= G1 G2 G3 G4 G5] _].
  eapply moved_intro with (n := -1) (m := 1); [done|done|done|reflexivity| |]; cbn; rewrite ?F2, ?F3, ?F4, ?F5; [done|by rewrite G3, G4, G5].
Qed.

Lemma UndelegateCoins_ok ctx m a amt f s u s' : sound (BlockTime ctx) f s -> addr_ok a -> addr_ok m -> in_i64 (BlockTime ctx) -> int_coins amt ->
  UndelegateCoins ctx m a amt s = (Ok u, s') ->
  valid amt /\ sound (BlockTime ctx) f s' /\ moved m a amt s s'.
Proof.
  intros Hs Ha Hm Ht Hfit. unfold UndelegateCoins. intros (o & s0 & E0 & E)%bind_ok. unfold on_auth, GetAccount, reads in E0. rewrite set_auth_id in E0. injection E0 as <- <-.
  destruct (as_accounts (b_auth s) !! m) as [macc|]; [|done]. destruct (Coins_Validate amt) eqn:Hv; [|done]. cbn [negb] in E.
  apply bind_ok in E as ([] & s1 & E1 & E). apply (sub_ok _ _ _ _ _ _ _ Hs) in E1 as (_ & _ & -> & Hs1); [|done..]. set (s1 := set_events _ _) in *.
  apply bind_ok in E as ([] & s2 & E2 & E). apply map_err_ok in E2.
  assert (exists auth', s2 = set_auth auth' s1) as [auth' ->].
  { apply track_ok in E2 as (acc & Ea & E2). destruct (acc_kind acc) as [|va|]; [exists (b_auth s1); by rewrite set_auth_id| |exists (b_auth s1); by rewrite set_auth_id].
    destruct E2 as (va' & auth' & _ & -> & _). by exists auth'. }
  pose proof E as (_ & Hroom & ->)%credit_coins_ok; [|by apply (books_same s1); [..|apply Hs1]|done]. rewrite shift_auth. split; [done|]. split.
  - apply sound_events. apply (sound_ext _ (fun d => f d + -1 * coins_amount amt d + 1 * coins_amount amt d)); [intros d; lia|].
    assert (forall d, 0 <= bal s1 a d + 1 * coins_amount amt d < 2 ^ 256) as Hrange.
    { intros d. specialize (Hroom d). change (bal (set_auth auth' s1) a d) with (bal s1 a d) in Hroom. pose proof (books_range s1 (so_books _ _ _ Hs1) a d). pose proof (valid_nonneg amt d Hv). lia. }
    apply track_ok in E2 as (acc & Ea & E2). pose proof (so_address _ _ _ Hs1 _ _ Ea) as Eaddr.
    assert (sound (BlockTime ctx) (fun d => f d + -1 * coins_amount amt d + 1 * coins_amount amt d) (shift a 1 amt s1)) as Hplain.
    { apply (sound_shift _ _ _ _ _ _ Hs1); [done..|]. intros d. pose proof (so_funds _ _ _ Hs1 a d Ha). specialize (Hrange d). pose proof (valid_nonneg amt d Hv). lia. }
    assert (set_auth auth' s1 = s1 -> set_auth auth' (shift a 1 amt s1) = shift a 1 amt s1) as Hsame.
    { intros E3. by rewrite <- shift_auth, E3. }
    destruct (acc_kind acc) as [|va|] eqn:Ek; [by rewrite Hsame| |by rewrite Hsame].
    destruct E2 as (va' & auth'' & Eg & E3 & Eau). assert (auth' = auth'') as <- by exact (f_equal b_auth E3). rewrite Eaddr in Eau.
    pose proof (so_accounts _ _ _ Hs1 _ _ _ Ea Ek) as Hva. destruct (vesting.TrackUndelegation_inv (BlockTime ctx) amt va va' Hva Hv Eg) as (df & dv & -> & Hok' & _ & _ & Hcov).
    eapply (sound_track _ _ s1 a acc va _ 1 amt); [done..| |done]. assert (forall d, bal s1 a d + coins_amount amt d = bal s1 a d + 1 * coins_amount amt d) as Eq by lia.
    intros d. rewrite <- Eq. revert d. apply (Hcov (bal s1 a)). intros d. pose proof (so_funds _ _ _ Hs1 a d Ha) as Hf. unfold locked in Hf. by rewrite Ea, Ek in Hf.
  - subst s1. rewrite shift_events. pose proof (shift_rest a 1 amt (shift m (-1) amt s)) as [[= F1 F2 F3 F4 F5] _]. pose proof (shift_rest m (-1) amt s) as [[= G1 G2 G3 G4 G5] _].
    eapply moved_intro with (n := -1) (m := 1); [done|done|done|reflexivity| |]; cbn; rewrite ?F2, ?F3, ?F4, ?F5; [done|by rewrite G3, G4, G5].
Qed.
End Running.

Module bank_toy.
#[local] Existing Instances sdkmath sdkmath_laws sdkround sdkround_laws bech32_toy.

Definition keeper : Keeper := NewBaseKeeper {[ "bonded" := ("bonded", ["minter"; "burner"; "staking"]) ]} ∅ "gov".
Definition no_accounts : AuthState := mkAuthState (Some DefaultAuthParams) ∅ ∅ None.
Definition empty : State := mkState no_accounts ∅ ∅ ∅ ∅ ∅ (Some DefaultParams) [].
Definition at_time (t : Z) : Ctx := mkCtx 1 t.
Definition zyt (n : Z) : Coins := [mkCoin "uzyt" n].

Lemma modules : modules_ok keeper.
Proof. intros n a p E. cbn [keeper NewBaseKeeper permAddrs] in E. apply lookup_singleton_Some in E as [_ [= <- _]]. unfold addr_ok. cbn. lia. Qed.

Lemma empty_inv t : bank_inv t empty.
Proof.
  split; cbn; try done.
  split; [done|]. intros o. split; [set_solver|]. intros (a & d & _ & _ & _ & Hb). done.
Qed.

Lemma zyt_int n : n < 2 ^ 256 -> int_coins (zyt n).
Proof. intros Hn d. cbn. case_bool_decide; lia. Qed.

(** After 1000 were minted. *)
Definition minted : State := snd (MintCoins keeper (at_time 5) "bonded" (zyt 1000) empty).

Lemma minted_inv : bank_inv 5 minted.
Proof.
  assert (MintCoins keeper (at_time 5) "bonded" (zyt 1000) empty = (Ok tt, minted)) as E by (vm_compute; reflexivity).
  exact (proj1 (MintCoins_ok keeper (at_time 5) _ _ _ _ _ _ (empty_inv 5) modules E)).
Qed.

Lemma send_coins_witness : exists s, SendCoins (at_time 5) "bonded" "alice" (zyt 300) minted = (Ok tt, s) /\ bal s "alice" "uzyt" = 300 /\ bal s "bonded" "uzyt" = 700.
Proof.
  destruct (send_coins (at_time 5) "bonded" "alice" (zyt 300) minted minted_inv) as [[Hn _]|[(_ & _ & [m E])|(_ & _ & s & E & Hs & _)]].
  - unfold addr_ok. cbn. lia.
  - unfold addr_ok. cbn. lia.
  - unfold in_i64, two63. cbn. lia.
  - by apply zyt_int.
  - destruct Hn. vm_compute. reflexivity.
  - exfalso. vm_compute in E. discriminate E.
  - exists s. split; [exact E|]. rewrite !(sn_bal _ _ _ _ _ Hs) by (unfold addr_ok; cbn; lia). split; vm_compute; reflexivity.
Defined.
End bank_toy.
