(* ===== verification/BankChain.v ===== *)
(** BankChain: the bank keeper over a whole chain of calls.

    [op] lists the ways the rest of the application changes the bank: the
    keeper's methods that other modules call, and the messages of x/bank and
    x/auth/vesting behind their ValidateBasic.  A call that fails leaves no
    trace, as in a transaction (CacheKV.v), and the block time never goes back.

    Theorems: the invariant of BankBooks.v holds in every state such calls can
    reach; the invariants the code registers are then never broken. *)

From Stdlib Require Import ZArith Lia Ascii String.
From stdpp Require Import base gmap sets list strings fin_maps sorting pretty.
From S2P Require Import Prelude Sdk Wire KVStore Coins StoreKeys Vesting Auth BankStore VestingMsgs BankBooks.

Open Scope Z_scope.
Open Scope go_scope.

Import bank vestingmsgs.

Section Operations.
Context `{SdkMathLaws} `{!SdkDecRound} `{!SdkDecRoundLaws} `{Bech32} (k : Keeper).

(** ** Inputs and outputs *)

Definition sum_coins (l : list InOut) (d : string) : Z := lsum (fun io => coins_amount (io_Coins io) d) l.

Lemma sum_coins_cons io l d : sum_coins (io :: l) d = coins_amount (io_Coins io) d + sum_coins l d.
Proof. done. Qed.

Lemma Add_ok a b r : valid a -> valid b -> Coins_Add a b = Ok r -> valid r /\ forall d, coins_amount r d = coins_amount a d + coins_amount b d.
Proof.
  intros Ha Hb (Hs & Hz & Hr)%safeAdd_inv. split; [|done]. apply valid_intro; [done..|]. intros d Hd. rewrite Hr in Hd |- *.
  pose proof (valid_nonneg a d Ha). pose proof (valid_nonneg b d Hb). split; [|lia].
  destruct (Z.eq_dec (coins_amount a d) 0); [apply (valid_denom b); [done|lia]|by apply (valid_denom a)].
Qed.

Lemma positive_ok c : positive_coins c = Ok tt -> valid c.
Proof. unfold positive_coins, valid. by destruct (Coins_Validate c). Qed.

Lemma total_of_ok tot l r : valid tot -> total_of tot l = Ok r -> valid r /\ forall d, coins_amount r d = coins_amount tot d + sum_coins l d.
Proof.
  revert tot. induction l as [|io l IH]; intros tot Ht; cbn [total_of].
  - intros [= <-]. split; [done|]. intros d. change (sum_coins [] d) with 0. lia.
  - unfold InOut_ValidateBasic. destruct (AccAddressFromBech32 _); [|done]. destruct (Coins_Validate (io_Coins io)) eqn:Hv; [|done]. destruct (IsAllPositive _); [|done]. cbn [negb obind].
    destruct (Coins_Add tot (io_Coins io)) as [tot'|e|] eqn:E; [|done..]. cbn [obind]. apply Add_ok in E as [Ht' E]; [|done..].
    intros [Hr Ha]%IH; [|done]. split; [done|]. intros d. rewrite Ha, E, sum_coins_cons. lia.
Qed.

Lemma ValidateInputsOutputs_ok ins outs : ValidateInputsOutputs ins outs = Ok tt -> forall d, sum_coins ins d = sum_coins outs d.
Proof.
  unfold ValidateInputsOutputs. destruct (total_of [] ins) as [a|e|] eqn:Ea; [|done..]. destruct (total_of [] outs) as [b|e|] eqn:Eb; [|done..]. cbn [obind].
  apply total_of_ok in Ea as [Ha Ea]; [|done]. apply total_of_ok in Eb as [Hb Eb]; [|done].
  destruct (Coins_IsEqual a b) as [[]|e|] eqn:E; [|done..]. apply Coins_IsEqual_true in E as ->; [|done..]. intros _ d. specialize (Ea d). specialize (Eb d). cbn in *. lia.
Qed.

Lemma parsed_addr s a : AccAddressFromBech32 s = Some a -> addr_ok a.
Proof. by intros E%AccAddressFromBech32_valid%VerifyAddressFormat_spec. Qed.

Lemma from_bech32_ok x s a s' : from_bech32 x s = (Ok a, s') -> addr_ok a /\ s' = s.
Proof. unfold from_bech32. destruct (AccAddressFromBech32 x) as [b|] eqn:E; [|done]. intros [-> ->]%ret_ok. split; [by eapply parsed_addr|done]. Qed.

(** A loop over inputs or outputs that shifts the books by [n] times each. *)
Lemma sides_ok (g : InOut -> M State unit) n t l f s u s' :
  (forall io f s u s', io ∈ l -> sound t f s -> g io s = (Ok u, s') -> sound t (fun d => f d + n * coins_amount (io_Coins io) d) s') ->
  sound t f s -> for_each l g s = (Ok u, s') -> sound t (fun d => f d + n * sum_coins l d) s'.
Proof.
  revert f s. induction l as [|io l IH]; intros f s Hg Hs.
  - intros [_ ->]%ret_ok. eapply sound_ext; [|exact Hs]. intros d. change (sum_coins [] d) with 0. lia.
  - cbn [for_each]. intros ([] & s1 & E & E')%bind_ok. eapply sound_ext; [|eapply IH; [|eapply Hg; [|exact Hs|exact E]|exact E']].
    + intros d. rewrite sum_coins_cons. cbn beta. lia.
    + intros io' f' s2 u' s3 Hin. apply Hg. by right.
    + by left.
Qed.

Lemma input_ok ctx io f s u s' : sound (BlockTime ctx) f s -> in_i64 (BlockTime ctx) -> int_coins (io_Coins io) ->
  process_input ctx io s = (Ok u, s') -> sound (BlockTime ctx) (fun d => f d + -1 * coins_amount (io_Coins io) d) s'.
Proof.
  intros Hs Ht Hfit. unfold process_input. intros (a & s1 & [Ha ->]%from_bech32_ok & E)%bind_ok. apply bind_ok in E as ([] & s2 & E2 & E).
  apply modify_ok in E as ->. apply sound_events. by apply (sub_ok _ _ _ _ _ _ _ Hs) in E2 as (_ & _ & _ & E2).
Qed.

Lemma output_ok t io f s u s' : sound t f s -> process_output io s = (Ok u, s') -> sound t (fun d => f d + 1 * coins_amount (io_Coins io) d) s'.
Proof.
  intros Hs. unfold process_output. intros (a & s1 & [Ha ->]%from_bech32_ok & E)%bind_ok. apply bind_ok in E as ([] & s2 & E2 & E).
  apply (add_ok _ _ _ _ _ _ _ Hs) in E2 as (_ & _ & E2); [|done]. apply bind_ok in E as ([] & s3 & E3 & E). apply modify_ok in E3 as ->.
  rewrite create_account_run in E. injection E as _ <-. exact (sound_with_account _ _ _ _ (sound_events _ _ _ _ E2)).
Qed.

Lemma InputOutputCoins_ok ctx ins outs f s u s' : sound (BlockTime ctx) f s -> in_i64 (BlockTime ctx) -> Forall (fun io => int_coins (io_Coins io)) ins ->
  InputOutputCoins ctx ins outs s = (Ok u, s') -> sound (BlockTime ctx) f s'.
Proof.
  intros Hs Ht Hfit. unfold InputOutputCoins. intros ([] & s1 & E1 & E)%bind_ok. unfold lift in E1. injection E1 as E1 <-.
  apply bind_ok in E as ([] & s2 & E2 & E). pose proof (ValidateInputsOutputs_ok _ _ E1) as Heq.
  apply (sides_ok (process_input ctx) (-1) (BlockTime ctx) ins f) in E2; [|intros io f' s1 u' s1' Hin Hs'; apply input_ok; [done..|by eapply Forall_forall in Hfit]|done].
  eapply sides_ok with (n := 1) in E; [|intros io f' s1 u' s1' _ Hs'; by apply output_ok|exact E2].
  eapply sound_ext; [|exact E]. intros d. cbn beta. rewrite Heq. lia.
Qed.

(** ** Vesting accounts *)

(** A new account with a schedule that the balance covers. *)
Lemma sound_new_vesting t f s auth' a acc va : sound t f s -> as_accounts auth' = <[a := acc]> (as_accounts (b_auth s)) ->
  acc_Address acc = a -> acc_kind acc = VestingAccount va -> vesting.account_ok va -> vesting.covered t va (bal s a) -> sound t f (set_auth auth' s).
Proof.
  intros [Hb Had Hok Hf Hsu Ht] E Ea Ek Hva Hc. split; cbn [set_auth b_auth]; try done.
  - by apply (books_same s).
  - intros b acc'. rewrite E. intros [[<- <-]|[_ ?]]%lookup_insert_Some; [done|by apply Had].
  - intros b acc' va'. rewrite E. intros [[<- <-]|[_ Hb']]%lookup_insert_Some Ek'; [|by eapply Hok]. rewrite Ek in Ek'. by injection Ek' as <-.
  - intros b d Hb'. change (bal (set_auth auth' s) b d) with (bal s b d). unfold locked. rewrite E. destruct (decide (a = b)) as [<-|Hne].
    + rewrite lookup_insert_eq, Ek. apply Hc.
    + rewrite lookup_insert_ne by done. by apply (Hf b d).
Qed.

Lemma create_vesting_run to va s : exists auth' acc, create_vesting to va s = (Ok tt, set_auth auth' s) /\
  as_accounts auth' = <[to := acc]> (as_accounts (b_auth s)) /\ acc_Address acc = to /\ acc_kind acc = VestingAccount va.
Proof. do 2 eexists. split; [reflexivity|]. split; [reflexivity|]. split; reflexivity. Qed.

Lemma locked_new_le t auth auth' a acc b d : as_accounts auth !! a = None -> as_accounts auth' = <[a := acc]> (as_accounts auth) ->
  locked t auth b d <= locked t auth' b d.
Proof.
  intros Hnone E. destruct (decide (a = b)) as [<-|Hne].
  - etrans; [|apply locked_nonneg]. unfold locked. by rewrite Hnone.
  - unfold locked. by rewrite E, lookup_insert_ne by done.
Qed.

(** The recipient gets its account first and the coins that back it then. *)
Lemma grant_ok ctx from to va amt f s u s' : sound (BlockTime ctx) f s -> addr_ok from -> addr_ok to -> in_i64 (BlockTime ctx) -> int_coins amt ->
  as_accounts (b_auth s) !! to = None -> vesting.account_ok va -> vesting.OriginalVesting (vesting.base va) = amt ->
  (create_vesting to va ;;! SendCoins ctx from to amt) s = (Ok u, s') -> sound (BlockTime ctx) f s'.
Proof.
  intros Hs Hf Ht Htime Hfit Hnone Hva Eov. destruct (create_vesting_run to va s) as (auth' & acc & E & Eau & Ea & Ek). rewrite (bind_run _ _ _ _ _ E). clear E.
  set (s1 := set_auth auth' s). assert (books s1) as Hb1 by (apply (books_same s); [done..|apply Hs]).
  assert (accounts_ok (b_auth s1)) as Hok1.
  { intros b acc' va'. cbn [b_auth set_auth s1]. rewrite Eau. intros [[<- <-]|[_ Hb]]%lookup_insert_Some Ek'; [rewrite Ek in Ek'; by injection Ek' as <-|by eapply (so_accounts _ _ _ Hs)]. }
  unfold SendCoins. intros ([] & s2 & E2 & E)%bind_ok.
  destruct (subUnlockedCoins_run ctx from amt s1 Hb1 Hf Hok1 Htime Hfit) as [[_ E']|[(Hv & Hsend & E')|(_ & _ & [m E'])]]; rewrite E2 in E'; [done| |done]. injection E' as ->.
  assert (forall d, locked (BlockTime ctx) (b_auth s) from d <= bal s from d + -1 * coins_amount amt d < 2 ^ 256) as Hr.
  { intros d. pose proof (books_range s (so_books _ _ _ Hs) from d). pose proof (so_funds _ _ _ Hs from d Hf). pose proof (valid_nonneg amt d Hv) as Hn.
    destruct (Z.eq_dec (coins_amount amt d) 0) as [->|]; [lia|]. specialize (Hsend d). pose proof (locked_new_le (BlockTime ctx) (b_auth s) auth' to acc from d Hnone Eau).
    change (bal s1 from d) with (bal s from d) in Hsend. change (b_auth s1) with auth' in Hsend. lia. }
  pose proof (sound_shift _ _ _ _ _ _ Hs Hf Hv Hr) as Hs2. subst s1. rewrite shift_auth in E2, E.
  apply bind_ok in E as ([] & s3 & E3 & E). apply credit_coins_ok in E3 as (_ & Hroom & ->); [|by apply (books_same (shift from (-1) amt s)); [..|apply Hs2]|done].
  rewrite send_tail in E. injection E as _ <-. apply sound_events. rewrite shift_events, shift_auth. cbn [b_auth set_auth set_events b_events].
  change (forall d, bal (shift from (-1) amt s) to d + coins_amount amt d < 2 ^ 256) in Hroom.
  assert (sound (BlockTime ctx) f (shift to 1 amt (shift from (-1) amt s))) as Hs3.
  { eapply sound_ext; [|apply (sound_shift _ _ _ to 1 amt Hs2); [done..|]]; [intros d; cbn; lia|]. intros d. specialize (Hroom d). pose proof (so_funds _ _ _ Hs2 to d Ht). pose proof (valid_nonneg amt d Hv). lia. }
  assert (with_account to auth' = auth') as -> by (unfold with_account; by rewrite Eau, lookup_insert_eq).
  apply (sound_new_vesting _ _ (set_events _ (shift to 1 amt (shift from (-1) amt s))) auth' to acc va); [by apply sound_events| |exact Ea|exact Ek|exact Hva|].
  - cbn [b_auth set_events]. pose proof (shift_rest to 1 amt (shift from (-1) amt s)) as [[= -> _ _ _ _] _]. pose proof (shift_rest from (-1) amt s) as [[= -> _ _ _ _] _]. done.
  - intros d. change (bal (set_events _ ?x) ?y ?z) with (bal x y z). rewrite !bal_shift, (bool_decide_true (to = to)) by done. destruct Hva as [Ho Hsc Hdv _].
    pose proof (vesting.vesting_amount_bounds (BlockTime ctx) va d Ho Hsc) as Hvb. rewrite Eov in Hvb. pose proof (valid_nonneg _ d Hdv). pose proof (valid_nonneg amt d Hv).
    pose proof (books_range s (so_books _ _ _ Hs) to d). case_bool_decide as Eft; [|lia]. subst from. specialize (Hr d). pose proof (locked_nonneg (BlockTime ctx) (b_auth s) to d). lia.
Qed.

Lemma recipient_free_ok to s u s' : recipient_free k to s = (Ok u, s') -> s' = s /\ as_accounts (b_auth s) !! to = None.
Proof.
  unfold recipient_free. destruct (BlockedAddr k to); [done|]. intros (o & s1 & E1 & E)%bind_ok. unfold on_auth, GetAccount, reads in E1. rewrite set_auth_id in E1. injection E1 as <- <-.
  destruct (as_accounts (b_auth s) !! to) as [acc|]; [done|]. by apply ret_ok in E as [_ ->].
Qed.

Lemma IsSendEnabledCoins_ok amt s u s' : IsSendEnabledCoins amt s = (Ok u, s') -> s' = s.
Proof.
  unfold IsSendEnabledCoins. destruct amt as [|c amt]; [by intros [_ ->]%ret_ok|]. intros (p & s1 & E1 & E)%bind_ok. injection E1 as <- <-.
  apply (for_each_inv (fun s' => s' = s)) in E; [done| |done]. intros c' s2 [] s3 E2 ->. apply bind_ok in E2 as (b & s4 & E3 & E2).
  unfold getSendEnabledOrDefault in E3. apply bind_ok in E3 as (r & s5 & E4 & E3). injection E4 as <- <-. apply ret_ok in E3 as [_ ->]. destruct b; [by apply ret_ok in E2 as [_ ->]|done].
Qed.

Lemma small_int c : vesting.small c -> int_coins c.
Proof. intros [_ Hs] d. specialize (Hs d). assert (2 ^ 194 < 2 ^ 256) by done. lia. Qed.

Lemma new_account_ok sch amt endt : vesting.small amt -> vesting.schedule_ok (vesting.mkVestingAccount (vesting.NewBaseVestingAccount amt endt) sch) ->
  vesting.account_ok (vesting.mkVestingAccount (vesting.NewBaseVestingAccount amt endt) sch).
Proof. by split. Qed.

(** The messages of x/auth/vesting. *)
Lemma CreateVestingAccount_ok ctx msg f s u s' : sound (BlockTime ctx) f s -> in_i64 (BlockTime ctx) -> 0 <= BlockTime ctx ->
  vesting.small (cv_Amount msg) -> in_i64 (cv_EndTime msg) -> MsgCreateVestingAccount_ValidateBasic msg = Ok tt ->
  CreateVestingAccount k ctx msg s = (Ok u, s') -> sound (BlockTime ctx) f s'.
Proof.
  intros Hs Ht Ht0 Hsm He Hv. assert (0 < cv_EndTime msg) as Hpos.
  { revert Hv. unfold MsgCreateVestingAccount_ValidateBasic, parse_address. destruct (AccAddressFromBech32 _); [|done]. destruct (AccAddressFromBech32 _); [|done].
    destruct (positive_coins _); [|done..]. cbn. by destruct (Z.leb_spec (cv_EndTime msg) 0). }
  unfold CreateVestingAccount. intros ([] & s1 & E1%IsSendEnabledCoins_ok & E)%bind_ok. subst s1.
  apply bind_ok in E as (from & s1 & [Hf ->]%from_bech32_ok & E). apply bind_ok in E as (to & s1 & [Hto ->]%from_bech32_ok & E).
  apply bind_ok in E as ([] & s1 & [-> Hnone]%recipient_free_ok & E). rewrite sort_valid in E by apply Hsm.
  eapply grant_ok; [done|exact Hf|exact Hto|done|by apply small_int|exact Hnone| | |exact E].
  - assert (in_i64 (cv_EndTime msg - BlockTime ctx)) by (unfold in_i64, two63 in *; lia). destruct (cv_Delayed msg); apply new_account_ok; try done; split_and!; done.
  - by destruct (cv_Delayed msg).
Qed.

Lemma CreatePermanentLockedAccount_ok ctx msg f s u s' : sound (BlockTime ctx) f s -> in_i64 (BlockTime ctx) -> vesting.small (cl_Amount msg) ->
  CreatePermanentLockedAccount k ctx msg s = (Ok u, s') -> sound (BlockTime ctx) f s'.
Proof.
  intros Hs Ht Hsm. unfold CreatePermanentLockedAccount. intros ([] & s1 & E1%IsSendEnabledCoins_ok & E)%bind_ok. subst s1.
  apply bind_ok in E as (from & s1 & [Hf ->]%from_bech32_ok & E). apply bind_ok in E as (to & s1 & [Hto ->]%from_bech32_ok & E).
  apply bind_ok in E as ([] & s1 & [-> Hnone]%recipient_free_ok & E).
  eapply grant_ok; [done|exact Hf|exact Hto|done|by apply small_int|exact Hnone| | |exact E]; [by apply new_account_ok|done].
Qed.

Lemma check_periods_ok ps : check_periods ps = Ok tt -> vesting.periods_ok ps.
Proof.
  induction ps as [|p ps IH]; cbn [check_periods]; intros E; [constructor|]. destruct (positive_coins (vesting.p_Amount p)) as [[]| |] eqn:Ep; [|done..]. cbn [obind] in E.
  destruct (Z.ltb_spec (vesting.Length p) 1); [done|]. constructor; [split; [lia|by apply positive_ok]|by apply IH].
Qed.

(** What the periods of a message add up to fits. *)
Definition periods_fit (start : Z) (ps : list vesting.Period) : Prop :=
  in_i64 start /\ in_i64 (vesting.total_length ps) /\ in_i64 (start + vesting.total_length ps) /\ forall d, vesting.total_amount ps d < 2 ^ 194.

Lemma CreatePeriodicVestingAccount_ok ctx msg f s u s' : sound (BlockTime ctx) f s -> in_i64 (BlockTime ctx) -> periods_fit (cp_StartTime msg) (cp_VestingPeriods msg) ->
  MsgCreatePeriodicVestingAccount_ValidateBasic msg = Ok tt -> CreatePeriodicVestingAccount k ctx msg s = (Ok u, s') -> sound (BlockTime ctx) f s'.
Proof.
  intros Hs Ht (Hst & Hl & Hend & Hfit) Hv. assert (vesting.periods_ok (cp_VestingPeriods msg)) as Hp.
  { revert Hv. unfold MsgCreatePeriodicVestingAccount_ValidateBasic. destruct (AccAddressFromBech32 _); [|done]. destruct (AccAddressFromBech32 _); [|done].
    destruct (VerifyAddressFormat _); [|done]. destruct (VerifyAddressFormat _); [|done]. cbn. destruct (_ <? 1); [done|]. apply check_periods_ok. }
  unfold CreatePeriodicVestingAccount. intros (from & s1 & [Hf ->]%from_bech32_ok & E)%bind_ok. apply bind_ok in E as (to & s1 & [Hto ->]%from_bech32_ok & E).
  apply bind_ok in E as ([] & s1 & [-> Hnone]%recipient_free_ok & E). apply bind_ok in E as (total & s1 & Et & E). unfold lift in Et. injection Et as Et <-.
  assert (2 ^ 194 < 2 ^ 256) as Hlt by done.
  destruct (vesting.TotalAmount_from_run [] _ Hp) as (r & Er & Hr & Hamt); [done|intros d; specialize (Hfit d); cbn; lia|]. unfold vesting.TotalAmount in Et. rewrite Et in Er. injection Er as ->.
  assert (vesting.small r) as Hsm by (split; [done|intros d; rewrite Hamt; apply Hfit]).
  apply bind_ok in E as ([] & s1 & E1%IsSendEnabledCoins_ok & E). subst s1. rewrite sort_valid in E by done.
  eapply grant_ok; [done|exact Hf|exact Hto|done|by apply small_int|exact Hnone| | |exact E]; [|done].
  unfold vesting.NewPeriodicVestingAccount. rewrite vesting.TotalLength_from_run by done. split; cbn; [done| |done..]. split; [done|]. cbn. split_and!; [done..|]. intros d. by rewrite Hamt.
Qed.

(** ** Calls *)

Lemma sound_same t f s s' : b_auth s' = b_auth s -> b_balances s' = b_balances s -> b_owners s' = b_owners s -> b_supply s' = b_supply s -> sound t f s -> sound t f s'.
Proof.
  intros E1 E2 E3 E4 [Hb Had Hok Hf Hsu Ht]. split; unfold bal, total, supply_of; rewrite ?E1, ?E2, ?E4; try done. by apply (books_same s).
Qed.

(** A key or a sequence of an account: the schedule stays. *)
Definition update_account (a : string) (g : Account -> outcome Account) : M State unit :=
  let! acc := on_auth (GetAccount a) in
  match acc with
  | None => throw (Wrapf "account does not exist" ErrUnknownAddress)
  | Some acc => let! acc' := lift (g acc) in on_auth (SetAccount acc')
  end.

Lemma update_account_ok a g t f s u s' : (forall acc acc', g acc = Ok acc' -> acc_Address acc' = acc_Address acc /\ acc_kind acc' = acc_kind acc) ->
  sound t f s -> update_account a g s = (Ok u, s') -> sound t f s'.
Proof.
  intros Hg Hs. unfold update_account. intros (o & s1 & E1 & E)%bind_ok. unfold on_auth, GetAccount, reads in E1. rewrite set_auth_id in E1. injection E1 as <- <-.
  destruct (as_accounts (b_auth s) !! a) as [acc|] eqn:Ea; [|done]. apply bind_ok in E as (acc' & s1 & E1 & E). unfold lift in E1. injection E1 as E1 <-.
  apply Hg in E1 as [Eaddr Ek]. rewrite (so_address _ _ _ Hs _ _ Ea) in Eaddr. unfold on_auth, SetAccount, modify in E. injection E as _ <-. rewrite Eaddr.
  assert (forall b c, <[a := acc']> (as_accounts (b_auth s)) !! b = Some c -> exists c', as_accounts (b_auth s) !! b = Some c' /\ acc_kind c = acc_kind c' /\ acc_Address c = acc_Address c') as Hlook.
  { intros b c [[<- <-]|[_ Hb]]%lookup_insert_Some; [exists acc; split_and!; [done..|]; by rewrite (so_address _ _ _ Hs _ _ Ea)|by exists c]. }
  destruct Hs as [Hb Had Hok Hf Hsu Ht]. split; cbn [set_auth b_auth as_accounts]; try done.
  - by apply (books_same s).
  - intros b c (c' & Hc & _ & ->)%Hlook. by apply Had.
  - intros b c va (c' & Hc & Ekc & _)%Hlook Ev. rewrite Ekc in Ev. by eapply Hok.
  - intros b d Hb'. etrans; [|by apply (Hf b d)]. unfold locked. cbn [as_accounts]. destruct (decide (a = b)) as [<-|Hne]; [by rewrite lookup_insert_eq, Ea, Ek|by rewrite lookup_insert_ne].
Qed.

(** The keeper's methods that change the bank, and the messages behind their
    ValidateBasic. *)
Inductive op : Type :=
  | KSendCoins (from to : string) (amt : Coins)
  | KInputOutputCoins (inputs outputs : list InOut)
  | KModuleToAccount (m a : string) (amt : Coins)
  | KModuleToModule (m m' : string) (amt : Coins)
  | KAccountToModule (a m : string) (amt : Coins)
  | KMintCoins (m : string) (amt : Coins)
  | KBurnCoins (m : string) (amt : Coins)
  | KDelegateCoins (a m : string) (amt : Coins)
  | KUndelegateCoins (m a : string) (amt : Coins)
  | KDelegateToModule (a m : string) (amt : Coins)
  | KUndelegateFromModule (m a : string) (amt : Coins)
  | KSetParams (p : Params)
  | KSetDenomMetaData (md : Metadata)
  | KSetSequence (a : string) (n : Z)
  | KSetPubKey (a : string) (pk : PubKey)
  | MSend (msg : MsgSend)
  | MMultiSend (msg : MsgMultiSend)
  | MUpdateParams (auth : string) (p : Params)
  | MSetSendEnabled (msg : MsgSetSendEnabled)
  | MCreateVesting (msg : MsgCreateVestingAccount)
  | MCreateLocked (msg : MsgCreatePermanentLockedAccount)
  | MCreatePeriodic (msg : MsgCreatePeriodicVestingAccount).

Definition exec (ctx : Ctx) (o : op) : M State unit :=
  match o with
  | KSendCoins from to amt => SendCoins ctx from to amt
  | KInputOutputCoins inputs outputs => InputOutputCoins ctx inputs outputs
  | KModuleToAccount m a amt => SendCoinsFromModuleToAccount k ctx m a amt
  | KModuleToModule m m' amt => SendCoinsFromModuleToModule k ctx m m' amt
  | KAccountToModule a m amt => SendCoinsFromAccountToModule k ctx a m amt
  | KMintCoins m amt => MintCoins k ctx m amt
  | KBurnCoins m amt => BurnCoins k ctx m amt
  | KDelegateCoins a m amt => DelegateCoins ctx a m amt
  | KUndelegateCoins m a amt => UndelegateCoins ctx m a amt
  | KDelegateToModule a m amt => DelegateCoinsFromAccountToModule k ctx a m amt
  | KUndelegateFromModule m a amt => UndelegateCoinsFromModuleToAccount k ctx m a amt
  | KSetParams p => bank.SetParams p
  | KSetDenomMetaData md => SetDenomMetaData md
  | KSetSequence a n => update_account a (fun acc => Ok (SetSequence acc n))
  | KSetPubKey a pk => update_account a (fun acc => SetPubKey acc pk)
  | MSend msg => lift (MsgSend_ValidateBasic msg) ;;! Send k ctx msg
  | MMultiSend msg => lift (MsgMultiSend_ValidateBasic msg) ;;! MultiSend k ctx msg
  | MUpdateParams auth p => UpdateParams k auth p
  | MSetSendEnabled msg => lift (MsgSetSendEnabled_ValidateBasic msg) ;;! msg_SetSendEnabled k msg
  | MCreateVesting msg => lift (MsgCreateVestingAccount_ValidateBasic msg) ;;! CreateVestingAccount k ctx msg
  | MCreateLocked msg => lift (MsgCreatePermanentLockedAccount_ValidateBasic msg) ;;! CreatePermanentLockedAccount k ctx msg
  | MCreatePeriodic msg => lift (MsgCreatePeriodicVestingAccount_ValidateBasic msg) ;;! CreatePeriodicVestingAccount k ctx msg
  end.

(** What the types of the arguments say, and what the vesting arithmetic needs:
    coins are sdk.Int, times are int64, addresses of the keeper's methods have
    the length that a key can hold, and schedules fit. *)
Definition op_ok (o : op) : Prop :=
  match o with
  | KSendCoins from to amt => addr_ok from /\ addr_ok to /\ int_coins amt
  | KInputOutputCoins inputs _ => Forall (fun io => int_coins (io_Coins io)) inputs
  | KModuleToAccount _ a amt | KAccountToModule a _ amt | KDelegateToModule a _ amt | KUndelegateFromModule _ a amt => addr_ok a /\ int_coins amt
  | KModuleToModule _ _ amt | KMintCoins _ amt | KBurnCoins _ amt => int_coins amt
  | KDelegateCoins a m amt | KUndelegateCoins m a amt => addr_ok a /\ addr_ok m /\ int_coins amt
  | MSend msg => int_coins (ms_Amount msg)
  | MMultiSend msg => Forall (fun io => int_coins (io_Coins io)) (mm_Inputs msg)
  | MCreateVesting msg => vesting.small (cv_Amount msg) /\ in_i64 (cv_EndTime msg)
  | MCreateLocked msg => vesting.small (cl_Amount msg)
  | MCreatePeriodic msg => periods_fit (cp_StartTime msg) (cp_VestingPeriods msg)
  | _ => True
  end.
End Operations.

Section Chain.
Context `{SdkMathLaws} `{!SdkDecRound} `{!SdkDecRoundLaws} `{Bech32} (k : Keeper) (Hk : modules_ok k).

(** The module's account, then the call on its address. *)
Lemma module_step {A} t f m (g : Account -> M State A) s r s' : sound t f s -> (let! acc := module_account k m in g acc) s = (Ok r, s') ->
  exists acc s1, addr_ok (acc_Address acc) /\ sound t f s1 /\ g acc s1 = (Ok r, s').
Proof.
  intros Hs (acc & s1 & E1 & E)%bind_ok. apply (module_account_ok k _ _ _ _ _ _ Hs Hk) in E1 as (perms & auth' & _ & Ha & -> & Hs1 & _). by exists acc, (set_auth auth' s).
Qed.

Lemma module_address_step {A} m (g : string -> M State A) s r s' : (let! a := or_panic (GetModuleAddress (permAddrs k) m) in g a) s = (Ok r, s') ->
  exists a, addr_ok a /\ g a s = (Ok r, s').
Proof.
  intros (a & s1 & [E ->]%or_panic_ok & E')%bind_ok. exists a. split; [|done]. unfold GetModuleAddress in E.
  destruct (permAddrs k !! m) as [[b perms]|] eqn:Ep; [|done]. cbn in E. injection E as <-. by eapply Hk.
Qed.

Lemma validated (c : outcome unit) (g : M State unit) s u s' : (lift c ;;! g) s = (Ok u, s') -> c = Ok tt /\ g s = (Ok u, s').
Proof. intros ([] & s1 & E1 & E)%bind_ok. unfold lift in E1. by injection E1 as E1 <-. Qed.

Lemma SetParams_ok p t f s u s' : sound t f s -> bank.SetParams p s = (Ok u, s') -> sound t f s'.
Proof.
  intros Hs. unfold bank.SetParams. destruct (p_SendEnabled p) as [|e l]; [intros ->%modify_ok; by apply (sound_same _ _ s)|].
  intros ([] & s1 & E1 & ->%modify_ok)%bind_ok. apply (sound_same _ _ s1); [done..|]. revert E1 Hs. apply for_each_inv. intros x s2 u2 s3 ->%modify_ok. by apply sound_same.
Qed.

Lemma exec_ok ctx o f s u s' : sound (BlockTime ctx) f s -> in_i64 (BlockTime ctx) -> 0 <= BlockTime ctx -> op_ok o ->
  exec k ctx o s = (Ok u, s') -> sound (BlockTime ctx) f s'.
Proof.
  intros Hs Ht Ht0. destruct o; cbn [exec op_ok]; intros Ho E.
  - destruct Ho as (? & ? & ?). by apply (transfer_ok _ _ _ _ _ _ _ _ Hs) in E as (_ & _ & _ & ?).
  - by eapply InputOutputCoins_ok.
  - destruct Ho. apply module_address_step in E as (b & Hb & E). destruct (BlockedAddr k a); [done|]. by apply (transfer_ok _ _ _ _ _ _ _ _ Hs) in E as (_ & _ & _ & ?).
  - apply module_address_step in E as (b & Hb & E). apply (module_step _ _ _ _ _ _ _ Hs) in E as (acc & s1 & Ha & Hs1 & E).
    by apply (transfer_ok _ _ _ _ _ _ _ _ Hs1) in E as (_ & _ & _ & ?).
  - destruct Ho. apply (module_step _ _ _ _ _ _ _ Hs) in E as (acc & s1 & Ha & Hs1 & E). by apply (transfer_ok _ _ _ _ _ _ _ _ Hs1) in E as (_ & _ & _ & ?).
  - by apply (MintCoins_ok _ _ _ _ _ _ _ _ Hs) in E as [? _].
  - by apply (BurnCoins_ok _ _ _ _ _ _ _ _ Hs) in E as [? _].
  - destruct Ho as (? & ? & ?). by apply (DelegateCoins_ok _ _ _ _ _ _ _ _ Hs) in E as (_ & ? & _).
  - destruct Ho as (? & ? & ?). by apply (UndelegateCoins_ok _ _ _ _ _ _ _ _ Hs) in E as (_ & ? & _).
  - destruct Ho. apply (module_step _ _ _ _ _ _ _ Hs) in E as (acc & s1 & Ha & Hs1 & E). destruct (HasPermission acc _); [|done].
    by apply (DelegateCoins_ok _ _ _ _ _ _ _ _ Hs1) in E as (_ & ? & _).
  - destruct Ho. apply (module_step _ _ _ _ _ _ _ Hs) in E as (acc & s1 & Ha & Hs1 & E). destruct (HasPermission acc _); [|done].
    by apply (UndelegateCoins_ok _ _ _ _ _ _ _ _ Hs1) in E as (_ & ? & _).
  - by eapply SetParams_ok.
  - apply modify_ok in E as ->. by apply (sound_same _ _ s).
  - eapply update_account_ok; [|exact Hs|exact E]. by intros acc acc' [= <-].
  - eapply update_account_ok; [|exact Hs|exact E]. intros acc acc'. unfold SetPubKey. destruct (acc_kind acc) eqn:Ek; intros [= <-]; by rewrite Ek || done.
  - apply validated in E as [_ E]. unfold Send in E. apply bind_ok in E as ([] & s1 & E1%IsSendEnabledCoins_ok & E). subst s1.
    apply bind_ok in E as (from & s1 & [Hf ->]%from_bech32_ok & E). apply bind_ok in E as (to & s1 & [Hto ->]%from_bech32_ok & E). destruct (BlockedAddr k to); [done|].
    by apply (transfer_ok _ _ _ _ _ _ _ _ Hs) in E as (_ & _ & _ & ?).
  - apply validated in E as [_ E]. unfold MultiSend in E. apply bind_ok in E as ([] & s1 & E1 & E).
    assert (s1 = s) as -> by (apply (for_each_inv (fun s' => s' = s)) in E1; [done| |done]; intros x s2 u2 s3 E2%IsSendEnabledCoins_ok ->; done).
    apply bind_ok in E as ([] & s1 & E2 & E).
    assert (s1 = s) as ->.
    { apply (for_each_inv (fun s' => s' = s)) in E2; [done| |done]. clear E2. intros x s2 u2 s3 E2 ->. unfold output_allowed in E2. apply bind_ok in E2 as (a & s4 & [_ ->]%or_panic_ok & E2).
      destruct (BlockedAddr k a); [done|]. by apply ret_ok in E2 as [_ ->]. }
    by eapply InputOutputCoins_ok.
  - unfold UpdateParams in E. case_bool_decide; [done|]. by eapply SetParams_ok.
  - apply validated in E as [_ E]. unfold msg_SetSendEnabled in E. case_bool_decide; [done|]. apply bind_ok in E as ([] & s1 & E1 & E).
    apply (for_each_inv (sound (BlockTime ctx) f)) in E; [done|intros x s2 u2 s3 ->%modify_ok; by apply sound_same|].
    apply (for_each_inv (sound (BlockTime ctx) f)) in E1; [done|intros x s2 u2 s3 ->%modify_ok; by apply sound_same|done].
  - apply validated in E as [Hv E]. destruct Ho. by eapply CreateVestingAccount_ok.
  - apply validated in E as [Hv E]. by eapply CreatePermanentLockedAccount_ok.
  - apply validated in E as [Hv E]. by eapply CreatePeriodicVestingAccount_ok.
Qed.

(** ** The registered invariants *)

Definition addr_of (key : string) : string := match AddressAndDenomFromBalancesStore key with Ok p => fst p | _ => "" end.

(** What an entry of the store says. *)
Definition entry_of (kv : string * Z) : string * Coin := (addr_of kv.1, mkCoin (denom_of kv.1) kv.2).

Definition entry_ok (kv : string * Z) : Prop := exists a d, kv.1 = balance_key a d /\ addr_ok a /\ ValidateDenom d = true /\ 0 < kv.2 < 2 ^ 256.

Definition coin_ok (c : Coin) : Prop := ValidateDenom (Denom c) = true /\ 0 < Amount c.

Lemma all_balances_run l : Forall entry_ok l -> all_balances l = Ok (entry_of <$> l) /\ Forall (fun p => coin_ok (snd p)) (entry_of <$> l).
Proof.
  induction 1 as [|[key x] l (a & d & E & Ha & Hd & Hx) Hl [IH1 IH2]]; [done|]. cbn in E, Hx. subst key. rewrite fmap_cons. cbn [all_balances]. unfold entry_of at 1 3. unfold addr_of, denom_of. cbn [fst snd].
  rewrite parse_balance_key by done. cbn [no_err obind fst snd]. unfold UnmarshalBalanceCompat. rewrite Hd. cbn [negb from_option id]. rewrite vesting.NewCoin_run by (done || (cbn; lia)). cbn [o_panic no_err obind].
  rewrite IH1. split; [done|]. constructor; [split; [done|cbn; lia]|done].
Qed.

Lemma add_each_run tot l : valid tot -> Forall coin_ok l -> (forall d, coins_amount tot d + coins_amount l d < 2 ^ 256) ->
  exists r, add_each tot l = Ok r /\ valid r /\ forall d, coins_amount r d = coins_amount tot d + coins_amount l d.
Proof.
  intros Ht Hl. revert tot Ht. induction Hl as [|c l [Hd Hc] Hl IH]; intros tot Ht Hfit.
  { exists tot. split; [done|]. split; [done|]. intros d. cbn. lia. }
  assert (forall d, 0 <= coins_amount l d) as Hnn by (intros d; clear -Hl; induction Hl as [|c l [_ ?] _ IH]; cbn; [done|case_bool_decide; lia]).
  destruct c as [e x]. cbn [Denom Amount] in *. cbn [add_each]. destruct (Coins_Add_valid tot [mkCoin e x] Ht) as (s & -> & Hs & Ha).
  - by apply vesting.one_valid.
  - intros d. specialize (Hfit d). specialize (Hnn d). cbn in Hfit |- *. case_bool_decide; lia.
  - cbn [obind]. destruct (IH s Hs) as (r & Er & Hr & Hra). { intros d. specialize (Hfit d). rewrite Ha. cbn in Hfit |- *. case_bool_decide; lia. }
    exists r. split; [done|]. split; [done|]. intros d. rewrite Hra, Ha. cbn. case_bool_decide; lia.
Qed.

Lemma add_supply_each tot l : Forall (fun kv => coin_ok (mkCoin kv.1 kv.2)) l -> add_supply tot l = add_each tot ((fun kv => mkCoin kv.1 kv.2) <$> l).
Proof.
  intros Hl. revert tot. induction Hl as [|[d x] l [Hd Hx] Hl IH]; intros tot; [done|]. cbn [add_supply fmap list_fmap add_each]. cbn in Hd, Hx.
  rewrite vesting.NewCoin_run by (done || lia). cbn [o_panic obind fst snd]. destruct (Coins_Add _ _); [apply IH|done..].
Qed.

Lemma coins_amount_fmap {A} (g : A -> Coin) l d : coins_amount (g <$> l) d = lsum (fun x => if bool_decide (Denom (g x) = d) then Amount (g x) else 0) l.
Proof. induction l as [|x l IH]; [done|]. rewrite lsum_cons. cbn. by rewrite IH. Qed.

Lemma map_sum_at (m : gmap string Z) d : map_sum (fun e x => if bool_decide (e = d) then x else 0) m = default 0 (m !! d).
Proof.
  induction m as [|e x m He IH] using map_ind; [done|]. rewrite map_sum_insert_new by done. rewrite IH. case_bool_decide; subst.
  - rewrite lookup_insert_eq, He. cbn. lia.
  - by rewrite lookup_insert_ne.
Qed.

Lemma books_entries s : books s -> Forall entry_ok (kv_prefix_iter "" (b_balances s)).
Proof. intros Hb. apply Forall_forall. intros [key x] [Hkey _]%elem_of_kv_prefix_iter. apply (bk_entry _ Hb _ _ Hkey). Qed.

Lemma entries_total s d : coins_amount (snd <$> (entry_of <$> kv_prefix_iter "" (b_balances s))) d = total s d.
Proof.
  rewrite <- list_fmap_compose, coins_amount_fmap. unfold total. by rewrite <- (lsum_kv_prefix_iter _ "") by by intros [].
Qed.

Lemma IterateAllBalances_run s : books s -> IterateAllBalances s = (Ok (entry_of <$> kv_prefix_iter "" (b_balances s)), s).
Proof. intros Hb. unfold IterateAllBalances, bind, reads, lift. by rewrite (proj1 (all_balances_run _ (books_entries s Hb))). Qed.

Lemma supply_entries t f s : sound t f s -> Forall (fun kv => coin_ok (mkCoin kv.1 kv.2)) (kv_prefix_iter "" (b_supply s)).
Proof. intros Hs. apply Forall_forall. intros [d x] [Hd _]%elem_of_kv_prefix_iter. apply (so_supply _ _ _ Hs) in Hd. split; [apply Hd|cbn; lia]. Qed.

Lemma supply_coins_run t f s : sound t f s -> exists r, GetTotalSupply s = (Ok r, s) /\ valid r /\ forall d, coins_amount r d = supply_of s d.
Proof.
  intros Hs. pose proof (supply_entries _ _ _ Hs) as Hl.
  assert (forall d, coins_amount ((fun kv => mkCoin kv.1 kv.2) <$> kv_prefix_iter "" (b_supply s)) d = supply_of s d) as Ha.
  { intros d. rewrite coins_amount_fmap. unfold supply_of. by rewrite <- map_sum_at, <- (lsum_kv_prefix_iter _ "") by by intros []. }
  destruct (add_each_run [] ((fun kv => mkCoin kv.1 kv.2) <$> kv_prefix_iter "" (b_supply s))) as (r & Er & Hr & Hra); [done|by apply Forall_fmap| |].
  { intros d. rewrite Ha. pose proof (supply_range _ _ _ d Hs). cbn. lia. }
  exists r. split; [|split; [done|intros d; rewrite Hra, Ha; done]]. unfold GetTotalSupply, bind, reads, lift. by rewrite add_supply_each, Er.
Qed.

Lemma NonnegativeBalance_kept s : books s -> NonnegativeBalanceInvariant s = (Ok false, s).
Proof.
  intros Hb. unfold NonnegativeBalanceInvariant. rewrite (bind_run _ _ _ _ _ (IterateAllBalances_run s Hb)). unfold ret. do 2 f_equal.
  pose proof (proj2 (all_balances_run _ (books_entries s Hb))) as Hl. induction Hl as [|p l [_ Hp] Hl IH]; [done|]. cbn [existsb]. rewrite IH, orb_false_r.
  unfold Coin_IsNegative. apply Z.eqb_neq. rewrite Z.sgn_pos; lia.
Qed.

Lemma TotalSupply_kept t s : bank_inv t s -> TotalSupply s = (Ok false, s).
Proof.
  intros Hs. destruct (supply_coins_run _ _ _ Hs) as (sup & E & Hv & Ha). unfold TotalSupply. rewrite (bind_run _ _ _ _ _ E), (bind_run _ _ _ _ _ (IterateAllBalances_run s (so_books _ _ _ Hs))).
  destruct (add_each_run [] (snd <$> (entry_of <$> kv_prefix_iter "" (b_balances s)))) as (r & Er & Hr & Hra); [done| | |].
  - apply Forall_fmap. exact (proj2 (all_balances_run _ (books_entries s (so_books _ _ _ Hs)))).
  - intros d. rewrite entries_total, (so_total _ _ _ Hs d). pose proof (supply_range _ _ _ d Hs). cbn. lia.
  - unfold bind, lift. rewrite Er. assert (r = sup) as ->.
    { pose proof (valid_nonzero r Hr) as [? ?]. pose proof (valid_nonzero sup Hv) as [? ?]. apply coins_ext; [done..|]. intros d. rewrite Hra, Ha, entries_total, (so_total _ _ _ Hs d). cbn. lia. }
    by rewrite (proj2 (Coins_IsEqual_true sup sup Hv Hv)).
Qed.

(** ** All reachable states *)

(** States reached from [s0] at time [t0]: a call that fails leaves no trace. *)
Inductive reach (t0 : Z) (s0 : State) : Z -> State -> Prop :=
  | reach_start : reach t0 s0 t0 s0
  | reach_call t s ctx o r s' : reach t0 s0 t s -> t <= BlockTime ctx -> in_i64 (BlockTime ctx) -> op_ok o -> exec k ctx o s = (r, s') ->
      reach t0 s0 (BlockTime ctx) (match r with Ok _ => s' | _ => s end).

Lemma bank_reach_inv t0 s0 t s : 0 <= t0 -> bank_inv t0 s0 -> reach t0 s0 t s -> 0 <= t /\ bank_inv t s.
Proof.
  intros Ht0 Hi. induction 1 as [|t s ctx o r s' _ [Ht IH] Hle Hrange Ho E]; [done|]. split; [lia|].
  pose proof (sound_later _ _ _ _ Hle IH) as Hs. destruct r as [[]| |]; [|done..]. eapply exec_ok; [exact Hs|done|lia|done|exact E].
Qed.

(** C20: The books of the bank always balance.  In every state that sends,
    multi-sends, mints, burns, delegations, the creation of vesting accounts and
    the other calls can reach from one whose books balance, at block times that
    do not go back: every stored balance is a positive amount of a valid
    denomination at an address, the index by denomination lists exactly the
    holders, the supply of each denomination is the sum of its balances, every
    account holds at least what its vesting schedule locks, and the invariants
    the code registers report nothing broken. *)
Theorem bank_books_kept t0 s0 t s : 0 <= t0 -> bank_inv t0 s0 -> reach t0 s0 t s ->
  books s /\ (forall d, total s d = supply_of s d) /\ (forall a d, addr_ok a -> locked t (b_auth s) a d <= bal s a d) /\
  AllInvariants s = (Ok false, s) /\ NonnegativeBalanceInvariant s = (Ok false, s).
Proof.
  intros Ht Hi Hr. destruct (bank_reach_inv _ _ _ _ Ht Hi Hr) as [_ Hs]. split; [apply Hs|]. split; [intros d; rewrite (so_total _ _ _ Hs); lia|].
  split; [apply Hs|]. split; [by apply (TotalSupply_kept t)|apply NonnegativeBalance_kept, Hs].
Qed.

(** ** Delegating and undelegating *)

Definition no_schedule (auth : AuthState) (m : string) : Prop := exists macc, as_accounts auth !! m = Some macc /\ forall va, acc_kind macc <> VestingAccount va.

Definition counters_fit (auth : AuthState) (a : string) (amt : Coins) : Prop :=
  forall acc va d, as_accounts auth !! a = Some acc -> acc_kind acc = VestingAccount va ->
    coins_amount (vesting.DelegatedVesting (vesting.base va)) d + coins_amount (vesting.DelegatedFree (vesting.base va)) d + coins_amount amt d < 2 ^ 256.

Lemma delegated_no_schedule a amt auth auth' m : delegated a amt auth auth' -> no_schedule auth m -> no_schedule auth' m.
Proof.
  intros (acc & Ea & E) (macc & Em & Hn). destruct (acc_kind acc) as [|va|] eqn:Ek; [subst; by exists macc| |subst; by exists macc].
  destruct E as (df & dv & E & _). exists macc. split; [|done]. rewrite E, lookup_insert_ne; [done|]. intros ->. rewrite Ea in Em. injection Em as ->. by apply (Hn va).
Qed.

Lemma no_schedule_locked t auth m d : no_schedule auth m -> locked t auth m d = 0.
Proof. intros (macc & Em & Hn). unfold locked. rewrite Em. destruct (acc_kind macc) as [|va|] eqn:Ek; [done|by destruct (Hn va)|done]. Qed.

(** What was delegated can be tracked back. *)
Lemma untrack_run a amt auth s : delegated a amt auth (b_auth s) -> counters_fit auth a amt -> valid amt -> int_coins amt -> accounts_ok auth ->
  exists auth', trackUndelegation a amt s = (Ok tt, set_auth auth' s).
Proof.
  intros (acc & Ea & E) Hfit Hv Hint Hok. unfold trackUndelegation, track.
  assert (forall x, on_auth (GetAccount a) s = (Ok x, s) <-> x = as_accounts (b_auth s) !! a) as Hget.
  { intros x. unfold on_auth, GetAccount, reads. rewrite set_auth_id. split; [by intros [= <-]|by intros ->]. }
  destruct (acc_kind acc) as [|va|] eqn:Ek.
  1, 3: exists (b_auth s); rewrite set_auth_id, (bind_run _ _ _ _ _ (proj2 (Hget _) eq_refl)), E, Ea; cbn; by rewrite Ek.
  destruct E as (df & dv & E & Hva & Hsum). rewrite (bind_run _ _ _ _ _ (proj2 (Hget _) eq_refl)), E, lookup_insert_eq. cbn [acc_kind with_vesting].
  destruct (vesting.TrackUndelegation_run amt (vesting.recount df dv va) Hva Hv Hint) as (va' & Et).
  { intros d. pose proof (Hfit _ _ d Ea Ek). specialize (Hsum d). pose proof (valid_nonneg _ d (vesting.ao_vesting _ Hva)). pose proof (valid_nonneg _ d (vesting.ao_free _ Hva)). cbn in *. lia. }
  unfold bind, lift. rewrite Et. by eexists.
Qed.

(** C22: Undelegating takes a delegation back.  After DelegateCoins has moved
    coins from an account, with or without a vesting schedule, to the account
    of a module, UndelegateCoins of the same coins at any later time succeeds
    and restores the balance of every account in every denomination, and the
    books balance. *)
Theorem delegation_roundtrip ctx ctx' a m amt s s1 : bank_inv (BlockTime ctx) s -> addr_ok a -> addr_ok m -> int_coins amt ->
  in_i64 (BlockTime ctx) -> in_i64 (BlockTime ctx') -> BlockTime ctx <= BlockTime ctx' ->
  no_schedule (b_auth s) m -> counters_fit (b_auth s) a amt ->
  DelegateCoins ctx a m amt s = (Ok tt, s1) ->
  moved a m amt s s1 /\ bank_inv (BlockTime ctx) s1 /\
  exists s2, UndelegateCoins ctx' m a amt s1 = (Ok tt, s2) /\ (forall b d, addr_ok b -> bal s2 b d = bal s b d) /\ b_supply s2 = b_supply s /\ bank_inv (BlockTime ctx') s2.
Proof.
  intros Hs Ha Hm Hint Ht Ht' Hle Hnm Hfit E. destruct (DelegateCoins_ok _ _ _ _ _ _ _ _ Hs Ha Hm Ht E) as (Hv & Hs1 & Hmoved & Hcov & Hdel).
  split; [done|]. split; [done|]. pose proof (delegated_no_schedule _ _ _ _ _ Hdel Hnm) as Hnm1. pose proof (sound_later _ _ _ _ Hle Hs1) as Hs1'. destruct Hmoved as (Hbal & Esup & _).
  assert (sendable (BlockTime ctx') s1 m amt) as Hsend.
  { intros d Hpos. rewrite no_schedule_locked, Hbal by done. pose proof (books_range s (so_books _ _ _ Hs) m d). specialize (Hcov d). unfold at_. rewrite (bool_decide_true (m = m)) by done. case_bool_decide; subst; lia. }
  destruct (subUnlockedCoins_run ctx' m amt s1 (so_books _ _ _ Hs1) Hm (so_accounts _ _ _ Hs1) Ht' Hint) as [[Hn _]|[(_ & _ & E2)|(_ & Hn & _)]]; [done| |done].
  set (s2 := set_events _ _) in E2. pose proof (sub_ok _ _ _ _ _ _ _ Hs1' Hm Ht' Hint E2) as (_ & _ & _ & Hs2).
  assert (b_auth s2 = b_auth s1) as Eauth by (pose proof (shift_rest m (-1) amt s1) as [[= E1 _ _ _ _] _]; exact E1).
  destruct (untrack_run a amt (b_auth s) s2) as (auth' & E3); [by rewrite Eauth|done|done|done|apply Hs|].
  assert (forall d, bal (set_auth auth' s2) a d + coins_amount amt d < 2 ^ 256) as Hroom.
  { intros d. change (bal (set_auth auth' s2) a d) with (bal s2 a d). pose proof (bal_le_total s2 a d (so_books _ _ _ Hs2) Ha). pose proof (so_total _ _ _ Hs2 d). pose proof (supply_range _ _ _ d Hs2). cbn beta in *. lia. }
  pose proof (addCoins_run a amt (set_auth auth' s2)) as E4. specialize (E4 ltac:(apply (books_same s2); [done..|apply Hs2]) Ha Hv Hroom).
  set (s3 := set_events _ (shift a 1 amt _)) in E4. assert (UndelegateCoins ctx' m a amt s1 = (Ok tt, s3)) as Eun.
  { unfold UndelegateCoins. unfold bind at 1, on_auth at 1, GetAccount at 1, reads at 1. rewrite set_auth_id. destruct Hnm1 as (macc & -> & _). pose proof Hv as Hv'. unfold valid in Hv'. rewrite Hv'. cbn [negb].
    rewrite (bind_run _ _ _ _ _ E2). rewrite (bind_run _ _ _ _ _ (map_err_run _ _ _ _ _ E3)). exact E4. }
  exists s3. split; [exact Eun|]. destruct (UndelegateCoins_ok _ _ _ _ _ _ _ _ Hs1' Ha Hm Ht' Hint Eun) as (_ & Hs3 & Hbal2 & Esup2 & _).
  split; [|split; [by rewrite Esup2|exact Hs3]]. intros b d Hb. rewrite Hbal2, Hbal by done. lia.
Qed.
End Chain.

Module chain_toy.
#[local] Existing Instances sdkmath sdkmath_laws sdkround sdkround_laws bech32_toy.
Import bank_toy.

Definition step (t : Z) (o : op) (s : State) : State := let '(r, s') := exec keeper (at_time t) o s in match r with Ok _ => s' | _ => s end.

Lemma reach_step t0 s0 t s t' o : reach keeper t0 s0 t s -> t <= t' -> in_i64 t' -> op_ok o -> reach keeper t0 s0 t' (step t' o s).
Proof.
  intros Hr Hle Ht Ho. unfold step. destruct (exec keeper (at_time t') o s) as [r s'] eqn:E. exact (reach_call keeper t0 s0 t s (at_time t') o r s' Hr Hle Ht Ho E).
Qed.

(** Alice gets 700 and locks 400 of them for Bob, who delegates 300. *)
Definition lock : MsgCreatePermanentLockedAccount := mkMsgCreatePermanentLockedAccount (AccAddress_String "alice") (AccAddress_String "bob") (zyt 400).
Definition s1 : State := step 5 (KMintCoins "bonded" (zyt 1000)) empty.
Definition s2 : State := step 6 (KModuleToAccount "bonded" "alice" (zyt 700)) s1.
Definition s3 : State := step 7 (MCreateLocked lock) s2.
Definition s4 : State := step 8 (KDelegateCoins "bob" "bonded" (zyt 300)) s3.

Lemma toy_times n : 0 <= n < 100 -> in_i64 n.
Proof. unfold in_i64, two63. lia. Qed.
Lemma toy_addr a : (0 < String.length a < 10)%nat -> addr_ok a.
Proof. unfold addr_ok. lia. Qed.

Lemma zyt_small n : 0 < n < 1000 -> vesting.small (zyt n).
Proof. intros Hn. apply vesting.toyvest.small_one. lia. Qed.

Lemma toy_reach3 : reach keeper 0 empty 7 s3.
Proof.
  apply (reach_step _ _ 6); [|lia|apply toy_times; lia|apply zyt_small; lia].
  apply (reach_step _ _ 5); [|lia|apply toy_times; lia|split; [apply toy_addr; cbn; lia|by apply zyt_int]].
  apply (reach_step _ _ 0); [|lia|apply toy_times; lia|by apply zyt_int]. constructor.
Qed.

Lemma toy_reach : reach keeper 0 empty 8 s4.
Proof.
  apply (reach_step _ _ 7); [apply toy_reach3|lia|apply toy_times; lia|]. split; [apply toy_addr; cbn; lia|]. split; [apply toy_addr; cbn; lia|by apply zyt_int].
Qed.

(** The 100 that Bob has left stay locked. *)
Lemma bank_books_kept_witness : supply_of s4 "uzyt" = 1000 /\ total s4 "uzyt" = 1000 /\ bal s4 "bob" "uzyt" = 100 /\ locked 8 (b_auth s4) "bob" "uzyt" = 100 /\
  AllInvariants s4 = (Ok false, s4).
Proof.
  destruct (bank_books_kept keeper modules 0 empty 8 s4 (Z.le_refl 0) (empty_inv 0) toy_reach) as (_ & Ht & _ & Hi & _).
  assert (supply_of s4 "uzyt" = 1000) as Es by (vm_compute; reflexivity).
  split; [exact Es|]. split; [rewrite Ht; exact Es|]. split; [vm_compute; reflexivity|]. split; [vm_compute; reflexivity|exact Hi].
Defined.

Lemma delegation_roundtrip_witness : exists s, UndelegateCoins (at_time 9) "bonded" "bob" (zyt 300) s4 = (Ok tt, s) /\ bal s "bob" "uzyt" = 400.
Proof.
  destruct (delegation_roundtrip (at_time 8) (at_time 9) "bob" "bonded" (zyt 300) s3 s4) as (_ & _ & s & E & Hb & _).
  - apply (sound_later 7); [cbn; lia|]. exact (proj2 (bank_reach_inv keeper modules 0 empty 7 s3 (Z.le_refl 0) (empty_inv 0) toy_reach3)).
  - apply toy_addr. cbn. lia.
  - apply toy_addr. cbn. lia.
  - by apply zyt_int.
  - apply toy_times. cbn. lia.
  - apply toy_times. cbn. lia.
  - cbn. lia.
  - exists (mkAccount "bonded" None 0 0 (ModuleAccount "bonded" ["minter"; "burner"; "staking"])). split; [vm_compute; reflexivity|done].
  - intros acc va d Ea Ek. assert (as_accounts (b_auth s3) !! "bob" = Some (mkAccount "bob" None 2 0 (VestingAccount (vesting.NewPermanentLockedAccount (zyt 400))))) as E by (vm_compute; reflexivity).
    rewrite E in Ea. injection Ea as <-. injection Ek as <-. cbn. case_bool_decide; lia.
  - vm_compute. reflexivity.
  - exists s. split; [exact E|]. rewrite Hb by (apply toy_addr; cbn; lia). vm_compute. reflexivity.
Defined.
End chain_toy.
