(* ===== verification/BankGenesis.v ===== *)
(** BankGenesis: the genesis of x/bank (keeper/genesis.go, types/genesis.go,
    types/balance.go, types/metadata.go).

    The stable sort of SanitizeGenesisBalances stands for Go's, which may order
    equal addresses in any way.  Theorems: exporting a state whose books balance
    and importing the export into a new chain restores the bank, and the export
    is valid; addresses are only compared as text, so a genesis that names one
    account in two ways passes validation and breaks the supply. *)

From Stdlib Require Import ZArith Lia Ascii String.
From stdpp Require Import base gmap sets list strings fin_maps sorting pretty.
From S2P Require Import Prelude Sdk Wire KVStore Coins StoreKeys Vesting Auth BankStore VestingMsgs BankBooks BankChain.

Open Scope Z_scope.
Open Scope go_scope.

Module bankgenesis.
Import bank.

(** ** types/metadata.go *)

Fixpoint check_aliases (seenAliases : gset string) (aliases : list string) : outcome unit :=
  match aliases with
  | [] => Ok tt
  | alias :: aliases =>
      if bool_decide (alias ∈ seenAliases) then Err (Errorf "duplicate denomination unit alias") else
      if all_space alias then Err (Errorf "alias for denom unit cannot be blank") else
      check_aliases ({[alias]} ∪ seenAliases) aliases
  end.

Definition DenomUnit_Validate (du : DenomUnit) : outcome unit :=
  if negb (ValidateDenom (du_Denom du)) then Err (Errorf "invalid denom unit") else check_aliases ∅ (du_Aliases du).

(** The loop over the units from the [i]-th on; whether one is the display
    denomination. *)
Fixpoint check_units (m : Metadata) (i : nat) (currentExponent : Z) (seenUnits : gset string) (hasDisplay : bool) (units : list DenomUnit) : outcome bool :=
  match units with
  | [] => Ok hasDisplay
  | denomUnit :: units =>
      let* _ :=
        match i with
        | O =>
            if bool_decide (du_Denom denomUnit <> md_Base m) then Err (Errorf "metadata's first denomination unit must be the one with base denom") else
            if negb (du_Exponent denomUnit =? 0) then Err (Errorf "the exponent for base denomination unit must be 0") else Ok tt
        | _ => if du_Exponent denomUnit <=? currentExponent then Err (Errorf "denom units should be sorted asc by exponent") else Ok tt
        end in
      if bool_decide (du_Denom denomUnit ∈ seenUnits) then Err (Errorf "duplicate denomination unit") else
      let* _ := DenomUnit_Validate denomUnit in
      check_units m (S i) (du_Exponent denomUnit) ({[du_Denom denomUnit]} ∪ seenUnits) (bool_decide (du_Denom denomUnit = md_Display m) || hasDisplay) units
  end.

Definition Metadata_Validate (m : Metadata) : outcome unit :=
  if all_space (md_Name m) then Err (Errorf "name field cannot be blank") else
  if all_space (md_Symbol m) then Err (Errorf "symbol field cannot be blank") else
  if negb (ValidateDenom (md_Base m)) then Err (Errorf "invalid metadata base denom") else
  if negb (ValidateDenom (md_Display m)) then Err (Errorf "invalid metadata display denom") else
  let* hasDisplay := check_units m 0 0 ∅ false (md_DenomUnits m) in
  if hasDisplay : bool then Ok tt else Err (Errorf "metadata must contain a denomination unit with display denom").

(** ** types/balance.go *)

Record Balance : Type := mkBalance { bl_Address : string; bl_Coins : Coins }.

Section Genesis.
Context `{SdkMath} `{SdkDecRound} `{Bech32}.

Definition Balance_Validate (b : Balance) : outcome unit :=
  match AccAddressFromBech32 (bl_Address b) with
  | None => Err (Errorf "decoding bech32 failed")
  | Some _ => if Coins_Validate (bl_Coins b) then Ok tt else Err (Wrapf "" ErrInvalidCoins)
  end.

Definition SanitizeGenesisBalances (balances : list Balance) : list Balance :=
  snd <$> merge_sort key_le ((fun b => (default "" (AccAddressFromBech32 (bl_Address b)), b)) <$> balances).

(** ** types/genesis.go *)

Record GenesisState : Type := mkGenesisState {
  g_Params : Params;
  g_Balances : list Balance;
  g_Supply : Coins;
  g_DenomMetadata : list Metadata;
  g_SendEnabled : list SendEnabled;
}.

Definition GetAllSendEnabled (gs : GenesisState) : list SendEnabled :=
  match p_SendEnabled (g_Params gs) with
  | [] => g_SendEnabled gs
  | old =>
      let knownSendEnabled : gset string := list_to_set (se_Denom <$> g_SendEnabled gs) in
      g_SendEnabled gs ++ filter (fun se => se_Denom se ∉ knownSendEnabled) old
  end.

Definition MigrateSendEnabled (g : GenesisState) : GenesisState :=
  mkGenesisState (mkParams [] (DefaultSendEnabled (g_Params g))) (g_Balances g) (g_Supply g) (g_DenomMetadata g) (GetAllSendEnabled g).

Definition NewGenesisState (params : Params) (balances : list Balance) (supply : Coins) (denomMetaData : list Metadata) (sendEnabled : list SendEnabled) : GenesisState :=
  MigrateSendEnabled (mkGenesisState params balances supply denomMetaData sendEnabled).

Definition DefaultGenesisState : GenesisState := NewGenesisState DefaultParams [] [] [] [].

Fixpoint check_send_enabled (seen : gset string) (l : list SendEnabled) : outcome unit :=
  match l with
  | [] => Ok tt
  | p :: l =>
      if bool_decide (se_Denom p ∈ seen) then Err (Errorf "duplicate send enabled found") else
      let* _ := SendEnabled_Validate p in
      check_send_enabled ({[se_Denom p]} ∪ seen) l
  end.

Fixpoint check_balances (seenBalances : gset string) (totalSupply : Coins) (l : list Balance) : outcome Coins :=
  match l with
  | [] => Ok totalSupply
  | balance :: l =>
      if bool_decide (bl_Address balance ∈ seenBalances) then Err (Errorf "duplicate balance for address") else
      let* _ := Balance_Validate balance in
      let* totalSupply := Coins_Add totalSupply (bl_Coins balance) in
      check_balances ({[bl_Address balance]} ∪ seenBalances) totalSupply l
  end.

Fixpoint check_metadata (seenMetadatas : gset string) (l : list Metadata) : outcome unit :=
  match l with
  | [] => Ok tt
  | metadata :: l =>
      if bool_decide (md_Base metadata ∈ seenMetadatas) then Err (Errorf "duplicate client metadata for denom") else
      let* _ := Metadata_Validate metadata in
      check_metadata ({[md_Base metadata]} ∪ seenMetadatas) l
  end.

Definition GenesisState_Validate (gs : GenesisState) : outcome unit :=
  if bool_decide (p_SendEnabled (g_Params gs) <> []) && bool_decide (g_SendEnabled gs <> []) then
    Err (Errorf "send_enabled defined in both the send_enabled field and in params (deprecated)") else
  let* _ := Params_Validate (g_Params gs) in
  let* _ := check_send_enabled ∅ (GetAllSendEnabled gs) in
  let* totalSupply := check_balances ∅ [] (g_Balances gs) in
  let* _ := check_metadata ∅ (g_DenomMetadata gs) in
  match g_Supply gs with
  | [] => Ok tt
  | supply =>
      if negb (Coins_Validate supply) then Err (Wrapf "" ErrInvalidCoins) else
      let* eq := Coins_IsEqual supply totalSupply in
      if eq : bool then Ok tt else Err (Errorf "genesis supply is incorrect")
  end.

(** ** keeper/view.go and genesis.go *)

(** GetAccountsBalances: one entry for each address, at the position of its
    first balance. *)
Fixpoint accounts_balances (balances : list Balance) (l : list (string * Coin)) : outcome (list Balance) :=
  match l with
  | [] => Ok balances
  | (addr, balance) :: l =>
      let text := AccAddress_String addr in
      match list_find (fun b => bl_Address b = text) balances with
      | Some (idx, b) =>
          let* coins := Coins_Add (bl_Coins b) [balance] in
          accounts_balances (<[idx := mkBalance text (Coins_Sort coins)]> balances) l
      | None =>
          let* coins := mk_NewCoins [balance] in
          accounts_balances (balances ++ [mkBalance text coins]) l
      end
  end.
Definition GetAccountsBalances : M State (list Balance) :=
  let! l := IterateAllBalances in lift (accounts_balances [] l).

Fixpoint init_balances (totalSupply : Coins) (l : list Balance) : M State Coins :=
  match l with
  | [] => ret totalSupply
  | balance :: l =>
      let! addr := or_panic (AccAddressFromBech32 (bl_Address balance)) in
      must (initBalances addr (bl_Coins balance)) ;;!
      let! totalSupply := lift (Coins_Add totalSupply (bl_Coins balance)) in
      init_balances totalSupply l
  end.

Definition InitGenesis (genState : GenesisState) : M State unit :=
  must (bank.SetParams (g_Params genState)) ;;!
  for_each (GetAllSendEnabled genState) (fun se => SetSendEnabled (se_Denom se) (se_Enabled se)) ;;!
  let! totalSupply := init_balances [] (SanitizeGenesisBalances (g_Balances genState)) in
  let! ok := match g_Supply genState with [] => ret true | supply => lift (Coins_IsEqual supply totalSupply) end in
  if negb ok then panic else
  for_each totalSupply setSupply ;;!
  for_each (g_DenomMetadata genState) SetDenomMetaData.

Definition ExportGenesis : M State GenesisState :=
  let! totalSupply := must GetTotalSupply in
  let! params := bank.GetParams in
  let! balances := GetAccountsBalances in
  let! metadata := GetAllDenomMetaData in
  let! sendEnabled := GetAllSendEnabledEntries in
  ret (NewGenesisState params balances totalSupply metadata sendEnabled).
End Genesis.

(** ** The entries of an export *)

Section Roundtrip.
Context `{SdkMathLaws} `{!SdkDecRound} `{!SdkDecRoundLaws} `{Bech32Laws}.

(** What a list of balances gives to an address, as text, and in all. *)
Definition at_text (bs : list Balance) (t d : string) : Z := lsum (fun b => if bool_decide (bl_Address b = t) then coins_amount (bl_Coins b) d else 0) bs.
Definition all_of (bs : list Balance) (d : string) : Z := lsum (fun b => coins_amount (bl_Coins b) d) bs.

Record wf_balances (bs : list Balance) : Prop := {
  wb_nodup : NoDup (bl_Address <$> bs);
  wb_entry b : b ∈ bs -> valid (bl_Coins b) /\ exists a, addr_ok a /\ bl_Address b = AccAddress_String a;
}.

Lemma addr_parse a : addr_ok a -> AccAddressFromBech32 (AccAddress_String a) = Some a.
Proof. intros Ha. by apply AccAddress_String_parse, VerifyAddressFormat_spec. Qed.

Lemma addr_text_inj a b : addr_ok a -> addr_ok b -> AccAddress_String a = AccAddress_String b -> a = b.
Proof. intros Ha Hb E. apply addr_parse in Ha. rewrite E, addr_parse in Ha by done. by injection Ha. Qed.

Lemma lsum_insert_at {A} (g : A -> Z) l i x y : l !! i = Some x -> lsum g (<[i := y]> l) = lsum g l - g x + g y.
Proof.
  revert i. induction l as [|z l IH]; intros [|i] E; try done.
  - injection E as ->. change (<[O := y]> (x :: l)) with (y :: l). rewrite !lsum_cons. lia.
  - change (<[S i := y]> (z :: l)) with (z :: <[i := y]> l). rewrite !lsum_cons, (IH i E). lia.
Qed.

Lemma lsum_elem_le {A} (g : A -> Z) l x : (forall y, y ∈ l -> 0 <= g y) -> x ∈ l -> g x <= lsum g l.
Proof.
  intros Hg Hx. apply list_elem_of_split in Hx as (l1 & l2 & ->). rewrite (lsum_perm g _ (x :: l1 ++ l2)) by (symmetry; apply Permutation_middle).
  rewrite lsum_cons. assert (0 <= lsum g (l1 ++ l2)); [|lia]. apply lsum_nonneg. intros y Hy. apply Hg. set_solver.
Qed.

Lemma all_of_le bs b d : wf_balances bs -> b ∈ bs -> coins_amount (bl_Coins b) d <= all_of bs d.
Proof. intros Hw Hb. apply (lsum_elem_le (fun b => coins_amount (bl_Coins b) d)); [|done]. intros y Hy. apply valid_nonneg. apply (wb_entry _ Hw _ Hy). Qed.

(** One balance joins the entry of its address, or starts one. *)
Lemma group_one bs a c l : wf_balances bs -> addr_ok a -> coin_ok c -> (forall d, all_of bs d + coins_amount [c] d < 2 ^ 256) ->
  exists bs', accounts_balances bs ((a, c) :: l) = accounts_balances bs' l /\ wf_balances bs' /\
    (forall t d, at_text bs' t d = at_text bs t d + if bool_decide (AccAddress_String a = t) then coins_amount [c] d else 0) /\
    (forall d, all_of bs' d = all_of bs d + coins_amount [c] d).
Proof.
  intros Hw Ha [Hd Hc] Hfit. destruct c as [e x]. cbn [Denom Amount] in *. cbn [accounts_balances]. assert (valid [mkCoin e x]) as Hv by (by apply vesting.one_valid).
  destruct (list_find _ bs) as [[i b]|] eqn:Ef.
  - apply list_find_Some in Ef as (Eb & Et & _). pose proof (list_elem_of_lookup_2 _ _ _ Eb) as Hin. destruct (wb_entry _ Hw _ Hin) as [Hvb _].
    destruct (Coins_Add_valid (bl_Coins b) [mkCoin e x] Hvb Hv) as (r & -> & Hr & Hamt).
    { intros d. specialize (Hfit d). pose proof (all_of_le bs b d Hw Hin). lia. }
    cbn [obind]. rewrite sort_valid by done. eexists. split; [reflexivity|]. split; [|split].
    + split.
      * rewrite list_fmap_insert. cbn [bl_Address]. rewrite list_insert_id; [apply Hw|]. rewrite list_lookup_fmap, Eb. cbn. by rewrite Et.
      * intros b' [j Ej]%list_elem_of_lookup_1. apply list_lookup_insert_Some in Ej as [(<- & <- & _)|[_ Ej]]; [split; [done|by exists a]|]. apply (wb_entry _ Hw). by eapply list_elem_of_lookup_2.
    + intros t d. unfold at_text. rewrite (lsum_insert_at _ _ _ b) by done. cbn [bl_Address bl_Coins]. rewrite Et, Hamt. case_bool_decide; lia.
    + intros d. unfold all_of. rewrite (lsum_insert_at _ _ _ b) by done. cbn [bl_Coins]. rewrite Hamt. lia.
  - apply list_find_None in Ef. unfold mk_NewCoins. rewrite NewCoins_valid by done. cbn [o_panic obind]. eexists. split; [reflexivity|]. split; [|split].
    + split.
      * rewrite fmap_app. cbn. apply NoDup_app. split; [apply Hw|]. split; [|by apply NoDup_singleton]. intros t (b & -> & Hb)%list_elem_of_fmap E%list_elem_of_singleton. by apply (proj1 (Forall_forall _ _) Ef b Hb).
      * intros b [Hb|Hb%list_elem_of_singleton]%elem_of_app; [by apply (wb_entry _ Hw)|]. subst b. split; [done|by exists a].
    + intros t d. unfold at_text. rewrite (lsum_perm _ _ (mkBalance (AccAddress_String a) [mkCoin e x] :: bs)) by (symmetry; apply Permutation_cons_append).
      rewrite lsum_cons. cbn [bl_Address bl_Coins]. lia.
    + intros d. unfold all_of. rewrite (lsum_perm _ _ (mkBalance (AccAddress_String a) [mkCoin e x] :: bs)) by (symmetry; apply Permutation_cons_append).
      rewrite lsum_cons. cbn [bl_Coins]. lia.
Qed.

Definition held (l : list (string * Coin)) (t d : string) : Z := lsum (fun p => if bool_decide (AccAddress_String (fst p) = t) then coins_amount [snd p] d else 0) l.

Lemma group_all l bs : wf_balances bs -> Forall (fun p => addr_ok (fst p) /\ coin_ok (snd p)) l -> (forall d, all_of bs d + coins_amount (snd <$> l) d < 2 ^ 256) ->
  exists bs', accounts_balances bs l = Ok bs' /\ wf_balances bs' /\ (forall t d, at_text bs' t d = at_text bs t d + held l t d) /\
    forall d, all_of bs' d = all_of bs d + coins_amount (snd <$> l) d.
Proof.
  intros Hw Hl. revert bs Hw. induction Hl as [|[a c] l [Ha Hc] Hl IH]; intros bs Hw Hfit.
  { exists bs. split; [done|]. split; [done|]. split; [intros t d; change (held [] t d) with 0; lia|intros d; cbn; lia]. }
  assert (forall d, coins_amount (snd <$> (a, c) :: l) d = coins_amount [c] d + coins_amount (snd <$> l) d) as Hcons by (intros d; cbn; lia).
  assert (forall d, 0 <= coins_amount (snd <$> l) d) as Hnn.
  { intros d. clear -Hl. induction Hl as [|p l [_ [_ ?]] _ IH]; cbn; [done|]. case_bool_decide; lia. }
  destruct (group_one bs a c l Hw Ha Hc) as (bs1 & -> & Hw1 & Hat & Hall). { intros d. specialize (Hfit d). specialize (Hnn d). rewrite Hcons in Hfit. lia. }
  destruct (IH bs1 Hw1) as (bs' & -> & Hw' & Hat' & Hall'). { intros d. specialize (Hfit d). rewrite Hcons in Hfit. rewrite Hall. lia. }
  exists bs'. split; [done|]. split; [done|]. split.
  - intros t d. rewrite Hat', Hat. unfold held. rewrite lsum_cons. cbn [fst snd]. lia.
  - intros d. rewrite Hall', Hall, Hcons. lia.
Qed.

Lemma entry_addr kv : entry_ok kv -> addr_ok (addr_of kv.1).
Proof. intros (a & d & -> & Ha & _). unfold addr_of. by rewrite parse_balance_key. Qed.

(** In the entries of the store, an address holds its balance. *)
Lemma held_bal s a d : books s -> addr_ok a -> held (entry_of <$> kv_prefix_iter "" (b_balances s)) (AccAddress_String a) d = bal s a d.
Proof.
  intros Hb Ha. unfold held. rewrite lsum_fmap. unfold bal. rewrite <- (map_sum_at (b_balances s)), <- (lsum_kv_prefix_iter _ "") by by intros [].
  apply lsum_ext. intros kv Hin. pose proof (proj1 (Forall_forall _ _) (books_entries s Hb) kv Hin) as (b & e & Ek & Hb' & _). unfold entry_of. cbn [fst snd].
  rewrite Ek. unfold addr_of. rewrite parse_balance_key, denom_of_key by done. cbn [fst]. cbn [coins_amount Denom Amount].
  destruct (decide (b = a /\ e = d)) as [[-> ->]|Hne]; [rewrite !bool_decide_true by done; lia|].
  rewrite (bool_decide_false (balance_key b e = balance_key a d)) by (intros [-> ->]%balance_key_inj; tauto).
  case_bool_decide as E; [|done]. apply addr_text_inj in E; [|done..]. subst b. rewrite bool_decide_false; [done|]. intros ->. tauto.
Qed.

Lemma GetAccountsBalances_run t f s : sound t f s -> (forall d, total s d < 2 ^ 256) ->
  exists bs, GetAccountsBalances s = (Ok bs, s) /\ wf_balances bs /\ (forall a d, addr_ok a -> at_text bs (AccAddress_String a) d = bal s a d) /\ forall d, all_of bs d = total s d.
Proof.
  intros Hs Hfit. pose proof (so_books _ _ _ Hs) as Hb. unfold GetAccountsBalances. rewrite (bind_run _ _ _ _ _ (IterateAllBalances_run s Hb)).
  destruct (group_all (entry_of <$> kv_prefix_iter "" (b_balances s)) []) as (bs & E & Hw & Hat & Hall).
  - split; [constructor|]. intros b Hb'. by apply not_elem_of_nil in Hb'.
  - apply Forall_fmap. pose proof (books_entries s Hb) as He. pose proof (proj2 (all_balances_run _ He)) as Hc. apply Forall_forall. intros kv Hin. split.
    + apply entry_addr. by eapply Forall_forall in He.
    + apply (proj1 (Forall_forall _ _) Hc (entry_of kv)). by apply list_elem_of_fmap_2.
  - intros d. rewrite entries_total. change (all_of [] d) with 0. specialize (Hfit d). lia.
  - exists bs. unfold lift. rewrite E. split; [done|]. split; [done|]. split.
    + intros a d Ha. rewrite Hat, held_bal by done. change (at_text [] (AccAddress_String a) d) with 0. lia.
    + intros d. rewrite Hall, entries_total. change (all_of [] d) with 0. lia.
Qed.

(** ** Importing *)

Lemma sanitize_perm bs : SanitizeGenesisBalances bs ≡ₚ bs.
Proof. unfold SanitizeGenesisBalances. rewrite (merge_sort_Permutation key_le). rewrite <- list_fmap_compose. by rewrite list_fmap_id || (erewrite list_fmap_ext; [by rewrite list_fmap_id|done]). Qed.

Lemma wf_perm bs bs' : bs ≡ₚ bs' -> wf_balances bs -> wf_balances bs'.
Proof. intros Hp [Hn He]. split; [by rewrite <- Hp|]. intros b Hb. apply He. by rewrite Hp. Qed.

Lemma initBalances_run a cs s : addr_ok a -> valid cs -> (forall d, bal s a d = 0) -> initBalances a cs s = (Ok tt, shift a 1 cs s).
Proof.
  intros Ha Hv Hz. unfold initBalances, CreateAccountBalancesPrefix. rewrite addr_key_run by done. unfold bind, lift.
  assert (forall c, c ∈ cs -> bal s a (Denom c) = 0) as Hz' by (intros; apply Hz). clear Hz. revert s Hz'. induction cs as [|c cs IH]; intros s Hz; [done|].
  apply valid_cons in Hv as (Hd & Hc & Hs & Hv). cbn [for_each]. destruct c as [d x]. cbn [Denom Amount] in *.
  assert (initBalance a (mkCoin d x) s = (Ok tt, put a d x s)) as E.
  { unfold initBalance, Coin_IsValid, Coin_Validate, Coin_IsZero. cbn [Denom Amount]. rewrite Hd, (proj2 (Z.leb_le 0 x)) by lia. cbn [andb negb]. destruct (Z.eqb_spec x 0); [lia|]. by rewrite put_balance_run by (done || lia). }
  rewrite (bind_run _ _ _ _ _ E), (IH Hv).
  - f_equal. assert (bal s a d = 0) as Hd0 by (apply (Hz (mkCoin d x)); by left). unfold shift. cbn [foldl Denom Amount]. by rewrite Hd0, Z.mul_1_l.
  - intros c Hc'. rewrite bal_put by done. case_bool_decide as E'; [|apply Hz; by right]. destruct E' as [_ <-]. exfalso. apply strict_NoDup in Hs. rewrite fmap_cons in Hs. apply NoDup_cons in Hs as [Hn _]. exact (Hn (list_elem_of_fmap_2 Denom _ _ Hc')).
Qed.

Lemma init_run bs tot s : wf_balances bs -> books s -> valid tot -> (forall a d, addr_ok a -> AccAddress_String a ∈ bl_Address <$> bs -> bal s a d = 0) ->
  (forall d, coins_amount tot d + all_of bs d < 2 ^ 256) ->
  exists tot' s', init_balances tot bs s = (Ok tot', s') /\ valid tot' /\ (forall d, coins_amount tot' d = coins_amount tot d + all_of bs d) /\
    books s' /\ rest s' = rest s /\ b_events s' = b_events s /\ forall a d, addr_ok a -> bal s' a d = bal s a d + at_text bs (AccAddress_String a) d.
Proof.
  revert tot s. induction bs as [|b bs IH]; intros tot s Hw Hb Ht Hz Hfit.
  { exists tot, s. split_and!; try done; intros; [change (all_of [] d) with 0; lia|change (at_text [] (AccAddress_String a) d) with 0; lia]. }
  destruct (wb_entry _ Hw b) as (Hv & a & Ha & Ea); [by left|]. pose proof (wb_nodup _ Hw) as Hnd. rewrite fmap_cons in Hnd. apply NoDup_cons in Hnd as [Hnin Hnd].
  assert (wf_balances bs) as Hw' by (split; [done|intros b' Hb'; apply (wb_entry _ Hw); by right]).
  assert (forall d, all_of (b :: bs) d = coins_amount (bl_Coins b) d + all_of bs d) as Hcons by done.
  assert (forall d, 0 <= all_of bs d) as Hnn by (intros d; apply lsum_nonneg; intros b' Hb'; apply valid_nonneg, (wb_entry _ Hw' _ Hb')).
  assert (forall d, bal s a d = 0) as Hza by (intros d; apply Hz; [done|rewrite fmap_cons, Ea; by left]).
  cbn [init_balances]. rewrite Ea, addr_parse by done. unfold or_panic. rewrite bind_ret.
  assert (must (initBalances a (bl_Coins b)) s = (Ok tt, shift a 1 (bl_Coins b) s)) as E1 by (unfold must; by rewrite initBalances_run).
  rewrite (bind_run _ _ _ _ _ E1). destruct (Coins_Add_valid tot (bl_Coins b) Ht Hv) as (tot1 & Et & Ht1 & Hamt). { intros d. specialize (Hfit d). specialize (Hnn d). rewrite Hcons in Hfit. lia. }
  unfold bind, lift. rewrite Et. destruct (IH tot1 (shift a 1 (bl_Coins b) s) Hw') as (tot' & s' & E & Ht' & Hamt' & Hb' & Hr & He & Hbal); [|done| | |].
  - apply books_shift; [done..|]. intros d. rewrite Hza. pose proof (valid_nonneg _ d Hv). pose proof (valid_nonneg _ d Ht). specialize (Hfit d). specialize (Hnn d). rewrite Hcons in Hfit. lia.
  - intros c d Hc Hin. rewrite bal_shift by done. rewrite bool_decide_false; [rewrite Z.add_0_r; apply Hz; [done|]; rewrite fmap_cons; by right|]. intros ->. rewrite Ea in Hnin. done.
  - intros d. specialize (Hfit d). rewrite Hcons in Hfit. rewrite Hamt. lia.
  - exists tot', s'. pose proof (shift_rest a 1 (bl_Coins b) s) as [Er Ee]. split_and!; [done|done| |done|by rewrite Hr|by rewrite He|].
    + intros d. rewrite Hamt', Hamt, Hcons. lia.
    + intros c d Hc. rewrite Hbal, bal_shift by done. unfold at_text. rewrite lsum_cons, Ea.
      destruct (decide (c = a)) as [->|Hne]; [rewrite !bool_decide_true by done; lia|]. rewrite bool_decide_false by done. rewrite bool_decide_false; [lia|]. intros E'. apply Hne. symmetry. by apply addr_text_inj.
Qed.

Lemma set_supplies cs s : valid cs -> exists m, for_each cs setSupply s = (Ok tt, set_supply m s) /\
  forall d, m !! d = if coins_amount cs d =? 0 then b_supply s !! d else Some (coins_amount cs d).
Proof.
  revert s. induction cs as [|c cs IH]; intros s Hv. { exists (b_supply s). split; [by destruct s|]. done. }
  pose proof (valid_nonneg cs) as Hnn. apply valid_cons in Hv as (Hd & Hc & Hs & Hv). pose proof (amount_head c cs Hs) as Hz. cbn [for_each].
  assert (setSupply c s = (Ok tt, set_supply (<[Denom c := Amount c]> (b_supply s)) s)) as E. { unfold setSupply, modify, Coin_IsZero. destruct (Z.eqb_spec (Amount c) 0); [lia|done]. }
  destruct (IH (set_supply (<[Denom c := Amount c]> (b_supply s)) s) Hv) as (m & E' & Hm). exists m. rewrite (bind_run _ _ _ _ _ E). split; [exact E'|]. intros d. rewrite Hm. cbn [b_supply set_supply]. rewrite amount_split.
  specialize (Hnn d Hv). destruct (decide (Denom c = d)) as [<-|Hne].
  - rewrite Hz, bool_decide_true, lookup_insert_eq by done. cbn. destruct (Z.eqb_spec (Amount c + 0) 0); [lia|]. by rewrite Z.add_0_r.
  - rewrite bool_decide_false, lookup_insert_ne by done. done.
Qed.

(** A map written entry by entry in the order of its store. *)
Lemma rebuild {A V} (m : gmap string V) (key : A -> string) (val : A -> V) (mk : string * V -> A) :
  (forall k v, m !! k = Some v -> key (mk (k, v)) = k /\ val (mk (k, v)) = v) ->
  foldl (fun m x => <[key x := val x]> m) ∅ (mk <$> kv_prefix_iter "" m) = m.
Proof.
  intros Hof. assert (key <$> (mk <$> kv_prefix_iter "" m) = (kv_prefix_iter "" m).*1) as Ekeys.
  { rewrite <- list_fmap_compose. apply list_fmap_ext. intros i [k v] Hi%list_elem_of_lookup_2. apply elem_of_kv_prefix_iter in Hi as [Hk _]. apply (Hof _ _ Hk). }
  destruct (foldl_insert_spec key val (mk <$> kv_prefix_iter "" m) ∅) as [Hin Hout]; [rewrite Ekeys; apply NoDup_kv_prefix_iter|].
  apply map_eq. intros k. destruct (m !! k) as [v|] eqn:Ek.
  - destruct (Hof _ _ Ek) as [E1 E2]. rewrite <- E1 at 1. rewrite Hin, E2; [done|]. apply list_elem_of_fmap_2. apply elem_of_kv_prefix_iter. split; [done|by destruct k].
  - rewrite Hout, lookup_empty; [done|]. intros x ([k' v] & -> & Hx)%list_elem_of_fmap ->. apply elem_of_kv_prefix_iter in Hx as [Hx _]. destruct (Hof _ _ Hx) as [E _]. rewrite E in Ek. congruence.
Qed.

(** ** What an export is *)

(** The parameters are set, without the deprecated list (SetParams never
    stores it), and metadata lies under its base (where SetDenomMetaData puts
    it). *)
Record settled (s : State) : Prop := {
  st_params : exists p, b_params s = Some p /\ p_SendEnabled p = [];
  st_meta d md : b_metadata s !! d = Some md -> md_Base md = d;
}.

(** Metadata is valid and switches are of valid denominations; neither
    SetDenomMetaData nor SetSendEnabled looks. *)
Definition describable (s : State) : Prop :=
  (forall d v, b_send_enabled s !! d = Some v -> ValidateDenom d = true) /\
  (forall d md, b_metadata s !! d = Some md -> Metadata_Validate md = Ok tt).

Lemma check_send_enabled_ok l : forall seen, check_send_enabled seen l = Ok tt -> forall se, se ∈ l -> ValidateDenom (se_Denom se) = true.
Proof.
  induction l as [|x l IH]; intros seen E se; [by intros ?%not_elem_of_nil|]. cbn [check_send_enabled] in E.
  case_bool_decide; [done|]. unfold SendEnabled_Validate in E. destruct (ValidateDenom (se_Denom x)) eqn:Ev; [|done]. cbn [obind] in E.
  intros [->|Hin]%elem_of_cons; [done|]. by eapply IH.
Qed.

Lemma check_metadata_ok l : forall seen, check_metadata seen l = Ok tt -> forall md, md ∈ l -> Metadata_Validate md = Ok tt.
Proof.
  induction l as [|x l IH]; intros seen E md; [by intros ?%not_elem_of_nil|]. cbn [check_metadata] in E.
  case_bool_decide; [done|]. destruct (Metadata_Validate x) as [[]|e|] eqn:Ev; [|done..]. cbn [obind] in E.
  intros [->|Hin]%elem_of_cons; [done|]. by eapply IH.
Qed.

Lemma send_enabled_valid l seen : NoDup (se_Denom <$> l) -> (forall se, se ∈ l -> ValidateDenom (se_Denom se) = true /\ se_Denom se ∉ seen) -> check_send_enabled seen l = Ok tt.
Proof.
  revert seen. induction l as [|se l IH]; intros seen Hn Hl; [done|]. rewrite fmap_cons in Hn. apply NoDup_cons in Hn as [Hnin Hn]. destruct (Hl se) as [Hv Hs]; [by left|]. cbn [check_send_enabled].
  rewrite bool_decide_false by done. unfold SendEnabled_Validate. rewrite Hv. cbn [obind]. apply IH; [done|]. intros se' Hse'. destruct (Hl se') as [Hv' Hs']; [by right|]. split; [done|].
  intros [E%elem_of_singleton|]%elem_of_union; [|done]. apply Hnin. rewrite <- E. by apply list_elem_of_fmap_2.
Qed.

Lemma metadata_valid l seen : NoDup (md_Base <$> l) -> (forall md, md ∈ l -> Metadata_Validate md = Ok tt /\ md_Base md ∉ seen) -> check_metadata seen l = Ok tt.
Proof.
  revert seen. induction l as [|md l IH]; intros seen Hn Hl; [done|]. rewrite fmap_cons in Hn. apply NoDup_cons in Hn as [Hnin Hn]. destruct (Hl md) as [Hv Hs]; [by left|]. cbn [check_metadata].
  rewrite bool_decide_false by done. rewrite Hv. cbn [obind]. apply IH; [done|]. intros md' Hmd'. destruct (Hl md') as [Hv' Hs']; [by right|]. split; [done|].
  intros [E%elem_of_singleton|]%elem_of_union; [|done]. apply Hnin. rewrite <- E. by apply list_elem_of_fmap_2.
Qed.

Lemma balances_valid bs seen tot : wf_balances bs -> valid tot -> (forall b, b ∈ bs -> bl_Address b ∉ seen) -> (forall d, coins_amount tot d + all_of bs d < 2 ^ 256) ->
  exists tot', check_balances seen tot bs = Ok tot' /\ valid tot' /\ forall d, coins_amount tot' d = coins_amount tot d + all_of bs d.
Proof.
  revert seen tot. induction bs as [|b bs IH]; intros seen tot Hw Ht Hs Hfit. { exists tot. split; [done|]. split; [done|]. intros d. change (all_of [] d) with 0. lia. }
  destruct (wb_entry _ Hw b) as (Hv & a & Ha & Ea); [by left|]. pose proof (wb_nodup _ Hw) as Hnd. rewrite fmap_cons in Hnd. apply NoDup_cons in Hnd as [Hnin Hnd].
  assert (wf_balances bs) as Hw' by (split; [done|intros b' Hb'; apply (wb_entry _ Hw); by right]).
  assert (forall d, all_of (b :: bs) d = coins_amount (bl_Coins b) d + all_of bs d) as Hcons by done.
  assert (forall d, 0 <= all_of bs d) as Hnn by (intros d; apply lsum_nonneg; intros b' Hb'; apply valid_nonneg, (wb_entry _ Hw' _ Hb')).
  cbn [check_balances]. rewrite bool_decide_false by (apply Hs; by left). unfold Balance_Validate. rewrite Ea, addr_parse by done. unfold valid in Hv. rewrite Hv. cbn [obind].
  destruct (Coins_Add_valid tot (bl_Coins b) Ht Hv) as (tot1 & -> & Ht1 & Hamt). { intros d. specialize (Hfit d). specialize (Hnn d). rewrite Hcons in Hfit. lia. }
  cbn [obind]. destruct (IH ({[AccAddress_String a]} ∪ seen) tot1 Hw' Ht1) as (tot' & E & Ht' & Ha').
  - intros b' Hb' [E%elem_of_singleton|Hin]%elem_of_union; [|by apply (Hs b'); [right|]]. apply Hnin. rewrite Ea, <- E. by apply list_elem_of_fmap_2.
  - intros d. specialize (Hfit d). rewrite Hcons in Hfit. rewrite Hamt. lia.
  - exists tot'. split; [done|]. split; [done|]. intros d. rewrite Ha', Hamt, Hcons. lia.
Qed.

(** Two states with the same balances have the same store of balances. *)
Lemma books_determined s s' : books s -> books s' -> (forall a d, addr_ok a -> bal s a d = bal s' a d) -> b_balances s = b_balances s' /\ b_owners s = b_owners s'.
Proof.
  intros Hb Hb' E. split.
  - assert (forall s s' key x, books s -> (forall a d, addr_ok a -> bal s a d = bal s' a d) -> b_balances s !! key = Some x -> b_balances s' !! key = Some x) as Hle.
    { intros u u' key x Hu Eu Hk. destruct (bk_entry _ Hu _ _ Hk) as (a & d & -> & Ha & _ & Hx). specialize (Eu a d Ha). unfold bal in Eu. rewrite Hk in Eu. cbn in Eu.
      destruct (b_balances u' !! _) as [y|]; cbn in Eu; [by rewrite Eu|lia]. }
    apply map_eq. intros key. destruct (b_balances s !! key) as [x|] eqn:Ek; [symmetry; by apply (Hle s s')|]. destruct (b_balances s' !! key) as [y|] eqn:Ek'; [|done].
    rewrite (Hle s' s key y) in Ek; [done|done| |done]. intros a d Ha. by rewrite E.
  - apply set_eq. intros o. rewrite (bk_owner _ Hb), (bk_owner _ Hb'). split; intros (a & d & -> & Ha & Hd & Hpos); exists a, d; split_and!; try done; by rewrite E in * || (rewrite <- E by done).
Qed.

(** The parts of an export of a state whose books balance. *)
Lemma export_run t s : bank_inv t s -> settled s -> exists p bs sup,
  ExportGenesis s = (Ok (mkGenesisState p bs sup (snd <$> kv_prefix_iter "" (b_metadata s)) ((fun e => mkSendEnabled e.1 e.2) <$> kv_prefix_iter "" (b_send_enabled s))), s) /\
  b_params s = Some p /\ p_SendEnabled p = [] /\ valid sup /\ (forall d, coins_amount sup d = total s d) /\ (forall d, total s d < 2 ^ 256) /\
  wf_balances bs /\ (forall a d, addr_ok a -> at_text bs (AccAddress_String a) d = bal s a d) /\ forall d, all_of bs d = total s d.
Proof.
  intros Hs [(p & Ep & Esp) _]. destruct (supply_coins_run _ _ _ Hs) as (sup & Esup & Hsup & Hamt).
  assert (forall d, total s d = supply_of s d) as Htot by (intros d; rewrite (so_total _ _ _ Hs); lia). assert (forall d, total s d < 2 ^ 256) as Hfit by (intros d; rewrite Htot; apply (supply_range _ _ _ _ Hs)).
  destruct (GetAccountsBalances_run _ _ _ Hs Hfit) as (bs & Ebs & Hw & Hat & Hall). exists p, bs, sup. split; [|split_and!; try done; intros d; by rewrite Hamt, Htot].
  unfold ExportGenesis. assert (must GetTotalSupply s = (Ok sup, s)) as E1 by (unfold must; by rewrite Esup). rewrite (bind_run _ _ _ _ _ E1).
  assert (bank.GetParams s = (Ok p, s)) as E2 by (unfold bank.GetParams, reads; by rewrite Ep). rewrite (bind_run _ _ _ _ _ E2), (bind_run _ _ _ _ _ Ebs).
  destruct p as [old def]. cbn in Esp. subst old. done.
Qed.

(** A bank without anything in it, over any accounts. *)
Definition fresh (s : State) : Prop := b_balances s = ∅ /\ b_owners s = ∅ /\ b_supply s = ∅ /\ b_metadata s = ∅ /\ b_send_enabled s = ∅.

Lemma fresh_books s : fresh s -> books s.
Proof.
  intros (E1 & E2 & _). split; unfold bal; rewrite E1, ?E2; [done|]. intros o. split; [set_solver|]. intros (a & d & _ & _ & _ & Hb). rewrite lookup_empty in Hb. cbn in Hb. lia.
Qed.

Lemma switch_all (l : list SendEnabled) s : for_each l (fun se => SetSendEnabled (se_Denom se) (se_Enabled se)) s =
  (Ok tt, set_send_enabled (foldl (fun m se => <[se_Denom se := se_Enabled se]> m) (b_send_enabled s) l) s).
Proof.
  unfold SetSendEnabled, setSendEnabledEntry. rewrite for_each_modify. f_equal. revert s. induction l as [|se l IH]; intros s; [by destruct s|]. cbn [foldl]. by rewrite IH.
Qed.

Lemma describe_all (l : list Metadata) s : for_each l SetDenomMetaData s = (Ok tt, set_metadata (foldl (fun m md => <[md_Base md := md]> m) (b_metadata s) l) s).
Proof.
  unfold SetDenomMetaData. rewrite for_each_modify. f_equal. revert s. induction l as [|md l IH]; intros s; [by destruct s|]. cbn [foldl]. by rewrite IH.
Qed.

(** What both halves need of the parts of an export. *)
Record parts (s : State) (p : Params) (bs : list Balance) (sup : Coins) : Prop := {
  pt_params : p_SendEnabled p = [];
  pt_supply : valid sup;
  pt_amounts d : coins_amount sup d = total s d;
  pt_fit d : total s d < 2 ^ 256;
  pt_balances : wf_balances bs;
  pt_at a d : addr_ok a -> at_text bs (AccAddress_String a) d = bal s a d;
  pt_all d : all_of bs d = total s d;
}.

Definition export_of (p : Params) (bs : list Balance) (sup : Coins) (s : State) : GenesisState :=
  mkGenesisState p bs sup (snd <$> kv_prefix_iter "" (b_metadata s)) ((fun e => mkSendEnabled e.1 e.2) <$> kv_prefix_iter "" (b_send_enabled s)).

Lemma export_switches p bs sup s : parts s p bs sup -> GetAllSendEnabled (export_of p bs sup s) = g_SendEnabled (export_of p bs sup s).
Proof. intros Hp. unfold GetAllSendEnabled, export_of. cbn [g_Params]. by rewrite (pt_params _ _ _ _ Hp). Qed.

Lemma supply_unique s p bs sup tot : parts s p bs sup -> valid tot -> (forall d, coins_amount tot d = all_of bs d) -> tot = sup.
Proof.
  intros Hp Ht Ha. pose proof (valid_nonzero tot Ht) as [? ?]. pose proof (valid_nonzero sup (pt_supply _ _ _ _ Hp)) as [? ?]. apply coins_ext; [done..|].
  intros d. by rewrite Ha, (pt_all _ _ _ _ Hp), (pt_amounts _ _ _ _ Hp).
Qed.

Lemma export_valid p bs sup s : parts s p bs sup -> settled s ->
  GenesisState_Validate (export_of p bs sup s) = Ok tt <-> describable s.
Proof.
  intros Hp [_ Hbase]. unfold GenesisState_Validate. rewrite (export_switches p bs sup s Hp). cbn [export_of g_Params g_SendEnabled g_Balances g_DenomMetadata g_Supply].
  rewrite (bool_decide_false (p_SendEnabled p <> [])) by (rewrite (pt_params _ _ _ _ Hp); by intros []). cbn [andb]. unfold Params_Validate. rewrite (pt_params _ _ _ _ Hp). cbn [obind].
  destruct (balances_valid bs ∅ []) as (tot & -> & Ht & Hta); [apply Hp|done|intros b _; apply not_elem_of_empty|intros d; rewrite (pt_all _ _ _ _ Hp); cbn; apply (pt_fit _ _ _ _ Hp)|]. cbn [obind].
  split.
  - intros E. destruct (check_send_enabled _ _) as [[]|e|] eqn:Es; [|done..]. cbn [obind] in E. destruct (check_metadata _ _) as [[]|e|] eqn:Em; [|done..]. split.
    + intros d v Hd. apply (check_send_enabled_ok _ _ Es (mkSendEnabled d v)). apply list_elem_of_fmap. exists (d, v). split; [done|]. apply elem_of_kv_prefix_iter. split; [done|by destruct d].
    + intros d md Hd. apply (check_metadata_ok _ _ Em md). apply list_elem_of_fmap. exists (d, md). split; [done|]. apply elem_of_kv_prefix_iter. split; [done|by destruct d].
  - intros [Hsend Hmeta]. rewrite send_enabled_valid; [cbn [obind]| |].
    2: { rewrite <- list_fmap_compose. apply NoDup_kv_prefix_iter. }
    2: { intros se ([d v] & -> & [Hd _]%elem_of_kv_prefix_iter)%list_elem_of_fmap. split; [by eapply Hsend|]. apply not_elem_of_empty. }
    rewrite metadata_valid; [cbn [obind]| |].
    + apply (supply_unique _ _ _ _ _ Hp) in Ht as ->; [|intros d; by rewrite Hta]. pose proof (pt_supply _ _ _ _ Hp) as Hsup. destruct sup as [|c sup]; [done|].
      unfold valid in Hsup. rewrite Hsup. cbn [negb]. by rewrite (proj2 (Coins_IsEqual_true (c :: sup) (c :: sup) Hsup Hsup)).
    + rewrite <- list_fmap_compose. erewrite (list_fmap_ext _ fst); [apply NoDup_kv_prefix_iter|]. intros i [d md] Hi%list_elem_of_lookup_2. apply elem_of_kv_prefix_iter in Hi as [Hd _]. apply (Hbase _ _ Hd).
    + intros md ([d md'] & -> & [Hd _]%elem_of_kv_prefix_iter)%list_elem_of_fmap. split; [apply (Hmeta _ _ Hd)|]. apply not_elem_of_empty.
Qed.

Lemma import_run p bs sup s s0 : parts s p bs sup -> settled s -> fresh s0 -> exists s2 m,
  InitGenesis (export_of p bs sup s) s0 = (Ok tt, set_metadata (b_metadata s) (set_supply m s2)) /\ books s2 /\
  (forall a d, addr_ok a -> bal s2 a d = bal s a d) /\ (forall d, m !! d = if total s d =? 0 then None else Some (total s d)) /\
  b_send_enabled s2 = b_send_enabled s /\ b_params s2 = Some p /\ b_auth s2 = b_auth s0.
Proof.
  intros Hp [_ Hbase] (E0 & Eo & Es & Em & Ew). set (s1 := set_send_enabled (b_send_enabled s) (set_params p s0)).
  assert (for_each (GetAllSendEnabled (export_of p bs sup s)) (fun se => SetSendEnabled (se_Denom se) (se_Enabled se)) (set_params p s0) = (Ok tt, s1)) as E2.
  { rewrite export_switches, switch_all by done. cbn [set_params b_send_enabled export_of g_SendEnabled]. by rewrite Ew, (rebuild _ se_Denom se_Enabled). }
  assert (books s1) as Hb1 by (apply (books_same s0); [done..|by apply fresh_books]). assert (forall a d, bal s1 a d = 0) as Hz by (intros a d; unfold bal; cbn; by rewrite E0, lookup_empty).
  destruct (init_run (SanitizeGenesisBalances bs) [] s1) as (tot & s2 & E3 & Htot & Htamt & Hb2 & Hr2 & _ & Hbal2).
  { apply (wf_perm bs); [symmetry; apply sanitize_perm|apply Hp]. } { done. } { done. } { intros a d _ _. apply Hz. }
  { intros d. unfold all_of. rewrite (lsum_perm _ _ bs) by apply sanitize_perm. fold (all_of bs d). rewrite (pt_all _ _ _ _ Hp). cbn. apply (pt_fit _ _ _ _ Hp). }
  apply (supply_unique _ _ _ _ _ Hp) in Htot as ->; [|intros d; rewrite Htamt; unfold all_of; by rewrite (lsum_perm _ _ bs) by apply sanitize_perm].
  pose proof (pt_supply _ _ _ _ Hp) as Hsup. destruct (set_supplies sup s2 Hsup) as (m & E4 & Hm). injection Hr2 as F1 F2 F3 F4 F5. cbn in F1, F2, F3, F4, F5. exists s2, m. split; [|split_and!; [done| | |done..]].
  - unfold InitGenesis. assert (must (bank.SetParams (g_Params (export_of p bs sup s))) s0 = (Ok tt, set_params p s0)) as E1 by (unfold must, bank.SetParams; cbn; by rewrite (pt_params _ _ _ _ Hp)).
    rewrite (bind_run _ _ _ _ _ E1), (bind_run _ _ _ _ _ E2). cbn [export_of g_Balances g_Supply]. rewrite (bind_run _ _ _ _ _ E3).
    assert ((match sup with [] => ret true | c :: l => lift (Coins_IsEqual (c :: l) sup) end : M State bool) s2 = (Ok true, s2)) as E5.
    { destruct sup as [|c sup]; [done|]. unfold lift. by rewrite (proj2 (Coins_IsEqual_true (c :: sup) (c :: sup) Hsup Hsup)). }
    rewrite (bind_run _ _ _ _ _ E5). cbn [negb]. rewrite (bind_run _ _ _ _ _ E4), describe_all. cbn [set_supply b_metadata export_of g_DenomMetadata]. rewrite F3, Em. by rewrite (rebuild _ md_Base (fun md => md) snd) by (intros d md Hd; split; [apply (Hbase _ _ Hd)|done]).
  - intros a d Ha. rewrite Hbal2, Hz by done. unfold at_text. rewrite (lsum_perm _ _ bs) by apply sanitize_perm. by apply (pt_at _ _ _ _ Hp).
  - intros d. by rewrite Hm, F2, Es, lookup_empty, (pt_amounts _ _ _ _ Hp).
Qed.

(** C23: The genesis of the bank round trips.  Exporting a bank whose books
    balance, whose parameters are set without the deprecated switches (as
    SetParams leaves them) and whose metadata lies under its base (as
    SetDenomMetaData stores it) succeeds and leaves it as it is.  Importing the
    result into an empty bank, whatever its accounts, succeeds and restores
    every balance, the index by denomination, the supply, the metadata, the
    switches for sending and the parameters, valid or not: neither half
    validates.  GenesisState.Validate accepts the export exactly when every
    switch is of a valid denomination and all metadata is valid, which the
    keeper's SetSendEnabled and SetDenomMetaData do not check. *)
Theorem bank_genesis_roundtrip t s s0 : bank_inv t s -> settled s -> fresh s0 ->
  exists g s', ExportGenesis s = (Ok g, s) /\ (GenesisState_Validate g = Ok tt <-> describable s) /\ InitGenesis g s0 = (Ok tt, s') /\
    b_balances s' = b_balances s /\ b_owners s' = b_owners s /\ b_supply s' = b_supply s /\ b_metadata s' = b_metadata s /\
    b_send_enabled s' = b_send_enabled s /\ b_params s' = b_params s /\ b_auth s' = b_auth s0.
Proof.
  intros Hs Hex Hfr. destruct (export_run t s Hs Hex) as (p & bs & sup & Eg & Ep & Esp & Hsup & Hamt & Hfit & Hw & Hat & Hall). assert (parts s p bs sup) as Hp by by split.
  destruct (import_run p bs sup s s0 Hp Hex Hfr) as (s2 & m & Ei & Hb2 & Hbal & Hm & F4 & F5 & F1). exists (export_of p bs sup s), (set_metadata (b_metadata s) (set_supply m s2)).
  split; [exact Eg|]. split; [by apply export_valid|]. split; [exact Ei|]. destruct (books_determined s2 s) as [G1 G2]; [done|apply Hs|done|].
  cbn [set_metadata set_supply b_balances b_owners b_supply b_metadata b_send_enabled b_params b_auth]. split_and!; [done|done| |done|done|by rewrite F5|done].
  apply map_eq. intros d. rewrite Hm, (so_total _ _ _ Hs d), Z.add_0_r. unfold supply_of. destruct (b_supply s !! d) as [x|] eqn:Ex; cbn; [|done].
  apply (so_supply _ _ _ Hs) in Ex. destruct (Z.eqb_spec x 0); [lia|done].
Qed.
End Roundtrip.

Module genesis_toy.
#[local] Existing Instances sdkmath sdkmath_laws sdkround sdkround_laws bech32_toy bech32_toy_laws.
Import bank_toy chain_toy.

Definition zyt_metadata : Metadata := mkMetadata "" [mkDenomUnit "uzyt" 0 ["microzyt"]; mkDenomUnit "zyt" 6 []] "uzyt" "zyt" "Zytherion" "ZYT" "" "".
Definition s5 : State := step 8 (KSetDenomMetaData zyt_metadata) s4.

(** Metadata without a unit for its base. *)
Definition bare_metadata : Metadata := mkMetadata "" [] "uzyt" "zyt" "Zytherion" "ZYT" "" "".
Definition s6 : State := step 8 (KSetDenomMetaData bare_metadata) s4.

Lemma toy_inv5 md : bank_inv 8 (step 8 (KSetDenomMetaData md) s4).
Proof.
  apply (bank_reach_inv keeper modules 0 empty 8 _ (Z.le_refl 0) (empty_inv 0)).
  apply (reach_step _ _ 8); [apply toy_reach|lia|apply toy_times; lia|done].
Qed.

Lemma toy_settled md : md_Base md = "uzyt" -> settled (step 8 (KSetDenomMetaData md) s4).
Proof.
  intros E. split.
  - exists DefaultParams. split; vm_compute; reflexivity.
  - intros d m. assert (b_metadata (step 8 (KSetDenomMetaData md) s4) = <[md_Base md := md]> ∅) as -> by reflexivity.
    rewrite E. intros [<- <-]%lookup_singleton_Some. done.
Qed.

(** With valid metadata the export is valid; without, it is not, and is
    imported all the same. *)
Lemma bank_genesis_roundtrip_witness :
  (exists g s', ExportGenesis s5 = (Ok g, s5) /\ GenesisState_Validate g = Ok tt /\ InitGenesis g empty = (Ok tt, s') /\ bal s' "bob" "uzyt" = 100) /\
  exists g s', ExportGenesis s6 = (Ok g, s6) /\ GenesisState_Validate g <> Ok tt /\ InitGenesis g empty = (Ok tt, s') /\ b_metadata s' = b_metadata s6.
Proof.
  split.
  - destruct (bank_genesis_roundtrip 8 s5 empty (toy_inv5 zyt_metadata) (toy_settled zyt_metadata eq_refl)) as (g & s' & Eg & Ev & Ei & Eb & _).
    + repeat split; reflexivity.
    + exists g, s'. split; [exact Eg|]. split; [|split; [exact Ei|unfold bal; rewrite Eb; vm_compute; reflexivity]].
      apply Ev. split.
      * intros d v. assert (b_send_enabled s5 = ∅) as -> by (vm_compute; reflexivity). by rewrite lookup_empty.
      * intros d md. assert (b_metadata s5 = {[ "uzyt" := zyt_metadata ]}) as -> by (vm_compute; reflexivity). intros [<- <-]%lookup_singleton_Some. vm_compute. reflexivity.
  - destruct (bank_genesis_roundtrip 8 s6 empty (toy_inv5 bare_metadata) (toy_settled bare_metadata eq_refl)) as (g & s' & Eg & Ev & Ei & _ & _ & _ & Em & _).
    + repeat split; reflexivity.
    + exists g, s'. split; [exact Eg|]. split; [|split; [exact Ei|exact Em]]. intros [_ Hmd]%Ev.
      specialize (Hmd "uzyt" bare_metadata ltac:(vm_compute; reflexivity)). vm_compute in Hmd. discriminate Hmd.
Defined.

(** bech32 text may be all upper case. *)
Definition map_char (f : nat -> nat) : string -> string := fix go s := match s with "" => "" | String c s => String (ascii_of_nat (f (nat_of_ascii c))) (go s) end.
Definition lower : string -> string := map_char (fun n => if (65 <=? n)%nat && (n <=? 90)%nat then n + 32 else n)%nat.
Definition upper : string -> string := map_char (fun n => if (97 <=? n)%nat && (n <=? 122)%nat then n - 32 else n)%nat.
Definition bech32_cases : Bech32 := {|
  DecodeAndConvert s := if bool_decide (s = lower s) || bool_decide (s = upper s) then @DecodeAndConvert bech32_toy (lower s) else None;
  ConvertAndEncode := @ConvertAndEncode bech32_toy;
|}.

(** Two balances of one account under two spellings pass validation: the second
    replaces the first, and the supply counts both. *)
Example two_spellings :
  let text := @AccAddress_String bech32_toy "alice" in
  let g := mkGenesisState DefaultParams [mkBalance text (zyt 5); mkBalance (upper text) (zyt 5)] (zyt 10) [] [] in
  @GenesisState_Validate _ bech32_cases g = Ok tt /\
  exists s', @InitGenesis _ bech32_cases g empty = (Ok tt, s') /\ supply_of s' "uzyt" = 10 /\ total s' "uzyt" = 5 /\ TotalSupply s' = (Ok true, s').
Proof. cbv zeta. split; [vm_compute; reflexivity|]. eexists. split; [vm_compute; reflexivity|]. split; [vm_compute; reflexivity|]. split; vm_compute; reflexivity. Qed.
End genesis_toy.
End bankgenesis.
