(* ===== verification/BankQueries.v ===== *)
(** BankQueries: the gRPC queries of x/bank (keeper/grpc_query.go), over the
    pagination of Pagination.v.

    A paginated query runs Paginate on the part of the store it lists, with the
    decoded values; the parts under an address or a denomination are the maps
    without that prefix.  A nil request is [None].

    Theorems: the supply in one page is GetTotalSupply; the owners of a
    denomination, page by page, are exactly the accounts that hold it, with
    what they hold; what is reported as spendable is what can be sent. *)

From Stdlib Require Import ZArith Lia Ascii String.
From stdpp Require Import base gmap sets list strings fin_maps sorting pretty.
From S2P Require Import Prelude Sdk Wire KVStore Coins PrefixKV Pagination StoreKeys Vesting Auth BankStore VestingMsgs BankBooks BankChain BankGenesis.

Open Scope Z_scope.
Open Scope go_scope.

Module bankqueries.
Import bank.

(** grpc/status, with the codes that are used. *)
Definition InvalidArgument : err := Registered "grpc" 3.
Definition NotFound : err := Registered "grpc" 5.
Definition Internal : err := Registered "grpc" 13.

Definition empty_request : err := Wrapf "empty request" InvalidArgument.

(** A request, that is not nil. *)
Definition request {A B} (req : option A) (k : A -> M State B) : M State B :=
  match req with None => throw empty_request | Some r => k r end.

(** Paginate over a part of the store; the callback may read the store. *)
Definition paged {V R} (part : State -> gmap string V) (f : State -> string -> V -> M R unit) (pagination : option PageRequest) (init : R) : M State (PageResponse * R) :=
  fun s => match Paginate (f s) pagination (part s, init) with
           | (Ok res, (_, r)) => (Ok (res, r), s)
           | (Err e, _) => (Err e, s)
           | (Panic, _) => (Panic, s)
           end.
Definition filtered {V R} (part : State -> gmap string V) (f : State -> string -> V -> bool -> M R bool) (pagination : option PageRequest) (init : R) : M State (PageResponse * R) :=
  fun s => match FilteredPaginate (f s) pagination (part s, init) with
           | (Ok res, (_, r)) => (Ok (res, r), s)
           | (Err e, _) => (Err e, s)
           | (Panic, _) => (Panic, s)
           end.

(** The account store, and the index of a denomination. *)
Definition account_part (prefix : string) (s : State) : gmap string Z := prefixkv.under prefix (b_balances s).
Definition owners_part (denom : string) (s : State) : gmap string unit := prefixkv.under (CreateDenomAddressPrefix denom) (gset_to_gmap tt (b_owners s)).

Section Queries.
Context `{SdkMath} `{SdkDecRound} `{Bech32}.

Definition query_address (address : string) : M State string :=
  match AccAddressFromBech32 address with Some a => ret a | None => throw (Wrapf "invalid address" InvalidArgument) end.
Definition query_denom (denom : string) : M State unit := if ValidateDenom denom then ret tt else throw (Wrapf "invalid denom" InvalidArgument).

(** Address and denomination. *)
Definition Balance (req : option (string * string)) : M State Coin :=
  request req (fun r =>
    query_denom (snd r) ;;!
    let! address := query_address (fst r) in
    GetBalance address (snd r)).

Definition append_balance (_ : State) (denom : string) (value : Z) : M (list Coin) unit :=
  let! balance := lift (UnmarshalBalanceCompat (Some value) denom) in
  modify (fun balances => balances ++ [balance]).

Definition AllBalances (req : option (string * option PageRequest)) : M State (list Coin * PageResponse) :=
  request req (fun r =>
    let! addr := query_address (fst r) in
    let! accountStore := lift (CreateAccountBalancesPrefix addr) in
    let! res := map_err (fun _ => Wrapf "paginate" InvalidArgument) (paged (account_part accountStore) append_balance (snd r) []) in
    ret (snd res, fst res)).

Definition append_zero (_ : State) (denom : string) (_ : Z) : M (list Coin) unit :=
  let! c := lift (o_panic (NewCoin denom 0)) in
  modify (fun balances => balances ++ [c]).

Fixpoint spendable_of (spendable : Coins) (balances : list Coin) : outcome (list Coin) :=
  match balances with
  | [] => Ok []
  | c :: balances =>
      let* a := AmountOf spendable (Denom c) in
      let* x := o_panic (NewCoin (Denom c) a) in
      let* result := spendable_of spendable balances in
      Ok (x :: result)
  end.

Definition SpendableBalances (ctx : Ctx) (req : option (string * option PageRequest)) : M State (list Coin * PageResponse) :=
  request req (fun r =>
    let! addr := query_address (fst r) in
    let! accountStore := lift (CreateAccountBalancesPrefix addr) in
    let! res := map_err (fun _ => Wrapf "paginate" InvalidArgument) (paged (account_part accountStore) append_zero (snd r) []) in
    let! spendable := SpendableCoins ctx addr in
    let! result := lift (spendable_of spendable (snd res)) in
    ret (result, fst res)).

Definition SpendableBalanceByDenom (ctx : Ctx) (req : option (string * string)) : M State Coin :=
  request req (fun r =>
    let! addr := query_address (fst r) in
    query_denom (snd r) ;;!
    SpendableCoin ctx addr (snd r)).

Definition add_to_supply (_ : State) (denom : string) (amount : Z) : M Coins unit := fun supply =>
  match (let* c := o_panic (NewCoin denom amount) in Coins_Add supply [c]) with
  | Ok supply => (Ok tt, supply)
  | Err e => (Err e, supply)
  | Panic => (Panic, supply)
  end.

Definition GetPaginatedTotalSupply (pagination : option PageRequest) : M State (Coins * PageResponse) :=
  let! res := paged b_supply add_to_supply pagination [] in
  ret (snd res, fst res).

Definition query_TotalSupply (pagination : option PageRequest) : M State (Coins * PageResponse) :=
  map_err (fun _ => Internal) (GetPaginatedTotalSupply pagination).

Definition SupplyOf (req : option string) : M State Coin :=
  request req (fun denom =>
    query_denom denom ;;!
    let! supply := GetSupply denom in
    lift (o_panic (NewCoin denom (Amount supply)))).

Definition query_Params (req : option unit) : M State Params := request req (fun _ => bank.GetParams).

Definition append_metadata (_ : State) (_ : string) (metadata : Metadata) : M (list Metadata) unit := modify (fun l => l ++ [metadata]).

Definition DenomsMetadata (req : option (option PageRequest)) : M State (list Metadata * PageResponse) :=
  request req (fun pagination =>
    let! res := map_err (fun _ => Internal) (paged b_metadata append_metadata pagination []) in
    ret (snd res, fst res)).

Definition DenomMetadata (req : option string) : M State Metadata :=
  request req (fun denom =>
    query_denom denom ;;!
    let! metadata := GetDenomMetaData denom in
    match metadata with Some m => ret m | None => throw (Wrapf "client metadata for denom" NotFound) end).

(** An owner and what it holds. *)
Record DenomOwner : Type := mkDenomOwner { do_Address : string; do_Balance : Coin }.

Definition append_owner (denom : string) (s : State) (key : string) (_ : unit) : M (list DenomOwner) unit :=
  let! p := lift (AddressAndDenomFromBalancesStore key) in
  let! balance := lift (fst (GetBalance (fst p) denom s)) in
  modify (fun denomOwners => denomOwners ++ [mkDenomOwner (AccAddress_String (fst p)) balance]).

(** Every entry is a hit; it is added when it is on the page. *)
Definition when_asked {V R} (f : State -> string -> V -> M R unit) (s : State) (key : string) (value : V) (accumulate : bool) : M R bool :=
  (if accumulate then f s key value else ret tt) ;;! ret true.

Definition DenomOwners (req : option (string * option PageRequest)) : M State (list DenomOwner * PageResponse) :=
  request req (fun r =>
    query_denom (fst r) ;;!
    let! res := map_err (fun _ => Internal) (filtered (owners_part (fst r)) (when_asked (append_owner (fst r))) (snd r) []) in
    ret (snd res, fst res)).

Definition append_switch (_ : State) (denom : string) (enabled : bool) : M (list SendEnabled) unit :=
  modify (fun l => l ++ [mkSendEnabled denom enabled]).

Fixpoint switches_of (denoms : list string) : M State (list SendEnabled) :=
  match denoms with
  | [] => ret []
  | denom :: denoms =>
      let! se := getSendEnabled denom in
      let! rest := switches_of denoms in
      ret (if snd se then mkSendEnabled denom (fst se) :: rest else rest)
  end.

Definition query_SendEnabled (req : option (list string * option PageRequest)) : M State (list SendEnabled * option PageResponse) :=
  request req (fun r =>
    match fst r with
    | [] =>
        let! res := map_err (fun _ => Internal) (filtered b_send_enabled (when_asked append_switch) (snd r) []) in
        ret (snd res, Some (fst res))
    | denoms => let! l := switches_of denoms in ret (l, None)
    end).
End Queries.

(** ** A page *)

(** The page of [l] that a first request asks for, and the key of the next. *)
Definition page {A} (offset limit : Z) (l : list A) : list A := drop (Z.to_nat offset) (take (Z.to_nat (offset + limit)) l).
Definition next_key {V} (offset limit : Z) (l : list (string * V)) : bound := fst <$> l !! Z.to_nat (offset + limit).

Lemma page_all {A} limit (l : list A) : Z.of_nat (length l) <= limit -> page 0 limit l = l.
Proof. intros Hl. unfold page. cbn [Z.to_nat drop]. rewrite Z.add_0_l. apply take_ge. lia. Qed.
Lemma next_key_none {V} limit (l : list (string * V)) : Z.of_nat (length l) <= limit -> next_key 0 limit l = None.
Proof. intros Hl. unfold next_key. rewrite Z.add_0_l, lookup_ge_None_2; [done|lia]. Qed.

Lemma fmap_page {A B} (g : A -> B) offset limit l : g <$> page offset limit l = page offset limit (g <$> l).
Proof. unfold page. by rewrite fmap_drop, fmap_take. Qed.

Lemma elem_of_page {A} offset limit (l : list A) x : x ∈ page offset limit l -> x ∈ l.
Proof. intros Hx. rewrite <- (take_drop (Z.to_nat (offset + limit)) l), <- (take_drop (Z.to_nat offset) (take _ l)). set_solver. Qed.

(** What a callback that appends does over a page. *)
Lemma visit_append {V R} (f : string -> V -> M (list R) unit) (g : string * V -> R) l r :
  (forall kv r, kv ∈ l -> f kv.1 kv.2 r = (Ok tt, r ++ [g kv])) -> visit f l r = (Ok tt, r ++ (g <$> l)).
Proof.
  unfold visit. revert r. induction l as [|kv l IH]; intros r Hf; [by rewrite app_nil_r|]. cbn [for_each]. rewrite (bind_run _ _ _ _ _ (Hf kv r ltac:(by left))), IH by (intros; apply Hf; by right).
  by rewrite fmap_cons, <- app_assoc.
Qed.

(** The entries of a map in the order of its store, or backwards. *)
Definition listed {V} (rev : bool) (m : gmap string V) : list (string * V) := range None None (negb rev) m.

Lemma elem_of_listed {V} rev (m : gmap string V) k v : (k, v) ∈ listed rev m <-> m !! k = Some v.
Proof. unfold listed. rewrite elem_of_range. split; [by intros [? _]|done]. Qed.

Lemma listed_all {V} (m : gmap string V) : listed false m = kv_prefix_iter "" m.
Proof. unfold listed, range, kv_prefix_iter. apply list_filter_iff. intros [k v]. by destruct k. Qed.

Lemma listed_perm {V} rev (m : gmap string V) : listed rev m ≡ₚ map_to_list m.
Proof.
  assert (listed rev m ≡ₚ listed false m) as -> by (unfold listed, range; destruct rev; [apply reverse_Permutation|done]).
  apply NoDup_Permutation; [rewrite listed_all; apply (NoDup_fmap_1 fst), NoDup_kv_prefix_iter|apply NoDup_map_to_list|].
  intros [k v]. by rewrite elem_of_listed, elem_of_map_to_list.
Qed.
Lemma NoDup_listed {V} rev (m : gmap string V) : NoDup (listed rev m).
Proof. rewrite listed_perm. apply NoDup_map_to_list. Qed.
Lemma length_listed {V} rev (m : gmap string V) : length (listed rev m) = size m.
Proof. by rewrite listed_perm, length_map_to_list. Qed.

(** The two kinds of queries over a first page. *)
Lemma paged_run {V R} (part : State -> gmap string V) (f : State -> string -> V -> M (list R) unit) g offset limit ct rev s :
  0 <= offset -> 0 < limit -> offset + limit < two64 -> Z.of_nat (length (listed rev (part s))) < two64 ->
  (forall kv r, kv ∈ listed rev (part s) -> f s kv.1 kv.2 r = (Ok tt, r ++ [g kv])) ->
  paged part f (Some (mkPageRequest None offset limit ct rev)) [] s =
    (Ok (mkPageResponse (next_key offset limit (listed rev (part s))) (if ct then Z.of_nat (length (listed rev (part s))) else 0), g <$> page offset limit (listed rev (part s))), s).
Proof.
  intros Ho Hl Hn Hlen Hf. unfold paged. destruct (Paginate_first (f s) offset limit ct rev (part s) [] I Ho Hl Hn Hlen) as (s' & n & _ & _ & Hct & E).
  change (range None None (negb rev) (id (part s))) with (listed rev (part s)) in *. rewrite E.
  rewrite (visit_append _ g) by (intros kv r Hin; apply Hf; by eapply elem_of_page). cbn [app]. destruct ct; [by rewrite Hct|done].
Qed.

Lemma filtered_run {V R} (part : State -> gmap string V) (f : State -> string -> V -> M (list R) unit) g offset limit ct rev s :
  0 <= offset -> 0 < limit -> offset + limit < two64 -> Z.of_nat (length (listed rev (part s))) < two64 ->
  (forall kv r, kv ∈ listed rev (part s) -> f s kv.1 kv.2 r = (Ok tt, r ++ [g kv])) ->
  filtered part (when_asked f) (Some (mkPageRequest None offset limit ct rev)) [] s =
    (Ok (mkPageResponse (next_key offset limit (listed rev (part s))) (if ct then Z.of_nat (length (listed rev (part s))) else 0), g <$> page offset limit (listed rev (part s))), s).
Proof.
  intros Ho Hl Hn Hlen Hf. rewrite <- (paged_run part f g) by done. unfold filtered, paged. rewrite (FilteredPaginate_all_hits (f s) (when_asked f s)); [done..|exact Ho|cbn; lia| |exact Hlen].
  cbn. unfold limit_of. cbn. destruct (Z.eqb_spec limit 0); lia.
Qed.

Section Theorems.
Context `{SdkMathLaws} `{!SdkDecRound} `{!SdkDecRoundLaws} `{Bech32Laws}.

(** ** The supply *)

Lemma visit_add_supply s l sup : visit (add_to_supply s) l sup =
  match add_supply sup l with Ok r => (Ok tt, r) | Err e => (Err e, snd (visit (add_to_supply s) l sup)) | Panic => (Panic, snd (visit (add_to_supply s) l sup)) end.
Proof.
  revert sup. induction l as [|[d x] l IH]; intros sup; [done|]. unfold visit in *. cbn [for_each add_supply fst snd]. unfold bind at 1 2 3, add_to_supply at 1 3 5.
  destruct (o_panic (NewCoin d x)) as [c|e|]; [|done..]. cbn [obind]. destruct (Coins_Add sup [c]) as [r|e|]; [apply IH|done..].
Qed.

Lemma supply_page limit s : 0 < limit < two64 -> Z.of_nat (size (b_supply s)) <= limit ->
  GetPaginatedTotalSupply (Some (mkPageRequest None 0 limit false false)) s = (let! sup := GetTotalSupply in ret (sup, mkPageResponse None 0)) s.
Proof.
  intros Hl Hn. assert (Z.of_nat (length (listed false (b_supply s))) <= limit) as Hlen by by rewrite length_listed.
  destruct (Paginate_first (add_to_supply s) 0 limit false false (b_supply s) [] I) as (s' & n & _ & _ & _ & E); [done|lia..|change (Z.of_nat (length (listed false (b_supply s))) < two64); lia|].
  change (range None None (negb false) (id (b_supply s))) with (listed false (b_supply s)) in E. fold (page 0 limit (listed false (b_supply s))) (next_key 0 limit (listed false (b_supply s))) in E.
  rewrite page_all, next_key_none, visit_add_supply, listed_all in E by done. unfold GetPaginatedTotalSupply, GetTotalSupply, paged, bind, reads, lift, ret. rewrite E. by destruct (add_supply [] _).
Qed.

(** The supply in one page.  A page with the greatest limit, which the
    export of the genesis and the invariants ask for, holds the whole supply:
    the paginated query gives what adding up the stored supply gives, and no
    next key. *)
Theorem supply_one_page s : Z.of_nat (size (b_supply s)) < two64 ->
  GetPaginatedTotalSupply (Some (mkPageRequest None 0 MaxLimit false false)) s = (let! sup := GetTotalSupply in ret (sup, mkPageResponse None 0)) s.
Proof. intros Hn. apply supply_page; unfold MaxLimit; [done|lia]. Qed.

(** ** The owners of a denomination *)

Definition owner_entry (s : State) (d key : string) : DenomOwner := mkDenomOwner (AccAddress_String (addr_of key)) (mkCoin d (bal s (addr_of key) d)).

Lemma owners_part_spec s d key : books s -> ValidateDenom d = true ->
  owners_part d s !! key = Some tt <-> exists a, key = addr_key a /\ addr_ok a /\ 0 < bal s a d.
Proof.
  intros Hb Hd. unfold owners_part. rewrite prefixkv.lookup_under, lookup_gset_to_gmap_Some. rewrite (bk_owner _ Hb). split.
  - intros [(a & e & E & Ha & He & Hpos) _]. pose proof (denom_no_zero _ Hd) as Hdz. pose proof (denom_no_zero _ He) as Hez. unfold owner_at, CreateDenomAddressPrefix in E. rewrite <- !string_app_assoc in E. rewrite !string_app_cons, !string_app_nil in E. apply first_sep_inj in E as [-> E]; [|done..]. eauto.
  - intros (a & -> & Ha & Hpos). split; [|done]. by exists a, d.
Qed.

Lemma addr_of_key a : addr_ok a -> addr_of (addr_key a) = a.
Proof. intros Ha. unfold addr_of. pose proof (parse_balance_key a "" Ha) as E. unfold balance_key in E. rewrite string_app_nil_r in E. by rewrite E. Qed.

Lemma append_owner_run s d a r : books s -> addr_ok a -> ValidateDenom d = true -> append_owner d s (addr_key a) tt r = (Ok tt, r ++ [owner_entry s d (addr_key a)]).
Proof.
  unfold append_owner. intros Hb Ha Hd. pose proof (parse_balance_key a "" Ha) as E. unfold balance_key in E. rewrite string_app_nil_r in E. rewrite E.
  unfold bind, lift, modify. cbn [fst]. rewrite GetBalance_run by done. cbn [fst]. unfold owner_entry. by rewrite addr_of_key.
Qed.

Lemma owners_part_size s d : (size (owners_part d s) <= size (b_owners s))%nat.
Proof.
  rewrite <- (length_listed false). set (l := listed false (owners_part d s)). set (ks := (fun kv => CreateDenomAddressPrefix d +:+ kv.1) <$> l).
  assert (NoDup ks) as Hnd.
  { apply NoDup_fmap_2_strong; [|apply NoDup_listed]. intros [k []] [k' []] _ _ E. cbn in E. by apply (inj (String.append _)) in E as ->. }
  assert ((list_to_set ks : gset string) ⊆ b_owners s) as Hsub.
  { intros o (kv & -> & Hin)%elem_of_list_to_set%list_elem_of_fmap. destruct kv as [k []]. apply elem_of_listed in Hin. unfold owners_part in Hin. rewrite prefixkv.lookup_under in Hin. by apply lookup_gset_to_gmap_Some in Hin as [Hin _]. }
  apply subseteq_size in Hsub. rewrite size_list_to_set in Hsub by done. unfold ks in Hsub. by rewrite length_fmap in Hsub.
Qed.

(** C25: Who owns a denomination.  While the books balance, the owners that
    DenomOwners lists, page by page in either direction, are exactly the
    accounts with a positive balance of the denomination, each once, with what
    it holds; the total counts them, and there is a next key exactly when the
    page does not reach the last. *)
Theorem denom_owners t d offset limit ct rev s : bank_inv t s -> ValidateDenom d = true ->
  0 <= offset -> 0 < limit -> offset + limit < two64 -> Z.of_nat (size (b_owners s)) < two64 ->
  exists owners, NoDup (do_Address <$> owners) /\
    (forall o, o ∈ owners <-> exists a, addr_ok a /\ 0 < bal s a d /\ o = mkDenomOwner (AccAddress_String a) (mkCoin d (bal s a d))) /\
    exists next, DenomOwners (Some (d, Some (mkPageRequest None offset limit ct rev))) s =
      (Ok (page offset limit owners, mkPageResponse next (if ct then Z.of_nat (length owners) else 0)), s) /\
      (next = None <-> (length owners <= Z.to_nat (offset + limit))%nat).
Proof.
  intros Hs Hd Ho Hl Hn Hsize. pose proof (so_books _ _ _ Hs) as Hb. set (l := listed rev (owners_part d s)).
  assert (forall kv, kv ∈ l -> exists a, kv = (addr_key a, tt) /\ addr_ok a /\ 0 < bal s a d) as Hin.
  { intros [key []] Hkv%elem_of_listed. apply owners_part_spec in Hkv as (a & -> & Ha); [|done..]. by exists a. }
  exists ((fun kv => owner_entry s d kv.1) <$> l). split; [|split; [|exists (next_key offset limit l); split]].
  - rewrite <- list_fmap_compose. apply NoDup_fmap_2_strong; [|apply NoDup_listed]. intros x y (a & -> & Ha & _)%Hin (b & -> & Hb' & _)%Hin. cbn. rewrite !addr_of_key by done. intros E. assert (a = b) as -> by (by apply bankgenesis.addr_text_inj). done.
  - intros o. rewrite list_elem_of_fmap. split.
    + intros (kv & -> & (a & -> & Ha & Hpos)%Hin). exists a. unfold owner_entry. cbn [fst]. by rewrite addr_of_key.
    + intros (a & Ha & Hpos & ->). exists (addr_key a, tt). split; [unfold owner_entry; cbn [fst]; by rewrite addr_of_key|]. apply elem_of_listed, owners_part_spec; [done..|]. by exists a.
  - unfold DenomOwners, request, query_denom. cbn [fst snd]. rewrite Hd. unfold ret at 1. rewrite (bind_run _ _ _ _ _ eq_refl).
    assert (Z.of_nat (length l) < two64) as Hlen by (unfold l; rewrite length_listed; pose proof (owners_part_size s d); lia).
    assert (forall kv r, kv ∈ l -> append_owner d s kv.1 kv.2 r = (Ok tt, r ++ [owner_entry s d kv.1])) as Hrun by (intros kv r (a & -> & Ha & Hpos)%Hin; by apply append_owner_run).
    rewrite (bind_run _ _ _ _ _ (map_err_run _ _ _ _ _ (filtered_run (owners_part d) (append_owner d) (fun kv => owner_entry s d kv.1) offset limit ct rev s Ho Hl Hn Hlen Hrun))).
    unfold ret. cbn [fst snd]. by rewrite fmap_page, length_fmap.
  - unfold next_key. rewrite length_fmap. split; [intros E%fmap_None; by apply lookup_ge_None|intros E; by rewrite lookup_ge_None_2].
Qed.

(** ** What an account holds and may spend *)

Lemma lookup_account_part s a d : account_part (addr_key a) s !! d = b_balances s !! balance_key a d.
Proof. apply prefixkv.lookup_under. Qed.

Lemma account_entries a s : books s -> addr_ok a -> forall kv, kv ∈ kv_prefix_iter (addr_key a) (b_balances s) ->
  exists d, kv.1 = balance_key a d /\ ValidateDenom d = true /\ 0 < kv.2 < 2 ^ 256.
Proof.
  intros Hb Ha [key x] [Hk Hp]%elem_of_kv_prefix_iter. apply (bk_entry _ Hb) in Hk as (b & d & -> & Hb' & Hd & Hx). apply prefix_iff in Hp as [t E].
  apply (balance_key_inj b a d t) in E as [-> ->]; [|done..]. by exists t.
Qed.

Definition account_coin (kv : string * Z) : Coin := mkCoin (denom_of kv.1) kv.2.

Lemma account_balances_run a l : addr_ok a -> (forall kv, kv ∈ l -> exists d, kv.1 = balance_key a d /\ ValidateDenom d = true /\ 0 < kv.2 < 2 ^ 256) ->
  account_balances (String.length (addr_key a)) l = Ok (account_coin <$> l) /\ Forall coin_ok (account_coin <$> l).
Proof.
  intros Ha. induction l as [|[key x] l IH]; intros Hl; [done|]. destruct (Hl (key, x)) as (d & E & Hd & Hx); [by left|]. cbn in E, Hx. subst key.
  destruct IH as [IH1 IH2]; [intros kv Hkv; apply Hl; by right|]. rewrite fmap_cons. cbn [account_balances]. unfold account_coin at 1 3. cbn [fst snd]. rewrite denom_of_key by done.
  unfold balance_key. rewrite str_drop_app. unfold UnmarshalBalanceCompat. rewrite Hd. cbn [negb from_option id]. rewrite vesting.NewCoin_run by (done || (cbn; lia)). cbn [o_panic no_err obind].
  rewrite IH1. split; [done|]. constructor; [split; [done|cbn; lia]|done].
Qed.

Lemma GetAllBalances_run s a : books s -> addr_ok a -> exists l, GetAllBalances a s = (Ok l, s) /\ valid l /\ forall d, coins_amount l d = bal s a d.
Proof.
  intros Hb Ha. set (l := kv_prefix_iter (addr_key a) (b_balances s)). destruct (account_balances_run a l Ha (account_entries a s Hb Ha)) as [El Hl].
  assert (forall d, coins_amount (account_coin <$> l) d = bal s a d) as Hamt.
  { intros d. rewrite coins_amount_fmap. unfold bal. rewrite <- map_sum_at, <- (lsum_kv_prefix_iter _ (addr_key a)).
    - apply lsum_ext. intros kv (e & E & _)%(account_entries a s Hb Ha). unfold account_coin. cbn [Denom Amount]. rewrite E, denom_of_key by done.
      apply bool_decide_ext_if || (repeat case_bool_decide; try done; [by subst|exfalso; by match goal with Hk : balance_key a e = _ |- _ => apply balance_key_inj in Hk as [_ ->] end]).
    - intros key x _ Hp. rewrite bool_decide_false; [done|]. intros ->. unfold balance_key in Hp. by rewrite prefix_app in Hp. }
  destruct (add_each_run [] (account_coin <$> l)) as (r & Er & Hr & Hra); [done..|intros d; rewrite Hamt; apply (books_range s Hb)|].
  exists r. split; [|split; [done|intros d; rewrite Hra, Hamt; cbn; lia]]. unfold GetAllBalances, IterateAccountBalances, CreateAccountBalancesPrefix. rewrite addr_key_run by done.
  unfold bind, lift, reads, ret. fold l. rewrite El, Er, sort_valid by done. done.
Qed.

Lemma SpendableCoins_run ctx a s : bank_inv (BlockTime ctx) s -> addr_ok a -> in_i64 (BlockTime ctx) ->
  exists l, SpendableCoins ctx a s = (Ok l, s) /\ valid l /\ forall d, coins_amount l d = bal s a d - locked (BlockTime ctx) (b_auth s) a d.
Proof.
  intros Hs Ha Ht. destruct (GetAllBalances_run s a (so_books _ _ _ Hs) Ha) as (tot & Et & Htv & Htot). destruct (locked_run (BlockTime ctx) (b_auth s) a (so_accounts _ _ _ Hs) Ht) as (lk & El & Hlv & Hlk & Hfit).
  destruct (Coins_SafeSub_valid tot lk Htv Hlv) as (r & neg & Er & Hr & Hneg & Hv); [intros d; rewrite Htot; apply (books_range _ (so_books _ _ _ Hs))|done|].
  assert (neg = false) as -> by (apply Hneg; intros d; rewrite Hlk, Htot; by apply (so_funds _ _ _ Hs)).
  exists r. split; [|split; [by apply Hv|intros d; by rewrite Hr, Htot, Hlk]].
  unfold SpendableCoins, spendableCoins. rewrite bind_assoc, (bind_run _ _ _ _ _ Et), bind_assoc. assert (LockedCoins ctx a s = (Ok lk, s)) as EL by by rewrite LockedCoins_eq, El.
  rewrite (bind_run _ _ _ _ _ EL). unfold bind, lift, ret. by rewrite Er.
Qed.

Lemma SpendableCoin_run ctx a d s : bank_inv (BlockTime ctx) s -> addr_ok a -> in_i64 (BlockTime ctx) -> ValidateDenom d = true ->
  SpendableCoin ctx a d s = (Ok (mkCoin d (bal s a d - locked (BlockTime ctx) (b_auth s) a d)), s).
Proof.
  intros Hs Ha Ht Hd. destruct (locked_run (BlockTime ctx) (b_auth s) a (so_accounts _ _ _ Hs) Ht) as (lk & El & Hlv & Hlk & _).
  pose proof (books_range _ (so_books _ _ _ Hs) a d) as Hr. pose proof (so_funds _ _ _ Hs a d Ha) as Hf. pose proof (locked_nonneg (BlockTime ctx) (b_auth s) a d).
  unfold SpendableCoin. rewrite (bind_run _ _ _ _ _ (GetBalance_run s a d (so_books _ _ _ Hs) Ha Hd)). assert (LockedCoins ctx a s = (Ok lk, s)) as EL by by rewrite LockedCoins_eq, El.
  rewrite (bind_run _ _ _ _ _ EL). unfold bind, lift. rewrite vesting.AmountOf_run, Hlk by (done || apply strict_of, Hlv || by apply valid_nonzero).
  unfold Coin_SubAmount. cbn [Denom Amount]. rewrite Int_Sub_fits by lia. cbn [o_panic obind]. unfold Coin_IsNegative. cbn [Amount]. destruct (Z.eqb_spec (Z.sgn (bal s a d - locked (BlockTime ctx) (b_auth s) a d)) (-1)); [lia|done].
Qed.

Lemma query_address_run a s : addr_ok a -> query_address (AccAddress_String a) s = (Ok a, s).
Proof. intros Ha. unfold query_address. by rewrite bankgenesis.addr_parse. Qed.

(** Sending one coin. *)
Lemma send_one ctx a to d x s : bank_inv (BlockTime ctx) s -> addr_ok a -> addr_ok to -> in_i64 (BlockTime ctx) -> ValidateDenom d = true -> 0 < x < 2 ^ 256 ->
  x <= bal s a d - locked (BlockTime ctx) (b_auth s) a d <-> exists s', SendCoins ctx a to [mkCoin d x] s = (Ok tt, s').
Proof.
  intros Hs Ha Hto Ht Hd Hx. assert (int_coins [mkCoin d x]) as Hfit by (intros e; cbn; case_bool_decide; lia). split.
  - intros Hle. exists (sent_state a to [mkCoin d x] s). apply send_run; [done..| |]; [apply vesting.one_valid; [done|lia]|]. intros e. cbn. case_bool_decide; subst; lia.
  - intros (s' & E). apply (transfer_ok _ _ _ _ _ _ _ _ Hs) in E as (_ & Hsend & _); [|done..]. specialize (Hsend d). cbn in Hsend. rewrite bool_decide_true in Hsend by done. lia.
Qed.

(** C26: What is spendable is what can be sent.  While the books balance,
    SpendableBalanceByDenom of an account's address answers with the amount
    that SpendableCoins computes from the balance and the vesting schedule, and
    a coin of the denomination can be sent, to anyone, exactly when it is not
    more than that. *)
Theorem spendable_is_sendable ctx a d s : bank_inv (BlockTime ctx) s -> addr_ok a -> in_i64 (BlockTime ctx) -> ValidateDenom d = true ->
  exists n, SpendableBalanceByDenom ctx (Some (AccAddress_String a, d)) s = (Ok (mkCoin d n), s) /\
    (exists cs, SpendableCoins ctx a s = (Ok cs, s) /\ valid cs /\ coins_amount cs d = n) /\
    forall to x, addr_ok to -> 0 < x < 2 ^ 256 -> x <= n <-> exists s', SendCoins ctx a to [mkCoin d x] s = (Ok tt, s').
Proof.
  intros Hs Ha Ht Hd. exists (bal s a d - locked (BlockTime ctx) (b_auth s) a d). split; [|split].
  - unfold SpendableBalanceByDenom, request, query_denom. cbn [fst snd]. rewrite (bind_run _ _ _ _ _ (query_address_run a s Ha)), Hd. unfold ret. rewrite (bind_run _ _ _ _ _ eq_refl). by apply SpendableCoin_run.
  - destruct (SpendableCoins_run ctx a s Hs Ha Ht) as (cs & E & Hv & Hamt). by exists cs.
  - intros to x Hto Hx. by apply send_one.
Qed.
End Theorems.

Module queries_toy.
#[local] Existing Instances sdkmath sdkmath_laws sdkround sdkround_laws bech32_toy bech32_toy_laws.
Import bank_toy chain_toy.

Lemma ok_inj {S A} (a b : A) (s s' : S) : (Ok a, s) = (Ok b, s') -> a = b.
Proof. by intros [= -> _]. Qed.

Lemma s4_inv : bank_inv 8 s4.
Proof. exact (proj2 (bank_reach_inv keeper modules 0 empty 8 s4 (Z.le_refl 0) (empty_inv 0) toy_reach)). Qed.

Lemma supply_one_page_witness : GetPaginatedTotalSupply (Some (mkPageRequest None 0 MaxLimit false false)) s4 = (Ok (zyt 1000, mkPageResponse None 0), s4).
Proof.
  rewrite (supply_one_page s4).
  - vm_compute. reflexivity.
  - vm_compute. reflexivity.
Defined.

(** The second owner of three. *)
Lemma denom_owners_witness : exists owners next, mkDenomOwner (AccAddress_String "alice") (mkCoin "uzyt" 300) ∈ owners /\
  DenomOwners (Some ("uzyt", Some (mkPageRequest None 1 1 true false))) s4 = (Ok (page 1 1 owners, mkPageResponse next (Z.of_nat (length owners))), s4).
Proof.
  destruct (denom_owners 8 "uzyt" 1 1 true false s4 s4_inv) as (owners & _ & Ho & next & E & _).
  - vm_compute. reflexivity.
  - lia.
  - lia.
  - unfold two64. lia.
  - vm_compute. reflexivity.
  - exists owners, next. split; [|exact E]. apply Ho. exists "alice". split; [apply toy_addr; cbn; lia|]. split; vm_compute; reflexivity.
Defined.

(** Bob has 100, all locked. *)
Lemma spendable_is_sendable_witness : SpendableBalanceByDenom (at_time 8) (Some (AccAddress_String "bob", "uzyt")) s4 = (Ok (mkCoin "uzyt" 0), s4) /\
  bal s4 "bob" "uzyt" = 100 /\ ~ exists s', SendCoins (at_time 8) "bob" "alice" (zyt 1) s4 = (Ok tt, s').
Proof.
  destruct (spendable_is_sendable (at_time 8) "bob" "uzyt" s4 s4_inv) as (n & E & _ & Hn).
  - apply toy_addr. cbn. lia.
  - apply toy_times. cbn. lia.
  - vm_compute. reflexivity.
  - assert (SpendableBalanceByDenom (at_time 8) (Some (AccAddress_String "bob", "uzyt")) s4 = (Ok (mkCoin "uzyt" 0), s4)) as E0 by (vm_compute; reflexivity).
    rewrite E0 in E. apply ok_inj in E. injection E as <-. split; [exact E0|]. split; [vm_compute; reflexivity|].
    intros Hs. apply (Hn "alice" 1) in Hs; [lia| |lia]. apply toy_addr. cbn. lia.
Defined.
End queries_toy.
End bankqueries.
