(* ===== verification/BankModules.v ===== *)
(** BankModules: when the calls that modules make to the bank succeed.

    A module's account is ready when its address is free or already holds a
    module account with its permissions.  For ready accounts, MintCoins and the
    transfers between modules are total up to the bounds of amounts; these
    lemmas are what the BeginBlockers of Mint.v run on. *)

From Stdlib Require Import ZArith Lia Ascii String.
From stdpp Require Import base gmap sets list strings fin_maps sorting pretty.
From S2P Require Import Prelude Sdk Wire KVStore Coins StoreKeys Vesting Auth BankStore BankBooks.

Open Scope Z_scope.
Open Scope go_scope.

Import bank.

(** The address of a module is free, or holds its account. *)
Definition ready (auth : AuthState) (addr : string) (perms : list string) : Prop :=
  forall acc, as_accounts auth !! addr = Some acc -> exists n p, acc_kind acc = ModuleAccount n p /\ forall x, x ∈ perms -> x ∈ p.

Section Modules.
Context `{SdkMathLaws} `{!SdkDecRound} `{!SdkDecRoundLaws} `{Bech32} (k : Keeper) (Hk : modules_ok k).

Lemma ready_insert auth auth' a acc b perms : as_accounts auth' = <[a := acc]> (as_accounts auth) -> ready auth b perms ->
  (a = b -> exists n p, acc_kind acc = ModuleAccount n p /\ forall x, x ∈ perms -> x ∈ p) -> ready auth' b perms.
Proof. intros E Hr Hab acc'. rewrite E. intros [[-> <-]|[_ Hb]]%lookup_insert_Some; [by apply Hab|by apply Hr]. Qed.

Lemma ready_locked t auth a d perms : ready auth a perms -> locked t auth a d = 0.
Proof. intros Hr. unfold locked. destruct (as_accounts auth !! a) as [acc|] eqn:Ea; [|done]. by destruct (Hr _ Ea) as (n & p & -> & _). Qed.

(** The account of a module whose address is ready. *)
Lemma module_account_run t f name addr perms s : sound t f s -> permAddrs k !! name = Some (addr, perms) -> ready (b_auth s) addr perms ->
  exists acc n p auth', module_account k name s = (Ok acc, set_auth auth' s) /\ acc_Address acc = addr /\ acc_kind acc = ModuleAccount n p /\ (forall x, x ∈ perms -> x ∈ p) /\
    as_accounts auth' = <[addr := acc]> (as_accounts (b_auth s)) /\ sound t f (set_auth auth' s) /\ forall t' a d, locked t' auth' a d = locked t' (b_auth s) a d.
Proof.
  intros Hs Ep Hr. assert (exists acc s', module_account k name s = (Ok acc, s') /\ exists n p, acc_kind acc = ModuleAccount n p /\ forall x, x ∈ perms -> x ∈ p) as (acc & s' & E & n & p & Ekind & Hp).
  { unfold module_account, GetModuleAccount, GetModuleAccountAndPermissions, on_auth, bind, or_panic. rewrite Ep. unfold GetAccount, reads.
    destruct (as_accounts (b_auth s) !! addr) as [acc|] eqn:Ea.
    - destruct (Hr _ Ea) as (n & p & Ek & Hp). rewrite Ek. cbn. do 2 eexists. split; [reflexivity|]. by exists n, p.
    - cbn. do 2 eexists. split; [reflexivity|]. cbn. by exists name, perms. }
  destruct (module_account_ok k t f name s acc s' Hs Hk E) as (perms' & auth' & Ep' & _ & -> & Hs' & Eau & _ & Hl). rewrite Ep in Ep'. injection Ep' as Eaddr <-. rewrite <- Eaddr in Eau.
  exists acc, n, p, auth'. split_and!; done.
Qed.

Lemma shift_supply a n amt s : b_supply (shift a n amt s) = b_supply s.
Proof. by pose proof (shift_rest a n amt s) as [[= _ E _ _ _] _]. Qed.
Lemma shift_accounts a n amt s : b_auth (shift a n amt s) = b_auth s.
Proof. by pose proof (shift_rest a n amt s) as [[= E _ _ _ _] _]. Qed.

(** One coin, or none. *)
Lemma mk_NewCoins_one d x : ValidateDenom d = true -> 0 <= x -> mk_NewCoins [mkCoin d x] = Ok (coin1 d x).
Proof.
  intros Hd Hx. unfold mk_NewCoins. rewrite vesting.NewCoins_nonzero. assert (vesting.nonzero [mkCoin d x] = coin1 d x) as ->.
  { unfold vesting.nonzero, coin1. rewrite filter_cons. cbn. by destruct (Z.eqb_spec x 0), (decide _). }
  by rewrite NewCoins_valid by (by apply coin1_valid).
Qed.

Lemma mint_loop_run t f d x s : sound t f s -> ValidateDenom d = true -> 0 < x -> supply_of s d + x < 2 ^ 256 ->
  for_each [mkCoin d x] mint_supply s = (Ok tt, put_supply d (supply_of s d + x) s).
Proof.
  intros Hs Hd Hx Hfit. pose proof (supply_range _ _ _ d Hs). cbn [for_each]. unfold mint_supply, GetSupply, bind, reads, Coin_Add, supply_of in *. cbn [Denom Amount].
  rewrite bool_decide_false by naive_solver. rewrite Int_Add_fits by lia. done.
Qed.

(** Minting a coin for a module that may. *)
Lemma MintCoins_run ctx m addr perms d x s : bank_inv (BlockTime ctx) s -> permAddrs k !! m = Some (addr, perms) -> ready (b_auth s) addr perms -> "minter" ∈ perms ->
  mintCoinsRestrictionFn k ctx [mkCoin d x] = None -> ValidateDenom d = true -> 0 < x -> supply_of s d + x < 2 ^ 256 ->
  exists s' acc n p, MintCoins k ctx m [mkCoin d x] s = (Ok tt, s') /\ as_accounts (b_auth s') = <[addr := acc]> (as_accounts (b_auth s)) /\
    acc_kind acc = ModuleAccount n p /\ (forall x, x ∈ perms -> x ∈ p) /\ bank_inv (BlockTime ctx) s' /\ issued_at addr 1 [mkCoin d x] s s'.
Proof.
  intros Hs Ep Hr Hm Hc Hd Hx Hfit. destruct (module_account_run _ _ m addr perms s Hs Ep Hr) as (acc & n & p & auth' & E & Ea & Ek & Hp & Eau & Hs1 & Hl).
  pose proof (Hk _ _ _ Ep) as Haddr. set (s1 := set_auth auth' s) in *.
  assert (valid [mkCoin d x]) as Hv by (by apply vesting.one_valid).
  assert (forall e, bal s1 addr e + coins_amount [mkCoin d x] e < 2 ^ 256) as Hroom.
  { intros e. pose proof (bal_le_total s1 addr e (so_books _ _ _ Hs1) Haddr). pose proof (so_total _ _ _ Hs1 e). pose proof (supply_range _ _ _ e Hs1). change (supply_of s1 e) with (supply_of s e) in *.
    cbn [coins_amount Denom Amount]. case_bool_decide; subst; cbn beta in *; lia. }
  pose proof (addCoins_run addr [mkCoin d x] s1 (so_books _ _ _ Hs1) Haddr Hv Hroom) as E2. destruct (add_ok _ _ _ _ _ _ _ Hs1 Haddr E2) as (_ & _ & Hs2). set (s2 := set_events _ (shift _ _ _ s1)) in *.
  assert (supply_of s2 d = supply_of s d) as Esup by (unfold supply_of, s2; cbn [b_supply set_events]; by rewrite shift_supply).
  assert (for_each [mkCoin d x] mint_supply s2 = (Ok tt, put_supply d (supply_of s2 d + x) s2)) as E3 by (eapply mint_loop_run; [exact Hs2|done|done|lia]).
  assert (HasPermission acc "minter" = true) as Eperm by (unfold HasPermission; rewrite Ek; apply bool_decide_true; by apply Hp).
  eexists _, acc, n, p. split.
  { unfold MintCoins. rewrite Hc. cbn [check]. unfold ret. rewrite (bind_run _ _ _ _ _ eq_refl), (bind_run _ _ _ _ _ E), Eperm. cbn [negb]. rewrite Ea, (bind_run _ _ _ _ _ E2), (bind_run _ _ _ _ _ E3). reflexivity. }
  split; [|split; [exact Ek|split; [exact Hp|]]].
  - cbn [b_auth set_events put_supply set_supply]. unfold s2. cbn [b_auth set_events]. rewrite shift_accounts. exact Eau.
  - destruct (supply_step mint_supply 1 (BlockTime ctx) _ _ _ _ _ (mint_supply_ok (BlockTime ctx)) Hs2 Hv E3) as [Hs3 Hmv]. split.
    + apply sound_events. eapply sound_ext; [|exact Hs3]. intros e. cbn. lia.
    + eapply issued_intro; [done|exact Hl|exact Hmv].
Qed.

(** A transfer between modules. *)
Lemma module_transfer_run ctx from to addr perms b perms' amt s : bank_inv (BlockTime ctx) s -> in_i64 (BlockTime ctx) ->
  permAddrs k !! from = Some (addr, perms) -> permAddrs k !! to = Some (b, perms') -> ready (b_auth s) addr perms -> ready (b_auth s) b perms' ->
  valid amt -> int_coins amt -> (forall d, coins_amount amt d <= bal s addr d) ->
  exists s', SendCoinsFromModuleToModule k ctx from to amt s = (Ok tt, s') /\ bank_inv (BlockTime ctx) s' /\
    (forall a d, addr_ok a -> bal s' a d = bal s a d - at_ a addr (coins_amount amt d) + at_ a b (coins_amount amt d)) /\
    b_supply s' = b_supply s /\ (forall a q, ready (b_auth s) a q -> (a = b -> forall x, x ∈ q -> x ∈ perms') -> ready (b_auth s') a q) /\
    forall t a d, locked t (b_auth s') a d = locked t (b_auth s) a d.
Proof.
  intros Hs Ht Ef Eb Hrf Hrb Hv Hfit Hle. pose proof (Hk _ _ _ Ef) as Hf. pose proof (Hk _ _ _ Eb) as Hb.
  destruct (module_account_run _ _ to b perms' s Hs Eb Hrb) as (acc & n & p & auth' & E & Ea & Ek & Hp & Eau & Hs1 & Hl). set (s1 := set_auth auth' s) in *.
  assert (sendable (BlockTime ctx) s1 addr amt) as Hsend.
  { intros d Hpos. change (b_auth s1) with auth'. change (bal s1 addr d) with (bal s addr d). rewrite Hl, (ready_locked _ _ _ _ _ Hrf). by specialize (Hle d). }
  pose proof (send_run ctx addr b amt s1 Hs1 Hf Hb Ht Hfit Hv Hsend) as E2. destruct (transfer_ok _ _ _ _ _ _ _ _ Hs1 Hf Hb Ht Hfit E2) as (_ & _ & _ & Hs2).
  pose proof (sent_state_sent addr b amt s1 Hf Hb) as Hsent. exists (sent_state addr b amt s1).
  assert (b_auth (sent_state addr b amt s1) = auth') as Eauth.
  { rewrite (sn_auth _ _ _ _ _ Hsent). unfold with_account. change (b_auth s1) with auth'. by rewrite Eau, lookup_insert_eq. }
  split_and!.
  - unfold SendCoinsFromModuleToModule, GetModuleAddress. rewrite Ef. cbn [fmap option_fmap option_map fst or_panic]. unfold ret. rewrite (bind_run _ _ _ _ _ eq_refl), (bind_run _ _ _ _ _ E), Ea. exact E2.
  - exact Hs2.
  - intros a d Ha. by rewrite (sn_bal _ _ _ _ _ Hsent).
  - by rewrite (sn_supply _ _ _ _ _ Hsent).
  - intros a q Hr Hab. rewrite Eauth. eapply ready_insert; [exact Eau|exact Hr|]. intros ->. exists n, p. split; [done|]. intros x Hx. by apply Hp, Hab.
  - intros t a d. by rewrite Eauth.
Qed.
End Modules.
