(* ===== verification/SdkDec.v ===== *)
(** SdkDec: the operations of cosmossdk.io/math on decimals that x/mint and
    x/staking use beyond those of Sdk.v.

    QuoInt divides by an integer towards zero and panics on zero; Sub and
    MulInt succeed while the result fits. *)

From Stdlib Require Import ZArith Lia Ascii String.
From stdpp Require Import base strings.
From S2P Require Import Prelude Sdk.

Open Scope Z_scope.

Class SdkDecInt : Type := { Dec_QuoInt : Z -> Z -> option Z }.

Class SdkDecIntLaws `{SdkMath} `{SdkDecInt} : Prop := {
  Dec_QuoInt_quot a i : i <> 0 -> Dec_QuoInt a i = Some (Z.quot a i);
  Dec_QuoInt_zero a : Dec_QuoInt a 0 = None;
  Dec_Sub_fits a b : Z.abs (a - b) < 2 ^ 314 -> Dec_Sub a b = Some (a - b);
  Dec_MulInt_fits a i : Z.abs (a * i) < 2 ^ 314 -> Dec_MulInt a i = Some (a * i);
}.

(** A concrete instance. *)
Definition sdkdecint : SdkDecInt := {| Dec_QuoInt a i := if i =? 0 then None else Some (Z.quot a i) |}.

#[export] Instance sdkdecint_laws : @SdkDecIntLaws sdkmath sdkdecint.
Proof.
  assert (2 ^ 314 < 2 ^ 315) as Hlt by done. split; intros; cbn.
  - by destruct (Z.eqb_spec i 0).
  - done.
  - apply fits_run. lia.
  - apply fits_run. lia.
Qed.

Section Laws.
Context `{SdkDecIntLaws}.

Lemma Dec_QuoInt_inv a i c : Dec_QuoInt a i = Some c -> i <> 0 /\ c = Z.quot a i.
Proof. destruct (decide (i = 0)) as [->|Hi]; [by rewrite Dec_QuoInt_zero|]. rewrite Dec_QuoInt_quot by done. by intros [= <-]. Qed.
End Laws.
