(* ===== verification/Mint.v ===== *)
(** Mint: x/mint, and the pools of x/staking (keeper/pool.go) that it reads,
    over the bank of BankStore.v.

    Every block the inflation moves towards the goal for the bonded share of
    the staking tokens, and the provision of the block is minted for the fee
    collector.  Decimals are never nil here; parameters that were never set,
    whose decimals are, are [None].  The bond denomination is the parameter of
    x/staking, which this part only reads.

    Theorems: inflation stays within its bounds and moves towards the goal; a
    block succeeds and mints exactly its provision; how fast supply can grow;
    a number of blocks that passes validation and stops the chain. *)

From Stdlib Require Import ZArith Lia Ascii String.
From stdpp Require Import base gmap sets list strings fin_maps sorting pretty.
From S2P Require Import Prelude Sdk SdkDec Wire KVStore Coins StoreKeys Vesting Auth BankStore BankBooks BankModules.

Open Scope Z_scope.
Open Scope go_scope.

Module mint.

(** ** types/mint.pb.go, params.go *)

Record Minter : Type := mkMinter { Inflation : Z; AnnualProvisions : Z }.

Record Params : Type := mkParams {
  MintDenom : string;
  InflationRateChange : Z;
  InflationMax : Z;
  InflationMin : Z;
  GoalBonded : Z;
  BlocksPerYear : Z;
}.

Definition NewParams (mintDenom : string) (inflationRateChange inflationMax inflationMin goalBonded blocksPerYear : Z) : Params :=
  mkParams mintDenom inflationRateChange inflationMax inflationMin goalBonded blocksPerYear.

Definition validateMintDenom (v : string) : outcome unit :=
  if all_space v then Err (Errorf "mint denom cannot be blank") else
  if ValidateDenom v then Ok tt else Err (Errorf "invalid denom").

(** Between zero and one. *)
Definition validate_rate (neg large : string) (v : Z) : outcome unit :=
  if v <? 0 then Err (Errorf neg) else
  if dec_one <? v then Err (Errorf large) else Ok tt.
Definition validateInflationRateChange : Z -> outcome unit := validate_rate "inflation rate change cannot be negative" "inflation rate change too large".
Definition validateInflationMax : Z -> outcome unit := validate_rate "max inflation cannot be negative" "max inflation too large".
Definition validateInflationMin : Z -> outcome unit := validate_rate "min inflation cannot be negative" "min inflation too large".
Definition validateGoalBonded (v : Z) : outcome unit :=
  if v <=? 0 then Err (Errorf "goal bonded must be positive") else
  if dec_one <? v then Err (Errorf "goal bonded too large") else Ok tt.
Definition validateBlocksPerYear (v : Z) : outcome unit :=
  if v =? 0 then Err (Errorf "blocks per year must be positive") else Ok tt.

Definition Params_Validate (p : Params) : outcome unit :=
  let* _ := validateMintDenom (MintDenom p) in
  let* _ := validateInflationRateChange (InflationRateChange p) in
  let* _ := validateInflationMax (InflationMax p) in
  let* _ := validateInflationMin (InflationMin p) in
  let* _ := validateGoalBonded (GoalBonded p) in
  let* _ := validateBlocksPerYear (BlocksPerYear p) in
  if InflationMax p <? InflationMin p then Err (Errorf "max inflation must be greater than or equal to min inflation") else Ok tt.

(** ** types/minter.go *)

Definition NewMinter (inflation annualProvisions : Z) : Minter := mkMinter inflation annualProvisions.
Definition InitialMinter (inflation : Z) : Minter := NewMinter inflation 0.

Definition ValidateMinter (minter : Minter) : outcome unit :=
  if Inflation minter <? 0 then Err (Errorf "mint parameter Inflation should be positive") else Ok tt.

Section Minter.
Context `{SdkMath} `{SdkDecInt}.

Definition DefaultParams : Params :=
  mkParams "stake" (NewDecWithPrec 13 2) (NewDecWithPrec 20 2) (NewDecWithPrec 7 2) (NewDecWithPrec 67 2) (60 * 60 * 8766 / 5).
Definition DefaultInitialMinter : Minter := InitialMinter (NewDecWithPrec 13 2).

Definition NextInflationRate (m : Minter) (params : Params) (bondedRatio : Z) : outcome Z :=
  let* share := o_panic (Dec_Quo bondedRatio (GoalBonded params)) in
  let* distance := o_panic (Dec_Sub dec_one share) in
  let* inflationRateChangePerYear := o_panic (Dec_Mul distance (InflationRateChange params)) in
  let* inflationRateChange := o_panic (Dec_Quo inflationRateChangePerYear (NewDecFromInt (wrap_i64 (BlocksPerYear params)))) in
  let* inflation := o_panic (Dec_Add (Inflation m) inflationRateChange) in
  let inflation := if InflationMax params <? inflation then InflationMax params else inflation in
  Ok (if inflation <? InflationMin params then InflationMin params else inflation).

Definition NextAnnualProvisions (m : Minter) (totalSupply : Z) : outcome Z := o_panic (Dec_MulInt (Inflation m) totalSupply).

Definition BlockProvision (m : Minter) (params : Params) : outcome Coin :=
  let* provisionAmt := o_panic (Dec_QuoInt (AnnualProvisions m) (wrap_i64 (BlocksPerYear params))) in
  let* amount := o_panic (Dec_TruncateInt provisionAmt) in
  o_panic (NewCoin (MintDenom params) amount).
End Minter.

(** ** The state: the bank's and the two keys of x/mint *)

Record State : Type := mkState { m_bank : bank.State; m_minter : option Minter; m_params : option Params }.

Definition on_bank {A} (c : M bank.State A) : M State A := fun s => let '(r, b) := c (m_bank s) in (r, mkState b (m_minter s) (m_params s)).

(** What the keepers are given: the bank keeper, the authority, the account
    that collects fees, and the bond denomination of x/staking. *)
Record Keeper : Type := mkKeeper { bankKeeper : bank.Keeper; mk_authority : string; feeCollectorName : string; BondDenom : string }.

Definition ModuleName : string := "mint".
Definition BondedPoolName : string := "bonded_tokens_pool".
Definition NotBondedPoolName : string := "not_bonded_tokens_pool".

(** ** x/staking/keeper/pool.go *)

Section Pools.
Context `{SdkMath} `{SdkDecRound} `{SdkDecInt} `{Bech32} (k : Keeper).

Definition GetBondedPool : M bank.State Account := bank.module_account (bankKeeper k) BondedPoolName.
Definition GetNotBondedPool : M bank.State Account := bank.module_account (bankKeeper k) NotBondedPoolName.

(** [sdk.NewCoins(sdk.NewCoin(k.BondDenom(ctx), tokens))]. *)
Definition bond_coins (tokens : Z) : outcome Coins :=
  let* coin := o_panic (NewCoin (BondDenom k) tokens) in mk_NewCoins [coin].

Definition bondedTokensToNotBonded (ctx : Ctx) (tokens : Z) : M bank.State unit :=
  let! coins := lift (bond_coins tokens) in
  must (bank.SendCoinsFromModuleToModule (bankKeeper k) ctx BondedPoolName NotBondedPoolName coins).
Definition notBondedTokensToBonded (ctx : Ctx) (tokens : Z) : M bank.State unit :=
  let! coins := lift (bond_coins tokens) in
  must (bank.SendCoinsFromModuleToModule (bankKeeper k) ctx NotBondedPoolName BondedPoolName coins).

Definition burn_pool (ctx : Ctx) (pool : string) (amt : Z) : M bank.State unit :=
  if negb (0 <? amt) then ret tt else
  let! coins := lift (bond_coins amt) in
  bank.BurnCoins (bankKeeper k) ctx pool coins.
Definition burnBondedTokens (ctx : Ctx) : Z -> M bank.State unit := burn_pool ctx BondedPoolName.
Definition burnNotBondedTokens (ctx : Ctx) : Z -> M bank.State unit := burn_pool ctx NotBondedPoolName.

Definition TotalBondedTokens : M bank.State Z :=
  let! bondedPool := GetBondedPool in
  let! balance := bank.GetBalance (acc_Address bondedPool) (BondDenom k) in
  ret (Amount balance).

Definition StakingTokenSupply : M bank.State Z := let! supply := bank.GetSupply (BondDenom k) in ret (Amount supply).

Definition BondedRatio : M bank.State Z :=
  let! stakeSupply := StakingTokenSupply in
  if 0 <? stakeSupply then
    let! bonded := TotalBondedTokens in
    lift (o_panic (Dec_QuoInt (NewDecFromInt bonded) stakeSupply))
  else ret 0.

(** ** x/mint: keeper.go, genesis.go, msg_server.go, grpc_query.go, abci.go *)

Definition GetMinter : M State Minter := let! m := reads m_minter in or_panic m.
Definition SetMinter (minter : Minter) : M State unit := modify (fun s => mkState (m_bank s) (Some minter) (m_params s)).
Definition SetParams (p : Params) : M State unit :=
  lift (Params_Validate p) ;;!
  modify (fun s => mkState (m_bank s) (m_minter s) (Some p)).
Definition GetParams : M State (option Params) := reads m_params.

Definition MintCoins (ctx : Ctx) (newCoins : Coins) : M State unit :=
  match newCoins with [] => ret tt | _ => on_bank (bank.MintCoins (bankKeeper k) ctx ModuleName newCoins) end.
Definition AddCollectedFees (ctx : Ctx) (fees : Coins) : M State unit :=
  on_bank (bank.SendCoinsFromModuleToModule (bankKeeper k) ctx ModuleName (feeCollectorName k) fees).

Definition UpdateParams (reqAuthority : string) (params : Params) : M State unit :=
  if bool_decide (mk_authority k <> reqAuthority) then throw (Wrapf "invalid authority" bank.ErrInvalidSigner) else SetParams params.

(** types/msgs.go. *)
Definition MsgUpdateParams_ValidateBasic (reqAuthority : string) (params : Params) : outcome unit :=
  match AccAddressFromBech32 reqAuthority with None => Err (Errorf "invalid authority address") | Some _ => Params_Validate params end.

Record GenesisState : Type := mkGenesisState { gs_Minter : Minter; gs_Params : option Params }.

(** The default genesis, and ValidateGenesis of one whose parameters are set. *)
Definition DefaultGenesisState : GenesisState := mkGenesisState DefaultInitialMinter (Some DefaultParams).
Definition ValidateGenesis (data : GenesisState) : outcome unit :=
  let* params := o_panic (gs_Params data) in
  let* _ := Params_Validate params in
  ValidateMinter (gs_Minter data).

Definition InitGenesis (data : GenesisState) : M State unit :=
  SetMinter (gs_Minter data) ;;!
  let! params := or_panic (gs_Params data) in
  must (SetParams params) ;;!
  let! _ := on_bank (bank.on_auth (GetModuleAccount (bank.permAddrs (bankKeeper k)) ModuleName)) in
  ret tt.

Definition ExportGenesis : M State GenesisState :=
  let! minter := GetMinter in
  let! params := GetParams in
  ret (mkGenesisState minter params).

(** The queries. *)
Definition query_Params : M State (option Params) := GetParams.
Definition query_Inflation : M State Z := let! minter := GetMinter in ret (Inflation minter).
Definition query_AnnualProvisions : M State Z := let! minter := GetMinter in ret (AnnualProvisions minter).

(** What can be given to the module in place of the default. *)
Definition InflationCalculationFn : Type := Ctx -> Minter -> Params -> Z -> outcome Z.
Definition DefaultInflationCalculationFn : InflationCalculationFn := fun _ minter params bondedRatio => NextInflationRate minter params bondedRatio.

Definition BeginBlocker (ic : InflationCalculationFn) (ctx : Ctx) : M State unit :=
  let! minter := GetMinter in
  let! params := GetParams in
  let! totalStakingSupply := on_bank StakingTokenSupply in
  let! bondedRatio := on_bank BondedRatio in
  let! params := or_panic params in
  let! inflation := lift (ic ctx minter params bondedRatio) in
  let minter := mkMinter inflation (AnnualProvisions minter) in
  let! annualProvisions := lift (NextAnnualProvisions minter totalStakingSupply) in
  let minter := mkMinter inflation annualProvisions in
  SetMinter minter ;;!
  let! mintedCoin := lift (BlockProvision minter params) in
  let! mintedCoins := lift (mk_NewCoins [mintedCoin]) in
  must (MintCoins ctx mintedCoins) ;;!
  must (AddCollectedFees ctx mintedCoins) ;;!
  on_bank (bank.EmitEvent (NewEvent "mint" [
    ("bonded_ratio", ADec bondedRatio); ("inflation", ADec inflation);
    ("annual_provisions", ADec annualProvisions); ("amount", AInt (Amount mintedCoin))])).
End Pools.

(** ** Parameters that pass validation *)

Record params_ok (p : Params) : Prop := {
  po_denom : ValidateDenom (MintDenom p) = true;
  po_change : 0 <= InflationRateChange p <= dec_one;
  po_min : 0 <= InflationMin p <= InflationMax p;
  po_max : InflationMax p <= dec_one;
  po_goal : 0 < GoalBonded p <= dec_one;
  po_blocks : BlocksPerYear p <> 0;
}.

Lemma Params_Validate_ok p : Params_Validate p = Ok tt -> params_ok p.
Proof.
  unfold Params_Validate, validateMintDenom, validateInflationRateChange, validateInflationMax, validateInflationMin, validateGoalBonded, validateBlocksPerYear, validate_rate.
  destruct (all_space _); [done|]. destruct (ValidateDenom _) eqn:Hd; [|done]. cbn [obind].
  repeat match goal with |- context [if ?b then _ else _] => let E := fresh "E" in destruct b eqn:E; cbn [obind]; [done|] end. intros _.
  split; [done|lia..].
Qed.

Section Theorems.
Context `{SdkMathLaws} `{!SdkDecRound} `{!SdkDecRoundLaws} `{!SdkDecInt} `{!SdkDecIntLaws} `{Bech32}.

(** *** One step of the inflation *)

(** A year has at least one block, and its number of blocks is an int64. *)
Definition blocks_fit (p : Params) : Prop := 0 < BlocksPerYear p < two63.

(** Quotients that are off by less than one. *)
Lemma quotient_step q b z : 0 < b -> Z.abs (q * b - z) < b -> (0 <= z -> 0 <= q) /\ (z <= 0 -> q <= 0) /\ Z.abs q <= Z.abs z + 1.
Proof. intros Hb Hq. split; [nia|]. split; nia. Qed.

Lemma quotient_share q g r D : 0 < g -> 0 <= r -> 0 < D -> Z.abs (q * g - r * D) < g -> 0 <= q <= r * D /\ (r <= g -> q <= D) /\ (g <= r -> D <= q).
Proof. intros Hg Hr HD Hq. assert (0 <= r * D) by nia. split; [nia|]. split; intros Hle; nia. Qed.

Lemma NextInflationRate_run m p ratio : params_ok p -> blocks_fit p -> 0 <= ratio <= dec_one -> 0 <= Inflation m <= dec_one ->
  exists change, let r := Z.max (InflationMin p) (Z.min (InflationMax p) (Inflation m + change)) in
    NextInflationRate m p ratio = Ok r /\
    (ratio <= GoalBonded p -> 0 <= change) /\ (GoalBonded p <= ratio -> change <= 0) /\ change * BlocksPerYear p < InflationRateChange p + BlocksPerYear p.
Proof.
  intros [Hd Hc Hmin Hmax Hg Hb] Hfit Hr Hm. unfold blocks_fit, two63 in Hfit. unfold NextInflationRate. rewrite wrap_i64_id by (unfold in_i64, two63; lia). rewrite NewDecFromInt_scale.
  set (g := GoalBonded p) in *. set (rc := InflationRateChange p) in *. set (n := BlocksPerYear p) in *. unfold dec_one in *.
  destruct (Dec_Quo_fits ratio g) as [share Es]; [lia|change dec_one with 1000000000000000000; lia|]. rewrite Es. cbn [o_panic obind]. apply Dec_Quo_near in Es as [_ Hs]. change dec_one with 1000000000000000000 in Hs.
  destruct (quotient_share share g ratio 1000000000000000000) as (Hsh & Hsh1 & Hsh2); [lia..|].
  rewrite Dec_Sub_fits by (change dec_one with 1000000000000000000; lia). cbn [o_panic obind]. change dec_one with 1000000000000000000. set (y := 1000000000000000000 - share).
  assert (Z.abs (y * rc) <= 10 ^ 36 * 10 ^ 18) as Hyrc by (unfold y; rewrite Z.abs_mul; nia).
  destruct (Dec_Mul_fits y rc) as [z Ez]; [lia|]. rewrite Ez. cbn [o_panic obind]. apply Dec_Mul_near in Ez. change dec_one with 1000000000000000000 in Ez.
  assert (Z.abs z <= 10 ^ 37) as Hz by lia.
  destruct (Dec_Quo_fits z (n * 1000000000000000000)) as [w Ew]; [lia|change dec_one with 1000000000000000000; lia|]. rewrite Ew. cbn [o_panic obind]. apply Dec_Quo_near in Ew as [_ Hw]. change dec_one with 1000000000000000000 in Hw.
  assert (Z.abs (w * n - z) < n) as Hw' by (rewrite Z.mul_assoc, <- Z.mul_sub_distr_r, Z.abs_mul in Hw; lia). clear Hw.
  destruct (quotient_step w n z) as (Hw1 & Hw2 & Hwb); [lia..|]. rewrite Dec_Add_fits by lia. cbn [o_panic obind]. exists w. split; [|split; [|split]].
  - f_equal. destruct (Z.ltb_spec (InflationMax p) (Inflation m + w)).
    + destruct (Z.ltb_spec (InflationMax p) (InflationMin p)); lia.
    + destruct (Z.ltb_spec (Inflation m + w) (InflationMin p)); lia.
  - intros Hle. apply Hw1. assert (0 <= y * rc) by (apply Z.mul_nonneg_nonneg; lia). lia.
  - intros Hle. apply Hw2. assert (y * rc <= 0) by (apply Z.mul_nonpos_nonneg; lia). lia.
  - assert (y * rc <= 1000000000000000000 * rc) by (apply Z.mul_le_mono_nonneg_r; lia). lia.
Qed.

(** *** A block *)

Lemma BlockProvision_run m p : params_ok p -> blocks_fit p -> 0 <= AnnualProvisions m < 2 ^ 314 ->
  BlockProvision m p = Ok (mkCoin (MintDenom p) (AnnualProvisions m / (BlocksPerYear p * dec_one))).
Proof.
  intros Hp Hb Ha. unfold blocks_fit, two63 in Hb. unfold BlockProvision. rewrite wrap_i64_id by (unfold in_i64, two63; lia). rewrite Dec_QuoInt_quot by lia. cbn [o_panic obind].
  assert (0 < dec_one) as Hone by done. rewrite Z.quot_div_nonneg by lia. pose proof (Z.div_pos (AnnualProvisions m) (BlocksPerYear p) ltac:(lia) ltac:(lia)) as Hn.
  assert (Z.quot (AnnualProvisions m / BlocksPerYear p) dec_one = AnnualProvisions m / (BlocksPerYear p * dec_one)) as E by (rewrite Z.quot_div_nonneg, Z.div_div by lia; done).
  assert (0 <= AnnualProvisions m / (BlocksPerYear p * dec_one) < 2 ^ 256) as Hr.
  { split; [apply Z.div_pos; lia|]. apply Z.div_lt_upper_bound; [lia|]. unfold dec_one. assert (2 ^ 314 <= 1 * 1000000000000000000 * 2 ^ 256) by done. nia. }
  rewrite Dec_TruncateInt_fits by (rewrite E; lia). cbn [o_panic obind]. rewrite E, vesting.NewCoin_run; [done|apply Hp|lia].
Qed.

Lemma on_bank_run {A} (c : M bank.State A) s a b : c (m_bank s) = (Ok a, b) -> on_bank c s = (Ok a, mkState b (m_minter s) (m_params s)).
Proof. intros E. unfold on_bank. by rewrite E. Qed.

Section Block.
Context (k : Keeper) (am ab af : string) (pm pb pf : list string).

(** How the keepers are wired: the three module accounts involved, with their
    permissions. *)
Record wired : Prop := {
  wi_modules : modules_ok (bankKeeper k);
  wi_mint : bank.permAddrs (bankKeeper k) !! ModuleName = Some (am, pm);
  wi_pool : bank.permAddrs (bankKeeper k) !! BondedPoolName = Some (ab, pb);
  wi_fees : bank.permAddrs (bankKeeper k) !! feeCollectorName k = Some (af, pf);
  wi_perm : "minter" ∈ pm;
  wi_free ctx amt : bank.mintCoinsRestrictionFn (bankKeeper k) ctx amt = None;
  wi_differ : am <> ab /\ am <> af /\ ab <> af;
  wi_denom : ValidateDenom (BondDenom k) = true;
}.

Record mint_ok (t : Z) (s : State) : Prop := {
  mo_bank : bank_inv t (m_bank s);
  mo_minter : exists m, m_minter s = Some m /\ 0 <= Inflation m <= dec_one;
  mo_params : exists p, m_params s = Some p /\ params_ok p /\ blocks_fit p;
  mo_ready : ready (bank.b_auth (m_bank s)) am pm /\ ready (bank.b_auth (m_bank s)) ab pb /\ ready (bank.b_auth (m_bank s)) af pf;
}.

Definition supply_at (s : State) : string -> Z := supply_of (m_bank s).

(** The share of the staking tokens that is bonded. *)
Definition bonded_share (b : bank.State) : Z :=
  if 0 <? supply_of b (BondDenom k) then Z.quot (bal b ab (BondDenom k) * dec_one) (supply_of b (BondDenom k)) else 0.

Lemma BondedRatio_run t b : wired -> bank_inv t b -> ready (bank.b_auth b) ab pb ->
  exists auth', BondedRatio k b = (Ok (bonded_share b), bank.set_auth auth' b) /\ bank_inv t (bank.set_auth auth' b) /\
    (forall a q, ready (bank.b_auth b) a q -> (a = ab -> q = pb) -> ready auth' a q) /\ 0 <= bonded_share b <= dec_one.
Proof.
  intros Hw Hb Hr. pose proof (supply_range _ _ _ (BondDenom k) Hb) as Hsup. assert (0 < dec_one) as Hone by done.
  pose proof (wi_modules Hw _ _ _ (wi_pool Hw)) as Hab. pose proof (books_range _ (so_books _ _ _ Hb) ab (BondDenom k)) as Hbal.
  assert (bal b ab (BondDenom k) <= supply_of b (BondDenom k)) as Hle by (pose proof (bal_le_total b ab (BondDenom k) (so_books _ _ _ Hb) Hab); pose proof (so_total _ _ _ Hb (BondDenom k)); cbn beta in *; lia).
  assert (StakingTokenSupply k b = (Ok (supply_of b (BondDenom k)), b)) as Esup by done. unfold BondedRatio, bonded_share. rewrite (bind_run _ _ _ _ _ Esup).
  destruct (Z.ltb_spec 0 (supply_of b (BondDenom k))) as [Hpos|Hpos].
  - destruct (module_account_run (bankKeeper k) (wi_modules Hw) t _ BondedPoolName ab pb b Hb (wi_pool Hw) Hr) as (acc & n & p & auth' & E & Ea & Ek & Hp & Eau & Hb' & _).
    exists auth'. split; [|split; [exact Hb'|split]].
    + unfold TotalBondedTokens, GetBondedPool. rewrite !bind_assoc, (bind_run _ _ _ _ _ E), bind_assoc, Ea.
      rewrite (bind_run _ _ _ _ _ (GetBalance_run (bank.set_auth auth' b) ab (BondDenom k) (so_books _ _ _ Hb') Hab (wi_denom Hw))).
      unfold bind, ret, lift. cbn [Amount]. rewrite NewDecFromInt_scale, Dec_QuoInt_quot by lia. done.
    + intros a q Hrq Hq. eapply ready_insert; [exact Eau|exact Hrq|]. intros <-. rewrite (Hq eq_refl). by exists n, p.
    + rewrite Z.quot_div_nonneg by lia. split; [apply Z.div_pos; lia|]. apply Z.div_le_upper_bound; [lia|]. nia.
  - exists (bank.b_auth b). rewrite set_auth_id. split; [done|]. split; [done|]. split; [|lia]. intros a q Hrq _. exact Hrq.
Qed.

(** The coins of a block move from nothing to the collector of fees. *)
Lemma provide_run ctx d n s : wired -> bank_inv (BlockTime ctx) (m_bank s) -> in_i64 (BlockTime ctx) ->
  ready (bank.b_auth (m_bank s)) am pm -> ready (bank.b_auth (m_bank s)) ab pb -> ready (bank.b_auth (m_bank s)) af pf ->
  ValidateDenom d = true -> 0 <= n -> supply_at s d + n < 2 ^ 256 ->
  exists b, (must (MintCoins k ctx (coin1 d n)) ;;! must (AddCollectedFees k ctx (coin1 d n))) s = (Ok tt, mkState b (m_minter s) (m_params s)) /\
    bank_inv (BlockTime ctx) b /\ ready (bank.b_auth b) am pm /\ ready (bank.b_auth b) ab pb /\ ready (bank.b_auth b) af pf /\
    (forall e, supply_of b e = supply_at s e + if bool_decide (d = e) then n else 0) /\
    (forall a e, addr_ok a -> bal b a e = bal (m_bank s) a e + if bool_decide (a = af /\ d = e) then n else 0).
Proof.
  intros Hw Hb Ht Hrm Hrb Hrf Hd Hn Hfit. pose proof (wi_modules Hw) as Hk. pose proof (wi_differ Hw) as (Hmb & Hmf & Hbf). pose proof (supply_range _ _ _ d Hb) as Hsup. fold (supply_at s d) in Hsup.
  assert (exists b1, MintCoins k ctx (coin1 d n) s = (Ok tt, mkState b1 (m_minter s) (m_params s)) /\ bank_inv (BlockTime ctx) b1 /\
    ready (bank.b_auth b1) am pm /\ ready (bank.b_auth b1) ab pb /\ ready (bank.b_auth b1) af pf /\ (forall e, supply_of b1 e = supply_at s e + if bool_decide (d = e) then n else 0) /\
    forall a e, addr_ok a -> bal b1 a e = bal (m_bank s) a e + if bool_decide (a = am /\ d = e) then n else 0) as (b1 & E1 & Hb1 & Hrm1 & Hrb1 & Hrf1 & Hsup1 & Hbal1).
  { destruct (Z.eq_dec n 0) as [->|Hn0].
    - exists (m_bank s). split; [by destruct s|]. split_and!; try done; intros; [unfold supply_at; case_bool_decide; lia|case_bool_decide; lia].
    - destruct (MintCoins_run (bankKeeper k) Hk ctx ModuleName am pm d n (m_bank s) Hb (wi_mint Hw) Hrm (wi_perm Hw) (wi_free Hw _ _) Hd) as (b1 & acc & nm & p & E & Eau & Ek & Hp & Hb1 & Hi); [lia|done|].
      exists b1. assert (coin1 d n = [mkCoin d n]) as Ec by (unfold coin1; by destruct (Z.eqb_spec n 0)). split_and!; [| |by eapply ready_insert; [exact Eau|exact Hrm|exists nm, p]|by eapply ready_insert; [exact Eau|exact Hrb|]|by eapply ready_insert; [exact Eau|exact Hrf|]| |].
      + rewrite Ec. unfold MintCoins. by apply on_bank_run.
      + exact Hb1.
      + intros e. rewrite (is_supply _ _ _ _ _ Hi). cbn. unfold supply_at. case_bool_decide; lia.
      + intros a e Ha. rewrite (is_bal _ _ _ _ _ Hi) by done. cbn. unfold at_. repeat case_bool_decide; naive_solver lia. }
  assert (valid (coin1 d n)) as Hv by (by apply coin1_valid). assert (int_coins (coin1 d n)) as Hfit' by (intros e; rewrite coin1_amount; case_bool_decide; lia).
  pose proof (Hk _ _ _ (wi_mint Hw)) as Ham.
  destruct (module_transfer_run (bankKeeper k) Hk ctx ModuleName (feeCollectorName k) am pm af pf (coin1 d n) b1 Hb1 Ht (wi_mint Hw) (wi_fees Hw) Hrm1 Hrf1 Hv Hfit') as (b2 & E2 & Hb2 & Hbal2 & Esup & Hready & _).
  { intros e. rewrite coin1_amount, Hbal1 by done. pose proof (books_range _ (so_books _ _ _ Hb) am e). repeat case_bool_decide; naive_solver lia. }
  exists b2. split.
  { rewrite (bind_run _ _ _ _ _ (must_run _ _ _ _ E1)). apply must_run. unfold AddCollectedFees. exact (on_bank_run _ (mkState b1 _ _) _ _ E2). }
  split; [exact Hb2|]. split; [apply Hready; [done|by intros ->]|]. split; [apply Hready; [done|by intros ->]|]. split; [by apply Hready|]. split.
  - intros e. unfold supply_of. rewrite Esup. apply Hsup1.
  - intros a e Ha. rewrite Hbal2, Hbal1 by done. unfold at_. rewrite coin1_amount. repeat case_bool_decide; naive_solver lia.
Qed.

(** A block mints its provision.  With valid parameters and a supply below
    the bounds, BeginBlocker always succeeds: the inflation is the next rate for
    the share of the staking tokens that is bonded, and lies between the bounds
    of the parameters; the annual provisions are that share of the supply; the
    collector of fees receives the block's part of them, rounded down, the
    supply of the minted denomination grows by the same, no other balance or
    supply changes, and the books balance. *)
Theorem begin_block ctx s m p : wired -> mint_ok (BlockTime ctx) s -> in_i64 (BlockTime ctx) -> m_minter s = Some m -> m_params s = Some p ->
  supply_at s (BondDenom k) < 2 ^ 254 -> supply_at s (MintDenom p) < 2 ^ 255 ->
  exists r s', NextInflationRate m p (bonded_share (m_bank s)) = Ok r /\ InflationMin p <= r <= InflationMax p /\
    let n := r * supply_at s (BondDenom k) / (BlocksPerYear p * dec_one) in
    BeginBlocker k DefaultInflationCalculationFn ctx s = (Ok tt, s') /\
    m_minter s' = Some (mkMinter r (r * supply_at s (BondDenom k))) /\ m_params s' = Some p /\
    (forall d, supply_at s' d = supply_at s d + if bool_decide (MintDenom p = d) then n else 0) /\
    (forall a d, addr_ok a -> bal (m_bank s') a d = bal (m_bank s) a d + if bool_decide (a = af /\ MintDenom p = d) then n else 0) /\
    mint_ok (BlockTime ctx) s'.
Proof.
  intros Hw [Hb (m' & Em & Hm) (p' & Ep & Hp & Hblocks) (Hrm & Hrb & Hrf)] Ht Em' Ep' Hs1 Hs2. rewrite Em in Em'. injection Em' as ->. rewrite Ep in Ep'. injection Ep' as ->.
  destruct (BondedRatio_run (BlockTime ctx) (m_bank s) Hw Hb Hrb) as (auth' & Er & Hb' & Hready & Hshare). pose proof (wi_differ Hw) as (Hmb & Hmf & Hbf).
  destruct (NextInflationRate_run m p (bonded_share (m_bank s)) Hp Hblocks Hshare Hm) as (change & Enext & _). set (r := Z.max _ _) in Enext.
  assert (InflationMin p <= r <= InflationMax p) as Hr by (pose proof (po_min _ Hp); unfold r; lia). pose proof (po_min _ Hp) as Hmin. pose proof (po_max _ Hp) as Hmax.
  pose proof (supply_range _ _ _ (BondDenom k) Hb) as Hsup. fold (supply_at s (BondDenom k)) in Hsup. set (S := supply_at s (BondDenom k)) in *.
  assert (0 <= r * S < 2 ^ 314) as HrS. { split; [apply Z.mul_nonneg_nonneg; lia|]. apply Z.le_lt_trans with (dec_one * S); [apply Z.mul_le_mono_nonneg_r; lia|]. unfold dec_one. assert (1000000000000000000 * 2 ^ 254 < 2 ^ 314) by done. lia. }
  set (n := r * S / (BlocksPerYear p * dec_one)). assert (0 <= n <= S) as Hn.
  { unfold n. unfold blocks_fit in Hblocks. assert (0 < dec_one) as Hone by done. split; [apply Z.div_pos; lia|]. apply Z.div_le_upper_bound; [lia|]. apply Z.mul_le_mono_nonneg_r; [lia|]. transitivity dec_one; [lia|]. rewrite <- (Z.mul_1_l dec_one) at 1. apply Z.mul_le_mono_nonneg_r; lia. }
  exists r. set (s1 := mkState (bank.set_auth auth' (m_bank s)) (Some (mkMinter r (r * S))) (Some p)).
  destruct (provide_run ctx (MintDenom p) n s1) as (b & E & Hb2 & Hrm2 & Hrb2 & Hrf2 & Hsup2 & Hbal2);
    [done|done|done|by apply Hready|by apply Hready|by apply Hready; [|intros ->]|apply Hp|lia|change (supply_at s1 (MintDenom p)) with (supply_at s (MintDenom p)); assert (2 ^ 254 < 2 ^ 255) by done; assert (2 ^ 255 + 2 ^ 255 = 2 ^ 256) by done; lia|].
  eexists (mkState (bank.set_events _ b) _ _). split; [exact Enext|]. split; [exact Hr|]. cbv zeta. split.
  { unfold BeginBlocker. assert (GetMinter s = (Ok m, s)) as E1 by (unfold GetMinter, bind, reads; by rewrite Em). rewrite (bind_run _ _ _ _ _ E1).
    assert (GetParams s = (Ok (Some p), s)) as E0 by (unfold GetParams, reads; by rewrite Ep). rewrite (bind_run _ _ _ _ _ E0). assert (on_bank (StakingTokenSupply k) s = (Ok S, s)) as E2 by (destruct s; done).
    rewrite (bind_run _ _ _ _ _ E2), (bind_run _ _ _ _ _ (on_bank_run _ s _ _ Er)). unfold or_panic. rewrite bind_ret. unfold DefaultInflationCalculationFn. rewrite (bind_run _ _ _ _ _ (lift_run _ _ _ Enext)).
    unfold NextAnnualProvisions. cbn [Inflation]. rewrite Dec_MulInt_fits by lia. cbn [o_panic]. rewrite (bind_run _ _ _ _ _ (lift_run _ _ _ eq_refl)). 
    set (s2 := mkState _ _ _). assert (SetMinter (mkMinter r (r * S)) s2 = (Ok tt, s1)) as E3 by (unfold SetMinter, modify, s2, s1; cbn; by rewrite Ep). rewrite (bind_run _ _ _ _ _ E3).
    rewrite BlockProvision_run by done. cbn [AnnualProvisions m_bank m_minter m_params]. rewrite (bind_run _ _ _ _ _ (lift_run _ _ _ eq_refl)), mk_NewCoins_one by (apply Hp || lia).
    rewrite (bind_run _ _ _ _ _ (lift_run _ _ _ eq_refl)). fold n. rewrite <- bind_assoc, (bind_run _ _ _ _ _ E). reflexivity. }
  split; [done|]. split; [done|]. split; [exact Hsup2|]. split; [exact Hbal2|]. split.
  - by apply sound_events.
  - eexists. split; [reflexivity|]. cbn [Inflation]. lia.
  - by exists p.
  - done.
Qed.

(** *** Many blocks *)

(** The times of the blocks do not go back. *)
Fixpoint later (t : Z) (ctxs : list Ctx) : Prop :=
  match ctxs with [] => True | ctx :: ctxs => t <= BlockTime ctx /\ in_i64 (BlockTime ctx) /\ later (BlockTime ctx) ctxs end.

Lemma mint_ok_later t t' s : t <= t' -> mint_ok t s -> mint_ok t' s.
Proof. intros Hle [Hb Hm Hp Hr]. split; [by eapply sound_later|done..]. Qed.

Lemma growth_step D M S S1 (n : nat) B : 0 < D -> 0 <= M -> 0 <= S -> S1 * D <= S * (D + M) ->
  S * (D + M) ^ Z.of_nat (Datatypes.S n) < B * D ^ Z.of_nat (Datatypes.S n) -> S < B /\ S1 * (D + M) ^ Z.of_nat n < B * D ^ Z.of_nat n.
Proof.
  intros HD HM HS Hle. rewrite Nat2Z.inj_succ, !Z.pow_succ_r by lia. set (a := (D + M) ^ Z.of_nat n). set (b := D ^ Z.of_nat n). intros Hlt.
  assert (0 < b) as Hb by (by apply Z.pow_pos_nonneg; lia). assert (b <= a) as Hab by (apply Z.pow_le_mono_l; lia). split.
  - apply (Z.mul_lt_mono_pos_r (D * b)); [lia|]. eapply Z.le_lt_trans; [|exact Hlt]. apply Z.mul_le_mono_nonneg_l; [lia|]. apply Z.mul_le_mono_nonneg; lia.
  - apply (Z.mul_lt_mono_pos_l D); [lia|]. apply Z.le_lt_trans with (S * ((D + M) * a)); [|lia].
    replace (D * (S1 * a)) with (S1 * D * a) by ring. replace (S * ((D + M) * a)) with (S * (D + M) * a) by ring. apply Z.mul_le_mono_nonneg_r; lia.
Qed.

(** C27: How fast supply can grow.  When the minted denomination is the staking
    denomination, any number of blocks at times that do not go back all
    succeed, while the bound below stays under the limit of amounts: the supply
    never shrinks, [n] blocks multiply it by at most (1 + InflationMax /
    BlocksPerYear) to the [n], and everything that was minted is with the
    collector of fees. *)
Theorem supply_growth ctxs t s p : wired -> mint_ok t s -> later t ctxs -> m_params s = Some p -> MintDenom p = BondDenom k ->
  let D := BlocksPerYear p * dec_one in let n := Z.of_nat (length ctxs) in
  supply_at s (BondDenom k) * (D + InflationMax p) ^ n < 2 ^ 254 * D ^ n ->
  exists s', for_each ctxs (BeginBlocker k DefaultInflationCalculationFn) s = (Ok tt, s') /\
    supply_at s (BondDenom k) <= supply_at s' (BondDenom k) /\
    supply_at s' (BondDenom k) * D ^ n <= supply_at s (BondDenom k) * (D + InflationMax p) ^ n /\
    bal (m_bank s') af (BondDenom k) - bal (m_bank s) af (BondDenom k) = supply_at s' (BondDenom k) - supply_at s (BondDenom k).
Proof.
  intros Hw Hs Hl Ep Hden D. revert t s Hs Hl Ep. induction ctxs as [|ctx ctxs IH]; intros t s Hs Hl Ep n Hfit.
  { exists s. split; [done|]. unfold n. cbn [length]. rewrite !Z.pow_0_r. lia. }
  destruct Hl as (Hle & Ht & Hl). pose proof (mint_ok_later _ _ _ Hle Hs) as Hs0. destruct (mo_minter _ _ Hs) as (m & Em & _). destruct (mo_params _ _ Hs) as (p' & Ep' & Hp & Hb). rewrite Ep in Ep'. injection Ep' as <-.
  assert (0 < D) as HD by (unfold D, dec_one, blocks_fit in *; lia). pose proof (po_min _ Hp) as Hmin.
  pose proof (supply_range _ _ _ (BondDenom k) (mo_bank _ _ Hs)) as Hsup. fold (supply_at s (BondDenom k)) in Hsup. set (S := supply_at s (BondDenom k)) in *.
  assert (S < 2 ^ 254) as HS by (unfold n in Hfit; cbn [length] in Hfit; by eapply (growth_step D (InflationMax p) S 0 (length ctxs)); [lia|lia|lia|nia|exact Hfit]).
  destruct (begin_block ctx s m p Hw Hs0 Ht Em Ep) as (r & s1 & _ & Hr & E & _ & Ep1 & Hsup1 & Hbal1 & Hs1); [exact HS|rewrite Hden; fold S; assert (2 ^ 254 < 2 ^ 255) by done; lia|].
  fold S in E, Hsup1, Hbal1. set (x := r * S / (BlocksPerYear p * dec_one)) in *. fold D in x.
  assert (0 <= x /\ x * D <= InflationMax p * S) as [Hx0 Hx].
  { split; [apply Z.div_pos; [apply Z.mul_nonneg_nonneg|]; lia|]. apply Z.le_trans with (r * S); [rewrite Z.mul_comm; apply Z.mul_div_le; lia|]. apply Z.mul_le_mono_nonneg_r; lia. }
  assert (supply_at s1 (BondDenom k) = S + x) as ES1 by (rewrite Hsup1, bool_decide_true by done; done).
  destruct (IH (BlockTime ctx) s1 Hs1 Hl Ep1) as (s' & E' & Hge & Hgrow & Hcol).
  { rewrite ES1. unfold n in Hfit. cbn [length] in Hfit. eapply (growth_step D (InflationMax p) S (S + x) (length ctxs)); [lia|lia|lia|lia|exact Hfit]. }
  exists s'. rewrite ES1 in Hge, Hgrow, Hcol. split; [cbn [for_each]; by rewrite (bind_run _ _ _ _ _ E)|]. split; [lia|]. split.
  - unfold n. cbn [length]. rewrite Nat2Z.inj_succ, !Z.pow_succ_r by lia. set (a := (D + InflationMax p) ^ Z.of_nat (length ctxs)) in *. set (b := D ^ Z.of_nat (length ctxs)) in *.
    assert (0 <= a) by (apply Z.pow_nonneg; lia). apply Z.le_trans with ((S + x) * a * D); [replace (supply_at s' (BondDenom k) * (D * b)) with (supply_at s' (BondDenom k) * b * D) by ring; apply Z.mul_le_mono_nonneg_r; lia|].
    replace ((S + x) * a * D) with ((S * D + x * D) * a) by ring. replace (S * ((D + InflationMax p) * a)) with ((S * D + InflationMax p * S) * a) by ring. apply Z.mul_le_mono_nonneg_r; lia.
  - rewrite Hbal1, bool_decide_true in Hcol by (done || by eapply (wi_modules Hw), (wi_fees Hw)). lia.
Qed.
End Block.

(** The inflation steers towards the goal.  With valid parameters the next
    rate always exists and lies between the bounds; starting from within the
    bounds it does not fall while at most the goal is bonded and does not rise
    while at least the goal is, and in a block it rises by less than a block's
    part of the greatest yearly change, plus one unit in the last place. *)
Theorem inflation_steers m p ratio : params_ok p -> blocks_fit p -> 0 <= ratio <= dec_one -> InflationMin p <= Inflation m <= InflationMax p ->
  exists r, NextInflationRate m p ratio = Ok r /\ InflationMin p <= r <= InflationMax p /\
    (ratio <= GoalBonded p -> Inflation m <= r) /\ (GoalBonded p <= ratio -> r <= Inflation m) /\
    (r - Inflation m) * BlocksPerYear p < InflationRateChange p + BlocksPerYear p.
Proof.
  intros Hp Hb Hr Hm. pose proof (po_min _ Hp). pose proof (po_max _ Hp). destruct (NextInflationRate_run m p ratio Hp Hb Hr) as (c & E & Hup & Hdown & Hc); [lia|].
  eexists. split; [exact E|]. split; [lia|]. split; [intros Hle; specialize (Hup Hle); lia|]. split; [intros Hle; specialize (Hdown Hle); lia|].
  unfold blocks_fit in Hb. pose proof (po_change _ Hp). set (r := Z.max _ _). assert (r - Inflation m <= Z.max 0 c) as Hrc by (unfold r; lia).
  apply Z.le_lt_trans with (Z.max 0 c * BlocksPerYear p); [apply Z.mul_le_mono_nonneg_r; lia|]. destruct (Z.max_spec 0 c) as [[_ ->]|[_ ->]]; lia.
Qed.
End Theorems.

Module mint_toy.
#[local] Existing Instances sdkmath sdkmath_laws sdkround sdkround_laws sdkdecint sdkdecint_laws bech32_toy.
Import bank_toy.

Definition bank_keeper : bank.Keeper := bank.NewBaseKeeper {[ "mint" := ("mint", ["minter"]); "bonded_tokens_pool" := ("pool", ["burner"; "staking"]); "fee_collector" := ("fees", []) ]} ∅ "gov".
Definition keeper : Keeper := mkKeeper bank_keeper "gov" "fee_collector" "uzyt".
Definition params : Params := mkParams "uzyt" (NewDecWithPrec 13 2) (NewDecWithPrec 20 2) (NewDecWithPrec 7 2) (NewDecWithPrec 67 2) 10.
Definition start : State := mkState (snd (bank.MintCoins bank_keeper (at_time 5) "mint" (zyt 1000000) empty)) (Some DefaultInitialMinter) (Some params).

Lemma bank_modules : modules_ok bank_keeper.
Proof.
  intros n a perms E. cbn [bank_keeper bank.NewBaseKeeper bank.permAddrs] in E.
  apply lookup_insert_Some in E as [[_ [= <- _]]|[_ E]]; [unfold addr_ok; cbn; lia|]. apply lookup_insert_Some in E as [[_ [= <- _]]|[_ E]]; [unfold addr_ok; cbn; lia|].
  apply lookup_singleton_Some in E as [_ [= <- _]]. unfold addr_ok. cbn. lia.
Qed.

Lemma wiring : wired keeper "mint" "pool" "fees" ["minter"] ["burner"; "staking"] [].
Proof. split; try done; [apply bank_modules|by left]. Qed.

Lemma start_ok : mint_ok "mint" "pool" "fees" ["minter"] ["burner"; "staking"] [] 5 start.
Proof.
  assert (bank.MintCoins bank_keeper (at_time 5) "mint" (zyt 1000000) empty = (Ok tt, m_bank start)) as E by (vm_compute; reflexivity). split.
  - exact (proj1 (MintCoins_ok bank_keeper (at_time 5) _ _ _ _ _ _ (empty_inv 5) bank_modules E)).
  - exists DefaultInitialMinter. split; [done|]. vm_compute. by split.
  - exists params. split; [done|]. split; [apply Params_Validate_ok; vm_compute; reflexivity|]. unfold blocks_fit, two63. cbn. lia.
  - assert (as_accounts (bank.b_auth (m_bank start)) = {[ "mint" := mkAccount "mint" None 0 0 (ModuleAccount "mint" ["minter"]) ]}) as E' by (vm_compute; reflexivity).
    split_and!; intros acc; rewrite E'; intros [Ea <-]%lookup_singleton_Some; [by exists "mint", ["minter"]|done|done].
Qed.

(** Three blocks mint about 0.7 to 1.4 percent each. *)
Lemma supply_growth_witness : exists s', for_each [at_time 6; at_time 7; at_time 9] (BeginBlocker keeper DefaultInflationCalculationFn) start = (Ok tt, s') /\
  supply_at s' "uzyt" <= 1061208 /\ bal (m_bank s') "fees" "uzyt" = supply_at s' "uzyt" - 1000000.
Proof.
  destruct (supply_growth keeper "mint" "pool" "fees" ["minter"] ["burner"; "staking"] [] [at_time 6; at_time 7; at_time 9] 5 start params) as (s' & E & _ & Hg & Hf).
  - exact wiring.
  - exact start_ok.
  - repeat split; cbn; unfold in_i64, two63; lia.
  - done.
  - done.
  - vm_compute. reflexivity.
  - assert (supply_at start "uzyt" = 1000000) as E0 by (vm_compute; reflexivity). assert (bal (m_bank start) "fees" "uzyt" = 0) as E1 by (vm_compute; reflexivity).
    exists s'. split; [exact E|]. change (BondDenom keeper) with "uzyt" in *. rewrite E0 in Hg, Hf. rewrite E1 in Hf. split; [|lia].
    change (Z.of_nat (length [at_time 6; at_time 7; at_time 9])) with 3 in Hg. change (InflationMax params) with 200000000000000000 in Hg. change (BlocksPerYear params * dec_one) with 10000000000000000000 in Hg. lia.
Defined.

Lemma inflation_steers_witness : exists r, NextInflationRate DefaultInitialMinter params (NewDecWithPrec 50 2) = Ok r /\ Inflation DefaultInitialMinter <= r.
Proof.
  destruct (inflation_steers DefaultInitialMinter params (NewDecWithPrec 50 2)) as (r & E & _ & Hup & _).
  - apply Params_Validate_ok. vm_compute. reflexivity.
  - unfold blocks_fit, two63. cbn. lia.
  - vm_compute. split; discriminate.
  - vm_compute. split; discriminate.
  - exists r. split; [exact E|]. apply Hup. vm_compute. discriminate.
Defined.

(** 2^63 blocks a year pass validation; the conversion to int64 makes them
    negative, and with enough tokens the next block panics. *)
Example too_many_blocks :
  let p := mkParams "uzyt" (NewDecWithPrec 13 2) (NewDecWithPrec 20 2) (NewDecWithPrec 7 2) (NewDecWithPrec 67 2) (2 ^ 63) in
  let s := mkState (bank.set_supply {[ "uzyt" := 10 ^ 24 ]} empty) (Some DefaultInitialMinter) (Some params) in
  Params_Validate p = Ok tt /\ fst ((UpdateParams keeper "gov" p ;;! BeginBlocker keeper DefaultInflationCalculationFn (at_time 6)) s) = Panic.
Proof. cbv zeta. split; vm_compute; reflexivity. Qed.
End mint_toy.
End mint.
