(* ===== verification/Slashing.v ===== *)
(** Slashing: x/slashing.

    Each validator has a ring of bits for the blocks of its signing window that
    it missed, a counter of the bits that are set, and a position that moves
    with every block it should have signed.  The store has a part for each
    prefix of types/keys.go, keyed by what follows the prefix; JailedUntil and
    block times are nanoseconds since 1970.  x/staking is the class
    [StakingKeeper], the interface of types/expected_keepers.go with the part
    of a validator that is read through it.

    Parameters that were never set are [None]; their decimals are nil.

    Theorems: the counter is the number of bits that are set, whatever happens;
    with a fixed window it is the number of blocks missed among the last ones,
    and downtime is punished exactly when that is too many; a tombstone is
    forever; when a validator can leave jail; two ways in which misses outlive
    the window. *)

From Stdlib Require Import ZArith Lia Ascii String.
From stdpp Require Import base gmap sets list strings fin_maps sorting pretty.
From S2P Require Import Prelude Sdk SdkDec Wire KVStore Coins Pagination StoreKeys Vesting Auth BankStore BankBooks.

Open Scope Z_scope.
Open Scope go_scope.

Module slashing.

(** ** types/errors.go *)

Definition ErrNoValidatorForAddress : err := Registered "slashing" 2.
Definition ErrValidatorJailed : err := Registered "slashing" 4.
Definition ErrValidatorNotJailed : err := Registered "slashing" 5.
Definition ErrMissingSelfDelegation : err := Registered "slashing" 6.
Definition ErrSelfDelegationTooLowToUnjail : err := Registered "slashing" 7.

(** ** Consensus and operator addresses (types/address.go, with the prefixes of
    cmd/zytheriond/cmd/config.go) *)

Section Address.
Context `{Bech32}.

Definition address_string (prefix bz : string) : string := if bool_decide (bz = "") then "" else ConvertAndEncode prefix bz.
Definition address_from_bech32 (prefix address : string) : option string :=
  if all_space address then None else
  match GetFromBech32 address prefix with None => None | Some bz => if VerifyAddressFormat bz then Some bz else None end.

Definition ConsAddress_String : string -> string := address_string "zythvalcons".
Definition ConsAddressFromBech32 : string -> option string := address_from_bech32 "zythvalcons".
Definition ValAddressFromBech32 : string -> option string := address_from_bech32 "zythvaloper".
End Address.

(** ** types/slashing.pb.go, params.go, signing_info.go *)

Record ValidatorSigningInfo : Type := mkSigningInfo {
  si_Address : string;
  StartHeight : Z;
  IndexOffset : Z;
  JailedUntil : Z;
  Tombstoned : bool;
  MissedBlocksCounter : Z;
}.

Definition NewValidatorSigningInfo `{Bech32} (consAddr : string) (startHeight indexOffset jailedUntil : Z) (tombstoned : bool) (missedBlocksCounter : Z) : ValidatorSigningInfo :=
  mkSigningInfo (ConsAddress_String consAddr) startHeight indexOffset jailedUntil tombstoned missedBlocksCounter.

Record Params : Type := mkParams {
  p_SignedBlocksWindow : Z;
  p_MinSignedPerWindow : Z;
  p_DowntimeJailDuration : Z;
  p_SlashFractionDoubleSign : Z;
  p_SlashFractionDowntime : Z;
}.

Definition NewParams := mkParams.

Definition validateSignedBlocksWindow (v : Z) : outcome unit := if v <=? 0 then Err (Errorf "signed blocks window must be positive") else Ok tt.
(** A decimal between zero and one. *)
Definition validate_fraction (neg large : string) (v : Z) : outcome unit :=
  if v <? 0 then Err (Errorf neg) else if dec_one <? v then Err (Errorf large) else Ok tt.
Definition validateMinSignedPerWindow : Z -> outcome unit := validate_fraction "min signed per window cannot be negative" "min signed per window too large".
Definition validateDowntimeJailDuration (v : Z) : outcome unit := if v <=? 0 then Err (Errorf "downtime jail duration must be positive") else Ok tt.
Definition validateSlashFractionDoubleSign : Z -> outcome unit := validate_fraction "double sign slash fraction cannot be negative" "double sign slash fraction too large".
Definition validateSlashFractionDowntime : Z -> outcome unit := validate_fraction "downtime slash fraction cannot be negative" "downtime slash fraction too large".

Definition Params_Validate (p : Params) : outcome unit :=
  let* _ := validateSignedBlocksWindow (p_SignedBlocksWindow p) in
  let* _ := validateMinSignedPerWindow (p_MinSignedPerWindow p) in
  let* _ := validateDowntimeJailDuration (p_DowntimeJailDuration p) in
  let* _ := validateSlashFractionDoubleSign (p_SlashFractionDoubleSign p) in
  validateSlashFractionDowntime (p_SlashFractionDowntime p).

Section Defaults.
Context `{SdkMath}.

Definition DefaultSignedBlocksWindow : Z := 100.
Definition DefaultDowntimeJailDuration : Z := 60 * 10 * 1000000000.
Definition DefaultMinSignedPerWindow : Z := NewDecWithPrec 5 1.
Definition DefaultSlashFractionDoubleSign : outcome Z := o_panic (Dec_Quo (NewDecFromInt 1) (NewDecFromInt 20)).
Definition DefaultSlashFractionDowntime : outcome Z := o_panic (Dec_Quo (NewDecFromInt 1) (NewDecFromInt 100)).
Definition DefaultParams : outcome Params :=
  let* doubleSign := DefaultSlashFractionDoubleSign in
  let* downtime := DefaultSlashFractionDowntime in
  Ok (NewParams DefaultSignedBlocksWindow DefaultMinSignedPerWindow DefaultDowntimeJailDuration doubleSign downtime).
End Defaults.

(** ** types/keys.go *)

Fixpoint little_endian (w : nat) (n : Z) : string :=
  match w with O => "" | S w => String (ascii_of_N (Z.to_N (n mod 256))) (little_endian w (n / 256)) end.

(** After the prefix byte. *)
Definition ValidatorSigningInfoKey (v : string) : outcome string := MustLengthPrefix v.
Definition ValidatorSigningInfoAddress (key : string) : outcome string :=
  if Nat.ltb (String.length key) 2 then Panic else Ok (str_drop 1 key).
Definition ValidatorMissedBlockBitArrayPrefixKey (v : string) : outcome string := MustLengthPrefix v.
Definition ValidatorMissedBlockBitArrayKey (v : string) (i : Z) : outcome string :=
  let* prefix := ValidatorMissedBlockBitArrayPrefixKey v in Ok (prefix +:+ little_endian 8 (wrap_u64 i)).
Definition AddrPubkeyRelationKey (addr : string) : outcome string := MustLengthPrefix addr.

(** ** The staking keeper (types/expected_keepers.go) *)

Inductive BondStatus : Type := Unspecified | Unbonded | Unbonding | Bonded.
#[export] Instance bond_status_eq_dec : EqDecision BondStatus.
Proof. solve_decision. Defined.

(** What is read of a validator; [None] for a public key that cannot be
    unpacked. *)
Record Validator : Type := mkValidator {
  v_Operator : string;
  v_ConsPubKey : option PubKey;
  v_Jailed : bool;
  v_Status : BondStatus;
  v_Tokens : Z;
  v_DelegatorShares : Z;
  v_MinSelfDelegation : Z;
}.

Inductive Infraction : Type := INFRACTION_UNSPECIFIED | INFRACTION_DOUBLE_SIGN | INFRACTION_DOWNTIME.

Class StakingKeeper (S : Type) : Type := {
  sk_Validators : S -> list Validator;
  sk_Validator : S -> string -> option Validator;
  sk_ValidatorByConsAddr : S -> string -> option Validator;
  (** The shares of a delegation. *)
  sk_Delegation : S -> string -> string -> option Z;
  sk_Slash : string -> Z -> Z -> Z -> Infraction -> M S Z;
  sk_Jail : string -> M S unit;
  sk_Unjail : string -> M S unit;
}.

(** ** The state *)

Record State (S : Type) : Type := mkState {
  sl_infos : gmap string ValidatorSigningInfo;
  sl_bits : gmap string bool;
  sl_pubkeys : gmap string PubKey;
  sl_params : option Params;
  sl_staking : S;
  sl_events : list Event;
}.
Arguments mkState {S}.
Arguments sl_infos {S}.
Arguments sl_bits {S}.
Arguments sl_pubkeys {S}.
Arguments sl_params {S}.
Arguments sl_staking {S}.
Arguments sl_events {S}.

Section Keeper.
Context {S : Type} `{SdkMath} `{SdkDecRound} `{Bech32} `{KeyLib} `{StakingKeeper S} (authority : string).

Definition set_infos (m : gmap string ValidatorSigningInfo) (s : State S) : State S := mkState m (sl_bits s) (sl_pubkeys s) (sl_params s) (sl_staking s) (sl_events s).
Definition set_bits (m : gmap string bool) (s : State S) : State S := mkState (sl_infos s) m (sl_pubkeys s) (sl_params s) (sl_staking s) (sl_events s).
Definition set_pubkeys (m : gmap string PubKey) (s : State S) : State S := mkState (sl_infos s) (sl_bits s) m (sl_params s) (sl_staking s) (sl_events s).
Definition EmitEvent (e : Event) : M (State S) unit := modify (fun s => mkState (sl_infos s) (sl_bits s) (sl_pubkeys s) (sl_params s) (sl_staking s) (sl_events s ++ [e])).

Definition set_staking (st : S) (s : State S) : State S := mkState (sl_infos s) (sl_bits s) (sl_pubkeys s) (sl_params s) st (sl_events s).

(** A call of the staking keeper. *)
Definition on_staking {A} (c : M S A) : M (State S) A := fun s => let '(r, st) := c (sl_staking s) in (r, set_staking st s).

(** ** keeper/params.go *)

Definition GetParams : M (State S) (option Params) := reads sl_params.
Definition SetParams (params : Params) : M (State S) unit :=
  lift (Params_Validate params) ;;!
  modify (fun s => mkState (sl_infos s) (sl_bits s) (sl_pubkeys s) (Some params) (sl_staking s) (sl_events s)).

Definition SignedBlocksWindow : M (State S) Z := let! p := GetParams in ret (from_option p_SignedBlocksWindow 0 p).
(** RoundInt64 panics outside int64. *)
Definition MinSignedPerWindow : M (State S) Z :=
  let! params := GetParams in
  let! params := or_panic params in
  let! signedBlocksWindow := SignedBlocksWindow in
  let! d := or_panic (Dec_MulInt (p_MinSignedPerWindow params) signedBlocksWindow) in
  let! n := or_panic (Dec_RoundInt d) in
  if bool_decide (in_i64 n) then ret n else panic.
Definition DowntimeJailDuration : M (State S) Z := let! p := GetParams in ret (from_option p_DowntimeJailDuration 0 p).
Definition SlashFractionDowntime : M (State S) Z := let! p := GetParams in let! p := or_panic p in ret (p_SlashFractionDowntime p).
Definition SlashFractionDoubleSign : M (State S) Z := let! p := GetParams in let! p := or_panic p in ret (p_SlashFractionDoubleSign p).

(** ** keeper/signing_info.go *)

Definition GetValidatorSigningInfo (address : string) : M (State S) (option ValidatorSigningInfo) :=
  let! key := lift (ValidatorSigningInfoKey address) in reads (fun s => sl_infos s !! key).
Definition HasValidatorSigningInfo (consAddr : string) : M (State S) bool :=
  let! info := GetValidatorSigningInfo consAddr in ret (match info with Some _ => true | None => false end).
Definition SetValidatorSigningInfo (address : string) (info : ValidatorSigningInfo) : M (State S) unit :=
  let! key := lift (ValidatorSigningInfoKey address) in modify (fun s => set_infos (<[key := info]> (sl_infos s)) s).

(** IterateValidatorSigningInfos: the infos with their addresses. *)
Fixpoint infos_of (l : list (string * ValidatorSigningInfo)) : outcome (list (string * ValidatorSigningInfo)) :=
  match l with
  | [] => Ok []
  | (key, info) :: l =>
      let* address := ValidatorSigningInfoAddress key in
      let* rest := infos_of l in
      Ok ((address, info) :: rest)
  end.
Definition IterateValidatorSigningInfos : M (State S) (list (string * ValidatorSigningInfo)) :=
  let! l := reads (fun s => kv_prefix_iter "" (sl_infos s)) in lift (infos_of l).

Definition GetValidatorMissedBlockBitArray (address : string) (index : Z) : M (State S) bool :=
  let! key := lift (ValidatorMissedBlockBitArrayKey address index) in reads (fun s => default false (sl_bits s !! key)).
Definition SetValidatorMissedBlockBitArray (address : string) (index : Z) (missed : bool) : M (State S) unit :=
  let! key := lift (ValidatorMissedBlockBitArrayKey address index) in modify (fun s => set_bits (<[key := missed]> (sl_bits s)) s).

(** IterateValidatorMissedBlockBitArray over the positions from [index] on. *)
Fixpoint missed_from (address : string) (n : nat) (index : Z) : M (State S) (list (Z * bool)) :=
  match n with
  | O => ret []
  | Datatypes.S n =>
      let! key := lift (ValidatorMissedBlockBitArrayKey address index) in
      let! bz := reads (fun s => sl_bits s !! key) in
      let! rest := missed_from address n (index + 1) in
      ret (match bz with None => rest | Some missed => (index, missed) :: rest end)
  end.
Definition GetValidatorMissedBlocks (address : string) : M (State S) (list (Z * bool)) :=
  let! window := SignedBlocksWindow in missed_from address (Z.to_nat window) 0.

Definition clearValidatorMissedBlockBitArray (address : string) : M (State S) unit :=
  let! prefix := lift (ValidatorMissedBlockBitArrayPrefixKey address) in
  modify (fun s => set_bits (filter (fun kv => String.prefix prefix kv.1 = false) (sl_bits s)) s).

Definition with_jailed_until (t : Z) (i : ValidatorSigningInfo) : ValidatorSigningInfo := mkSigningInfo (si_Address i) (StartHeight i) (IndexOffset i) t (Tombstoned i) (MissedBlocksCounter i).
Definition with_tombstone (i : ValidatorSigningInfo) : ValidatorSigningInfo := mkSigningInfo (si_Address i) (StartHeight i) (IndexOffset i) (JailedUntil i) true (MissedBlocksCounter i).
Definition with_start (h : Z) (i : ValidatorSigningInfo) : ValidatorSigningInfo := mkSigningInfo (si_Address i) h (IndexOffset i) (JailedUntil i) (Tombstoned i) (MissedBlocksCounter i).
Definition with_window (offset counter : Z) (i : ValidatorSigningInfo) : ValidatorSigningInfo := mkSigningInfo (si_Address i) (StartHeight i) offset (JailedUntil i) (Tombstoned i) counter.

Definition JailUntil (consAddr : string) (jailTime : Z) : M (State S) unit :=
  let! info := GetValidatorSigningInfo consAddr in
  let! info := or_panic info in
  SetValidatorSigningInfo consAddr (with_jailed_until jailTime info).

Definition Tombstone (consAddr : string) : M (State S) unit :=
  let! info := GetValidatorSigningInfo consAddr in
  let! info := or_panic info in
  if Tombstoned info then panic else SetValidatorSigningInfo consAddr (with_tombstone info).

Definition IsTombstoned (consAddr : string) : M (State S) bool :=
  let! info := GetValidatorSigningInfo consAddr in ret (from_option Tombstoned false info).

(** ** keeper/keeper.go *)

Definition AddPubkey (pubkey : PubKey) : M (State S) unit :=
  let! key := lift (AddrPubkeyRelationKey (PubKey_Address pubkey)) in modify (fun s => set_pubkeys (<[key := pubkey]> (sl_pubkeys s)) s).
Definition GetPubkey (a : string) : M (State S) PubKey :=
  let! key := lift (AddrPubkeyRelationKey a) in
  let! pk := reads (fun s => sl_pubkeys s !! key) in
  match pk with Some pk => ret pk | None => throw (Errorf "address not found") end.
Definition deleteAddrPubkeyRelation (addr : string) : M (State S) unit :=
  let! key := lift (AddrPubkeyRelationKey addr) in modify (fun s => set_pubkeys (delete key (sl_pubkeys s)) s).

Definition reason_of (infraction : Infraction) : string :=
  match infraction with INFRACTION_DOUBLE_SIGN => "double_sign" | INFRACTION_DOWNTIME => "missing_signature" | INFRACTION_UNSPECIFIED => "unspecified" end.

Definition SlashWithInfractionReason (consAddr : string) (fraction power distributionHeight : Z) (infraction : Infraction) : M (State S) unit :=
  let! coinsBurned := on_staking (sk_Slash consAddr distributionHeight power fraction infraction) in
  EmitEvent (NewEvent "slash" [("address", AStr (ConsAddress_String consAddr)); ("power", AInt power); ("reason", AStr (reason_of infraction)); ("burned_coins", AInt coinsBurned)]).
Definition Slash (consAddr : string) (fraction power distributionHeight : Z) : M (State S) unit :=
  SlashWithInfractionReason consAddr fraction power distributionHeight INFRACTION_UNSPECIFIED.

Definition Jail (consAddr : string) : M (State S) unit :=
  on_staking (sk_Jail consAddr) ;;!
  EmitEvent (NewEvent "slash" [("jailed", AStr (ConsAddress_String consAddr))]).

(** ** keeper/infractions.go, abci.go *)

(** staking/keeper/validator.go: IsValidatorJailed. *)
Definition IsValidatorJailed (addr : string) : M (State S) bool :=
  reads (fun s => match sk_ValidatorByConsAddr (sl_staking s) addr with Some v => v_Jailed v | None => false end).

Definition punish (ctx : Ctx) (consAddr : string) (power : Z) (signInfo : ValidatorSigningInfo) : M (State S) ValidatorSigningInfo :=
  let! validator := reads (fun s => sk_ValidatorByConsAddr (sl_staking s) consAddr) in
  match validator with
  | Some v =>
      if v_Jailed v then ret signInfo else
      let distributionHeight := BlockHeight ctx - 1 - 1 in
      let! fraction := SlashFractionDowntime in
      let! coinsBurned := on_staking (sk_Slash consAddr distributionHeight power fraction INFRACTION_DOWNTIME) in
      EmitEvent (NewEvent "slash" [("address", AStr (ConsAddress_String consAddr)); ("power", AInt power); ("reason", AStr "missing_signature");
        ("jailed", AStr (ConsAddress_String consAddr)); ("burned_coins", AInt coinsBurned)]) ;;!
      on_staking (sk_Jail consAddr) ;;!
      let! duration := DowntimeJailDuration in
      clearValidatorMissedBlockBitArray consAddr ;;!
      ret (with_window 0 0 (with_jailed_until (BlockTime ctx + duration) signInfo))
  | None => ret signInfo
  end.

Definition HandleValidatorSignature (ctx : Ctx) (addr : string) (power : Z) (signed : bool) : M (State S) unit :=
  let! jailed := IsValidatorJailed addr in
  if jailed : bool then ret tt else
  let! info := GetValidatorSigningInfo addr in
  let! signInfo := or_panic info in
  let! window := SignedBlocksWindow in
  if window =? 0 then panic else
  let index := Z.rem (IndexOffset signInfo) window in
  let offset := wrap_i64 (IndexOffset signInfo + 1) in
  let! previous := GetValidatorMissedBlockBitArray addr index in
  let missed := negb signed in
  let! counter :=
    match previous, missed with
    | false, true => SetValidatorMissedBlockBitArray addr index true ;;! ret (wrap_i64 (MissedBlocksCounter signInfo + 1))
    | true, false => SetValidatorMissedBlockBitArray addr index false ;;! ret (wrap_i64 (MissedBlocksCounter signInfo - 1))
    | _, _ => ret (MissedBlocksCounter signInfo)
    end in
  let signInfo := with_window offset counter signInfo in
  let! minSignedPerWindow := MinSignedPerWindow in
  (if missed then
     EmitEvent (NewEvent "liveness" [("address", AStr (ConsAddress_String addr)); ("missed_blocks", AInt counter); ("height", AInt (BlockHeight ctx))])
   else ret tt) ;;!
  let minHeight := wrap_i64 (StartHeight signInfo + window) in
  let maxMissed := wrap_i64 (window - minSignedPerWindow) in
  let! signInfo := if (minHeight <? BlockHeight ctx) && (maxMissed <? MissedBlocksCounter signInfo) then punish ctx addr power signInfo else ret signInfo in
  SetValidatorSigningInfo addr signInfo.

(** The votes of the last commit: address, power, and whether it signed. *)
Definition BeginBlocker (ctx : Ctx) (votes : list (string * Z * bool)) : M (State S) unit :=
  for_each votes (fun vote => HandleValidatorSignature ctx vote.1.1 vote.1.2 vote.2).

(** ** keeper/hooks.go *)

Definition AfterValidatorBonded (ctx : Ctx) (consAddr : string) : M (State S) unit :=
  let! info := GetValidatorSigningInfo consAddr in
  SetValidatorSigningInfo consAddr
    (match info with Some info => with_start (BlockHeight ctx) info | None => NewValidatorSigningInfo consAddr (BlockHeight ctx) 0 0 false 0 end).
Definition AfterValidatorRemoved (consAddr : string) : M (State S) unit := deleteAddrPubkeyRelation consAddr.
Definition AfterValidatorCreated (valAddr : string) : M (State S) unit :=
  let! validator := reads (fun s => sk_Validator (sl_staking s) valAddr) in
  let! validator := or_panic validator in
  match v_ConsPubKey validator with Some pk => AddPubkey pk | None => throw (Errorf "unpacking the public key failed") end.

(** ** keeper/unjail.go *)

(** staking/types/validator.go: TokensFromShares. *)
Definition TokensFromShares (v : Validator) (shares : Z) : outcome Z :=
  let* a := o_panic (Dec_MulInt shares (v_Tokens v)) in o_panic (Dec_Quo a (v_DelegatorShares v)).

Definition Unjail (ctx : Ctx) (validatorAddr : string) : M (State S) unit :=
  let! validator := reads (fun s => sk_Validator (sl_staking s) validatorAddr) in
  match validator with
  | None => throw ErrNoValidatorForAddress
  | Some validator =>
      let! selfDel := reads (fun s => sk_Delegation (sl_staking s) validatorAddr validatorAddr) in
      match selfDel with
      | None => throw ErrMissingSelfDelegation
      | Some shares =>
          let! tokens := lift (TokensFromShares validator shares) in
          let! tokens := or_panic (Dec_TruncateInt tokens) in
          if tokens <? v_MinSelfDelegation validator then throw (Wrapf "less than the minimum" ErrSelfDelegationTooLowToUnjail) else
          if negb (v_Jailed validator) then throw ErrValidatorNotJailed else
          match v_ConsPubKey validator with
          | None => throw (Errorf "unpacking the public key failed")
          | Some pk =>
              let consAddr := PubKey_Address pk in
              let! info := GetValidatorSigningInfo consAddr in
              match info with
              | Some info =>
                  if Tombstoned info then throw ErrValidatorJailed else
                  if BlockTime ctx <? JailedUntil info then throw ErrValidatorJailed else
                  on_staking (sk_Unjail consAddr)
              | None => on_staking (sk_Unjail consAddr)
              end
          end
      end
  end.

(** ** keeper/msg_server.go, types/msg.go *)

Definition UpdateParams (reqAuthority : string) (params : Params) : M (State S) unit :=
  if bool_decide (authority <> reqAuthority) then throw (Wrapf "invalid authority" bank.ErrInvalidSigner) else SetParams params.

Definition MsgUpdateParams_ValidateBasic (reqAuthority : string) (params : Params) : outcome unit :=
  match AccAddressFromBech32 reqAuthority with None => Err (Errorf "invalid authority address") | Some _ => Params_Validate params end.

Definition MsgUnjail_ValidateBasic (validatorAddr : string) : outcome unit :=
  match ValAddressFromBech32 validatorAddr with Some _ => Ok tt | None => Err (Wrapf "validator input address" bank.ErrInvalidAddress) end.
Definition msg_Unjail (ctx : Ctx) (validatorAddr : string) : M (State S) unit :=
  match ValAddressFromBech32 validatorAddr with Some valAddr => Unjail ctx valAddr | None => throw (Errorf "decoding bech32 failed") end.

(** ** types/genesis.go, keeper/genesis.go *)

Record GenesisState : Type := mkGenesisState {
  g_Params : option Params;
  g_SigningInfos : list (string * ValidatorSigningInfo);
  g_MissedBlocks : list (string * list (Z * bool));
}.

Definition NewGenesisState (params : Params) := mkGenesisState (Some params).
Definition DefaultGenesisState : outcome GenesisState := let* params := DefaultParams in Ok (NewGenesisState params [] []).

Definition ValidateGenesis (data : GenesisState) : outcome unit :=
  let* p := o_panic (g_Params data) in
  let outside v := (v <? 0) || (dec_one <? v) in
  if outside (p_SlashFractionDowntime p) then Err (Errorf "slashing fraction downtime should be less than or equal to one and greater than zero") else
  if outside (p_SlashFractionDoubleSign p) then Err (Errorf "slashing fraction double sign should be less than or equal to one and greater than zero") else
  if outside (p_MinSignedPerWindow p) then Err (Errorf "min signed per window should be less than or equal to one and greater than zero") else
  if p_DowntimeJailDuration p <? 60 * 1000000000 then Err (Errorf "downtime unjail duration must be at least 1 minute") else
  if p_SignedBlocksWindow p <? 10 then Err (Errorf "signed blocks window must be at least 10") else Ok tt.

Definition cons_address (address : string) : M (State S) string := or_panic (ConsAddressFromBech32 address).

Definition add_validator_pubkey (v : Validator) : M (State S) unit :=
  let! consPk := or_panic (v_ConsPubKey v) in AddPubkey consPk.

Definition InitGenesis (data : GenesisState) : M (State S) unit :=
  let! validators := reads (fun s => sk_Validators (sl_staking s)) in
  for_each validators add_validator_pubkey ;;!
  for_each (g_SigningInfos data) (fun info =>
    let! address := cons_address info.1 in
    SetValidatorSigningInfo address info.2) ;;!
  for_each (g_MissedBlocks data) (fun array =>
    let! address := cons_address array.1 in
    for_each array.2 (fun missed => SetValidatorMissedBlockBitArray address missed.1 missed.2)) ;;!
  let! params := or_panic (g_Params data) in
  must (SetParams params).

Fixpoint export_infos (l : list (string * ValidatorSigningInfo)) : M (State S) (list (string * ValidatorSigningInfo) * list (string * list (Z * bool))) :=
  match l with
  | [] => ret ([], [])
  | (address, info) :: l =>
      let bechAddr := ConsAddress_String address in
      let! localMissedBlocks := GetValidatorMissedBlocks address in
      let! rest := export_infos l in
      ret ((bechAddr, info) :: rest.1, (bechAddr, localMissedBlocks) :: rest.2)
  end.
Definition ExportGenesis : M (State S) GenesisState :=
  let! params := GetParams in
  let! l := IterateValidatorSigningInfos in
  let! r := export_infos l in
  ret (mkGenesisState params r.1 r.2).

(** ** keeper/grpc_query.go *)

Definition query_Params (req : option unit) : M (State S) (option Params) :=
  match req with None => throw (Wrapf "empty request" (Registered "grpc" 3)) | Some _ => GetParams end.
Definition SigningInfo (req : option string) : M (State S) ValidatorSigningInfo :=
  match req with
  | None => throw (Wrapf "empty request" (Registered "grpc" 3))
  | Some "" => throw (Wrapf "invalid request" (Registered "grpc" 3))
  | Some address =>
      match ConsAddressFromBech32 address with
      | None => throw (Errorf "decoding bech32 failed")
      | Some consAddr =>
          let! info := GetValidatorSigningInfo consAddr in
          match info with Some info => ret info | None => throw (Wrapf "SigningInfo not found" (Registered "grpc" 5)) end
      end
  end.
Definition SigningInfos (req : option (option PageRequest)) : M (State S) (list ValidatorSigningInfo * PageResponse) :=
  match req with
  | None => throw (Wrapf "empty request" (Registered "grpc" 3))
  | Some pagination => fun s =>
      match Paginate (fun _ info => modify (fun l => l ++ [info])) pagination (sl_infos s, []) with
      | (Ok res, (_, l)) => (Ok (l, res), s)
      | (Err e, _) => (Err e, s)
      | (Panic, _) => (Panic, s)
      end
  end.
End Keeper.

(** ** Theorems *)

(** *** The ring of a validator *)

Definition bit_key (a : string) (i : Z) : string := addr_key a +:+ little_endian 8 (wrap_u64 i).

Lemma little_endian_inj w n m : 0 <= n < 256 ^ Z.of_nat w -> 0 <= m < 256 ^ Z.of_nat w -> little_endian w n = little_endian w m -> n = m.
Proof.
  revert n m. induction w as [|w IH]; intros n m Hn Hm; [cbn in *; lia|]. rewrite Nat2Z.inj_succ, Z.pow_succ_r in Hn, Hm by lia.
  cbn [little_endian]. intros [= Eb E]. pose proof (Z.mod_pos_bound n 256 ltac:(lia)) as Bn. pose proof (Z.mod_pos_bound m 256 ltac:(lia)) as Bm. apply (f_equal N_of_ascii) in Eb. rewrite !N_ascii_embedding in Eb by lia.
  apply IH in E; [|split; [apply Z.div_pos; lia|apply Z.div_lt_upper_bound; lia]..].
  rewrite (Z.div_mod n 256), (Z.div_mod m 256) by lia. lia.
Qed.

Lemma bit_key_inj a b i j : addr_ok a -> addr_ok b -> 0 <= i < two64 -> 0 <= j < two64 -> bit_key a i = bit_key b j -> a = b /\ i = j.
Proof.
  intros Ha Hb Hi Hj E. apply length_prefix_inj in E as [-> E]; [|done..]. split; [done|]. rewrite !wrap_u64_id in E by done. by apply little_endian_inj in E.
Qed.

Lemma prefix_other a b r : addr_ok a -> addr_ok b -> String.prefix (addr_key a) (addr_key b +:+ r) = bool_decide (a = b).
Proof.
  intros Ha Hb. apply eq_true_iff_eq. rewrite bool_decide_eq_true. split; [|intros ->; apply prefix_app].
  intros [r' E]%prefix_iff. by apply length_prefix_inj in E as [-> _].
Qed.

Lemma addr_key_inj a b : addr_ok a -> addr_ok b -> addr_key a = addr_key b -> a = b.
Proof. by intros _ _ [= _ ->]. Qed.

Section Ring.
Context {S : Type} `{SdkMath} `{SdkDecRound} `{Bech32} `{KeyLib} `{StakingKeeper S}.
Implicit Types (s : State S) (a : string).

Definition info_of a s : option ValidatorSigningInfo := sl_infos s !! addr_key a.
Definition bit_of a (i : Z) s : bool := default false (sl_bits s !! bit_key a i).
Definition window_of s : Z := from_option p_SignedBlocksWindow 0 (sl_params s).
Definition jailed_of a s : bool := match sk_ValidatorByConsAddr (sl_staking s) a with Some v => v_Jailed v | None => false end.

Definition put_info a info s : State S := set_infos (<[addr_key a := info]> (sl_infos s)) s.
(** The ring after a block. *)
Definition marked a (i : Z) (missed : bool) s : State S :=
  if Bool.eqb (bit_of a i s) missed then s else set_bits (<[bit_key a i := missed]> (sl_bits s)) s.
Definition cleared a s : State S := set_bits (filter (fun kv => String.prefix (addr_key a) kv.1 = false) (sl_bits s)) s.

Lemma get_info_run a s : addr_ok a -> GetValidatorSigningInfo a s = (Ok (info_of a s), s).
Proof. intros Ha. unfold GetValidatorSigningInfo, ValidatorSigningInfoKey. by rewrite (bind_run _ _ _ _ _ (lift_run _ _ _ (addr_key_run _ Ha))). Qed.
Lemma set_info_run a info s : addr_ok a -> SetValidatorSigningInfo a info s = (Ok tt, put_info a info s).
Proof. intros Ha. unfold SetValidatorSigningInfo, ValidatorSigningInfoKey. by rewrite (bind_run _ _ _ _ _ (lift_run _ _ _ (addr_key_run _ Ha))). Qed.

Lemma bit_key_run a i : addr_ok a -> ValidatorMissedBlockBitArrayKey a i = Ok (bit_key a i).
Proof. intros Ha. unfold ValidatorMissedBlockBitArrayKey, ValidatorMissedBlockBitArrayPrefixKey. by rewrite addr_key_run. Qed.
Lemma get_bit_run a i s : addr_ok a -> GetValidatorMissedBlockBitArray a i s = (Ok (bit_of a i s), s).
Proof. intros Ha. unfold GetValidatorMissedBlockBitArray. by rewrite (bind_run _ _ _ _ _ (lift_run _ _ _ (bit_key_run _ i Ha))). Qed.
Lemma set_bit_run a i b s : addr_ok a -> SetValidatorMissedBlockBitArray a i b s = (Ok tt, set_bits (<[bit_key a i := b]> (sl_bits s)) s).
Proof. intros Ha. unfold SetValidatorMissedBlockBitArray. by rewrite (bind_run _ _ _ _ _ (lift_run _ _ _ (bit_key_run _ i Ha))). Qed.
Lemma clear_run a s : addr_ok a -> clearValidatorMissedBlockBitArray a s = (Ok tt, cleared a s).
Proof. intros Ha. unfold clearValidatorMissedBlockBitArray, ValidatorMissedBlockBitArrayPrefixKey. by rewrite (bind_run _ _ _ _ _ (lift_run _ _ _ (addr_key_run _ Ha))). Qed.

Lemma bit_marked a i m b j s : addr_ok a -> addr_ok b -> 0 <= i < two64 -> 0 <= j < two64 ->
  bit_of b j (marked a i m s) = if bool_decide (a = b /\ i = j) then m else bit_of b j s.
Proof.
  intros Ha Hb Hi Hj. unfold marked. destruct (Bool.eqb _ _) eqn:E.
  - apply Bool.eqb_prop in E. case_bool_decide as Hd; [|done]. by destruct Hd as [<- <-].
  - unfold bit_of. cbn [sl_bits set_bits]. case_bool_decide as Hd.
    + destruct Hd as [<- <-]. by rewrite lookup_insert_eq.
    + rewrite lookup_insert_ne; [done|]. intros E'. apply bit_key_inj in E' as [-> ->]; [by apply Hd|done..].
Qed.

Lemma bit_cleared a b i s : addr_ok a -> addr_ok b -> bit_of b i (cleared a s) = if bool_decide (a = b) then false else bit_of b i s.
Proof.
  intros Ha Hb. unfold bit_of, cleared. cbn [sl_bits set_bits]. rewrite map_lookup_filter. destruct (sl_bits s !! bit_key b i) as [x|]; cbn; [|by case_bool_decide].
  unfold bit_key. rewrite prefix_other by done. by case_bool_decide.
Qed.

(** *** One vote *)

(** MinSignedPerWindow, read off the parameters. *)
Definition min_signed (params : option Params) : outcome Z :=
  let* p := o_panic params in
  let* d := o_panic (Dec_MulInt (p_MinSignedPerWindow p) (p_SignedBlocksWindow p)) in
  let* n := o_panic (Dec_RoundInt d) in
  if bool_decide (in_i64 n) then Ok n else Panic.

Lemma min_signed_run s : MinSignedPerWindow s = (min_signed (sl_params s), s).
Proof.
  unfold MinSignedPerWindow, SignedBlocksWindow, GetParams, min_signed, bind, reads. destruct (sl_params s) as [p|] eqn:E; [|done]. cbn. rewrite E. cbn.
  destruct (Dec_MulInt _ _) as [d|]; [|done]. cbn. destruct (Dec_RoundInt d) as [n|]; [|done]. cbn. by case_bool_decide.
Qed.

Definition ring_index s (i : ValidatorSigningInfo) : Z := Z.rem (IndexOffset i) (window_of s).
Definition counted (previous missed : bool) (c : Z) : Z :=
  match previous, missed with false, true => wrap_i64 (c + 1) | true, false => wrap_i64 (c - 1) | _, _ => c end.
Definition after_vote a (missed : bool) (i : ValidatorSigningInfo) s : ValidatorSigningInfo :=
  with_window (wrap_i64 (IndexOffset i + 1)) (counted (bit_of a (ring_index s i) s) missed (MissedBlocksCounter i)) i.
Definition noted (ctx : Ctx) a (missed : bool) (c : Z) s : State S :=
  if missed then mkState (sl_infos s) (sl_bits s) (sl_pubkeys s) (sl_params s) (sl_staking s)
    (sl_events s ++ [NewEvent "liveness" [("address", AStr (ConsAddress_String a)); ("missed_blocks", AInt c); ("height", AInt (BlockHeight ctx))]]) else s.
(** The state in which punishment is decided. *)
Definition voted (ctx : Ctx) a (missed : bool) (i : ValidatorSigningInfo) s : State S :=
  noted ctx a missed (MissedBlocksCounter (after_vote a missed i s)) (marked a (ring_index s i) missed s).
Definition too_many (ctx : Ctx) (m : Z) (i : ValidatorSigningInfo) s : bool :=
  (wrap_i64 (StartHeight i + window_of s) <? BlockHeight ctx) && (wrap_i64 (window_of s - m) <? MissedBlocksCounter i).

Lemma marked_params a i missed s : sl_params (marked a i missed s) = sl_params s.
Proof. unfold marked. by destruct (Bool.eqb _ _). Qed.

Lemma jailed_run a s : IsValidatorJailed a s = (Ok (jailed_of a s), s).
Proof. done. Qed.

Lemma handle_run ctx a power signed s i m : addr_ok a -> jailed_of a s = false -> info_of a s = Some i -> window_of s <> 0 -> min_signed (sl_params s) = Ok m ->
  let missed := negb signed in let i1 := after_vote a missed i s in
  HandleValidatorSignature ctx a power signed s =
    (let! i2 := if too_many ctx m i1 s then punish ctx a power i1 else ret i1 in SetValidatorSigningInfo a i2) (voted ctx a missed i s).
Proof.
  intros Ha Hj Hi Hw Hm. cbv zeta. unfold HandleValidatorSignature.
  rewrite (bind_run _ _ _ _ _ (jailed_run a s)), Hj. cbv beta iota.
  rewrite (bind_run _ _ _ _ _ (get_info_run a s Ha)), Hi. cbn [or_panic]. rewrite bind_ret.
  assert (SignedBlocksWindow s = (Ok (window_of s), s)) as E1 by done. rewrite (bind_run _ _ _ _ _ E1). destruct (Z.eqb_spec (window_of s) 0); [done|].
  cbv zeta. fold (ring_index s i). rewrite (bind_run _ _ _ _ _ (get_bit_run a _ s Ha)). set (missed := negb signed). set (s1 := marked a (ring_index s i) missed s).
  match goal with |- bind ?c _ _ = _ => assert (c s = (Ok (counted (bit_of a (ring_index s i) s) missed (MissedBlocksCounter i)), s1)) as E2 end.
  { unfold counted, s1, marked. destruct (bit_of a _ s), missed; cbn [Bool.eqb]; try done; by rewrite (bind_run _ _ _ _ _ (set_bit_run _ _ _ _ Ha)). }
  rewrite (bind_run _ _ _ _ _ E2). fold (after_vote a missed i s). set (i1 := after_vote a missed i s).
  assert (MinSignedPerWindow s1 = (Ok m, s1)) as E3 by (rewrite min_signed_run; unfold s1; by rewrite marked_params, Hm).
  rewrite (bind_run _ _ _ _ _ E3).
  match goal with |- bind ?c _ _ = _ => assert (c s1 = (Ok tt, voted ctx a missed i s)) as E4 by (unfold voted, noted; fold i1 s1; by destruct missed) end.
  rewrite (bind_run _ _ _ _ _ E4). reflexivity.
Qed.

(** Whatever the staking keeper answers. *)
Lemma handle_cases ctx a power signed s s' : addr_ok a -> HandleValidatorSignature ctx a power signed s = (Ok tt, s') ->
  (jailed_of a s = true /\ s' = s) \/
  exists i m, jailed_of a s = false /\ info_of a s = Some i /\ window_of s <> 0 /\ min_signed (sl_params s) = Ok m /\
    let missed := negb signed in let i1 := after_vote a missed i s in
    (let! i2 := if too_many ctx m i1 s then punish ctx a power i1 else ret i1 in SetValidatorSigningInfo a i2) (voted ctx a missed i s) = (Ok tt, s').
Proof.
  intros Ha E. destruct (jailed_of a s) eqn:Ej.
  { left. split; [done|]. unfold HandleValidatorSignature in E. rewrite (bind_run _ _ _ _ _ (jailed_run a s)), Ej in E. by injection E as <-. }
  right. destruct (info_of a s) as [i|] eqn:Ei, (Z.eq_dec (window_of s) 0) as [Ew|Ew], (min_signed (sl_params s)) as [m| |] eqn:Em.
  all: try (exists i, m; split_and!; [done..|]; cbv zeta; pose proof (handle_run ctx a power signed s i m Ha Ej Ei Ew Em) as R; cbv zeta in R; by rewrite <- R).
  all: exfalso; unfold HandleValidatorSignature in E; rewrite (bind_run _ _ _ _ _ (jailed_run a s)), Ej, (bind_run _ _ _ _ _ (get_info_run a s Ha)), Ei in E; cbn [or_panic] in E; try discriminate E; rewrite bind_ret in E;
    assert (SignedBlocksWindow s = (Ok (window_of s), s)) as E2 by done; rewrite (bind_run _ _ _ _ _ E2) in E.
  all: destruct (Z.eqb_spec (window_of s) 0); try done.
  all: rewrite (bind_run _ _ _ _ _ (get_bit_run a _ s Ha)) in E; apply bind_ok in E as (c & s1 & E3 & E); apply bind_ok in E as (m & s2 & E4 & _).
  all: assert (sl_params s1 = sl_params s) as Ep by (destruct (bit_of a _ s), (negb signed); unfold bind in E3; rewrite ?set_bit_run in E3 by done; by injection E3 as _ <-).
  all: rewrite min_signed_run, Ep, Em in E4; discriminate E4.
Qed.

(** What a punishment leaves behind. *)
Definition reset (t : Z) (i : ValidatorSigningInfo) : ValidatorSigningInfo := with_window 0 0 (with_jailed_until t i).
Definition punished a st events s : State S := mkState (sl_infos s) (sl_bits (cleared a s)) (sl_pubkeys s) (sl_params s) st events.

Lemma punish_cases ctx a power i s i2 s2 : addr_ok a -> punish ctx a power i s = (Ok i2, s2) ->
  (i2 = i /\ s2 = s) \/ exists t st events, i2 = reset t i /\ s2 = punished a st events s.
Proof.
  intros Ha E. unfold punish in E. apply bind_ok in E as (v & s0 & E0 & E). apply reads_ok in E0 as [-> ->].
  destruct (sk_ValidatorByConsAddr _ a) as [v|]; [|by injection E as <- <-; left]. destruct (v_Jailed v); [by injection E as <- <-; left|]. right.
  unfold SlashFractionDowntime, DowntimeJailDuration, GetParams, on_staking, EmitEvent in E. inv_go. rewrite clear_run in * by done.
  destruct (sk_Slash _ _ _ _ _ _) as [[burned| |] st1]; simplify_eq. cbn [sl_staking set_staking] in *. destruct (sk_Jail _ st1) as [[[]| |] st2]; simplify_eq.
  by do 3 eexists.
Qed.

(** *** What calls do to the signing infos and the bits *)

Inductive effect (s s' : State S) : Prop :=
| Same : sl_infos s' = sl_infos s -> sl_bits s' = sl_bits s -> effect s s'
| Voted a i k missed offset : addr_ok a -> info_of a s = Some i -> sl_bits s' = sl_bits (marked a k missed s) ->
    sl_infos s' = <[addr_key a := with_window offset (counted (bit_of a k s) missed (MissedBlocksCounter i)) i]> (sl_infos s) -> effect s s'
| Punished a i t : addr_ok a -> info_of a s = Some i -> sl_bits s' = sl_bits (cleared a s) -> sl_infos s' = <[addr_key a := reset t i]> (sl_infos s) -> effect s s'
| Updated a i i' : addr_ok a -> info_of a s = Some i -> MissedBlocksCounter i' = MissedBlocksCounter i -> (Tombstoned i = true -> Tombstoned i' = true) ->
    sl_bits s' = sl_bits s -> sl_infos s' = <[addr_key a := i']> (sl_infos s) -> effect s s'
| Fresh a i' : addr_ok a -> info_of a s = None -> MissedBlocksCounter i' = 0 -> sl_bits s' = sl_bits s -> sl_infos s' = <[addr_key a := i']> (sl_infos s) -> effect s s'.

Lemma handle_effect ctx a power signed s s' : addr_ok a -> HandleValidatorSignature ctx a power signed s = (Ok tt, s') -> rtc effect s s'.
Proof.
  intros Ha E. apply handle_cases in E as [[_ ->]|(i & m & _ & Hi & _ & _ & E)]; [done| |done]. cbv zeta in E. set (missed := negb signed) in E. set (i1 := after_vote a missed i s) in E. set (s1 := voted ctx a missed i s) in E.
  assert (sl_infos s1 = sl_infos s /\ sl_bits s1 = sl_bits (marked a (ring_index s i) missed s)) as [E1 E2].
  { unfold s1, voted, noted, marked. by destruct missed, (Bool.eqb _ _). }
  assert (effect s (put_info a i1 s1)) as Hv by (eapply Voted; [exact Ha|exact Hi|exact E2|unfold put_info; cbn; by rewrite E1]).
  apply bind_ok in E as (i2 & s2 & Ep & E). rewrite set_info_run in E by done. injection E as <-.
  assert ((i2 = i1 /\ s2 = s1) \/ exists t st events, i2 = reset t i1 /\ s2 = punished a st events s1) as [[-> ->]|(t & st & ev & -> & ->)].
  { destruct (too_many _ _ _ _); [by eapply punish_cases|]. injection Ep as <- <-. by left. }
  - by apply rtc_once.
  - eapply rtc_l; [exact Hv|]. apply rtc_once, (Punished _ _ a i1 t Ha).
    + unfold info_of, put_info. cbn. by rewrite lookup_insert_eq.
    + done.
    + unfold put_info, punished. cbn. by rewrite insert_insert_eq.
Qed.

(** The calls that change the state, from the block, the hooks of x/staking,
    messages, the other modules, and changes of x/staking itself. *)
Inductive call : Type :=
| CallBeginBlocker (ctx : Ctx) (votes : list (string * Z * bool))
| CallBonded (ctx : Ctx) (consAddr : string)
| CallRemoved (consAddr : string)
| CallCreated (valAddr : string)
| CallUnjail (ctx : Ctx) (validatorAddr : string)
| CallUpdateParams (reqAuthority : string) (params : Params)
| CallSlash (consAddr : string) (fraction power distributionHeight : Z) (infraction : Infraction)
| CallJail (consAddr : string)
| CallJailUntil (consAddr : string) (jailTime : Z)
| CallTombstone (consAddr : string)
| CallStaking (f : S -> S).

Definition run_call (authority : string) (c : call) : M (State S) unit :=
  match c with
  | CallBeginBlocker ctx votes => BeginBlocker ctx votes
  | CallBonded ctx a => AfterValidatorBonded ctx a
  | CallRemoved a => AfterValidatorRemoved a
  | CallCreated v => AfterValidatorCreated v
  | CallUnjail ctx v => msg_Unjail ctx v
  | CallUpdateParams auth p => UpdateParams authority auth p
  | CallSlash a fraction power h infraction => SlashWithInfractionReason a fraction power h infraction
  | CallJail a => Jail a
  | CallJailUntil a t => JailUntil a t
  | CallTombstone a => Tombstone a
  | CallStaking f => on_staking (modify f)
  end.
(** Consensus addresses are never empty. *)
Definition call_ok (c : call) : Prop :=
  match c with
  | CallBeginBlocker _ votes => Forall (fun v => addr_ok v.1.1) votes
  | CallBonded _ a | CallJailUntil a _ | CallTombstone a => addr_ok a
  | _ => True
  end.

Lemma on_staking_effect {A} (c : M S A) s r s' : on_staking c s = (r, s') -> effect s s'.
Proof. unfold on_staking. destruct (c (sl_staking s)). intros [= _ <-]. by apply Same. Qed.

Lemma unjail_effect ctx v s s' : Unjail ctx v s = (Ok tt, s') -> effect s s'.
Proof.
  intros E. unfold Unjail, GetValidatorSigningInfo, lift in E. inv_go; by eapply on_staking_effect.
Qed.

Lemma same_after s s1 s' : sl_infos s1 = sl_infos s -> sl_bits s1 = sl_bits s -> sl_infos s' = sl_infos s1 -> sl_bits s' = sl_bits s1 -> rtc effect s s'.
Proof. intros E1 E2 E3 E4. apply rtc_once, Same; congruence. Qed.

Lemma call_effect authority c s s' : call_ok c -> run_call authority c s = (Ok tt, s') -> rtc effect s s'.
Proof.
  intros Hc. destruct c as [ctx votes|ctx a|a|v|ctx v|auth p|a fr pw h inf|a|a t|a|f]; cbn [run_call call_ok] in *; intros E.
  - revert s E. unfold BeginBlocker. induction votes as [|v votes IH]; intros s E; [by injection E as <-|]. apply Forall_cons in Hc as [Ha Hc].
    cbn [for_each] in E. apply bind_ok in E as ([] & s1 & E1 & E). etrans; [by eapply handle_effect|by apply IH].
  - apply rtc_once. unfold AfterValidatorBonded in E. rewrite (bind_run _ _ _ _ _ (get_info_run a s Hc)), set_info_run in E by done. injection E as <-.
    destruct (info_of a s) as [i|] eqn:Ei; [by apply (Updated _ _ a i (with_start (BlockHeight ctx) i))|by apply (Fresh _ _ a (NewValidatorSigningInfo a (BlockHeight ctx) 0 0 false 0))].
  - apply rtc_once. unfold AfterValidatorRemoved, deleteAddrPubkeyRelation, lift in E. inv_go. by apply Same.
  - apply rtc_once. unfold AfterValidatorCreated, AddPubkey, lift in E. inv_go. by apply Same.
  - apply rtc_once. unfold msg_Unjail in E. destruct (ValAddressFromBech32 v); [by eapply unjail_effect|done].
  - apply rtc_once. unfold UpdateParams, SetParams, lift in E. inv_go. by apply Same.
  - unfold SlashWithInfractionReason, EmitEvent in E. apply bind_ok in E as (x & s1 & E1 & E). apply on_staking_effect in E1. eapply rtc_l; [exact E1|]. apply modify_ok in E as ->. by apply rtc_once, Same.
  - unfold Jail, EmitEvent in E. apply bind_ok in E as (x & s1 & E1 & E). apply on_staking_effect in E1. eapply rtc_l; [exact E1|]. apply modify_ok in E as ->. by apply rtc_once, Same.
  - apply rtc_once. unfold JailUntil in E. rewrite (bind_run _ _ _ _ _ (get_info_run a s Hc)) in E. inv_go. rewrite set_info_run in * by done. simplify_eq. by eapply (Updated _ _ a _ (with_jailed_until t _)).
  - apply rtc_once. unfold Tombstone in E. rewrite (bind_run _ _ _ _ _ (get_info_run a s Hc)) in E. inv_go. rewrite set_info_run in * by done. simplify_eq. by eapply (Updated _ _ a _ (with_tombstone _)).
  - apply rtc_once. by eapply on_staking_effect.
Qed.

Lemma calls_effect authority calls s s' : Forall call_ok calls -> for_each calls (run_call authority) s = (Ok tt, s') -> rtc effect s s'.
Proof.
  revert s. induction calls as [|c calls IH]; intros s Hc E; [by injection E as <-|]. apply Forall_cons in Hc as [Hc1 Hc].
  cbn [for_each] in E. apply bind_ok in E as ([] & s1 & E1 & E). etrans; [by eapply call_effect|by apply IH].
Qed.

(** *** The counter *)

Definition bits_set a s : Z := map_sum (fun key b => Z.b2z (b && String.prefix (addr_key a) key)) (sl_bits s).
Definition counter_of a s : Z := from_option MissedBlocksCounter 0 (info_of a s).

Lemma wrap_i64_add x y : wrap_i64 (wrap_i64 x + y) = wrap_i64 (x + y).
Proof.
  unfold wrap_i64. replace ((x + two63) mod two64 - two63 + y + two63) with ((x + two63) mod two64 + y) by lia.
  rewrite Z.add_mod_idemp_l by done. f_equal. f_equal. lia.
Qed.

Lemma bits_set_same a s s' : sl_bits s' = sl_bits s -> bits_set a s' = bits_set a s.
Proof. unfold bits_set. by intros ->. Qed.

Lemma bits_set_marked a b k missed s : addr_ok a -> addr_ok b ->
  bits_set b (marked a k missed s) = bits_set b s + (if bool_decide (a = b) then Z.b2z missed - Z.b2z (bit_of a k s) else 0).
Proof.
  intros Ha Hb. unfold marked. destruct (Bool.eqb _ _) eqn:E.
  - apply Bool.eqb_prop in E as ->. case_bool_decide; lia.
  - assert (String.prefix (addr_key b) (bit_key a k) = bool_decide (a = b)) as Ep.
    { unfold bit_key. rewrite prefix_other by done. by apply bool_decide_ext. }
    unfold bits_set. cbn [sl_bits set_bits]. rewrite map_sum_insert. unfold bit_of in *. destruct (sl_bits s !! bit_key a k) as [x|] eqn:Ek; cbn in *;
      rewrite ?Ep; case_bool_decide; destruct missed; try destruct x; cbn in *; try discriminate E; lia.
Qed.

Lemma bits_set_cleared a b s : addr_ok a -> addr_ok b -> bits_set b (cleared a s) = if bool_decide (a = b) then 0 else bits_set b s.
Proof.
  intros Ha Hb. unfold bits_set, cleared. cbn [sl_bits set_bits].
  case_bool_decide as E.
  - subst b. apply map_sum_zero. intros k v [_ Hk]%map_lookup_filter_Some. cbn in Hk. rewrite Hk. by destruct v.
  - apply map_sum_filter. intros k v _ Hk. cbn in Hk. destruct (String.prefix (addr_key b) k) eqn:Ep; [|by destruct v].
    apply not_false_is_true, prefix_iff in Hk as [r ->]. rewrite prefix_other in Ep by done. apply bool_decide_eq_true in Ep. congruence.
Qed.

Definition counters s : Prop := forall a, addr_ok a -> counter_of a s = wrap_i64 (bits_set a s).

Lemma counted_wrap previous missed x : counted previous missed (wrap_i64 x) = wrap_i64 (x + (Z.b2z missed - Z.b2z previous)).
Proof.
  destruct previous, missed; cbn [counted Z.b2z]; rewrite <- ?Z.add_opp_r, ?wrap_i64_add; f_equal; try lia.
  all: f_equal; lia.
Qed.

Lemma counter_of_insert a b i s s' : addr_ok a -> addr_ok b -> sl_infos s' = <[addr_key a := i]> (sl_infos s) ->
  counter_of b s' = if bool_decide (a = b) then MissedBlocksCounter i else counter_of b s.
Proof.
  intros Ha Hb E. unfold counter_of, info_of. rewrite E. case_bool_decide as Hab; [subst; by rewrite lookup_insert_eq|].
  rewrite lookup_insert_ne; [done|]. intros Ek. by apply Hab, addr_key_inj.
Qed.

Lemma counter_some a i s : info_of a s = Some i -> counter_of a s = MissedBlocksCounter i.
Proof. unfold counter_of. by intros ->. Qed.

Lemma effect_counters s s' : effect s s' -> counters s -> counters s'.
Proof.
  intros He Hs b Hb. destruct He as [Ei Eb|a i k missed offset Ha Hi Eb Ei|a i t Ha Hi Eb Ei|a i i' Ha Hi Ec _ Eb Ei|a i' Ha Hi Ec Eb Ei].
  - rewrite (bits_set_same _ _ _ Eb). unfold counter_of, info_of. rewrite Ei. by apply Hs.
  - rewrite (bits_set_same b _ _ Eb), bits_set_marked, (counter_of_insert _ _ _ _ _ Ha Hb Ei) by done. case_bool_decide as Hab; [subst b|rewrite Z.add_0_r; by apply Hs].
    cbn [MissedBlocksCounter with_window]. by rewrite <- (counter_some _ _ _ Hi), (Hs a Ha), counted_wrap.
  - rewrite (bits_set_same b _ _ Eb), bits_set_cleared, (counter_of_insert _ _ _ _ _ Ha Hb Ei) by done. case_bool_decide; [done|by apply Hs].
  - rewrite (bits_set_same _ _ _ Eb), (counter_of_insert _ _ _ _ _ Ha Hb Ei). case_bool_decide as Hab; [subst b|by apply Hs]. rewrite Ec, <- (counter_some _ _ _ Hi). by apply Hs.
  - rewrite (bits_set_same _ _ _ Eb), (counter_of_insert _ _ _ _ _ Ha Hb Ei). case_bool_decide as Hab; [subst b|by apply Hs].
    rewrite Ec, <- (Hs a Ha). unfold counter_of. by rewrite Hi.
Qed.

Lemma effects_counters s s' : rtc effect s s' -> counters s -> counters s'.
Proof. induction 1 as [|s s1 s' He _ IH]; [done|]. intros Hs. by apply IH, (effect_counters s). Qed.

Lemma bits_set_range a s : 0 <= bits_set a s <= Z.of_nat (size (sl_bits s)).
Proof.
  unfold bits_set. induction (sl_bits s) as [|k b m Hk IH] using map_ind; [rewrite map_sum_empty, map_size_empty; lia|].
  rewrite map_sum_insert_new, map_size_insert_None by done. destruct (b && _); cbn; lia.
Qed.

(** C29: The counter of missed blocks is the number of bits that are set.  From a
    store without signing infos, after any calls that succeed, whatever the
    staking keeper does, every validator's counter is the number of its bits
    that are set, as an int64; so it is that number while the store has less
    than 2^63 bits. *)
Theorem counter_is_sum authority calls s s' a i : sl_infos s = ∅ -> sl_bits s = ∅ -> Forall call_ok calls -> for_each calls (run_call authority) s = (Ok tt, s') ->
  addr_ok a -> info_of a s' = Some i ->
  MissedBlocksCounter i = wrap_i64 (bits_set a s') /\ (Z.of_nat (size (sl_bits s')) < two63 -> MissedBlocksCounter i = bits_set a s').
Proof.
  intros E1 E2 Hc E Ha Hi. assert (counters s') as Hs.
  { apply (effects_counters s); [by eapply calls_effect|]. intros b _. unfold counter_of, info_of, bits_set. by rewrite E1, E2, lookup_empty, map_sum_empty. }
  rewrite <- (counter_some _ _ _ Hi). split; [by apply Hs|]. intros Hsz. rewrite (Hs a Ha). apply wrap_i64_id. pose proof (bits_set_range a s'). unfold in_i64, two63 in *. lia.
Qed.

(** *** Tombstones *)

Definition tombstoned a s : Prop := exists i, info_of a s = Some i /\ Tombstoned i = true.

Lemma tombstoned_insert a b i i' s s' : addr_ok a -> addr_ok b -> info_of a s = Some i -> (Tombstoned i = true -> Tombstoned i' = true) ->
  sl_infos s' = <[addr_key a := i']> (sl_infos s) -> tombstoned b s -> tombstoned b s'.
Proof.
  intros Ha Hb Hi Ht E (j & Hj & Htj). unfold tombstoned, info_of. rewrite E. destruct (decide (a = b)) as [->|Hab].
  - exists i'. rewrite lookup_insert_eq. split; [done|]. apply Ht. congruence.
  - exists j. rewrite lookup_insert_ne; [done|]. intros Ek. by apply Hab, addr_key_inj.
Qed.

Lemma effect_tombstoned b s s' : addr_ok b -> effect s s' -> tombstoned b s -> tombstoned b s'.
Proof.
  intros Hb [Ei _|a i k missed offset Ha Hi _ Ei|a i t Ha Hi _ Ei|a i i' Ha Hi _ Ht _ Ei|a i' Ha Hi _ _ Ei].
  - unfold tombstoned, info_of. by rewrite Ei.
  - intros Hb'. by eapply (tombstoned_insert a b i _ s s' Ha Hb Hi); [|exact Ei|exact Hb'].
  - intros Hb'. by eapply (tombstoned_insert a b i _ s s' Ha Hb Hi); [|exact Ei|exact Hb'].
  - intros Hb'. by eapply (tombstoned_insert a b i _ s s' Ha Hb Hi); [|exact Ei|exact Hb'].
  - intros (j & Hj & Htj). exists j. split; [|done]. unfold info_of in *. rewrite Ei, lookup_insert_ne; [done|]. intros Ek. rewrite Ek in Hi. congruence.
Qed.

(** When a validator leaves jail. *)
Lemma Unjail_ok ctx v s s' : Unjail ctx v s = (Ok tt, s') -> exists val pk, sk_Validator (sl_staking s) v = Some val /\ v_ConsPubKey val = Some pk /\ v_Jailed val = true /\
  (addr_ok (PubKey_Address pk) -> forall i, info_of (PubKey_Address pk) s = Some i -> Tombstoned i = false /\ JailedUntil i <= BlockTime ctx).
Proof.
  unfold Unjail. intros E. apply bind_ok in E as (val & s0 & E0 & E). apply reads_ok in E0 as [-> ->]. destruct (sk_Validator _ v) as [val|] eqn:Ev; [|done].
  apply bind_ok in E as (d & s0 & E0 & E). apply reads_ok in E0 as [-> ->]. destruct (sk_Delegation _ v v) as [shares|]; [|done].
  apply bind_ok in E as (tk & s0 & E0 & E). apply lift_ok in E0 as [_ ->]. apply bind_ok in E as (n & s0 & E0 & E). apply or_panic_ok in E0 as [_ ->].
  destruct (n <? _); [done|]. destruct (v_Jailed val) eqn:Ej; [|done]. cbn [negb] in E. destruct (v_ConsPubKey val) as [pk|] eqn:Epk; [|done].
  exists val, pk. split_and!; [done..|]. intros Ha i Hi. rewrite (bind_run _ _ _ _ _ (get_info_run _ s Ha)), Hi in E. destruct (Tombstoned i); [done|].
  destruct (Z.ltb_spec (BlockTime ctx) (JailedUntil i)); [done|]. split; [done|lia].
Qed.

(** C30: A tombstone is forever.  No sequence of calls that succeed removes it,
    whatever the staking keeper does, and afterwards no attempt to unjail a
    validator with that consensus key succeeds. *)
Theorem tombstone_forever authority calls a s s' : Forall call_ok calls -> addr_ok a -> tombstoned a s -> for_each calls (run_call authority) s = (Ok tt, s') ->
  tombstoned a s' /\
  forall ctx v val pk s2, sk_Validator (sl_staking s') v = Some val -> v_ConsPubKey val = Some pk -> PubKey_Address pk = a -> Unjail ctx v s' <> (Ok tt, s2).
Proof.
  intros Hc Ha Ht E. assert (tombstoned a s') as Ht'.
  { apply calls_effect in E; [|done]. revert Ht. induction E as [|s s1 s' He _ IH]; [done|]. intros Ht. by apply IH, (effect_tombstoned _ s). }
  split; [done|]. intros ctx v val pk s2 Ev Epk <- Eu. apply Unjail_ok in Eu as (val' & pk' & Ev' & Epk' & _ & Hu). rewrite Ev in Ev'. injection Ev' as <-. rewrite Epk in Epk'. injection Epk' as <-.
  destruct Ht' as (i & Hi & Hti). destruct (Hu Ha i Hi) as [Hf _]. congruence.
Qed.

(** *** The ring is the last votes *)

(** How many of the last [w] votes were missed. *)
Definition misses (w : nat) (l : list bool) : Z := lsum Z.b2z (drop (length l - w) l).

Lemma lsum_snoc (l : list bool) b : lsum Z.b2z (l ++ [b]) = lsum Z.b2z l + Z.b2z b.
Proof. induction l as [|c l IH]; cbn [app]; rewrite ?lsum_cons; [lia|]. rewrite IH. lia. Qed.

Lemma misses_snoc w l b : (0 < w)%nat -> misses w (l ++ [b]) = misses w l + Z.b2z b - (if decide (length l < w)%nat then 0 else Z.b2z (default false (l !! (length l - w)%nat))).
Proof.
  intros Hw. unfold misses. rewrite length_app. cbn [length]. destruct (decide _) as [Hl|Hl].
  - rewrite !(proj2 (Nat.sub_0_le _ _)) by lia. rewrite !drop_0, lsum_snoc. lia.
  - destruct (l !! (length l - w)%nat) as [c|] eqn:Ec; [|apply lookup_ge_None in Ec; lia]. change (default false (Some c)) with c. rewrite (drop_S l c _ Ec), lsum_cons.
    replace (length l + 1 - w)%nat with (Datatypes.S (length l - w)) by lia. rewrite drop_app_le by lia. rewrite lsum_snoc. lia.
Qed.

Lemma lsum_b2z_range (l : list bool) : 0 <= lsum Z.b2z l <= Z.of_nat (length l).
Proof. induction l as [|b l IH]; [done|]. rewrite lsum_cons. cbn [length]. destruct b; cbn [Z.b2z]; lia. Qed.
Lemma misses_range w l : 0 <= misses w l <= Z.of_nat w.
Proof. unfold misses. pose proof (lsum_b2z_range (drop (length l - w) l)) as Hr. rewrite length_drop in Hr. lia. Qed.

(** The state of a validator after the votes [l] since its window began. *)
Record ring (w : nat) a (l : list bool) s : Prop := mkRing {
  r_window : window_of s = Z.of_nat w;
  r_info : exists i, info_of a s = Some i /\ IndexOffset i = Z.of_nat (length l) /\ MissedBlocksCounter i = misses w l;
  r_bits : forall j b, l !! j = Some b -> (length l <= j + w)%nat -> bit_of a (Z.of_nat (j mod w)) s = b;
  r_fresh : forall j, (length l <= j < w)%nat -> bit_of a (Z.of_nat j) s = false;
}.

Lemma ring_ext w a l s s' : sl_infos s' = sl_infos s -> sl_bits s' = sl_bits s -> sl_params s' = sl_params s -> ring w a l s -> ring w a l s'.
Proof.
  intros E1 E2 E3 [Hw Hi Hb Hf]. split.
  - unfold window_of. by rewrite E3.
  - unfold info_of. by rewrite E1.
  - unfold bit_of. rewrite E2. exact Hb.
  - unfold bit_of. rewrite E2. exact Hf.
Qed.

Lemma mod_w w j : (0 < w)%nat -> Z.of_nat w < two63 -> 0 <= Z.of_nat (j mod w) < two64.
Proof. intros Hw Hs. pose proof (Nat.mod_upper_bound j w). unfold two63, two64 in *. lia. Qed.

(** The bit a vote overwrites. *)
Lemma ring_previous w a l s i : (0 < w)%nat -> ring w a l s -> info_of a s = Some i ->
  ring_index s i = Z.of_nat (length l mod w) /\ bit_of a (ring_index s i) s = (if decide (length l < w)%nat then false else default false (l !! (length l - w)%nat)).
Proof.
  intros Hw [Ew (i' & Hi' & Eo & _) Hb Hf] Hi. rewrite Hi in Hi'. injection Hi' as <-.
  assert (ring_index s i = Z.of_nat (length l mod w)) as Ei by (unfold ring_index; rewrite Ew, Eo, Z.rem_mod_nonneg by lia; by rewrite Nat2Z.inj_mod).
  split; [done|]. rewrite Ei. destruct (decide _) as [Hl|Hl].
  - rewrite Nat.mod_small by done. apply Hf. lia.
  - destruct (l !! (length l - w)%nat) as [c|] eqn:Ec; [|apply lookup_ge_None in Ec; lia]. cbn. rewrite <- (Hb _ _ Ec) by lia. do 2 f_equal.
    replace (length l) with ((length l - w) + 1 * w)%nat at 1 by lia. by rewrite Nat.Div0.mod_add.
Qed.

Lemma counted_exact previous missed c : in_i64 (c + Z.b2z missed - Z.b2z previous) -> counted previous missed c = c + Z.b2z missed - Z.b2z previous.
Proof. destruct previous, missed; cbn [counted Z.b2z]; intros Hc; rewrite ?wrap_i64_id; try lia; unfold in_i64 in *; lia. Qed.

Lemma ring_vote w a l s i missed : addr_ok a -> (0 < w)%nat -> Z.of_nat w < two63 -> Z.of_nat (length l) + 1 < two63 -> ring w a l s -> info_of a s = Some i ->
  after_vote a missed i s = with_window (Z.of_nat (length l) + 1) (misses w (l ++ [missed])) i.
Proof.
  intros Ha Hw Hw' Hl Hr Hi. destruct (ring_previous w a l s i Hw Hr Hi) as [_ Eb]. destruct (r_info _ _ _ _ Hr) as (i' & Hi' & Eo & Ec). rewrite Hi in Hi'. injection Hi' as <-.
  unfold after_vote. rewrite Eo, Ec, Eb, wrap_i64_id by (unfold in_i64, two63 in *; lia). f_equal.
  pose proof (misses_range w (l ++ [missed])) as Hm. rewrite misses_snoc in * by done. destruct (decide _); rewrite counted_exact; cbn [Z.b2z] in *; unfold in_i64, two63 in *; lia.
Qed.

Lemma ring_snoc w a l s i missed s' : addr_ok a -> (0 < w)%nat -> Z.of_nat w < two63 -> ring w a l s -> info_of a s = Some i ->
  sl_bits s' = sl_bits (marked a (ring_index s i) missed s) -> sl_params s' = sl_params s ->
  sl_infos s' = <[addr_key a := with_window (Z.of_nat (length l) + 1) (misses w (l ++ [missed])) i]> (sl_infos s) -> ring w a (l ++ [missed]) s'.
Proof.
  intros Ha Hw Hw' Hr Hi Eb Ep Ei. destruct (ring_previous w a l s i Hw Hr Hi) as [Ek _].
  assert (forall j, (j < w)%nat -> bit_of a (Z.of_nat j) s' = if decide (j = length l mod w)%nat then missed else bit_of a (Z.of_nat j) s) as Hbit.
  { intros j Hj. unfold bit_of at 1. rewrite Eb. fold (bit_of a (Z.of_nat j) (marked a (ring_index s i) missed s)). rewrite Ek, bit_marked; [|done|done|by apply mod_w|unfold two63, two64 in *; lia].
    case_bool_decide as E1; destruct (decide (j = _)) as [E2|E2]; try done; [destruct E1; lia|]. exfalso. apply E1. split; [done|lia]. }
  destruct Hr as [Ew _ Hb Hf]. split.
  - unfold window_of. by rewrite Ep.
  - eexists. unfold info_of. rewrite Ei, lookup_insert_eq. split; [done|]. rewrite length_app. cbn. split; [lia|done].
  - intros j b Hj Hl. rewrite length_app in Hl. cbn in Hl. pose proof (Nat.mod_upper_bound j w ltac:(lia)). rewrite Hbit by done.
    destruct (decide (j = length l)) as [->|Hne].
    + rewrite decide_True by done. rewrite lookup_app_r, Nat.sub_diag in Hj by lia. by injection Hj.
    + pose proof (lookup_lt_Some _ _ _ Hj) as Hlt. rewrite length_app in Hlt. cbn in Hlt. rewrite lookup_app_l in Hj by lia. rewrite decide_False; [by apply Hb; [|lia]|].
      intros E. pose proof (Nat.div_mod_eq j w). pose proof (Nat.div_mod_eq (length l) w). assert (j / w = length l / w)%nat by nia. nia.
  - intros j Hj. rewrite length_app in Hj. cbn in Hj. rewrite Hbit by lia. rewrite Nat.mod_small, decide_False by lia. apply Hf. lia.
Qed.

(** After a punishment, or for a validator that was never seen, the window is
    empty. *)
Lemma ring_nil w a s i : window_of s = Z.of_nat w -> info_of a s = Some i -> IndexOffset i = 0 -> MissedBlocksCounter i = 0 ->
  (forall j, (j < w)%nat -> bit_of a (Z.of_nat j) s = false) -> ring w a [] s.
Proof. intros Hw Hi Eo Ec Hf. split; [done| |done|]. - by exists i. - intros j [_ Hj]. by apply Hf. Qed.

Lemma ring_bonded ctx w a s s' : addr_ok a -> window_of s = Z.of_nat w -> info_of a s = None -> (forall j, (j < w)%nat -> bit_of a (Z.of_nat j) s = false) ->
  AfterValidatorBonded ctx a s = (Ok tt, s') -> ring w a [] s'.
Proof.
  intros Ha Hw Hn Hf E. unfold AfterValidatorBonded in E. rewrite (bind_run _ _ _ _ _ (get_info_run a s Ha)), Hn, set_info_run in E by done. injection E as <-.
  eapply ring_nil; [done|unfold info_of, put_info; cbn; by rewrite lookup_insert_eq|done|done|exact Hf].
Qed.

Lemma ring_frame w b l s s' : sl_params s' = sl_params s -> info_of b s' = info_of b s -> (forall j, (j < w)%nat -> bit_of b (Z.of_nat j) s' = bit_of b (Z.of_nat j) s) -> (0 < w)%nat ->
  ring w b l s -> ring w b l s'.
Proof.
  intros Ep Ei Eb Hw [Ew Hi Hb Hf]. split.
  - unfold window_of. by rewrite Ep.
  - by rewrite Ei.
  - intros j c Hj Hl. rewrite Eb by (by apply Nat.mod_upper_bound; lia). by apply Hb.
  - intros j Hj. rewrite Eb by lia. by apply Hf.
Qed.

Lemma voted_fields ctx a missed i s : sl_infos (voted ctx a missed i s) = sl_infos s /\ sl_bits (voted ctx a missed i s) = sl_bits (marked a (ring_index s i) missed s) /\
  sl_params (voted ctx a missed i s) = sl_params s /\ sl_staking (voted ctx a missed i s) = sl_staking s.
Proof. unfold voted, noted, marked. by destruct missed, (Bool.eqb _ _). Qed.

(** The votes of other validators are not touched. *)
Lemma ring_other ctx a power signed s s' w b l lb : addr_ok a -> addr_ok b -> a <> b -> (0 < w)%nat -> Z.of_nat w < two63 -> ring w a l s ->
  HandleValidatorSignature ctx a power signed s = (Ok tt, s') -> ring w b lb s -> ring w b lb s'.
Proof.
  intros Ha Hb Hab Hw Hw' Hr E. apply handle_cases in E as [[_ ->]|(i & m & _ & Hi & _ & _ & E)]; [done| |done]. cbv zeta in E. set (missed := negb signed) in E.
  destruct (ring_previous w a l s i Hw Hr Hi) as [Ek _]. destruct (voted_fields ctx a missed i s) as (E1 & E2 & E3 & _). set (s1 := voted ctx a missed i s) in *.
  assert (forall j, (j < w)%nat -> bit_of b (Z.of_nat j) s1 = bit_of b (Z.of_nat j) s) as Hbit.
  { intros j Hj. unfold bit_of at 1. rewrite E2. fold (bit_of b (Z.of_nat j) (marked a (ring_index s i) missed s)). rewrite Ek, bit_marked; [|done|done|by apply mod_w|unfold two63, two64 in *; lia].
    by rewrite bool_decide_false by naive_solver. }
  apply bind_ok in E as (i2 & s2 & Ep & E). rewrite set_info_run in E by done. injection E as <-.
  assert (addr_key a <> addr_key b) as Hk by (intros Ek'; by apply Hab, addr_key_inj).
  assert (s2 = s1 \/ exists st events, s2 = punished a st events s1) as [->|(st & ev & ->)].
  { destruct (too_many _ _ _ _); [|injection Ep as <- <-; by left]. apply punish_cases in Ep as [[_ ->]|(t & st & ev & _ & ->)]; [by left|right; by exists st, ev|done]. }
  - apply ring_frame; [done| |exact Hbit|done]. unfold info_of, put_info. cbn. by rewrite lookup_insert_ne, E1 by done.
  - apply ring_frame; [done| | |done].
    + unfold info_of, put_info. cbn. by rewrite lookup_insert_ne, E1 by done.
    + intros j Hj. rewrite <- Hbit by done. change (bit_of b (Z.of_nat j) (put_info a i2 (punished a st ev s1))) with (bit_of b (Z.of_nat j) (cleared a s1)).
      rewrite bit_cleared by done. by rewrite bool_decide_false.
Qed.

Lemma punish_run ctx a power i s v p burned st1 st2 : addr_ok a -> sk_ValidatorByConsAddr (sl_staking s) a = Some v -> v_Jailed v = false -> sl_params s = Some p ->
  sk_Slash a (BlockHeight ctx - 2) power (p_SlashFractionDowntime p) INFRACTION_DOWNTIME (sl_staking s) = (Ok burned, st1) -> sk_Jail a st1 = (Ok tt, st2) ->
  exists events, punish ctx a power i s = (Ok (reset (BlockTime ctx + p_DowntimeJailDuration p) i), punished a st2 events s).
Proof.
  intros Ha Ev Ej Ep Es Ejl. eexists. unfold punish. rewrite (bind_run _ _ s (Some v) s) by (unfold reads; by rewrite Ev). rewrite Ej.
  rewrite (bind_run _ _ s (p_SlashFractionDowntime p) s) by (unfold SlashFractionDowntime, GetParams, bind, reads, or_panic; by rewrite Ep).
  replace (BlockHeight ctx - 1 - 1) with (BlockHeight ctx - 2) by lia. rewrite (bind_run _ _ s burned (set_staking st1 s)) by (unfold on_staking; by rewrite Es).
  erewrite (bind_run (EmitEvent _)) by reflexivity. erewrite (bind_run (on_staking _)) by (unfold on_staking; cbn [sl_staking set_staking]; by rewrite Ejl).
  assert (forall x : State S, sl_params x = Some p -> DowntimeJailDuration x = (Ok (p_DowntimeJailDuration p), x)) as Hd by (intros x Ex; unfold DowntimeJailDuration, GetParams, bind, reads; by rewrite Ex).
  erewrite (bind_run DowntimeJailDuration) by (by apply Hd).
  rewrite (bind_run _ _ _ _ _ (clear_run a _ Ha)). reflexivity.
Qed.

(** C28: A validator's window is its last votes.  With a window of [w] blocks
    that does not change, the ring of bits, the position and the counter
    represent the votes [l] since the window began: a vote is appended, and the
    validator is slashed and jailed exactly when, past its first [w] blocks, it
    missed more than [w - m] of the last [w], after which its window is empty.
    Other validators' windows are not touched. *)
Theorem vote_refines ctx a power signed w l i m v p s : addr_ok a -> (0 < w)%nat -> Z.of_nat (length l) + 1 < two63 -> ring w a l s -> sl_params s = Some p -> min_signed (Some p) = Ok m -> 0 <= m <= Z.of_nat w ->
  sk_ValidatorByConsAddr (sl_staking s) a = Some v -> v_Jailed v = false -> info_of a s = Some i -> 0 <= StartHeight i -> StartHeight i + Z.of_nat w < two63 ->
  let l' := l ++ [negb signed] in let handle := HandleValidatorSignature ctx a power signed s in
  (BlockHeight ctx <= StartHeight i + Z.of_nat w \/ misses w l' <= Z.of_nat w - m -> exists s', handle = (Ok tt, s') /\ ring w a l' s' /\ sl_staking s' = sl_staking s) /\
  (StartHeight i + Z.of_nat w < BlockHeight ctx -> Z.of_nat w - m < misses w l' ->
     forall burned st1 st2, sk_Slash a (BlockHeight ctx - 2) power (p_SlashFractionDowntime p) INFRACTION_DOWNTIME (sl_staking s) = (Ok burned, st1) -> sk_Jail a st1 = (Ok tt, st2) ->
     exists s', handle = (Ok tt, s') /\ ring w a [] s' /\ sl_staking s' = st2 /\ info_of a s' = Some (reset (BlockTime ctx + p_DowntimeJailDuration p) i)) /\
  (forall s' b lb, handle = (Ok tt, s') -> addr_ok b -> a <> b -> ring w b lb s -> ring w b lb s').
Proof.
  intros Ha Hw Hl Hr Ep Em Hm Ev Ej Hi Hs0 Hs. assert (Z.of_nat w < two63) as Hw' by lia. cbv zeta. set (missed := negb signed).
  assert (jailed_of a s = false) as Hj by (unfold jailed_of; by rewrite Ev). assert (window_of s <> 0) as Hw0 by (rewrite (r_window _ _ _ _ Hr); lia).
  assert (min_signed (sl_params s) = Ok m) as Em' by (by rewrite Ep). pose proof (handle_run ctx a power signed s i m Ha Hj Hi Hw0 Em') as E. cbv zeta in E. fold missed in E.
  pose proof (ring_vote w a l s i missed Ha Hw Hw' Hl Hr Hi) as Ei1. destruct (voted_fields ctx a missed i s) as (E1 & E2 & E3 & E4). set (s1 := voted ctx a missed i s) in *.
  assert (too_many ctx m (after_vote a missed i s) s = (StartHeight i + Z.of_nat w <? BlockHeight ctx) && (Z.of_nat w - m <? misses w (l ++ [missed]))) as Et.
  { rewrite Ei1. unfold too_many. rewrite (r_window _ _ _ _ Hr). cbn [StartHeight with_window MissedBlocksCounter]. by rewrite !wrap_i64_id by (unfold in_i64, two63 in *; lia). }
  rewrite E, Et. rewrite Ei1 in *. split; [|split].
  - intros Hno. replace (_ && _) with false.
    2: symmetry; apply andb_false_iff; destruct Hno; [left|right]; apply Z.ltb_ge; lia.
    rewrite bind_ret, set_info_run by done. eexists. split; [reflexivity|]. split; [|exact E4]. by eapply ring_snoc; [..|unfold put_info; cbn; by rewrite E1].
  - intros Hh Hc burned st1 st2 Esl Ejl. rewrite (proj2 (Z.ltb_lt _ _) Hh), (proj2 (Z.ltb_lt _ _) Hc). cbn [andb].
    destruct (punish_run ctx a power (with_window (Z.of_nat (length l) + 1) (misses w (l ++ [missed])) i) s1 v p burned st1 st2 Ha) as [ev Epu]; [by rewrite E4|done|by rewrite E3|by rewrite E4|done|].
    rewrite (bind_run _ _ _ _ _ Epu), set_info_run by done. eexists. split; [reflexivity|]. assert (forall x, info_of a (put_info a x (punished a st2 ev s1)) = Some x) as Hinfo by (intros x; unfold info_of, put_info; cbn; by rewrite lookup_insert_eq).
    split; [|split; [done|apply Hinfo]]. eapply ring_nil; [unfold window_of; cbn; rewrite E3; apply (r_window _ _ _ _ Hr)|apply Hinfo|done|done|].
    intros j Hjw. change (bit_of a (Z.of_nat j) (cleared a s1) = false). rewrite bit_cleared by done. by rewrite bool_decide_true.
  - intros s' b lb E' Hb Hab. rewrite <- Et, <- E in E'. by eapply (ring_other ctx a power signed).
Qed.
End Ring.

(** With valid parameters the least number of votes to sign exists, is at most
    the window, and is the share of it rounded to the nearest. *)
Lemma min_signed_ok `{SdkMathLaws} `{!SdkDecRound} `{!SdkDecRoundLaws} `{!SdkDecInt} `{!SdkDecIntLaws} p : Params_Validate p = Ok tt -> in_i64 (p_SignedBlocksWindow p) ->
  exists m, min_signed (Some p) = Ok m /\ 0 <= m <= p_SignedBlocksWindow p /\ 2 * Z.abs (m * dec_one - p_MinSignedPerWindow p * p_SignedBlocksWindow p) <= dec_one.
Proof.
  unfold Params_Validate, validateSignedBlocksWindow, validateMinSignedPerWindow, validate_fraction, in_i64. intros E Hw.
  destruct (Z.leb_spec (p_SignedBlocksWindow p) 0); [done|]. destruct (Z.ltb_spec (p_MinSignedPerWindow p) 0); [done|]. destruct (Z.ltb_spec dec_one (p_MinSignedPerWindow p)); [done|]. clear E.
  set (w := p_SignedBlocksWindow p) in *. set (q := p_MinSignedPerWindow p) in *. assert (0 <= q * w <= dec_one * w) as Hd by (unfold dec_one in *; nia).
  assert (q * w < 2 ^ 255 /\ 2 ^ 255 < 2 ^ 314 /\ 2 ^ 255 < 2 ^ 255 * dec_one) as (Hf & Hf1 & Hf2).
  { split; [|split; vm_compute; reflexivity]. apply Z.le_lt_trans with (dec_one * two63); [unfold dec_one in *; nia|vm_compute; reflexivity]. }
  unfold min_signed. cbn [o_panic obind]. fold q w. rewrite Dec_MulInt_fits by lia. cbn [o_panic obind]. destruct (Dec_RoundInt_fits (q * w)) as [m Em]; [lia|]. rewrite Em. cbn [o_panic obind].
  apply Dec_RoundInt_near in Em. assert (0 <= m <= w) as Hm by (unfold dec_one in *; lia). rewrite bool_decide_true by (unfold in_i64, two63 in *; lia). by exists m.
Qed.

Module slashing_toy.
#[local] Existing Instances sdkmath sdkround auth_toy.toy_keys.

(** Any prefix up to the first 1. *)
Fixpoint split_at_one (s : string) : option (string * string) :=
  match s with
  | "" => None
  | String "1" s => Some ("", s)
  | String c s => match split_at_one s with Some (p, r) => Some (String c p, r) | None => None end
  end.
#[local] Instance addresses : Bech32 := {|
  DecodeAndConvert s := match split_at_one s with Some (p, r) => Some (p, hex_decode r) | None => None end;
  ConvertAndEncode hrp bz := hrp +:+ "1" +:+ hex_encode bz;
|}.

Definition has_cons (a : string) (v : Validator) : bool := match v_ConsPubKey v with Some pk => bool_decide (PubKey_Address pk = a) | None => false end.
Definition set_jailed (b : bool) (a : string) (v : Validator) : Validator :=
  if has_cons a v then mkValidator (v_Operator v) (v_ConsPubKey v) b (v_Status v) (v_Tokens v) (v_DelegatorShares v) (v_MinSelfDelegation v) else v.
#[local] Instance validators : StakingKeeper (list Validator) := {|
  sk_Validators l := l;
  sk_Validator l op := List.find (fun v => bool_decide (v_Operator v = op)) l;
  sk_ValidatorByConsAddr l a := List.find (has_cons a) l;
  sk_Delegation l d op := match List.find (fun v => bool_decide (v_Operator v = op)) l with Some v => Some (v_DelegatorShares v) | None => None end;
  sk_Slash _ _ _ _ _ := ret 1;
  sk_Jail a := modify (fmap (set_jailed true a));
  sk_Unjail a := modify (fmap (set_jailed false a));
|}.

Definition alice : Validator := mkValidator "op" (Some (Ed25519 "a")) false Bonded 100 (100 * dec_one) 1.
Definition empty : State (list Validator) := mkState ∅ ∅ ∅ None [alice] [].
Definition params (window : Z) : Params := mkParams window (dec_one / 2) 60000000000 0 0.
Definition setup (window : Z) : list (@call (list Validator)) := [CallUpdateParams "gov" (params window); CallCreated "op"; CallBonded (mkCtx 0 0) "a"].
(** A block for each vote of [l]. *)
Fixpoint blocks (h : Z) (l : list bool) : list (@call (list Validator)) :=
  match l with [] => [] | signed :: l => CallBeginBlocker (mkCtx h h) [("a", 10, signed)] :: blocks (h + 1) l end.
Definition run (calls : list (@call (list Validator))) (s : State (list Validator)) : outcome unit * State (list Validator) := for_each calls (run_call "gov") s.

Lemma blocks_ok h l : Forall call_ok (blocks h l).
Proof. revert h. induction l as [|b l IH]; intros h; [done|]. constructor; [|apply IH]. constructor; [|done]. unfold addr_ok. cbn. lia. Qed.
Lemma setup_ok window : Forall call_ok (setup window).
Proof. unfold setup. repeat constructor; cbn; lia. Qed.

(** Missing the second and third of four blocks sets two bits. *)
Lemma counter_is_sum_witness : let s' := snd (run (setup 4 ++ blocks 1 [true; false; false; true]) empty) in
  exists i, info_of "a" s' = Some i /\ MissedBlocksCounter i = 2 /\ bits_set "a" s' = 2.
Proof.
  cbv zeta. set (calls := setup 4 ++ blocks 1 [true; false; false; true]). eexists. split; [vm_compute; reflexivity|]. split; [reflexivity|].
  destruct (counter_is_sum "gov" calls empty (snd (run calls empty)) "a" (mkSigningInfo (ConsAddress_String "a") 0 4 0 false 2)) as [_ E].
  - done.
  - done.
  - apply Forall_app. split; [apply setup_ok|apply blocks_ok].
  - vm_compute. reflexivity.
  - unfold addr_ok. cbn. lia.
  - vm_compute. reflexivity.
  - rewrite <- E; [done|]. vm_compute. reflexivity.
Defined.

(** A tombstone outlives the next blocks; the validator stays in jail. *)
Lemma tombstone_forever_witness : let s := snd (run (setup 4 ++ [CallTombstone "a"; CallJail "a"; CallJailUntil "a" 1]) empty) in let s' := snd (run (blocks 1 [true; false]) s) in
  tombstoned "a" s' /\ forall s2, Unjail (mkCtx 9 9) "op" s' <> (Ok tt, s2).
Proof.
  cbv zeta. set (s := snd (run (setup 4 ++ _) empty)). destruct (tombstone_forever "gov" (blocks 1 [true; false]) "a" s (snd (run (blocks 1 [true; false]) s))) as [Ht Hu].
  - apply blocks_ok.
  - unfold addr_ok. cbn. lia.
  - eexists. split; vm_compute; reflexivity.
  - vm_compute. reflexivity.
  - split; [exact Ht|]. intros s2. by eapply (Hu _ _ (set_jailed true "a" alice) (Ed25519 "a")); vm_compute.
Defined.

(** With a window of one block a single miss is too many. *)
Definition strict : Params := mkParams 1 dec_one 60000000000 0 0.
Definition watched : State (list Validator) := snd (run [CallUpdateParams "gov" strict; CallCreated "op"; CallBonded (mkCtx 0 0) "a"] empty).
Lemma vote_refines_witness : exists s', HandleValidatorSignature (mkCtx 5 7) "a" 10 false watched = (Ok tt, s') /\ ring 1 "a" [] s' /\ sl_staking s' = [set_jailed true "a" alice].
Proof.
  destruct (vote_refines (mkCtx 5 7) "a" 10 false 1 [] (mkSigningInfo (ConsAddress_String "a") 0 0 0 false 0) 1 alice strict watched) as (_ & Hdown & _).
  - unfold addr_ok. cbn. lia.
  - lia.
  - done.
  - eapply ring_nil; [vm_compute; reflexivity..|]. intros j _. unfold bit_of. assert (sl_bits watched = ∅) as -> by (vm_compute; reflexivity). by rewrite lookup_empty.
  - vm_compute. reflexivity.
  - vm_compute. reflexivity.
  - lia.
  - vm_compute. reflexivity.
  - done.
  - vm_compute. reflexivity.
  - done.
  - done.
  - destruct (Hdown ltac:(vm_compute; reflexivity) ltac:(vm_compute; reflexivity) 1 [alice] [set_jailed true "a" alice]) as (s' & E & Hr & Es & _).
    + vm_compute. reflexivity.
    + vm_compute. reflexivity.
    + exists s'. by split_and!.
Defined.

(** Eight misses among twenty blocks are allowed, and of the last ten blocks
    all are signed; when the window becomes ten blocks the next block, signed
    too, puts the validator in jail: the bits outside the window still count. *)
Definition votes : list bool := repeat true 10 ++ repeat false 8 ++ repeat true 12.
Example shrunk_window : let s := snd (run (setup 20 ++ blocks 1 votes ++ [CallUpdateParams "gov" (params 10)]) empty) in
  jailed_of "a" s = false /\ counter_of "a" s = 8 /\ jailed_of "a" (snd (run (blocks 31 [true]) s)) = true.
Proof. vm_compute. by split_and!. Qed.

(** The same bits are not exported: after the genesis is loaded the counter is
    two and no bit is set. *)
Example exported_counter :
  let s := snd (run (setup 20 ++ blocks 1 (repeat true 10 ++ [false; false]) ++ [CallUpdateParams "gov" (params 10)]) empty) in
  match ExportGenesis s with
  | (Ok g, _) => let s' := snd (InitGenesis g empty) in fst (InitGenesis g empty) = Ok tt /\ counter_of "a" s' = 2 /\ bits_set "a" s' = 0
  | _ => False
  end.
Proof. vm_compute. by split_and!. Qed.

Example default_genesis : (let* g := DefaultGenesisState in let* _ := ValidateGenesis g in o_panic (g_Params g)) = Ok (mkParams 100 500000000000000000 600000000000 50000000000000000 10000000000000000).
Proof. vm_compute. reflexivity. Qed.
End slashing_toy.
End slashing.
