(* ===== verification/Evidence.v ===== *)
(** Evidence: x/evidence, over Slashing.v.

    Misbehaviour that CometBFT reports is turned into equivocations, and the
    validator is slashed, jailed and tombstoned through x/slashing and
    x/staking.  The store maps hashes of equivocations, the only kind of
    evidence, to them.  The hash (tmhash of the encoding) is the class
    [EvidenceHash].  Times are nanoseconds since 1970.

    The application never sets the router of the keeper, which is [None] here
    until SetRouter.

    Theorems: what the handler does on every path; a consensus key is punished
    for equivocation at most once; the genesis round trip; messages with
    evidence. *)

From Stdlib Require Import ZArith Lia Ascii String.
From stdpp Require Import base gmap sets list strings fin_maps sorting pretty.
From S2P Require Import Prelude Sdk SdkDec Wire KVStore Coins Pagination StoreKeys Vesting Auth BankStore BankBooks Slashing.

Open Scope Z_scope.
Open Scope go_scope.

Import slashing.

Module evidence.

(** ** types/errors.go, evidence.go, params.go *)

Definition ErrNoEvidenceHandlerExists : err := Registered "evidence" 2.
Definition ErrInvalidEvidence : err := Registered "evidence" 3.
Definition ErrEvidenceExists : err := Registered "evidence" 5.

Record Equivocation : Type := mkEquivocation {
  e_Height : Z;
  e_Time : Z;
  e_Power : Z;
  e_ConsensusAddress : string;
}.

Class EvidenceHash : Type := { Hash : Equivocation -> string }.

Definition RouteEquivocation : string := "equivocation".
Definition Route (e : Equivocation) : string := RouteEquivocation.

(** Time.Unix rounds down. *)
Definition Equivocation_ValidateBasic (e : Equivocation) : outcome unit :=
  if e_Time e / 1000000000 <=? 0 then Err (Errorf "invalid equivocation time") else
  if e_Height e <? 1 then Err (Errorf "invalid equivocation height") else
  if e_Power e <? 1 then Err (Errorf "invalid equivocation validator power") else
  if bool_decide (e_ConsensusAddress e = "") then Err (Errorf "invalid equivocation validator consensus address") else Ok tt.

Definition GetConsensusAddress `{Bech32} (e : Equivocation) : string := default "" (ConsAddressFromBech32 (e_ConsensusAddress e)).

Inductive MisbehaviorType : Type := UNKNOWN | DUPLICATE_VOTE | LIGHT_CLIENT_ATTACK.
Record Misbehavior : Type := mkMisbehavior { m_Type : MisbehaviorType; m_Address : string; m_Power : Z; m_Height : Z; m_Time : Z }.

Definition FromABCIEvidence `{Bech32} (e : Misbehavior) : Equivocation :=
  mkEquivocation (m_Height e) (m_Time e) (m_Power e) (ConsAddress_String (m_Address e)).

Definition DoubleSignJailEndTime : Z := 253402300799 * 1000000000.

(** The evidence parameters of consensus; [None] where a pointer is nil. *)
Record EvidenceParams : Type := mkEvidenceParams { MaxAgeNumBlocks : Z; MaxAgeDuration : Z }.
(** Time.Sub. *)
Definition time_sub (t u : Z) : Z := Z.max (- two63) (Z.min (two63 - 1) (t - u)).

(** ** The state *)

Record State (S : Type) : Type := mkState {
  ev_slashing : slashing.State S;
  ev_evidence : gmap string Equivocation;
}.
Arguments mkState {S}.
Arguments ev_slashing {S}.
Arguments ev_evidence {S}.

(** ** types/router.go *)

Section Router.
Context {S : Type}.

Definition Handler : Type := Ctx -> Equivocation -> M (State S) unit.
Record Router : Type := mkRouter { routes : gmap string Handler; sealed : bool }.

Definition NewRouter : Router := mkRouter ∅ false.
Definition Seal (rtr : Router) : outcome Router := if sealed rtr then Panic else Ok (mkRouter (routes rtr) true).
Definition is_alphanumeric (c : ascii) : bool :=
  let n := nat_of_ascii c in ((48 <=? n) && (n <=? 57))%nat || ((65 <=? n) && (n <=? 90))%nat || ((97 <=? n) && (n <=? 122))%nat.
Fixpoint all_alphanumeric (s : string) : bool := match s with "" => true | String c s => is_alphanumeric c && all_alphanumeric s end.
Definition IsAlphaNumeric (s : string) : bool := negb (bool_decide (s = "")) && all_alphanumeric s.
Definition HasRoute (rtr : Router) (path : string) : bool := match routes rtr !! path with Some _ => true | None => false end.
Definition AddRoute (rtr : Router) (path : string) (h : Handler) : outcome Router :=
  if sealed rtr then Panic else
  if negb (IsAlphaNumeric path) then Panic else
  if HasRoute rtr path then Panic else Ok (mkRouter (<[path := h]> (routes rtr)) (sealed rtr)).
Definition GetRoute (rtr : Router) (path : string) : outcome Handler := o_panic (routes rtr !! path).

(** SetRouter of keeper/keeper.go. *)
Definition SetRouter (router : option Router) (rtr : Router) : outcome Router :=
  let* rtr := if sealed rtr then Ok rtr else Seal rtr in
  match router with Some _ => Panic | None => Ok rtr end.
End Router.
Arguments Handler S : clear implicits.
Arguments Router S : clear implicits.

Section Keeper.
Context {S : Type} `{SdkMath} `{SdkDecRound} `{Bech32} `{KeyLib} `{StakingKeeper S} `{EvidenceHash}.

Definition on_slashing {A} (c : M (slashing.State S) A) : M (State S) A := fun s => let '(r, sl) := c (ev_slashing s) in (r, mkState sl (ev_evidence s)).

(** ** keeper/keeper.go *)

Definition SetEvidence (evidence : Equivocation) : M (State S) unit := modify (fun s => mkState (ev_slashing s) (<[Hash evidence := evidence]> (ev_evidence s))).
Definition GetEvidence (hash : string) : M (State S) (option Equivocation) := reads (fun s => ev_evidence s !! hash).
Definition GetAllEvidence : M (State S) (list Equivocation) := reads (fun s => (kv_prefix_iter "" (ev_evidence s)).*2).

Definition GetEvidenceHandler (router : Router S) (evidenceRoute : string) : outcome (Handler S) :=
  if negb (HasRoute router evidenceRoute) then Err (Wrapf evidenceRoute ErrNoEvidenceHandlerExists) else GetRoute router evidenceRoute.

(** An error of the handler is kept as text only. *)
Definition SubmitEvidence (router : option (Router S)) (ctx : Ctx) (evidence : Equivocation) : M (State S) unit :=
  let! found := GetEvidence (Hash evidence) in
  match found with
  | Some _ => throw (Wrapf "evidence hash" ErrEvidenceExists)
  | None =>
      let! router := or_panic router in
      if negb (HasRoute router (Route evidence)) then throw (Wrapf (Route evidence) ErrNoEvidenceHandlerExists) else
      let! handler := lift (GetRoute router (Route evidence)) in
      map_err (fun _ => Wrapf "handler" ErrInvalidEvidence) (handler ctx evidence) ;;!
      on_slashing (EmitEvent (NewEvent "submit_evidence" [("evidence_hash", AStr (Hash evidence))])) ;;!
      SetEvidence evidence
  end.

(** ** keeper/infraction.go, abci.go *)

Definition too_old (cp : option EvidenceParams) (ageDuration ageBlocks : Z) : bool :=
  match cp with Some cp => (MaxAgeDuration cp <? ageDuration) && (MaxAgeNumBlocks cp <? ageBlocks) | None => false end.

Definition HandleEquivocationEvidence (ctx : Ctx) (cp : option EvidenceParams) (evidence : Equivocation) : M (State S) unit :=
  let consAddr := GetConsensusAddress evidence in
  let! validator := reads (fun s => sk_ValidatorByConsAddr (sl_staking (ev_slashing s)) consAddr) in
  match validator with
  | None => ret tt
  | Some validator =>
      match v_Status validator with
      | Unbonded => ret tt
      | _ =>
          let! known := if bool_decide (v_Operator validator = "") then ret true else
            let! r := try (on_slashing (GetPubkey consAddr)) in ret (match r with inl _ => true | inr _ => false end) in
          if negb known then ret tt else
          let infractionHeight := e_Height evidence in
          let ageDuration := time_sub (BlockTime ctx) (e_Time evidence) in
          let ageBlocks := wrap_i64 (BlockHeight ctx - infractionHeight) in
          if too_old cp ageDuration ageBlocks then ret tt else
          let! ok := on_slashing (HasValidatorSigningInfo consAddr) in
          if negb ok then panic else
          let! tombstoned := on_slashing (IsTombstoned consAddr) in
          if tombstoned : bool then ret tt else
          let distributionHeight := wrap_i64 (infractionHeight - 1) in
          let! fraction := on_slashing SlashFractionDoubleSign in
          on_slashing (SlashWithInfractionReason consAddr fraction (e_Power evidence) distributionHeight INFRACTION_DOUBLE_SIGN) ;;!
          (if negb (v_Jailed validator) then on_slashing (Jail consAddr) else ret tt) ;;!
          on_slashing (JailUntil consAddr DoubleSignJailEndTime) ;;!
          on_slashing (Tombstone consAddr) ;;!
          SetEvidence evidence
      end
  end.

Definition handle_misbehavior (ctx : Ctx) (cp : option EvidenceParams) (tmEvidence : Misbehavior) : M (State S) unit :=
  match m_Type tmEvidence with
  | DUPLICATE_VOTE | LIGHT_CLIENT_ATTACK => HandleEquivocationEvidence ctx cp (FromABCIEvidence tmEvidence)
  | UNKNOWN => ret tt
  end.
Definition BeginBlocker (ctx : Ctx) (cp : option EvidenceParams) (byzantineValidators : list Misbehavior) : M (State S) unit :=
  for_each byzantineValidators (handle_misbehavior ctx cp).

(** ** types/msgs.go, keeper/msg_server.go

    [None] for evidence that cannot be unpacked. *)

Definition MsgSubmitEvidence_ValidateBasic (submitter : string) (evidence : option Equivocation) : outcome unit :=
  match AccAddressFromBech32 submitter with
  | None => Err (Wrapf "invalid submitter address" bank.ErrInvalidAddress)
  | Some _ => match evidence with None => Err (Wrapf "missing evidence" ErrInvalidEvidence) | Some evi => Equivocation_ValidateBasic evi end
  end.
Definition msg_SubmitEvidence (router : option (Router S)) (ctx : Ctx) (evidence : option Equivocation) : M (State S) string :=
  let! evidence := or_panic evidence in
  SubmitEvidence router ctx evidence ;;!
  ret (Hash evidence).

(** ** types/genesis.go, genesis.go *)

Definition GenesisState : Type := list (option Equivocation).
Definition NewGenesisState (e : list Equivocation) : GenesisState := Some <$> e.
Definition DefaultGenesisState : GenesisState := [].

Fixpoint GenesisState_Validate (gs : GenesisState) : outcome unit :=
  match gs with
  | [] => Ok tt
  | None :: _ => Err (Errorf "expected evidence")
  | Some evi :: gs => let* _ := Equivocation_ValidateBasic evi in GenesisState_Validate gs
  end.

Definition init_evidence (e : option Equivocation) : M (State S) unit :=
  let! evi := or_panic e in
  let! found := GetEvidence (Hash evi) in
  match found with Some _ => panic | None => SetEvidence evi end.
Definition InitGenesis (gs : GenesisState) : M (State S) unit :=
  must (lift (GenesisState_Validate gs)) ;;!
  for_each gs init_evidence.
Definition ExportGenesis : M (State S) GenesisState := let! e := GetAllEvidence in ret (NewGenesisState e).

(** ** keeper/grpc_query.go: the requests are the hash in hexadecimal, and the
    page. *)

Definition query_Evidence (req : option string) : M (State S) Equivocation :=
  match req with
  | None => throw (Wrapf "empty request" (Registered "grpc" 3))
  | Some hash =>
      if bool_decide (hash = "") then throw (Wrapf "invalid request; hash is empty" (Registered "grpc" 3)) else
      match hex.DecodeString hash with
      | None => throw (Errorf "invalid evidence hash")
      | Some decodedHash =>
          let! evidence := GetEvidence decodedHash in
          match evidence with None => throw (Wrapf "evidence not found" (Registered "grpc" 5)) | Some evidence => ret evidence end
      end
  end.
Definition AllEvidence (req : option (option PageRequest)) : M (State S) (list Equivocation * PageResponse) :=
  match req with
  | None => throw (Wrapf "empty request" (Registered "grpc" 3))
  | Some pagination => fun s =>
      match Paginate (fun _ evidence => modify (fun l => l ++ [evidence])) pagination (ev_evidence s, []) with
      | (Ok res, (_, l)) => (Ok (l, res), s)
      | (Err e, _) => (Err e, s)
      | (Panic, _) => (Panic, s)
      end
  end.
End Keeper.

(** ** Theorems *)

Section Theorems.
Context {S : Type} `{SdkMath} `{SdkDecRound} `{Bech32} `{KeyLib} `{StakingKeeper S} `{EvidenceHash}.
Implicit Types (s : State S) (a : string).

Lemma on_slashing_run {A} (c : M (slashing.State S) A) s x sl : c (ev_slashing s) = (Ok x, sl) -> on_slashing c s = (Ok x, mkState sl (ev_evidence s)).
Proof. intros E. unfold on_slashing. by rewrite E. Qed.
Lemma on_slashing_same {A} (c : M (slashing.State S) A) s x : c (ev_slashing s) = (Ok x, ev_slashing s) -> on_slashing c s = (Ok x, s).
Proof. intros E. rewrite (on_slashing_run _ _ _ _ E). by destruct s. Qed.
Lemma on_slashing_ok {A} (c : M (slashing.State S) A) s x s' : on_slashing c s = (Ok x, s') -> exists sl, c (ev_slashing s) = (Ok x, sl) /\ s' = mkState sl (ev_evidence s).
Proof. unfold on_slashing. destruct (c (ev_slashing s)) as [r sl]. intros [= -> <-]. by exists sl. Qed.

Lemma has_info_run a (sl : slashing.State S) : addr_ok a -> HasValidatorSigningInfo a sl = (Ok (match info_of a sl with Some _ => true | None => false end), sl).
Proof. intros Ha. unfold HasValidatorSigningInfo. by rewrite (bind_run _ _ _ _ _ (get_info_run a sl Ha)). Qed.
Lemma is_tombstoned_run a (sl : slashing.State S) : addr_ok a -> IsTombstoned a sl = (Ok (from_option Tombstoned false (info_of a sl)), sl).
Proof. intros Ha. unfold IsTombstoned. by rewrite (bind_run _ _ _ _ _ (get_info_run a sl Ha)). Qed.

(** The public key of the validator is known, or it has no operator. *)
Definition key_known a (v : Validator) s : bool :=
  bool_decide (v_Operator v = "") || match sl_pubkeys (ev_slashing s) !! addr_key a with Some _ => true | None => false end.
Definition evidence_old (ctx : Ctx) (cp : option EvidenceParams) (e : Equivocation) : bool :=
  too_old cp (time_sub (BlockTime ctx) (e_Time e)) (wrap_i64 (BlockHeight ctx - e_Height e)).

(** What remains once the evidence is not ignored early. *)
Definition decide_punishment (v : Validator) (e : Equivocation) : M (State S) unit :=
  let a := GetConsensusAddress e in
  let! ok := on_slashing (HasValidatorSigningInfo a) in
  if negb ok then panic else
  let! tombstoned := on_slashing (IsTombstoned a) in
  if tombstoned : bool then ret tt else
  let! fraction := on_slashing SlashFractionDoubleSign in
  on_slashing (SlashWithInfractionReason a fraction (e_Power e) (wrap_i64 (e_Height e - 1)) INFRACTION_DOUBLE_SIGN) ;;!
  (if negb (v_Jailed v) then on_slashing (Jail a) else ret tt) ;;!
  on_slashing (JailUntil a DoubleSignJailEndTime) ;;!
  on_slashing (Tombstone a) ;;!
  SetEvidence e.

Lemma known_run a v s : addr_ok a ->
  (if bool_decide (v_Operator v = "") then ret true else let! r := try (on_slashing (GetPubkey a)) in ret (match r with inl _ => true | inr _ => false end)) s = (Ok (key_known a v s), s).
Proof.
  intros Ha. unfold key_known. case_bool_decide; [done|]. unfold GetPubkey, AddrPubkeyRelationKey, bind, try, on_slashing, lift. rewrite addr_key_run by done. cbn.
  destruct (sl_pubkeys (ev_slashing s) !! addr_key a); by destruct s.
Qed.

Lemma handle_evidence_run ctx cp e v s : addr_ok (GetConsensusAddress e) -> sk_ValidatorByConsAddr (sl_staking (ev_slashing s)) (GetConsensusAddress e) = Some v -> v_Status v <> Unbonded ->
  key_known (GetConsensusAddress e) v s = true -> evidence_old ctx cp e = false -> HandleEquivocationEvidence ctx cp e s = decide_punishment v e s.
Proof.
  intros Ha Ev Hu Hk Ho. unfold HandleEquivocationEvidence. cbv zeta. rewrite (bind_run _ _ s (Some v) s) by (unfold reads; by rewrite Ev).
  destruct (v_Status v); try done; rewrite (bind_run _ _ _ _ _ (known_run _ v s Ha)), Hk; cbn [negb]; unfold evidence_old in Ho; by rewrite Ho.
Qed.

(** Evidence that is dropped before x/slashing is asked. *)
Lemma handle_early ctx cp e s : addr_ok (GetConsensusAddress e) ->
  match sk_ValidatorByConsAddr (sl_staking (ev_slashing s)) (GetConsensusAddress e) with
  | None => True
  | Some v => v_Status v = Unbonded \/ key_known (GetConsensusAddress e) v s = false \/ evidence_old ctx cp e = true
  end -> HandleEquivocationEvidence ctx cp e s = (Ok tt, s).
Proof.
  intros Ha Hc. unfold HandleEquivocationEvidence. cbv zeta. rewrite (bind_run _ _ s (sk_ValidatorByConsAddr (sl_staking (ev_slashing s)) (GetConsensusAddress e)) s) by done.
  destruct (sk_ValidatorByConsAddr _ _) as [v|]; [|done]. destruct (v_Status v) eqn:Eu; [|done|..]; destruct Hc as [Hc|Hc]; try done;
    rewrite (bind_run _ _ _ _ _ (known_run _ v s Ha)); destruct (key_known _ v s); try done; destruct Hc as [Hc|Hc]; try done; unfold evidence_old in Hc; cbn [negb]; by rewrite Hc.
Qed.

Lemma handle_tombstoned ctx cp e s : addr_ok (GetConsensusAddress e) -> tombstoned (GetConsensusAddress e) (ev_slashing s) -> HandleEquivocationEvidence ctx cp e s = (Ok tt, s).
Proof.
  intros Ha (i & Hi & Ht). destruct (sk_ValidatorByConsAddr (sl_staking (ev_slashing s)) (GetConsensusAddress e)) as [v|] eqn:Ev; [|apply handle_early; [done|by rewrite Ev]].
  destruct (v_Status v) eqn:Eu; [|apply handle_early; [done|rewrite Ev; by left]|..].
  all: destruct (key_known (GetConsensusAddress e) v s) eqn:Ek; [|apply handle_early; [done|rewrite Ev; by right; left]].
  all: destruct (evidence_old ctx cp e) eqn:Eo; [apply handle_early; [done|rewrite Ev; by right; right]|].
  all: rewrite (handle_evidence_run _ _ _ v) by congruence; unfold decide_punishment; cbv zeta; erewrite bind_run by (apply on_slashing_same, has_info_run, Ha); rewrite Hi; cbn [negb];
    erewrite bind_run by (apply on_slashing_same, is_tombstoned_run, Ha); rewrite Hi; cbn [from_option]; by rewrite Ht.
Qed.

(** *** The punishment *)

Lemma slash_run a fraction power h infraction (sl : slashing.State S) burned st : sk_Slash a h power fraction infraction (sl_staking sl) = (Ok burned, st) ->
  exists sl', SlashWithInfractionReason a fraction power h infraction sl = (Ok tt, sl') /\ sl_infos sl' = sl_infos sl /\ sl_bits sl' = sl_bits sl /\ sl_params sl' = sl_params sl /\ sl_pubkeys sl' = sl_pubkeys sl /\ sl_staking sl' = st.
Proof. intros E. eexists. unfold SlashWithInfractionReason, bind, on_staking. rewrite E. by split_and!. Qed.
Lemma jail_run a (sl : slashing.State S) st : sk_Jail a (sl_staking sl) = (Ok tt, st) ->
  exists sl', Jail a sl = (Ok tt, sl') /\ sl_infos sl' = sl_infos sl /\ sl_bits sl' = sl_bits sl /\ sl_params sl' = sl_params sl /\ sl_pubkeys sl' = sl_pubkeys sl /\ sl_staking sl' = st.
Proof. intros E. eexists. unfold Jail, bind, on_staking. rewrite E. by split_and!. Qed.
Lemma jail_until_run a t i (sl : slashing.State S) : addr_ok a -> info_of a sl = Some i -> JailUntil a t sl = (Ok tt, put_info a (with_jailed_until t i) sl).
Proof. intros Ha Hi. unfold JailUntil. rewrite (bind_run _ _ _ _ _ (get_info_run a sl Ha)), Hi. cbn [or_panic]. by rewrite bind_ret, set_info_run. Qed.
Lemma tombstone_run a i (sl : slashing.State S) : addr_ok a -> info_of a sl = Some i -> Tombstoned i = false -> Tombstone a sl = (Ok tt, put_info a (with_tombstone i) sl).
Proof. intros Ha Hi Ht. unfold Tombstone. rewrite (bind_run _ _ _ _ _ (get_info_run a sl Ha)), Hi. cbn [or_panic]. by rewrite bind_ret, Ht, set_info_run. Qed.

(** What evidence of a double sign does.  It is ignored when there is no such
    validator, or it is unbonded, has an operator but no known key, the
    evidence is too old, or the validator is tombstoned.  Otherwise the
    validator is slashed by the fraction for double signs at the height before
    the infraction, jailed unless it is, kept in jail until the end of time,
    tombstoned, and the evidence is stored; the missed blocks stay. *)
Theorem equivocation_effect ctx cp e s : let a := GetConsensusAddress e in addr_ok a ->
  match sk_ValidatorByConsAddr (sl_staking (ev_slashing s)) a with
  | None => HandleEquivocationEvidence ctx cp e s = (Ok tt, s)
  | Some v =>
      (v_Status v = Unbonded \/ key_known a v s = false \/ evidence_old ctx cp e = true \/ tombstoned a (ev_slashing s) -> HandleEquivocationEvidence ctx cp e s = (Ok tt, s)) /\
      (v_Status v <> Unbonded -> key_known a v s = true -> evidence_old ctx cp e = false -> forall i p burned st1 st2, info_of a (ev_slashing s) = Some i -> Tombstoned i = false -> sl_params (ev_slashing s) = Some p ->
         sk_Slash a (wrap_i64 (e_Height e - 1)) (e_Power e) (p_SlashFractionDoubleSign p) INFRACTION_DOUBLE_SIGN (sl_staking (ev_slashing s)) = (Ok burned, st1) ->
         (if v_Jailed v then st2 = st1 else sk_Jail a st1 = (Ok tt, st2)) ->
         exists s', HandleEquivocationEvidence ctx cp e s = (Ok tt, s') /\ ev_evidence s' = <[Hash e := e]> (ev_evidence s) /\ sl_staking (ev_slashing s') = st2 /\
           sl_bits (ev_slashing s') = sl_bits (ev_slashing s) /\ sl_infos (ev_slashing s') = <[addr_key a := with_tombstone (with_jailed_until DoubleSignJailEndTime i)]> (sl_infos (ev_slashing s)))
  end.
Proof.
  cbv zeta. intros Ha. destruct (sk_ValidatorByConsAddr _ _) as [v|] eqn:Ev; [|apply handle_early; [done|by rewrite Ev]]. split.
  { intros [Hc|[Hc|[Hc|Hc]]]; [..|by apply handle_tombstoned]; (apply handle_early; [done|]); rewrite Ev; tauto. }
  intros Hu Hk Ho i p burned st1 st2 Hi Ht Ep Es Ej. rewrite (handle_evidence_run _ _ _ v) by done. unfold decide_punishment. cbv zeta.
  erewrite bind_run by (apply on_slashing_same, has_info_run, Ha). rewrite Hi. cbn [negb]. erewrite bind_run by (apply on_slashing_same, is_tombstoned_run, Ha). rewrite Hi. cbn [from_option]. rewrite Ht.
  rewrite (bind_run _ _ s (p_SlashFractionDoubleSign p) s) by (apply on_slashing_same; unfold SlashFractionDoubleSign, GetParams, bind, reads, or_panic; by rewrite Ep).
  destruct (slash_run _ _ _ _ _ _ _ _ Es) as (sl1 & E1 & Ei1 & Eb1 & _ & _ & Est1). rewrite (bind_run _ _ _ _ _ (on_slashing_run _ _ _ _ E1)).
  assert (exists sl2, (if negb (v_Jailed v) then on_slashing (Jail (GetConsensusAddress e)) else ret tt) (mkState sl1 (ev_evidence s)) = (Ok tt, mkState sl2 (ev_evidence s)) /\
    sl_infos sl2 = sl_infos (ev_slashing s) /\ sl_bits sl2 = sl_bits (ev_slashing s) /\ sl_staking sl2 = st2) as (sl2 & E2 & Ei2 & Eb2 & Est2).
  { destruct (v_Jailed v); cbn [negb]; [exists sl1; split_and!; [done..|congruence]|]. rewrite <- Est1 in Ej. destruct (jail_run _ _ _ Ej) as (sl2 & E2 & Ei2 & Eb2 & _ & _ & Est2).
    exists sl2. split_and!; [exact (on_slashing_run _ (mkState sl1 (ev_evidence s)) _ _ E2)|congruence..]. }
  rewrite (bind_run _ _ _ _ _ E2). assert (info_of (GetConsensusAddress e) sl2 = Some i) as Hi2 by (unfold info_of; by rewrite Ei2).
  erewrite bind_run by (apply on_slashing_run; cbn [ev_slashing]; by apply jail_until_run). cbn [ev_evidence].
  erewrite bind_run by (apply on_slashing_run; cbn [ev_slashing]; apply (tombstone_run _ (with_jailed_until DoubleSignJailEndTime i)); [done|unfold info_of, put_info; cbn; by rewrite lookup_insert_eq|done]).
  eexists. split; [reflexivity|]. cbn. rewrite Ei2, Eb2, insert_insert_eq. by split_and!.
Qed.

(** *** Once *)

Lemma decide_inv v e s s' : addr_ok (GetConsensusAddress e) -> decide_punishment v e s = (Ok tt, s') ->
  s' = s \/ exists sl', rtc effect (ev_slashing s) sl' /\ tombstoned (GetConsensusAddress e) sl' /\ s' = mkState sl' (<[Hash e := e]> (ev_evidence s)).
Proof.
  intros Ha E. unfold decide_punishment in E. cbv zeta in E. set (a := GetConsensusAddress e) in *.
  rewrite (bind_run _ _ _ _ _ (on_slashing_same _ _ _ (has_info_run a _ Ha))) in E. destruct (negb _); [done|].
  rewrite (bind_run _ _ _ _ _ (on_slashing_same _ _ _ (is_tombstoned_run a _ Ha))) in E. destruct (from_option _ _ _); [injection E as <-; by left|]. right.
  apply bind_ok in E as (fr & s0 & E0 & E). apply on_slashing_ok in E0 as (sl0 & E0 & ->).
  assert (sl0 = ev_slashing s) as -> by (unfold SlashFractionDoubleSign, GetParams in E0; inv_go; done).
  apply bind_ok in E as ([] & s1 & E1 & E). apply on_slashing_ok in E1 as (sl1 & E1 & ->). apply (call_effect "" (CallSlash a _ _ _ _)) in E1; [|done].
  apply bind_ok in E as ([] & s2 & E2 & E). assert (exists sl2, rtc effect sl1 sl2 /\ s2 = mkState sl2 (ev_evidence s)) as (sl2 & Hr2 & ->).
  { destruct (negb (v_Jailed v)); [|injection E2 as <-; by exists sl1]. apply on_slashing_ok in E2 as (sl2 & E2 & ->). apply (call_effect "" (CallJail a)) in E2; [|done]. by exists sl2. }
  apply bind_ok in E as ([] & s3 & E3 & E). apply on_slashing_ok in E3 as (sl3 & E3 & ->). apply (call_effect "" (CallJailUntil a _)) in E3; [|done].
  apply bind_ok in E as ([] & s4 & E4 & E). apply on_slashing_ok in E4 as (sl4 & E4 & ->). pose proof (call_effect "" (CallTombstone a) _ _ Ha E4) as Hr4.
  unfold SetEvidence in E. apply modify_ok in E as ->. exists sl4. cbn [ev_slashing ev_evidence] in *. split_and!; [etrans; [exact E1|etrans; [exact Hr2|etrans; [exact E3|exact Hr4]]]| |done].
  clear E2. unfold Tombstone in E4. rewrite (bind_run _ _ _ _ _ (get_info_run a _ Ha)) in E4. inv_go. rewrite set_info_run in * by done. simplify_eq.
  eexists. unfold info_of, put_info. cbn. rewrite lookup_insert_eq. by split.
Qed.

Lemma handle_evidence_inv ctx cp e s s' : addr_ok (GetConsensusAddress e) -> HandleEquivocationEvidence ctx cp e s = (Ok tt, s') ->
  s' = s \/ (~ tombstoned (GetConsensusAddress e) (ev_slashing s) /\
    exists sl', rtc effect (ev_slashing s) sl' /\ tombstoned (GetConsensusAddress e) sl' /\ s' = mkState sl' (<[Hash e := e]> (ev_evidence s))).
Proof.
  intros Ha E. destruct (sk_ValidatorByConsAddr (sl_staking (ev_slashing s)) (GetConsensusAddress e)) as [v|] eqn:Ev.
  2: left; rewrite handle_early in E by (by rewrite ?Ev); by injection E.
  destruct (decide (v_Status v = Unbonded)); [left; rewrite handle_early in E by (rewrite ?Ev; tauto); by injection E|].
  destruct (key_known (GetConsensusAddress e) v s) eqn:Ek; [|left; rewrite handle_early in E by (rewrite ?Ev; tauto); by injection E].
  destruct (evidence_old ctx cp e) eqn:Eo; [left; rewrite handle_early in E by (rewrite ?Ev; tauto); by injection E|].
  pose proof E as E'. rewrite (handle_evidence_run _ _ _ v) in E' by done. apply decide_inv in E' as [->|E']; [by left| |done].
  destruct (info_of (GetConsensusAddress e) (ev_slashing s)) as [i|] eqn:Ei.
  - destruct (Tombstoned i) eqn:Et; [left; rewrite handle_tombstoned in E by (done || by exists i); by injection E|].
    right. split; [|done]. intros (j & Hj & Htj). congruence.
  - right. split; [|done]. intros (j & Hj & _). congruence.
Qed.

(** The calls: those of x/slashing, blocks with misbehaviour, and messages with
    evidence to a keeper whose router was never set. *)
Inductive call : Type :=
| CallSlashing (c : @slashing.call S)
| CallEvidence (ctx : Ctx) (cp : option EvidenceParams) (byzantineValidators : list Misbehavior)
| CallSubmit (ctx : Ctx) (evidence : option Equivocation).
Definition run_call (authority : string) (c : call) : M (State S) unit :=
  match c with
  | CallSlashing c => on_slashing (slashing.run_call authority c)
  | CallEvidence ctx cp l => BeginBlocker ctx cp l
  | CallSubmit ctx e => msg_SubmitEvidence None ctx e ;;! ret tt
  end.
(** The addresses of validators can be written and read. *)
Definition call_ok (c : call) : Prop :=
  match c with
  | CallSlashing c => slashing.call_ok c
  | CallEvidence _ _ l => Forall (fun m => addr_ok (GetConsensusAddress (FromABCIEvidence m))) l
  | CallSubmit _ _ => True
  end.

(** A message with evidence never succeeds in an application that has not set
    the router. *)
Lemma submit_never ctx e s : exists r, msg_SubmitEvidence None ctx e s = (r, s) /\ forall x, r <> Ok x.
Proof.
  unfold msg_SubmitEvidence, SubmitEvidence, GetEvidence. destruct e as [e|]; [|by exists Panic]. cbn [or_panic]. rewrite bind_ret. unfold bind, reads.
  destruct (ev_evidence s !! Hash e) as [e'|]; [by eexists|]. by exists Panic.
Qed.

(** The stored evidence: one entry for each key that was punished. *)
Definition once s : Prop :=
  (forall h e, ev_evidence s !! h = Some e -> addr_ok (GetConsensusAddress e) /\ tombstoned (GetConsensusAddress e) (ev_slashing s)) /\
  (forall h h' e e', ev_evidence s !! h = Some e -> ev_evidence s !! h' = Some e' -> GetConsensusAddress e = GetConsensusAddress e' -> h = h').

Lemma effects_tombstoned b (sl sl' : slashing.State S) : addr_ok b -> rtc effect sl sl' -> tombstoned b sl -> tombstoned b sl'.
Proof. intros Hb. induction 1 as [|sl sl1 sl' He _ IH]; [done|]. intros Ht. by apply IH, (effect_tombstoned b sl). Qed.

Lemma once_effects s sl' : once s -> rtc effect (ev_slashing s) sl' -> once (mkState sl' (ev_evidence s)).
Proof.
  intros [Hd Hu] Hr. split; [|exact Hu]. intros h e He. destruct (Hd h e He) as [Ha Ht]. split; [done|]. by eapply effects_tombstoned.
Qed.

Lemma once_handle ctx cp e s s' : addr_ok (GetConsensusAddress e) -> HandleEquivocationEvidence ctx cp e s = (Ok tt, s') -> once s -> once s'.
Proof.
  intros Ha E Hs. apply handle_evidence_inv in E as [->|(Hnt & sl' & Hr & Ht & ->)]; [done| |done]. destruct (once_effects _ _ Hs Hr) as [Hd Hu]. cbn [ev_slashing ev_evidence] in *.
  assert (forall h e', ev_evidence s !! h = Some e' -> GetConsensusAddress e' <> GetConsensusAddress e) as Hno.
  { intros h e' He' Eq. apply Hnt. rewrite <- Eq. by apply (proj1 Hs h). }
  split; cbn [ev_slashing ev_evidence].
  - intros h e' [[<- <-]|[_ He']]%lookup_insert_Some; [done|by apply (Hd h)].
  - intros h h' e1 e2 [[<- <-]|[_ He1]]%lookup_insert_Some [[<- <-]|[_ He2]]%lookup_insert_Some Eq; [done|..|by eapply Hu].
    + by destruct (Hno _ _ He2).
    + by destruct (Hno _ _ He1).
Qed.

Lemma once_call authority c s s' : call_ok c -> run_call authority c s = (Ok tt, s') -> once s -> once s'.
Proof.
  intros Hc E Hs. destruct c as [c|ctx cp l|ctx e]; cbn [run_call call_ok] in *.
  - apply on_slashing_ok in E as (sl' & E & ->). eapply once_effects; [done|]. by eapply slashing.call_effect.
  - revert s E Hs. unfold BeginBlocker. induction l as [|m l IH]; intros s E Hs; [by injection E as <-|]. apply Forall_cons in Hc as [Hm Hc].
    cbn [for_each] in E. apply bind_ok in E as ([] & s1 & E1 & E). apply (IH Hc s1 E). unfold handle_misbehavior in E1. destruct (m_Type m); [by injection E1 as <-|by eapply once_handle..].
  - apply bind_ok in E as (h & s1 & E1 & _). destruct (submit_never ctx e s) as (r & Er & Hr). rewrite Er in E1. injection E1 as Er' _. by destruct (Hr h).
Qed.

(** C31: A consensus key is punished for equivocation once.  From a state without
    evidence, after any calls that succeed, whatever the staking keeper does:
    every key has at most one equivocation stored, its validator is tombstoned,
    and further evidence against the key changes nothing. *)
Theorem double_sign_once authority calls s s' : ev_evidence s = ∅ -> Forall call_ok calls -> for_each calls (run_call authority) s = (Ok tt, s') ->
  forall h e, ev_evidence s' !! h = Some e -> tombstoned (GetConsensusAddress e) (ev_slashing s') /\
    (forall h' e', ev_evidence s' !! h' = Some e' -> GetConsensusAddress e' = GetConsensusAddress e -> h' = h /\ e' = e) /\
    (forall ctx cp e', GetConsensusAddress e' = GetConsensusAddress e -> HandleEquivocationEvidence ctx cp e' s' = (Ok tt, s')).
Proof.
  intros E0 Hc E h e He. assert (once s') as [Hd Hu].
  { assert (once s) as Hs by (split; intros *; rewrite E0, lookup_empty; discriminate). clear E0 He. revert s E Hs. induction calls as [|c calls IH]; intros s E Hs; [by injection E as <-|].
    apply Forall_cons in Hc as [Hc1 Hc]. cbn [for_each] in E. apply bind_ok in E as ([] & s1 & E1 & E). apply (IH Hc s1 E). by eapply once_call. }
  destruct (Hd h e He) as [Ha Ht]. split; [done|]. split.
  - intros h' e' He' Eq. assert (h' = h) as -> by (by eapply Hu). split; [done|congruence].
  - intros ctx cp e' Eq. apply handle_tombstoned; by rewrite Eq.
Qed.

(** *** The genesis *)

Lemma validate_all l : Forall (fun e => Equivocation_ValidateBasic e = Ok tt) l -> GenesisState_Validate (NewGenesisState l) = Ok tt.
Proof. induction 1 as [|e l He _ IH]; [done|]. cbn. by rewrite He. Qed.

Lemma init_evidence_run l s : NoDup (Hash <$> l) -> (forall e, e ∈ l -> ev_evidence s !! Hash e = None) ->
  for_each (NewGenesisState l) init_evidence s = (Ok tt, mkState (ev_slashing s) (foldl (fun m e => <[Hash e := e]> m) (ev_evidence s) l)).
Proof.
  revert s. induction l as [|e l IH]; intros s Hnd Hn; [by destruct s|]. apply NoDup_cons in Hnd as [He Hnd]. cbn [NewGenesisState fmap list_fmap for_each].
  assert (init_evidence (Some e) s = (Ok tt, mkState (ev_slashing s) (<[Hash e := e]> (ev_evidence s)))) as E.
  { unfold init_evidence, GetEvidence. cbn [or_panic]. rewrite bind_ret. unfold bind, reads. by rewrite (Hn e) by left. }
  rewrite (bind_run _ _ _ _ _ E). change (list_fmap _ _ Some l) with (NewGenesisState l). rewrite IH; [done|done|]. intros e' He'. cbn. rewrite lookup_insert_ne; [by apply Hn; right|].
  intros Eh. apply He. rewrite Eh. by apply list_elem_of_fmap_2.
Qed.

(** The genesis round trip.  When the evidence is stored under its hashes and
    valid, exporting it gives a valid genesis, which restores it. *)
Theorem evidence_genesis_roundtrip s s0 : (forall h e, ev_evidence s !! h = Some e -> h = Hash e /\ Equivocation_ValidateBasic e = Ok tt) -> ev_evidence s0 = ∅ ->
  exists gs, ExportGenesis s = (Ok gs, s) /\ GenesisState_Validate gs = Ok tt /\ InitGenesis gs s0 = (Ok tt, mkState (ev_slashing s0) (ev_evidence s)).
Proof.
  intros Hs E0. set (l := (kv_prefix_iter "" (ev_evidence s)).*2). exists (NewGenesisState l).
  assert (Hin : forall e, e ∈ l <-> ev_evidence s !! Hash e = Some e).
  { intros e. unfold l. rewrite list_elem_of_fmap. split.
    - intros ([h e'] & -> & Hh). apply elem_of_kv_prefix_iter in Hh as [Hh _]. cbn in *. by destruct (Hs _ _ Hh) as [<- _].
    - intros He. exists (Hash e, e). split; [done|]. apply elem_of_kv_prefix_iter. split; [done|by destruct (Hash e)]. }
  assert (Hash <$> l = (kv_prefix_iter "" (ev_evidence s)).*1) as Ek.
  { unfold l. rewrite <- list_fmap_compose. apply list_fmap_ext. intros n [h e] Hx%list_elem_of_lookup_2. apply elem_of_kv_prefix_iter in Hx as [Hx _]. cbn. by destruct (Hs _ _ Hx) as [-> _]. }
  assert (GenesisState_Validate (NewGenesisState l) = Ok tt) as Ev by (apply validate_all, Forall_forall; intros e He%Hin; by apply (Hs (Hash e))).
  split; [done|]. split; [done|]. unfold InitGenesis. rewrite (bind_run _ _ s0 tt s0) by (unfold must, lift; by rewrite Ev).
  assert (NoDup (Hash <$> l)) as Hnd by (rewrite Ek; apply NoDup_kv_prefix_iter). rewrite init_evidence_run by (done || (intros e _; by rewrite E0, lookup_empty)). do 2 f_equal. rewrite E0.
  destruct (foldl_insert_spec Hash id l ∅ Hnd) as [F1 F2]. apply map_eq. intros h. destruct (ev_evidence s !! h) as [e|] eqn:Eh.
  - destruct (Hs h e Eh) as [-> _]. by apply F1, Hin.
  - rewrite F2; [apply lookup_empty|]. intros e He%Hin ->. congruence.
Qed.
End Theorems.

Module evidence_toy.
#[local] Existing Instances sdkmath sdkround auth_toy.toy_keys slashing_toy.addresses slashing_toy.validators.
Import slashing_toy.
#[local] Instance toy_hash : EvidenceHash := {| Hash e := pretty (e_Height e) +:+ "/" +:+ e_ConsensusAddress e |}.

Definition nothing : State (list Validator) := mkState empty ∅.
Definition double (h : Z) : Misbehavior := mkMisbehavior DUPLICATE_VOTE "a" 10 h (h * 1000000000).
Lemma double_address h : GetConsensusAddress (FromABCIEvidence (double h)) = "a".
Proof. vm_compute. reflexivity. Qed.
Lemma double_ok h : addr_ok (GetConsensusAddress (FromABCIEvidence (double h))).
Proof. rewrite double_address. unfold addr_ok. cbn. lia. Qed.

Definition limits : option EvidenceParams := Some (mkEvidenceParams 100 100).

(** Two reports of one validator in a block, and one later. *)
Definition history : list (@call (list Validator)) :=
  (CallSlashing <$> setup 4) ++ [CallEvidence (mkCtx 5 5) limits [double 3; double 4]; CallEvidence (mkCtx 7 7) limits [double 6]].
Definition after : State (list Validator) := snd (for_each history (run_call "gov") nothing).

Lemma double_sign_once_witness : let e := FromABCIEvidence (double 3) in ev_evidence after = {[ Hash e := e ]} /\ tombstoned "a" (ev_slashing after).
Proof.
  cbv zeta. split; [vm_compute; reflexivity|].
  destruct (double_sign_once "gov" history nothing after) with (h := Hash (FromABCIEvidence (double 3))) (e := FromABCIEvidence (double 3)) as (Ht & _).
  - done.
  - unfold history. apply Forall_app. split; [apply Forall_fmap, (Forall_impl _ _ _ (setup_ok 4)); by intros c|]. repeat constructor; apply double_ok.
  - vm_compute. reflexivity.
  - vm_compute. reflexivity.
  - by rewrite double_address in Ht.
Defined.

Definition bonded : State (list Validator) := snd (for_each (CallSlashing <$> setup 4) (run_call "gov") nothing).
Lemma equivocation_effect_witness : exists s', HandleEquivocationEvidence (mkCtx 5 5) limits (FromABCIEvidence (double 3)) bonded = (Ok tt, s') /\ sl_staking (ev_slashing s') = [set_jailed true "a" alice].
Proof.
  destruct (equivocation_effect (mkCtx 5 5) limits (FromABCIEvidence (double 3)) bonded (double_ok 3)) as [_ Hp].
  destruct (Hp ltac:(discriminate) ltac:(vm_compute; reflexivity) ltac:(vm_compute; reflexivity) (mkSigningInfo (ConsAddress_String "a") 0 0 0 false 0) (params 4) 1 [alice] [set_jailed true "a" alice]) as (s' & E & _ & Es & _).
  - vm_compute. reflexivity.
  - reflexivity.
  - vm_compute. reflexivity.
  - vm_compute. reflexivity.
  - vm_compute. reflexivity.
  - exists s'. by split.
Defined.

Lemma evidence_genesis_roundtrip_witness : exists gs, ExportGenesis after = (Ok gs, after) /\ InitGenesis gs nothing = (Ok tt, mkState empty (ev_evidence after)).
Proof.
  destruct (evidence_genesis_roundtrip after nothing) as (gs & E & _ & Ei).
  - intros h e. assert (ev_evidence after = {[ Hash (FromABCIEvidence (double 3)) := FromABCIEvidence (double 3) ]}) as -> by (vm_compute; reflexivity).
    intros [<- <-]%lookup_singleton_Some. split; [done|]. vm_compute. reflexivity.
  - done.
  - exists gs. by split.
Defined.
End evidence_toy.
End evidence.
