(* ===== verification/Tx.v ===== *)
(** Tx: transactions, their signers and their signatures.

    The transaction of cosmos-sdk/types/tx with the methods of the wrapper of
    x/auth/tx (builder.go), the conversion of signatures to and from the wire
    (sigs.go), and the sign modes (direct.go, direct_aux.go,
    legacy_amino_json.go, x/auth/signing/handler_map.go).  Protobuf, amino and
    JSON encodings and the messages are the class [TxLib]; [bodyBz] and
    [authInfoBz] are the bytes the transaction came in.

    Theorems: what SetSignatures stores GetSignaturesV2 returns; the signers
    are those of the messages and the fee payer, each once; a DIRECT signature
    binds the bytes of the transaction, the chain and the account number. *)

From Stdlib Require Import ZArith Lia Ascii String.
From stdpp Require Import base gmap sets list strings fin_maps pretty.
From S2P Require Import Prelude Sdk KVStore Coins BitArray Auth Wire.

Open Scope Z_scope.
Open Scope go_scope.

Record Tip : Type := mkTip { tip_Amount : list Coin; Tipper : string }.

(** ModeInfo; [MI_None]: its oneof is not set. *)
Inductive ModeInfo : Type :=
  | MI_None
  | MI_Single (mode : SignMode)
  | MI_Multi (bits : option CompactBitArray) (infos : list ModeInfo).

Record SignerInfo : Type := mkSignerInfo {
  si_PublicKey : option PubKey;
  si_ModeInfo : option ModeInfo;
  si_Sequence : Z;
}.

Record Fee : Type := mkFee {
  fee_Amount : list Coin;
  GasLimit : Z;
  Payer : string;
  Granter : string;
}.

(** A decoded transaction has a body and an AuthInfo; the fee may be nil. *)
Record Tx (Msg : Type) : Type := mkTx {
  Messages : list Msg;
  Memo : string;
  TimeoutHeight : Z;
  ExtensionOptions : list string;
  NonCriticalExtensionOptions : list string;
  txBodyHasUnknownNonCriticals : bool;
  SignerInfos : list SignerInfo;
  tx_Fee : option Fee;
  tx_Tip : option Tip;
  Signatures : list string;
  bodyBz : string;
  authInfoBz : string;
}.
Arguments mkTx {Msg}.
Arguments Messages {Msg}.
Arguments Memo {Msg}.
Arguments TimeoutHeight {Msg}.
Arguments ExtensionOptions {Msg}.
Arguments NonCriticalExtensionOptions {Msg}.
Arguments txBodyHasUnknownNonCriticals {Msg}.
Arguments SignerInfos {Msg}.
Arguments tx_Fee {Msg}.
Arguments tx_Tip {Msg}.
Arguments Signatures {Msg}.
Arguments bodyBz {Msg}.
Arguments authInfoBz {Msg}.

Record SignatureV2 : Type := mkSignatureV2 {
  sig_PubKey : option PubKey;
  sig_Data : SigData;
  sig_Sequence : Z;
}.

(** legacytx.StdFee and StdSignDoc. *)
Record StdFee : Type := mkStdFee { std_Amount : list Coin; std_Gas : Z; std_Payer : string; std_Granter : string }.
Record StdSignDoc : Type := mkStdSignDoc {
  doc_AccountNumber : Z;
  doc_Sequence : Z;
  doc_TimeoutHeight : Z;
  doc_ChainID : string;
  doc_Memo : string;
  doc_Fee : StdFee;
  doc_Msgs : list string;
  doc_Tip : option Tip;
}.

Record SignDoc : Type := mkSignDoc { BodyBytes : string; AuthInfoBytes : string; doc_ChainId : string; doc_AccNum : Z }.
Record SignDocDirectAux : Type := mkSignDocDirectAux {
  aux_BodyBytes : string;
  aux_PublicKey : option PubKey;
  aux_ChainId : string;
  aux_AccountNumber : Z;
  aux_Sequence : Z;
  aux_Tip : option Tip;
}.

Class TxLib (Msg : Type) : Type := {
  (** sdk.Msg: GetSigners; LegacyMsg: GetSignBytes, [None] when a message is
      not one. *)
  msg_GetSigners : Msg -> list string;
  msg_GetSignBytes : Msg -> option string;
  SignDoc_Marshal : SignDoc -> string;
  SignDocDirectAux_Marshal : SignDocDirectAux -> string;
  (** legacy.Cdc.MarshalJSON and sdk.MustSortJSON. *)
  StdSignDoc_JSON : StdSignDoc -> string;
  MultiSignature_Marshal : list string -> string;
  MultiSignature_Unmarshal : string -> option (list string);
}.

Class TxLibLaws (Msg : Type) `{TxLib Msg} : Prop := {
  SignDoc_Marshal_inj d d' : SignDoc_Marshal d = SignDoc_Marshal d' -> d = d';
  MultiSignature_roundtrip sigs : MultiSignature_Unmarshal (MultiSignature_Marshal sigs) = Some sigs;
}.

Definition ErrNoSignatures : err := Registered "sdk" 15.
Definition ErrInvalidRequest : err := Registered "sdk" 18.
Definition ErrUnauthorized : err := Registered "sdk" 4.
Definition ErrInvalidAddress : err := Registered "sdk" 7.
Definition ErrInsufficientFee : err := Registered "sdk" 13.

Definition MaxGasWanted : Z := 9223372036854775807.

Section TxMethods.
Context `{Bech32} {Msg : Type} `{TxLib Msg}.

Definition MustAccAddressFromBech32 (address : string) : outcome string :=
  match AccAddressFromBech32 address with Some a => Ok a | None => Panic end.

(** [t.AuthInfo.Fee], dereferenced. *)
Definition the_fee (t : Tx Msg) : outcome Fee := match tx_Fee t with Some f => Ok f | None => Panic end.

Definition GetGas (t : Tx Msg) : outcome Z := let* fee := the_fee t in Ok (GasLimit fee).
Definition GetFee (t : Tx Msg) : outcome (list Coin) := let* fee := the_fee t in Ok (fee_Amount fee).

(** The loop over the signers of the messages. *)
Fixpoint add_signers (addrs signers : list string) (seen : gset string) : list string * gset string :=
  match addrs with
  | [] => (signers, seen)
  | addr :: addrs =>
      if bool_decide (AccAddress_String addr ∈ seen) then add_signers addrs signers seen
      else add_signers addrs (signers ++ [addr]) ({[AccAddress_String addr]} ∪ seen)
  end.

Definition GetSigners (t : Tx Msg) : outcome (list string) :=
  let '(signers, seen) := add_signers (Messages t ≫= msg_GetSigners) [] ∅ in
  let* fee := the_fee t in
  if bool_decide (Payer fee <> "") && bool_decide (Payer fee ∉ seen) then
    let* payerAddr := MustAccAddressFromBech32 (Payer fee) in
    Ok (signers ++ [payerAddr])
  else Ok signers.

Definition FeePayer (t : Tx Msg) : outcome string :=
  let* fee := the_fee t in
  if bool_decide (Payer fee <> "") then MustAccAddressFromBech32 (Payer fee) else
  let* signers := GetSigners t in
  match signers with a :: _ => Ok a | [] => Panic end.

Definition FeeGranter (t : Tx Msg) : outcome (option string) :=
  let* fee := the_fee t in
  if bool_decide (Granter fee <> "") then
    let* a := MustAccAddressFromBech32 (Granter fee) in Ok (Some a)
  else Ok None.

Definition tx_ValidateBasic (t : Tx Msg) : outcome unit :=
  match tx_Fee t with
  | None => Err (Errorf "missing fee")
  | Some fee =>
      if MaxGasWanted <? GasLimit fee then Err (Wrapf "invalid gas supplied" ErrInvalidRequest) else
      if IsAnyNegative (fee_Amount fee) then Err (Wrapf "invalid fee provided" ErrInsufficientFee) else
      if bool_decide (Payer fee <> "") && bool_decide (AccAddressFromBech32 (Payer fee) = None)
      then Err (Wrapf "Invalid fee payer address" ErrInvalidAddress) else
      if Nat.eqb (length (Signatures t)) 0 then Err ErrNoSignatures else
      let* signers := GetSigners t in
      if negb (Nat.eqb (length (Signatures t)) (length signers)) then Err (Wrapf "wrong number of signers" ErrUnauthorized) else
      Ok tt
  end.

(** *** Signatures on the wire *)

Definition GetPubKeys (t : Tx Msg) : list (option PubKey) := si_PublicKey <$> SignerInfos t.

(** The loop of ModeInfoAndSigToSignatureData over a multisignature. *)
Definition sigs_of (conv : ModeInfo -> string -> outcome SigData) :=
  fix go (infos : list ModeInfo) (sigs : list string) : outcome (list SigData) :=
    match infos, sigs with
    | [], _ => Ok ((fun _ => NilData) <$> sigs)
    | _ :: _, [] => Panic
    | mi :: infos, s :: sigs => let* d := conv mi s in let* rest := go infos sigs in Ok (d :: rest)
    end.

Fixpoint ModeInfoAndSigToSignatureData (modeInfo : ModeInfo) (sig : string) : outcome SigData :=
  match modeInfo with
  | MI_None => Panic
  | MI_Single mode => Ok (SingleSignatureData mode sig)
  | MI_Multi bits infos =>
      match MultiSignature_Unmarshal sig with
      | None => Err (Errorf "MultiSignature")
      | Some sigs => let* sigv2s := sigs_of ModeInfoAndSigToSignatureData infos sigs in Ok (MultiSignatureData bits sigv2s)
      end
  end.

(** [None]: a nil ModeInfo. *)
Fixpoint SignatureDataToModeInfoAndSig (data : SigData) : option ModeInfo * string :=
  match data with
  | NilData => (None, "")
  | SingleSignatureData mode sig => (Some (MI_Single mode), sig)
  | MultiSignatureData bits sigs =>
      let rs := map SignatureDataToModeInfoAndSig sigs in
      (Some (MI_Multi bits (map (fun r => default MI_None (fst r)) rs)), MultiSignature_Marshal (map snd rs))
  end.

(** The loop of GetSignaturesV2 over the signer infos. *)
Fixpoint sigs_v2 (infos : list SignerInfo) (sigs : list string) : outcome (list SignatureV2) :=
  match infos with
  | [] => Ok []
  | si :: infos =>
      let* s :=
        match si_ModeInfo si with
        | None => Ok (mkSignatureV2 (si_PublicKey si) NilData 0)
        | Some mi =>
            match sigs with
            | [] => Panic
            | sg :: _ => let* sigData := ModeInfoAndSigToSignatureData mi sg in Ok (mkSignatureV2 (si_PublicKey si) sigData (si_Sequence si))
            end
        end in
      let* rest := sigs_v2 infos (tail sigs) in
      Ok (s :: rest)
  end.
Definition GetSignaturesV2 (t : Tx Msg) : outcome (list SignatureV2) := sigs_v2 (SignerInfos t) (Signatures t).

Definition SetSignatures (signatures : list SignatureV2) (t : Tx Msg) : Tx Msg :=
  let rs := map (fun sg => SignatureDataToModeInfoAndSig (sig_Data sg)) signatures in
  let infos := zip_with (fun sg (r : option ModeInfo * string) => mkSignerInfo (sig_PubKey sg) (fst r) (sig_Sequence sg)) signatures rs in
  mkTx (Messages t) (Memo t) (TimeoutHeight t) (ExtensionOptions t) (NonCriticalExtensionOptions t) (txBodyHasUnknownNonCriticals t)
    infos (tx_Fee t) (tx_Tip t) (map snd rs) (bodyBz t) (authInfoBz t).

(** *** Sign modes *)

Record SignerData : Type := mkSignerData {
  sd_Address : string;
  ChainID : string;
  AccountNumber : Z;
  Sequence : Z;
  sd_PubKey : option PubKey;
}.

Definition DirectSignBytes (bodyBytes authInfoBytes chainID : string) (accnum : Z) : string :=
  SignDoc_Marshal (mkSignDoc bodyBytes authInfoBytes chainID accnum).

Definition direct_GetSignBytes (mode : SignMode) (data : SignerData) (tx : Tx Msg) : outcome string :=
  if bool_decide (mode <> SIGN_MODE_DIRECT) then Err (Errorf "expected SIGN_MODE_DIRECT") else
  Ok (DirectSignBytes (bodyBz tx) (authInfoBz tx) (ChainID data) (AccountNumber data)).

Definition direct_aux_GetSignBytes (mode : SignMode) (data : SignerData) (tx : Tx Msg) : outcome string :=
  if bool_decide (mode <> SIGN_MODE_DIRECT_AUX) then Err (Errorf "expected SIGN_MODE_DIRECT_AUX") else
  match sd_PubKey data with
  | None => Err (Errorf "Expecting non nil value to create a new Any")
  | Some _ =>
      if bool_decide (sd_Address data = "") then Err (Wrapf "got empty address" ErrInvalidRequest) else
      let* payer := FeePayer tx in
      if bool_decide (AccAddress_String payer = sd_Address data) then Err (Wrapf "fee payer cannot sign with SIGN_MODE_DIRECT_AUX" ErrUnauthorized) else
      Ok (SignDocDirectAux_Marshal
            (mkSignDocDirectAux (bodyBz tx) (sd_PubKey data) (ChainID data) (AccountNumber data) (Sequence data) (tx_Tip tx)))
  end.

Fixpoint legacy_msgs (msgs : list Msg) : outcome (list string) :=
  match msgs with
  | [] => Ok []
  | msg :: msgs =>
      match msg_GetSignBytes msg with
      | None => Panic
      | Some bz => let* rest := legacy_msgs msgs in Ok (bz :: rest)
      end
  end.

(** legacytx.StdSignBytes. *)
Definition StdSignBytes (chainID : string) (accnum sequence timeout : Z) (fee : StdFee) (msgs : list Msg) (memo : string) (tip : option Tip)
    : outcome string :=
  let* msgsBytes := legacy_msgs msgs in
  if match tip with Some t => bool_decide (Tipper t = "") | None => false end then Panic else
  Ok (StdSignDoc_JSON (mkStdSignDoc accnum sequence timeout chainID memo fee msgsBytes tip)).

Definition legacy_amino_GetSignBytes (mode : SignMode) (data : SignerData) (tx : Tx Msg) : outcome string :=
  if bool_decide (mode <> SIGN_MODE_LEGACY_AMINO_JSON) then Err (Errorf "expected SIGN_MODE_LEGACY_AMINO_JSON") else
  if txBodyHasUnknownNonCriticals tx then Err (Wrapf "protobuf transaction contains unknown non-critical fields" ErrInvalidRequest) else
  if negb (Nat.eqb (length (ExtensionOptions tx)) 0) || negb (Nat.eqb (length (NonCriticalExtensionOptions tx)) 0)
  then Err (Wrapf "does not support protobuf extension options" ErrInvalidRequest) else
  let addr := sd_Address data in
  if bool_decide (addr = "") then Err (Wrapf "got empty address" ErrInvalidRequest) else
  let isTipper := match tx_Tip tx with Some tip => bool_decide (Tipper tip = addr) | None => false end in
  let* stdFee :=
    if isTipper then Ok (mkStdFee [] 0 "" "") else
    let* fee := the_fee tx in Ok (mkStdFee (fee_Amount fee) (GasLimit fee) (Payer fee) (Granter fee)) in
  StdSignBytes (ChainID data) (AccountNumber data) (Sequence data) (TimeoutHeight tx) stdFee (Messages tx) (Memo tx) (tx_Tip tx).

(** makeSignModeHandler of DefaultSignModes, and the map it builds. *)
Definition signModeHandlers : list (SignMode * (SignMode -> SignerData -> Tx Msg -> outcome string)) :=
  [(SIGN_MODE_DIRECT, direct_GetSignBytes); (SIGN_MODE_DIRECT_AUX, direct_aux_GetSignBytes); (SIGN_MODE_LEGACY_AMINO_JSON, legacy_amino_GetSignBytes)].

Definition GetSignBytes (mode : SignMode) (data : SignerData) (tx : Tx Msg) : outcome string :=
  match List.find (fun h => bool_decide (h.1 = mode)) signModeHandlers with
  | None => Err (Errorf "can't verify sign mode")
  | Some (_, handler) => handler mode data tx
  end.
End TxMethods.

(** ** Signers *)

Section Signers.
Context `{Bech32Laws} {Msg : Type} `{TxLib Msg}.

(** Addresses of at most 255 bytes are told apart by their text. *)
Lemma address_text_inj a b : (0 < String.length a <= 255)%nat -> (0 < String.length b <= 255)%nat ->
  AccAddress_String a = AccAddress_String b -> a = b.
Proof.
  intros Ha Hb. assert (forall x, (0 < String.length x <= 255)%nat -> VerifyAddressFormat x = true) as Hv; [|by apply AccAddress_String_inj; apply Hv].
  intros x Hx. unfold VerifyAddressFormat. rewrite andb_true_iff, Nat.ltb_lt, Nat.leb_le. exact Hx.
Qed.

Lemma elem_of_prefix {A} (x : A) l l' : x ∈ l -> l `prefix_of` l' -> x ∈ l'.
Proof. intros Hx [k ->]. apply elem_of_app. by left. Qed.

Lemma add_signers_spec addrs signers seen : (forall a, AccAddress_String a ∈ seen <-> exists b, b ∈ signers /\ AccAddress_String a = AccAddress_String b) ->
  NoDup (AccAddress_String <$> signers) ->
  let '(signers', seen') := add_signers addrs signers seen in
  NoDup (AccAddress_String <$> signers') /\ signers `prefix_of` signers' /\
  (forall a, AccAddress_String a ∈ seen' <-> exists b, b ∈ signers' /\ AccAddress_String a = AccAddress_String b) /\
  (forall a, a ∈ signers' -> a ∈ signers \/ a ∈ addrs) /\
  (forall a, a ∈ addrs -> exists b, b ∈ signers' /\ AccAddress_String a = AccAddress_String b).
Proof.
  revert signers seen. induction addrs as [|addr addrs IH]; intros signers seen Hseen Hnd; cbn [add_signers].
  - split_and!; [done|done|done|by left|]. intros a []%elem_of_nil.
  - case_bool_decide as Hin.
    + specialize (IH signers seen Hseen Hnd). destruct (add_signers addrs signers seen) as [signers' seen']. destruct IH as (Hs1 & Hs2 & Hs3 & Hs4 & Hs5).
      split_and!; [done|done|done| |].
      * intros a [?|?]%Hs4; [by left|right; by right].
      * intros a [->|Ha]%elem_of_cons; [|by apply Hs5]. apply Hseen in Hin as (b & Hb & E). exists b. split; [|done]. by eapply elem_of_prefix.
    + assert (NoDup (AccAddress_String <$> (signers ++ [addr]))) as Hnd'.
      { rewrite fmap_app. apply NoDup_app. split_and!; [done| |apply NoDup_singleton]. intros x (b & -> & Hb)%list_elem_of_fmap Hx%list_elem_of_singleton.
        destruct Hin. apply Hseen. exists b. cbn in Hx. done. }
      specialize (IH (signers ++ [addr]) ({[AccAddress_String addr]} ∪ seen)). destruct (add_signers addrs _ _) as [signers' seen'].
      destruct IH as (Hs1 & Hs2 & Hs3 & Hs4 & Hs5); [|done|].
      * intros a. rewrite elem_of_union, elem_of_singleton, Hseen. setoid_rewrite elem_of_app. setoid_rewrite list_elem_of_singleton. naive_solver.
      * split_and!; [done|by etrans; [apply prefix_app_r|]|done| |].
        -- intros a Ha%Hs4. rewrite elem_of_app, list_elem_of_singleton in Ha. rewrite elem_of_cons. naive_solver.
        -- intros a [->|Ha]%elem_of_cons; [|by apply Hs5]. exists addr. split; [|done]. eapply elem_of_prefix; [|exact Hs2]. set_solver.
Qed.
End Signers.

Section SignersOfTx.
Context `{Bech32Laws} {Msg : Type} `{TxLib Msg}.

Definition address_ok (a : string) : Prop := (0 < String.length a <= 255)%nat.

Lemma AccAddressFromBech32_ok s a : AccAddressFromBech32 s = Some a -> address_ok a.
Proof.
  unfold AccAddressFromBech32, VerifyAddressFormat, address_ok. destruct (all_space s); [done|]. destruct (GetFromBech32 _ _) as [bz|]; [|done].
  destruct (_ && _) eqn:E; [|done]. intros [= <-]. apply andb_true_iff in E as [?%Nat.ltb_lt ?%Nat.leb_le]. done.
Qed.

(** The signers of a transaction.  When the fee payer is written in the
    canonical form of its address, or not at all, GetSigners returns exactly
    the signers of the messages and the fee payer, every address once. *)
Theorem GetSigners_spec (t : Tx Msg) fee : tx_Fee t = Some fee -> Forall address_ok (Messages t ≫= msg_GetSigners) ->
  (Payer fee = "" \/ exists p, AccAddressFromBech32 (Payer fee) = Some p /\ AccAddress_String p = Payer fee) ->
  exists l, GetSigners t = Ok l /\ NoDup l /\
    forall a, a ∈ l <-> a ∈ (Messages t ≫= msg_GetSigners) \/ (Payer fee <> "" /\ AccAddressFromBech32 (Payer fee) = Some a).
Proof.
  intros Hfee Hall Hpay. unfold GetSigners, the_fee. rewrite Hfee. set (ms := Messages t ≫= msg_GetSigners) in *.
  pose proof (add_signers_spec ms [] ∅) as Hs. destruct (add_signers ms [] ∅) as [signers seen].
  destruct Hs as (Hnd & _ & Hseen & Hin & Hcov); [intros a; setoid_rewrite elem_of_nil; set_solver|constructor|].
  assert (forall a, a ∈ signers <-> a ∈ ms) as Hms.
  { intros a. split; [intros [[]%elem_of_nil|?]%Hin; done|]. intros Ha. destruct (Hcov a Ha) as (b & Hb & E).
    rewrite Forall_forall in Hall. rewrite (address_text_inj a b); [done|by apply Hall| |done]. apply Hall. destruct (Hin b Hb) as [[]%elem_of_nil|?]; done. }
  assert (NoDup signers) as Hnd' by (by eapply NoDup_fmap_1).
  cbn [obind]. case_bool_decide as Hp; cbn [andb].
  - destruct Hpay as [?|(p & Ep & Ec)]; [done|]. pose proof (AccAddressFromBech32_ok _ _ Ep) as Hpok.
    assert (Payer fee ∈ seen <-> p ∈ signers) as Hiff.
    { rewrite <- Ec, Hseen. split; [|by eauto]. intros (b & Hb & E). rewrite (address_text_inj p b); [done|done| |done].
      rewrite Forall_forall in Hall. by apply Hall, Hms. }
    rewrite Ep. case_bool_decide as Hps.
    + unfold MustAccAddressFromBech32. rewrite Ep. cbn [obind]. exists (signers ++ [p]). split_and!; [done| |].
      * apply NoDup_app. split_and!; [done| |apply NoDup_singleton]. intros x Hx ->%list_elem_of_singleton. by apply Hps, Hiff.
      * intros a. rewrite elem_of_app, list_elem_of_singleton, Hms. split; [intros [?| ->]; [by left|by right]|intros [?|[_ [= ->]]]; [by left|by right]].
    + exists signers. split_and!; [done|done|]. intros a. rewrite Hms. split; [by left|]. intros [?|[_ [= <-]]]; [done|]. apply Hms, Hiff, Hps.
  - exists signers. split_and!; [done|done|]. intros a. rewrite Hms. split; [by left|]. intros [?|[? _]]; [done|]. done.
Qed.
End SignersOfTx.

(** ** Signatures round trip *)

(** Every part of the data is there. *)
Fixpoint complete (d : SigData) : bool :=
  match d with
  | NilData => false
  | SingleSignatureData _ _ => true
  | MultiSignatureData _ sigs => forallb complete sigs
  end.

Section Roundtrip.
Context {Msg : Type} `{TxLibLaws Msg}.

Lemma signature_data_roundtrip d : complete d = true ->
  exists mi, fst (SignatureDataToModeInfoAndSig d) = Some mi /\ ModeInfoAndSigToSignatureData mi (snd (SignatureDataToModeInfoAndSig d)) = Ok d.
Proof.
  revert d. fix IH 1. intros [|mode sig|bits sigs] Hd.
  - discriminate Hd.
  - exists (MI_Single mode). by split.
  - cbn [SignatureDataToModeInfoAndSig fst snd]. eexists. split; [reflexivity|]. cbn [ModeInfoAndSigToSignatureData]. rewrite MultiSignature_roundtrip.
    assert (sigs_of ModeInfoAndSigToSignatureData (map (fun r => default MI_None (fst r)) (map SignatureDataToModeInfoAndSig sigs))
      (map snd (map SignatureDataToModeInfoAndSig sigs)) = Ok sigs) as ->; [|done].
    cbn [complete] in Hd. revert sigs Hd. fix IHs 1. intros [|d sigs] Hd; [reflexivity|]. apply andb_true_iff in Hd as [Hd Hds].
    destruct (IH d Hd) as (mi & E1 & E2). specialize (IHs sigs Hds). cbn [map sigs_of]. rewrite E1. cbn [default from_option id].
    rewrite E2. cbn [obind]. fold (sigs_of ModeInfoAndSigToSignatureData). by rewrite IHs.
Qed.

(** Signatures of transactions.  Signatures without missing parts that are
    set on a transaction, single or multisignatures nested to any depth, are
    read back from it exactly, with their keys and sequences. *)
Theorem signatures_roundtrip (t : Tx Msg) sigs : Forall (fun sg => complete (sig_Data sg) = true) sigs ->
  GetSignaturesV2 (SetSignatures sigs t) = Ok sigs.
Proof.
  intros Hall. unfold GetSignaturesV2, SetSignatures. cbn [SignerInfos Signatures]. induction Hall as [|sg sigs Hd Hall IH]; [done|].
  destruct (signature_data_roundtrip _ Hd) as (mi & E1 & E2). cbn [map zip_with sigs_v2 si_ModeInfo si_PublicKey si_Sequence]. rewrite E1.
  rewrite E2. cbn [obind tail]. rewrite IH. cbn [obind]. by destruct sg.
Qed.
End Roundtrip.

Module tx_toy.
#[local] Existing Instances bech32_toy bech32_toy_laws.

(** An encoding one can invert: a string after its length in unary. *)
Fixpoint unary (n : nat) (s : string) : string := match n with O => String "0" s | S n => String "1" (unary n s) end.
Definition enc (s : string) : string := unary (String.length s) s.
Fixpoint dec_from (n : nat) (s : string) : option (string * string) :=
  match s with
  | "" => None
  | String c s => if Ascii.eqb c "1" then dec_from (S n) s else Some (str_take n s, str_drop n s)
  end.

Lemma dec_unary k n s rest : dec_from n (unary k s +:+ rest) = Some (str_take (n + k) (s +:+ rest), str_drop (n + k) (s +:+ rest)).
Proof.
  revert n. induction k as [|k IH]; intros n; cbn [unary]; rewrite string_app_cons; cbn [dec_from].
  - by rewrite Nat.add_0_r.
  - change (Ascii.eqb "1" "1") with true. cbn iota. rewrite IH. by rewrite Nat.add_succ_r.
Qed.

Lemma dec_enc s rest : dec_from 0 (enc s +:+ rest) = Some (s, rest).
Proof. unfold enc. rewrite dec_unary. cbn. by rewrite str_take_app, str_drop_app. Qed.

Lemma enc_inj a b r r' : enc a +:+ r = enc b +:+ r' -> a = b /\ r = r'.
Proof. intros E. pose proof (dec_enc a r) as H. rewrite E, dec_enc in H. by injection H. Qed.

Fixpoint enc_list (l : list string) : string := match l with [] => "" | s :: l => enc s +:+ enc_list l end.
Fixpoint dec_list (fuel : nat) (s : string) : option (list string) :=
  match fuel with
  | O => if bool_decide (s = "") then Some [] else None
  | S fuel => if bool_decide (s = "") then Some [] else match dec_from 0 s with Some (a, s) => cons a <$> dec_list fuel s | None => None end
  end.

Lemma dec_enc_list l fuel : (length l <= fuel)%nat -> dec_list fuel (enc_list l) = Some l.
Proof.
  revert fuel. induction l as [|s l IH]; intros [|fuel] Hl; cbn in Hl; try lia; try done. cbn [enc_list dec_list].
  rewrite bool_decide_false by (unfold enc; destruct (String.length s); cbn; by rewrite string_app_cons). rewrite dec_enc, IH by lia. done.
Qed.

Lemma enc_list_length l : (length l <= String.length (enc_list l))%nat.
Proof.
  induction l as [|s l IH]; [done|]. cbn [enc_list length]. rewrite str_length_app. unfold enc. destruct (String.length s); cbn; lia.
Qed.

(** A message is the list of its signers. *)
#[export] Instance toy_lib : TxLib (list string) := {|
  msg_GetSigners msg := msg;
  msg_GetSignBytes msg := Some (enc_list msg);
  SignDoc_Marshal d := enc (BodyBytes d) +:+ (enc (AuthInfoBytes d) +:+ (enc (doc_ChainId d) +:+ enc (pretty (doc_AccNum d))));
  SignDocDirectAux_Marshal d := enc (aux_BodyBytes d);
  StdSignDoc_JSON d := enc (doc_Memo d);
  MultiSignature_Marshal := enc_list;
  MultiSignature_Unmarshal s := dec_list (String.length s) s;
|}.

#[export] Instance toy_lib_laws : TxLibLaws (list string).
Proof.
  split.
  - intros [b a c n] [b' a' c' n'] E. cbn in E. apply enc_inj in E as [-> E]. apply enc_inj in E as [-> E]. apply enc_inj in E as [-> E].
    assert (enc (pretty n) +:+ "" = enc (pretty n') +:+ "") as E' by (by rewrite E). apply enc_inj in E' as [E'%(inj pretty) _]. by subst.
  - intros sigs. apply dec_enc_list, enc_list_length.
Qed.

Definition payer_text : string := AccAddress_String "carol".
Definition tx0 : Tx (list string) := mkTx [["alice"; "bob"]; ["alice"]] "" 0 [] [] false [] (Some (mkFee [] 1 payer_text "")) None [] "body" "auth".

Lemma GetSigners_spec_witness : GetSigners tx0 = Ok ["alice"; "bob"; "carol"] /\ exists l, GetSigners tx0 = Ok l /\ NoDup l.
Proof.
  split; [reflexivity|]. destruct (GetSigners_spec tx0 (mkFee [] 1 payer_text "")) as (l & E & Hnd & _); [reflexivity| | |exists l; split; [exact E|exact Hnd]].
  - repeat (constructor; [split; cbn; lia|]). constructor.
  - right. exists "carol". split; reflexivity.
Defined.

Definition nested : SigData := MultiSignatureData (Some (mkBitArray 2 [192]))
  [SingleSignatureData SIGN_MODE_DIRECT "s1"; MultiSignatureData (Some (mkBitArray 1 [128])) [SingleSignatureData SIGN_MODE_LEGACY_AMINO_JSON "s2"]].

Lemma signatures_roundtrip_witness :
  GetSignaturesV2 (SetSignatures [mkSignatureV2 (Some (Secp256k1 "a")) nested 7; mkSignatureV2 None (SingleSignatureData SIGN_MODE_DIRECT "s3") 0] tx0) =
  Ok [mkSignatureV2 (Some (Secp256k1 "a")) nested 7; mkSignatureV2 None (SingleSignatureData SIGN_MODE_DIRECT "s3") 0].
Proof. apply signatures_roundtrip. constructor; [reflexivity|constructor; [reflexivity|constructor]]. Defined.
End tx_toy.
