(* ===== verification/Ante.v ===== *)
(** Ante: the ante handler of cosmos-sdk/x/auth/ante that app.go installs, the
    checks every transaction passes before its messages run.

    A decorator is a function from the rest of the chain to a handler, as in
    the code; [NewAnteHandler] chains the twelve of ante.go in their order.
    The state has the stores the decorators touch: accounts (Auth.v), the bank
    behind its interface, fee grants behind theirs, the gas meter and the
    events.  Reads and writes of the account store are charged as by the
    metered store of Gas.v; the gas of the bank's and the grants' own accesses
    is a parameter, charged before the call, since a transaction that runs out
    of gas is dropped as a whole.  Context values that do not change state are
    [AnteCtx].

    Theorems: what an accepted transaction has passed and what it changes; an
    accepted transaction is never accepted again, before 2^64 signatures of its
    first signer; who consented to a transaction and to which. *)

From Stdlib Require Import ZArith Lia Ascii String.
From stdpp Require Import base gmap sets list strings fin_maps pretty.
From S2P Require Import Prelude Sdk Types Bank KVStore Coins Gas BitArray Auth Tx.

Open Scope Z_scope.
Open Scope go_scope.

Definition ErrInsufficientFunds : err := Registered "sdk" 5.
Definition ErrInvalidPubKey : err := Registered "sdk" 8.
Definition ErrOutOfGas : err := Registered "sdk" 11.
Definition ErrMemoTooLarge : err := Registered "sdk" 12.
Definition ErrTooManySignatures : err := Registered "sdk" 14.
Definition ErrTxTimeoutHeight : err := Registered "sdk" 30.
Definition ErrUnknownExtensionOptions : err := Registered "sdk" 31.
Definition ErrWrongSequence : err := Registered "sdk" 32.
Definition ErrInvalidGasLimit : err := Registered "sdk" 41.

(** What the decorators read of sdk.Context, apart from the gas meter. *)
Record AnteCtx : Type := mkAnteCtx {
  ac_Ctx : Ctx;
  ac_ChainID : string;
  (** ConsensusParams().Block.MaxGas, when both are set. *)
  ac_MaxGas : option Z;
  IsCheckTx : bool;
  IsReCheckTx : bool;
  MinGasPrices : list (string * Z);
  TxBytes : string;
  Priority : Z;
}.
Definition ac_Height (ctx : AnteCtx) : Z := BlockHeight (ac_Ctx ctx).
Definition WithPriority (p : Z) (ctx : AnteCtx) : AnteCtx :=
  mkAnteCtx (ac_Ctx ctx) (ac_ChainID ctx) (ac_MaxGas ctx) (IsCheckTx ctx) (IsReCheckTx ctx) (MinGasPrices ctx) (TxBytes ctx) p.

Record AnteState (B G : Type) : Type := mkAnteState {
  st_auth : AuthState;
  st_bank : B;
  st_grants : G;
  st_meter : GasMeter;
  st_events : list Event;
}.
Arguments mkAnteState {B G}.
Arguments st_auth {B G}.
Arguments st_bank {B G}.
Arguments st_grants {B G}.
Arguments st_meter {B G}.
Arguments st_events {B G}.

(** x/feegrant's keeper (expected_keepers.go), on the context's gas meter and
    events and its own store. *)
Class FeegrantKeeper (Msg G : Type) : Type := {
  UseGrantedFees : Ctx -> string -> string -> list Coin -> list Msg -> M (GasMeter * list Event * G) unit;
}.

(** Dec.Ceil().RoundInt(). *)
Class SdkDecCeil : Type := { Dec_CeilInt : Z -> option Z }.

(** Lengths of encodings in the account store and in amino, and base64. *)
Class Encodings : Type := {
  account_size : Account -> Z;
  params_size : option AuthParams -> Z;
  std_signature_size : PubKey -> Z;
  base64 : string -> string;
}.

(** The gas of the bank's and the grants' store accesses. *)
Class StoreGas (B G : Type) : Type := {
  bank_gas : B -> string -> list Coin -> Z;
  grant_gas : G -> string -> string -> Z;
}.

(** *** Gas of signatures (sigverify.go) *)

Section SigGas.
Context (params : AuthParams).

(** The bits after the last key: a set one indexes out of range. *)
Fixpoint beyond_keys (n : nat) (bits : option CompactBitArray) (i : nat) : M GasMeter unit :=
  match n with
  | O => ret tt
  | S n => let! b := lift (GetIndex bits (Z.of_nat i)) in if b then panic else beyond_keys n bits (S i)
  end.

(** The loop of ConsumeMultisignatureVerificationGas from member [i] on. *)
Definition ConsumeMultisignatureVerificationGas (consumer : PubKey -> SigData -> M GasMeter unit) (bits : option CompactBitArray) (size : nat) :=
  fix go (keys : list PubKey) (i : nat) (sigs : list SigData) : M GasMeter unit :=
    match keys with
    | [] => beyond_keys (size - i) bits i
    | key :: keys =>
        if Nat.leb size i then ret tt else
        let! b := lift (GetIndex bits (Z.of_nat i)) in
        if b then
          match sigs with
          | [] => panic
          | s :: sigs => consumer key s ;;! go keys (S i) sigs
          end
        else go keys (S i) sigs
    end.

Fixpoint DefaultSigVerificationGasConsumer (pubkey : PubKey) (data : SigData) : M GasMeter unit :=
  match pubkey with
  | Ed25519 _ => ConsumeGas (SigVerifyCostED25519 params) ;;! throw ErrInvalidPubKey
  | Secp256k1 _ => ConsumeGas (SigVerifyCostSecp256k1 params)
  | Secp256r1 _ => ConsumeGas (SigVerifyCostSecp256r1 params)
  | Multisig _ keys =>
      match data with
      | MultiSignatureData bits sigs =>
          ConsumeMultisignatureVerificationGas DefaultSigVerificationGasConsumer bits (Z.to_nat (Count bits)) keys 0 sigs
      | _ => throw (Errorf "expected MultiSignatureData")
      end
  | _ => throw ErrInvalidPubKey
  end.
End SigGas.

Section AnteHandlers.
Context `{Bech32} `{SdkMath} `{SdkMathMul} `{SdkDecCeil} `{KeyLib}.
Context {Msg : Type} `{TxLib Msg}.
Context {B G : Type} `{BankKeeper B} `{FeegrantKeeper Msg G} `{Encodings} `{StoreGas B G}.

Notation State := (AnteState B G).

Definition on_auth {A} (c : M AuthState A) : M State A := fun s =>
  let '(r, a) := c (st_auth s) in (r, mkAnteState a (st_bank s) (st_grants s) (st_meter s) (st_events s)).
Definition on_bank {A} (c : M B A) : M State A := fun s =>
  let '(r, b) := c (st_bank s) in (r, mkAnteState (st_auth s) b (st_grants s) (st_meter s) (st_events s)).
Definition on_grants {A} (c : M (GasMeter * list Event * G) A) : M State A := fun s =>
  let '(r, (m, evs, g)) := c (st_meter s, st_events s, st_grants s) in (r, mkAnteState (st_auth s) (st_bank s) g m evs).
Definition on_meter {A} (c : M GasMeter A) : M State A := fun s =>
  let '(r, m) := c (st_meter s) in (r, mkAnteState (st_auth s) (st_bank s) (st_grants s) m (st_events s)).
Definition EmitEvents (evs : list Event) : M State unit := fun s =>
  (Ok tt, mkAnteState (st_auth s) (st_bank s) (st_grants s) (st_meter s) (st_events s ++ evs)).

Definition use_gas (amount : Z) : M State unit := on_meter (ConsumeGas amount).

(** *** The account store through its gas *)

Definition read_gas (keyLen valueLen : Z) : M State unit :=
  use_gas (ReadCostFlat KVGasConfig) ;;!
  use_gas (wrap_u64 (ReadCostPerByte KVGasConfig * keyLen)) ;;!
  use_gas (wrap_u64 (ReadCostPerByte KVGasConfig * valueLen)).
Definition write_gas (keyLen valueLen : Z) : M State unit :=
  use_gas (WriteCostFlat KVGasConfig) ;;!
  use_gas (wrap_u64 (WriteCostPerByte KVGasConfig * keyLen)) ;;!
  use_gas (wrap_u64 (WriteCostPerByte KVGasConfig * valueLen)).

(** Lengths of AddressStoreKey and AccountNumberStoreKey (x/auth/types/keys.go). *)
Definition AddressStoreKey_len (addr : string) : Z := 1 + len_gas addr.
Definition AccountNumberStoreKey_len : Z := 13 + 8.

Definition get_account (addr : string) : M State (option Account) :=
  let! acc := on_auth (GetAccount addr) in
  read_gas (AddressStoreKey_len addr) (match acc with Some a => account_size a | None => 0 end) ;;!
  ret acc.
Definition set_account (acc : Account) : M State unit :=
  write_gas (AddressStoreKey_len (acc_Address acc)) (account_size acc) ;;!
  write_gas AccountNumberStoreKey_len (len_gas (acc_Address acc)) ;;!
  on_auth (SetAccount acc).
Definition get_params : M State AuthParams :=
  let! size := on_auth (reads (fun s => params_size (as_params s))) in
  read_gas 1 size ;;!
  on_auth GetParams.

Definition GetSignerAcc (addr : string) : M State Account :=
  let! acc := get_account addr in
  match acc with Some acc => ret acc | None => throw (Wrapf "account does not exist" ErrUnknownAddress) end.

(** *** Handlers and decorators *)

Definition AnteHandler : Type := AnteCtx -> bool -> M State AnteCtx.
Definition AnteDecorator : Type := Tx Msg -> AnteHandler -> AnteHandler.

(** setup.go *)
Definition SetGasMeter (simulate : bool) (ctx : AnteCtx) (gasLimit : Z) : M State unit :=
  on_meter (modify (fun _ => if simulate || (ac_Height ctx =? 0) then NewInfiniteGasMeter else NewGasMeter gasLimit)).

(** The deferred recover: an out-of-gas panic becomes an error. *)
Definition recover_out_of_gas {A} (c : M State A) : M State A := fun s =>
  match c s with
  | (Panic, s') =>
      if bool_decide (raised (st_meter s') = Some ErrorOutOfGas) then (Err (Wrapf "out of gas" ErrOutOfGas), s') else (Panic, s')
  | r => r
  end.

Definition SetUpContextDecorator : AnteDecorator := fun tx next ctx simulate =>
  let! gas := lift (GetGas tx) in
  SetGasMeter simulate ctx gas ;;!
  if match ac_MaxGas ctx with Some maxGas => (0 <? maxGas) && (wrap_u64 maxGas <? gas) | None => false end
  then throw (Wrapf "tx gas limit exceeds block max gas" ErrInvalidGasLimit) else
  recover_out_of_gas (next ctx simulate).

(** ext.go *)
Definition rejectExtensionOption (_ : string) : bool := false.
Definition checkExtOpts (tx : Tx Msg) (checker : string -> bool) : outcome unit :=
  if forallb checker (ExtensionOptions tx) then Ok tt else Err ErrUnknownExtensionOptions.
Definition ExtensionOptionsDecorator (checker : option (string -> bool)) : AnteDecorator := fun tx next ctx simulate =>
  lift (checkExtOpts tx (default rejectExtensionOption checker)) ;;!
  next ctx simulate.

(** basic.go *)
Definition ValidateBasicDecorator : AnteDecorator := fun tx next ctx simulate =>
  if IsReCheckTx ctx then next ctx simulate else
  lift (tx_ValidateBasic tx) ;;!
  next ctx simulate.

Definition TxTimeoutHeightDecorator : AnteDecorator := fun tx next ctx simulate =>
  let timeoutHeight := TimeoutHeight tx in
  if (0 <? timeoutHeight) && (timeoutHeight <? wrap_u64 (ac_Height ctx)) then throw (Wrapf "block height, timeout height" ErrTxTimeoutHeight) else
  next ctx simulate.

Definition ValidateMemoDecorator : AnteDecorator := fun tx next ctx simulate =>
  let memoLength := len_gas (Memo tx) in
  (if 0 <? memoLength then
     let! params := get_params in
     if MaxMemoCharacters params <? memoLength then throw (Wrapf "maximum number of characters" ErrMemoTooLarge) else ret tt
   else ret tt) ;;!
  next ctx simulate.

Fixpoint isIncompleteSignature (data : SigData) : bool :=
  match data with
  | NilData => true
  | SingleSignatureData _ sig => Nat.eqb (String.length sig) 0
  | MultiSignatureData _ sigs => Nat.eqb (length sigs) 0 || existsb isIncompleteSignature sigs
  end.

(** The placeholder key of simulations (its bytes are those of init). *)
Definition simSecp256k1Pubkey : PubKey := Secp256k1 "035AD6810A47F073553FF30D2FCC7E0D3B1C0B74B61A1AAA2582344037151E143A".

(** One signer of the simulation loop. *)
Definition sim_signature_gas (params : AuthParams) (signer : string) : M State unit :=
  let! acc := get_account signer in
  let pubkey := match acc with Some a => default simSecp256k1Pubkey (acc_PubKey a) | None => simSecp256k1Pubkey end in
  let cost := std_signature_size pubkey + 6 in
  let cost := match pubkey with Multisig _ _ => wrap_u64 (cost * TxSigLimit params) | _ => cost end in
  use_gas (wrap_u64 (TxSizeCostPerByte params * cost)).

Fixpoint simulate_sigs (params : AuthParams) (signers : list string) (sigs : list SignatureV2) : M State unit :=
  match signers with
  | [] => ret tt
  | signer :: signers =>
      (if match sigs with sg :: _ => negb (isIncompleteSignature (sig_Data sg)) | [] => false end then ret tt
       else sim_signature_gas params signer) ;;!
      simulate_sigs params signers (tail sigs)
  end.

Definition ConsumeTxSizeGasDecorator : AnteDecorator := fun tx next ctx simulate =>
  let! params := get_params in
  use_gas (wrap_u64 (TxSizeCostPerByte params * len_gas (TxBytes ctx))) ;;!
  (if simulate then
     let! sigs := lift (GetSignaturesV2 tx) in
     let! signers := lift (GetSigners tx) in
     simulate_sigs params signers sigs
   else ret tt) ;;!
  next ctx simulate.

(** validator_tx_fee.go *)
Fixpoint getTxPriority_loop (fee : list Coin) (gas priority : Z) : outcome Z :=
  match fee with
  | [] => Ok priority
  | c :: fee =>
      let* gasPrice := o_panic (Int_Quo (Amount c) gas) in
      let p := if (- two63 <=? gasPrice) && (gasPrice <? two63) then gasPrice else two63 - 1 in
      getTxPriority_loop fee gas (if (priority =? 0) || (p <? priority) then p else priority)
  end.
Definition getTxPriority (fee : list Coin) (gas : Z) : outcome Z := getTxPriority_loop fee gas 0.

Fixpoint required_fees (minGasPrices : list (string * Z)) (glDec : Z) : outcome (list Coin) :=
  match minGasPrices with
  | [] => Ok []
  | (denom, price) :: rest =>
      let* fee := o_panic (Dec_Mul price glDec) in
      let* amount := o_panic (Dec_CeilInt fee) in
      let* c := o_panic (NewCoin denom amount) in
      let* cs := required_fees rest glDec in
      Ok (c :: cs)
  end.

Definition checkTxFeeWithValidatorMinGasPrices (ctx : AnteCtx) (tx : Tx Msg) : outcome (list Coin * Z) :=
  let* feeCoins := GetFee tx in
  let* gas := GetGas tx in
  let* _ :=
    if IsCheckTx ctx && negb (forallb (fun gp => gp.2 =? 0) (MinGasPrices ctx)) then
      let* requiredFees := required_fees (MinGasPrices ctx) (NewDecFromInt (wrap_i64 gas)) in
      let* enough := IsAnyGTE feeCoins requiredFees in
      if enough then Ok tt else Err (Wrapf "insufficient fees" ErrInsufficientFee)
    else Ok tt in
  let* priority := getTxPriority feeCoins (wrap_i64 gas) in
  Ok (feeCoins, priority).

(** fee.go *)

Definition DeductFees (ctx : AnteCtx) (acc : Account) (fees : list Coin) : M State unit :=
  if negb (Coins_Validate fees) then throw (Wrapf "invalid fee amount" ErrInsufficientFee) else
  let! gas := on_bank (reads (fun b => bank_gas b (acc_Address acc) fees)) in
  use_gas gas ;;!
  map_err (fun _ => Wrapf "SendCoinsFromAccountToModule" ErrInsufficientFunds)
    (on_bank (SendCoinsFromAccountToModule (ac_Ctx ctx) (acc_Address acc) FeeCollectorName fees)).

(** UseGrantedFees through the gas of the grants' store. *)
Definition use_grant (ctx : AnteCtx) (granter grantee : string) (fee : list Coin) (msgs : list Msg) : M State unit :=
  let! gas := on_grants (reads (fun g => grant_gas g.2 granter grantee)) in
  use_gas gas ;;!
  map_err (Wrapf "does not allow to pay fees") (on_grants (UseGrantedFees (ac_Ctx ctx) granter grantee fee msgs)).

(** The account fees are deducted from, a grant being used when it is not the
    payer's own. *)
Definition deduct_fees_from (feegrant : bool) (ctx : AnteCtx) (tx : Tx Msg) (fee : list Coin) : M State string :=
  let! feePayer := lift (FeePayer tx) in
  let! feeGranter := lift (FeeGranter tx) in
  match feeGranter with
  | None => ret feePayer
  | Some g =>
      if negb feegrant then throw (Wrapf "fee grants are not enabled" ErrInvalidRequest) else
      when (bool_decide (g <> feePayer)) (use_grant ctx g feePayer fee (Messages tx)) ;;!
      ret g
  end.

Definition checkDeductFee (feegrant : bool) (ctx : AnteCtx) (tx : Tx Msg) (fee : list Coin) : M State unit :=
  if bool_decide (Bank.GetModuleAddress (B := B) FeeCollectorName = None) then throw (Errorf "fee collector module account has not been set") else
  let! deductFeesFrom := deduct_fees_from feegrant ctx tx fee in
  let! deductFeesFromAcc := get_account deductFeesFrom in
  match deductFeesFromAcc with
  | None => throw (Wrapf "fee payer address does not exist" ErrUnknownAddress)
  | Some acc =>
      when (negb (Coins_IsZero fee)) (DeductFees ctx acc fee) ;;!
      EmitEvents [NewEvent "tx" [("fee", AStr (Coins_String fee)); ("fee_payer", AStr (AccAddress_String deductFeesFrom))]]
  end.

Definition DeductFeeDecorator (feegrant : bool) (txFeeChecker : option (AnteCtx -> Tx Msg -> outcome (list Coin * Z))) : AnteDecorator :=
  fun tx next ctx simulate =>
  let! gas := lift (GetGas tx) in
  if negb simulate && (0 <? ac_Height ctx) && (gas =? 0) then throw (Wrapf "must provide positive gas" ErrInvalidGasLimit) else
  let! fee := lift (GetFee tx) in
  let! checked := lift (if simulate then Ok (fee, 0) else default checkTxFeeWithValidatorMinGasPrices txFeeChecker ctx tx) in
  checkDeductFee feegrant ctx tx (fst checked) ;;!
  next (WithPriority (snd checked) ctx) simulate.

(** sigverify.go: SetPubKeyDecorator *)
Definition set_pubkey (simulate : bool) (signer : string) (pk : option PubKey) : M State unit :=
  match (match pk with Some pk => Some pk | None => if simulate then Some simSecp256k1Pubkey else None end) with
  | None => ret tt
  | Some pk =>
      if negb simulate && negb (bool_decide (PubKey_Address pk = signer)) then throw (Wrapf "pubKey does not match signer address" ErrInvalidPubKey) else
      let! acc := GetSignerAcc signer in
      match acc_PubKey acc with
      | Some _ => ret tt
      | None =>
          let! acc := lift (match SetPubKey acc pk with Err _ => Err (Wrapf "SetPubKey" ErrInvalidPubKey) | r => r end) in
          set_account acc
      end
  end.

(** The loop: a key without a signer indexes out of range, unless it is
    skipped. *)
Fixpoint set_pubkeys (simulate : bool) (pubkeys : list (option PubKey)) (signers : list string) : M State unit :=
  match pubkeys with
  | [] => ret tt
  | pk :: pubkeys =>
      match signers with
      | signer :: _ => set_pubkey simulate signer pk
      | [] => match pk with None => if simulate then panic else ret tt | Some _ => panic end
      end ;;!
      set_pubkeys simulate pubkeys (tail signers)
  end.

(** signatureDataToBz: the raw signatures, those of a multisignature before
    its own encoding. *)
Fixpoint signatureDataToBz (data : SigData) : outcome (list string) :=
  match data with
  | NilData => Err (Errorf "got empty SignatureData")
  | SingleSignatureData _ sig => Ok [sig]
  | MultiSignatureData _ sigs =>
      let* nested := (fix go (sigs : list SigData) : outcome (list string) :=
        match sigs with
        | [] => Ok []
        | d :: sigs => let* s := signatureDataToBz d in let* rest := go sigs in Ok (s ++ rest)
        end) sigs in
      Ok (nested ++ [MultiSignature_Marshal nested])
  end.

(** The events of the signatures. *)
Fixpoint sig_events (sigs : list SignatureV2) (signers : list string) : outcome (list Event) :=
  match sigs with
  | [] => Ok []
  | sg :: sigs =>
      match signers with
      | [] => Panic
      | signer :: signers =>
          let* sigBzs := signatureDataToBz (sig_Data sg) in
          let* rest := sig_events sigs signers in
          Ok (NewEvent "tx" [("acc_seq", AStr (AccAddress_String signer +:+ "/" +:+ pretty (sig_Sequence sg)))] ::
              ((fun bz => NewEvent "tx" [("signature", AStr (base64 bz))]) <$> sigBzs) ++ rest)
      end
  end.

Definition SetPubKeyDecorator : AnteDecorator := fun tx next ctx simulate =>
  let! signers := lift (GetSigners tx) in
  set_pubkeys simulate (GetPubKeys tx) signers ;;!
  let! sigs := lift (GetSignaturesV2 tx) in
  let! events := lift (sig_events sigs signers) in
  EmitEvents events ;;!
  next ctx simulate.

(** ValidateSigCountDecorator *)
Fixpoint count_sigs (limit : Z) (pubKeys : list (option PubKey)) (sigCount : Z) : outcome unit :=
  match pubKeys with
  | [] => Ok tt
  | pk :: pubKeys =>
      let sigCount := sigCount + match pk with Some k => CountSubKeys k | None => 1 end in
      if limit <? sigCount then Err (Wrapf "signatures, limit" ErrTooManySignatures) else count_sigs limit pubKeys sigCount
  end.

Definition ValidateSigCountDecorator : AnteDecorator := fun tx next ctx simulate =>
  let! params := get_params in
  lift (count_sigs (TxSigLimit params) (GetPubKeys tx) 0) ;;!
  next ctx simulate.

(** SigGasConsumeDecorator *)
Definition SigGasConsumer : Type := AuthParams -> PubKey -> SigData -> M GasMeter unit.

Definition consume_sig_gas (consumer : SigGasConsumer) (params : AuthParams) (simulate : bool) (signer : string) (sg : SignatureV2) : M State unit :=
  let! signerAcc := GetSignerAcc signer in
  let pubKey := match acc_PubKey signerAcc with Some k => Some k | None => if simulate then Some simSecp256k1Pubkey else None end in
  match pubKey with
  | Some k => on_meter (consumer params k (sig_Data sg))
  | None => throw ErrInvalidPubKey
  end.

(** A loop over the signatures and their signers. *)
Fixpoint for_signatures (f : string -> SignatureV2 -> M State unit) (sigs : list SignatureV2) (signers : list string) : M State unit :=
  match sigs with
  | [] => ret tt
  | sg :: sigs =>
      match signers with
      | [] => panic
      | signer :: signers => f signer sg ;;! for_signatures f sigs signers
      end
  end.

Definition SigGasConsumeDecorator (consumer : option SigGasConsumer) : AnteDecorator := fun tx next ctx simulate =>
  let! params := get_params in
  let! sigs := lift (GetSignaturesV2 tx) in
  let! signerAddrs := lift (GetSigners tx) in
  for_signatures (consume_sig_gas (default DefaultSigVerificationGasConsumer consumer) params simulate) sigs signerAddrs ;;!
  next ctx simulate.

(** SigVerificationDecorator *)
Definition signer_data (ctx : AnteCtx) (acc : Account) : SignerData :=
  mkSignerData (AccAddress_String (acc_Address acc)) (ac_ChainID ctx) (if ac_Height ctx =? 0 then 0 else acc_AccountNumber acc)
    (acc_Sequence acc) (acc_PubKey acc).

Definition verify_signature (tx : Tx Msg) (ctx : AnteCtx) (simulate : bool) (signer : string) (sg : SignatureV2) : M State unit :=
  let! acc := GetSignerAcc signer in
  if negb simulate && match acc_PubKey acc with None => true | Some _ => false end then throw (Wrapf "pubkey on account is not set" ErrInvalidPubKey) else
  if negb (sig_Sequence sg =? acc_Sequence acc) then throw (Wrapf "account sequence mismatch" ErrWrongSequence) else
  if negb simulate && negb (IsReCheckTx ctx) then
    match acc_PubKey acc with
    | None => panic
    | Some pubKey =>
        match VerifySignature (fun mode => GetSignBytes mode (signer_data ctx acc) tx) pubKey (sig_Data sg) with
        | Err _ => throw (Wrapf "signature verification failed" ErrUnauthorized)
        | r => lift r
        end
    end
  else ret tt.

Definition SigVerificationDecorator : AnteDecorator := fun tx next ctx simulate =>
  let! sigs := lift (GetSignaturesV2 tx) in
  let! signerAddrs := lift (GetSigners tx) in
  if negb (Nat.eqb (length sigs) (length signerAddrs)) then throw (Wrapf "invalid number of signer" ErrUnauthorized) else
  for_signatures (verify_signature tx ctx simulate) sigs signerAddrs ;;!
  next ctx simulate.

(** IncrementSequenceDecorator *)
Definition increment_sequence (addr : string) : M State unit :=
  let! acc := get_account addr in
  match acc with
  | None => panic
  | Some acc => set_account (SetSequence acc (wrap_u64 (acc_Sequence acc + 1)))
  end.

Definition IncrementSequenceDecorator : AnteDecorator := fun tx next ctx simulate =>
  let! signers := lift (GetSigners tx) in
  for_each signers increment_sequence ;;!
  next ctx simulate.

(** *** ante.go *)

(** The options that differ between applications; nil is [None]. *)
Record HandlerOptions : Type := mkHandlerOptions {
  ExtensionOptionChecker : option (string -> bool);
  has_FeegrantKeeper : bool;
  opt_SigGasConsumer : option SigGasConsumer;
  TxFeeChecker : option (AnteCtx -> Tx Msg -> outcome (list Coin * Z));
}.

(** sdk.ChainAnteDecorators; the Terminator returns the context. *)
Fixpoint ChainAnteDecorators (chain : list AnteDecorator) (tx : Tx Msg) : AnteHandler :=
  match chain with
  | [] => fun ctx _ => ret ctx
  | d :: chain => d tx (ChainAnteDecorators chain tx)
  end.

Definition anteDecorators (options : HandlerOptions) : list AnteDecorator :=
  [SetUpContextDecorator;
   ExtensionOptionsDecorator (ExtensionOptionChecker options);
   ValidateBasicDecorator;
   TxTimeoutHeightDecorator;
   ValidateMemoDecorator;
   ConsumeTxSizeGasDecorator;
   DeductFeeDecorator (has_FeegrantKeeper options) (TxFeeChecker options);
   SetPubKeyDecorator;
   ValidateSigCountDecorator;
   SigGasConsumeDecorator (opt_SigGasConsumer options);
   SigVerificationDecorator;
   IncrementSequenceDecorator].

Definition NewAnteHandler (options : HandlerOptions) : Tx Msg -> AnteHandler := ChainAnteDecorators (anteDecorators options).
End AnteHandlers.

(** ** What an accepted transaction has passed *)

(** A meter that has not panicked and is within its limit; the step from [m]
    to [m'] keeps that. *)
Definition bounded (m : GasMeter) : Prop := raised m = None /\ forall l, limit m = Some l -> consumed m <= l.
Definition meter_kept (m m' : GasMeter) : Prop := limit m' = limit m /\ (bounded m -> bounded m').

#[export] Instance meter_kept_refl : Reflexive meter_kept.
Proof. by intros m. Qed.
#[export] Instance meter_kept_trans : Transitive meter_kept.
Proof. intros m1 m2 m3 [L1 B1] [L2 B2]. split; [by rewrite L2|auto]. Qed.

Lemma ConsumeGas_kept n m u m' : ConsumeGas n m = (Ok u, m') -> meter_kept m m'.
Proof.
  intros E. assert (limit m' = limit m) as El.
  { unfold ConsumeGas, addUint64Overflow in E. unfold bind at 1, get in E. destruct (_ <? n); destruct (limit m) as [l|] eqn:El0; unfold bind, modify, raise, ret in E;
      try (destruct (l <? _)); try discriminate E; injection E as _ <-; cbn; by rewrite El0. }
  split; [done|]. intros [Hr Hb]. destruct (ConsumeGas_ok n m u m' E Hr) as (-> & _ & Hl). split; [done|]. intros l Hl'. apply Hl. exact Hl'.
Qed.

(** What the decorator relies on of the application's consumer. *)
Definition consumer_kept (consumer : SigGasConsumer) : Prop :=
  forall params k d m u m', consumer params k d m = (Ok u, m') -> meter_kept m m'.

(** What it relies on of the keeper of fee grants. *)
Class FeegrantLaws (Msg G : Type) `{FeegrantKeeper Msg G} : Prop := {
  grants_meter_kept ctx granter grantee fee msgs (m m' : GasMeter) (evs evs' : list Event) (g g' : G) u :
    UseGrantedFees ctx granter grantee fee msgs (m, evs, g) = (Ok u, (m', evs', g')) -> meter_kept m m';
}.

Lemma multi_gas_kept (consumer : PubKey -> SigData -> M GasMeter unit) bits size keys i sigs m u m' :
  Forall (fun k => forall d m u m', consumer k d m = (Ok u, m') -> meter_kept m m') keys ->
  ConsumeMultisignatureVerificationGas consumer bits size keys i sigs m = (Ok u, m') -> meter_kept m m'.
Proof.
  intros Hk. revert i sigs m. induction Hk as [|k keys Hk Hks IH]; intros i sigs m E; cbn [ConsumeMultisignatureVerificationGas] in E.
  - remember (size - i)%nat as n eqn:En. clear En. revert i m E. induction n as [|n IH]; intros i m E; cbn [beyond_keys] in E; [by apply ret_ok in E as [_ ->]|].
    apply bind_ok in E as (b & m1 & E1 & E). unfold lift in E1. injection E1 as _ <-. destruct b; [done|]. by eapply IH.
  - destruct (Nat.leb size i); [by apply ret_ok in E as [_ ->]|]. apply bind_ok in E as (b & m1 & E1 & E). unfold lift in E1. injection E1 as _ <-.
    destruct b; [|by eapply IH]. destruct sigs as [|sg sigs]; [done|]. apply bind_ok in E as ([] & m1 & E1 & E). etrans; [by eapply Hk|by eapply IH].
Qed.

Lemma DefaultSigVerificationGasConsumer_kept : consumer_kept DefaultSigVerificationGasConsumer.
Proof.
  intros params k. revert k. fix IH 1. intros [key|key|key|key|thr keys|key] d m u m' E; cbn [DefaultSigVerificationGasConsumer] in E;
    try (by eapply ConsumeGas_kept, E); try done.
  - by apply bind_ok in E as (? & ? & _ & ?).
  - destruct d as [|mode sig|bits sigs]; [done|done|]. revert E. apply multi_gas_kept. clear -IH. revert keys. fix IHs 1.
    intros [|k keys]; [constructor|]. constructor; [exact (IH k)|apply IHs].
Qed.

Section AnteLaws.
Context `{Bech32} `{SdkMath} `{SdkMathMul} `{SdkDecCeil} `{KeyLib}.
Context {Msg : Type} `{TxLib Msg}.
Context {B G : Type} `{BankLaws B} `{FeegrantLaws Msg G} `{Encodings} `{StoreGas B G}.

Notation State := (AnteState B G).
Implicit Types (s : State) (tx : Tx Msg).

(** A step that only uses gas. *)
Record gas_only s s' : Prop := {
  go_auth : st_auth s' = st_auth s;
  go_bank : st_bank s' = st_bank s;
  go_grants : st_grants s' = st_grants s;
  go_events : st_events s' = st_events s;
  go_meter : meter_kept (st_meter s) (st_meter s');
}.

#[local] Instance gas_only_refl : Reflexive gas_only.
Proof. by intros s. Qed.
#[local] Instance gas_only_trans : Transitive gas_only.
Proof. intros s1 s2 s3 [] []. split; try congruence. by etrans. Qed.

Lemma use_gas_ok n s u s' : use_gas n s = (Ok u, s') -> gas_only s s'.
Proof. unfold use_gas, on_meter. destruct (ConsumeGas n (st_meter s)) as [r m] eqn:E. intros [= -> <-]. split; try done. by eapply ConsumeGas_kept. Qed.

Lemma gas3_ok a b c s u s' : (use_gas a ;;! use_gas b ;;! use_gas c) s = (Ok u, s') -> gas_only s s'.
Proof. intros E. inv_go. repeat match goal with H : use_gas _ _ = _ |- _ => apply use_gas_ok in H end. by repeat (etrans; [eassumption|]). Qed.

Lemma on_auth_ok {A} (c : M AuthState A) s a s' : on_auth c s = (Ok a, s') ->
  exists x, c (st_auth s) = (Ok a, x) /\ s' = mkAnteState x (st_bank s) (st_grants s) (st_meter s) (st_events s).
Proof. unfold on_auth. destruct (c (st_auth s)) as [r x]. intros [= -> <-]. eauto. Qed.

Lemma get_account_ok a s r s' : get_account a s = (Ok r, s') -> r = as_accounts (st_auth s) !! a /\ gas_only s s'.
Proof.
  unfold get_account. intros E. apply bind_ok in E as (acc & s1 & (x & [-> ->]%reads_ok & ->)%on_auth_ok & E).
  apply bind_ok in E as ([] & s2 & E2%gas3_ok & [-> ->]%ret_ok). split; [done|]. destruct E2. by split.
Qed.

Lemma get_params_ok s r s' : get_params s = (Ok r, s') -> r = default (mkAuthParams 0 0 0 0 0) (as_params (st_auth s)) /\ gas_only s s'.
Proof.
  unfold get_params. intros E. apply bind_ok in E as (n & s1 & (x & [-> ->]%reads_ok & ->)%on_auth_ok & E).
  apply bind_ok in E as ([] & s2 & E2%gas3_ok & (x & [-> ->]%reads_ok & ->)%on_auth_ok). destruct E2 as [Ea Eb Eg Ee Em]. rewrite Ea. split; [done|]. by split.
Qed.

Lemma GetSignerAcc_ok a s r s' : GetSignerAcc a s = (Ok r, s') -> as_accounts (st_auth s) !! a = Some r /\ gas_only s s'.
Proof. unfold GetSignerAcc. intros E. apply bind_ok in E as (acc & s1 & [-> Hg]%get_account_ok & E). destruct (as_accounts _ !! a); [|done]. by apply ret_ok in E as [-> ->]. Qed.

(** A step that only changes the account store, besides gas. *)
Record auth_only s s' : Prop := {
  ao_bank : st_bank s' = st_bank s;
  ao_grants : st_grants s' = st_grants s;
  ao_meter : meter_kept (st_meter s) (st_meter s');
}.

#[local] Instance auth_only_refl : Reflexive auth_only.
Proof. by intros s. Qed.
#[local] Instance auth_only_trans : Transitive auth_only.
Proof. intros s1 s2 s3 [] []. split; try congruence. by etrans. Qed.
Lemma gas_auth_only s s' : gas_only s s' -> auth_only s s'.
Proof. by intros []. Qed.

Lemma set_account_ok acc s u s' : set_account acc s = (Ok u, s') -> st_auth s' = snd (SetAccount acc (st_auth s)) /\ auth_only s s'.
Proof.
  unfold set_account. intros E. apply bind_ok in E as ([] & s1 & E1%gas3_ok & E). apply bind_ok in E as ([] & s2 & E2%gas3_ok & E).
  apply on_auth_ok in E as (x & Ex & ->). assert (gas_only s s2) as [Ea Eb Eg Ee Em] by by etrans.
  rewrite Ea in Ex. rewrite Ex. split; [done|]. by split.
Qed.

(** *** Accounts before and after *)

(** Every account changes by [R], no account appears or goes. *)
Record accounts_step (R : string -> Account -> Account -> Prop) (a a' : AuthState) : Prop := {
  as_wf : auth_wf a';
  as_same_params : as_params a' = as_params a;
  as_same_next : as_global a' = as_global a;
  as_none k : as_accounts a !! k = None -> as_accounts a' !! k = None;
  as_some k x : as_accounts a !! k = Some x -> exists y, as_accounts a' !! k = Some y /\ R k x y;
}.

Lemma accounts_step_refl (R : string -> Account -> Account -> Prop) a : auth_wf a -> (forall k x, R k x x) -> accounts_step R a a.
Proof. intros Hwf HR. split; try done. eauto. Qed.

Lemma accounts_step_trans (R1 R2 R3 : string -> Account -> Account -> Prop) a1 a2 a3 :
  accounts_step R1 a1 a2 -> accounts_step R2 a2 a3 -> (forall k x y z, R1 k x y -> R2 k y z -> R3 k x z) -> accounts_step R3 a1 a3.
Proof.
  intros [W1 P1 N1 X1 Y1] [W2 P2 N2 X2 Y2] HR. split; [done|congruence|congruence|eauto|].
  intros k x (y & Hy & Hxy)%Y1. destruct (Y2 k y Hy) as (z & Hz & Hyz). eauto.
Qed.

Lemma accounts_step_set (R : string -> Account -> Account -> Prop) a k x y : auth_wf a -> as_accounts a !! k = Some x -> acc_Address y = k ->
  acc_AccountNumber y = acc_AccountNumber x -> R k x y -> (forall k x, R k x x) -> accounts_step R a (snd (SetAccount y a)).
Proof.
  intros Hwf Hx Ek En Hxy HR. destruct (SetAccount_update a k x y Hwf Hx Ek En) as (a' & E & Hwf' & Ea & _ & Eg & Ep). rewrite E. cbn [snd].
  split; [done|done|done| |]; rewrite Ea.
  - intros k' Hk'. by rewrite lookup_insert_ne by congruence.
  - intros k' x' Hx'. destruct (decide (k = k')) as [<-|Hne]; [|rewrite lookup_insert_ne by done; eauto].
    rewrite lookup_insert_eq. exists y. split; [done|]. congruence.
Qed.

(** *** SetPubKeyDecorator *)

Definition with_key (acc : Account) (pk : PubKey) : Account :=
  mkAccount (acc_Address acc) (Some pk) (acc_AccountNumber acc) (acc_Sequence acc) (acc_kind acc).

(** An account without a key gets one; outside simulations it is the key of a
    signer info of this account and hashes to its address. *)
Definition key_set (simulate : bool) (l : list (string * option PubKey)) (k : string) (x y : Account) : Prop :=
  y = x \/ exists p, acc_PubKey x = None /\ y = with_key x p /\ (simulate = true \/ ((k, Some p) ∈ l /\ PubKey_Address p = k)).

Lemma key_set_weaken simulate l l' k x y : l ⊆ l' -> key_set simulate l k x y -> key_set simulate l' k x y.
Proof. intros Hl [->|(p & Hx & -> & Hp)]; [by left|]. right. exists p. split; [done|]. split; [done|]. destruct Hp as [?|[? ?]]; [by left|right; eauto]. Qed.

Lemma key_set_trans simulate l k x y z : key_set simulate l k x y -> key_set simulate l k y z -> key_set simulate l k x z.
Proof. intros [->|(p & Hx & -> & Hp)]; [done|]. intros [->|(q & [=] & _)]. right. eauto. Qed.

Lemma set_pubkey_ok simulate signer pk s u s' : set_pubkey simulate signer pk s = (Ok u, s') -> auth_wf (st_auth s) ->
  accounts_step (key_set simulate [(signer, pk)]) (st_auth s) (st_auth s') /\ auth_only s s'.
Proof.
  unfold set_pubkey. intros E Hwf.
  assert (forall s', gas_only s s' -> accounts_step (key_set simulate [(signer, pk)]) (st_auth s) (st_auth s') /\ auth_only s s') as Hsame.
  { intros s1 Hg. split; [|by apply gas_auth_only]. destruct Hg as [-> _ _ _ _]. apply accounts_step_refl; [done|]. by left. }
  destruct (match pk with Some _ => _ | None => _ end) as [p|] eqn:Ep; [|apply ret_ok in E as [_ ->]; by apply Hsame].
  destruct (_ && _) eqn:Eaddr; [done|]. apply bind_ok in E as (acc & s1 & [Hacc Hg]%GetSignerAcc_ok & E).
  destruct (acc_PubKey acc) as [q|] eqn:Eq; [apply ret_ok in E as [_ ->]; by apply Hsame|].
  apply bind_ok in E as (acc' & s2 & [Eset ->]%lift_ok & E). assert (acc' = with_key acc p) as ->.
  { unfold SetPubKey in Eset. destruct (acc_kind acc) eqn:Ek; [| |done]; injection Eset as <-; unfold with_key; by rewrite Ek. }
  apply set_account_ok in E as [-> Ha]. split; [|etrans; [by apply gas_auth_only|done]].
  destruct Hg as [-> _ _ _ _]. eapply accounts_step_set; [done|exact Hacc|cbn; by eapply wf_address|done| |by left].
  right. exists p. split; [done|]. split; [done|]. destruct simulate; [by left|right]. destruct pk as [pk|]; [|done]. injection Ep as ->.
  cbn in Eaddr. apply negb_false_iff, bool_decide_eq_true in Eaddr. split; [by apply list_elem_of_here|done].
Qed.

Lemma set_pubkeys_ok simulate pubkeys signers s u s' : set_pubkeys simulate pubkeys signers s = (Ok u, s') -> auth_wf (st_auth s) ->
  accounts_step (key_set simulate (zip signers pubkeys)) (st_auth s) (st_auth s') /\ auth_only s s'.
Proof.
  revert signers s. induction pubkeys as [|pk pubkeys IH]; intros signers s E Hwf; cbn [set_pubkeys] in E.
  - apply ret_ok in E as [_ ->]. split; [|done]. apply accounts_step_refl; [done|]. by left.
  - apply bind_ok in E as ([] & s1 & E1 & E). destruct signers as [|signer signers].
    + assert (s1 = s) as -> by (destruct pk, simulate; try done; by apply ret_ok in E1 as [_ ->]). by apply (IH [] s E).
    + apply set_pubkey_ok in E1 as [A1 O1]; [|done]. apply (IH signers s1) in E as [A2 O2]; [|by destruct A1]. split; [|by etrans].
      eapply accounts_step_trans; [exact A1|exact A2|]. intros k x y z K1 K2. cbn [zip_with tail] in *.
      eapply key_set_trans; (eapply key_set_weaken; [|eassumption]); intros e; [intros ->%list_elem_of_singleton; by left|by right].
Qed.

(** *** Sequences *)

Definition bump_sequence (acc : Account) : Account := SetSequence acc (wrap_u64 (acc_Sequence acc + 1)).
Definition times (k : string) (l : list string) : nat := count_occ string_dec l k.
Definition bumped (l : list string) (k : string) (x y : Account) : Prop := y = Nat.iter (times k l) bump_sequence x.

Lemma increment_sequence_ok addr s u s' : increment_sequence addr s = (Ok u, s') -> auth_wf (st_auth s) ->
  accounts_step (bumped [addr]) (st_auth s) (st_auth s') /\ auth_only s s'.
Proof.
  unfold increment_sequence. intros E Hwf. apply bind_ok in E as (acc & s1 & [-> Hg]%get_account_ok & E).
  destruct (as_accounts (st_auth s) !! addr) as [acc|] eqn:Hacc; [|done]. apply set_account_ok in E as [-> Ha].
  split; [|etrans; [by apply gas_auth_only|done]]. destruct Hg as [-> _ _ _ _].
  destruct (SetAccount_update (st_auth s) addr acc (bump_sequence acc) Hwf Hacc) as (a & E & Hwf' & Ea & _ & Eg & Ep); [cbn; by eapply wf_address|done|].
  unfold bump_sequence in E. rewrite E. cbn [snd]. split; [done|done|done| |]; rewrite Ea; unfold bumped, times; cbn.
  - intros k Hk. by rewrite lookup_insert_ne by congruence.
  - intros k x Hx. destruct (string_dec addr k) as [<-|Hne]; [|rewrite lookup_insert_ne by done; eauto]. rewrite lookup_insert_eq. rewrite Hacc in Hx. injection Hx as ->. eauto.
Qed.

Lemma increments_ok signers s u s' : for_each signers increment_sequence s = (Ok u, s') -> auth_wf (st_auth s) ->
  accounts_step (bumped signers) (st_auth s) (st_auth s') /\ auth_only s s'.
Proof.
  revert s. induction signers as [|a signers IH]; intros s E Hwf; cbn [for_each] in E.
  - apply ret_ok in E as [_ ->]. split; [|done]. by apply accounts_step_refl.
  - apply bind_ok in E as ([] & s1 & [A1 O1]%increment_sequence_ok & E); [|done]. apply IH in E as [A2 O2]; [|by destruct A1]. split; [|by etrans].
    eapply accounts_step_trans; [exact A1|exact A2|]. unfold bumped. intros k x y z -> ->. rewrite <- Nat.iter_add. f_equal.
    unfold times. cbn. destruct (string_dec a k); lia.
Qed.

(** *** Loops over the signatures *)

Lemma for_signatures_ok (P : AuthState -> string -> SignatureV2 -> Prop) (f : string -> SignatureV2 -> M State unit) sigs signers s u s' :
  (forall signer sg s u s', f signer sg s = (Ok u, s') -> gas_only s s' /\ P (st_auth s) signer sg) ->
  length sigs = length signers -> for_signatures f sigs signers s = (Ok u, s') -> gas_only s s' /\ Forall2 (P (st_auth s)) signers sigs.
Proof.
  intros Hf. revert signers s. induction sigs as [|sg sigs IH]; intros [|signer signers] s Hl E; try done; cbn [for_signatures] in E.
  - by apply ret_ok in E as [_ ->].
  - apply bind_ok in E as ([] & s1 & [G1 P1]%Hf & E). apply IH in E as [G2 P2]; [|by injection Hl]. split; [by etrans|]. constructor; [done|].
    destruct G1 as [Ea _ _ _ _]. by rewrite Ea in P2.
Qed.

Lemma for_signatures_gas (f : string -> SignatureV2 -> M State unit) sigs signers s u s' :
  (forall signer sg s u s', f signer sg s = (Ok u, s') -> gas_only s s') -> for_signatures f sigs signers s = (Ok u, s') -> gas_only s s'.
Proof.
  intros Hf. revert signers s. induction sigs as [|sg sigs IH]; intros [|signer signers] s E; try done; cbn [for_signatures] in E.
  1, 2: by apply ret_ok in E as [_ ->].
  apply bind_ok in E as ([] & s1 & G1%Hf & E). etrans; [exact G1|by eapply IH].
Qed.

(** What SigVerificationDecorator has checked of a signer and a signature. *)
Definition signature_checked (tx : Tx Msg) (ctx : AnteCtx) (simulate : bool) (a : AuthState) (signer : string) (sg : SignatureV2) : Prop :=
  exists acc, as_accounts a !! signer = Some acc /\ sig_Sequence sg = acc_Sequence acc /\
    (simulate = false -> exists pk, acc_PubKey acc = Some pk /\
      (IsReCheckTx ctx = false -> VerifySignature (fun mode => GetSignBytes mode (signer_data ctx acc) tx) pk (sig_Data sg) = Ok tt)).

Lemma verify_signature_ok tx ctx simulate signer sg s u s' : verify_signature tx ctx simulate signer sg s = (Ok u, s') ->
  gas_only s s' /\ signature_checked tx ctx simulate (st_auth s) signer sg.
Proof.
  unfold verify_signature, signature_checked. intros E. apply bind_ok in E as (acc & s1 & [Hacc Hg] %GetSignerAcc_ok & E).
  destruct (negb simulate && match acc_PubKey acc with None => true | _ => false end) eqn:Ek; [done|].
  destruct (Z.eqb_spec (sig_Sequence sg) (acc_Sequence acc)) as [Es|]; [|done]. cbn [negb] in E.
  assert (s1 = s' /\ (simulate = false -> exists pk, acc_PubKey acc = Some pk /\
    (IsReCheckTx ctx = false -> VerifySignature (fun mode => GetSignBytes mode (signer_data ctx acc) tx) pk (sig_Data sg) = Ok tt))) as [<- Hv]; [|by eauto].
  destruct simulate; [apply ret_ok in E as [_ ->]; done|]. destruct (acc_PubKey acc) as [pk|]; [|done].
  destruct (IsReCheckTx ctx); cbn in E; [apply ret_ok in E as [_ ->]; split; [done|intros _; exists pk; by split]|].
  destruct (VerifySignature _ pk (sig_Data sg)) as [[]|e|] eqn:Ev; [|done..]. apply lift_ok in E as [_ ->]. split; [done|]. intros _. by exists pk.
Qed.

(** *** One decorator at a time *)

Section Decorators.
Context (tx : Tx Msg) (next : AnteHandler (B := B) (G := G)) (ctx : AnteCtx) (simulate : bool).
Context (s : State) (c : AnteCtx) (s' : State).

Lemma the_fee_ok fee : the_fee tx = Ok fee -> tx_Fee tx = Some fee.
Proof. unfold the_fee. by destruct (tx_Fee tx) as [?|]; [intros [= ->]|]. Qed.

Lemma SetUpContext_ok : SetUpContextDecorator tx next ctx simulate s = (Ok c, s') -> exists fee s1,
  tx_Fee tx = Some fee /\ next ctx simulate s1 = (Ok c, s') /\
  (forall maxGas, ac_MaxGas ctx = Some maxGas -> 0 < maxGas -> GasLimit fee <= wrap_u64 maxGas) /\
  st_auth s1 = st_auth s /\ st_bank s1 = st_bank s /\ st_grants s1 = st_grants s /\
  st_meter s1 = if simulate || (ac_Height ctx =? 0) then NewInfiniteGasMeter else NewGasMeter (GasLimit fee).
Proof.
  unfold SetUpContextDecorator, GetGas. intros E. apply bind_ok in E as (gas & s1 & [Eg ->]%lift_ok & E).
  destruct (the_fee tx) as [fee|e|] eqn:Ef; [|done..]. apply the_fee_ok in Ef. injection Eg as <-.
  apply bind_ok in E as ([] & s1 & Em & E). unfold SetGasMeter, on_meter, modify in Em. injection Em as <-.
  match type of E with (if ?b then _ else _) _ = _ => destruct b eqn:Eb; [done|] end.
  eexists fee, _. split; [done|]. split.
  - unfold recover_out_of_gas in E. destruct (next _ _ _) as [[|e|] s2] eqn:En; [|done|by case_bool_decide]. by injection E as -> ->.
  - split; [|done]. intros maxGas Hm Hpos. rewrite Hm in Eb. apply andb_false_iff in Eb as [?%Z.ltb_ge|?%Z.ltb_ge]; lia.
Qed.

Lemma ExtensionOptions_ok checker : ExtensionOptionsDecorator checker tx next ctx simulate s = (Ok c, s') ->
  next ctx simulate s = (Ok c, s') /\ Forall (fun opt => default rejectExtensionOption checker opt = true) (ExtensionOptions tx).
Proof.
  unfold ExtensionOptionsDecorator, checkExtOpts. intros E. apply bind_ok in E as ([] & s1 & [Ec ->]%lift_ok & E). split; [done|].
  destruct (forallb _ _) eqn:Ef; [|done]. rewrite Forall_forall. rewrite forallb_forall in Ef. intros x Hx. by apply Ef, list_elem_of_In.
Qed.

Lemma ValidateBasic_ok : ValidateBasicDecorator tx next ctx simulate s = (Ok c, s') ->
  next ctx simulate s = (Ok c, s') /\ (IsReCheckTx ctx = false -> tx_ValidateBasic tx = Ok tt).
Proof.
  unfold ValidateBasicDecorator. destruct (IsReCheckTx ctx); [done|]. intros E. by apply bind_ok in E as ([] & s1 & [Ec ->]%lift_ok & E).
Qed.

Lemma TxTimeoutHeight_ok : TxTimeoutHeightDecorator tx next ctx simulate s = (Ok c, s') ->
  next ctx simulate s = (Ok c, s') /\ (0 < TimeoutHeight tx -> wrap_u64 (ac_Height ctx) <= TimeoutHeight tx).
Proof.
  unfold TxTimeoutHeightDecorator. destruct (_ && _) eqn:Eb; [done|]. split; [done|]. apply andb_false_iff in Eb as [?%Z.ltb_ge|?%Z.ltb_ge]; lia.
Qed.

Definition the_params (a : AuthState) : AuthParams := default (mkAuthParams 0 0 0 0 0) (as_params a).

Lemma ValidateMemo_ok : ValidateMemoDecorator tx next ctx simulate s = (Ok c, s') -> exists s1,
  next ctx simulate s1 = (Ok c, s') /\ gas_only s s1 /\ (0 < len_gas (Memo tx) -> len_gas (Memo tx) <= MaxMemoCharacters (the_params (st_auth s))).
Proof.
  unfold ValidateMemoDecorator. intros E. apply bind_ok in E as ([] & s1 & Em & E). exists s1. split; [done|].
  destruct (Z.ltb_spec 0 (len_gas (Memo tx))); [|apply ret_ok in Em as [_ ->]; split; [done|lia]].
  apply bind_ok in Em as (params & s2 & [-> Hg]%get_params_ok & Em). fold (the_params (st_auth s)) in Em.
  destruct (Z.ltb_spec (MaxMemoCharacters (the_params (st_auth s))) (len_gas (Memo tx))); [done|]. by apply ret_ok in Em as [_ ->].
Qed.
End Decorators.

Lemma simulate_sigs_ok params signers sigs s u s' : simulate_sigs params signers sigs s = (Ok u, s') -> gas_only s s'.
Proof.
  revert sigs s. induction signers as [|signer signers IH]; intros sigs s E; cbn [simulate_sigs] in E; [by apply ret_ok in E as [_ ->]|].
  apply bind_ok in E as ([] & s1 & E1 & E%IH). etrans; [|exact E].
  match type of E1 with (if ?b then _ else _) _ = _ => destruct b end; [by apply ret_ok in E1 as [_ ->]|].
  unfold sim_signature_gas in E1. apply bind_ok in E1 as (acc & s2 & [_ Hg]%get_account_ok & E1%use_gas_ok). by etrans.
Qed.

Lemma ConsumeTxSizeGas_ok tx next ctx simulate s (c : AnteCtx) s' : ConsumeTxSizeGasDecorator tx next ctx simulate s = (Ok c, s') -> exists s1,
  next ctx simulate s1 = (Ok c, s') /\ gas_only s s1.
Proof.
  unfold ConsumeTxSizeGasDecorator. intros E. apply bind_ok in E as (params & s1 & [_ G1]%get_params_ok & E).
  apply bind_ok in E as ([] & s2 & G2%use_gas_ok & E). apply bind_ok in E as ([] & s3 & G3 & E). exists s3. split; [done|].
  etrans; [exact G1|etrans; [exact G2|]]. destruct simulate; [|by apply ret_ok in G3 as [_ ->]].
  apply bind_ok in G3 as (sigs & s4 & [_ ->]%lift_ok & G3). apply bind_ok in G3 as (signers & s4 & [_ ->]%lift_ok & G3). by eapply simulate_sigs_ok.
Qed.

(** *** Fees *)

(** [from] pays [fee] into the fee collector; a granter other than the payer
    has a grant that accepts it. *)
Definition grant_used (ctx : AnteCtx) (granter grantee : string) (fee : list Coin) (msgs : list Msg) (g : G) : Prop :=
  exists m evs u r, UseGrantedFees (ac_Ctx ctx) granter grantee fee msgs (m, evs, g) = (Ok u, r).

Definition fee_moved (feegrant : bool) (ctx : AnteCtx) (tx : Tx Msg) (fee : list Coin) s s' : Prop :=
  exists payer granter, FeePayer tx = Ok payer /\ FeeGranter tx = Ok granter /\
    (granter = None \/ feegrant = true) /\
    (forall g, granter = Some g -> g <> payer -> grant_used ctx g payer fee (Messages tx) (st_grants s)) /\
    as_accounts (st_auth s) !! default payer granter <> None /\
    (if Coins_IsZero fee then st_bank s' = st_bank s else
     exists fc, Bank.GetModuleAddress (B := B) FeeCollectorName = Some fc /\ Coins_Validate fee = true /\
       transferred (st_bank s) (st_bank s') (default payer granter) fc fee).

Record fee_paid (feegrant : bool) (ctx : AnteCtx) (tx : Tx Msg) (fee : list Coin) s s' : Prop := {
  fp_from : fee_moved feegrant ctx tx fee s s';
  fp_auth : st_auth s' = st_auth s;
  fp_meter : meter_kept (st_meter s) (st_meter s');
}.

Lemma DeductFees_ok ctx acc fee s u s' : DeductFees ctx acc fee s = (Ok u, s') ->
  Coins_Validate fee = true /\ st_auth s' = st_auth s /\ meter_kept (st_meter s) (st_meter s') /\
  exists fc, Bank.GetModuleAddress (B := B) FeeCollectorName = Some fc /\ transferred (st_bank s) (st_bank s') (acc_Address acc) fc fee.
Proof.
  unfold DeductFees. destruct (Coins_Validate fee); [cbn [negb]|done]. intros E.
  apply bind_ok in E as (gas & s1 & E1 & E). unfold on_bank, reads in E1. injection E1 as <- <-. destruct s as [sa sb sg sm se]. cbn in E.
  apply bind_ok in E as ([] & s1 & [Ea Eb Eg Ee Em]%use_gas_ok & E%map_err_ok). unfold on_bank in E.
  destruct (SendCoinsFromAccountToModule _ _ _ _ _) as [r b] eqn:Es. injection E as -> <-. cbn in *. split; [done|]. split; [done|]. split; [done|].
  rewrite Eb in Es. by apply send_to_module in Es.
Qed.

Lemma use_grant_ok ctx g grantee fee msgs s u s' : use_grant ctx g grantee fee msgs s = (Ok u, s') ->
  st_auth s' = st_auth s /\ st_bank s' = st_bank s /\ meter_kept (st_meter s) (st_meter s') /\
  grant_used ctx g grantee fee msgs (st_grants s).
Proof.
  unfold use_grant. intros E. apply bind_ok in E as (gas & s1 & E1 & E). unfold on_grants, reads in E1. injection E1 as <- <-. destruct s as [sa sb sg sm se]. cbn in E.
  apply bind_ok in E as ([] & s1 & [Ea Eb Eg Ee Em]%use_gas_ok & E%map_err_ok). unfold on_grants in E.
  destruct (UseGrantedFees _ _ _ _ _ _) as [r [[m evs] gr]] eqn:Es. injection E as -> <-. cbn in *. pose proof (grants_meter_kept _ _ _ _ _ _ _ _ _ _ _ _ Es) as Hk. rewrite Eg in Es.
  split_and!; [done|done|by etrans|]. by eexists _, _, _, _.
Qed.

Lemma deduct_fees_from_ok feegrant ctx tx fee s from s' : deduct_fees_from feegrant ctx tx fee s = (Ok from, s') ->
  exists payer granter, FeePayer tx = Ok payer /\ FeeGranter tx = Ok granter /\ (granter = None \/ feegrant = true) /\
    (forall g, granter = Some g -> g <> payer -> grant_used ctx g payer fee (Messages tx) (st_grants s)) /\
    from = default payer granter /\ st_auth s' = st_auth s /\ st_bank s' = st_bank s /\ meter_kept (st_meter s) (st_meter s').
Proof.
  unfold deduct_fees_from. intros E. apply bind_ok in E as (payer & s1 & [Ep ->]%lift_ok & E). apply bind_ok in E as (granter & s1 & [Eg ->]%lift_ok & E).
  exists payer, granter. split; [done|]. split; [done|]. destruct granter as [g|]; [|apply ret_ok in E as [-> ->]; by split_and!; [left|..]].
  destruct feegrant; [cbn [negb] in E|done]. split; [by right|]. apply bind_ok in E as ([] & s1 & Ew & [-> ->]%ret_ok).
  apply when_ok in Ew as [[Hne%bool_decide_eq_true Eu%use_grant_ok]|[Heq%bool_decide_eq_false ->]].
  - destruct Eu as (Ea & Eb & Em & Hu). split_and!; [|done..]. by intros ? [= <-] _.
  - split_and!; [|done..]. intros ? [= <-]. done.
Qed.

Lemma checkDeductFee_ok feegrant ctx tx fee s u s' : checkDeductFee feegrant ctx tx fee s = (Ok u, s') -> auth_wf (st_auth s) ->
  fee_paid feegrant ctx tx fee s s'.
Proof.
  unfold checkDeductFee. case_bool_decide; [done|]. intros E Hwf.
  apply bind_ok in E as (from & s1 & (payer & granter & Ep & Eg & Hf & Hgr & -> & Ea & Eb & Em)%deduct_fees_from_ok & E).
  apply bind_ok in E as (acc & s2 & [-> [Ea2 Eb2 Eg2 Ee2 Em2]]%get_account_ok & E).
  destruct (as_accounts (st_auth s1) !! default payer granter) as [acc|] eqn:Eacc; [|done]. rewrite Ea in Eacc.
  apply bind_ok in E as ([] & s3 & Ew & E). unfold EmitEvents in E. injection E as _ <-.
  apply when_ok in Ew as [[Hz Ew%DeductFees_ok]|[Hz ->]].
  - destruct Ew as (Hv & Ea3 & Em3 & fc & Efc & Ht). split; cbn; [|congruence|by etrans; [|etrans]].
    exists payer, granter. split_and!; try done; [by rewrite Eacc|]. apply negb_true_iff in Hz. rewrite Hz. exists fc. split_and!; try done.
    rewrite Eb2, Eb in Ht. by rewrite (wf_address _ Hwf _ _ Eacc) in Ht.
  - split; cbn; [|congruence|by etrans]. exists payer, granter. split_and!; try done; [by rewrite Eacc|]. apply negb_false_iff in Hz. rewrite Hz. cbn. congruence.
Qed.

(** What the default fee checker asks of a transaction in CheckTx. *)
Definition fees_suffice (ctx : AnteCtx) (fee : Fee) : Prop :=
  IsCheckTx ctx = false \/ forallb (fun gp => gp.2 =? 0) (MinGasPrices ctx) = true \/
  exists required, required_fees (MinGasPrices ctx) (NewDecFromInt (wrap_i64 (GasLimit fee))) = Ok required /\ IsAnyGTE (fee_Amount fee) required = Ok true.

Lemma checkTxFee_ok ctx tx fee r : tx_Fee tx = Some fee -> checkTxFeeWithValidatorMinGasPrices ctx tx = Ok r ->
  fst r = fee_Amount fee /\ fees_suffice ctx fee.
Proof.
  intros Hfee. unfold checkTxFeeWithValidatorMinGasPrices, GetFee, GetGas, the_fee, fees_suffice. rewrite Hfee. cbn [obind].
  destruct (IsCheckTx ctx); cbn [andb].
  - destruct (forallb _ _); cbn [negb].
    + cbn [obind]. destruct (getTxPriority _ _); intros [= <-]; eauto.
    + destruct (required_fees _ _) as [required|e|]; [|done..]. cbn [obind]. destruct (IsAnyGTE (fee_Amount fee) required) as [[]|e|] eqn:Eg; [|done..].
      cbn [obind]. destruct (getTxPriority _ _); intros [= <-]. eauto 10.
  - cbn [obind]. destruct (getTxPriority _ _); intros [= <-]; eauto.
Qed.

Lemma DeductFee_ok feegrant checker tx next ctx simulate s (c : AnteCtx) s' fee : tx_Fee tx = Some fee -> auth_wf (st_auth s) ->
  DeductFeeDecorator feegrant checker tx next ctx simulate s = (Ok c, s') -> exists p s1 paid,
  next (WithPriority p ctx) simulate s1 = (Ok c, s') /\ fee_paid feegrant ctx tx paid s s1 /\
  (simulate = false -> 0 < ac_Height ctx -> GasLimit fee <> 0) /\
  (checker = None -> simulate = false -> paid = fee_Amount fee /\ fees_suffice ctx fee).
Proof.
  intros Hfee Hwf. unfold DeductFeeDecorator, GetGas, GetFee. unfold the_fee. rewrite Hfee. cbn [obind]. intros E.
  apply bind_ok in E as (gas & s1 & [[= <-] ->]%lift_ok & E). destruct (_ && _) eqn:Eb; [done|].
  apply bind_ok in E as (fees & s1 & [[= <-] ->]%lift_ok & E). apply bind_ok in E as ([paid p] & s1 & [Ec ->]%lift_ok & E). cbn [fst snd] in E.
  apply bind_ok in E as ([] & s1 & Hp%checkDeductFee_ok & E); [|done]. exists p, s1, paid. split; [done|]. split; [done|]. split.
  - intros -> Hh%Z.ltb_lt. rewrite Hh in Eb. cbn in Eb. by apply Z.eqb_neq.
  - intros -> ->. cbn in Ec. by eapply (checkTxFee_ok _ _ _ _ Hfee) in Ec.
Qed.

(** *** Signatures *)

Lemma SetPubKey_ok tx next ctx simulate s (c : AnteCtx) s' : auth_wf (st_auth s) -> SetPubKeyDecorator tx next ctx simulate s = (Ok c, s') ->
  exists s1 signers sigs, next ctx simulate s1 = (Ok c, s') /\ GetSigners tx = Ok signers /\ GetSignaturesV2 tx = Ok sigs /\
    accounts_step (key_set simulate (zip signers (GetPubKeys tx))) (st_auth s) (st_auth s1) /\ auth_only s s1.
Proof.
  unfold SetPubKeyDecorator. intros Hwf E. apply bind_ok in E as (signers & s1 & [Es ->]%lift_ok & E).
  apply bind_ok in E as ([] & s1 & [A O]%set_pubkeys_ok & E); [|done]. apply bind_ok in E as (sigs & s2 & [Eg ->]%lift_ok & E).
  apply bind_ok in E as (events & s2 & [_ ->]%lift_ok & E). apply bind_ok in E as ([] & s2 & Ee & E). unfold EmitEvents in Ee. injection Ee as <-.
  eexists _, signers, sigs. split; [exact E|]. split_and!; try done. by destruct O.
Qed.

(** The number of keys a transaction has to verify. *)
Definition sig_count (pubKeys : list (option PubKey)) : Z := foldr (fun pk n => (match pk with Some k => CountSubKeys k | None => 1 end) + n) 0 pubKeys.

Lemma count_sigs_ok l pubKeys n : count_sigs l pubKeys n = Ok tt -> pubKeys <> [] -> n + sig_count pubKeys <= l.
Proof.
  revert n. induction pubKeys as [|pk pubKeys IH]; intros n E Hne; [done|]. cbn [count_sigs] in E. cbn [sig_count foldr]. fold (sig_count pubKeys).
  destruct (Z.ltb_spec l (n + match pk with Some k => CountSubKeys k | None => 1 end)); [done|]. destruct pubKeys as [|pk' pubKeys]; [cbn; lia|].
  apply IH in E; [lia|done].
Qed.

Lemma ValidateSigCount_ok tx next ctx simulate s (c : AnteCtx) s' : ValidateSigCountDecorator tx next ctx simulate s = (Ok c, s') -> exists s1,
  next ctx simulate s1 = (Ok c, s') /\ gas_only s s1 /\ (GetPubKeys tx <> [] -> sig_count (GetPubKeys tx) <= TxSigLimit (the_params (st_auth s))).
Proof.
  unfold ValidateSigCountDecorator. intros E. apply bind_ok in E as (params & s1 & [-> Hg]%get_params_ok & E).
  apply bind_ok in E as ([] & s2 & [Ec ->]%lift_ok & E). exists s1. split; [done|]. split; [done|]. intros Hne. by apply (count_sigs_ok _ _ 0) in Ec.
Qed.

(** What SigGasConsumeDecorator has asked of the consumer. *)
Definition gas_checked (consumer : SigGasConsumer) (a : AuthState) (signer : string) (sg : SignatureV2) : Prop :=
  exists acc, as_accounts a !! signer = Some acc /\
    forall pk, acc_PubKey acc = Some pk -> exists params m u m', consumer params pk (sig_Data sg) m = (Ok u, m').

Lemma consume_sig_gas_ok consumer params simulate signer sg s u s' : consumer_kept consumer ->
  consume_sig_gas consumer params simulate signer sg s = (Ok u, s') -> gas_only s s' /\ gas_checked consumer (st_auth s) signer sg.
Proof.
  intros Hk E. unfold consume_sig_gas in E. apply bind_ok in E as (acc & s1 & [Hacc Hg]%GetSignerAcc_ok & E).
  destruct (match acc_PubKey acc with Some _ => _ | None => _ end) as [k|] eqn:Ek; [|done]. unfold on_meter in E.
  destruct (consumer params k (sig_Data sg) (st_meter s1)) as [r m] eqn:Em. injection E as -> <-. split.
  - etrans; [exact Hg|]. split; try done. cbn. by eapply Hk.
  - exists acc. split; [done|]. intros pk Hpk. rewrite Hpk in Ek. injection Ek as ->. eauto.
Qed.

Lemma SigGasConsume_ok consumer tx next ctx simulate s (c : AnteCtx) s' : consumer_kept (default DefaultSigVerificationGasConsumer consumer) ->
  SigGasConsumeDecorator consumer tx next ctx simulate s = (Ok c, s') -> exists s1, next ctx simulate s1 = (Ok c, s') /\ gas_only s s1 /\
    forall signers sigs, GetSigners tx = Ok signers -> GetSignaturesV2 tx = Ok sigs -> length sigs = length signers ->
      Forall2 (gas_checked (default DefaultSigVerificationGasConsumer consumer) (st_auth s)) signers sigs.
Proof.
  unfold SigGasConsumeDecorator. intros Hk E. apply bind_ok in E as (params & s1 & [_ G1]%get_params_ok & E).
  apply bind_ok in E as (sigs & s2 & [Eg ->]%lift_ok & E). apply bind_ok in E as (signers & s2 & [Es ->]%lift_ok & E).
  apply bind_ok in E as ([] & s2 & G2 & E). exists s2. split; [done|]. split.
  - etrans; [exact G1|]. revert G2. apply for_signatures_gas. intros signer sg s3 u s4 Ec. by eapply consume_sig_gas_ok in Ec as [? _].
  - intros signers' sigs' Es' Eg' Hl. rewrite Es in Es'. injection Es' as <-. rewrite Eg in Eg'. injection Eg' as <-. destruct G1 as [<- _ _ _ _].
    eapply (for_signatures_ok (gas_checked (default DefaultSigVerificationGasConsumer consumer))) in G2 as [_ ?]; [done| |done].
    intros signer sg s3 u s4. by apply consume_sig_gas_ok.
Qed.

Lemma SigVerification_ok tx next ctx simulate s (c : AnteCtx) s' : SigVerificationDecorator tx next ctx simulate s = (Ok c, s') ->
  exists s1 signers sigs, next ctx simulate s1 = (Ok c, s') /\ gas_only s s1 /\ GetSigners tx = Ok signers /\ GetSignaturesV2 tx = Ok sigs /\
    Forall2 (signature_checked tx ctx simulate (st_auth s)) signers sigs.
Proof.
  unfold SigVerificationDecorator. intros E. apply bind_ok in E as (sigs & s1 & [Eg ->]%lift_ok & E).
  apply bind_ok in E as (signers & s1 & [Es ->]%lift_ok & E). destruct (Nat.eqb_spec (length sigs) (length signers)) as [Hl|]; [cbn [negb] in E|done].
  apply bind_ok in E as ([] & s1 & E1 & E). exists s1, signers, sigs. split; [done|].
  eapply (for_signatures_ok (signature_checked tx ctx simulate)) in E1 as [? ?]; [done| |done]. intros signer sg s2 u s3. apply verify_signature_ok.
Qed.

Lemma IncrementSequence_ok tx next ctx simulate s (c : AnteCtx) s' : auth_wf (st_auth s) -> IncrementSequenceDecorator tx next ctx simulate s = (Ok c, s') ->
  exists s1 signers, next ctx simulate s1 = (Ok c, s') /\ GetSigners tx = Ok signers /\ accounts_step (bumped signers) (st_auth s) (st_auth s1) /\ auth_only s s1.
Proof.
  unfold IncrementSequenceDecorator. intros Hwf E. apply bind_ok in E as (signers & s1 & [Es ->]%lift_ok & E).
  apply bind_ok in E as ([] & s1 & [A O]%increments_ok & E); [|done]. by exists s1, signers.
Qed.

(** ** The whole chain *)

(** The checks of an accepted transaction that do not concern accounts. *)
Record well_formed_tx (options : HandlerOptions (Msg := Msg)) (tx : Tx Msg) (ctx : AnteCtx) (simulate : bool) (a : AuthState) (fee : Fee) : Prop := {
  wt_fee : tx_Fee tx = Some fee;
  wt_max_gas maxGas : ac_MaxGas ctx = Some maxGas -> 0 < maxGas -> GasLimit fee <= wrap_u64 maxGas;
  wt_gas : simulate = false -> 0 < ac_Height ctx -> GasLimit fee <> 0;
  wt_options : Forall (fun opt => default rejectExtensionOption (ExtensionOptionChecker options) opt = true) (ExtensionOptions tx);
  wt_basic : IsReCheckTx ctx = false -> tx_ValidateBasic tx = Ok tt;
  wt_timeout : 0 < TimeoutHeight tx -> wrap_u64 (ac_Height ctx) <= TimeoutHeight tx;
  wt_memo : 0 < len_gas (Memo tx) -> len_gas (Memo tx) <= MaxMemoCharacters (the_params a);
  wt_sig_count : GetPubKeys tx <> [] -> sig_count (GetPubKeys tx) <= TxSigLimit (the_params a);
}.

(** An accepted transaction, in any mode: the keys it sets, the signatures
    checked against the account with them, the sequences raised. *)
Record accepted (options : HandlerOptions (Msg := Msg)) (tx : Tx Msg) (ctx : AnteCtx) (simulate : bool) s s' (fee : Fee) (signers : list string) (sigs : list SignatureV2) (mid : AuthState) : Prop := {
  acc_wf_tx : well_formed_tx options tx ctx simulate (st_auth s) fee;
  acc_signers : GetSigners tx = Ok signers;
  acc_sigs : GetSignaturesV2 tx = Ok sigs;
  acc_keys : accounts_step (key_set simulate (zip signers (GetPubKeys tx))) (st_auth s) mid;
  acc_checked : Forall2 (signature_checked tx ctx simulate mid) signers sigs;
  acc_gas : Forall2 (gas_checked (default DefaultSigVerificationGasConsumer (opt_SigGasConsumer options)) mid) signers sigs;
  acc_bumped : accounts_step (bumped signers) mid (st_auth s');
  acc_fee : exists paid, fee_moved (has_FeegrantKeeper options) ctx tx paid s s' /\ (TxFeeChecker options = None -> simulate = false -> paid = fee_Amount fee /\ fees_suffice ctx fee);
  acc_meter : meter_kept (if simulate || (ac_Height ctx =? 0) then NewInfiniteGasMeter else NewGasMeter (GasLimit fee)) (st_meter s');
}.

Lemma NewAnteHandler_ok options tx ctx simulate s (c : AnteCtx) s' : auth_wf (st_auth s) ->
  consumer_kept (default DefaultSigVerificationGasConsumer (opt_SigGasConsumer options)) ->
  NewAnteHandler options tx ctx simulate s = (Ok c, s') -> exists fee signers sigs mid, accepted options tx ctx simulate s s' fee signers sigs mid.
Proof.
  intros Hwf Hk E. cbn [NewAnteHandler ChainAnteDecorators anteDecorators] in E.
  apply SetUpContext_ok in E as (fee & s0 & Hfee & E & Hmax & Ea0 & Eb0 & Eg0 & Em0).
  apply ExtensionOptions_ok in E as [E Hext]. apply ValidateBasic_ok in E as [E Hbasic]. apply TxTimeoutHeight_ok in E as [E Htime].
  apply ValidateMemo_ok in E as (s1 & E & G1 & Hmemo). apply ConsumeTxSizeGas_ok in E as (s2 & E & G2).
  destruct (transitivity G1 G2) as [Ea2 Eb2 Eg2 _ Em2].
  eapply DeductFee_ok in E as (p & s3 & paid & E & Hpaid & Hgas & Hdef); [|done|by rewrite Ea2, Ea0].
  pose proof (fp_auth _ _ _ _ _ _ Hpaid) as Ea3. pose proof (fp_meter _ _ _ _ _ _ Hpaid) as Em3.
  apply SetPubKey_ok in E as (s4 & signers & sigs & E & Hsigners & Hsigs & A4 & [Eb4 _ Em4]); [|by rewrite Ea3, Ea2, Ea0].
  apply ValidateSigCount_ok in E as (s5 & E & G5 & Hcount). apply SigGasConsume_ok in E as (s6 & E & G6 & Hsiggas); [|done].
  apply SigVerification_ok in E as (s7 & signers' & sigs' & E & G7 & Hsigners' & Hsigs' & Hver).
  rewrite Hsigners in Hsigners'. injection Hsigners' as <-. rewrite Hsigs in Hsigs'. injection Hsigs' as <-.
  pose proof (transitivity G5 G6) as [Ea6 Eb6 _ _ Em6]. destruct G7 as [Ea7 Eb7 _ _ Em7]. rewrite Ea6 in Ea7, Hver.
  apply IncrementSequence_ok in E as (s8 & signers' & E & Hsigners' & A8 & [Eb8 _ Em8]); [|rewrite Ea7; by destruct A4].
  rewrite Hsigners in Hsigners'. injection Hsigners' as <-. apply ret_ok in E as [_ ->].
  rewrite Ea3, Ea2, Ea0 in A4. rewrite Ea7 in A8.
  exists fee, signers, sigs, (st_auth s4). split; try done.
  - split; try done; [by rewrite Ea0 in Hmemo|]. destruct A4 as [_ Epar _ _ _]. unfold the_params in *. by rewrite Epar in Hcount.
  - destruct G5 as [Ea5 _ _ _ _]. rewrite Ea5 in Hsiggas. apply Hsiggas; [done|done|]. by rewrite (Forall2_length _ _ _ Hver).
  - exists paid. split; [|done]. destruct (fp_from _ _ _ _ _ _ Hpaid) as (payer & granter & Hp & Hg & Hf & Hgr & Hacc & Hbank).
    rewrite Ea2, Ea0 in Hacc. rewrite Eg2, Eg0 in Hgr. rewrite Eb2, Eb0 in Hbank. exists payer, granter. split_and!; try done.
    replace (st_bank s8) with (st_bank s3) by congruence. done.
  - rewrite <- Em0. repeat (etrans; [eassumption|]). done.
Qed.

Lemma ValidateBasic_signers tx signers : tx_ValidateBasic tx = Ok tt -> GetSigners tx = Ok signers -> signers <> [].
Proof.
  unfold tx_ValidateBasic. intros E Hs. destruct (tx_Fee tx) as [fee|]; [|done]. repeat (match type of E with (if ?b then _ else _) = _ => destruct b eqn:?; [done|] end).
  rewrite Hs in E. cbn [obind] in E. destruct (Nat.eqb_spec (length (Signatures tx)) (length signers)) as [El|]; [|done]. intros ->. cbn in El. by rewrite El in *.
Qed.

(** A signature that was valid for the account [x] with the key [pk]. *)
Definition signature_valid (tx : Tx Msg) (ctx : AnteCtx) (a : AuthState) (signer : string) (sg : SignatureV2) : Prop :=
  exists x pk, as_accounts a !! signer = Some x /\ sig_Sequence sg = acc_Sequence x /\
    (acc_PubKey x = Some pk \/ acc_PubKey x = None /\ PubKey_Address pk = signer) /\
    VerifySignature (fun mode => GetSignBytes mode (signer_data ctx (with_key x pk)) tx) pk (sig_Data sg) = Ok tt.

Lemma checked_valid tx ctx l a mid signer sg : accounts_step (key_set false l) a mid -> IsReCheckTx ctx = false ->
  signature_checked tx ctx false mid signer sg -> signature_valid tx ctx a signer sg.
Proof.
  intros A Hre (acc & Hacc & Hseq & Hpk). destruct (Hpk eq_refl) as (pk & Hk & Hv). specialize (Hv Hre).
  destruct (as_accounts a !! signer) as [x|] eqn:Hx; [|by rewrite (as_none _ _ _ A signer Hx) in Hacc].
  destruct (as_some _ _ _ A signer x Hx) as (y & Hy & Hxy). rewrite Hacc in Hy. injection Hy as <-. exists x, pk. split; [done|].
  destruct Hxy as [->|(p & Hn & -> & [?|[_ Hp]])]; [|done|].
  - split_and!; [done|by left|]. destruct x as [ad key num seq kd]. cbn in *. by rewrite Hk in Hv.
  - cbn in *. injection Hk as <-. split_and!; [done|by right|done].
Qed.

(** C14: Transactions that are accepted.  Outside simulation and re-checks, at a
    height above 0 (genesis transactions are signed with account number 0), with
    the default fee checker and a gas consumer that leaves the accounts alone,
    from a well-formed account store, a transaction that declares no negative
    gas and that the ante handler accepts has passed every static check, paid
    its fee from its payer or its granter to the fee collector, stayed within
    the gas it declared, and carries for each of its signers a signature valid
    for this chain, the account's number and its current sequence, under the
    account's key or a key that hashes to its address.  No account appears or
    goes; accounts change in their keys and in the sequences of the signers,
    raised by one per signature. *)
Theorem ante_effect options tx ctx s c s' : auth_wf (st_auth s) -> consumer_kept (default DefaultSigVerificationGasConsumer (opt_SigGasConsumer options)) ->
  TxFeeChecker options = None -> IsReCheckTx ctx = false -> 0 < ac_Height ctx -> (forall fee, tx_Fee tx = Some fee -> 0 <= GasLimit fee) ->
  NewAnteHandler options tx ctx false s = (Ok c, s') -> exists fee signers sigs,
    well_formed_tx options tx ctx false (st_auth s) fee /\ fees_suffice ctx fee /\
    fee_moved (has_FeegrantKeeper options) ctx tx (fee_Amount fee) s s' /\
    (limit (st_meter s') = Some (GasLimit fee) /\ consumed (st_meter s') <= GasLimit fee) /\
    GetSigners tx = Ok signers /\ signers <> [] /\ GetSignaturesV2 tx = Ok sigs /\
    Forall2 (signature_valid tx ctx (st_auth s)) signers sigs /\
    accounts_step (fun k x y => exists z, key_set false (zip signers (GetPubKeys tx)) k x z /\ bumped signers k z y) (st_auth s) (st_auth s').
Proof.
  intros Hwf Hk Hdef Hre Hh Hgas E. apply NewAnteHandler_ok in E as (fee & signers & sigs & mid & [Hwt Hs Hsg A1 Hc _ A2 (paid & Hmoved & Hpaid) Hm]); [|done..].
  destruct (Hpaid Hdef eq_refl) as [-> Hsuf]. exists fee, signers, sigs. split; [done|]. split; [done|]. split; [done|]. split.
  - rewrite (proj2 (Z.eqb_neq (ac_Height ctx) 0)) in Hm by lia. destruct Hm as [Hl Hb]. cbn in Hl. split; [done|]. apply Hb; [|done].
    split; [done|]. intros l [= <-]. cbn. apply Hgas. by destruct Hwt.
  - split; [done|]. split; [by eapply ValidateBasic_signers; [apply (wt_basic _ _ _ _ _ _ Hwt)|]|]. split; [done|]. split.
    + eapply Forall2_impl; [exact Hc|]. intros signer sg. by apply (checked_valid _ _ _ _ _ _ _ A1).
    + eapply accounts_step_trans; [exact A1|exact A2|]. intros k x y z Hxy Hyz. eauto.
Qed.

(** *** Sequences are used once *)

Definition next_sequence (q : Z) : Z := wrap_u64 (q + 1).

Lemma bumped_sequence n x : acc_Sequence (Nat.iter n bump_sequence x) = Nat.iter n next_sequence (acc_Sequence x).
Proof. induction n as [|n IH]; [done|]. change (next_sequence (acc_Sequence (Nat.iter n bump_sequence x)) = next_sequence (Nat.iter n next_sequence (acc_Sequence x))). by rewrite IH. Qed.

Lemma next_sequence_iter n q : Nat.iter (S n) next_sequence q = wrap_u64 (q + Z.of_nat (S n)).
Proof.
  induction n as [|n IH]; [done|]. change (Nat.iter (S (S n)) next_sequence q) with (next_sequence (Nat.iter (S n) next_sequence q)). rewrite IH.
  unfold next_sequence, wrap_u64. rewrite Zplus_mod_idemp_l. f_equal. lia.
Qed.

Lemma next_sequence_fresh n q : Z.of_nat (S n) < two64 -> Nat.iter (S n) next_sequence q <> q.
Proof.
  rewrite next_sequence_iter. intros Hn E. unfold wrap_u64 in E. assert (two64 <> 0) as Hnz by done.
  pose proof (Z.div_mod (q + Z.of_nat (S n)) two64 Hnz) as Hd. rewrite E in Hd. assert (Z.of_nat (S n) = two64 * ((q + Z.of_nat (S n)) / two64)) as Hd' by lia.
  destruct (Z.le_gt_cases ((q + Z.of_nat (S n)) / two64) 0); nia.
Qed.

(** Later states, for the account [k]: other transactions are accepted, in
    which [k] signs [n] times in all, and anything else that keeps the store
    of accounts well formed and this account's sequence. *)
Inductive later (options : HandlerOptions (Msg := Msg)) (k : string) : nat -> State -> State -> Prop :=
  | later_now s : later options k 0 s s
  | later_tx n s1 s2 s3 tx ctx simulate c signers : later options k n s1 s2 ->
      NewAnteHandler options tx ctx simulate s2 = (Ok c, s3) -> GetSigners tx = Ok signers -> later options k (times k signers + n) s1 s3
  | later_other n s1 s2 s3 : later options k n s1 s2 -> auth_wf (st_auth s3) ->
      (forall x, as_accounts (st_auth s2) !! k = Some x -> exists y, as_accounts (st_auth s3) !! k = Some y /\ acc_Sequence y = acc_Sequence x) ->
      later options k n s1 s3.

Lemma key_set_sequence simulate l k x y : key_set simulate l k x y -> acc_Sequence y = acc_Sequence x.
Proof. by intros [->|(p & _ & -> & _)]. Qed.

Lemma accepted_sequence options tx ctx simulate s s' fee signers sigs mid k x : accepted options tx ctx simulate s s' fee signers sigs mid ->
  as_accounts (st_auth s) !! k = Some x -> exists y, as_accounts (st_auth s') !! k = Some y /\ acc_Sequence y = Nat.iter (times k signers) next_sequence (acc_Sequence x).
Proof.
  intros [_ _ _ A1 _ _ A2 _ _] Hx. destruct (as_some _ _ _ A1 k x Hx) as (y & Hy & Hxy%key_set_sequence). destruct (as_some _ _ _ A2 k y Hy) as (z & Hz & ->).
  eexists. split; [done|]. by rewrite bumped_sequence, Hxy.
Qed.

Lemma later_sequence options k n s s' x : consumer_kept (default DefaultSigVerificationGasConsumer (opt_SigGasConsumer options)) ->
  later options k n s s' -> auth_wf (st_auth s) -> as_accounts (st_auth s) !! k = Some x ->
  auth_wf (st_auth s') /\ exists y, as_accounts (st_auth s') !! k = Some y /\ acc_Sequence y = Nat.iter n next_sequence (acc_Sequence x).
Proof.
  intros Hk Hl Hwf Hx. induction Hl as [s|n s1 s2 s3 tx ctx simulate c signers Hl IH E Hs|n s1 s2 s3 Hl IH Hwf3 Hkeep].
  - split; [done|]. by exists x.
  - destruct (IH Hwf Hx) as (Hwf2 & y & Hy & Hseq). apply NewAnteHandler_ok in E as (fee & signers' & sigs & mid & Ha); [|done..].
    split; [by destruct Ha as [_ _ _ _ _ _ [? _ _ _ _] _ _]|]. pose proof (acc_signers _ _ _ _ _ _ _ _ _ _ Ha) as Hs'. rewrite Hs in Hs'. injection Hs' as <-.
    eapply accepted_sequence in Ha as (z & Hz & Hzy); [|exact Hy]. exists z. split; [done|]. by rewrite Hzy, Hseq, Nat.iter_add.
  - destruct (IH Hwf Hx) as (Hwf2 & y & Hy & Hseq). split; [done|]. destruct (Hkeep y Hy) as (z & Hz & Hzy). exists z. by rewrite Hzy.
Qed.

(** C15: No replay.  A transaction the ante handler has accepted, outside
    simulation and re-checks, from a well-formed account store and with a gas
    consumer that leaves the accounts alone, is never accepted again, in any
    mode, whatever transactions are accepted in between, as long as one of its
    signers signs fewer than 2^64 times. *)
Theorem no_replay options tx ctx s c s1 : auth_wf (st_auth s) -> consumer_kept (default DefaultSigVerificationGasConsumer (opt_SigGasConsumer options)) ->
  IsReCheckTx ctx = false -> NewAnteHandler options tx ctx false s = (Ok c, s1) ->
  exists signers, GetSigners tx = Ok signers /\ signers <> [] /\
    forall k n t, k ∈ signers -> later options k n s1 t -> Z.of_nat (times k signers + n) < two64 ->
    forall ctx2 simulate c2 t2, NewAnteHandler options tx ctx2 simulate t <> (Ok c2, t2).
Proof.
  intros Hwf Hk Hre E. apply NewAnteHandler_ok in E as (fee & signers & sigs & mid & Ha); [|done..]. pose proof (acc_signers _ _ _ _ _ _ _ _ _ _ Ha) as Hs.
  exists signers. split; [done|]. split; [by eapply ValidateBasic_signers; [apply (wt_basic _ _ _ _ _ _ (acc_wf_tx _ _ _ _ _ _ _ _ _ _ Ha))|]|].
  intros k n t Hin Hl Hn ctx2 simulate c2 t2 E2. pose proof (acc_checked _ _ _ _ _ _ _ _ _ _ Ha) as Hc.
  apply list_elem_of_lookup in Hin as [i Hi]. destruct (Forall2_lookup_l _ _ _ _ _ Hc Hi) as (sg & Hsg & acc & Hacc & Hseq & _).
  destruct (as_accounts (st_auth s) !! k) as [x|] eqn:Hx; [|by rewrite (as_none _ _ _ (acc_keys _ _ _ _ _ _ _ _ _ _ Ha) k Hx) in Hacc].
  destruct (as_some _ _ _ (acc_keys _ _ _ _ _ _ _ _ _ _ Ha) k x Hx) as (acc' & Hacc' & Hq%key_set_sequence). rewrite Hacc in Hacc'. injection Hacc' as <-.
  pose proof (acc_sigs _ _ _ _ _ _ _ _ _ _ Ha) as Hsigs. pose proof (as_wf _ _ _ (acc_bumped _ _ _ _ _ _ _ _ _ _ Ha)) as Hwf1.
  destruct (accepted_sequence _ _ _ _ _ _ _ _ _ _ _ _ Ha Hx) as (y & Hy & Hyx). destruct (later_sequence _ _ _ _ _ _ Hk Hl Hwf1 Hy) as (Hwft & z & Hz & Hzy).
  apply NewAnteHandler_ok in E2 as (fee2 & signers2 & sigs2 & mid2 & [_ Hs2 Hsg2 A2 Hc2 _ _ _ _]); [|done..].
  rewrite Hs in Hs2. injection Hs2 as <-. rewrite Hsigs in Hsg2. injection Hsg2 as <-.
  destruct (Forall2_lookup_lr _ _ _ _ _ _ Hc2 Hi Hsg) as (acc2 & Hacc2 & Hseq2 & _).
  destruct (as_some _ _ _ A2 k z Hz) as (z' & Hz' & Hzq%key_set_sequence). rewrite Hacc2 in Hz'. injection Hz' as <-.
  assert (Nat.iter (times k signers + n) next_sequence (acc_Sequence x) = acc_Sequence x) as Hcycle.
  { rewrite Nat.add_comm, Nat.iter_add, <- Hyx, <- Hzy. congruence. }
  assert (0 < times k signers)%nat as Hpos. { apply count_occ_In, list_elem_of_In. by eapply list_elem_of_lookup_2. }
  destruct (times k signers + n)%nat as [|m] eqn:Em; [lia|]. by apply next_sequence_fresh in Hcycle.
Qed.

Lemma direct_signature_valid data tx pk sig :
  VerifySignature (fun mode => GetSignBytes mode data tx) pk (SingleSignatureData SIGN_MODE_DIRECT sig) = Ok tt ->
  lib_VerifySignature pk (SignDoc_Marshal (mkSignDoc (bodyBz tx) (authInfoBz tx) (ChainID data) (AccountNumber data))) sig = true.
Proof.
  assert (GetSignBytes SIGN_MODE_DIRECT data tx = Ok (SignDoc_Marshal (mkSignDoc (bodyBz tx) (authInfoBz tx) (ChainID data) (AccountNumber data)))) as E by reflexivity.
  destruct pk; cbn [VerifySignature]; rewrite E; cbn [obind key_VerifySignature]; try done; by destruct (lib_VerifySignature _ _ _).
Qed.

(** C19: Consent.  Suppose a key accepts a signature of a sign document only
    when its holder has signed that document.  Then, when the ante handler
    accepts a transaction that is neither simulated nor re-checked (neither
    verifies signatures), at a height other than 0 (where the sign data has
    account number 0 for everybody), a single signature in direct mode means
    that the holder of the signer's key signed this body and this fee, for this
    chain and this account: a document signed for another chain or account is
    worth nothing there. *)
Theorem direct_consent `{!TxLibLaws Msg} (signed : PubKey -> list SignDoc) options tx ctx s c s' :
  (forall pk d sig, lib_VerifySignature pk (SignDoc_Marshal d) sig = true -> exists d', d' ∈ signed pk /\ SignDoc_Marshal d' = SignDoc_Marshal d) ->
  auth_wf (st_auth s) -> consumer_kept (default DefaultSigVerificationGasConsumer (opt_SigGasConsumer options)) ->
  IsReCheckTx ctx = false -> ac_Height ctx <> 0 -> NewAnteHandler options tx ctx false s = (Ok c, s') ->
  exists signers sigs, GetSigners tx = Ok signers /\ GetSignaturesV2 tx = Ok sigs /\
    forall i k sg sig, signers !! i = Some k -> sigs !! i = Some sg -> sig_Data sg = SingleSignatureData SIGN_MODE_DIRECT sig ->
    exists x pk, as_accounts (st_auth s) !! k = Some x /\ (acc_PubKey x = Some pk \/ acc_PubKey x = None /\ PubKey_Address pk = k) /\
      mkSignDoc (bodyBz tx) (authInfoBz tx) (ac_ChainID ctx) (acc_AccountNumber x) ∈ signed pk.
Proof.
  intros Hsigned Hwf Hk Hre Hh E. apply NewAnteHandler_ok in E as (fee & signers & sigs & mid & Ha); [|done..].
  exists signers, sigs. split; [by destruct Ha|]. split; [by destruct Ha|]. intros i k sg sig Hi Hsg Hd.
  pose proof (acc_checked _ _ _ _ _ _ _ _ _ _ Ha) as Hc. pose proof (Forall2_lookup_lr _ _ _ _ _ _ Hc Hi Hsg) as Hck.
  apply (checked_valid _ _ _ _ _ _ _ (acc_keys _ _ _ _ _ _ _ _ _ _ Ha) Hre) in Hck as (x & pk & Hx & _ & Hpk & Hv).
  exists x, pk. split; [done|]. split; [done|]. rewrite Hd in Hv.
  apply direct_signature_valid, Hsigned in Hv as (d' & Hd' & Heq%SignDoc_Marshal_inj). rewrite Heq in Hd'. cbn in Hd'.
  by rewrite (proj2 (Z.eqb_neq _ _) Hh) in Hd'.
Qed.
End AnteLaws.

Module toyante.
#[local] Existing Instances sdkmath bech32_toy tx_toy.toy_lib tx_toy.toy_lib_laws.

Definition doc : SignDoc := mkSignDoc "body" "auth" "zyt-1" 2.
Definition signed (pk : PubKey) : list SignDoc := [doc].
#[local] Instance keys : KeyLib := {|
  PubKey_Address pk := match pk with Secp256k1 k => k | _ => "" end;
  lib_VerifySignature pk msg sig := bool_decide (msg = SignDoc_Marshal doc) && bool_decide (sig = "signed");
|}.
#[local] Instance mul : SdkMathMul := {| Int_Mul a b := Some (a * b); Int_Quo a b := if b =? 0 then None else Some (Z.quot a b) |}.
#[local] Instance ceil : SdkDecCeil := {| Dec_CeilInt d := Some (- (- d / 1000000000000000000)) |}.
#[local] Instance grants : FeegrantKeeper (list string) unit := {| UseGrantedFees _ _ _ _ _ := ret tt |}.
#[local] Instance grants_ok : FeegrantLaws (list string) unit.
Proof. split. intros ctx a b fee msgs m m' evs evs' g g' u E. injection E as _ <- _ _. reflexivity. Qed.
#[local] Instance encodings : Encodings := {| account_size _ := 40; params_size _ := 20; std_signature_size _ := 100; base64 s := s |}.
#[local] Instance store_gas : StoreGas bankkeeper.BankState unit := {| bank_gas _ _ _ := 5000; grant_gas _ _ _ := 3000 |}.

Definition bank_cfg : bankkeeper.Config := bankkeeper.mkConfig {[ FeeCollectorName := ("fees", []) ]} ∅ (fun _ _ => []).
#[local] Instance bank : BankKeeper bankkeeper.BankState := bankkeeper.bank_keeper bank_cfg.
#[local] Instance bank_ok : BankLaws bankkeeper.BankState := bankkeeper.bank_laws bank_cfg.

Definition alice : Account := mkAccount "alice" None 2 5 BaseAccount.
Definition accounts : AuthState := mkAuthState (Some DefaultAuthParams) {[ "alice" := alice ]} {[ 2 := "alice" ]} (Some 3).
Definition bank0 : bankkeeper.BankState := bankkeeper.mkBankState {[ ("alice", "uzyt") := 100 ]} {[ "uzyt" := 100 ]} ∅.
Definition state0 : AnteState bankkeeper.BankState unit := mkAnteState accounts bank0 tt NewInfiniteGasMeter [].

Definition tx1 : Tx (list string) := mkTx [["alice"]] "hello" 0 [] [] false
  [mkSignerInfo (Some (Secp256k1 "alice")) (Some (MI_Single SIGN_MODE_DIRECT)) 5]
  (Some (mkFee [mkCoin "uzyt" 10] 100000 "" "")) None ["signed"] "body" "auth".
Definition options : HandlerOptions (Msg := list string) := mkHandlerOptions None true None None.
Definition ctx0 : AnteCtx := mkAnteCtx (mkCtx 7 0) "zyt-1" None false false [] "raw" 0.

Definition state1 : AnteState bankkeeper.BankState unit := snd (NewAnteHandler options tx1 ctx0 false state0).

Lemma accounts_wf : auth_wf accounts.
Proof.
  split; cbn [as_accounts as_by_number accounts].
  - intros a acc [<- <-]%lookup_singleton_Some. reflexivity.
  - intros a acc [<- <-]%lookup_singleton_Some. split; [cbn; lia|reflexivity].
  - intros n a [<- <-]%lookup_singleton_Some. exists alice. split; reflexivity.
  - cbn. lia.
Qed.

Lemma run1 : NewAnteHandler options tx1 ctx0 false state0 = (Ok ctx0, state1).
Proof. vm_compute. reflexivity. Qed.

Lemma ante_effect_witness : exists s', NewAnteHandler options tx1 ctx0 false state0 = (Ok ctx0, s') /\
  bk_balance (st_bank s') "alice" "uzyt" = 90 /\ bk_balance (st_bank s') "fees" "uzyt" = 10 /\ consumed (st_meter s') <= 100000 /\
  exists x, as_accounts (st_auth s') !! "alice" = Some x /\ acc_Sequence x = 6.
Proof.
  exists state1. split; [exact run1|].
  destruct (ante_effect options tx1 ctx0 state0 ctx0 state1 accounts_wf DefaultSigVerificationGasConsumer_kept eq_refl eq_refl eq_refl) as
    (fee & signers & sigs & [Hfee _ _ _ _ _ _ _] & _ & Hmoved & [_ Hgas] & Hs & _ & _ & _ & A); [intros fee [= <-]; cbn; lia|exact run1|].
  cbn in Hfee. injection Hfee as <-. vm_compute in Hs. injection Hs as <-. destruct Hmoved as (payer & granter & Hp & Hg & _ & _ & _ & fc & Hfc & _ & [Hbal _]).
  vm_compute in Hp, Hg, Hfc. injection Hp as <-. injection Hg as <-. injection Hfc as <-.
  split; [rewrite Hbal; reflexivity|]. split; [rewrite Hbal; reflexivity|]. split; [exact Hgas|].
  destruct (as_some _ _ _ A "alice" alice eq_refl) as (y & Hy & z & [->|(p & _ & -> & _)] & ->); eexists; (split; [exact Hy|reflexivity]).
Defined.

Lemma no_replay_witness : NewAnteHandler options tx1 ctx0 false state0 = (Ok ctx0, state1) /\
  forall c s, NewAnteHandler options tx1 ctx0 false state1 <> (Ok c, s).
Proof.
  split; [exact run1|].
  destruct (no_replay options tx1 ctx0 state0 ctx0 state1 accounts_wf DefaultSigVerificationGasConsumer_kept eq_refl run1) as (signers & Hs & _ & Hno).
  vm_compute in Hs. injection Hs as <-. intros c s. apply (Hno "alice" 0%nat); [apply list_elem_of_here|apply later_now|reflexivity].
Defined.

Lemma direct_consent_witness : NewAnteHandler options tx1 ctx0 false state0 = (Ok ctx0, state1) /\
  mkSignDoc "body" "auth" "zyt-1" 2 ∈ signed (Secp256k1 "alice").
Proof.
  split; [exact run1|].
  destruct (direct_consent signed options tx1 ctx0 state0 ctx0 state1) as (signers & sigs & Hs & Hsg & Hall).
  - intros pk d sig Hv. cbn in Hv. apply andb_true_iff in Hv as [Hv%bool_decide_eq_true _]. exists doc. split; [apply list_elem_of_here|]. symmetry. exact Hv.
  - exact accounts_wf.
  - exact DefaultSigVerificationGasConsumer_kept.
  - reflexivity.
  - discriminate.
  - exact run1.
  - vm_compute in Hs, Hsg. injection Hs as <-. injection Hsg as <-.
    destruct (Hall 0%nat "alice" _ "signed" eq_refl eq_refl eq_refl) as (x & pk & Hx & _ & Hd). vm_compute in Hx. injection Hx as <-. exact Hd.
Defined.
End toyante.
