(* ===== verification/AppAnte.v ===== *)
(** AppAnte: the ante handler as app/app.go configures it.

    [New] passes the standard handler of Ante.v its own gas consumer for
    signatures, which knows Dilithium5 keys; [app_options] are those options.

    Theorems: what a Dilithium5 signature costs, and that the keys cannot take
    part in a multisignature; the consumer meets what Ante.v asks of one. *)

From Stdlib Require Import ZArith Lia Ascii String.
From stdpp Require Import base gmap sets list strings fin_maps.
From S2P Require Import Prelude Sdk Types Bank KVStore Coins BitArray Gas Auth Tx Ante.

Open Scope Z_scope.
Open Scope go_scope.

Definition ZytherionSigVerificationGasConsumer : SigGasConsumer := fun params pubkey data =>
  match pubkey with
  | Dilithium5 _ => ConsumeGas (wrap_u64 (SigVerifyCostED25519 params * 4))
  | _ => DefaultSigVerificationGasConsumer params pubkey data
  end.

(** The HandlerOptions of New. *)
Definition app_options {Msg} : HandlerOptions (Msg := Msg) := mkHandlerOptions None true (Some ZytherionSigVerificationGasConsumer) None.

Lemma ZytherionSigVerificationGasConsumer_kept : consumer_kept ZytherionSigVerificationGasConsumer.
Proof.
  intros params k d m u m' E. destruct k; try exact (DefaultSigVerificationGasConsumer_kept params _ d m u m' E). exact (ConsumeGas_kept _ _ _ _ E).
Qed.

(** A member that is marked has been given to the consumer. *)
Lemma multi_gas_consumed (consumer : PubKey -> SigData -> M GasMeter unit) bits size keys i sigs m u m' j k :
  ConsumeMultisignatureVerificationGas consumer bits size keys i sigs m = (Ok u, m') ->
  keys !! j = Some k -> (i + j < size)%nat -> GetIndex bits (Z.of_nat (i + j)) = Ok true ->
  exists d m1 u1 m2, consumer k d m1 = (Ok u1, m2).
Proof.
  revert i j sigs m. induction keys as [|key keys IH]; intros i j sigs m E Hk Hj Hb; [done|]. cbn [ConsumeMultisignatureVerificationGas] in E.
  destruct (Nat.leb_spec size i); [lia|]. apply bind_ok in E as (b & m1 & [Eb ->]%lift_ok & E). destruct j as [|j].
  - rewrite Nat.add_0_r, Eb in Hb. injection Hb as ->. injection Hk as ->. destruct sigs as [|sg sigs]; [done|].
    apply bind_ok in E as ([] & m2 & E & _). eauto.
  - rewrite <- Nat.add_succ_comm in Hj, Hb. destruct b; [|by eapply IH]. destruct sigs as [|sg sigs]; [done|].
    apply bind_ok in E as ([] & m2 & _ & E). by eapply IH.
Qed.

Lemma GetIndex_true bits i : GetIndex bits i = Ok true -> 0 <= i < Count bits.
Proof. unfold GetIndex. destruct bits as [a|]; [|done]. destruct (Z.ltb_spec i 0); [done|]. cbn [orb]. destruct (Z.leb_spec (Count (Some a)) i); [done|lia]. Qed.

Lemma dilithium_member_rejected params thr keys bits sigs m u m' j key : keys !! j = Some (Dilithium5 key) -> GetIndex bits (Z.of_nat j) = Ok true ->
  ZytherionSigVerificationGasConsumer params (Multisig thr keys) (MultiSignatureData bits sigs) m <> (Ok u, m').
Proof.
  intros Hk Hb E. cbn [ZytherionSigVerificationGasConsumer DefaultSigVerificationGasConsumer] in E. pose proof (GetIndex_true _ _ Hb) as Hj.
  eapply (multi_gas_consumed _ _ _ _ 0 _ _ _ _ j) in E as (d & m1 & u1 & m2 & E); [|done|lia|done]. discriminate E.
Qed.

Section AppAnte.
Context `{Bech32} `{SdkMath} `{SdkMathMul} `{SdkDecCeil} `{KeyLib}.
Context {Msg : Type} `{TxLib Msg}.
Context {B G : Type} `{BankLaws B} `{FeegrantLaws Msg G} `{Encodings} `{StoreGas B G}.

(** C16: Dilithium5 keys and the ante handler.  Checking a signature of a
    Dilithium5 key succeeds for exactly four times the ED25519 cost when the
    gas is there.  But no transaction is ever accepted, in any mode, in which
    the account of a signer has a multisignature key and a Dilithium5 member
    is marked as having signed, whatever the other keys, the signatures, the
    threshold and the gas: the members are checked by the SDK's own consumer,
    which does not know the key. *)
Theorem dilithium_gas (tx : Tx Msg) ctx simulate (s : AnteState B G) params m data pk signers sigs i signer sg x thr keys bits sgs j key :
  meter_ok m -> 0 <= 4 * SigVerifyCostED25519 params -> consumed m + 4 * SigVerifyCostED25519 params <= Limit m ->
  auth_wf (st_auth s) -> GetSigners tx = Ok signers -> GetSignaturesV2 tx = Ok sigs -> signers !! i = Some signer -> sigs !! i = Some sg ->
  as_accounts (st_auth s) !! signer = Some x -> acc_PubKey x = Some (Multisig thr keys) -> sig_Data sg = MultiSignatureData bits sgs ->
  keys !! j = Some (Dilithium5 key) -> GetIndex bits (Z.of_nat j) = Ok true ->
  ZytherionSigVerificationGasConsumer params (Dilithium5 pk) data m = (Ok tt, spend (4 * SigVerifyCostED25519 params) m) /\
  forall c s', NewAnteHandler app_options tx ctx simulate s <> (Ok c, s').
Proof.
  intros Hm H4c Hle Hwf Hs Hsg Hi Hgi Hx Hpk Hd Hk Hb. split.
  - cbn [ZytherionSigVerificationGasConsumer]. destruct Hm as (Hr & Hc & Hl). rewrite wrap_u64_id by lia. rewrite Z.mul_comm. by apply ConsumeGas_run.
  - intros c s' E. apply NewAnteHandler_ok in E as (fee & signers' & sigs' & mid & Ha); [|done|exact ZytherionSigVerificationGasConsumer_kept].
    pose proof (acc_signers _ _ _ _ _ _ _ _ _ _ Ha) as Hs'. rewrite Hs in Hs'. injection Hs' as <-.
    pose proof (acc_sigs _ _ _ _ _ _ _ _ _ _ Ha) as Hsg'. rewrite Hsg in Hsg'. injection Hsg' as <-.
    destruct (Forall2_lookup_lr _ _ _ _ _ _ (acc_gas _ _ _ _ _ _ _ _ _ _ Ha) Hi Hgi) as (acc & Hacc & Hgas).
    destruct (as_some _ _ _ (acc_keys _ _ _ _ _ _ _ _ _ _ Ha) signer x Hx) as (y & Hy & [->|(p & Hnone & _)]); [|congruence].
    rewrite Hacc in Hy. injection Hy as ->. destruct (Hgas _ Hpk) as (ps & m1 & u & m2 & E). rewrite Hd in E. by eapply dilithium_member_rejected in E.
Qed.
End AppAnte.

Module appante_toy.
Import toyante.
#[local] Existing Instances sdkmath bech32_toy tx_toy.toy_lib keys mul ceil grants grants_ok encodings store_gas bank bank_ok.

Definition team : Account := mkAccount "team" (Some (Multisig 1 [Secp256k1 "alice"; Dilithium5 "bob"])) 2 0 BaseAccount.
Definition team_state : AnteState bankkeeper.BankState unit :=
  mkAnteState (mkAuthState (Some DefaultAuthParams) {[ "team" := team ]} {[ 2 := "team" ]} (Some 3))
    (bankkeeper.mkBankState {[ ("team", "uzyt") := 100 ]} {[ "uzyt" := 100 ]} ∅) tt NewInfiniteGasMeter [].

(** Bit 1, the Dilithium5 member's, is set in [64]. *)
Definition team_tx : Tx (list string) := mkTx [["team"]] "" 0 [] [] false
  [mkSignerInfo None (Some (MI_Multi (Some (mkBitArray 2 [64])) [MI_Single SIGN_MODE_DIRECT])) 0]
  (Some (mkFee [mkCoin "uzyt" 10] 100000 "" "")) None [MultiSignature_Marshal ["signed"]] "body" "auth".

Lemma team_wf : auth_wf (st_auth team_state).
Proof.
  split; cbn [as_accounts as_by_number st_auth team_state].
  - intros a acc [<- <-]%lookup_singleton_Some. reflexivity.
  - intros a acc [<- <-]%lookup_singleton_Some. split; [cbn; lia|reflexivity].
  - intros n a [<- <-]%lookup_singleton_Some. exists team. split; reflexivity.
  - cbn. lia.
Qed.

Lemma dilithium_gas_witness :
  ZytherionSigVerificationGasConsumer DefaultAuthParams (Dilithium5 "bob") NilData (NewGasMeter 10000) = (Ok tt, mkMeter (Some 10000) 2360 None) /\
  forall c s', NewAnteHandler app_options team_tx ctx0 false team_state <> (Ok c, s').
Proof.
  apply (dilithium_gas team_tx ctx0 false team_state DefaultAuthParams (NewGasMeter 10000) NilData "bob" ["team"]
    [mkSignatureV2 None (MultiSignatureData (Some (mkBitArray 2 [64])) [SingleSignatureData SIGN_MODE_DIRECT "signed"]) 0] 0 "team"
    (mkSignatureV2 None (MultiSignatureData (Some (mkBitArray 2 [64])) [SingleSignatureData SIGN_MODE_DIRECT "signed"]) 0) team 1
    [Secp256k1 "alice"; Dilithium5 "bob"] (Some (mkBitArray 2 [64])) [SingleSignatureData SIGN_MODE_DIRECT "signed"] 1 "bob");
    [split_and!; [reflexivity|cbn; lia|cbn; lia|cbn; unfold two64; lia]|cbn; lia|cbn; lia|exact team_wf|vm_compute; reflexivity..].
Defined.
End appante_toy.
