(* ===== verification/Feegrant.v ===== *)
(** Feegrant: cosmos-sdk/x/feegrant, the allowances a granter gives a grantee
    to pay fees with, and the keeper the ante handler asks.

    A store has the grants under 0x00 and, under 0x01, a queue of the grants
    that expire, ordered by time; EndBlocker removes what has expired through
    the queue.  Times are nanoseconds since 1970, nil coins are the empty list
    (protobuf does not tell them apart), and the values of the store are
    decoded.

    Theorems: what an allowance accepts, and that the fees accepted under it
    never exceed its limit; the queue covers the store, so that no expired
    grant survives EndBlocker; a revoked grant leaves its queue entry behind,
    which later removes an unexpired grant of the same pair; the limit of a
    period can be exceeded. *)

From Stdlib Require Import ZArith Lia Ascii String.
From stdpp Require Import base gmap sets list strings fin_maps.
From S2P Require Import Prelude Sdk Coins KVStore Wire StoreKeys Gas BitArray Auth Tx Ante.

Import order.

Open Scope Z_scope.
Open Scope go_scope.

Module feegrant.

Definition ErrFeeLimitExceeded : err := Registered "feegrant" 2.
Definition ErrFeeLimitExpired : err := Registered "feegrant" 3.
Definition ErrInvalidDuration : err := Registered "feegrant" 4.
Definition ErrNoAllowance : err := Registered "feegrant" 5.
Definition ErrNoMessages : err := Registered "feegrant" 6.
Definition ErrMessageNotAllowed : err := Registered "feegrant" 7.
Definition ErrInvalidCoins : err := Registered "sdk" 10.
Definition ErrNotFound : err := Registered "sdk" 38.

Definition gasCostPerIteration : Z := 10.

Record BasicAllowance : Type := mkBasicAllowance {
  SpendLimit : Coins;
  Expiration : option Time;
}.

Record PeriodicAllowance : Type := mkPeriodicAllowance {
  pa_Basic : BasicAllowance;
  Period : Z;
  PeriodSpendLimit : Coins;
  PeriodCanSpend : Coins;
  PeriodReset : Time;
}.

(** FeeAllowanceI; the packed allowance of a filter may be missing. *)
Inductive Allowance : Type :=
  | Basic (a : BasicAllowance)
  | Periodic (a : PeriodicAllowance)
  | AllowedMsg (allowance : option Allowance) (allowedMessages : list string).

Record Grant : Type := mkGrant {
  Granter : string;
  Grantee : string;
  gr_Allowance : option Allowance;
}.

Section Allowances.
Context `{SdkMath}.

(** *** basic_fee.go *)

(** The allowance afterwards, and what the code returns: remove and err. *)
Definition Basic_Accept (now : Time) (fee : Coins) (a : BasicAllowance) : outcome (BasicAllowance * (bool * option err)) :=
  if match Expiration a with Some e => e <? now | None => false end then Ok (a, (true, Some (Wrapf "basic allowance" ErrFeeLimitExpired))) else
  match SpendLimit a with
  | [] => Ok (a, (false, None))
  | _ =>
      let* r := Coins_SafeSub (SpendLimit a) fee in let '(rest, invalid) := r in
      if (invalid : bool) then Ok (a, (false, Some (Wrapf "basic allowance" ErrFeeLimitExceeded))) else
      Ok (mkBasicAllowance rest (Expiration a), (Coins_IsZero rest, None))
  end.

Definition Basic_ValidateBasic (a : BasicAllowance) : outcome unit :=
  if negb (Nat.eqb (length (SpendLimit a)) 0) && negb (Coins_Validate (SpendLimit a)) then Err (Wrapf "send amount is invalid" ErrInvalidCoins) else
  if negb (Nat.eqb (length (SpendLimit a)) 0) && negb (IsAllPositive (SpendLimit a)) then Err (Wrapf "spend limit must be positive" ErrInvalidCoins) else
  if match Expiration a with Some e => e / 1000000000 <? 0 | None => false end then Err (Wrapf "expiration time cannot be negative" ErrInvalidDuration) else
  Ok tt.

(** *** periodic_fee.go *)

Definition tryResetPeriod (blockTime : Time) (a : PeriodicAllowance) : outcome PeriodicAllowance :=
  if blockTime <? PeriodReset a then Ok a else
  let* r := Coins_SafeSub (SpendLimit (pa_Basic a)) (PeriodSpendLimit a) in let '(_, isNeg) := r in
  let canSpend := if isNeg && negb (Nat.eqb (length (SpendLimit (pa_Basic a))) 0) then SpendLimit (pa_Basic a) else PeriodSpendLimit a in
  let reset := PeriodReset a + Period a in
  let reset := if reset <? blockTime then blockTime + Period a else reset in
  Ok (mkPeriodicAllowance (pa_Basic a) (Period a) (PeriodSpendLimit a) canSpend reset).

Definition with_can_spend (c : Coins) (a : PeriodicAllowance) : PeriodicAllowance :=
  mkPeriodicAllowance (pa_Basic a) (Period a) (PeriodSpendLimit a) c (PeriodReset a).
Definition with_spend_limit (c : Coins) (a : PeriodicAllowance) : PeriodicAllowance :=
  mkPeriodicAllowance (mkBasicAllowance c (Expiration (pa_Basic a))) (Period a) (PeriodSpendLimit a) (PeriodCanSpend a) (PeriodReset a).

Definition Periodic_Accept (now : Time) (fee : Coins) (a : PeriodicAllowance) : outcome (PeriodicAllowance * (bool * option err)) :=
  if match Expiration (pa_Basic a) with Some e => e <? now | None => false end then Ok (a, (true, Some (Wrapf "absolute limit" ErrFeeLimitExpired))) else
  let* a := tryResetPeriod now a in
  let* r := Coins_SafeSub (PeriodCanSpend a) fee in let '(can, isNeg) := r in
  let a := with_can_spend can a in
  if (isNeg : bool) then Ok (a, (false, Some (Wrapf "period limit" ErrFeeLimitExceeded))) else
  match SpendLimit (pa_Basic a) with
  | [] => Ok (a, (false, None))
  | _ =>
      let* r := Coins_SafeSub (SpendLimit (pa_Basic a)) fee in let '(rest, isNeg) := r in
      let a := with_spend_limit rest a in
      if (isNeg : bool) then Ok (a, (false, Some (Wrapf "absolute limit" ErrFeeLimitExceeded))) else
      Ok (a, (Coins_IsZero rest, None))
  end.

Definition Periodic_ValidateBasic (a : PeriodicAllowance) : outcome unit :=
  let* _ := Basic_ValidateBasic (pa_Basic a) in
  if negb (Coins_Validate (PeriodSpendLimit a)) then Err (Wrapf "spend amount is invalid" ErrInvalidCoins) else
  if negb (IsAllPositive (PeriodSpendLimit a)) then Err (Wrapf "spend limit must be positive" ErrInvalidCoins) else
  if negb (Coins_Validate (PeriodCanSpend a)) then Err (Wrapf "can spend amount is invalid" ErrInvalidCoins) else
  if IsAnyNegative (PeriodCanSpend a) then Err (Wrapf "can spend must not be negative" ErrInvalidCoins) else
  let* subset := if Nat.eqb (length (SpendLimit (pa_Basic a))) 0 then Ok true else DenomsSubsetOf (PeriodSpendLimit a) (SpendLimit (pa_Basic a)) in
  if negb subset then Err (Wrapf "period spend limit has different currency than basic spend limit" ErrInvalidCoins) else
  if Period a <? 0 then Err (Wrapf "negative clock step" ErrInvalidDuration) else Ok tt.

(** *** filtered_fee.go *)

(** allowedMsgsToMap and allMsgTypesAllowed: each step costs gas. *)
Fixpoint allowedMsgsToMap (allowed : list string) : M GasMeter (gset string) :=
  match allowed with
  | [] => ret ∅
  | msg :: allowed =>
      ConsumeGas gasCostPerIteration ;;!
      let! m := allowedMsgsToMap allowed in
      ret ({[msg]} ∪ m)
  end.

Fixpoint check_msgs (m : gset string) (msgs : list string) : M GasMeter bool :=
  match msgs with
  | [] => ret true
  | msg :: msgs =>
      ConsumeGas gasCostPerIteration ;;!
      if bool_decide (msg ∈ m) then check_msgs m msgs else ret false
  end.

Definition allMsgTypesAllowed (allowed msgs : list string) : M GasMeter bool :=
  let! msgsMap := allowedMsgsToMap allowed in
  check_msgs msgsMap msgs.

Definition lift_allowance {A} (f : A -> Allowance) (o : outcome (A * (bool * option err))) : M GasMeter (Allowance * (bool * option err)) :=
  lift (let* r := o in Ok (f (fst r), snd r)).

(** FeeAllowanceI.Accept, on the type URLs of the messages. *)
Fixpoint Accept (now : Time) (fee : Coins) (msgs : list string) (a : Allowance) : M GasMeter (Allowance * (bool * option err)) :=
  match a with
  | Basic b => lift_allowance Basic (Basic_Accept now fee b)
  | Periodic p => lift_allowance Periodic (Periodic_Accept now fee p)
  | AllowedMsg inner allowed =>
      let! ok := allMsgTypesAllowed allowed msgs in
      if negb ok then ret (a, (false, Some (Wrapf "message does not exist in allowed messages" ErrMessageNotAllowed))) else
      match inner with
      | None => ret (a, (false, Some (Wrapf "failed to get allowance" ErrNoAllowance)))
      | Some i =>
          let! r := Accept now fee msgs i in
          let '(i', (remove, e)) := r in
          ret (if bool_decide (e = None) && negb remove then AllowedMsg (Some i') allowed else a, (remove, e))
      end
  end.

Fixpoint ValidateBasic (a : Allowance) : outcome unit :=
  match a with
  | Basic b => Basic_ValidateBasic b
  | Periodic p => Periodic_ValidateBasic p
  | AllowedMsg inner allowed =>
      match inner with
      | None => Err (Wrapf "allowance should not be empty" ErrNoAllowance)
      | Some i => if Nat.eqb (length allowed) 0 then Err (Wrapf "allowed messages shouldn't be empty" ErrNoMessages) else ValidateBasic i
      end
  end.
End Allowances.

Fixpoint ExpiresAt (a : Allowance) : outcome (option Time) :=
  match a with
  | Basic b => Ok (Expiration b)
  | Periodic p => Ok (Expiration (pa_Basic p))
  | AllowedMsg inner _ => match inner with None => Err (Wrapf "failed to get allowance" ErrNoAllowance) | Some i => ExpiresAt i end
  end.

(** *** key.go *)

Definition FeeAllowanceKeyPrefix : string := String (ascii_of_nat 0) "".
Definition FeeAllowanceQueueKeyPrefix : string := String (ascii_of_nat 1) "".

Definition FeeAllowancePrefixByGrantee (grantee : string) : outcome string :=
  let* p := MustLengthPrefix grantee in Ok (FeeAllowanceKeyPrefix +:+ p).
Definition FeeAllowanceKey (granter grantee : string) : outcome string :=
  let* p := FeeAllowancePrefixByGrantee grantee in
  let* q := MustLengthPrefix granter in
  Ok (p +:+ q).
Definition AllowanceByExpTimeKey (exp : Time) : string := FeeAllowanceQueueKeyPrefix +:+ FormatTimeBytes exp.
Definition FeeAllowancePrefixQueue (exp : Time) (key : string) : string := AllowanceByExpTimeKey exp +:+ key.

(** The byte at an index that was asserted to exist. *)
Definition byte0 (s : string) : nat := match s with String c _ => nat_of_ascii c | "" => 0 end.

(** The addresses behind the first [start] bytes of a key: granter, grantee. *)
Definition parse_addresses (key : string) (start : nat) : outcome (string * string) :=
  let* r := ParseLengthPrefixedBytes key start 1 in let '(len1, i1) := r in
  let* r := ParseLengthPrefixedBytes key (Z.to_nat (i1 + 1)) (byte0 len1) in let '(grantee, i2) := r in
  let* r := ParseLengthPrefixedBytes key (Z.to_nat (i2 + 1)) 1 in let '(len2, i3) := r in
  let* r := ParseLengthPrefixedBytes key (Z.to_nat (i3 + 1)) (byte0 len2) in let '(granter, _) := r in
  Ok (granter, grantee).

Definition ParseAddressesFromFeeAllowanceKey (key : string) : outcome (string * string) := parse_addresses key 1.
Definition lenTime : nat := 29.
Definition ParseAddressesFromFeeAllowanceQueueKey (key : string) : outcome (string * string) := parse_addresses key (1 + lenTime).

(** ** keeper/keeper.go *)

Inductive fgvalue : Type := VGrant (g : Grant) | VQueue.

Record FgState : Type := mkFgState {
  fg_store : gmap string fgvalue;
  fg_gas : GasMeter;
  fg_events : list Event;
}.

Definition grant_event (ty granter grantee : string) : Event := NewEvent ty [("granter", AStr granter); ("grantee", AStr grantee)].

Section Keeper.
Context `{Bech32} `{SdkMath}.

Definition set_key (key : string) (v : fgvalue) : M FgState unit := modify (fun s => mkFgState (<[key := v]> (fg_store s)) (fg_gas s) (fg_events s)).
Definition delete_key (key : string) : M FgState unit := modify (fun s => mkFgState (delete key (fg_store s)) (fg_gas s) (fg_events s)).
Definition EmitEvent (ev : Event) : M FgState unit := modify (fun s => mkFgState (fg_store s) (fg_gas s) (fg_events s ++ [ev])).
Definition on_gas {A} (c : M GasMeter A) : M FgState A := fun s =>
  let '(r, m) := c (fg_gas s) in (r, mkFgState (fg_store s) m (fg_events s)).

Definition getGrant (granter grantee : string) : M FgState Grant :=
  let! key := lift (FeeAllowanceKey granter grantee) in
  let! v := reads (fun s => fg_store s !! key) in
  match v with
  | Some (VGrant g) => ret g
  | _ => throw (Wrapf "fee-grant not found" ErrNotFound)
  end.

(** Grant.GetGrant. *)
Definition GetGrant (g : Grant) : outcome Allowance :=
  match gr_Allowance g with Some a => Ok a | None => Err (Wrapf "failed to get allowance" ErrNoAllowance) end.

Definition GetAllowance (granter grantee : string) : M FgState Allowance :=
  let! g := getGrant granter grantee in
  lift (GetGrant g).

Definition NewGrant (granter grantee : string) (a : Allowance) : Grant := mkGrant (AccAddress_String granter) (AccAddress_String grantee) (Some a).

Definition addToFeeAllowanceQueue (grantKey : string) (exp : Time) : M FgState unit := set_key (FeeAllowancePrefixQueue exp grantKey) VQueue.
Definition removeFromGrantQueue (exp : Time) (allowanceKey : string) : M FgState unit := delete_key (FeeAllowancePrefixQueue exp allowanceKey).

(** GrantAllowance from [store := ...] on. *)
Definition write_grant (now : Time) (granter grantee : string) (feeAllowance : Allowance) : M FgState unit :=
  let! key := lift (FeeAllowanceKey granter grantee) in
  let! existing := try (getGrant granter grantee) in
  let! oldExp := match existing with
    | inr e => if errors_Is e "sdk" 38 then ret None else throw e
    | inl g => match gr_Allowance g with None => ret None | Some a => lift (ExpiresAt a) end
    end in
  let! newExp := lift (ExpiresAt feeAllowance) in
  if match newExp with Some e => e <? now | None => false end then throw (Wrapf "expiration is before current block time" ErrInvalidRequest) else
  match oldExp, newExp with
  | None, Some e => addToFeeAllowanceQueue (str_drop 1 key) e
  | Some o, None => removeFromGrantQueue o (str_drop 1 key)
  | Some o, Some e =>
      if negb (o =? e) then removeFromGrantQueue o (str_drop 1 key) ;;! addToFeeAllowanceQueue (str_drop 1 key) e else ret tt
  | None, None => ret tt
  end ;;!
  set_key key (VGrant (NewGrant granter grantee feeAllowance)) ;;!
  EmitEvent (grant_event "set_feegrant" (AccAddress_String granter) (AccAddress_String grantee)).

Definition UpdateAllowance (granter grantee : string) (feeAllowance : Allowance) : M FgState unit :=
  let! key := lift (FeeAllowanceKey granter grantee) in
  getGrant granter grantee ;;!
  set_key key (VGrant (NewGrant granter grantee feeAllowance)) ;;!
  EmitEvent (grant_event "update_feegrant" (AccAddress_String granter) (AccAddress_String grantee)).

Definition revokeAllowance (granter grantee : string) : M FgState unit :=
  getGrant granter grantee ;;!
  let! key := lift (FeeAllowanceKey granter grantee) in
  delete_key key ;;!
  EmitEvent (grant_event "revoke_feegrant" (AccAddress_String granter) (AccAddress_String grantee)).

Definition emitUseGrantEvent (granter grantee : string) : M FgState unit := EmitEvent (grant_event "use_feegrant" granter grantee).

Definition UseGrantedFees (now : Time) (granter grantee : string) (fee : Coins) (msgs : list string) : M FgState unit :=
  let! f := getGrant granter grantee in
  let! grant := lift (GetGrant f) in
  let! r := on_gas (Accept now fee msgs grant) in
  let '(grant, (remove, e)) := r in
  if (remove : bool) then
    try (revokeAllowance granter grantee) ;;!
    match e with Some e => throw e | None => emitUseGrantEvent (AccAddress_String granter) (AccAddress_String grantee) end
  else
    match e with
    | Some e => throw e
    | None =>
        emitUseGrantEvent (AccAddress_String granter) (AccAddress_String grantee) ;;!
        UpdateAllowance granter grantee grant
    end.

(** What has expired, in the order of the queue; the iterator is a snapshot. *)
Definition expired_keys (now : Time) (s : FgState) : list string :=
  fst <$> range (Some FeeAllowanceQueueKeyPrefix) (Some (InclusiveEndBytes (AllowanceByExpTimeKey now))) true (fg_store s).

Definition remove_expired (key : string) : M FgState unit :=
  delete_key key ;;!
  let! p := lift (ParseAddressesFromFeeAllowanceQueueKey key) in
  let! k := lift (FeeAllowanceKey (fst p) (snd p)) in
  delete_key k.

Definition RemoveExpiredAllowances (now : Time) : M FgState unit :=
  let! keys := reads (expired_keys now) in
  for_each keys remove_expired.

(** module/abci.go *)
Definition EndBlocker (now : Time) : M FgState unit := RemoveExpiredAllowances now.

Definition IterateAllFeeAllowances : M FgState (list Grant) :=
  reads (fun s => omap (fun kv => match kv.2 with VGrant g => Some g | VQueue => None end) (kv_prefix_iter FeeAllowanceKeyPrefix (fg_store s))).
Definition ExportGenesis : M FgState (list Grant) := IterateAllFeeAllowances.

(** *** With accounts: grants and genesis *)

Context (BlockedAddr : string -> bool).
Notation FgWorld := (AuthState * FgState)%type.

Definition on_accounts {A} (c : M AuthState A) : M FgWorld A := fun s => let '(r, a) := c (fst s) in (r, (a, snd s)).
Definition on_grants {A} (c : M FgState A) : M FgWorld A := fun s => let '(r, g) := c (snd s) in (r, (fst s, g)).

(** GrantAllowance up to [store := ...]. *)
Definition create_grantee (grantee : string) : M FgWorld unit :=
  let! acc := on_accounts (GetAccount grantee) in
  match acc with
  | Some _ => ret tt
  | None =>
      if BlockedAddr grantee then throw (Wrapf "is not allowed to receive funds" ErrUnauthorized) else
      let! acc := on_accounts (NewAccountWithAddress grantee) in
      on_accounts (SetAccount acc)
  end.

Definition keeper_GrantAllowance (now : Time) (granter grantee : string) (feeAllowance : Allowance) : M FgWorld unit :=
  create_grantee grantee ;;!
  on_grants (write_grant now granter grantee feeAllowance).

Fixpoint InitGenesis (now : Time) (allowances : list Grant) : M FgWorld unit :=
  match allowances with
  | [] => ret tt
  | f :: allowances =>
      match AccAddressFromBech32 (Granter f), AccAddressFromBech32 (Grantee f) with
      | Some granter, Some grantee =>
          let! grant := lift (GetGrant f) in
          keeper_GrantAllowance now granter grantee grant ;;!
          InitGenesis now allowances
      | _, _ => throw (Errorf "decoding bech32 failed")
      end
  end.

Definition ValidateGenesis (allowances : list Grant) : outcome unit :=
  foldr (fun f rest => let* grant := GetGrant f in let* _ := ValidateBasic grant in rest) (Ok tt) allowances.

(** *** keeper/msg_server.go and msgs.go *)

Record MsgGrantAllowance : Type := mkMsgGrantAllowance {
  mg_Granter : string;
  mg_Grantee : string;
  mg_Allowance : option Allowance;
}.
Record MsgRevokeAllowance : Type := mkMsgRevokeAllowance { mr_Granter : string; mr_Grantee : string }.

Definition GetFeeAllowanceI (msg : MsgGrantAllowance) : outcome Allowance :=
  match mg_Allowance msg with Some a => Ok a | None => Err (Wrapf "failed to get allowance" ErrNoAllowance) end.

Definition MsgGrantAllowance_ValidateBasic (msg : MsgGrantAllowance) : outcome unit :=
  if bool_decide (AccAddressFromBech32 (mg_Granter msg) = None) then Err (Wrapf "invalid granter address" ErrInvalidAddress) else
  if bool_decide (AccAddressFromBech32 (mg_Grantee msg) = None) then Err (Wrapf "invalid grantee address" ErrInvalidAddress) else
  if bool_decide (mg_Grantee msg = mg_Granter msg) then Err (Wrapf "cannot self-grant fee authorization" ErrInvalidAddress) else
  let* allowance := GetFeeAllowanceI msg in
  ValidateBasic allowance.

Definition MsgRevokeAllowance_ValidateBasic (msg : MsgRevokeAllowance) : outcome unit :=
  if bool_decide (AccAddressFromBech32 (mr_Granter msg) = None) then Err (Wrapf "invalid granter address" ErrInvalidAddress) else
  if bool_decide (AccAddressFromBech32 (mr_Grantee msg) = None) then Err (Wrapf "invalid grantee address" ErrInvalidAddress) else
  if bool_decide (mr_Grantee msg = mr_Granter msg) then Err (Wrapf "addresses must be different" ErrInvalidAddress) else Ok tt.

Definition parse_or_throw (s : string) : M FgWorld string :=
  match AccAddressFromBech32 s with Some a => ret a | None => throw (Errorf "decoding bech32 failed") end.

Definition msg_GrantAllowance (now : Time) (msg : MsgGrantAllowance) : M FgWorld unit :=
  let! grantee := parse_or_throw (mg_Grantee msg) in
  let! granter := parse_or_throw (mg_Granter msg) in
  let! f := try (on_grants (GetAllowance granter grantee)) in
  match f with
  | inl _ => throw (Wrapf "fee allowance already exists" ErrInvalidRequest)
  | inr _ =>
      let! allowance := lift (GetFeeAllowanceI msg) in
      keeper_GrantAllowance now granter grantee allowance
  end.

Definition msg_RevokeAllowance (msg : MsgRevokeAllowance) : M FgWorld unit :=
  let! grantee := parse_or_throw (mr_Grantee msg) in
  let! granter := parse_or_throw (mr_Granter msg) in
  on_grants (revokeAllowance granter grantee).
End Keeper.

(** ** Keys *)

Definition pair_key (granter grantee : string) : string :=
  String (ascii_of_nat (String.length grantee)) grantee +:+ String (ascii_of_nat (String.length granter)) granter.
Definition fkey (granter grantee : string) : string := FeeAllowanceKeyPrefix +:+ pair_key granter grantee.
Definition qkey (exp : Time) (granter grantee : string) : string := FeeAllowancePrefixQueue exp (pair_key granter grantee).

Lemma FeeAllowanceKey_run granter grantee : address_ok granter -> address_ok grantee -> FeeAllowanceKey granter grantee = Ok (fkey granter grantee).
Proof.
  intros Hr He. unfold FeeAllowanceKey, FeeAllowancePrefixByGrantee. rewrite (MustLengthPrefix_run grantee He). cbn [obind].
  by rewrite (MustLengthPrefix_run granter Hr).
Qed.

Lemma queue_key granter grantee exp : FeeAllowancePrefixQueue exp (str_drop 1 (fkey granter grantee)) = qkey exp granter grantee.
Proof. done. Qed.

Lemma pair_key_inj a b a' b' : address_ok a -> address_ok b -> address_ok a' -> address_ok b' -> pair_key a b = pair_key a' b' -> a = a' /\ b = b'.
Proof.
  intros Ha Hb Ha' Hb' E. apply length_prefix_inj in E as [-> E]; [|done..].
  assert (String (ascii_of_nat (String.length a)) a +:+ "" = String (ascii_of_nat (String.length a')) a' +:+ "") as E' by by rewrite E.
  by apply length_prefix_inj in E' as [-> _].
Qed.

Lemma fkey_inj a b a' b' : address_ok a -> address_ok b -> address_ok a' -> address_ok b' -> fkey a b = fkey a' b' -> a = a' /\ b = b'.
Proof. intros ? ? ? ? E. apply str_app_inj_len in E as [_ E]; [|done]. by apply pair_key_inj. Qed.

Lemma qkey_inj e e' a b a' b' : time_ok e -> time_ok e' -> address_ok a -> address_ok b -> address_ok a' -> address_ok b' ->
  qkey e a b = qkey e' a' b' -> e = e' /\ a = a' /\ b = b'.
Proof.
  intros He He' ? ? ? ? E. unfold qkey, FeeAllowancePrefixQueue in E.
  apply str_app_inj_len in E as [E1 E2]; [|unfold AllowanceByExpTimeKey; by rewrite !str_length_app, !FormatTimeBytes_length].
  apply str_app_inj_len in E1 as [_ E1]; [|done]. apply FormatTimeBytes_inj in E1; [|done..]. split; [done|]. by apply pair_key_inj.
Qed.

Lemma fkey_qkey a b e a' b' : fkey a b <> qkey e a' b'.
Proof. done. Qed.

Lemma byte0_length a : address_ok a -> byte0 (String (ascii_of_nat (String.length a)) "") = String.length a.
Proof. intros [_ Ha]. cbn [byte0]. apply nat_ascii_embedding. lia. Qed.

Lemma parse_at key i n a b c : key = a +:+ (b +:+ c) -> i = String.length a -> n = String.length b ->
  ParseLengthPrefixedBytes key i n = Ok (b, Z.of_nat (i + n) - 1).
Proof. intros -> -> ->. apply ParseLengthPrefixedBytes_app. Qed.

(** The addresses are read back from behind anything of the right length. *)
Lemma parse_addresses_run p granter grantee : address_ok granter -> address_ok grantee ->
  parse_addresses (p +:+ pair_key granter grantee) (String.length p) = Ok (granter, grantee).
Proof.
  intros Hr He. unfold parse_addresses. set (key := p +:+ pair_key granter grantee).
  set (c1 := String (ascii_of_nat (String.length grantee)) ""). set (c2 := String (ascii_of_nat (String.length granter)) "").
  assert (byte0 c1 = String.length grantee) as B1 by by apply byte0_length. assert (byte0 c2 = String.length granter) as B2 by by apply byte0_length.
  assert (key = p +:+ (c1 +:+ (grantee +:+ (c2 +:+ granter)))) as Ek by done.
  rewrite (parse_at key _ _ p c1 (grantee +:+ (c2 +:+ granter))) by done. cbn [obind]. rewrite B1.
  rewrite (parse_at key _ _ (p +:+ c1) grantee (c2 +:+ granter)); [|by rewrite Ek, string_app_assoc|rewrite str_length_app; unfold c1; cbn [String.length]; lia|done].
  cbn [obind]. rewrite (parse_at key _ _ (p +:+ (c1 +:+ grantee)) c2 granter);
    [|by rewrite Ek, !string_app_assoc|rewrite !str_length_app; unfold c1; cbn [String.length]; lia|done].
  cbn [obind]. rewrite B2. rewrite (parse_at key _ _ (p +:+ (c1 +:+ (grantee +:+ c2))) granter "").
  - done.
  - rewrite Ek. rewrite <- !string_app_assoc. do 4 f_equal. clear. induction granter as [|x g IH]; [done|]. string_simpl. by rewrite <- IH.
  - rewrite !str_length_app. unfold c1, c2. cbn [String.length]. lia.
  - done.
Qed.

Lemma parse_queue_key e granter grantee : time_ok e -> address_ok granter -> address_ok grantee ->
  ParseAddressesFromFeeAllowanceQueueKey (qkey e granter grantee) = Ok (granter, grantee).
Proof.
  intros He Hr Hg. unfold ParseAddressesFromFeeAllowanceQueueKey, qkey, FeeAllowancePrefixQueue.
  rewrite <- (parse_addresses_run (AllowanceByExpTimeKey e) granter grantee Hr Hg). f_equal. unfold AllowanceByExpTimeKey.
  by rewrite str_length_app, FormatTimeBytes_length.
Qed.

(** The keys the queue's iterator visits: those of times before [now]. *)
Lemma expired_domain now e granter grantee : time_ok now -> time_ok e -> 
  in_domain (Some FeeAllowanceQueueKeyPrefix) (Some (InclusiveEndBytes (AllowanceByExpTimeKey now))) (qkey e granter grantee) <-> e < now.
Proof.
  intros Hn He. rewrite InclusiveEndBytes_domain. unfold in_domain, qkey, FeeAllowancePrefixQueue, AllowanceByExpTimeKey, FeeAllowanceQueueKeyPrefix.
  string_simpl. rewrite !str_lt_cons. assert (FormatTimeBytes now = FormatTimeBytes now +:+ "") as En by (symmetry; apply string_app_nil_r). rewrite En.
  assert (pair_key granter grantee <> "") as Hp by done. split.
  - intros [_ [E|[?|[_ E]]]]; [|lia|].
    + exfalso. apply (f_equal String.length) in E. cbn [String.length] in E. rewrite !str_length_app, !FormatTimeBytes_length in E by done. destruct (pair_key granter grantee) eqn:?; [done|]. cbn in E. lia.
    + apply str_lt_app_len in E as [E|[_ []%str_lt_nil]]; [|by rewrite !FormatTimeBytes_length]. by apply FormatTimeBytes_ordered.
  - intros Hlt. split; [split; [|done]; intros [?|[_ []%str_lt_nil]]; lia|]. right. right. split; [done|]. apply str_lt_app_len; [by rewrite !FormatTimeBytes_length|].
    left. by apply FormatTimeBytes_ordered.
Qed.

(** ** Well-formed stores *)

Section StoreLaws.
Context `{Bech32} `{SdkMath}.

Definition pair_ok (granter grantee : string) : Prop := address_ok granter /\ address_ok grantee.

(** The allowance expires at a time that can be a key, if at all. *)
Definition expiry (a : Allowance) (eo : option Time) : Prop := ExpiresAt a = Ok eo /\ forall e, eo = Some e -> time_ok e.

Definition grant_key (k : string) (v : fgvalue) : Prop :=
  exists granter grantee a eo, pair_ok granter grantee /\ k = fkey granter grantee /\ v = VGrant (NewGrant granter grantee a) /\ expiry a eo.
Definition queue_entry (k : string) (v : fgvalue) : Prop :=
  exists e granter grantee, time_ok e /\ pair_ok granter grantee /\ k = qkey e granter grantee /\ v = VQueue.

(** A store has grants and queue entries under their keys, and every grant
    that expires has its entry. *)
Record fg_wf (m : gmap string fgvalue) : Prop := {
  wf_shape k v : m !! k = Some v -> grant_key k v \/ queue_entry k v;
  wf_queued granter grantee a e : pair_ok granter grantee -> m !! fkey granter grantee = Some (VGrant (NewGrant granter grantee a)) ->
    ExpiresAt a = Ok (Some e) -> m !! qkey e granter grantee = Some VQueue;
}.

Definition grant_at (m : gmap string fgvalue) (granter grantee : string) : option Allowance :=
  match m !! fkey granter grantee with Some (VGrant g) => gr_Allowance g | _ => None end.

Lemma wf_grant m granter grantee : fg_wf m -> pair_ok granter grantee ->
  match grant_at m granter grantee with
  | Some a => m !! fkey granter grantee = Some (VGrant (NewGrant granter grantee a)) /\ exists eo, expiry a eo
  | None => m !! fkey granter grantee = None
  end.
Proof.
  intros Hwf [Hr He]. unfold grant_at. destruct (m !! fkey granter grantee) as [v|] eqn:E; [|done].
  destruct (wf_shape m Hwf _ _ E) as [(r & g & a & eo & [? ?] & Ek & -> & Hx)|(e & r & g & _ & _ & Ek & ->)]; [|by apply fkey_qkey in Ek].
  apply fkey_inj in Ek as [-> ->]; [|done..]. cbn. eauto.
Qed.

Lemma getGrant_run granter grantee s : fg_wf (fg_store s) -> pair_ok granter grantee ->
  getGrant granter grantee s = match grant_at (fg_store s) granter grantee with
    | Some a => (Ok (NewGrant granter grantee a), s)
    | None => (Err (Wrapf "fee-grant not found" ErrNotFound), s)
    end.
Proof.
  intros Hwf Hp. pose proof (wf_grant _ _ _ Hwf Hp) as Hg. unfold getGrant. rewrite FeeAllowanceKey_run by apply Hp. unfold bind, lift, reads.
  destruct (grant_at _ _ _); [destruct Hg as [-> _]|rewrite Hg]; done.
Qed.

Lemma wf_time m granter grantee a e : fg_wf m -> pair_ok granter grantee ->
  m !! fkey granter grantee = Some (VGrant (NewGrant granter grantee a)) -> ExpiresAt a = Ok (Some e) -> time_ok e.
Proof.
  intros Hwf Hp Hk Hx. destruct (wf_shape m Hwf _ _ Hk) as [(r & g & a' & eo & ? & E & Ev & [Hx' Ht])|(? & ? & ? & _ & _ & E & _)]; [|by apply fkey_qkey in E].
  injection Ev as _ _ <-. rewrite Hx in Hx'. injection Hx' as <-. by apply Ht.
Qed.

(** Changes to one pair's grant and queue entries. *)
Lemma wf_update m m' granter grantee : fg_wf m -> pair_ok granter grantee ->
  (forall k, m' !! k = m !! k \/ k = fkey granter grantee \/
     exists e, time_ok e /\ k = qkey e granter grantee /\ (m' !! k = Some VQueue \/ m' !! k = None)) ->
  (m' !! fkey granter grantee = None \/ exists a eo, m' !! fkey granter grantee = Some (VGrant (NewGrant granter grantee a)) /\ expiry a eo /\
     forall e, eo = Some e -> m' !! qkey e granter grantee = Some VQueue) ->
  fg_wf m'.
Proof.
  intros Hwf Hp Hrest Hgrant. pose proof Hp as [Hr He]. split.
  - intros k v Hk. destruct (Hrest k) as [E|[->|(e & Ht & -> & E)]].
    + rewrite E in Hk. by apply (wf_shape m Hwf).
    + destruct Hgrant as [E|(a & eo & E & Hx & _)]; [congruence|]. left. exists granter, grantee, a, eo. split_and!; (done || congruence).
    + right. exists e, granter, grantee. split_and!; try done. destruct E; congruence.
  - intros r g a e [Hr' Hg'] Hk Hx. destruct (Hrest (fkey r g)) as [E|[E|(e' & _ & E & _)]]; [|apply fkey_inj in E as [-> ->]; [|done..]|by apply fkey_qkey in E].
    + destruct (decide (fkey r g = fkey granter grantee)) as [Ef|Ef].
      { apply fkey_inj in Ef as [-> ->]; [|done..]. destruct Hgrant as [?|(a' & eo & E' & [Hx' _] & Hq)]; [congruence|].
        rewrite E' in Hk. injection Hk as <-. rewrite Hx in Hx'. injection Hx' as <-. by apply Hq. }
      rewrite E in Hk. pose proof (wf_queued m Hwf r g a e (conj Hr' Hg') Hk Hx) as Hq.
      destruct (Hrest (qkey e r g)) as [->|[Ek|(e' & Ht & Ek & _)]]; [done|by symmetry in Ek; apply fkey_qkey in Ek|].
      apply qkey_inj in Ek as (-> & -> & ->); try done. by apply (wf_time m r g a e).
    + destruct Hgrant as [?|(a' & eo & E' & [Hx' _] & Hq)]; [congruence|]. rewrite E' in Hk. injection Hk as <-. rewrite Hx in Hx'. injection Hx' as <-. by apply Hq.
Qed.

(** A write to the pair's grant, with the queue entries as they stand. *)
Lemma grant_at_rest m m' granter grantee r g : pair_ok granter grantee -> pair_ok r g -> (r, g) <> (granter, grantee) ->
  (forall k, m' !! k = m !! k \/ k = fkey granter grantee \/ exists e, time_ok e /\ k = qkey e granter grantee /\ (m' !! k = Some VQueue \/ m' !! k = None)) ->
  grant_at m' r g = grant_at m r g.
Proof.
  intros [Hr Hg] [Hr' Hg'] Hne Hrest. unfold grant_at. destruct (Hrest (fkey r g)) as [->|[E|(e & _ & E & _)]]; [done| |by apply fkey_qkey in E].
  apply fkey_inj in E as [-> ->]; by try done.
Qed.

(** ** What the keeper's operations do *)

Definition keeps {A} (c : M FgState A) : Prop := forall s, fg_wf (fg_store s) -> fg_wf (fg_store (c s).2).

Lemma keeps_bind {A B} (c : M FgState A) (k : A -> M FgState B) : keeps c -> (forall a, keeps (k a)) -> keeps (bind c k).
Proof. intros Hc Hk s Hs. unfold bind. specialize (Hc s Hs). destruct (c s) as [[a| |] s1]; [by apply Hk|done..]. Qed.
Lemma keeps_ret {A} (a : A) : keeps (ret a).
Proof. by intros s Hs. Qed.
Lemma keeps_throw {A} e : keeps (@throw FgState A e).
Proof. by intros s Hs. Qed.
Lemma keeps_lift {A} (o : outcome A) : keeps (lift o).
Proof. by intros s Hs. Qed.
Lemma keeps_reads {A} (f : FgState -> A) : keeps (reads f).
Proof. by intros s Hs. Qed.
Lemma keeps_try {A} (c : M FgState A) : keeps c -> keeps (try c).
Proof. intros Hc s Hs. unfold try. specialize (Hc s Hs). by destruct (c s) as [[a| |] s1]. Qed.
Lemma keeps_EmitEvent ev : keeps (EmitEvent ev).
Proof. by intros s Hs. Qed.
Lemma keeps_on_gas {A} (c : M GasMeter A) : keeps (on_gas c).
Proof. intros s Hs. unfold on_gas. by destruct (c (fg_gas s)). Qed.

(** The grant of a pair replaced, or removed. *)
Lemma wf_write m granter grantee a eo : fg_wf m -> pair_ok granter grantee -> expiry a eo ->
  (forall e, eo = Some e -> m !! qkey e granter grantee = Some VQueue) ->
  fg_wf (<[fkey granter grantee := VGrant (NewGrant granter grantee a)]> m).
Proof.
  intros Hwf Hp Hx Hq. apply (wf_update m _ granter grantee Hwf Hp).
  - intros k. destruct (decide (k = fkey granter grantee)) as [->|Hk]; [by right; left|left; by rewrite lookup_insert_ne].
  - right. exists a, eo. rewrite lookup_insert_eq. split_and!; [done|done|]. intros e He. rewrite lookup_insert_ne; [by apply Hq|apply fkey_qkey].
Qed.

Lemma wf_remove m granter grantee : fg_wf m -> pair_ok granter grantee -> fg_wf (delete (fkey granter grantee) m).
Proof.
  intros Hwf Hp. apply (wf_update m _ granter grantee Hwf Hp).
  - intros k. destruct (decide (k = fkey granter grantee)) as [->|Hk]; [by right; left|left; by rewrite lookup_delete_ne].
  - left. apply lookup_delete_eq.
Qed.

Definition with_store (f : gmap string fgvalue -> gmap string fgvalue) (ev : Event) (s : FgState) : FgState :=
  mkFgState (f (fg_store s)) (fg_gas s) (fg_events s ++ [ev]).

Lemma revoke_run granter grantee s : fg_wf (fg_store s) -> pair_ok granter grantee ->
  revokeAllowance granter grantee s = match grant_at (fg_store s) granter grantee with
    | Some _ => (Ok tt, with_store (delete (fkey granter grantee)) (grant_event "revoke_feegrant" (AccAddress_String granter) (AccAddress_String grantee)) s)
    | None => (Err (Wrapf "fee-grant not found" ErrNotFound), s)
    end.
Proof.
  intros Hwf Hp. unfold revokeAllowance, bind at 1. rewrite getGrant_run by done. destruct (grant_at _ _ _); [|done].
  by rewrite FeeAllowanceKey_run by apply Hp.
Qed.

Lemma update_run granter grantee a s : fg_wf (fg_store s) -> pair_ok granter grantee ->
  UpdateAllowance granter grantee a s = match grant_at (fg_store s) granter grantee with
    | Some _ => (Ok tt, with_store (<[fkey granter grantee := VGrant (NewGrant granter grantee a)]>)
                  (grant_event "update_feegrant" (AccAddress_String granter) (AccAddress_String grantee)) s)
    | None => (Err (Wrapf "fee-grant not found" ErrNotFound), s)
    end.
Proof.
  intros Hwf Hp. unfold UpdateAllowance. rewrite FeeAllowanceKey_run by apply Hp. unfold bind, lift. rewrite getGrant_run by done.
  by destruct (grant_at _ _ _).
Qed.

Lemma revoke_keeps granter grantee : pair_ok granter grantee -> keeps (revokeAllowance granter grantee).
Proof. intros Hp s Hwf. rewrite revoke_run by done. destruct (grant_at _ _ _); [by apply wf_remove|done]. Qed.

(** An allowance that is used expires when it did. *)
Lemma Accept_expires now fee msgs : forall a g r g', Accept now fee msgs a g = (Ok r, g') -> ExpiresAt r.1 = ExpiresAt a.
Proof.
  fix IH 1. intros [b|p|inner allowed] g r g' E; cbn in E.
  - unfold lift_allowance, lift in E. injection E as E <-. destruct (Basic_Accept now fee b) as [[b' re]| |] eqn:Eb; [|done..]. injection E as <-. cbn.
    unfold Basic_Accept in Eb. destruct (match Expiration b with Some e => _ | None => _ end); [by injection Eb as <- _|].
    destruct (SpendLimit b) eqn:El; [by injection Eb as <- _|]. destruct (Coins_SafeSub _ _) as [[rest []]| |]; cbn in Eb; try done; by injection Eb as <- _.
  - unfold lift_allowance, lift in E. injection E as E <-. destruct (Periodic_Accept now fee p) as [[p' re]| |] eqn:Eb; [|done..]. injection E as <-. cbn.
    unfold Periodic_Accept in Eb. destruct (match Expiration (pa_Basic p) with Some e => _ | None => _ end); [by injection Eb as <- _|].
    assert (forall q, tryResetPeriod now p = Ok q -> pa_Basic q = pa_Basic p) as Hq.
    { intros q. unfold tryResetPeriod. destruct (_ <? _); [by intros [= <-]|]. destruct (Coins_SafeSub _ _) as [[? ?]| |]; cbn; try done. by intros [= <-]. }
    destruct (tryResetPeriod now p) as [q| |]; cbn in Eb; try done. rewrite <- (Hq q eq_refl). clear Hq.
    destruct (Coins_SafeSub _ _) as [[can []]| |]; cbn in Eb; try done; [by injection Eb as <- _|].
    destruct (SpendLimit (pa_Basic q)) eqn:El; [by injection Eb as <- _|]. destruct (Coins_SafeSub _ _) as [[rest []]| |]; cbn in Eb; try done; by injection Eb as <- _.
  - apply bind_ok in E as (ok & g1 & _ & E). destruct ok; cbn in E; [|by injection E as <- _].
    destruct inner as [i|]; [|by injection E as <- _]. apply bind_ok in E as ([i' [rm e]] & g2 & Ei & E). injection E as <- _. apply IH in Ei. cbn in Ei |- *.
    by destruct (_ && _).
Qed.


Definition used (granter grantee : string) (r : Allowance * (bool * option err)) (m : gmap string fgvalue) : gmap string fgvalue :=
  let '(a, (remove, e)) := r in
  if (remove : bool) then delete (fkey granter grantee) m else
  match e with Some _ => m | None => <[fkey granter grantee := VGrant (NewGrant granter grantee a)]> m end.

Lemma use_run now granter grantee fee msgs s : fg_wf (fg_store s) -> pair_ok granter grantee ->
  let '(o, s') := UseGrantedFees now granter grantee fee msgs s in
  match grant_at (fg_store s) granter grantee with
  | None => o = Err (Wrapf "fee-grant not found" ErrNotFound) /\ fg_store s' = fg_store s
  | Some a =>
      match (Accept now fee msgs a (fg_gas s)).1 with
      | Ok r => o = match r.2.2 with Some e => Err e | None => Ok tt end /\ fg_store s' = used granter grantee r (fg_store s)
      | Err e => o = Err e /\ fg_store s' = fg_store s
      | Panic => o = Panic /\ fg_store s' = fg_store s
      end
  end.
Proof.
  intros Hwf Hp. unfold UseGrantedFees, bind at 1. rewrite getGrant_run by done. destruct (grant_at _ _ _) as [a|] eqn:Ea; [|done].
  unfold lift at 1, bind at 1. cbn [GetGrant gr_Allowance NewGrant]. unfold bind at 1, on_gas.
  destruct (Accept now fee msgs a (fg_gas s)) as [[[a' [rm e]]| |] g]; [|done..]. cbn [fst snd used].
  set (s1 := mkFgState _ _ _). destruct rm.
  - unfold bind, try. rewrite revoke_run by done. change (fg_store s1) with (fg_store s). rewrite Ea. by destruct e.
  - destruct e as [e|]; [done|]. unfold emitUseGrantEvent, EmitEvent, bind, modify.
    rewrite update_run by done. cbn [fg_store s1]. by rewrite Ea.
Qed.

Lemma use_keeps now granter grantee fee msgs : pair_ok granter grantee -> keeps (UseGrantedFees now granter grantee fee msgs).
Proof.
  intros Hp s Hwf. pose proof (use_run now granter grantee fee msgs s Hwf Hp) as Hrun. destruct (UseGrantedFees _ _ _ _ _ s) as [o s']. cbn [snd].
  pose proof (wf_grant _ _ _ Hwf Hp) as Hg. destruct (grant_at _ _ _) as [a|]; [|by destruct Hrun as [_ ->]]. destruct Hg as [Hk [eo Hx]].
  destruct (Accept now fee msgs a (fg_gas s)) as [[[a' [rm e]]| |] g] eqn:Ea; cbn [fst snd used] in Hrun; destruct Hrun as [_ ->]; [|done..].
  destruct rm; [by apply wf_remove|]. destruct e; [done|]. apply Accept_expires in Ea. apply (wf_write _ _ _ a' eo); [done|done| |].
  - destruct Hx as [Hx Ht]. split; [cbn in Ea; by rewrite Ea|done].
  - intros x ->. apply (wf_queued _ Hwf _ _ a); [done|done|apply Hx].
Qed.

(** What GrantAllowance writes: the grant, and its queue entry moved. *)
Definition granted (granter grantee : string) (a : Allowance) (oldExp newExp : option Time) (m : gmap string fgvalue) : gmap string fgvalue :=
  let q e := qkey e granter grantee in
  <[fkey granter grantee := VGrant (NewGrant granter grantee a)]>
    match oldExp, newExp with
    | None, Some e => <[q e := VQueue]> m
    | Some o, None => delete (q o) m
    | Some o, Some e => if negb (o =? e) then <[q e := VQueue]> (delete (q o) m) else m
    | None, None => m
    end.

Definition grant_expiry (m : gmap string fgvalue) (granter grantee : string) : option Time :=
  match grant_at m granter grantee with Some a => match ExpiresAt a with Ok e => e | _ => None end | None => None end.

Lemma wf_granted m granter grantee a eo : fg_wf m -> pair_ok granter grantee -> expiry a eo ->
  fg_wf (granted granter grantee a (grant_expiry m granter grantee) eo m).
Proof.
  intros Hwf Hp Hx. pose proof (wf_grant _ _ _ Hwf Hp) as Hg. unfold grant_expiry. set (old := match grant_at m granter grantee with Some _ => _ | None => None end).
  assert (forall e, old = Some e -> time_ok e /\ m !! qkey e granter grantee = Some VQueue) as Ho.
  { intros e. unfold old. destruct (grant_at _ _ _) as [b|]; [|done]. destruct Hg as [Hk [bo [Hb Ht]]]. rewrite Hb. intros ->. split; [by apply Ht|].
    by apply (wf_queued _ Hwf _ _ b). }
  apply (wf_update m _ granter grantee Hwf Hp).
  - intros k. destruct (decide (k = fkey granter grantee)) as [->|Hk]; [by right; left|]. unfold granted. rewrite lookup_insert_ne by done.
    destruct Hx as [_ Ht]. destruct old as [o|], eo as [e|]; [destruct (o =? e); cbn [negb]; [by left|]| | |by left].
    + destruct (decide (k = qkey e granter grantee)) as [->|Hk1]; [right; right; exists e; rewrite lookup_insert_eq; eauto|]. rewrite lookup_insert_ne by done.
      destruct (decide (k = qkey o granter grantee)) as [->|Hk2]; [right; right; exists o; rewrite lookup_delete_eq; split_and!; [by apply Ho|done|by right]|]. by left; rewrite lookup_delete_ne.
    + destruct (decide (k = qkey o granter grantee)) as [->|Hk2]; [right; right; exists o; rewrite lookup_delete_eq; split_and!; [by apply Ho|done|by right]|]. by left; rewrite lookup_delete_ne.
    + destruct (decide (k = qkey e granter grantee)) as [->|Hk1]; [right; right; exists e; rewrite lookup_insert_eq; eauto|]. by left; rewrite lookup_insert_ne.
  - right. exists a, eo. unfold granted. rewrite lookup_insert_eq. split_and!; [done|done|]. intros e ->. rewrite lookup_insert_ne by apply fkey_qkey.
    destruct old as [o|]; [|by rewrite lookup_insert_eq]. destruct (Z.eqb_spec o e) as [->|]; cbn [negb]; [by apply Ho|by rewrite lookup_insert_eq].
Qed.

Lemma write_grant_run now granter grantee a eo s : fg_wf (fg_store s) -> pair_ok granter grantee -> expiry a eo ->
  write_grant now granter grantee a s =
    if match eo with Some e => e <? now | None => false end then (Err (Wrapf "expiration is before current block time" ErrInvalidRequest), s) else
    (Ok tt, with_store (granted granter grantee a (grant_expiry (fg_store s) granter grantee) eo)
       (grant_event "set_feegrant" (AccAddress_String granter) (AccAddress_String grantee)) s).
Proof.
  intros Hwf Hp Hx. pose proof (wf_grant _ _ _ Hwf Hp) as Hg. destruct Hx as [Hx _].
  unfold write_grant, bind at 1, lift at 1. rewrite FeeAllowanceKey_run by apply Hp. unfold bind at 1, try. rewrite getGrant_run by done.
  unfold grant_expiry. destruct (grant_at _ _ _) as [b|].
  - destruct Hg as [_ [bo [Hb _]]]. rewrite Hb. unfold bind at 1, lift at 1. cbn [gr_Allowance NewGrant]. rewrite Hb. unfold bind at 1, lift at 1. rewrite Hx.
    destruct eo as [e|], bo as [o|]; [destruct (e <? now); [done|]; cbn [negb]; destruct (o =? e) eqn:Eo; cbn; unfold with_store, granted, bind, removeFromGrantQueue, addToFeeAllowanceQueue, set_key, delete_key, modify, EmitEvent, ret; cbn; rewrite ?Eo; done|destruct (e <? now); done|done|done].
  - replace (errors_Is (Wrapf _ ErrNotFound) "sdk" 38) with true by done. unfold bind at 1, ret at 1. unfold bind at 1, lift at 1. rewrite Hx.
    destruct eo as [e|]; [destruct (e <? now); done|done].
Qed.

Lemma write_grant_keeps now granter grantee a eo : pair_ok granter grantee -> expiry a eo -> keeps (write_grant now granter grantee a).
Proof.
  intros Hp Hx s Hwf. rewrite (write_grant_run now granter grantee a eo s Hwf Hp Hx). destruct (match eo with Some e => _ | None => _ end); [done|].
  by apply wf_granted.
Qed.


(** ** What EndBlocker removes *)

(** A key that goes with the queue entries [keys]: an entry, or its grant. *)
Definition dropped (keys : list string) (k : string) : Prop :=
  exists e granter grantee, time_ok e /\ pair_ok granter grantee /\ qkey e granter grantee ∈ keys /\
    (k = qkey e granter grantee \/ k = fkey granter grantee).

Lemma dropped_cons q keys k : dropped keys k -> dropped (q :: keys) k.
Proof. intros (e & r & g & ? & ? & ? & ?). exists e, r, g. by split_and!; [..|right|]. Qed.

Lemma remove_all keys s : (forall q, q ∈ keys -> queue_entry q VQueue) ->
  exists s', for_each keys remove_expired s = (Ok tt, s') /\
    forall k, (dropped keys k /\ fg_store s' !! k = None) \/ (~ dropped keys k /\ fg_store s' !! k = fg_store s !! k).
Proof.
  revert s. induction keys as [|q keys IH]; intros s Hq.
  { exists s. split; [done|]. intros k. right. split; [|done]. intros (e & r & g & _ & _ & Hin & _). by apply elem_of_nil in Hin. }
  destruct (Hq q (list_elem_of_here _ _)) as (e & r & g & Ht & Hp & -> & _). pose proof Hp as [Hr Hg].
  set (s1 := mkFgState (delete (fkey r g) (delete (qkey e r g) (fg_store s))) (fg_gas s) (fg_events s)).
  destruct (IH s1) as (s' & Er & Hs'). { intros q Hin. apply Hq. by right. }
  exists s'. split.
  { cbn [for_each]. unfold bind at 1. unfold remove_expired. unfold bind at 1, delete_key at 1, modify at 1. unfold bind at 1, lift at 1.
    rewrite parse_queue_key by done. cbn [fst snd]. unfold bind at 1, lift at 1. rewrite FeeAllowanceKey_run by done. done. }
  intros k. assert (k = qkey e r g \/ k = fkey r g \/ k <> qkey e r g /\ k <> fkey r g) as Hk.
  { destruct (decide (k = qkey e r g)); [by left|]. destruct (decide (k = fkey r g)); tauto. }
  assert (k = qkey e r g \/ k = fkey r g -> dropped (qkey e r g :: keys) k) as Hd by by (intros; exists e, r, g; split_and!; [| |left|]).
  destruct (Hs' k) as [[Hdr E]|[Hdr E]]; [left; split; [by apply dropped_cons|done]|].
  destruct Hk as [->|[->|[Hk1 Hk2]]].
  - left. split; [by apply Hd; left|]. rewrite E. cbn. rewrite lookup_delete_ne by apply fkey_qkey. apply lookup_delete_eq.
  - left. split; [by apply Hd; right|]. rewrite E. apply lookup_delete_eq.
  - right. split; [|rewrite E; cbn; by rewrite !lookup_delete_ne]. intros (e' & r' & g' & Ht' & [? ?] & Hin & Hk).
    apply elem_of_cons in Hin as [Eq|Hin].
    + apply qkey_inj in Eq as (-> & -> & ->); [|done..]. tauto.
    + destruct Hdr. exists e', r', g'. by split_and!.
Qed.

Lemma expired_keys_in now s e granter grantee : time_ok now -> time_ok e ->
  qkey e granter grantee ∈ expired_keys now s <-> e < now /\ exists v, fg_store s !! qkey e granter grantee = Some v.
Proof.
  intros Hn He. unfold expired_keys. rewrite list_elem_of_fmap. split.
  - intros ([k v] & E & [Hk Hd]%elem_of_range). cbn in E. subst k. apply expired_domain in Hd; [eauto|done..].
  - intros [Hlt [v Hv]]. exists (qkey e granter grantee, v). split; [done|]. apply elem_of_range. split; [done|]. by apply expired_domain.
Qed.

Lemma expired_keys_queue now s q : fg_wf (fg_store s) -> time_ok now -> q ∈ expired_keys now s -> queue_entry q VQueue.
Proof.
  intros Hwf Hn. unfold expired_keys. intros ([k v] & -> & [Hk Hd]%elem_of_range)%list_elem_of_fmap. cbn.
  destruct (wf_shape _ Hwf _ _ Hk) as [(r & g & a & eo & _ & -> & _)|(e & r & g & ? & ? & -> & _)].
  - exfalso. destruct Hd as [Hlow _]. apply Hlow. done.
  - exists e, r, g. by split_and!.
Qed.

(** EndBlocker cannot fail; the grants it keeps are as they were and have not
    expired, and what it removes had a queue entry of an earlier time. *)
Lemma end_run now s : fg_wf (fg_store s) -> time_ok now ->
  exists s', EndBlocker now s = (Ok tt, s') /\ fg_wf (fg_store s') /\
    (forall granter grantee a, pair_ok granter grantee -> grant_at (fg_store s') granter grantee = Some a ->
       grant_at (fg_store s) granter grantee = Some a /\ forall e, ExpiresAt a = Ok (Some e) -> now <= e) /\
    (forall granter grantee, pair_ok granter grantee ->
       (forall e, time_ok e -> e < now -> fg_store s !! qkey e granter grantee = None) ->
       grant_at (fg_store s') granter grantee = grant_at (fg_store s) granter grantee) /\
    (forall granter grantee e v, pair_ok granter grantee -> time_ok e -> e < now -> fg_store s !! qkey e granter grantee = Some v ->
       grant_at (fg_store s') granter grantee = None).
Proof.
  intros Hwf Hn. destruct (remove_all (expired_keys now s) s) as (s' & Er & Hs'). { intros q. by apply expired_keys_queue. }
  assert (forall r g v, pair_ok r g -> fg_store s' !! fkey r g = Some v -> fg_store s !! fkey r g = Some v) as Hkeep.
  { intros r g v _ Hv. destruct (Hs' (fkey r g)) as [[_ E]|[_ E]]; congruence. }
  exists s'. split; [done|]. split_and!.
  - split.
    + intros k v Hk. destruct (Hs' k) as [[_ E]|[_ E]]; [congruence|]. rewrite E in Hk. by apply (wf_shape _ Hwf).
    + intros r g a e Hp Hk Hx. pose proof (Hkeep _ _ _ Hp Hk) as Hk0. pose proof (wf_queued _ Hwf _ _ _ _ Hp Hk0 Hx) as Hq.
      destruct (Hs' (qkey e r g)) as [[Hd _]|[_ ->]]; [|done]. exfalso. destruct Hd as (e' & r' & g' & Ht & [? ?] & Hin & [Eq|Eq]); [|by symmetry in Eq; apply fkey_qkey in Eq].
      pose proof (wf_time _ _ _ _ _ Hwf Hp Hk0 Hx) as Hte. destruct Hp. apply qkey_inj in Eq as (<- & <- & <-); [|done..].
      destruct (Hs' (fkey r g)) as [[_ E]|[Hnd _]]; [congruence|]. destruct Hnd. exists e, r, g. split_and!; (done || by right).
  - intros r g a Hp. unfold grant_at. destruct (fg_store s' !! fkey r g) as [v|] eqn:Ev; [|done]. rewrite (Hkeep _ _ _ Hp Ev). intros Ha. split; [done|].
    intros e Hx. pose proof (wf_grant _ r g Hwf Hp) as Hg. unfold grant_at in Hg. rewrite (Hkeep _ _ _ Hp Ev), Ha in Hg. destruct Hg as [Hv _]. injection Hv as ->.
    pose proof (Hkeep _ _ _ Hp Ev) as Hk0. pose proof (wf_time _ _ _ _ _ Hwf Hp Hk0 Hx) as Hte.
    destruct (decide (e < now)) as [Hlt|]; [|lia]. exfalso. destruct (Hs' (fkey r g)) as [[_ E]|[Hnd _]]; [congruence|].
    destruct Hnd. exists e, r, g. split_and!; [done|done| |by right]. apply expired_keys_in; [done..|]. split; [done|]. exists VQueue. by apply (wf_queued _ Hwf _ _ a).
  - intros r g Hp Hno. unfold grant_at. destruct (Hs' (fkey r g)) as [[Hd _]|[_ ->]]; [|done]. exfalso.
    destruct Hd as (e & r' & g' & Ht & [? ?] & Hin & [Eq|Eq]); [by apply fkey_qkey in Eq|]. destruct Hp. apply fkey_inj in Eq as [<- <-]; [|done..].
    apply expired_keys_in in Hin as [Hlt [v Hv]]; [|done..]. by rewrite Hno in Hv.
  - intros r g e v Hp Ht Hlt Hv. unfold grant_at. destruct (Hs' (fkey r g)) as [[_ ->]|[Hnd _]]; [done|]. destruct Hnd. exists e, r, g.
    split_and!; [done|done| |by right]. apply expired_keys_in; eauto.
Qed.

End StoreLaws.

(** ** The module over time *)

(** A transaction of the module, the ante handler's use of a grant, and the
    end of a block.  A failed operation keeps the writes it made: a transaction
    that is rolled back is one that is left out of the sequence. *)
Inductive fg_op : Type :=
  | TxGrant (now : Time) (msg : MsgGrantAllowance)
  | TxRevoke (msg : MsgRevokeAllowance)
  | Use (now : Time) (granter grantee : string) (fee : Coins) (msgs : list string)
  | End_ (now : Time).

Section Machine.
Context `{Bech32Laws} `{SdkMathLaws} (BlockedAddr : string -> bool).
Notation World := (AuthState * FgState)%type.

Definition op_run (op : fg_op) : M World unit :=
  match op with
  | TxGrant now msg => lift (MsgGrantAllowance_ValidateBasic msg) ;;! msg_GrantAllowance BlockedAddr now msg
  | TxRevoke msg => lift (MsgRevokeAllowance_ValidateBasic msg) ;;! msg_RevokeAllowance msg
  | Use now granter grantee fee msgs => on_grants (UseGrantedFees now granter grantee fee msgs)
  | End_ now => on_grants (EndBlocker now)
  end.

Fixpoint ops_run (ops : list fg_op) (s : World) : World :=
  match ops with [] => s | op :: ops => ops_run ops (op_run op s).2 end.

(** Times have four-digit years (what protobuf decodes), and the ante
    handler's addresses are those of a validated transaction. *)
Definition op_ok (op : fg_op) : Prop :=
  match op with
  | TxGrant _ msg => forall a e, mg_Allowance msg = Some a -> ExpiresAt a = Ok (Some e) -> time_ok e
  | TxRevoke _ => True
  | Use _ granter grantee _ _ => pair_ok granter grantee
  | End_ now => time_ok now
  end.

(** An operation leaves the grants alone, or writes or revokes one pair's, or
    uses it, or ends the block. *)
Lemma parsed_ok s a : AccAddressFromBech32 s = Some a -> address_ok a.
Proof. intros E%AccAddressFromBech32_valid%VerifyAddressFormat_spec. done. Qed.

Lemma valid_expiry a : ValidateBasic a = Ok tt -> (forall e, ExpiresAt a = Ok (Some e) -> time_ok e) -> exists eo, expiry a eo.
Proof.
  intros Hv Ht. assert (exists eo, ExpiresAt a = Ok eo) as [eo E].
  { clear Ht. revert a Hv. fix IH 1. intros [b|p|[i|] allowed] Hv; cbn in *; [by eexists..| |done].
    apply IH. by destruct (Nat.eqb _ _). }
  exists eo. split; [done|]. intros e ->. by apply Ht.
Qed.

Lemma on_accounts_grants {A} (c : M AuthState A) s : (on_accounts c s).2.2 = s.2.
Proof. unfold on_accounts. by destruct (c s.1). Qed.

Lemma create_grantee_store grantee s : (create_grantee BlockedAddr grantee s).2.2 = s.2.
Proof.
  unfold create_grantee, bind at 1. pose proof (on_accounts_grants (GetAccount grantee) s) as E. destruct (on_accounts _ s) as [[o| |] s1]; cbn in E |- *; [|done..].
  destruct o; [done|]. destruct (BlockedAddr grantee); [done|]. unfold bind. pose proof (on_accounts_grants (NewAccountWithAddress grantee) s1) as E1.
  destruct (on_accounts _ s1) as [[acc| |] s2]; cbn in E1 |- *; [|congruence..].
  pose proof (on_accounts_grants (SetAccount acc) s2) as E2. cbn in E2. congruence.
Qed.

(** Whatever happens to the accounts first, the grants see one write or none. *)
Lemma keeper_grant_store now granter grantee a eo (s : World) : fg_wf (fg_store s.2) -> pair_ok granter grantee -> expiry a eo ->
  let m := fg_store s.2 in
  fg_store (keeper_GrantAllowance BlockedAddr now granter grantee a s).2.2 = m \/
  fg_store (keeper_GrantAllowance BlockedAddr now granter grantee a s).2.2 = granted granter grantee a (grant_expiry m granter grantee) eo m.
Proof.
  intros Hwf Hp Hx m. unfold keeper_GrantAllowance. set (w := on_grants _). unfold bind.
  pose proof (create_grantee_store grantee s) as Hc.
  destruct (create_grantee BlockedAddr grantee s) as [[u| |] s1]; cbn in Hc |- *; [|by left; rewrite Hc..]. unfold w, on_grants. rewrite Hc, (write_grant_run now _ _ _ eo) by done.
  destruct (match eo with Some e => _ | None => _ end); [by left|by right].
Qed.

(** What an operation does to the store. *)
Inductive fg_effect (op : fg_op) (s : World) (m : gmap string fgvalue) : Prop :=
  | eff_none : m = fg_store s.2 -> fg_effect op s m
  | eff_grant now msg granter grantee a eo : op = TxGrant now msg -> AccAddressFromBech32 (mg_Granter msg) = Some granter ->
      AccAddressFromBech32 (mg_Grantee msg) = Some grantee -> expiry a eo ->
      grant_at (fg_store s.2) granter grantee = None ->
      m = granted granter grantee a None eo (fg_store s.2) -> fg_effect op s m
  | eff_revoke granter grantee : pair_ok granter grantee -> m = delete (fkey granter grantee) (fg_store s.2) -> fg_effect op s m
  | eff_use now granter grantee fee msgs : op = Use now granter grantee fee msgs ->
      m = fg_store (UseGrantedFees now granter grantee fee msgs s.2).2 -> fg_effect op s m
  | eff_end now : op = End_ now -> m = fg_store (EndBlocker now s.2).2 -> fg_effect op s m.

Lemma op_effect op s : fg_wf (fg_store s.2) -> op_ok op -> fg_effect op s (fg_store (op_run op s).2.2).
Proof.
  intros Hwf Hok. destruct op as [now msg|msg|now r g fee msgs|now]; cbn [op_run op_ok] in *.
  - unfold bind at 1, lift. destruct (MsgGrantAllowance_ValidateBasic msg) as [[]| |] eqn:Ev; [|by apply eff_none..].
    unfold MsgGrantAllowance_ValidateBasic in Ev. unfold msg_GrantAllowance, parse_or_throw.
    destruct (AccAddressFromBech32 (mg_Grantee msg)) as [grantee|] eqn:Eg; [|by apply eff_none].
    destruct (AccAddressFromBech32 (mg_Granter msg)) as [granter|] eqn:Er; [|by apply eff_none].
    assert (pair_ok granter grantee) as Hp by by (split; eapply parsed_ok).
    rewrite !bool_decide_false in Ev by done. destruct (bool_decide (mg_Grantee msg = _)); [done|]. unfold GetFeeAllowanceI in *.
    destruct (mg_Allowance msg) as [a|] eqn:Ea; [|done]. cbn in Ev.
    unfold bind at 1, ret at 1. unfold bind at 1, ret at 1. unfold bind at 1, try, on_grants at 1, GetAllowance, bind at 1. rewrite getGrant_run by done.
    destruct (grant_at (fg_store s.2) granter grantee) as [b|] eqn:Eb; [by apply eff_none|]. unfold bind at 1, lift at 1. 
    destruct (valid_expiry a Ev (fun e => Hok a e eq_refl)) as [eo Hx]. destruct s as [auth gs]. cbn [fst snd] in *.
    destruct (keeper_grant_store now granter grantee a eo (auth, gs) Hwf Hp Hx) as [->| ->]; [by apply eff_none|].
    apply (eff_grant _ _ _ now msg granter grantee a eo); try done. unfold grant_expiry. cbn [snd]. by rewrite Eb.
  - unfold bind at 1, lift. destruct (MsgRevokeAllowance_ValidateBasic msg) as [[]| |]; [|by apply eff_none..]. unfold msg_RevokeAllowance, parse_or_throw.
    destruct (AccAddressFromBech32 (mr_Grantee msg)) as [grantee|] eqn:Eg; [|by apply eff_none].
    destruct (AccAddressFromBech32 (mr_Granter msg)) as [granter|] eqn:Er; [|by apply eff_none].
    assert (pair_ok granter grantee) as Hp by by (split; eapply parsed_ok).
    unfold bind, ret, on_grants. rewrite revoke_run by done. destruct (grant_at _ _ _); [by apply (eff_revoke _ _ _ granter grantee)|by apply eff_none].
  - apply (eff_use _ _ _ now r g fee msgs); [done|]. unfold on_grants. by destruct (UseGrantedFees _ _ _ _ _ _).
  - apply (eff_end _ _ _ now); [done|]. unfold on_grants. by destruct (EndBlocker _ _).
Qed.

Lemma op_keeps op s : fg_wf (fg_store s.2) -> op_ok op -> fg_wf (fg_store (op_run op s).2.2).
Proof.
  intros Hwf Hok. destruct (op_effect op s Hwf Hok) as [->|now msg granter grantee a eo -> Er Eg Hx Hn ->|r g Hp ->|now r g fee msgs -> ->|now -> ->].
  - done.
  - assert (pair_ok granter grantee) as Hp by by (split; eapply parsed_ok). pose proof (wf_granted _ _ _ a eo Hwf Hp Hx) as Hw. unfold grant_expiry in Hw. by rewrite Hn in Hw.
  - by apply wf_remove.
  - by apply use_keeps.
  - destruct (end_run now s.2 Hwf Hok) as (s' & -> & Hw & _). done.
Qed.

Lemma ops_keeps ops s : fg_wf (fg_store s.2) -> Forall op_ok ops -> fg_wf (fg_store (ops_run ops s).2).
Proof.
  revert s. induction ops as [|op ops IH]; intros s Hwf Hok; [done|]. apply Forall_cons in Hok as [Ho Hok]. apply IH; [|done]. by apply op_keeps.
Qed.

Lemma wf_empty : fg_wf ∅.
Proof. split; intros *; rewrite lookup_empty; done. Qed.

(** Whatever transactions, uses of grants and blocks there were, EndBlocker
    succeeds; every grant it leaves is unchanged and has not expired, and a
    grant it removes had a queue entry of an earlier time. *)
Theorem expired_grants_removed ops now s : fg_store s.2 = ∅ -> Forall op_ok ops -> time_ok now ->
  let s1 := ops_run ops s in
  exists s2, op_run (End_ now) s1 = (Ok tt, s2) /\
    (forall granter grantee a, pair_ok granter grantee -> grant_at (fg_store s2.2) granter grantee = Some a ->
       grant_at (fg_store s1.2) granter grantee = Some a /\ forall e, ExpiresAt a = Ok (Some e) -> now <= e) /\
    (forall granter grantee, pair_ok granter grantee ->
       (forall e, time_ok e -> e < now -> fg_store s1.2 !! qkey e granter grantee = None) ->
       grant_at (fg_store s2.2) granter grantee = grant_at (fg_store s1.2) granter grantee).
Proof.
  intros Hs Hops Hn s1. assert (fg_wf (fg_store s1.2)) as Hwf by (apply ops_keeps; [rewrite Hs; apply wf_empty|done]).
  destruct (end_run now s1.2 Hwf Hn) as (g & Eg & _ & Hleft & Hkept & _). exists (s1.1, g). cbn [op_run]. unfold on_grants. by rewrite Eg.
Qed.

(** ** What a grant can cost its granter *)

Definition bounded (c : Coins) : Prop := valid c /\ forall d, coins_amount c d < 2 ^ 256.

Fixpoint spend_limit (a : Allowance) : Coins :=
  match a with
  | Basic b => SpendLimit b
  | Periodic p => SpendLimit (pa_Basic p)
  | AllowedMsg (Some i) _ => spend_limit i
  | AllowedMsg None _ => []
  end.

Fixpoint coins_ok (a : Allowance) : Prop :=
  match a with
  | Basic b => bounded (SpendLimit b)
  | Periodic p => bounded (SpendLimit (pa_Basic p)) /\ bounded (PeriodSpendLimit p) /\ bounded (PeriodCanSpend p)
  | AllowedMsg (Some i) _ => coins_ok i
  | AllowedMsg None _ => True
  end.

Lemma SafeSub_covered a b s : bounded a -> bounded b -> Coins_SafeSub a b = Ok (s, false) ->
  bounded s /\ forall d, coins_amount b d <= coins_amount a d /\ coins_amount s d = coins_amount a d - coins_amount b d.
Proof.
  intros [Ha Fa] [Hb Fb] E. destruct (Coins_SafeSub_valid a b Ha Hb Fa Fb) as (s' & neg & E' & Hs & Hn & Hv). rewrite E in E'. injection E' as <- <-.
  pose proof (proj1 Hn eq_refl) as Hle. split; [|intros d; by rewrite Hs].
  split; [by apply Hv|]. intros d. rewrite Hs. specialize (Fa d). pose proof (valid_nonneg b d Hb). lia.
Qed.

Lemma tryResetPeriod_ok now p q : coins_ok (Periodic p) -> tryResetPeriod now p = Ok q -> coins_ok (Periodic q) /\ pa_Basic q = pa_Basic p.
Proof.
  intros (Hl & Hp & Hc). unfold tryResetPeriod. destruct (_ <? _); [by intros [= <-]|]. destruct (Coins_SafeSub _ _) as [[? neg]| |]; cbn; try done.
  intros [= <-]. cbn. by destruct (neg && _).
Qed.

(** What an accepted fee leaves of an allowance with a limit. *)
Definition charged (fee : Coins) (a : Allowance) (r : Allowance * (bool * option err)) : Prop :=
  (forall d, coins_amount fee d <= coins_amount (spend_limit a) d) /\
  (r.2.1 = false -> coins_ok r.1 /\ spend_limit r.1 <> [] /\
     forall d, coins_amount (spend_limit r.1) d = coins_amount (spend_limit a) d - coins_amount fee d).

Lemma Accept_charged now fee msgs : bounded fee -> forall a g r g', coins_ok a -> spend_limit a <> [] ->
  Accept now fee msgs a g = (Ok r, g') -> r.2.2 = None -> charged fee a r.
Proof.
  intros Hf. fix IH 1. intros [b|p|inner allowed] g r g' Hok Hl E He; cbn in E.
  - unfold lift_allowance, lift in E. injection E as E <-. destruct (Basic_Accept now fee b) as [[b' re]| |] eqn:Eb; [|done..]. injection E as <-.
    unfold Basic_Accept in Eb. destruct (match Expiration b with Some e => _ | None => _ end); [by injection Eb as _ <-|]. cbn in Hl, Hok, He.
    destruct (SpendLimit b) eqn:El; [done|]. rewrite <- El in *. destruct (Coins_SafeSub _ _) as [[rest []]| |] eqn:Es; cbn in Eb; try done; injection Eb as <- <-; [done|].
    apply SafeSub_covered in Es as [Hr Hs]; [|done..]. split; [intros d; apply Hs|]. cbn. intros Hz. split_and!; [done|by intros ->|intros d; apply Hs].
  - unfold lift_allowance, lift in E. injection E as E <-. destruct (Periodic_Accept now fee p) as [[p' re]| |] eqn:Eb; [|done..]. injection E as <-.
    unfold Periodic_Accept in Eb. destruct (match Expiration (pa_Basic p) with Some e => _ | None => _ end); [by injection Eb as _ <-|]. cbn in Hl, He.
    destruct (tryResetPeriod now p) as [q| |] eqn:Eq; cbn in Eb; try done. apply tryResetPeriod_ok in Eq as [(Hql & Hqp & Hqc) Eq]; [|done].
    rewrite <- Eq in Hl. destruct (Coins_SafeSub (PeriodCanSpend q) fee) as [[can []]| |] eqn:Ec; cbn in Eb; try done; [by injection Eb as _ <-|].
    apply SafeSub_covered in Ec as [Hcan _]; [|done..].
    destruct (SpendLimit (pa_Basic q)) eqn:El; [done|]. rewrite <- El in *.
    destruct (Coins_SafeSub _ _) as [[rest []]| |] eqn:Es; cbn in Eb; try done; injection Eb as <- <-; [done|].
    apply SafeSub_covered in Es as [Hr Hs]; [|done..]. unfold charged. cbn [spend_limit]. rewrite <- Eq. split; [intros d; apply Hs|]. cbn. intros Hz. split_and!; [done..|by intros ->|intros d; apply Hs].
  - apply bind_ok in E as (ok & g1 & _ & E). destruct ok; cbn in E; [|by injection E as <- _].
    destruct inner as [i|]; [|by injection E as <- _]. apply bind_ok in E as ([i' [rm e]] & g2 & Ei & E). injection E as <- _. cbn in He. subst e.
    apply IH in Ei; [|done..]. destruct Ei as [Hle Hleft]. split; [done|]. cbn [fst snd] in *. intros ->. cbn. by apply Hleft.
Qed.


(** The fees accepted under one pair's grant. *)
Definition fee_of (granter grantee : string) (op : fg_op) (s : World) (d : string) : Z :=
  match op with
  | Use _ r g fee _ => if bool_decide ((r, g) = (granter, grantee)) && is_Ok (op_run op s).1 then coins_amount fee d else 0
  | _ => 0
  end.

Fixpoint fees (granter grantee : string) (ops : list fg_op) (s : World) (d : string) : Z :=
  match ops with
  | [] => 0
  | op :: ops => fee_of granter grantee op s d + fees granter grantee ops (op_run op s).2 d
  end.

(** No new grant is made for the pair, and fees are sets of coins. *)
Definition op_quiet (granter grantee : string) (op : fg_op) : Prop :=
  match op with
  | TxGrant _ msg => (AccAddressFromBech32 (mg_Granter msg), AccAddressFromBech32 (mg_Grantee msg)) <> (Some granter, Some grantee)
  | Use _ _ _ fee _ => bounded fee
  | _ => True
  end.

Definition within (granter grantee : string) (budget : string -> Z) (s : World) : Prop :=
  match grant_at (fg_store s.2) granter grantee with
  | Some a => coins_ok a /\ spend_limit a <> [] /\ forall d, coins_amount (spend_limit a) d <= budget d
  | None => forall d, 0 <= budget d
  end.

Lemma bounded_nonneg c d : bounded c -> 0 <= coins_amount c d.
Proof. intros [Hv _]. by apply valid_nonneg. Qed.

Lemma limit_nonneg a d : coins_ok a -> 0 <= coins_amount (spend_limit a) d.
Proof. revert a. fix IH 1. intros [b|p|[i|] ?]; cbn; [apply bounded_nonneg|intros (? & _ & _); by apply bounded_nonneg|apply IH|done]. Qed.

Lemma within_nonneg granter grantee budget s : within granter grantee budget s -> forall d, 0 <= budget d.
Proof.
  unfold within. destruct (grant_at _ _ _) as [a|]; [|done]. intros (Hok & _ & Hle) d. specialize (Hle d). pose proof (limit_nonneg a d Hok). lia.
Qed.

Lemma within_removed granter grantee budget s s' : within granter grantee budget s ->
  grant_at (fg_store s'.2) granter grantee = None \/ grant_at (fg_store s'.2) granter grantee = grant_at (fg_store s.2) granter grantee ->
  within granter grantee budget s'.
Proof. intros Hw [E|E]; unfold within; rewrite E; [by eapply within_nonneg|done]. Qed.

Lemma within_ext granter grantee budget b s : (forall d, b d = budget d) -> within granter grantee budget s -> within granter grantee b s.
Proof.
  unfold within. intros Hb Hw. destruct (grant_at _ _ _); [|intros d; by rewrite Hb]. destruct Hw as (? & ? & Hle). split_and!; [done..|]. intros d. by rewrite Hb.
Qed.

Lemma grant_at_delete m r g granter grantee : pair_ok r g -> pair_ok granter grantee ->
  grant_at (delete (fkey r g) m) granter grantee = None \/ grant_at (delete (fkey r g) m) granter grantee = grant_at m granter grantee.
Proof.
  intros [? ?] [? ?]. unfold grant_at. destruct (decide (fkey r g = fkey granter grantee)) as [->|Hne]; [left; by rewrite lookup_delete_eq|right; by rewrite lookup_delete_ne].
Qed.

Lemma use_within now granter grantee fee msgs budget (s : World) : fg_wf (fg_store s.2) -> pair_ok granter grantee -> bounded fee ->
  within granter grantee budget s -> let '(o, s') := op_run (Use now granter grantee fee msgs) s in
  within granter grantee (fun d => budget d - if is_Ok o then coins_amount fee d else 0) s'.
Proof.
  intros Hwf Hp Hf Hw. cbn [op_run]. unfold on_grants. pose proof (use_run now granter grantee fee msgs s.2 Hwf Hp) as Hrun.
  destruct (UseGrantedFees _ _ _ _ _ _) as [o g]. unfold within in Hw. cbn [fst snd].
  assert (forall b, (forall d, b d = budget d) -> within granter grantee b s) as Hsame by (intros b Hb; by apply (within_ext _ _ budget)).
  assert (fg_store g = fg_store s.2 -> is_Ok o = false -> within granter grantee (fun d => budget d - if is_Ok o then coins_amount fee d else 0) (s.1, g)) as Hfail.
  { intros E Ho. rewrite Ho. unfold within. cbn [snd]. rewrite E. apply Hsame. intros; lia. }
  destruct (grant_at (fg_store s.2) granter grantee) as [a|] eqn:Ea; [|destruct Hrun as [-> E]; by apply Hfail].
  destruct Hw as (Hok & Hl & Hle).
  destruct (Accept now fee msgs a (fg_gas s.2)) as [[[a' [rm e]]|e|] gm] eqn:Eacc; cbn [fst snd] in Hrun; destruct Hrun as [-> E]; [|by apply Hfail..].
  destruct e as [e|]; cbn [is_Ok used] in *.
  - destruct rm; [|by apply Hfail]. apply (within_removed _ _ _ s); [apply Hsame; intros; lia|]. cbn [snd]. rewrite E. by apply grant_at_delete.
  - apply (Accept_charged now fee msgs Hf) in Eacc as [Hcov Hleft]; [|done..]. cbn [fst snd] in Hleft.
    unfold within. cbn [snd]. rewrite E. destruct rm.
    + unfold grant_at. rewrite lookup_delete_eq. intros d. specialize (Hcov d). specialize (Hle d). lia.
    + unfold grant_at. rewrite lookup_insert_eq. cbn. destruct (Hleft eq_refl) as (Hok' & Hl' & Hamt). split_and!; [done..|]. intros d. rewrite Hamt. specialize (Hle d). lia.
Qed.

(** The other pairs' grants. *)
Lemma use_others now r g fee msgs granter grantee (s : FgState) : fg_wf (fg_store s) -> pair_ok r g -> pair_ok granter grantee ->
  (r, g) <> (granter, grantee) -> grant_at (fg_store (UseGrantedFees now r g fee msgs s).2) granter grantee = grant_at (fg_store s) granter grantee.
Proof.
  intros Hwf Hp Hp' Hne. pose proof (use_run now r g fee msgs s Hwf Hp) as Hrun. destruct (UseGrantedFees _ _ _ _ _ _) as [o s']. cbn [snd].
  assert (fg_store s' = fg_store s \/ exists r', fg_store s' = used r g r' (fg_store s)) as [->|[[a' [rm e]] ->]]; [|done|].
  { destruct (grant_at _ r g); [|left; apply Hrun]. destruct (Accept now fee msgs a (fg_gas s)) as [[r'| |] ?]; cbn in Hrun; [right; exists r'|left|left]; apply Hrun. }
  unfold used, grant_at. assert (fkey r g <> fkey granter grantee) as Hk. { intros E. destruct Hp, Hp'. apply fkey_inj in E as [-> ->]; by try done. }
  destruct rm; [by rewrite lookup_delete_ne|]. destruct e; [done|]. by rewrite lookup_insert_ne.
Qed.

(** Operations that do not charge the pair's grant. *)
Lemma op_others granter grantee op (s : World) : fg_wf (fg_store s.2) -> pair_ok granter grantee -> op_ok op -> op_quiet granter grantee op ->
  (exists now fee msgs, op = Use now granter grantee fee msgs) \/
  grant_at (fg_store (op_run op s).2.2) granter grantee = None \/
  grant_at (fg_store (op_run op s).2.2) granter grantee = grant_at (fg_store s.2) granter grantee.
Proof.
  intros Hwf Hp Hok Hq. destruct (op_effect op s Hwf Hok) as [->|now msg r g a eo -> Er Eg Hx Hn ->|r g Hp' ->|now r g fee msgs -> ->|now -> ->].
  - by right; right.
  - right; right. assert (pair_ok r g) as Hp' by by (split; eapply parsed_ok). cbn [op_quiet] in Hq. rewrite Er, Eg in Hq.
    unfold grant_at, granted. rewrite lookup_insert_ne. { destruct eo; [by rewrite lookup_insert_ne by (apply not_eq_sym, fkey_qkey)|done]. }
    intros E. destruct Hp, Hp'. apply fkey_inj in E as [-> ->]; by try done.
  - right. by apply grant_at_delete.
  - destruct (decide ((r, g) = (granter, grantee))) as [[= -> ->]|Hne]; [by left; eauto|]. right; right. by apply use_others.
  - right. destruct (end_run now s.2 Hwf Hok) as (s' & -> & _ & Hleft & _ & _). cbn [snd]. destruct (grant_at (fg_store s') granter grantee) as [a|] eqn:E; [|by left].
    right. by apply Hleft in E as [-> _].
Qed.

Lemma op_within granter grantee budget op (s : World) : fg_wf (fg_store s.2) -> pair_ok granter grantee -> op_ok op -> op_quiet granter grantee op ->
  within granter grantee budget s -> within granter grantee (fun d => budget d - fee_of granter grantee op s d) (op_run op s).2.
Proof.
  intros Hwf Hp Hok Hq Hw.
  destruct (decide ((match op with Use _ r g _ _ => (r, g) | _ => ("", "") end) = (granter, grantee))) as [E|E].
  - destruct op as [| |now r g fee msgs|]; try (exfalso; injection E as E1 E2; destruct Hp as [[Hp _] _]; rewrite <- E1 in Hp; cbn in Hp; lia). injection E as -> ->. unfold fee_of.
    rewrite bool_decide_true by done. cbn [andb]. pose proof (use_within now granter grantee fee msgs budget s Hwf Hp Hq Hw) as Hu.
    by destruct (op_run _ s) as [o s'].
  - apply (within_ext granter grantee budget). { intros d. destruct op; cbn; try lia. rewrite bool_decide_false by done. cbn. lia. }
    apply (within_removed _ _ _ s); [done|]. destruct (op_others granter grantee op s Hwf Hp Hok Hq) as [(now & fee & msgs & ->)|Ho]; [done|exact Ho].
Qed.

(** C33: The fees accepted under a grant with a spend limit, over any sequence
    of transactions, uses, and blocks that makes no new grant for the pair,
    do not exceed the limit in any denomination, for basic, periodic and
    filtered allowances alike. *)
Theorem granted_fees_bounded ops granter grantee a (s : World) d : fg_wf (fg_store s.2) -> pair_ok granter grantee ->
  grant_at (fg_store s.2) granter grantee = Some a -> coins_ok a -> spend_limit a <> [] ->
  Forall op_ok ops -> Forall (op_quiet granter grantee) ops ->
  fees granter grantee ops s d <= coins_amount (spend_limit a) d.
Proof.
  intros Hwf Hp Ha Hok Hl Hops Hq. assert (within granter grantee (coins_amount (spend_limit a)) s) as Hw by (unfold within; rewrite Ha; done).
  clear Ha Hok Hl. revert Hw. generalize (coins_amount (spend_limit a)) as budget. revert s Hwf. induction ops as [|op ops IH]; intros s Hwf budget Hw.
  { by eapply within_nonneg. }
  apply Forall_cons in Hops as [Ho Hops]. apply Forall_cons in Hq as [Hqo Hq]. cbn [fees].
  pose proof (IH Hops Hq (op_run op s).2 (op_keeps op s Hwf Ho) _ (op_within _ _ _ _ _ Hwf Hp Ho Hqo Hw)) as Hrest. cbn in Hrest. lia.
Qed.

(** Revoking an expiring grant leaves its queue entry, so that a later grant
    of the pair that never expires is removed at the old time. *)
Theorem stale_queue_entry now1 now2 granter grantee a b e s : fg_wf (fg_store s) -> pair_ok granter grantee -> time_ok now2 ->
  grant_at (fg_store s) granter grantee = Some a -> ExpiresAt a = Ok (Some e) -> ExpiresAt b = Ok None -> e < now2 ->
  exists s1 s2, (revokeAllowance granter grantee ;;! write_grant now1 granter grantee b) s = (Ok tt, s1) /\
    grant_at (fg_store s1) granter grantee = Some b /\
    EndBlocker now2 s1 = (Ok tt, s2) /\ grant_at (fg_store s2) granter grantee = None.
Proof.
  intros Hwf Hp Hn Ha Hx Hb Hlt. pose proof (wf_grant _ _ _ Hwf Hp) as Hg. rewrite Ha in Hg. destruct Hg as [Hk _].
  pose proof (wf_queued _ Hwf _ _ _ _ Hp Hk Hx) as Hq. pose proof (wf_time _ _ _ _ _ Hwf Hp Hk Hx) as Ht.
  unfold bind. rewrite revoke_run, Ha by done. set (s0 := with_store _ _ s).
  assert (fg_wf (fg_store s0)) as Hwf0 by (by apply wf_remove).
  assert (grant_at (fg_store s0) granter grantee = None) as H0' by (unfold grant_at; cbn; by rewrite lookup_delete_eq).
  assert (expiry b None) as Hxb by by split.
  rewrite (write_grant_run now1 granter grantee b None s0 Hwf0 Hp Hxb). unfold grant_expiry. rewrite H0'. set (s1 := with_store _ _ s0).
  assert (fg_wf (fg_store s1)) as Hwf1.
  { pose proof (wf_granted _ _ _ b None Hwf0 Hp Hxb) as Hw. unfold grant_expiry in Hw. by rewrite H0' in Hw. }
  destruct (end_run now2 s1 Hwf1 Hn) as (s2 & Ee & _ & _ & _ & Hgone). exists s1, s2. split_and!; [done| |done|].
  - unfold grant_at, s1, with_store, granted. cbn [fg_store]. by rewrite lookup_insert_eq.
  - apply (Hgone granter grantee e VQueue); [done..|]. unfold s1, s0, with_store, granted. cbn [fg_store]. rewrite lookup_insert_ne by apply fkey_qkey. rewrite lookup_delete_ne by apply fkey_qkey. done.
Qed.

(** ** Genesis *)

Definition triple_grant (x : string * string * Allowance) : Grant := NewGrant x.1.1 x.1.2 x.2.

(** A grant that can be imported at [now], into [auth]. *)
Definition importable (now : Time) (auth : AuthState) (x : string * string * Allowance) : Prop :=
  pair_ok x.1.1 x.1.2 /\ (exists eo, expiry x.2 eo) /\ (forall e, ExpiresAt x.2 = Ok (Some e) -> now <= e) /\ as_accounts auth !! x.1.2 <> None.

Lemma import_one now auth x g : fg_wf (fg_store g) -> importable now auth x -> grant_at (fg_store g) x.1.1 x.1.2 = None ->
  exists g', keeper_GrantAllowance BlockedAddr now x.1.1 x.1.2 x.2 (auth, g) = (Ok tt, (auth, g')) /\ fg_wf (fg_store g') /\
    grant_at (fg_store g') x.1.1 x.1.2 = Some x.2 /\
    forall r e, pair_ok r e -> (r, e) <> x.1 -> grant_at (fg_store g') r e = grant_at (fg_store g) r e.
Proof.
  destruct x as [[granter grantee] a]. cbn [fst snd]. intros Hwf (Hp & [eo Hx] & Hnow & Hacc) Hn. cbn [fst snd] in *.
  unfold keeper_GrantAllowance, create_grantee, bind, on_accounts, GetAccount, reads. cbn [fst snd].
  destruct (as_accounts auth !! grantee); [|done]. unfold ret, on_grants. cbn [fst snd].
  rewrite (write_grant_run now granter grantee a eo g Hwf Hp Hx). pose proof (wf_granted _ _ _ a eo Hwf Hp Hx) as Hw. unfold grant_expiry in *. rewrite Hn in *.
  assert ((match eo with Some e => e <? now | None => false end) = false) as ->.
  { destruct Hx as [Hx _]. destruct eo as [e|]; [|done]. specialize (Hnow e Hx). lia. }
  eexists. split; [done|]. split; [exact Hw|]. split; [unfold grant_at, with_store, granted; cbn [fg_store]; by rewrite lookup_insert_eq|].
  intros r e [? ?] Hne. destruct Hp. unfold grant_at, with_store, granted. cbn [fg_store]. rewrite lookup_insert_ne. { destruct eo; [by rewrite lookup_insert_ne by (apply not_eq_sym, fkey_qkey)|done]. }
  intros E. apply fkey_inj in E as [-> ->]; by try done.
Qed.

Lemma address_parse a : address_ok a -> AccAddressFromBech32 (AccAddress_String a) = Some a.
Proof. intros Ha. by apply AccAddress_String_parse, VerifyAddressFormat_spec. Qed.

Lemma import_all now auth l g : fg_wf (fg_store g) -> Forall (importable now auth) l -> NoDup l.*1 ->
  (forall x, x ∈ l -> grant_at (fg_store g) x.1.1 x.1.2 = None) ->
  exists g', InitGenesis BlockedAddr now (triple_grant <$> l) (auth, g) = (Ok tt, (auth, g')) /\ fg_wf (fg_store g') /\
    (forall x, x ∈ l -> grant_at (fg_store g') x.1.1 x.1.2 = Some x.2) /\
    forall r e, pair_ok r e -> (r, e) ∉ l.*1 -> grant_at (fg_store g') r e = grant_at (fg_store g) r e.
Proof.
  revert g. induction l as [|x l IH]; intros g Hwf Hall Hnd Hnone.
  { exists g. split_and!; [done|done|intros x Hx; by apply elem_of_nil in Hx|done]. }
  apply Forall_cons in Hall as [Hx Hall]. apply NoDup_cons in Hnd as [Hnotin Hnd].
  destruct (import_one now auth x g Hwf Hx (Hnone x (list_elem_of_here _ _))) as (g1 & E1 & Hwf1 & Hat & Hrest).
  assert (forall y, y ∈ l -> y.1 <> x.1) as Hne by (intros y Hy E; apply Hnotin; rewrite <- E; by apply list_elem_of_fmap_2).
  assert (forall y, y ∈ l -> pair_ok y.1.1 y.1.2) as Hok by (intros y Hy; by apply (proj1 (Forall_forall _ _) Hall)).
  destruct (IH g1 Hwf1 Hall Hnd) as (g' & E & Hwf' & Hl & Hr).
  { intros y Hy. rewrite Hrest; [apply Hnone; by right|by apply Hok|rewrite <- surjective_pairing; by apply Hne]. }
  destruct Hx as ([Hxr Hxg] & _). exists g'. split; [|split; [done|split]].
  - cbn [fmap list_fmap triple_grant NewGrant InitGenesis Granter Grantee]. rewrite !address_parse by done. unfold bind at 1, lift at 1. cbn [GetGrant gr_Allowance].
    change (GetGrant (triple_grant x)) with (Ok x.2 : outcome Allowance). cbv beta iota. unfold bind. by rewrite E1.
  - intros y [->|Hy]%elem_of_cons; [|by apply Hl]. rewrite Hr; [done|done|]. by rewrite <- surjective_pairing.
  - intros r e Hre Hn. rewrite fmap_cons, not_elem_of_cons in Hn. destruct Hn. rewrite Hr, Hrest; done.
Qed.

(** The grants of a well-formed store, by their pairs. *)
Lemma triples_of (l : list (string * fgvalue)) : NoDup l.*1 ->
  (forall k v, (k, v) ∈ l -> exists x : string * string * Allowance, pair_ok x.1.1 x.1.2 /\ k = fkey x.1.1 x.1.2 /\ v = VGrant (triple_grant x)) ->
  exists xs, omap (fun kv => match kv.2 with VGrant g => Some g | VQueue => None end) l = triple_grant <$> xs /\ NoDup xs.*1 /\
    forall x, x ∈ xs <-> pair_ok x.1.1 x.1.2 /\ (fkey x.1.1 x.1.2, VGrant (triple_grant x)) ∈ l.
Proof.
  induction l as [|[k v] l IH]; intros Hnd Hl.
  { exists []. split_and!; [done|constructor|]. intros x. rewrite !elem_of_nil. tauto. }
  apply NoDup_cons in Hnd as [Hk Hnd]. destruct IH as (xs & E & Hxs & Hin); [done|intros; apply Hl; by right|].
  destruct (Hl k v (list_elem_of_here _ _)) as (x & [Hr Hg] & -> & ->). exists (x :: xs). split_and!.
  - cbn. f_equal. exact E.
  - rewrite fmap_cons. apply NoDup_cons. split; [|done]. intros (y & Ey & [_ Hy]%Hin)%list_elem_of_fmap. apply Hk. rewrite Ey.
    by apply (list_elem_of_fmap_2 fst) in Hy.
  - intros y. rewrite !elem_of_cons, Hin. split.
    + intros [->|[? ?]]; [by split; [|left]|by split; [|right]].
    + intros [[Hr' Hg'] [E'|?]]; [left|by right]. pose proof (f_equal fst E') as E1. apply fkey_inj in E1 as [E1 E3]; [|done..]. pose proof (f_equal snd E') as E2. injection E2 as _ _ E2.
      destruct x as [[? ?] ?], y as [[? ?] ?]; cbn in *; congruence.
Qed.

Lemma exported s : fg_wf (fg_store s) -> exists xs, ExportGenesis s = (Ok (triple_grant <$> xs), s) /\ NoDup xs.*1 /\
  forall x, x ∈ xs <-> pair_ok x.1.1 x.1.2 /\ grant_at (fg_store s) x.1.1 x.1.2 = Some x.2.
Proof.
  intros Hwf. destruct (triples_of (kv_prefix_iter FeeAllowanceKeyPrefix (fg_store s))) as (xs & E & Hnd & Hin).
  - apply NoDup_kv_prefix_iter.
  - intros k v [Hk Hpre]%elem_of_kv_prefix_iter. destruct (wf_shape _ Hwf _ _ Hk) as [(r & g & a & eo & ? & ? & ? & _)|(? & ? & ? & _ & _ & -> & _)]; [by exists (r, g, a)|done].
  - exists xs. split; [unfold ExportGenesis, IterateAllFeeAllowances, reads; by rewrite E|]. split; [done|]. intros x. rewrite Hin, elem_of_kv_prefix_iter.
    split; intros [Hp Hx]; (split; [done|]).
    + destruct Hx as [Hx _]. unfold grant_at. by rewrite Hx.
    + pose proof (wf_grant _ _ _ Hwf Hp) as Hg. rewrite Hx in Hg. by destruct Hg as [-> _].
Qed.

(** Exporting the grants and importing them into an empty store, where the
    grantees have accounts and no grant has expired, gives the same grants;
    the accounts are left alone. *)
Theorem grants_genesis_roundtrip now auth s g0 : fg_wf (fg_store s) -> fg_store g0 = ∅ ->
  (forall granter grantee a, pair_ok granter grantee -> grant_at (fg_store s) granter grantee = Some a ->
     (forall e, ExpiresAt a = Ok (Some e) -> now <= e) /\ as_accounts auth !! grantee <> None) ->
  exists grants g, ExportGenesis s = (Ok grants, s) /\ InitGenesis BlockedAddr now grants (auth, g0) = (Ok tt, (auth, g)) /\ fg_wf (fg_store g) /\
    forall granter grantee, pair_ok granter grantee -> grant_at (fg_store g) granter grantee = grant_at (fg_store s) granter grantee.
Proof.
  intros Hwf H0' Hgr. destruct (exported s Hwf) as (xs & Ex & Hnd & Hin).
  assert (Forall (importable now auth) xs) as Himp.
  { apply Forall_forall. intros x [Hp Ha]%Hin. destruct (Hgr _ _ _ Hp Ha) as [He Hacc]. split_and!; [done| |done|done].
    pose proof (wf_grant _ _ _ Hwf Hp) as Hg. rewrite Ha in Hg. apply Hg. }
  destruct (import_all now auth xs g0) as (g & Ei & Hwf' & Hl & Hr); [rewrite H0'; apply wf_empty|done|done|intros; rewrite H0'; unfold grant_at; by rewrite lookup_empty|].
  exists (triple_grant <$> xs), g. split_and!; [done|done|done|]. intros granter grantee Hp.
  destruct (grant_at (fg_store s) granter grantee) as [a|] eqn:Ea.
  - apply (Hl (granter, grantee, a)), Hin. done.
  - rewrite Hr; [rewrite H0'; unfold grant_at; by rewrite lookup_empty|done|]. intros ([[r e] a] & [= <- <-] & [_ Hx]%Hin)%list_elem_of_fmap. cbn in Hx. congruence.
Qed.
End Machine.

Module toyfg.
#[local] Existing Instances sdkmath sdkmath_laws bech32_toy bech32_toy_laws.

Definition limit (n : Z) : Allowance := Basic (mkBasicAllowance [mkCoin "uzyt" n] None).
Definition until (e : Time) : Allowance := AllowedMsg (Some (Basic (mkBasicAllowance [] (Some e)))) ["/cosmos.bank.v1beta1.MsgSend"].
Definition bob : Account := mkAccount "bob" None 1 0 BaseAccount.
Definition auth0 : AuthState := mkAuthState (Some DefaultAuthParams) {[ "bob" := bob ]} {[ 1 := "bob" ]} (Some 2).
Definition empty_fg : FgState := mkFgState ∅ NewInfiniteGasMeter [].
Definition blocked (a : string) : bool := bool_decide (a = "fees").
Definition store1 (a : Allowance) : FgState := mkFgState {[ fkey "alice" "bob" := VGrant (NewGrant "alice" "bob" a) ]} NewInfiniteGasMeter [].

Lemma pair_alice_bob : pair_ok "alice" "bob".
Proof. split; unfold address_ok; cbn; lia. Qed.

Lemma store1_wf a : ExpiresAt a = Ok None -> fg_wf (fg_store (store1 a)).
Proof. intros Hx. apply (wf_write ∅ "alice" "bob" a None wf_empty pair_alice_bob); [by split|done]. Qed.

Lemma small_bounded n : 0 < n < 1000 -> bounded [mkCoin "uzyt" n].
Proof.
  intros Hn. split.
  - unfold valid, Coins_Validate. cbn. destruct (Z.ltb_spec 0 n); [done|lia].
  - intros d. cbn. case_bool_decide; lia.
Qed.

Lemma limit_nonempty n d : coins_amount (spend_limit (limit n)) d = if bool_decide ("uzyt" = d) then n else 0.
Proof. cbn. case_bool_decide; lia. Qed.

Definition grant_msg (a : Allowance) : MsgGrantAllowance := mkMsgGrantAllowance (AccAddress_String "alice") (AccAddress_String "bob") (Some a).

(** Three fees of four against a limit of ten: two are accepted. *)
Definition uses : list fg_op := [Use 0 "alice" "bob" [mkCoin "uzyt" 4] []; Use 1 "alice" "bob" [mkCoin "uzyt" 4] []; Use 2 "alice" "bob" [mkCoin "uzyt" 4] []; End_ 3].

Lemma granted_fees_bounded_witness : fees blocked "alice" "bob" uses (auth0, store1 (limit 10)) "uzyt" = 8 /\
  fees blocked "alice" "bob" uses (auth0, store1 (limit 10)) "uzyt" <= coins_amount (spend_limit (limit 10)) "uzyt".
Proof.
  split; [vm_compute; reflexivity|]. apply (granted_fees_bounded blocked uses "alice" "bob" (limit 10) (auth0, store1 (limit 10)) "uzyt").
  - apply store1_wf. reflexivity.
  - exact pair_alice_bob.
  - vm_compute. reflexivity.
  - apply small_bounded. lia.
  - discriminate.
  - repeat constructor; cbn; lia.
  - repeat (constructor; [apply small_bounded; lia|]). constructor; [exact I|constructor].
Defined.

Definition day : Time := 86400000000000.
Definition after_grant : AuthState * FgState := ops_run blocked [TxGrant 0 (grant_msg (until day))] (auth0, empty_fg).

Lemma expired_grants_removed_witness : grant_at (fg_store after_grant.2) "alice" "bob" = Some (until day) /\
  exists s2, op_run blocked (End_ (2 * day)) after_grant = (Ok tt, s2) /\ grant_at (fg_store s2.2) "alice" "bob" = None.
Proof.
  split; [vm_compute; reflexivity|].
  destruct (expired_grants_removed blocked [TxGrant 0 (grant_msg (until day))] (2 * day) (auth0, empty_fg)) as (s2 & E & Hleft & _).
  - reflexivity.
  - constructor; [|constructor]. intros a e [= <-] [= <-]. unfold time_ok, day. lia.
  - unfold time_ok, day. lia.
  - exists s2. split; [exact E|]. destruct (grant_at (fg_store s2.2) "alice" "bob") as [a|] eqn:Ea; [|reflexivity]. exfalso.
    destruct (Hleft "alice" "bob" a pair_alice_bob Ea) as [Hb Hx]. assert (Some a = Some (until day)) as [= ->] by (rewrite <- Hb; vm_compute; reflexivity).
    specialize (Hx day eq_refl). unfold day in Hx. lia.
Defined.

Lemma grants_genesis_roundtrip_witness : exists grants g, ExportGenesis (store1 (limit 10)) = (Ok grants, store1 (limit 10)) /\
  InitGenesis blocked 5 grants (auth0, empty_fg) = (Ok tt, (auth0, g)) /\ grant_at (fg_store g) "alice" "bob" = Some (limit 10).
Proof.
  assert (fg_wf (fg_store (store1 (limit 10)))) as Hwf by (apply store1_wf; reflexivity).
  destruct (grants_genesis_roundtrip blocked 5 auth0 (store1 (limit 10)) empty_fg Hwf eq_refl) as (grants & g & Ex & Ei & _ & Hat).
  - intros granter grantee a [Hr Hg] Ha. unfold grant_at in Ha. cbn [fg_store store1] in Ha.
    destruct (decide (fkey "alice" "bob" = fkey granter grantee)) as [E|E]; [|rewrite lookup_singleton_ne in Ha by exact E; discriminate Ha].
    pose proof E as E'. apply fkey_inj in E' as [<- <-]; [|apply pair_alice_bob|apply pair_alice_bob|exact Hr|exact Hg].
    rewrite lookup_singleton_eq in Ha. injection Ha as <-. split; [discriminate|vm_compute; discriminate].
  - exists grants, g. split; [exact Ex|]. split; [exact Ei|]. rewrite Hat by exact pair_alice_bob. vm_compute. reflexivity.
Defined.

(** With 5 stake left, a period that should allow 10 uzyt and 10 stake allows
    the whole limit, 1000 uzyt included. *)
Example period_limit_exceeded :
  let a := mkPeriodicAllowance (mkBasicAllowance [mkCoin "stake" 5; mkCoin "uzyt" 1000] None) day [mkCoin "stake" 10; mkCoin "uzyt" 10] [] 0 in
  Periodic_ValidateBasic a = Ok tt /\
  exists a', Periodic_Accept day [mkCoin "uzyt" 900] a = Ok (a', (false, None)) /\ coins_amount (SpendLimit (pa_Basic a')) "uzyt" = 100.
Proof. split; [vm_compute; reflexivity|]. eexists. vm_compute. split; reflexivity. Qed.
End toyfg.
End feegrant.
