(* ===== verification/FeegrantAnte.v ===== *)
(** FeegrantAnte: the fee grants under the ante handler, cosmos-sdk/x/feegrant
    as the FeegrantKeeper of cosmos-sdk/x/auth/ante.

    The keeper of Feegrant.v is an instance of the interface that the ante
    handler's theorems are proved against.  The theorem composes the two: a
    transaction accepted with another account's money was within a grant. *)

From Stdlib Require Import ZArith Lia Ascii String.
From stdpp Require Import base gmap sets list strings fin_maps.
From S2P Require Import Prelude Sdk Types Bank KVStore Coins Gas BitArray Auth Tx Ante StoreKeys Feegrant.

Import feegrant.

Open Scope Z_scope.
Open Scope go_scope.

(** The type URLs of messages (sdk.MsgTypeURL, of the generated code), and the
    block time with its nanoseconds. *)
Class MsgTypes (Msg : Type) : Type := { MsgTypeURL : Msg -> string }.
Class BlockClock : Type := { BlockTime_ns : Ctx -> Time }.

Definition FgStore : Type := gmap string fgvalue.

Section Keeper.
Context `{Bech32} `{SdkMath} {Msg : Type} `{MsgTypes Msg} `{BlockClock}.

(** The keeper on the context's gas meter and events and its own store. *)
#[export] Instance feegrant_keeper : FeegrantKeeper Msg FgStore := {|
  Ante.UseGrantedFees ctx granter grantee fee msgs := fun '(m, evs, store) =>
    let '(r, s) := UseGrantedFees (BlockTime_ns ctx) granter grantee fee (MsgTypeURL <$> msgs) (mkFgState store m evs) in
    (r, (fg_gas s, fg_events s, fg_store s));
|}.

(** *** Gas *)

Definition no_gas {A} (c : M FgState A) : Prop := forall s, fg_gas (c s).2 = fg_gas s.

Lemma no_gas_bind {A B} (c : M FgState A) (k : A -> M FgState B) : no_gas c -> (forall a, no_gas (k a)) -> no_gas (bind c k).
Proof. intros Hc Hk s. unfold bind. specialize (Hc s). destruct (c s) as [[a| |] s1]; cbn in *; [rewrite Hk|..]; done. Qed.
Lemma no_gas_try {A} (c : M FgState A) : no_gas c -> no_gas (try c).
Proof. intros Hc s. unfold try. specialize (Hc s). by destruct (c s) as [[a| |] s1]. Qed.
Lemma no_gas_getGrant granter grantee : no_gas (getGrant granter grantee).
Proof. repeat (apply no_gas_bind; [done|intros ?]). by case_match; [case_match|]. Qed.
Lemma no_gas_revoke granter grantee : no_gas (revokeAllowance granter grantee).
Proof. apply no_gas_bind; [apply no_gas_getGrant|intros _]. by repeat (apply no_gas_bind; [done|intros ?]). Qed.
Lemma no_gas_update granter grantee a : no_gas (UpdateAllowance granter grantee a).
Proof. apply no_gas_bind; [done|intros k]. apply no_gas_bind; [apply no_gas_getGrant|intros _]. by apply no_gas_bind. Qed.

Lemma allowedMsgsToMap_ok allowed m u m' : allowedMsgsToMap allowed m = (Ok u, m') -> meter_kept m m' /\ u = list_to_set allowed.
Proof.
  revert m u m'. induction allowed as [|x allowed IH]; intros m u m' E; cbn in E; [by apply ret_ok in E as [-> ->]|].
  apply bind_ok in E as ([] & m1 & Eg & E). apply bind_ok in E as (v & m2 & [Hk ->]%IH & [-> ->]%ret_ok).
  split; [|done]. etrans; [by eapply ConsumeGas_kept|done].
Qed.

Lemma check_msgs_ok (allowed : gset string) msgs m b m' : check_msgs allowed msgs m = (Ok b, m') -> meter_kept m m' /\ (b = true -> Forall (fun u => u ∈ allowed) msgs).
Proof.
  revert m. induction msgs as [|x msgs IH]; intros m E; cbn in E; [apply ret_ok in E as [-> ->]; by split|].
  apply bind_ok in E as ([] & m1 & Eg & E). apply ConsumeGas_kept in Eg. case_bool_decide.
  - apply IH in E as [Hk Hb]. split; [by etrans|]. intros Ht. constructor; [done|by apply Hb].
  - apply ret_ok in E as [-> ->]. by split.
Qed.

(** *** What an accepted fee says of the allowance *)

Fixpoint permits (msgs : list string) (a : Allowance) : Prop :=
  match a with
  | AllowedMsg inner allowed => Forall (fun u => u ∈ allowed) msgs /\ match inner with Some i => permits msgs i | None => False end
  | _ => True
  end.

Lemma expired_check now (eo : option Time) : (match eo with Some e => e <? now | None => false end) = false -> forall e, eo = Some e -> now <= e.
Proof. intros Hc e ->. lia. Qed.

Lemma Accept_ok now fee msgs : forall a m r m', Accept now fee msgs a m = (Ok r, m') ->
  meter_kept m m' /\ (r.2.2 = None -> permits msgs a /\ forall e, ExpiresAt a = Ok (Some e) -> now <= e).
Proof.
  fix IH 1. intros [b|p|inner allowed] m r m' E; cbn in E.
  - unfold lift_allowance, lift in E. injection E as E <-. split; [done|]. destruct (Basic_Accept now fee b) as [[b' re]| |] eqn:Eb; [|done..]. injection E as <-. cbn. intros He.
    unfold Basic_Accept in Eb. destruct (match Expiration b with Some e => _ | None => _ end) eqn:Ex; [by injection Eb as _ <-|]. split; [done|].
    intros e [= Hb]. by eapply expired_check.
  - unfold lift_allowance, lift in E. injection E as E <-. split; [done|]. destruct (Periodic_Accept now fee p) as [[p' re]| |] eqn:Eb; [|done..]. injection E as <-. cbn. intros He.
    unfold Periodic_Accept in Eb. destruct (match Expiration (pa_Basic p) with Some e => _ | None => _ end) eqn:Ex; [by injection Eb as _ <-|]. split; [done|].
    intros e [= Hb]. by eapply expired_check.
  - apply bind_ok in E as (ok & m1 & Ea & E). unfold allMsgTypesAllowed in Ea. apply bind_ok in Ea as (u & m2 & [Hk1 ->]%allowedMsgsToMap_ok & [Hk2 Hall]%check_msgs_ok).
    assert (meter_kept m m1) as Hk by by etrans. destruct ok; cbn in E; [|apply ret_ok in E as [-> ->]; by split].
    destruct inner as [i|]; [|apply ret_ok in E as [-> ->]; by split]. apply bind_ok in E as ([i' [rm e]] & m3 & [Hki Hi]%IH & [-> ->]%ret_ok).
    split; [by etrans|]. cbn. intros ->. destruct (Hi eq_refl) as [Hp He]. split; [|done]. split; [|done].
    specialize (Hall eq_refl). eapply Forall_impl; [exact Hall|]. intros x. by rewrite elem_of_list_to_set.
Qed.

#[export] Instance feegrant_laws : FeegrantLaws Msg FgStore.
Proof.
  split. intros ctx granter grantee fee msgs m m' evs evs' g g' u E. cbn in E.
  destruct (UseGrantedFees _ _ _ _ _ _) as [r s] eqn:Eu. injection E as -> <- _ _. unfold UseGrantedFees in Eu.
  apply bind_ok in Eu as (f & s1 & Ef & Eu). pose proof (no_gas_getGrant granter grantee (mkFgState g m evs)) as G1. rewrite Ef in G1.
  apply bind_ok in Eu as (a & s2 & [_ ->]%lift_ok & Eu). apply bind_ok in Eu as ([a' [rm e]] & s3 & Ea & Eu).
  assert (meter_kept m (fg_gas s3)) as Hk.
  { unfold on_gas in Ea. destruct (Accept _ _ _ _ _) as [ra ma] eqn:Eacc. injection Ea as -> <-. apply Accept_ok in Eacc as [Hk _]. cbn in G1. by rewrite <- G1. }
  destruct rm.
  - apply bind_ok in Eu as (? & s4 & Et & Eu). pose proof (no_gas_try _ (no_gas_revoke granter grantee) s3) as G4. rewrite Et in G4. cbn in G4.
    destruct e; [done|]. unfold emitUseGrantEvent, EmitEvent in Eu. apply modify_ok in Eu as ->. cbn. by rewrite G4.
  - destruct e; [done|]. apply bind_ok in Eu as ([] & s4 & Et%modify_ok & Eu). pose proof (no_gas_update granter grantee a' s4) as G5. rewrite Eu in G5. cbn in G5. rewrite G5. by subst s4.
Qed.
End Keeper.

Section Composed.
Context `{Bech32Laws} `{SdkMathLaws} `{SdkMathMul} `{SdkDecCeil} `{KeyLib}.
Context {Msg : Type} `{TxLib Msg} `{MsgTypes Msg} `{BlockClock}.
Context {B : Type} `{BankLaws B} `{Encodings} `{StoreGas B FgStore}.

(** C32: A transaction that another account pays for.  Outside simulation, if
    the ante handler accepts it, the granter's store has a grant for the payer
    that has not expired, that permits every message of the transaction, whose
    spend limit, if it has one, covers the whole fee, and the fee went from the
    granter's balance to the fee collector. *)
Theorem granted_transaction options (tx : Tx Msg) ctx (s : AnteState B FgStore) c s' fee granter grantee :
  auth_wf (st_auth s) -> fg_wf (st_grants s) -> consumer_kept (default DefaultSigVerificationGasConsumer (opt_SigGasConsumer options)) ->
  TxFeeChecker options = None ->
  tx_Fee tx = Some fee -> bounded (fee_Amount fee) -> FeePayer tx = Ok grantee -> FeeGranter tx = Ok (Some granter) -> granter <> grantee ->
  pair_ok granter grantee ->
  NewAnteHandler options tx ctx false s = (Ok c, s') ->
  exists a, grant_at (st_grants s) granter grantee = Some a /\
    (forall e, ExpiresAt a = Ok (Some e) -> BlockTime_ns (ac_Ctx ctx) <= e) /\
    permits (MsgTypeURL <$> Messages tx) a /\
    (coins_ok a -> spend_limit a <> [] -> forall d, coins_amount (fee_Amount fee) d <= coins_amount (spend_limit a) d) /\
    (Coins_IsZero (fee_Amount fee) = true \/ exists fc, Bank.GetModuleAddress (B := B) FeeCollectorName = Some fc /\
       transferred (st_bank s) (st_bank s') granter fc (fee_Amount fee)).
Proof.
  intros Hwf Hg Hk Hdef Hfee Hb Hpayer Hgranter Hne Hp E.
  destruct (NewAnteHandler_ok _ _ _ _ _ _ _ Hwf Hk E) as (fee' & signers & sigs & mid & Ha).
  assert (fee' = fee) as -> by (pose proof (wt_fee _ _ _ _ _ _ (acc_wf_tx _ _ _ _ _ _ _ _ _ _ Ha)); congruence).
  destruct (acc_fee _ _ _ _ _ _ _ _ _ _ Ha) as (paid & (payer & gr & Ep & Eg & _ & Hgr & _ & Hbank) & Hpaid). destruct (Hpaid Hdef eq_refl) as [-> _].
  rewrite Hpayer in Ep. injection Ep as <-. rewrite Hgranter in Eg. injection Eg as <-. cbn [default] in Hbank.
  destruct (Hgr granter eq_refl Hne) as (m & evs & u & r & Eu). cbn in Eu.
  pose proof (use_run (BlockTime_ns (ac_Ctx ctx)) granter grantee (fee_Amount fee) (MsgTypeURL <$> Messages tx) (mkFgState (st_grants s) m evs) Hg Hp) as Hrun.
  destruct (UseGrantedFees _ _ _ _ _ _) as [o s1]. injection Eu as -> _. cbn [fg_store fg_gas] in Hrun.
  destruct (grant_at (st_grants s) granter grantee) as [a|]; [|by destruct Hrun]. exists a. split; [done|].
  destruct (Accept _ _ _ a m) as [[rr| |] m'] eqn:Eacc; cbn [fst] in Hrun; destruct Hrun as [Ho _]; [|done..].
  assert (rr.2.2 = None) as He by (by destruct rr.2.2). destruct (Accept_ok _ _ _ _ _ _ _ Eacc) as [_ Hok]. destruct (Hok He) as [Hper Hexp].
  split; [done|]. split; [done|]. split.
  - intros Hc Hl. by destruct (Accept_charged _ _ _ Hb _ _ _ _ Hc Hl Eacc He).
  - destruct (Coins_IsZero _); [by left|right]. destruct Hbank as (fc & ? & _ & ?). by exists fc.
Qed.
End Composed.

Module toygranted.
Import toyante toyfg.
#[local] Existing Instances sdkmath sdkmath_laws bech32_toy bech32_toy_laws tx_toy.toy_lib keys mul ceil encodings bank bank_ok.
#[local] Instance urls : MsgTypes (list string) := {| MsgTypeURL _ := "/zytherion.MsgTest" |}.
#[local] Instance clock : BlockClock := {| BlockTime_ns ctx := BlockTime ctx * 1000000000 |}.
#[local] Instance grant_gas : StoreGas bankkeeper.BankState FgStore := {| bank_gas _ _ _ := 5000; grant_gas _ _ _ := 3000 |}.

(** alice's transaction, which "rich" pays for. *)
Definition rich : Account := mkAccount "rich" None 3 0 BaseAccount.
Definition filtered : Allowance := AllowedMsg (Some (Basic (mkBasicAllowance [mkCoin "uzyt" 15] None))) ["/zytherion.MsgTest"].
Definition granted_state : AnteState bankkeeper.BankState FgStore :=
  mkAnteState (mkAuthState (Some DefaultAuthParams) (<["rich" := rich]> {[ "alice" := alice ]}) (<[3 := "rich"]> {[ 2 := "alice" ]}) (Some 4))
    (bankkeeper.mkBankState {[ ("rich", "uzyt") := 100 ]} {[ "uzyt" := 100 ]} ∅)
    {[ fkey "rich" "alice" := VGrant (NewGrant "rich" "alice" filtered) ]} NewInfiniteGasMeter [].
Definition granted_fee : Fee := mkFee [mkCoin "uzyt" 10] 100000 "" (AccAddress_String "rich").
Definition granted_tx : Tx (list string) := mkTx [["alice"]] "hello" 0 [] [] false
  [mkSignerInfo (Some (Secp256k1 "alice")) (Some (MI_Single SIGN_MODE_DIRECT)) 5] (Some granted_fee) None ["signed"] "body" "auth".
Definition granted_after : AnteState bankkeeper.BankState FgStore := snd (NewAnteHandler options granted_tx ctx0 false granted_state).

Lemma granted_wf : auth_wf (st_auth granted_state).
Proof.
  split; cbn [as_accounts as_by_number st_auth granted_state].
  - intros a acc [[<- <-]|[_ [<- <-]%lookup_singleton_Some]]%lookup_insert_Some; reflexivity.
  - intros a acc [[<- <-]|[_ [<- <-]%lookup_singleton_Some]]%lookup_insert_Some; (split; [cbn; lia|reflexivity]).
  - intros n a [[<- <-]|[_ [<- <-]%lookup_singleton_Some]]%lookup_insert_Some; [exists rich|exists alice]; split; reflexivity.
  - cbn. lia.
Qed.

Lemma granted_transaction_witness : exists s', NewAnteHandler options granted_tx ctx0 false granted_state = (Ok ctx0, s') /\
  bk_balance (st_bank s') "rich" "uzyt" = 90 /\ coins_amount (fee_Amount granted_fee) "uzyt" <= coins_amount (spend_limit filtered) "uzyt".
Proof.
  assert (NewAnteHandler options granted_tx ctx0 false granted_state = (Ok ctx0, granted_after)) as E by (vm_compute; reflexivity).
  assert (pair_ok "rich" "alice") as Hp by (split; unfold address_ok; cbn; lia).
  exists granted_after. split; [exact E|].
  destruct (granted_transaction options granted_tx ctx0 granted_state ctx0 granted_after granted_fee "rich" "alice") as (a & Ha & _ & _ & Hl & Hm).
  - exact granted_wf.
  - apply (wf_write ∅ "rich" "alice" filtered None wf_empty Hp); [split; [reflexivity|discriminate]|discriminate].
  - exact DefaultSigVerificationGasConsumer_kept.
  - reflexivity.
  - reflexivity.
  - apply small_bounded. lia.
  - vm_compute. reflexivity.
  - vm_compute. reflexivity.
  - discriminate.
  - exact Hp.
  - exact E.
  - vm_compute in Ha. injection Ha as <-. split.
    + destruct Hm as [Hz|(fc & Hfc & [Hbal _])]; [discriminate Hz|]. vm_compute in Hfc. injection Hfc as <-. rewrite Hbal. reflexivity.
    + apply Hl; [apply small_bounded; lia|discriminate].
Defined.
End toygranted.
