(* ===== verification/GreenBft.v ===== *)
(** GreenBft: app/greenbft, the latency score of x/privacy and the block hooks
    of app/app.go.

    The manager of adaptive_commit.go counts transactions and keeps the loads
    of the last ten blocks in a ring; the ante decorators feed it; BeginBlocker
    records the validators that missed a block, EndBlocker persists and
    announces the recommended timeout.  The stored latencies are float64
    values, computed with SpecFloat's binary64 operations.

    Theorems: the ring is the window of the last ten loads, and what it
    recommends; the recommendation that goes into the state depends on the
    node's mempool; a validator that missed one block keeps the lowest score
    for ever; itoa against decimal notation. *)

From Stdlib Require Import ZArith Lia Ascii String SpecFloat.
From stdpp Require Import base gmap sets list strings fin_maps pretty.
From S2P Require Import Prelude Sdk Pqc Lwr Wire Proposal.

Open Scope Z_scope.
Open Scope go_scope.

(** ** adaptive_commit.go *)

Module adaptive.

Definition DefaultCommitTimeout : Z := 1000000000.
Definition IdleCommitTimeout : Z := 5000000000.
Definition LowTxThreshold : Z := 5.
Definition rollingWindow : nat := 10.

Record AdaptiveTimeoutManager : Type := mkManager {
  txTotal : Z;
  txCounts : list Z;
  head : nat;
  filled : bool;
}.

Definition NewAdaptiveTimeoutManager : AdaptiveTimeoutManager :=
  mkManager 0 (replicate rollingWindow 0) 0 false.

Definition AddTx (m : AdaptiveTimeoutManager) : AdaptiveTimeoutManager :=
  mkManager (wrap_i64 (txTotal m + 1)) (txCounts m) (head m) (filled m).

Definition DrainTxCount (m : AdaptiveTimeoutManager) : Z * AdaptiveTimeoutManager :=
  (txTotal m, mkManager 0 (txCounts m) (head m) (filled m)).

(** The sum and the number of the loads in the ring. *)
Definition window_size (m : AdaptiveTimeoutManager) : nat := if filled m then rollingWindow else head m.

Definition window_sum (m : AdaptiveTimeoutManager) : Z :=
  foldl (fun sum c => wrap_i64 (sum + c)) 0 (take (window_size m) (txCounts m)).

(** [rollingAvg() < LowTxThreshold].  The average is a float64 quotient; for
    sums below 2^53 both operands are exact, and the quotient by at most ten is
    either 5 or more, or below 5 by a tenth or more: rounding does not change
    the comparison. *)
Definition avg_below_threshold (m : AdaptiveTimeoutManager) : bool :=
  if (window_size m =? 0)%nat then true
  else window_sum m <? LowTxThreshold * Z.of_nat (window_size m).

Definition SuggestedCommitTimeout (m : AdaptiveTimeoutManager) : Z :=
  if avg_below_threshold m then IdleCommitTimeout else DefaultCommitTimeout.

Definition GetRecommendedTimeout : AdaptiveTimeoutManager -> Z := SuggestedCommitTimeout.

(** The manager after the block, and the timeout that is stored. *)
Definition RecordBlockLoad (txCount : Z) (m : AdaptiveTimeoutManager) : AdaptiveTimeoutManager * Z :=
  let counts := <[head m := txCount]> (txCounts m) in
  let h := ((head m + 1) mod rollingWindow)%nat in
  let m := mkManager (txTotal m) counts h (if (h =? 0)%nat then true else filled m) in
  (m, SuggestedCommitTimeout m).

(** From the stored value, if any. *)
Definition GetPersistedTimeout (stored : option Z) : Z := default DefaultCommitTimeout stored.

(** *** The ring is a window *)

(** The manager after the loads [ls], oldest first. *)
Definition record_all (ls : list Z) (m : AdaptiveTimeoutManager) : AdaptiveTimeoutManager :=
  foldl (fun m c => fst (RecordBlockLoad c m)) m ls.

(** The last loads, at most ten. *)
Definition recent (ls : list Z) : list Z := drop (length ls - rollingWindow) ls.

Definition sum_of (ls : list Z) : Z := foldr Z.add 0 ls.

(** Load [k] from the start is at [k mod 10], until it is overwritten. *)
Definition ring_of (ls : list Z) (m : AdaptiveTimeoutManager) : Prop :=
  length (txCounts m) = rollingWindow /\ head m = (length ls mod rollingWindow)%nat /\
  filled m = (rollingWindow <=? length ls)%nat /\
  forall k, (length ls - rollingWindow <= k < length ls)%nat -> txCounts m !! (k mod rollingWindow)%nat = ls !! k.

Lemma mod_window k j : (k <= j < k + 10)%nat -> (j mod 10 = k mod 10)%nat -> j = k.
Proof.
  intros Hr E. pose proof (Nat.div_mod_eq j 10) as Hj. pose proof (Nat.div_mod_eq k 10) as Hk.
  rewrite E in Hj. lia.
Qed.

Lemma record_ring ls m c : ring_of ls m -> ring_of (ls ++ [c]) (fst (RecordBlockLoad c m)).
Proof.
  intros (Hl & Hh & Hf & Hk). unfold ring_of, RecordBlockLoad, rollingWindow in *. cbn [fst txCounts head filled].
  rewrite length_insert, length_app, Hh, Hf. cbn [length].
  assert (((length ls mod 10 + 1) mod 10 = (length ls + 1) mod 10)%nat) as Em by (by rewrite Nat.Div0.add_mod_idemp_l).
  split; [done|]. split; [done|]. split.
  - rewrite Em. destruct (Nat.eqb_spec ((length ls + 1) mod 10) 0) as [E|E].
    + symmetry. apply Nat.leb_le. pose proof (Nat.div_mod_eq (length ls + 1) 10). lia.
    + destruct (Nat.leb_spec 10 (length ls)), (Nat.leb_spec 10 (length ls + 1)); try done; try lia.
      assert (length ls = 9%nat) as E9 by lia. by rewrite E9 in E.
  - intros k Hr. destruct (decide (k = length ls)) as [->|Hn].
    + rewrite list_lookup_insert_eq by (rewrite Hl; apply Nat.mod_upper_bound; lia).
      by rewrite lookup_app_r, Nat.sub_diag by lia.
    + rewrite lookup_app_l by lia. rewrite list_lookup_insert_ne; [apply Hk; lia|].
      intros E. apply mod_window in E; lia.
Qed.

Lemma ring_new : ring_of [] NewAdaptiveTimeoutManager.
Proof. split_and!; try done. cbn. intros; lia. Qed.

Lemma record_all_ring ls : ring_of ls (record_all ls NewAdaptiveTimeoutManager).
Proof.
  induction ls as [|c ls IH] using rev_ind; [exact ring_new|]. unfold record_all. rewrite foldl_snoc. by apply record_ring.
Qed.

(** Up to order, the part of the ring that counts is the window. *)
Lemma ring_window ls m : ring_of ls m -> take (window_size m) (txCounts m) ≡ₚ recent ls /\ window_size m = length (recent ls).
Proof.
  intros (Hl & Hh & Hf & Hk). unfold window_size, recent, rollingWindow in *. rewrite Hf, Hh, length_drop.
  destruct (Nat.leb_spec 10 (length ls)) as [Hge|Hlt].
  - split; [|lia]. rewrite take_ge by lia. set (n := length ls) in *.
    set (d := drop (n - 10) ls). assert (length d = 10%nat) as Hd by (unfold d; rewrite length_drop; lia).
    set (r := (n mod 10)%nat). assert (r < 10)%nat by (apply Nat.mod_upper_bound; lia).
    assert (txCounts m = drop (10 - r) d ++ take (10 - r) d) as ->; [|rewrite Permutation_app_comm, take_drop; done].
    apply list_eq_same_length with (n := 10%nat); [|done|].
    { rewrite length_app, length_drop, length_take. lia. }
    intros i x y Hi Hx Hy. pose proof (Nat.div_mod_eq n 10) as Hn. fold r in Hn.
    destruct (Nat.ltb_spec i r) as [Hir|Hir].
    + rewrite lookup_app_l in Hy by (rewrite length_drop; lia). unfold d in Hy. rewrite !lookup_drop in Hy.
      assert (((n - 10 + (10 - r + i)) mod 10 = i)%nat) as E.
      { replace (n - 10 + (10 - r + i))%nat with (i + (n / 10) * 10)%nat by lia. rewrite Nat.Div0.mod_add. apply Nat.mod_small. lia. }
      specialize (Hk (n - 10 + (10 - r + i))%nat ltac:(lia)). rewrite E in Hk. congruence.
    + rewrite lookup_app_r, length_drop, Hd, lookup_take_lt in Hy by (rewrite ?length_drop; lia).
      unfold d in Hy. rewrite lookup_drop in Hy.
      assert (((n - 10 + (i - (10 - (10 - r)))) mod 10 = i)%nat) as E.
      { replace (n - 10 + (i - (10 - (10 - r))))%nat with (i + (n / 10 - 1) * 10)%nat by lia. rewrite Nat.Div0.mod_add. apply Nat.mod_small. lia. }
      specialize (Hk (n - 10 + (i - (10 - (10 - r))))%nat ltac:(lia)). rewrite E in Hk. congruence.
  - rewrite (Nat.mod_small (length ls) 10) by lia. split; [|lia].
    replace (length ls - 10)%nat with 0%nat by lia. rewrite drop_0.
    assert (take (length ls) (txCounts m) = ls) as ->; [|done].
    apply list_eq_same_length with (n := length ls); [done|rewrite length_take; lia|].
    intros i x y Hi Hx Hy. rewrite lookup_take_lt in Hx by lia. specialize (Hk i ltac:(lia)).
    rewrite Nat.mod_small in Hk by lia. congruence.
Qed.
End adaptive.

Module adaptive_theorems.
Import adaptive.

Lemma sum_of_app l l' : sum_of (l ++ l') = sum_of l + sum_of l'.
Proof. unfold sum_of. induction l as [|x l IH]; cbn in *; lia. Qed.

Lemma sum_of_perm l l' : l ≡ₚ l' -> sum_of l = sum_of l'.
Proof. unfold sum_of. induction 1; cbn in *; lia. Qed.

(** Loads that cannot overflow the sum of ten of them. *)
Definition load_ok (c : Z) : Prop := 0 <= c < 2 ^ 49.

Lemma wrap_sum l : forall acc, Forall load_ok l -> 0 <= acc -> acc + Z.of_nat (length l) * 2 ^ 49 < two63 ->
  foldl (fun sum c => wrap_i64 (sum + c)) acc l = acc + sum_of l.
Proof.
  induction l as [|c l IH]; intros acc Hf Ha Hb; [cbn; lia|]. inversion Hf as [|? ? [? ?] Hf']; subst. cbn [foldl sum_of foldr length] in *.
  rewrite wrap_i64_id by (unfold in_i64; unfold two63 in *; lia). rewrite IH; [fold (sum_of l); lia|done|lia|lia].
Qed.

Lemma window_sum_recent ls m : ring_of ls m -> Forall load_ok ls -> window_sum m = sum_of (recent ls).
Proof.
  intros Hr Hf. destruct (ring_window ls m Hr) as [Hp Hs]. unfold window_sum.
  assert (Forall load_ok (recent ls)) as Hrf by (by apply Forall_drop).
  rewrite wrap_sum; [by rewrite (sum_of_perm _ _ Hp)|by rewrite Hp|done|].
  rewrite Hp. unfold recent, rollingWindow, two63. rewrite length_drop. lia.
Qed.

(** The adaptive timeout.  After any number of blocks, with the loads
    given oldest first, the ring's recommendation is the one for the window of
    the last ten loads, or of all of them when there are fewer: idle, five
    seconds, when there was no block or their average is below five, and one
    second otherwise. *)
Theorem adaptive_window ls :
  Forall load_ok ls ->
  SuggestedCommitTimeout (record_all ls NewAdaptiveTimeoutManager) =
    if bool_decide (ls = []) || (sum_of (recent ls) <? LowTxThreshold * Z.of_nat (length (recent ls)))
    then IdleCommitTimeout else DefaultCommitTimeout.
Proof.
  intros Hf. pose proof (record_all_ring ls) as Hr. destruct (ring_window _ _ Hr) as [_ Hs].
  unfold SuggestedCommitTimeout, avg_below_threshold. rewrite (window_sum_recent ls _ Hr Hf), Hs.
  destruct ls as [|c ls]; [done|]. rewrite (bool_decide_false (_ = [])) by done. cbn [orb].
  destruct (Nat.eqb_spec (length (recent (c :: ls))) 0) as [E|]; [|done].
  unfold recent, rollingWindow in E. rewrite length_drop in E. cbn [length] in E. lia.
Qed.

Lemma adaptive_window_witness :
  SuggestedCommitTimeout (record_all [100; 7; 7; 7; 7; 7; 7; 0; 0; 5; 5] NewAdaptiveTimeoutManager) = DefaultCommitTimeout /\
  SuggestedCommitTimeout (record_all [7; 100; 0; 0; 0; 0; 0; 0; 0; 0; 0; 0] NewAdaptiveTimeoutManager) = IdleCommitTimeout.
Proof.
  split; (refine (eq_trans (adaptive_window _ _) _); [repeat constructor; discriminate|vm_compute; reflexivity]).
Defined.
End adaptive_theorems.

(** ** Ante decorators *)

Module ante.
Import adaptive.

(** How BaseApp runs the ante handler; [simulate] is set for Simulate only. *)
Inductive ExecMode : Type := CheckTx | ReCheckTx | DeliverTx | Simulate.

Definition simulate_of (mode : ExecMode) : bool := match mode with Simulate => true | _ => false end.

(** An ante handler over the manager: [true] when the transaction passes. *)
Definition AnteHandler (Tx : Type) : Type := ExecMode -> Tx -> AdaptiveTimeoutManager -> bool * AdaptiveTimeoutManager.

Section Decorators.
Context {Tx : Type}.

(** Whether the wrapped cosmos-sdk ante handler accepts a transaction. *)
Definition BaseAnteDecorator_AnteHandle (handler : ExecMode -> Tx -> bool) : AnteHandler Tx := fun mode tx m =>
  if handler mode tx then (true, if simulate_of mode then m else AddTx m) else (false, m).

(** The hash of the messages is only logged. *)
Definition PQCAnteDecorator_AnteHandle (next : AnteHandler Tx) : AnteHandler Tx := next.

Definition anteHandler (handler : ExecMode -> Tx -> bool) : AnteHandler Tx :=
  PQCAnteDecorator_AnteHandle (BaseAnteDecorator_AnteHandle handler).

(** The ante runs of a node during a block. *)
Definition run_ante (handler : ExecMode -> Tx -> bool) (evs : list (ExecMode * Tx)) (m : AdaptiveTimeoutManager) : AdaptiveTimeoutManager :=
  foldl (fun m ev => snd (anteHandler handler ev.1 ev.2 m)) m evs.

(** The runs that are counted. *)
Definition counted (handler : ExecMode -> Tx -> bool) (evs : list (ExecMode * Tx)) : nat :=
  length (filter (fun ev => handler ev.1 ev.2 = true /\ simulate_of ev.1 = false) evs).

Lemma run_ante_spec handler evs : forall m, 0 <= txTotal m -> txTotal m + Z.of_nat (length evs) < two63 ->
  run_ante handler evs m = mkManager (txTotal m + Z.of_nat (counted handler evs)) (txCounts m) (head m) (filled m).
Proof.
  induction evs as [|[mode tx] evs IH]; intros m H0 Hb.
  { unfold counted. cbn. rewrite Z.add_0_r. by destruct m. }
  unfold run_ante, counted in *. cbn [foldl fst snd]. rewrite filter_cons. cbn [fst snd length] in *.
  unfold anteHandler, PQCAnteDecorator_AnteHandle, BaseAnteDecorator_AnteHandle at 2.
  destruct (handler mode tx) eqn:Eh; cbn [snd].
  2:{ rewrite decide_False by (intros [? _]; done). apply IH; lia. }
  destruct (simulate_of mode) eqn:Em; cbn [snd].
  { rewrite decide_False by (intros [_ ?]; done). apply IH; lia. }
  rewrite decide_True by done. assert (txTotal (AddTx m) = txTotal m + 1) as Et
    by (cbn [AddTx txTotal]; apply wrap_i64_id; unfold in_i64; unfold two63 in *; lia).
  fold (anteHandler handler). rewrite IH; rewrite Et; [|lia|lia]. cbn [AddTx txCounts head filled length]. f_equal. lia.
Qed.
End Decorators.

(** marshalTxMsgs: for each message its type URL and, when it can be marshalled,
    its bytes. *)
Definition marshalTxMsgs (msgs : list (string * option string)) : string :=
  foldl (fun buf msg => buf +:+ fst msg +:+ default "" (snd msg)) "" msgs.

(** pqcHashHex: the first eight bytes, with its own digit table. *)
Fixpoint hex_bytes (n : nat) (h : string) : string :=
  match n, h with
  | S n, String c h =>
      let b := Z.of_nat (nat_of_ascii c) in
      let digit z := default "0"%char (String.get (Z.to_nat z) "0123456789abcdef") in
      String (digit (Z.shiftr b 4)) (String (digit (Z.land b 15)) (hex_bytes n h))
  | _, _ => ""
  end.

Definition pqcHashHex (h : string) : string := hex_bytes 8 h.
End ante.

(** ** green_slashing.go *)

(** cosmossdk.io/math's NewDecFromStr: [None] for an error. *)
Class DecFromStr : Type := { DecFromStr_parse : string -> option Z }.

Module latency.

(** float64. *)
Definition float : Type := spec_float.
Definition F_of_Z (z : Z) : float := binary_normalize 53 1024 z 0 false.
Definition F_add : float -> float -> float := SFadd 53 1024.
Definition F_sub : float -> float -> float := SFsub 53 1024.
Definition F_mul : float -> float -> float := SFmul 53 1024.
Definition F_div : float -> float -> float := SFdiv 53 1024.

(** The float64 nearest to a constant. *)
Definition F_lit (num den : Z) : float := F_div (F_of_Z num) (F_of_Z den).

Definition maxLatencyMs : Z := 2000.
Definition emaAlpha : float := F_lit 1 5.
Definition one_minus_alpha : float := F_lit 4 5.
Definition MinScoreMultiplier : float := F_lit 17 20.
Definition one_minus_min : float := F_lit 3 20.

(** The stored averages, by consensus address. *)
Notation Latencies := (gmap string spec_float).

Definition getStoredLatencyMs (consAddr : string) (m : Latencies) : float := default (F_of_Z 0) (m !! consAddr).

Definition setStoredLatencyMs (consAddr : string) (latencyMs : float) (m : Latencies) : Latencies := <[consAddr := latencyMs]> m.

Definition RecordValidatorLatency (consAddr : string) (latencyMs : Z) (m : Latencies) : Latencies :=
  let current := getStoredLatencyMs consAddr m in
  let updated :=
    if SFeqb current (F_of_Z 0) then F_of_Z latencyMs
    else F_add (F_mul emaAlpha (F_of_Z latencyMs)) (F_mul one_minus_alpha current) in
  setStoredLatencyMs consAddr updated m.

Definition GetValidatorP2PScore (consAddr : string) (m : Latencies) : float :=
  let avg := getStoredLatencyMs consAddr m in
  if SFleb avg (F_of_Z 0) then F_of_Z 1 else
  let ratio := F_div avg (F_of_Z maxLatencyMs) in
  let ratio := if SFltb (F_of_Z 1) ratio then F_of_Z 1 else ratio in
  F_sub (F_of_Z 1) ratio.

Definition multiplier (consAddr : string) (m : Latencies) : float :=
  F_add MinScoreMultiplier (F_mul (GetValidatorP2PScore consAddr m) one_minus_min).

(** The value in millionths, rounded half to even. *)
Definition millionths (f : float) : option Z :=
  match f with
  | S754_zero _ => Some 0
  | S754_finite s m e =>
      let v :=
        if 0 <=? e then Z.pos m * 2 ^ e * 1000000 else
        let n := Z.pos m * 1000000 in
        let d := 2 ^ (- e) in
        let q := n / d in
        let r := n mod d in
        match 2 * r ?= d with Lt => q | Gt => q + 1 | Eq => if Z.even q then q else q + 1 end in
      Some (if s then - v else v)
  | _ => None
  end.

Fixpoint pad_left (n : nat) (s : string) : string :=
  match n with
  | O => s
  | S n => if (String.length s <=? n)%nat then String "0"%char (pad_left n s) else s
  end.

(** [fmt.Sprintf("%.6f", f)]; infinities and NaN give their names. *)
Definition formatFloat (f : float) : string :=
  match f with
  | S754_nan => "NaN"
  | S754_infinity s => if s then "-Inf" else "+Inf"
  | _ =>
      let v := default 0 (millionths f) in
      (if match f with S754_zero s => s | S754_finite s _ _ => s | _ => false end then "-" else "") +:+
      pretty (Z.abs v / 1000000) +:+ "." +:+ pad_left 6 (pretty (Z.abs v mod 1000000))
  end.

Definition ApplyP2PPenalty `{SdkMath} `{DecFromStr} (consAddr : string) (baseReward : Z) (m : Latencies) : option Z :=
  match DecFromStr_parse (formatFloat (multiplier consAddr m)) with
  | Some mulDec => Dec_Mul baseReward mulDec
  | None => None
  end.

(** BeginBlocker of app.go: a vote is an address and whether it signed. *)
Definition record_vote (m : Latencies) (vote : string * bool) : Latencies :=
  let latencyMs := if snd vote then 0 else 2000 in
  if (0 <? latencyMs) || negb (snd vote) then RecordValidatorLatency (fst vote) latencyMs m else m.

Definition BeginBlocker (votes : list (string * bool)) (m : Latencies) : Latencies := foldl record_vote m votes.

(** *** A missed block is never forgotten *)

Definition missed (addr : string) (blocks : list (list (string * bool))) : Prop :=
  Exists (fun votes => (addr, false) ∈ votes) blocks.

#[export] Instance missed_dec addr blocks : Decision (missed addr blocks).
Proof. unfold missed. apply _. Defined.

Definition run_blocks (blocks : list (list (string * bool))) (m : Latencies) : Latencies :=
  foldl (fun m votes => BeginBlocker votes m) m blocks.

(** An average of 2000 absorbs a further 2000 in float64. *)
Lemma ema_fixed : F_add (F_mul emaAlpha (F_of_Z 2000)) (F_mul one_minus_alpha (F_of_Z 2000)) = F_of_Z 2000.
Proof. vm_compute. reflexivity. Qed.

Definition late (m : Latencies) : Prop := map_Forall (fun _ f => f = F_of_Z 2000) m.

Lemma record_vote_spec m addr signed : late m ->
  record_vote m (addr, signed) = if signed then m else <[addr := F_of_Z 2000]> m.
Proof.
  intros Hl. unfold record_vote. cbn [fst snd]. destruct signed; [done|]. change ((0 <? 2000) || negb false) with true. cbn iota.
  unfold RecordValidatorLatency, setStoredLatencyMs, getStoredLatencyMs. f_equal.
  destruct (m !! addr) as [f|] eqn:E; [|done]. rewrite (Hl addr f E). cbn [from_option]. exact ema_fixed.
Qed.

Lemma record_vote_late m v : late m -> late (record_vote m v).
Proof. destruct v as [a s]. intros Hl. rewrite record_vote_spec by done. destruct s; [done|]. by apply map_Forall_insert_2. Qed.

Lemma BeginBlocker_spec votes : forall m, late m -> late (BeginBlocker votes m) /\
  forall addr, BeginBlocker votes m !! addr = if bool_decide ((addr, false) ∈ votes) then Some (F_of_Z 2000) else m !! addr.
Proof.
  induction votes as [|[a s] votes IH]; intros m Hl; [split; [done|]; intros addr; by rewrite bool_decide_false by (by intros ?%not_elem_of_nil)|].
  unfold BeginBlocker in *. cbn [foldl]. destruct (IH _ (record_vote_late m (a, s) Hl)) as [Hl' Hk]. split; [done|].
  intros addr. rewrite Hk, record_vote_spec by done. destruct (decide ((addr, false) ∈ votes)) as [Hin|Hin].
  - rewrite !bool_decide_true; [done|by right|done].
  - rewrite (bool_decide_false ((addr, false) ∈ votes)) by done. destruct s.
    + rewrite bool_decide_false; [done|]. intros [?|?]%elem_of_cons; [congruence|done].
    + destruct (decide (a = addr)) as [->|Hne].
      * rewrite bool_decide_true by left. apply lookup_insert_eq.
      * rewrite lookup_insert_ne, bool_decide_false; [done| |done]. intros [?|?]%elem_of_cons; [congruence|done].
Qed.

Lemma run_blocks_spec blocks : forall m, late m -> late (run_blocks blocks m) /\
  forall addr, run_blocks blocks m !! addr = if decide (missed addr blocks) then Some (F_of_Z 2000) else m !! addr.
Proof.
  induction blocks as [|votes blocks IH]; intros m Hl; [split; [done|]; intros addr; by rewrite decide_False by (by intros ?%Exists_nil)|].
  unfold run_blocks in *. cbn [foldl]. destruct (BeginBlocker_spec votes m Hl) as [Hl1 Hk1]. destruct (IH _ Hl1) as [Hl2 Hk2].
  split; [done|]. intros addr. rewrite Hk2, Hk1. unfold missed. repeat case_decide; repeat case_bool_decide; try done;
    rewrite Exists_cons in *; tauto.
Qed.

(** A missed block is never forgiven.  Whatever blocks went by since
    genesis, a validator that missed at least one of them has an average of
    2000 ms, the score 0 and the multiplier 0.85, the worst there is, however
    many blocks it has signed since; one that missed none has the score 1. *)
Theorem missed_once_for_ever blocks addr :
  let m := run_blocks blocks ∅ in
  if decide (missed addr blocks)
  then getStoredLatencyMs addr m = F_of_Z 2000 /\ GetValidatorP2PScore addr m = F_of_Z 0 /\ formatFloat (multiplier addr m) = "0.850000"
  else GetValidatorP2PScore addr m = F_of_Z 1 /\ formatFloat (multiplier addr m) = "1.000000".
Proof.
  intros m. destruct (run_blocks_spec blocks ∅ ltac:(apply map_Forall_empty)) as [_ Hk]. specialize (Hk addr). fold m in Hk.
  assert (forall f, m !! addr = f -> getStoredLatencyMs addr m = default (F_of_Z 0) f) as Hg by (intros f <-; done).
  case_decide; specialize (Hg _ Hk); unfold multiplier, GetValidatorP2PScore; rewrite Hg.
  - split_and!; vm_compute; reflexivity.
  - rewrite lookup_empty. split; vm_compute; reflexivity.
Qed.
End latency.

(** ** app.go *)

Module apphooks.
Import adaptive ante.

(** itoa.  The digits, last first; twenty rounds are enough for an int64. *)
Fixpoint itoa_digits (fuel : nat) (v : Z) : list ascii :=
  match fuel with
  | O => []
  | S fuel => if 0 <? v then ascii_of_nat (Z.to_nat (48 + Z.rem v 10)) :: itoa_digits fuel (Z.quot v 10) else []
  end.

Definition itoa (v : Z) : string :=
  if v =? 0 then "0" else
  let neg := v <? 0 in
  let v := if neg then wrap_i64 (- v) else v in
  let buf := foldr String "" (rev (itoa_digits 20 v)) in
  if neg then String "-"%char buf else buf.

Definition greenBFTMode (d : Z) : string := if IdleCommitTimeout <=? d then "idle" else "busy".

(** What EndBlocker adds to the modules' response. *)
Record BlockResult : Type := mkBlockResult {
  br_attributes : list (string * string);
  br_MaxGas : Z;
  br_stored_timeout : Z;
}.

(** [time.Duration.Milliseconds]. *)
Definition Milliseconds (d : Z) : Z := Z.quot d 1000000.

Definition EndBlocker (m : AdaptiveTimeoutManager) : BlockResult * AdaptiveTimeoutManager :=
  let '(txCount, m) := DrainTxCount m in
  let '(m, stored) := RecordBlockLoad txCount m in
  let recommended := GetRecommendedTimeout m in
  let MaxGas := if recommended =? IdleCommitTimeout then -1 else -1 in
  (mkBlockResult
     [("recommended_timeout_ms", itoa (Milliseconds recommended)); ("block_tx_count", itoa txCount);
      ("mode", greenBFTMode recommended)] MaxGas stored, m).

(** A node's blocks: the ante runs of each, then EndBlocker. *)
Definition run_block {Tx} (handler : ExecMode -> Tx -> bool) (evs : list (ExecMode * Tx)) (m : AdaptiveTimeoutManager)
    : BlockResult * AdaptiveTimeoutManager := EndBlocker (run_ante handler evs m).

(** The interception of sentinel transactions; [base] is BaseApp's handler. *)
Definition is_sentinel_tx (tx : string) : bool :=
  (8 <=? String.length tx)%nat && (be_val (String.substring 0 4 tx) =? proposal.lwrMarkerUint32).

Definition DeliverTx {R} (sentinel_response : R) (base : string -> R) (tx : string) : R :=
  if is_sentinel_tx tx then sentinel_response else base tx.

Definition CheckTx {R} (sentinel_response : R) (base : string -> R) (tx : string) : R :=
  if is_sentinel_tx tx then sentinel_response else base tx.

(** *** Theorems *)

(** The state depends on the mempool.  Two nodes start with no history
    and deliver the same transactions in a block, fewer than five of them
    accepted; the second has in addition accepted transactions into its
    mempool, so that it counts five or more.  They store different timeouts,
    the idle one and the default one, in the consensus state. *)
Theorem timeout_depends_on_mempool {Tx} (handler : ExecMode -> Tx -> bool) delivered checked :
  Forall (fun ev => ev.1 = ante.CheckTx) checked ->
  (counted handler delivered < 5)%nat -> (5 <= counted handler delivered + counted handler checked)%nat ->
  Z.of_nat (length delivered + length checked) < 2 ^ 49 ->
  br_stored_timeout (fst (run_block handler delivered NewAdaptiveTimeoutManager)) = IdleCommitTimeout /\
  br_stored_timeout (fst (run_block handler (checked ++ delivered) NewAdaptiveTimeoutManager)) = DefaultCommitTimeout.
Proof.
  intros _ Hlt Hge Hb.
  assert (Hst : forall evs, Z.of_nat (length evs) < 2 ^ 49 -> br_stored_timeout (fst (run_block handler evs NewAdaptiveTimeoutManager)) =
    if Z.of_nat (counted handler evs) <? 5 then IdleCommitTimeout else DefaultCommitTimeout).
  { intros evs Hl. unfold run_block. rewrite run_ante_spec by (cbn; unfold two63; lia). cbn [NewAdaptiveTimeoutManager txTotal txCounts head filled].
    pose proof (adaptive_theorems.wrap_sum [0 + Z.of_nat (counted handler evs)] 0) as Hw.
    assert (counted handler evs <= length evs)%nat by apply length_filter.
    unfold EndBlocker, DrainTxCount, RecordBlockLoad. cbn [txTotal txCounts head filled fst br_stored_timeout].
    unfold SuggestedCommitTimeout, avg_below_threshold, window_sum, window_size. cbn [head filled txCounts].
    change ((0 + 1) mod rollingWindow)%nat with 1%nat.
    cbn [Nat.eqb]. set (l := take 1 _). change l with [0 + Z.of_nat (counted handler evs)].
    rewrite Hw; [|repeat constructor; lia|lia|unfold two63; cbn; lia]. cbn [adaptive.sum_of foldr]. unfold LowTxThreshold.
    replace (0 + (0 + Z.of_nat (counted handler evs) + 0)) with (Z.of_nat (counted handler evs)) by lia.
    change (5 * Z.of_nat 1) with 5. done. }
  rewrite !Hst by (rewrite ?length_app; lia). split.
  - rewrite (proj2 (Z.ltb_lt _ _)) by lia. done.
  - unfold counted. rewrite filter_app, length_app. fold (counted handler checked) (counted handler delivered).
    rewrite (proj2 (Z.ltb_ge _ _)) by lia. done.
Qed.

Lemma timeout_depends_on_mempool_witness :
  let handler (_ : ExecMode) (tx : nat) := true in
  br_stored_timeout (fst (run_block handler [(ante.DeliverTx, 1%nat)] NewAdaptiveTimeoutManager)) <>
  br_stored_timeout (fst (run_block handler (((fun i => (ante.CheckTx, i)) <$> seq 0 4) ++ [(ante.DeliverTx, 1%nat)]) NewAdaptiveTimeoutManager)).
Proof.
  intros handler.
  destruct (timeout_depends_on_mempool handler [(ante.DeliverTx, 1%nat)] ((fun i => (ante.CheckTx, i)) <$> seq 0 4)) as [E1 E2].
  - cbn. by repeat constructor.
  - apply Nat.ltb_lt. vm_compute. reflexivity.
  - apply Nat.leb_le. vm_compute. reflexivity.
  - vm_compute. reflexivity.
  - rewrite E1, E2. discriminate.
Defined.

(** *** itoa *)

Lemma digit_char v : 0 <= v -> ascii_of_nat (Z.to_nat (48 + Z.rem v 10)) = pretty_N_char (Z.to_N v mod 10).
Proof.
  intros Hv. rewrite Z.rem_mod_nonneg by lia. replace (Z.to_N v mod 10)%N with (Z.to_N (v mod 10)) by (by rewrite Z2N.inj_mod by lia).
  pose proof (Z.mod_pos_bound v 10 ltac:(lia)) as Hr.
  assert (v mod 10 = 0 \/ v mod 10 = 1 \/ v mod 10 = 2 \/ v mod 10 = 3 \/ v mod 10 = 4 \/ v mod 10 = 5 \/
          v mod 10 = 6 \/ v mod 10 = 7 \/ v mod 10 = 8 \/ v mod 10 = 9) as Hc by lia.
  repeat (destruct Hc as [-> |Hc]; [reflexivity|]). rewrite Hc. reflexivity.
Qed.

Lemma itoa_digits_pretty fuel : forall v s, 0 <= v < 10 ^ Z.of_nat fuel ->
  foldr String s (rev (itoa_digits fuel v)) = pretty_N_go (Z.to_N v) s.
Proof.
  induction fuel as [|fuel IH]; intros v s Hv; cbn [itoa_digits].
  { assert (v = 0) as -> by (cbn in Hv; lia). done. }
  destruct (Z.ltb_spec 0 v) as [Hp|]; [|assert (v = 0) as -> by lia; done].
  cbn [rev]. rewrite foldr_app. cbn [foldr]. rewrite IH.
  - rewrite (pretty_N_go_step (Z.to_N v)) by lia. rewrite digit_char by lia. f_equal.
    rewrite Z.quot_div_nonneg by lia. by rewrite Z2N.inj_div by lia.
  - rewrite Nat2Z.inj_succ, Z.pow_succ_r in Hv by lia. rewrite Z.quot_div_nonneg by lia.
    split; [apply Z.div_pos; lia|apply Z.div_lt_upper_bound; lia].
Qed.

(** Itoa is decimal notation for every int64 but one: of the smallest,
    whose negation overflows, it gives a lone minus sign. *)
Theorem itoa_decimal v : in_i64 v -> itoa v = if v =? - two63 then "-" else pretty v.
Proof.
  intros [Hl Hr]. unfold itoa. destruct (Z.eqb_spec v (- two63)) as [->|Hne]; [reflexivity|].
  unfold two63 in *. destruct (Z.eqb_spec v 0) as [->|H0]; [done|]. destruct v as [|p|p]; [done| |].
  - change (Z.pos p <? 0) with false. cbn iota. rewrite itoa_digits_pretty by (change (10 ^ Z.of_nat 20) with 100000000000000000000; lia).
    reflexivity.
  - change (Z.neg p <? 0) with true. cbn iota. rewrite wrap_i64_id by (unfold in_i64, two63; lia).
    change (- Z.neg p) with (Z.pos p). rewrite itoa_digits_pretty by (change (10 ^ Z.of_nat 20) with 100000000000000000000; lia).
    change (pretty (Z.neg p)) with (String "-"%char (pretty (N.pos p))). reflexivity.
Qed.

Lemma itoa_decimal_witness : itoa (-1234567890) = "-1234567890".
Proof. refine (eq_trans (itoa_decimal (-1234567890) _) _); [unfold in_i64, two63; lia|vm_compute; reflexivity]. Defined.

(** The logged hash is the hex of its first eight bytes. *)
Lemma pqcHashHex_spec h : pqcHashHex h = pqc.EncodeToString (str_take 8 h).
Proof.
  unfold pqcHashHex. generalize 8%nat. intros n. revert h. induction n as [|n IH]; intros h; [done|]. destruct h as [|c h]; [done|].
  cbn [hex_bytes str_take pqc.EncodeToString]. rewrite IH. by destruct c as [[] [] [] [] [] [] [] []].
Qed.

(** A block of proposals' sentinel is never in the mempool, and always accepted
    in a block, whatever BaseApp does. *)
Lemma sentinel_intercepted {R} (ok rejected : R) base tx : is_sentinel_tx tx = true ->
  DeliverTx ok base tx = ok /\ CheckTx rejected base tx = rejected.
Proof. unfold DeliverTx, CheckTx. by intros ->. Qed.
End apphooks.
