(* ===== verification/Runtime.v ===== *)
(** Runtime: the parts of a node that run beside the state machine.

    x/privacy/tfhe/worker_pool.go (clients, a bounded queue and workers, as a
    step relation), x/privacy/pqc/greenbft.go (the idle-window scheduler),
    x/privacy/tfhe/node_keys.go and cosmwasm/query_plugin.go (the node's TFHE
    keys and the queries contracts make with them), and EndBlock of
    x/privacy/module.go (the chain of block hashes).

    Theorems: every execution of the pool ends, with every job answered by its
    own result; the keys survive a restart, and the node has two pairs of them;
    homomorphic queries compute on the plaintexts; the last block hash binds
    the whole history. *)

From Stdlib Require Import ZArith Lia Ascii String.
From stdpp Require Import base gmap sets list strings fin_maps relations.
From S2P Require Import Prelude Sdk Pqc Lwr Proposal Wire Tfhe.

Open Scope Z_scope.
Open Scope go_scope.

(** ** worker_pool.go *)

Module pool.

Definition DefaultWorkerQueueDepth : nat := 256.

(** Where a submitted job is: not sent yet, in the channel, on a worker, its
    result in the job's own channel, received by the caller. *)
Inductive phase : Type :=
  | New
  | Queued
  | Running
  | Answered (r : option err)
  | Done (r : option err).

(** The callers' jobs, the channel, and what each worker does. *)
Record State : Type := mkState {
  phases : list phase;
  jobs : list nat;
  workers : list (option nat);
}.

(** The pool's size: [ncpu] processors, a requested size. *)
Definition pool_size (ncpu size : Z) : Z := if size <=? 0 then Z.max 1 (ncpu - 2) else size.

(** InitWorkerPool: the first call with a key decides. *)
Definition InitWorkerPool (ncpu : Z) (serverKey : string) (size : Z) (globalPool : option Z) : outcome Z * option Z :=
  if bool_decide (serverKey = "") then (Err (Errorf "tfhe: InitWorkerPool requires a non-empty server key"), globalPool) else
  match globalPool with
  | Some n => (Ok n, globalPool)
  | None => (Ok (pool_size ncpu size), Some (pool_size ncpu size))
  end.

Definition PoolSize (globalPool : option Z) : Z := default 0 globalPool.

Definition init (njobs nworkers : nat) : State := mkState (replicate njobs New) [] (replicate nworkers None).

(** What each job's function returns. *)
Section Pool.
Context (fn : nat -> option err).

Inductive step : State -> State -> Prop :=
  | step_submit s i : phases s !! i = Some New -> (length (jobs s) < DefaultWorkerQueueDepth)%nat ->
      step s (mkState (<[i := Queued]> (phases s)) (jobs s ++ [i]) (workers s))
  | step_take s w i js : workers s !! w = Some None -> jobs s = i :: js ->
      step s (mkState (<[i := Running]> (phases s)) js (<[w := Some i]> (workers s)))
  | step_finish s w i : workers s !! w = Some (Some i) ->
      step s (mkState (<[i := Answered (fn i)]> (phases s)) (jobs s) (<[w := None]> (workers s)))
  | step_receive s i r : phases s !! i = Some (Answered r) ->
      step s (mkState (<[i := Done r]> (phases s)) (jobs s) (workers s)).

Definition finished (s : State) : Prop := forall i p, phases s !! i = Some p -> p = Done (fn i).

(** The channel and the workers hold exactly the jobs whose phase says so, once. *)
Record pool_inv (s : State) : Prop := mkInv {
  inv_queued i : i ∈ jobs s <-> phases s !! i = Some Queued;
  inv_running i : (exists w, workers s !! w = Some (Some i)) <-> phases s !! i = Some Running;
  inv_unique w w' i : workers s !! w = Some (Some i) -> workers s !! w' = Some (Some i) -> w = w';
  inv_nodup : NoDup (jobs s);
  inv_result i r : phases s !! i = Some (Answered r) \/ phases s !! i = Some (Done r) -> r = fn i;
}.

Lemma init_inv m n : pool_inv (init m n).
Proof.
  assert (Hp : forall i p, phases (init m n) !! i = Some p -> p = New) by (by intros i p [-> _]%lookup_replicate).
  assert (Hw : forall w o, workers (init m n) !! w = Some o -> o = None) by (by intros w o [-> _]%lookup_replicate).
  split.
  - intros i. split; [by intros ?%not_elem_of_nil|]. by intros ?%Hp.
  - intros i. split; [by intros [w ?%Hw]|]. by intros ?%Hp.
  - by intros w w' i ?%Hw.
  - constructor.
  - by intros i r [?%Hp|?%Hp].
Qed.

Lemma lookup_upd {A} (l : list A) i j x p : l !! i = Some p ->
  <[i := x]> l !! j = if decide (i = j) then Some x else l !! j.
Proof. intros Hi. case_decide; subst; [apply list_lookup_insert_eq; by eapply lookup_lt_Some|by apply list_lookup_insert_ne]. Qed.

(** Every step moves one job forward and keeps the invariant. *)
Lemma pool_step_inv s s' : step s s' -> pool_inv s -> pool_inv s'.
Proof.
  intros Hs [Iq Ir Iu Ind Ires]. destruct Hs as [s i Hi Hlen|s w i js Hw Hj|s w i Hw|s i r Hi].
  - assert (i ∉ jobs s) as Hni by (intros E%Iq; congruence). split; cbn [phases jobs workers].
    + intros j. rewrite (lookup_upd _ _ _ _ _ Hi), elem_of_app, list_elem_of_singleton, Iq. case_decide; subst; [tauto|]. split; [intros [?|?]; [done|congruence]|by left].
    + intros j. rewrite (lookup_upd _ _ _ _ _ Hi), Ir. case_decide; subst; split; congruence.
    + done.
    + apply NoDup_app. split; [done|]. split; [|apply NoDup_singleton]. intros j Hj ->%list_elem_of_singleton. done.
    + intros j r. rewrite !(lookup_upd _ _ _ _ _ Hi). case_decide; [by intros [?|?]|apply Ires].
  - assert (Hi : phases s !! i = Some Queued) by (apply Iq; rewrite Hj; left). rewrite Hj in Ind. apply NoDup_cons in Ind as [Hni Ind].
    split; cbn [phases jobs workers].
    + intros j. rewrite (lookup_upd _ _ _ _ _ Hi). case_decide; [subst; split; [done|congruence]|].
      rewrite <- Iq, Hj, elem_of_cons. split; [by right|intros [?|?]; [congruence|done]].
    + intros j. rewrite (lookup_upd _ _ _ _ _ Hi). setoid_rewrite (lookup_upd _ _ _ _ _ Hw). case_decide as E.
      * subst. split; [done|]. intros _. exists w. by rewrite decide_True.
      * rewrite <- Ir. split; intros [w' Hw']; exists w'; case_decide; subst; congruence.
    + intros w1 w2 j. rewrite !(lookup_upd _ _ _ _ _ Hw). repeat case_decide; subst; intros E1 E2; try done; simplify_eq.
      * exfalso. assert (phases s !! j = Some Running) by (apply Ir; eauto). congruence.
      * exfalso. assert (phases s !! j = Some Running) by (apply Ir; eauto). congruence.
      * by eapply Iu.
    + done.
    + intros j r. rewrite !(lookup_upd _ _ _ _ _ Hi). case_decide; [by intros [?|?]|apply Ires].
  - assert (Hi : phases s !! i = Some Running) by (apply Ir; eauto). split; cbn [phases jobs workers].
    + intros j. rewrite (lookup_upd _ _ _ _ _ Hi), Iq. case_decide; subst; split; congruence.
    + intros j. rewrite (lookup_upd _ _ _ _ _ Hi). setoid_rewrite (lookup_upd _ _ _ _ _ Hw). case_decide as E.
      * subst. split; [|done]. intros [w' Hw']. case_decide as Hd; [done|]. exfalso. by apply Hd, (Iu w w' j).
      * rewrite <- Ir. split; intros [w' Hw']; exists w'; case_decide; subst; congruence.
    + intros w1 w2 j. rewrite !(lookup_upd _ _ _ _ _ Hw). repeat case_decide; subst; try done. apply Iu.
    + done.
    + intros j r. rewrite !(lookup_upd _ _ _ _ _ Hi). case_decide; [subst; intros [E|E]; congruence|apply Ires].
  - split; cbn [phases jobs workers].
    + intros j. rewrite (lookup_upd _ _ _ _ _ Hi), Iq. case_decide; subst; split; congruence.
    + intros j. rewrite (lookup_upd _ _ _ _ _ Hi), Ir. case_decide; subst; split; congruence.
    + done.
    + done.
    + intros j r'. rewrite !(lookup_upd _ _ _ _ _ Hi). case_decide; [|apply Ires]. subst. intros [E|E]; [congruence|].
      assert (r = fn j) by (apply Ires; by left). congruence.
Qed.

(** What is left to do for a job. *)
Definition todo (p : phase) : nat :=
  match p with New => 4 | Queued => 3 | Running => 2 | Answered _ => 1 | Done _ => 0 end.

Definition measure (s : State) : nat := sum_list (todo <$> phases s).

Lemma measure_upd (l : list phase) i p q : l !! i = Some p -> todo p = S (todo q) ->
  sum_list (todo <$> l) = S (sum_list (todo <$> <[i := q]> l)).
Proof.
  revert i. induction l as [|x l IH]; intros [|i] Hi Ht; [done|done| |].
  - cbn in Hi. injection Hi as ->. cbn. lia.
  - change (todo x + sum_list (todo <$> l) = S (todo x + sum_list (todo <$> <[i := q]> l)))%nat. rewrite (IH i Hi Ht). lia.
Qed.

Lemma step_measure s s' : pool_inv s -> step s s' -> measure s = S (measure s').
Proof.
  intros Hi Hs. unfold measure. destruct Hs as [s i Hp _|s w i js Hw Hj|s w i Hw|s i r Hp]; cbn [phases].
  - by eapply measure_upd.
  - eapply measure_upd; [apply (inv_queued s Hi); rewrite Hj; left|done].
  - eapply measure_upd; [apply (inv_running s Hi); eauto|done].
  - by eapply measure_upd.
Qed.

(** Workers are never lost. *)
Lemma step_workers s s' : step s s' -> length (workers s') = length (workers s).
Proof. destruct 1; cbn; by rewrite ?length_insert. Qed.

(** While a job is queued or running, a worker can move. *)
Lemma worker_moves s : pool_inv s -> (0 < length (workers s))%nat ->
  (jobs s <> [] \/ exists i, phases s !! i = Some Running) -> exists s', step s s'.
Proof.
  intros Hi Hw [Hj|[i Hr]].
  - destruct (lookup_lt_is_Some_2 (workers s) 0 Hw) as [[i|] H0]; [by eexists; eapply step_finish|].
    destruct (jobs s) as [|i js] eqn:E; [done|]. eexists. by eapply step_take.
  - apply (inv_running s Hi) in Hr as [w Hww]. eexists. by eapply step_finish.
Qed.

Lemma progress s : pool_inv s -> (0 < length (workers s))%nat -> finished s \/ exists s', step s s'.
Proof.
  intros Hi Hw. destruct (decide (Forall (fun p => todo p = 0%nat) (phases s))) as [Hd|Hd].
  - left. intros i p Hp. pose proof (Forall_lookup_1 _ _ _ _ Hd Hp) as Ht. destruct p as [| | |r|r]; try discriminate Ht.
    f_equal. apply (inv_result s Hi i r). by right.
  - right. apply not_Forall_Exists, Exists_exists in Hd as (p & Hp & Ht); [|apply _].
    apply list_elem_of_lookup in Hp as [i Hp]. cbn in Ht. destruct p as [| | |r|r]; [| | | |done].
    + destruct (decide (length (jobs s) < DefaultWorkerQueueDepth)%nat) as [Hl|Hl]; [by eexists; eapply step_submit|].
      apply worker_moves; [done|done|left]. intros E. rewrite E in Hl. apply Hl. unfold DefaultWorkerQueueDepth. cbn. lia.
    + apply worker_moves; [done|done|left]. apply (inv_queued s Hi) in Hp. intros E. rewrite E in Hp. by apply not_elem_of_nil in Hp.
    + apply worker_moves; [done|done|right; eauto].
    + eexists. by eapply step_receive.
Qed.

Lemma reach_inv m n s : rtc step (init m n) s -> pool_inv s /\ length (workers s) = n.
Proof.
  intros Hr. assert (pool_inv (init m n) /\ length (workers (init m n)) = n) as H0
    by (split; [apply init_inv|apply length_replicate]). revert H0.
  induction Hr as [|s1 s2 s3 Hs _ IH]; [done|]. intros [Hi Hw]. apply IH.
  split; [by eapply pool_step_inv|by rewrite (step_workers _ _ Hs)].
Qed.

(** C39: the worker pool.  However the callers of Submit and at least one
    worker interleave, from any state they can reach: no execution is longer
    than four steps per job that is left, the pool is stuck only when every
    caller has received an answer, and every answer is the result of the
    caller's own function. *)
Theorem pool_completes njobs nworkers s :
  (0 < nworkers)%nat -> rtc step (init njobs nworkers) s ->
  (forall k s', nsteps step k s s' -> (k + measure s' = measure s)%nat) /\ (measure s <= 4 * njobs)%nat /\
  (exists s', rtc step s s' /\ finished s') /\
  ((forall s', ~ step s s') -> finished s).
Proof.
  intros Hn Hr. destruct (reach_inv _ _ _ Hr) as [Hi Hw].
  assert (Hk : forall k s1 s', pool_inv s1 -> nsteps step k s1 s' -> (k + measure s' = measure s1)%nat).
  { intros k s1 s' Hi1 Hs. induction Hs as [|k s1 s2 s3 Hst Hs IH]; [done|].
    rewrite (step_measure _ _ Hi1 Hst), <- IH by (by eapply pool_step_inv). lia. }
  assert (Hm0 : measure (init njobs nworkers) = (4 * njobs)%nat).
  { unfold measure, init. cbn [phases]. rewrite fmap_replicate, sum_list_replicate. cbn [todo]. lia. }
  split; [intros k s'; by apply Hk|]. split.
  { apply rtc_nsteps in Hr as [k Hr]. pose proof (Hk k _ _ (init_inv njobs nworkers) Hr). lia. }
  split.
  - assert (Hfin : forall n s1, measure s1 = n -> pool_inv s1 -> length (workers s1) = nworkers -> exists s', rtc step s1 s' /\ finished s').
    { induction n as [|n IH]; intros s1 Hms Hi1 Hw1; (destruct (progress s1 Hi1 ltac:(lia)) as [?|[s2 Hs]]; [by exists s1|]);
        pose proof (step_measure _ _ Hi1 Hs); [lia|].
      destruct (IH s2) as (s' & Hs' & ?); [lia|by eapply pool_step_inv|by rewrite (step_workers _ _ Hs)|]. exists s'. split; [by eapply rtc_l|done]. }
    by eapply Hfin.
  - intros Hstuck. destruct (progress s Hi ltac:(lia)) as [?|[s' Hs]]; [done|]. by destruct (Hstuck s').
Qed.

End Pool.

(** Three jobs, the second of which fails. *)
Definition sample_fn (i : nat) : option err := if (i =? 1)%nat then Some (Errorf "tfhe: homomorphic add failed") else None.

Lemma pool_completes_witness : exists s', rtc (step sample_fn) (init 3 1) s' /\ finished sample_fn s'.
Proof. apply (pool_completes sample_fn 3 1 (init 3 1)); [lia|constructor]. Defined.
End pool.

(** ** pqc/greenbft.go *)

Module scheduler.

(** The channel of capacity one, whether the goroutine runs, whether the
    context was cancelled, and the tasks that were completed. *)
Record Validator : Type := mkValidator {
  idleWindowCh : bool;
  running : bool;
  cancelled : bool;
  tasks : nat;
}.

Definition NewValidator : Validator := mkValidator false false false 0.

Definition NotifyIdle (v : Validator) : Validator := mkValidator true (running v) (cancelled v) (tasks v).

Definition ScheduleFHEComputation (v : Validator) : Validator :=
  if running v then v else mkValidator (idleWindowCh v) true (cancelled v) (tasks v).

Definition cancel (v : Validator) : Validator := mkValidator (idleWindowCh v) (running v) true (tasks v).

(** One round of the goroutine; [done_first] is the choice of a select with
    both cases ready.  A task that is cut short is not counted. *)
Definition round (done_first : bool) (v : Validator) : option Validator :=
  if negb (running v) then None else
  if cancelled v && (done_first || negb (idleWindowCh v)) then None else
  if idleWindowCh v then Some (mkValidator false true (cancelled v) (if cancelled v then tasks v else S (tasks v)))
  else None.

(** Signals that arrive before a round runs are merged into one task. *)
Lemma signals_merge v n : running v = true -> cancelled v = false ->
  exists v', round false (Nat.iter (S n) NotifyIdle v) = Some v' /\ tasks v' = S (tasks v) /\ round false v' = None.
Proof.
  intros Hr Hc. assert (Nat.iter (S n) NotifyIdle v = mkValidator true true false (tasks v)) as ->.
  { induction n as [|n IH]; [unfold Nat.iter, NotifyIdle; cbn; by rewrite Hr, Hc|]. cbn [Nat.iter nat_rect] in *. by rewrite IH. }
  eexists. split; [reflexivity|]. done.
Qed.
End scheduler.

(** ** Node keys: tfhe/node_keys.go and the plugin's own copy *)

(** Key generation, the [n]-th call ([None]: it fails), and which files can be
    written. *)
Class KeyGen : Type := {
  GenerateKeys : nat -> option (string * string);
  key_write_ok : string -> bool;
  UserHomeDir : option string;
}.

Module nodekeys.

(** The caches of package tfhe and of package cosmwasm, the disk, and how
    often keys were generated. *)
Record KeyState : Type := mkKeyState {
  node_cache : string * string;
  plugin_cache : string * string;
  disk : gmap string string;
  generated : nat;
}.

Section Keys.
Context `{KeyGen}.

Definition keyPaths (nodeHome : string) : string * string :=
  if bool_decide (nodeHome = "") then
    let home := default "." UserHomeDir in
    (home +:+ "/" +:+ ".zytherion_tfhe_client.key", home +:+ "/" +:+ ".zytherion_tfhe_server.key")
  else (nodeHome +:+ "/tfhe_client.key", nodeHome +:+ "/tfhe_server.key").

Definition write_key (path data : string) (fs : gmap string string) : gmap string string :=
  if key_write_ok path then <[path := data]> fs else fs.

(** Keys from the two files, or new ones: the keys, the disk and the count. *)
Definition load_or_generate (paths : string * string) (s : KeyState) : outcome (string * string) * KeyState :=
  let '(ckPath, skPath) := paths in
  match disk s !! ckPath, disk s !! skPath with
  | Some (String a ck), Some (String b sk) => (Ok (String a ck, String b sk), s)
  | _, _ =>
      let s := mkKeyState (node_cache s) (plugin_cache s) (disk s) (S (generated s)) in
      match GenerateKeys (pred (generated s)) with
      | None => (Err (Errorf "tfhe: key generation failed"), s)
      | Some (ck, sk) =>
          (Ok (ck, sk), mkKeyState (node_cache s) (plugin_cache s) (write_key skPath sk (write_key ckPath ck (disk s))) (generated s))
      end
  end.

(** node_keys.go *)
Definition EnsureNodeKeys (nodeHome : string) (s : KeyState) : outcome (string * string) * KeyState :=
  if negb (bool_decide (fst (node_cache s) = "")) then (Ok (node_cache s), s) else
  match load_or_generate (keyPaths nodeHome) s with
  | (Ok kp, s) => (Ok kp, mkKeyState kp (plugin_cache s) (disk s) (generated s))
  | r => r
  end.

(** ensureKeys of query_plugin.go *)
Definition ensureKeys (s : KeyState) : outcome (string * string) * KeyState :=
  if negb (bool_decide (fst (plugin_cache s) = "")) then (Ok (plugin_cache s), s) else
  match load_or_generate (keyPaths "") s with
  | (Ok kp, s) => (Ok kp, mkKeyState (node_cache s) kp (disk s) (generated s))
  | r => r
  end.

(** The process is started again: the disk is what is left. *)
Definition restart (s : KeyState) : KeyState := mkKeyState ("", "") ("", "") (disk s) (generated s).

Lemma paths_distinct nodeHome : fst (keyPaths nodeHome) <> snd (keyPaths nodeHome).
Proof.
  unfold keyPaths. case_bool_decide; cbn [fst snd]; intros E; apply string_app_inj in E; discriminate E.
Qed.

Lemma load_or_generate_disk paths ck sk s : ck <> "" -> sk <> "" ->
  disk s !! fst paths = Some ck -> disk s !! snd paths = Some sk -> load_or_generate paths s = (Ok (ck, sk), s).
Proof. destruct paths as [p q]. cbn [fst snd]. intros Hc Hk E1 E2. unfold load_or_generate. rewrite E1, E2. by destruct ck, sk. Qed.

(** A generated pair, with both files written. *)
Lemma generate_writes nodeHome s ck sk :
  (disk s !! fst (keyPaths nodeHome) = None \/ disk s !! snd (keyPaths nodeHome) = None) ->
  GenerateKeys (generated s) = Some (ck, sk) ->
  key_write_ok (fst (keyPaths nodeHome)) = true -> key_write_ok (snd (keyPaths nodeHome)) = true ->
  exists s', load_or_generate (keyPaths nodeHome) s = (Ok (ck, sk), s') /\ node_cache s' = node_cache s /\ plugin_cache s' = plugin_cache s /\
    disk s' = <[snd (keyPaths nodeHome) := sk]> (<[fst (keyPaths nodeHome) := ck]> (disk s)) /\ generated s' = S (generated s).
Proof.
  intros Hn Hg W1 W2. unfold load_or_generate. destruct (keyPaths nodeHome) as [p q] eqn:E. cbn [fst snd] in *.
  exists (mkKeyState (node_cache s) (plugin_cache s) (<[q := sk]> (<[p := ck]> (disk s))) (S (generated s))). split; [|done].
  destruct (disk s !! p) as [[|? ?]|], (disk s !! q) as [[|? ?]|]; destruct Hn as [Hn|Hn]; try discriminate Hn;
    cbn [generated pred disk node_cache plugin_cache]; rewrite Hg; unfold write_key; rewrite ?W1, ?W2; reflexivity.
Qed.

(** The keys last.  When the files are missing, key generation works and
    both files can be written, EnsureNodeKeys returns the new pair; every later
    call returns the same pair without generating again, in the same process
    and after a restart. *)
Theorem keys_persist nodeHome s ck sk :
  node_cache s = ("", "") ->
  (disk s !! fst (keyPaths nodeHome) = None \/ disk s !! snd (keyPaths nodeHome) = None) ->
  GenerateKeys (generated s) = Some (ck, sk) -> ck <> "" -> sk <> "" ->
  key_write_ok (fst (keyPaths nodeHome)) = true -> key_write_ok (snd (keyPaths nodeHome)) = true ->
  exists s', EnsureNodeKeys nodeHome s = (Ok (ck, sk), s') /\ generated s' = S (generated s) /\
    EnsureNodeKeys nodeHome s' = (Ok (ck, sk), s') /\
    exists s2, EnsureNodeKeys nodeHome (restart s') = (Ok (ck, sk), s2) /\ generated s2 = generated s'.
Proof.
  intros Hc Hn Hg Hck Hsk W1 W2. destruct (generate_writes nodeHome s ck sk Hn Hg W1 W2) as (s1 & E & _ & _ & Hd & Hgen).
  unfold EnsureNodeKeys at 1. rewrite Hc. cbn [fst]. rewrite bool_decide_true by done. cbn [negb]. rewrite E.
  eexists. split; [reflexivity|]. split; [exact Hgen|]. split.
  - unfold EnsureNodeKeys. cbn [node_cache fst]. by rewrite bool_decide_false.
  - unfold EnsureNodeKeys, restart. cbn [node_cache fst disk generated plugin_cache]. rewrite bool_decide_true by done. cbn [negb].
    rewrite (load_or_generate_disk _ ck sk); [by eexists|done..| |]; cbn [disk]; rewrite Hd.
    + rewrite lookup_insert_ne by (apply not_eq_sym, paths_distinct). apply lookup_insert_eq.
    + apply lookup_insert_eq.
Qed.

(** A node has two key pairs.  On a fresh node with a home directory that
    is not the user's, the keeper and the plugin for contracts each generate
    and keep a pair of their own: what a contract encrypts is not under the key
    the node decrypts with. *)
Theorem two_key_pairs nodeHome s kp1 kp2 :
  nodeHome <> "" -> fst (keyPaths nodeHome) <> fst (keyPaths "") -> snd (keyPaths nodeHome) <> fst (keyPaths "") ->
  node_cache s = ("", "") -> plugin_cache s = ("", "") -> disk s = ∅ ->
  GenerateKeys (generated s) = Some kp1 -> GenerateKeys (S (generated s)) = Some kp2 ->
  key_write_ok (fst (keyPaths nodeHome)) = true -> key_write_ok (snd (keyPaths nodeHome)) = true ->
  key_write_ok (fst (keyPaths "")) = true -> key_write_ok (snd (keyPaths "")) = true ->
  exists s1 s2, EnsureNodeKeys nodeHome s = (Ok kp1, s1) /\ ensureKeys s1 = (Ok kp2, s2) /\ node_cache s2 = kp1 /\ plugin_cache s2 = kp2.
Proof.
  intros Hh Hp1 Hp2 Hc Hpc Hd Hg1 Hg2 W1 W2 W3 W4. destruct kp1 as [ck1 sk1], kp2 as [ck2 sk2].
  destruct (generate_writes nodeHome s ck1 sk1 ltac:(left; rewrite Hd; apply lookup_empty) Hg1 W1 W2) as (s1 & E & En & Ep & Hd1 & Hgen).
  unfold EnsureNodeKeys. rewrite Hc. cbn [fst]. rewrite bool_decide_true by done. cbn [negb]. rewrite E.
  set (s1' := mkKeyState _ _ _ _). destruct (generate_writes "" s1' ck2 sk2) as (s2 & E2 & En2 & Ep2 & _ & _).
  - left. cbn [disk s1']. rewrite Hd1, Hd, !lookup_insert_ne by (by apply not_eq_sym). apply lookup_empty.
  - cbn [generated s1']. by rewrite Hgen.
  - done.
  - done.
  - exists s1'. unfold ensureKeys. replace (plugin_cache s1') with ("", "") by (cbn [plugin_cache s1']; by rewrite Ep). cbn [fst].
    rewrite bool_decide_true by done. cbn [negb]. rewrite E2. eexists. split; [reflexivity|]. split; [reflexivity|]. by rewrite En2.
Qed.
End Keys.

Section KeyWitnesses.
#[local] Instance keygen : KeyGen := {|
  GenerateKeys n := Some ("ck" +:+ String (ascii_of_nat (65 + n)) "", "sk" +:+ String (ascii_of_nat (65 + n)) "");
  key_write_ok _ := true;
  UserHomeDir := Some "/root";
|}.

Definition fresh_node : KeyState := mkKeyState ("", "") ("", "") ∅ 0.

Lemma keys_persist_witness : exists s', EnsureNodeKeys "/data" fresh_node = (Ok ("ckA", "skA"), s') /\
  exists s2, EnsureNodeKeys "/data" (restart s') = (Ok ("ckA", "skA"), s2).
Proof.
  destruct (keys_persist "/data" fresh_node "ckA" "skA") as (s' & E & _ & _ & s2 & E2 & _);
    [reflexivity|left; reflexivity|reflexivity|discriminate|discriminate|reflexivity|reflexivity|].
  exists s'. split; [exact E|]. exists s2. exact E2.
Defined.

Lemma two_key_pairs_witness : exists s1 s2, EnsureNodeKeys "/data" fresh_node = (Ok ("ckA", "skA"), s1) /\ ensureKeys s1 = (Ok ("ckB", "skB"), s2).
Proof.
  destruct (two_key_pairs "/data" fresh_node ("ckA", "skA") ("ckB", "skB")) as (s1 & s2 & E1 & E2 & _); try reflexivity; try discriminate.
  exists s1, s2. split; [exact E1|exact E2].
Defined.
End KeyWitnesses.
End nodekeys.

(** ** The queries of contracts: tfhe/cosmwasm *)

Module plugin.
Import nodekeys.

Record TFHEAddCTQuery : Type := mkTFHEAddCTQuery { CT1 : string; CT2 : string }.
Record TFHEMulScalarQuery : Type := mkTFHEMulScalarQuery { Ciphertext : string; Scalar : Z }.

(** The envelope; encoding/json leaves an absent field nil. *)
Record TFHECustomQuery : Type := mkTFHECustomQuery {
  Encrypt : option Z;
  Decrypt : option string;
  AddCT : option TFHEAddCTQuery;
  MulScalar : option TFHEMulScalarQuery;
  VerifyCT : option string;
}.

(** The value handed to json.Marshal. *)
Inductive response : Type :=
  | TFHECiphertextResponse (Ciphertext : string) (SizeBytes : Z)
  | TFHEPlaintextResponse (Value : Z)
  | TFHEVerifyResponse (Valid : bool) (SizeBytes : Z) (Message : string).

Definition minSize : Z := 8 * 1024.
Definition maxSize : Z := 32 * 1024 * 1024.

Definition strlen (s : string) : Z := Z.of_nat (String.length s).

Section Plugin.
Context `{KeyGen} `{TFHELib}.

(** A step that needs the keys, and the error each handler wraps. *)
Definition with_keys (name what : string) (f : string * string -> outcome response) (s : KeyState) : outcome response * KeyState :=
  match ensureKeys s with
  | (Ok kp, s) =>
      (match f kp with Ok r => Ok r | Err e => Err (Wrapf (name +:+ ": " +:+ what +:+ " failed") e) | Panic => Panic end, s)
  | (Err e, s) => (Err (Wrapf (name +:+ ": key error") e), s)
  | (Panic, s) => (Panic, s)
  end.

Definition ciphertext_response (o : outcome string) : outcome response :=
  match o with Ok ct => Ok (TFHECiphertextResponse ct (strlen ct)) | Err e => Err e | Panic => Panic end.

Definition handleEncrypt (Value : Z) : KeyState -> outcome response * KeyState :=
  with_keys "tfhe_encrypt" "encryption" (fun '(ck, _) => ciphertext_response (tfhe.EncryptUint32 ck Value)).

Definition handleDecrypt (ct : string) (s : KeyState) : outcome response * KeyState :=
  if bool_decide (ct = "") then (Err (Errorf "tfhe_decrypt: ciphertext is empty"), s) else
  with_keys "tfhe_decrypt" "decryption" (fun '(ck, _) =>
    match tfhe.DecryptUint32 ck ct with Ok v => Ok (TFHEPlaintextResponse v) | Err e => Err e | Panic => Panic end) s.

Definition handleAdd (q : TFHEAddCTQuery) (s : KeyState) : outcome response * KeyState :=
  if bool_decide (CT1 q = "") || bool_decide (CT2 q = "") then (Err (Errorf "tfhe_add: both ct1 and ct2 must be non-empty"), s) else
  with_keys "tfhe_add" "homomorphic addition" (fun '(_, sk) => ciphertext_response (tfhe.AddUint32 sk (CT1 q) (CT2 q))) s.

Definition handleMulScalar (q : TFHEMulScalarQuery) (s : KeyState) : outcome response * KeyState :=
  if bool_decide (Ciphertext q = "") then (Err (Errorf "tfhe_mul_scalar: ciphertext is empty"), s) else
  with_keys "tfhe_mul_scalar" "multiplication" (fun '(_, sk) =>
    ciphertext_response (tfhe.MultiplyScalarUint32 sk (Ciphertext q) (Scalar q))) s.

Definition handleVerify (ct : string) : response :=
  if bool_decide (ct = "") then TFHEVerifyResponse false 0 "ciphertext is empty" else
  if (strlen ct <? minSize) || (maxSize <? strlen ct)
  then TFHEVerifyResponse false (strlen ct) "ciphertext size out of expected range"
  else TFHEVerifyResponse true (strlen ct) "ciphertext appears well-formed".

(** The querier, from the decoded request ([None]: json.Unmarshal fails). *)
Definition NewTFHEQueryPlugin (request : option TFHECustomQuery) (s : KeyState) : outcome response * KeyState :=
  match request with
  | None => (Err (Errorf "tfhe: invalid custom query JSON"), s)
  | Some query =>
      match Encrypt query, Decrypt query, AddCT query, MulScalar query, VerifyCT query with
      | Some q, _, _, _, _ => handleEncrypt q s
      | _, Some q, _, _, _ => handleDecrypt q s
      | _, _, Some q, _, _ => handleAdd q s
      | _, _, _, Some q, _ => handleMulScalar q s
      | _, _, _, _, Some q => (Ok (handleVerify q), s)
      | _, _, _, _, _ => (Err (Errorf "tfhe: unknown custom query"), s)
      end
  end.

(** *** What the queries compute *)

(** The plugin holds a pair of keys of one configuration, as GenerateKeys
    makes them. *)
Context {Conf : Type} (key_conf : string -> Conf) (encrypts : Conf -> string -> Z -> Prop) `{!TFHELaws key_conf encrypts}.

Definition keyed (s : KeyState) (ck sk : string) : Prop :=
  plugin_cache s = (ck, sk) /\ ck <> "" /\ key_conf ck = key_conf sk.

Lemma with_keys_ok name what f s r s' ck sk : keyed s ck sk -> with_keys name what f s = (Ok r, s') ->
  s' = s /\ f (ck, sk) = Ok r.
Proof.
  intros (Hc & Hne & _). unfold with_keys, ensureKeys. rewrite Hc. cbn [fst]. rewrite bool_decide_false by done. cbn [negb].
  destruct (f (ck, sk)) as [r'|e|] eqn:E; intros [= ? <-]; by subst.
Qed.

Lemma ciphertext_response_ok o r : ciphertext_response o = Ok r -> exists ct, o = Ok ct /\ r = TFHECiphertextResponse ct (strlen ct).
Proof. destruct o; cbn; intros [= <-]; eauto. Qed.

Lemma handleEncrypt_encrypts v s r s' ck sk : keyed s ck sk -> handleEncrypt v s = (Ok r, s') ->
  s' = s /\ exists ct, r = TFHECiphertextResponse ct (strlen ct) /\ encrypts (key_conf sk) ct (wrap_u32 v).
Proof.
  intros Hk Hr. destruct (with_keys_ok _ _ _ _ _ _ _ _ Hk Hr) as (-> & (ct & E & ->)%ciphertext_response_ok).
  split; [done|]. exists ct. split; [done|]. rewrite <- (proj2 (proj2 Hk)). exact (proj2 (tfhe.EncryptUint32_encrypts _ _ _ E)).
Qed.

Lemma handleAdd_encrypts q s r s' ck sk m n : keyed s ck sk ->
  encrypts (key_conf sk) (CT1 q) m -> encrypts (key_conf sk) (CT2 q) n -> handleAdd q s = (Ok r, s') ->
  s' = s /\ exists ct, r = TFHECiphertextResponse ct (strlen ct) /\ encrypts (key_conf sk) ct (wrap_u32 (m + n)).
Proof.
  unfold handleAdd. intros Hk Hm Hn. destruct (_ || _); [discriminate|]. intros Hr.
  destruct (with_keys_ok _ _ _ _ _ _ _ _ Hk Hr) as (-> & (ct & E & ->)%ciphertext_response_ok).
  split; [done|]. exists ct. split; [done|]. by eapply tfhe.AddUint32_encrypts.
Qed.

Lemma handleMulScalar_encrypts q s r s' ck sk m : keyed s ck sk ->
  encrypts (key_conf sk) (Ciphertext q) m -> handleMulScalar q s = (Ok r, s') ->
  s' = s /\ exists ct, r = TFHECiphertextResponse ct (strlen ct) /\ encrypts (key_conf sk) ct (wrap_u32 (m * Scalar q)).
Proof.
  unfold handleMulScalar. intros Hk Hm. case_bool_decide; [discriminate|]. intros Hr.
  destruct (with_keys_ok _ _ _ _ _ _ _ _ Hk Hr) as (-> & (ct & E & ->)%ciphertext_response_ok).
  split; [done|]. exists ct. split; [done|]. by eapply tfhe.MultiplyScalarUint32_encrypts.
Qed.

Lemma handleDecrypt_encrypts ct s r s' ck sk m : keyed s ck sk ->
  encrypts (key_conf sk) ct m -> handleDecrypt ct s = (Ok r, s') -> r = TFHEPlaintextResponse m.
Proof.
  unfold handleDecrypt. intros Hk Hm. case_bool_decide; [discriminate|]. intros Hr.
  destruct (with_keys_ok _ _ _ _ _ _ _ _ Hk Hr) as (_ & E).
  destruct (tfhe.DecryptUint32 ck ct) as [n|e|] eqn:En; try discriminate E. injection E as <-.
  rewrite <- (proj2 (proj2 Hk)) in Hm. by rewrite (tfhe.DecryptUint32_encrypts _ _ _ _ Hm En).
Qed.

(** What a contract computes on ciphertexts is what it decrypts: while the
    plugin holds one pair of keys, encrypting [a] and [b], adding, scaling by
    [k] and decrypting answers (a + b) * k modulo 2^32. *)
Theorem contract_computes ck sk a b k s ca cb cs cm na nb ns nm r t1 t2 t3 t4 t5 :
  keyed s ck sk ->
  handleEncrypt a s = (Ok (TFHECiphertextResponse ca na), t1) -> handleEncrypt b t1 = (Ok (TFHECiphertextResponse cb nb), t2) ->
  handleAdd (mkTFHEAddCTQuery ca cb) t2 = (Ok (TFHECiphertextResponse cs ns), t3) ->
  handleMulScalar (mkTFHEMulScalarQuery cs k) t3 = (Ok (TFHECiphertextResponse cm nm), t4) ->
  handleDecrypt cm t4 = (Ok r, t5) -> r = TFHEPlaintextResponse (wrap_u32 ((a + b) * k)).
Proof.
  intros Hk Ea Eb Es Em Er.
  destruct (handleEncrypt_encrypts _ _ _ _ _ _ Hk Ea) as (-> & ? & [= <- _] & Pa).
  destruct (handleEncrypt_encrypts _ _ _ _ _ _ Hk Eb) as (-> & ? & [= <- _] & Pb).
  destruct (handleAdd_encrypts (mkTFHEAddCTQuery ca cb) _ _ _ _ _ _ _ Hk Pa Pb Es) as (-> & ? & [= <- _] & Ps).
  destruct (handleMulScalar_encrypts (mkTFHEMulScalarQuery cs k) _ _ _ _ _ _ Hk Ps Em) as (-> & ? & [= <- _] & Pm).
  rewrite (handleDecrypt_encrypts _ _ _ _ _ _ _ Hk Pm Er). f_equal. cbn [Scalar]. unfold wrap_u32.
  by rewrite <- Zplus_mod, Zmult_mod_idemp_l.
Qed.
End Plugin.
End plugin.

(** ** The chain of block hashes: EndBlock of x/privacy/module.go *)

Module hashchain.
Import lwr.

(** What EndBlock reads of the header. *)
Record Header : Type := mkHeader {
  hd_Height : Z;
  hd_DataHash : string;
  hd_AppHash : string;
}.

Section Chain.
Context `{Crypto} `{Shake}.

(** [GenerateLWRBlockHash] returns a nil error on every path, so the branch
    that falls back to GenerateBlockHash is never taken; [None] is a sampling
    loop that needs more fuel. *)
Definition GenerateLWRBlockHashWithFallback (fuel : nat) (input : BlockHashInput) : option string :=
  GenerateLWRBlockHash fuel (canonicalise input) (bi_PrevHash input).

(** The value at LatestPQCHashKey, before and after the block. *)
Definition block_input (h : Header) (latest : option string) : BlockHashInput :=
  mkBlockHashInput (hd_Height h) (default "" latest) (hd_AppHash h) [hd_DataHash h] "" "" 0.

Definition EndBlock (fuel : nat) (h : Header) (latest : option string) : option (option string) :=
  Some <$> GenerateLWRBlockHashWithFallback fuel (block_input h latest).

(** app/pqc_apphash.go *)
Definition GetLatestPQCHash (latest : option string) : option string := latest.

(** The blocks of a chain, from genesis. *)
Definition replay (fuel : nat) (bs : list Header) : option (option string) :=
  foldl (fun st b => st ≫= EndBlock fuel b) (Some None) bs.

(** The bytes whose SHA3-256 is the seed of a block's hash. *)
Definition seed_input (h : Header) (latest : option string) : string :=
  canonicalise (block_input h latest) +:+ bi_PrevHash (block_input h latest).

Fixpoint seed_inputs_from (fuel : nat) (latest : option string) (bs : list Header) : list string :=
  match bs with
  | [] => []
  | b :: bs => seed_input b latest :: match EndBlock fuel b latest with Some l => seed_inputs_from fuel l bs | None => [] end
  end.
Definition seed_inputs (fuel : nat) (bs : list Header) : list string := seed_inputs_from fuel None bs.
End Chain.

(** Headers as Tendermint makes them: heights of 64 bits, hashes of 32 bytes. *)
Definition header_ok (h : Header) : Prop :=
  0 <= hd_Height h < two63 /\ String.length (hd_DataHash h) = 32%nat /\ String.length (hd_AppHash h) = 32%nat.

Section Theorems.
Context `{Crypto} `{!Sha3Laws} `{Shake} (fuel : nat).

Lemma replay_snoc bs b : replay fuel (bs ++ [b]) = replay fuel bs ≫= EndBlock fuel b.
Proof. unfold replay. by rewrite foldl_app. Qed.

Lemma EndBlock_seed b l r : EndBlock fuel b l = Some r ->
  exists coeffs, r = Some (sha3_256 (seed_input b l) +:+ coeffs) /\ String.length (default "" r) = LWRHashSize.
Proof.
  unfold EndBlock, GenerateLWRBlockHashWithFallback. destruct (GenerateLWRBlockHash _ _ _) as [h|] eqn:E; [|done].
  intros [= <-]. pose proof (GenerateLWRBlockHash_length _ _ _ _ E) as Hl. unfold GenerateLWRBlockHash in E.
  destruct (expandMatrix _ _) as [a|]; [|done]. apply (inj Some) in E. eexists. split; [|exact Hl]. by rewrite <- E.
Qed.

Lemma replay_latest bs l : replay fuel bs = Some l -> (bs = [] /\ l = None) \/ (bs <> [] /\ String.length (default "" l) = LWRHashSize).
Proof.
  destruct bs as [|b bs _] using rev_ind; [intros [= <-]; by left|]. rewrite replay_snoc. intros E. right. split; [by destruct bs|].
  destruct (replay fuel bs) as [l0|]; [|done]. cbn in E. by apply EndBlock_seed in E as (? & _ & ?).
Qed.

Lemma seed_inputs_from_snoc bs b : forall l0 l, foldl (fun st b => st ≫= EndBlock fuel b) (Some l0) bs = Some l ->
  seed_input b l ∈ seed_inputs_from fuel l0 (bs ++ [b]) /\ seed_inputs_from fuel l0 bs ⊆ seed_inputs_from fuel l0 (bs ++ [b]).
Proof.
  induction bs as [|b0 bs IH]; intros l0 l; cbn [foldl app seed_inputs_from]; [intros [= <-]; split; [left|set_solver]|].
  cbn [mbind option_bind]. destruct (EndBlock fuel b0 l0) as [l1|] eqn:E; cbn.
  - intros Hl. apply IH in Hl as [Hin Hsub]. split; [by right|set_solver].
  - intros Hl. exfalso. clear -Hl. induction bs as [|b bs IH]; [done|]. by apply IH.
Qed.

(** Every byte of the seed's input has its place. *)
Lemma seed_input_inj b b' l l' : header_ok b -> header_ok b' ->
  (l = None \/ String.length (default "" l) = LWRHashSize) -> (l' = None \/ String.length (default "" l') = LWRHashSize) ->
  seed_input b l = seed_input b' l' -> b = b' /\ default "" l = default "" l'.
Proof.
  destruct b as [h d a], b' as [h' d' a']. unfold header_ok. cbn [hd_Height hd_DataHash hd_AppHash].
  intros (Hh & Hd & Ha) (Hh' & Hd' & Ha') Hl Hl' E. unfold seed_input, canonicalise, block_input in E.
  cbn [bi_Height bi_PrevHash bi_AppHash bi_Transactions bi_PoVLStateRoot bi_PoVLProof bi_PoVLStepCount
       hd_Height hd_DataHash hd_AppHash concat_all foldr] in E.
  rewrite <- !str_app_assoc in E.
  apply str_app_inj_len in E as [E1 E]; [|by rewrite !proposal.be_bytes_length].
  apply str_app_inj_len in E as [_ E]; [|done].
  apply str_app_inj_len in E as [_ E]; [|by rewrite !zeroPad32_length].
  apply str_app_inj_len in E as [_ E]; [|done].
  apply str_app_inj_len in E as [-> E]; [|by rewrite Ha, Ha'].
  apply str_app_inj_len in E as [_ E]; [|done].
  apply str_app_inj_len in E as [-> E]; [|by rewrite Hd, Hd']. split; [|exact E].
  f_equal. apply (f_equal be_val) in E1. unfold wrap_u64, two63, two64 in *.
  rewrite !proposal.be_val_bytes, !Z.mod_small in E1 by (rewrite ?Z.mod_small; cbn; lia). done.
Qed.

(** C13: the latest hash commits to the whole chain.  Two chains whose EndBlocks
    leave the same hash under LatestPQCHashKey have the same blocks (heights,
    data hashes and application hashes), unless two of the strings EndBlock
    hashed are a collision of SHA3-256. *)
Theorem latest_hash_binds_history bs bs' l :
  Forall header_ok bs -> Forall header_ok bs' ->
  replay fuel bs = Some l -> replay fuel bs' = Some l ->
  (forall x y, x ∈ seed_inputs fuel bs -> y ∈ seed_inputs fuel bs' -> sha3_256 x = sha3_256 y -> x = y) ->
  bs = bs'.
Proof.
  revert bs' l. induction bs as [|b bs IH] using rev_ind; intros bs' l Hok Hok' E E' Hinj.
  { apply replay_latest in E' as [[-> _]|[_ Hl]]; [done|]. injection E as <-. discriminate Hl. }
  destruct bs' as [|b' bs' _] using rev_ind.
  { apply replay_latest in E as [[E _]|[_ Hl]]; [done|]. injection E' as <-. discriminate Hl. }
  rewrite replay_snoc in E, E'. apply Forall_app in Hok as [Hok [Hb _]%Forall_cons], Hok' as [Hok' [Hb' _]%Forall_cons].
  destruct (replay fuel bs) as [l1|] eqn:E1; [|done]. destruct (replay fuel bs') as [l1'|] eqn:E1'; [|done]. cbn in E, E'.
  apply EndBlock_seed in E as (c & -> & _), E' as (c' & [= E'] & _).
  apply str_app_inj_len in E' as [Hs _]; [|by rewrite !sha3_length].
  destruct (seed_inputs_from_snoc bs b None l1 E1) as [Hin Hsub], (seed_inputs_from_snoc bs' b' None l1' E1') as [Hin' Hsub'].
  apply (Hinj _ _ Hin Hin') in Hs. pose proof (replay_latest _ _ E1) as Hl1. pose proof (replay_latest _ _ E1') as Hl1'.
  apply seed_input_inj in Hs as [-> Hd]; [|done|done|tauto|tauto]. f_equal.
  assert (l1 = l1') as ->.
  { destruct Hl1 as [[_ ->]|[_ Hl1]], Hl1' as [[_ ->]|[_ Hl1']]; cbn in *; [done|by rewrite <- Hd in Hl1'|by rewrite Hd in Hl1|].
    destruct l1, l1'; cbn in *; [by rewrite Hd|discriminate..]. }
  eapply IH; [done|done|done|done|]. intros x y Hx Hy. apply Hinj; [by apply Hsub|by apply Hsub'].
Qed.
End Theorems.

Section Witnesses.
#[local] Existing Instance toy_shake.
#[local] Existing Instance toy_pqc.
#[local] Existing Instance toy_sha3_laws.
#[local] Opaque polyMulRound.

Definition zero32 : string := zero_bytes 32.

Lemma latest_hash_binds_history_witness :
  exists l, replay 256 [mkHeader 1 zero32 zero32] = Some l /\ replay 256 [mkHeader 2 zero32 zero32] <> Some l.
Proof.
  assert (exists l, replay 256 [mkHeader 1 zero32 zero32] = Some l) as [l E].
  { unfold replay. cbn [foldl mbind option_bind]. unfold EndBlock, GenerateLWRBlockHashWithFallback, GenerateLWRBlockHash.
    rewrite toy_expand. eexists. reflexivity. }
  exists l. split; [exact E|]. intros E'.
  assert ([mkHeader 1 zero32 zero32] = [mkHeader 2 zero32 zero32]) as C; [|discriminate C].
  apply (latest_hash_binds_history 256 [mkHeader 1 zero32 zero32] [mkHeader 2 zero32 zero32] l).
  - repeat constructor; unfold two63; cbn; lia.
  - repeat constructor; unfold two63; cbn; lia.
  - exact E.
  - exact E'.
  - intros x y Hx Hy. cbn [seed_inputs seed_inputs_from] in Hx, Hy.
    destruct (EndBlock _ _ _) in Hx; destruct (EndBlock _ _ _) in Hy;
      apply list_elem_of_singleton in Hx as ->, Hy as ->; vm_compute; intros C; discriminate C.
Defined.
End Witnesses.
End hashchain.
